(* ===== verification/_CoqProject ===== *)
-Q . S2P
Prelude.v
Xdp.v
Parsing.v
Stats.v
Rewrite.v
Checksum.v
Packet03.v
Packet02.v
SwitchKern.v
Ring.v
AfXdp.v
AfXdpInv.v
AfXdpSafe.v
Datapath.v
SharedUmem.v
BpfProg.v
Os.v
XskCreate.v
XskResources.v
Params.v
Configure.v
Variants.v
Hashmap.v
Jhash.v
Nlattr.v
Netlink.v
LinkUser.v
ProgLinfo.v
RedirectUser.v
StatsUser.v
Btf.v
BtfExt.v
Object.v
Pinning.v
BpfSys.v
CpuCount.v
ObjMaps.v
Reloc.v
ObjLoad.v
SecNames.v
Elf.v
OpenMaps.v
Probe.v
BtfLoad.v
BtfSane.v
CoreSpec.v
ObjOpen.v
Core.v
Loader.v
Switch.v
Links.v
PerfBuf.v
PerfRing.v
ProgInfo.v
