(* ===== verification/Prelude.v ===== *)
(** * backupswitch: a verification development

    ** The program

    The repository is an AF_XDP software switch and the lessons it grew from.  A
    packet that arrives on an interface first meets an XDP program in the kernel
    (basic01 to basic04, packet01 to packet03, switchtsn/af_xdp_kern_david.c); the
    program parses and rewrites it (common/parsing_helpers.h, rewrite_helpers.h),
    counts it (common/xdp_stats_kern.h) and passes, drops, reflects or redirects it,
    possibly to an AF_XDP socket.  A user program (switchtsn/af_xdp_user.c and its
    variants) owns the socket: it parses its command line (common/common_params.c),
    creates a packet memory (umem) and a socket on it through libbpf
    (libbpf/src/xsk.c), and runs a loop that moves frames between the four rings it
    shares with the kernel (libbpf/src/xsk.h), answering ICMPv6 echo requests.
    Around them are tools: a loader attaches programs to interfaces through netlink
    (common/common_user_bpf_xdp.c, libbpf/src/netlink.c) and pins their maps
    (basic04-pinning-maps/xdp_loader.c), one tool fills the redirect maps
    (packet03-redirecting/xdp_prog_user.c) and one shows the statistics
    (basic04-pinning-maps/xdp_stats.c).

    ** How C is modelled

    Machine integers are [Z] with the wrap-around written out ([u8] ... [s32] below).
    Stateful code is a function of the state monad [M] below, in which [None] is a
    fault: an access outside the packet, the umem or a ring, a null or uninitialised
    pointer, a failed assertion.  [wp c Q s] is total correctness: [c] started in [s]
    does not fault and ends with [Q].  A loop has a bound: lists for counted loops,
    fuel for the retry loop of [handle_receive_packets] (shown not to be needed), for
    the interpreter of BpfProg (18 instructions, shown to be enough), and for the
    loops of jhash, the attribute parser and the access strings (the length of the input,
    shown to be enough), and for the search of a field in nested structures (65 levels, of
    which the code allows 64), and for the reader of perf buffers (one turn for each record, shown
    to be enough).  The source retries a system call that answers EAGAIN without a bound; what is shown
    is for kernels that give another answer after at most [k_patience] in a row (BpfSys).  The
    retry of [load_program] with a larger log buffer is bounded by eight attempts (a law bounds
    the log, so the 32-bit size never overflows).  Loops without an end (polling) take the
    number of turns as an argument and the theorems hold for every number.  What the kernel, libc or a caller decides is a parameter given by a type
    class, with the documented behaviour as a second class of laws: [BpfHelpers] and
    [BpfHelpersOk] (Xdp), [XskKernel] and [XskKernelOk] (AfXdp), [Os] and [OsOk] (Os),
    [Helpers] (BpfProg), [KeyOps] and [KeyOk] (Hashmap), [NlKernel], [LinkKernel] and
    [LinkKernelOk] (Netlink), [XdpDevices] and [XdpDevicesOk] (LinkUser), [PinnedMaps]
    and [PinnedMapsOk] (RedirectUser), [StatsKernel] and [StatsKernelOk] (StatsUser),
    [PinKernel] and [PinKernelOk] (Pinning), [BpfKernel] and [BpfKernelOk] (BpfSys),
    [Libelf] and [LibelfOk] (Elf).
    Theorems hold for every instance; the witnesses use concrete ones.

    ** The files

    - Prelude: integers, the monad, [wp], lists indexed by [Z].
    - Xdp: packets as byte lists with addresses, verdicts, the BPF helpers.
    - Parsing: common/parsing_helpers.h.  The Ethernet/VLAN parser computes the
      reference decoder of the wire format, and decoding inverts encoding.
    - Stats: common/xdp_stats_kern.h and the programs of basic01 to basic04.
    - Rewrite: common/rewrite_helpers.h.  Tag push and pop, address swaps.
    - Checksum: csum_fold_helper, icmp_checksum_diff, csum16_add and friends, against
      the arithmetic of one's complement sums modulo 65535.
    - Packet03: packet03-redirecting/xdp_prog_kern.c.  Echo responder, redirectors,
      router, each with a postcondition for every branch.
    - Packet02: packet02-rewriting and packet01-parsing (modules P02 and P01).
    - SwitchKern: switchtsn/af_xdp_kern_david.c and the program of go-approach.
    - Ring: libbpf/src/xsk.h.  The rings implement bounded FIFO queues across the
      wrap-around of their 32-bit indices.
    - AfXdp: the data path of switchtsn/af_xdp_user.c as operations on a [world]: the
      four rings, the umem, the free list, the frames the kernel holds.  The kernel is
      a step relation [kstep] and runs between the ring operations.
    - AfXdpInv, AfXdpSafe, Datapath: the invariant (every frame is in exactly one
      place), that kernel steps and every operation keep it, and the theorems on the
      loop, the handler, the packet processing and the start.
    - SharedUmem: the handlers of af_xdp_david_shared.c and what they lose.
    - BpfProg: the instruction array of xsk_load_xdp_prog, run by an interpreter.
    - Os: heap blocks, descriptors and mappings as resources, the system calls.
    - XskCreate, XskResources: libbpf/src/xsk.c.  What creating and deleting umems and
      sockets owns, gives back and leaks.
    - Params: common/common_params.c.
    - Configure: configure_xsk_umem and xsk_configure_socket; joins XskCreate, Params
      and the data path: start-up reaches the invariant of the loop.
    - Variants: functions of the other copies of the programs that have the same text.
    - Hashmap: libbpf/src/hashmap.c refines a finite map.
    - Jhash: headers/jhash.h.
    - Nlattr: libbpf/src/nlattr.c.  Parsing inverts encoding and is safe on any bytes.
    - Netlink: libbpf/src/netlink.c.  Requests as byte strings, the receive loop over the
      datagrams of the answer: setting a link asks the kernel for exactly what the caller
      asked, reading it finds the program of the device in any dump.
    - LinkUser: attach, detach and the map check of common/common_user_bpf_xdp.c, on top
      of Netlink: which program runs on which device afterwards.
    - ProgLinfo: libbpf/src/bpf_prog_linfo.c.  Dissection, searches, ownership of blocks.
    - RedirectUser: packet03-redirecting/xdp_prog_user.c, joined with Packet03: after a
      successful run the redirect program forwards the configured source.
    - StatsUser: basic04-pinning-maps/xdp_stats.c and what differs in basic03, joined
      with Stats: a printed line is what the recording program counted between two
      successive readings, over all CPUs, where these are numbered without gaps.
    - Pinning: the pin functions of libbpf/src/libbpf.c and the loader's use of them:
      the flags of the maps are true to the file system, pinning is all or nothing.
    - Btf: the parser, the type table and the lookups of libbpf/src/btf.c.  Parsing
      inverts encoding; sizes are those of the type language.
    - BtfExt: the section .BTF.ext (btf.c): parsing is safe on any bytes, copying records
      finds the first section of the name.
    - Object: the structures of libbpf/src/libbpf.c ([bpf_object], [bpf_program],
      [bpf_map]), setters, iterators and searches.
    - BpfSys: libbpf/src/bpf.c.  The requests as values, the kernel as a class, which
      descriptors each wrapper opens; loading a program asks for what the caller asked.
    - CpuCount: libbpf_num_possible_cpus.
    - ObjMaps: creating and reusing the maps of an object.
    - Reloc: relocating programs against the maps and .text.
    - ObjLoad: loading programs and objects, unloading and closing; the load of an object
      is all or nothing.
    - SecNames: the section names of libbpf.c; a section is typed by its longest match.
    - Elf: object files through libelf: programs, names, license, sizes and offsets.
    - OpenMaps: the maps an object file defines, decoded from its bytes.
    - Probe: libbpf_probes.c and the capabilities of libbpf.c; probing leaves nothing open.
    - BtfLoad: completing, sanitizing and loading the type information of an object.
    - BtfSane: after sanitizing, the type information holds only kinds the kernel knows.
    - CoreSpec: CO-RE relocation, the types: access strings, matching a field between the
      types of the program and of the kernel, the value an instruction gets.  The field
      found has the same names and indices and a compatible type, and the four values of a
      field fit together.  Access strings with negative numbers are left out, on which the
      code reads outside the type.
    - ObjOpen: bpf_object__open: walking the sections, collecting relocations, guessing
      types; an opened object is one that loading can take.
    - Core: CO-RE relocation, the object: the kernel's type information, candidates and
      their cache (a Hashmap), the records; joins CoreSpec and Reloc: relocation applies
      every record and is what loading an object relies on.  The blocks of the candidates
      are asked for too short; how long the allocator makes them is a parameter.
    - Loader: bpf_prog_load_xattr, the load functions of common_user_bpf_xdp.c and
      common_libbpf.c, the main functions of the loaders; joins ObjOpen, ObjLoad and
      LinkUser: after a successful run the device runs the configured program of the file.
    - Switch: the main functions of the AF_XDP programs and their statistics; joins Loader,
      Configure, the data path, XskResources and LinkUser: a run of the switch keeps the
      invariant and gives back what it took, and the programs with two devices never start.
    - Links: attaching programs to probes and tracepoints; a link owns its hook.
    - PerfBuf: creating and freeing perf buffers, all or nothing.
    - PerfRing: reading the records of perf buffers around the end of their pages, polling.
    - ProgInfo: bpf_program__get_prog_info_linear; the arrays fit their block, and pointers
      turn into offsets and back.

    ** What is not modelled

    Printing, getopt_long, and af_xdp_david_2umem.c, which is not C.  The two programs with a second
    socket are modelled up to that socket, which they never get.  Of libbpf:
    the dump and the deduplication of BTF, bpf_probe_helper, error
    texts.  CO-RE relocation is a parameter of Reloc and ObjLoad, for which Core gives the
    code and proves the law.  libelf is a class; getopt_long
    enters as the list of options it returns; of printed rates the operands are modelled,
    not the floating point quotients.  The uapi headers, the Go programs and the shell test
    environment are outside the development.  The files before BpfSys take the wrappers of
    bpf.c as calls of their own kernel classes.  In XskResources the attachment of programs
    to interfaces is not a resource of [Os], so that Switch says nothing of what the last
    detaching finds on the device; errno is kept, other side effects of failing
    calls are not.  The heap of objects is not tracked: an allocation is a question that the
    system may answer with no.  Memory ordering is sequential: the barriers of xsk.h are
    between accesses that the model already orders.  The theorems on opening, on the
    loaders and on the switch with a program of its own are for object files without type
    information (no section .BTF). *)

From stdpp Require Export base decidable list numbers option.
From Stdlib Require Export ZArith Lia.

#[local] Open Scope Z_scope.

(** ** Machine integers

    A w-bit unsigned C integer is a [Z] kept in [0, 2^w); the casts and the
    arithmetic of the source wrap with the functions below.  [s32] is the
    conversion to the two's complement [int]. *)

Definition u8 (z : Z) : Z := z mod 256.
Definition u16 (z : Z) : Z := z mod 65536.
Definition u32 (z : Z) : Z := z mod 4294967296.
Definition u64 (z : Z) : Z := z mod 18446744073709551616.
Definition s32 (z : Z) : Z := (z + 2147483648) mod 4294967296 - 2147483648.

Definition is_u8 (z : Z) : Prop := 0 <= z < 256.
Definition is_u16 (z : Z) : Prop := 0 <= z < 65536.
Definition is_u32 (z : Z) : Prop := 0 <= z < 4294967296.
Definition is_u64 (z : Z) : Prop := 0 <= z < 18446744073709551616.

(** [int_solve] opens the wrap-around functions and hands the resulting
    linear problem (with euclidean equations for [mod] and [/]) to [lia]. *)
Ltac int_unfold :=
  unfold u8, u16, u32, u64, s32, is_u8, is_u16, is_u32, is_u64 in *.
Ltac int_solve := int_unfold; Z.div_mod_to_equations; lia.

Lemma u8_range z : is_u8 (u8 z). Proof. int_solve. Qed.
Lemma u16_range z : is_u16 (u16 z). Proof. int_solve. Qed.
Lemma u32_range z : is_u32 (u32 z). Proof. int_solve. Qed.
Lemma u64_range z : is_u64 (u64 z). Proof. int_solve. Qed.
Lemma u8_small z : is_u8 z -> u8 z = z. Proof. int_solve. Qed.
Lemma u16_small z : is_u16 z -> u16 z = z. Proof. int_solve. Qed.
Lemma u32_small z : is_u32 z -> u32 z = z. Proof. int_solve. Qed.
Lemma u64_small z : is_u64 z -> u64 z = z. Proof. int_solve. Qed.
Lemma s32_small z : -2147483648 <= z < 2147483648 -> s32 z = z.
Proof. int_solve. Qed.

(** Wrap-around counters: the difference of two wrapped counters is the
    difference of the counters, as long as that is in range. *)
Lemma u32_sub a b : u32 (u32 a - u32 b) = u32 (a - b).
Proof. unfold u32. by rewrite <- Zminus_mod. Qed.
Lemma u32_add a b : u32 (u32 a + b) = u32 (a + b).
Proof. unfold u32. by rewrite Zplus_mod_idemp_l. Qed.
Lemma u32_u32 a : u32 (u32 a) = u32 a.
Proof. unfold u32. by rewrite Zmod_mod. Qed.

Create HintDb ints.
Create Rewrite HintDb ints.
Create Rewrite HintDb lists.
Create HintDb prog.
#[export] Hint Resolve u8_range u16_range u32_range u64_range : ints.
#[export] Hint Rewrite u32_sub u32_add u32_u32 : ints.

(** ** Programs with state and faults

    The stateful C code is written in a state monad in which [None] is an
    undefined behaviour of the C program: an access outside the packet or
    the buffer, the use of an uninitialised pointer, a failed assertion. *)

Definition M (S A : Type) : Type := S -> option (A * S).

Definition ret {S A} (a : A) : M S A := fun s => Some (a, s).
Definition bind {S A B} (c : M S A) (k : A -> M S B) : M S B :=
  fun s => match c s with Some (a, s') => k a s' | None => None end.
Definition fault {S A} : M S A := fun _ => None.
Definition gets {S A} (f : S -> A) : M S A := fun s => Some (f s, s).
Definition modify {S} (f : S -> S) : M S unit := fun s => Some (tt, f s).
Definition guard_ {S} (b : bool) : M S unit :=
  if b then ret tt else fault.
(** Using a pointer variable that no path has initialised is a fault. *)
Definition deref {S A} (o : option A) : M S A :=
  match o with Some a => ret a | None => fault end.

Declare Scope prog_scope.
Delimit Scope prog_scope with prog.
Notation "'let!' x := c 'in' k" := (bind c (fun x => k))
  (at level 10, x pattern, c at level 100, k at level 200,
   format "'[v' 'let!'  x  :=  c  'in' '/' k ']'") : prog_scope.
Notation "c ;;; k" := (bind c (fun _ => k))
  (at level 199, right associativity) : prog_scope.
#[export] Hint Unfold ret bind fault gets modify guard_ deref : prog.

(** [wp c Q s]: started in [s], the program [c] runs without a fault and its
    result and final state satisfy [Q].  This is total correctness: a faulting
    program satisfies no [wp]. *)
Definition wp {S A} (c : M S A) (Q : A -> S -> Prop) (s : S) : Prop :=
  match c s with Some (a, s') => Q a s' | None => False end.

Section WpRules.
Context {S A B : Type}.
Implicit Types (Q : A -> S -> Prop) (s : S).

Lemma wp_ret a Q s : Q a s -> wp (ret a) Q s.
Proof. done. Qed.
Lemma wp_bind (c : M S A) (k : A -> M S B) (R : B -> S -> Prop) s :
  wp c (fun a s' => wp (k a) R s') s -> wp (bind c k) R s.
Proof. unfold wp, bind. by destruct (c s) as [[a s']|]. Qed.
Lemma wp_unbind (c : M S A) (k : A -> M S B) (R : B -> S -> Prop) s :
  wp (bind c k) R s -> wp c (fun a s' => wp (k a) R s') s.
Proof. unfold wp, bind. by destruct (c s) as [[a s']|]. Qed.
Lemma wp_gets (f : S -> A) Q s : Q (f s) s -> wp (gets f) Q s.
Proof. done. Qed.
Lemma wp_modify (f : S -> S) (R : unit -> S -> Prop) s :
  R tt (f s) -> wp (modify f) R s.
Proof. done. Qed.
Lemma wp_guard b (R : unit -> S -> Prop) s :
  b = true -> R tt s -> wp (guard_ b) R s.
Proof. by intros ->. Qed.
Lemma wp_deref (o : option A) a Q s : o = Some a -> Q a s -> wp (deref o) Q s.
Proof. by intros ->. Qed.
Lemma wp_if (b : bool) (c d : M S A) Q s :
  (b = true -> wp c Q s) -> (b = false -> wp d Q s) ->
  wp (if b then c else d) Q s.
Proof. destruct b; auto. Qed.
Lemma wp_mono (c : M S A) Q (Q' : A -> S -> Prop) s :
  wp c Q s -> (forall a s', Q a s' -> Q' a s') -> wp c Q' s.
Proof. unfold wp. destruct (c s) as [[a s']|]; auto. Qed.
Lemma wp_conj (c : M S A) Q (Q' : A -> S -> Prop) s :
  wp c Q s -> wp c Q' s -> wp c (fun a s' => Q a s' /\ Q' a s') s.
Proof. unfold wp. destruct (c s) as [[a s']|]; auto. Qed.
Lemma wp_eq (c d : M S A) Q s : c s = d s -> wp d Q s -> wp c Q s.
Proof. unfold wp. by intros ->. Qed.
Lemma wp_run (c : M S A) Q s :
  wp c Q s <-> exists a s', c s = Some (a, s') /\ Q a s'.
Proof.
  unfold wp. destruct (c s) as [[a s']|]; split.
  - eauto.
  - intros (a0 & s0 & Heq & HQ). by simplify_eq.
  - done.
  - by intros (a0 & s0 & Heq & HQ).
Qed.
Lemma wp_Some (c : M S A) Q s a s' : c s = Some (a, s') -> wp c Q s -> Q a s'.
Proof. unfold wp. by intros ->. Qed.
End WpRules.

(** One step of symbolic execution; [wp_hook] is extended by the components
    with the rules of their own primitives. *)
Ltac wp_hook := fail.
Ltac wp_step :=
  lazymatch goal with
  | |- wp (bind _ _) _ _ => apply wp_bind
  | |- wp (ret _) _ _ => apply wp_ret
  | |- wp (gets _) _ _ => apply wp_gets
  | |- wp (modify _) _ _ => apply wp_modify
  | |- wp (if _ then _ else _) _ _ => apply wp_if; intros
  | |- wp (let '(_, _) := ?p in _) _ _ => destruct p eqn:?
  | |- wp (deref (Some _)) _ _ => eapply wp_deref; [reflexivity|]
  | |- wp _ _ _ => wp_hook
  end; cbv beta.
Ltac wp_steps := repeat (wp_step; simpl).
(** Straight-line execution up to the next branch. *)
Ltac wp_go :=
  repeat lazymatch goal with
  | |- wp (if _ then _ else _) _ _ => fail
  | |- _ => wp_step
  end.

(** Boolean guards of the source, turned into propositions for [lia]. *)
Ltac bool_prop :=
  repeat match goal with
  | H : (_ && _)%bool = true |- _ => apply andb_prop in H as [? ?]
  | H : (_ && _)%bool = false |- _ => apply andb_false_iff in H
  | H : (_ || _)%bool = true |- _ => apply orb_prop in H
  | H : (_ || _)%bool = false |- _ => apply orb_false_elim in H as [? ?]
  | H : negb _ = true |- _ => apply negb_true_iff in H
  | H : negb _ = false |- _ => apply negb_false_iff in H
  | H : (_ <? _) = true |- _ => apply Z.ltb_lt in H
  | H : (_ <? _) = false |- _ => apply Z.ltb_ge in H
  | H : (_ <=? _) = true |- _ => apply Z.leb_le in H
  | H : (_ <=? _) = false |- _ => apply Z.leb_gt in H
  | H : (_ >? _) = _ |- _ => rewrite Z.gtb_ltb in H
  | H : (_ >=? _) = _ |- _ => rewrite Z.geb_leb in H
  | H : (_ =? _) = true |- _ => apply Z.eqb_eq in H
  | H : (_ =? _) = false |- _ => apply Z.eqb_neq in H
  end.

(** ** Lists indexed by [Z] *)

(** [l @ i], the [i]-th element, for indices the caller has checked. *)
Definition getZ (l : list Z) (i : Z) : Z := nth (Z.to_nat i) l 0.
Definition setZ {A} (l : list A) (i : Z) (v : A) : list A := <[Z.to_nat i := v]> l.
Abbreviation lenZ l := (Z.of_nat (length l)).

Lemma getZ_lookup l i : 0 <= i < lenZ l -> l !! Z.to_nat i = Some (getZ l i).
Proof.
  intros Hi. unfold getZ. rewrite nth_lookup.
  destruct (lookup_lt_is_Some_2 l (Z.to_nat i)) as [x Hx]; [lia|]. by rewrite Hx.
Qed.
Lemma getZ_setZ_eq l i v : 0 <= i < lenZ l -> getZ (setZ l i v) i = v.
Proof.
  intros Hi. unfold getZ, setZ. rewrite nth_lookup, list_lookup_insert_eq; [done|lia].
Qed.
Lemma getZ_setZ_ne l i j v :
  0 <= i -> 0 <= j -> i <> j -> getZ (setZ l i v) j = getZ l j.
Proof.
  intros. unfold getZ, setZ. rewrite !nth_lookup, list_lookup_insert_ne; [done|lia].
Qed.
Lemma length_setZ {A} (l : list A) i v : length (setZ l i v) = length l.
Proof. apply length_insert. Qed.
Lemma Forall_setZ {A} (P : A -> Prop) l i v : Forall P l -> P v -> Forall P (setZ l i v).
Proof. intros. by apply Forall_insert. Qed.
Lemma getZ_Forall (P : Z -> Prop) l i :
  Forall P l -> 0 <= i < lenZ l -> P (getZ l i).
Proof. intros H Hi. by eapply Forall_lookup_1, getZ_lookup. Qed.

(** Two lists of the same length with the same elements are equal. *)
Lemma getZ_ext (l k : list Z) :
  length l = length k -> (forall i, 0 <= i < lenZ l -> getZ l i = getZ k i) -> l = k.
Proof.
  intros Hlen Hext. apply list_eq_same_length with (length k); [done..|].
  intros i x y Hi Hx Hy. specialize (Hext (Z.of_nat i) ltac:(lia)).
  unfold getZ in Hext. rewrite Nat2Z.id, !nth_lookup, Hx, Hy in Hext. done.
Qed.

#[export] Hint Rewrite @length_setZ : lists.

(** Removing a value from a list of distinct resources. *)
Lemma filter_fresh {A} `{EqDecision A} (x : A) (l : list A) : x ∉ l -> filter (fun y => y <> x) l = l.
Proof.
  induction l as [|y l IH]; intros Hx; [done|]. apply not_elem_of_cons in Hx as [Hne Hx].
  rewrite filter_cons_True by congruence. by rewrite IH.
Qed.
Lemma filter_cons_fresh {A} `{EqDecision A} (x : A) (l : list A) :
  x ∉ l -> filter (fun y => y <> x) (x :: l) = l.
Proof. intros. rewrite filter_cons_False by (intros ?; done). by apply filter_fresh. Qed.

Lemma filter_pair {A} `{EqDecision A} (x y : A) (l : list A) :
  x ∉ l -> y ∉ x :: l -> filter (fun z => z <> y) (filter (fun z => z <> x) (y :: x :: l)) = l.
Proof.
  intros Hx Hy. pose proof (proj1 (not_elem_of_cons _ _ _) Hy) as [Hne Hy'].
  rewrite filter_cons_True by done. rewrite (filter_cons_fresh x) by done. by rewrite filter_cons_fresh.
Qed.

Lemma filter_all {A} (P : A -> Prop) `{!forall x, Decision (P x)} (l : list A) : (forall x, x ∈ l -> P x) -> filter P l = l.
Proof.
  induction l as [|x l IH]; intros Hl; [done|]. rewrite filter_cons_True by (apply Hl; left). f_equal. apply IH.
  intros y Hy. apply Hl. by right.
Qed.
Lemma filter_none {A} (P : A -> Prop) `{!forall x, Decision (P x)} (l : list A) : (forall x, x ∈ l -> ~ P x) -> filter P l = [].
Proof.
  induction l as [|x l IH]; intros Hl; [done|]. rewrite filter_cons_False by (apply Hl; left). apply IH.
  intros y Hy. apply Hl. by right.
Qed.

(** Decimal digits, as printf writes them. *)
Fixpoint dec_text (fuel : nat) (n : Z) : list Z :=
  match fuel with
  | O => []
  | S fuel => if n <? 10 then [48 + n] else dec_text fuel (n / 10) ++ [48 + n mod 10]
  end.

(** Lists of bytes written out. *)
Ltac all_bytes := repeat (apply List.Forall_cons; [int_solve|]); apply List.Forall_nil.
