(* ===== verification/Xdp.v ===== *)
(** * The XDP execution environment

    What an XDP program of the repository sees: the context [struct xdp_md],
    the packet bytes between [data] and [data_end], the per-CPU statistics map
    and the BPF helpers of the kernel.  Packet memory is checked: a load or a
    store that is not inside [data, data_end) is a fault, as it is for the
    in-kernel verifier.  The kernel's helpers are not part of the repository;
    they are the fields of the class [BpfHelpers], and what the programs rely on
    (the documentation of headers/linux/bpf.h) are the laws of [BpfHelpersOk].
    The host is little-endian, the first branch of headers/bpf_endian.h. *)

From S2P Require Import Prelude.
#[local] Open Scope Z_scope.
#[local] Open Scope prog_scope.

(** ** Byte order: headers/bpf_endian.h *)

Definition bswap16 (x : Z) : Z := u8 x * 256 + u8 (x / 256).
Definition bswap32 (x : Z) : Z :=
  u8 x * 16777216 + u8 (x / 256) * 65536 + u8 (x / 65536) * 256 + u8 (x / 16777216).
Definition bpf_htons (x : Z) : Z := bswap16 x.
Definition bpf_ntohs (x : Z) : Z := bswap16 x.
Definition bpf_htonl (x : Z) : Z := bswap32 x.

Lemma bswap16_range x : is_u16 (bswap16 x).
Proof. unfold bswap16. pose proof (u8_range x). pose proof (u8_range (x / 256)). int_solve. Qed.
Lemma bswap16_involutive x : is_u16 x -> bswap16 (bswap16 x) = x.
Proof. unfold bswap16. int_solve. Qed.
Lemma bswap16_u16 x : bswap16 (u16 x) = bswap16 x.
Proof. unfold bswap16. int_solve. Qed.
Lemma bswap16_inj x y : is_u16 x -> is_u16 y -> bswap16 x = bswap16 y -> x = y.
Proof. intros Hx Hy H. rewrite <- (bswap16_involutive x), H by done. by apply bswap16_involutive. Qed.
#[export] Hint Resolve bswap16_range : ints.

(** ** Constants of the uapi headers *)

Definition XDP_ABORTED : Z := 0.
Definition XDP_DROP : Z := 1.
Definition XDP_PASS : Z := 2.
Definition XDP_TX : Z := 3.
Definition XDP_REDIRECT : Z := 4.
Definition XDP_ACTION_MAX : Z := XDP_REDIRECT + 1.

Definition ETH_ALEN : Z := 6.
Definition ETH_P_IP : Z := 0x0800.
Definition ETH_P_IPV6 : Z := 0x86DD.
Definition ETH_P_8021Q : Z := 0x8100.
Definition ETH_P_8021AD : Z := 0x88A8.
Definition IPPROTO_ICMP : Z := 1.
Definition IPPROTO_TCP : Z := 6.
Definition IPPROTO_UDP : Z := 17.
Definition IPPROTO_ICMPV6 : Z := 58.
Definition ICMP_ECHOREPLY : Z := 0.
Definition ICMP_ECHO : Z := 8.
Definition ICMPV6_ECHO_REQUEST : Z := 128.
Definition ICMPV6_ECHO_REPLY : Z := 129.

Definition sizeof_ethhdr : Z := 14.
Definition sizeof_vlan_hdr : Z := 4.
Definition sizeof_iphdr : Z := 20.
Definition sizeof_ipv6hdr : Z := 40.
Definition sizeof_icmphdr : Z := 8.
Definition sizeof_icmp6hdr : Z := 8.
Definition sizeof_icmphdr_common : Z := 4.
Definition sizeof_udphdr : Z := 8.
Definition sizeof_tcphdr : Z := 20.

(** ** State *)

(** [struct datarec] of common/xdp_stats_kern_user.h. *)
Record datarec := Datarec { rx_packets : Z; rx_bytes : Z }.

#[export] Instance datarec_eq_dec : EqDecision datarec.
Proof. solve_decision. Defined.

(** [struct xdp_md]: a packet pointer of the source is a [Z]. *)
Record xdp_md := Xdp_md {
  data : Z;
  data_end : Z;
  ingress_ifindex : Z;
  rx_queue_index : Z
}.

(** The state an XDP program runs in: its context, the bytes at
    [data .. data_end), this CPU's records of [xdp_stats_map], and the target
    the last redirect helper was asked for. *)
Record xstate := Xstate {
  ctx : xdp_md;
  pkt : list Z;
  xdp_stats_map : list datarec;
  redirect_target : option Z
}.

Definition set_pkt (s : xstate) (p : list Z) : xstate :=
  Xstate (ctx s) p (xdp_stats_map s) (redirect_target s).
Definition set_stats (s : xstate) (m : list datarec) : xstate :=
  Xstate (ctx s) (pkt s) m (redirect_target s).
Definition set_redirect (s : xstate) (t : Z) : xstate :=
  Xstate (ctx s) (pkt s) (xdp_stats_map s) (Some t).

Abbreviation dat s := (data (ctx s)).
Abbreviation dend s := (data_end (ctx s)).

(** Well-formed states: the pointers delimit the packet bytes, all of them
    bytes, and [xdp_stats_map] has one record per XDP action. *)
Record wf (s : xstate) : Prop := Wf {
  wf_data : 0 <= dat s;
  wf_len : dend s = dat s + lenZ (pkt s);
  wf_end : dend s < 4294967296;
  wf_bytes : Forall is_u8 (pkt s);
  wf_stats : length (xdp_stats_map s) = 5%nat
}.

Abbreviation X := (M xstate).

(** ** Checked packet memory *)

Definition in_pkt (s : xstate) (p n : Z) : bool := (dat s <=? p) && (p + n <=? dend s).

(** The byte at packet pointer [p] (meaningful when [in_pkt s p 1]). *)
Definition byte_at (s : xstate) (p : Z) : Z := getZ (pkt s) (p - dat s).
(** A 16-bit load on a little-endian host. *)
Definition half_at (s : xstate) (p : Z) : Z := byte_at s p + 256 * byte_at s (p + 1).
Definition bytes_at (s : xstate) (p : Z) (n : nat) : list Z :=
  map (fun i => byte_at s (p + Z.of_nat i)) (seq 0 n).
Definition word_at (s : xstate) (p : Z) : Z := half_at s p + 65536 * half_at s (p + 2).

Definition put_byte (s : xstate) (p b : Z) : xstate :=
  set_pkt s (setZ (pkt s) (p - dat s) (u8 b)).
Fixpoint put_bytes (s : xstate) (p : Z) (l : list Z) : xstate :=
  match l with
  | [] => s
  | b :: l' => put_bytes (put_byte s p b) (p + 1) l'
  end.

Definition checked {A} (p n : Z) (c : X A) : X A :=
  fun s => if in_pkt s p n then c s else None.
Definition ld8 (p : Z) : X Z := checked p 1 (gets (fun s => byte_at s p)).
Definition ld16 (p : Z) : X Z := checked p 2 (gets (fun s => half_at s p)).
Definition ld32 (p : Z) : X Z := checked p 4 (gets (fun s => word_at s p)).
Definition ld_bytes (p : Z) (n : nat) : X (list Z) :=
  checked p (Z.of_nat n) (gets (fun s => bytes_at s p n)).
Definition st8 (p v : Z) : X unit := checked p 1 (modify (fun s => put_byte s p v)).
Definition st16 (p v : Z) : X unit :=
  checked p 2 (modify (fun s => put_bytes s p [u8 v; u8 (v / 256)])).
Definition st_bytes (p : Z) (l : list Z) : X unit :=
  checked p (lenZ l) (modify (fun s => put_bytes s p l)).

Section MemRules.
Implicit Types (s : xstate) (p : Z).

Lemma in_pkt_true s p n : dat s <= p -> p + n <= dend s -> in_pkt s p n = true.
Proof. intros. unfold in_pkt. apply andb_true_intro. lia. Qed.

Lemma wp_checked {A} p n (c : X A) Q s :
  dat s <= p -> p + n <= dend s -> wp c Q s -> wp (checked p n c) Q s.
Proof. intros. unfold wp, checked. by rewrite in_pkt_true. Qed.

Lemma byte_at_range s p : wf s -> dat s <= p < dend s -> is_u8 (byte_at s p).
Proof.
  intros W Hp. apply (getZ_Forall is_u8); [apply W|]. pose proof (wf_len _ W). lia.
Qed.
Lemma half_at_range s p : wf s -> dat s <= p -> p + 2 <= dend s -> is_u16 (half_at s p).
Proof.
  intros W H1 H2. unfold half_at.
  pose proof (byte_at_range s p W ltac:(lia)).
  pose proof (byte_at_range s (p + 1) W ltac:(lia)). int_solve.
Qed.
Lemma bytes_at_length s p n : length (bytes_at s p n) = n.
Proof. unfold bytes_at. by rewrite length_map, length_seq. Qed.
Lemma getZ_bytes_at s p n i :
  0 <= i < Z.of_nat n -> getZ (bytes_at s p n) i = byte_at s (p + i).
Proof.
  intros Hi. unfold getZ, bytes_at. rewrite nth_lookup, list_lookup_fmap.
  rewrite lookup_seq_lt by lia. simpl. f_equal. lia.
Qed.

Lemma put_byte_ctx s p b : ctx (put_byte s p b) = ctx s.
Proof. done. Qed.
Lemma put_bytes_ctx l : forall s p, ctx (put_bytes s p l) = ctx s.
Proof. induction l; simpl; intros; [done|]. by rewrite IHl. Qed.
Lemma put_bytes_stats l : forall s p,
  xdp_stats_map (put_bytes s p l) = xdp_stats_map s.
Proof. induction l; simpl; intros; [done|]. by rewrite IHl. Qed.
Lemma put_bytes_redirect l : forall s p,
  redirect_target (put_bytes s p l) = redirect_target s.
Proof. induction l; simpl; intros; [done|]. by rewrite IHl. Qed.
Lemma put_bytes_len l : forall s p, length (pkt (put_bytes s p l)) = length (pkt s).
Proof. induction l; simpl; intros; [done|]. rewrite IHl. apply length_setZ. Qed.

Lemma put_byte_wf s p b : wf s -> wf (put_byte s p b).
Proof.
  intros [H1 H2 H3 H4 H5]. split; simpl; auto.
  - by rewrite length_setZ.
  - apply Forall_setZ; auto with ints.
Qed.
Lemma put_bytes_wf l : forall s p, wf s -> wf (put_bytes s p l).
Proof. induction l; simpl; auto using put_byte_wf. Qed.

(** Reading back what was written, and nothing else. *)
Lemma byte_at_put s p b q :
  wf s -> dat s <= p < dend s -> dat s <= q ->
  byte_at (put_byte s p b) q = if decide (p = q) then u8 b else byte_at s q.
Proof.
  intros W Hp Hq. pose proof (wf_len _ W). unfold byte_at; simpl.
  case_decide; [subst; apply getZ_setZ_eq; lia|apply getZ_setZ_ne; lia].
Qed.
Lemma byte_at_puts l : forall s p q,
  wf s -> dat s <= p -> p + lenZ l <= dend s -> dat s <= q ->
  byte_at (put_bytes s p l) q =
    if decide (p <= q < p + lenZ l) then u8 (getZ l (q - p)) else byte_at s q.
Proof.
  induction l as [|b l IH]; intros s p q W Hp Hl Hq; simpl in *.
  { rewrite decide_False by lia. done. }
  rewrite IH by (rewrite ?put_byte_ctx; auto using put_byte_wf; lia).
  rewrite byte_at_put by (auto; lia).
  destruct (decide (p = q)) as [->|Hne].
  - rewrite decide_False, decide_True by lia. by replace (q - q) with 0 by lia.
  - destruct (decide (p + 1 <= q < p + 1 + lenZ l)).
    + rewrite decide_True by lia. f_equal.
      unfold getZ. replace (Z.to_nat (q - p)) with (S (Z.to_nat (q - (p + 1)))) by lia.
      done.
    + rewrite decide_False by lia. done.
Qed.

(** A 16-bit store: the bytes it writes, the load that reads it back, and the
    bytes it leaves alone. *)
Lemma byte_at_put16 s p v q :
  wf s -> dat s <= p -> p + 2 <= dend s -> dat s <= q ->
  byte_at (put_bytes s p [u8 v; u8 (v / 256)]) q =
    if q =? p then u8 v else if q =? p + 1 then u8 (v / 256) else byte_at s q.
Proof.
  intros. rewrite byte_at_puts by (simpl; auto; lia). cbn [length].
  destruct (Z.eqb_spec q p) as [->|]; [|destruct (Z.eqb_spec q (p + 1)) as [->|]].
  - rewrite decide_True by lia. replace (p - p) with 0 by lia. unfold getZ; simpl. int_solve.
  - rewrite decide_True by lia. replace (p + 1 - p) with 1 by lia. unfold getZ; simpl. int_solve.
  - by rewrite decide_False by lia.
Qed.
Lemma half_at_put16 s p v :
  wf s -> dat s <= p -> p + 2 <= dend s ->
  half_at (put_bytes s p [u8 v; u8 (v / 256)]) p = u16 v.
Proof.
  intros. unfold half_at. rewrite !byte_at_put16 by (auto; lia).
  rewrite Z.eqb_refl, Z.eqb_refl. replace (p + 1 =? p) with false by lia. int_solve.
Qed.
End MemRules.

Ltac in_bounds := first [done | simpl; lia | simpl in *; lia].
Ltac wp_hook ::=
  lazymatch goal with
  | |- wp (ld8 _) _ _ => apply wp_checked; [try in_bounds | try in_bounds | apply wp_gets]
  | |- wp (ld16 _) _ _ => apply wp_checked; [try in_bounds | try in_bounds | apply wp_gets]
  | |- wp (ld32 _) _ _ => apply wp_checked; [try in_bounds | try in_bounds | apply wp_gets]
  | |- wp (ld_bytes _ _) _ _ => apply wp_checked; [try in_bounds | try in_bounds | apply wp_gets]
  | |- wp (st8 _ _) _ _ => apply wp_checked; [try in_bounds | try in_bounds | apply wp_modify]
  | |- wp (st16 _ _) _ _ => apply wp_checked; [try in_bounds | try in_bounds | apply wp_modify]
  | |- wp (st_bytes _ _) _ _ => apply wp_checked; [try in_bounds | try in_bounds | apply wp_modify]
  end.

(** ** The BPF helpers of the kernel *)

(** The layer-3 part of [struct bpf_fib_lookup] (its unions). *)
Inductive fib_l3 :=
  | FibNone
  | FibV4 (tos ipv4_src ipv4_dst : Z)
  | FibV6 (flowinfo : Z) (ipv6_src ipv6_dst : list Z).

(** [struct bpf_fib_lookup] of headers/linux/bpf.h. *)
Record bpf_fib_lookup := Bpf_fib_lookup {
  fib_family : Z;
  fib_l4_protocol : Z;
  fib_sport : Z;
  fib_dport : Z;
  fib_tot_len : Z;
  fib_ifindex : Z;
  fib_addrs : fib_l3;
  fib_smac : list Z;
  fib_dmac : list Z
}.

(** The kernel functions the programs call.  [bpf_xdp_adjust_head] returns its
    error code and the state with the moved packet; the lookup returns its code
    and the parameters it has filled in. *)
Class BpfHelpers := {
  bpf_xdp_adjust_head : xstate -> Z -> Z * xstate;
  bpf_redirect : Z -> Z -> Z;
  bpf_redirect_map : (Z -> option Z) -> Z -> Z -> Z;
  bpf_fib_lookup_call : xstate -> bpf_fib_lookup -> Z -> Z * bpf_fib_lookup;
  bpf_csum_diff : list Z -> list Z -> Z -> Z
}.

(** 16-bit words of a buffer, as the host reads them (a trailing odd byte is
    padded with zero), and their sum: the operand of the Internet checksum. *)
Fixpoint words16 (l : list Z) : list Z :=
  match l with
  | a :: b :: l' => (a + 256 * b) :: words16 l'
  | [a] => [a]
  | [] => []
  end.
Definition sumZ (l : list Z) : Z := foldr Z.add 0 l.
Definition sum16 (l : list Z) : Z := sumZ (words16 l).

(** What headers/linux/bpf.h documents of the helpers. *)
Class BpfHelpersOk {H : BpfHelpers} : Prop := {
  (** "Adjust (move) xdp_md->data by delta bytes"; 0 on success: the bytes that
      are in the packet before and after the move are kept, and the pointers of
      the context delimit the moved packet. *)
  adjust_head_success s delta s' :
    wf s -> bpf_xdp_adjust_head s delta = (0, s') ->
    wf s' /\ lenZ (pkt s') = lenZ (pkt s) - delta /\
    xdp_stats_map s' = xdp_stats_map s /\ redirect_target s' = redirect_target s /\
    forall i, 0 <= i < lenZ (pkt s') -> 0 <= i + delta ->
      getZ (pkt s') i = getZ (pkt s) (i + delta);
  (** a negative error otherwise, and the packet is as it was. *)
  adjust_head_failure s delta r s' :
    bpf_xdp_adjust_head s delta = (r, s') -> r <> 0 -> r < 0 /\ s' = s;
  (** "For XDP, the helper returns XDP_REDIRECT on success or XDP_ABORTED on
      error." *)
  redirect_action i : bpf_redirect i 0 = XDP_REDIRECT \/ bpf_redirect i 0 = XDP_ABORTED;
  redirect_map_action m k :
    bpf_redirect_map m k 0 = XDP_REDIRECT \/ bpf_redirect_map m k 0 = XDP_ABORTED;
  (** smac and dmac are MAC addresses. *)
  fib_lookup_macs s p p' r :
    bpf_fib_lookup_call s p 0 = (r, p') -> r = 0 ->
    length (fib_smac p') = 6%nat /\ length (fib_dmac p') = 6%nat /\
    Forall is_u8 (fib_smac p') /\ Forall is_u8 (fib_dmac p');
  (** "Compute a checksum difference, from the raw buffer pointed by from,
      towards the raw buffer pointed by to"; the sizes are multiples of 4; one's
      complement sums are sums modulo 65535. *)
  csum_diff_value from to seed :
    Forall is_u8 from -> Forall is_u8 to -> is_u16 seed ->
    (4 | lenZ from) -> (4 | lenZ to) ->
    is_u32 (bpf_csum_diff from to seed) /\
    (bpf_csum_diff from to seed) mod 65535 = (seed + sum16 to - sum16 from) mod 65535
}.
Arguments BpfHelpersOk : clear implicits.

(** Calls of the helpers from a program. *)
Section HelperCalls.
Context `{BpfHelpers}.
Definition call_adjust_head (delta : Z) : X Z :=
  fun s => Some (bpf_xdp_adjust_head s delta).
Definition call_redirect (ifindex flags : Z) : X Z :=
  modify (fun s => set_redirect s ifindex) ;;;
  ret (bpf_redirect ifindex flags).
Definition call_redirect_map (m : Z -> option Z) (key flags : Z) : X Z :=
  ret (bpf_redirect_map m key flags).
Definition call_fib_lookup (p : bpf_fib_lookup) (flags : Z) : X (Z * bpf_fib_lookup) :=
  gets (fun s => bpf_fib_lookup_call s p flags).
End HelperCalls.

(** ** A concrete kernel, for the witnesses *)

Definition ref_adjust_head (s : xstate) (delta : Z) : Z * xstate :=
  if (0 <=? dat s + delta) && (dat s + delta + sizeof_ethhdr <=? dend s)
  then (0, Xstate (Xdp_md (dat s + delta) (dend s)
                          (ingress_ifindex (ctx s)) (rx_queue_index (ctx s)))
                  (if 0 <=? delta then drop (Z.to_nat delta) (pkt s)
                   else repeat 0 (Z.to_nat (- delta)) ++ pkt s)
                  (xdp_stats_map s) (redirect_target s))
  else (-22, s).
Definition ref_fib_lookup (s : xstate) (p : bpf_fib_lookup) (flags : Z) : Z * bpf_fib_lookup :=
  (0, Bpf_fib_lookup (fib_family p) (fib_l4_protocol p) (fib_sport p) (fib_dport p)
        (fib_tot_len p) 7 (fib_addrs p) [2;0;0;0;0;1] [2;0;0;0;0;2]).
#[export] Instance ref_helpers : BpfHelpers := {|
  bpf_xdp_adjust_head := ref_adjust_head;
  bpf_redirect i f := if f =? 0 then XDP_REDIRECT else XDP_ABORTED;
  bpf_redirect_map m k f :=
    match m k with Some _ => XDP_REDIRECT | None => XDP_ABORTED end;
  bpf_fib_lookup_call := ref_fib_lookup;
  bpf_csum_diff from to seed := (seed + sum16 to - sum16 from) mod 65535
|}.

Lemma getZ_drop l n i : 0 <= i -> getZ (drop n l) i = getZ l (i + Z.of_nat n).
Proof.
  intros. unfold getZ. rewrite !nth_lookup, lookup_drop. do 2 f_equal. lia.
Qed.
Lemma getZ_app_r (l k : list Z) i : lenZ l <= i -> getZ (l ++ k) i = getZ k (i - lenZ l).
Proof.
  intros. unfold getZ. rewrite !nth_lookup, lookup_app_r by lia. do 2 f_equal. lia.
Qed.

#[export] Instance ref_helpers_ok : BpfHelpersOk ref_helpers.
Proof.
  split; simpl.
  - intros s delta s' W Hadj. unfold ref_adjust_head in Hadj.
    destruct (_ && _)%bool eqn:Hc in Hadj; [|discriminate]. simplify_eq/=.
    bool_prop. destruct W as [W1 W2 W3 W4 W5]. unfold sizeof_ethhdr in *.
    destruct (Z.leb_spec 0 delta).
    + rewrite length_drop. split_and!; [|lia|done..|].
      * split; simpl; [lia|rewrite length_drop; lia|lia|by apply Forall_drop|done].
      * intros i Hi _. rewrite getZ_drop by lia. f_equal. lia.
    + rewrite length_app, repeat_length. split_and!; [|lia|done..|].
      * split; simpl; [lia|rewrite length_app, repeat_length; lia|lia| |done].
        apply Forall_app; split; [|done]. apply List.Forall_forall. intros x Hx.
        apply repeat_spec in Hx. subst. int_solve.
      * intros i Hi Hd. rewrite getZ_app_r by (rewrite repeat_length; lia).
        rewrite repeat_length. f_equal. lia.
  - intros s delta r s' Hadj Hr. unfold ref_adjust_head in Hadj.
    destruct (_ && _)%bool in Hadj; simplify_eq. split; [lia|done].
  - by left.
  - intros m k. destruct (m k); auto.
  - unfold ref_fib_lookup. intros s p p' r Heq _. simplify_eq/=. split_and!; try done;
    repeat constructor; int_solve.
  - intros from to seed _ _ _ _ _. split.
    + pose proof (Z.mod_pos_bound (seed + sum16 to - sum16 from) 65535). int_unfold. lia.
    + by rewrite Zmod_mod.
Qed.
