(* ===== verification/Parsing.v ===== *)
(** * Packet parsing: common/parsing_helpers.h

    The header parsers the XDP programs share.  A header cursor
    ([struct hdr_cursor]) is its [pos], a packet pointer; a parser takes the
    cursor and [data_end] and returns the C return value, the moved cursor and
    the header pointer it stored ([None] where the C code leaves the caller's
    pointer unset).  [vlan_ref] is a reference decoder on the wire bytes, and
    [parse_ethhdr_vlan] is proved to compute it. *)

From S2P Require Import Prelude Xdp.
#[local] Open Scope Z_scope.
#[local] Open Scope prog_scope.

Abbreviation hdr_cursor := Z (only parsing).
Abbreviation ptr := Z (only parsing).
(** Return value, cursor, header pointer. *)
Abbreviation parsed := (Z * hdr_cursor * option ptr)%type (only parsing).

Definition VLAN_MAX_DEPTH : nat := 2.
Definition VLAN_VID_MASK : Z := 0x0fff.

Definition proto_is_vlan (h_proto : Z) : bool :=
  (h_proto =? bpf_htons ETH_P_8021Q) || (h_proto =? bpf_htons ETH_P_8021AD).

(** The tag loop: [n] iterations are left, [i] is the C loop counter, [vlans]
    is the array [struct collect_vlans] unless the pointer is NULL. *)
Fixpoint vlan_loop (n : nat) (i : Z) (data_end : Z) (vlh : ptr) (h_proto : Z)
    (vlans : option (list Z)) : X (Z * ptr * option (list Z)) :=
  match n with
  | O => ret (h_proto, vlh, vlans)
  | S n' =>
      if negb (proto_is_vlan h_proto) then ret (h_proto, vlh, vlans)
      else if vlh + sizeof_vlan_hdr >? data_end then ret (h_proto, vlh, vlans)
      else
        let! h_proto := ld16 (vlh + 2) in
        let! vlans :=
          match vlans with
          | None => ret None
          | Some ids =>
              let! tci := ld16 vlh in
              ret (Some (setZ ids i (Z.land (bpf_ntohs tci) VLAN_VID_MASK)))
          end in
        vlan_loop n' (i + 1) data_end (vlh + sizeof_vlan_hdr) h_proto vlans
  end.

Definition parse_ethhdr_vlan (nh : hdr_cursor) (data_end : Z) (vlans : option (list Z))
    : X (parsed * option (list Z)) :=
  let eth := nh in
  let hdrsize := sizeof_ethhdr in
  if nh + hdrsize >? data_end then ret (-1, nh, None, vlans)
  else
    let! h_proto := ld16 (eth + 12) in
    let! (h_proto, vlh, vlans) :=
      vlan_loop VLAN_MAX_DEPTH 0 data_end (nh + hdrsize) h_proto vlans in
    ret (h_proto, vlh, Some eth, vlans).

Definition parse_ethhdr (nh : hdr_cursor) (data_end : Z) : X parsed :=
  let! (p, _) := parse_ethhdr_vlan nh data_end None in
  ret p.

Definition parse_ip6hdr (nh : hdr_cursor) (data_end : Z) : X parsed :=
  let ip6h := nh in
  if ip6h + sizeof_ipv6hdr >? data_end then ret (-1, nh, None)
  else
    let! nexthdr := ld8 (ip6h + 6) in
    ret (nexthdr, ip6h + sizeof_ipv6hdr, Some ip6h).

Definition parse_iphdr (nh : hdr_cursor) (data_end : Z) : X parsed :=
  let iph := nh in
  if iph + sizeof_iphdr >? data_end then ret (-1, nh, None)
  else
    let! b0 := ld8 iph in
    let hdrsize := Z.land b0 15 * 4 in
    if u64 hdrsize <? sizeof_iphdr then ret (-1, nh, None)
    else if nh + hdrsize >? data_end then ret (-1, nh, None)
    else
      let! protocol := ld8 (iph + 9) in
      ret (protocol, nh + hdrsize, Some iph).

Definition parse_icmp6hdr (nh : hdr_cursor) (data_end : Z) : X parsed :=
  let icmp6h := nh in
  if icmp6h + sizeof_icmp6hdr >? data_end then ret (-1, nh, None)
  else
    let! icmp6_type := ld8 icmp6h in
    ret (icmp6_type, icmp6h + sizeof_icmp6hdr, Some icmp6h).

Definition parse_icmphdr (nh : hdr_cursor) (data_end : Z) : X parsed :=
  let icmph := nh in
  if icmph + sizeof_icmphdr >? data_end then ret (-1, nh, None)
  else
    let! type := ld8 icmph in
    ret (type, icmph + sizeof_icmphdr, Some icmph).

Definition parse_icmphdr_common (nh : hdr_cursor) (data_end : Z) : X parsed :=
  let h := nh in
  if h + sizeof_icmphdr_common >? data_end then ret (-1, nh, None)
  else
    let! type := ld8 h in
    ret (type, h + sizeof_icmphdr_common, Some h).

(** The length is computed in [size_t] and stored in an [int]. *)
Definition parse_udphdr (nh : hdr_cursor) (data_end : Z) : X parsed :=
  let h := nh in
  if h + sizeof_udphdr >? data_end then ret (-1, nh, None)
  else
    let! hlen := ld16 (h + 4) in
    let len := s32 (u64 (bpf_ntohs hlen - sizeof_udphdr)) in
    if len <? 0 then ret (-1, h + sizeof_udphdr, Some h)
    else ret (len, h + sizeof_udphdr, Some h).

Definition parse_tcphdr (nh : hdr_cursor) (data_end : Z) : X parsed :=
  let h := nh in
  if h + sizeof_tcphdr >? data_end then ret (-1, nh, None)
  else
    let! b12 := ld8 (h + 12) in
    let len := Z.shiftr b12 4 * 4 in
    if u64 len <? sizeof_tcphdr then ret (-1, nh, None)
    else if nh + len >? data_end then ret (-1, nh, None)
    else ret (len, nh + len, Some h).

(** ** What the parsers promise *)

(** A parser never changes the state.  On success it moves the cursor by
    [size] bytes, all inside the packet, points at the header and returns
    [val]; otherwise it returns -1 and leaves cursor and pointer alone. *)
Definition parse_post (s : xstate) (nh size val : Z) (ok : Prop) : parsed -> xstate -> Prop :=
  fun '(r, pos, h) s' => s' = s /\
    ((~ ok /\ r = -1 /\ pos = nh /\ h = None) \/
     (ok /\ r = val /\ pos = nh + size /\ h = Some nh /\ nh + size <= dend s)).

Definition ihl_bytes (s : xstate) (p : ptr) : Z := Z.land (byte_at s p) 15 * 4.
Definition doff_bytes (s : xstate) (p : ptr) : Z := Z.shiftr (byte_at s (p + 12)) 4 * 4.

Lemma land15_range b : 0 <= Z.land b 15 < 16.
Proof. change 15 with (Z.ones 4). rewrite Z.land_ones by lia. by apply Z.mod_pos_bound. Qed.
Lemma shiftr4_range b : is_u8 b -> 0 <= Z.shiftr b 4 < 16.
Proof. rewrite Z.shiftr_div_pow2 by lia. simpl. int_solve. Qed.

Ltac sizes := unfold sizeof_ethhdr, sizeof_vlan_hdr, sizeof_iphdr, sizeof_ipv6hdr,
  sizeof_icmphdr, sizeof_icmp6hdr, sizeof_icmphdr_common, sizeof_udphdr, sizeof_tcphdr in *.
Ltac parse_cases :=
  intros; sizes; unfold parse_post; wp_steps; bool_prop; try lia;
  split; try done; first [left; split_and!; by (done || lia || int_solve)
                         | right; split_and!; by (done || lia || int_solve)].

Section ParserSpecs.
Context (s : xstate) (W : wf s) (nh : Z) (Hnh : dat s <= nh).

Lemma parse_ip6hdr_spec :
  wp (parse_ip6hdr nh (dend s))
     (parse_post s nh 40 (byte_at s (nh + 6)) (nh + 40 <= dend s)) s.
Proof using Hnh. unfold parse_ip6hdr. parse_cases. Qed.
Lemma parse_icmp6hdr_spec :
  wp (parse_icmp6hdr nh (dend s))
     (parse_post s nh 8 (byte_at s nh) (nh + 8 <= dend s)) s.
Proof using Hnh. unfold parse_icmp6hdr. parse_cases. Qed.
Lemma parse_icmphdr_spec :
  wp (parse_icmphdr nh (dend s))
     (parse_post s nh 8 (byte_at s nh) (nh + 8 <= dend s)) s.
Proof using Hnh. unfold parse_icmphdr. parse_cases. Qed.
Lemma parse_icmphdr_common_spec :
  wp (parse_icmphdr_common nh (dend s))
     (parse_post s nh 4 (byte_at s nh) (nh + 4 <= dend s)) s.
Proof using Hnh. unfold parse_icmphdr_common. parse_cases. Qed.
Lemma parse_iphdr_spec :
  wp (parse_iphdr nh (dend s))
     (parse_post s nh (ihl_bytes s nh) (byte_at s (nh + 9))
        (nh + 20 <= dend s /\ 20 <= ihl_bytes s nh /\ nh + ihl_bytes s nh <= dend s)) s.
Proof using Hnh.
  unfold parse_iphdr, ihl_bytes. pose proof (land15_range (byte_at s nh)) as Hr.
  assert (u64 (Z.land (byte_at s nh) 15 * 4) = Z.land (byte_at s nh) 15 * 4) as Hu
    by (apply u64_small; int_unfold; lia).
  parse_cases.
Qed.
Lemma parse_tcphdr_spec :
  wp (parse_tcphdr nh (dend s))
     (parse_post s nh (doff_bytes s nh) (doff_bytes s nh)
        (nh + 20 <= dend s /\ 20 <= doff_bytes s nh /\ nh + doff_bytes s nh <= dend s)) s.
Proof using W Hnh.
  unfold parse_tcphdr, doff_bytes.
  destruct (Z_le_gt_dec (nh + 20) (dend s)) as [Hle|]; [|parse_cases].
  pose proof (shiftr4_range (byte_at s (nh + 12)) ltac:(apply byte_at_range; [done|lia])) as Hr.
  assert (u64 (Z.shiftr (byte_at s (nh + 12)) 4 * 4) = Z.shiftr (byte_at s (nh + 12)) 4 * 4) as Hu
    by (apply u64_small; int_unfold; lia).
  parse_cases.
Qed.
End ParserSpecs.

(** [parse_udphdr] stores pointer and cursor before it looks at the length
    field, so a header with a length below 8 is rejected after the move. *)
Definition udp_len (s : xstate) (p : ptr) : Z := bpf_ntohs (half_at s (p + 4)) - 8.
Lemma parse_udphdr_spec s nh :
  dat s <= nh ->
  wp (parse_udphdr nh (dend s))
     (fun '(r, pos, h) s' => s' = s /\
        ((dend s < nh + 8 /\ r = -1 /\ pos = nh /\ h = None) \/
         (nh + 8 <= dend s /\ pos = nh + 8 /\ h = Some nh /\
          r = if udp_len s nh <? 0 then -1 else udp_len s nh))) s.
Proof.
  intros Hnh. unfold parse_udphdr, udp_len. sizes.
  pose proof (bswap16_range (half_at s (nh + 4))) as Hr.
  assert (s32 (u64 (bpf_ntohs (half_at s (nh + 4)) - 8)) =
          bpf_ntohs (half_at s (nh + 4)) - 8) as Hu
    by (unfold bpf_ntohs in *; int_solve).
  wp_steps; bool_prop; try lia; split; try done.
  - left. split_and!; by (done || lia).
  - right. rewrite Hu in *. replace (_ <? 0) with true by lia. split_and!; by (done || lia).
  - right. rewrite Hu in *. replace (_ <? 0) with false by lia. split_and!; by (done || lia).
Qed.

(** ** The Ethernet parser computes the reference decoder *)

(** The reference decoder works on wire bytes (big-endian fields): it strips up
    to [n] 802.1Q/802.1ad tags that are completely in the packet and gives the
    EtherType of the payload, the VLAN ids and the remaining bytes. *)
Definition is_vlan_type (p : Z) : bool := (p =? ETH_P_8021Q) || (p =? ETH_P_8021AD).
Fixpoint vlan_ref (n : nat) (proto : Z) (l : list Z) : Z * list Z * list Z :=
  match n, l with
  | S n', t0 :: t1 :: p0 :: p1 :: l' =>
      if is_vlan_type proto
      then let '(p, ids, rest) := vlan_ref n' (256 * p0 + p1) l' in
           (p, Z.land (256 * t0 + t1) VLAN_VID_MASK :: ids, rest)
      else (proto, [], l)
  | _, _ => (proto, [], l)
  end.

(** The bytes from packet pointer [p] to the end of the packet. *)
Definition suffix (s : xstate) (p : ptr) : list Z := drop (Z.to_nat (p - dat s)) (pkt s).

Lemma suffix_length s p : wf s -> dat s <= p <= dend s -> lenZ (suffix s p) = dend s - p.
Proof. intros W Hp. pose proof (wf_len _ W). unfold suffix. rewrite length_drop. lia. Qed.
Lemma suffix_cons s p :
  wf s -> dat s <= p < dend s -> suffix s p = byte_at s p :: suffix s (p + 1).
Proof.
  intros W Hp. pose proof (wf_len _ W). unfold suffix, byte_at.
  erewrite (drop_S (pkt s)) by (apply getZ_lookup; lia).
  do 2 f_equal; lia.
Qed.
Lemma suffix_cons4 s p :
  wf s -> dat s <= p -> p + 4 <= dend s ->
  suffix s p = byte_at s p :: byte_at s (p + 1) :: byte_at s (p + 2) :: byte_at s (p + 3)
               :: suffix s (p + 4).
Proof.
  intros. rewrite (suffix_cons s p), (suffix_cons s (p + 1)), (suffix_cons s (p + 1 + 1)),
    (suffix_cons s (p + 1 + 1 + 1)) by (auto; lia).
  replace (p + 1 + 1) with (p + 2) by lia. replace (p + 2 + 1) with (p + 3) by lia.
  by replace (p + 3 + 1) with (p + 4) by lia.
Qed.
Lemma suffix_short s p : wf s -> dat s <= p <= dend s -> dend s < p + 4 ->
  (length (suffix s p) < 4)%nat.
Proof. intros W ? ?. pose proof (suffix_length s p W). lia. Qed.

(** The wire (big-endian) value of a 16-bit field and the host's load. *)
Definition be16_at (s : xstate) (p : ptr) : Z := 256 * byte_at s p + byte_at s (p + 1).
Lemma half_at_be16 s p :
  wf s -> dat s <= p -> p + 2 <= dend s -> half_at s p = bpf_htons (be16_at s p).
Proof.
  intros W H1 H2. pose proof (byte_at_range s p W ltac:(lia)).
  pose proof (byte_at_range s (p + 1) W ltac:(lia)).
  unfold half_at, be16_at, bpf_htons, bswap16. int_solve.
Qed.
Lemma be16_at_range s p :
  wf s -> dat s <= p -> p + 2 <= dend s -> is_u16 (be16_at s p).
Proof.
  intros W H1 H2. pose proof (byte_at_range s p W ltac:(lia)).
  pose proof (byte_at_range s (p + 1) W ltac:(lia)). unfold be16_at. int_solve.
Qed.
Lemma proto_is_vlan_htons p : is_u16 p -> proto_is_vlan (bpf_htons p) = is_vlan_type p.
Proof.
  intros Hp. unfold proto_is_vlan, is_vlan_type, bpf_htons, ETH_P_8021Q, ETH_P_8021AD.
  f_equal; apply Bool.eq_iff_eq_true; rewrite !Z.eqb_eq; (split; [|by intros ->]);
    intros Heq; apply bswap16_inj; try done; int_solve.
Qed.

Lemma htons_eqb a b : is_u16 a -> is_u16 b -> (bpf_htons a =? bpf_htons b) = (a =? b).
Proof.
  intros Ha Hb. apply Bool.eq_iff_eq_true. rewrite !Z.eqb_eq. split; [|by intros ->].
  by apply bswap16_inj.
Qed.
Lemma htons_eqb_m1 b : (-1 =? bpf_htons b) = false.
Proof. apply Z.eqb_neq. pose proof (bswap16_range b). unfold bpf_htons. int_solve. Qed.
Lemma htons_neqb_m1 b : (bpf_htons b =? -1) = false.
Proof. rewrite Z.eqb_sym. apply htons_eqb_m1. Qed.

(** The ids the loop stores: [ids] from index [i] on. *)
Fixpoint store_ids (vl : list Z) (i : Z) (ids : list Z) : list Z :=
  match ids with [] => vl | v :: ids' => store_ids (setZ vl i v) (i + 1) ids' end.

Lemma vlan_loop_spec s (W : wf s) n : forall i vlh proto vlans,
  dat s <= vlh <= dend s -> is_u16 proto ->
  wp (vlan_loop n i (dend s) vlh (bpf_htons proto) vlans)
     (fun '(r, pos, vl) s' => s' = s /\
        let '(p, ids, rest) := vlan_ref n proto (suffix s vlh) in
        r = bpf_htons p /\ is_u16 p /\ rest = suffix s pos /\ vlh <= pos <= dend s /\
        vl = (fun v => store_ids v i ids) <$> vlans) s.
Proof.
  induction n as [|n IH]; intros i vlh proto vlans Hv Hp.
  { simpl. wp_step. split_and!; try done; try lia. by destruct vlans. }
  cbn [vlan_loop]. rewrite proto_is_vlan_htons by done. wp_step; bool_prop.
  { wp_step. split; [done|]. cbn [vlan_ref].
    destruct (suffix s vlh) as [|? [|? [|? [|? ?]]]] eqn:?; rewrite ?H;
      split_and!; try done; try lia; by destruct vlans. }
  wp_step; bool_prop; sizes.
  { wp_step. split; [done|]. pose proof (suffix_short s vlh W ltac:(lia) ltac:(lia)) as Hs.
    destruct (suffix s vlh) as [|? [|? [|? [|? ?]]]] eqn:?; simpl in Hs |- *; try lia;
      split_and!; try done; try lia; by destruct vlans. }
  rewrite suffix_cons4 by (auto; lia). cbn [vlan_ref]. rewrite H.
  wp_step. wp_step. rewrite half_at_be16 by (auto; lia).
  pose proof (be16_at_range s (vlh + 2) W ltac:(lia) ltac:(lia)) as Hb.
  apply wp_bind. eapply wp_mono with (Q := fun v s' => s' = s /\
    v = (fun ids => setZ ids i (Z.land (be16_at s vlh) VLAN_VID_MASK)) <$> vlans).
  { destruct vlans as [ids|]; wp_steps; [|done]. split; [done|].
    rewrite half_at_be16 by (auto; lia). unfold bpf_ntohs, bpf_htons.
    rewrite bswap16_involutive; [done|]. apply be16_at_range; (done || lia). }
  intros v ? [-> ->]. eapply wp_mono; [apply IH; [lia|done]|].
  intros [[r pos] vl] ? [-> Hpost]. split; [done|].
  unfold be16_at in Hpost at 1. replace (vlh + 2 + 1) with (vlh + 3) in Hpost by lia.
  destruct (vlan_ref n _ _) as [[p ids] rest]. destruct Hpost as (-> & ? & -> & ? & ->).
  split_and!; try done; try lia. unfold be16_at. by destruct vlans.
Qed.

(** The whole parser, on the packet of state [s]. *)
Definition eth_ref (s : xstate) : Z * list Z * list Z :=
  vlan_ref VLAN_MAX_DEPTH (be16_at s (dat s + 12)) (suffix s (dat s + 14)).

Lemma parse_ethhdr_vlan_spec s (W : wf s) vlans :
  wp (parse_ethhdr_vlan (dat s) (dend s) vlans)
     (fun '(r, pos, h, vl) s' => s' = s /\
        ((lenZ (pkt s) < 14 /\ r = -1 /\ pos = dat s /\ h = None /\ vl = vlans) \/
         (14 <= lenZ (pkt s) /\ h = Some (dat s) /\
          let '(p, ids, rest) := eth_ref s in
          r = bpf_htons p /\ is_u16 p /\ rest = suffix s pos /\
          dat s + 14 <= pos <= dend s /\
          vl = (fun v => store_ids v 0 ids) <$> vlans))) s.
Proof.
  pose proof (wf_len _ W). unfold parse_ethhdr_vlan. sizes.
  wp_step; bool_prop. { wp_step. split; [done|]. left. split_and!; try done; lia. }
  wp_step. wp_step. rewrite half_at_be16 by (auto; lia). wp_step.
  eapply wp_mono; [apply vlan_loop_spec; auto; [lia|apply be16_at_range; (done || lia)]|].
  intros [[r pos] vl] ? [-> Hpost]. wp_step. split; [done|]. right.
  split_and!; [lia|done|]. done.
Qed.

Lemma parse_ethhdr_spec s (W : wf s) :
  wp (parse_ethhdr (dat s) (dend s))
     (fun '(r, pos, h) s' => s' = s /\
        ((lenZ (pkt s) < 14 /\ r = -1 /\ pos = dat s /\ h = None) \/
         (14 <= lenZ (pkt s) /\ h = Some (dat s) /\
          let '(p, ids, rest) := eth_ref s in
          r = bpf_htons p /\ is_u16 p /\ rest = suffix s pos /\
          dat s + 14 <= pos <= dend s))) s.
Proof.
  unfold parse_ethhdr. wp_step. eapply wp_mono; [by apply parse_ethhdr_vlan_spec|].
  intros [[[r pos] h] vl] ? [-> Hpost]. wp_step. split; [done|].
  destruct Hpost as [(?&?&?&?&?)|(?&?&Hpost)]; [left; done|right].
  destruct (eth_ref s) as [[p ids] rest]. destruct Hpost as (?&?&?&?&?). done.
Qed.

(** ** Theorems *)

(** C29: on every packet of at least 14 bytes, [parse_ethhdr_vlan] computes the
    reference decoder of the wire format: it returns the payload's EtherType in
    network byte order, leaves the cursor at the first byte after the tags it
    stripped, points at the Ethernet header, stores the VLAN ids of the stripped
    tags in order, and does not touch the packet. *)
Theorem parse_ethhdr_vlan_decodes (s : xstate) (vlans : list Z) :
  wf s -> 14 <= lenZ (pkt s) ->
  let '(proto, ids, payload) := eth_ref s in
  parse_ethhdr_vlan (dat s) (dend s) (Some vlans) s =
    Some ((bpf_htons proto, dend s - lenZ payload, Some (dat s),
           Some (store_ids vlans 0 ids)), s).
Proof.
  intros W Hlen. pose proof (parse_ethhdr_vlan_spec s W (Some vlans)) as Hspec.
  apply wp_run in Hspec as ([[[r pos] h] vl] & s' & Hrun & -> & [Hbad|(_ & -> & Hpost)]); [lia|].
  destruct (eth_ref s) as [[p ids] rest]. destruct Hpost as (-> & ? & -> & ? & ->).
  rewrite Hrun. pose proof (suffix_length s pos W ltac:(lia)) as ->. simpl. do 5 f_equal. lia.
Qed.

(** A frame of 60 bytes with one 802.1Q tag of VLAN 5 around an IPv4 payload. *)
Definition tagged_frame : list Z :=
  [1;2;3;4;5;6; 7;8;9;10;11;12; 0x81;0x00; 0x00;0x05; 0x08;0x00] ++ repeat 0 42.
Definition frame_state (l : list Z) : xstate :=
  Xstate (Xdp_md 256 (256 + lenZ l) 3 0) l (repeat (Datarec 0 0) 5) None.
Lemma frame_state_wf l :
  lenZ l <= 4096 -> forallb (fun b => (0 <=? b) && (b <? 256)) l = true -> wf (frame_state l).
Proof.
  intros Hl Hb. split; simpl; try lia; try done. apply List.Forall_forall. intros x Hx.
  rewrite forallb_forall in Hb. specialize (Hb x Hx). int_unfold. lia.
Qed.
Lemma parse_ethhdr_vlan_decodes_witness :
  let s := frame_state tagged_frame in
  parse_ethhdr_vlan 256 (256 + 60) (Some [0; 0]) s =
    Some ((bpf_htons ETH_P_IP, 256 + 18, Some 256, Some [5; 0]), s).
Proof.
  intros s. apply (parse_ethhdr_vlan_decodes s [0; 0]).
  - apply frame_state_wf; [simpl; lia|reflexivity].
  - simpl. lia.
Defined.

(** [encode_tags vids proto l]: the bytes after the MAC addresses of a frame with
    payload type [proto], payload [l] and the 802.1Q tags [vids]. *)
Fixpoint encode_tags (vids : list Z) (proto : Z) (l : list Z) : list Z :=
  match vids with
  | [] => proto / 256 :: u8 proto :: l
  | v :: vids' => 0x81 :: 0x00 :: v / 256 :: u8 v :: encode_tags vids' proto l
  end.

Lemma encode_tags_ref vids : forall n proto l,
  (length vids <= n)%nat -> Forall (fun v => 0 <= v < 4096) vids ->
  is_u16 proto -> is_vlan_type proto = false ->
  exists a b rest, encode_tags vids proto l = a :: b :: rest /\
    vlan_ref n (256 * a + b) rest = (proto, vids, l).
Proof.
  induction vids as [|v vids IH]; intros n proto l Hn Hv Hp Hnv; simpl.
  { exists (proto / 256), (u8 proto), l. split; [done|].
    replace (256 * (proto / 256) + u8 proto) with proto by int_solve.
    destruct n; [done|]. destruct l as [|? [|? [|? [|? ?]]]]; cbn [vlan_ref]; by rewrite ?Hnv. }
  destruct n as [|n]; [simpl in Hn; lia|]. apply Forall_cons_1 in Hv as [Hv1 Hv2].
  destruct (IH n proto l ltac:(simpl in Hn; lia) Hv2 Hp Hnv) as (a & b & rest & Henc & Href).
  exists 0x81, 0x00, (v / 256 :: u8 v :: encode_tags vids proto l). split; [done|].
  rewrite Henc. cbn [vlan_ref is_vlan_type]. change (is_vlan_type (256 * 129 + 0)) with true.
  rewrite Href. do 2 f_equal.
  replace (256 * (v / 256) + u8 v) with v by int_solve.
  unfold VLAN_VID_MASK. change 0x0fff with (Z.ones 12). rewrite Z.land_ones by lia.
  f_equal. apply Z.mod_small. lia.
Qed.

(** Round trip.  A frame built with at most two VLAN tags (ids below 4096)
    around a payload that is not itself a VLAN tag is decoded to exactly those
    ids, that payload type and that payload. *)
Theorem parse_ethhdr_vlan_roundtrip (s : xstate) (macs vids l : list Z) (proto : Z) :
  wf s -> pkt s = macs ++ encode_tags vids proto l -> length macs = 12%nat ->
  (length vids <= 2)%nat -> Forall (fun v => 0 <= v < 4096) vids ->
  is_u16 proto -> is_vlan_type proto = false ->
  exists pos, wp (parse_ethhdr_vlan (dat s) (dend s) (Some [0; 0]))
    (fun r s' => s' = s /\
       r = (bpf_htons proto, pos, Some (dat s), Some (store_ids [0; 0] 0 vids)) /\
       suffix s pos = l) s.
Proof.
  intros W Hpkt Hm Hn Hv Hp Hnv.
  destruct (encode_tags_ref vids 2 proto l Hn Hv Hp Hnv) as (a & b & rest & Henc & Href).
  assert (eth_ref s = (proto, vids, l)) as Heth.
  { unfold eth_ref, be16_at, byte_at, suffix, VLAN_MAX_DEPTH. rewrite Hpkt, Henc.
    rewrite !getZ_app_r by lia.
    replace (dat s + 12 - dat s - lenZ macs) with 0 by lia.
    replace (dat s + 12 + 1 - dat s - lenZ macs) with 1 by lia.
    replace (Z.to_nat (dat s + 14 - dat s)) with (length macs + 2)%nat by lia.
    rewrite drop_app_add. exact Href. }
  assert (14 <= lenZ (pkt s)) by (rewrite Hpkt, Henc, length_app; simpl; lia).
  pose proof (parse_ethhdr_vlan_spec s W (Some [0; 0])) as Hspec.
  apply wp_run in Hspec as ([[[r pos] h] vl] & s' & Hrun & -> & [Hbad|(_ & -> & Hpost)]); [lia|].
  rewrite Heth in Hpost. destruct Hpost as (-> & _ & ? & _ & ->).
  exists pos. unfold wp. by rewrite Hrun.
Qed.
Lemma parse_ethhdr_vlan_roundtrip_witness :
  exists pos, wp (parse_ethhdr_vlan 256 316 (Some [0; 0]))
    (fun r s' => s' = frame_state tagged_frame /\
       r = (bpf_htons ETH_P_IP, pos, Some 256, Some (store_ids [0; 0] 0 [5])) /\
       suffix (frame_state tagged_frame) pos = repeat 0 42) (frame_state tagged_frame).
Proof.
  apply (parse_ethhdr_vlan_roundtrip (frame_state tagged_frame)
           [1;2;3;4;5;6; 7;8;9;10;11;12] [5] (repeat 0 42) ETH_P_IP).
  - apply frame_state_wf; [simpl; lia|reflexivity].
  - reflexivity.
  - reflexivity.
  - simpl; lia.
  - repeat constructor; lia.
  - unfold ETH_P_IP. int_solve.
  - reflexivity.
Defined.
