(* ===== verification/Stats.v ===== *)
(** * Per-action statistics: common/xdp_stats_kern.h and the basic* programs

    [xdp_stats_map] is a BPF_MAP_TYPE_PERCPU_ARRAY with one [struct datarec] per
    XDP action; [bpf_map_lookup_elem] on it yields this CPU's record for keys
    below [max_entries] and NULL otherwise.  The counters are 64-bit and wrap. *)

From S2P Require Import Prelude Xdp.
#[local] Open Scope Z_scope.
#[local] Open Scope prog_scope.

(** [bpf_map_lookup_elem(&xdp_stats_map, &key)]: the key is a [__u32]. *)
Definition stats_lookup (s : xstate) (key : Z) : option datarec :=
  if (0 <=? key) && (key <? lenZ (xdp_stats_map s))
  then xdp_stats_map s !! Z.to_nat key else None.

(** The lookup returns a pointer into the map: the record is updated in place. *)
Definition rec_update (key : Z) (f : datarec -> datarec) : X unit :=
  modify (fun s => set_stats s (alter f (Z.to_nat key) (xdp_stats_map s))).
Definition add_packets (n : Z) (r : datarec) : datarec :=
  Datarec (u64 (rx_packets r + n)) (rx_bytes r).
Definition add_bytes (n : Z) (r : datarec) : datarec :=
  Datarec (rx_packets r) (u64 (rx_bytes r + n)).

Definition xdp_stats_record_action (action : Z) : X Z :=
  let action := u32 action in
  if action >=? XDP_ACTION_MAX then ret XDP_ABORTED
  else
    let! rec := gets (fun s => stats_lookup s action) in
    match rec with
    | None => ret XDP_ABORTED
    | Some _ =>
        rec_update action (add_packets 1) ;;;
        let! n := gets (fun s => u32 (dend s - dat s)) in
        rec_update action (add_bytes n) ;;;
        ret action
    end.

(** basic03-map-counter/xdp_prog_kern.c: the two [lock_xadd] add to the fields
    of this CPU's record. *)
Definition xdp_stats1_func : X Z :=
  let! data_end := gets (fun s => dend s) in
  let! data := gets (fun s => dat s) in
  let key := XDP_PASS in
  let! rec := gets (fun s => stats_lookup s key) in
  match rec with
  | None => ret XDP_ABORTED
  | Some _ =>
      rec_update key (add_packets 1) ;;;
      let bytes := u64 (data_end - data) in
      rec_update key (add_bytes bytes) ;;;
      ret XDP_PASS
  end.

Module Basic01.
(** basic01-xdp-pass/xdp_pass_kern.c *)
Definition xdp_prog_simple : X Z := ret XDP_PASS.
End Basic01.

Module Basic02.
(** basic02-prog-by-name/xdp_prog_kern.c *)
Definition xdp_pass_func : X Z := ret XDP_PASS.
Definition xdp_drop_func : X Z := ret XDP_DROP.
Definition xdp_abort_func : X Z := ret XDP_ABORTED.
End Basic02.

Module Basic04.
(** basic04-pinning-maps/xdp_prog_kern.c has its own copy of the recorder,
    which takes the length from two pointers. *)
Definition xdp_stats_record_action (action : Z) : X Z :=
  let action := u32 action in
  let! data_end := gets (fun s => dend s) in
  let! data := gets (fun s => dat s) in
  if action >=? XDP_ACTION_MAX then ret XDP_ABORTED
  else
    let! rec := gets (fun s => stats_lookup s action) in
    match rec with
    | None => ret XDP_ABORTED
    | Some _ =>
        let bytes := u64 (data_end - data) in
        rec_update action (add_packets 1) ;;;
        rec_update action (add_bytes bytes) ;;;
        ret action
    end.
Definition xdp_pass_func : X Z := let action := XDP_PASS in xdp_stats_record_action action.
Definition xdp_drop_func : X Z := let action := XDP_DROP in xdp_stats_record_action action.
Definition xdp_abort_func : X Z := let action := XDP_ABORTED in xdp_stats_record_action action.
End Basic04.

(** ** What recording promises *)

(** The state after counting the current packet under [action]. *)
Definition count_packet (n : Z) (r : datarec) : datarec := add_bytes n (add_packets 1 r).
Definition counted (s : xstate) (action : Z) : xstate :=
  set_stats s (alter (count_packet (lenZ (pkt s))) (Z.to_nat action) (xdp_stats_map s)).

Lemma wf_counted s a : wf s -> wf (counted s a).
Proof. intros []. split; simpl; auto. by rewrite length_alter. Qed.

Lemma stats_lookup_valid s a :
  wf s -> 0 <= a < 5 -> exists r, stats_lookup s a = Some r.
Proof.
  intros W Ha. pose proof (wf_stats _ W) as Hl. unfold stats_lookup.
  destruct (lookup_lt_is_Some_2 (xdp_stats_map s) (Z.to_nat a)) as [r Hr]; [lia|].
  exists r. replace (_ && _)%bool with true by lia. done.
Qed.

Lemma pkt_len_u32 s : wf s -> dend s - dat s = lenZ (pkt s) /\ is_u32 (lenZ (pkt s)).
Proof. intros [? ? ? ? ?]. int_unfold. lia. Qed.

(** The two increments of a record are one [count_packet]. *)
Lemma rec_update_twice s a n :
  set_stats (set_stats s (alter (add_packets 1) a (xdp_stats_map s)))
    (alter (add_bytes n) a (alter (add_packets 1) a (xdp_stats_map s))) =
  set_stats s (alter (count_packet n) a (xdp_stats_map s)).
Proof.
  unfold set_stats; simpl. f_equal.
  rewrite list_alter_alter_eq. done.
Qed.

Lemma record_action_spec s a :
  wf s ->
  xdp_stats_record_action a s =
    if (0 <=? u32 a) && (u32 a <? 5) then Some (u32 a, counted s (u32 a))
    else Some (XDP_ABORTED, s).
Proof.
  intros W. unfold xdp_stats_record_action, XDP_ACTION_MAX, XDP_REDIRECT.
  pose proof (u32_range a) as Hr. rewrite Z.geb_leb. unfold is_u32 in Hr.
  destruct (Z.leb_spec (4 + 1) (u32 a)).
  { replace (_ && _)%bool with false by lia. done. }
  replace (_ && _)%bool with true by lia.
  destruct (stats_lookup_valid s (u32 a) W ltac:(lia)) as (r & Hl).
  destruct (pkt_len_u32 s W) as [Hlen Hu].
  unfold bind, gets. rewrite Hl. unfold rec_update, modify, ret, counted; simpl.
  by rewrite rec_update_twice, Hlen, (u32_small (lenZ (pkt s))) by done.
Qed.

(** A verdict constant is in range. *)
Ltac verdict := unfold XDP_ABORTED, XDP_DROP, XDP_PASS, XDP_TX, XDP_REDIRECT; lia.
Lemma wp_record_action s a Q :
  wf s -> 0 <= a < 5 -> Q a (counted s a) -> wp (xdp_stats_record_action a) Q s.
Proof.
  intros W Ha HQ. unfold wp. rewrite record_action_spec by done.
  rewrite u32_small by (int_unfold; lia). by replace (_ && _)%bool with true by lia.
Qed.

(** ** Theorems *)

(** Recording a verdict counts the packet once, under that verdict and with
    its length, and returns the verdict; every other record is unchanged.  An
    out-of-range verdict is turned into XDP_ABORTED and counted nowhere. *)
Theorem record_action_counts (s : xstate) (action : Z) :
  wf s -> is_u32 action ->
  exists s', xdp_stats_record_action action s =
      Some (if action <? XDP_ACTION_MAX then action else XDP_ABORTED, s') /\
    pkt s' = pkt s /\ ctx s' = ctx s /\
    forall b : nat, xdp_stats_map s' !! b =
      if decide (Z.of_nat b = action)
      then count_packet (lenZ (pkt s)) <$> xdp_stats_map s !! b
      else xdp_stats_map s !! b.
Proof.
  intros W Ha. rewrite record_action_spec by done. rewrite u32_small by done.
  unfold is_u32, XDP_ACTION_MAX, XDP_REDIRECT in *.
  destruct (Z.ltb_spec action (4 + 1)).
  - replace (_ && _)%bool with true by lia. eexists; split_and!; [done..|]. intros b; simpl.
    case_decide.
    + replace (Z.to_nat action) with b by lia. apply list_lookup_alter_eq.
    + apply list_lookup_alter_ne. lia.
  - replace (_ && _)%bool with false by lia. eexists; split_and!; [done..|]. intros b.
    case_decide; [|done]. rewrite lookup_ge_None_2; [done|]. pose proof (wf_stats _ W). lia.
Qed.
Definition stats_demo : xstate :=
  Xstate (Xdp_md 256 316 3 0) (repeat 0 60) (repeat (Datarec 7 700) 5) None.
Lemma stats_demo_wf : wf stats_demo.
Proof.
  split; simpl; try lia; try done. repeat constructor; int_solve.
Qed.
Lemma record_action_counts_witness :
  exists s', xdp_stats_record_action XDP_TX stats_demo = Some (XDP_TX, s') /\
    pkt s' = pkt stats_demo /\ ctx s' = ctx stats_demo /\
    forall b : nat, xdp_stats_map s' !! b =
      if decide (Z.of_nat b = XDP_TX)
      then count_packet 60 <$> xdp_stats_map stats_demo !! b
      else xdp_stats_map stats_demo !! b.
Proof.
  apply (record_action_counts stats_demo XDP_TX stats_demo_wf). unfold XDP_TX. int_solve.
Defined.

(** The lesson copies agree with the shared recorder: the recorder of
    basic04 computes the same result and state for every verdict, and the
    counter program of basic03 is recording XDP_PASS. *)
Theorem recorders_agree (s : xstate) :
  wf s ->
  (forall action, Basic04.xdp_stats_record_action action s = xdp_stats_record_action action s) /\
  xdp_stats1_func s = xdp_stats_record_action XDP_PASS s.
Proof.
  intros W. destruct (pkt_len_u32 s W) as [Hlen Hu].
  assert (u32 (dend s - dat s) = lenZ (pkt s)) as E1 by (rewrite Hlen; by apply u32_small).
  assert (u64 (dend s - dat s) = lenZ (pkt s)) as E2
    by (rewrite Hlen; apply u64_small; int_unfold; lia).
  split.
  - intros a. unfold Basic04.xdp_stats_record_action, xdp_stats_record_action, bind, gets.
    destruct (u32 a >=? XDP_ACTION_MAX); [done|].
    destruct (stats_lookup s (u32 a)); [|done].
    unfold rec_update, modify; simpl. by rewrite E1, E2.
  - unfold xdp_stats1_func, xdp_stats_record_action, bind, gets. cbv zeta.
    change (u32 XDP_PASS) with XDP_PASS. change (XDP_PASS >=? XDP_ACTION_MAX) with false.
    cbv beta iota. destruct (stats_lookup s XDP_PASS); [|done].
    unfold rec_update, modify; simpl. by rewrite E1, E2.
Qed.
Lemma recorders_agree_witness :
  Basic04.xdp_stats_record_action XDP_DROP stats_demo =
    xdp_stats_record_action XDP_DROP stats_demo /\
  xdp_stats1_func stats_demo = xdp_stats_record_action XDP_PASS stats_demo.
Proof.
  split; [apply (proj1 (recorders_agree stats_demo stats_demo_wf))
         |apply (proj2 (recorders_agree stats_demo stats_demo_wf))].
Defined.
