(* ===== verification/Rewrite.v ===== *)
(** * Packet rewriting: common/rewrite_helpers.h

    Popping and pushing the outermost VLAN tag and swapping source and
    destination addresses, as the C code does it: copy the header, ask the
    kernel to move the packet start, re-read the pointers, check them again and
    write the header back.  The theorems say what that does to the packet as a
    list of bytes. *)

From S2P Require Import Prelude Xdp Parsing.
#[local] Open Scope Z_scope.
#[local] Open Scope prog_scope.

Section Rewriting.
Context `{BpfHelpers}.

Definition vlan_tag_pop (eth : ptr) : X Z :=
  let! data_end := gets (fun s => dend s) in
  let! proto := ld16 (eth + 12) in
  if negb (proto_is_vlan proto) then ret (-1)
  else
    let vlh := eth + sizeof_ethhdr in
    if vlh + sizeof_vlan_hdr >? data_end then ret (-1)
    else
      let! tci := ld16 vlh in
      let vlid := bpf_ntohs tci in
      let! h_proto := ld16 (vlh + 2) in
      let! eth_cpy := ld_bytes eth 14 in
      let! r := call_adjust_head sizeof_vlan_hdr in
      if negb (r =? 0) then ret (-1)
      else
        let! eth := gets (fun s => dat s) in
        let! data_end := gets (fun s => dend s) in
        if eth + sizeof_ethhdr >? data_end then ret (-1)
        else
          st_bytes eth eth_cpy ;;;
          st16 (eth + 12) h_proto ;;;
          ret vlid.

Definition vlan_tag_push (eth : ptr) (vlid : Z) : X Z :=
  let! eth_cpy := ld_bytes eth 14 in
  let! r := call_adjust_head (0 - sizeof_vlan_hdr) in
  if negb (r =? 0) then ret (-1)
  else
    let! data_end := gets (fun s => dend s) in
    let! eth := gets (fun s => dat s) in
    if eth + sizeof_ethhdr >? data_end then ret (-1)
    else
      st_bytes eth eth_cpy ;;;
      let vlh := eth + sizeof_ethhdr in
      if vlh + sizeof_vlan_hdr >? data_end then ret (-1)
      else
        st16 vlh (bpf_htons vlid) ;;;
        let! proto := ld16 (eth + 12) in
        st16 (vlh + 2) proto ;;;
        st16 (eth + 12) (bpf_htons ETH_P_8021Q) ;;;
        ret 0.
End Rewriting.

Definition swap_src_dst_mac (eth : ptr) : X unit :=
  let! h_tmp := ld_bytes (eth + 6) 6 in
  let! h_dest := ld_bytes eth 6 in
  st_bytes (eth + 6) h_dest ;;;
  st_bytes eth h_tmp.

Definition swap_src_dst_ipv6 (ipv6 : ptr) : X unit :=
  let! tmp := ld_bytes (ipv6 + 8) 16 in
  let! daddr := ld_bytes (ipv6 + 24) 16 in
  st_bytes (ipv6 + 8) daddr ;;;
  st_bytes (ipv6 + 24) tmp.

Definition swap_src_dst_ipv4 (iphdr : ptr) : X unit :=
  let! tmp := ld_bytes (iphdr + 12) 4 in
  let! daddr := ld_bytes (iphdr + 16) 4 in
  st_bytes (iphdr + 12) daddr ;;;
  st_bytes (iphdr + 16) tmp.

(** ** The packet as a list *)

Lemma getZ_take l n i : 0 <= i < Z.of_nat n -> getZ (take n l) i = getZ l i.
Proof. intros. unfold getZ. rewrite !nth_lookup, lookup_take_lt by lia. done. Qed.
Lemma getZ_app (l k : list Z) i :
  0 <= i -> getZ (l ++ k) i = if i <? lenZ l then getZ l i else getZ k (i - lenZ l).
Proof.
  intros. destruct (Z.ltb_spec i (lenZ l)); [|apply getZ_app_r; lia].
  unfold getZ. rewrite !nth_lookup, lookup_app_l by lia. done.
Qed.
Lemma getZ_u8 s i : wf s -> 0 <= i < lenZ (pkt s) -> u8 (getZ (pkt s) i) = getZ (pkt s) i.
Proof. intros W Hi. apply u8_small, (getZ_Forall is_u8); [apply W|done]. Qed.
Lemma getZ_byte_at s p : getZ (pkt s) (p - dat s) = byte_at s p.
Proof. done. Qed.

Lemma getZ_pair a b : getZ [a; b] (12 - 12) = a /\ getZ [a; b] (13 - 12) = b.
Proof. done. Qed.

(** Writing [l] at offset [k] of the packet. *)
Lemma getZ_puts s p k l i :
  wf s -> p = dat s + k -> 0 <= k -> k + lenZ l <= lenZ (pkt s) -> 0 <= i ->
  getZ (pkt (put_bytes s p l)) i =
    if decide (k <= i < k + lenZ l) then u8 (getZ l (i - k)) else getZ (pkt s) i.
Proof.
  intros W -> Hk Hl Hi. pose proof (wf_len _ W).
  pose proof (byte_at_puts l s (dat s + k) (dat s + i) W) as Hb.
  unfold byte_at in Hb. rewrite put_bytes_ctx in Hb.
  replace (dat s + i - dat s) with i in Hb by lia.
  rewrite Hb by lia. replace (dat s + i - (dat s + k)) with (i - k) by lia.
  repeat case_decide; (done || lia).
Qed.
Lemma bytes_at_getZ s p k n i :
  p = dat s + k -> 0 <= i < Z.of_nat n -> getZ (bytes_at s p n) i = getZ (pkt s) (k + i).
Proof. intros -> ?. rewrite getZ_bytes_at by done. unfold byte_at. f_equal. lia. Qed.
(** Side conditions of the two lemmas above. *)
Ltac put_side :=
  rewrite ?put_bytes_ctx, ?put_bytes_len, ?bytes_at_length;
  first [by repeat apply put_bytes_wf | simpl; lia].

(** The packet without, and with one more, outermost tag. *)
Definition pop_tag (l : list Z) : list Z := take 12 l ++ drop 16 l.
Definition push_tag (vlid : Z) (l : list Z) : list Z :=
  take 12 l ++ [0x81; 0x00; u8 (vlid / 256); u8 vlid] ++ drop 12 l.

Lemma pop_push_tag v l : (12 <= length l)%nat -> pop_tag (push_tag v l) = l.
Proof.
  intros. unfold pop_tag, push_tag.
  rewrite take_app_le, take_take, Nat.min_id by (rewrite length_take; lia).
  rewrite drop_app_ge by (rewrite length_take; lia).
  rewrite length_take, Nat.min_l by lia. apply (take_drop 12 l).
Qed.

(** [s1] is [s] with the packet start moved by [delta]. *)
Definition moved (s s1 : xstate) (delta : Z) : Prop :=
  wf s1 /\ lenZ (pkt s1) = lenZ (pkt s) - delta /\
  forall i, 0 <= i < lenZ (pkt s1) -> 0 <= i + delta ->
    getZ (pkt s1) i = getZ (pkt s) (i + delta).

(** Writing the old Ethernet header, with the inner type, over a packet moved by
    four bytes removes the tag. *)
Lemma pop_write s s1 :
  wf s -> moved s s1 4 -> 18 <= lenZ (pkt s) ->
  let hp := half_at s (dat s + 16) in
  pkt (put_bytes (put_bytes s1 (dat s1) (bytes_at s (dat s) 14))
         (dat s1 + 12) [u8 hp; u8 (hp / 256)]) = pop_tag (pkt s).
Proof.
  intros W (W1 & Hl1 & Hb1) Hlen. pose proof (wf_len _ W) as Hd. pose proof (wf_len _ W1) as Hd1.
  apply getZ_ext.
  { rewrite !put_bytes_len. unfold pop_tag. rewrite length_app, length_take, length_drop. lia. }
  intros i. rewrite !put_bytes_len. intros Hi.
  rewrite (getZ_puts _ _ 12) by put_side. rewrite (getZ_puts _ _ 0) by put_side.
  unfold pop_tag. rewrite getZ_app, length_take, Nat.min_l by lia.
  rewrite bytes_at_length. cbn [length].
  pose proof (byte_at_range s (dat s + 16) W ltac:(lia)) as R16.
  pose proof (byte_at_range s (dat s + 17) W ltac:(lia)) as R17.
  unfold half_at.
  replace (dat s + 16 + 1) with (dat s + 17) by lia. unfold byte_at in *.
  replace (dat s + 16 - dat s) with 16 in * by lia.
  replace (dat s + 17 - dat s) with 17 in * by lia.
  destruct (decide (12 <= i < 12 + Z.of_nat 2)); [|destruct (decide (0 <= i < 0 + Z.of_nat 14))].
  - rewrite (proj2 (Z.ltb_ge i (Z.of_nat 12))) by lia. rewrite getZ_drop by lia.
    assert (i = 12 \/ i = 13) as [-> | ->] by lia;
      [rewrite (proj1 (getZ_pair _ _)); change (12 - Z.of_nat 12 + Z.of_nat 16) with 16
      |rewrite (proj2 (getZ_pair _ _)); change (13 - Z.of_nat 12 + Z.of_nat 16) with 17];
      int_solve.
  - rewrite (proj2 (Z.ltb_lt i (Z.of_nat 12))) by lia. rewrite getZ_take by lia.
    rewrite (bytes_at_getZ _ _ 0) by lia. rewrite getZ_u8 by (done || lia). f_equal. lia.
  - rewrite (proj2 (Z.ltb_ge i (Z.of_nat 12))) by lia.
    rewrite getZ_drop by lia. rewrite Hb1 by lia. f_equal. lia.
Qed.

(** A 16-bit store. *)
Lemma getZ_put16 s p k v i :
  wf s -> p = dat s + k -> 0 <= k -> k + 2 <= lenZ (pkt s) -> 0 <= i ->
  getZ (pkt (put_bytes s p [u8 v; u8 (v / 256)])) i =
    if i =? k then u8 v else if i =? k + 1 then u8 (v / 256) else getZ (pkt s) i.
Proof.
  intros. rewrite (getZ_puts _ _ k) by (done || simpl; lia). cbn [length].
  destruct (decide (k <= i < k + Z.of_nat 2)).
  - assert (i = k \/ i = k + 1) as [-> | ->] by lia.
    + replace (k - k) with 0 by lia. rewrite Z.eqb_refl. unfold getZ; simpl. int_solve.
    + replace (k + 1 - k) with 1 by lia. rewrite Z.eqb_refl.
      rewrite (proj2 (Z.eqb_neq (k + 1) k)) by lia. unfold getZ; simpl. int_solve.
  - rewrite (proj2 (Z.eqb_neq i k)), (proj2 (Z.eqb_neq i (k + 1))) by lia. done.
Qed.

(** Writing header, tag and outer type over a packet moved by minus four bytes
    inserts the tag. *)
Lemma push_write s s1 vlid :
  wf s -> moved s s1 (-4) -> 14 <= lenZ (pkt s) ->
  let s2 := put_bytes s1 (dat s1) (bytes_at s (dat s) 14) in
  let s3 := put_bytes s2 (dat s1 + 14) [u8 (bpf_htons vlid); u8 (bpf_htons vlid / 256)] in
  let hp := half_at s3 (dat s1 + 12) in
  let s4 := put_bytes s3 (dat s1 + 16) [u8 hp; u8 (hp / 256)] in
  pkt (put_bytes s4 (dat s1 + 12)
         [u8 (bpf_htons ETH_P_8021Q); u8 (bpf_htons ETH_P_8021Q / 256)]) =
    push_tag vlid (pkt s).
Proof.
  intros W (W1 & Hl1 & Hb1) Hlen s2 s3 hp s4.
  pose proof (wf_len _ W) as Hd. pose proof (wf_len _ W1) as Hd1.
  assert (forall i, 0 <= i -> getZ (pkt s3) i =
    if i =? 14 then u8 (bpf_htons vlid) else if i =? 14 + 1 then u8 (bpf_htons vlid / 256)
    else if decide (0 <= i < 14) then getZ (pkt s) i else getZ (pkt s1) i) as E3.
  { intros i Hi. unfold s3, s2. rewrite (getZ_put16 _ _ 14) by put_side.
    rewrite (getZ_puts _ _ 0) by put_side. rewrite bytes_at_length. change (Z.of_nat 14) with 14.
    do 2 (destruct (_ =? _); [done|]). destruct (decide (0 <= i < 14)); [|by rewrite decide_False by lia].
    rewrite decide_True by lia. rewrite (bytes_at_getZ _ _ 0) by lia.
    rewrite getZ_u8 by (done || lia). f_equal; lia. }
  assert (hp = getZ (pkt s) 12 + 256 * getZ (pkt s) 13) as Hhp.
  { unfold hp, half_at, byte_at, s3, s2. rewrite !put_bytes_ctx. fold s2 s3.
    replace (dat s1 + 12 - dat s1) with 12 by lia.
    replace (dat s1 + 12 + 1 - dat s1) with 13 by lia. by rewrite !E3 by lia. }
  apply getZ_ext.
  { unfold s4, s3, s2, push_tag. rewrite !put_bytes_len, !length_app, length_take, length_drop.
    cbn [length]. lia. }
  intros i. unfold s4 at 1, s3 at 1, s2 at 1. rewrite !put_bytes_len. intros Hi.
  rewrite (getZ_put16 _ _ 12) by (unfold s4, s3, s2; put_side).
  unfold s4. rewrite (getZ_put16 _ _ 16) by (unfold s3, s2; put_side). rewrite E3 by lia.
  pose proof (getZ_Forall is_u8 (pkt s) 12 (wf_bytes _ W) ltac:(lia)) as R12.
  pose proof (getZ_Forall is_u8 (pkt s) 13 (wf_bytes _ W) ltac:(lia)) as R13.
  assert (u8 hp = getZ (pkt s) 12) as -> by int_solve.
  assert (u8 (hp / 256) = getZ (pkt s) 13) as -> by int_solve.
  unfold push_tag. rewrite getZ_app, length_take, Nat.min_l by lia.
  change (Z.of_nat 12) with 12.
  destruct (Z.ltb_spec i 12).
  { rewrite getZ_take by lia.
    repeat rewrite (proj2 (Z.eqb_neq _ _)) by lia. by rewrite decide_True by lia. }
  rewrite getZ_app by lia. cbn [length].
  destruct (Z.ltb_spec (i - 12) (Z.of_nat 4)).
  - assert (i = 12 \/ i = 13 \/ i = 14 \/ i = 15) as [->|[->|[->| ->]]] by lia; simpl; try done;
      unfold getZ; simpl; unfold bpf_htons, bswap16; int_solve.
  - rewrite getZ_drop by lia.
    do 2 rewrite (proj2 (Z.eqb_neq i _)) by lia.
    destruct (Z.eqb_spec i 16) as [->|]; [f_equal|].
    destruct (Z.eqb_spec i (16 + 1)) as [->|]; [f_equal|].
    do 2 rewrite (proj2 (Z.eqb_neq i _)) by lia. rewrite decide_False by lia.
    rewrite Hb1 by lia. f_equal. lia.
Qed.

Section RewriteSpecs.
Context `{HO : BpfHelpersOk}.

(** The kernel does not move the packet start. *)
Definition refuses (s : xstate) (delta : Z) : Prop := fst (bpf_xdp_adjust_head s delta) <> 0.
(** The byte-level effect of a successful move of the packet start. *)
Lemma wp_adjust_head s delta (Q : Z -> xstate -> Prop) :
  wf s ->
  (forall s', ~ refuses s delta -> moved s s' delta ->
     xdp_stats_map s' = xdp_stats_map s -> redirect_target s' = redirect_target s ->
     Q 0 s') ->
  (forall r, refuses s delta -> r < 0 -> Q r s) ->
  wp (call_adjust_head delta) Q s.
Proof using HO.
  intros W Hok Herr. unfold wp, call_adjust_head, refuses in *.
  destruct (bpf_xdp_adjust_head s delta) as [r s'] eqn:Hr. cbn [fst] in *.
  destruct (Z.eq_dec r 0) as [->|Hne].
  - destruct (adjust_head_success s delta s' W Hr) as (?&?&?&?&?). by apply Hok; auto.
  - destruct (adjust_head_failure s delta r s' Hr Hne) as [? ->]. by apply Herr.
Qed.

(** Popping: either the packet is untouched and -1 is returned, or the four
    bytes of the outermost tag are gone and the tag control field is returned. *)
Lemma vlan_tag_pop_spec s (W : wf s) :
  14 <= lenZ (pkt s) ->
  wp (vlan_tag_pop (dat s))
    (fun r s' => wf s' /\ xdp_stats_map s' = xdp_stats_map s /\
       ((r = -1 /\ s' = s /\
         (proto_is_vlan (half_at s (dat s + 12)) = false \/ lenZ (pkt s) < 18 \/ refuses s 4)) \/
        (18 <= lenZ (pkt s) /\ proto_is_vlan (half_at s (dat s + 12)) = true /\ ~ refuses s 4 /\
         r = be16_at s (dat s + 14) /\ pkt s' = pop_tag (pkt s)))) s.
Proof using HO.
  intros Hlen. pose proof (wf_len _ W) as Hd. unfold vlan_tag_pop. sizes.
  wp_go. wp_step. { wp_go. bool_prop. eauto 7. }
  wp_step. { wp_go. bool_prop. split_and!; try done. left. split_and!; try done. right; left. lia. } bool_prop. wp_go.
  apply wp_adjust_head; [done| |intros r Hf Hr; wp_steps; bool_prop; (lia || eauto 8)].
  intros s1 Hg Hmv Hst1 _. pose proof Hmv as (W1 & Hl1 & _). pose proof (wf_len _ W1) as Hd1.
  wp_step; bool_prop; [done|]. wp_go. wp_step; bool_prop; [lia|].
  wp_go; try (rewrite ?put_bytes_ctx, ?bytes_at_length; lia).
  split; [by repeat apply put_bytes_wf|].
  split; [by rewrite !put_bytes_stats|]. right. split_and!; [lia|done|done| |].
  { unfold bpf_ntohs. rewrite half_at_be16 by (auto; lia). apply bswap16_involutive.
    apply be16_at_range; (done || lia). }
  replace (dat s + 14 + 2) with (dat s + 16) by lia. apply pop_write; (done || lia).
Qed.

(** Pushing: -1 and an untouched packet when the kernel cannot grow the packet
    at its head, otherwise the packet with the new tag. *)
Lemma vlan_tag_push_spec s (W : wf s) vlid :
  14 <= lenZ (pkt s) ->
  wp (vlan_tag_push (dat s) vlid)
    (fun r s' => wf s' /\ xdp_stats_map s' = xdp_stats_map s /\
       ((r = -1 /\ s' = s /\ refuses s (-4)) \/ (r = 0 /\ ~ refuses s (-4) /\ pkt s' = push_tag vlid (pkt s)))) s.
Proof using HO.
  intros Hlen. pose proof (wf_len _ W) as Hd. unfold vlan_tag_push. sizes. wp_go.
  apply wp_adjust_head; [done| |intros r Hf Hr; wp_steps; bool_prop; (lia || eauto 7)].
  intros s1 Hg Hmv Hst1 _. pose proof Hmv as (W1 & Hl1 & _). pose proof (wf_len _ W1) as Hd1.
  wp_step; bool_prop; [done|]. wp_go. wp_step; bool_prop; [lia|].
  wp_go; try (rewrite ?put_bytes_ctx, ?bytes_at_length; lia). wp_step; bool_prop; [lia|].
  wp_go; try (rewrite ?put_bytes_ctx; lia).
  split; [by repeat apply put_bytes_wf|]. split; [by rewrite !put_bytes_stats|]. right.
  split; [done|]. split; [done|]. replace (dat s1 + 14 + 2) with (dat s1 + 16) by lia.
  apply push_write; (done || lia).
Qed.
End RewriteSpecs.

(** ** Frames of an update *)

(** Everything but the bytes in [P] is as it was. *)
Definition same_but (P : Z -> Prop) (s s' : xstate) : Prop :=
  ctx s' = ctx s /\ xdp_stats_map s' = xdp_stats_map s /\
  redirect_target s' = redirect_target s /\ length (pkt s') = length (pkt s) /\
  forall x, dat s <= x < dend s -> ~ P x -> byte_at s' x = byte_at s x.

Section SameBut.
Implicit Types (s : xstate) (P : Z -> Prop).
Lemma same_but_put s p b :
  wf s -> dat s <= p < dend s -> same_but (fun x => x = p) s (put_byte s p b).
Proof.
  intros W Hp. split_and!; try done; [simpl; apply length_setZ|].
  intros x Hx Hn. rewrite byte_at_put by (done || lia). by rewrite decide_False by lia.
Qed.
Lemma same_but_puts s p l :
  wf s -> dat s <= p -> p + lenZ l <= dend s ->
  same_but (fun x => p <= x < p + lenZ l) s (put_bytes s p l).
Proof.
  intros W Hp Hl. split_and!; [apply put_bytes_ctx|apply put_bytes_stats
    |apply put_bytes_redirect|apply put_bytes_len|].
  intros x Hx Hn. rewrite byte_at_puts by (done || lia). by rewrite decide_False by lia.
Qed.
Lemma same_but_trans P1 P2 P s s1 s2 :
  same_but P1 s s1 -> same_but P2 s1 s2 -> (forall x, P1 x \/ P2 x -> P x) ->
  same_but P s s2.
Proof.
  intros (C1 & S1 & R1 & L1 & B1) (C2 & S2 & R2 & L2 & B2) HP.
  split_and!; try congruence. intros x Hx Hn.
  rewrite B2 by (rewrite ?C1; auto). apply B1; auto.
Qed.
Lemma same_but_mono P Q s s' : same_but P s s' -> (forall x, P x -> Q x) -> same_but Q s s'.
Proof. intros (?&?&?&?&?) HPQ. split_and!; auto. Qed.
End SameBut.

(** ** Swapping two fields *)

(** All three swaps exchange two [n]-byte fields at [p] and [q]. *)
Definition swap_fields (p q : ptr) (n : nat) : X unit :=
  let! a := ld_bytes p n in
  let! b := ld_bytes q n in
  st_bytes p b ;;;
  st_bytes q a.

(** The packet in which the fields at [p] and [q] have changed places. *)
Definition swapped (s s' : xstate) (p q n : Z) : Prop :=
  ctx s' = ctx s /\ xdp_stats_map s' = xdp_stats_map s /\
  redirect_target s' = redirect_target s /\ length (pkt s') = length (pkt s) /\
  forall x, dat s <= x < dend s -> byte_at s' x =
    if decide (p <= x < p + n) then byte_at s (q + (x - p))
    else if decide (q <= x < q + n) then byte_at s (p + (x - q))
    else byte_at s x.

Lemma swap_fields_spec s p q n (Q : unit -> xstate -> Prop) :
  wf s -> dat s <= p -> p + Z.of_nat n <= dend s -> dat s <= q -> q + Z.of_nat n <= dend s ->
  p + Z.of_nat n <= q \/ q + Z.of_nat n <= p ->
  (forall s', wf s' -> swapped s s' p q (Z.of_nat n) -> Q tt s') ->
  wp (swap_fields p q n) Q s.
Proof.
  intros W Hp1 Hp2 Hq1 Hq2 Hdis HQ. unfold swap_fields.
  wp_go; try (rewrite ?put_bytes_ctx, ?bytes_at_length; lia).
  apply HQ; [by repeat apply put_bytes_wf|].
  split_and!; [by rewrite !put_bytes_ctx|by rewrite !put_bytes_stats
    |by rewrite !put_bytes_redirect|by rewrite !put_bytes_len|].
  intros x Hx.
  assert (forall y, dat s <= y < dend s -> u8 (byte_at s y) = byte_at s y) as Hu
    by (intros; by apply u8_small, byte_at_range).
  rewrite byte_at_puts by (rewrite ?put_bytes_ctx, ?bytes_at_length; first [by apply put_bytes_wf|lia]).
  rewrite byte_at_puts by (rewrite ?bytes_at_length; first [done|lia]).
  rewrite !bytes_at_length.
  destruct (decide (q <= x < q + Z.of_nat n)).
  - rewrite decide_False by lia. rewrite getZ_bytes_at by lia. apply Hu. lia.
  - destruct (decide (p <= x < p + Z.of_nat n)); [|done].
    rewrite getZ_bytes_at by lia. apply Hu. lia.
Qed.

Lemma swap_mac_fields eth : swap_src_dst_mac eth = swap_fields (eth + 6) eth 6.
Proof. done. Qed.
Lemma swap_ipv4_fields p : swap_src_dst_ipv4 p = swap_fields (p + 12) (p + 16) 4.
Proof. done. Qed.
Lemma swap_ipv6_fields p : swap_src_dst_ipv6 p = swap_fields (p + 8) (p + 24) 16.
Proof. done. Qed.

Lemma swapped_same_but s s' p q n :
  swapped s s' p q n -> same_but (fun x => p <= x < p + n \/ q <= x < q + n) s s'.
Proof.
  intros (C & S & R & L & B). split_and!; try done. intros x Hx Hn.
  rewrite B by done. by rewrite !decide_False by tauto.
Qed.

(** Swapping twice gives the packet back. *)
Lemma swapped_twice s s1 s2 p q n :
  wf s -> wf s1 -> wf s2 -> dat s <= p -> p + n <= dend s -> dat s <= q -> q + n <= dend s ->
  p + n <= q \/ q + n <= p ->
  swapped s s1 p q n -> swapped s1 s2 p q n -> s2 = s.
Proof.
  intros W W1 W2 Hp1 Hp2 Hq1 Hq2 Hdis (C1 & S1 & R1 & L1 & B1) (C2 & S2 & R2 & L2 & B2).
  destruct s as [c l m t], s2 as [c2 l2 m2 t2]; simpl in *. f_equal; try congruence.
  apply getZ_ext; [congruence|]. intros i Hi.
  pose proof (wf_len _ W) as Hd; simpl in Hd.
  assert (c2 = c) as -> by congruence.
  specialize (B2 (data c + i)). rewrite C1 in B2. specialize (B2 ltac:(lia)).
  unfold byte_at at 1 in B2. simpl in B2. replace (data c + i - data c) with i in B2 by lia.
  rewrite B2. clear B2.
  assert (forall y, data c <= y < data_end c -> byte_at s1 y =
    if decide (p <= y < p + n) then getZ l (q + (y - p) - data c)
    else if decide (q <= y < q + n) then getZ l (p + (y - q) - data c)
    else getZ l (y - data c)) as B by (intros y Hy; rewrite B1 by done; done).
  repeat case_decide; rewrite B by lia; repeat case_decide; (lia || f_equal; lia).
Qed.

(** ** Theorems *)

Section RewriteTheorems.
Context `{HO : BpfHelpersOk}.
(** What the header of a frame with a new tag reads. *)
Lemma push_tag_reads s s1 vlid : wf s1 -> 14 <= lenZ (pkt s) -> pkt s1 = push_tag vlid (pkt s) ->
  lenZ (pkt s1) = lenZ (pkt s) + 4 /\ proto_is_vlan (half_at s1 (dat s1 + 12)) = true /\ be16_at s1 (dat s1 + 14) = u16 vlid.
Proof using.
  intros W1 Hlen Hp1. assert (Hg : forall i, 12 <= i < 16 -> byte_at s1 (dat s1 + i) = getZ [0x81; 0x00; u16 vlid / 256; u8 vlid] (i - 12)).
  { intros i Hi. unfold byte_at. replace (dat s1 + i - dat s1) with i by lia. rewrite Hp1. unfold push_tag.
    rewrite (getZ_app_r _ _ i) by (rewrite length_take; lia). rewrite length_take, Nat.min_l by lia.
    assert (i = 12 \/ i = 13 \/ i = 14 \/ i = 15) as [->|[->|[->| ->]]] by lia; unfold getZ; simpl; try done; int_solve. }
  split; [rewrite Hp1; unfold push_tag; rewrite !length_app, length_take, length_drop; cbn [length]; lia|]. split.
  - unfold half_at. replace (dat s1 + 12 + 1) with (dat s1 + 13) by lia. rewrite !Hg by lia. reflexivity.
  - unfold be16_at. replace (dat s1 + 14 + 1) with (dat s1 + 15) by lia. rewrite !Hg by lia. unfold getZ; simpl. int_solve.
Qed.

(** A successful [vlan_tag_push] inserts exactly the four bytes of an
    802.1Q tag with the given id behind the MAC addresses and keeps every other
    byte; when the kernel refuses to grow the packet, -1 is returned and the
    packet is untouched.  No path faults. *)
Theorem vlan_tag_push_inserts (s : xstate) (vlid : Z) :
  wf s -> 14 <= lenZ (pkt s) ->
  exists r s', vlan_tag_push (dat s) vlid s = Some (r, s') /\
    ((r = 0 /\ ~ refuses s (-4) /\ pkt s' = push_tag vlid (pkt s)) \/ (r = -1 /\ refuses s (-4) /\ s' = s)).
Proof using HO.
  intros W Hlen. pose proof (vlan_tag_push_spec s W vlid Hlen) as Hs.
  apply wp_run in Hs as (r & s' & Hrun & _ & _ & Hcase). exists r, s'.
  split; [done|]. destruct Hcase as [(-> & -> & Hr)|(-> & Hr & Hp)]; [by right|by left].
Qed.

(** C30: round trip.  On a frame with an Ethernet header, pushing a tag returns -1 and leaves the
    frame exactly when the kernel refuses to grow it.  Otherwise it returns 0 with the tag in
    place; popping then returns -1 and leaves the tagged frame exactly when the kernel refuses
    to shrink it, and otherwise gives back the frame, byte for byte, and the pushed 16-bit tag
    control field. *)
Theorem vlan_push_pop_roundtrip (s : xstate) (vlid : Z) :
  wf s -> 14 <= lenZ (pkt s) ->
  exists r s1, vlan_tag_push (dat s) vlid s = Some (r, s1) /\
    (refuses s (-4) /\ r = -1 /\ s1 = s \/
     ~ refuses s (-4) /\ r = 0 /\ pkt s1 = push_tag vlid (pkt s) /\
     exists r2 s2, vlan_tag_pop (dat s1) s1 = Some (r2, s2) /\
       (refuses s1 4 /\ r2 = -1 /\ s2 = s1 \/
        ~ refuses s1 4 /\ r2 = u16 vlid /\ pkt s2 = pkt s)).
Proof using HO.
  intros W Hlen. destruct (proj1 (wp_run _ _ _) (vlan_tag_push_spec s W vlid Hlen)) as (r & s1 & E & W1 & _ & Hcase).
  exists r, s1. split; [done|]. destruct Hcase as [(-> & -> & Hr)|(-> & Hr & Hp1)]; [by left|right]. split_and!; try done.
  pose proof (wf_len _ W1) as Hd1. pose proof (push_tag_reads s s1 vlid W1 Hlen Hp1) as (Hl1 & Hv & Ht).
  destruct (proj1 (wp_run _ _ _) (vlan_tag_pop_spec s1 W1 ltac:(lia))) as (r2 & s2 & E2 & _ & _ & Hcase).
  exists r2, s2. split; [done|]. destruct Hcase as [(-> & -> & [Hf|[Hf|Hf]])|(_ & _ & Hf & -> & Hp2)]; [congruence|lia|by left|right].
  split_and!; try done. by rewrite Hp2, Hp1, pop_push_tag by lia.
Qed.

(** [vlan_tag_pop] never faults on a frame that holds an Ethernet header.  It
    returns -1 and leaves the frame, or it removes exactly the four bytes of the tag
    and returns the whole tag control field; the comment of the function promises
    the VLAN id, which this is only when the priority and DEI bits are all zero. *)
Theorem vlan_tag_pop_returns_tci (s : xstate) :
  wf s -> 14 <= lenZ (pkt s) ->
  exists r s', vlan_tag_pop (dat s) s = Some (r, s') /\
    ((r = -1 /\ s' = s /\ (proto_is_vlan (half_at s (dat s + 12)) = false \/ lenZ (pkt s) < 18 \/ refuses s 4)) \/
     (proto_is_vlan (half_at s (dat s + 12)) = true /\ pkt s' = pop_tag (pkt s) /\
      r = be16_at s (dat s + 14) /\
      (r = Z.land r VLAN_VID_MASK <-> byte_at s (dat s + 14) < 16))).
Proof using HO.
  intros W Hlen. pose proof (vlan_tag_pop_spec s W Hlen) as Hs.
  apply wp_run in Hs as (r & s' & Hrun & _ & _ & Hcase). exists r, s'.
  split; [done|]. destruct Hcase as [Hfail|(Hl & Hv & _ & -> & Hp)]; [by left|right].
  split_and!; try done. pose proof (wf_len _ W) as Hd.
  change VLAN_VID_MASK with (Z.ones 12). rewrite Z.land_ones by lia.
  assert (0 <= byte_at s (dat s + 14) < 256 /\ 0 <= byte_at s (dat s + 14 + 1) < 256) as [H0 H1]
    by (split; apply byte_at_range; (done || lia)).
  unfold be16_at. change (2 ^ 12) with 4096. split; intros He; [|rewrite Z.mod_small; lia].
  pose proof (Z.mod_pos_bound
    (256 * byte_at s (dat s + 14) + byte_at s (dat s + 14 + 1)) 4096 ltac:(lia)). lia.
Qed.
End RewriteTheorems.
Lemma tagged_frame_wf : wf (frame_state tagged_frame) /\ 14 <= lenZ (pkt (frame_state tagged_frame)).
Proof. split; [apply frame_state_wf; [simpl; lia|reflexivity]|simpl; lia]. Qed.
Lemma vlan_tag_push_inserts_witness :
  exists s', vlan_tag_push 256 5 (frame_state tagged_frame) = Some (0, s') /\ pkt s' = push_tag 5 tagged_frame.
Proof.
  destruct (vlan_tag_push_inserts (HO := ref_helpers_ok) (frame_state tagged_frame) 5 (proj1 tagged_frame_wf) (proj2 tagged_frame_wf))
    as (r & s' & E & [(-> & _ & Hp)|(_ & Hr & _)]); [by exists s'|]. by destruct Hr.
Defined.
Lemma vlan_push_pop_roundtrip_witness : exists s1 s2,
  vlan_tag_push 256 5 (frame_state tagged_frame) = Some (0, s1) /\ vlan_tag_pop (dat s1) s1 = Some (5, s2) /\ pkt s2 = tagged_frame.
Proof.
  destruct (vlan_push_pop_roundtrip (HO := ref_helpers_ok) (frame_state tagged_frame) 5 (proj1 tagged_frame_wf) (proj2 tagged_frame_wf))
    as (r & s1 & E & [(Hr & _)|(_ & -> & Hp & r2 & s2 & E2 & Hc)]); [by destruct Hr|].
  exists s1, s2. split; [exact E|]. vm_compute in E. injection E as <-. destruct Hc as [(Hr & _)|(_ & -> & Hp2)]; [by destruct Hr|]. exact (conj E2 Hp2).
Defined.

Definition priority_frame : list Z :=
  [1;2;3;4;5;6; 7;8;9;10;11;12; 0x81;0x00; 0x20;0x05; 0x08;0x00] ++ repeat 0 42.

(** A frame of VLAN 5 with priority 1: the value returned is 0x2005. *)
Lemma vlan_tag_pop_returns_tci_witness :
  (exists r s', vlan_tag_pop 256 (frame_state priority_frame) = Some (r, s') /\
    ((r = -1 /\ s' = frame_state priority_frame /\ (proto_is_vlan (half_at (frame_state priority_frame) (256 + 12)) = false \/
        lenZ priority_frame < 18 \/ refuses (frame_state priority_frame) 4)) \/
     (proto_is_vlan (half_at (frame_state priority_frame) (256 + 12)) = true /\
      pkt s' = pop_tag priority_frame /\
      r = be16_at (frame_state priority_frame) (256 + 14) /\
      (r = Z.land r VLAN_VID_MASK <->
       byte_at (frame_state priority_frame) (256 + 14) < 16)))) /\
  option_map fst (vlan_tag_pop (H := ref_helpers) 256 (frame_state priority_frame)) = Some 0x2005.
Proof.
  split; [|vm_compute; reflexivity].
  apply (vlan_tag_pop_returns_tci (HO := ref_helpers_ok) (frame_state priority_frame)).
  - apply frame_state_wf; [simpl; lia|reflexivity].
  - simpl; lia.
Defined.

(** Exchanging addresses is an involution: swapping the MAC addresses of an
    in-bounds Ethernet header twice leaves the whole state as it was, and likewise
    for the addresses of an IPv4 and of an IPv6 header.  No access faults. *)
Theorem swaps_involutive (s : xstate) (p : ptr) :
  wf s -> dat s <= p ->
  (p + 14 <= dend s -> (swap_src_dst_mac p ;;; swap_src_dst_mac p) s = Some (tt, s)) /\
  (p + 20 <= dend s -> (swap_src_dst_ipv4 p ;;; swap_src_dst_ipv4 p) s = Some (tt, s)) /\
  (p + 40 <= dend s -> (swap_src_dst_ipv6 p ;;; swap_src_dst_ipv6 p) s = Some (tt, s)).
Proof.
  intros W Hp.
  assert (forall a b n, dat s <= a -> a + Z.of_nat n <= dend s -> dat s <= b ->
    b + Z.of_nat n <= dend s -> a + Z.of_nat n <= b \/ b + Z.of_nat n <= a ->
    (swap_fields a b n ;;; swap_fields a b n) s = Some (tt, s)) as Hgen.
  { intros a b n Ha1 Ha2 Hb1 Hb2 Hdis.
    assert (wp (swap_fields a b n ;;; swap_fields a b n) (fun _ s' => s' = s) s) as Hwp.
    { wp_step. apply swap_fields_spec; try done. intros s1 W1 Hs1.
      pose proof Hs1 as (C1 & _). apply swap_fields_spec; rewrite ?C1; try done.
      intros s2 W2 Hs2. by eapply (swapped_twice s s1 s2 a b (Z.of_nat n)). }
    apply wp_run in Hwp as ([] & s' & Hrun & ->). exact Hrun. }
  split_and!; intros; rewrite ?swap_mac_fields, ?swap_ipv4_fields, ?swap_ipv6_fields;
    apply Hgen; lia.
Qed.
Lemma swaps_involutive_witness :
  (swap_src_dst_mac 256 ;;; swap_src_dst_mac 256) (frame_state tagged_frame) =
    Some (tt, frame_state tagged_frame) /\
  (swap_src_dst_ipv6 270 ;;; swap_src_dst_ipv6 270) (frame_state tagged_frame) =
    Some (tt, frame_state tagged_frame).
Proof.
  split; [apply (proj1 (swaps_involutive (frame_state tagged_frame) 256
                   ltac:(apply frame_state_wf; [simpl; lia|reflexivity]) ltac:(simpl; lia)))
         |apply (proj2 (proj2 (swaps_involutive (frame_state tagged_frame) 270
                   ltac:(apply frame_state_wf; [simpl; lia|reflexivity]) ltac:(simpl; lia))))];
    simpl; lia.
Defined.
