(* ===== verification/Checksum.v ===== *)
(** * Internet checksums

    The one's complement arithmetic of the repository: [csum_fold_helper] and
    [icmp_checksum_diff] of packet03-redirecting/xdp_prog_kern.c, the incremental
    update [csum16_add]/[csum16_sub]/[csum_replace2] of switchtsn/af_xdp_user.c.
    A checksum is right when the 16-bit words it covers, itself included, add up
    to 0 modulo 65535; the lemmas state every update in that group. *)

From S2P Require Import Prelude Xdp.
#[local] Open Scope Z_scope.

(** ** The code *)

Definition csum_fold_helper (csum : Z) : Z :=
  let sum := u32 (Z.shiftr csum 16 + Z.land csum 0xffff) in
  let sum := u32 (sum + Z.shiftr sum 16) in
  u16 (Z.lnot sum).

Definition icmp_checksum_diff `{BpfHelpers} (seed : Z) (icmphdr_new icmphdr_old : list Z) : Z :=
  let csum := u32 (bpf_csum_diff icmphdr_old icmphdr_new (u16 seed)) in
  csum_fold_helper csum.

Definition csum16_add (csum addend : Z) : Z :=
  let res := u16 csum in
  let res := u16 (res + u16 addend) in
  u16 (res + if res <? u16 addend then 1 else 0).

Definition csum16_sub (csum addend : Z) : Z := csum16_add csum (u16 (Z.lnot addend)).

Definition csum_replace2 (sum old new : Z) : Z :=
  u16 (Z.lnot (csum16_add (csum16_sub (u16 (Z.lnot sum)) old) new)).

(** ** Congruence modulo 65535 *)

Definition eqm (a b : Z) : Prop := a mod 65535 = b mod 65535.
Infix "≡ₘ" := eqm (at level 70).

#[export] Instance eqm_equiv : Equivalence eqm.
Proof. split; unfold eqm; intros ?; congruence. Qed.
#[export] Instance eqm_add : Proper (eqm ==> eqm ==> eqm) Z.add.
Proof. intros a a' Ha b b' Hb. unfold eqm in *. by rewrite Zplus_mod, Ha, Hb, <- Zplus_mod. Qed.
#[export] Instance eqm_sub : Proper (eqm ==> eqm ==> eqm) Z.sub.
Proof. intros a a' Ha b b' Hb. unfold eqm in *. by rewrite Zminus_mod, Ha, Hb, <- Zminus_mod. Qed.
#[export] Instance eqm_opp : Proper (eqm ==> eqm) Z.opp.
Proof. intros a a' Ha. rewrite <- !Z.sub_0_l. by rewrite Ha. Qed.

Lemma eqm_intro a b k : a = b + k * 65535 -> a ≡ₘ b.
Proof. intros ->. unfold eqm. by rewrite Z_mod_plus_full. Qed.
Lemma eqm_sub_zero a b : a - b ≡ₘ 0 <-> a ≡ₘ b.
Proof.
  split; intros Ha.
  - replace a with (a - b + b) by lia. by rewrite Ha.
  - rewrite Ha. by rewrite Z.sub_diag.
Qed.
Lemma eqm_shift a b c d : a - b = c - d -> a ≡ₘ b -> c ≡ₘ d.
Proof. rewrite <- (eqm_sub_zero a b), <- (eqm_sub_zero c d). by intros ->. Qed.

Lemma lnot_u16 x : is_u16 x -> u16 (Z.lnot x) = 65535 - x.
Proof. intros. unfold Z.lnot. int_solve. Qed.

(** One's complement addition. *)
Lemma csum16_add_value a b :
  is_u16 a -> is_u16 b ->
  csum16_add a b = (if a + b <? 65536 then a + b else a + b - 65535).
Proof.
  intros Ha Hb. unfold csum16_add. rewrite (u16_small a), (u16_small b) by done.
  destruct (Z.ltb_spec (a + b) 65536).
  - assert (u16 (a + b) = a + b) as -> by int_solve.
    rewrite (proj2 (Z.ltb_ge _ _)) by (int_unfold; lia). int_solve.
  - assert (u16 (a + b) = a + b - 65536) as -> by int_solve.
    rewrite (proj2 (Z.ltb_lt _ _)) by (int_unfold; lia). int_solve.
Qed.
Lemma csum16_add_range a b : is_u16 (csum16_add a b).
Proof. unfold csum16_add. apply u16_range. Qed.
Lemma csum16_add_eqm a b : is_u16 a -> is_u16 b -> csum16_add a b ≡ₘ a + b.
Proof.
  intros. rewrite csum16_add_value by done.
  destruct (_ <? _); [done|]. by apply (eqm_intro _ _ (-1)); lia.
Qed.
Lemma csum16_sub_eqm a b : is_u16 a -> is_u16 b -> csum16_sub a b ≡ₘ a - b.
Proof.
  intros. unfold csum16_sub. rewrite csum16_add_eqm by (done || apply u16_range).
  rewrite lnot_u16 by done. apply (eqm_intro _ _ 1). lia.
Qed.
Lemma csum_replace2_range sum old new : is_u16 (csum_replace2 sum old new).
Proof. apply u16_range. Qed.
Lemma csum_replace2_eqm sum old new :
  is_u16 sum -> is_u16 old -> is_u16 new -> csum_replace2 sum old new ≡ₘ sum + old - new.
Proof.
  intros Hs Ho Hn. unfold csum_replace2.
  rewrite lnot_u16 by apply csum16_add_range.
  rewrite csum16_add_eqm by (done || apply csum16_add_range).
  rewrite csum16_sub_eqm by (done || apply u16_range).
  rewrite lnot_u16 by done. apply (eqm_intro _ _ 0). lia.
Qed.

Lemma csum_fold_helper_range c : is_u16 (csum_fold_helper c).
Proof. apply u16_range. Qed.
Lemma fold_halves h l :
  0 <= h < 65536 -> 0 <= l < 65536 ->
  u16 (Z.lnot (u32 (u32 (h + l) + u32 (h + l) / 65536))) ≡ₘ - (65536 * h + l).
Proof.
  intros Hh Hl. assert (u32 (h + l) = h + l) as -> by int_solve.
  set (k := (h + l) / 65536).
  assert (0 <= k <= 1 /\ 65536 * k <= h + l < 65536 * k + 65536) as (Hk & Hhl)
    by (subst k; int_solve).
  assert (u32 (h + l + k) = h + l + k) as -> by int_solve.
  assert (h + l + k < 65536 * k + 65536) by lia. unfold Z.lnot.
  assert (u16 (Z.pred (- (h + l + k))) = 65535 + 65536 * k - (h + l + k)) as ->
    by (unfold u16; symmetry; apply (Z.mod_unique_pos _ _ (-1 - k)); lia).
  apply (eqm_intro _ _ (1 + k + h)). lia.
Qed.
Lemma csum_fold_helper_eqm c : is_u32 c -> csum_fold_helper c ≡ₘ - c.
Proof.
  intros Hc. unfold csum_fold_helper. cbv zeta.
  change 0xffff with (Z.ones 16). rewrite Z.land_ones, !Z.shiftr_div_pow2 by lia.
  change (2 ^ 16) with 65536. unfold is_u32 in Hc.
  rewrite fold_halves by int_solve. apply (eqm_intro _ _ 0). int_solve.
Qed.

(** ** Sums over packet bytes *)

Section PairInd.
Context {A : Type} (P : list A -> Prop)
  (P0 : P []) (P1 : forall a, P [a]) (P2 : forall a b l, P l -> P (a :: b :: l)).
Lemma pair_ind l : P l.
Proof using P0 P1 P2.
  enough (P l /\ forall a, P (a :: l)) by tauto.
  induction l as [|x l [IH1 IH2]]; auto.
Qed.
End PairInd.

(** Replacing one byte changes the sum by its weight times the difference. *)
Definition weight16 (i : nat) : Z := if Nat.even i then 1 else 256.
Lemma sum16_insert l : forall i v x, l !! i = Some x ->
  sum16 (<[i := v]> l) = sum16 l + weight16 i * (v - x).
Proof.
  unfold sum16, sumZ, weight16.
  induction l as [|a|a b l IH] using (pair_ind (A := Z)); intros i v x Hx; [done| |].
  - destruct i as [|[|i]]; simplify_eq/=. lia.
  - destruct i as [|[|i]]; simplify_eq/=; [lia|lia|].
    rewrite (IH i v x) by done. lia.
Qed.
Lemma even_of_nat n : Z.even (Z.of_nat n) = Nat.even n.
Proof.
  induction n; [done|].
  by rewrite Nat2Z.inj_succ, Z.even_succ, Nat.even_succ, <- Z.negb_even, <- Nat.negb_even, IHn.
Qed.
Lemma sum16_setZ l i v :
  0 <= i < lenZ l ->
  sum16 (setZ l i v) = sum16 l + (if Z.even i then 1 else 256) * (v - getZ l i).
Proof.
  intros Hi. unfold setZ. rewrite (sum16_insert _ _ _ (getZ l i)) by by apply getZ_lookup.
  unfold weight16. do 2 f_equal. rewrite <- (Z2Nat.id i) at 2 by lia.
  by rewrite even_of_nat.
Qed.
Lemma sum16_app_even l k : Nat.even (length l) = true -> sum16 (l ++ k) = sum16 l + sum16 k.
Proof.
  unfold sum16, sumZ. induction l as [|a|a b l IH] using (pair_ind (A := Z)); simpl; try done.
  intros Hev. rewrite IH by done. lia.
Qed.

(** ** Theorems *)

(** C31: [csum_replace2] is the incremental update of RFC 1624: if the covered data
    contains the word [old], adds up to [rest + old] and carries a right checksum
    [sum], then with [new] in place of [old] the returned 16-bit value is a right
    checksum again. *)
Theorem csum_replace2_correct (rest sum old new : Z) :
  is_u16 sum -> is_u16 old -> is_u16 new ->
  (rest + old + sum) mod 65535 = 0 ->
  is_u16 (csum_replace2 sum old new) /\
  (rest + new + csum_replace2 sum old new) mod 65535 = 0.
Proof.
  intros Hs Ho Hn Hv. split; [apply csum_replace2_range|].
  change (rest + new + csum_replace2 sum old new ≡ₘ 0).
  rewrite csum_replace2_eqm by done.
  replace (rest + new + (sum + old - new)) with (rest + old + sum) by lia. exact Hv.
Qed.
Lemma csum_replace2_correct_witness :
  is_u16 (csum_replace2 0xfe7f 0x80 0x81) /\
  (0x100 + 0x81 + csum_replace2 0xfe7f 0x80 0x81) mod 65535 = 0.
Proof. apply (csum_replace2_correct 0x100 0xfe7f 0x80 0x81); (int_solve || reflexivity). Defined.

(** Folding a 32-bit one's complement accumulator gives its 16-bit negation:
    the accumulator and the folded checksum add up to 0 modulo 65535. *)
Theorem csum_fold_helper_correct (csum : Z) :
  is_u32 csum ->
  is_u16 (csum_fold_helper csum) /\ (csum + csum_fold_helper csum) mod 65535 = 0.
Proof.
  intros Hc. split; [apply csum_fold_helper_range|].
  change (csum + csum_fold_helper csum ≡ₘ 0). rewrite csum_fold_helper_eqm by done.
  by rewrite Z.add_opp_diag_r.
Qed.
Lemma csum_fold_helper_correct_witness :
  is_u16 (csum_fold_helper 0x1fffe) /\ (0x1fffe + csum_fold_helper 0x1fffe) mod 65535 = 0.
Proof. apply (csum_fold_helper_correct 0x1fffe). int_solve. Defined.
