(* ===== verification/Packet03.v ===== *)
(** * Redirecting: packet03-redirecting/xdp_prog_kern.c

    The ICMP echo responder, the two redirectors and the router.  Every program
    ends in [xdp_stats_record_action]; a [goto out] of the source is the early
    call of it.  The theorems: no program faults on a well-formed packet, and each
    does to the packet exactly what its branch says. *)

From S2P Require Import Prelude Xdp Parsing Stats Rewrite Checksum.
#[local] Open Scope Z_scope.
#[local] Open Scope prog_scope.

(** The file's own copies of the swaps. *)
Module Swap.
Definition swap_src_dst_mac (eth : ptr) : X unit :=
  let! h_tmp := ld_bytes (eth + 6) 6 in
  let! h_dest := ld_bytes eth 6 in
  st_bytes (eth + 6) h_dest ;;;
  st_bytes eth h_tmp.
Definition swap_src_dst_ipv6 (ipv6 : ptr) : X unit :=
  let! tmp := ld_bytes (ipv6 + 8) 16 in
  let! daddr := ld_bytes (ipv6 + 24) 16 in
  st_bytes (ipv6 + 8) daddr ;;;
  st_bytes (ipv6 + 24) tmp.
Definition swap_src_dst_ipv4 (iphdr : ptr) : X unit :=
  let! tmp := ld_bytes (iphdr + 12) 4 in
  let! daddr := ld_bytes (iphdr + 16) 4 in
  st_bytes (iphdr + 12) daddr ;;;
  st_bytes (iphdr + 16) tmp.
End Swap.

Definition ip_decrease_ttl (iph : ptr) : X Z :=
  let! check := ld16 (iph + 10) in
  let check := u32 (check + bpf_htons 0x0100) in
  st16 (iph + 10) (u16 (check + if check >=? 0xFFFF then 1 else 0)) ;;;
  let! ttl := ld8 (iph + 8) in
  st8 (iph + 8) (u8 (ttl - 1)) ;;;
  ret (u8 (ttl - 1)).

Section Programs.
Context `{BpfHelpers}.

(** Lines 146-154 of [xdp_icmp_echo_func]: patch the type, update the checksum. *)
Definition icmp_echo_patch (icmphdr : ptr) (echo_reply : Z) : X unit :=
  let! old_csum := ld16 (icmphdr + 2) in
  st16 (icmphdr + 2) 0 ;;;
  let! icmphdr_old := ld_bytes icmphdr 4 in
  st8 icmphdr echo_reply ;;;
  let! icmphdr_new := ld_bytes icmphdr 4 in
  st16 (icmphdr + 2) (icmp_checksum_diff (Z.lnot old_csum) icmphdr_new icmphdr_old).

Definition xdp_icmp_echo_func : X Z :=
  let! data_end := gets (fun s => dend s) in
  let! data := gets (fun s => dat s) in
  let out action := xdp_stats_record_action action in
  let! (eth_type, nh, eth) := parse_ethhdr data data_end in
  let! l3 :=
    if eth_type =? bpf_htons ETH_P_IP then
      let! (ip_type, nh, iphdr) := parse_iphdr nh data_end in
      if negb (ip_type =? IPPROTO_ICMP) then ret None else ret (Some (nh, iphdr, None))
    else if eth_type =? bpf_htons ETH_P_IPV6 then
      let! (ip_type, nh, ipv6hdr) := parse_ip6hdr nh data_end in
      if negb (ip_type =? IPPROTO_ICMPV6) then ret None else ret (Some (nh, None, ipv6hdr))
    else ret None in
  match l3 with
  | None => out XDP_PASS
  | Some (nh, iphdr, ipv6hdr) =>
      let! (icmp_type, nh, icmphdr) := parse_icmphdr_common nh data_end in
      let! echo_reply :=
        if (eth_type =? bpf_htons ETH_P_IP) && (icmp_type =? ICMP_ECHO) then
          let! iphdr := deref iphdr in
          Swap.swap_src_dst_ipv4 iphdr ;;;
          ret (Some ICMP_ECHOREPLY)
        else if (eth_type =? bpf_htons ETH_P_IPV6) && (icmp_type =? ICMPV6_ECHO_REQUEST) then
          let! ipv6hdr := deref ipv6hdr in
          Swap.swap_src_dst_ipv6 ipv6hdr ;;;
          ret (Some ICMPV6_ECHO_REPLY)
        else ret None in
      match echo_reply with
      | None => out XDP_PASS
      | Some echo_reply =>
          let! eth := deref eth in
          Swap.swap_src_dst_mac eth ;;;
          let! icmphdr := deref icmphdr in
          icmp_echo_patch icmphdr echo_reply ;;;
          out XDP_TX
      end
  end.

(** [dst] and [ifindex] are the constants of the file (and of its solution). *)
Definition redirect_to (dst : list Z) (ifindex : Z) : X Z :=
  let! data_end := gets (fun s => dend s) in
  let! data := gets (fun s => dat s) in
  let out action := xdp_stats_record_action action in
  let! (eth_type, nh, eth) := parse_ethhdr data data_end in
  if eth_type =? -1 then out XDP_PASS
  else
    let! eth := deref eth in
    st_bytes eth dst ;;;
    let! action := call_redirect ifindex 0 in
    out action.
Definition xdp_redirect_func : X Z := redirect_to [0xe2; 0xab; 0x44; 0xea; 0x6d; 0x16] 5.
(** packet03-redirecting/xdp_prog_kern_sol.c *)
Definition xdp_redirect_func_sol : X Z := redirect_to [0xa2; 0x2e; 0x35; 0x20; 0x8c; 0xda] 18.

(** The maps [redirect_params] (source MAC to destination MAC) and [tx_port] are
    read only here. *)
Definition xdp_redirect_map_func (redirect_params : list Z -> option (list Z))
    (tx_port : Z -> option Z) : X Z :=
  let! data_end := gets (fun s => dend s) in
  let! data := gets (fun s => dat s) in
  let out action := xdp_stats_record_action action in
  let! (eth_type, nh, eth) := parse_ethhdr data data_end in
  if eth_type =? -1 then out XDP_PASS
  else
    let! eth := deref eth in
    let! h_source := ld_bytes (eth + 6) 6 in
    match redirect_params h_source with
    | None => out XDP_PASS
    | Some dst =>
        st_bytes eth dst ;;;
        let! action := call_redirect_map tx_port 0 0 in
        out action
    end.

Definition AF_INET : Z := 2.
Definition AF_INET6 : Z := 10.
Definition IPV6_FLOWINFO_MASK : Z := bpf_htonl 0x0FFFFFFF.
Definition BPF_FIB_LKUP_RET_SUCCESS : Z := 0.
Definition BPF_FIB_LKUP_RET_BLACKHOLE : Z := 1.
Definition BPF_FIB_LKUP_RET_UNREACHABLE : Z := 2.
Definition BPF_FIB_LKUP_RET_PROHIBIT : Z := 3.

Definition xdp_router_func : X Z :=
  let! data_end := gets (fun s => dend s) in
  let! data := gets (fun s => dat s) in
  let out action := xdp_stats_record_action action in
  let eth := data in
  let nh_off := sizeof_ethhdr in
  if data + nh_off >? data_end then out XDP_DROP
  else
    let! h_proto := ld16 (eth + 12) in
    let! step :=
      if h_proto =? bpf_htons ETH_P_IP then
        let iph := data + nh_off in
        if iph + sizeof_iphdr >? data_end then ret (inl XDP_DROP)
        else
          let! ttl := ld8 (iph + 8) in
          if ttl <=? 1 then ret (inl XDP_PASS)
          else
            let! tos := ld8 (iph + 1) in
            let! protocol := ld8 (iph + 9) in
            let! tot_len := ld16 (iph + 2) in
            let! saddr := ld32 (iph + 12) in
            let! daddr := ld32 (iph + 16) in
            ret (inr (Bpf_fib_lookup AF_INET protocol 0 0 (bpf_ntohs tot_len) 0
                        (FibV4 tos saddr daddr) (repeat 0 6) (repeat 0 6)))
      else if h_proto =? bpf_htons ETH_P_IPV6 then
        let ip6h := data + nh_off in
        if ip6h + sizeof_ipv6hdr >? data_end then ret (inl XDP_DROP)
        else
          let! hop_limit := ld8 (ip6h + 7) in
          if hop_limit <=? 1 then ret (inl XDP_PASS)
          else
            let! flow := ld32 ip6h in
            let! nexthdr := ld8 (ip6h + 6) in
            let! payload_len := ld16 (ip6h + 4) in
            let! saddr := ld_bytes (ip6h + 8) 16 in
            let! daddr := ld_bytes (ip6h + 24) 16 in
            ret (inr (Bpf_fib_lookup AF_INET6 nexthdr 0 0 (bpf_ntohs payload_len) 0
                        (FibV6 (Z.land flow IPV6_FLOWINFO_MASK) saddr daddr)
                        (repeat 0 6) (repeat 0 6)))
      else ret (inl XDP_PASS) in
    match step with
    | inl action => out action
    | inr p =>
        let! ifindex := gets (fun s => ingress_ifindex (ctx s)) in
        let p := Bpf_fib_lookup (fib_family p) (fib_l4_protocol p) (fib_sport p) (fib_dport p)
                   (fib_tot_len p) ifindex (fib_addrs p) (fib_smac p) (fib_dmac p) in
        let! (rc, p) := call_fib_lookup p 0 in
        if rc =? BPF_FIB_LKUP_RET_SUCCESS then
          (if h_proto =? bpf_htons ETH_P_IP then
             let! _ := ip_decrease_ttl (data + nh_off) in ret tt
           else if h_proto =? bpf_htons ETH_P_IPV6 then
             let! hop_limit := ld8 (data + nh_off + 7) in
             st8 (data + nh_off + 7) (u8 (hop_limit - 1))
           else ret tt) ;;;
          st_bytes eth (fib_dmac p) ;;;
          st_bytes (eth + 6) (fib_smac p) ;;;
          let! action := call_redirect (fib_ifindex p) 0 in
          out action
        else if (rc =? BPF_FIB_LKUP_RET_BLACKHOLE) || (rc =? BPF_FIB_LKUP_RET_UNREACHABLE)
                || (rc =? BPF_FIB_LKUP_RET_PROHIBIT) then out XDP_DROP
        else out XDP_PASS
    end.

Definition xdp_pass_func : X Z := ret XDP_PASS.
End Programs.

(** ** The responder *)

Section EchoSpecs.
Context `{HO : BpfHelpersOk}.

(** The patched ICMP header: new type, code kept, and a checksum that is right
    whenever the old one was. *)
Lemma icmp_echo_patch_spec s p reply :
  wf s -> dat s <= p -> p + 4 <= dend s -> is_u8 reply ->
  wp (icmp_echo_patch p reply) (fun _ s' => wf s' /\
    same_but (fun x => x = p \/ p + 2 <= x < p + 4) s s' /\ byte_at s' p = reply /\
    half_at s' (p + 2) + reply ≡ₘ half_at s (p + 2) + byte_at s p) s.
Proof using HO.
  intros W Hp1 Hp2 Hr. unfold icmp_echo_patch.
  wp_go; rewrite ?put_byte_ctx, ?put_bytes_ctx; try lia.
  set (old := half_at s (p + 2)).
  set (s1 := put_bytes s (p + 2) [u8 0; u8 (0 / 256)]).
  assert (wf s1) as W1 by by apply put_bytes_wf.
  assert (ctx s1 = ctx s) as C1 by apply put_bytes_ctx.
  set (s2 := put_byte s1 p reply).
  assert (wf s2) as W2 by by apply put_byte_wf.
  assert (ctx s2 = ctx s) as C2 by done.
  set (c := icmp_checksum_diff _ _ _).
  assert (is_u16 c) as Hc by apply csum_fold_helper_range.
  assert (forall x, dat s <= x -> byte_at s2 x =
    if decide (p = x) then reply else byte_at s1 x) as E2.
  { intros x Hx. unfold s2. rewrite byte_at_put by (rewrite ?C1; auto; lia).
    by rewrite (u8_small reply). }
  assert (forall x, dat s <= x -> byte_at s1 x = if x =? p + 2 then 0
    else if x =? p + 2 + 1 then 0 else byte_at s x) as E1.
  { intros x Hx. unfold s1. by rewrite byte_at_put16 by (auto; lia). }
  split; [by apply put_bytes_wf|]. split_and!.
  - eapply same_but_mono with (P := fun x => p + 2 <= x < p + 2 + 2 \/ x = p \/
      p + 2 <= x < p + 2 + 2); [|lia].
    eapply (same_but_trans _ _ _ s s1);
      [by apply same_but_puts; [|simpl; lia..] | |simpl; intros x Hx; exact Hx].
    eapply (same_but_trans _ _ _ s1 s2);
      [by apply same_but_put; [|rewrite C1; lia]
      |by apply same_but_puts; [|rewrite C2; simpl; lia..]|simpl; intros x Hx; exact Hx].
  - rewrite byte_at_put16 by (auto; rewrite ?C2; lia).
    repeat rewrite (proj2 (Z.eqb_neq p _)) by lia. rewrite E2 by lia. by rewrite decide_True.
  - rewrite half_at_put16 by (auto; rewrite ?C2; lia). rewrite u16_small by done.
    pose proof (half_at_range s (p + 2) W ltac:(lia) ltac:(lia)) as Hold. fold old in Hold.
    destruct (csum_diff_value (bytes_at s1 p 4) (bytes_at s2 p 4) (u16 (Z.lnot old)))
      as [Hd1 Hd2]; [| |apply u16_range|by exists 1|by exists 1|].
    1,2: apply Forall_map, Forall_seq; intros i Hi; apply byte_at_range; [done|];
         rewrite ?C1, ?C2; lia.
    change (bpf_csum_diff (bytes_at s1 p 4) (bytes_at s2 p 4) (u16 (Z.lnot old)) ≡ₘ
            u16 (Z.lnot old) + sum16 (bytes_at s2 p 4) - sum16 (bytes_at s1 p 4)) in Hd2.
    unfold c, icmp_checksum_diff. rewrite u32_small by done.
    rewrite csum_fold_helper_eqm by done. rewrite Hd2. rewrite lnot_u16 by done.
    unfold bytes_at, sum16, sumZ; simpl. rewrite !Z.add_0_r, !E2 by lia.
    rewrite decide_True by done. repeat rewrite decide_False by lia. rewrite !E1 by lia.
    repeat rewrite (proj2 (Z.eqb_neq p _)) by lia.
    apply (eqm_intro _ _ (-1)). lia.
Qed.

(** *** Reference classification *)

(** Start of the layer-3 header: the cursor after the Ethernet parser. *)
Definition l3_pos (s : xstate) : ptr := let '(_, _, rest) := eth_ref s in dend s - lenZ rest.
Definition l3_proto (s : xstate) : Z := let '(p, _, _) := eth_ref s in p.

Lemma parse_ethhdr_l3 s (W : wf s) :
  wp (parse_ethhdr (dat s) (dend s)) (fun '(r, pos, h) s' => s' = s /\
    ((lenZ (pkt s) < 14 /\ r = -1 /\ h = None) \/
     (14 <= lenZ (pkt s) /\ h = Some (dat s) /\ r = bpf_htons (l3_proto s) /\
      is_u16 (l3_proto s) /\ pos = l3_pos s /\ dat s + 14 <= pos <= dend s))) s.
Proof.
  eapply wp_mono; [by apply parse_ethhdr_spec|]. unfold l3_proto, l3_pos.
  intros [[r pos] h] ? [-> [(? & ? & ? & ?)|(Hl & Hh & Hr)]]; split; try done; [left; done|right].
  destruct (eth_ref s) as [[p ids] rest]. destruct Hr as (-> & Hp & -> & Hpos).
  rewrite suffix_length by (done || lia). split_and!; try done; lia.
Qed.

(** An ICMP or ICMPv6 echo request whose headers are completely in the packet:
    the IP header, the ICMP header, and whether it is IPv6. *)
Definition echo_request (s : xstate) : option (ptr * ptr * bool) :=
  let ip := l3_pos s in
  if lenZ (pkt s) <? 14 then None
  else if l3_proto s =? ETH_P_IP then
    let icmp := ip + ihl_bytes s ip in
    if (ip + 20 <=? dend s) && (20 <=? ihl_bytes s ip) && (icmp <=? dend s)
       && (byte_at s (ip + 9) =? IPPROTO_ICMP)
       && (icmp + 4 <=? dend s) && (byte_at s icmp =? ICMP_ECHO)
    then Some (ip, icmp, false) else None
  else if l3_proto s =? ETH_P_IPV6 then
    let icmp := ip + 40 in
    if (icmp <=? dend s) && (byte_at s (ip + 6) =? IPPROTO_ICMPV6)
       && (icmp + 4 <=? dend s) && (byte_at s icmp =? ICMPV6_ECHO_REQUEST)
    then Some (ip, icmp, true) else None
  else None.

(** The reply to the request in [s]: addresses exchanged at both layers, the
    type replaced, the checksum adjusted, everything else kept. *)
Definition is_echo_reply (s s' : xstate) (ip icmp : ptr) (v6 : bool) : Prop :=
  let a := if v6 then ip + 8 else ip + 12 in
  let n := if v6 then 16 else 4 in
  (forall i, 0 <= i < 6 -> byte_at s' (dat s + i) = byte_at s (dat s + 6 + i) /\
                           byte_at s' (dat s + 6 + i) = byte_at s (dat s + i)) /\
  (forall i, 0 <= i < n -> byte_at s' (a + i) = byte_at s (a + n + i) /\
                           byte_at s' (a + n + i) = byte_at s (a + i)) /\
  byte_at s' icmp = (if v6 then ICMPV6_ECHO_REPLY else ICMP_ECHOREPLY) /\
  (half_at s' (icmp + 2) + byte_at s' icmp) mod 65535 =
    (half_at s (icmp + 2) + byte_at s icmp) mod 65535 /\
  (forall x, dat s <= x < dend s ->
     ~ (dat s <= x < dat s + 12 \/ a <= x < a + n + n \/ x = icmp \/ icmp + 2 <= x < icmp + 4) ->
     byte_at s' x = byte_at s x).

(** Two disjoint swaps below the ICMP header, then the patch. *)
Lemma echo_compose s s1 s2 s3 ip icmp (v6 : bool) :
  let a := if v6 then ip + 8 else ip + 12 in
  let n := if v6 then 16 else 4 in
  let reply := if v6 then ICMPV6_ECHO_REPLY else ICMP_ECHOREPLY in
  dat s + 14 <= ip -> a + n + n <= icmp -> icmp + 4 <= dend s ->
  swapped s s1 a (a + n) n -> swapped s1 s2 (dat s + 6) (dat s) 6 ->
  same_but (fun x => x = icmp \/ icmp + 2 <= x < icmp + 4) s2 s3 ->
  byte_at s3 icmp = reply ->
  half_at s3 (icmp + 2) + reply ≡ₘ half_at s2 (icmp + 2) + byte_at s2 icmp ->
  is_echo_reply s s3 ip icmp v6.
Proof.
  intros a n reply Hip Ha Hicmp (C1 & _ & _ & _ & B1) (C2 & _ & _ & _ & B2)
    (C3 & _ & _ & _ & B3) Ht Hsum.
  rewrite C1 in B2. rewrite C2, C1 in B3.
  assert (ip <= a /\ 0 < n) as [Hia Hn] by (subst a n; destruct v6; lia).
  assert (forall x, icmp <= x < dend s -> byte_at s2 x = byte_at s x) as B12.
  { intros x Hx. rewrite B2 by lia. rewrite !decide_False by lia.
    rewrite B1 by lia. by rewrite !decide_False by lia. }
  assert (forall x, a <= x < a + n + n -> byte_at s3 x = byte_at s1 x) as B23.
  { intros x Hx. rewrite B3, B2 by lia. by rewrite !decide_False by lia. }
  assert (forall x, dat s <= x < dat s + 12 -> byte_at s1 x = byte_at s x) as B01.
  { intros x Hx. rewrite B1 by lia. by rewrite !decide_False by lia. }
  unfold is_echo_reply. fold a n reply. split_and!.
  - intros i Hi. rewrite !B3, !B2 by lia. split.
    + rewrite decide_False, decide_True by lia. rewrite B01 by lia. f_equal. lia.
    + rewrite decide_True by lia. rewrite B01 by lia. f_equal. lia.
  - intros i Hi. rewrite !B23, !B1 by lia. split.
    + rewrite decide_True by lia. f_equal. lia.
    + rewrite decide_False, decide_True by lia. f_equal. lia.
  - exact Ht.
  - rewrite Ht. unfold eqm in Hsum. rewrite Hsum. unfold half_at. by rewrite !B12 by lia.
  - intros x Hx Hno. rewrite B3, B2 by lia. rewrite !decide_False by lia.
    rewrite B1 by lia. by rewrite !decide_False by lia.
Qed.

(** The outcome of the responder, by the reference classification. *)
Definition echo_post (s : xstate) (a : Z) (s' : xstate) : Prop :=
  match echo_request s with
  | None => a = XDP_PASS /\ s' = counted s XDP_PASS
  | Some (ip, icmp, v6) =>
      a = XDP_TX /\ is_echo_reply s s' ip icmp v6 /\ ctx s' = ctx s /\
      xdp_stats_map s' = xdp_stats_map (counted s XDP_TX)
  end.

Lemma echo_pass s : wf s -> echo_request s = None ->
  wp (xdp_stats_record_action XDP_PASS) (echo_post s) s.
Proof.
  intros W E. apply wp_record_action; [done|verdict|].
  unfold echo_post. by rewrite E.
Qed.

(** The part of the responder after the classification. *)
Lemma echo_answer s ip icmp (v6 : bool) :
  let a := if v6 then ip + 8 else ip + 12 in
  let n := if v6 then 16%nat else 4%nat in
  let reply := if v6 then ICMPV6_ECHO_REPLY else ICMP_ECHOREPLY in
  wf s -> echo_request s = Some (ip, icmp, v6) ->
  dat s + 14 <= ip -> a + Z.of_nat n + Z.of_nat n <= icmp -> icmp + 4 <= dend s ->
  wp ((if v6 then Swap.swap_src_dst_ipv6 ip else Swap.swap_src_dst_ipv4 ip) ;;;
      Swap.swap_src_dst_mac (dat s) ;;;
      icmp_echo_patch icmp reply ;;;
      xdp_stats_record_action XDP_TX) (echo_post s) s.
Proof using HO.
  intros a n reply W E Hip Ha Hicmp.
  assert (ip <= a /\ 0 < Z.of_nat n) as [Hia Hn] by (subst a n; destruct v6; lia).
  assert ((if v6 then Swap.swap_src_dst_ipv6 ip else Swap.swap_src_dst_ipv4 ip) =
          swap_fields a (a + Z.of_nat n) n) as ->.
  { unfold swap_fields, a, n, Swap.swap_src_dst_ipv6, Swap.swap_src_dst_ipv4.
    destruct v6; [replace (ip + 8 + Z.of_nat 16) with (ip + 24) by lia
                 |replace (ip + 12 + Z.of_nat 4) with (ip + 16) by lia]; done. }
  apply wp_bind, swap_fields_spec; [done|lia..|]. intros s1 W1 S1.
  pose proof S1 as (C1 & M1 & _ & L1 & _).
  apply wp_bind. change (Swap.swap_src_dst_mac (dat s)) with (swap_fields (dat s + 6) (dat s) 6).
  apply swap_fields_spec; [done|rewrite ?C1; lia..|]. intros s2 W2 S2.
  pose proof S2 as (C2 & M2 & _ & L2 & _).
  apply wp_bind. eapply wp_mono; [apply icmp_echo_patch_spec|];
    [done|rewrite ?C2, ?C1; lia..|subst reply; destruct v6; done|].
  intros [] s3 (W3 & S3 & Ht & Hsum). pose proof S3 as (C3 & M3 & _ & L3 & _).
  apply wp_record_action; [done|verdict|]. unfold echo_post. rewrite E.
  split; [done|]. split; [|split; simpl; [congruence|by rewrite M3, M2, M1, L3, L2, L1]].
  change (is_echo_reply s s3 ip icmp v6).
  apply (echo_compose s s1 s2 s3 ip icmp v6); subst a n reply; destruct v6; done || lia.
Qed.

Lemma echo_request_v4 s :
  14 <= lenZ (pkt s) -> l3_proto s = ETH_P_IP ->
  let ip := l3_pos s in
  let icmp := ip + ihl_bytes s ip in
  let is_req := (ip + 20 <= dend s /\ 20 <= ihl_bytes s ip /\ icmp <= dend s) /\
    byte_at s (ip + 9) = IPPROTO_ICMP /\ icmp + 4 <= dend s /\ byte_at s icmp = ICMP_ECHO in
  (is_req -> echo_request s = Some (ip, icmp, false)) /\
  (~ is_req -> echo_request s = None).
Proof.
  intros Hl Hp ip icmp is_req. unfold echo_request. fold ip icmp.
  rewrite (proj2 (Z.ltb_ge _ _)), Hp by lia. simpl.
  destruct (_ && _)%bool eqn:HC; bool_prop; unfold is_req; split; try done; lia.
Qed.
Lemma echo_request_v6 s :
  14 <= lenZ (pkt s) -> l3_proto s = ETH_P_IPV6 ->
  let ip := l3_pos s in
  let icmp := ip + 40 in
  let is_req := icmp <= dend s /\ byte_at s (ip + 6) = IPPROTO_ICMPV6 /\
    icmp + 4 <= dend s /\ byte_at s icmp = ICMPV6_ECHO_REQUEST in
  (is_req -> echo_request s = Some (ip, icmp, true)) /\
  (~ is_req -> echo_request s = None).
Proof.
  intros Hl Hp ip icmp is_req. unfold echo_request. fold ip icmp.
  rewrite (proj2 (Z.ltb_ge _ _)), Hp by lia. simpl.
  destruct (_ && _)%bool eqn:HC; bool_prop; unfold is_req; split; try done; lia.
Qed.

Lemma xdp_icmp_echo_func_spec s : wf s -> wp xdp_icmp_echo_func (echo_post s) s.
Proof using HO.
  intros W. pose proof (wf_len _ W) as Hd. unfold xdp_icmp_echo_func. wp_step. wp_step.
  wp_step. wp_step. wp_step. eapply wp_mono; [by apply parse_ethhdr_l3|].
  intros [[r nh] h] ? [-> [(Hl & -> & ->)|(Hl & -> & -> & Hu & -> & Hpos)]].
  { rewrite !htons_eqb_m1. wp_steps. apply echo_pass; [done|].
    unfold echo_request. by rewrite (proj2 (Z.ltb_lt _ _)) by lia. }
  rewrite !htons_eqb by (done || int_solve).
  destruct (Z.eqb_spec (l3_proto s) ETH_P_IP) as [H4|H4];
    [|destruct (Z.eqb_spec (l3_proto s) ETH_P_IPV6) as [H6|H6]].
  - destruct (echo_request_v4 s Hl H4) as [HS HN].
    assert ((l3_proto s =? ETH_P_IPV6) = false) as -> by by rewrite H4.
    wp_step. wp_step. eapply wp_mono; [apply parse_iphdr_spec; lia|].
    intros [[t nh] iph] ? [-> Hp]. wp_step; bool_prop; wp_steps.
    { apply echo_pass; [done|]. apply HN. unfold IPPROTO_ICMP in *. lia. }
    destruct Hp as [?|(Hok & -> & -> & -> & Hle)]; [unfold IPPROTO_ICMP in *; lia|].
    eapply wp_mono; [apply parse_icmphdr_common_spec; lia|].
    intros [[ty nh] icmph] ? [-> Hi]. destruct (Z.eqb_spec ty ICMP_ECHO) as [->|Hty].
    2: { wp_steps. apply echo_pass; [done|]. apply HN. unfold ICMP_ECHO in *. lia. }
    destruct Hi as [?|(Hok' & Hy & -> & -> & Hle')]; [unfold ICMP_ECHO in *; lia|].
    eapply wp_eq; [|apply (echo_answer s (l3_pos s) (l3_pos s + ihl_bytes s (l3_pos s)) false); try done; try lia].
    { cbv beta iota delta [bind deref ret]. by destruct (Swap.swap_src_dst_ipv4 _ s) as [[]|]. }
    apply HS. done.
  - destruct (echo_request_v6 s Hl H6) as [HS HN].
    wp_step. wp_step. eapply wp_mono; [apply parse_ip6hdr_spec; lia|].
    intros [[t nh] iph] ? [-> Hp]. wp_step; bool_prop; wp_steps.
    { apply echo_pass; [done|]. apply HN. unfold IPPROTO_ICMPV6 in *. lia. }
    destruct Hp as [?|(Hok & -> & -> & -> & Hle)]; [unfold IPPROTO_ICMPV6 in *; lia|].
    eapply wp_mono; [apply parse_icmphdr_common_spec; lia|].
    intros [[ty nh] icmph] ? [-> Hi].
    destruct (Z.eqb_spec ty ICMPV6_ECHO_REQUEST) as [->|Hty].
    2: { wp_steps. apply echo_pass; [done|]. apply HN. unfold ICMPV6_ECHO_REQUEST in *. lia. }
    destruct Hi as [?|(Hok' & Hy & -> & -> & Hle')]; [unfold ICMPV6_ECHO_REQUEST in *; lia|].
    eapply wp_eq; [|apply (echo_answer s (l3_pos s) (l3_pos s + 40) true); try done; try lia].
    { cbv beta iota delta [bind deref ret]. by destruct (Swap.swap_src_dst_ipv6 _ s) as [[]|]. }
    apply HS. done.
  - wp_steps. apply echo_pass; [done|]. unfold echo_request.
    destruct (_ <? 14); [done|].
    by rewrite (proj2 (Z.eqb_neq _ _) H4), (proj2 (Z.eqb_neq _ _) H6).
Qed.
End EchoSpecs.

(** ** The redirectors *)

Section RedirectSpecs.
Context `{HO : BpfHelpersOk}.

(** [s'] is [s] with the bytes [l] at [p]. *)
Definition patched (s s' : xstate) (p : ptr) (l : list Z) : Prop :=
  ctx s' = ctx s /\ length (pkt s') = length (pkt s) /\
  forall x, dat s <= x < dend s -> byte_at s' x =
    if decide (p <= x < p + lenZ l) then getZ l (x - p) else byte_at s x.

Lemma put_bytes_patched s p l :
  wf s -> dat s <= p -> p + lenZ l <= dend s -> Forall is_u8 l ->
  patched s (put_bytes s p l) p l.
Proof.
  intros W H1 H2 Hl. split_and!; [apply put_bytes_ctx|apply put_bytes_len|].
  intros x Hx. rewrite byte_at_puts by (done || lia). case_decide; [|done].
  apply u8_small, (getZ_Forall is_u8); [done|lia].
Qed.

(** A redirect helper's verdict can be recorded. *)
Lemma wp_record_redirect s a (Q : Z -> xstate -> Prop) :
  wf s -> a = XDP_REDIRECT \/ a = XDP_ABORTED -> Q a (counted s a) ->
  wp (xdp_stats_record_action a) Q s.
Proof. intros W [-> | ->] HQ; apply wp_record_action; done || verdict. Qed.

Definition redirect_post (s : xstate) (dst : option (list Z)) (verdict : Z)
    (a : Z) (s' : xstate) : Prop :=
  match dst with
  | Some dst => if 14 <=? lenZ (pkt s)
      then a = verdict /\ patched s s' (dat s) dst /\
           xdp_stats_map s' = xdp_stats_map (counted s verdict)
      else a = XDP_PASS /\ s' = counted s XDP_PASS
  | None => a = XDP_PASS /\ s' = counted s XDP_PASS
  end.

Lemma redirect_to_spec s dst ifindex :
  wf s -> length dst = 6%nat -> Forall is_u8 dst ->
  wp (redirect_to dst ifindex) (fun a s' =>
    redirect_post s (Some dst) (bpf_redirect ifindex 0) a s' /\
    (14 <= lenZ (pkt s) -> redirect_target s' = Some ifindex)) s.
Proof using HO.
  intros W Hl Hu. pose proof (wf_len _ W) as Hd. unfold redirect_to, redirect_post.
  wp_go. eapply wp_mono; [by apply parse_ethhdr_l3|].
  intros [[r nh] h] ? [-> [(Hs & -> & ->)|(Hs & -> & -> & _ & _ & Hpos)]].
  { cbn. rewrite (proj2 (Z.leb_gt _ _)) by lia. apply wp_record_action; [done|verdict|]. split; [done|lia]. }
  rewrite htons_neqb_m1, (proj2 (Z.leb_le _ _)) by lia. unfold call_redirect. wp_go; try lia.
  pose proof (put_bytes_patched s (dat s) dst W ltac:(lia) ltac:(lia) Hu) as HP.
  apply wp_record_redirect; [|apply redirect_action|].
  - split; simpl; rewrite ?put_bytes_ctx, ?put_bytes_len, ?put_bytes_stats; try apply W.
    apply (put_bytes_wf dst s (dat s) W).
  - split; [split_and!; [done|exact HP|]|done]. simpl. by rewrite put_bytes_stats, put_bytes_len.
Qed.

Lemma redirect_map_spec s redirect_params tx_port :
  wf s -> (forall k v, redirect_params k = Some v -> length v = 6%nat /\ Forall is_u8 v) ->
  wp (xdp_redirect_map_func redirect_params tx_port)
    (redirect_post s (redirect_params (bytes_at s (dat s + 6) 6)) (bpf_redirect_map tx_port 0 0)) s.
Proof using HO.
  intros W Hv. pose proof (wf_len _ W) as Hd. unfold xdp_redirect_map_func, redirect_post.
  wp_go. eapply wp_mono; [by apply parse_ethhdr_l3|].
  intros [[r nh] h] ? [-> [(Hs & -> & ->)|(Hs & -> & -> & _ & _ & Hpos)]].
  { cbn [Z.eqb]. rewrite (proj2 (Z.leb_gt _ _)) by lia. apply wp_record_action; [done|verdict|].
    by case_match. }
  rewrite htons_neqb_m1, (proj2 (Z.leb_le _ _)) by lia. wp_go.
  destruct (redirect_params _) as [dst|] eqn:Hdst; [|by apply wp_record_action; [|verdict|]].
  destruct (Hv _ _ Hdst) as [Hl Hu]. unfold call_redirect_map. wp_go; try lia.
  apply wp_record_redirect; [by apply put_bytes_wf|apply redirect_map_action|].
  split; [done|]. split; [apply put_bytes_patched; done || lia|].
  simpl. by rewrite put_bytes_stats, put_bytes_len.
Qed.
End RedirectSpecs.

(** ** The router *)

(** What the first lines of the router make of a packet: too short for its
    headers, not to be routed, or a query of the forwarding table. *)
Inductive route_class := TooShort | NotRouted | Routed (v6 : bool) (p : bpf_fib_lookup).

Definition route_of (s : xstate) : route_class :=
  let ip := dat s + 14 in
  let query := Bpf_fib_lookup in
  if lenZ (pkt s) <? 14 then TooShort
  else if be16_at s (dat s + 12) =? ETH_P_IP then
    if lenZ (pkt s) <? 34 then TooShort
    else if byte_at s (ip + 8) <=? 1 then NotRouted
    else Routed false (query AF_INET (byte_at s (ip + 9)) 0 0 (be16_at s (ip + 2))
           (ingress_ifindex (ctx s))
           (FibV4 (byte_at s (ip + 1)) (word_at s (ip + 12)) (word_at s (ip + 16)))
           (repeat 0 6) (repeat 0 6))
  else if be16_at s (dat s + 12) =? ETH_P_IPV6 then
    if lenZ (pkt s) <? 54 then TooShort
    else if byte_at s (ip + 7) <=? 1 then NotRouted
    else Routed true (query AF_INET6 (byte_at s (ip + 6)) 0 0 (be16_at s (ip + 4))
           (ingress_ifindex (ctx s))
           (FibV6 (Z.land (word_at s ip) IPV6_FLOWINFO_MASK)
              (bytes_at s (ip + 8) 16) (bytes_at s (ip + 24) 16))
           (repeat 0 6) (repeat 0 6))
  else NotRouted.

(** The forwarded packet: the MAC addresses the table gave, the hop counter one
    lower, for IPv4 a checksum field that is right whenever the old one was,
    and every other byte kept. *)
Definition forwarded (s s' : xstate) (v6 : bool) (p : bpf_fib_lookup) : Prop :=
  let ip := dat s + 14 in
  let hop := if v6 then ip + 7 else ip + 8 in
  ctx s' = ctx s /\ length (pkt s') = length (pkt s) /\ redirect_target s' = Some (fib_ifindex p) /\
  bytes_at s' (dat s) 6 = fib_dmac p /\ bytes_at s' (dat s + 6) 6 = fib_smac p /\
  byte_at s' hop = byte_at s hop - 1 /\
  (v6 = false -> (half_at s' (ip + 10) + half_at s' (ip + 8)) mod 65535 =
                 (half_at s (ip + 10) + half_at s (ip + 8)) mod 65535) /\
  (forall x, dat s + 12 <= x < dend s -> x <> hop ->
     ~ (v6 = false /\ ip + 10 <= x < ip + 12) -> byte_at s' x = byte_at s x).

Section RouterSpecs.
Context `{HO : BpfHelpersOk}.

Lemma ip_decrease_ttl_spec s p :
  wf s -> dat s <= p -> p + 20 <= dend s -> 1 <= byte_at s (p + 8) ->
  wp (ip_decrease_ttl p) (fun r s' => wf s' /\
    same_but (fun x => x = p + 8 \/ p + 10 <= x < p + 12) s s' /\
    r = byte_at s (p + 8) - 1 /\ byte_at s' (p + 8) = byte_at s (p + 8) - 1 /\
    half_at s' (p + 10) + half_at s' (p + 8) ≡ₘ half_at s (p + 10) + half_at s (p + 8)) s.
Proof.
  intros W H1 H2 Httl. unfold ip_decrease_ttl.
  wp_go; rewrite ?put_byte_ctx, ?put_bytes_ctx; try lia.
  set (v := u16 _). set (s1 := put_bytes s (p + 10) _).
  assert (wf s1) as W1 by by apply put_bytes_wf.
  assert (ctx s1 = ctx s) as C1 by apply put_bytes_ctx.
  assert (forall x, dat s <= x -> byte_at s1 x = if x =? p + 10 then u8 v
    else if x =? p + 10 + 1 then u8 (v / 256) else byte_at s x) as E1.
  { intros x Hx. unfold s1. by rewrite byte_at_put16 by (done || lia). }
  assert (byte_at s1 (p + 8) = byte_at s (p + 8)) as E8.
  { rewrite E1 by lia. by repeat rewrite (proj2 (Z.eqb_neq (p + 8) _)) by lia. }
  rewrite E8. pose proof (byte_at_range s (p + 8) W ltac:(lia)) as Hr.
  rewrite u8_small by int_solve. split; [by apply put_byte_wf|].
  assert (forall x, dat s <= x < dend s -> byte_at (put_byte s1 (p + 8) (byte_at s (p + 8) - 1)) x =
    if decide (p + 8 = x) then byte_at s (p + 8) - 1 else byte_at s1 x) as E2.
  { intros x Hx. rewrite byte_at_put by (rewrite ?C1; done || lia).
    by rewrite u8_small by int_solve. }
  split_and!; [| |by rewrite E2, decide_True by lia|].
  - eapply (same_but_trans _ _ _ s s1);
      [by apply same_but_puts; [|simpl; lia..]|by apply same_but_put; [|rewrite C1; lia]|simpl; lia].
  - done.
  - unfold half_at. rewrite !E2 by lia. rewrite (decide_True (P := p + 8 = p + 8)) by done.
    repeat rewrite decide_False by lia. rewrite !E1 by lia.
    rewrite !Z.eqb_refl.
    repeat rewrite (proj2 (Z.eqb_neq _ _)) by lia.
    pose proof (half_at_range s (p + 10) W ltac:(lia) ltac:(lia)) as Hh.
    fold (half_at s (p + 10)). unfold v in *. clearbody s1. clear - Hh Hr Httl.
    revert Hh. generalize (half_at s (p + 10)) (byte_at s (p + 8)) (byte_at s (p + 8 + 1)).
    intros h a b Hh. change (bpf_htons 0x0100) with 1.
    rewrite (u32_small (h + 1)) by int_solve. destruct (Z.geb_spec (h + 1) 65535).
    + apply (eqm_intro _ _ (-1)). int_solve.
    + apply (eqm_intro _ _ 0). int_solve.
Qed.

Definition hop_field (s : xstate) (v6 : bool) : ptr :=
  if v6 then dat s + 14 + 7 else dat s + 14 + 8.
(** The state after the hop counter was lowered. *)
Definition hop_lowered (s s1 : xstate) (v6 : bool) : Prop :=
  let ip := dat s + 14 in
  same_but (fun x => x = hop_field s v6 \/ (v6 = false /\ ip + 10 <= x < ip + 12)) s s1 /\
  byte_at s1 (hop_field s v6) = byte_at s (hop_field s v6) - 1 /\
  (v6 = false -> half_at s1 (ip + 10) + half_at s1 (ip + 8) ≡ₘ
                 half_at s (ip + 10) + half_at s (ip + 8)).

(** Writing both addresses, redirecting and recording. *)
Lemma forward_tail s s1 (v6 : bool) p :
  wf s -> wf s1 -> (if v6 then 54 else 34) <= lenZ (pkt s) -> hop_lowered s s1 v6 ->
  length (fib_dmac p) = 6%nat -> length (fib_smac p) = 6%nat ->
  Forall is_u8 (fib_dmac p) -> Forall is_u8 (fib_smac p) ->
  wp (st_bytes (dat s) (fib_dmac p) ;;;
      st_bytes (dat s + 6) (fib_smac p) ;;;
      let! action := call_redirect (fib_ifindex p) 0 in
      xdp_stats_record_action action)
    (fun a s' => a = bpf_redirect (fib_ifindex p) 0 /\ forwarded s s' v6 p /\
       xdp_stats_map s' = xdp_stats_map (counted s a)) s1.
Proof using HO.
  intros W W1 Hlen ((C & Mp & R & L & B) & Hhop & Hsum) Hd Hs Hdu Hsu.
  pose proof (wf_len _ W) as Hw. unfold call_redirect, forwarded.
  assert (34 <= lenZ (pkt s)) as Hl by (destruct v6; lia).
  wp_go; rewrite ?put_bytes_ctx, ?C; try lia.
  set (s3 := put_bytes (put_bytes s1 _ _) _ _).
  assert (wf s3) as W3 by by repeat apply put_bytes_wf.
  assert (ctx s3 = ctx s) as C3 by (unfold s3; by rewrite !put_bytes_ctx).
  assert (forall x, dat s <= x < dend s -> byte_at s3 x =
    if decide (dat s + 6 <= x < dat s + 6 + 6) then getZ (fib_smac p) (x - (dat s + 6))
    else if decide (dat s <= x < dat s + 6) then getZ (fib_dmac p) (x - dat s)
    else byte_at s1 x) as E.
  { intros x Hx. unfold s3.
    rewrite !byte_at_puts by (rewrite ?put_bytes_ctx, ?C; auto using put_bytes_wf; lia).
    rewrite Hd, Hs. repeat case_decide; try done; apply u8_small, (getZ_Forall is_u8); done || lia. }
  assert (forall x, dat s + 12 <= x < dend s -> byte_at s3 x = byte_at s1 x) as E12.
  { intros x Hx. rewrite E by lia. by rewrite !decide_False by lia. }
  apply wp_record_redirect; [split; simpl; apply W3|apply redirect_action|].
  assert (xdp_stats_map s3 = xdp_stats_map s /\ length (pkt s3) = length (pkt s)) as [M3 L3].
  { unfold s3. by rewrite !put_bytes_stats, !put_bytes_len. }
  split; [done|]. split; [|simpl; by rewrite M3, L3].
  unfold half_at, hop_field in *.
  change (byte_at (counted (set_redirect s3 (fib_ifindex p)) (bpf_redirect (fib_ifindex p) 0)))
    with (byte_at s3).
  split_and!; try done.
  - apply getZ_ext; [by rewrite bytes_at_length|]. rewrite bytes_at_length. intros i Hi.
    rewrite getZ_bytes_at by done. change (byte_at (counted _ _)) with (byte_at s3).
    rewrite E, decide_False, decide_True by lia. f_equal. lia.
  - apply getZ_ext; [by rewrite bytes_at_length|]. rewrite bytes_at_length. intros i Hi.
    rewrite getZ_bytes_at by done. change (byte_at (counted _ _)) with (byte_at s3).
    rewrite E, decide_True by lia. f_equal. lia.
  - rewrite E12 by (destruct v6; lia). done.
  - intros ->. rewrite !E12 by lia. by apply Hsum.
  - intros x Hx Hne Hno. rewrite E12 by lia. apply B; [lia|]. tauto.
Qed.

Definition router_post (s : xstate) (a : Z) (s' : xstate) : Prop :=
  match route_of s with
  | TooShort => a = XDP_DROP /\ s' = counted s XDP_DROP
  | NotRouted => a = XDP_PASS /\ s' = counted s XDP_PASS
  | Routed v6 q =>
      let '(rc, p) := bpf_fib_lookup_call s q 0 in
      if rc =? 0 then
        a = bpf_redirect (fib_ifindex p) 0 /\ forwarded s s' v6 p /\
        xdp_stats_map s' = xdp_stats_map (counted s a)
      else if (1 <=? rc) && (rc <=? 3) then a = XDP_DROP /\ s' = counted s XDP_DROP
      else a = XDP_PASS /\ s' = counted s XDP_PASS
  end.

(** After a query: the three outcomes of the table, given the code that lowers
    the hop counter. *)
Lemma router_query s (v6 : bool) q (lower : X unit) :
  wf s -> route_of s = Routed v6 q -> (if v6 then 54 else 34) <= lenZ (pkt s) ->
  wp lower (fun _ s1 => wf s1 /\ hop_lowered s s1 v6) s ->
  wp (let! (rc, p) := call_fib_lookup q 0 in
      if rc =? BPF_FIB_LKUP_RET_SUCCESS then
        lower ;;;
        st_bytes (dat s) (fib_dmac p) ;;;
        st_bytes (dat s + 6) (fib_smac p) ;;;
        let! action := call_redirect (fib_ifindex p) 0 in
        xdp_stats_record_action action
      else if (rc =? BPF_FIB_LKUP_RET_BLACKHOLE) || (rc =? BPF_FIB_LKUP_RET_UNREACHABLE)
              || (rc =? BPF_FIB_LKUP_RET_PROHIBIT)
      then xdp_stats_record_action XDP_DROP else xdp_stats_record_action XDP_PASS)
    (router_post s) s.
Proof using HO.
  intros W Hq Hlen Hlow. unfold call_fib_lookup, router_post. rewrite Hq. wp_step. wp_step.
  destruct (bpf_fib_lookup_call s q 0) as [rc p] eqn:Hf.
  unfold BPF_FIB_LKUP_RET_SUCCESS, BPF_FIB_LKUP_RET_BLACKHOLE, BPF_FIB_LKUP_RET_UNREACHABLE,
    BPF_FIB_LKUP_RET_PROHIBIT.
  destruct (Z.eqb_spec rc 0) as [->|Hne].
  - destruct (fib_lookup_macs s q p 0 Hf eq_refl) as (? & ? & ? & ?).
    apply wp_bind. eapply wp_mono; [exact Hlow|]. intros [] s1 [W1 Hh].
    eapply wp_mono; [by apply (forward_tail s s1 v6 p)|]. by intros a s' Hs'.
  - replace ((1 <=? rc) && (rc <=? 3)) with ((rc =? 1) || (rc =? 2) || (rc =? 3)) by lia.
    destruct (_ || _)%bool; apply wp_record_action; done || verdict.
Qed.

Lemma xdp_router_func_spec s : wf s -> wp xdp_router_func (router_post s) s.
Proof using HO.
  intros W. pose proof (wf_len _ W) as Hd. unfold xdp_router_func. sizes. wp_go.
  apply wp_if; intros Hlen; bool_prop.
  { apply wp_record_action; [done|verdict|]. unfold router_post, route_of.
    by rewrite (proj2 (Z.ltb_lt _ _)) by lia. }
  wp_go. rewrite half_at_be16 by (done || lia).
  pose proof (be16_at_range s (dat s + 12) W ltac:(lia) ltac:(lia)) as Hu.
  rewrite !htons_eqb by (done || int_solve).
  destruct (Z.eqb_spec (be16_at s (dat s + 12)) ETH_P_IP) as [H4|H4];
    [|destruct (Z.eqb_spec (be16_at s (dat s + 12)) ETH_P_IPV6) as [H6|H6]].
  - apply wp_if; intros Hl; bool_prop.
    { wp_step. apply wp_record_action; [done|verdict|]. unfold router_post, route_of.
      by rewrite (proj2 (Z.ltb_ge _ _)), H4, Z.eqb_refl, (proj2 (Z.ltb_lt _ _)) by lia. }
    wp_go. apply wp_if; intros Ht; bool_prop.
    { wp_step. apply wp_record_action; [done|verdict|]. unfold router_post, route_of.
      by rewrite !(proj2 (Z.ltb_ge (lenZ _) _)), H4, Z.eqb_refl, (proj2 (Z.leb_le _ _)) by lia. }
    wp_go. simpl. rewrite half_at_be16 by (done || lia).
    unfold bpf_ntohs, bpf_htons. rewrite bswap16_involutive by (apply be16_at_range; done || lia).
    apply wp_unbind, (router_query s false); [done| |lia|].
    { unfold route_of. by rewrite !(proj2 (Z.ltb_ge (lenZ _) _)), H4, Z.eqb_refl, (proj2 (Z.leb_gt _ _)) by lia. }
    wp_step. eapply wp_mono; [apply ip_decrease_ttl_spec; done || lia|].
    intros r s1 (W1 & HS & _ & Hh & Hsum). wp_step. split; [done|].
    unfold hop_lowered, hop_field. split_and!; [|done|done].
    eapply same_but_mono; [exact HS|]. intros x; simpl. lia.
  - apply wp_if; intros Hl; bool_prop.
    { wp_step. apply wp_record_action; [done|verdict|]. unfold router_post, route_of.
      by rewrite (proj2 (Z.ltb_ge _ _)), H6, (proj2 (Z.ltb_lt _ 54)) by lia. }
    wp_go. apply wp_if; intros Ht; bool_prop.
    { wp_step. apply wp_record_action; [done|verdict|]. unfold router_post, route_of.
      by rewrite !(proj2 (Z.ltb_ge (lenZ _) _)), H6, (proj2 (Z.leb_le (byte_at s (dat s + 14 + 7)) _)) by lia. }
    wp_go. simpl. rewrite half_at_be16 by (done || lia).
    unfold bpf_ntohs, bpf_htons. rewrite bswap16_involutive by (apply be16_at_range; done || lia).
    apply wp_unbind, (router_query s true); [done| |lia|].
    { unfold route_of. by rewrite !(proj2 (Z.ltb_ge (lenZ _) _)), H6, (proj2 (Z.leb_gt (byte_at s (dat s + 14 + 7)) _)) by lia. }
    wp_go. rewrite u8_small by (pose proof (byte_at_range s (dat s + 14 + 7) W); int_solve).
    split; [by apply put_byte_wf|]. unfold hop_lowered, hop_field. split_and!; [| |done].
    + eapply same_but_mono; [apply same_but_put; done || lia|]. intros x; simpl. lia.
    + rewrite byte_at_put by (done || lia). rewrite decide_True by done.
      apply u8_small. pose proof (byte_at_range s (dat s + 14 + 7) W). int_solve.
  - wp_step. apply wp_record_action; [done|verdict|]. unfold router_post, route_of.
    by rewrite (proj2 (Z.ltb_ge _ _)), (proj2 (Z.eqb_neq _ _) H4), (proj2 (Z.eqb_neq _ _) H6) by lia.
Qed.
End RouterSpecs.

(** ** Theorems *)

(** C17: the echo responder runs without a fault on every packet.  A packet that
    is not a complete ICMP or ICMPv6 echo request (behind at most two VLAN tags
    and IPv4 options) is passed unchanged; a request is turned into its reply:
    MAC and IP addresses exchanged, the type replaced, the checksum field such
    that the ICMP sum is what it was modulo 65535, every other byte kept. *)
Theorem icmp_echo_responder `{HO : BpfHelpersOk} (s : xstate) :
  wf s -> exists a s', xdp_icmp_echo_func s = Some (a, s') /\ echo_post s a s'.
Proof. intros W. apply wp_run. by apply xdp_icmp_echo_func_spec. Qed.

(** The redirectors rewrite the destination address only, with the constant
    of the program or the entry of [redirect_params] for the source address, and
    return what the redirect helper answers, counted once; packets without a
    complete Ethernet header or without an entry are passed unchanged. *)
Theorem redirectors_rewrite_destination `{HO : BpfHelpersOk} (s : xstate)
    (redirect_params : list Z -> option (list Z)) (tx_port : Z -> option Z) :
  wf s -> (forall k v, redirect_params k = Some v -> length v = 6%nat /\ Forall is_u8 v) ->
  wp (xdp_redirect_map_func redirect_params tx_port)
     (redirect_post s (redirect_params (bytes_at s (dat s + 6) 6)) (bpf_redirect_map tx_port 0 0)) s /\
  wp xdp_redirect_func (fun a s' =>
     redirect_post s (Some [0xe2; 0xab; 0x44; 0xea; 0x6d; 0x16]) (bpf_redirect 5 0) a s' /\
     (14 <= lenZ (pkt s) -> redirect_target s' = Some 5)) s.
Proof.
  intros W Hv. split; [by apply redirect_map_spec|].
  apply redirect_to_spec; [done..|]. repeat constructor; int_solve.
Qed.

(** C16: the router drops packets that are too short for their headers, passes
    what it does not route (other protocols, a hop counter that would run out,
    no neighbour) and, when the forwarding table has an entry, sends the packet
    to the entry's interface with the entry's addresses, the hop counter one
    lower, an IPv4 checksum that stays correct and every other byte unchanged. *)
Theorem router_forwards `{HO : BpfHelpersOk} (s : xstate) :
  wf s -> exists a s', xdp_router_func s = Some (a, s') /\ router_post s a s'.
Proof. intros W. apply wp_run. by apply xdp_router_func_spec. Qed.

(** *** Witnesses *)

Definition ip_hdr (proto : Z) : list Z :=
  [0x45; 0; 0; 28; 0; 1; 0; 0; 64; proto; 0xa6; 0xdc; 10; 0; 0; 1; 10; 0; 0; 2].
Definition eth_hdr : list Z := [2; 0; 0; 0; 0; 2; 2; 0; 0; 0; 0; 1; 0x08; 0x00].
Definition echo_frame : list Z := eth_hdr ++ ip_hdr 1 ++ [8; 0; 0xf7; 0xfd; 0; 1; 0; 1].

Lemma echo_frame_wf : wf (frame_state echo_frame).
Proof. apply frame_state_wf; [simpl; lia|reflexivity]. Defined.

Lemma icmp_echo_responder_witness :
  echo_request (frame_state echo_frame) = Some (270, 290, false) /\
  exists a s', xdp_icmp_echo_func (frame_state echo_frame) = Some (a, s') /\
    echo_post (frame_state echo_frame) a s'.
Proof.
  split; [reflexivity|].
  apply (icmp_echo_responder (HO := ref_helpers_ok) (frame_state echo_frame) echo_frame_wf).
Defined.

Definition demo_params (k : list Z) : option (list Z) :=
  if decide (k = [2; 0; 0; 0; 0; 1]) then Some [2; 0; 0; 0; 0; 9] else None.
Lemma redirectors_rewrite_destination_witness :
  demo_params (bytes_at (frame_state echo_frame) 262 6) = Some [2; 0; 0; 0; 0; 9] /\
  wp (xdp_redirect_map_func demo_params (fun _ => Some 4))
     (redirect_post (frame_state echo_frame)
        (demo_params (bytes_at (frame_state echo_frame) 262 6)) XDP_REDIRECT)
     (frame_state echo_frame).
Proof.
  split; [reflexivity|].
  refine (proj1 (redirectors_rewrite_destination (HO := ref_helpers_ok) (frame_state echo_frame)
                   demo_params (fun _ => Some 4) echo_frame_wf _)).
  intros k v Hk. unfold demo_params in Hk. case_decide; simplify_eq.
  split; [reflexivity|]. repeat constructor; int_solve.
Defined.

Lemma router_forwards_witness :
  (exists q, route_of (frame_state echo_frame) = Routed false q) /\
  exists a s', xdp_router_func (frame_state echo_frame) = Some (a, s') /\
    router_post (frame_state echo_frame) a s'.
Proof.
  split; [eexists; reflexivity|].
  apply (router_forwards (HO := ref_helpers_ok) (frame_state echo_frame) echo_frame_wf).
Defined.
