(* ===== verification/Packet02.v ===== *)
(** * Rewriting and filtering: packet02-rewriting and packet01-parsing

    Module [P02] is packet02-rewriting/xdp_prog_kern.c (port rewriting, the VLAN
    swapper with its own tag helpers, and the echo filter built on the shared
    parsers); module [P01] is packet01-parsing/xdp_prog_kern.c, the same filter with
    its own parsers.  The theorems give the verdict of each program and the bytes
    it changes, by a reference classification of the packet. *)

From S2P Require Import Prelude Xdp Parsing Stats Rewrite Packet03.
#[local] Open Scope Z_scope.
#[local] Open Scope prog_scope.

Module P02.
Section Programs.
Context `{BpfHelpers}.

Definition vlan_tag_pop (eth : ptr) : X Z :=
  let! data_end := gets (fun s => dend s) in
  let vlid := -1 in
  let! proto := ld16 (eth + 12) in
  if proto_is_vlan proto then
    let vlh := eth + sizeof_ethhdr in
    if vlh + sizeof_vlan_hdr <? data_end then
      let! tci := ld16 vlh in
      let vlid := bpf_ntohs tci in
      let! h_proto := ld16 (vlh + 2) in
      let! eth_cpy := ld_bytes eth 14 in
      let! r := call_adjust_head sizeof_vlan_hdr in
      if negb (r =? 0) then ret (-1)
      else
        let! eth := gets (fun s => dat s) in
        let! data_end := gets (fun s => dend s) in
        if eth + sizeof_ethhdr >? data_end then ret (-1)
        else
          st_bytes eth eth_cpy ;;;
          st16 (eth + 12) h_proto ;;;
          ret vlid
    else ret vlid
  else ret vlid.

Definition vlan_tag_push (eth : ptr) (vlid : Z) : X Z :=
  let! eth_cpy := ld_bytes eth 14 in
  let! r := call_adjust_head (0 - sizeof_vlan_hdr) in
  if negb (r =? 0) then ret (-1)
  else
    let! data_end := gets (fun s => dend s) in
    let! eth := gets (fun s => dat s) in
    if eth + sizeof_ethhdr >? data_end then ret (-1)
    else
      st_bytes eth eth_cpy ;;;
      let vlh := eth + sizeof_ethhdr in
      if vlh + sizeof_vlan_hdr >? data_end then ret (-1)
      else
        st16 vlh (bpf_htons vlid) ;;;
        let! proto := ld16 (eth + 12) in
        st16 (vlh + 2) proto ;;;
        st16 (eth + 12) (bpf_htons ETH_P_8021Q) ;;;
        ret 0.

Definition xdp_port_rewrite_func : X Z :=
  let! data_end := gets (fun s => dend s) in
  let! data := gets (fun s => dat s) in
  let out action := xdp_stats_record_action action in
  let! (eth_type, nh, eth) := parse_ethhdr data data_end in
  if eth_type <? 0 then out XDP_ABORTED
  else
    let! l3 :=
      if eth_type =? bpf_htons ETH_P_IPV6 then
        let! (ip_type, nh, ip6h) := parse_ip6hdr nh data_end in ret (Some (ip_type, nh))
      else if eth_type =? bpf_htons ETH_P_IP then
        let! (ip_type, nh, iph) := parse_iphdr nh data_end in ret (Some (ip_type, nh))
      else ret None in
    match l3 with
    | None => out XDP_PASS
    | Some (ip_type, nh) =>
        if ip_type =? IPPROTO_UDP then
          let! (r, nh, udphdr) := parse_udphdr nh data_end in
          if r <? 0 then out XDP_ABORTED
          else
            let! udphdr := deref udphdr in
            let! dest := ld16 (udphdr + 2) in
            st16 (udphdr + 2) (bpf_htons (bpf_ntohs dest - 1)) ;;;
            out XDP_PASS
        else if ip_type =? IPPROTO_TCP then
          let! (r, nh, tcphdr) := parse_tcphdr nh data_end in
          if r <? 0 then out XDP_ABORTED
          else
            let! tcphdr := deref tcphdr in
            let! dest := ld16 (tcphdr + 2) in
            st16 (tcphdr + 2) (bpf_htons (bpf_ntohs dest + 1)) ;;;
            out XDP_PASS
        else out XDP_PASS
    end.

Definition xdp_vlan_swap_func : X Z :=
  let! data_end := gets (fun s => dend s) in
  let! data := gets (fun s => dat s) in
  let! (nh_type, nh, eth) := parse_ethhdr data data_end in
  if nh_type <? 0 then ret XDP_PASS
  else
    let! eth := deref eth in
    let! h_proto := ld16 (eth + 12) in
    (if proto_is_vlan h_proto then
       let! _ := vlan_tag_pop eth in ret tt
     else
       let! _ := vlan_tag_push eth 1 in ret tt) ;;;
    ret XDP_PASS.

Definition xdp_parser_func : X Z :=
  let! data_end := gets (fun s => dend s) in
  let! data := gets (fun s => dat s) in
  let out action := xdp_stats_record_action action in
  let! (nh_type, nh, eth) := parse_ethhdr data data_end in
  if nh_type =? bpf_htons ETH_P_IPV6 then
    let! (nh_type, nh, ip6h) := parse_ip6hdr nh data_end in
    if negb (nh_type =? IPPROTO_ICMPV6) then out XDP_PASS
    else
      let! (nh_type, nh, icmp6h) := parse_icmp6hdr nh data_end in
      if negb (nh_type =? ICMPV6_ECHO_REQUEST) then out XDP_PASS
      else
        let! icmp6h := deref icmp6h in
        let! sequence := ld16 (icmp6h + 6) in
        if bpf_ntohs sequence mod 2 =? 0 then out XDP_DROP else out XDP_PASS
  else if nh_type =? bpf_htons ETH_P_IP then
    let! (nh_type, nh, iph) := parse_iphdr nh data_end in
    if negb (nh_type =? IPPROTO_ICMP) then out XDP_PASS
    else
      let! (nh_type, nh, icmph) := parse_icmphdr nh data_end in
      if negb (nh_type =? ICMP_ECHO) then out XDP_PASS
      else
        let! icmph := deref icmph in
        let! sequence := ld16 (icmph + 6) in
        if bpf_ntohs sequence mod 2 =? 0 then out XDP_DROP else out XDP_PASS
  else out XDP_PASS.
End Programs.
End P02.

Module P01.
Definition proto_is_vlan (h_proto : Z) : bool :=
  (h_proto =? bpf_htons ETH_P_8021Q) || (h_proto =? bpf_htons ETH_P_8021AD).

Fixpoint vlan_loop (n : nat) (data_end : Z) (vlh : ptr) (h_proto : Z) : X (Z * ptr) :=
  match n with
  | O => ret (h_proto, vlh)
  | S n' =>
      if negb (proto_is_vlan h_proto) then ret (h_proto, vlh)
      else if vlh + sizeof_vlan_hdr >? data_end then ret (h_proto, vlh)
      else
        let! h_proto := ld16 (vlh + 2) in
        vlan_loop n' data_end (vlh + sizeof_vlan_hdr) h_proto
  end.

Definition parse_ethhdr (nh : hdr_cursor) (data_end : Z) : X parsed :=
  let eth := nh in
  let hdrsize := sizeof_ethhdr in
  if nh + hdrsize >? data_end then ret (-1, nh, None)
  else
    let nh := nh + hdrsize in
    let vlh := nh in
    let! h_proto := ld16 (eth + 12) in
    let! (h_proto, vlh) := vlan_loop VLAN_MAX_DEPTH data_end vlh h_proto in
    ret (h_proto, vlh, Some eth).

Definition parse_ip6hdr (nh : hdr_cursor) (data_end : Z) : X parsed :=
  let ip6h := nh in
  if nh + sizeof_ipv6hdr >? data_end then ret (-1, nh, None)
  else
    let! nexthdr := ld8 (ip6h + 6) in
    ret (nexthdr, nh + sizeof_ipv6hdr, Some ip6h).

(** The header length field is not looked at. *)
Definition parse_iphdr (nh : hdr_cursor) (data_end : Z) : X parsed :=
  let iph := nh in
  if nh + sizeof_iphdr >? data_end then ret (-1, nh, None)
  else
    let! protocol := ld8 (iph + 9) in
    ret (protocol, nh + sizeof_iphdr, Some iph).

Definition parse_icmp6hdr (nh : hdr_cursor) (data_end : Z) : X parsed :=
  let icmp6h := nh in
  if nh + sizeof_icmp6hdr >? data_end then ret (-1, nh, None)
  else
    let! icmp6_type := ld8 icmp6h in
    ret (icmp6_type, nh + sizeof_icmp6hdr, Some icmp6h).

Definition parse_icmphdr (nh : hdr_cursor) (data_end : Z) : X parsed :=
  let icmph := nh in
  if nh + sizeof_icmphdr >? data_end then ret (-1, nh, None)
  else
    let! type := ld8 icmph in
    ret (type, nh + sizeof_icmphdr, Some icmph).

(** The two [if]s of the source are sequential: the second one sees the
    [nh_type] and the cursor the first one leaves. *)
Definition xdp_parser_func : X Z :=
  let! data_end := gets (fun s => dend s) in
  let! data := gets (fun s => dat s) in
  let out action := xdp_stats_record_action action in
  let! (nh_type, nh, eth) := parse_ethhdr data data_end in
  if nh_type <? 0 then out XDP_PASS
  else
    let! first :=
      if nh_type =? bpf_htons ETH_P_IPV6 then
        let! (nh_type, nh, ip6h) := parse_ip6hdr nh data_end in
        if negb (nh_type =? IPPROTO_ICMPV6) then ret (inl XDP_PASS)
        else
          let! (nh_type, nh, icmp6h) := parse_icmp6hdr nh data_end in
          if nh_type <? 0 then ret (inl XDP_PASS)
          else
            let! icmp6h := deref icmp6h in
            let! sequence := ld16 (icmp6h + 6) in
            if bpf_ntohs sequence mod 2 =? 0 then ret (inl XDP_DROP)
            else ret (inr (nh_type, nh))
      else ret (inr (nh_type, nh)) in
    match first with
    | inl action => out action
    | inr (nh_type, nh) =>
        if nh_type =? bpf_htons ETH_P_IP then
          let! (nh_type, nh, iph) := parse_iphdr nh data_end in
          if negb (nh_type =? IPPROTO_ICMP) then out XDP_PASS
          else
            let! (nh_type, nh, icmph) := parse_icmphdr nh data_end in
            if nh_type <? 0 then out XDP_PASS
            else
              let! icmph := deref icmph in
              let! sequence := ld16 (icmph + 6) in
              if negb (bpf_ntohs sequence mod 2 =? 0) then out XDP_DROP else out XDP_PASS
        else out XDP_PASS
    end.
End P01.

(** ** Reference classification *)

(** The transport protocol and the start of its header, when the layer-3 header
    is completely in the packet. *)
Definition l4_ref (s : xstate) : option (Z * ptr) :=
  let ip := l3_pos s in
  if l3_proto s =? ETH_P_IPV6 then
    if ip + 40 <=? dend s then Some (byte_at s (ip + 6), ip + 40) else None
  else if l3_proto s =? ETH_P_IP then
    if (ip + 20 <=? dend s) && (20 <=? ihl_bytes s ip) && (ip + ihl_bytes s ip <=? dend s)
    then Some (byte_at s (ip + 9), ip + ihl_bytes s ip) else None
  else None.

(** The 16-bit big-endian field at [p] moved by [d], nothing else changed. *)
Definition field_moved (s s' : xstate) (p : ptr) (d : Z) : Prop :=
  be16_at s' p = u16 (be16_at s p + d) /\ ctx s' = ctx s /\ length (pkt s') = length (pkt s) /\
  forall x, dat s <= x < dend s -> ~ (p <= x < p + 2) -> byte_at s' x = byte_at s x.

Section Specs.
Context `{HO : BpfHelpersOk}.

Lemma put_field_moved s p d :
  wf s -> dat s <= p -> p + 2 <= dend s ->
  let v := bpf_htons (bpf_ntohs (half_at s p) + d) in
  field_moved s (put_bytes s p [u8 v; u8 (v / 256)]) p d.
Proof.
  intros W H1 H2 v. split_and!; [|apply put_bytes_ctx|apply put_bytes_len|].
  - unfold be16_at at 1. rewrite !byte_at_put16 by (done || lia).
    rewrite !Z.eqb_refl, (proj2 (Z.eqb_neq (p + 1) p)) by lia.
    unfold v. rewrite half_at_be16 by done. unfold bpf_ntohs, bpf_htons.
    rewrite (bswap16_involutive (be16_at s p)) by by apply be16_at_range.
    unfold bswap16. int_solve.
  - intros x Hx Hn. rewrite byte_at_put16 by (done || lia).
    by repeat rewrite (proj2 (Z.eqb_neq x _)) by lia.
Qed.

(** The layer-3 step the programs share. *)
Lemma wp_l3 s pos (Q : option (Z * ptr) -> xstate -> Prop) :
  wf s -> pos = l3_pos s -> is_u16 (l3_proto s) -> dat s + 14 <= pos <= dend s ->
  Q (l4_ref s) s ->
  (forall t p, t < 0 -> l4_ref s = None -> Q (Some (t, p)) s) ->
  wp (if bpf_htons (l3_proto s) =? bpf_htons ETH_P_IPV6 then
        let! (ip_type, nh, ip6h) := parse_ip6hdr pos (dend s) in ret (Some (ip_type, nh))
      else if bpf_htons (l3_proto s) =? bpf_htons ETH_P_IP then
        let! (ip_type, nh, iph) := parse_iphdr pos (dend s) in ret (Some (ip_type, nh))
      else ret None) Q s.
Proof.
  intros W -> Hu Hpos HQ HN. rewrite !htons_eqb by (done || int_solve). unfold l4_ref in *.
  destruct (l3_proto s =? ETH_P_IPV6); [|destruct (l3_proto s =? ETH_P_IP); [|by wp_step]];
    wp_step.
  - eapply wp_mono; [apply parse_ip6hdr_spec; lia|].
    intros [[r nh] h] ? [-> [(Hno & -> & -> & ->)|(Hok & -> & -> & -> & Hle)]]; wp_step.
    + apply HN; [done|]. by rewrite (proj2 (Z.leb_gt _ _)) by lia.
    + by rewrite (proj2 (Z.leb_le _ _)) in HQ by lia.
  - eapply wp_mono; [apply parse_iphdr_spec; lia|].
    intros [[r nh] h] ? [-> [(Hno & -> & -> & ->)|(Hok & -> & -> & -> & Hle)]]; wp_step.
    + apply HN; [done|]. destruct (_ && _)%bool eqn:HC; [|done]. bool_prop. lia.
    + destruct (_ && _)%bool eqn:HC in HQ; [done|]. bool_prop. lia.
Qed.

Definition port_post (s : xstate) (a : Z) (s' : xstate) : Prop :=
  let kept v := a = v /\ s' = counted s v in
  let moved p d := a = XDP_PASS /\ field_moved s s' (p + 2) d /\
                   xdp_stats_map s' = xdp_stats_map (counted s XDP_PASS) in
  if lenZ (pkt s) <? 14 then kept XDP_ABORTED
  else match l4_ref s with
  | None => kept XDP_PASS
  | Some (t, p) =>
      if t =? IPPROTO_UDP then
        if (p + 8 <=? dend s) && (0 <=? udp_len s p) then moved p (-1) else kept XDP_ABORTED
      else if t =? IPPROTO_TCP then
        if (p + 20 <=? dend s) && (20 <=? doff_bytes s p) && (p + doff_bytes s p <=? dend s)
        then moved p 1 else kept XDP_ABORTED
      else kept XDP_PASS
  end.

(** The tail of both transport branches: the store and the record. *)
Lemma wp_move_port s p d :
  wf s -> dat s <= p -> p + 4 <= dend s ->
  wp (let! dest := ld16 (p + 2) in
      st16 (p + 2) (bpf_htons (bpf_ntohs dest + d)) ;;;
      xdp_stats_record_action XDP_PASS)
    (fun a s' => a = XDP_PASS /\ field_moved s s' (p + 2) d /\
       xdp_stats_map s' = xdp_stats_map (counted s XDP_PASS)) s.
Proof.
  intros W H1 H2. wp_go; try lia. apply wp_record_action; [by apply put_bytes_wf|verdict|].
  split; [done|]. split; [apply (put_field_moved s (p + 2) d W); lia|].
  cbn [counted set_stats xdp_stats_map]. by rewrite put_bytes_stats, put_bytes_len.
Qed.

Lemma l4_ref_bounds s t p :
  wf s -> dat s + 14 <= l3_pos s -> l4_ref s = Some (t, p) -> dat s + 14 <= p <= dend s /\ 0 <= t.
Proof.
  intros W Hpos. unfold l4_ref.
  repeat case_match; intros Heq; [|done| |done..]; injection Heq as <- <-; bool_prop;
    (split; [lia|]); apply (byte_at_range s); done || lia.
Qed.

Lemma xdp_port_rewrite_func_spec s : wf s -> wp P02.xdp_port_rewrite_func (port_post s) s.
Proof.
  intros W. pose proof (wf_len _ W) as Hd. unfold P02.xdp_port_rewrite_func, port_post.
  wp_go. eapply wp_mono; [by apply parse_ethhdr_l3|].
  intros [[r nh] h] ? [-> [(Hs & -> & ->)|(Hs & -> & -> & Hu & -> & Hpos)]].
  { rewrite (proj2 (Z.ltb_lt (lenZ _) _)) by lia. by apply wp_record_action; [|verdict|]. }
  rewrite (proj2 (Z.ltb_ge (lenZ _) _)) by lia.
  pose proof (bswap16_range (l3_proto s)) as Hb. fold (bpf_htons (l3_proto s)) in Hb.
  rewrite (proj2 (Z.ltb_ge (bpf_htons _) _)) by (int_unfold; lia).
  apply wp_bind, wp_l3; [done|done|done|lia| |].
  2: { intros t p Ht ->. rewrite !(proj2 (Z.eqb_neq t _)) by (unfold IPPROTO_UDP, IPPROTO_TCP; lia).
       by apply wp_record_action; [|verdict|]. }
  destruct (l4_ref s) as [[t p]|] eqn:Hl4; [|by apply wp_record_action; [|verdict|]].
  destruct (l4_ref_bounds s t p W ltac:(lia) Hl4) as [Hp Ht].
  destruct (t =? IPPROTO_UDP); [|destruct (t =? IPPROTO_TCP);
    [|by apply wp_record_action; [|verdict|]]]; wp_step.
  - eapply wp_mono; [apply parse_udphdr_spec; lia|].
    intros [[r nh] h] ? [-> [(Hno & -> & -> & ->)|(Hok & -> & -> & ->)]].
    { rewrite (proj2 (Z.leb_gt _ _)) by lia. by apply wp_record_action; [|verdict|]. }
    rewrite (proj2 (Z.leb_le _ _)) by lia. cbn [andb]. destruct (Z.ltb_spec (udp_len s p) 0).
    + rewrite (proj2 (Z.leb_gt _ _)) by lia. by apply wp_record_action; [|verdict|].
    + rewrite (proj2 (Z.ltb_ge _ _)), (proj2 (Z.leb_le _ _)) by lia. wp_step. wp_step.
      apply (wp_move_port s p (-1)); done || lia.
  - eapply wp_mono; [apply parse_tcphdr_spec; done || lia|].
    intros [[r nh] h] ? [-> [(Hno & -> & -> & ->)|(Hok & -> & -> & -> & Hle)]].
    { destruct (_ && _)%bool eqn:HC; bool_prop; [lia|]. by apply wp_record_action; [|verdict|]. }
    destruct (_ && _)%bool eqn:HC; bool_prop; [|lia].
    rewrite (proj2 (Z.ltb_ge _ _)) by lia. wp_step. wp_step.
    apply (wp_move_port s p 1); done || lia.
Qed.

(** The kernel's answer to a move of the packet start, as a case analysis. *)
Lemma wp_adjust_cases s delta (Q : Z -> xstate -> Prop) :
  wf s ->
  (forall s', fst (bpf_xdp_adjust_head s delta) = 0 -> moved s s' delta ->
     xdp_stats_map s' = xdp_stats_map s -> Q 0 s') ->
  (forall r, fst (bpf_xdp_adjust_head s delta) <> 0 -> r < 0 -> Q r s) ->
  wp (call_adjust_head delta) Q s.
Proof using HO.
  intros W Hok Herr. unfold wp, call_adjust_head.
  destruct (bpf_xdp_adjust_head s delta) as [r s'] eqn:Hr; simpl in *.
  destruct (Z.eq_dec r 0) as [->|Hne].
  - destruct (adjust_head_success s delta s' W Hr) as (?&?&?&?&?). by apply Hok.
  - destruct (adjust_head_failure s delta r s' Hr Hne) as [? ->]. by apply Herr.
Qed.

(** The packet after a tag operation that needs the kernel to move the start by
    [delta]: [l] when the kernel does it, untouched when it does not. *)
Definition if_moved (s s' : xstate) (delta : Z) (l : list Z) : Prop :=
  (fst (bpf_xdp_adjust_head s delta) = 0 -> pkt s' = l) /\
  (fst (bpf_xdp_adjust_head s delta) <> 0 -> s' = s).

Lemma p02_pop_spec s (W : wf s) :
  18 < lenZ (pkt s) -> proto_is_vlan (half_at s (dat s + 12)) = true ->
  wp (P02.vlan_tag_pop (dat s))
    (fun r s' => wf s' /\ xdp_stats_map s' = xdp_stats_map s /\
       if_moved s s' 4 (pop_tag (pkt s))) s.
Proof using HO.
  intros Hlen Hv. pose proof (wf_len _ W) as Hd. unfold P02.vlan_tag_pop, if_moved. sizes.
  wp_go. rewrite Hv, (proj2 (Z.ltb_lt _ _)) by lia. wp_go.
  apply wp_adjust_cases; [done| |intros r Hf Hr; rewrite (proj2 (Z.eqb_neq r 0)) by lia; by wp_step].
  intros s1 Hf Hmv Hst1. pose proof Hmv as (W1 & Hl1 & _). pose proof (wf_len _ W1) as Hd1.
  wp_step; bool_prop; [done|]. wp_go. wp_step; bool_prop; [lia|].
  wp_go; try (rewrite ?put_bytes_ctx, ?bytes_at_length; lia).
  split; [by repeat apply put_bytes_wf|]. split; [by rewrite !put_bytes_stats|].
  split; [intros _|done]. replace (dat s + 14 + 2) with (dat s + 16) by lia.
  apply pop_write; (done || lia).
Qed.

Lemma p02_push_spec s (W : wf s) vlid :
  14 <= lenZ (pkt s) ->
  wp (P02.vlan_tag_push (dat s) vlid)
    (fun r s' => wf s' /\ xdp_stats_map s' = xdp_stats_map s /\
       if_moved s s' (-4) (push_tag vlid (pkt s))) s.
Proof using HO.
  intros Hlen. pose proof (wf_len _ W) as Hd. unfold P02.vlan_tag_push, if_moved. sizes. wp_go.
  change (0 - 4) with (-4).
  apply wp_adjust_cases; [done| |intros r Hf Hr; rewrite (proj2 (Z.eqb_neq r 0)) by lia; by wp_step].
  intros s1 Hf Hmv Hst1. pose proof Hmv as (W1 & Hl1 & _). pose proof (wf_len _ W1) as Hd1.
  wp_step; bool_prop; [done|]. wp_go. wp_step; bool_prop; [lia|].
  wp_go; try (rewrite ?put_bytes_ctx, ?bytes_at_length; lia). wp_step; bool_prop; [lia|].
  wp_go; try (rewrite ?put_bytes_ctx; lia).
  split; [by repeat apply put_bytes_wf|]. split; [by rewrite !put_bytes_stats|].
  split; [intros _|done]. replace (dat s1 + 14 + 2) with (dat s1 + 16) by lia.
  apply push_write; (done || lia).
Qed.

Definition vlan_swap_post (s : xstate) (a : Z) (s' : xstate) : Prop :=
  a = XDP_PASS /\ wf s' /\ xdp_stats_map s' = xdp_stats_map s /\
  if lenZ (pkt s) <? 14 then s' = s
  else if is_vlan_type (be16_at s (dat s + 12)) then
    if 18 <? lenZ (pkt s) then if_moved s s' 4 (pop_tag (pkt s)) else s' = s
  else if_moved s s' (-4) (push_tag 1 (pkt s)).

Lemma xdp_vlan_swap_func_spec s : wf s -> wp P02.xdp_vlan_swap_func (vlan_swap_post s) s.
Proof using HO.
  intros W. pose proof (wf_len _ W) as Hd. unfold P02.xdp_vlan_swap_func, vlan_swap_post.
  wp_go. eapply wp_mono; [by apply parse_ethhdr_l3|].
  intros [[r nh] h] ? [-> [(Hs & -> & ->)|(Hs & -> & -> & Hu & -> & Hpos)]].
  { rewrite (proj2 (Z.ltb_lt (lenZ _) _)) by lia. by wp_step. }
  rewrite (proj2 (Z.ltb_ge (lenZ _) _)) by lia.
  pose proof (bswap16_range (l3_proto s)) as Hb. fold (bpf_htons (l3_proto s)) in Hb.
  rewrite (proj2 (Z.ltb_ge (bpf_htons _) _)) by (int_unfold; lia). wp_go.
  assert (proto_is_vlan (half_at s (dat s + 12)) = is_vlan_type (be16_at s (dat s + 12))) as E.
  { rewrite half_at_be16, proto_is_vlan_htons by (done || lia || apply be16_at_range; done || lia).
    done. }
  rewrite E. destruct (is_vlan_type _); wp_step.
  - destruct (Z.ltb_spec 18 (lenZ (pkt s))).
    + eapply wp_mono; [by apply p02_pop_spec|]. intros r s' (? & ? & ?). by wp_go.
    + unfold P02.vlan_tag_pop. sizes. wp_go. rewrite E, (proj2 (Z.ltb_ge _ _)) by lia. by wp_go.
  - eapply wp_mono; [by apply p02_push_spec|]. intros r s' (? & ? & ?). by wp_go.
Qed.
End Specs.

(** ** The echo filters *)

Definition even_at (s : xstate) (p : ptr) : bool := be16_at s p mod 2 =? 0.

(** packet02: echo requests with an even sequence number are dropped. *)
Definition p02_verdict (s : xstate) : Z :=
  if lenZ (pkt s) <? 14 then XDP_PASS
  else match l4_ref s with
  | None => XDP_PASS
  | Some (t, p) =>
      let '(proto, request) :=
        if l3_proto s =? ETH_P_IPV6 then (IPPROTO_ICMPV6, ICMPV6_ECHO_REQUEST)
        else (IPPROTO_ICMP, ICMP_ECHO) in
      if (t =? proto) && (p + 8 <=? dend s) && (byte_at s p =? request) && even_at s (p + 6)
      then XDP_DROP else XDP_PASS
  end.

(** packet01, an IPv4 header at [ip]: options are not skipped, the ICMP type is not
    looked at, and odd sequence numbers are dropped. *)
Definition p01_v4_verdict (s : xstate) (ip : ptr) : Z :=
  if (ip + 20 <=? dend s) && (byte_at s (ip + 9) =? IPPROTO_ICMP)
     && (ip + 28 <=? dend s) && negb (even_at s (ip + 26)) then XDP_DROP else XDP_PASS.
(** packet01: ICMPv6 messages with an even sequence number are dropped; an odd one
    of type 8 (the network-order value of ETH_P_IP) is then taken for an IPv4
    packet that starts behind the ICMPv6 header. *)
Definition p01_verdict (s : xstate) : Z :=
  let ip := l3_pos s in
  if lenZ (pkt s) <? 14 then XDP_PASS
  else if l3_proto s =? ETH_P_IPV6 then
    if (ip + 40 <=? dend s) && (byte_at s (ip + 6) =? IPPROTO_ICMPV6) && (ip + 48 <=? dend s)
    then if even_at s (ip + 46) then XDP_DROP
         else if byte_at s (ip + 40) =? 8 then p01_v4_verdict s (ip + 48) else XDP_PASS
    else XDP_PASS
  else if l3_proto s =? ETH_P_IP then p01_v4_verdict s ip
  else XDP_PASS.

(** The lesson's own Ethernet parser is the shared one. *)
Lemma p01_vlan_loop n : forall i data_end vlh h_proto s,
  P01.vlan_loop n data_end vlh h_proto s =
  (let! (p, v, _) := vlan_loop n i data_end vlh h_proto None in ret (p, v)) s.
Proof.
  induction n as [|n IH]; intros; [done|]. cbn [P01.vlan_loop vlan_loop].
  change (P01.proto_is_vlan h_proto) with (proto_is_vlan h_proto).
  destruct (negb _); [done|]. destruct (_ >? _); [done|]. unfold bind at 1 2 3.
  destruct (ld16 _ s) as [[h s']|]; [|done]. unfold ret at 2. unfold bind at 1. apply IH.
Qed.
Lemma p01_parse_ethhdr nh data_end s :
  P01.parse_ethhdr nh data_end s = parse_ethhdr nh data_end s.
Proof.
  unfold P01.parse_ethhdr, parse_ethhdr, parse_ethhdr_vlan, bind.
  destruct (_ >? _); [done|]. destruct (ld16 _ s) as [[h s']|]; [|done].
  rewrite (p01_vlan_loop _ 0). unfold bind, ret.
  by destruct (vlan_loop _ _ _ _ _ _ s') as [[[[]] ]|].
Qed.

(** The verdict [v] is recorded and the packet left alone. *)
Definition verdict_is (s : xstate) (v a : Z) (s' : xstate) : Prop := a = v /\ s' = counted s v.

Section Filters.
Context (s : xstate) (W : wf s).

(** The sequence number as the programs test it. *)
Lemma seq_even p : dat s <= p -> p + 2 <= dend s ->
  (bpf_ntohs (half_at s p) mod 2 =? 0) = even_at s p.
Proof using W.
  intros. rewrite half_at_be16 by done. unfold bpf_ntohs, bpf_htons.
  by rewrite bswap16_involutive by by apply be16_at_range.
Qed.
Lemma wp_verdict v : v = XDP_PASS \/ v = XDP_DROP ->
  wp (xdp_stats_record_action v) (verdict_is s v) s.
Proof using W. intros [-> | ->]; by apply wp_record_action; [|verdict|]. Qed.

Lemma xdp_parser_func02_spec : wp P02.xdp_parser_func (verdict_is s (p02_verdict s)) s.
Proof using W.
  pose proof (wf_len _ W) as Hd. unfold P02.xdp_parser_func, p02_verdict, l4_ref.
  wp_go. eapply wp_mono; [by apply parse_ethhdr_l3|].
  intros [[r nh] h] ? [-> [(Hs & -> & ->)|(Hs & -> & -> & Hu & -> & Hpos)]].
  { rewrite !htons_eqb_m1, (proj2 (Z.ltb_lt (lenZ _) _)) by lia. apply wp_verdict; auto. }
  rewrite (proj2 (Z.ltb_ge (lenZ _) _)) by lia. rewrite !htons_eqb by (done || int_solve).
  destruct (l3_proto s =? ETH_P_IPV6) eqn:H6; [|destruct (l3_proto s =? ETH_P_IP) eqn:H4];
    [wp_step..|apply wp_verdict; auto].
  - eapply wp_mono; [apply parse_ip6hdr_spec; lia|].
    intros [[r nh] h] ? [-> [(Hno & -> & -> & ->)|(Hok & -> & -> & -> & Hle)]];
      [rewrite (proj2 (Z.leb_gt _ _)) by lia; apply wp_verdict; auto|].
    rewrite (proj2 (Z.leb_le _ _)) by lia. destruct (_ =? IPPROTO_ICMPV6); [|apply wp_verdict; auto].
    cbn [negb]. wp_step. eapply wp_mono; [apply parse_icmp6hdr_spec; lia|].
    intros [[r nh] h] ? [-> [(Hno & -> & -> & ->)|(Hok' & -> & -> & -> & Hle')]];
      [rewrite (proj2 (Z.leb_gt _ _)) by lia; apply wp_verdict; auto|].
    rewrite (proj2 (Z.leb_le _ _)) by lia. cbn [andb].
    destruct (_ =? ICMPV6_ECHO_REQUEST); [|apply wp_verdict; auto].
    cbn [negb]. wp_go; try lia. rewrite seq_even by lia. destruct (even_at _ _); apply wp_verdict; auto.
  - eapply wp_mono; [apply parse_iphdr_spec; lia|].
    intros [[r nh] h] ? [-> [(Hno & -> & -> & ->)|(Hok & -> & -> & -> & Hle)]].
    { destruct (_ && _)%bool eqn:HC; bool_prop; [lia|]. apply wp_verdict; auto. }
    destruct (_ && _)%bool eqn:HC; bool_prop; [|lia].
    destruct (_ =? IPPROTO_ICMP); [|apply wp_verdict; auto].
    cbn [negb]. wp_step. eapply wp_mono; [apply parse_icmphdr_spec; lia|].
    intros [[r nh] h] ? [-> [(Hno & -> & -> & ->)|(Hok' & -> & -> & -> & Hle')]];
      [rewrite (proj2 (Z.leb_gt _ _)) by lia; apply wp_verdict; auto|].
    rewrite (proj2 (Z.leb_le _ _)) by lia. cbn [andb].
    destruct (_ =? ICMP_ECHO); [|apply wp_verdict; auto].
    cbn [negb]. wp_go; try lia. rewrite seq_even by lia. destruct (even_at _ _); apply wp_verdict; auto.
Qed.

Lemma p01_v4_spec nh : dat s <= nh ->
  wp (let! (nh_type, nh, iph) := P01.parse_iphdr nh (dend s) in
      if negb (nh_type =? IPPROTO_ICMP) then xdp_stats_record_action XDP_PASS
      else
        let! (nh_type, nh, icmph) := P01.parse_icmphdr nh (dend s) in
        if nh_type <? 0 then xdp_stats_record_action XDP_PASS
        else
          let! icmph := deref icmph in
          let! sequence := ld16 (icmph + 6) in
          if negb (bpf_ntohs sequence mod 2 =? 0) then xdp_stats_record_action XDP_DROP
          else xdp_stats_record_action XDP_PASS)
     (verdict_is s (p01_v4_verdict s nh)) s.
Proof using W.
  intros Hnh. unfold P01.parse_iphdr, P01.parse_icmphdr, p01_v4_verdict. sizes.
  wp_step. rewrite Z.gtb_ltb.
  destruct (Z.ltb_spec (dend s) (nh + 20));
    [rewrite (proj2 (Z.leb_gt _ _)) by lia; wp_go; apply wp_verdict; auto|].
  rewrite (proj2 (Z.leb_le _ _)) by lia. wp_go.
  destruct (_ =? IPPROTO_ICMP); [|apply wp_verdict; auto]. cbn [negb andb]. wp_step.
  rewrite Z.gtb_ltb. replace (nh + 20 + 8) with (nh + 28) by lia.
  destruct (Z.ltb_spec (dend s) (nh + 28));
    [rewrite (proj2 (Z.leb_gt _ _)) by lia; wp_go; apply wp_verdict; auto|].
  rewrite (proj2 (Z.leb_le _ _)) by lia. wp_go.
  pose proof (byte_at_range s (nh + 20) W ltac:(lia)) as Hb.
  rewrite (proj2 (Z.ltb_ge _ _)) by (int_unfold; lia). wp_go; try lia.
  rewrite seq_even by lia. replace (nh + 20 + 6) with (nh + 26) by lia.
  destruct (even_at _ _); apply wp_verdict; auto.
Qed.

Lemma xdp_parser_func01_spec : wp P01.xdp_parser_func (verdict_is s (p01_verdict s)) s.
Proof using W.
  pose proof (wf_len _ W) as Hd. unfold P01.xdp_parser_func, p01_verdict.
  wp_go. eapply wp_eq; [apply p01_parse_ethhdr|]. eapply wp_mono; [by apply parse_ethhdr_l3|].
  intros [[r nh] h] ? [-> [(Hs & -> & ->)|(Hs & -> & -> & Hu & -> & Hpos)]].
  { rewrite (proj2 (Z.ltb_lt (lenZ _) _)) by lia. apply wp_verdict; auto. }
  rewrite (proj2 (Z.ltb_ge (lenZ _) _)) by lia.
  pose proof (bswap16_range (l3_proto s)) as Hb. fold (bpf_htons (l3_proto s)) in Hb.
  rewrite (proj2 (Z.ltb_ge (bpf_htons _) _)) by (int_unfold; lia).
  rewrite !htons_eqb by (done || int_solve). wp_step.
  destruct (l3_proto s =? ETH_P_IPV6) eqn:H6; wp_step.
  2: { rewrite htons_eqb by (done || int_solve).
       destruct (l3_proto s =? ETH_P_IP); [apply p01_v4_spec; lia|apply wp_verdict; auto]. }
  eapply wp_mono; [apply parse_ip6hdr_spec; lia|].
  intros [[r nh] h] ? [-> [(Hno & -> & -> & ->)|(Hok & -> & -> & -> & Hle)]];
    [rewrite (proj2 (Z.leb_gt _ _)) by lia; wp_go; apply wp_verdict; auto|].
  rewrite (proj2 (Z.leb_le _ _)) by lia.
  destruct (_ =? IPPROTO_ICMPV6); cbn [negb andb]; [|wp_go; apply wp_verdict; auto].
  wp_step. eapply wp_mono; [apply parse_icmp6hdr_spec; lia|].
  intros [[r nh] h] ? [-> [(Hno & -> & -> & ->)|(Hok' & -> & -> & -> & Hle')]].
  { rewrite (proj2 (Z.leb_gt _ _)) by lia. wp_go. apply wp_verdict; auto. }
  rewrite (proj2 (Z.leb_le _ _)) by lia.
  pose proof (byte_at_range s (l3_pos s + 40) W ltac:(lia)) as Hb'.
  rewrite (proj2 (Z.ltb_ge _ _)) by (int_unfold; lia). wp_go; try lia.
  rewrite seq_even by lia. replace (l3_pos s + 40 + 6) with (l3_pos s + 46) by lia.
  destruct (even_at _ _); wp_go; [apply wp_verdict; auto|].
  change (bpf_htons ETH_P_IP) with 8. replace (l3_pos s + 40 + 8) with (l3_pos s + 48) by lia.
  destruct (_ =? 8); [apply p01_v4_spec; lia|apply wp_verdict; auto].
Qed.
End Filters.

(** ** Theorems *)

(** The port rewriter runs without a fault on every packet; it lowers the
    UDP destination port by one and raises the TCP one by one (modulo 65536),
    changes no other byte, aborts on a truncated frame or transport header and
    passes everything else. *)
Theorem port_rewrite_moves_port (s : xstate) :
  wf s -> exists a s', P02.xdp_port_rewrite_func s = Some (a, s') /\ port_post s a s'.
Proof. intros W. apply wp_run. by apply xdp_port_rewrite_func_spec. Qed.

(** The VLAN swapper pops the outermost tag of a tagged frame that is longer
    than its headers and pushes the tag with id 1 in front of an untagged one,
    whenever the kernel moves the packet start; a tagged frame of exactly 18 bytes
    keeps its tag. *)
Theorem vlan_swap_toggles `{HO : BpfHelpersOk} (s : xstate) :
  wf s -> exists a s', P02.xdp_vlan_swap_func s = Some (a, s') /\ vlan_swap_post s a s'.
Proof. intros W. apply wp_run. by apply xdp_vlan_swap_func_spec. Qed.

(** The verdicts of the two echo filters, on every packet: packet02 drops
    echo requests with an even sequence number, packet01 every ICMPv6 message with
    an even one and every ICMP message with an odd one, found at the fixed offset
    20; nothing but the counter of the verdict changes. *)
Theorem echo_filter_verdicts (s : xstate) :
  wf s ->
  P02.xdp_parser_func s = Some (p02_verdict s, counted s (p02_verdict s)) /\
  P01.xdp_parser_func s = Some (p01_verdict s, counted s (p01_verdict s)).
Proof.
  intros W. split; [apply (xdp_parser_func02_spec s), wp_run in W as (a & s' & Hr & Hv)
                   |apply (xdp_parser_func01_spec s), wp_run in W as (a & s' & Hr & Hv)];
    by destruct Hv as [-> ->].
Qed.

(** *** Witnesses *)

Definition udp_frame : list Z := eth_hdr ++ ip_hdr 17 ++ [0; 53; 0x07; 0xd0; 0; 8; 0; 0].
Lemma port_rewrite_moves_port_witness :
  l4_ref (frame_state udp_frame) = Some (17, 290) /\
  exists a s', P02.xdp_port_rewrite_func (frame_state udp_frame) = Some (a, s') /\
    port_post (frame_state udp_frame) a s'.
Proof.
  split; [reflexivity|]. apply (port_rewrite_moves_port (frame_state udp_frame)).
  apply frame_state_wf; [simpl; lia|reflexivity].
Defined.

Lemma vlan_swap_toggles_witness :
  exists a s', P02.xdp_vlan_swap_func (frame_state tagged_frame) = Some (a, s') /\
    vlan_swap_post (frame_state tagged_frame) a s'.
Proof.
  apply (vlan_swap_toggles (HO := ref_helpers_ok) (frame_state tagged_frame)).
  apply frame_state_wf; [simpl; lia|reflexivity].
Defined.

Lemma echo_filter_verdicts_witness :
  P02.xdp_parser_func (frame_state echo_frame) =
    Some (XDP_PASS, counted (frame_state echo_frame) XDP_PASS) /\
  P01.xdp_parser_func (frame_state echo_frame) =
    Some (XDP_DROP, counted (frame_state echo_frame) XDP_DROP).
Proof. apply (echo_filter_verdicts (frame_state echo_frame) echo_frame_wf). Defined.
