(* ===== verification/SwitchKern.v ===== *)
(** * The switch's kernel side: switchtsn/af_xdp_kern_david.c and
    go-approach/examples/switchTSN-david/ebpf.c

    The programs that steer packets of a receive queue into its AF_XDP socket.
    Their state is the per-CPU packet counter array (64 entries of 32 bits);
    [xsks_map] and [qidconf_map] are maps they read.  The theorems: the counter is
    bumped once per packet, every other packet of a queue leaves through interface
    9, the rest go to the socket of the queue or, without one, up the stack. *)

From S2P Require Import Prelude Xdp.
#[local] Open Scope Z_scope.

Definition MAX_SOCKS : Z := 64.

Section SwitchKern.
Context `{BpfHelpers}.

(** [counts] is [xdp_stats_map] of this CPU: an array, so the lookup fails for
    keys of 64 and above only.  The result is the verdict and the array. *)
Definition xdp_sock_prog (xsks_map : Z -> option Z) (ctx : xdp_md) (counts : list Z)
    : Z * list Z :=
  let index := rx_queue_index ctx in
  let rest counts :=
    match xsks_map index with
    | Some _ => (bpf_redirect_map xsks_map index 0, counts)
    | None => (XDP_PASS, counts)
    end in
  if (0 <=? index) && (index <? MAX_SOCKS) then
    let pkt_count := getZ counts index in
    let counts := setZ counts index (u32 (pkt_count + 1)) in
    if negb (Z.land pkt_count 1 =? 0) then (bpf_redirect 9 0, counts)
    else rest counts
  else rest counts.

Definition xdp_redirect (xsks_map qidconf_map : Z -> option Z) (ctx : xdp_md) : Z :=
  let index := rx_queue_index ctx in
  match qidconf_map index with
  | Some _ => bpf_redirect_map xsks_map index 0
  | None => XDP_DROP
  end.

(** The verdicts of a sequence of packets. *)
Fixpoint run_sock_prog (xsks_map : Z -> option Z) (pkts : list xdp_md) (counts : list Z)
    : list Z * list Z :=
  match pkts with
  | [] => ([], counts)
  | c :: pkts' =>
      let '(v, counts) := xdp_sock_prog xsks_map c counts in
      let '(vs, counts) := run_sock_prog xsks_map pkts' counts in
      (v :: vs, counts)
  end.
End SwitchKern.

Section Specs.
Context `{BpfHelpers}.
Implicit Types (m : Z -> option Z) (q : Z).

(** Where a packet of queue [q] goes when it is not passed on directly. *)
Definition steer m q : Z :=
  match m q with Some _ => bpf_redirect_map m q 0 | None => XDP_PASS end.

(** The reference: the [n]-th packet of a queue (counting from 0, from the value
    the counter started with) goes to the socket when [n] is even. *)
Definition nth_verdict m q (n : Z) : Z := if Z.even n then steer m q else bpf_redirect 9 0.

Definition counts_ok (counts : list Z) : Prop := length counts = 64%nat /\ Forall is_u32 counts.

Lemma sock_prog_spec m c counts :
  counts_ok counts -> 0 <= rx_queue_index c < 64 ->
  xdp_sock_prog m c counts =
    (nth_verdict m (rx_queue_index c) (getZ counts (rx_queue_index c)),
     setZ counts (rx_queue_index c) (u32 (getZ counts (rx_queue_index c) + 1))).
Proof.
  intros [Hl Hu] Hq. unfold xdp_sock_prog, nth_verdict, steer, MAX_SOCKS.
  replace (_ && _)%bool with true by lia.
  rewrite (Z.land_ones _ 1) by lia. change (2 ^ 1) with 2. rewrite Zmod_even.
  destruct (Z.even _); [|done]. simpl. by destruct (m _).
Qed.

Lemma counts_ok_bump counts q :
  counts_ok counts -> counts_ok (setZ counts q (u32 (getZ counts q + 1))).
Proof. intros [Hl Hu]. split; [by rewrite length_setZ|]. apply Forall_setZ; auto with ints. Qed.

Lemma u32_even n : Z.even (u32 n) = Z.even n.
Proof.
  unfold u32. rewrite (Z_div_mod_eq_full n 4294967296) at 2.
  replace (4294967296 * (n / 4294967296)) with (2 * (2147483648 * (n / 4294967296))) by lia.
  by rewrite Z.even_add_mul_2 || (rewrite Z.add_comm, Z.even_add_mul_2).
Qed.

Lemma nth_verdict_u32 m q n : nth_verdict m q (u32 n) = nth_verdict m q n.
Proof. unfold nth_verdict. by rewrite u32_even. Qed.

(** The verdicts the packets of queue [q] get in a run. *)
Definition verdicts_of (q : Z) (pkts : list xdp_md) (vs : list Z) : list Z :=
  map snd (filter (fun cv => rx_queue_index (fst cv) = q) (zip pkts vs)).

Lemma run_sock_prog_queue m q pkts : forall counts c0,
  counts_ok counts -> 0 <= q < 64 -> u32 c0 = getZ counts q ->
  Forall (fun c => 0 <= rx_queue_index c < 64) pkts ->
  let '(vs, counts') := run_sock_prog m pkts counts in
  let n := length (filter (fun c => rx_queue_index c = q) pkts) in
  counts_ok counts' /\ length vs = length pkts /\
  verdicts_of q pkts vs = map (fun i => nth_verdict m q (c0 + Z.of_nat i)) (seq 0 n) /\
  getZ counts' q = u32 (c0 + Z.of_nat n).
Proof.
  induction pkts as [|c pkts IH]; intros counts c0 Hc Hq H0 Hp; cbn [run_sock_prog].
  { split_and!; try done. by rewrite Z.add_0_r. }
  apply Forall_cons_1 in Hp as [Hp1 Hp]. rewrite sock_prog_spec by done.
  set (counts1 := setZ _ _ _). assert (counts_ok counts1) as Hc1 by by apply counts_ok_bump.
  destruct (decide (rx_queue_index c = q)) as [Hcq|Hcq].
  - specialize (IH counts1 (c0 + 1) Hc1 Hq).
    destruct (run_sock_prog m pkts counts1) as [vs counts'].
    destruct IH as (? & Hvl & Hv & Hn); [|done|].
    { subst q counts1. destruct Hc as [Hl _]. rewrite getZ_setZ_eq by lia. rewrite <- H0.
      symmetry. apply u32_add. }
    unfold verdicts_of in *. rewrite !filter_cons_True by done. cbn [length zip zip_with map seq].
    rewrite filter_cons_True by done. cbn [map length seq]. split_and!; [done|lia| |].
    + f_equal; [rewrite Hcq, <- H0, nth_verdict_u32; by simpl; rewrite Z.add_0_r|]. rewrite Hv.
      rewrite <- seq_shift, map_map. apply map_ext. intros i. f_equal. lia.
    + rewrite Hn. f_equal. lia.
  - specialize (IH counts1 c0 Hc1 Hq).
    destruct (run_sock_prog m pkts counts1) as [vs counts'].
    destruct IH as (? & Hvl & Hv & Hn); [|done|].
    { subst counts1. rewrite getZ_setZ_ne by lia. done. }
    unfold verdicts_of in *. rewrite !filter_cons_False by done. cbn [length zip zip_with].
    rewrite filter_cons_False by done. split_and!; [done|lia|done|done].
Qed.
End Specs.

(** C18: on any interleaving of packets of different receive queues, the packets
    of one queue alternate between the queue's AF_XDP socket (or the network stack
    when the queue has none) and interface 9, from the parity its 32-bit counter
    had, which counts them modulo 2^32. *)
Theorem sock_prog_alternates `{BpfHelpers} (m : Z -> option Z) (q : Z) (pkts : list xdp_md)
    (counts : list Z) :
  counts_ok counts -> 0 <= q < MAX_SOCKS ->
  Forall (fun c => 0 <= rx_queue_index c < MAX_SOCKS) pkts ->
  let '(vs, counts') := run_sock_prog m pkts counts in
  let n := length (filter (fun c => rx_queue_index c = q) pkts) in
  verdicts_of q pkts vs =
    map (fun i => nth_verdict m q (getZ counts q + Z.of_nat i)) (seq 0 n) /\
  getZ counts' q = u32 (getZ counts q + Z.of_nat n).
Proof.
  intros Hc Hq Hp.
  pose proof (run_sock_prog_queue m q pkts counts (getZ counts q) Hc Hq) as Hr.
  destruct (run_sock_prog m pkts counts) as [vs counts'].
  destruct Hr as (_ & _ & ? & ?); [|done|done].
  apply u32_small, (getZ_Forall is_u32); destruct Hc as [Hl Hu]; [done|].
  unfold MAX_SOCKS in Hq. lia.
Qed.

Lemma sock_prog_alternates_witness :
  let m := fun k => if k =? 0 then Some 7 else None in
  let pkts := map (Xdp_md 0 64 3) [0; 1; 0; 0; 1] in
  let '(vs, counts') := run_sock_prog m pkts (repeat 4 64) in
  verdicts_of 0 pkts vs = [XDP_REDIRECT; bpf_redirect 9 0; XDP_REDIRECT] /\ getZ counts' 0 = 7.
Proof.
  assert (counts_ok (repeat 4 64)) as Hc.
  { split; [reflexivity|]. apply List.Forall_forall. intros x Hx.
    apply repeat_spec in Hx. subst. int_solve. }
  assert (Forall (fun c => 0 <= rx_queue_index c < MAX_SOCKS)
            (map (Xdp_md 0 64 3) [0; 1; 0; 0; 1])) as Hp
    by (repeat constructor; unfold MAX_SOCKS; simpl; lia).
  pose proof (sock_prog_alternates (fun k => if k =? 0 then Some 7 else None) 0
                (map (Xdp_md 0 64 3) [0; 1; 0; 0; 1]) (repeat 4 64) Hc
                ltac:(unfold MAX_SOCKS; lia) Hp) as Ht.
  clear Hc Hp. vm_compute in Ht |- *. exact Ht.
Defined.
