(* ===== verification/Ring.v ===== *)
(** * The shared rings: libbpf/src/xsk.h

    A ring is shared between the program and the kernel: the producer and the
    consumer index live in shared memory, each written by one side, and the program
    keeps cached copies of both.  All indices are 32-bit counters that wrap.
    The invariants are stated on wrapped differences, so they hold across the
    wrap-around; the queue a ring stands for is read off the indices.  The theorems
    show that the batched operations of xsk.h implement a bounded FIFO queue. *)

From S2P Require Import Prelude.
#[local] Open Scope Z_scope.

(** [struct xsk_ring_prod] and [struct xsk_ring_cons] (the same macro); [slots] is
    the memory behind [ring], [producer] and [consumer] the shared indices. *)
Record xsk_ring (A : Type) := Xsk_ring {
  cached_prod : Z;
  cached_cons : Z;
  mask : Z;
  size : Z;
  producer : Z;
  consumer : Z;
  slots : list A
}.
Arguments Xsk_ring {A}.
Arguments cached_prod {A}. Arguments cached_cons {A}. Arguments mask {A}.
Arguments size {A}. Arguments producer {A}. Arguments consumer {A}. Arguments slots {A}.

Section Ops.
Context {A : Type}.
Implicit Types r : xsk_ring A.

Definition set_cached_prod r (v : Z) : xsk_ring A :=
  Xsk_ring v (cached_cons r) (mask r) (size r) (producer r) (consumer r) (slots r).
Definition set_cached_cons r (v : Z) : xsk_ring A :=
  Xsk_ring (cached_prod r) v (mask r) (size r) (producer r) (consumer r) (slots r).
Definition set_producer r (v : Z) : xsk_ring A :=
  Xsk_ring (cached_prod r) (cached_cons r) (mask r) (size r) v (consumer r) (slots r).
Definition set_consumer r (v : Z) : xsk_ring A :=
  Xsk_ring (cached_prod r) (cached_cons r) (mask r) (size r) (producer r) v (slots r).
Definition set_slots r (v : list A) :=
  Xsk_ring (cached_prod r) (cached_cons r) (mask r) (size r) (producer r) (consumer r) v.

(** The accessors of the four rings are the same index computation; a read through
    the pointer is a read of the slot, a write an update of it. *)
Definition slot_index r (idx : Z) : nat := Z.to_nat (Z.land idx (mask r)).
Definition xsk_ring_cons__comp_addr r (idx : Z) : option A := slots r !! slot_index r idx.
Definition xsk_ring_cons__rx_desc r (idx : Z) : option A := slots r !! slot_index r idx.
Definition xsk_ring_prod__fill_addr r (idx : Z) (v : A) : option (xsk_ring A) :=
  if decide (slot_index r idx < length (slots r))%nat
  then Some (set_slots r (<[slot_index r idx := v]> (slots r))) else None.
Definition xsk_ring_prod__tx_desc r (idx : Z) (v : A) : option (xsk_ring A) :=
  if decide (slot_index r idx < length (slots r))%nat
  then Some (set_slots r (<[slot_index r idx := v]> (slots r))) else None.

Definition xsk_prod_nb_free r (nb : Z) : Z * xsk_ring A :=
  let free_entries := u32 (cached_cons r - cached_prod r) in
  if free_entries >=? nb then (free_entries, r)
  else
    let r := set_cached_cons r (u32 (consumer r + size r)) in
    (u32 (cached_cons r - cached_prod r), r).

Definition xsk_cons_nb_avail r (nb : Z) : Z * xsk_ring A :=
  let entries := u32 (cached_prod r - cached_cons r) in
  let '(entries, r) :=
    if entries =? 0 then
      let r := set_cached_prod r (producer r) in
      (u32 (cached_prod r - cached_cons r), r)
    else (entries, r) in
  (if entries >? nb then nb else entries, r).

(** The result is the count; [idx] is left as it was when nothing was reserved. *)
Definition xsk_ring_prod__reserve r (nb idx : Z) : Z * Z * xsk_ring A :=
  let '(n, r) := xsk_prod_nb_free r (u32 nb) in
  if n <? nb then (0, idx, r)
  else (nb, cached_prod r, set_cached_prod r (u32 (cached_prod r + nb))).

Definition xsk_ring_prod__submit r (nb : Z) : xsk_ring A :=
  set_producer r (u32 (producer r + nb)).

Definition xsk_ring_cons__peek r (nb idx : Z) : Z * Z * xsk_ring A :=
  let '(entries, r) := xsk_cons_nb_avail r (u32 nb) in
  if entries >? 0 then (entries, cached_cons r, set_cached_cons r (u32 (cached_cons r + entries)))
  else (entries, idx, r).

Definition xsk_ring_cons__release r (nb : Z) : xsk_ring A :=
  set_consumer r (u32 (consumer r + nb)).

(** [xsk_ring_prod__free] of switchtsn/af_xdp_user.c. *)
Definition xsk_ring_prod__free r : Z * xsk_ring A :=
  let r := set_cached_cons r (u32 (consumer r + size r)) in
  (u32 (cached_cons r - cached_prod r), r).
End Ops.

(** [xsk_umem__extract_addr] and its companions: an unaligned address carries its
    offset in the upper 16 bits. *)
Definition XSK_UNALIGNED_BUF_OFFSET_SHIFT : Z := 48.
Definition XSK_UNALIGNED_BUF_ADDR_MASK : Z := Z.shiftl 1 XSK_UNALIGNED_BUF_OFFSET_SHIFT - 1.
Definition xsk_umem__extract_addr (addr : Z) : Z := Z.land addr XSK_UNALIGNED_BUF_ADDR_MASK.
Definition xsk_umem__extract_offset (addr : Z) : Z := Z.shiftr addr XSK_UNALIGNED_BUF_OFFSET_SHIFT.
Definition xsk_umem__add_offset_to_addr (addr : Z) : Z :=
  u64 (xsk_umem__extract_addr addr + xsk_umem__extract_offset addr).

(** ** The kernel's side of a ring *)

Section Kernel.
Context {A : Type}.
Implicit Types r : xsk_ring A.
(** Taking the oldest entry and adding a new one; the kernel only touches the index
    it owns and slots the program does not read. *)
Definition kernel_take r : xsk_ring A := set_consumer r (u32 (consumer r + 1)).
Definition kernel_put r (v : A) : xsk_ring A :=
  set_producer (set_slots r (<[slot_index r (producer r) := v]> (slots r)))
    (u32 (producer r + 1)).
End Kernel.

(** ** Slots *)

Record ring_wf {A} (r : xsk_ring A) : Prop := Ring_wf {
  wf_pow : exists k, 0 <= k <= 31 /\ size r = 2 ^ k;
  wf_mask : mask r = size r - 1;
  wf_slots : lenZ (slots r) = size r;
  wf_cp : is_u32 (cached_prod r);
  wf_cc : is_u32 (cached_cons r);
  wf_p : is_u32 (producer r);
  wf_c : is_u32 (consumer r)
}.

Section Slots.
Context {A : Type} `{Inhabited A}.
Implicit Types r : xsk_ring A.

Definition slot r (i : Z) : A := slots r !!! slot_index r i.
(** The [n] entries from index [start] on. *)
Definition entries r (start : Z) (n : nat) : list A :=
  map (fun i => slot r (start + Z.of_nat i)) (seq 0 n).

Lemma size_range r : ring_wf r -> 1 <= size r <= 2147483648.
Proof.
  intros W. destruct (wf_pow r W) as (k & Hk & ->).
  pose proof (Z.pow_le_mono_r 2 k 31 ltac:(lia) ltac:(lia)).
  pose proof (Z.pow_pos_nonneg 2 k ltac:(lia) ltac:(lia)). lia.
Qed.
Lemma slot_index_mod r i : ring_wf r -> slot_index r i = Z.to_nat (i mod size r).
Proof.
  intros W. unfold slot_index. destruct (wf_pow r W) as (k & Hk & Hs).
  rewrite (wf_mask r W), Hs, <- Z.land_ones by lia. f_equal. f_equal.
  rewrite Z.ones_equiv. lia.
Qed.
Lemma slot_index_lt r i : ring_wf r -> (slot_index r i < length (slots r))%nat.
Proof.
  intros W. rewrite slot_index_mod by done. pose proof (size_range r W).
  pose proof (wf_slots r W). pose proof (Z.mod_pos_bound i (size r)). lia.
Qed.
Lemma slot_index_u32 r i : ring_wf r -> slot_index r (u32 i) = slot_index r i.
Proof.
  intros W. rewrite !slot_index_mod by done. f_equal.
  destruct (wf_pow r W) as (k & Hk & ->). unfold u32.
  change 4294967296 with (2 ^ 32). replace 32 with (k + (32 - k)) by lia.
  rewrite Z.pow_add_r by lia. rewrite Z.rem_mul_r by lia.
  rewrite (Z.mul_comm (2 ^ k)), Z_mod_plus_full. apply Zmod_mod.
Qed.
Lemma slot_index_ne r i j :
  ring_wf r -> i < j < i + size r -> slot_index r i <> slot_index r j.
Proof.
  intros W Hij. rewrite !slot_index_mod by done. pose proof (size_range r W) as Hs.
  pose proof (Z.mod_pos_bound i (size r) ltac:(lia)).
  pose proof (Z.mod_pos_bound j (size r) ltac:(lia)). intros Heq.
  assert (i mod size r = j mod size r) as E by lia. clear Heq.
  assert ((j - i) mod size r = 0) as E0 by (rewrite Zminus_mod, E, Z.sub_diag; apply Zmod_0_l).
  rewrite Z.mod_small in E0; lia.
Qed.

Lemma slot_u32 r i : ring_wf r -> slot r (u32 i) = slot r i.
Proof. intros. unfold slot. by rewrite slot_index_u32. Qed.
Lemma lookup_slot r i : ring_wf r -> slots r !! slot_index r i = Some (slot r i).
Proof. intros W. apply list_lookup_lookup_total_lt. by apply slot_index_lt. Qed.

Lemma entries_length r s n : length (entries r s n) = n.
Proof. unfold entries. by rewrite length_map, length_seq. Qed.
Lemma entries_cons r s n : entries r s (S n) = slot r s :: entries r (s + 1) n.
Proof.
  unfold entries. cbn [seq map]. rewrite Z.add_0_r. f_equal.
  rewrite <- seq_shift, map_map. apply map_ext. intros i. f_equal. lia.
Qed.
Lemma entries_app r n : forall s m,
  entries r s (n + m) = entries r s n ++ entries r (s + Z.of_nat n) m.
Proof.
  induction n as [|n IH]; intros s m; [unfold entries; simpl; by rewrite Z.add_0_r|].
  cbn [Nat.add app]. rewrite !entries_cons, IH. cbn [app].
  replace (s + 1 + Z.of_nat n) with (s + Z.of_nat (S n)) by lia. done.
Qed.
Lemma entries_snoc r s n : entries r s (S n) = entries r s n ++ [slot r (s + Z.of_nat n)].
Proof. replace (S n) with (n + 1)%nat by lia. by rewrite entries_app, entries_cons. Qed.
Lemma entries_ext r r' s s' n :
  (forall i, 0 <= i < Z.of_nat n -> slot r (s + i) = slot r' (s' + i)) ->
  entries r s n = entries r' s' n.
Proof.
  intros He. unfold entries. apply map_ext_in. intros i Hi. apply in_seq in Hi.
  apply He. lia.
Qed.
Lemma entries_u32 r s n : ring_wf r -> entries r (u32 s) n = entries r s n.
Proof.
  intros W. apply entries_ext. intros i Hi. rewrite <- (slot_u32 r (u32 s + i)) by done.
  by rewrite u32_add, slot_u32.
Qed.
Lemma entries_drop r n : forall s m, (m <= n)%nat ->
  drop m (entries r s n) = entries r (s + Z.of_nat m) (n - m).
Proof.
  intros s m Hm. replace n with (m + (n - m))%nat at 1 by lia. rewrite entries_app.
  rewrite drop_app_le by (rewrite entries_length; lia).
  by rewrite drop_ge by (rewrite entries_length; lia).
Qed.
Lemma entries_lookup r s n i : (i < n)%nat ->
  entries r s n !! i = Some (slot r (s + Z.of_nat i)).
Proof.
  intros Hi. unfold entries. rewrite list_lookup_fmap, lookup_seq_lt by lia. done.
Qed.

(** Writing one slot. *)
Definition write r (idx : Z) (v : A) := set_slots r (<[slot_index r idx := v]> (slots r)).
Lemma write_wf r idx v : ring_wf r -> ring_wf (write r idx v).
Proof. intros [? ? ? ? ? ? ?]. split; simpl; auto. by rewrite length_insert. Qed.
Lemma slot_write_eq r i v : ring_wf r -> slot (write r i v) i = v.
Proof.
  intros W. unfold slot. change (slot_index (write r i v) i) with (slot_index r i).
  apply list_lookup_total_insert_eq. by apply slot_index_lt.
Qed.
Lemma slot_write_ne r i j v :
  ring_wf r -> i < j < i + size r \/ j < i < j + size r -> slot (write r i v) j = slot r j.
Proof.
  intros W Hij. unfold slot. change (slot_index (write r i v) j) with (slot_index r j).
  apply list_lookup_total_insert_ne. destruct Hij.
  - by apply slot_index_ne.
  - intros Heq. by eapply (slot_index_ne r j i).
Qed.
(** Writing just behind a run of entries leaves the run alone. *)
Lemma entries_write r s n v :
  ring_wf r -> Z.of_nat n < size r ->
  entries (write r (s + Z.of_nat n) v) s n = entries r s n.
Proof. intros W Hn. apply entries_ext. intros i Hi. apply slot_write_ne; [done|lia]. Qed.
Lemma entries_write_snoc r s n v :
  ring_wf r -> Z.of_nat n < size r ->
  entries (write r (s + Z.of_nat n) v) s (S n) = entries r s n ++ [v].
Proof.
  intros W Hn. rewrite entries_snoc, entries_write by done. by rewrite slot_write_eq.
Qed.
Lemma write_u32 r i v : ring_wf r -> write r (u32 i) v = write r i v.
Proof. intros W. unfold write. by rewrite slot_index_u32. Qed.

Lemma fill_addr_ok r i v : ring_wf r -> xsk_ring_prod__fill_addr r i v = Some (write r i v).
Proof.
  intros W. unfold xsk_ring_prod__fill_addr.
  by rewrite decide_True by by apply slot_index_lt.
Qed.
Lemma tx_desc_ok r i v : ring_wf r -> xsk_ring_prod__tx_desc r i v = Some (write r i v).
Proof. apply fill_addr_ok. Qed.
Lemma comp_addr_ok r i : ring_wf r -> xsk_ring_cons__comp_addr r i = Some (slot r i).
Proof. apply lookup_slot. Qed.
Lemma rx_desc_ok r i : ring_wf r -> xsk_ring_cons__rx_desc r i = Some (slot r i).
Proof. apply lookup_slot. Qed.
End Slots.

(** ** A ring the program produces into (fill, tx) *)

Section Prod.
Context {A : Type} `{Inhabited A}.
Implicit Types r : xsk_ring A.

(** Submitted and not yet taken by the kernel; reserved and not submitted; known
    to be free; freed by the kernel since the program last looked. *)
Definition filled r := u32 (producer r - consumer r).
Definition pending r := u32 (cached_prod r - producer r).
Definition seen_free r := u32 (cached_cons r - cached_prod r).
Definition unseen_free r := u32 (consumer r + size r - cached_cons r).
(** The four parts make up the ring: no slot is in two of them. *)
Definition prod_inv r : Prop :=
  ring_wf r /\ filled r + pending r + seen_free r + unseen_free r = size r.

(** The queue: what the kernel can take, oldest first. *)
Definition prod_queue r : list A := entries r (consumer r) (Z.to_nat (filled r)).
(** What the program has reserved, from the index [reserve] returned. *)
Definition reserved r (n : nat) : list A := entries r (producer r) n.

Lemma prod_parts r : ring_wf r ->
  is_u32 (filled r) /\ is_u32 (pending r) /\ is_u32 (seen_free r) /\ is_u32 (unseen_free r).
Proof. intros. split_and!; apply u32_range. Qed.

Lemma refresh_inv r :
  prod_inv r -> let r' := set_cached_cons r (u32 (consumer r + size r)) in
  prod_inv r' /\ seen_free r' = seen_free r + unseen_free r /\ unseen_free r' = 0.
Proof.
  intros [W Hs] r'. pose proof (size_range r W). destruct W as [Wk Wm Ws W1 W2 W3 W4].
  assert (seen_free r' = seen_free r + unseen_free r /\ unseen_free r' = 0) as [E1 E2].
  { subst r'. unfold filled, pending, seen_free, unseen_free in *; simpl. int_solve. }
  split; [|done]. split; [subst r'; split; simpl; auto with ints|].
  rewrite E1, E2. change (filled r') with (filled r). change (pending r') with (pending r).
  change (size r') with (size r). lia.
Qed.

(** The fields [nb_free] does not touch. *)
Definition same_entries r r' : Prop :=
  slots r' = slots r /\ producer r' = producer r /\ consumer r' = consumer r /\
  mask r' = mask r /\ size r' = size r.

Lemma same_entries_queue r r' :
  same_entries r r' -> filled r' = filled r -> prod_queue r' = prod_queue r.
Proof.
  intros (S1 & S2 & S3 & S4 & S5) F. unfold prod_queue. rewrite F, S3.
  apply entries_ext. intros i _. unfold slot, slot_index. by rewrite S1, S4.
Qed.

Lemma prod_nb_free_spec r nb :
  prod_inv r -> 0 <= nb ->
  let '(n, r') := xsk_prod_nb_free r nb in
  prod_inv r' /\ n = seen_free r' /\ filled r' = filled r /\ pending r' = pending r /\
  same_entries r r' /\ cached_prod r' = cached_prod r /\
  (n < nb -> unseen_free r' = 0).
Proof.
  intros Hr Hnb. unfold xsk_prod_nb_free. fold (seen_free r).
  destruct (Z.geb_spec (seen_free r) nb); [split_and!; try done; lia|].
  by destruct (refresh_inv r Hr) as (? & ? & ?).
Qed.

(** A reservation succeeds exactly when the ring has the room, counting what the
    kernel has freed meanwhile; it never hands out a slot that is in use. *)
Lemma reserve_spec r nb idx :
  prod_inv r -> is_u32 nb ->
  let '(n, idx', r') := xsk_ring_prod__reserve r nb idx in
  prod_inv r' /\ same_entries r r' /\ filled r' = filled r /\
  ((n = nb /\ idx' = cached_prod r /\ nb <= size r - filled r - pending r /\
    pending r' = pending r + nb) \/
   (n = 0 /\ idx' = idx /\ size r - filled r - pending r < nb /\ pending r' = pending r)).
Proof.
  intros Hr Hnb. unfold xsk_ring_prod__reserve. rewrite u32_small by done.
  pose proof (prod_nb_free_spec r nb Hr (proj1 Hnb)) as Hf.
  destruct (xsk_prod_nb_free r nb) as [n r1]. destruct Hf as (H1 & -> & F & P & S & Cp & Hlow).
  destruct S as (S1 & S2 & S3 & S4 & S5). pose proof H1 as [W1 Hs1].
  pose proof (prod_parts r1 W1) as (? & ? & ? & ?). pose proof (size_range r1 W1).
  destruct (Z.ltb_spec (seen_free r1) nb) as [Hlt|Hge].
  { split_and!; try done. right. specialize (Hlow Hlt). split_and!; try done; lia. }
  set (r2 := set_cached_prod r1 _).
  assert (pending r2 = pending r1 + nb /\ seen_free r2 = seen_free r1 - nb) as [E1 E2].
  { destruct W1 as [_ _ _ ? ? ? ?]. clear Hlow. subst r2.
    unfold filled, pending, seen_free, unseen_free, is_u32 in *; simpl. int_solve. }
  split_and!; try done.
  - split; [subst r2; destruct W1; split; simpl; auto with ints|].
    rewrite E1, E2. change (filled r2) with (filled r1). change (unseen_free r2) with (unseen_free r1).
    change (size r2) with (size r1). lia.
  - left. unfold is_u32 in *. split_and!; [done|by rewrite <- Cp|lia|lia].
Qed.

Lemma submit_spec r nb :
  prod_inv r -> 0 <= nb <= pending r ->
  let r' := xsk_ring_prod__submit r nb in
  prod_inv r' /\ filled r' = filled r + nb /\ pending r' = pending r - nb /\
  consumer r' = consumer r /\ slots r' = slots r /\ size r' = size r /\ mask r' = mask r.
Proof.
  intros [W Hs] Hnb r'. pose proof (size_range r W). pose proof (prod_parts r W) as (? & ? & ? & ?).
  assert (filled r' = filled r + nb /\ pending r' = pending r - nb) as [E1 E2].
  { destruct W as [_ _ _ ? ? ? ?]. subst r'.
    unfold filled, pending, seen_free, unseen_free, is_u32 in *; simpl. int_solve. }
  split_and!; try done. split; [subst r'; destruct W; split; simpl; auto with ints|].
  rewrite E1, E2. change (seen_free r') with (seen_free r).
  change (unseen_free r') with (unseen_free r). change (size r') with (size r). lia.
Qed.

Lemma kernel_take_spec r :
  prod_inv r -> 0 < filled r ->
  prod_inv (kernel_take r) /\ pending (kernel_take r) = pending r /\
  filled (kernel_take r) = filled r - 1 /\
  prod_queue r = slot r (consumer r) :: prod_queue (kernel_take r).
Proof.
  intros [W Hs] Hf. pose proof (size_range r W). pose proof (prod_parts r W) as (? & ? & ? & ?).
  assert (filled (kernel_take r) = filled r - 1 /\
          unseen_free (kernel_take r) = unseen_free r + 1) as [E1 E2].
  { destruct W as [_ _ _ ? ? ? ?].
    unfold kernel_take, filled, pending, seen_free, unseen_free, is_u32 in *; simpl. int_solve. }
  split_and!; [|done|done|].
  - split; [destruct W; split; simpl; auto with ints|].
    rewrite E1, E2. change (seen_free (kernel_take r)) with (seen_free r).
    change (pending (kernel_take r)) with (pending r).
    change (size (kernel_take r)) with (size r). lia.
  - unfold prod_queue. rewrite E1.
    replace (Z.to_nat (filled r)) with (S (Z.to_nat (filled r - 1))) by lia.
    rewrite entries_cons. f_equal. simpl. by rewrite <- (entries_u32 r (consumer r + 1)).
Qed.

Lemma write_inv r i v : prod_inv r -> prod_inv (write r i v).
Proof. intros [W Hs]. split; [by apply write_wf|done]. Qed.

(** Writing behind [n] reserved entries extends them; the queue stays. *)
Lemma producer_consumer r : ring_wf r -> u32 (consumer r + filled r) = producer r.
Proof. intros [_ _ _ ? ? ? ?]. unfold filled. int_solve. Qed.
Lemma write_reserved r n v :
  prod_inv r -> Z.of_nat n < pending r ->
  reserved (write r (producer r + Z.of_nat n) v) (S n) = reserved r n ++ [v] /\
  prod_queue (write r (producer r + Z.of_nat n) v) = prod_queue r.
Proof.
  intros [W Hs] Hn. pose proof (prod_parts r W) as (? & ? & ? & ?).
  unfold is_u32 in *. split; [apply (entries_write_snoc r); [done|lia]|].
  unfold prod_queue. change (filled (write r (producer r + Z.of_nat n) v)) with (filled r).
  change (consumer (write r (producer r + Z.of_nat n) v)) with (consumer r).
  rewrite <- (write_u32 r (producer r + Z.of_nat n)), <- (producer_consumer r), u32_add,
    write_u32 by done.
  apply entries_ext. intros i Hi. apply slot_write_ne; [done|lia].
Qed.

(** Submitting turns the first reserved entries into the tail of the queue. *)
Lemma submit_queue r n :
  prod_inv r -> Z.of_nat n <= pending r ->
  prod_queue (xsk_ring_prod__submit r (Z.of_nat n)) = prod_queue r ++ reserved r n.
Proof.
  intros Hr Hn. destruct (submit_spec r (Z.of_nat n) Hr ltac:(lia)) as (_ & F & _).
  pose proof Hr as [W Hs]. pose proof (prod_parts r W) as (Hf & _). unfold is_u32 in Hf.
  unfold prod_queue, reserved. rewrite F. change (consumer (xsk_ring_prod__submit r _)) with (consumer r).
  replace (Z.to_nat (filled r + Z.of_nat n)) with (Z.to_nat (filled r) + n)%nat by lia.
  change (entries (xsk_ring_prod__submit r (Z.of_nat n))) with (entries r).
  rewrite entries_app. f_equal. rewrite Z2Nat.id by lia.
  by rewrite <- (producer_consumer r), entries_u32.
Qed.
End Prod.

(** ** A ring the program consumes from (rx, completion) *)

Section Cons.
Context {A : Type} `{Inhabited A}.
Implicit Types r : xsk_ring A.

(** Peeked and not released; known and not peeked; produced since the program
    last looked. *)
Definition held r := u32 (cached_cons r - consumer r).
Definition avail r := u32 (cached_prod r - cached_cons r).
Definition unseen r := u32 (producer r - cached_prod r).
Definition cons_inv r : Prop := ring_wf r /\ held r + avail r + unseen r <= size r.

(** All entries in the ring, oldest first; the first [held] are the program's. *)
Definition cons_queue r : list A :=
  entries r (consumer r) (Z.to_nat (held r + avail r + unseen r)).

Lemma cons_parts r : 0 <= held r /\ 0 <= avail r /\ 0 <= unseen r.
Proof. unfold held, avail, unseen. split_and!; apply u32_range. Qed.
Lemma cons_total r : ring_wf r -> held r + avail r + unseen r <= size r ->
  held r + avail r + unseen r = u32 (producer r - consumer r).
Proof.
  intros W Hs. pose proof (size_range r W). destruct W as [_ _ _ ? ? ? ?].
  unfold held, avail, unseen in *. int_solve.
Qed.

(** [peek] hands out entries the kernel has produced, at most [nb], and none only
    when there are none. *)
Lemma peek_spec r nb idx :
  cons_inv r -> 0 < nb < 4294967296 ->
  let '(n, idx', r') := xsk_ring_cons__peek r nb idx in
  cons_inv r' /\ cons_queue r' = cons_queue r /\ consumer r' = consumer r /\
  slots r' = slots r /\ mask r' = mask r /\ size r' = size r /\
  held r' = held r + n /\ 0 <= n <= nb /\
  (n = 0 -> held r' + avail r' + unseen r' = held r' /\ idx' = idx) /\
  (0 < n -> idx' = cached_cons r).
Proof.
  intros [W Hs] Hnb. unfold xsk_ring_cons__peek, xsk_cons_nb_avail.
  rewrite (u32_small nb) by (unfold is_u32; lia). fold (avail r).
  pose proof (size_range r W) as Hsz. pose proof (cons_parts r) as (P1 & P2 & P3).
  set (r1 := if avail r =? 0 then set_cached_prod r (producer r) else r).
  assert (cons_inv r1 /\ held r1 = held r /\ consumer r1 = consumer r /\ slots r1 = slots r /\
    mask r1 = mask r /\ size r1 = size r /\ cached_cons r1 = cached_cons r /\
    avail r1 + unseen r1 = avail r + unseen r /\ (avail r1 = 0 -> unseen r1 = 0))
    as ([W1 Hs1] & Hh & Hc & Hsl & Hm & Hz & Hcc & Hau & Hzero).
  { subst r1. destruct (Z.eqb_spec (avail r) 0) as [E|E]; [|by split_and!].
    destruct W as [? ? ? ? ? ? ?]. unfold cons_inv, held, avail, unseen in *; simpl.
    split_and!; try done; try (split; simpl; done); int_solve. }
  replace (if avail r =? 0 then _ else _) with (avail r1, r1)
    by (unfold r1, avail; by destruct (_ =? 0)).
  set (n := if avail r1 >? nb then nb else avail r1).
  pose proof (cons_parts r1) as (Q1 & Q2 & Q3).
  assert (0 <= n <= nb /\ n <= avail r1 /\ (n = 0 -> avail r1 = 0)) as (Hn1 & Hn2 & Hn0).
  { unfold n. rewrite Z.gtb_ltb. destruct (Z.ltb_spec nb (avail r1)); lia. }
  rewrite Z.gtb_ltb. destruct (Z.ltb_spec 0 n) as [Hpos|Hneg].
  - set (r2 := set_cached_cons r1 _).
    assert (held r2 = held r1 + n /\ avail r2 = avail r1 - n /\ unseen r2 = unseen r1)
      as (E1 & E2 & E3).
    { clear Hzero Hn0 Hau. destruct W1 as [? ? ? ? ? ? ?]. subst r2.
      unfold held, avail, unseen, is_u32 in *; simpl in *. int_solve. }
    split_and!; try done; try lia.
    + split; [destruct W1; split; simpl; auto with ints|].
      rewrite E1, E2, E3. change (size r2) with (size r1). lia.
    + unfold cons_queue. rewrite E1, E2, E3.
      replace (held r1 + n + (avail r1 - n) + unseen r1) with (held r + avail r + unseen r) by lia.
      change (consumer r2) with (consumer r1). rewrite Hc.
      apply entries_ext. intros i Hi. unfold slot, slot_index; simpl. by rewrite Hsl, Hm.
  - split_and!; try done; try lia.
    unfold cons_queue. rewrite Hh, Hc.
    replace (held r + avail r1 + unseen r1) with (held r + avail r + unseen r) by lia.
    apply entries_ext. intros i Hi. unfold slot, slot_index; simpl. by rewrite Hsl, Hm.
Qed.

Lemma release_spec r n :
  cons_inv r -> Z.of_nat n <= held r ->
  let r' := xsk_ring_cons__release r (Z.of_nat n) in
  cons_inv r' /\ held r' = held r - Z.of_nat n /\ cons_queue r' = drop n (cons_queue r) /\
  avail r' = avail r /\ unseen r' = unseen r /\ slots r' = slots r /\ size r' = size r.
Proof.
  intros [W Hs] Hn r'. pose proof (size_range r W). pose proof (cons_parts r) as (P1 & P2 & P3).
  assert (held r' = held r - Z.of_nat n) as E.
  { destruct W as [_ _ _ ? ? ? ?]. subst r'. unfold held in *; simpl. int_solve. }
  split_and!; try done.
  - split; [subst r'; destruct W; split; simpl; auto with ints|].
    rewrite E. change (avail r') with (avail r). change (unseen r') with (unseen r).
    change (size r') with (size r). lia.
  - unfold cons_queue. rewrite E, entries_drop by lia.
    change (avail r') with (avail r). change (unseen r') with (unseen r).
    change (entries r') with (entries r). subst r'. simpl. rewrite entries_u32 by done.
    f_equal. lia.
Qed.

Lemma kernel_put_spec r v :
  cons_inv r -> held r + avail r + unseen r < size r ->
  cons_inv (kernel_put r v) /\ cons_queue (kernel_put r v) = cons_queue r ++ [v] /\
  held (kernel_put r v) = held r.
Proof.
  intros [W Hs] Hlt. pose proof (size_range r W). pose proof (cons_parts r) as (P1 & P2 & P3).
  pose proof (cons_total r W Hs) as HT.
  assert (unseen (kernel_put r v) = unseen r + 1) as E.
  { destruct W as [_ _ _ ? ? ? ?]. unfold unseen, held, avail in *; simpl. int_solve. }
  split_and!; [split| |done].
  - pose proof (write_wf r (producer r) v W) as [? ? ? ? ? ? ?]. split; simpl in *; auto with ints.
  - rewrite E. change (avail (kernel_put r v)) with (avail r).
    change (held (kernel_put r v)) with (held r). change (size (kernel_put r v)) with (size r). lia.
  - unfold cons_queue. rewrite E. change (avail (kernel_put r v)) with (avail r).
    change (held (kernel_put r v)) with (held r). change (consumer (kernel_put r v)) with (consumer r).
    change (entries (kernel_put r v)) with (entries (write r (producer r) v)).
    replace (Z.to_nat (held r + avail r + (unseen r + 1)))
      with (S (Z.to_nat (held r + avail r + unseen r))) by lia.
    assert (producer r = u32 (consumer r + Z.of_nat (Z.to_nat (held r + avail r + unseen r)))) as ->.
    { rewrite Z2Nat.id, HT by lia. destruct W as [_ _ _ ? ? ? ?]. int_solve. }
    rewrite write_u32 by done. apply entries_write_snoc; [done|lia].
Qed.
End Cons.

(** ** The batched operations implement a bounded FIFO queue *)

(** The loops around the accessors: write a batch, read a batch. *)
Fixpoint write_all {A} (r : xsk_ring A) (idx : Z) (l : list A) : option (xsk_ring A) :=
  match l with
  | [] => Some r
  | v :: l' => match xsk_ring_prod__fill_addr r idx v with
               | Some r' => write_all r' (u32 (idx + 1)) l'
               | None => None
               end
  end.
Fixpoint read_all {A} (r : xsk_ring A) (idx : Z) (n : nat) : option (list A) :=
  match n with
  | O => Some []
  | S n' => match xsk_ring_cons__comp_addr r idx, read_all r (u32 (idx + 1)) n' with
            | Some v, Some l => Some (v :: l)
            | _, _ => None
            end
  end.

Section Fifo.
Context {A : Type} `{Inhabited A}.
Implicit Types r : xsk_ring A.

Lemma write_all_spec l : forall r n idx,
  prod_inv r -> Z.of_nat n + lenZ l <= pending r -> idx = u32 (producer r + Z.of_nat n) ->
  exists r', write_all r idx l = Some r' /\ prod_inv r' /\
    reserved r' (n + length l) = reserved r n ++ l /\ prod_queue r' = prod_queue r /\
    pending r' = pending r /\ filled r' = filled r.
Proof.
  induction l as [|v l IH]; intros r n idx Hr Hn ->; cbn [write_all length] in *.
  { exists r. rewrite Nat.add_0_r, app_nil_r. by split_and!. }
  pose proof Hr as [W _]. rewrite fill_addr_ok, write_u32 by done.
  destruct (write_reserved r n v Hr ltac:(lia)) as [E1 E2].
  destruct (IH (write r (producer r + Z.of_nat n) v) (S n) (u32 (u32 (producer r + Z.of_nat n) + 1)))
    as (r' & Hw & Hr' & Hres & Hq & Hp & Hf);
    [by apply write_inv|change (pending (write _ _ _)) with (pending r); lia| |].
  { rewrite u32_add. simpl. f_equal. lia. }
  exists r'. replace (n + S (length l))%nat with (S n + length l)%nat by lia.
  rewrite Hw, Hres, E1, Hq, E2, <- app_assoc. by split_and!.
Qed.

Lemma read_all_spec n : forall r idx, ring_wf r -> read_all r idx n = Some (entries r idx n).
Proof.
  induction n as [|n IH]; intros r idx W; [done|]. cbn [read_all].
  rewrite comp_addr_ok, IH by done. by rewrite entries_u32, entries_cons.
Qed.
End Fifo.

(** C14: producing a batch (reserve, write, submit) either appends exactly the
    batch to the queue the kernel takes from, or leaves the queue alone because the
    batch does not fit, counting every slot the kernel has freed; the kernel then
    takes the entries in the order they were written.  The indices may wrap. *)
Theorem produce_batch_is_fifo {A} `{Inhabited A} (r : xsk_ring A) (l : list A) (idx : Z) :
  prod_inv r -> pending r = 0 -> is_u32 (lenZ l) ->
  let '(n, idx', r1) := xsk_ring_prod__reserve r (lenZ l) idx in
  if n =? lenZ l then
    exists r2, write_all r1 idx' l = Some r2 /\
      let r3 := xsk_ring_prod__submit r2 n in
      prod_inv r3 /\ pending r3 = 0 /\ prod_queue r3 = prod_queue r ++ l /\
      (forall x q, prod_queue r3 = x :: q ->
         slots r3 !! slot_index r3 (consumer r3) = Some x /\ prod_queue (kernel_take r3) = q)
  else n = 0 /\ size r < lenZ (prod_queue r) + lenZ l /\ prod_queue r1 = prod_queue r.
Proof.
  intros Hr Hp0 Hl. pose proof (reserve_spec r (lenZ l) idx Hr Hl) as HR.
  destruct (xsk_ring_prod__reserve r (lenZ l) idx) as [[n idx'] r1].
  destruct HR as (Hr1 & Hsame & F1 & Hcase).
  pose proof (same_entries_queue r r1 Hsame F1) as Q1.
  destruct Hsame as (S1 & S2 & S3 & S4 & S5).
  assert (lenZ (prod_queue r) = filled r) as Hlen.
  { unfold prod_queue. rewrite entries_length. pose proof (u32_range (producer r - consumer r)) as Hf.
    fold (filled r) in Hf. unfold is_u32 in Hf. lia. }
  destruct Hcase as [(-> & Hi & Hle & P1)|(-> & Hi & Hlt & P1)].
  - rewrite Z.eqb_refl.
    destruct (write_all_spec l r1 0 idx') as (r2 & Hw & Hr2 & Hres & Hq & Hp & Hf); [done|lia| |].
    { subst idx'. rewrite Z.add_0_r, S2. destruct Hr as [[_ _ _ ? ? ? ?] _].
      unfold pending in Hp0. int_solve. }
    exists r2. split; [done|]. intros r3.
    destruct (submit_spec r2 (lenZ l) Hr2 ltac:(lia)) as (Hr3 & _ & Hp3 & _).
    split_and!; [done|subst r3; lia| |].
    + subst r3. rewrite submit_queue by (done || lia). rewrite Hq, Q1. by f_equal.
    + intros x q Hxq. pose proof Hr3 as [W3 _]. rewrite lookup_slot by done.
      destruct (kernel_take_spec r3 Hr3) as (_ & _ & _ & HK).
      { unfold prod_queue in Hxq. destruct (Z.to_nat (filled r3)) eqn:E; [done|]. subst r3. lia. }
      rewrite Hxq in HK. by simplify_eq.
  - destruct (Z.eqb_spec 0 (lenZ l)) as [E|E].
    + exfalso. pose proof Hr as [W Hs]. pose proof (prod_parts r W) as (? & ? & ? & ?).
      unfold is_u32 in *. lia.
    + split_and!; [done|lia|done].
Qed.

(** C15: consuming a batch (peek, read, release) yields the oldest entries of the
    ring in order, at most [nb], none only if the ring is empty, and removes
    exactly those; entries the kernel adds go to the back. *)
Theorem consume_batch_is_fifo {A} `{Inhabited A} (r : xsk_ring A) (nb idx : Z) :
  cons_inv r -> held r = 0 -> 0 < nb < 4294967296 ->
  let '(n, idx', r1) := xsk_ring_cons__peek r nb idx in
  let r2 := xsk_ring_cons__release r1 n in
  read_all r1 idx' (Z.to_nat n) = Some (take (Z.to_nat n) (cons_queue r)) /\
  n <= nb /\ (n = 0 -> cons_queue r = []) /\
  cons_inv r2 /\ held r2 = 0 /\ cons_queue r2 = drop (Z.to_nat n) (cons_queue r) /\
  (forall v, lenZ (cons_queue r2) < size r2 ->
     cons_queue (kernel_put r2 v) = cons_queue r2 ++ [v]).
Proof.
  intros Hr Hh0 Hnb. pose proof (peek_spec r nb idx Hr Hnb) as HP.
  destruct (xsk_ring_cons__peek r nb idx) as [[n idx'] r1].
  destruct HP as (Hr1 & Hq & Hc & Hsl & Hm & Hz & Hheld & Hn & Hzero & Hpos).
  pose proof (release_spec r1 (Z.to_nat n) Hr1 ltac:(lia)) as HR.
  rewrite Z2Nat.id in HR by lia. destruct HR as (Hr2 & Hheld2 & Hq2 & Ha & Hu & Hsl2 & Hz2).
  pose proof Hr1 as [W1 Hs1]. pose proof (cons_parts r1) as (P1 & P2 & P3).
  intros r2. subst r2. split_and!; try done; try lia.
  - rewrite read_all_spec by done. f_equal. rewrite <- Hq. unfold cons_queue.
    replace (Z.to_nat (held r1 + avail r1 + unseen r1))
      with (Z.to_nat n + Z.to_nat (avail r1 + unseen r1))%nat by lia.
    rewrite entries_app, take_app_le, take_ge by (rewrite entries_length; lia).
    destruct (Z.eq_dec n 0) as [->|]; [done|]. rewrite Hpos, Hc by lia.
    f_equal. destruct Hr as [[_ _ _ ? ? ? ?] _]. unfold held in Hh0. int_solve.
  - intros ->. rewrite <- Hq. unfold cons_queue. rewrite (proj1 (Hzero eq_refl)).
    by replace (Z.to_nat (held r1)) with 0%nat by lia.
  - by rewrite Hq2, Hq.
  - intros v Hlt. apply kernel_put_spec; [done|].
    unfold cons_queue in Hlt. rewrite entries_length in Hlt. lia.
Qed.

(** *** Witnesses: a ring of four slots whose indices are about to wrap. *)

Definition demo_ring : xsk_ring Z :=
  Xsk_ring 4294967295 2 3 4 4294967295 4294967294 [10; 11; 12; 13].
Lemma demo_ring_wf : ring_wf demo_ring.
Proof. split; simpl; try int_solve. exists 2. lia. Defined.

Lemma produce_batch_is_fifo_witness :
  let '(n, idx', r1) := xsk_ring_prod__reserve demo_ring (lenZ [1; 2; 3]) 0 in
  n = 3 /\ exists r2, write_all r1 idx' [1; 2; 3] = Some r2 /\
    prod_queue (xsk_ring_prod__submit r2 n) = [12; 1; 2; 3].
Proof.
  pose proof (produce_batch_is_fifo demo_ring [1; 2; 3] 0
                (conj demo_ring_wf eq_refl) eq_refl ltac:(split; vm_compute; congruence)) as Ht.
  destruct (xsk_ring_prod__reserve demo_ring (lenZ [1; 2; 3]) 0) as [[n idx'] r1] eqn:E.
  vm_compute in E. injection E as <- <- <-.
  destruct Ht as (r2 & Hw & _ & _ & Hq & _).
  split; [reflexivity|]. exists r2. split; [exact Hw|]. rewrite Hq. vm_compute. reflexivity.
Defined.

Definition demo_cons : xsk_ring Z :=
  Xsk_ring 4294967295 4294967294 3 4 1 4294967294 [10; 11; 12; 13].
Lemma demo_cons_inv : cons_inv demo_cons.
Proof. split; [split; simpl; try int_solve; exists 2; lia|]. vm_compute. discriminate. Defined.
Lemma consume_batch_is_fifo_witness :
  let '(n, idx', r1) := xsk_ring_cons__peek demo_cons 64 0 in
  n = 1 /\ read_all r1 idx' (Z.to_nat n) = Some (take (Z.to_nat n) (cons_queue demo_cons)).
Proof.
  pose proof (consume_batch_is_fifo demo_cons 64 0 demo_cons_inv eq_refl ltac:(lia)) as Ht.
  destruct (xsk_ring_cons__peek demo_cons 64 0) as [[n idx'] r1] eqn:E.
  vm_compute in E. injection E as <- <- <-.
  split; [reflexivity|]. exact (proj1 Ht).
Defined.
