(* ===== verification/AfXdp.v ===== *)
(** * The AF_XDP data path: switchtsn/af_xdp_user.c

    The frame allocator, the receive, reply and completion handlers and the poll
    loop.  The program shares four rings and the packet buffer with the kernel,
    which runs concurrently: [kernel_runs] marks the points where the program reads
    or writes a shared index (or makes a system call) and lets the kernel take any
    number of steps.  The kernel is a parameter; [kstep] lists what the AF_XDP
    documentation lets it do.  Between two such points nothing the program reads
    can change, so these points cover all interleavings. *)

From stdpp Require Import relations.
From S2P Require Import Prelude Xdp Checksum Ring.
#[local] Open Scope Z_scope.
#[local] Open Scope prog_scope.

Definition NUM_FRAMES : Z := 4096.
Definition FRAME_SIZE : Z := 4096.
Definition RX_BATCH_SIZE : Z := 64.
Definition INVALID_UMEM_FRAME : Z := 18446744073709551615.
Definition XSK_RING_CONS__DEFAULT_NUM_DESCS : Z := 2048.
Definition XSK_RING_PROD__DEFAULT_NUM_DESCS : Z := 2048.
Definition UMEM_SIZE : Z := NUM_FRAMES * FRAME_SIZE.

(** [struct xdp_desc] of linux/if_xdp.h (without [options]). *)
Record xdp_desc := Xdp_desc { addr : Z; len : Z }.
#[export] Instance xdp_desc_inhabited : Inhabited xdp_desc := populate (Xdp_desc 0 0).

(** [struct stats_record]. *)
Record stats_record := Stats_record {
  timestamp : Z;
  st_rx_packets : Z;
  st_rx_bytes : Z;
  st_tx_packets : Z;
  st_tx_bytes : Z
}.

(** [struct xsk_socket_info] with its [struct xsk_umem_info], and the kernel's
    part: the frames it holds for reception and for transmission, and a clock. *)
Record world := World {
  rx : xsk_ring xdp_desc;
  tx : xsk_ring xdp_desc;
  fq : xsk_ring Z;
  cq : xsk_ring Z;
  buffer : Z -> Z;
  umem_frame_addr : list Z;
  umem_frame_free : Z;
  outstanding_tx : Z;
  stats : stats_record;
  k_rx : list Z;
  k_tx : list Z;
  now : nat
}.

Definition set_rx (w : world) v := World v (tx w) (fq w) (cq w) (buffer w) (umem_frame_addr w)
  (umem_frame_free w) (outstanding_tx w) (stats w) (k_rx w) (k_tx w) (now w).
Definition set_tx (w : world) v := World (rx w) v (fq w) (cq w) (buffer w) (umem_frame_addr w)
  (umem_frame_free w) (outstanding_tx w) (stats w) (k_rx w) (k_tx w) (now w).
Definition set_fq (w : world) v := World (rx w) (tx w) v (cq w) (buffer w) (umem_frame_addr w)
  (umem_frame_free w) (outstanding_tx w) (stats w) (k_rx w) (k_tx w) (now w).
Definition set_cq (w : world) v := World (rx w) (tx w) (fq w) v (buffer w) (umem_frame_addr w)
  (umem_frame_free w) (outstanding_tx w) (stats w) (k_rx w) (k_tx w) (now w).
Definition set_buffer (w : world) v := World (rx w) (tx w) (fq w) (cq w) v (umem_frame_addr w)
  (umem_frame_free w) (outstanding_tx w) (stats w) (k_rx w) (k_tx w) (now w).
Definition set_frames (w : world) v n := World (rx w) (tx w) (fq w) (cq w) (buffer w) v
  n (outstanding_tx w) (stats w) (k_rx w) (k_tx w) (now w).
Definition set_outstanding (w : world) v := World (rx w) (tx w) (fq w) (cq w) (buffer w)
  (umem_frame_addr w) (umem_frame_free w) v (stats w) (k_rx w) (k_tx w) (now w).
Definition set_stats (w : world) v := World (rx w) (tx w) (fq w) (cq w) (buffer w)
  (umem_frame_addr w) (umem_frame_free w) (outstanding_tx w) v (k_rx w) (k_tx w) (now w).
Definition set_kernel (w : world) krx ktx := World (rx w) (tx w) (fq w) (cq w) (buffer w)
  (umem_frame_addr w) (umem_frame_free w) (outstanding_tx w) (stats w) krx ktx (now w).
Definition set_now (w : world) t := World (rx w) (tx w) (fq w) (cq w) (buffer w)
  (umem_frame_addr w) (umem_frame_free w) (outstanding_tx w) (stats w) (k_rx w) (k_tx w) t.

Abbreviation U := (M world).

(** ** The kernel *)

Definition chunk (a : Z) : Z := a / FRAME_SIZE.
Definition valid_addr (a : Z) : bool := (0 <=? a) && (a <? UMEM_SIZE).
(** A descriptor that stays inside one frame. *)
Definition desc_ok (d : xdp_desc) : Prop :=
  valid_addr (addr d) = true /\ 14 <= len d /\ addr d mod FRAME_SIZE + len d <= FRAME_SIZE.
#[export] Instance desc_ok_dec d : Decision (desc_ok d).
Proof. unfold desc_ok. apply _. Defined.

(** What the kernel may do at any time (Documentation/networking/af_xdp.rst): take
    an address from the fill ring (an invalid one is thrown away), put a received
    frame into the rx ring when it has room, writing only into that frame, take a
    descriptor from the tx ring, and return a transmitted frame through the
    completion ring when that has room. *)
Inductive kstep : world -> world -> Prop :=
  | k_take_fill w :
      0 < filled (fq w) ->
      let a := slot (fq w) (consumer (fq w)) in
      kstep w (set_kernel (set_fq w (kernel_take (fq w)))
                 (if valid_addr a then chunk a :: k_rx w else k_rx w) (k_tx w))
  | k_receive w c rest d buf :
      k_rx w ≡ₚ c :: rest -> chunk (addr d) = c -> desc_ok d ->
      held (rx w) + avail (rx w) + unseen (rx w) < size (rx w) ->
      (forall p, chunk p <> c -> buf p = buffer w p) -> (forall p, chunk p = c -> is_u8 (buf p)) ->
      kstep w (set_kernel (set_buffer (set_rx w (kernel_put (rx w) d)) buf) rest (k_tx w))
  | k_take_tx w :
      0 < filled (tx w) ->
      let d := slot (tx w) (consumer (tx w)) in
      kstep w (set_kernel (set_tx w (kernel_take (tx w))) (k_rx w)
                 (if decide (desc_ok d) then chunk (addr d) :: k_tx w else k_tx w))
  | k_complete w c rest a :
      k_tx w ≡ₚ c :: rest -> chunk a = c ->
      held (cq w) + avail (cq w) + unseen (cq w) < size (cq w) ->
      kstep w (set_kernel (set_cq w (kernel_put (cq w) a)) (k_rx w) rest).

(** The kernel, as a function of the time and the state it finds. *)
Class XskKernel := { interfere : nat -> world -> world }.
Class XskKernelOk {K : XskKernel} : Prop := {
  interfere_steps t w : rtc kstep w (interfere t w)
}.
Arguments XskKernelOk : clear implicits.

(** ** Checked access to the packet buffer *)

Definition in_umem (p n : Z) : bool := (0 <=? p) && (p + n <=? UMEM_SIZE).
Definition umem_checked {A} (p n : Z) (c : U A) : U A := fun w => if in_umem p n then c w else None.
Definition ubytes (w : world) (p : Z) (n : nat) : list Z :=
  map (fun i => buffer w (p + Z.of_nat i)) (seq 0 n).
Definition uhalf (w : world) (p : Z) : Z := buffer w p + 256 * buffer w (p + 1).
Definition write_bytes (b : Z -> Z) (p : Z) (l : list Z) : Z -> Z :=
  fun q => if decide (p <= q < p + lenZ l) then getZ l (q - p) else b q.
Definition uld8 (p : Z) : U Z := umem_checked p 1 (gets (fun w => buffer w p)).
Definition uld16 (p : Z) : U Z := umem_checked p 2 (gets (fun w => uhalf w p)).
Definition uld_bytes (p : Z) (n : nat) : U (list Z) :=
  umem_checked p (Z.of_nat n) (gets (fun w => ubytes w p n)).
Definition ust_bytes (p : Z) (l : list Z) : U unit :=
  umem_checked p (lenZ l) (modify (fun w => set_buffer w (write_bytes (buffer w) p l))).

(** ** The program *)

Section Program.
Context `{XskKernel}.

Definition kernel_runs : U unit := modify (fun w => set_now (interfere (now w) w) (S (now w))).

Definition xsk_alloc_umem_frame : U Z :=
  let! free := gets umem_frame_free in
  if free =? 0 then ret INVALID_UMEM_FRAME
  else
    let! frames := gets umem_frame_addr in
    let! frame := deref (frames !! Z.to_nat (free - 1)) in
    modify (fun w => set_frames w (setZ frames (free - 1) INVALID_UMEM_FRAME) (free - 1)) ;;;
    ret frame.

Definition xsk_free_umem_frame (frame : Z) : U unit :=
  let! free := gets umem_frame_free in
  guard_ (free <? NUM_FRAMES) ;;;
  modify (fun w => set_frames w (setZ (umem_frame_addr w) free frame) (u32 (free + 1))).

Definition xsk_umem_free_frames : U Z := gets umem_frame_free.

(** The ring calls on the fields of the state. *)
Definition peek_rx (nb idx : Z) : U (Z * Z) := fun w =>
  let '(n, i, r) := xsk_ring_cons__peek (rx w) nb idx in Some ((n, i), set_rx w r).
Definition peek_cq (nb idx : Z) : U (Z * Z) := fun w =>
  let '(n, i, r) := xsk_ring_cons__peek (cq w) nb idx in Some ((n, i), set_cq w r).
Definition nb_free_fq (nb : Z) : U Z := fun w =>
  let '(n, r) := xsk_prod_nb_free (fq w) nb in Some (n, set_fq w r).
Definition reserve_fq (nb idx : Z) : U (Z * Z) := fun w =>
  let '(n, i, r) := xsk_ring_prod__reserve (fq w) nb idx in Some ((n, i), set_fq w r).
Definition reserve_tx (nb idx : Z) : U (Z * Z) := fun w =>
  let '(n, i, r) := xsk_ring_prod__reserve (tx w) nb idx in Some ((n, i), set_tx w r).
Definition fill_addr (idx v : Z) : U unit := fun w =>
  match xsk_ring_prod__fill_addr (fq w) idx v with
  | Some r => Some (tt, set_fq w r) | None => None end.
Definition tx_desc (idx : Z) (d : xdp_desc) : U unit := fun w =>
  match xsk_ring_prod__tx_desc (tx w) idx d with
  | Some r => Some (tt, set_tx w r) | None => None end.
Definition rx_desc (idx : Z) : U xdp_desc := fun w =>
  match xsk_ring_cons__rx_desc (rx w) idx with Some d => Some (d, w) | None => None end.
Definition comp_addr (idx : Z) : U Z := fun w =>
  match xsk_ring_cons__comp_addr (cq w) idx with Some a => Some (a, w) | None => None end.

(** The loop of lines 246-249. *)
Fixpoint free_completed (n : nat) (idx_cq : Z) : U unit :=
  match n with
  | O => ret tt
  | S n' =>
      let! a := comp_addr idx_cq in
      xsk_free_umem_frame a ;;;
      free_completed n' (u32 (idx_cq + 1))
  end.

Definition complete_tx : U unit :=
  let! outstanding := gets outstanding_tx in
  if outstanding =? 0 then ret tt
  else
    kernel_runs ;;;
    let! (completed, idx_cq) := peek_cq XSK_RING_CONS__DEFAULT_NUM_DESCS 0 in
    if completed >? 0 then
      free_completed (Z.to_nat completed) idx_cq ;;;
      modify (fun w => set_cq w (xsk_ring_cons__release (cq w) completed)) ;;;
      kernel_runs ;;;
      modify (fun w => set_outstanding w (u32 (outstanding_tx w -
        if completed <? outstanding_tx w then completed else outstanding_tx w)))
    else ret tt.

Definition process_packet (a l : Z) : U bool :=
  let pkt := a in
  let eth := pkt in
  let ipv6 := eth + 14 in
  let icmp := ipv6 + 40 in
  let! h_proto := uld16 (eth + 12) in
  if negb (bpf_ntohs h_proto =? ETH_P_IPV6) then ret false
  else if l <? 14 + 40 + 8 then ret false
  else
    let! nexthdr := uld8 (ipv6 + 6) in
    if negb (nexthdr =? IPPROTO_ICMPV6) then ret false
    else
      let! icmp6_type := uld8 icmp in
      if negb (icmp6_type =? ICMPV6_ECHO_REQUEST) then ret false
      else
        let! tmp_mac := uld_bytes eth 6 in
        let! h_source := uld_bytes (eth + 6) 6 in
        ust_bytes eth h_source ;;;
        ust_bytes (eth + 6) tmp_mac ;;;
        let! tmp_ip := uld_bytes (ipv6 + 8) 16 in
        let! daddr := uld_bytes (ipv6 + 24) 16 in
        ust_bytes (ipv6 + 8) daddr ;;;
        ust_bytes (ipv6 + 24) tmp_ip ;;;
        ust_bytes icmp [ICMPV6_ECHO_REPLY] ;;;
        let! icmp6_cksum := uld16 (icmp + 2) in
        let c := csum_replace2 icmp6_cksum (bpf_htons (Z.shiftl ICMPV6_ECHO_REQUEST 8))
                   (bpf_htons (Z.shiftl ICMPV6_ECHO_REPLY 8)) in
        ust_bytes (icmp + 2) [u8 c; u8 (c / 256)] ;;;
        kernel_runs ;;;
        let! (r, tx_idx) := reserve_tx 1 0 in
        if negb (r =? 1) then ret false
        else
          tx_desc tx_idx (Xdp_desc a l) ;;;
          modify (fun w => set_tx w (xsk_ring_prod__submit (tx w) 1)) ;;;
          kernel_runs ;;;
          modify (fun w => set_outstanding w (u32 (outstanding_tx w + 1))) ;;;
          modify (fun w => let s := stats w in set_stats w (Stats_record (timestamp s)
            (st_rx_packets s) (st_rx_bytes s) (u64 (st_tx_packets s + 1)) (u64 (st_tx_bytes s + l)))) ;;;
          ret true.

(** The loop of lines 365-367. *)
Fixpoint stuff_ring (n : nat) (idx_fq : Z) : U unit :=
  match n with
  | O => ret tt
  | S n' =>
      let! frame := xsk_alloc_umem_frame in
      fill_addr idx_fq frame ;;;
      stuff_ring n' (u32 (idx_fq + 1))
  end.

(** The loop of lines 361-363; running out of [fuel] is a fault. *)
Fixpoint reserve_retry (fuel : nat) (r stock_frames rcvd idx_fq : Z) : U Z :=
  if r =? stock_frames then ret idx_fq
  else match fuel with
       | O => fault
       | S fuel' =>
           kernel_runs ;;;
           let! (r, idx_fq) := reserve_fq rcvd idx_fq in
           reserve_retry fuel' r stock_frames rcvd idx_fq
       end.

(** The loop of lines 373-381. *)
Fixpoint process_received (n : nat) (idx_rx : Z) : U unit :=
  match n with
  | O => ret tt
  | S n' =>
      let! d := rx_desc idx_rx in
      let! sent := process_packet (addr d) (len d) in
      (if negb sent then xsk_free_umem_frame (addr d) else ret tt) ;;;
      modify (fun w => let s := stats w in set_stats w (Stats_record (timestamp s)
        (st_rx_packets s) (u64 (st_rx_bytes s + len d)) (st_tx_packets s) (st_tx_bytes s))) ;;;
      process_received n' (u32 (idx_rx + 1))
  end.

Definition handle_receive_packets (fuel : nat) : U unit :=
  kernel_runs ;;;
  let! (rcvd, idx_rx) := peek_rx RX_BATCH_SIZE 0 in
  if rcvd =? 0 then ret tt
  else
    let! free := xsk_umem_free_frames in
    kernel_runs ;;;
    let! stock_frames := nb_free_fq (u32 free) in
    (if stock_frames >? 0 then
       kernel_runs ;;;
       let! (r, idx_fq) := reserve_fq stock_frames 0 in
       let! idx_fq := reserve_retry fuel r stock_frames rcvd idx_fq in
       stuff_ring (Z.to_nat stock_frames) idx_fq ;;;
       modify (fun w => set_fq w (xsk_ring_prod__submit (fq w) stock_frames)) ;;;
       kernel_runs
     else ret tt) ;;;
    process_received (Z.to_nat rcvd) idx_rx ;;;
    modify (fun w => set_rx w (xsk_ring_cons__release (rx w) rcvd)) ;;;
    kernel_runs ;;;
    modify (fun w => let s := stats w in set_stats w (Stats_record (timestamp s)
      (u64 (st_rx_packets s + rcvd)) (st_rx_bytes s) (st_tx_packets s) (st_tx_bytes s))) ;;;
    complete_tx.

(** Lines 200-222 of [xsk_configure_socket]: all frames are free, then the fill
    ring is stuffed; [false] is the jump to [error_exit]. *)
Definition init_umem_frames : U bool :=
  modify (fun w => set_frames w
    (map (fun i => Z.of_nat i * FRAME_SIZE) (seq 0 (Z.to_nat NUM_FRAMES))) NUM_FRAMES) ;;;
  kernel_runs ;;;
  let! (r, idx) := reserve_fq XSK_RING_PROD__DEFAULT_NUM_DESCS 0 in
  if negb (r =? XSK_RING_PROD__DEFAULT_NUM_DESCS) then ret false
  else
    stuff_ring (Z.to_nat XSK_RING_PROD__DEFAULT_NUM_DESCS) idx ;;;
    modify (fun w => set_fq w (xsk_ring_prod__submit (fq w) XSK_RING_PROD__DEFAULT_NUM_DESCS)) ;;;
    kernel_runs ;;;
    ret true.

(** The poll loop: one element of [polls] per iteration, the result of [poll] when
    the program polls ([xsk_poll_mode]); the loop ends with the list, when
    [global_exit] is set. *)
Fixpoint rx_and_process (fuel : nat) (xsk_poll_mode : bool) (polls : list Z) : U unit :=
  match polls with
  | [] => ret tt
  | r :: polls' =>
      (if xsk_poll_mode && ((r <=? 0) || (r >? 1)) then kernel_runs
       else handle_receive_packets fuel) ;;;
      rx_and_process fuel xsk_poll_mode polls'
  end.
End Program.
