(* ===== verification/AfXdpInv.v ===== *)
(** * Frame ownership in the AF_XDP data path

    Every one of the [NUM_FRAMES] frames of the packet buffer is, at any time, in
    exactly one place: the program's free list, the fill ring, the kernel (to be
    received into or being transmitted), the rx ring, the tx ring or the completion
    ring.  This file states that invariant, with the intermediate states the
    handlers go through, and proves that no step of the kernel breaks it. *)

From stdpp Require Import relations.
From S2P Require Import Prelude Xdp Checksum Ring AfXdp.
#[local] Open Scope Z_scope.
#[local] Open Scope prog_scope.

Definition desc_chunk (d : xdp_desc) : Z := chunk (addr d).
Definition valid_chunks (l : list Z) : list Z := map chunk (filter (fun a => valid_addr a = true) l).

(** How far a handler has got: rx entries processed and not released, fill entries
    written and not submitted, completion entries freed and not released, and the
    difference between [outstanding_tx] and the frames in transmission; and the
    frames the program has dropped without freeing them. *)
Record phase := Phase { ph_rx : nat; ph_fq : nat; ph_cq : nat; ph_out : Z; ph_lost : list Z }.
(** Between two calls, with the frames [lost] so far. *)
Definition idle_lost (lost : list Z) : phase := Phase 0 0 0 0 lost.
Abbreviation idle := (idle_lost []).

Definition free_list (w : world) : list Z := take (Z.to_nat (umem_frame_free w)) (umem_frame_addr w).
Definition rx_queue (ph : phase) (w : world) : list xdp_desc := drop (ph_rx ph) (cons_queue (rx w)).
Definition cq_queue (ph : phase) (w : world) : list Z := drop (ph_cq ph) (cons_queue (cq w)).

(** All frames, by the place they are in. *)
Definition frames_of (ph : phase) (w : world) : list Z :=
  map chunk (free_list w) ++
  valid_chunks (prod_queue (fq w) ++ reserved (fq w) (ph_fq ph)) ++
  k_rx w ++ map desc_chunk (rx_queue ph w) ++ map desc_chunk (prod_queue (tx w)) ++
  k_tx w ++ map chunk (cq_queue ph w) ++ ph_lost ph.

Record inv (ph : phase) (w : world) : Prop := Inv {
  inv_rx : cons_inv (rx w);
  inv_tx : prod_inv (tx w);
  inv_fq : prod_inv (fq w);
  inv_cq : cons_inv (cq w);
  inv_free : 0 <= umem_frame_free w <= NUM_FRAMES;
  inv_len : lenZ (umem_frame_addr w) = NUM_FRAMES;
  inv_perm : frames_of ph w ≡ₚ seqZ 0 NUM_FRAMES;
  inv_rxd : Forall desc_ok (rx_queue ph w);
  inv_txd : Forall desc_ok (prod_queue (tx w));
  inv_buf : forall p, is_u8 (buffer w p);
  inv_out : outstanding_tx w =
    lenZ (prod_queue (tx w)) + lenZ (k_tx w) + lenZ (cq_queue ph w) + ph_out ph;
  inv_hrx : Z.of_nat (ph_rx ph) <= held (rx w);
  inv_hcq : Z.of_nat (ph_cq ph) <= held (cq w);
  inv_pfq : Z.of_nat (ph_fq ph) <= pending (fq w);
  inv_ptx : pending (tx w) = 0
}.

(** Permutations by counting. *)
Lemma perm_count (l k : list Z) :
  l ≡ₚ k <-> forall x, count_occ Z.eq_dec l x = count_occ Z.eq_dec k x.
Proof. apply Permutation_count_occ. Qed.
Ltac perm_solve :=
  repeat match goal with H : _ ≡ₚ _ |- _ => rewrite perm_count in H end;
  apply perm_count; let x := fresh "x" in intros x;
  repeat match goal with H : forall y : Z, count_occ _ _ y = _ |- _ => specialize (H x) end;
  repeat (progress (repeat rewrite count_occ_app in *; cbn [count_occ] in *));
  repeat match goal with
  | |- context [Z.eq_dec ?a ?b] => destruct (Z.eq_dec a b)
  | H : context [Z.eq_dec ?a ?b] |- _ => destruct (Z.eq_dec a b)
  end; repeat rewrite count_occ_app in *; try lia.

Lemma valid_chunks_app l k : valid_chunks (l ++ k) = valid_chunks l ++ valid_chunks k.
Proof. unfold valid_chunks. by rewrite stdpp.list_basics.list.filter_app, map_app. Qed.
Lemma valid_chunks_cons a l :
  valid_chunks (a :: l) = (if valid_addr a then [chunk a] else []) ++ valid_chunks l.
Proof.
  unfold valid_chunks. destruct (valid_addr a) eqn:E.
  - by rewrite filter_cons_True.
  - rewrite filter_cons_False; [done|]. by rewrite E.
Qed.
Lemma drop_snoc {A} n (l : list A) v : (n <= length l)%nat -> drop n (l ++ [v]) = drop n l ++ [v].
Proof. intros. apply drop_app_le. lia. Qed.

Section Queues.
Context {A : Type} `{Inhabited A}.
Implicit Types r : xsk_ring A.
Lemma cons_queue_length r : lenZ (cons_queue r) = held r + avail r + unseen r.
Proof. pose proof (cons_parts r). unfold cons_queue. rewrite entries_length. lia. Qed.
Lemma prod_queue_length r : lenZ (prod_queue r) = filled r.
Proof.
  unfold prod_queue. rewrite entries_length. pose proof (u32_range (producer r - consumer r)).
  fold (filled r) in *. unfold is_u32 in *. lia.
Qed.
Lemma held_le_queue r n : Z.of_nat n <= held r -> (n <= length (cons_queue r))%nat.
Proof. intros. pose proof (cons_queue_length r). pose proof (cons_parts r). lia. Qed.
End Queues.

(** ** What the kernel leaves alone *)

(** The program's own fields, the indices it owns and the slots it has reserved or
    peeked are not touched; the kernel only takes from the producing rings and
    appends to the consuming ones. *)
Record kframe (w w' : world) : Prop := Kframe {
  kf_frames : umem_frame_addr w' = umem_frame_addr w;
  kf_free : umem_frame_free w' = umem_frame_free w;
  kf_out : outstanding_tx w' = outstanding_tx w;
  kf_stats : stats w' = stats w;
  kf_fq : exists c, fq w' = set_consumer (fq w) c;
  kf_tx : exists c, tx w' = set_consumer (tx w) c;
  kf_rx : exists l, cons_queue (rx w') = cons_queue (rx w) ++ l;
  kf_rxc : consumer (rx w') = consumer (rx w) /\ held (rx w') = held (rx w) /\
           size (rx w') = size (rx w);
  kf_cq : exists l, cons_queue (cq w') = cons_queue (cq w) ++ l;
  kf_cqc : consumer (cq w') = consumer (cq w) /\ held (cq w') = held (cq w) /\
           size (cq w') = size (cq w)
}.

Lemma set_consumer_id {A} (r : xsk_ring A) : r = set_consumer r (consumer r).
Proof. by destruct r. Qed.
#[export] Instance kframe_preorder : PreOrder kframe.
Proof.
  split.
  - intros w. split; try done;
      (by (exists []; rewrite app_nil_r)) || (eexists; apply set_consumer_id).
  - intros w1 w2 w3 [? ? ? ? [c1 F1] [d1 T1] [l1 R1] (? & ? & ?) [m1 C1] (? & ? & ?)]
      [? ? ? ? [c2 F2] [d2 T2] [l2 R2] (? & ? & ?) [m2 C2] (? & ? & ?)].
    split; try (split_and!; congruence); try congruence.
    + exists c2. by rewrite F2, F1.
    + exists d2. by rewrite T2, T1.
    + exists (l1 ++ l2). by rewrite R2, R1, app_assoc.
    + exists (m1 ++ m2). by rewrite C2, C1, app_assoc.
Qed.

Ltac kframe_solve := split; simpl; try done;
  try (by (exists []; rewrite app_nil_r)); try (by eexists); try (eexists; apply set_consumer_id).

Section KernelSteps.
Implicit Types (ph : phase) (w : world).

Lemma kstep_kframe ph w w' : inv ph w -> kstep w w' -> kframe w w'.
Proof.
  intros I K. destruct K as [w Hf a|w c rest d buf Hk Hc Hd Hroom Hb Hu|w Hf d|w c rest a Hk Hc Hroom];
    kframe_solve.
  - destruct (kernel_put_spec (rx w) d (inv_rx _ _ I) Hroom) as (_ & -> & _). by eexists.
  - destruct (kernel_put_spec (cq w) a (inv_cq _ _ I) Hroom) as (_ & -> & _). by eexists.
Qed.

Lemma take_reserved {A} `{Inhabited A} (r : xsk_ring A) n : reserved (kernel_take r) n = reserved r n.
Proof. done. Qed.

Lemma kstep_inv ph w w' : inv ph w -> kstep w w' -> inv ph w'.
Proof.
  intros I K. pose proof (inv_perm _ _ I) as HP.
  destruct K as [w Hf a|w c rest d buf Hk Hc Hd Hroom Hb Hu|w Hf d|w c rest a Hk Hc Hroom];
    destruct I as [Irx Itx Ifq Icq Ifr Ile _ Ird Itd Ibu Iou Ihr Ihc Ipf Ipt].
  - destruct (kernel_take_spec (fq w) Ifq Hf) as (F1 & F2 & F3 & F4). fold a in F4.
    split; try done; simpl.
    unfold frames_of, rx_queue, cq_queue, free_list in *; simpl.
    rewrite F4 in HP. cbn [app] in HP. rewrite valid_chunks_cons in HP.
    rewrite take_reserved. destruct (valid_addr a); perm_solve.
  - destruct (kernel_put_spec (rx w) d Irx Hroom) as (F1 & F2 & F3).
    assert (ph_rx ph <= length (cons_queue (rx w)))%nat as HL by by apply held_le_queue.
    split; try done; simpl;
      [| |intros p; destruct (decide (chunk p = c)); [by apply Hu|rewrite Hb by done; apply Ibu]];
      unfold frames_of, rx_queue, cq_queue, free_list in *; simpl; rewrite F2, drop_snoc by done.
    + rewrite map_app. cbn [map]. change (desc_chunk d) with (chunk (addr d)). rewrite Hc.
      perm_solve.
    + apply Forall_app. split; [done|]. by apply Forall_singleton.
  - destruct (kernel_take_spec (tx w) Itx Hf) as (F1 & F2 & F3 & F4). fold d in F4.
    rewrite F4 in Itd. apply Forall_cons_1 in Itd as [Hd Itd].
    split; try done; simpl; rewrite (decide_True (P := desc_ok d)) by done;
      unfold frames_of, rx_queue, cq_queue, free_list in *; simpl.
    + rewrite F4 in HP. cbn [map] in HP. change (desc_chunk d) with (chunk (addr d)) in HP. perm_solve.
    + rewrite F4 in Iou. cbn [length] in *. lia.
  - destruct (kernel_put_spec (cq w) a Icq Hroom) as (F1 & F2 & F3).
    assert (ph_cq ph <= length (cons_queue (cq w)))%nat as HL by by apply held_le_queue.
    pose proof (Permutation_length Hk) as HlenK. cbn [length] in HlenK.
    split; try done; simpl;
      unfold frames_of, rx_queue, cq_queue, free_list in *; simpl; rewrite F2, drop_snoc by done.
    + rewrite map_app. cbn [map]. rewrite Hc. perm_solve.
    + rewrite length_app. cbn [length]. lia.
Qed.

(** Each frame is in one place only. *)
Lemma seqZ_NoDup : NoDup (seqZ 0 NUM_FRAMES).
Proof. apply NoDup_seqZ. Qed.
Lemma inv_NoDup ph w : inv ph w -> NoDup (frames_of ph w).
Proof. intros I. rewrite (inv_perm _ _ I). apply seqZ_NoDup. Qed.

(** The kernel does not write into frames that wait in the rx ring. *)
Lemma kstep_buffer ph w w' p :
  inv ph w -> kstep w w' -> chunk p ∈ map desc_chunk (rx_queue ph w) -> buffer w' p = buffer w p.
Proof.
  intros I K Hp. destruct K as [|w c rest d buf Hk Hc Hd Hroom Hb Hu| |]; try done. simpl.
  apply Hb. intros E. pose proof (inv_NoDup _ _ I) as N. unfold frames_of in N.
  apply stdpp.list_relations.list.NoDup_app in N as (_ & _ & N). apply stdpp.list_relations.list.NoDup_app in N as (_ & _ & N).
  apply stdpp.list_relations.list.NoDup_app in N as (_ & N & _). apply (N c).
  - rewrite Hk. left.
  - apply elem_of_app. left. by rewrite <- E.
Qed.

(** All of it, for any number of kernel steps. *)
Definition kernel_ran ph w w' : Prop :=
  inv ph w' /\ kframe w w' /\
  (forall p, chunk p ∈ map desc_chunk (rx_queue ph w) -> buffer w' p = buffer w p).

Lemma rx_queue_kframe ph w w' :
  Z.of_nat (ph_rx ph) <= held (rx w) -> kframe w w' ->
  exists l, rx_queue ph w' = rx_queue ph w ++ l.
Proof.
  intros Hh KF. destruct (kf_rx _ _ KF) as [l Hl]. exists l. unfold rx_queue. rewrite Hl.
  by apply drop_app_le, held_le_queue.
Qed.
Lemma kernel_ran_steps ph w w' : inv ph w -> rtc kstep w w' -> kernel_ran ph w w'.
Proof.
  intros I R. induction R as [w|w w1 w2 K R IH]; [by split_and!|].
  pose proof (kstep_inv ph w w1 I K) as I1. pose proof (kstep_kframe ph w w1 I K) as KF.
  destruct (IH I1) as (I2 & KF2 & HB). split_and!; [done|by transitivity w1|].
  intros p Hp. rewrite HB; [by eapply kstep_buffer|].
  destruct (rx_queue_kframe ph w w1 (inv_hrx _ _ I) KF) as [l ->]. rewrite map_app. apply elem_of_app. by left.
Qed.

Lemma inv_set_now ph w t : inv ph w -> inv ph (set_now w t).
Proof. intros []. by split. Qed.
End KernelSteps.

Section KernelRuns.
Context `{KO : XskKernelOk}.
Lemma wp_kernel_runs ph w (Q : unit -> world -> Prop) :
  inv ph w -> (forall w', kernel_ran ph w w' -> Q tt w') -> wp kernel_runs Q w.
Proof using KO.
  intros I HQ. unfold kernel_runs. wp_step. apply HQ.
  destruct (kernel_ran_steps ph w _ I (interfere_steps (now w) w)) as (I' & KF & HB).
  split_and!; [by apply inv_set_now| |done].
  destruct KF. by split.
Qed.
End KernelRuns.
