(* ===== verification/AfXdpSafe.v ===== *)
(** * The data path keeps every frame

    Each operation of the AF_XDP program, run against any kernel that behaves as
    [kstep] says, preserves the ownership invariant and does not fault: no assertion
    fails, no access leaves the packet buffer or a ring, the retry loop ends. *)

From stdpp Require Import relations.
From S2P Require Import Prelude Xdp Checksum Ring AfXdp AfXdpInv.
#[local] Open Scope Z_scope.
#[local] Open Scope prog_scope.

Definition adv_rx (ph : phase) := Phase (S (ph_rx ph)) (ph_fq ph) (ph_cq ph) (ph_out ph) (ph_lost ph).
Definition adv_fq (ph : phase) := Phase (ph_rx ph) (S (ph_fq ph)) (ph_cq ph) (ph_out ph) (ph_lost ph).
Definition adv_cq (ph : phase) := Phase (ph_rx ph) (ph_fq ph) (S (ph_cq ph)) (ph_out ph + 1) (ph_lost ph).
Definition add_out (ph : phase) (o : Z) := Phase (ph_rx ph) (ph_fq ph) (ph_cq ph) (ph_out ph + o) (ph_lost ph).

Section FreeList.
Implicit Types (ph : phase) (w : world).

Lemma free_list_length ph w : inv ph w -> lenZ (free_list w) = umem_frame_free w.
Proof.
  intros I. pose proof (inv_free _ _ I). pose proof (inv_len _ _ I).
  unfold free_list. rewrite length_take. lia.
Qed.
Lemma frames_count ph w : inv ph w -> length (frames_of ph w) = 4096%nat.
Proof. intros I. rewrite (inv_perm _ _ I). by rewrite length_seqZ. Qed.
(** A frame that is waiting in a ring is missing from the free list. *)
Lemma free_room ph w :
  inv ph w -> rx_queue ph w <> [] \/ cq_queue ph w <> [] -> umem_frame_free w < NUM_FRAMES.
Proof.
  intros I Hne. pose proof (frames_count _ _ I) as Hc. pose proof (free_list_length _ _ I) as Hf.
  unfold frames_of in Hc. rewrite !length_app, !length_map in Hc. unfold NUM_FRAMES.
  destruct Hne as [Hne|Hne]; [destruct (rx_queue ph w)|destruct (cq_queue ph w)]; try done;
    cbn [length] in Hc; lia.
Qed.

Lemma free_list_push w a :
  lenZ (umem_frame_addr w) = NUM_FRAMES -> 0 <= umem_frame_free w < NUM_FRAMES ->
  free_list (set_frames w (setZ (umem_frame_addr w) (umem_frame_free w) a)
               (u32 (umem_frame_free w + 1))) = free_list w ++ [a].
Proof.
  intros Hl Hf. unfold free_list, setZ; simpl. unfold NUM_FRAMES in *.
  rewrite u32_small by (unfold is_u32; lia).
  replace (Z.to_nat (umem_frame_free w + 1)) with (S (Z.to_nat (umem_frame_free w))) by lia.
  rewrite (take_S_r _ _ a) by (apply list_lookup_insert_eq; lia).
  by rewrite take_insert_ge by lia.
Qed.
Lemma free_list_pop w a :
  lenZ (umem_frame_addr w) = NUM_FRAMES -> 0 < umem_frame_free w <= NUM_FRAMES ->
  umem_frame_addr w !! Z.to_nat (umem_frame_free w - 1) = Some a ->
  free_list w = free_list (set_frames w
    (setZ (umem_frame_addr w) (umem_frame_free w - 1) INVALID_UMEM_FRAME)
    (umem_frame_free w - 1)) ++ [a].
Proof.
  intros Hl Hf Ha. unfold free_list, setZ; simpl.
  replace (Z.to_nat (umem_frame_free w)) with (S (Z.to_nat (umem_frame_free w - 1))) by lia.
  rewrite (take_S_r _ _ a) by done. by rewrite take_insert_ge by lia.
Qed.

(** The frame at the head of the rx ring goes back to the free list. *)
Lemma wp_free_rx ph w d q :
  inv ph w -> rx_queue ph w = d :: q -> Z.of_nat (S (ph_rx ph)) <= held (rx w) ->
  wp (xsk_free_umem_frame (addr d)) (fun _ w' => inv (adv_rx ph) w' /\ rx_queue (adv_rx ph) w' = q /\
    rx w' = rx w /\ fq w' = fq w /\ cq w' = cq w /\ stats w' = stats w /\ buffer w' = buffer w) w.
Proof.
  intros I Hq Hh. pose proof (free_room _ _ I ltac:(left; congruence)) as Hroom.
  unfold xsk_free_umem_frame. wp_step. wp_step. wp_step. apply wp_guard; [lia|]. wp_step.
  set (w' := set_frames _ _ _).
  assert (rx_queue (adv_rx ph) w' = q) as Hq'.
  { unfold rx_queue in *. simpl. change (rx w') with (rx w).
    replace (S (ph_rx ph)) with (ph_rx ph + 1)%nat by lia. rewrite <- drop_drop, Hq. done. }
  pose proof (free_list_push w (addr d) (inv_len _ _ I) ltac:(pose proof (inv_free _ _ I); lia)) as HF.
  destruct I as [Irx Itx Ifq Icq Ifr Ile HP Ird Itd Ibu Iou Ihr Ihc Ipf Ipt].
  split_and!; try done. split; try done; simpl.
  - unfold NUM_FRAMES in *. rewrite u32_small by (unfold is_u32; lia). lia.
  - by rewrite length_setZ.
  - unfold frames_of in *. rewrite Hq'. change (cq_queue (adv_rx ph) w') with (cq_queue ph w).
    unfold w'. rewrite HF. rewrite Hq in HP. cbn [map] in HP. change (desc_chunk d) with (chunk (addr d)) in HP. rewrite map_app. cbn [map].
    simpl. perm_solve.
  - rewrite Hq'. rewrite Hq in Ird. by apply Forall_cons_1 in Ird as [_ ?].
Qed.

(** The frame at the head of the completion ring goes back to the free list. *)
Lemma wp_free_cq ph w a q :
  inv ph w -> cq_queue ph w = a :: q -> Z.of_nat (S (ph_cq ph)) <= held (cq w) ->
  wp (xsk_free_umem_frame a) (fun _ w' => inv (adv_cq ph) w' /\ cq_queue (adv_cq ph) w' = q /\
    rx w' = rx w /\ tx w' = tx w /\ fq w' = fq w /\ cq w' = cq w /\ stats w' = stats w /\
    outstanding_tx w' = outstanding_tx w) w.
Proof.
  intros I Hq Hh. pose proof (free_room _ _ I ltac:(right; congruence)) as Hroom.
  unfold xsk_free_umem_frame. wp_step. wp_step. wp_step. apply wp_guard; [lia|]. wp_step.
  set (w' := set_frames _ _ _).
  assert (cq_queue (adv_cq ph) w' = q) as Hq'.
  { unfold cq_queue in *. simpl. change (cq w') with (cq w).
    replace (S (ph_cq ph)) with (ph_cq ph + 1)%nat by lia. rewrite <- drop_drop, Hq. done. }
  pose proof (free_list_push w a (inv_len _ _ I) ltac:(pose proof (inv_free _ _ I); lia)) as HF.
  destruct I as [Irx Itx Ifq Icq Ifr Ile HP Ird Itd Ibu Iou Ihr Ihc Ipf Ipt].
  split_and!; try done. split; try done; simpl.
  - unfold NUM_FRAMES in *. rewrite u32_small by (unfold is_u32; lia). lia.
  - by rewrite length_setZ.
  - unfold frames_of in *. rewrite Hq'. change (rx_queue (adv_cq ph) w') with (rx_queue ph w).
    unfold w'. rewrite HF. rewrite Hq in HP. cbn [map] in HP. rewrite map_app. cbn [map].
    simpl. perm_solve.
  - rewrite Hq'. rewrite Hq in Iou. cbn [length] in Iou. lia.
Qed.
End FreeList.

(** ** Completion *)

(** What stays while frames move between the free list and a ring. *)
Definition same_rings (w w' : world) : Prop :=
  held (rx w') = held (rx w) /\ pending (fq w') = pending (fq w) /\ held (cq w') = held (cq w) /\
  stats w' = stats w.
#[export] Instance same_rings_preorder : PreOrder same_rings.
Proof.
  split; [done|]. intros ? ? ? (? & ? & ? & ?) (? & ? & ? & ?). split_and!; congruence.
Qed.
Lemma kframe_same w w' : kframe w w' -> same_rings w w'.
Proof.
  intros [_ _ _ ? [c Hf] _ _ (_ & ? & _) _ (_ & ? & _)]. split_and!; try done. by rewrite Hf.
Qed.

Definition cq_by (ph : phase) (n : nat) := Phase (ph_rx ph) (ph_fq ph) (ph_cq ph + n) (ph_out ph + Z.of_nat n) (ph_lost ph).

Section Completion.
Implicit Types (ph : phase) (w : world).

Lemma cq_head ph w : inv ph w -> Z.of_nat (S (ph_cq ph)) <= held (cq w) ->
  cq_queue ph w = slot (cq w) (consumer (cq w) + Z.of_nat (ph_cq ph))
    :: drop (S (ph_cq ph)) (cons_queue (cq w)).
Proof.
  intros I Hh. unfold cq_queue, cons_queue. pose proof (cons_parts (cq w)).
  apply drop_S. apply entries_lookup. lia.
Qed.
Lemma rx_head ph w : inv ph w -> Z.of_nat (S (ph_rx ph)) <= held (rx w) ->
  rx_queue ph w = slot (rx w) (consumer (rx w) + Z.of_nat (ph_rx ph))
    :: drop (S (ph_rx ph)) (cons_queue (rx w)).
Proof.
  intros I Hh. unfold rx_queue, cons_queue. pose proof (cons_parts (rx w)).
  apply drop_S. apply entries_lookup. lia.
Qed.

Lemma wp_free_completed n : forall ph w idx,
  inv ph w -> Z.of_nat (ph_cq ph + n) <= held (cq w) ->
  idx = u32 (consumer (cq w) + Z.of_nat (ph_cq ph)) ->
  wp (free_completed n idx) (fun _ w' => inv (cq_by ph n) w' /\ rx w' = rx w /\ tx w' = tx w /\
    fq w' = fq w /\ cq w' = cq w /\ stats w' = stats w /\ outstanding_tx w' = outstanding_tx w) w.
Proof.
  induction n as [|n IH]; intros ph w idx I Hh ->; cbn [free_completed].
  { wp_step. split_and!; try done. destruct ph; unfold cq_by; simpl.
    by rewrite Nat.add_0_r, Z.add_0_r. }
  wp_step. pose proof (proj1 (inv_cq _ _ I)) as W. unfold wp, comp_addr.
  rewrite comp_addr_ok, slot_u32 by done. apply wp_bind.
  eapply wp_mono; [eapply wp_free_cq; [done|apply cq_head; [done|lia]|lia]|].
  intros [] w1 (I1 & _ & R & T & F & C & St & O).
  eapply wp_mono; [apply (IH (adv_cq ph) w1); [done|simpl; rewrite C; lia|]|].
  { rewrite u32_add, C. simpl. f_equal. lia. }
  intros [] w2 (I2 & R2 & T2 & F2 & C2 & S2 & O2). split_and!; try congruence.
  replace (cq_by ph (S n)) with (cq_by (adv_cq ph) n); [done|].
  unfold cq_by, adv_cq; simpl. f_equal; lia.
Qed.

Lemma inv_release_cq ph w n :
  inv (cq_by ph n) w -> ph_cq ph = 0%nat -> Z.of_nat n = held (cq w) ->
  let w' := set_cq w (xsk_ring_cons__release (cq w) (Z.of_nat n)) in
  inv (add_out ph (Z.of_nat n)) w' /\ held (cq w') = 0.
Proof.
  intros I H0 Hn w'.
  destruct (release_spec (cq w) n (inv_cq _ _ I) ltac:(lia)) as (R1 & R2 & R3 & _).
  split; [|simpl; lia].
  assert (cq_queue (add_out ph (Z.of_nat n)) w' = cq_queue (cq_by ph n) w) as Hq.
  { unfold cq_queue; simpl. by rewrite R3, drop_drop, H0, Nat.add_comm. }
  destruct I as [Irx Itx Ifq Icq Ifr Ile HP Ird Itd Ibu Iou Ihr Ihc Ipf Ipt].
  split; try done; simpl; [|by rewrite Hq|rewrite H0; lia].
  unfold frames_of in *. rewrite Hq. exact HP.
Qed.

Lemma inv_settle ph w o :
  inv (add_out ph o) w -> ph_out ph = 0 -> 0 <= o ->
  inv ph (set_outstanding w (u32 (outstanding_tx w -
    if o <? outstanding_tx w then o else outstanding_tx w))).
Proof.
  intros I H0 Ho. pose proof (frames_count _ _ I) as Hc. pose proof (inv_out _ _ I) as Hout.
  unfold frames_of in Hc. rewrite !length_app, !length_map in Hc. simpl in Hout.
  assert (u32 (outstanding_tx w - (if o <? outstanding_tx w then o else outstanding_tx w)) =
          outstanding_tx w - o) as E.
  { destruct (Z.ltb_spec o (outstanding_tx w)); rewrite u32_small by (unfold is_u32; lia); lia. }
  destruct I as [Irx Itx Ifq Icq Ifr Ile HP Ird Itd Ibu Iou Ihr Ihc Ipf Ipt].
  split; try done; simpl. rewrite E. change (cq_queue ph (set_outstanding w _)) with (cq_queue ph w).
  change (cq_queue (add_out ph o) w) with (cq_queue ph w) in Hout. lia.
Qed.
End Completion.

Section CompleteTx.
Context `{KO : XskKernelOk}.
Implicit Types (ph : phase) (w : world).

Lemma inv_peek_cq ph w nb :
  inv ph w -> 0 < nb < 4294967296 -> held (cq w) = 0 ->
  let '(n, i, r) := xsk_ring_cons__peek (cq w) nb 0 in
  inv ph (set_cq w r) /\ held r = n /\ 0 <= n /\ consumer r = consumer (cq w) /\
  (0 < n -> i = u32 (consumer r + 0)).
Proof.
  intros I Hnb H0. pose proof (peek_spec (cq w) nb 0 (inv_cq _ _ I) Hnb) as HP.
  destruct (xsk_ring_cons__peek (cq w) nb 0) as [[n i] r].
  destruct HP as (P1 & P2 & P3 & P4 & P5 & P6 & P7 & P8 & P9 & P10).
  split_and!; [|lia|lia|done|].
  - destruct I as [Irx Itx Ifq Icq Ifr Ile HP Ird Itd Ibu Iou Ihr Ihc Ipf Ipt].
    split; try done; unfold frames_of, cq_queue in *; simpl in *; rewrite ?P2; try done. lia.
  - intros Hn. rewrite P10, P3 by done. destruct (inv_cq _ _ I) as [[_ _ _ ? ? ? ?] _].
    unfold held in H0. int_solve.
Qed.

Lemma wp_complete_tx ph w :
  inv ph w -> ph_cq ph = 0%nat -> ph_out ph = 0 -> held (cq w) = 0 ->
  wp complete_tx (fun _ w' => inv ph w' /\ same_rings w w') w.
Proof using KO.
  intros I Hc0 Ho0 Hh0. unfold complete_tx. wp_step. wp_step.
  destruct (_ =? 0); [by wp_step|]. wp_step.
  apply (wp_kernel_runs ph); [done|]. intros w1 (I1 & KF1 & _).
  apply kframe_same in KF1 as SR1. pose proof SR1 as (_ & _ & Hh1 & _).
  wp_step. unfold wp at 1, peek_cq, XSK_RING_CONS__DEFAULT_NUM_DESCS.
  pose proof (inv_peek_cq ph w1 2048 I1 ltac:(lia) ltac:(lia)) as HP.
  destruct (xsk_ring_cons__peek (cq w1) 2048 0) as [[n i] r].
  destruct HP as (I2 & Hn & Hn0 & Hcr & Hi). set (w2 := set_cq w1 r) in *.
  rewrite Z.gtb_ltb. destruct (Z.ltb_spec 0 n) as [Hpos|Hneg].
  2: { wp_step. split; [done|]. destruct SR1 as (S1 & S2 & S3 & S4). split_and!; try done.
       simpl. lia. }
  wp_step. eapply wp_mono; [apply (wp_free_completed (Z.to_nat n) ph w2); [done| |]|].
  { rewrite Hc0; simpl. lia. }
  { rewrite Hc0, Hi by done. done. }
  intros [] w3 (I3 & R3 & T3 & F3 & C3 & S3 & O3). wp_step. wp_step.
  destruct (inv_release_cq ph w3 (Z.to_nat n) I3 Hc0) as [I4 Hh4].
  { rewrite C3. simpl. lia. }
  rewrite Z2Nat.id in I4, Hh4 by lia. set (w4 := set_cq w3 _) in *. wp_step.
  apply (wp_kernel_runs (add_out ph n)); [done|]. intros w5 (I5 & KF5 & _).
  apply kframe_same in KF5 as SR5. wp_step.
  split; [by apply inv_settle; [| |lia]|]. destruct SR1 as (? & ? & ? & ?), SR5 as (? & ? & ? & ?).
  split_and!; simpl.
  - transitivity (held (rx w4)); [done|]. simpl. by rewrite R3.
  - transitivity (pending (fq w4)); [done|]. simpl. by rewrite F3.
  - lia.
  - transitivity (stats w4); [done|]. simpl. by rewrite S3.
Qed.
End CompleteTx.

(** ** Restocking the fill ring *)

Definition fq_by (ph : phase) (n : nat) := Phase (ph_rx ph) (ph_fq ph + n) (ph_cq ph) (ph_out ph) (ph_lost ph).

Section Restock.
Implicit Types (ph : phase) (w : world).

Lemma chunk_valid a : 0 <= chunk a < NUM_FRAMES -> valid_addr a = true.
Proof.
  unfold chunk, valid_addr, UMEM_SIZE, NUM_FRAMES, FRAME_SIZE. intros Hc.
  apply andb_true_intro. Z.div_mod_to_equations. lia.
Qed.
Lemma free_frame_valid ph w a l : inv ph w -> free_list w = l ++ [a] -> valid_addr a = true.
Proof.
  intros I Hl. apply chunk_valid. apply (elem_of_seqZ 0). rewrite <- (inv_perm _ _ I).
  unfold frames_of. rewrite Hl, map_app. apply elem_of_app. left. apply elem_of_app. right.
  by left.
Qed.

(** One frame (or the invalid address, when none is left) into the next slot. *)
Lemma inv_fill ph w w1 a :
  inv ph w -> Z.of_nat (S (ph_fq ph)) <= pending (fq w) ->
  (w1 = w /\ a = INVALID_UMEM_FRAME) \/
  (0 < umem_frame_free w /\ umem_frame_addr w !! Z.to_nat (umem_frame_free w - 1) = Some a /\
   w1 = set_frames w (setZ (umem_frame_addr w) (umem_frame_free w - 1) INVALID_UMEM_FRAME)
          (umem_frame_free w - 1)) ->
  inv (adv_fq ph) (set_fq w1 (write (fq w1) (producer (fq w1) + Z.of_nat (ph_fq ph)) a)).
Proof.
  intros I Hp Hcase. pose proof (inv_len _ _ I) as HL. pose proof (inv_free _ _ I) as HF.
  destruct (write_reserved (fq w) (ph_fq ph) a (inv_fq _ _ I) ltac:(lia)) as [E1 E2].
  assert (fq w1 = fq w) as Hfq by (destruct Hcase as [[-> _]|(_ & _ & ->)]; done). rewrite Hfq.
  assert (frames_of (adv_fq ph) (set_fq w1 (write (fq w) (producer (fq w) + Z.of_nat (ph_fq ph)) a))
          ≡ₚ seqZ 0 NUM_FRAMES) as HP.
  { pose proof (inv_perm _ _ I) as HP. unfold frames_of, rx_queue, cq_queue in *. cbn [ph_fq adv_fq].
    change (fq (set_fq w1 ?x)) with x. rewrite E1, E2, !valid_chunks_app, valid_chunks_cons.
    change (valid_chunks []) with (@nil Z). rewrite valid_chunks_app in HP.
    destruct Hcase as [[-> ->]|(Hpos & Ha & ->)].
    - change (valid_addr INVALID_UMEM_FRAME) with false. simpl.
      change (free_list (set_fq w _)) with (free_list w). perm_solve.
    - pose proof (free_list_pop w a HL ltac:(lia) Ha) as Hpop.
      rewrite (free_frame_valid ph w a _ I Hpop). rewrite Hpop, map_app in HP.
      cbn [map] in *. simpl. change (free_list (set_fq ?v _)) with (free_list v). perm_solve. }
  destruct I as [Irx Itx Ifq Icq Ifr Ile _ Ird Itd Ibu Iou Ihr Ihc Ipf Ipt].
  destruct Hcase as [[-> _]|(Hpos & Ha & ->)]; split; try done; simpl;
    try (by apply write_inv); try (by rewrite length_setZ); try lia; exact Hp.
Qed.

Lemma wp_stuff_ring n : forall ph w idx,
  inv ph w -> Z.of_nat (ph_fq ph + n) <= pending (fq w) ->
  idx = u32 (producer (fq w) + Z.of_nat (ph_fq ph)) ->
  wp (stuff_ring n idx) (fun _ w' => inv (fq_by ph n) w' /\ rx w' = rx w /\ tx w' = tx w /\
    cq w' = cq w /\ stats w' = stats w /\ pending (fq w') = pending (fq w) /\ buffer w' = buffer w) w.
Proof.
  induction n as [|n IH]; intros ph w idx I Hp ->; cbn [stuff_ring].
  { wp_step. split_and!; try done. destruct ph; unfold fq_by; simpl. by rewrite Nat.add_0_r. }
  wp_step. eapply wp_mono with (Q := fun a w1 => inv (adv_fq ph)
      (set_fq w1 (write (fq w1) (producer (fq w1) + Z.of_nat (ph_fq ph)) a)) /\
      rx w1 = rx w /\ tx w1 = tx w /\ cq w1 = cq w /\ stats w1 = stats w /\ fq w1 = fq w /\
      buffer w1 = buffer w).
  { unfold xsk_alloc_umem_frame. wp_step. wp_step.
    destruct (Z.eqb_spec (umem_frame_free w) 0) as [E|E].
    - wp_step. split_and!; try done. apply (inv_fill ph w); [done|lia|by left].
    - pose proof (inv_free _ _ I). pose proof (inv_len _ _ I).
      destruct (lookup_lt_is_Some_2 (umem_frame_addr w) (Z.to_nat (umem_frame_free w - 1)))
        as [a Ha]; [lia|].
      wp_step. wp_step. wp_step. rewrite Ha. eapply wp_deref; [done|]. wp_go.
      split_and!; try done. apply (inv_fill ph w); [done|lia|]. right. split_and!; done || lia. }
  intros a w1 (I1 & R & T & C & St & F & B). wp_step. unfold wp at 1, fill_addr.
  pose proof (proj1 (inv_fq _ _ I)) as W. rewrite F, fill_addr_ok, write_u32 by done.
  rewrite <- F. eapply wp_mono; [apply (IH (adv_fq ph)); [exact I1|..]|].
  { simpl. change (pending (write (fq w1) _ a)) with (pending (fq w1)). rewrite F. lia. }
  { simpl. rewrite F, u32_add. f_equal. lia. }
  intros [] w2 (I2 & R2 & T2 & C2 & S2 & P2 & B2). simpl in *. split_and!; try congruence.
  - replace (fq_by ph (S n)) with (fq_by (adv_fq ph) n); [done|].
    unfold fq_by, adv_fq; simpl. f_equal; lia.
  - rewrite P2. change (pending (write (fq w1) _ a)) with (pending (fq w1)). by rewrite F.
Qed.

Lemma inv_submit_fq ph w n :
  inv (fq_by ph n) w -> ph_fq ph = 0%nat -> Z.of_nat n = pending (fq w) ->
  let w' := set_fq w (xsk_ring_prod__submit (fq w) (Z.of_nat n)) in
  inv ph w' /\ pending (fq w') = 0.
Proof.
  intros I H0 Hn w'.
  destruct (submit_spec (fq w) (Z.of_nat n) (inv_fq _ _ I) ltac:(lia)) as (S1 & S2 & S3 & _).
  pose proof (submit_queue (fq w) n (inv_fq _ _ I) ltac:(lia)) as SQ.
  split; [|simpl; lia].
  destruct I as [Irx Itx Ifq Icq Ifr Ile HP Ird Itd Ibu Iou Ihr Ihc Ipf Ipt].
  split; try done; simpl; [|rewrite H0; lia].
  unfold frames_of in *; simpl in *. rewrite SQ, H0 in *. cbn [Nat.add] in HP.
  change (reserved (xsk_ring_prod__submit (fq w) (Z.of_nat n)) 0) with (@nil Z).
  by rewrite app_nil_r.
Qed.
End Restock.

(** ** Replying to a packet *)

Definition bytes_of (b : Z -> Z) (p : Z) (n : nat) : list Z := map (fun i => b (p + Z.of_nat i)) (seq 0 n).
Definition half_of (b : Z -> Z) (p : Z) : Z := b p + 256 * b (p + 1).

(** The test of [process_packet]: an ICMPv6 echo request. *)
Definition is_request6 (b : Z -> Z) (a l : Z) : bool :=
  (bpf_ntohs (half_of b (a + 12)) =? ETH_P_IPV6) && (62 <=? l) &&
  (b (a + 20) =? IPPROTO_ICMPV6) && (b (a + 54) =? ICMPV6_ECHO_REQUEST).

(** The buffer with the reply in place of the request at [a]. *)
Record is_reply6 (b b' : Z -> Z) (a : Z) : Prop := Is_reply6 {
  r6_mac i : 0 <= i < 6 -> b' (a + i) = b (a + 6 + i) /\ b' (a + 6 + i) = b (a + i);
  r6_ip i : 0 <= i < 16 -> b' (a + 22 + i) = b (a + 38 + i) /\ b' (a + 38 + i) = b (a + 22 + i);
  r6_type : b' (a + 54) = ICMPV6_ECHO_REPLY;
  r6_csum : half_of b' (a + 56) + b' (a + 54) ≡ₘ half_of b (a + 56) + b (a + 54);
  r6_rest p : ~ (a <= p < a + 12 \/ a + 22 <= p < a + 55 \/ a + 56 <= p < a + 58) -> b' p = b p;
  r6_bytes p : is_u8 (b' p)
}.

Section Reply.
Implicit Types (b : Z -> Z).

Lemma half_of_range b p : (forall q, is_u8 (b q)) -> is_u16 (half_of b p).
Proof. intros Hb. pose proof (Hb p). pose proof (Hb (p + 1)). unfold half_of. int_solve. Qed.
Lemma bytes_of_length b p n : length (bytes_of b p n) = n.
Proof. unfold bytes_of. by rewrite length_map, length_seq. Qed.
Lemma getZ_bytes_of b p n i : 0 <= i < Z.of_nat n -> getZ (bytes_of b p n) i = b (p + i).
Proof.
  intros Hi. unfold getZ, bytes_of. rewrite nth_lookup, list_lookup_fmap, lookup_seq_lt by lia.
  simpl. f_equal. lia.
Qed.
Lemma bytes_of_u8 b p n : (forall q, is_u8 (b q)) -> Forall is_u8 (bytes_of b p n).
Proof. intros Hb. apply Forall_map, Forall_seq. auto. Qed.
Lemma write_bytes_u8 b p l : (forall q, is_u8 (b q)) -> Forall is_u8 l ->
  forall q, is_u8 (write_bytes b p l q).
Proof.
  intros Hb Hl q. unfold write_bytes. case_decide; [|done]. apply (getZ_Forall is_u8); [done|lia].
Qed.

(** Two disjoint fields exchanged, as the program does it: save the first, copy
    the second over it, write the saved one. *)
Definition swap_buf b (p q : Z) (n : nat) : Z -> Z :=
  write_bytes (write_bytes b p (bytes_of b q n)) q (bytes_of b p n).
Lemma swap_buf_at b p q n x : p + Z.of_nat n <= q ->
  swap_buf b p q n x = if decide (q <= x < q + Z.of_nat n) then b (p + (x - q))
    else if decide (p <= x < p + Z.of_nat n) then b (q + (x - p)) else b x.
Proof.
  intros Hpq. unfold swap_buf, write_bytes. rewrite !bytes_of_length.
  repeat case_decide; try lia; try done; by rewrite getZ_bytes_of by lia.
Qed.
Lemma swap_buf_u8 b p q n : (forall x, is_u8 (b x)) -> forall x, is_u8 (swap_buf b p q n x).
Proof. intros Hb. unfold swap_buf. auto using write_bytes_u8, bytes_of_u8. Qed.

Definition reply_buf b (a : Z) : Z -> Z :=
  let b := swap_buf (swap_buf b a (a + 6) 6) (a + 22) (a + 38) 16 in
  let b := write_bytes b (a + 54) [ICMPV6_ECHO_REPLY] in
  let c := csum_replace2 (half_of b (a + 56)) (bpf_htons (Z.shiftl ICMPV6_ECHO_REQUEST 8))
             (bpf_htons (Z.shiftl ICMPV6_ECHO_REPLY 8)) in
  write_bytes b (a + 56) [u8 c; u8 (c / 256)].

Lemma reply_buf_correct b a :
  (forall p, is_u8 (b p)) -> b (a + 54) = ICMPV6_ECHO_REQUEST -> is_reply6 b (reply_buf b a) a.
Proof.
  intros Hb Ht. unfold reply_buf.
  set (b1 := swap_buf b a (a + 6) 6). set (b2 := swap_buf b1 (a + 22) (a + 38) 16).
  set (b3 := write_bytes b2 (a + 54) [ICMPV6_ECHO_REPLY]).
  assert (forall p, is_u8 (b3 p)) as Hb3.
  { apply write_bytes_u8; [by repeat apply swap_buf_u8|]. apply Forall_singleton. unfold ICMPV6_ECHO_REPLY. int_solve. }
  assert (forall x, b3 x = if decide (x = a + 54) then ICMPV6_ECHO_REPLY else b2 x) as E3.
  { intros x. unfold b3, write_bytes. cbn [length].
    destruct (decide (x = a + 54)) as [->|];
      [rewrite decide_True by lia; by rewrite Z.sub_diag|by rewrite decide_False by lia]. }
  assert (forall x, a + 54 <= x -> b2 x = b x) as E2.
  { intros x Hx. unfold b2, b1. rewrite swap_buf_at, !decide_False by lia.
    by rewrite swap_buf_at, !decide_False by lia. }
  assert (half_of b3 (a + 56) = half_of b (a + 56)) as Eh.
  { unfold half_of. rewrite !E3, !decide_False, !E2 by lia. done. }
  set (c := csum_replace2 _ _ _). assert (is_u16 c) as Hc by apply csum_replace2_range.
  assert (forall x, write_bytes b3 (a + 56) [u8 c; u8 (c / 256)] x =
    if decide (x = a + 56) then u8 c else if decide (x = a + 57) then u8 (c / 256) else b3 x) as E4.
  { intros x. unfold write_bytes. cbn [length].
    destruct (decide (x = a + 56)) as [->|]; [rewrite decide_True by lia; by rewrite Z.sub_diag|].
    destruct (decide (x = a + 57)) as [->|]; [|by rewrite decide_False by lia].
    rewrite decide_True by lia. by replace (a + 57 - (a + 56)) with 1 by lia. }
  split.
  - intros i Hi. rewrite !E4, !decide_False, !E3, !decide_False by lia. unfold b2.
    rewrite !swap_buf_at, !decide_False by lia. unfold b1. rewrite !swap_buf_at by lia.
    split; [rewrite decide_False, decide_True by lia|rewrite decide_True by lia]; f_equal; lia.
  - intros i Hi. rewrite !E4, !decide_False, !E3, !decide_False by lia. unfold b2.
    rewrite !(swap_buf_at b1) by lia.
    split; [rewrite decide_False, decide_True by lia|rewrite decide_True by lia];
      unfold b1; rewrite swap_buf_at, !decide_False by lia; f_equal; lia.
  - by rewrite E4, !decide_False, E3, decide_True by lia.
  - assert (half_of (write_bytes b3 (a + 56) [u8 c; u8 (c / 256)]) (a + 56) = c) as Eh4.
    { unfold half_of. rewrite !E4, decide_True, decide_False, decide_True by lia. int_solve. }
    rewrite Eh4, E4, !decide_False, E3, decide_True, Ht by lia. unfold c.
    rewrite csum_replace2_eqm, Eh; [|by apply half_of_range|apply bswap16_range..].
    change (bpf_htons (Z.shiftl ICMPV6_ECHO_REQUEST 8)) with 128.
    change (bpf_htons (Z.shiftl ICMPV6_ECHO_REPLY 8)) with 129.
    unfold ICMPV6_ECHO_REPLY, ICMPV6_ECHO_REQUEST. apply (eqm_intro _ _ 0). lia.
  - intros p Hp. rewrite E4, !decide_False, E3, decide_False by lia. unfold b2.
    rewrite swap_buf_at, !decide_False by lia. unfold b1. by rewrite swap_buf_at, !decide_False by lia.
  - apply write_bytes_u8; [done|]. apply List.Forall_cons; [apply u8_range|].
    apply List.Forall_cons; [apply u8_range|]. apply List.Forall_nil.
Qed.
End Reply.

Section Process.
Context `{KO : XskKernelOk}.
Implicit Types (ph : phase) (w : world).

Lemma wp_umem {A} p n (c : U A) Q w :
  0 <= p -> p + n <= UMEM_SIZE -> wp c Q w -> wp (umem_checked p n c) Q w.
Proof.
  intros. unfold wp, umem_checked, in_umem. by replace (_ && _)%bool with true by lia.
Qed.

Lemma inv_set_buffer ph w b : inv ph w -> (forall p, is_u8 (b p)) -> inv ph (set_buffer w b).
Proof. intros [] Hb. by split. Qed.
Lemma inv_set_stats ph w s : inv ph w -> inv ph (set_stats w s).
Proof. intros []. by split. Qed.

(** The frame at the head of the rx ring is handed to the kernel for
    transmission. *)
Lemma inv_transmit ph w d q r idx :
  inv ph w -> rx_queue ph w = d :: q -> Z.of_nat (S (ph_rx ph)) <= held (rx w) ->
  xsk_ring_prod__reserve (tx w) 1 0 = (1, idx, r) ->
  exists r', xsk_ring_prod__tx_desc r idx d = Some r' /\
    inv (add_out (adv_rx ph) (-1)) (set_tx w (xsk_ring_prod__submit r' 1)) /\
    prod_queue (xsk_ring_prod__submit r' 1) = prod_queue (tx w) ++ [d].
Proof.
  intros I Hq Hh Hres. pose proof (reserve_spec (tx w) 1 0 (inv_tx _ _ I) ltac:(int_solve)) as HR.
  rewrite Hres in HR. destruct HR as (R1 & Hsame & F & Hcase).
  pose proof (same_entries_queue _ _ Hsame F) as Q1. destruct Hsame as (_ & S2 & _).
  destruct Hcase as [(_ & Hidx & _ & P)|(? & _)]; [|lia].
  rewrite (inv_ptx _ _ I) in P. pose proof R1 as [W _].
  assert (idx = u32 (producer r + Z.of_nat 0)) as ->.
  { rewrite Hidx, S2. pose proof (inv_ptx _ _ I) as Hp. destruct (inv_tx _ _ I) as [[_ _ _ ? ? ? ?] _].
    unfold pending in Hp. int_solve. }
  eexists. rewrite tx_desc_ok, write_u32 by done. split; [done|].
  set (r1 := write r (producer r + Z.of_nat 0) d).
  destruct (write_reserved r 0 d R1 ltac:(lia)) as [E1 E2]. fold r1 in E1, E2.
  assert (prod_inv r1) as Hr1 by by apply write_inv.
  assert (pending r1 = 1) as Hp1 by (change (pending r1) with (pending r); lia).
  destruct (submit_spec r1 1 Hr1 ltac:(lia)) as (U1 & U2 & U3 & _).
  pose proof (submit_queue r1 1 Hr1 ltac:(lia)) as UQ. change (Z.of_nat 1) with 1 in UQ.
  assert (prod_queue (xsk_ring_prod__submit r1 1) = prod_queue (tx w) ++ [d]) as QQ
    by (rewrite UQ, E1, E2, Q1; done).
  split; [|done]. set (w' := set_tx w _).
  assert (rx_queue (adv_rx ph) w = q) as Hq'.
  { unfold rx_queue in *. simpl. replace (S (ph_rx ph)) with (ph_rx ph + 1)%nat by lia.
    by rewrite <- drop_drop, Hq. }
  destruct I as [Irx Itx Ifq Icq Ifr Ile HP Ird Itd Ibu Iou Ihr Ihc Ipf Ipt].
  rewrite Hq in Ird. apply Forall_cons_1 in Ird as [Hd Ird].
  split; try done; simpl.
  - unfold frames_of in *; simpl.
    change (rx_queue (add_out (adv_rx ph) (-1)) w') with (rx_queue (adv_rx ph) w).
    change (cq_queue (add_out (adv_rx ph) (-1)) w') with (cq_queue ph w).
    change (free_list w') with (free_list w).
    rewrite Hq', QQ, map_app. rewrite Hq in HP. cbn [map] in *. perm_solve.
  - change (rx_queue (add_out (adv_rx ph) (-1)) w') with (rx_queue (adv_rx ph) w). by rewrite Hq'.
  - rewrite QQ. apply Forall_app. split; [done|]. by apply Forall_singleton.
  - rewrite QQ, length_app. cbn [length].
    change (cq_queue (add_out (adv_rx ph) (-1)) w') with (cq_queue ph w). lia.
  - lia.
Qed.

(** What processing a packet leaves alone: the program's view of the other rings,
    the receive counters, and the descriptors that wait in the rx ring. *)
Record keeps ph w w' : Prop := Keeps {
  kp_rx : held (rx w') = held (rx w) /\ consumer (rx w') = consumer (rx w);
  kp_fq : pending (fq w') = pending (fq w);
  kp_cq : held (cq w') = held (cq w);
  kp_st : st_rx_packets (stats w') = st_rx_packets (stats w) /\
          st_rx_bytes (stats w') = st_rx_bytes (stats w);
  kp_q : exists l, rx_queue ph w' = rx_queue ph w ++ l
}.
Lemma kframe_keeps ph w w' :
  Z.of_nat (ph_rx ph) <= held (rx w) -> kframe w w' -> keeps ph w w'.
Proof.
  intros Hh KF. pose proof (rx_queue_kframe ph w w' Hh KF) as Hq.
  destruct KF as [_ _ _ St [c Hf] _ _ (? & ? & _) _ (_ & ? & _)]. split; try done.
  - by rewrite Hf.
  - by rewrite St.
Qed.

(** Counting a transmitted packet of [l] bytes. *)
Definition account (l : Z) w : world :=
  let w := set_outstanding w (u32 (outstanding_tx w + 1)) in
  let s := stats w in
  set_stats w (Stats_record (timestamp s) (st_rx_packets s) (st_rx_bytes s)
    (u64 (st_tx_packets s + 1)) (u64 (st_tx_bytes s + l))).
(** The state after the kernel's turn. *)
Definition kernel_turn w : world := set_now (interfere (now w) w) (S (now w)).

Definition process_post ph w d (sent : bool) w' : Prop :=
  keeps ph w w' /\
  if is_request6 (buffer w) (addr d) (len d) then
    exists b w1, is_reply6 (buffer w) b (addr d) /\
      (forall p, chunk p = desc_chunk d -> buffer w1 p = b p) /\
      (if sent then (exists q, prod_queue (tx w1) = q ++ [d]) /\ w' = account (len d) (kernel_turn w1) /\
                    inv (adv_rx ph) w'
       else filled (tx w1) = size (tx w1) /\ w' = w1 /\ inv ph w')
  else sent = false /\ w' = w.

Lemma inv_account ph w l : inv (add_out ph (-1)) w -> ph_out ph = 0 -> inv ph (account l w).
Proof.
  intros I H0. pose proof (frames_count _ _ I) as Hc. pose proof (inv_out _ _ I) as Hout.
  unfold frames_of in Hc. rewrite !length_app, !length_map in Hc. simpl in Hout.
  change (cq_queue (add_out ph (-1)) w) with (cq_queue ph w) in *.
  apply inv_set_stats. destruct I as [Irx Itx Ifq Icq Ifr Ile HP Ird Itd Ibu Iou Ihr Ihc Ipf Ipt].
  split; try done; simpl. change (cq_queue ph (set_outstanding w _)) with (cq_queue ph w).
  rewrite u32_small by (unfold is_u32; lia). lia.
Qed.

(** Transmission: the tail of [process_packet], with the reply in the buffer. *)
Lemma wp_transmit ph w d q (Q : bool -> world -> Prop) :
  inv ph w -> ph_out ph = 0 -> rx_queue ph w = d :: q -> Z.of_nat (S (ph_rx ph)) <= held (rx w) ->
  (forall (sent : bool) w1 w', kernel_ran ph w w1 ->
     (if sent then exists w2, buffer w2 = buffer w1 /\ (exists q, prod_queue (tx w2) = q ++ [d]) /\
                     w' = account (len d) (kernel_turn w2) /\ inv (adv_rx ph) w'
      else filled (tx w') = size (tx w') /\ buffer w' = buffer w1 /\ inv ph w') ->
     keeps ph w1 w' -> Q sent w') ->
  wp (kernel_runs ;;;
      let! (r, tx_idx) := reserve_tx 1 0 in
      if negb (r =? 1) then ret false
      else
        tx_desc tx_idx (Xdp_desc (addr d) (len d)) ;;;
        modify (fun w => set_tx w (xsk_ring_prod__submit (tx w) 1)) ;;;
        kernel_runs ;;;
        modify (fun w => set_outstanding w (u32 (outstanding_tx w + 1))) ;;;
        modify (fun w => let s := stats w in set_stats w (Stats_record (timestamp s)
          (st_rx_packets s) (st_rx_bytes s) (u64 (st_tx_packets s + 1)) (u64 (st_tx_bytes s + len d)))) ;;;
        ret true) Q w.
Proof using KO.
  intros I Ho Hq Hh HQ. wp_step. apply (wp_kernel_runs ph); [done|]. intros w1 KR.
  pose proof KR as (I1 & KF1 & _). destruct (rx_queue_kframe ph w w1 (inv_hrx _ _ I) KF1) as [l Hl].
  rewrite Hq in Hl. pose proof (kf_rxc _ _ KF1) as (_ & Hh1 & _).
  wp_step. unfold wp at 1, reserve_tx.
  pose proof (reserve_spec (tx w1) 1 0 (inv_tx _ _ I1) ltac:(int_solve)) as HR.
  destruct (xsk_ring_prod__reserve (tx w1) 1 0) as [[n i] r] eqn:Hres.
  destruct HR as (R1 & Hsame & F & Hcase).
  pose proof (same_entries_queue _ _ Hsame F) as Q1. destruct Hsame as (_ & _ & _ & _ & S5).
  destruct Hcase as [(-> & Hi & Hle & P)|(-> & Hi & Hlt & P)]; cbn [negb Z.eqb Pos.eqb].
  - destruct (inv_transmit ph w1 d (q ++ l) r i I1) as (r' & Hd & I3 & Hqq); [done|lia|done|].
    wp_step. unfold wp at 1, tx_desc. destruct d as [a len_]; cbn [addr len].
    change (tx (set_tx w1 r)) with r. rewrite Hd. wp_step. wp_step. wp_step.
    change (set_tx (set_tx (set_tx w1 r) r') ?v) with (set_tx w1 v). simpl (tx _).
    set (w2 := set_tx w1 (xsk_ring_prod__submit r' 1)) in *.
    unfold kernel_runs. wp_step. wp_step. wp_step. wp_step. wp_step. wp_step.
    change (Q true (account len_ (kernel_turn w2))).
    destruct (kernel_ran_steps _ w2 _ I3 (interfere_steps (now w2) w2)) as (I4 & KF4 & _).
    apply (HQ true w1); [done| |].
    + exists w2. split_and!; [done|by eexists|done|]. apply inv_account; [|done].
      by apply inv_set_now.
    + assert (keeps ph w2 (interfere (now w2) w2)) as HK.
      { apply kframe_keeps; [|done]. simpl. lia. }
      destruct HK as [? ? ? ? [l' Hl']]. by split; try (by exists l').
  - wp_step. apply (HQ false w1); [done| |].
    + pose proof (inv_ptx _ _ I1) as Hp. pose proof R1 as [W Hs].
      pose proof (prod_parts r W) as (? & ? & ? & ?). unfold is_u32 in *.
      split_and!; [simpl; lia|done|].
      destruct I1 as [Irx Itx Ifq Icq Ifr Ile HP Ird Itd Ibu Iou Ihr Ihc Ipf Ipt].
      split; try done; unfold frames_of in *; simpl; rewrite ?Q1; try done. lia.
    + split; try done. exists []. by rewrite app_nil_r.
Qed.

Lemma desc_bounds d : desc_ok d -> 0 <= addr d /\ addr d + len d <= UMEM_SIZE /\ 14 <= len d.
Proof.
  intros (Hv & Hl & Hm). unfold valid_addr, UMEM_SIZE, NUM_FRAMES, FRAME_SIZE in *. bool_prop.
  Z.div_mod_to_equations. lia.
Qed.
Lemma keeps_refl ph w : keeps ph w w.
Proof. split; try done. exists []. by rewrite app_nil_r. Qed.
Lemma keeps_trans ph w1 w2 w3 : keeps ph w1 w2 -> keeps ph w2 w3 -> keeps ph w1 w3.
Proof.
  intros [(? & ?) ? ? (? & ?) [l1 Hl1]] [(? & ?) ? ? (? & ?) [l2 Hl2]].
  split; try (split_and!; congruence); try congruence.
  exists (l1 ++ l2). by rewrite Hl2, Hl1, app_assoc.
Qed.

Lemma ubytes_length w p n : length (ubytes w p n) = n.
Proof. apply bytes_of_length. Qed.
(** A checked access, up to the access itself. *)
Ltac umem_step := apply wp_bind, wp_umem;
  [unfold UMEM_SIZE in *; cbn [length]; rewrite ?ubytes_length; lia..|]; wp_step.

Lemma wp_process_packet ph w d q :
  inv ph w -> ph_out ph = 0 -> rx_queue ph w = d :: q -> Z.of_nat (S (ph_rx ph)) <= held (rx w) ->
  wp (process_packet (addr d) (len d)) (process_post ph w d) w.
Proof using KO.
  intros I Ho Hq Hh. assert (desc_ok d) as Hd.
  { pose proof (inv_rxd _ _ I) as HF. rewrite Hq in HF. by apply Forall_cons_1 in HF as [? _]. }
  destruct (desc_bounds d Hd) as (B1 & B2 & B3). pose proof (keeps_refl ph w) as KR.
  set (a := addr d) in *. unfold process_packet, process_post, is_request6.
  fold a.
  replace (a + 14 + 40) with (a + 54) by lia. replace (a + 14 + 6) with (a + 20) by lia.
  replace (a + 14 + 8) with (a + 22) by lia. replace (a + 14 + 24) with (a + 38) by lia.
  replace (a + 54 + 2) with (a + 56) by lia.
  umem_step. change (uhalf w (a + 12)) with (half_of (buffer w) (a + 12)).
  destruct (_ =? ETH_P_IPV6); cbn [negb andb]; [|by wp_step].
  change (14 + 40 + 8) with 62. rewrite Z.leb_antisym.
  destruct (Z.ltb_spec (len d) 62) as [Hl|Hl]; cbn [negb andb]; [by wp_step|].
  umem_step. destruct (_ =? IPPROTO_ICMPV6); cbn [negb andb]; [|by wp_step].
  umem_step.
  destruct (Z.eqb_spec (buffer w (a + 54)) ICMPV6_ECHO_REQUEST) as [Ht|Ht];
    cbn [negb]; [|by wp_step].
  do 11 umem_step.
  lazymatch goal with |- wp ?c ?Q _ =>
    change (wp c Q (set_buffer w (reply_buf (buffer w) a))) end.
  pose proof (reply_buf_correct (buffer w) a (inv_buf _ _ I) Ht) as HR.
  apply (wp_transmit ph _ d q); [apply inv_set_buffer; [done|apply HR]|done..|].
  intros sent w1 w' (I1 & KF & HB) Hsent HK.
  assert (keeps ph w w') as HK'.
  { eapply keeps_trans; [|exact HK].
    destruct (kframe_keeps ph (set_buffer w (reply_buf (buffer w) a)) w1 (inv_hrx _ _ I) KF) as [? ? ? ? [l0 Hl0]]. by split; try (by exists l0). }
  assert (forall p, chunk p = desc_chunk d -> buffer w1 p = reply_buf (buffer w) a p) as HB1.
  { intros p Hp. apply HB. change (rx_queue ph (set_buffer w _)) with (rx_queue ph w).
    rewrite Hq, Hp. by left. }
  split; [done|]. destruct sent.
  - destruct Hsent as (w2 & Hb2 & Hlast & -> & I2). exists (reply_buf (buffer w) a), w2.
    split_and!; try done. intros p Hp. rewrite Hb2. auto.
  - destruct Hsent as (Hfull & Hb & I'). exists (reply_buf (buffer w) a), w'.
    split_and!; try done. intros p Hp. rewrite Hb. auto.
Qed.
End Process.

(** ** The receive handler *)

Definition rx_by (ph : phase) (n : nat) := Phase (ph_rx ph + n) (ph_fq ph) (ph_cq ph) (ph_out ph) (ph_lost ph).

(** Between two calls of the handlers nothing is held or reserved; the frames [lost]
    are in no place, all others in one. *)
Record idle_at (lost : list Z) (w : world) : Prop := Idle_at {
  idle_inv_inv : inv (idle_lost lost) w;
  idle_rx : held (rx w) = 0;
  idle_fq : pending (fq w) = 0;
  idle_cq : held (cq w) = 0
}.
Abbreviation idle_inv := (idle_at []).

(** What the received packets add to the byte counter. *)
Definition total_len (l : list xdp_desc) : Z := sumZ (map len l).

Section Receive.
Context `{KO : XskKernelOk}.
Implicit Types (ph : phase) (w : world).

Definition recv_kept w w' : Prop :=
  held (rx w') = held (rx w) /\ consumer (rx w') = consumer (rx w) /\
  pending (fq w') = pending (fq w) /\ held (cq w') = held (cq w) /\
  st_rx_packets (stats w') = st_rx_packets (stats w).

(** One iteration: the packet is answered or its frame freed. *)
Lemma wp_process_one ph w d q :
  inv ph w -> ph_out ph = 0 -> rx_queue ph w = d :: q -> Z.of_nat (S (ph_rx ph)) <= held (rx w) ->
  wp (let! sent := process_packet (addr d) (len d) in
      (if negb sent then xsk_free_umem_frame (addr d) else ret tt))
    (fun _ w' => inv (adv_rx ph) w' /\ recv_kept w w' /\
       st_rx_bytes (stats w') = st_rx_bytes (stats w) /\
       exists l, rx_queue (adv_rx ph) w' = q ++ l) w.
Proof using KO.
  intros I Ho Hq Hh. wp_step. eapply wp_mono; [by apply (wp_process_packet ph w d q)|].
  intros sent w1 [[(K1 & K2) K3 K4 (K5 & K6) [l Hl]] Hpost].
  rewrite Hq in Hl. cbn [app] in Hl.
  assert (rx_queue (adv_rx ph) w1 = q ++ l) as Hq1.
  { unfold rx_queue in *. simpl. replace (S (ph_rx ph)) with (ph_rx ph + 1)%nat by lia.
    by rewrite <- drop_drop, Hl. }
  destruct sent; cbn [negb].
  - wp_step. destruct (is_request6 _ _ _); [|by destruct Hpost].
    destruct Hpost as (b & w2 & _ & _ & _ & _ & I1). split_and!; try done. by exists l.
  - assert (inv ph w1) as I1.
    { destruct (is_request6 _ _ _); [|by destruct Hpost as [_ ->]].
      by destruct Hpost as (b & w2 & _ & _ & _ & _ & ?). }
    eapply wp_mono; [apply (wp_free_rx ph w1 d (q ++ l)); [done|done|lia]|].
    intros [] w2 (I2 & Q2 & R2 & F2 & C2 & S2 & B2).
    split_and!; try done; unfold recv_kept; rewrite ?R2, ?F2, ?C2, ?S2; try done. by exists l.
Qed.

Lemma wp_process_received n : forall ph w idx,
  inv ph w -> ph_out ph = 0 -> Z.of_nat (ph_rx ph + n) <= held (rx w) ->
  idx = u32 (consumer (rx w) + Z.of_nat (ph_rx ph)) ->
  wp (process_received n idx) (fun _ w' => inv (rx_by ph n) w' /\ recv_kept w w' /\
    u64 (st_rx_bytes (stats w')) =
      u64 (st_rx_bytes (stats w) + total_len (take n (rx_queue ph w)))) w.
Proof using KO.
  induction n as [|n IH]; intros ph w idx I Ho Hh ->; cbn [process_received].
  { wp_step. destruct ph; unfold rx_by; simpl. rewrite Nat.add_0_r, Z.add_0_r. by split_and!. }
  wp_step. pose proof (proj1 (inv_rx _ _ I)) as W. unfold wp at 1, rx_desc.
  rewrite rx_desc_ok, slot_u32 by done. pose proof (rx_head ph w I ltac:(lia)) as Hhd.
  set (d := slot _ _) in *. set (q := drop _ _) in *.
  pose proof (wp_process_one ph w d q I Ho Hhd ltac:(lia)) as H1. apply wp_unbind in H1.
  wp_step. eapply wp_mono; [exact H1|]. intros sent w1 Hw1. wp_step.
  eapply wp_mono; [exact Hw1|].
  intros [] w2 (I2 & (R1 & R2 & R3 & R4 & R5) & B2 & l & Hq2). wp_step. wp_step.
  set (w3 := set_stats w2 _). eapply wp_mono; [apply (IH (adv_rx ph) w3)|].
  - by apply inv_set_stats.
  - done.
  - simpl. rewrite R1. lia.
  - rewrite u32_add. simpl. rewrite R2. f_equal. lia.
  - intros [] w4 (I4 & (R1' & R2' & R3' & R4' & R5') & B4). split_and!.
    + replace (rx_by ph (S n)) with (rx_by (adv_rx ph) n); [done|].
      unfold rx_by, adv_rx; simpl. f_equal; lia.
    + unfold recv_kept in *. simpl in *. split_and!; congruence.
    + rewrite B4. simpl. change (rx_queue (adv_rx ph) w3) with (rx_queue (adv_rx ph) w2).
      rewrite Hhd, Hq2, B2. cbn [take]. unfold total_len, sumZ.
      assert (n <= length q)%nat as Hlen.
      { pose proof (held_le_queue (rx w) (ph_rx ph + S n) Hh) as HL. unfold q. rewrite length_drop. lia. }
      rewrite take_app_le by done. cbn [map foldr]. fold (sumZ (map len (take n q))).
      unfold u64. rewrite Zplus_mod_idemp_l. f_equal. lia.
Qed.

(** Operations on the fill ring that do not change its entries. *)
Lemma inv_set_fq ph w r :
  inv ph w -> ph_fq ph = 0%nat -> prod_inv r -> same_entries (fq w) r ->
  filled r = filled (fq w) -> inv ph (set_fq w r).
Proof.
  intros I H0 Hr Hs Hf. pose proof (same_entries_queue _ _ Hs Hf) as HQ.
  destruct I as [Irx Itx Ifq Icq Ifr Ile HP Ird Itd Ibu Iou Ihr Ihc Ipf Ipt].
  split; try done.
  - unfold frames_of in *; simpl. rewrite HQ. rewrite H0 in *.
    change (reserved r 0) with (@nil Z). change (reserved (fq w) 0) with (@nil Z) in HP. exact HP.
  - rewrite H0. simpl. pose proof (prod_parts r (proj1 Hr)) as (_ & ? & _). unfold is_u32 in *. lia.
Qed.

Lemma reserve_retry_done fuel n rcvd idx : reserve_retry fuel n n rcvd idx = ret idx.
Proof. destruct fuel; cbn [reserve_retry]; by rewrite Z.eqb_refl. Qed.

(** The first reservation gets what was asked for, so the retry loop does not
    run. *)
Lemma wp_restock fuel ph w rcvd :
  inv ph w -> ph_fq ph = 0%nat -> pending (fq w) = 0 ->
  wp (let! stock_frames := nb_free_fq (u32 (umem_frame_free w)) in
      if stock_frames >? 0 then
        kernel_runs ;;;
        let! (r, idx_fq) := reserve_fq stock_frames 0 in
        let! idx_fq := reserve_retry fuel r stock_frames rcvd idx_fq in
        stuff_ring (Z.to_nat stock_frames) idx_fq ;;;
        modify (fun w => set_fq w (xsk_ring_prod__submit (fq w) stock_frames)) ;;;
        kernel_runs
      else ret tt)
    (fun _ w' => inv ph w' /\ keeps ph w w') w.
Proof using KO.
  intros I H0 Hp. wp_step. unfold wp at 1, nb_free_fq.
  pose proof (prod_nb_free_spec (fq w) (u32 (umem_frame_free w)) (inv_fq _ _ I)
                ltac:(apply u32_range)) as HN.
  destruct (xsk_prod_nb_free (fq w) _) as [n r].
  destruct HN as (N1 & -> & N3 & N4 & N5 & N6 & N7).
  pose proof (inv_set_fq ph w r I H0 N1 N5 N3) as I1.
  assert (keeps ph w (set_fq w r)) as K1.
  { destruct (keeps_refl ph w) as [? ? ? ? [l Hl]]. by split; try (by exists l). }
  rewrite Z.gtb_ltb. destruct (Z.ltb_spec 0 (seen_free r)) as [Hpos|]; [|by wp_step].
  set (n := seen_free r) in *. wp_step. apply (wp_kernel_runs ph); [done|].
  intros w2 (I2 & KF2 & _). destruct (kf_fq _ _ KF2) as [c Hc]. simpl in Hc.
  assert (keeps ph w w2) as K2 by (eapply keeps_trans; [exact K1|by apply kframe_keeps; [apply I1|]]).
  assert (is_u32 n) as Hn by apply u32_range.
  wp_step. unfold wp at 1, reserve_fq.
  pose proof (reserve_spec (fq w2) n 0 (inv_fq _ _ I2) Hn) as HR.
  assert (seen_free (fq w2) = n /\ pending (fq w2) = 0) as [Hs2 Hp2] by
    (rewrite Hc; split; [done|]; change (pending (set_consumer r c)) with (pending r); lia).
  destruct (xsk_ring_prod__reserve (fq w2) n 0) as [[k i] r2].
  destruct HR as (R1 & R2 & R3 & Hcase).
  destruct Hcase as [(-> & Hi & Hle & P)|(-> & Hi & Hlt & P)].
  2: { exfalso. destruct (inv_fq _ _ I2) as [W2 Hsum].
       pose proof (prod_parts (fq w2) W2) as (? & ? & ? & ?). unfold is_u32 in *. lia. }
  assert (inv ph (set_fq w2 r2)) as I3 by by apply inv_set_fq.
  rewrite reserve_retry_done. wp_step. wp_step.
  wp_step. eapply wp_mono; [apply (wp_stuff_ring (Z.to_nat n) ph (set_fq w2 r2)); [done|..]|].
  { rewrite H0. simpl. unfold is_u32 in Hn. lia. }
  { rewrite H0, Hi. simpl. destruct R2 as (_ & -> & _).
    destruct (inv_fq _ _ I2) as [[_ _ _ ? ? ? ?] _]. unfold pending in Hp2. int_solve. }
  intros [] w4 (I4 & R4 & T4 & C4 & S4 & P4 & B4). wp_step. wp_step.
  destruct (inv_submit_fq ph w4 (Z.to_nat n) I4 H0) as [I5 P5].
  { rewrite P4. simpl. unfold is_u32 in Hn. lia. }
  rewrite Z2Nat.id in I5, P5 by (unfold is_u32 in Hn; lia).
  apply (wp_kernel_runs ph); [done|]. intros w6 (I6 & KF6 & _). split; [done|].
  eapply keeps_trans; [|apply kframe_keeps; [apply I5|exact KF6]].
  destruct K2 as [? ? ? ? [l Hl]]. split; simpl in *; rewrite ?R4, ?C4, ?S4, ?P5; try done.
  exists l. rewrite <- Hl. unfold rx_queue. simpl. by rewrite R4.
Qed.
End Receive.
