(* ===== verification/Datapath.v ===== *)
(** * Theorems on the AF_XDP data path

    The receive handler and the poll loop of switchtsn/af_xdp_user.c, against any
    kernel that behaves as documented: they never fault and keep every frame, and
    echo requests are answered in place. *)

From stdpp Require Import relations.
From S2P Require Import Prelude Xdp Checksum Ring AfXdp AfXdpInv AfXdpSafe.
#[local] Open Scope Z_scope.
#[local] Open Scope prog_scope.

Section Handler.
Context `{KO : XskKernelOk}.
Implicit Types (ph : phase) (w : world).

Lemma inv_peek_rx ph w nb :
  inv ph w -> 0 < nb < 4294967296 -> held (rx w) = 0 ->
  let '(n, i, r) := xsk_ring_cons__peek (rx w) nb 0 in
  inv ph (set_rx w r) /\ held r = n /\ 0 <= n <= nb /\ consumer r = consumer (rx w) /\
  (0 < n -> i = u32 (consumer r + 0)).
Proof.
  intros I Hnb H0. pose proof (peek_spec (rx w) nb 0 (inv_rx _ _ I) Hnb) as HP.
  destruct (xsk_ring_cons__peek (rx w) nb 0) as [[n i] r].
  destruct HP as (P1 & P2 & P3 & P4 & P5 & P6 & P7 & P8 & P9 & P10).
  split_and!; [|lia|lia|lia|done|].
  - destruct I as [Irx Itx Ifq Icq Ifr Ile HP Ird Itd Ibu Iou Ihr Ihc Ipf Ipt].
    split; try done; unfold frames_of, rx_queue in *; simpl in *; rewrite ?P2; try done. lia.
  - intros Hn. rewrite P10, P3 by done. destruct (inv_rx _ _ I) as [[_ _ _ ? ? ? ?] _].
    unfold held in H0. int_solve.
Qed.

Lemma inv_release_rx ph w n :
  inv (rx_by ph n) w -> ph_rx ph = 0%nat -> Z.of_nat n = held (rx w) ->
  let w' := set_rx w (xsk_ring_cons__release (rx w) (Z.of_nat n)) in
  inv ph w' /\ held (rx w') = 0.
Proof.
  intros I H0 Hn w'.
  destruct (release_spec (rx w) n (inv_rx _ _ I) ltac:(lia)) as (R1 & R2 & R3 & _).
  split; [|simpl; lia].
  assert (rx_queue ph w' = rx_queue (rx_by ph n) w) as Hq.
  { unfold rx_queue; simpl. by rewrite R3, drop_drop, H0, Nat.add_comm. }
  destruct I as [Irx Itx Ifq Icq Ifr Ile HP Ird Itd Ibu Iou Ihr Ihc Ipf Ipt].
  split; try done; simpl; [|by rewrite Hq|rewrite H0; lia].
  unfold frames_of in *. rewrite Hq. exact HP.
Qed.

(** The receive counters after [l] was received. *)
Definition counted_rx w w' (l : list xdp_desc) : Prop :=
  u64 (st_rx_packets (stats w')) = u64 (st_rx_packets (stats w) + lenZ l) /\
  u64 (st_rx_bytes (stats w')) = u64 (st_rx_bytes (stats w) + total_len l).

Definition handler_post w w' : Prop :=
  idle_inv w' /\ exists l, lenZ l <= RX_BATCH_SIZE /\ Forall desc_ok l /\ counted_rx w w' l.

Lemma wp_handle_receive_packets fuel w :
  idle_inv w -> wp (handle_receive_packets fuel) (fun _ w' => handler_post w w') w.
Proof using KO.
  intros [I Hrx Hfq Hcq]. unfold handle_receive_packets. wp_step.
  apply (wp_kernel_runs idle); [done|]. intros w1 (I1 & KF1 & _).
  apply kframe_same in KF1 as (S1 & S2 & S3 & S4).
  wp_step. unfold wp at 1, peek_rx.
  pose proof (inv_peek_rx idle w1 RX_BATCH_SIZE I1 ltac:(unfold RX_BATCH_SIZE; lia) ltac:(lia)) as HP.
  destruct (xsk_ring_cons__peek (rx w1) RX_BATCH_SIZE 0) as [[n i] r].
  destruct HP as (I2 & Hn & Hn0 & Hc & Hi). set (w2 := set_rx w1 r) in *.
  destruct (Z.eqb_spec n 0) as [->|Hne].
  { wp_step. split; [split; simpl; done || lia|]. exists []. unfold counted_rx. simpl.
    rewrite S4, !Z.add_0_r. by split_and!. }
  unfold xsk_umem_free_frames. wp_step. wp_step. wp_step.
  apply (wp_kernel_runs idle); [done|]. intros w3 (I3 & KF3 & _).
  pose proof (kframe_keeps idle w2 w3 (inv_hrx _ _ I2) KF3) as K3.
  rewrite <- (kf_free _ _ KF3). apply kframe_same in KF3 as (T1 & T2 & T3 & T4).
  assert (rx_queue idle w2 = cons_queue r) as Hq2 by done.
  pose proof (wp_restock fuel idle w3 n I3 eq_refl ltac:(simpl in *; lia)) as HR.
  apply wp_unbind in HR. wp_step. eapply wp_mono; [exact HR|]. clear HR. intros stock w4 HR.
  wp_step. eapply wp_mono; [exact HR|]. clear HR. intros [] w5 [I5 K5].
  pose proof (keeps_trans idle w2 w3 w5 K3 K5) as [(K1 & K2) K4 K6 (K7 & K8) [l Hl]].
  wp_step. eapply wp_mono; [apply (wp_process_received (Z.to_nat n) idle w5 i I5 eq_refl)|].
  { simpl in *. lia. }
  { rewrite K2, Hi by lia. done. }
  intros [] w6 (I6 & (M1 & M2 & M3 & M4 & M5) & M6). wp_step. wp_step.
  destruct (inv_release_rx idle w6 (Z.to_nat n) I6 eq_refl) as [I7 H7]; [simpl in *; lia|].
  rewrite Z2Nat.id in I7, H7 by lia. set (w7 := set_rx w6 _) in *. wp_step.
  apply (wp_kernel_runs idle); [done|]. intros w8 (I8 & KF8 & _).
  apply kframe_same in KF8 as (U1 & U2 & U3 & U4). wp_step. wp_step.
  set (w9 := set_stats w8 _). assert (inv idle w9) as I9 by by apply inv_set_stats.
  eapply wp_mono; [apply (wp_complete_tx idle w9 I9 eq_refl eq_refl); simpl in *; congruence|].
  intros [] w' (I' & V1 & V2 & V3 & V4). simpl in *.
  split; [split; [done|congruence|lia|congruence]|].
  exists (take (Z.to_nat n) (rx_queue idle w5)). unfold counted_rx.
  assert (Z.to_nat n <= length (cons_queue r))%nat as Hlen by (apply held_le_queue; lia).
  assert (lenZ (take (Z.to_nat n) (rx_queue idle w5)) = n) as Htk.
  { rewrite Hl, Hq2, length_take, length_app. lia. }
  rewrite Htk, V4. simpl. rewrite U4. simpl. rewrite M5, M6, K7, K8, S4. split_and!; try done.
  - lia.
  - apply Forall_take. apply I5.
  - unfold u64. by rewrite Zmod_mod.
Qed.

Lemma wp_rx_and_process fuel poll polls : forall w,
  idle_inv w -> wp (rx_and_process fuel poll polls) (fun _ w' => idle_inv w') w.
Proof using KO.
  induction polls as [|r polls IH]; intros w Hw; cbn [rx_and_process]; [by wp_step|].
  wp_step. destruct (_ && _)%bool.
  - destruct Hw as [I ? ? ?]. apply (wp_kernel_runs idle); [done|]. intros w1 (I1 & KF & _).
    apply kframe_same in KF as (S1 & S2 & S3 & S4). apply IH. split; done || lia.
  - eapply wp_mono; [by apply wp_handle_receive_packets|]. intros [] w1 [Hw1 _]. by apply IH.
Qed.
End Handler.

(** ** Start-up *)

(** A ring as the kernel and [xsk_umem__create]/[xsk_socket__create] set it up. *)
Definition fresh_prod {A} (n : nat) (v : A) : xsk_ring A :=
  Xsk_ring 0 (Z.of_nat n) (Z.of_nat n - 1) (Z.of_nat n) 0 0 (repeat v n).
Definition fresh_cons {A} (n : nat) (v : A) : xsk_ring A :=
  Xsk_ring 0 0 (Z.of_nat n - 1) (Z.of_nat n) 0 0 (repeat v n).
Definition fresh_world : world :=
  World (fresh_cons 2048 (Xdp_desc 0 0)) (fresh_prod 2048 (Xdp_desc 0 0))
    (fresh_prod 2048 0) (fresh_cons 2048 0) (fun _ => 0)
    (repeat 0 4096) 0 0 (Stats_record 0 0 0 0 0) [] [] 0.

Section Startup.
Lemma fresh_prod_inv {A} (v : A) : prod_inv (fresh_prod 2048 v).
Proof.
  split; [|reflexivity]. split; simpl; rewrite ?repeat_length; try int_solve. by exists 11.
Qed.
Lemma fresh_cons_inv {A} (v : A) : cons_inv (fresh_cons 2048 v).
Proof.
  split; [|done]. split; simpl; rewrite ?repeat_length; try int_solve. by exists 11.
Qed.

(** All frames free. *)
Lemma all_free : map chunk (map (fun i => Z.of_nat i * FRAME_SIZE) (seq 0 4096)) = seqZ 0 NUM_FRAMES.
Proof.
  unfold seqZ, NUM_FRAMES. rewrite map_map. apply map_ext. intros i. unfold chunk, FRAME_SIZE.
  rewrite Z.div_mul by lia. lia.
Qed.
Lemma fresh_cons_queue {A} `{Inhabited A} n (v : A) : cons_queue (fresh_cons n v) = [].
Proof. reflexivity. Qed.
Lemma fresh_prod_queue {A} `{Inhabited A} n (v : A) : prod_queue (fresh_prod n v) = [].
Proof. reflexivity. Qed.
Lemma inv_all_free frames :
  frames = map (fun i => Z.of_nat i * FRAME_SIZE) (seq 0 4096) ->
  inv idle (set_frames fresh_world frames NUM_FRAMES).
Proof.
  intros Hf. assert (length frames = 4096%nat) as HL by by rewrite Hf, length_map, length_seq.
  split.
  - apply fresh_cons_inv.
  - apply fresh_prod_inv.
  - apply fresh_prod_inv.
  - apply fresh_cons_inv.
  - unfold NUM_FRAMES. cbn [umem_frame_free set_frames]. lia.
  - cbn [umem_frame_addr set_frames]. by rewrite HL.
  - unfold frames_of, free_list, rx_queue, cq_queue, fresh_world.
    cbn [umem_frame_addr umem_frame_free set_frames rx tx fq cq k_rx k_tx idle_lost ph_rx ph_fq ph_cq ph_lost].
    rewrite !fresh_cons_queue, !fresh_prod_queue. change (reserved _ 0) with (@nil Z).
    rewrite take_ge by (rewrite HL; unfold NUM_FRAMES; lia).
    rewrite Hf, all_free. cbn [drop map app]. change (valid_chunks []) with (@nil Z).
    by rewrite !app_nil_r.
  - unfold rx_queue, fresh_world. cbn [rx set_frames]. rewrite fresh_cons_queue. constructor.
  - unfold fresh_world. cbn [tx set_frames]. rewrite fresh_prod_queue. constructor.
  - intros p. unfold is_u8. cbn [buffer set_frames fresh_world]. lia.
  - unfold cq_queue, fresh_world. cbn [tx cq outstanding_tx set_frames k_tx].
    by rewrite fresh_cons_queue, fresh_prod_queue.
  - reflexivity || discriminate.
  - discriminate.
  - discriminate.
  - reflexivity.
Qed.
End Startup.

Section Configure.
Context `{KO : XskKernelOk}.

(** [init_umem_frames] from the first kernel turn on. *)
Lemma wp_init_umem_frames :
  wp init_umem_frames (fun ok w' => ok = true /\ idle_inv w') fresh_world.
Proof using KO.
  unfold init_umem_frames. wp_step. wp_step.
  change (Z.to_nat NUM_FRAMES) with 4096%nat.
  pose proof (inv_all_free _ eq_refl) as I. set (w0 := set_frames _ _ _) in *. wp_step.
  apply (wp_kernel_runs idle); [done|]. intros w1 (I1 & KF & _).
  pose proof (kframe_same _ _ KF) as (S1 & S2 & S3 & _).
  destruct (kf_fq _ _ KF) as [c Hc]. wp_step. unfold wp at 1, reserve_fq.
  unfold XSK_RING_PROD__DEFAULT_NUM_DESCS.
  assert (seen_free (fq w1) = 2048 /\ pending (fq w1) = 0 /\ size (fq w1) = 2048) as (Q1 & Q2 & Q3)
    by (rewrite Hc; by split_and!).
  pose proof (reserve_spec (fq w1) 2048 0 (inv_fq _ _ I1) ltac:(int_solve)) as HR.
  destruct (xsk_ring_prod__reserve (fq w1) 2048 0) as [[k i] r2].
  destruct HR as (R1 & R2 & R3 & Hcase).
  destruct Hcase as [(-> & Hi & Hle & P)|(-> & Hi & Hlt & P)].
  2: { exfalso. destruct (inv_fq _ _ I1) as [W1 Hsum].
       pose proof (prod_parts (fq w1) W1) as (? & ? & ? & ?). unfold is_u32 in *. lia. }
  assert (inv idle (set_fq w1 r2)) as I2 by by apply inv_set_fq.
  cbn [negb Z.eqb Pos.eqb]. wp_step.
  eapply wp_mono; [apply (wp_stuff_ring (Z.to_nat 2048) idle (set_fq w1 r2) i I2)|].
  { cbn [fq set_fq ph_fq idle_lost]. rewrite P, Q2. lia. }
  { cbn [fq set_fq ph_fq idle_lost]. rewrite Hi. destruct R2 as (_ & -> & _).
    destruct (inv_fq _ _ I1) as [[_ _ _ ? ? ? ?] _]. unfold pending in Q2. int_solve. }
  intros [] w3 (I3 & R3' & T3 & C3 & St3 & P3 & B3). wp_step. wp_step.
  destruct (inv_submit_fq idle w3 (Z.to_nat 2048) I3 eq_refl) as [I4 P4].
  { rewrite P3. cbn [fq set_fq]. lia. }
  rewrite Z2Nat.id in I4, P4 by lia. set (w4 := set_fq w3 _) in *. wp_step.
  apply (wp_kernel_runs idle); [done|]. intros w5 (I5 & KF5 & _).
  apply kframe_same in KF5 as (U1 & U2 & U3 & _). wp_step. split; [done|]. split; [done|..].
  - rewrite U1. cbn [w4 set_fq rx]. rewrite R3'. cbn [set_fq rx]. rewrite S1. reflexivity.
  - by rewrite U2.
  - rewrite U3. cbn [w4 set_fq cq]. rewrite C3. cbn [set_fq cq]. rewrite S3. reflexivity.
Qed.
Lemma init_umem_frames_runs :
  exists w', init_umem_frames fresh_world = Some (true, w') /\ idle_inv w'.
Proof using KO.
  pose proof wp_init_umem_frames as Hw. apply wp_run in Hw as (ok & w' & Hr & -> & Hi). by exists w'.
Qed.
End Configure.

(** ** Theorems *)

(** C1: the poll loop, for any number of iterations and any kernel, runs without a
    fault (no assertion of the allocator fails, no ring or buffer access is out of
    bounds) and ends in a state where each of the 4096 frames is in exactly one
    place and [outstanding_tx] is the number of frames in transmission. *)
Theorem rx_loop_keeps_frames `{KO : XskKernelOk} (fuel : nat) (poll_mode : bool) (polls : list Z)
    (w : world) :
  idle_inv w ->
  exists w', rx_and_process fuel poll_mode polls w = Some (tt, w') /\
    frames_of idle w' ≡ₚ seqZ 0 NUM_FRAMES /\ NoDup (frames_of idle w') /\
    outstanding_tx w' = lenZ (prod_queue (tx w')) + lenZ (k_tx w') + lenZ (cons_queue (cq w')) /\
    idle_inv w'.
Proof.
  intros Hw. apply (wp_rx_and_process fuel poll_mode polls) in Hw.
  apply wp_run in Hw as ([] & w' & Hr & Hw'). exists w'. pose proof (idle_inv_inv _ _ Hw') as I.
  split_and!; [done|apply I|by apply inv_NoDup| |done].
  rewrite (inv_out _ _ I). unfold cq_queue, idle_lost; cbn [ph_cq ph_out]. rewrite drop_0. lia.
Qed.

(** One call of the receive handler takes at most 64 packets, adds exactly
    their number and bytes to the counters, and needs no retry of the reservation
    (it returns even with no fuel for the retry loop). *)
Theorem handle_receive_packets_counts `{KO : XskKernelOk} (w : world) :
  idle_inv w ->
  exists w' l, handle_receive_packets 0 w = Some (tt, w') /\ idle_inv w' /\
    lenZ l <= RX_BATCH_SIZE /\ Forall desc_ok l /\
    u64 (st_rx_packets (stats w')) = u64 (st_rx_packets (stats w) + lenZ l) /\
    u64 (st_rx_bytes (stats w')) = u64 (st_rx_bytes (stats w) + total_len l).
Proof.
  intros Hw. apply (wp_handle_receive_packets 0) in Hw.
  apply wp_run in Hw as ([] & w' & Hr & Hi & l & Hl & Hd & Hp & Hb). exists w', l. by split_and!.
Qed.

(** C3: a packet at the head of the rx ring that is an ICMPv6 echo request is
    rewritten into its reply (addresses exchanged, type, checksum, nothing else)
    inside its own frame and queued for transmission last in the tx ring, unless
    that ring is full; any other packet is left alone. *)
Theorem process_packet_answers `{KO : XskKernelOk} (ph : phase) (w : world) (d : xdp_desc)
    (q : list xdp_desc) :
  inv ph w -> ph_out ph = 0 -> rx_queue ph w = d :: q -> Z.of_nat (S (ph_rx ph)) <= held (rx w) ->
  exists sent w', process_packet (addr d) (len d) w = Some (sent, w') /\ process_post ph w d sent w'.
Proof. intros I Ho Hq Hh. apply wp_run. by apply (wp_process_packet ph w d q). Qed.

(** The frame set-up of a fresh socket succeeds whatever the kernel does
    meanwhile (the fill ring has room for all 2048 frames) and establishes the
    invariant of the poll loop. *)
Theorem init_establishes_invariant `{KO : XskKernelOk} :
  exists w', init_umem_frames fresh_world = Some (true, w') /\ idle_inv w'.
Proof. apply init_umem_frames_runs. Qed.

(** *** Witnesses *)

(** A kernel that, at its second turn, takes a fill address and receives an ICMPv6
    echo request into that frame. *)
Definition request_packet : list Z :=
  [2;0;0;0;0;2; 2;0;0;0;0;1; 0x86;0xdd; 0x60;0;0;0; 0;8; 58; 64] ++
  [0xfe;0x80;0;0;0;0;0;0;0;0;0;0;0;0;0;1; 0xfe;0x80;0;0;0;0;0;0;0;0;0;0;0;0;0;2] ++
  [128; 0; 0x7b; 0xb5; 0; 1; 0; 1].
Definition deliver (w : world) : world :=
  let a := slot (fq w) (consumer (fq w)) in
  if decide (0 < filled (fq w) /\ valid_addr a = true /\
             held (rx w) + avail (rx w) + unseen (rx w) < size (rx w)) then
    let w1 := set_kernel (set_fq w (kernel_take (fq w))) (chunk a :: k_rx w) (k_tx w) in
    let start := chunk a * FRAME_SIZE in
    set_kernel (set_buffer (set_rx w1 (kernel_put (rx w1) (Xdp_desc start 62)))
      (fun p => if decide (chunk p = chunk a) then
                  u8 (getZ request_packet (p - start)) else buffer w p)) (k_rx w) (k_tx w)
  else w.
#[export] Instance demo_kernel : XskKernel := {| interfere t w := if Nat.eqb t 1 then deliver w else w |}.

Lemma deliver_steps w : rtc kstep w (deliver w).
Proof.
  unfold deliver. case_decide as Hc; [|reflexivity]. destruct Hc as (Hf & Hv & Hr).
  pose proof (k_take_fill w Hf) as K1. cbv zeta in K1. rewrite Hv in K1.
  eapply rtc_l; [exact K1|]. apply rtc_once. set (a := slot _ _) in *.
  set (w1 := set_kernel (set_fq w (kernel_take (fq w))) (chunk a :: k_rx w) (k_tx w)).
  refine (k_receive w1 (chunk a) (k_rx w) (Xdp_desc (chunk a * FRAME_SIZE) 62) _ _ _ _ _ _ _); try done.
  - unfold chunk, FRAME_SIZE; cbn [addr]. by rewrite Z.div_mul by lia.
  - assert (chunk a * FRAME_SIZE mod FRAME_SIZE = 0) as E by (unfold FRAME_SIZE; by rewrite Z.mod_mul by lia).
    unfold desc_ok; cbn [addr len]. rewrite E. unfold valid_addr, UMEM_SIZE, NUM_FRAMES, FRAME_SIZE, chunk in *.
    bool_prop. split; [|lia]. clear E. clearbody a.
    pose proof (Z.div_mod a 4096). pose proof (Z.mod_pos_bound a 4096). unfold FRAME_SIZE. apply andb_true_intro. lia.
  - intros p Hp. by rewrite decide_False by done.
  - intros p Hp. rewrite decide_True by done. apply u8_range.
Qed.
#[export] Instance demo_kernel_ok : XskKernelOk demo_kernel.
Proof. split. intros t w. simpl. destruct (Nat.eqb t 1); [apply deliver_steps|reflexivity]. Qed.

Definition started : world :=
  match init_umem_frames fresh_world with Some (_, w) => w | None => fresh_world end.

Lemma init_establishes_invariant_witness :
  exists w', init_umem_frames fresh_world = Some (true, w') /\ idle_inv w'.
Proof. exact (init_establishes_invariant (KO := demo_kernel_ok)). Defined.

Lemma started_idle : idle_inv started.
Proof.
  destruct (init_umem_frames_runs (KO := demo_kernel_ok)) as (w' & Hr & Hi).
  replace started with w'; [exact Hi|]. unfold started. generalize Hr.
  generalize (init_umem_frames fresh_world). by intros ? ->.
Qed.

Lemma rx_loop_keeps_frames_witness :
  exists w', rx_and_process 0 false [1; 1; 1] started = Some (tt, w') /\
    frames_of idle w' ≡ₚ seqZ 0 NUM_FRAMES /\ NoDup (frames_of idle w') /\
    outstanding_tx w' = lenZ (prod_queue (tx w')) + lenZ (k_tx w') + lenZ (cons_queue (cq w')) /\
    idle_inv w'.
Proof.
  exact (rx_loop_keeps_frames (KO := demo_kernel_ok) 0 false [1; 1; 1] started started_idle).
Defined.

Lemma handle_receive_packets_counts_witness :
  exists w' l, handle_receive_packets 0 started = Some (tt, w') /\ idle_inv w' /\
    lenZ l <= RX_BATCH_SIZE /\ Forall desc_ok l /\
    u64 (st_rx_packets (stats w')) = u64 (st_rx_packets (stats started) + lenZ l) /\
    u64 (st_rx_bytes (stats w')) = u64 (st_rx_bytes (stats started) + total_len l).
Proof. exact (handle_receive_packets_counts (KO := demo_kernel_ok) started started_idle). Defined.

(** The state after a peek: the request is at the head of the rx ring. *)
Definition peeked : world := set_rx started (snd (xsk_ring_cons__peek (rx started) RX_BATCH_SIZE 0)).
Definition request_desc : xdp_desc := Xdp_desc (4095 * FRAME_SIZE) 62.
Lemma peeked_queue : rx_queue idle peeked = [request_desc] /\ held (rx peeked) = 1.
Proof. split; vm_compute; reflexivity. Qed.
Lemma peeked_inv : inv idle peeked.
Proof.
  destruct started_idle as [I H1 H2 H3].
  pose proof (inv_peek_rx idle started RX_BATCH_SIZE I ltac:(unfold RX_BATCH_SIZE; lia) H1) as Hp.
  unfold peeked. destruct (xsk_ring_cons__peek (rx started) RX_BATCH_SIZE 0) as [[n i] r].
  exact (proj1 Hp).
Qed.
Lemma process_packet_answers_witness :
  is_request6 (buffer peeked) (addr request_desc) (len request_desc) = true /\
  exists sent w', process_packet (addr request_desc) (len request_desc) peeked = Some (sent, w') /\
    process_post idle peeked request_desc sent w'.
Proof.
  split; [vm_compute; reflexivity|].
  refine (process_packet_answers (KO := demo_kernel_ok) idle peeked request_desc [] peeked_inv eq_refl
            (proj1 peeked_queue) _).
  rewrite (proj2 peeked_queue). discriminate.
Defined.
