(* ===== verification/SharedUmem.v ===== *)
(** * The shared-umem switch: switchtsn/af_xdp_david_shared.c

    The variant of the data path in which received packets are not processed: the
    loop over the batch is commented out, so the handler releases the rx entries
    without freeing or sending their frames.  The rest of the handler is the one of
    af_xdp_user.c.  The theorems: the handler still never faults, but each received
    packet costs a frame, so at most 4096 packets are ever received.
    switchtsn/af_xdp_user_david.c has the same handler. *)

From stdpp Require Import relations.
From S2P Require Import Prelude Xdp Checksum Ring AfXdp AfXdpInv AfXdpSafe Datapath.
#[local] Open Scope Z_scope.
#[local] Open Scope prog_scope.

Module Shared.
Section Program.
Context `{XskKernel}.

(** The body of [process_packet] is commented out. *)
Definition process_packet (a l : Z) : U bool := ret false.

Definition handle_receive_packets (fuel : nat) : U unit :=
  kernel_runs ;;;
  let! (rcvd, idx_rx) := peek_rx RX_BATCH_SIZE 0 in
  if rcvd =? 0 then ret tt
  else
    let! free := xsk_umem_free_frames in
    kernel_runs ;;;
    let! stock_frames := nb_free_fq (u32 free) in
    (if stock_frames >? 0 then
       kernel_runs ;;;
       let! (r, idx_fq) := reserve_fq stock_frames 0 in
       let! idx_fq := reserve_retry fuel r stock_frames rcvd idx_fq in
       stuff_ring (Z.to_nat stock_frames) idx_fq ;;;
       modify (fun w => set_fq w (xsk_ring_prod__submit (fq w) stock_frames)) ;;;
       kernel_runs
     else ret tt) ;;;
    modify (fun w => set_rx w (xsk_ring_cons__release (rx w) rcvd)) ;;;
    kernel_runs ;;;
    modify (fun w => let s := stats w in set_stats w (Stats_record (timestamp s)
      (u64 (st_rx_packets s + rcvd)) (st_rx_bytes s) (st_tx_packets s) (st_tx_bytes s))) ;;;
    complete_tx.

Fixpoint rx_and_process (fuel : nat) (xsk_poll_mode : bool) (polls : list Z) : U unit :=
  match polls with
  | [] => ret tt
  | r :: polls' =>
      (if xsk_poll_mode && ((r <=? 0) || (r >? 1)) then kernel_runs
       else handle_receive_packets fuel) ;;;
      rx_and_process fuel xsk_poll_mode polls'
  end.
End Program.
End Shared.

Section Leak.
Context `{KO : XskKernelOk}.
Implicit Types (w : world) (lost : list Z).

(** Releasing rx entries that were neither freed nor sent loses their frames. *)
Lemma inv_drop_rx lost w n :
  inv (idle_lost lost) w -> Z.of_nat n = held (rx w) ->
  let w' := set_rx w (xsk_ring_cons__release (rx w) (Z.of_nat n)) in
  inv (idle_lost (lost ++ map desc_chunk (take n (cons_queue (rx w))))) w' /\ held (rx w') = 0.
Proof.
  intros I Hn w'.
  destruct (release_spec (rx w) n (inv_rx _ _ I) ltac:(lia)) as (R1 & R2 & R3 & _).
  split; [|simpl; lia].
  destruct I as [Irx Itx Ifq Icq Ifr Ile HP Ird Itd Ibu Iou Ihr Ihc Ipf Ipt].
  unfold frames_of, rx_queue, cq_queue in *; cbn [idle_lost ph_rx ph_cq ph_fq ph_lost ph_out] in *.
  rewrite !drop_0 in *. split; try done.
  - unfold frames_of, rx_queue, cq_queue; cbn [idle_lost ph_rx ph_cq ph_fq ph_lost].
    rewrite !drop_0. cbn [w' set_rx rx tx fq cq k_rx k_tx]. rewrite R3.
    change (free_list w') with (free_list w).
    rewrite <- (take_drop n (cons_queue (rx w))), map_app in HP. perm_solve.
  - unfold rx_queue; cbn [idle_lost ph_rx]. rewrite drop_0. cbn [w' set_rx rx]. rewrite R3.
    by apply Forall_drop.
  - simpl. lia.
Qed.

Definition leak_post lost w w' : Prop :=
  exists got, idle_at (lost ++ got) w' /\
    u64 (st_rx_packets (stats w')) = u64 (st_rx_packets (stats w) + lenZ got).

Lemma wp_shared_handler fuel lost w :
  idle_at lost w -> wp (Shared.handle_receive_packets fuel) (fun _ w' => leak_post lost w w') w.
Proof using KO.
  intros [I Hrx Hfq Hcq]. unfold Shared.handle_receive_packets. wp_step.
  apply (wp_kernel_runs (idle_lost lost)); [done|]. intros w1 (I1 & KF1 & _).
  apply kframe_same in KF1 as (S1 & S2 & S3 & S4).
  wp_step. unfold wp at 1, peek_rx.
  pose proof (inv_peek_rx (idle_lost lost) w1 RX_BATCH_SIZE I1 ltac:(unfold RX_BATCH_SIZE; lia)
                ltac:(lia)) as HP.
  destruct (xsk_ring_cons__peek (rx w1) RX_BATCH_SIZE 0) as [[n i] r].
  destruct HP as (I2 & Hn & Hn0 & Hc & Hi). set (w2 := set_rx w1 r) in *.
  destruct (Z.eqb_spec n 0) as [->|Hne].
  { wp_step. exists []. rewrite app_nil_r. split; [split; simpl; done || lia|].
    simpl. by rewrite S4, !Z.add_0_r. }
  unfold xsk_umem_free_frames. wp_step. wp_step. wp_step.
  apply (wp_kernel_runs (idle_lost lost)); [done|]. intros w3 (I3 & KF3 & _).
  pose proof (kframe_keeps (idle_lost lost) w2 w3 (inv_hrx _ _ I2) KF3) as K3.
  rewrite <- (kf_free _ _ KF3). apply kframe_same in KF3 as (T1 & T2 & T3 & T4).
  pose proof (wp_restock fuel (idle_lost lost) w3 n I3 eq_refl ltac:(simpl in *; lia)) as HR.
  apply wp_unbind in HR. wp_step. eapply wp_mono; [exact HR|]. clear HR. intros stock w4 HR.
  wp_step. eapply wp_mono; [exact HR|]. clear HR. intros [] w5 [I5 K5].
  pose proof (keeps_trans (idle_lost lost) w2 w3 w5 K3 K5) as [(K1 & K2) K4 K6 (K7 & K8) [l Hl]].
  wp_step. wp_step.
  destruct (inv_drop_rx lost w5 (Z.to_nat n) I5) as [I7 H7]; [simpl in *; lia|].
  rewrite Z2Nat.id in I7, H7 by lia. set (w7 := set_rx w5 _) in *.
  set (got := map desc_chunk _) in I7. wp_step.
  apply (wp_kernel_runs (idle_lost (lost ++ got))); [done|]. intros w8 (I8 & KF8 & _).
  apply kframe_same in KF8 as (U1 & U2 & U3 & U4). wp_step. wp_step.
  set (w9 := set_stats w8 _). assert (inv (idle_lost (lost ++ got)) w9) as I9 by by apply inv_set_stats.
  eapply wp_mono; [apply (wp_complete_tx _ w9 I9 eq_refl eq_refl); simpl in *; congruence|].
  intros [] w' (I' & V1 & V2 & V3 & V4). simpl in *. exists got.
  split; [split; [done|congruence|lia|congruence]|].
  assert (lenZ got = n) as Hg.
  { unfold got. rewrite length_map, length_take.
    pose proof (held_le_queue (rx w5) (Z.to_nat n) ltac:(lia)). lia. }
  rewrite Hg, V4. simpl. rewrite U4. simpl. rewrite K7, S4. unfold u64. by rewrite Zmod_mod.
Qed.

Lemma wp_shared_loop fuel poll polls : forall lost w,
  idle_at lost w ->
  wp (Shared.rx_and_process fuel poll polls) (fun _ w' => leak_post lost w w') w.
Proof using KO.
  induction polls as [|r polls IH]; intros lost w Hw; cbn [Shared.rx_and_process].
  { wp_step. exists []. by rewrite app_nil_r, Z.add_0_r. }
  wp_step. eapply wp_mono with (Q := fun _ w1 => leak_post lost w w1).
  - destruct (_ && _)%bool; [|by apply wp_shared_handler].
    destruct Hw as [I ? ? ?]. apply (wp_kernel_runs (idle_lost lost)); [done|]. intros w1 (I1 & KF & _).
    apply kframe_same in KF as (S1 & S2 & S3 & S4). exists []. rewrite app_nil_r, Z.add_0_r, S4.
    split; [|done]. split; done || lia.
  - intros [] w1 (got & Hw1 & Hc). eapply wp_mono; [by apply (IH (lost ++ got))|].
    intros [] w2 (got2 & Hw2 & Hc2). exists (got ++ got2). rewrite app_assoc. split; [done|].
    rewrite Hc2. unfold u64 in *. rewrite Zplus_mod, Hc, <- Zplus_mod, length_app. f_equal. lia.
Qed.

(** The frames that still circulate. *)
Definition live_frames w : list Z :=
  map chunk (free_list w) ++ valid_chunks (prod_queue (fq w)) ++ k_rx w ++
  map desc_chunk (cons_queue (rx w)) ++ map desc_chunk (prod_queue (tx w)) ++ k_tx w ++
  map chunk (cons_queue (cq w)).
Lemma live_frames_lost lost w : idle_at lost w -> lenZ (live_frames w) + lenZ lost = NUM_FRAMES.
Proof.
  intros [I _ _ _]. pose proof (frames_count _ _ I) as Hc. unfold frames_of, rx_queue, cq_queue in Hc.
  cbn [idle_lost ph_rx ph_cq ph_fq ph_lost] in Hc. change (reserved (fq w) 0) with (@nil Z) in Hc.
  rewrite !drop_0, app_nil_r in Hc. unfold live_frames, NUM_FRAMES.
  rewrite !length_app in *. lia.
Qed.
End Leak.

(** In the shared-umem variant every received packet costs a frame: after any
    number of iterations the packets received and the frames still in circulation
    add up to the 4096 frames of the start, so reception stops for good after 4096
    packets.  The loop itself never faults. *)
Theorem shared_loop_loses_frames `{KO : XskKernelOk} (fuel : nat) (poll_mode : bool)
    (polls : list Z) (w : world) :
  idle_inv w ->
  exists w' n, Shared.rx_and_process fuel poll_mode polls w = Some (tt, w') /\
    u64 (st_rx_packets (stats w')) = u64 (st_rx_packets (stats w) + n) /\
    0 <= n <= NUM_FRAMES /\ lenZ (live_frames w') = NUM_FRAMES - n.
Proof.
  intros Hw. apply (wp_shared_loop fuel poll_mode polls) in Hw.
  apply wp_run in Hw as ([] & w' & Hr & got & Hi & Hc). exists w', (lenZ got).
  pose proof (live_frames_lost _ _ Hi) as HL. cbn [app] in HL. split_and!; try done; lia.
Qed.

Lemma shared_loop_loses_frames_witness :
  exists w' n, Shared.rx_and_process 0 true [1; 0; 1] started = Some (tt, w') /\
    u64 (st_rx_packets (stats w')) = u64 (st_rx_packets (stats started) + n) /\
    0 <= n <= NUM_FRAMES /\ lenZ (live_frames w') = NUM_FRAMES - n.
Proof.
  exact (shared_loop_loses_frames (KO := demo_kernel_ok) 0 true [1; 0; 1] started started_idle).
Defined.
