(* ===== verification/BpfProg.v ===== *)
(** * The hand-assembled program of libbpf/src/xsk.c

    [xsk_load_xdp_prog] loads a program written as an array of instructions with the
    macros of libbpf/include/linux/filter.h.  The instructions are records of the five
    fields of [struct bpf_insn]; a small interpreter runs them the way the kernel
    documents: registers hold numbers or pointers, a helper call clobbers the argument
    registers, a jump offset counts instruction slots.  The theorem shows that the
    array computes what the C program in the comment above it says, for every
    behaviour of the helpers. *)

From S2P Require Import Prelude.
#[local] Open Scope Z_scope.

Record bpf_insn := Bpf_insn { code : Z; dst_reg : Z; src_reg : Z; off : Z; imm : Z }.

(** Instruction classes, sizes, modes and operations. *)
Definition BPF_LD : Z := 0x00.
Definition BPF_LDX : Z := 0x01.
Definition BPF_STX : Z := 0x03.
Definition BPF_JMP : Z := 0x05.
Definition BPF_JMP32 : Z := 0x06.
Definition BPF_ALU64 : Z := 0x07.
Definition BPF_W : Z := 0x00.
Definition BPF_DW : Z := 0x18.
Definition BPF_IMM : Z := 0x00.
Definition BPF_MEM : Z := 0x60.
Definition BPF_ADD : Z := 0x00.
Definition BPF_MOV : Z := 0xb0.
Definition BPF_JEQ : Z := 0x10.
Definition BPF_JSGT : Z := 0x60.
Definition BPF_CALL : Z := 0x80.
Definition BPF_EXIT : Z := 0x90.
Definition BPF_K : Z := 0x00.
Definition BPF_X : Z := 0x08.
Definition BPF_OP (c : Z) : Z := Z.land c 0xf0.
Definition BPF_SIZE (c : Z) : Z := Z.land c 0x18.
Definition BPF_PSEUDO_MAP_FD : Z := 1.
Definition BPF_FUNC_map_lookup_elem : Z := 1.
Definition BPF_FUNC_redirect_map : Z := 51.

Definition or3 (a b c : Z) : Z := Z.lor (Z.lor a b) c.
Definition BPF_ALU64_IMM (op dst im : Z) := Bpf_insn (or3 BPF_ALU64 (BPF_OP op) BPF_K) dst 0 0 im.
Definition BPF_MOV64_IMM (dst im : Z) := Bpf_insn (or3 BPF_ALU64 BPF_MOV BPF_K) dst 0 0 im.
Definition BPF_MOV64_REG (dst src : Z) := Bpf_insn (or3 BPF_ALU64 BPF_MOV BPF_X) dst src 0 0.
Definition BPF_EXIT_INSN := Bpf_insn (Z.lor BPF_JMP BPF_EXIT) 0 0 0 0.
Definition BPF_EMIT_CALL (func : Z) := Bpf_insn (Z.lor BPF_JMP BPF_CALL) 0 0 0 (func - 0).
Definition BPF_LDX_MEM (sz dst src o : Z) := Bpf_insn (or3 BPF_LDX (BPF_SIZE sz) BPF_MEM) dst src o 0.
Definition BPF_STX_MEM (sz dst src o : Z) := Bpf_insn (or3 BPF_STX (BPF_SIZE sz) BPF_MEM) dst src o 0.
Definition BPF_LD_IMM64_RAW_FULL (dst src off1 off2 imm1 imm2 : Z) : list bpf_insn :=
  [Bpf_insn (or3 BPF_LD BPF_DW BPF_IMM) dst src off1 imm1; Bpf_insn 0 0 0 off2 imm2].
Definition BPF_LD_MAP_FD (dst map_fd : Z) : list bpf_insn :=
  BPF_LD_IMM64_RAW_FULL dst BPF_PSEUDO_MAP_FD 0 0 map_fd 0.
Definition BPF_JMP_IMM (op dst im o : Z) := Bpf_insn (or3 BPF_JMP (BPF_OP op) BPF_K) dst 0 o im.
Definition BPF_JMP32_IMM (op dst im o : Z) := Bpf_insn (or3 BPF_JMP32 (BPF_OP op) BPF_K) dst 0 o im.

(** The array of [xsk_load_xdp_prog]. *)
Definition xsk_prog (xsks_map_fd : Z) : list bpf_insn :=
  [BPF_LDX_MEM BPF_W 2 1 16; BPF_STX_MEM BPF_W 10 2 (-4)] ++
  BPF_LD_MAP_FD 1 xsks_map_fd ++
  [BPF_MOV64_IMM 3 2; BPF_EMIT_CALL BPF_FUNC_redirect_map; BPF_JMP32_IMM BPF_JSGT 0 0 13;
   BPF_MOV64_REG 2 10; BPF_ALU64_IMM BPF_ADD 2 (-4)] ++
  BPF_LD_MAP_FD 1 xsks_map_fd ++
  [BPF_EMIT_CALL BPF_FUNC_map_lookup_elem; BPF_MOV64_REG 1 0; BPF_MOV64_IMM 0 2;
   BPF_JMP_IMM BPF_JEQ 1 0 5; BPF_LDX_MEM BPF_W 2 10 (-4)] ++
  BPF_LD_MAP_FD 1 xsks_map_fd ++
  [BPF_MOV64_IMM 3 0; BPF_EMIT_CALL BPF_FUNC_redirect_map; BPF_EXIT_INSN].

(** ** The machine *)

(** What a register holds: a number, or a pointer to the context, to the stack (as
    an offset from the frame pointer), to a map, or to a map value. *)
Inductive val := Num (z : Z) | Ctx (o : Z) | Stack (o : Z) | MapPtr (fd : Z) | ValuePtr.

(** The context is [struct xdp_md] as 32-bit words, the stack keeps 32-bit words by
    offset; a register without a value may not be read. *)
Record machine (H : Type) := Machine {
  pc : Z; regs : list (option val); stack : list (Z * Z); helpers : H
}.
Arguments Machine {H}. Arguments pc {H}. Arguments regs {H}. Arguments stack {H}. Arguments helpers {H}.

(** The kernel's helpers: the state they change, [bpf_redirect_map] and whether
    [bpf_map_lookup_elem] finds an element. *)
Class Helpers (H : Type) := {
  redirect_map : H -> Z -> Z -> Z -> Z * H;
  map_has : H -> Z -> Z -> bool
}.

Section Machine.
Context {H : Type} `{Helpers H} (md : list Z).
Implicit Types m : machine H.

Definition reg m (i : Z) : option val := mjoin (regs m !! Z.to_nat i).
Definition set_reg m (i : Z) (v : val) : machine H :=
  Machine (pc m) (setZ (regs m) i (Some v)) (stack m) (helpers m).
Definition goto m (d : Z) : machine H := Machine (pc m + d) (regs m) (stack m) (helpers m).
Definition set_helpers m (h : H) : machine H := Machine (pc m) (regs m) (stack m) h.
(** A call returns in r0 and leaves r1 to r5 without a value. *)
Definition returns m (v : val) : machine H :=
  Machine (pc m) (Some v :: replicate 5 None ++ drop 6 (regs m)) (stack m) (helpers m).
Fixpoint stack_get (s : list (Z * Z)) (o : Z) : option Z :=
  match s with
  | [] => None
  | (o', v) :: s' => if o =? o' then Some v else stack_get s' o
  end.

Definition load m (v : val) (o : Z) : option Z :=
  match v with
  | Ctx b => if (b + o) mod 4 =? 0 then md !! Z.to_nat ((b + o) / 4) else None
  | Stack b => stack_get (stack m) (b + o)
  | _ => None
  end.
Definition call m (func : Z) : option (machine H) :=
  if func =? BPF_FUNC_redirect_map then
    match reg m 1, reg m 2, reg m 3 with
    | Some (MapPtr fd), Some (Num key), Some (Num flags) =>
        let '(r, h) := redirect_map (helpers m) fd (u32 key) flags in
        Some (set_helpers (returns m (Num (u64 r))) h)
    | _, _, _ => None
    end
  else if func =? BPF_FUNC_map_lookup_elem then
    match reg m 1, reg m 2 with
    | Some (MapPtr fd), Some (Stack o) =>
        match stack_get (stack m) o with
        | Some key => Some (returns m (if map_has (helpers m) fd key then ValuePtr else Num 0))
        | None => None
        end
    | _, _ => None
    end
  else None.

Definition is_zero (v : val) : bool := match v with Num z => z =? 0 | _ => false end.

(** One instruction: the next state, or the number returned by [exit]. *)
Definition step (prog : list bpf_insn) m : option (machine H + Z) :=
  match prog !! Z.to_nat (pc m) with
  | None => None
  | Some i =>
      let c := code i in
      let next m := Some (inl (goto m 1)) in
      if c =? or3 BPF_LDX BPF_W BPF_MEM then
        match reg m (src_reg i) with
        | Some v => match load m v (off i) with
                    | Some z => next (set_reg m (dst_reg i) (Num z)) | None => None end
        | None => None end
      else if c =? or3 BPF_STX BPF_W BPF_MEM then
        match reg m (dst_reg i), reg m (src_reg i) with
        | Some (Stack b), Some (Num z) =>
            next (Machine (pc m) (regs m) ((b + off i, u32 z) :: stack m) (helpers m))
        | _, _ => None end
      else if c =? or3 BPF_LD BPF_DW BPF_IMM then
        if src_reg i =? BPF_PSEUDO_MAP_FD
        then Some (inl (goto (set_reg m (dst_reg i) (MapPtr (imm i))) 2)) else None
      else if c =? or3 BPF_ALU64 BPF_MOV BPF_K then
        next (set_reg m (dst_reg i) (Num (u64 (imm i))))
      else if c =? or3 BPF_ALU64 BPF_MOV BPF_X then
        match reg m (src_reg i) with
        | Some v => next (set_reg m (dst_reg i) v) | None => None end
      else if c =? or3 BPF_ALU64 BPF_ADD BPF_K then
        match reg m (dst_reg i) with
        | Some (Num z) => next (set_reg m (dst_reg i) (Num (u64 (z + imm i))))
        | Some (Stack b) => next (set_reg m (dst_reg i) (Stack (b + imm i)))
        | Some (Ctx b) => next (set_reg m (dst_reg i) (Ctx (b + imm i)))
        | _ => None end
      else if c =? or3 BPF_JMP BPF_JEQ BPF_K then
        match reg m (dst_reg i) with
        | Some v => if imm i =? 0 then
                      Some (inl (goto m (if is_zero v then 1 + off i else 1)))
                    else None
        | None => None end
      else if c =? or3 BPF_JMP32 BPF_JSGT BPF_K then
        match reg m (dst_reg i) with
        | Some (Num z) => Some (inl (goto m (if s32 z >? imm i then 1 + off i else 1)))
        | _ => None end
      else if c =? Z.lor BPF_JMP BPF_CALL then
        match call m (imm i) with Some m => next m | None => None end
      else if c =? Z.lor BPF_JMP BPF_EXIT then
        match reg m 0 with Some (Num z) => Some (inr (u32 z)) | _ => None end
      else None
  end.

(** [fuel] bounds the number of instructions executed. *)
Fixpoint run (fuel : nat) (prog : list bpf_insn) m : option (Z * H) :=
  match fuel with
  | O => None
  | S fuel => match step prog m with
              | Some (inl m) => run fuel prog m
              | Some (inr r) => Some (r, helpers m)
              | None => None
              end
  end.

(** r1 points to the context, r10 to the stack. *)
Definition entry (h : H) : machine H :=
  Machine 0 ([None; Some (Ctx 0)] ++ replicate 8 None ++ [Some (Stack 0)]) [] h.

(** The C program of the comment. *)
Definition xdp_sock_prog (fd : Z) (h : H) : Z * H :=
  let index := getZ md 4 in
  let '(r, h) := redirect_map h fd index 2 in
  if s32 r >? 0 then (u32 r, h)
  else if map_has h fd index then
    let '(r, h) := redirect_map h fd index 0 in (u32 r, h)
  else (2, h).
End Machine.

(** ** The array implements the comment *)

Lemma s32_u64 z : s32 (u64 z) = s32 z. Proof. int_solve. Qed.
Lemma u32_u64 z : u32 (u64 z) = u32 z. Proof. int_solve. Qed.

(** Execution in blocks, up to the next helper call or branch. *)
Ltac exec := cbv -[u32 u64 s32 redirect_map map_has Z.gtb].

(** C26: the instruction array that xsk_load_xdp_prog loads computes the program of
    its comment: for every context, every map and every behaviour of the helpers it
    ends within 18 instructions without a fault (no uninitialised register or stack
    slot is read, both jumps land on the exit instruction), returns the verdict of
    the C program and leaves the state of the helpers as the C program does. *)
Theorem xsk_prog_implements_comment {H : Type} `{Helpers H} (md : list Z) (fd : Z) (h : H) :
  lenZ md = 5 -> Forall is_u32 md ->
  run md 18 (xsk_prog fd) (entry h) = Some (xdp_sock_prog md fd h).
Proof.
  intros Hl Hu.
  destruct md as [|a [|b [|c [|d [|index [|]]]]]]; try (cbn [length] in Hl; lia).
  assert (Hi : is_u32 index) by (do 4 apply Forall_cons_1 in Hu as [_ Hu]; by apply Forall_cons_1 in Hu as [? _]).
  apply u32_small in Hi.
  unfold xdp_sock_prog. change (getZ _ 4) with index.
  assert (H2 : u64 2 = 2) by done. assert (H0' : u64 0 = 0) by done.
  destruct (redirect_map h fd index 2) as [r h1] eqn:E1.
  exec. rewrite Hi, H2, E1. exec. rewrite s32_u64. destruct (s32 r >? 0).
  { exec. by rewrite u32_u64. }
  exec. destruct (map_has h1 fd index); [|done].
  destruct (redirect_map h1 fd index 0) as [r2 h2] eqn:E2.
  exec. rewrite Hi, H0', E2. exec. by rewrite u32_u64.
Qed.

(** A kernel whose map holds queue 3: the program redirects it (verdict 4) and passes
    the others. *)
#[local] Instance demo_helpers : Helpers unit := {|
  redirect_map h _ key flags := (if key =? 3 then 4 else flags, h);
  map_has _ _ key := key =? 3
|}.
Lemma xsk_prog_implements_comment_witness :
  run [0; 64; 0; 1; 3] 18 (xsk_prog 7) (entry tt) = Some (4, tt).
Proof.
  rewrite (xsk_prog_implements_comment [0; 64; 0; 1; 3] 7 tt eq_refl).
  - reflexivity.
  - repeat (constructor; [int_solve|]). constructor.
Defined.
