(* ===== verification/Os.v ===== *)
(** * The operating system the set-up code runs on

    Set-up code acquires and releases resources: heap blocks, file descriptors and
    mappings.  [sys] keeps exactly those, and [errno].  The answers of the system are
    a parameter, the class [Os]; a call that succeeds adds its resource, [close],
    [munmap] and [free] remove it.  What the manual pages promise are the laws
    [OsOk]: new resources are fresh, and a failing call sets a positive [errno]. *)

From S2P Require Import Prelude BpfProg.
#[local] Open Scope Z_scope.
#[local] Open Scope prog_scope.

(** Live file descriptors, mappings (address and length), heap blocks; [errno]; a
    clock, so that the system may answer differently every time. *)
Record sys := Sys {
  fds : list Z;
  maps : list (Z * Z);
  heap : list Z;
  errno : Z;
  clock : nat
}.
Abbreviation K := (M sys).

Definition EFAULT : Z := 14.
Definition EINVAL : Z := 22.
Definition ENOMEM : Z := 12.
Definition EBUSY : Z := 16.
Definition ENOENT : Z := 2.
Definition EOPNOTSUPP : Z := 95.

(** Calls that only return a code: what the caller asks, so that the answer may
    depend on it. *)
Inductive request :=
  | Setsockopt (fd opt : Z) (arg : list Z)
  | Bind (fd ifindex queue flags shared_fd : Z)
  | Bpf_set_link_xdp_fd (ifindex fd flags : Z)
  | Bpf_map_update_elem (fd key value : Z)
  | Bpf_map_delete_elem (fd key : Z)
  | Setrlimit_memlock
  | Pthread_create
  | Ioctl (fd op arg : Z)
  | Epoll_ctl_add (fd target : Z)
  (** the result of [close]; the descriptor is gone in any case *)
  | Close_result (fd : Z).
(** [struct perf_event_attr] where libbpf sets it; [config1] is a pointer to a string. *)
Record perf_event_attr := Perf_attr {
  pe_type : Z; pe_config : Z; pe_config1 : option (list Z); pe_config2 : Z;
  pe_sample_type : Z; pe_sample_period : Z; pe_wakeup_events : Z
}.
(** Calls that return a file descriptor. *)
Inductive opening :=
  | Socket (family : Z)
  | Bpf_create_map (max_entries : Z)
  | Bpf_load_program (prog : list bpf_insn)
  | Bpf_prog_get_fd_by_id (id : Z)
  | Bpf_map_get_fd_by_id (id : Z)
  | Bpf_obj_get (path : list Z)
  | Fopen (path : list Z)
  | Perf_event_open (attr : perf_event_attr) (pid cpu : Z)
  | Epoll_create
  | Raw_tracepoint_open (name : list Z) (prog_fd : Z).
(** Calls that return data: a code and the data, as numbers. *)
Inductive query :=
  | Getsockopt_offsets (fd : Z)
  | If_nametoindex (name : list Z)
  | Ethtool_channels (fd : Z) (name : list Z)
  | Bpf_get_link_xdp_id (ifindex flags : Z)
  | Bpf_prog_map_ids (fd : Z)
  | Bpf_map_name (fd : Z)
  | Bpf_obj_get_info_by_fd (fd : Z)
  | Bpf_map_lookup_elem (fd key : Z)
  | Clock_gettime
  | Fgets (fd size : Z)
  (** the number of conversions and the value; a code is the end of the file *)
  | Fscanf (fd : Z) (fmt : list Z)
  (** type and max_entries *)
  | Bpf_map_info (fd : Z)
  | Num_possible_cpus.

Class Os := {
  os_calloc : sys -> option Z;
  os_mmap : sys -> Z -> Z -> Z -> option Z;
  os_open : sys -> opening -> Z;
  os_do : sys -> request -> Z;
  os_query : sys -> query -> Z * list Z;
  os_errno : sys -> Z;
  getpagesize : Z
}.

Section Calls.
Context `{Os}.

Definition tick (s : sys) : sys := Sys (fds s) (maps s) (heap s) (errno s) (S (clock s)).
Definition fail_with (s : sys) : sys := Sys (fds s) (maps s) (heap s) (os_errno s) (S (clock s)).

Definition calloc : K (option Z) := fun s =>
  match os_calloc s with
  | Some p => Some (Some p, Sys (fds s) (maps s) (p :: heap s) (errno s) (S (clock s)))
  | None => Some (None, fail_with s)
  end.
Definition free (p : Z) : K unit :=
  modify (fun s => Sys (fds s) (maps s) (filter (fun q => q <> p) (heap s)) (errno s) (clock s)).

Definition sys_open (o : opening) : K Z := fun s =>
  let r := os_open s o in
  if r <? 0 then Some (r, fail_with s)
  else Some (r, Sys (r :: fds s) (maps s) (heap s) (errno s) (S (clock s))).
Definition close (fd : Z) : K unit :=
  modify (fun s => Sys (filter (fun q => q <> fd) (fds s)) (maps s) (heap s) (errno s) (S (clock s))).

(** [None] is MAP_FAILED. *)
Definition mmap (len fd pgoff : Z) : K (option Z) := fun s =>
  match os_mmap s len fd pgoff with
  | Some p => Some (Some p, Sys (fds s) ((p, len) :: maps s) (heap s) (errno s) (S (clock s)))
  | None => Some (None, fail_with s)
  end.
(** The kernel has answered a request to map [len] bytes of [fd] from [pgoff] with the address [p]. *)
Definition mapped_to (len fd pgoff p : Z) : Prop := exists s, os_mmap s len fd pgoff = Some p.
(** Unmapping an address that is not mapped (MAP_FAILED among them) changes
    nothing. *)
Definition munmap (p : option Z) (len : Z) : K unit :=
  match p with
  | Some p => modify (fun s =>
      Sys (fds s) (filter (fun m => m <> (p, len)) (maps s)) (heap s) (errno s) (clock s))
  | None => ret tt
  end.

Definition sys_do (r : request) : K Z := fun s =>
  let e := os_do s r in
  if e =? 0 then Some (0, tick s) else Some (e, fail_with s).
Definition sys_query (q : query) : K (Z * list Z) := fun s =>
  let '(e, d) := os_query s q in
  if e =? 0 then Some ((0, d), tick s) else Some ((e, d), fail_with s).
Definition get_errno : K Z := gets errno.
End Calls.

Class OsOk {O : Os} : Prop := {
  calloc_fresh s p : os_calloc s = Some p -> p ∉ heap s;
  open_fresh s o : 0 <= os_open s o -> os_open s o ∉ fds s;
  mmap_fresh s len fd off p len' : os_mmap s len fd off = Some p -> (p, len') ∉ maps s;
  errno_positive s : 0 < os_errno s;
  (** requests and queries return 0 or a negative code *)
  do_code s r : os_do s r <= 0;
  query_code s q : fst (os_query s q) <= 0;
  (** the kernel fills in one of the two layouts of [struct xdp_mmap_offsets] *)
  offsets_layout s fd d :
    os_query s (Getsockopt_offsets fd) = (0, d) -> getZ d 0 = 128 \/ getZ d 0 = 96;
  (** an interface index is not 0 *)
  nametoindex_nonzero s n d : os_query s (If_nametoindex n) = (0, d) -> getZ d 0 <> 0
}.
Arguments OsOk : clear implicits.

(** ** Rules *)

(** The resources the state owns; the rules below keep them as explicit lists.  The
    descriptors are a set: their order does not matter. *)
Definition has (s : sys) (F : list Z) (Mp : list (Z * Z)) (Hp : list Z) : Prop :=
  fds s ≡ₚ F /\ maps s = Mp /\ heap s = Hp.
#[export] Instance has_proper s : Proper ((≡ₚ) ==> eq ==> eq ==> iff) (has s).
Proof. intros F F' HF Mp ? <- Hp ? <-. unfold has. rewrite HF. tauto. Qed.

Section Rules.
Context `{OO : OsOk}.
Context (s : sys) (F : list Z) (Mp : list (Z * Z)) (Hp : list Z) (HS : has s F Mp Hp).

Lemma wp_calloc (Q : option Z -> sys -> Prop) :
  (forall p s', p ∉ Hp -> has s' F Mp (p :: Hp) -> Q (Some p) s') ->
  (forall s', has s' F Mp Hp -> Q None s') -> wp calloc Q s.
Proof using OO HS.
  destruct HS as (HF & <- & <-). intros H1 H2. unfold wp, calloc.
  destruct (os_calloc s) as [p|] eqn:E; [|by apply H2].
  apply H1; [by eapply calloc_fresh|done].
Qed.
Lemma wp_open o (Q : Z -> sys -> Prop) :
  (forall fd s', 0 <= fd -> fd ∉ F -> has s' (fd :: F) Mp Hp -> Q fd s') ->
  (forall r s', r < 0 -> has s' F Mp Hp -> 0 < errno s' -> Q r s') -> wp (sys_open o) Q s.
Proof using OO HS.
  destruct HS as (HF & <- & <-). intros H1 H2. unfold wp, sys_open.
  destruct (Z.ltb_spec (os_open s o) 0).
  - apply H2; try done. apply errno_positive.
  - apply H1; try done; [rewrite <- HF; by apply open_fresh|].
    repeat split. simpl. by rewrite HF.
Qed.
Lemma wp_mmap len fd off (Q : option Z -> sys -> Prop) :
  (forall p s', mapped_to len fd off p -> (p, len) ∉ Mp -> has s' F ((p, len) :: Mp) Hp -> Q (Some p) s') ->
  (forall s', has s' F Mp Hp -> 0 < errno s' -> Q None s') -> wp (mmap len fd off) Q s.
Proof using OO HS.
  destruct HS as (HF & <- & <-). intros H1 H2. unfold wp, mmap.
  destruct (os_mmap s len fd off) as [p|] eqn:E.
  - apply H1; try done; [by exists s|]. by eapply mmap_fresh.
  - apply H2; try done. apply errno_positive.
Qed.
Lemma wp_do r (Q : Z -> sys -> Prop) :
  (forall s', has s' F Mp Hp -> Q 0 s') ->
  (forall e s', e < 0 -> has s' F Mp Hp -> 0 < errno s' -> Q e s') -> wp (sys_do r) Q s.
Proof using OO HS.
  destruct HS as (HF & <- & <-). intros H1 H2. unfold wp, sys_do. pose proof (do_code s r).
  destruct (Z.eqb_spec (os_do s r) 0); [by apply H1|].
  apply H2; [lia|done|]. apply errno_positive.
Qed.
Lemma wp_query q (Q : Z * list Z -> sys -> Prop) :
  (forall d s', os_query s q = (0, d) -> has s' F Mp Hp -> Q (0, d) s') ->
  (forall e d s', os_query s q = (e, d) -> e < 0 -> has s' F Mp Hp -> 0 < errno s' -> Q (e, d) s') ->
  wp (sys_query q) Q s.
Proof using OO HS.
  destruct HS as (HF & <- & <-). intros H1 H2. unfold wp, sys_query.
  pose proof (query_code s q) as Hc.
  destruct (os_query s q) as [e d]; simpl in Hc. destruct (Z.eqb_spec e 0) as [->|]; [by apply H1|].
  apply H2; [done|lia|done|]. apply errno_positive.
Qed.
Lemma wp_errno (Q : Z -> sys -> Prop) : Q (errno s) s -> wp get_errno Q s.
Proof. done. Qed.

Lemma wp_close fd (Q : unit -> sys -> Prop) :
  (forall s', has s' (filter (fun q => q <> fd) F) Mp Hp -> Q tt s') -> wp (close fd) Q s.
Proof using HS. destruct HS as (HF & <- & <-). intros HQ. unfold close. wp_step. apply HQ. repeat split; simpl. by rewrite HF. Qed.
Lemma wp_free p (Q : unit -> sys -> Prop) :
  (forall s', has s' F Mp (filter (fun q => q <> p) Hp) -> Q tt s') -> wp (free p) Q s.
Proof using HS. destruct HS as (HF & <- & <-). intros HQ. unfold free. wp_step. by apply HQ. Qed.
Lemma wp_munmap p len (Q : unit -> sys -> Prop) :
  (forall s', has s' F (filter (fun m => m <> (p, len)) Mp) Hp -> Q tt s') ->
  wp (munmap (Some p) len) Q s.
Proof using HS. destruct HS as (HF & <- & <-). intros HQ. unfold munmap. wp_step. by apply HQ. Qed.
Lemma wp_munmap_failed len (Q : unit -> sys -> Prop) : Q tt s -> wp (munmap None len) Q s.
Proof. done. Qed.
End Rules.

(** Symbolic execution over [has]: one call. *)
Ltac os_call :=
  lazymatch goal with
  | |- wp (bind _ _) _ _ => apply wp_bind
  | |- wp (ret _) _ _ => apply wp_ret
  | |- wp get_errno _ _ => apply wp_errno
  | |- wp calloc _ _ => eapply wp_calloc; [eassumption|intros ? ? ? ?|intros ? ?]
  | |- wp (sys_open _) _ _ => eapply wp_open; [eassumption|intros ? ? ? ? ?|intros ? ? ? ? ?]
  | |- wp (mmap _ _ _) _ _ => eapply wp_mmap; [eassumption|intros ? ? ? ? ?|intros ? ? ?]
  | |- wp (sys_do _) _ _ => eapply wp_do; [eassumption|intros ? ?|intros ? ? ? ? ?]
  | |- wp (sys_query _) _ _ => eapply wp_query; [eassumption|intros ? ? ? ?|intros ? ? ? ? ? ? ?]
  | |- wp (close _) _ _ => eapply wp_close; [eassumption|intros ? ?]
  | |- wp (free _) _ _ => eapply wp_free; [eassumption|intros ? ?]
  | |- wp (munmap (Some _) _) _ _ => eapply wp_munmap; [eassumption|intros ? ?]
  | |- wp (munmap None _) _ _ => apply wp_munmap_failed
  end; cbv beta.
(** Releasing what is at the head of a list gives the list back. *)
Ltac os_release :=
  repeat match goal with
  | H : has _ (filter _ (_ :: _)) _ _ |- _ => rewrite filter_cons_fresh in H by done
  | H : has _ _ (filter _ (_ :: _)) _ |- _ => rewrite filter_cons_fresh in H by done
  | H : has _ _ _ (filter _ (_ :: _)) |- _ => rewrite filter_cons_fresh in H by done
  end.
(** The guards on error codes. *)
Ltac os_guard :=
  match goal with
  | H : ?e < 0 |- context [?e =? 0] => rewrite (proj2 (Z.eqb_neq e 0)) by lia
  | H : ?e < 0 |- context [?e <? 0] => rewrite (proj2 (Z.ltb_lt e 0)) by lia
  | H : 0 <= ?e |- context [?e <? 0] => rewrite (proj2 (Z.ltb_ge e 0)) by lia
  | |- context [0 =? 0] => rewrite Z.eqb_refl
  end; cbn [negb].
Ltac os_steps := repeat (first [os_call | os_guard]; os_release).

(** ** An instance

    The laws can hold.  This system always grants what it is asked; resources are numbered upwards. *)
Definition fresh_z (l : list Z) : Z := 1 + foldr Z.max 0 l.
Lemma fresh_z_nonneg l : 0 <= fresh_z l.
Proof. unfold fresh_z. induction l; simpl; lia. Qed.
Lemma fresh_z_above l x : x ∈ l -> x < fresh_z l.
Proof. unfold fresh_z. induction 1; simpl; lia. Qed.

#[local] Instance demo_os : Os := {|
  os_calloc s := Some (fresh_z (heap s));
  os_mmap s _ _ _ := Some (fresh_z (map fst (maps s)));
  os_open s _ := fresh_z (fds s);
  os_do _ _ := 0;
  os_query _ q := match q with
    | Getsockopt_offsets _ => (0, 128 :: [0; 64; 128; 192; 0; 64; 128; 192; 0; 64; 128; 192; 0; 64; 128; 192])
    | If_nametoindex _ => (0, [5])
    | Ethtool_channels _ _ => (0, [4])
    | Bpf_get_link_xdp_id _ _ => (0, [0])
    | Bpf_prog_map_ids _ => (0, [])
    | _ => (0, [])
    end;
  os_errno _ := EINVAL;
  getpagesize := 4096
|}.
#[local] Instance demo_os_ok : OsOk demo_os.
Proof.
  split; simpl.
  - intros s p [= <-] Hin. apply fresh_z_above in Hin. lia.
  - intros s o _ Hin. apply fresh_z_above in Hin. lia.
  - intros s len fd off p len' [= <-] Hin. apply list_elem_of_In, (in_map fst), list_elem_of_In, fresh_z_above in Hin.
    simpl in Hin. lia.
  - by unfold EINVAL.
  - done.
  - by intros s [].
  - intros s fd d [= <-]. by left.
  - by intros s n d [= <-].
Qed.
Definition demo_state : sys := Sys [0; 1; 2] [] [] 0 0.
