(* ===== verification/XskCreate.v ===== *)
(** * Creating and deleting AF_XDP sockets: libbpf/src/xsk.c

    [xsk_umem__create], [xsk_socket__create], the set-up of the XDP program and the
    maps, and the two delete functions, over the system of [Os].  A [goto] to a
    cleanup label is a call of the cleanup code.  The wrappers of bpf.c and netlink.c
    appear as the system call they make.  The theorems
    are in [XskResources]. *)

From S2P Require Import Prelude Ring BpfProg Os.
#[local] Open Scope Z_scope.
#[local] Open Scope prog_scope.

Definition AF_XDP : Z := 44.
Definition AF_INET : Z := 2.
Definition XDP_RX_RING : Z := 2.
Definition XDP_TX_RING : Z := 3.
Definition XDP_UMEM_REG : Z := 4.
Definition XDP_UMEM_FILL_RING : Z := 5.
Definition XDP_UMEM_COMPLETION_RING : Z := 6.
Definition XDP_PGOFF_RX_RING : Z := 0.
Definition XDP_PGOFF_TX_RING : Z := 0x80000000.
Definition XDP_UMEM_PGOFF_FILL_RING : Z := 0x100000000.
Definition XDP_UMEM_PGOFF_COMPLETION_RING : Z := 0x180000000.
Definition XDP_SHARED_UMEM : Z := 1.
Definition XSK_LIBBPF_FLAGS__INHIBIT_PROG_LOAD : Z := 1.
Definition DEFAULT_NUM_DESCS : Z := 2048.
Definition DEFAULT_FRAME_SIZE : Z := Z.shiftl 1 12.
Definition IFNAMSIZ : nat := 16.
Definition sizeof_u64 : Z := 8.
Definition sizeof_xdp_desc : Z := 16.

Record xsk_umem_config := Xsk_umem_config {
  fill_size : Z; comp_size : Z; frame_size : Z; frame_headroom : Z; umem_flags : Z
}.
Record xsk_socket_config := Xsk_socket_config {
  rx_size : Z; tx_size : Z; libbpf_flags : Z; xdp_flags : Z; bind_flags : Z
}.

(** The fields of a ring structure that set-up writes, pointers as addresses. *)
Record ring_hdr := Ring_hdr {
  rh_cached_prod : Z; rh_cached_cons : Z; rh_mask : Z; rh_size : Z;
  rh_producer : Z; rh_consumer : Z; rh_flags : Z; rh_ring : Z
}.

(** A ring structure in zeroed memory. *)
Definition zero_ring : ring_hdr := Ring_hdr 0 0 0 0 0 0 0 0.

(** [struct xsk_umem]; [um_ptr] is its own address, its rings are held by value. *)
Record xsk_umem := Xsk_umem {
  um_ptr : Z; um_fill : ring_hdr; um_comp : ring_hdr; um_area : Z;
  um_config : xsk_umem_config; um_fd : Z; um_refcount : Z
}.

(** [struct xsk_socket], without [outstanding_tx], which is set to zero and never read,
    and the pointer to the umem, which the operations take beside the socket. *)
Record xsk_socket := Xsk_socket {
  xs_ptr : Z; xs_rx : option ring_hdr; xs_tx : option ring_hdr; xs_config : xsk_socket_config;
  xs_fd : Z; xs_ifindex : Z; xs_prog_fd : Z; xs_xsks_map_fd : Z; xs_queue_id : Z;
  xs_ifname : list Z
}.

(** The result, the umem (its reference count changes) and the socket. *)
Abbreviation sock_result := (Z * option xsk_umem * option xsk_socket)%type.

(** [struct xdp_mmap_offsets]: 16 64-bit words, per ring producer, consumer, desc and
    flags, in the order rx, tx, fill, completion. *)
Abbreviation offsets := (list Z).
Record ring_offset := Ring_offset { o_producer : Z; o_consumer : Z; o_desc : Z; o_flags : Z }.
Definition ring_off (off : offsets) (i : Z) : ring_offset :=
  Ring_offset (getZ off (4 * i)) (getZ off (4 * i + 1)) (getZ off (4 * i + 2)) (getZ off (4 * i + 3)).
Abbreviation off_rx off := (ring_off off 0).
Abbreviation off_tx off := (ring_off off 1).
Abbreviation off_fr off := (ring_off off 2).
Abbreviation off_cr off := (ring_off off 3).
Definition sizeof_xdp_mmap_offsets : Z := 128.
Definition sizeof_xdp_mmap_offsets_v1 : Z := 96.

Section Create.
Context `{Os}.

Definition xsk_umem__fd (umem : option xsk_umem) : Z :=
  match umem with Some u => um_fd u | None => - EINVAL end.
Definition xsk_socket__fd (xsk : option xsk_socket) : Z :=
  match xsk with Some x => xs_fd x | None => - EINVAL end.

Definition xsk_page_aligned (buffer : Z) : bool := Z.land buffer (getpagesize - 1) =? 0.

Definition xsk_set_umem_config (usr_cfg : option xsk_umem_config) : xsk_umem_config :=
  match usr_cfg with
  | None => Xsk_umem_config DEFAULT_NUM_DESCS DEFAULT_NUM_DESCS DEFAULT_FRAME_SIZE 0 0
  | Some u => Xsk_umem_config (fill_size u) (comp_size u) (frame_size u) (frame_headroom u) (umem_flags u)
  end.

Definition xsk_set_xdp_socket_config (usr_cfg : option xsk_socket_config) : Z + xsk_socket_config :=
  match usr_cfg with
  | None => inr (Xsk_socket_config DEFAULT_NUM_DESCS DEFAULT_NUM_DESCS 0 0 0)
  | Some u =>
      if negb (Z.land (libbpf_flags u) (Z.lnot XSK_LIBBPF_FLAGS__INHIBIT_PROG_LOAD) =? 0)
      then inl (- EINVAL)
      else inr (Xsk_socket_config (rx_size u) (tx_size u) (libbpf_flags u) (xdp_flags u) (bind_flags u))
  end.

(** The first 96 bytes hold the offsets in the old layout, three words per ring. *)
Definition xsk_mmap_offsets_v1 (off : offsets) : offsets :=
  let v1 i := getZ off i in
  let ring i := [v1 (3 * i); v1 (3 * i + 1); v1 (3 * i + 2); u64 (v1 (3 * i + 1) + 4)] in
  ring 0 ++ ring 1 ++ ring 2 ++ ring 3.

(** The data of the query are the option length and the words. *)
Definition xsk_get_mmap_offsets (fd : Z) : K (Z * offsets) :=
  let! (err, d) := sys_query (Getsockopt_offsets fd) in
  if negb (err =? 0) then ret (err, [])
  else
    let optlen := getZ d 0 in
    let off := tail d in
    if optlen =? sizeof_xdp_mmap_offsets then ret (0, off)
    else if optlen =? sizeof_xdp_mmap_offsets_v1 then ret (0, xsk_mmap_offsets_v1 off)
    else ret (- EINVAL, []).

(** A ring structure over the mapping [map]; [cached_cons] is set for the rings the
    program produces into. *)
Definition setup_ring (r : ring_hdr) (map : Z) (o : ring_offset) (sz : Z) (cons : Z) : ring_hdr :=
  Ring_hdr (rh_cached_prod r) cons (u32 (sz - 1)) sz
    (map + o_producer o) (map + o_consumer o) (map + o_flags o) (map + o_desc o).

Definition map_len (o : ring_offset) (sz entry : Z) : Z := u64 (o_desc o + sz * entry).

(** [fill] and [comp] are the caller's ring structures; a null argument is [None]
    or the area 0. *)
Definition xsk_umem__create_v0_0_4 (umem_area size : Z) (fill comp : option ring_hdr)
    (usr_config : option xsk_umem_config) : K (Z * option xsk_umem) :=
  match fill, comp with
  | Some fill, Some comp =>
      if umem_area =? 0 then ret (- EFAULT, None)
      else if (size =? 0) && negb (xsk_page_aligned umem_area) then ret (- EINVAL, None)
      else
        let! m := calloc in
        match m with
        | None => ret (- ENOMEM, None)
        | Some ptr =>
            let! fd := sys_open (Socket AF_XDP) in
            let out_umem_alloc err := free ptr ;;; ret (err, None) in
            if fd <? 0 then let! e := get_errno in out_umem_alloc (- e)
            else
              let cfg := xsk_set_umem_config usr_config in
              let out_socket err := close fd ;;; out_umem_alloc err in
              let! err := sys_do (Setsockopt fd XDP_UMEM_REG
                [umem_area; size; frame_size cfg; frame_headroom cfg; umem_flags cfg]) in
              if negb (err =? 0) then let! e := get_errno in out_socket (- e)
              else
                let! err := sys_do (Setsockopt fd XDP_UMEM_FILL_RING [fill_size cfg]) in
                if negb (err =? 0) then let! e := get_errno in out_socket (- e)
                else
                  let! err := sys_do (Setsockopt fd XDP_UMEM_COMPLETION_RING [comp_size cfg]) in
                  if negb (err =? 0) then let! e := get_errno in out_socket (- e)
                  else
                    let! (err, off) := xsk_get_mmap_offsets fd in
                    if negb (err =? 0) then let! e := get_errno in out_socket (- e)
                    else
                      let fill_len := map_len (off_fr off) (fill_size cfg) sizeof_u64 in
                      let! map := mmap fill_len fd XDP_UMEM_PGOFF_FILL_RING in
                      match map with
                      | None => let! e := get_errno in out_socket (- e)
                      | Some p =>
                          let fill := setup_ring fill p (off_fr off) (fill_size cfg) (fill_size cfg) in
                          let! map := mmap (map_len (off_cr off) (comp_size cfg) sizeof_u64) fd
                                        XDP_UMEM_PGOFF_COMPLETION_RING in
                          match map with
                          | None =>
                              let! e := get_errno in
                              munmap map fill_len ;;;
                              out_socket (- e)
                          | Some q =>
                              let comp := setup_ring comp q (off_cr off) (comp_size cfg)
                                            (rh_cached_cons comp) in
                              ret (0, Some (Xsk_umem ptr fill comp umem_area cfg fd 0))
                          end
                      end
        end
  | _, _ => ret (- EFAULT, None)
  end.

(** The old configuration has no flags. *)
Definition xsk_umem__create_v0_0_2 (umem_area size : Z) (fill comp : option ring_hdr)
    (usr_config : xsk_umem_config) : K (Z * option xsk_umem) :=
  let config := Xsk_umem_config (fill_size usr_config) (comp_size usr_config)
                  (frame_size usr_config) (frame_headroom usr_config) 0 in
  xsk_umem__create_v0_0_4 umem_area size fill comp (Some config).

(** ** The program and its map *)

Definition set_prog (x : xsk_socket) (prog_fd map_fd : Z) : xsk_socket :=
  Xsk_socket (xs_ptr x) (xs_rx x) (xs_tx x) (xs_config x) (xs_fd x) (xs_ifindex x)
    prog_fd map_fd (xs_queue_id x) (xs_ifname x).

Definition xsk_load_xdp_prog (x : xsk_socket) : K (Z * xsk_socket) :=
  let! prog_fd := sys_open (Bpf_load_program (xsk_prog (xs_xsks_map_fd x))) in
  if prog_fd <? 0 then ret (prog_fd, x)
  else
    let! err := sys_do (Bpf_set_link_xdp_fd (xs_ifindex x) prog_fd (xdp_flags (xs_config x))) in
    if negb (err =? 0) then close prog_fd ;;; ret (err, x)
    else ret (0, set_prog x prog_fd (xs_xsks_map_fd x)).

Definition xsk_get_max_queues (x : xsk_socket) : K Z :=
  let! fd := sys_open (Socket AF_INET) in
  if fd <? 0 then let! e := get_errno in ret (- e)
  else
    let! (err, d) := sys_query (Ethtool_channels fd (take (IFNAMSIZ - 1) (xs_ifname x) ++ [0])) in
    let! e := get_errno in
    let max_combined := s32 (getZ d 0) in
    let r := if negb (err =? 0) && negb (e =? EOPNOTSUPP) then - e
             else if negb (err =? 0) || (max_combined =? 0) then 1
             else max_combined in
    close fd ;;; ret r.

Definition xsk_create_bpf_maps (x : xsk_socket) : K (Z * xsk_socket) :=
  let! max_queues := xsk_get_max_queues x in
  if max_queues <? 0 then ret (max_queues, x)
  else
    let! fd := sys_open (Bpf_create_map max_queues) in
    if fd <? 0 then ret (fd, x)
    else ret (0, set_prog x (xs_prog_fd x) fd).

Definition xsk_delete_bpf_maps (x : xsk_socket) : K unit :=
  let! _ := sys_do (Bpf_map_delete_elem (xs_xsks_map_fd x) (xs_queue_id x)) in
  close (xs_xsks_map_fd x).

(** "xsks_map" *)
Definition xsks_map_name : list Z := [120; 115; 107; 115; 95; 109; 97; 112].

Fixpoint lookup_maps (ids : list Z) (found : Z) : K Z :=
  match ids with
  | [] => ret found
  | id :: ids' =>
      let! fd := sys_open (Bpf_map_get_fd_by_id id) in
      if fd <? 0 then lookup_maps ids' found
      else
        let! (err, name) := sys_query (Bpf_map_name fd) in
        if negb (err =? 0) then close fd ;;; lookup_maps ids' found
        else if decide (name = xsks_map_name) then lookup_maps ids' fd
        else close fd ;;; lookup_maps ids' found
  end.

Definition xsk_lookup_bpf_maps (x : xsk_socket) : K (Z * xsk_socket) :=
  let! (err, _) := sys_query (Bpf_prog_map_ids (xs_prog_fd x)) in
  if negb (err =? 0) then ret (err, x)
  else
    let! m := calloc in
    match m with
    | None => ret (- ENOMEM, x)
    | Some map_ids =>
        let! (err, ids) := sys_query (Bpf_prog_map_ids (xs_prog_fd x)) in
        if negb (err =? 0) then free map_ids ;;; ret (err, x)
        else
          let! found := lookup_maps ids (-1) in
          free map_ids ;;;
          ret (if found =? -1 then - ENOENT else 0, set_prog x (xs_prog_fd x) found)
    end.

Definition xsk_set_bpf_maps (x : xsk_socket) : K Z :=
  sys_do (Bpf_map_update_elem (xs_xsks_map_fd x) (xs_queue_id x) (xs_fd x)).

Definition xsk_setup_xdp_prog (x : xsk_socket) : K (Z * xsk_socket) :=
  let! (err, d) := sys_query (Bpf_get_link_xdp_id (xs_ifindex x) (xdp_flags (xs_config x))) in
  if negb (err =? 0) then ret (err, x)
  else
    let prog_id := getZ d 0 in
    let! (err, x) :=
      if prog_id =? 0 then
        let! (err, x) := xsk_create_bpf_maps x in
        if negb (err =? 0) then ret (err, x)
        else
          let! (err, x) := xsk_load_xdp_prog x in
          if negb (err =? 0) then xsk_delete_bpf_maps x ;;; ret (err, x)
          else ret (0, x)
      else
        let! fd := sys_open (Bpf_prog_get_fd_by_id prog_id) in
        let x := set_prog x fd (xs_xsks_map_fd x) in
        if fd <? 0 then let! e := get_errno in ret (- e, x)
        else
          let! (err, x) := xsk_lookup_bpf_maps x in
          if negb (err =? 0) then close (xs_prog_fd x) ;;; ret (err, x)
          else ret (0, x) in
    if negb (err =? 0) then ret (err, x)
    else
      let! err := match xs_rx x with Some _ => xsk_set_bpf_maps x | None => ret 0 end in
      if negb (err =? 0) then
        xsk_delete_bpf_maps x ;;;
        close (xs_prog_fd x) ;;;
        ret (err, x)
      else ret (0, x).

Definition set_refcount (u : xsk_umem) (n : Z) : xsk_umem :=
  Xsk_umem (um_ptr u) (um_fill u) (um_comp u) (um_area u) (um_config u) (um_fd u) n.

(** ** [xsk_socket__create]: the cleanup labels, each falling through to the next *)

Definition out_xsk_alloc (ptr : Z) (u : xsk_umem) (err : Z) : K sock_result :=
  free ptr ;;; ret (err, Some u, None).
Definition out_socket (ptr fd : Z) (u : xsk_umem) (err : Z) : K sock_result :=
  let u := set_refcount u (um_refcount u - 1) in
  (if negb (um_refcount u =? 0) then close fd else ret tt) ;;;
  out_xsk_alloc ptr u err.
(** A ring the caller asked for and its mapping ([None] is MAP_FAILED). *)
Definition munmap_ring (m : option (option Z)) (len : Z) : K unit :=
  match m with Some p => munmap p len | None => ret tt end.
Definition out_mmap_rx (ptr fd : Z) (u : xsk_umem) (rx_map : option (option Z)) (rx_len : Z) (err : Z) :=
  munmap_ring rx_map rx_len ;;; out_socket ptr fd u err.
Definition mmap_ring (r : option ring_hdr) (len fd pgoff : Z) : K (option (option Z)) :=
  match r with
  | Some _ => let! m := mmap len fd pgoff in ret (Some m)
  | None => ret None
  end.
Definition setup_mapped (r : option ring_hdr) (m : option (option Z)) (o : ring_offset) (sz : Z)
    (cons : ring_hdr -> Z) : option ring_hdr :=
  match r, m with
  | Some r, Some (Some p) => Some (setup_ring r p o sz (cons r))
  | _, _ => None
  end.
Definition inhibited (cfg : xsk_socket_config) : bool :=
  negb (Z.land (libbpf_flags cfg) XSK_LIBBPF_FLAGS__INHIBIT_PROG_LOAD =? 0).

(** From the bind on; [rx_map], [tx_map] are the mappings made. *)
Definition socket_bind (ptr fd : Z) (u : xsk_umem) (cfg : xsk_socket_config) (ifname : list Z)
    (ifindex queue_id : Z) (rx tx : option ring_hdr) (rx_map tx_map : option (option Z))
    (rx_len tx_len : Z) : K sock_result :=
  let out_mmap_tx err := munmap_ring tx_map tx_len ;;; out_mmap_rx ptr fd u rx_map rx_len err in
  let! err := sys_do (if um_refcount u >? 1
    then Bind fd ifindex queue_id XDP_SHARED_UMEM (um_fd u)
    else Bind fd ifindex queue_id (bind_flags cfg) 0) in
  if negb (err =? 0) then let! e := get_errno in out_mmap_tx (- e)
  else
    let x := Xsk_socket ptr rx tx cfg fd ifindex (-1) 0 queue_id ifname in
    let! (err, x) := if negb (inhibited cfg) then xsk_setup_xdp_prog x else ret (0, x) in
    if negb (err =? 0) then out_mmap_tx err
    else ret (0, Some u, Some x).

(** Mapping the rings. *)
Definition socket_maps (ptr fd : Z) (u : xsk_umem) (cfg : xsk_socket_config) (ifname : list Z)
    (ifindex queue_id : Z) (rx tx : option ring_hdr) : K sock_result :=
  let! (err, off) := xsk_get_mmap_offsets fd in
  if negb (err =? 0) then let! e := get_errno in out_socket ptr fd u (- e)
  else
    let rx_len := map_len (off_rx off) (rx_size cfg) sizeof_xdp_desc in
    let tx_len := map_len (off_tx off) (tx_size cfg) sizeof_xdp_desc in
    let! rx_map := mmap_ring rx rx_len fd XDP_PGOFF_RX_RING in
    match rx_map with
    | Some None => let! e := get_errno in out_socket ptr fd u (- e)
    | _ =>
        let rx := setup_mapped rx rx_map (off_rx off) (rx_size cfg) rh_cached_cons in
        let! tx_map := mmap_ring tx tx_len fd XDP_PGOFF_TX_RING in
        match tx_map with
        | Some None => let! e := get_errno in out_mmap_rx ptr fd u rx_map rx_len (- e)
        | _ =>
            let tx := setup_mapped tx tx_map (off_tx off) (tx_size cfg) (fun _ => tx_size cfg) in
            socket_bind ptr fd u cfg ifname ifindex queue_id rx tx rx_map tx_map rx_len tx_len
        end
    end.

(** The interface and the sizes of the rings. *)
Definition socket_options (ptr fd : Z) (u : xsk_umem) (cfg : xsk_socket_config) (ifname : list Z)
    (queue_id : Z) (rx tx : option ring_hdr) : K sock_result :=
  let! (e0, d) := sys_query (If_nametoindex ifname) in
  let ifindex := if e0 =? 0 then getZ d 0 else 0 in
  if ifindex =? 0 then let! e := get_errno in out_socket ptr fd u (- e)
  else
    let name := take (IFNAMSIZ - 1) ifname ++ [0] in
    let! err := match rx with
      | Some _ => sys_do (Setsockopt fd XDP_RX_RING [rx_size cfg]) | None => ret 0 end in
    if negb (err =? 0) then let! e := get_errno in out_socket ptr fd u (- e)
    else
      let! err := match tx with
        | Some _ => sys_do (Setsockopt fd XDP_TX_RING [tx_size cfg]) | None => ret 0 end in
      if negb (err =? 0) then let! e := get_errno in out_socket ptr fd u (- e)
      else socket_maps ptr fd u cfg name ifindex queue_id rx tx.

(** [ifname] is a pointer; it is read once the socket is there. *)
Definition xsk_socket__create (ifname : option (list Z)) (queue_id : Z) (umem : option xsk_umem)
    (rx tx : option ring_hdr) (usr_config : option xsk_socket_config) : K sock_result :=
  match umem with
  | None => ret (- EFAULT, None, None)
  | Some u =>
      if negb (match rx, tx with None, None => false | _, _ => true end)
      then ret (- EFAULT, Some u, None)
      else
        let! m := calloc in
        match m with
        | None => ret (- ENOMEM, Some u, None)
        | Some ptr =>
            match xsk_set_xdp_socket_config usr_config with
            | inl err => out_xsk_alloc ptr u err
            | inr cfg =>
                if negb (um_refcount u =? 0) && negb (inhibited cfg)
                then out_xsk_alloc ptr u (- EBUSY)
                else
                  let shared := um_refcount u >? 0 in
                  let u := set_refcount u (um_refcount u + 1) in
                  let! fd := if shared then sys_open (Socket AF_XDP) else ret (um_fd u) in
                  if shared && (fd <? 0) then let! e := get_errno in out_xsk_alloc ptr u (- e)
                  else let! ifname := deref ifname in socket_options ptr fd u cfg ifname queue_id rx tx
            end
        end
  end.

Definition xsk_umem__delete (umem : option xsk_umem) : K Z :=
  match umem with
  | None => ret 0
  | Some u =>
      if negb (um_refcount u =? 0) then ret (- EBUSY)
      else
        let! (err, off) := xsk_get_mmap_offsets (um_fd u) in
        (if err =? 0 then
           munmap (Some (rh_ring (um_fill u) - o_desc (off_fr off)))
             (map_len (off_fr off) (fill_size (um_config u)) sizeof_u64) ;;;
           munmap (Some (rh_ring (um_comp u) - o_desc (off_cr off)))
             (map_len (off_cr off) (comp_size (um_config u)) sizeof_u64)
         else ret tt) ;;;
        close (um_fd u) ;;;
        free (um_ptr u) ;;;
        ret 0
  end.

Definition xsk_socket__delete (xsk : option xsk_socket) (umem : xsk_umem) : K xsk_umem :=
  match xsk with
  | None => ret umem
  | Some x =>
      (if negb (xs_prog_fd x =? -1) then
         xsk_delete_bpf_maps x ;;;
         close (xs_prog_fd x)
       else ret tt) ;;;
      let! (err, off) := xsk_get_mmap_offsets (xs_fd x) in
      (if err =? 0 then
         match xs_rx x with
         | Some r => munmap (Some (rh_ring r - o_desc (off_rx off)))
                       (map_len (off_rx off) (rx_size (xs_config x)) sizeof_xdp_desc)
         | None => ret tt end ;;;
         match xs_tx x with
         | Some r => munmap (Some (rh_ring r - o_desc (off_tx off)))
                       (map_len (off_tx off) (tx_size (xs_config x)) sizeof_xdp_desc)
         | None => ret tt end
       else ret tt) ;;;
      let umem := set_refcount umem (um_refcount umem - 1) in
      (if negb (xs_fd x =? um_fd umem) then close (xs_fd x) else ret tt) ;;;
      free (xs_ptr x) ;;;
      ret umem
  end.
End Create.
