(* ===== verification/XskResources.v ===== *)
(** * What creating and deleting AF_XDP sockets owns and releases

    Theorems on the set-up code of [XskCreate]: which descriptors, mappings and heap
    blocks a call owns when it succeeds and that it keeps none when it fails (with
    the exceptions the code has), that deleting gives them back, the rule on sharing
    a umem, and that the rings handed out satisfy the ring invariants of [Ring]. *)

From stdpp Require Import sets.
From S2P Require Import Prelude Ring BpfProg Os XskCreate.
#[local] Open Scope Z_scope.
#[local] Open Scope prog_scope.

(** The offsets the data of a successful query describe. *)
Definition decode_offsets (d : list Z) : offsets :=
  if getZ d 0 =? sizeof_xdp_mmap_offsets then tail d else xsk_mmap_offsets_v1 (tail d).
(** Offsets the kernel has reported for a socket. *)
Definition reported `{Os} (fd : Z) (off : offsets) : Prop :=
  exists s d, os_query s (Getsockopt_offsets fd) = (0, d) /\ off = decode_offsets d.
(** The kernel has refused to report them once. *)
Definition refused `{Os} (fd : Z) : Prop :=
  exists s e d, os_query s (Getsockopt_offsets fd) = (e, d) /\ e <> 0.

(** The mapping behind a ring. *)
Definition mapping (r : ring_hdr) (o : ring_offset) (sz entry : Z) : Z * Z :=
  (rh_ring r - o_desc o, map_len o sz entry).
Lemma mapping_setup r p o sz cons entry :
  mapping (setup_ring r p o sz cons) o sz entry = (p, map_len o sz entry).
Proof. unfold mapping, setup_ring. simpl. f_equal. lia. Qed.

(** What a successful [xsk_umem__create] owns on top of [F], [Mp], [Hp]. *)
Definition owns_umem `{Os} (u : xsk_umem) (F : list Z) (Mp : list (Z * Z)) (Hp : list Z) (s' : sys) : Prop :=
  exists off, reported (um_fd u) off /\
    let fill := mapping (um_fill u) (off_fr off) (fill_size (um_config u)) sizeof_u64 in
    let comp := mapping (um_comp u) (off_cr off) (comp_size (um_config u)) sizeof_u64 in
    (um_ptr u ∉ Hp) /\ (um_fd u ∉ F) /\ 0 <= um_fd u /\ (fill ∉ Mp) /\ (comp ∉ fill :: Mp) /\
    has s' (um_fd u :: F) (comp :: fill :: Mp) (um_ptr u :: Hp).

(** The pointers of a ring structure are at the offsets [o] of a mapping in [Mp], one that the
    kernel made for the ring [pgoff] of the socket [fd]. *)
Definition ring_at `{Os} (Mp : list (Z * Z)) (fd pgoff : Z) (o : ring_offset) (sz entry : Z) (r : ring_hdr) : Prop :=
  exists p, mapped_to (map_len o sz entry) fd pgoff p /\ (p, map_len o sz entry) ∈ Mp /\
    rh_producer r = p + o_producer o /\ rh_consumer r = p + o_consumer o /\ rh_flags r = p + o_flags o /\ rh_ring r = p + o_desc o.
(** The rings of a umem and of a socket are where the kernel says that they are. *)
Definition umem_rings `{Os} (u : xsk_umem) (Mp : list (Z * Z)) : Prop :=
  exists off, reported (um_fd u) off /\
    ring_at Mp (um_fd u) XDP_UMEM_PGOFF_FILL_RING (off_fr off) (fill_size (um_config u)) sizeof_u64 (um_fill u) /\
    ring_at Mp (um_fd u) XDP_UMEM_PGOFF_COMPLETION_RING (off_cr off) (comp_size (um_config u)) sizeof_u64 (um_comp u).
Definition opt_ring_at `{Os} (Mp : list (Z * Z)) (fd pgoff : Z) (o : ring_offset) (sz : Z) (r : option ring_hdr) : Prop :=
  match r with Some r => ring_at Mp fd pgoff o sz sizeof_xdp_desc r | None => True end.
Definition sock_rings `{Os} (x : xsk_socket) (Mp : list (Z * Z)) : Prop :=
  exists off, reported (xs_fd x) off /\
    opt_ring_at Mp (xs_fd x) XDP_PGOFF_RX_RING (off_rx off) (rx_size (xs_config x)) (xs_rx x) /\
    opt_ring_at Mp (xs_fd x) XDP_PGOFF_TX_RING (off_tx off) (tx_size (xs_config x)) (xs_tx x).
Lemma ring_at_setup `{Os} Mp r p fd pgoff o sz cons entry : mapped_to (map_len o sz entry) fd pgoff p -> (p, map_len o sz entry) ∈ Mp ->
  ring_at Mp fd pgoff o sz entry (setup_ring r p o sz cons).
Proof. intros H1 H2. by exists p. Qed.
Lemma ring_at_mono `{Os} (Mp Mq : list (Z * Z)) fd pgoff o sz entry r : (forall m, m ∈ Mp -> m ∈ Mq) -> ring_at Mp fd pgoff o sz entry r -> ring_at Mq fd pgoff o sz entry r.
Proof. intros Hs (p & H1 & H2 & H3). exists p. auto. Qed.

(** What set-up has written into the caller's ring structure. *)
Definition ring_ready (r0 r : option ring_hdr) (sz : Z) (cons : ring_hdr -> Z) : Prop :=
  match r0, r with
  | Some r0, Some r => rh_cached_prod r = rh_cached_prod r0 /\ rh_cached_cons r = cons r0 /\
      rh_mask r = u32 (sz - 1) /\ rh_size r = sz
  | None, None => True
  | _, _ => False
  end.

(** What [xsk_umem__create] leaves behind; a failure may leave a mapping of the
    length of the fill ring. *)
Definition umem_post `{Os} (fill comp : option ring_hdr) (cfg : option xsk_umem_config)
    (F : list Z) (Mp : list (Z * Z)) (Hp : list Z) (r : Z * option xsk_umem) (s' : sys) : Prop :=
  match r with
  | (err, Some u) => err = 0 /\ um_refcount u = 0 /\ owns_umem u F Mp Hp s' /\
      um_config u = xsk_set_umem_config cfg /\
      ring_ready fill (Some (um_fill u)) (fill_size (um_config u)) (fun _ => fill_size (um_config u)) /\
      ring_ready comp (Some (um_comp u)) (comp_size (um_config u)) rh_cached_cons /\ umem_rings u (maps s')
  | (err, None) => err < 0 /\ (has s' F Mp Hp \/ exists p off,
      has s' F ((p, map_len (off_fr off) (fill_size (xsk_set_umem_config cfg)) sizeof_u64) :: Mp) Hp)
  end.

Lemma fresh_disjoint {A} (a : A) l : a ∉ l -> [a] ## l.
Proof. intros Ha b Hb Hl. apply list_elem_of_singleton in Hb. by subst. Qed.
Lemma disjoint_fresh {A} (a : A) l : [a] ## l -> a ∉ l.
Proof. intros Ha Hl. apply (Ha a); [by apply list_elem_of_singleton|done]. Qed.
Lemma nil_disjoint {A} (l : list A) : [] ## l.
Proof. intros b Hb. by apply elem_of_nil in Hb. Qed.

Section Resources.
Context `{OO : OsOk}.

Lemma wp_offsets s F Mp Hp fd (Q : Z * offsets -> sys -> Prop) :
  has s F Mp Hp ->
  (forall off s', reported fd off -> has s' F Mp Hp -> Q (0, off) s') ->
  (forall e off s', refused fd -> e < 0 -> has s' F Mp Hp -> 0 < errno s' -> Q (e, off) s') ->
  wp (xsk_get_mmap_offsets fd) Q s.
Proof using OO.
  intros HS H1 H2. unfold xsk_get_mmap_offsets. os_call. os_call.
  - os_steps. match goal with Hq : os_query _ _ = (0, ?d) |- _ =>
      assert (Hr : reported fd (decode_offsets d)) by (by exists s, d);
      unfold decode_offsets in Hr; unfold sizeof_xdp_mmap_offsets, sizeof_xdp_mmap_offsets_v1 in *;
      apply offsets_layout in Hq as [Hl | Hl] end;
      rewrite Hl in *; os_steps; by apply H1.
  - os_steps. apply H2; try done. eexists s, _, _. split; [eassumption|lia].
Qed.

Lemma wp_umem_create s F Mp Hp area size fill comp cfg :
  has s F Mp Hp ->
  wp (xsk_umem__create_v0_0_4 area size fill comp cfg) (umem_post fill comp cfg F Mp Hp) s.
Proof using OO.
  intros HS. unfold xsk_umem__create_v0_0_4.
  destruct fill as [fill|], comp as [comp|]; [|os_steps; split; [done|by left]..].
  destruct (area =? 0); [os_steps; split; [done|by left]|].
  destruct (_ && _)%bool; [os_steps; split; [done|by left]|].
  os_steps; try (split; [unfold ENOMEM; lia|by left]).
  eapply wp_offsets; [eassumption|intros ? ? ? ?|intros ? ? ? ? ? ? ?]; cbv beta; os_steps;
    try (split; [lia|by left]).
  - split; [done|]. split; [done|]. unfold owns_umem, umem_rings. cbn [um_fd um_fill um_config um_comp um_ptr].
    split; [eexists; split; [eassumption|]; rewrite !mapping_setup; tauto|]. do 3 (split; [done|]).
    eexists. split; [eassumption|]. match goal with Hh : has ?s _ _ _ |- context [maps ?s] => destruct Hh as (_ & -> & _) end.
    split; apply ring_at_setup; try assumption; [right; left|left].
  - split; [lia|]. right. eauto.
Qed.

(** ** The program and its map *)

(** A program was attached to the interface when the socket asked. *)
Definition attached (x : xsk_socket) : Prop := exists s d,
  os_query s (Bpf_get_link_xdp_id (xs_ifindex x) (xdp_flags (xs_config x))) = (0, d) /\ getZ d 0 <> 0.

(** The state of the search for the map: not found, or found, with the descriptors
    of maps found before it left open. *)
Definition looked (F : list Z) Mp Hp (found : Z) (s : sys) : Prop :=
  found = -1 /\ has s F Mp Hp \/
  exists L, 0 <= found /\ (L ## F) /\ (found ∉ L ++ F) /\ has s (found :: L ++ F) Mp Hp.

Lemma wp_lookup_maps ids : forall found F Mp Hp s,
  looked F Mp Hp found s -> wp (lookup_maps ids found) (looked F Mp Hp) s.
Proof using OO.
  induction ids as [|id ids IH]; intros found F Mp Hp s Hl; [done|]. simpl.
  assert (Hs : exists F', has s F' Mp Hp /\ (found = -1 /\ F' = F \/
     exists L, 0 <= found /\ (L ## F) /\ (found ∉ L ++ F) /\ F' = found :: L ++ F)).
  { destruct Hl as [[-> ?]|(L & ? & ? & ? & ?)]; eauto 10. }
  destruct Hs as (F' & HS & HF').
  assert (Hback : forall s', has s' F' Mp Hp -> looked F Mp Hp found s').
  { intros s' HS'. destruct HF' as [[-> ->]|(L & ? & ? & ? & ->)]; [by left|right; eauto]. }
  os_steps; try (apply IH, Hback; assumption).
  case_decide.
  - apply IH. right. destruct HF' as [[-> ->]|(L & ? & ? & ? & ->)]; [exists []|exists (found :: L)];
      (split; [done|]; split; [set_solver|done]).
  - os_steps. apply IH, Hback; assumption.
Qed.

(** [L] are descriptors the search left open, none unless a program was attached. *)
Definition prog_post (x : xsk_socket) F Mp Hp (r : Z * xsk_socket) (s' : sys) : Prop :=
  exists L, (L = [] \/ attached x) /\ (L ## F) /\
  (fst r < 0 /\ has s' (L ++ F) Mp Hp \/
   fst r = 0 /\ exists p m, snd r = set_prog x p m /\ 0 <= p /\ 0 <= m /\
     (p ∉ m :: L ++ F) /\ (m ∉ L ++ F) /\ has s' (p :: m :: L ++ F) Mp Hp).

(** Closing the map and then the program. *)
Lemma has_close2 s' F p m Mp Hp :
  (p ∉ m :: F) -> (m ∉ F) ->
  has s' (filter (fun q => q <> p) (filter (fun q => q <> m) (p :: m :: F))) Mp Hp -> has s' F Mp Hp.
Proof. intros. by rewrite filter_pair in *. Qed.

Lemma wp_max_queues x F Mp Hp s (Q : Z -> sys -> Prop) :
  has s F Mp Hp -> (forall r s', has s' F Mp Hp -> Q r s') -> wp (xsk_get_max_queues x) Q s.
Proof using OO.
  intros HS HQ. unfold xsk_get_max_queues. os_steps; by apply HQ.
Qed.
Lemma wp_xsk_create_maps x F Mp Hp s :
  has s F Mp Hp ->
  wp (xsk_create_bpf_maps x) (fun r s' => fst r < 0 /\ snd r = x /\ has s' F Mp Hp \/
    exists m, r = (0, set_prog x (xs_prog_fd x) m) /\ 0 <= m /\ (m ∉ F) /\ has s' (m :: F) Mp Hp) s.
Proof using OO.
  intros HS. unfold xsk_create_bpf_maps. os_call. eapply wp_max_queues; [eassumption|].
  intros q s' HS'. cbv beta. destruct (Z.ltb_spec q 0); os_steps; eauto 10.
Qed.
Lemma wp_delete_maps x F Mp Hp s (Q : unit -> sys -> Prop) :
  has s F Mp Hp ->
  (forall s', has s' (filter (fun q => q <> xs_xsks_map_fd x) F) Mp Hp -> Q tt s') ->
  wp (xsk_delete_bpf_maps x) Q s.
Proof using OO. intros HS HQ. unfold xsk_delete_bpf_maps. os_steps; by apply HQ. Qed.

(** No program is attached: one is loaded. *)
Lemma wp_new_prog x F Mp Hp s :
  has s F Mp Hp ->
  wp (let! (err, x) := xsk_create_bpf_maps x in
      if negb (err =? 0) then ret (err, x)
      else
        let! (err, x) := xsk_load_xdp_prog x in
        if negb (err =? 0) then xsk_delete_bpf_maps x ;;; ret (err, x)
        else ret (0, x)) (prog_post x F Mp Hp) s.
Proof using OO.
  intros HS. os_call. eapply wp_mono; [by eapply wp_xsk_create_maps|].
  intros [e x'] s1 [(He & Hx & HS')|(m & Heq & Hm & Hfresh & HS')]; cbn [fst snd] in *; simplify_eq.
  { os_steps. exists []. split; [by left|]. split; [set_solver|]. left. done. }
  unfold xsk_load_xdp_prog. os_steps.
  - exists []. split; [by left|]. split; [set_solver|]. right. split; [done|]. eexists _, _.
    split; [by destruct x|]. do 4 (split; [done|]). done.
  - eapply wp_delete_maps; [eassumption|intros ? ?]; cbv beta; cbn [xs_xsks_map_fd set_prog] in *.
    os_release. os_steps. exists []. split; [by left|]. split; [set_solver|]. by left.
  - eapply wp_delete_maps; [eassumption|intros ? ?]; cbv beta; cbn [xs_xsks_map_fd set_prog] in *.
    os_release. os_steps. exists []. split; [by left|]. split; [set_solver|]. by left.
Qed.

(** The search restores the heap. *)
Lemma wp_lookup_bpf_maps x F Mp Hp s :
  has s F Mp Hp ->
  wp (xsk_lookup_bpf_maps x) (fun r s' =>
    fst r < 0 /\ xs_prog_fd (snd r) = xs_prog_fd x /\ has s' F Mp Hp \/
    exists m L, r = (0, set_prog x (xs_prog_fd x) m) /\ 0 <= m /\ (L ## F) /\ (m ∉ L ++ F) /\
      has s' (m :: L ++ F) Mp Hp) s.
Proof using OO.
  intros HS. unfold xsk_lookup_bpf_maps. os_steps; try by left.
  eapply wp_mono; [apply wp_lookup_maps; left; split; [done|eassumption]|].
  intros m s3 [[-> HS3]|(L & Hm & Hdis & Hfresh & HS3)]; cbv beta.
  - os_steps. left. done.
  - os_steps. right. exists m, L. rewrite (proj2 (Z.eqb_neq m (-1))) by lia. done.
Qed.

Lemma wp_old_prog x id F Mp Hp s :
  has s F Mp Hp -> attached x ->
  wp (let! fd := sys_open (Bpf_prog_get_fd_by_id id) in
      let x := set_prog x fd (xs_xsks_map_fd x) in
      if fd <? 0 then let! e := get_errno in ret (- e, x)
      else
        let! (err, x) := xsk_lookup_bpf_maps x in
        if negb (err =? 0) then close (xs_prog_fd x) ;;; ret (err, x)
        else ret (0, x)) (prog_post x F Mp Hp) s.
Proof using OO.
  intros HS Hat. os_steps.
  - eapply wp_mono; [by eapply wp_lookup_bpf_maps|].
    intros [e x'] s1 [(He & Hx & HS')|(m & L & Heq & Hm & Hdis & Hfresh & HS')]; cbn [fst snd] in *; simplify_eq.
    + os_steps. rewrite Hx in *. cbn [xs_prog_fd set_prog] in *. os_release.
      exists []. split; [by left|]. split; [set_solver|]. left. done.
    + os_steps. exists L. split; [by right|]. split; [set_solver|]. right. split; [done|]. eexists _, _.
      split; [by destruct x|]. cbn [xs_prog_fd set_prog].
      do 2 (split; [done|]). split; [set_solver|]. split; [set_solver|].
      eapply has_proper; [|done..|exact HS']. solve_Permutation.
  - exists []. split; [by left|]. split; [set_solver|]. left. split; [simpl; lia|done].
Qed.

Lemma wp_setup_prog x F Mp Hp s :
  has s F Mp Hp -> wp (xsk_setup_xdp_prog x) (prog_post x F Mp Hp) s.
Proof using OO.
  intros HS. unfold xsk_setup_xdp_prog, xsk_set_bpf_maps. os_steps; [|exists []; split; [by left|]; split; [set_solver|]; by left].
  eapply (wp_mono _ (prog_post x F Mp Hp)).
  { destruct (Z.eqb_spec (getZ d 0) 0); [by eapply wp_new_prog|].
    eapply wp_old_prog; [eassumption|]. by exists s, d. }
  intros [e x'] s1 (L & HL & Hdis & [(He & HS')|(He & p & m & Hx & Hp0 & Hm0 & Hp1 & Hm1 & HS')]);
    cbn [fst snd] in *; subst.
  { os_steps. exists L. do 2 (split; [done|]). by left. }
  os_steps. destruct (xs_rx _); os_steps.
  - exists L. do 2 (split; [done|]). right. split; [done|]. by exists p, m.
  - eapply wp_delete_maps; [eassumption|intros ? ?]; cbv beta; cbn [xs_xsks_map_fd xs_prog_fd set_prog] in *.
    os_steps. exists L. do 2 (split; [done|]). left. split; [done|]. by eapply has_close2.
  - exists L. do 2 (split; [done|]). right. split; [done|]. by exists p, m.
Qed.

(** ** The socket *)

(** The reference count after a failure: unchanged, except that it is not
    decremented again when the socket for a shared umem cannot be opened. *)
Definition refcount_post (u u' : xsk_umem) : Prop :=
  u' = u \/ um_refcount u > 0 /\ u' = set_refcount u (um_refcount u + 1).

(** The descriptors once the socket is open: a new one when the umem is shared. *)
Definition base_fds (u : xsk_umem) (fd : Z) (F : list Z) : list Z :=
  if um_refcount u >? 0 then fd :: F else F.
Definition ring_map (r : option ring_hdr) (o : ring_offset) (sz : Z) : list (Z * Z) :=
  match r with Some r => [mapping r o sz sizeof_xdp_desc] | None => [] end.

(** What a successful [xsk_socket__create] owns on top of [F], [Mp], [Hp]. *)
Definition owns_sock (u : xsk_umem) (x : xsk_socket) F Mp Hp (s' : sys) : Prop :=
  exists L off, (L = [] \/ attached x) /\ reported (xs_fd x) off /\ (L ## base_fds u (xs_fd x) F) /\
  let B := L ++ base_fds u (xs_fd x) F in
  let rx_map := ring_map (xs_rx x) (off_rx off) (rx_size (xs_config x)) in
  let tx_map := ring_map (xs_tx x) (off_tx off) (tx_size (xs_config x)) in
  (um_refcount u > 0 -> xs_fd x ∉ F) /\ (um_refcount u = 0 -> xs_fd x = um_fd u) /\
  (rx_map ## Mp) /\ (tx_map ## rx_map ++ Mp) /\ (xs_ptr x ∉ Hp) /\
  exists P, has s' (P ++ B) (tx_map ++ rx_map ++ Mp) (xs_ptr x :: Hp) /\
    if inhibited (xs_config x) then P = [] /\ xs_prog_fd x = -1
    else P = [xs_prog_fd x; xs_xsks_map_fd x] /\ 0 <= xs_prog_fd x /\
         (xs_prog_fd x ∉ xs_xsks_map_fd x :: B) /\ (xs_xsks_map_fd x ∉ B).

Definition sock_post (ucfg : option xsk_socket_config) (rx tx : option ring_hdr) (umem : option xsk_umem) F Mp Hp (r : sock_result) (s' : sys) : Prop :=
  match r, umem with
  | (err, None, None), None => err = - EFAULT /\ has s' F Mp Hp
  | (err, Some u', None), Some u => err < 0 /\ refcount_post u u' /\
      exists L, has s' (L ++ F) Mp Hp /\ (L = [] \/ exists x, attached x)
  | (err, Some u', Some x), Some u =>
      err = 0 /\ u' = set_refcount u (um_refcount u + 1) /\ owns_sock u x F Mp Hp s' /\
      xsk_set_xdp_socket_config ucfg = inr (xs_config x) /\
      ring_ready rx (xs_rx x) (rx_size (xs_config x)) rh_cached_cons /\
      ring_ready tx (xs_tx x) (tx_size (xs_config x)) (fun _ => tx_size (xs_config x)) /\ sock_rings x (maps s')
  | _, _ => False
  end.

Lemma refcount_back u n : set_refcount (set_refcount u n) (um_refcount u) = u.
Proof. by destruct u. Qed.
Lemma base_release L u fd (F : list Z) :
  um_refcount u <> 0 -> 0 <= um_refcount u -> (fd ∉ F) -> (L ## base_fds u fd F) ->
  filter (fun q => q <> fd) (L ++ base_fds u fd F) = L ++ F.
Proof.
  unfold base_fds. intros Hn H0 Hfd Hdis. rewrite (proj2 (Z.gtb_lt _ _)) in * by lia.
  rewrite stdpp.list_basics.list.filter_app, filter_cons_fresh by done. f_equal.
  apply filter_fresh. set_solver.
Qed.

Section Socket.
Context (ucfg : option xsk_socket_config) (rx0 tx0 : option ring_hdr) (u : xsk_umem) (fd : Z) (F : list Z) (Mp : list (Z * Z)) (Hp : list Z) (ptr : Z).
Context (Hrc : 0 <= um_refcount u) (Hfd : um_refcount u > 0 -> fd ∉ F)
  (Hfd0 : um_refcount u = 0 -> fd = um_fd u) (Hptr : ptr ∉ Hp).
Let u1 := set_refcount u (um_refcount u + 1).

Lemma wp_out_socket s L err :
  has s (L ++ base_fds u fd F) Mp (ptr :: Hp) -> (L ## base_fds u fd F) -> err < 0 ->
  (L = [] \/ exists x, attached x) ->
  wp (out_socket ptr fd u1 err) (sock_post ucfg rx0 tx0 (Some u) F Mp Hp) s.
Proof using All.
  intros HS Hdis Herr HL. unfold out_socket, out_xsk_alloc, u1. cbn [um_refcount set_refcount].
  replace (um_refcount u + 1 - 1) with (um_refcount u) by lia.
  fold (set_refcount (set_refcount u (um_refcount u + 1)) (um_refcount u)). rewrite refcount_back.
  destruct (Z.eqb_spec (um_refcount u) 0) as [H0|H0]; cbn [negb].
  - os_steps. split; [done|]. split; [by left|]. exists L.
    unfold base_fds in *. rewrite H0 in *. done.
  - os_steps. rewrite base_release in * by (done || (apply Hfd; lia)).
    split; [done|]. split; [by left|]. by exists L.
Qed.
Lemma wp_out_socket_nil s err :
  has s (base_fds u fd F) Mp (ptr :: Hp) -> err < 0 ->
  wp (out_socket ptr fd u1 err) (sock_post ucfg rx0 tx0 (Some u) F Mp Hp) s.
Proof using All. intros. apply (wp_out_socket s []); try done; [set_solver|by left]. Qed.

(** The mapping of an optional ring: none, made, or failed. *)
Lemma wp_mmap_ring r len pg s B Mq (Q : option (option Z) -> sys -> Prop) :
  has s B Mq (ptr :: Hp) ->
  (r = None -> forall s', has s' B Mq (ptr :: Hp) -> Q None s') ->
  (forall r0 p s', r = Some r0 -> mapped_to len fd pg p -> (p, len) ∉ Mq -> has s' B ((p, len) :: Mq) (ptr :: Hp) -> Q (Some (Some p)) s') ->
  (forall s', has s' B Mq (ptr :: Hp) -> 0 < errno s' -> Q (Some None) s') ->
  wp (mmap_ring r len fd pg) Q s.
Proof using All.
  intros HS H1 H2 H3. unfold mmap_ring. destruct r as [r|]; os_steps; eauto.
Qed.

(** The part of the result that the rings contribute. *)
Definition ring_mapped (r : option ring_hdr) (m : option (option Z)) (len : Z) (o : ring_offset) (sz : Z) : Prop :=
  match r, m with
  | Some r, Some (Some p) => (p, len) = mapping r o sz sizeof_xdp_desc
  | None, None => True
  | _, _ => False
  end.

Lemma wp_munmap_ring r m len o sz B Mq s (Q : unit -> sys -> Prop) :
  ring_mapped r m len o sz -> (ring_map r o sz ## Mq) ->
  has s B (ring_map r o sz ++ Mq) (ptr :: Hp) ->
  (forall s', has s' B Mq (ptr :: Hp) -> Q tt s') ->
  wp (munmap_ring m len) Q s.
Proof using All.
  intros Hm Hdis HS HQ. unfold munmap_ring, ring_mapped, ring_map in *.
  destruct r as [r|], m as [[p|]|]; try done; [|by apply HQ].
  rewrite <- Hm in *. os_steps. simpl in *. rewrite filter_cons_fresh in * by set_solver.
  by apply HQ.
Qed.

Lemma wp_socket_bind cfg ifname ifindex q rx tx rx_map tx_map rx_len tx_len off s :
  xsk_set_xdp_socket_config ucfg = inr cfg ->
  ring_mapped rx rx_map rx_len (off_rx off) (rx_size cfg) ->
  ring_mapped tx tx_map tx_len (off_tx off) (tx_size cfg) ->
  reported fd off ->
  ring_ready rx0 rx (rx_size cfg) rh_cached_cons ->
  ring_ready tx0 tx (tx_size cfg) (fun _ => tx_size cfg) ->
  let rm := ring_map rx (off_rx off) (rx_size cfg) in
  let tm := ring_map tx (off_tx off) (tx_size cfg) in
  opt_ring_at (tm ++ rm ++ Mp) fd XDP_PGOFF_RX_RING (off_rx off) (rx_size cfg) rx ->
  opt_ring_at (tm ++ rm ++ Mp) fd XDP_PGOFF_TX_RING (off_tx off) (tx_size cfg) tx ->
  (rm ## Mp) -> (tm ## rm ++ Mp) ->
  has s (base_fds u fd F) (tm ++ rm ++ Mp) (ptr :: Hp) ->
  wp (socket_bind ptr fd u1 cfg ifname ifindex q rx tx rx_map tx_map rx_len tx_len)
    (sock_post ucfg rx0 tx0 (Some u) F Mp Hp) s.
Proof using All.
  intros Hcfg Hrx Htx Hrep Hr0 Ht0 rm tm Hra Hta Hd1 Hd2 HS.
  assert (Hrings : forall x s' G Hq, has s' G (tm ++ rm ++ Mp) Hq -> xs_fd x = fd -> xs_config x = cfg -> xs_rx x = rx -> xs_tx x = tx -> sock_rings x (maps s')).
  { intros x s' G Hq (_ & -> & _) E1 E2 E3 E4. exists off. by rewrite E1, E2, E3, E4. }
  unfold socket_bind, out_mmap_rx. os_steps.
  - destruct (inhibited cfg) eqn:Ei; cbn [negb].
    + os_steps. do 2 (split; [done|]). split; [|do 3 (split; [done|]); by eapply Hrings]. exists [], off; cbn -[base_fds]. rewrite Ei.
      do 2 (split; [by eauto|]). split; [set_solver|]. do 5 (split; [done|]). by exists [].
    + eapply wp_mono; [by eapply wp_setup_prog|].
      intros [e x'] s1 (L & HL & Hdis & [(He & HS')|(He & p & m & Hx & Hp0 & Hm0 & Hp1 & Hm1 & HS')]);
      cbn [fst snd] in *; subst.
      * os_steps. eapply wp_munmap_ring; [done..|intros; cbv beta]. os_steps.
        eapply wp_munmap_ring; [done..|intros; cbv beta]. eapply wp_out_socket; eauto.
        destruct HL; eauto.
      * os_steps. do 2 (split; [done|]). split; [|do 3 (split; [done|]); by eapply Hrings]. exists L, off; cbn -[base_fds]. rewrite Ei.
        do 8 (split; [done|]). by exists [p; m].
  - os_steps. eapply wp_munmap_ring; [done..|intros; cbv beta]. os_steps.
    eapply wp_munmap_ring; [done..|intros; cbv beta]. eapply wp_out_socket_nil; [done|lia].
Qed.

Lemma ring_map_setup r p o sz cons :
  ring_map (Some (setup_ring r p o sz cons)) o sz = [(p, map_len o sz sizeof_xdp_desc)].
Proof. unfold ring_map. by rewrite mapping_setup. Qed.

Ltac bind_rings off Hr Ht :=
  eapply (wp_socket_bind _ _ _ _ _ _ _ _ _ _ off); rewrite ?Hr, ?Ht; cbn [setup_mapped]; rewrite ?ring_map_setup;
  solve [done | simpl; by rewrite mapping_setup | by apply fresh_disjoint | apply nil_disjoint
    | exact I | unfold opt_ring_at; apply ring_at_setup; [done|]; cbn [ring_map app]; rewrite ?elem_of_cons; tauto].

Lemma wp_socket_maps cfg ifname ifindex q s :
  xsk_set_xdp_socket_config ucfg = inr cfg ->
  has s (base_fds u fd F) Mp (ptr :: Hp) ->
  wp (socket_maps ptr fd u1 cfg ifname ifindex q rx0 tx0) (sock_post ucfg rx0 tx0 (Some u) F Mp Hp) s.
Proof using All.
  intros Hcfg HS. unfold socket_maps. os_call.
  eapply wp_offsets; [eassumption|intros off s1 Hrep HS1|intros e off s1 _ He HS1 Herr]; cbv beta.
  2: { os_steps. eapply wp_out_socket_nil; [done|lia]. }
  os_steps. eapply wp_mmap_ring; [eassumption|..]; cbv beta.
  - intros Hr s2 HS2. os_steps. eapply wp_mmap_ring; [eassumption|..]; cbv beta.
    + intros Ht s3 HS3. bind_rings off Hr Ht.
    + intros r p s3 Ht Hm Hf HS3. bind_rings off Hr Ht.
    + intros s3 HS3 Herr. os_steps. unfold out_mmap_rx. os_steps. eapply wp_out_socket_nil; [done|lia].
  - intros r p s2 Hr Hm Hf HS2. os_steps. eapply wp_mmap_ring; [eassumption|..]; cbv beta.
    + intros Ht s3 HS3. bind_rings off Hr Ht.
    + intros r' p' s3 Ht Hm' Hf' HS3. bind_rings off Hr Ht.
    + intros s3 HS3 Herr. unfold out_mmap_rx, munmap_ring. os_steps.
      eapply wp_out_socket_nil; [done|lia].
  - intros s2 HS2 Herr. os_steps. eapply wp_out_socket_nil; [done|lia].
Qed.

Lemma wp_opt_do (r : option ring_hdr) req s B Mq Hq (Q : Z -> sys -> Prop) :
  has s B Mq Hq -> (forall s', has s' B Mq Hq -> Q 0 s') ->
  (forall e s', e < 0 -> has s' B Mq Hq -> 0 < errno s' -> Q e s') ->
  wp (match r with Some _ => sys_do req | None => ret 0 end) Q s.
Proof using OO. intros HS H1 H2. destruct r; os_steps; eauto. Qed.

Lemma wp_socket_options cfg ifname q s :
  xsk_set_xdp_socket_config ucfg = inr cfg ->
  has s (base_fds u fd F) Mp (ptr :: Hp) ->
  wp (socket_options ptr fd u1 cfg ifname q rx0 tx0) (sock_post ucfg rx0 tx0 (Some u) F Mp Hp) s.
Proof using All.
  intros Hcfg HS. unfold socket_options. os_steps.
  - rewrite (proj2 (Z.eqb_neq (getZ d 0) 0)) by (by eapply nametoindex_nonzero).
    os_steps. eapply wp_opt_do; [eassumption|intros|intros]; cbv beta; os_steps;
      [|eapply wp_out_socket_nil; [done|lia]].
    eapply wp_opt_do; [eassumption|intros|intros]; cbv beta; os_steps;
      [by apply wp_socket_maps|eapply wp_out_socket_nil; [done|lia]].
  - eapply wp_out_socket_nil; [done|lia].
Qed.
End Socket.

Lemma wp_socket_create ifname queue_id umem rx tx cfg F Mp Hp s : ifname <> None ->
  has s F Mp Hp -> (forall u, umem = Some u -> 0 <= um_refcount u) ->
  wp (xsk_socket__create ifname queue_id umem rx tx cfg) (sock_post cfg rx tx umem F Mp Hp) s.
Proof using OO.
  intros Hname HS Hrc. destruct ifname as [ifname|]; [|done]. unfold xsk_socket__create, deref. destruct umem as [u|]; [|os_steps; done].
  specialize (Hrc u eq_refl).
  assert (Hnil : forall e s', e < 0 -> has s' F Mp Hp -> sock_post cfg rx tx (Some u) F Mp Hp (e, Some u, None) s').
  { intros e s' He HS'. split; [done|]. split; [by left|]. exists []. split; [done|by left]. }
  unfold out_xsk_alloc.
  destruct (negb _); [os_steps; by apply Hnil|].
  os_steps; [|by apply Hnil].
  destruct (xsk_set_xdp_socket_config cfg) as [e|c] eqn:Ec.
  { os_steps. apply Hnil; [|done]. unfold xsk_set_xdp_socket_config in Ec. repeat case_match; simplify_eq.
    unfold EINVAL. lia. }
  destruct (negb (um_refcount u =? 0) && negb (inhibited c))%bool; [os_steps; by apply Hnil|].
  os_steps. destruct (Z.gtb_spec (um_refcount u) 0) as [Hs|Hs]; cbn [andb].
  - os_steps.
    + apply wp_socket_options; try done; [lia|]. unfold base_fds. by rewrite (proj2 (Z.gtb_lt _ _)) by lia.
    + split; [lia|]. split; [right; split; [lia|done]|]. exists []. split; [done|by left].
  - os_steps. apply wp_socket_options; try done; try lia.
    unfold base_fds. destruct (Z.gtb_spec (um_refcount u) 0); [lia|done].
Qed.
End Resources.

Section Deletion.
Context `{OO : OsOk}.
(** The layout of a ring does not change while the socket exists. *)
Context (layout_stable : forall fd off off', reported fd off -> reported fd off' -> off = off').

(** The heap may have got other blocks in between. *)
Lemma wp_umem_delete_in s F Mp Hq u off :
  let fill := mapping (um_fill u) (off_fr off) (fill_size (um_config u)) sizeof_u64 in
  let comp := mapping (um_comp u) (off_cr off) (comp_size (um_config u)) sizeof_u64 in
  um_refcount u = 0 -> reported (um_fd u) off -> (um_fd u ∉ F) -> (fill ∉ Mp) -> (comp ∉ fill :: Mp) -> has s (um_fd u :: F) (comp :: fill :: Mp) Hq ->
  wp (xsk_umem__delete (Some u)) (fun r s' => r = 0 /\ let Hp := filter (fun p => p <> um_ptr u) Hq in
    (has s' F Mp Hp \/ refused (um_fd u) /\ exists m1 m2, has s' F (m2 :: m1 :: Mp) Hp)) s.
Proof using OO layout_stable.
  intros fill comp Hrc Hrep Hfd Hf Hc HS. unfold xsk_umem__delete. rewrite Hrc.
  os_steps. eapply wp_offsets; [eassumption|intros off' ? Hrep' ?|intros ? ? ? ? ? ? ?]; cbv beta; os_steps.
  - pose proof (layout_stable _ _ _ Hrep Hrep') as <-. split; [done|]. left.
    match goal with Hh : has _ _ (filter _ _) _ |- _ => rewrite filter_pair in Hh by done; done end.
  - split; [done|]. right. split; [done|]. eauto.
Qed.
Lemma wp_umem_delete s F Mp Hp u :
  um_refcount u = 0 -> owns_umem u F Mp Hp s ->
  wp (xsk_umem__delete (Some u)) (fun r s' => r = 0 /\
    (has s' F Mp Hp \/ refused (um_fd u) /\ exists m1 m2, has s' F (m2 :: m1 :: Mp) Hp)) s.
Proof using OO layout_stable.
  intros Hrc (off & Hrep & Hptr & Hfd & _ & Hf & Hc & HS). eapply wp_mono; [by eapply wp_umem_delete_in|].
  intros r s'. cbv zeta. by rewrite filter_cons_fresh.
Qed.

(** Unmapping the rings, rx first, as the delete function does. *)
Lemma wp_unmap_rings (rx tx : option ring_hdr) off rsz tsz B Mp Hp s (Q : unit -> sys -> Prop) :
  let rm := ring_map rx (off_rx off) rsz in
  let tm := ring_map tx (off_tx off) tsz in
  (rm ## Mp) -> (tm ## rm ++ Mp) -> has s B (tm ++ rm ++ Mp) Hp ->
  (forall s', has s' B Mp Hp -> Q tt s') ->
  wp (match rx with
      | Some r => munmap (Some (rh_ring r - o_desc (off_rx off))) (map_len (off_rx off) rsz sizeof_xdp_desc)
      | None => ret tt end ;;;
      match tx with
      | Some r => munmap (Some (rh_ring r - o_desc (off_tx off))) (map_len (off_tx off) tsz sizeof_xdp_desc)
      | None => ret tt end) Q s.
Proof using OO.
  intros rm tm Hd1 Hd2 HS HQ. subst rm tm. unfold ring_map, mapping in *.
  destruct rx as [rx|], tx as [tx|]; cbn [app] in *; os_steps; apply HQ; try done.
  - by rewrite filter_pair in * by (apply disjoint_fresh in Hd1, Hd2; done).
  - by rewrite filter_cons_fresh in * by (by apply disjoint_fresh in Hd1).
  - by rewrite filter_cons_fresh in * by (by apply disjoint_fresh in Hd2).
Qed.

(** Deleting the program's descriptors. *)
Lemma wp_delete_prog u x F Mp Hp L P s (Q : unit -> sys -> Prop) :
  let B := L ++ base_fds u (xs_fd x) F in
  has s (P ++ B) Mp Hp ->
  (if inhibited (xs_config x) then P = [] /\ xs_prog_fd x = -1
   else P = [xs_prog_fd x; xs_xsks_map_fd x] /\ 0 <= xs_prog_fd x /\
        (xs_prog_fd x ∉ xs_xsks_map_fd x :: B) /\ (xs_xsks_map_fd x ∉ B)) ->
  (forall s', has s' B Mp Hp -> Q tt s') ->
  wp (if negb (xs_prog_fd x =? -1) then xsk_delete_bpf_maps x ;;; close (xs_prog_fd x) else ret tt) Q s.
Proof using OO.
  intros B HS HP HQ. destruct (inhibited (xs_config x)).
  - destruct HP as [-> ->]. os_steps. by apply HQ.
  - destruct HP as (-> & Hp0 & Hp1 & Hm1). rewrite (proj2 (Z.eqb_neq _ (-1))) by lia. cbn [negb].
    os_steps. eapply wp_delete_maps; [eassumption|intros s1 HS1]; cbv beta. os_steps.
    apply HQ. by eapply has_close2.
Qed.

(** The end of the delete function. *)
Lemma wp_sock_close u x F L Mq Hp s :
  0 <= um_refcount u -> um_fd u ∈ F -> (um_refcount u > 0 -> xs_fd x ∉ F) ->
  (um_refcount u = 0 -> xs_fd x = um_fd u) -> (L ## base_fds u (xs_fd x) F) -> (xs_ptr x ∉ Hp) ->
  has s (L ++ base_fds u (xs_fd x) F) Mq (xs_ptr x :: Hp) ->
  wp ((if negb (xs_fd x =? um_fd u) then close (xs_fd x) else ret tt) ;;;
      free (xs_ptr x) ;;; ret u) (fun u' s' => u' = u /\ has s' (L ++ F) Mq Hp) s.
Proof using OO.
  intros Hrc HF Hfd Hfd0 Hdis Hptr HS. destruct (Z.eqb_spec (xs_fd x) (um_fd u)) as [E|E]; cbn [negb].
  - assert (um_refcount u = 0) as H0.
    { destruct (decide (um_refcount u = 0)); [done|]. exfalso. apply Hfd; [lia|congruence]. }
    os_steps. unfold base_fds in *. by rewrite H0 in *.
  - assert (um_refcount u <> 0) as H0 by (intros ?; by apply E, Hfd0).
    os_steps. rewrite base_release in * by (done || (apply Hfd; lia)). done.
Qed.

Lemma wp_socket_delete u x F Mp Hp s :
  0 <= um_refcount u -> um_fd u ∈ F -> owns_sock u x F Mp Hp s ->
  wp (xsk_socket__delete (Some x) (set_refcount u (um_refcount u + 1))) (fun u' s' => u' = u /\
    exists L, (L ## F) /\ (L = [] \/ attached x) /\
    (has s' (L ++ F) Mp Hp \/ refused (xs_fd x) /\ exists Mq, has s' (L ++ F) (Mq ++ Mp) Hp)) s.
Proof using OO layout_stable.
  intros Hrc HF (L & off & HL & Hrep & Hdis & Hfd & Hfd0 & Hrx & Htx & Hptr & P & HS & HP).
  assert (HLF : L ## F) by (intros f H1 H2; apply (Hdis f H1); unfold base_fds; destruct (_ >? _); [by right|done]).
  unfold xsk_socket__delete. os_call. eapply wp_delete_prog; [eassumption|done|].
  intros s1 HS1; cbv beta. os_call.
  replace (um_refcount (set_refcount u (um_refcount u + 1)) - 1) with (um_refcount u) by (simpl; lia).
  rewrite refcount_back.
  eapply wp_offsets; [eassumption|intros off' s2 Hrep' HS2|intros e off' s2 Href He HS2 Herr]; cbv beta; os_guard.
  - pose proof (layout_stable _ _ _ Hrep Hrep') as <-. os_call.
    eapply wp_unmap_rings; [done|done|eassumption|]. intros s3 HS3; cbv beta.
    eapply wp_mono; [by eapply wp_sock_close|]. intros u' s4 [-> HS4]. split; [done|]. exists L. auto.
  - os_call. os_call. eapply wp_mono; [by eapply wp_sock_close|]. intros u' s4 [-> HS4].
    split; [done|]. exists L. split; [done|]. split; [done|]. right. split; [done|]. eexists. by rewrite (assoc_L (++)) in HS4.
Qed.
End Deletion.

(** ** A system for the examples *)

#[local] Existing Instance demo_os.
#[local] Existing Instance demo_os_ok.

(** ** The theorems *)

(** Creating a umem always returns, whatever the system answers.  When it
    succeeds it owns exactly one new socket, the mappings of the fill and the
    completion ring, and one heap block, all of them fresh, its reference count is 0
    and its ring structures are set up for the configured sizes; when it fails the
    code is negative and it has given everything back, except that a mapping of the
    length of the fill ring may be left. *)
Theorem umem_create_accounts `{OO : OsOk} (s : sys) area size fill comp cfg :
  exists r s', xsk_umem__create_v0_0_4 area size fill comp cfg s = Some (r, s') /\
    umem_post fill comp cfg (fds s) (maps s) (heap s) r s'.
Proof. apply wp_run, wp_umem_create. done. Qed.
Lemma umem_create_accounts_witness : exists u s',
  xsk_umem__create_v0_0_4 4096 65536 (Some zero_ring) (Some zero_ring) None demo_state = Some ((0, Some u), s') /\
  um_refcount u = 0 /\ owns_umem u [0; 1; 2] [] [] s' /\ fds s' = [3; 0; 1; 2] /\ length (maps s') = 2%nat.
Proof.
  destruct (umem_create_accounts demo_state 4096 65536 (Some zero_ring) (Some zero_ring) None)
    as (r & s' & E & HP).
  pose proof E as E'. vm_compute in E'. injection E' as <- <-. destruct HP as (_ & Hr & Ho & _).
  eexists _, _. split; [exact E|]. split; [exact Hr|]. split; [exact Ho|]. done.
Defined.

(** Creating a umem and deleting it again gives back every descriptor and heap
    block in all cases, and every mapping when creation succeeds and the kernel still
    reports the ring offsets to the delete function (which skips unmapping
    otherwise).  The layout of the rings of a socket is assumed fixed. *)
Theorem umem_create_delete_roundtrip `{OO : OsOk} (s : sys) area size fill comp cfg :
  (forall fd off off', reported fd off -> reported fd off' -> off = off') ->
  exists r s',
    (let! (err, um) := xsk_umem__create_v0_0_4 area size fill comp cfg in
     match um with Some _ => xsk_umem__delete um | None => ret err end) s = Some (r, s') /\
    (fds s' ≡ₚ fds s) /\ heap s' = heap s /\
    (r = 0 -> (forall fd, ~ refused fd) -> maps s' = maps s).
Proof.
  intros Hst. apply wp_run. apply wp_bind. eapply wp_mono; [by apply wp_umem_create|].
  intros [err [u|]] s1; cbv beta iota; cbn [umem_post].
  - intros (-> & Hr & Ho & _). eapply wp_mono; [by eapply wp_umem_delete|].
    intros r s2 [-> [(? & ? & ?)|(Href & m1 & m2 & ? & ? & ?)]]; [done|].
    do 2 (split; [done|]). intros _ Hn. exfalso. by eapply Hn.
  - intros (He & [(? & ? & ?)|(p & off & ? & ? & ?)]); os_call; do 2 (split; [done|]); intros; lia.
Qed.
Lemma demo_not_refused fd : ~ refused (H := demo_os) fd.
Proof. intros (s & e & d & H & He). injection H as <- <-. by apply He. Qed.
Lemma demo_layout fd off off' :
  reported (H := demo_os) fd off -> reported (H := demo_os) fd off' -> off = off'.
Proof. intros (? & ? & H & ->) (? & ? & H' & ->). injection H as <-. injection H' as <-. reflexivity. Qed.
Lemma umem_create_delete_roundtrip_witness : exists s',
  (let! (err, um) := xsk_umem__create_v0_0_4 4096 65536 (Some zero_ring) (Some zero_ring) None in
   match um with Some _ => xsk_umem__delete um | None => ret err end) demo_state = Some (0, s') /\
  (fds s' ≡ₚ [0; 1; 2]) /\ heap s' = [] /\ maps s' = [].
Proof.
  destruct (umem_create_delete_roundtrip demo_state 4096 65536 (Some zero_ring) (Some zero_ring) None demo_layout)
    as (r & s' & E & Hf & Hh & Hm).
  assert (r = 0) as -> by (vm_compute in E; congruence).
  exists s'. split; [exact E|]. split; [exact Hf|]. split; [exact Hh|]. exact (Hm eq_refl demo_not_refused).
Defined.

(** Creating a socket on a umem, for the name of an interface, always returns.  When it succeeds it owns a heap
    block, the mappings of the rings it was asked for, where the kernel says that they are, a descriptor of its own only
    if the umem is shared, and, unless loading was inhibited, one of the program and
    one of the map, all fresh; the reference count is one higher and the ring
    structures are set up for the configured sizes.  When it fails the code is
    negative and the mappings and heap blocks are those from before; so are the
    descriptors, unless a program was attached (the search may leave maps of the same
    name open), and so is the reference count, unless the umem is shared (it stays
    incremented when the socket cannot be opened). *)
Theorem socket_create_accounts `{OO : OsOk} (s : sys) ifname queue_id umem rx tx cfg : ifname <> None ->
  (forall u, umem = Some u -> 0 <= um_refcount u) ->
  exists r s', xsk_socket__create ifname queue_id umem rx tx cfg s = Some (r, s') /\
    sock_post cfg rx tx umem (fds s) (maps s) (heap s) r s'.
Proof. intros Hn Hu. apply wp_run. by apply wp_socket_create. Qed.

(** A umem on descriptor 2 for the examples, used by [n] sockets. *)
Definition demo_umem (n : Z) : xsk_umem :=
  Xsk_umem 0 zero_ring zero_ring 4096 (xsk_set_umem_config None) 2 n.
Lemma socket_create_accounts_witness : exists x s',
  xsk_socket__create (Some [118; 49; 0]) 0 (Some (demo_umem 0)) (Some zero_ring) (Some zero_ring) None demo_state
    = Some ((0, Some (demo_umem 1), Some x), s') /\
  owns_sock (demo_umem 0) x [0; 1; 2] [] [] s' /\ fds s' = [4; 3; 0; 1; 2] /\ length (maps s') = 2%nat.
Proof.
  destruct (socket_create_accounts demo_state (Some [118; 49; 0]) 0 (Some (demo_umem 0)) (Some zero_ring)
    (Some zero_ring) None) as (r & s' & E & HP).
  - discriminate.
  - intros u [= <-]. done.
  - pose proof E as E'. vm_compute in E'. injection E' as <- <-. destruct HP as (_ & _ & Ho & _).
    eexists _, _. split; [exact E|]. split; [exact Ho|]. done.
Defined.

(** Creating a socket on a live umem and deleting it again restores the heap in
    all cases and the reference count whenever creation succeeded; it restores the
    descriptors unless a program was attached to the interface before, and the
    mappings as long as the kernel reports the ring offsets. *)
Theorem socket_create_delete_roundtrip `{OO : OsOk} (s : sys) ifname queue_id u rx tx cfg :
  (forall fd off off', reported fd off -> reported fd off' -> off = off') ->
  ifname <> None -> 0 <= um_refcount u -> um_fd u ∈ fds s ->
  exists err u' s',
    (let! (err, u', x) := xsk_socket__create ifname queue_id (Some u) rx tx cfg in
     match u', x with
     | Some u', Some x => let! u' := xsk_socket__delete (Some x) u' in ret (err, Some u')
     | _, _ => ret (err, u')
     end) s = Some ((err, u'), s') /\
    heap s' = heap s /\ (err = 0 -> u' = Some u) /\
    ((forall x, ~ attached x) -> fds s' ≡ₚ fds s) /\
    ((forall fd, ~ refused fd) -> maps s' = maps s).
Proof.
  intros Hst Hname Hrc Hin.
  eassert (W : wp _ (fun a s' => heap s' = heap s /\ (fst a = 0 -> snd a = Some u) /\
    ((forall x, ~ attached x) -> fds s' ≡ₚ fds s) /\ ((forall fd, ~ refused fd) -> maps s' = maps s)) s);
    [|apply wp_run in W as ([err u'] & s' & E & HP); exists err, u', s'; split; [exact E|exact HP]].
  apply wp_bind. eapply wp_mono; [apply wp_socket_create; [done|done|by intros ? [= <-]]|].
  intros [[err [u'|]] [x|]] s1; cbn [sock_post]; try done.
  - intros (-> & -> & Ho & _). os_call. eapply wp_mono; [by eapply wp_socket_delete|].
    intros u' s2 [-> (L & _ & HL & HS)]. os_call. cbn [fst snd].
    assert (Hf : (forall x, ~ attached x) -> L ++ fds s = fds s).
    { intros Hn. destruct HL as [->|Hat]; [done|]. by apply Hn in Hat. }
    destruct HS as [(HF & HM & HH)|(Href & Mq & HF & HM & HH)].
    + split_and!; try done. intros Hn. rewrite HF. by rewrite Hf.
    + split_and!; try done; [intros Hn; rewrite HF; by rewrite Hf|]. intros Hn. by apply Hn in Href.
  - intros (He & _ & L & (HF & HM & HH) & HL). os_call. cbn [fst snd]. split_and!; try done; [lia|].
    intros Hn. rewrite HF. destruct HL as [->|[x Hat]]; [done|]. by apply Hn in Hat.
Qed.
Lemma demo_not_attached x : ~ attached (O0 := demo_os) x.
Proof. intros (s & d & H & Hd). injection H as <-. by apply Hd. Qed.
Lemma socket_create_delete_roundtrip_witness : exists u' s',
  (let! (err, u', x) := xsk_socket__create (Some [118; 49; 0]) 0 (Some (demo_umem 0)) (Some zero_ring) (Some zero_ring) None in
   match u', x with
   | Some u', Some x => let! u' := xsk_socket__delete (Some x) u' in ret (err, Some u')
   | _, _ => ret (err, u')
   end) demo_state = Some ((0, u'), s') /\
  u' = Some (demo_umem 0) /\ heap s' = [] /\ (fds s' ≡ₚ [0; 1; 2]) /\ maps s' = [].
Proof.
  destruct (socket_create_delete_roundtrip demo_state (Some [118; 49; 0]) 0 (demo_umem 0) (Some zero_ring)
    (Some zero_ring) None demo_layout) as (err & u' & s' & E & Hh & Hu & Hf & Hm).
  - discriminate.
  - done.
  - by apply list_elem_of_In; right; right; left.
  - assert (err = 0) as -> by (vm_compute in E; congruence).
    exists u', s'. split; [exact E|]. split; [exact (Hu eq_refl)|]. split; [exact Hh|].
    split; [exact (Hf demo_not_attached)|exact (Hm demo_not_refused)].
Defined.

(** The second socket of a umem: refused before anything is opened, whatever the name of the device. *)
Lemma wp_shared_umem_refused `{OO : OsOk} (s : sys) ifname queue_id u rx tx cfg c F Mp Hp : has s F Mp Hp ->
  um_refcount u <> 0 -> rx <> None \/ tx <> None -> xsk_set_xdp_socket_config cfg = inr c -> inhibited c = false ->
  wp (xsk_socket__create ifname queue_id (Some u) rx tx cfg) (fun a s' => exists err,
    a = (err, Some u, None) /\ (err = - EBUSY \/ err = - ENOMEM) /\ has s' F Mp Hp) s.
Proof.
  intros HS Hrc Hring Hcfg Hinh.
  unfold xsk_socket__create, out_xsk_alloc. rewrite Hcfg, Hinh, (proj2 (Z.eqb_neq _ _) Hrc).
  assert (Hr : match rx, tx with None, None => false | _, _ => true end = true)
    by (destruct rx, tx; destruct Hring; done).
  rewrite Hr. cbn [negb andb]. os_steps; eauto.
Qed.

(** A second socket on a umem in use is refused unless the caller inhibits the
    loading of the program: [xsk_socket__create] returns -EBUSY (or -ENOMEM), opens
    nothing, and leaves the umem as it was. *)
Theorem shared_umem_refused `{OO : OsOk} (s : sys) ifname queue_id u rx tx cfg c :
  um_refcount u <> 0 -> rx <> None \/ tx <> None ->
  xsk_set_xdp_socket_config cfg = inr c -> inhibited c = false ->
  exists err s', xsk_socket__create ifname queue_id (Some u) rx tx cfg s = Some ((err, Some u, None), s') /\
    (err = - EBUSY \/ err = - ENOMEM) /\ has s' (fds s) (maps s) (heap s).
Proof.
  intros Hrc Hring Hcfg Hinh.
  destruct (proj1 (wp_run _ _ _) (wp_shared_umem_refused s ifname queue_id u rx tx cfg c (fds s) (maps s) (heap s) ltac:(done) Hrc Hring Hcfg Hinh))
    as (a & s' & E & err & -> & HP).
  by exists err, s'.
Qed.
Lemma shared_umem_refused_witness :
  exists s', xsk_socket__create (Some [118; 49; 0]) 1 (Some (demo_umem 1)) (Some zero_ring) None None demo_state
    = Some ((- EBUSY, Some (demo_umem 1), None), s') /\ has s' [0; 1; 2] [] [].
Proof.
  destruct (shared_umem_refused demo_state (Some [118; 49; 0]) 1 (demo_umem 1) (Some zero_ring) None None
    (Xsk_socket_config 2048 2048 0 0 0)) as (err & s' & E & He & HS).
  - done.
  - by left.
  - reflexivity.
  - reflexivity.
  - assert (err = - EBUSY) as -> by (vm_compute in E; injection E as <- _; reflexivity).
    exists s'. split; [exact E|exact HS].
Defined.

(** ** The rings *)

(** A ring structure over shared memory as a ring of [Ring]; the kernel starts both
    indices at 0 and gives [size] slots. *)
Definition ring_over {A} (r : ring_hdr) (mem : list A) : xsk_ring A :=
  Xsk_ring (rh_cached_prod r) (rh_cached_cons r) (rh_mask r) (rh_size r) 0 0 mem.
