(* ===== verification/Params.v ===== *)
(** * Command line: common/common_params.c, common/common_defines.h

    [parse_cmdline_args] as a fold over what getopt_long returns: pairs of an option
    character and its argument (the bytes before the NUL).  [if_nametoindex] is a
    parameter.  Leaving through [exit] is a value of the result.  The theorems say what
    configuration a command line produces. *)

From S2P Require Import Prelude.
#[local] Open Scope Z_scope.

Definition IF_NAMESIZE : Z := 16.
Definition EXIT_FAIL_OPTION : Z := 2.
Definition XDP_FLAGS_UPDATE_IF_NOEXIST : Z := 1.
Definition XDP_FLAGS_SKB_MODE : Z := 2.
Definition XDP_FLAGS_DRV_MODE : Z := 4.
Definition XDP_FLAGS_HW_MODE : Z := 8.
Definition XDP_FLAGS_MODES : Z := Z.lor (Z.lor XDP_FLAGS_SKB_MODE XDP_FLAGS_DRV_MODE) XDP_FLAGS_HW_MODE.
Definition XDP_COPY : Z := 2.
Definition XDP_ZEROCOPY : Z := 4.

(** [struct config]; the pointers [ifname] and [redirect_ifname] are null or point to
    the buffer beside them, which [None] and [Some] of the buffer express.  [pin_dir] and its buffer, which
    parsing never touches, are left out. *)
Record config := Config {
  xdp_flags : Z;
  ifindex : Z;
  ifname : option (list Z);
  redirect_ifindex : Z;
  redirect_ifname : option (list Z);
  do_unload : bool;
  reuse_maps : bool;
  filename : list Z;
  progsec : list Z;
  src_mac : list Z;
  dest_mac : list Z;
  xsk_bind_flags : Z;
  xsk_if_queue : Z;
  xsk_poll_mode : bool;
  (** the global variable of common_params.c *)
  verbose : bool
}.

Definition set_flags c v := Config v (ifindex c) (ifname c) (redirect_ifindex c) (redirect_ifname c)
  (do_unload c) (reuse_maps c) (filename c) (progsec c) (src_mac c) (dest_mac c) (xsk_bind_flags c)
  (xsk_if_queue c) (xsk_poll_mode c) (verbose c).
Definition set_dev c n v := Config (xdp_flags c) v (Some n) (redirect_ifindex c) (redirect_ifname c)
  (do_unload c) (reuse_maps c) (filename c) (progsec c) (src_mac c) (dest_mac c) (xsk_bind_flags c)
  (xsk_if_queue c) (xsk_poll_mode c) (verbose c).
Definition set_redirect_dev c n v := Config (xdp_flags c) (ifindex c) (ifname c) v (Some n)
  (do_unload c) (reuse_maps c) (filename c) (progsec c) (src_mac c) (dest_mac c) (xsk_bind_flags c)
  (xsk_if_queue c) (xsk_poll_mode c) (verbose c).
Definition set_bools c u r p v := Config (xdp_flags c) (ifindex c) (ifname c) (redirect_ifindex c) (redirect_ifname c)
  u r (filename c) (progsec c) (src_mac c) (dest_mac c) (xsk_bind_flags c) (xsk_if_queue c) p v.
Definition set_strings c f p s d := Config (xdp_flags c) (ifindex c) (ifname c) (redirect_ifindex c) (redirect_ifname c)
  (do_unload c) (reuse_maps c) f p s d (xsk_bind_flags c) (xsk_if_queue c) (xsk_poll_mode c) (verbose c).
Definition set_bind c v q := Config (xdp_flags c) (ifindex c) (ifname c) (redirect_ifindex c) (redirect_ifname c)
  (do_unload c) (reuse_maps c) (filename c) (progsec c) (src_mac c) (dest_mac c) v q (xsk_poll_mode c) (verbose c).

(** [strncpy] to a buffer of [n] bytes: padded with zeros, not terminated when the
    source has [n] bytes or more. *)
Definition strncpy (src : list Z) (n : nat) : list Z := take n (src ++ replicate n 0).
(** The C string in a buffer. *)
Fixpoint c_str (buf : list Z) : option (list Z) :=
  match buf with
  | [] => None
  | 0 :: _ => Some []
  | b :: buf' => match c_str buf' with Some s => Some (b :: s) | None => None end
  end.

Fixpoint digits (acc : Z) (s : list Z) : Z :=
  match s with
  | [] => acc
  | d :: s' => if (48 <=? d) && (d <=? 57) then digits (acc * 10 + (d - 48)) s' else acc
  end.
Fixpoint skip_space (s : list Z) : list Z :=
  match s with
  | b :: s' => if (b =? 32) || ((9 <=? b) && (b <=? 13)) then skip_space s' else s
  | [] => []
  end.
(** [(int) strtol(s, NULL, 10)]: saturated to the range of long, then truncated. *)
Definition atoi (s : list Z) : Z :=
  let v := match skip_space s with
           | 45 :: s' => - digits 0 s'
           | 43 :: s' => digits 0 s'
           | s' => digits 0 s'
           end in
  s32 (Z.max (- 9223372036854775808) (Z.min 9223372036854775807 v)).

(** Option characters. *)
Definition ch_d : Z := 100.
Definition ch_r : Z := 114.
Definition ch_A : Z := 65.
Definition ch_S : Z := 83.
Definition ch_N : Z := 78.
Definition ch_F : Z := 70.
Definition ch_M : Z := 77.
Definition ch_U : Z := 85.
Definition ch_p : Z := 112.
Definition ch_q : Z := 113.
Definition ch_Q : Z := 81.
Definition ch_L : Z := 76.
Definition ch_R : Z := 82.
Definition ch_c : Z := 99.
Definition ch_z : Z := 122.

Section Parse.
Context (if_nametoindex : list Z -> Z).

Definition clear_modes (f : Z) : Z := u32 (Z.land f (Z.lnot XDP_FLAGS_MODES)).

(** One iteration of the switch; [inl] is the exit code. *)
Definition parse_opt (opt : Z) (optarg : list Z) (cfg : config) : Z + config :=
  if opt =? ch_d then
    if lenZ optarg >=? IF_NAMESIZE then inl EXIT_FAIL_OPTION
    else
      let name := strncpy optarg 16 in
      let idx := if_nametoindex optarg in
      if idx =? 0 then inl EXIT_FAIL_OPTION else inr (set_dev cfg name idx)
  else if opt =? ch_r then
    if lenZ optarg >=? IF_NAMESIZE then inl EXIT_FAIL_OPTION
    else
      let name := strncpy optarg 16 in
      let idx := if_nametoindex optarg in
      if idx =? 0 then inl EXIT_FAIL_OPTION else inr (set_redirect_dev cfg name idx)
  else if opt =? ch_A then inr (set_flags cfg (clear_modes (xdp_flags cfg)))
  else if opt =? ch_S then
    let cfg := set_flags cfg (Z.lor (clear_modes (xdp_flags cfg)) XDP_FLAGS_SKB_MODE) in
    inr (set_bind cfg (Z.lor (Z.land (xsk_bind_flags cfg) XDP_ZEROCOPY) XDP_COPY) (xsk_if_queue cfg))
  else if opt =? ch_N then inr (set_flags cfg (Z.lor (clear_modes (xdp_flags cfg)) XDP_FLAGS_DRV_MODE))
  else if opt =? 3 then inr (set_flags cfg (Z.lor (clear_modes (xdp_flags cfg)) XDP_FLAGS_HW_MODE))
  else if opt =? ch_F then
    inr (set_flags cfg (u32 (Z.land (xdp_flags cfg) (Z.lnot XDP_FLAGS_UPDATE_IF_NOEXIST))))
  else if opt =? ch_M then inr (set_bools cfg (do_unload cfg) true (xsk_poll_mode cfg) (verbose cfg))
  else if opt =? ch_U then inr (set_bools cfg true (reuse_maps cfg) (xsk_poll_mode cfg) (verbose cfg))
  else if opt =? ch_p then inr (set_bools cfg (do_unload cfg) (reuse_maps cfg) true (verbose cfg))
  else if opt =? ch_q then inr (set_bools cfg (do_unload cfg) (reuse_maps cfg) (xsk_poll_mode cfg) false)
  else if opt =? ch_Q then inr (set_bind cfg (xsk_bind_flags cfg) (atoi optarg))
  else if opt =? 1 then inr (set_strings cfg (strncpy optarg 512) (progsec cfg) (src_mac cfg) (dest_mac cfg))
  else if opt =? 2 then inr (set_strings cfg (filename cfg) (strncpy optarg 32) (src_mac cfg) (dest_mac cfg))
  else if opt =? ch_L then inr (set_strings cfg (filename cfg) (progsec cfg) (strncpy optarg 18) (dest_mac cfg))
  else if opt =? ch_R then inr (set_strings cfg (filename cfg) (progsec cfg) (src_mac cfg) (strncpy optarg 18))
  else if opt =? ch_c then
    inr (set_bind cfg (Z.lor (Z.land (xsk_bind_flags cfg) XDP_ZEROCOPY) XDP_COPY) (xsk_if_queue cfg))
  else if opt =? ch_z then
    inr (set_bind cfg (Z.lor (Z.land (xsk_bind_flags cfg) XDP_COPY) XDP_ZEROCOPY) (xsk_if_queue cfg))
  else inl EXIT_FAIL_OPTION.

(** The loop over the options. *)
Fixpoint parse_opts (opts : list (Z * list Z)) (cfg : config) : Z + config :=
  match opts with
  | [] => inr cfg
  | (o, arg) :: opts' =>
      match parse_opt o arg cfg with
      | inl e => inl e
      | inr cfg => parse_opts opts' cfg
      end
  end.

(** [malloc_ok]: whether the copy of the option table could be allocated. *)
Definition parse_cmdline_args (malloc_ok : bool) (opts : list (Z * list Z)) (cfg : config) : Z + config :=
  if negb malloc_ok then inl EXIT_FAIL_OPTION else parse_opts opts cfg.
End Parse.

(** ** The option table *)

(** A row of the option table: [struct option_wrapper]. *)
Record option_wrapper := Option_wrapper {
  opt_name : list Z; opt_val : Z; opt_help : list Z; opt_metavar : option (list Z); opt_required : bool
}.
(** [option_wrappers_to_options]: the table in front of the terminator, copied without
    it. *)
Definition option_wrappers_to_options (malloc_ok : bool) (wrapper : list option_wrapper)
    : option (list (list Z * Z)) :=
  if malloc_ok then Some (map (fun w => (opt_name w, opt_val w)) wrapper) else None.

Definition BUFSIZE : Z := 30.
(** [snprintf(&buf[pos], n, ...)] of a string: the bytes that fit and a NUL; a size
    that is not positive as an int is huge as a size_t, and writing is then outside
    the buffer unless there is room for all of it. *)
Definition print_option (w : option_wrapper) : option (list Z) :=
  let short := if opt_val w >? 64 then [32; 45; opt_val w; 44] else [32; 32; 32; 32] in
  let full := [32; 45; 45] ++ opt_name w in
  let pos := lenZ full in
  let buf := take (Z.to_nat (BUFSIZE - 1)) full in
  buf ← match opt_metavar w with
        | None => Some buf
        | Some m =>
            if pos <? BUFSIZE then Some (buf ++ take (Z.to_nat (BUFSIZE - pos - 1)) ([32] ++ m))
            else if pos =? BUFSIZE then Some buf
            else None
        end;
  Some (short ++ buf ++ replicate (22 - length buf) 32 ++ [32; 32] ++ opt_help w ++ [10]).
Fixpoint _print_options (ws : list option_wrapper) (required : bool) : option (list Z) :=
  match ws with
  | [] => Some []
  | w :: ws' =>
      if negb (Bool.eqb (opt_required w) required) then _print_options ws' required
      else l ← print_option w; r ← _print_options ws' required; Some (l ++ r)
  end.

(** ** Flags *)

(** The mode an option selects; [-A] selects none. *)
Definition mode_of (opt : Z) : option Z :=
  if opt =? ch_A then Some 0
  else if opt =? ch_S then Some XDP_FLAGS_SKB_MODE
  else if opt =? ch_N then Some XDP_FLAGS_DRV_MODE
  else if opt =? 3 then Some XDP_FLAGS_HW_MODE
  else None.
(** The last mode selected, [m] if there is none. *)
Fixpoint final_mode (opts : list (Z * list Z)) (m : Z) : Z :=
  match opts with
  | [] => m
  | (o, _) :: opts' => final_mode opts' (default m (mode_of o))
  end.
Definition asks (P : Z -> bool) (opts : list (Z * list Z)) : bool := existsb (fun o => P (fst o)) opts.

Lemma land_u32 f k : 0 <= k < 4294967296 -> Z.land (u32 f) k = Z.land f k.
Proof.
  intros Hk. unfold u32. change 4294967296 with (2 ^ 32). rewrite <- Z.land_ones by lia.
  rewrite <- Z.land_assoc. f_equal. rewrite Z.land_comm, Z.land_ones by lia. by apply Z.mod_small.
Qed.
Lemma land_land f a b : Z.land (Z.land f a) b = Z.land f (Z.land a b).
Proof. by rewrite Z.land_assoc. Qed.

Lemma modes_range : 0 <= XDP_FLAGS_MODES < 4294967296.
Proof. change XDP_FLAGS_MODES with 14. lia. Qed.

(** Selecting a mode replaces the mode bits and nothing else. *)
Lemma set_mode_modes f m : Z.land m XDP_FLAGS_MODES = m ->
  Z.land (Z.lor (clear_modes f) m) XDP_FLAGS_MODES = m.
Proof.
  intros Hm. rewrite Z.land_lor_distr_l, Hm. unfold clear_modes.
  rewrite land_u32, land_land by apply modes_range.
  change (Z.land (Z.lnot XDP_FLAGS_MODES) XDP_FLAGS_MODES) with 0. by rewrite Z.land_0_r.
Qed.
Lemma set_mode_noexist f m : Z.land m 1 = 0 -> Z.land (Z.lor (clear_modes f) m) 1 = Z.land f 1.
Proof.
  intros Hm. rewrite Z.land_lor_distr_l, Hm, Z.lor_0_r. unfold clear_modes.
  by rewrite land_u32, land_land by lia.
Qed.

Section Flags.
Context (if_nametoindex : list Z -> Z).
Abbreviation parse_opt := (parse_opt if_nametoindex).
Abbreviation parse_opts := (parse_opts if_nametoindex).

(** One case of the switch at a time. *)
Ltac each_option Hp :=
  unfold Params.parse_opt in Hp;
  repeat (match type of Hp with (if ?o =? ?k then _ else _) = _ =>
            destruct (Z.eqb_spec o k); [subst; repeat case_match; simplify_eq|] end).

Lemma parse_opt_flags o arg cfg cfg' : parse_opt o arg cfg = inr cfg' ->
  Z.land (xdp_flags cfg') XDP_FLAGS_MODES = default (Z.land (xdp_flags cfg) XDP_FLAGS_MODES) (mode_of o) /\
  Z.land (xdp_flags cfg') 1 = (if o =? ch_F then 0 else Z.land (xdp_flags cfg) 1).
Proof.
  intros Hp. each_option Hp; try done; cbn [xdp_flags set_flags set_bind]; simpl mode_of; simpl default; split;
    try (rewrite set_mode_modes; done); try (by rewrite set_mode_noexist).
  - rewrite <- (Z.lor_0_r (clear_modes _)). by rewrite set_mode_modes.
  - rewrite <- (Z.lor_0_r (clear_modes _)). by rewrite set_mode_noexist.
  - by rewrite land_u32, land_land by apply modes_range.
  - by rewrite land_u32, land_land, Z.land_0_r by lia.
Qed.

Lemma parse_opt_bind o arg cfg cfg' : parse_opt o arg cfg = inr cfg' ->
  Z.testbit (xsk_bind_flags cfg') 1 = Z.testbit (xsk_bind_flags cfg) 1 || (o =? ch_S) || (o =? ch_c) /\
  Z.testbit (xsk_bind_flags cfg') 2 = Z.testbit (xsk_bind_flags cfg) 2 || (o =? ch_z).
Proof.
  intros Hp. each_option Hp; cbn [xsk_bind_flags set_flags set_bind set_dev set_redirect_dev set_bools set_strings];
    unfold XDP_COPY, XDP_ZEROCOPY; rewrite ?Z.lor_spec, ?Z.land_spec; simpl Z.eqb; rewrite ?orb_false_r, ?orb_true_r;
    try done; split; simpl; by rewrite ?andb_true_r, ?andb_false_r, ?orb_true_r, ?orb_false_r.
Qed.

Lemma parse_opts_flags opts : forall cfg cfg', parse_opts opts cfg = inr cfg' ->
  Z.land (xdp_flags cfg') XDP_FLAGS_MODES = final_mode opts (Z.land (xdp_flags cfg) XDP_FLAGS_MODES) /\
  Z.land (xdp_flags cfg') 1 = (if asks (fun o => o =? ch_F) opts then 0 else Z.land (xdp_flags cfg) 1).
Proof.
  induction opts as [|[o arg] opts IH]; simpl; intros cfg cfg' Hp; [by simplify_eq|].
  destruct (parse_opt o arg cfg) as [|cfg1] eqn:E; [done|].
  apply parse_opt_flags in E as [E1 E2]. apply IH in Hp as [H1 H2].
  unfold asks in *. cbn [existsb fst]. rewrite H1, H2, E1, E2. split; [done|]. by destruct (o =? ch_F), (existsb _ opts).
Qed.
Lemma parse_opts_bind opts : forall cfg cfg', parse_opts opts cfg = inr cfg' ->
  Z.testbit (xsk_bind_flags cfg') 1 =
    Z.testbit (xsk_bind_flags cfg) 1 || asks (fun o => (o =? ch_S) || (o =? ch_c)) opts /\
  Z.testbit (xsk_bind_flags cfg') 2 = Z.testbit (xsk_bind_flags cfg) 2 || asks (fun o => o =? ch_z) opts.
Proof.
  induction opts as [|[o arg] opts IH]; intros cfg cfg' Hp; cbn [Params.parse_opts] in Hp;
    [simplify_eq; unfold asks; cbn [existsb]; by rewrite !orb_false_r|].
  destruct (parse_opt o arg cfg) as [|cfg1] eqn:E; [done|].
  apply parse_opt_bind in E as [E1 E2]. apply IH in Hp as [H1 H2].
  unfold asks in *. cbn [existsb fst]. rewrite H1, H2, E1, E2. by rewrite <- !orb_assoc.
Qed.

(** ** Names *)

(** The device the last [-d] names. *)
Fixpoint last_dev (opts : list (Z * list Z)) (n : option (list Z)) : option (list Z) :=
  match opts with
  | [] => n
  | (o, arg) :: opts' => last_dev opts' (if o =? ch_d then Some arg else n)
  end.
(** The configuration names device [n] and holds its index. *)
Definition dev_is (cfg : config) (n : option (list Z)) : Prop :=
  match n with
  | None => ifname cfg = None
  | Some s => (exists buf, ifname cfg = Some buf /\ lenZ buf = IF_NAMESIZE /\ c_str buf = Some s) /\
              ifindex cfg = if_nametoindex s /\ ifindex cfg <> 0
  end.

Lemma c_str_pad s n : Forall (fun b => b <> 0) s -> (0 < n)%nat -> c_str (s ++ replicate n 0) = Some s.
Proof.
  intros Hs Hn. induction s as [|b s IH]; simpl.
  - by destruct n; [lia|].
  - apply Forall_cons_1 in Hs as [Hb Hs]. rewrite (IH Hs). by destruct b.
Qed.
Lemma strncpy_short s n : (length s < n)%nat ->
  strncpy s n = s ++ replicate (n - length s) 0.
Proof.
  intros Hl. unfold strncpy. rewrite take_app_ge by lia. by rewrite take_replicate, Nat.min_l by lia.
Qed.
Lemma parse_opt_dev o arg cfg cfg' n : parse_opt o arg cfg = inr cfg' ->
  Forall (fun b => b <> 0) arg -> dev_is cfg n -> dev_is cfg' (if o =? ch_d then Some arg else n).
Proof.
  intros Hp Ha Hd. destruct (Z.eqb_spec o ch_d) as [->|Hne].
  - unfold Params.parse_opt in Hp. rewrite Z.eqb_refl in Hp.
    destruct (Z.geb_spec (lenZ arg) IF_NAMESIZE) as [|Hlt]; [done|].
    destruct (Z.eqb_spec (if_nametoindex arg) 0) as [|Hidx]; [done|]. simplify_eq.
    unfold dev_is, IF_NAMESIZE in *. cbn [set_dev ifname ifindex]. split; [|done].
    exists (strncpy arg 16). split; [done|]. rewrite strncpy_short by lia.
    rewrite length_app, length_replicate. split; [lia|]. apply c_str_pad; [done|lia].
  - each_option Hp; try done; destruct n; done.
Qed.
Lemma parse_opts_dev opts : forall cfg cfg' n, parse_opts opts cfg = inr cfg' ->
  Forall (fun o => Forall (fun b => b <> 0) (snd o)) opts -> dev_is cfg n -> dev_is cfg' (last_dev opts n).
Proof.
  induction opts as [|[o arg] opts IH]; simpl; intros cfg cfg' n Hp Ha Hd; [by simplify_eq|].
  apply Forall_cons_1 in Ha as [Ha Hall]. destruct (parse_opt o arg cfg) as [|cfg1] eqn:E; [done|].
  eapply IH; [done|done|]. by eapply parse_opt_dev.
Qed.
End Flags.

(** The XDP flags a command line produces.  When parsing succeeds the mode bits
    are those of the last mode option given (-A, -S, -N, --offload-mode; those from
    before if there is none), never a mixture of two, and the "no replace" flag is kept
    unless --force was given; in every other case the program exits with
    EXIT_FAIL_OPTION. *)
Theorem parse_cmdline_flags (if_nametoindex : list Z -> Z) (malloc_ok : bool) (opts : list (Z * list Z)) (cfg : config) :
  parse_cmdline_args if_nametoindex malloc_ok opts cfg = inl EXIT_FAIL_OPTION \/
  exists cfg', parse_cmdline_args if_nametoindex malloc_ok opts cfg = inr cfg' /\
    Z.land (xdp_flags cfg') XDP_FLAGS_MODES = final_mode opts (Z.land (xdp_flags cfg) XDP_FLAGS_MODES) /\
    Z.land (xdp_flags cfg') XDP_FLAGS_UPDATE_IF_NOEXIST =
      (if asks (fun o => o =? ch_F) opts then 0 else Z.land (xdp_flags cfg) XDP_FLAGS_UPDATE_IF_NOEXIST).
Proof.
  unfold parse_cmdline_args. destruct malloc_ok; cbn [negb]; [|by left].
  destruct (parse_opts if_nametoindex opts cfg) as [e|cfg'] eqn:E.
  - left. f_equal. revert cfg E. induction opts as [|[o arg] opts IH]; simpl; intros cfg E; [done|].
    destruct (parse_opt if_nametoindex o arg cfg) as [e'|cfg1] eqn:E1; [|by eapply IH].
    simplify_eq. unfold parse_opt in E1. repeat case_match; by simplify_eq.
  - right. exists cfg'. split; [done|]. by eapply parse_opts_flags.
Qed.

(** The bind flags accumulate.  After a successful parse the copy bit is set
    exactly if it was set before or -S or -c was given, and the zero-copy bit exactly
    if it was set before or -z was given: a later option never clears the other bit, so
    that -z followed by -c asks the kernel for both at once. *)
Theorem bind_flags_accumulate (if_nametoindex : list Z -> Z) (opts : list (Z * list Z)) (cfg cfg' : config) :
  parse_cmdline_args if_nametoindex true opts cfg = inr cfg' ->
  Z.testbit (xsk_bind_flags cfg') 1 =
    Z.testbit (xsk_bind_flags cfg) 1 || asks (fun o => (o =? ch_S) || (o =? ch_c)) opts /\
  Z.testbit (xsk_bind_flags cfg') 2 = Z.testbit (xsk_bind_flags cfg) 2 || asks (fun o => o =? ch_z) opts.
Proof. apply parse_opts_bind. Qed.
(** The configuration the loaders start from. *)
Definition demo_config : config :=
  Config (Z.lor XDP_FLAGS_UPDATE_IF_NOEXIST XDP_FLAGS_DRV_MODE) (-1) None 0 None false false
    (replicate 512 0) (replicate 32 0) (replicate 18 0) (replicate 18 0) 0 0 false true.
Lemma bind_flags_accumulate_witness : exists cfg',
  parse_cmdline_args (fun _ => 7) true [(ch_z, []); (ch_c, [])] demo_config = inr cfg' /\
  xsk_bind_flags cfg' = Z.lor XDP_ZEROCOPY XDP_COPY /\
  Z.testbit (xsk_bind_flags cfg') 1 = true /\ Z.testbit (xsk_bind_flags cfg') 2 = true.
Proof.
  destruct (parse_cmdline_args (fun _ => 7) true [(ch_z, []); (ch_c, [])] demo_config) as [e|cfg'] eqn:E;
    [vm_compute in E; discriminate|].
  destruct (bind_flags_accumulate _ _ _ _ E) as [H1 H2]. exists cfg'.
  split; [reflexivity|]. split; [|split; [exact H1|exact H2]].
  vm_compute in E. injection E as <-. reflexivity.
Defined.

(** After a successful parse the configuration names the device of the last -d
    option: its name is in the buffer, NUL-terminated, and the index is the one the
    system reports for it, not 0.  A name of IF_NAMESIZE bytes or more never gets
    through. *)
Theorem parse_cmdline_device (if_nametoindex : list Z -> Z) (opts : list (Z * list Z)) (cfg cfg' : config) :
  parse_cmdline_args if_nametoindex true opts cfg = inr cfg' ->
  Forall (fun o => Forall (fun b => b <> 0) (snd o)) opts -> ifname cfg = None ->
  dev_is if_nametoindex cfg' (last_dev opts None).
Proof. intros Hp Ha Hn. by eapply parse_opts_dev. Qed.
Lemma parse_cmdline_device_witness : exists cfg',
  parse_cmdline_args (fun _ => 7) true [(ch_d, [118; 48]); (ch_S, []); (ch_d, [118; 49])] demo_config = inr cfg' /\
  dev_is (fun _ => 7) cfg' (Some [118; 49]).
Proof.
  destruct (parse_cmdline_args (fun _ => 7) true [(ch_d, [118; 48]); (ch_S, []); (ch_d, [118; 49])] demo_config)
    as [e|cfg'] eqn:E; [vm_compute in E; discriminate|].
  exists cfg'. split; [reflexivity|].
  apply (parse_cmdline_device (fun _ => 7) _ _ _ E); [|reflexivity].
  repeat constructor; discriminate.
Defined.
