(* ===== verification/Configure.v ===== *)
(** * Setting up the switch: configure_xsk_umem and xsk_configure_socket

    The set-up functions of switchtsn/af_xdp_user.c, over the library of [XskCreate]
    and the data path of [AfXdp]: they create the umem and the socket, put all frames
    on the free list and stuff the fill ring.  The theorem joins the layers: what
    set-up hands to the poll loop satisfies the invariant that the loop keeps. *)

From S2P Require Import Prelude Params Ring AfXdp AfXdpInv AfXdpSafe Datapath BpfProg Os XskCreate XskResources.
#[local] Open Scope Z_scope.
#[local] Open Scope prog_scope.

Section Configure.
Context `{Os} `{XskKernel}.

Definition set_errno (e : Z) : K unit :=
  modify (fun s => Sys (fds s) (maps s) (heap s) e (clock s)).

(** The zeroed [struct xsk_umem_info] holds the two ring structures. *)
Definition configure_xsk_umem (buffer size : Z) : K (option xsk_umem) :=
  let! umem := calloc in
  match umem with
  | None => ret None
  | Some _ =>
      let! (r, um) := xsk_umem__create_v0_0_4 buffer size (Some zero_ring) (Some zero_ring) None in
      if negb (r =? 0) then set_errno (- r) ;;; ret None
      else let! u := deref um in ret (Some u)
  end.

(** The rings over the memory the kernel has mapped, zeroed and with as many slots as
    the ring has.  The pointers of the structure, to the two indices, the flags and the slots,
    are the addresses of what [xsk_ring] has as fields. *)
Definition mapped {A} (v : A) (r : ring_hdr) : xsk_ring A := ring_over r (repeat v (Z.to_nat (rh_size r))).
(** The zeroed [struct xsk_socket_info] once the rings are set up. *)
Definition socket_info (u : xsk_umem) (rx tx : ring_hdr) : world :=
  World (mapped (Xdp_desc 0 0) rx) (mapped (Xdp_desc 0 0) tx) (mapped 0 (um_fill u)) (mapped 0 (um_comp u))
    (fun _ => 0) (repeat 0 4096) 0 0 (Stats_record 0 0 0 0 0) [] [] 0.

(** The socket information with its socket, or [None] at [error_exit]; and the umem, whose reference
    count has changed.  The code to set errno to is the result of the reservation, 0,
    when the fill ring has no room. *)
Definition xsk_configure_socket (cfg : config) (umem : xsk_umem) : K (option (world * xsk_socket) * xsk_umem) :=
  let! m := calloc in
  match m with
  | None => ret (None, umem)
  | Some _ =>
      let xsk_cfg := Xsk_socket_config XSK_RING_CONS__DEFAULT_NUM_DESCS XSK_RING_PROD__DEFAULT_NUM_DESCS 0
                       (Params.xdp_flags cfg) (xsk_bind_flags cfg) in
      let! (r, um, xsk) := xsk_socket__create (ifname cfg) (xsk_if_queue cfg) (Some umem) (Some zero_ring)
                             (Some zero_ring) (Some xsk_cfg) in
      let! umem := deref um in
      if negb (r =? 0) then set_errno (- r) ;;; ret (None, umem)
      else
        let! xsk := deref xsk in
        let! (r, _) := sys_query (Bpf_get_link_xdp_id (ifindex cfg) (Params.xdp_flags cfg)) in
        if negb (r =? 0) then set_errno (- r) ;;; ret (None, umem)
        else
          let! rx := deref (xs_rx xsk) in
          let! tx := deref (xs_tx xsk) in
          match init_umem_frames (socket_info umem rx tx) with
          | None => fault
          | Some (true, w) => ret (Some (w, xsk), umem)
          | Some (false, _) => set_errno 0 ;;; ret (None, umem)
          end
  end.
End Configure.

Section Startup.
Context `{OO : OsOk} `{KO : XskKernelOk}.

Lemma mapped_prod {A} (v : A) r :
  ring_ready (Some zero_ring) (Some r) 2048 (fun _ => 2048) -> mapped v r = fresh_prod 2048 v.
Proof. destruct r. intros (Hp & Hc & Hm & Hs). simpl in *. by subst. Qed.
Lemma mapped_cons {A} (v : A) r :
  ring_ready (Some zero_ring) (Some r) 2048 rh_cached_cons -> mapped v r = fresh_cons 2048 v.
Proof. destruct r. intros (Hp & Hc & Hm & Hs). simpl in *. by subst. Qed.
Lemma set_errno_has s F Mp Hp e (Q : unit -> sys -> Prop) :
  has s F Mp Hp -> (forall s', has s' F Mp Hp -> Q tt s') -> wp (set_errno e) Q s.
Proof. intros HS HQ. unfold set_errno. wp_step. by apply HQ. Qed.

(** What [configure_xsk_umem] hands on. *)
Definition umem_set_up (u : xsk_umem) : Prop :=
  um_refcount u = 0 /\
  ring_ready (Some zero_ring) (Some (um_fill u)) 2048 (fun _ => 2048) /\
  ring_ready (Some zero_ring) (Some (um_comp u)) 2048 rh_cached_cons.

Lemma wp_configure_umem buf size F Mp Hp s : has s F Mp Hp ->
  wp (configure_xsk_umem buf size) (fun r s' => match r with Some u => umem_set_up u /\ exists p, owns_umem u F Mp (p :: Hp) s' /\ umem_rings u (maps s') | None => True end) s.
Proof using OO.
  intros HS. unfold configure_xsk_umem.
  os_steps; [|done]. eapply wp_mono; [by eapply wp_umem_create|].
  intros [r [u|]] s1; cbn [umem_post].
  - intros (-> & Hr & Ho & Hcfg & Hf & Hc & Hat). os_steps. unfold deref. os_steps. split; [by rewrite Hcfg in *|]. by eexists.
  - intros (Hr & _). os_guard. wp_steps. done.
Qed.

(** What the sockets of [owns_sock] own is not changed by questions. *)
Lemma owns_sock_same u x F Mp Hp s s' : owns_sock u x F Mp Hp s -> (forall F Mp Hp, has s F Mp Hp -> has s' F Mp Hp) -> owns_sock u x F Mp Hp s'.
Proof using.
  intros (L & off & H1 & H2 & H3 & H4 & H5 & H6 & H7 & H8 & P & HS & HP) Hsame. exists L, off. repeat (split; [done|]). exists P. auto.
Qed.
Lemma query_same q s (Q : Z * list Z -> sys -> Prop) : (forall r s', (forall F Mp Hp, has s F Mp Hp -> has s' F Mp Hp) -> Q r s') -> wp (sys_query q) Q s.
Proof using. intros HQ. unfold wp, sys_query. destruct (os_query s q) as [e d]. destruct (e =? 0); apply HQ; by intros. Qed.
(** The rings of the loop are those of the socket and of its umem. *)
Definition handed_over (u : xsk_umem) (x : xsk_socket) (w : world) : Prop :=
  exists rx tx, xs_rx x = Some rx /\ xs_tx x = Some tx /\ init_umem_frames (socket_info u rx tx) = Some (true, w).
Lemma wp_configure_socket cfg u F Mp Hp s : has s F Mp Hp -> umem_set_up u -> ifname cfg <> None ->
  wp (xsk_configure_socket cfg u) (fun r s' => match r with (Some (w, x), u') => idle_inv w /\ u' = set_refcount u (um_refcount u + 1) /\ exists p, (p ∉ Hp) /\ owns_sock u x F Mp (p :: Hp) s' /\ handed_over u' x w /\ sock_rings x (maps s') /\ xs_fd x = um_fd u | _ => True end) s.
Proof using OO KO.
  intros HS (Hrc & Hf & Hc) Hn. unfold xsk_configure_socket.
  os_steps; [|done]. 
  eapply wp_mono; [eapply wp_socket_create; [done|eassumption|]|].
  { intros ? [= <-]. by rewrite Hrc. }
  intros [[r [u'|]] [x|]] s1; cbn [sock_post]; try done.
  - intros (-> & -> & Ho & Hx & Hr & Ht & Hat).
    injection Hx as Hx. rewrite <- Hx in *. unfold deref. os_steps. eapply query_same. intros [r d] s2 Hsame. cbv beta iota.
    pose proof (owns_sock_same _ _ _ _ _ _ _ Ho Hsame) as Ho2.
    assert (Hat2 : sock_rings x (maps s2)) by (destruct (Hsame (fds s1) (maps s1) (heap s1) ltac:(done)) as (_ & -> & _); exact Hat).
    assert (Hfd : xs_fd x = um_fd u) by (destruct Ho as (L & off & _ & _ & _ & _ & Hfd & _); by apply Hfd). destruct (negb (r =? 0)).
    + wp_steps. done.
    + destruct (xs_rx x) as [rx|] eqn:Erx; [|done]. destruct (xs_tx x) as [tx|] eqn:Etx; [|done]. os_steps.
      assert (Hw : socket_info (set_refcount u (um_refcount u + 1)) rx tx = fresh_world).
      { unfold socket_info, fresh_world. cbn [um_fill um_comp set_refcount].
        by rewrite (mapped_prod _ _ Hf), (mapped_cons _ _ Hc), (mapped_cons _ _ Hr), (mapped_prod _ _ Ht). }
      rewrite Hw. destruct init_umem_frames_runs as (w' & Hrun & Hi). rewrite Hrun. os_steps. split; [done|]. split; [done|]. eexists. split; [done|]. split; [done|]. split; [|by split].
      exists rx, tx. split; [done|]. split; [done|]. by rewrite Hw.
  - intros (Hr & _). unfold deref. os_steps. wp_steps. done.
Qed.
End Startup.

(** The set-up, with the umem and the socket that it hands to the loop. *)
Definition startup `{Os} `{XskKernel} (buf size : Z) (cfg : config) : K (option (world * xsk_socket * xsk_umem)) :=
  let! m := configure_xsk_umem buf size in
  match m with
  | None => ret None
  | Some u => let! (r, u) := xsk_configure_socket cfg u in ret (match r with Some (w, x) => Some (w, x, u) | None => None end)
  end.

(** C2: start-up reaches the invariant of the data path.  For a configuration with the name
    of an interface, configuring a umem and a socket on it always returns, whatever the system
    and the kernel do.  When it hands a socket to the poll loop, the four rings of the loop are
    those of the socket and its umem, and each is the one the kernel mapped: the pointers to
    its producer index, consumer index, flags and slots are at the offsets that the kernel
    reported, in a mapping that the process owns and that the kernel made for this ring of
    the socket.  Every frame is on the free list, in the fill ring or with the kernel, exactly
    once, and the loop's invariant holds. *)
Theorem startup_reaches_invariant `{OO : OsOk} `{KO : XskKernelOk} (s : sys) buf size (cfg : config) :
  ifname cfg <> None ->
  exists r s', startup buf size cfg s = Some (r, s') /\
    match r with
    | Some (w, x, u) => idle_inv w /\ handed_over u x w /\ umem_rings u (maps s') /\ sock_rings x (maps s') /\ xs_fd x = um_fd u
    | None => True
    end.
Proof.
  intros Hn. apply wp_run, wp_bind. eapply wp_mono; [by apply (wp_configure_umem buf size (fds s) (maps s) (heap s))|].
  intros [u|] s1; [|done]. intros (Hu & p & _ & Hum). apply wp_bind. eapply wp_mono; [by apply (wp_configure_socket cfg u (fds s1) (maps s1) (heap s1))|].
  intros [[[w x]|] u'] s2 Hw; apply wp_ret; [|done]. destruct Hw as (Hi & -> & q & _ & Ho & Hh & Hs & Hfd).
  split; [done|]. split; [done|]. split; [|done]. destruct Ho as (L & off & _ & _ & _ & _ & _ & _ & _ & _ & P & (_ & Em & _) & _). rewrite Em.
  destruct Hum as (off' & Hr & Hf & Hc). exists off'. split; [done|]. split; (eapply ring_at_mono; [|done]); intros m Hm; rewrite !elem_of_app; auto.
Qed.
(** ** An example *)

(** A device "v1", on a system that grants everything. *)
Definition demo_config1 : config := set_dev demo_config (strncpy [118; 49] 16) 5.
Definition demo_umem_info : option (option xsk_umem * sys) :=
  Eval vm_compute in configure_xsk_umem (H := demo_os) 4096 16777216 demo_state.
Definition demo_umem1 : xsk_umem := match demo_umem_info with Some (Some u, _) => u | _ => demo_umem 0 end.
Definition demo_state1 : sys := match demo_umem_info with Some (_, s) => s | None => demo_state end.
Definition demo_state2 : sys :=
  Sys (fds demo_state1) (maps demo_state1) (3 :: heap demo_state1) (errno demo_state1) (S (clock demo_state1)).
Definition demo_sock : option (sock_result * sys) :=
  Eval vm_compute in xsk_socket__create (H := demo_os) (Some (strncpy [118; 49] 16)) 0 (Some demo_umem1) (Some zero_ring)
    (Some zero_ring) (Some (Xsk_socket_config 2048 2048 0 5 0)) demo_state2.

Lemma bind_run {S A B} (c : M S A) (k : A -> M S B) s a s' : c s = Some (a, s') -> bind c k s = k a s'.
Proof. unfold bind. by intros ->. Qed.
Lemma bind_deref {S A B} (a : A) (k : A -> M S B) s : bind (deref (Some a)) k s = k a s.
Proof. done. Qed.
Lemma bind_link_query {B} i f (k : Z * list Z -> K B) s :
  bind (sys_query (H := demo_os) (Bpf_get_link_xdp_id i f)) k s = k (0, [0]) (tick s).
Proof. done. Qed.
Lemma demo_umem_run : configure_xsk_umem (H := demo_os) 4096 16777216 demo_state = Some (Some demo_umem1, demo_state1).
Proof. vm_compute. reflexivity. Qed.
Lemma demo_calloc_run : calloc (H := demo_os) demo_state1 = Some (Some 3, demo_state2).
Proof. vm_compute. reflexivity. Qed.
Lemma demo_sock_run : xsk_socket__create (H := demo_os) (Some (strncpy [118; 49] 16)) 0 (Some demo_umem1) (Some zero_ring)
    (Some zero_ring) (Some (Xsk_socket_config 2048 2048 0 5 0)) demo_state2 = demo_sock.
Proof. vm_compute. reflexivity. Qed.
Lemma demo_startup_succeeds : exists w x u s', startup (H := demo_os) (H0 := demo_kernel) 4096 16777216 demo_config1 demo_state = Some (Some (w, x, u), s').
Proof.
  unfold startup. rewrite (bind_run _ _ _ _ _ demo_umem_run).
  destruct (init_umem_frames_runs (KO := demo_kernel_ok)) as (w' & Hi & _).
  assert (Hs : exists x u2 s2, xsk_configure_socket (H := demo_os) (H0 := demo_kernel) demo_config1 demo_umem1 demo_state1
    = Some ((Some (w', x), u2), s2)).
  { unfold xsk_configure_socket. rewrite (bind_run _ _ _ _ _ demo_calloc_run). cbv iota beta.
    change (ifname demo_config1) with (Some (strncpy [118; 49] 16)).
    pose proof demo_sock_run as Hs. unfold demo_sock in Hs. rewrite (bind_run _ _ _ _ _ Hs). cbv iota beta.
    rewrite bind_deref. cbn [Z.eqb negb]. rewrite bind_deref, bind_link_query. cbn [Z.eqb negb].
    cbn [xs_rx xs_tx]. rewrite !bind_deref.
    match goal with |- context [socket_info ?u ?rx ?tx] =>
      replace (socket_info u rx tx) with fresh_world by (vm_compute; reflexivity) end.
    rewrite Hi. by eexists _, _, _. }
  destruct Hs as (x & u2 & s2 & Hs). exists w', x, u2, s2. by rewrite (bind_run _ _ _ _ _ Hs).
Qed.
Lemma startup_reaches_invariant_witness : exists w x u s',
  startup (H := demo_os) (H0 := demo_kernel) 4096 16777216 demo_config1 demo_state = Some (Some (w, x, u), s') /\
  idle_inv w /\ umem_rings (H := demo_os) u (maps s') /\ sock_rings (H := demo_os) x (maps s').
Proof.
  destruct (startup_reaches_invariant (OO := demo_os_ok) (KO := demo_kernel_ok) demo_state 4096 16777216 demo_config1)
    as (r & s' & E & Hr); [discriminate|].
  destruct demo_startup_succeeds as (w & x & u & s2 & E2). rewrite E2 in E. injection E as <- <-.
  exists w, x, u, s2. split; [exact E2|]. destruct Hr as (Hi & _ & Hu & Hs & _). split; [exact Hi|]. split; [exact Hu|exact Hs].
Defined.
