(* ===== verification/Variants.v ===== *)
(** * Variants of the programs

    The repository keeps several copies of the same programs.  Where the text of a
    function differs from the copy modelled elsewhere only in comments and white
    space, the definition here is that model under the name of the other file:
    switchtsn/af_xdp_david_new.c, af_xdp_david_shared.c and af_xdp_user_david.c next to
    af_xdp_user.c, and packet03-redirecting/xdp_prog_kern_sol.c next to
    xdp_prog_kern.c.  The packet handlers that do differ are in [SharedUmem], the
    redirect program with other constants is in [Packet03]. *)

From S2P Require Import Prelude Checksum Packet03 Ring AfXdp SharedUmem Configure.

(** switchtsn/af_xdp_david_new.c: the single-interface program, annotated. *)
Module DavidNew.
Definition xsk_ring_prod__free := @Ring.xsk_ring_prod__free.
Definition configure_xsk_umem := @Configure.configure_xsk_umem.
Definition xsk_alloc_umem_frame := @AfXdp.xsk_alloc_umem_frame.
Definition xsk_free_umem_frame := @AfXdp.xsk_free_umem_frame.
Definition xsk_umem_free_frames := @AfXdp.xsk_umem_free_frames.
Definition xsk_configure_socket := @Configure.xsk_configure_socket.
Definition complete_tx := @AfXdp.complete_tx.
Definition csum16_add := @Checksum.csum16_add.
Definition csum16_sub := @Checksum.csum16_sub.
Definition csum_replace2 := @Checksum.csum_replace2.
Definition process_packet := @AfXdp.process_packet.
Definition handle_receive_packets := @AfXdp.handle_receive_packets.
Definition rx_and_process := @AfXdp.rx_and_process.
End DavidNew.

(** switchtsn/af_xdp_david_shared.c: two sockets on one umem; the handlers are those of
    [SharedUmem.Shared]. *)
Module DavidShared.
Definition xsk_ring_prod__free := @Ring.xsk_ring_prod__free.
Definition configure_xsk_umem := @Configure.configure_xsk_umem.
Definition xsk_alloc_umem_frame := @AfXdp.xsk_alloc_umem_frame.
Definition xsk_free_umem_frame := @AfXdp.xsk_free_umem_frame.
Definition xsk_umem_free_frames := @AfXdp.xsk_umem_free_frames.
Definition xsk_configure_socket := @Configure.xsk_configure_socket.
Definition complete_tx := @AfXdp.complete_tx.
Definition csum16_add := @Checksum.csum16_add.
Definition csum16_sub := @Checksum.csum16_sub.
Definition csum_replace2 := @Checksum.csum_replace2.
End DavidShared.

(** switchtsn/af_xdp_user_david.c: a left and a right interface; the same functions as
    af_xdp_david_shared.c. *)
Module UserDavid.
Definition xsk_ring_prod__free := @Ring.xsk_ring_prod__free.
Definition configure_xsk_umem := @Configure.configure_xsk_umem.
Definition xsk_alloc_umem_frame := @AfXdp.xsk_alloc_umem_frame.
Definition xsk_free_umem_frame := @AfXdp.xsk_free_umem_frame.
Definition xsk_umem_free_frames := @AfXdp.xsk_umem_free_frames.
Definition xsk_configure_socket := @Configure.xsk_configure_socket.
Definition complete_tx := @AfXdp.complete_tx.
Definition csum16_add := @Checksum.csum16_add.
Definition csum16_sub := @Checksum.csum16_sub.
Definition csum_replace2 := @Checksum.csum_replace2.
Definition process_packet := @Shared.process_packet.
Definition handle_receive_packets := @Shared.handle_receive_packets.
Definition rx_and_process := @Shared.rx_and_process.
End UserDavid.

(** packet03-redirecting/xdp_prog_kern_sol.c: the solutions. *)
Module Sol.
Definition csum_fold_helper := @Checksum.csum_fold_helper.
Definition icmp_checksum_diff := @Checksum.icmp_checksum_diff.
Definition xdp_redirect_map_func := @Packet03.xdp_redirect_map_func.
Definition ip_decrease_ttl := @Packet03.ip_decrease_ttl.
Definition xdp_router_func := @Packet03.xdp_router_func.
Definition xdp_pass_func := @Packet03.xdp_pass_func.
End Sol.
