(* ===== verification/Hashmap.v ===== *)
(** * The hash map of libbpf: libbpf/src/hashmap.c, hashmap.h

    A chained hash table with a power-of-two number of buckets that doubles when it is
    three quarters full.  A bucket is the list of its entries, head first; a pointer to
    a link ([pprev]) is the position in the chain.  Hashing and key equality are the
    caller's functions, the class [KeyOps]; what every caller promises is [KeyOk].  The
    outcome of an allocation is an argument.  The theorems show that the table
    implements a finite map, for every sequence of operations. *)

From S2P Require Import Prelude.
#[local] Open Scope Z_scope.
#[local] Open Scope prog_scope.

Class KeyOps (K : Type) := { hash_fn : K -> Z; equal_fn : K -> K -> bool }.
Class KeyOk {K : Type} (O : KeyOps K) : Prop := {
  equal_refl k : equal_fn k k = true;
  equal_sym k k' : equal_fn k k' = equal_fn k' k;
  equal_trans k1 k2 k3 : equal_fn k1 k2 = true -> equal_fn k2 k3 = true -> equal_fn k1 k3 = true;
  equal_hash k k' : equal_fn k k' = true -> hash_fn k = hash_fn k'
}.

Definition ENOENT : Z := 2.
Definition ENOMEM : Z := 12.
Definition EEXIST : Z := 17.
Definition HASHMAP_MIN_CAP_BITS : Z := 2.

Inductive hashmap_insert_strategy := HASHMAP_ADD | HASHMAP_SET | HASHMAP_UPDATE | HASHMAP_APPEND.
#[export] Instance strategy_eq_dec : EqDecision hashmap_insert_strategy.
Proof. solve_decision. Defined.

(** [map->buckets]: null, an array, or a pointer to freed memory. *)
Inductive table (E : Type) := Null | Live (b : list (list E)) | Freed.
Arguments Null {E}. Arguments Live {E}. Arguments Freed {E}.

Record hashmap (K V : Type) := Hashmap {
  buckets : table (K * V); cap : Z; cap_bits : Z; sz : Z
}.
Arguments Hashmap {K V}. Arguments buckets {K V}. Arguments cap {K V}.
Arguments cap_bits {K V}. Arguments sz {K V}.

Section Ops.
Context {K V : Type} `{KeyOps K}.
(** What the machine returns for a shift by the word size, which C leaves undefined. *)
Context (shift_by_word : Z -> Z).
Abbreviation entry := (K * V)%type.
Abbreviation chain := (list (K * V)).
Abbreviation HM := (M (hashmap K V)).

Definition hash_bits (h bits : Z) : Z :=
  let x := u64 (h * 11400714819323198485) in
  if bits =? 0 then shift_by_word x else Z.shiftr x (64 - bits).

Definition hashmap_add_entry (c : chain) (e : entry) : chain := e :: c.
(** [pprev] is the link at position [i]. *)
Definition hashmap_del_entry (c : chain) (i : nat) : chain := take i c ++ drop (S i) c.

Definition hashmap__init : hashmap K V := Hashmap Null 0 0 0.
Definition hashmap__new (ok : bool) : Z + hashmap K V := if ok then inr hashmap__init else inl (- ENOMEM).

(** Freeing memory twice is a fault; the pointer is not reset. *)
Definition hashmap__clear : HM unit := fun m =>
  match buckets m with
  | Null => Some (tt, Hashmap Null 0 0 0)
  | Live _ => Some (tt, Hashmap Freed 0 0 0)
  | Freed => None
  end.
Definition hashmap__free (m : option (hashmap K V)) : option unit :=
  match m with
  | None => Some tt
  | Some m => match hashmap__clear m with Some _ => Some tt | None => None end
  end.
Definition hashmap__size (m : hashmap K V) : Z := sz m.
Definition hashmap__capacity (m : hashmap K V) : Z := cap m.

Definition hashmap_needs_to_grow (m : hashmap K V) : bool :=
  (cap m =? 0) || (u64 (u64 (sz m + 1) * 4) / 3 >? cap m).

(** Reading a bucket: the array must be live and the index in it. *)
Definition bucket (t : table (K * V)) (h : Z) : option chain :=
  match t with
  | Live b => if 0 <=? h then b !! Z.to_nat h else None
  | _ => None
  end.
(** Adding at the head of bucket [h] of an array. *)
Definition add_at (b : list chain) (h : Z) (e : entry) : option (list chain) :=
  c ← (if 0 <=? h then b !! Z.to_nat h else None);
  Some (<[Z.to_nat h := hashmap_add_entry c e]> b).

(** [hashmap__for_each_entry]: bucket by bucket, each chain from its head. *)
Definition for_each_entry (m : hashmap K V) : option (list entry) :=
  if cap m =? 0 then Some []
  else match buckets m with
       | Live b => if Z.of_nat (length b) =? cap m then Some (concat b) else None
       | _ => None
       end.

Fixpoint rehash (es : list entry) (new_cap_bits : Z) (b : list chain) : option (list chain) :=
  match es with
  | [] => Some b
  | e :: es' =>
      b ← add_at b (hash_bits (hash_fn (fst e)) new_cap_bits) e;
      rehash es' new_cap_bits b
  end.

(** [calloc] also fails when the size overflows. *)
Definition hashmap_grow (ok : bool) : HM Z := fun m =>
  let new_cap_bits := u64 (cap_bits m + 1) in
  let new_cap_bits := if new_cap_bits <? HASHMAP_MIN_CAP_BITS then HASHMAP_MIN_CAP_BITS else new_cap_bits in
  if 64 <=? new_cap_bits then None
  else
    let new_cap := Z.shiftl 1 new_cap_bits in
    if negb (ok && (new_cap * 8 <? 18446744073709551616)) then Some (- ENOMEM, m)
    else
      es ← for_each_entry m;
      b ← rehash es new_cap_bits (replicate (Z.to_nat new_cap) []);
      match buckets m with
      | Freed => None
      | _ => Some (0, Hashmap (Live b) new_cap new_cap_bits (sz m))
      end.

(** The position of the first entry of a chain with an equal key. *)
Fixpoint chain_find (c : chain) (key : K) : option (nat * entry) :=
  match c with
  | [] => None
  | e :: c' => if equal_fn (fst e) key then Some (O, e)
               else match chain_find c' key with Some (i, e) => Some (S i, e) | None => None end
  end.
Definition hashmap_find_entry (m : hashmap K V) (key : K) (hash : Z) : option (option (nat * entry)) :=
  match buckets m with
  | Null => Some None
  | _ => c ← bucket (buckets m) hash; Some (chain_find c key)
  end.

Definition set_bucket (m : hashmap K V) (h : Z) (c : chain) (n : Z) : hashmap K V :=
  match buckets m with
  | Live b => Hashmap (Live (<[Z.to_nat h := c]> b)) (cap m) (cap_bits m) n
  | _ => m
  end.

(** The result and the old key and value. *)
Definition hashmap__insert (key : K) (value : V) (strategy : hashmap_insert_strategy)
    (calloc_ok malloc_ok : bool) : HM (Z * option entry) := fun m =>
  let h := hash_bits (hash_fn key) (cap_bits m) in
  found ← (if decide (strategy = HASHMAP_APPEND) then Some None else hashmap_find_entry m key h);
  let add :=
    if decide (strategy = HASHMAP_UPDATE) then Some ((- ENOENT, None), m)
    else
      '(err, m) ← (if hashmap_needs_to_grow m then hashmap_grow calloc_ok m else Some (0, m));
      if negb (err =? 0) then Some ((err, None), m)
      else
        let h := hash_bits (hash_fn key) (cap_bits m) in
        if negb malloc_ok then Some ((- ENOMEM, None), m)
        else
          c ← bucket (buckets m) h;
          Some ((0, None), set_bucket m h (hashmap_add_entry c (key, value)) (u64 (sz m + 1))) in
  match found with
  | Some (i, old) =>
      match strategy with
      | HASHMAP_SET | HASHMAP_UPDATE =>
          c ← bucket (buckets m) h;
          Some ((0, Some old), set_bucket m h (<[i := (key, value)]> c) (sz m))
      | HASHMAP_ADD => Some ((- EEXIST, Some old), m)
      | HASHMAP_APPEND => add
      end
  | None => add
  end.

Definition hashmap__find (key : K) : HM (option V) := fun m =>
  let h := hash_bits (hash_fn key) (cap_bits m) in
  found ← hashmap_find_entry m key h;
  Some (match found with Some (_, e) => Some (snd e) | None => None end, m).

Definition hashmap__delete (key : K) : HM (option entry) := fun m =>
  let h := hash_bits (hash_fn key) (cap_bits m) in
  found ← hashmap_find_entry m key h;
  match found with
  | None => Some (None, m)
  | Some (i, e) =>
      c ← bucket (buckets m) h;
      Some (Some e, set_bucket m h (hashmap_del_entry c i) (u64 (sz m - 1)))
  end.

(** [hashmap__for_each_key_entry]. *)
Definition for_each_key_entry (key : K) (m : hashmap K V) : option (list entry) :=
  match buckets m with
  | Null => Some []
  | _ => c ← bucket (buckets m) (hash_bits (hash_fn key) (cap_bits m));
         Some (List.filter (fun e => equal_fn (fst e) key) c)
  end.

Definition hashmap__add (key : K) (value : V) := hashmap__insert key value HASHMAP_ADD.
Definition hashmap__set (key : K) (value : V) := hashmap__insert key value HASHMAP_SET.
Definition hashmap__update (key : K) (value : V) := hashmap__insert key value HASHMAP_UPDATE.
Definition hashmap__append (key : K) (value : V) := hashmap__insert key value HASHMAP_APPEND.
End Ops.

(** ** Contents *)

Section Contents.
Context {K V : Type} `{KO : KeyOk K}.
Abbreviation entry := (K * V)%type.
Implicit Types (l c : list (K * V)) (b : list (list (K * V))).

(** The entry a search finds. *)
Definition assoc l (k : K) : option (K * V) := snd <$> chain_find l k.
(** No two entries have equal keys. *)
Fixpoint unique l : Prop :=
  match l with
  | [] => True
  | e :: l' => (forall e', e' ∈ l' -> equal_fn (fst e) (fst e') = false) /\ unique l'
  end.

Lemma chain_find_Some c k i e :
  chain_find c k = Some (i, e) -> c !! i = Some e /\ equal_fn (fst e) k = true.
Proof.
  revert i. induction c as [|e' c IH]; intros i; simpl; [done|].
  destruct (equal_fn (fst e') k) eqn:E; [intros [= <- <-]; done|].
  destruct (chain_find c k) as [[j e'']|]; [|done]. intros [= <- <-]. by apply IH.
Qed.
Lemma chain_find_None c k :
  chain_find c k = None <-> forall e, e ∈ c -> equal_fn (fst e) k = false.
Proof.
  induction c as [|e c IH]; simpl.
  - split; [|done]. intros _ e He. by apply elem_of_nil in He.
  - destruct (equal_fn (fst e) k) eqn:E.
    + split; [done|]. intros Hn. specialize (Hn e ltac:(by left)). congruence.
    + destruct (chain_find c k) as [[i e']|] eqn:Ec.
      * split; [done|]. intros Hn. exfalso. discriminate (proj2 IH (fun e He => Hn e ltac:(by right))).
      * split; [|done]. intros _ e' [->|He]%elem_of_cons; [done|]. by apply IH.
Qed.
Lemma chain_find_app l1 l2 k :
  chain_find l1 k = None -> assoc (l1 ++ l2) k = assoc l2 k.
Proof.
  unfold assoc. induction l1 as [|e l1 IH]; simpl; [done|]. destruct (equal_fn (fst e) k); [done|].
  destruct (chain_find l1 k) as [[]|]; [done|]. intros _. specialize (IH eq_refl).
  destruct (chain_find (l1 ++ l2) k) as [[]|]; done.
Qed.
Lemma chain_find_app_l l1 l2 k i e :
  chain_find l1 k = Some (i, e) -> chain_find (l1 ++ l2) k = Some (i, e).
Proof.
  revert i. induction l1 as [|e' l1 IH]; intros i; simpl; [done|].
  destruct (equal_fn (fst e') k); [done|].
  destruct (chain_find l1 k) as [[]|]; [|done]. intros [= <- <-]. by rewrite (IH _ eq_refl).
Qed.
Lemma assoc_app_r l1 l2 k :
  (forall e, e ∈ l2 -> equal_fn (fst e) k = false) -> assoc (l1 ++ l2) k = assoc l1 k.
Proof.
  intros Hn. unfold assoc. destruct (chain_find l1 k) as [[i e]|] eqn:E.
  - by rewrite (chain_find_app_l _ _ _ _ _ E).
  - replace (chain_find (l1 ++ l2) k) with (@None (nat * (K * V))); [done|]. symmetry.
    apply chain_find_None. intros e [He|He]%elem_of_app; [|by apply Hn].
    by eapply chain_find_None in E.
Qed.

(** In a list without equal keys the order does not matter. *)
Lemma assoc_unique l k e :
  unique l -> assoc l k = Some e <-> e ∈ l /\ equal_fn (fst e) k = true.
Proof using KO.
  intros Hu. unfold assoc. split.
  - intros Hf. destruct (chain_find l k) as [[i e']|] eqn:E; [|done]. injection Hf as ->.
    apply chain_find_Some in E as [Hi He]. split; [by eapply list_elem_of_lookup_2|done].
  - intros [Hin He]. induction l as [|e' l IH]; [by apply elem_of_nil in Hin|].
    destruct Hu as [Hn Hu]. simpl. destruct (equal_fn (fst e') k) eqn:E'.
    + apply elem_of_cons in Hin as [->|Hin]; [done|]. exfalso.
      rewrite equal_sym in He. pose proof (equal_trans _ _ _ E' He) as Ht. by rewrite (Hn e Hin) in Ht.
    + apply elem_of_cons in Hin as [->|Hin]; [congruence|]. specialize (IH Hu Hin).
      by destruct (chain_find l k) as [[]|].
Qed.
Lemma assoc_None l k : assoc l k = None <-> forall e, e ∈ l -> equal_fn (fst e) k = false.
Proof.
  rewrite <- chain_find_None. unfold assoc. by destruct (chain_find l k) as [[]|].
Qed.
#[export] Instance unique_proper : Proper ((≡ₚ) ==> iff) unique.
Proof using KO.
  assert (Himp : forall l l', l ≡ₚ l' -> unique l -> unique l').
  { induction 1 as [|e l l' HP IH|e e' l|]; simpl; try tauto.
    - intros [Hn Hu]. split; [|by apply IH]. intros e' He'. apply Hn. by rewrite HP.
    - intros (H1 & H2 & Hu). split_and!; try done.
      + intros e'' [->|He]%elem_of_cons; [rewrite equal_sym; apply H1; by left|by apply H2].
      + intros e'' He. apply H1. by right. }
  intros l l' HP. split; [by apply Himp|apply Himp; by symmetry].
Qed.
Lemma assoc_perm l l' k : unique l -> l ≡ₚ l' -> assoc l k = assoc l' k.
Proof using KO.
  intros Hu HP. assert (Hu' : unique l') by by rewrite <- HP.
  destruct (assoc l k) as [e|] eqn:E; symmetry.
  - apply assoc_unique in E; [|done]. apply assoc_unique; [done|]. by rewrite <- HP.
  - apply assoc_None. intros e He. eapply assoc_None in E; [done|]. by rewrite HP.
Qed.
End Contents.

(** ** The table *)

Section Table.
Context {K V : Type} `{KO : KeyOk K} (shift_by_word : Z -> Z).
Implicit Types (l c : list (K * V)) (b : list (list (K * V))) (m : hashmap K V).
Abbreviation hash_bits := (hash_bits shift_by_word).

Definition entries m : list (K * V) := match buckets m with Live b => concat b | _ => [] end.
(** Every entry is in the bucket of its hash. *)
Definition placed (bits : Z) b : Prop :=
  forall i c e, b !! i = Some c -> e ∈ c -> hash_bits (hash_fn (fst e)) bits = Z.of_nat i.

(** The invariant: a fresh map, or a power-of-two array at most three quarters full in
    which every entry is where its hash says. *)
Inductive hm_wf : hashmap K V -> Prop :=
  | wf_null : hm_wf (Hashmap Null 0 0 0)
  | wf_live b bits :
      2 <= bits <= 60 -> Z.of_nat (length b) = 2 ^ bits -> placed bits b ->
      4 * lenZ (concat b) < 3 * (2 ^ bits + 1) ->
      hm_wf (Hashmap (Live b) (2 ^ bits) bits (lenZ (concat b))).

Lemma hash_bits_range h bits : 1 <= bits <= 64 -> 0 <= hash_bits h bits < 2 ^ bits.
Proof.
  intros Hb. unfold Hashmap.hash_bits. rewrite (proj2 (Z.eqb_neq bits 0)) by lia.
  pose proof (u64_range (h * 11400714819323198485)) as Hu. set (x := u64 _) in *. unfold is_u64 in Hu.
  rewrite Z.shiftr_div_pow2 by lia. split; [apply Z.div_pos; lia|].
  apply Z.div_lt_upper_bound; [lia|]. rewrite <- Z.pow_add_r by lia.
  replace (64 - bits + bits) with 64 by lia. change (2 ^ 64) with 18446744073709551616. lia.
Qed.
Lemma hash_bits_lookup bits b h :
  2 <= bits <= 60 -> Z.of_nat (length b) = 2 ^ bits -> exists c, b !! Z.to_nat (hash_bits h bits) = Some c.
Proof.
  intros Hb Hl. pose proof (hash_bits_range h bits ltac:(lia)). apply lookup_lt_is_Some_2. lia.
Qed.
Lemma bucket_live bits b h c :
  2 <= bits <= 60 -> b !! Z.to_nat (hash_bits h bits) = Some c ->
  bucket (Live b) (hash_bits h bits) = Some c.
Proof.
  intros Hb Hc. unfold bucket. pose proof (hash_bits_range h bits ltac:(lia)).
  by rewrite (proj2 (Z.leb_le _ _)) by lia.
Qed.

(** An array around one of its buckets. *)
Lemma concat_split b i c :
  b !! i = Some c -> concat b = concat (take i b) ++ c ++ concat (drop (S i) b).
Proof.
  intros Hi. rewrite <- (take_drop_middle b i c Hi) at 1. by rewrite concat_app.
Qed.
Lemma concat_insert b i c c' :
  b !! i = Some c -> concat (<[i := c']> b) = concat (take i b) ++ c' ++ concat (drop (S i) b).
Proof.
  intros Hi. assert (i < length b)%nat by by eapply lookup_lt_Some.
  rewrite (concat_split (<[i := c']> b) i c') by by apply list_lookup_insert_eq.
  by rewrite take_insert_ge, drop_insert_lt by lia.
Qed.
Lemma elem_of_concat b e : e ∈ concat b <-> exists i c, b !! i = Some c /\ e ∈ c.
Proof.
  rewrite list_elem_of_In, in_concat. split.
  - intros (c & Hc & He). apply list_elem_of_In, list_elem_of_lookup_1 in Hc as [i Hi].
    apply list_elem_of_In in He. eauto.
  - intros (i & c & Hi & He). exists c. rewrite <- !list_elem_of_In.
    split; [by eapply list_elem_of_lookup_2|done].
Qed.

(** Only the bucket of its hash can hold a key. *)
Lemma other_buckets bits b k i c e :
  2 <= bits <= 60 -> placed bits b -> i <> Z.to_nat (hash_bits (hash_fn k) bits) ->
  b !! i = Some c -> e ∈ c -> equal_fn (fst e) k = false.
Proof using KO.
  intros Hb Hp Hi Hc He. destruct (equal_fn (fst e) k) eqn:E; [|done]. exfalso. apply Hi.
  rewrite <- (equal_hash _ _ E), (Hp _ _ _ Hc He). lia.
Qed.
Lemma assoc_bucket bits b k c :
  2 <= bits <= 60 -> placed bits b -> b !! Z.to_nat (hash_bits (hash_fn k) bits) = Some c ->
  assoc (concat b) k = assoc c k.
Proof using KO.
  intros Hb Hp Hc. rewrite (concat_split _ _ _ Hc). rewrite chain_find_app.
  - apply assoc_app_r. intros e (i & c' & Hi & He)%elem_of_concat. rewrite lookup_drop in Hi.
    eapply (other_buckets bits b k _ c'); [done|done| |done|done]. lia.
  - apply chain_find_None. intros e (i & c' & Hi & He)%elem_of_concat.
    apply lookup_take_Some in Hi as [Hi Hlt].
    eapply (other_buckets bits b k _ c'); [done|done| |done|done]. lia.
Qed.

(** Changing one bucket. *)
Lemma placed_insert bits b k c' :
  2 <= bits <= 60 -> placed bits b ->
  (forall e, e ∈ c' -> hash_bits (hash_fn (fst e)) bits = hash_bits (hash_fn k) bits) ->
  placed bits (<[Z.to_nat (hash_bits (hash_fn k) bits) := c']> b).
Proof.
  intros Hb Hp Hc i c e Hi He. pose proof (hash_bits_range (hash_fn k) bits ltac:(lia)).
  apply list_lookup_insert_Some in Hi as [(<- & <- & _)|[_ Hi]]; [|by eapply Hp].
  rewrite Hc by done. lia.
Qed.

(** Moving entries into an array. *)
Lemma rehash_ok bits es : 2 <= bits <= 60 -> forall b,
  Z.of_nat (length b) = 2 ^ bits -> placed bits b ->
  exists b', rehash shift_by_word es bits b = Some b' /\ Z.of_nat (length b') = 2 ^ bits /\
    placed bits b' /\ concat b' ≡ₚ es ++ concat b.
Proof.
  intros Hb. induction es as [|e es IH]; intros b Hl Hp; [by exists b|]. simpl.
  destruct (hash_bits_lookup bits b (hash_fn (fst e)) Hb Hl) as [c Hc].
  pose proof (hash_bits_range (hash_fn (fst e)) bits ltac:(lia)).
  unfold add_at. rewrite (proj2 (Z.leb_le 0 _)) by lia. rewrite Hc. simpl.
  destruct (IH (<[Z.to_nat (hash_bits (hash_fn (fst e)) bits) := hashmap_add_entry c e]> b))
    as (b' & -> & Hl' & Hp' & HP).
  - by rewrite length_insert.
  - apply placed_insert; [done..|]. intros e' [->|He]%elem_of_cons; [done|].
    rewrite (Hp _ _ _ Hc He). lia.
  - exists b'. do 3 (split; [done|]). rewrite HP, (concat_insert _ _ _ _ Hc), (concat_split _ _ _ Hc).
    unfold hashmap_add_entry. solve_Permutation.
Qed.

Lemma placed_empty bits n : placed bits (replicate n []).
Proof. intros i c e Hi He. apply lookup_replicate in Hi as [-> _]. by apply elem_of_nil in He. Qed.
Lemma concat_empty n : concat (replicate n (@nil (K * V))) = [].
Proof. by induction n. Qed.
Lemma pow_ge4 bits : 2 <= bits -> 4 <= 2 ^ bits.
Proof. intros. pose proof (Z.pow_le_mono_r 2 2 bits ltac:(lia) ltac:(lia)). lia. Qed.
Lemma wf_sz m : hm_wf m -> sz m = lenZ (entries m).
Proof. by destruct 1. Qed.
Lemma wf_for_each m : hm_wf m -> for_each_entry m = Some (entries m).
Proof.
  destruct 1 as [|b bits Hb Hl]; [done|]. pose proof (pow_ge4 bits ltac:(lia)). unfold for_each_entry. cbn [cap buckets entries].
  rewrite (proj2 (Z.eqb_neq _ 0)) by lia. by rewrite (proj2 (Z.eqb_eq _ _)) by lia.
Qed.

(** The bound on [sz] keeps the arithmetic of the test from wrapping. *)
Lemma wf_small m : hm_wf m -> 0 <= sz m <= 2 ^ 60.
Proof.
  destruct 1 as [|b bits Hb Hl Hp Hs]; [simpl; lia|]. cbn [sz].
  pose proof (Z.pow_le_mono_r 2 bits 60 ltac:(lia) ltac:(lia)). lia.
Qed.
Lemma needs_to_grow_spec m : hm_wf m ->
  hashmap_needs_to_grow m = (cap m =? 0) || ((sz m + 1) * 4 / 3 >? cap m).
Proof.
  intros W. apply wf_small in W. unfold hashmap_needs_to_grow.
  change (2 ^ 60) with 1152921504606846976 in W. rewrite !u64_small; [done|int_solve..].
Qed.

(** A map with room for one more entry. *)
Definition room m : Prop := exists b, buckets m = Live b /\ 4 * (sz m + 1) < 3 * (cap m + 1).

Lemma grow_bits bits : 0 <= bits -> (bits = 0 \/ 2 <= bits) -> bits <= 60 ->
  exists nb, (if u64 (bits + 1) <? HASHMAP_MIN_CAP_BITS then HASHMAP_MIN_CAP_BITS else u64 (bits + 1)) = nb /\
    2 <= nb <= 61 /\ (bits = 0 -> nb = 2) /\ (2 <= bits -> nb = bits + 1).
Proof.
  intros H0 Hb H60. rewrite u64_small by int_solve. unfold HASHMAP_MIN_CAP_BITS.
  destruct (Z.ltb_spec (bits + 1) 2); eexists; split; [reflexivity| |reflexivity|]; lia.
Qed.

Lemma hashmap_grow_ok m ok : hm_wf m -> hashmap_needs_to_grow m = true ->
  (hashmap_grow shift_by_word ok m = Some (- ENOMEM, m) /\ (ok = false \/ 2 ^ 58 <= sz m)) \/
  exists m', hashmap_grow shift_by_word ok m = Some (0, m') /\ hm_wf m' /\ room m' /\
    entries m' ≡ₚ entries m /\ sz m' = sz m.
Proof.
  intros W Hg. rewrite needs_to_grow_spec in Hg by done.
  assert (Hbits : 0 <= cap_bits m /\ (cap_bits m = 0 \/ 2 <= cap_bits m) /\ cap_bits m <= 60)
    by (destruct W; simpl; lia).
  destruct Hbits as (Hb0 & Hb2 & Hb60).
  destruct (grow_bits (cap_bits m) Hb0 Hb2 Hb60) as (nb & Hnb & Hr & Hz & Hs).
  unfold hashmap_grow. rewrite Hnb, (wf_for_each m W). rewrite (proj2 (Z.leb_gt 64 nb)) by lia.
  rewrite Z.shiftl_1_l. destruct (Z.ltb_spec (2 ^ nb * 8) 18446744073709551616) as [Hlt|Hge].
  2: { rewrite andb_false_r. cbn [negb]. left. split; [done|]. right.
    assert (nb = 61) as ->.
    { destruct (decide (nb = 61)); [done|]. exfalso.
      pose proof (Z.pow_le_mono_r 2 nb 60 ltac:(lia) ltac:(lia)). lia. }
    destruct W as [|b bits Hb Hl Hp Hsz]; cbn [cap_bits sz cap] in *; [lia|].
    assert (bits = 60) as -> by lia. change (2 ^ 60) with 1152921504606846976 in *.
    change (2 ^ 58) with 288230376151711744. bool_prop. destruct Hg as [Hg|Hg]; [done|]. bool_prop.
    Z.div_mod_to_equations. lia. }
  destruct ok; cbn [andb negb]; [|left; split; [done|by left]].
  right.
  assert (nb <= 60) as Hnb60.
  { destruct (decide (nb <= 60)); [done|]. replace nb with 61 in Hlt by lia. lia. }
  destruct (rehash_ok nb (entries m) ltac:(lia) (replicate (Z.to_nat (2 ^ nb)) []))
    as (b' & Hre & Hl' & Hp' & HP).
  { rewrite length_replicate. pose proof (Z.pow_pos_nonneg 2 nb). lia. }
  { apply placed_empty. }
  rewrite concat_empty, app_nil_r in HP.
  assert (Hroom : 4 * (sz m + 1) < 3 * (2 ^ nb + 1)).
  { destruct W as [|b bits Hb Hl Hp Hsz]; cbn [cap_bits sz] in *; [rewrite Hz by done; lia|].
    rewrite Hs by lia. rewrite Z.pow_add_r by lia. pose proof (pow_ge4 bits ltac:(lia)). lia. }
  assert (Hlen : sz m = lenZ (concat b')) by (rewrite (wf_sz m W); by rewrite HP).
  exists (Hashmap (Live b') (2 ^ nb) nb (sz m)). split; [|split; [|split; [|done]]].
  - cbn [mbind option_bind]. rewrite Hre. by destruct W.
  - rewrite Hlen in *. apply wf_live; [lia|done..|lia].
  - by exists b'.
Qed.

(** The search of a well-formed map. *)
Lemma find_entry_ok m k : hm_wf m ->
  exists r, hashmap_find_entry m k (hash_bits (hash_fn k) (cap_bits m)) = Some r /\
    snd <$> r = assoc (entries m) k /\
    (forall i e, r = Some (i, e) -> exists b c, buckets m = Live b /\
       b !! Z.to_nat (hash_bits (hash_fn k) (cap_bits m)) = Some c /\ c !! i = Some e /\
       equal_fn (fst e) k = true).
Proof using KO.
  destruct 1 as [|b bits Hb Hl Hp Hs].
  - exists None. by split_and!.
  - unfold hashmap_find_entry. cbn [buckets cap_bits entries].
    destruct (hash_bits_lookup bits b (hash_fn k) Hb Hl) as [c Hc].
    rewrite (bucket_live bits b _ c Hb Hc). cbn [mbind option_bind].
    exists (chain_find c k). split; [done|]. split.
    + symmetry. by eapply assoc_bucket.
    + intros i e Hf. apply chain_find_Some in Hf as [Hi He]. by exists b, c.
Qed.

(** Adding at the head of the key's bucket. *)
Lemma add_ok m k v : hm_wf m -> room m ->
  exists c, bucket (buckets m) (hash_bits (hash_fn k) (cap_bits m)) = Some c /\
    let m' := set_bucket m (hash_bits (hash_fn k) (cap_bits m)) (hashmap_add_entry c (k, v)) (u64 (sz m + 1)) in
    hm_wf m' /\ entries m' ≡ₚ (k, v) :: entries m /\ sz m' = sz m + 1.
Proof.
  intros W (b0 & Hb0 & Hroom). pose proof (wf_small m W) as Hsm. destruct W as [|b bits Hb Hl Hp Hs]; [done|].
  cbn [buckets cap cap_bits sz entries] in *. clear b0 Hb0.
  destruct (hash_bits_lookup bits b (hash_fn k) Hb Hl) as [c Hc]. exists c.
  split; [by apply bucket_live|].
  assert (HP : concat (<[Z.to_nat (hash_bits (hash_fn k) bits) := hashmap_add_entry c (k, v)]> b)
               ≡ₚ (k, v) :: concat b).
  { rewrite (concat_insert _ _ _ _ Hc), (concat_split _ _ _ Hc). unfold hashmap_add_entry. solve_Permutation. }
  change (2 ^ 60) with 1152921504606846976 in Hsm. rewrite u64_small by int_solve.
  unfold set_bucket. cbn [buckets cap cap_bits sz entries]. unfold entries; cbn [buckets sz]. split; [|done].
  assert (Hlen : lenZ (concat b) + 1 = lenZ (concat (<[Z.to_nat (hash_bits (hash_fn k) bits) := hashmap_add_entry c (k, v)]> b))).
  { rewrite HP. simpl. lia. }
  rewrite Hlen in *. apply wf_live; [done| | |lia].
  - by rewrite length_insert.
  - apply placed_insert; [done..|]. intros e [->|He]%elem_of_cons; [done|].
    pose proof (hash_bits_range (hash_fn k) bits ltac:(lia)). rewrite (Hp _ _ _ Hc He). lia.
Qed.

Section Found.
Context (m : hashmap K V) (W : hm_wf m) (k : K) (b : list (list (K * V))) (c : list (K * V)) (i : nat) (e : K * V).
Let h := hash_bits (hash_fn k) (cap_bits m).
Context (Hm : buckets m = Live b) (Hc : b !! Z.to_nat h = Some c) (Hi : c !! i = Some e)
  (He : equal_fn (fst e) k = true).

(** The chain around the entry found. *)
Lemma found_split : c ≡ₚ e :: hashmap_del_entry c i.
Proof using Hi. unfold hashmap_del_entry. rewrite <- (take_drop_middle c i e Hi) at 1. solve_Permutation. Qed.
Lemma found_bucket : bucket (buckets m) h = Some c.
Proof using All. destruct W; [done|]. injection Hm as ->. by apply bucket_live. Qed.

(** A new chain of entries with the same hash in place of the old. *)
Lemma set_bucket_ok c' n : n = lenZ (entries m) - lenZ c + lenZ c' -> (length c' <= length c)%nat ->
  (forall e', e' ∈ c' -> e' ∈ c \/ hash_fn (fst e') = hash_fn k) ->
  let m' := set_bucket m h c' n in
  hm_wf m' /\ sz m' = n /\ exists rest, entries m ≡ₚ c ++ rest /\ entries m' ≡ₚ c' ++ rest.
Proof using All.
  intros Hn Hlen Hin. subst h. destruct W as [|b0 bits Hb Hl Hp Hs]; [done|]. injection Hm as ->.
  cbn [buckets cap cap_bits sz entries set_bucket] in *. unfold entries in *; cbn [buckets] in *.
  rewrite (concat_insert _ _ _ _ Hc).
  assert (Hlen' : n = lenZ (concat (<[Z.to_nat (hash_bits (hash_fn k) bits) := c']> b))).
  { rewrite (concat_insert _ _ _ _ Hc), Hn, (concat_split _ _ _ Hc), !length_app. lia. }
  split; [|split; [done|]].
  - assert (lenZ (concat (<[Z.to_nat (hash_bits (hash_fn k) bits) := c']> b)) <= lenZ (concat b)) by lia.
    rewrite Hlen'. apply wf_live; [done| | |lia].
    + by rewrite length_insert.
    + apply placed_insert; [done..|]. intros e' He'. destruct (Hin e' He') as [H'|H']; [|by rewrite H'].
      pose proof (hash_bits_range (hash_fn k) bits ltac:(lia)). rewrite (Hp _ _ _ Hc H'). lia.
  - exists (concat (take (Z.to_nat (hash_bits (hash_fn k) bits)) b) ++
            concat (drop (S (Z.to_nat (hash_bits (hash_fn k) bits))) b)).
    rewrite (concat_split _ _ _ Hc). split; solve_Permutation.
Qed.

Lemma replace_ok v :
  let m' := set_bucket m h (<[i := (k, v)]> c) (sz m) in
  hm_wf m' /\ sz m' = sz m /\ exists rest, entries m ≡ₚ e :: rest /\ entries m' ≡ₚ (k, v) :: rest.
Proof using All.
  destruct (set_bucket_ok (<[i := (k, v)]> c) (sz m)) as (W' & Hs & rest & H1 & H2).
  - rewrite (wf_sz m W), length_insert. lia.
  - by rewrite length_insert.
  - intros e' He'. apply list_elem_of_lookup_1 in He' as [j Hj].
    apply list_lookup_insert_Some in Hj as [(_ & <- & _)|[_ Hj]]; [by right|left].
    by eapply list_elem_of_lookup_2.
  - split; [done|]. split; [done|]. exists (hashmap_del_entry c i ++ rest). rewrite H1, H2. split.
    + by rewrite found_split at 1.
    + assert (i < length c)%nat by by eapply lookup_lt_Some.
      rewrite <- (take_drop_middle (<[i := (k, v)]> c) i (k, v)) by by apply list_lookup_insert_eq.
      unfold hashmap_del_entry. rewrite take_insert_ge, drop_insert_lt by lia. solve_Permutation.
Qed.
Lemma delete_ok :
  let m' := set_bucket m h (hashmap_del_entry c i) (u64 (sz m - 1)) in
  hm_wf m' /\ sz m' = sz m - 1 /\ entries m ≡ₚ e :: entries m'.
Proof using All.
  pose proof (Permutation_length found_split) as Hl. simpl in Hl.
  destruct (set_bucket_ok (hashmap_del_entry c i) (sz m - 1)) as (W' & Hs & rest & H1 & H2).
  - rewrite (wf_sz m W). lia.
  - lia.
  - intros e' He'. left. rewrite found_split. by right.
  - assert (1 <= sz m) by (rewrite (wf_sz m W), H1, length_app; lia).
    pose proof (wf_small m W) as Hsm. change (2 ^ 60) with 1152921504606846976 in Hsm.
    rewrite u64_small by int_solve. split; [done|]. split; [done|]. rewrite H1, H2. by rewrite found_split at 1.
Qed.
End Found.
End Table.

(** ** Refinement of a finite map *)

(** The abstract map: what each key is bound to, and how many keys are bound. *)
Record fmap (K V : Type) := Fmap { binding : K -> option (K * V); card : Z }.
Arguments Fmap {K V}. Arguments binding {K V}. Arguments card {K V}.

Inductive op (K V : Type) :=
  | Insert (k : K) (v : V) (s : hashmap_insert_strategy) (calloc_ok malloc_ok : bool)
  | Find (k : K)
  | Delete (k : K)
  | Size.
Arguments Insert {K V}. Arguments Find {K V}. Arguments Delete {K V}. Arguments Size {K V}.
Inductive out (K V : Type) :=
  | OInsert (err : Z) (old : option (K * V)) | OFind (v : option V)
  | ODelete (old : option (K * V)) | OSize (n : Z).
Arguments OInsert {K V}. Arguments OFind {K V}. Arguments ODelete {K V}. Arguments OSize {K V}.

Section Spec.
Context {K V : Type} `{KeyOps K}.
Implicit Types (f : fmap K V).

Definition bind_key f (k : K) (e : K * V) (n : Z) : fmap K V :=
  Fmap (fun k' => if equal_fn k k' then Some e else binding f k') n.
Definition unbind_key f (k : K) : fmap K V :=
  Fmap (fun k' => if equal_fn k k' then None else binding f k') (card f - 1).

(** What each operation promises (hashmap.h); running out of memory is allowed only
    when an allocation failed or the map has 2^58 entries. *)
Inductive spec_step : fmap K V -> op K V -> out K V -> fmap K V -> Prop :=
  | spec_add_exists f k v ok1 ok2 old : binding f k = Some old ->
      spec_step f (Insert k v HASHMAP_ADD ok1 ok2) (OInsert (- EEXIST) (Some old)) f
  | spec_replace f k v s ok1 ok2 old : s = HASHMAP_SET \/ s = HASHMAP_UPDATE -> binding f k = Some old ->
      spec_step f (Insert k v s ok1 ok2) (OInsert 0 (Some old)) (bind_key f k (k, v) (card f))
  | spec_update_absent f k v ok1 ok2 : binding f k = None ->
      spec_step f (Insert k v HASHMAP_UPDATE ok1 ok2) (OInsert (- ENOENT) None) f
  | spec_insert f k v s ok1 ok2 : s = HASHMAP_ADD \/ s = HASHMAP_SET -> binding f k = None ->
      spec_step f (Insert k v s ok1 ok2) (OInsert 0 None) (bind_key f k (k, v) (card f + 1))
  | spec_nomem f k v s ok1 ok2 : s = HASHMAP_ADD \/ s = HASHMAP_SET -> binding f k = None ->
      ok1 = false \/ ok2 = false \/ 2 ^ 58 <= card f ->
      spec_step f (Insert k v s ok1 ok2) (OInsert (- ENOMEM) None) f
  | spec_find f k : spec_step f (Find k) (OFind (snd <$> binding f k)) f
  | spec_delete f k old : binding f k = Some old ->
      spec_step f (Delete k) (ODelete (Some old)) (unbind_key f k)
  | spec_delete_absent f k : binding f k = None -> spec_step f (Delete k) (ODelete None) f
  | spec_size f : spec_step f Size (OSize (card f)) f.

Inductive spec_run : fmap K V -> list (op K V) -> list (out K V) -> fmap K V -> Prop :=
  | spec_nil f : spec_run f [] [] f
  | spec_cons f o r f1 os rs f2 :
      spec_step f o r f1 -> spec_run f1 os rs f2 -> spec_run f (o :: os) (r :: rs) f2.

(** The operations of the table. *)
Definition exec (undef : Z -> Z) (o : op K V) : M (hashmap K V) (out K V) :=
  match o with
  | Insert k v s ok1 ok2 => let! (err, old) := hashmap__insert undef k v s ok1 ok2 in ret (OInsert err old)
  | Find k => let! v := hashmap__find undef k in ret (OFind v)
  | Delete k => let! old := hashmap__delete undef k in ret (ODelete old)
  | Size => let! n := gets hashmap__size in ret (OSize n)
  end.
Fixpoint exec_all (undef : Z -> Z) (os : list (op K V)) : M (hashmap K V) (list (out K V)) :=
  match os with
  | [] => ret []
  | o :: os => let! r := exec undef o in let! rs := exec_all undef os in ret (r :: rs)
  end.
(** Operations that keep keys distinct. *)
Definition map_op (o : op K V) : Prop :=
  match o with Insert _ _ s _ _ => s <> HASHMAP_APPEND | _ => True end.
End Spec.

Section Simulation.
Context {K V : Type} `{KO : KeyOk K} (undef : Z -> Z).
Implicit Types (f : fmap K V) (m : hashmap K V) (l : list (K * V)).

Definition sim m f : Prop :=
  hm_wf undef m /\ unique (entries m) /\ (forall k, assoc (entries m) k = binding f k) /\ card f = sz m.

Lemma assoc_cons l e rest k : unique l -> l ≡ₚ e :: rest ->
  assoc l k = if equal_fn (fst e) k then Some e else assoc rest k.
Proof using KO.
  intros Hu HP. rewrite (assoc_perm _ _ _ Hu HP). unfold assoc. simpl. destruct (equal_fn (fst e) k); [done|].
  by destruct (chain_find rest k) as [[]|].
Qed.
Lemma equal_cong k1 k2 k : equal_fn k1 k2 = true -> equal_fn k1 k = equal_fn k2 k.
Proof using KO.
  intros E. destruct (equal_fn k1 k) eqn:E1; symmetry.
  - rewrite equal_sym in E. by eapply equal_trans.
  - destruct (equal_fn k2 k) eqn:E2; [|done]. by rewrite (equal_trans _ _ _ E E2) in E1.
Qed.

(** The three ways the contents change. *)
Lemma sim_add m m' f k v : sim m f -> binding f k = None -> hm_wf undef m' ->
  entries m' ≡ₚ (k, v) :: entries m -> sz m' = sz m + 1 -> sim m' (bind_key f k (k, v) (card f + 1)).
Proof using KO.
  intros (W & Hu & Ha & Hc) Hn W' HP Hs.
  assert (Hu' : unique (entries m')).
  { rewrite HP. split; [|done]. intros e He. rewrite equal_sym. simpl.
    rewrite <- Ha in Hn. by apply (proj1 (assoc_None _ _) Hn). }
  split; [done|]. split; [done|]. split; [|simpl; lia].
  intros k'. rewrite (assoc_cons _ _ _ _ Hu' HP). simpl. destruct (equal_fn k k'); [done|apply Ha].
Qed.
Lemma unique_replace (e e' : K * V) rest : equal_fn (fst e) (fst e') = true -> unique (e :: rest) -> unique (e' :: rest).
Proof using KO.
  intros He [Hn Hu]. split; [|done]. intros e'' Hin. by rewrite <- (equal_cong _ _ _ He), Hn.
Qed.
Lemma sim_replace m m' f k v e rest : sim m f -> equal_fn (fst e) k = true -> hm_wf undef m' ->
  entries m ≡ₚ e :: rest -> entries m' ≡ₚ (k, v) :: rest -> sz m' = sz m ->
  sim m' (bind_key f k (k, v) (card f)).
Proof using KO.
  intros (W & Hu & Ha & Hc) He W' H1 H2 Hs.
  assert (Hu' : unique (entries m')).
  { rewrite H2. apply (unique_replace e); [done|]. by rewrite <- H1. }
  split; [done|]. split; [done|]. split; [|simpl; lia].
  intros k'. rewrite (assoc_cons _ _ _ _ Hu' H2). simpl. destruct (equal_fn k k') eqn:E; [done|].
  rewrite <- Ha, (assoc_cons _ _ _ _ Hu H1). by rewrite (equal_cong _ _ _ He), E.
Qed.
Lemma sim_delete m m' f k e : sim m f -> equal_fn (fst e) k = true -> hm_wf undef m' ->
  entries m ≡ₚ e :: entries m' -> sz m' = sz m - 1 -> sim m' (unbind_key f k).
Proof using KO.
  intros (W & Hu & Ha & Hc) He W' H1 Hs. assert (Hu1 := Hu). rewrite H1 in Hu1. destruct Hu1 as [Hn Hu'].
  split; [done|]. split; [done|]. split; [|simpl; lia].
  intros k'. simpl. rewrite <- Ha, (assoc_cons _ _ _ _ Hu H1), (equal_cong _ _ _ He).
  destruct (equal_fn k k') eqn:E; [|done]. apply assoc_None. intros e' He'.
  rewrite equal_sym, <- (equal_cong _ _ _ E), <- (equal_cong _ _ _ He). by apply Hn.
Qed.

Lemma insert_absent m f k v s ok1 ok2 :
  sim m f -> binding f k = None -> s = HASHMAP_ADD \/ s = HASHMAP_SET ->
  exists err m', ('(err, m) ← (if hashmap_needs_to_grow m then hashmap_grow undef ok1 m else Some (0, m));
      if negb (err =? 0) then Some ((err, None), m)
      else
        let h := hash_bits undef (hash_fn k) (cap_bits m) in
        if negb ok2 then Some ((- ENOMEM, None), m)
        else
          c ← bucket (buckets m) h;
          Some ((0, None), set_bucket m h (hashmap_add_entry c (k, v)) (u64 (sz m + 1))))
    = Some ((err, @None (K * V)), m') /\
    exists f', spec_step f (Insert k v s ok1 ok2) (OInsert err None) f' /\ sim m' f'.
Proof using KO.
  intros S Hn Hs. destruct S as (W & Hu & Ha & Hc).
  assert (Hm : (exists m1, (if hashmap_needs_to_grow m then hashmap_grow undef ok1 m else Some (0, m)) = Some (0, m1) /\
                sim m1 f /\ room m1) \/
               (if hashmap_needs_to_grow m then hashmap_grow undef ok1 m else Some (0, m)) = Some (- ENOMEM, m) /\
               (ok1 = false \/ 2 ^ 58 <= card f)).
  { destruct (hashmap_needs_to_grow m) eqn:Eg.
    - destruct (hashmap_grow_ok undef m ok1 W Eg) as [[-> ?]|(m1 & -> & W1 & R1 & HP & Hsz)].
      + right. split; [done|]. rewrite Hc. tauto.
      + left. exists m1. split; [done|]. split; [|done]. split; [done|].
        split; [by rewrite HP|]. split; [|by rewrite Hsz]. intros k'. rewrite <- Ha. symmetry.
        by apply assoc_perm.
    - left. exists m. split; [done|]. split; [done|]. rewrite (needs_to_grow_spec undef) in Eg by done.
      destruct W as [|b bits Hb Hl Hp Hsz]; [done|]. cbn [cap sz] in *. exists b. split; [done|].
      bool_prop. cbn [cap sz]. Z.div_mod_to_equations. lia. }
  destruct Hm as [(m1 & -> & S1 & R1)|(-> & Hno)]; cbn [mbind option_bind].
  - destruct ok2; cbn [negb Z.eqb].
    + destruct S1 as (W1 & S1). destruct (add_ok undef m1 k v W1 R1) as (c & -> & W2 & HP & Hsz).
      cbn [mbind option_bind]. eexists _, _. split; [done|]. eexists. split; [by apply spec_insert|].
      by eapply (sim_add m1).
    + eexists _, _. split; [done|]. exists f. split; [|done]. apply spec_nomem; tauto.
  - eexists _, _. split; [done|]. exists f. split; [|done]. apply spec_nomem; tauto.
Qed.

Lemma exec_sim m f o : sim m f -> map_op o ->
  exists r m' f', exec undef o m = Some (r, m') /\ spec_step f o r f' /\ sim m' f'.
Proof using KO.
  intros S Ho. pose proof S as (W & Hu & Ha & Hc).
  destruct o as [k v s ok1 ok2|k|k|]; cbn [exec].
  - destruct (find_entry_ok undef m k W) as (r & Hr & Hra & Hrf).
    simpl in Ho. unfold bind, hashmap__insert. rewrite (decide_False (P := s = HASHMAP_APPEND)) by done. rewrite Hr. cbn [mbind option_bind].
    rewrite Ha in Hra. destruct r as [[i e]|].
    + destruct (Hrf i e eq_refl) as (b & c & Hm & Hb & Hi & He). simpl in Hra.
      rewrite (found_bucket undef m W k b c i e Hm Hb Hi He).
      destruct (replace_ok undef m W k b c i e Hm Hb Hi He v) as (W' & Hs & rest & H1 & H2).
      destruct s; [|cbn [mbind option_bind]..|done].
      * eexists _, _, f. split; [done|]. split; [by apply spec_add_exists|done].
      * eexists _, _, _. split; [done|]. split; [apply spec_replace; [by left|done]|]. by eapply sim_replace.
      * eexists _, _, _. split; [done|]. split; [apply spec_replace; [by right|done]|]. by eapply sim_replace.
    + simpl in Hra. destruct (decide (s = HASHMAP_UPDATE)) as [->|Hsu].
      * eexists _, _, f. split; [done|]. split; [by apply spec_update_absent|done].
      * destruct (insert_absent m f k v s ok1 ok2 S) as (err & m' & E & f' & Hsp & S'); [done|by destruct s; try done; auto|].
        exists (OInsert err None), m', f'. split; [|done]. cbv zeta in E. by rewrite E.
  - destruct (find_entry_ok undef m k W) as (r & Hr & Hra & _).
    unfold bind, hashmap__find. rewrite Hr. cbn [mbind option_bind].
    exists (OFind (snd <$> binding f k)), m, f. split; [|by split; [apply spec_find|]].
    rewrite <- Ha, <- Hra. by destruct r as [[]|].
  - destruct (find_entry_ok undef m k W) as (r & Hr & Hra & Hrf).
    unfold bind, hashmap__delete. rewrite Hr. cbn [mbind option_bind]. rewrite Ha in Hra.
    destruct r as [[i e]|]; simpl in Hra.
    + destruct (Hrf i e eq_refl) as (b & c & Hm & Hb & Hi & He).
      rewrite (found_bucket undef m W k b c i e Hm Hb Hi He). cbn [mbind option_bind].
      destruct (delete_ok undef m W k b c i e Hm Hb Hi He) as (W' & Hs & HP).
      eexists _, _, _. split; [done|]. split; [by apply spec_delete|]. by eapply sim_delete.
    + eexists _, _, f. split; [done|]. split; [by apply spec_delete_absent|done].
  - exists (OSize (sz m)), m, f. split; [done|]. split; [rewrite <- Hc; apply spec_size|done].
Qed.
Lemma exec_all_sim os : forall m f, sim m f -> Forall map_op os ->
  exists rs m' f', exec_all undef os m = Some (rs, m') /\ spec_run f os rs f' /\ sim m' f'.
Proof using KO.
  induction os as [|o os IH]; intros m f S Ho; [exists [], m, f; split; [done|]; split; [apply spec_nil|done]|].
  apply Forall_cons_1 in Ho as [Ho Hos]. destruct (exec_sim m f o S Ho) as (r & m1 & f1 & E & Hsp & S1).
  destruct (IH m1 f1 S1 Hos) as (rs & m2 & f2 & E2 & Hr & S2).
  exists (r :: rs), m2, f2. simpl. unfold bind. rewrite E, E2. split; [done|]. split; [by econstructor|done].
Qed.
Lemma init_sim : sim hashmap__init (Fmap (fun _ => None) 0).
Proof. split; [constructor|done]. Qed.
End Simulation.

(** C32: the hash table implements a finite map.  Any sequence of insertions (add,
    set, update), searches, deletions and size queries on a fresh map runs without
    touching memory outside the table, whatever hash function is used, and every
    result is the one the map promises: the strategies of hashmap__insert, -EEXIST,
    -ENOENT, and -ENOMEM only when an allocation fails or the map has 2^58 entries,
    in which case nothing changes; afterwards the table is still well formed: every
    entry in the bucket of its hash and at most three quarters of the buckets' number
    of entries. *)
Theorem hashmap_refines_map {K V : Type} `{KO : KeyOk K} (undef : Z -> Z) (os : list (op K V)) :
  Forall map_op os ->
  exists rs m' f', exec_all undef os hashmap__init = Some (rs, m') /\
    spec_run (Fmap (fun _ => None) 0) os rs f' /\
    hm_wf undef m' /\ (forall k, snd <$> assoc (entries m') k = snd <$> binding f' k) /\
    hashmap__size m' = card f'.
Proof.
  intros Ho. destruct (exec_all_sim undef os _ _ (init_sim undef) Ho) as (rs & m' & f' & E & Hr & W & Hu & Ha & Hc).
  exists rs, m', f'. do 3 (split; [done|]). split; [intros k; by rewrite Ha|done].
Qed.

(** Keys that are numbers, with themselves as hash. *)
#[local] Instance demo_keys : KeyOps Z := {| hash_fn k := k; equal_fn := Z.eqb |}.
#[local] Instance demo_keys_ok : KeyOk demo_keys.
Proof.
  split; simpl; intros.
  - apply Z.eqb_refl.
  - apply Z.eqb_sym.
  - bool_prop. subst. apply Z.eqb_refl.
  - by bool_prop.
Qed.
Definition demo_ops : list (op Z Z) :=
  [Insert 1 10 HASHMAP_ADD true true; Insert 2 20 HASHMAP_ADD true true; Insert 3 30 HASHMAP_SET true true;
   Insert 4 40 HASHMAP_SET true true; Insert 2 21 HASHMAP_UPDATE true true; Insert 2 22 HASHMAP_ADD true true;
   Insert 9 90 HASHMAP_UPDATE true true; Insert 5 50 HASHMAP_ADD true false; Delete 1; Find 1; Find 2; Find 4; Size].
Lemma hashmap_refines_map_witness : exists m' f',
  let rs := [OInsert 0 None; OInsert 0 None; OInsert 0 None; OInsert 0 None; OInsert 0 (Some (2, 20));
             OInsert (- EEXIST) (Some (2, 21)); OInsert (- ENOENT) None; OInsert (- ENOMEM) None;
             ODelete (Some (1, 10)); OFind None; OFind (Some 21); OFind (Some 40); OSize 3] in
  exec_all (fun _ => 0) demo_ops hashmap__init = Some (rs, m') /\
  spec_run (Fmap (fun _ => None) 0) demo_ops rs f' /\ card f' = 3.
Proof.
  destruct (hashmap_refines_map (fun _ => 0) demo_ops) as (rs & m' & f' & E & Hr & _ & _ & Hs).
  - repeat (constructor; [done|]). constructor.
  - pose proof E as E'. vm_compute in E'. injection E' as <- <-. eexists _, f'.
    split; [exact E|]. split; [exact Hr|]. symmetry. exact Hs.
Defined.

(** ** Multimaps *)

Section Multimap.
Context {K V : Type} `{KO : KeyOk K} (undef : Z -> Z).
Implicit Types (l c : list (K * V)) (b : list (list (K * V))) (m : hashmap K V).

(** The entries of a key, in order. *)
Definition of_key (k : K) l : list (K * V) := List.filter (fun e => equal_fn (fst e) k) l.

Lemma of_key_app k l1 l2 : of_key k (l1 ++ l2) = of_key k l1 ++ of_key k l2.
Proof. apply List.filter_app. Qed.
Lemma of_key_none k l : (forall e, e ∈ l -> equal_fn (fst e) k = false) -> of_key k l = [].
Proof.
  unfold of_key. induction l as [|e l IH]; intros Hn; [done|]. simpl. rewrite Hn by by left.
  apply IH. intros e' He. apply Hn. by right.
Qed.
Lemma of_key_bucket bits b k c :
  2 <= bits <= 60 -> placed undef bits b -> b !! Z.to_nat (hash_bits undef (hash_fn k) bits) = Some c ->
  of_key k (concat b) = of_key k c.
Proof using KO.
  intros Hb Hp Hc. rewrite (concat_split _ _ _ Hc), !of_key_app.
  rewrite (of_key_none k (concat (take _ _))), (of_key_none k (concat (drop _ _))), app_nil_r; [done|..];
    intros e (i & c' & Hi & He)%elem_of_concat.
  - rewrite lookup_drop in Hi. eapply (other_buckets undef bits b k _ c'); [done|done| |done|done]; lia.
  - apply lookup_take_Some in Hi as [Hi Hlt]. eapply (other_buckets undef bits b k _ c'); [done|done| |done|done]; lia.
Qed.
(** Moving entries one by one to the heads of their buckets reverses them. *)
Lemma rehash_of_key bits es k : 2 <= bits <= 60 -> forall b b' c c',
  rehash undef es bits b = Some b' ->
  b !! Z.to_nat (hash_bits undef (hash_fn k) bits) = Some c ->
  b' !! Z.to_nat (hash_bits undef (hash_fn k) bits) = Some c' ->
  of_key k c' = rev (of_key k es) ++ of_key k c.
Proof using KO.
  intros Hb. induction es as [|e es IH]; intros b b' c c' Hr Hc Hc'; simpl in Hr; [by simplify_eq|].
  unfold add_at in Hr. pose proof (hash_bits_range undef (hash_fn (fst e)) bits ltac:(lia)) as Hh.
  rewrite (proj2 (Z.leb_le 0 _)) in Hr by lia.
  destruct (b !! Z.to_nat (hash_bits undef (hash_fn (fst e)) bits)) as [c0|] eqn:Ec0; [|done]. simpl in Hr.
  assert (Hlen : (Z.to_nat (hash_bits undef (hash_fn (fst e)) bits) < length b)%nat) by by eapply lookup_lt_Some.
  simpl. destruct (decide (Z.to_nat (hash_bits undef (hash_fn (fst e)) bits)
                         = Z.to_nat (hash_bits undef (hash_fn k) bits))) as [Heq|Hne].
  - rewrite Heq in *. simplify_eq. rewrite (IH _ _ _ _ Hr (list_lookup_insert_eq _ _ _ Hlen) Hc').
    unfold of_key, hashmap_add_entry. simpl. destruct (equal_fn (fst e) k); simpl; [|done].
    by rewrite <- app_assoc.
  - rewrite (IH _ _ _ _ Hr (eq_trans (list_lookup_insert_ne _ _ _ _ Hne) Hc) Hc').
    unfold of_key. simpl. destruct (equal_fn (fst e) k) eqn:E; [|done]. by rewrite (equal_hash _ _ E) in Hne.
Qed.
End Multimap.

(** Growing the table reverses the order in which the entries of a key are found.
    hashmap.h promises that hashmap__find on a map filled with HASHMAP_APPEND returns
    the last inserted entry; after a growth it returns the oldest of the entries that
    were moved. *)
Theorem grow_reverses_key_entries {K V : Type} `{KO : KeyOk K} (undef : Z -> Z) (m m' : hashmap K V) (ok : bool) (k : K) :
  hm_wf undef m -> hashmap_needs_to_grow m = true -> hashmap_grow undef ok m = Some (0, m') ->
  exists l, for_each_key_entry undef k m = Some l /\ for_each_key_entry undef k m' = Some (rev l).
Proof.
  intros W Hg Hgrow.
  destruct (hashmap_grow_ok undef m ok W Hg) as [[Hf _]|(m1 & Hf & W1 & (b1 & Hb1 & _) & _)]; rewrite Hgrow in Hf;
    [discriminate Hf|injection Hf as <-].
  assert (Hre : exists nb, 2 <= nb <= 60 /\ cap_bits m' = nb /\
    rehash undef (entries m) nb (replicate (Z.to_nat (2 ^ nb)) []) = Some b1 /\ Z.of_nat (length b1) = 2 ^ nb).
  { inversion W1 as [|b bits Hb Hl Hp Hs]; subst; [done|]. injection Hb1 as ->. exists bits.
    split; [done|]. split; [done|]. split; [|done].
    unfold hashmap_grow in Hgrow. rewrite (wf_for_each undef m W), Z.shiftl_1_l in Hgrow.
    repeat (case_match; try discriminate Hgrow); cbn [mbind option_bind] in Hgrow;
      match type of Hgrow with context [rehash ?u ?e ?n ?r] => destruct (rehash u e n r) eqn:Hre end;
      try discriminate Hgrow; cbn [mbind option_bind] in Hgrow; by simplify_eq. }
  destruct Hre as (nb & Hnb & Hcb & Hre & Hlen).
  destruct (hash_bits_lookup undef nb b1 (hash_fn k) Hnb Hlen) as [c1 Hc1].
  assert (Hz : replicate (Z.to_nat (2 ^ nb)) [] !! Z.to_nat (hash_bits undef (hash_fn k) nb) = Some (@nil (K * V))).
  { apply lookup_replicate. split; [done|]. pose proof (hash_bits_range undef (hash_fn k) nb ltac:(lia)). lia. }
  pose proof (rehash_of_key undef nb (entries m) k Hnb _ _ _ _ Hre Hz Hc1) as Hrev.
  rewrite app_nil_r in Hrev. exists (of_key k (entries m)). unfold for_each_key_entry. split.
  - destruct W as [|b bits Hb Hl Hp Hs]; [done|]. cbn [buckets cap_bits].
    destruct (hash_bits_lookup undef bits b (hash_fn k) Hb Hl) as [c Hc].
    rewrite (bucket_live undef bits b _ c Hb Hc). cbn [mbind option_bind].
    unfold entries. cbn [buckets]. by rewrite (of_key_bucket undef bits b k c).
  - rewrite Hb1, Hcb, (bucket_live undef nb b1 _ c1 Hnb Hc1). cbn [mbind option_bind]. by rewrite <- Hrev.
Qed.
(** Two entries of key 7 and one of key 8 in four buckets. *)
Definition demo_multimap : hashmap Z Z := Hashmap (Live [[]; [(7, 2); (7, 1)]; []; [(8, 0)]]) 4 2 3.
Lemma grow_reverses_key_entries_witness : exists m',
  for_each_key_entry (fun _ => 0) 7 demo_multimap = Some [(7, 2); (7, 1)] /\
  hashmap_grow (fun _ => 0) true demo_multimap = Some (0, m') /\
  for_each_key_entry (fun _ => 0) 7 m' = Some [(7, 1); (7, 2)].
Proof.
  destruct (hashmap_grow (fun _ => 0) true demo_multimap) as [[e m']|] eqn:E; [|vm_compute in E; discriminate].
  pose proof E as E'. vm_compute in E'. injection E' as <- <-.
  destruct (fun W G => grow_reverses_key_entries (fun _ => 0) demo_multimap _ true 7 W G E) as (l & Hl & Hl').
  - apply (wf_live (fun _ => 0) [[]; [(7, 2); (7, 1)]; []; [(8, 0)]] 2); try (simpl; lia).
    intros i c e Hi He. destruct i as [|[|[|[|i]]]]; simpl in Hi; simplify_eq;
      repeat (apply elem_of_cons in He as [->|He]; [vm_compute; reflexivity|]); by apply elem_of_nil in He.
  - reflexivity.
  - vm_compute in Hl. injection Hl as <-. eexists. split; [reflexivity|]. split; [reflexivity|exact Hl'].
Defined.
