(* ===== verification/Jhash.v ===== *)
(** * Jenkins hash: headers/jhash.h

    The hash functions for byte strings, word arrays and one to three words.  A read
    past the end of the key is [None]; words are read little-endian, as on the targets
    of the repository.  The theorems show that the functions agree with each other
    where they hash the same key, and that the mixing steps lose no information. *)

From S2P Require Import Prelude.
#[local] Open Scope Z_scope.

Definition rol32 (word shift : Z) : Z :=
  Z.lor (u32 (Z.shiftl word shift)) (Z.shiftr word (Z.land (- shift) 31)).

(** The three words of state. *)
Record abc := Abc { va : Z; vb : Z; vc : Z }.

(** One line of [__jhash_mix]: [x -= z; x ^= rol32(z, n); z += y]. *)
Definition mix_x (x z n : Z) : Z := Z.lxor (u32 (x - z)) (rol32 z n).
Definition __jhash_mix (s : abc) : abc :=
  let '(Abc a b c) := s in
  let a := mix_x a c 4 in let c := u32 (c + b) in
  let b := mix_x b a 6 in let a := u32 (a + c) in
  let c := mix_x c b 8 in let b := u32 (b + a) in
  let a := mix_x a c 16 in let c := u32 (c + b) in
  let b := mix_x b a 19 in let a := u32 (a + c) in
  let c := mix_x c b 4 in let b := u32 (b + a) in
  Abc a b c.

(** One step of [__jhash_final]: [x ^= y; x -= rol32(y, n)]. *)
Definition fin_x (x y n : Z) : Z := u32 (Z.lxor x y - rol32 y n).
Definition __jhash_final (s : abc) : abc :=
  let '(Abc a b c) := s in
  let c := fin_x c b 14 in
  let a := fin_x a c 11 in
  let b := fin_x b a 25 in
  let c := fin_x c b 16 in
  let a := fin_x a c 4 in
  let b := fin_x b a 14 in
  let c := fin_x c b 24 in
  Abc a b c.

Definition JHASH_INITVAL : Z := 0xdeadbeef.
Definition init3 (v : Z) : abc := Abc (u32 v) (u32 v) (u32 v).
Definition add3 (s : abc) (x y z : Z) : abc := Abc (u32 (va s + x)) (u32 (vb s + y)) (u32 (vc s + z)).

(** A byte and a little-endian word of the key. *)
Definition byte (k : list Z) (i : nat) : option Z := k !! i.
Definition word (k : list Z) (i : nat) : option Z :=
  w ← byte k i; x ← byte k (i + 1); y ← byte k (i + 2); z ← byte k (i + 3);
  Some (w + 256 * x + 65536 * y + 16777216 * z).

(** The cases of the last block fall through: byte [i] is added when the rest is
    longer than [i], shifted to its place in its word. *)
Definition tail_byte (k : list Z) (length : Z) (i : nat) : option Z :=
  if Z.of_nat i <? length then x ← byte k i; Some (Z.shiftl x (8 * Z.of_nat (i mod 4))) else Some 0.
Definition tail_word (k : list Z) (length : Z) (i : nat) (v : Z) : option Z :=
  w3 ← tail_byte k length (i + 3);
  w2 ← tail_byte k length (i + 2);
  w1 ← tail_byte k length (i + 1);
  w0 ← tail_byte k length i;
  Some (u32 (u32 (u32 (u32 (v + w3) + w2) + w1) + w0)).

(** [fuel] bounds the iterations of the loop over blocks of twelve bytes. *)
Fixpoint jhash_loop (fuel : nat) (k : list Z) (length : Z) (s : abc) : option Z :=
  match fuel with
  | O => None
  | S fuel =>
      if length >? 12 then
        x ← word k 0; y ← word k 4; z ← word k 8;
        jhash_loop fuel (drop 12 k) (u32 (length - 12)) (__jhash_mix (add3 s x y z))
      else
        c ← tail_word k length 8 (vc s);
        b ← tail_word k length 4 (vb s);
        a ← tail_word k length 0 (va s);
        if length =? 0 then Some (vc s) else Some (vc (__jhash_final (Abc a b c)))
  end.
Definition jhash (key : list Z) (length initval : Z) : option Z :=
  jhash_loop (S (Z.to_nat length)) key length (init3 (JHASH_INITVAL + length + initval)).

Fixpoint jhash2_loop (fuel : nat) (k : list Z) (length : Z) (s : abc) : option Z :=
  match fuel with
  | O => None
  | S fuel =>
      if length >? 3 then
        x ← k !! 0%nat; y ← k !! 1%nat; z ← k !! 2%nat;
        jhash2_loop fuel (drop 3 k) (u32 (length - 3)) (__jhash_mix (add3 s x y z))
      else
        z ← (if length >=? 3 then k !! 2%nat else Some 0);
        y ← (if length >=? 2 then k !! 1%nat else Some 0);
        x ← (if length >=? 1 then k !! 0%nat else Some 0);
        if length =? 0 then Some (vc s) else Some (vc (__jhash_final (add3 s x y z)))
  end.
Definition jhash2 (k : list Z) (length initval : Z) : option Z :=
  jhash2_loop (S (Z.to_nat length)) k length (init3 (JHASH_INITVAL + u32 (Z.shiftl length 2) + initval)).

Definition __jhash_nwords (a b c initval : Z) : Z :=
  vc (__jhash_final (add3 (Abc a b c) initval initval initval)).
Definition jhash_3words (a b c initval : Z) : Z :=
  __jhash_nwords a b c (u32 (initval + JHASH_INITVAL + 12)).
Definition jhash_2words (a b initval : Z) : Z :=
  __jhash_nwords a b 0 (u32 (initval + JHASH_INITVAL + 8)).
Definition jhash_1word (a initval : Z) : Z :=
  __jhash_nwords a 0 0 (u32 (initval + JHASH_INITVAL + 4)).

(** ** The mixing steps can be undone *)

Definition abc_ok (s : abc) : Prop := is_u32 (va s) /\ is_u32 (vb s) /\ is_u32 (vc s).
Definition unmix_x (x z n : Z) : Z := u32 (Z.lxor x (rol32 z n) + z).
Definition unmix (s : abc) : abc :=
  let '(Abc a b c) := s in
  let b := u32 (b - a) in let c := unmix_x c b 4 in
  let a := u32 (a - c) in let b := unmix_x b a 19 in
  let c := u32 (c - b) in let a := unmix_x a c 16 in
  let b := u32 (b - a) in let c := unmix_x c b 8 in
  let a := u32 (a - c) in let b := unmix_x b a 6 in
  let c := u32 (c - b) in let a := unmix_x a c 4 in
  Abc a b c.
Definition unfin_x (x y n : Z) : Z := Z.lxor (u32 (x + rol32 y n)) y.
Definition unfinal (s : abc) : abc :=
  let '(Abc a b c) := s in
  let c := unfin_x c b 24 in
  let b := unfin_x b a 14 in
  let a := unfin_x a c 4 in
  let c := unfin_x c b 16 in
  let b := unfin_x b a 25 in
  let a := unfin_x a c 11 in
  let c := unfin_x c b 14 in
  Abc a b c.

Lemma bits32 x : is_u32 x <-> 0 <= x /\ forall i, 32 <= i -> Z.testbit x i = false.
Proof.
  unfold is_u32. change 4294967296 with (2 ^ 32). split.
  - intros [H0 H1]. split; [done|]. intros i Hi. destruct (decide (x = 0)) as [->|]; [apply Z.testbit_0_l|].
    apply Z.bits_above_log2; [done|]. apply Z.log2_lt_pow2 in H1; lia.
  - intros [H0 Hb]. split; [done|]. destruct (decide (x = 0)) as [->|]; [lia|].
    apply Z.log2_lt_pow2; [lia|]. destruct (Z.lt_ge_cases (Z.log2 x) 32) as [|Hge]; [done|].
    pose proof (Z.bit_log2 x ltac:(lia)) as Ht. by rewrite Hb in Ht.
Qed.
Lemma lxor_u32 x y : is_u32 x -> is_u32 y -> is_u32 (Z.lxor x y).
Proof.
  rewrite !bits32. intros [Hx Bx] [Hy By]. split; [apply Z.lxor_nonneg; tauto|].
  intros i Hi. by rewrite Z.lxor_spec, Bx, By.
Qed.
Lemma rol32_u32 x n : is_u32 x -> 0 <= n -> is_u32 (rol32 x n).
Proof.
  intros Hx Hn. unfold rol32. pose proof (proj1 (bits32 _) Hx) as [H0 Hb].
  assert (0 <= Z.land (- n) 31) by (apply Z.land_nonneg; right; lia).
  apply bits32. split; [apply Z.lor_nonneg; split; [apply u32_range|by apply Z.shiftr_nonneg]|].
  intros i Hi. rewrite Z.lor_spec, Z.shiftr_spec by lia. rewrite (Hb (i + _)) by lia.
  by rewrite (proj2 (proj1 (bits32 _) (u32_range _)) i Hi).
Qed.
Lemma unmix_mix_x x z n : is_u32 x -> is_u32 z -> unmix_x (mix_x x z n) z n = x.
Proof.
  intros Hx Hz. unfold unmix_x, mix_x. rewrite Z.lxor_assoc, Z.lxor_nilpotent, Z.lxor_0_r. int_solve.
Qed.
Lemma mix_x_u32 x z n : is_u32 z -> 0 <= n -> is_u32 (mix_x x z n).
Proof. intros. apply lxor_u32; [apply u32_range|by apply rol32_u32]. Qed.
Lemma add_sub x y : is_u32 x -> u32 (u32 (x + y) - y) = x.
Proof. int_solve. Qed.
Lemma unfin_fin_x x y n : is_u32 x -> is_u32 y -> unfin_x (fin_x x y n) y n = x.
Proof.
  intros Hx Hy. unfold unfin_x, fin_x.
  replace (u32 (u32 (Z.lxor x y - rol32 y n) + rol32 y n)) with (Z.lxor x y).
  - by rewrite Z.lxor_assoc, Z.lxor_nilpotent, Z.lxor_0_r.
  - pose proof (lxor_u32 x y Hx Hy). int_solve.
Qed.
Lemma fin_x_u32 x y n : is_u32 (fin_x x y n).
Proof. apply u32_range. Qed.
Create HintDb mixing.
#[local] Hint Resolve mix_x_u32 fin_x_u32 u32_range : mixing.

Lemma unmix_mix s : abc_ok s -> unmix (__jhash_mix s) = s.
Proof.
  destruct s as [a b c]. intros (Ha & Hb & Hc). cbn [va vb vc] in *. unfold __jhash_mix, unmix.
  repeat (rewrite add_sub, unmix_mix_x by auto 10 with mixing lia). done.
Qed.
Lemma unfinal_final s : abc_ok s -> unfinal (__jhash_final s) = s.
Proof.
  destruct s as [a b c]. intros (Ha & Hb & Hc). cbn [va vb vc] in *. unfold __jhash_final, unfinal.
  repeat (rewrite unfin_fin_x by auto with mixing). done.
Qed.

(** The mixing steps of the Jenkins hash are injective on 32-bit states: each
    can be undone, so that no information about the key is lost between blocks. *)
Theorem jhash_mixing_injective (s s' : abc) : abc_ok s -> abc_ok s' ->
  (__jhash_mix s = __jhash_mix s' -> s = s') /\ (__jhash_final s = __jhash_final s' -> s = s').
Proof.
  intros Hs Hs'. split; intros E.
  - by rewrite <- (unmix_mix s), <- (unmix_mix s'), E.
  - by rewrite <- (unfinal_final s), <- (unfinal_final s'), E.
Qed.
Lemma jhash_mixing_injective_witness :
  unmix (__jhash_mix (Abc 1 2 3)) = Abc 1 2 3 /\
  (__jhash_mix (Abc 1 2 3) = __jhash_mix (Abc 1 2 4) -> Abc 1 2 3 = Abc 1 2 4).
Proof.
  split; [vm_compute; reflexivity|].
  apply (jhash_mixing_injective (Abc 1 2 3) (Abc 1 2 4)); repeat split; simpl; lia.
Defined.

(** ** Hashing bytes and hashing words *)

Definition word_bytes (w : Z) : list Z := [u8 w; u8 (w / 256); u8 (w / 65536); u8 (w / 16777216)].
Definition bytes_of (ws : list Z) : list Z := concat (map word_bytes ws).

Lemma word_0 w ws : is_u32 w -> word (bytes_of (w :: ws)) 0 = Some w.
Proof. intros Hw. unfold word, byte. simpl. f_equal. int_solve. Qed.
Lemma word_4 w0 w ws : is_u32 w -> word (bytes_of (w0 :: w :: ws)) 4 = Some w.
Proof. intros Hw. unfold word, byte. simpl. f_equal. int_solve. Qed.
Lemma word_8 w0 w1 w ws : is_u32 w -> word (bytes_of (w0 :: w1 :: w :: ws)) 8 = Some w.
Proof. intros Hw. unfold word, byte. simpl. f_equal. int_solve. Qed.

(** The bytes of a whole word in the last block. *)
Lemma tail_sum v w : is_u32 w ->
  u32 (u32 (u32 (u32 (v + Z.shiftl (u8 (w / 16777216)) 24) + Z.shiftl (u8 (w / 65536)) 16) +
            Z.shiftl (u8 (w / 256)) 8) + Z.shiftl (u8 w) 0) = u32 (v + w).
Proof.
  intros Hw. rewrite !Z.shiftl_mul_pow2 by lia.
  change (2 ^ 24) with 16777216. change (2 ^ 16) with 65536. change (2 ^ 8) with 256. change (2 ^ 0) with 1.
  assert (w = u8 (w / 16777216) * 16777216 + u8 (w / 65536) * 65536 + u8 (w / 256) * 256 + u8 w * 1) as Hsum
    by int_solve.
  rewrite !u32_add, <- !Z.add_assoc, u32_add. f_equal. lia.
Qed.
Lemma tail_zero v : is_u32 v -> u32 (u32 (u32 (u32 (v + 0) + 0) + 0) + 0) = v.
Proof. int_solve. Qed.

Lemma mix_ok s : abc_ok s -> abc_ok (__jhash_mix s).
Proof.
  destruct s as [a b c]. intros (Ha & Hb & Hc). cbn [va vb vc] in *. unfold __jhash_mix, abc_ok.
  cbn [va vb vc]. split_and!; auto 10 with mixing lia.
Qed.
Lemma add3_ok s x y z : abc_ok (add3 s x y z).
Proof. repeat split; apply u32_range. Qed.
(** Running the last block on a key of known length. *)
Ltac last_block :=
  unfold bytes_of; cbn [jhash_loop jhash2_loop];
  cbv -[u32 u8 Z.shiftl Z.div __jhash_final add3 Z.add];
  change (0 + 0) with 0.

Lemma loops_agree n : forall ws s f f', length ws = n -> Z.of_nat n < 2 ^ 30 -> Forall is_u32 ws -> abc_ok s ->
  (n < f)%nat -> (n < f')%nat ->
  exists r, jhash_loop f (bytes_of ws) (4 * Z.of_nat n) s = Some r /\ jhash2_loop f' ws (Z.of_nat n) s = Some r.
Proof.
  induction (lt_wf n) as [n _ IH]. intros ws s f f' Hl Hn Hu Hs Hf Hf'.
  destruct f as [|f]; [lia|]. destruct f' as [|f']; [lia|].
  destruct ws as [|w0 [|w1 [|w2 [|w3 ws]]]]; cbn [length] in Hl.
  1-4: subst n. 5: {
    cbn [jhash_loop jhash2_loop]. rewrite (proj2 (Z.gtb_lt _ _)), (proj2 (Z.gtb_lt _ _)) by lia.
    apply Forall_cons_1 in Hu as [Hw0 Hu]. apply Forall_cons_1 in Hu as [Hw1 Hu].
    apply Forall_cons_1 in Hu as [Hw2 Hu].
    rewrite word_0, word_4, word_8 by done. cbn [mbind option_bind lookup list_lookup].
    change (drop 12 (bytes_of (w0 :: w1 :: w2 :: w3 :: ws))) with (bytes_of (w3 :: ws)).
    change (drop 3 (w0 :: w1 :: w2 :: w3 :: ws)) with (w3 :: ws).
    change (2 ^ 30) with 1073741824 in Hn.
    rewrite (u32_small (4 * _ - 12)), (u32_small (Z.of_nat n - 3)) by int_solve.
    replace (4 * Z.of_nat n - 12) with (4 * Z.of_nat (n - 3)) by lia.
    replace (Z.of_nat n - 3) with (Z.of_nat (n - 3)) by lia.
    apply IH; try done; try lia; [simpl; lia|apply mix_ok, add3_ok]. }
  all: repeat match goal with H : Forall is_u32 (_ :: _) |- _ => apply Forall_cons_1 in H as [? H] end.
  all: destruct Hs as (Ha & Hb & Hc); destruct s as [a b c]; cbn [va vb vc] in *; last_block.
  all: eexists; split; [reflexivity|]; rewrite ?tail_sum, ?tail_zero by done; unfold add3; cbn [va vb vc];
    rewrite ?Z.add_0_r, ?(u32_small a), ?(u32_small b), ?(u32_small c) by done; reflexivity.
Qed.

Lemma nwords_add a b c n iv :
  add3 (Abc a b c) (u32 (iv + JHASH_INITVAL + n)) (u32 (iv + JHASH_INITVAL + n)) (u32 (iv + JHASH_INITVAL + n))
  = add3 (init3 (JHASH_INITVAL + n + iv)) a b c.
Proof.
  unfold add3, init3. cbn [va vb vc]. replace (iv + JHASH_INITVAL + n) with (JHASH_INITVAL + n + iv) by lia.
  by rewrite (Z.add_comm a), (Z.add_comm b), (Z.add_comm c).
Qed.

(** The hash functions agree.  Hashing an array of words with jhash2 is hashing
    its bytes with jhash, for every array of less than 2^30 words; both return a hash
    (no loop runs out of fuel, nothing is read past the key); and jhash_1word,
    jhash_2words and jhash_3words are jhash2 on an array of that many words. *)
Theorem jhash_functions_agree (ws : list Z) (iv : Z) :
  Forall is_u32 ws -> lenZ ws < 2 ^ 30 ->
  (exists h, jhash (bytes_of ws) (4 * lenZ ws) iv = Some h /\ jhash2 ws (lenZ ws) iv = Some h) /\
  (forall a b c, jhash2 [a; b; c] 3 iv = Some (jhash_3words a b c iv) /\
                 jhash2 [a; b] 2 iv = Some (jhash_2words a b iv) /\
                 jhash2 [a] 1 iv = Some (jhash_1word a iv)).
Proof.
  intros Hu Hl. split.
  - unfold jhash, jhash2. rewrite Z.shiftl_mul_pow2 by lia. change (2 ^ 2) with 4.
    change (2 ^ 30) with 1073741824 in Hl. rewrite (u32_small (lenZ ws * 4)) by int_solve.
    rewrite (Z.mul_comm (lenZ ws)). apply (loops_agree (length ws)); try done; try lia.
    repeat split; apply u32_range.
  - intros a b c. unfold jhash_3words, jhash_2words, jhash_1word, __jhash_nwords. by rewrite !nwords_add.
Qed.
Lemma jhash_functions_agree_witness : exists h,
  jhash [1; 0; 0; 0; 2; 0; 0; 0; 3; 0; 0; 0; 4; 0; 0; 0] 16 7 = Some h /\ jhash2 [1; 2; 3; 4] 4 7 = Some h.
Proof.
  destruct (jhash_functions_agree [1; 2; 3; 4] 7) as [(h & H1 & H2) _].
  - repeat (constructor; [int_solve|]). constructor.
  - reflexivity.
  - exists h. split; [exact H1|exact H2].
Defined.
