(* ===== verification/Nlattr.v ===== *)
(** * Netlink attributes: libbpf/src/nlattr.c, nlattr.h

    The attribute parser that libbpf runs on what the kernel answers when a program is
    attached.  A message is a list of bytes; an attribute is a position in it, a read
    outside the list is [None].  [remaining] is a C int that [nla_ok] compares with a
    size_t, so a negative value passes the first test.  The theorems: parsing an
    encoded list of attributes finds, for every type, the last attribute of that type
    that precedes the first one the policy rejects; and no stream of whole words makes
    the parser read outside it. *)

From S2P Require Import Prelude.
#[local] Open Scope Z_scope.

Definition LIBBPF_NLA_UNSPEC : Z := 0.
Definition LIBBPF_NLA_STRING : Z := 5.
Definition LIBBPF_NLA_TYPE_MAX : Z := 8.
Definition NLA_TYPE_MASK : Z := 0x3fff.
Definition NLA_HDRLEN : Z := 4.
Definition sizeof_nlattr : Z := 4.
Definition NLA_ALIGN (len : Z) : Z := Z.land (len + 3) (Z.lnot 3).

(** [nla_attr_minlen]: u8, u16, u32, u64, string, flag, msecs, nested. *)
Definition nla_attr_minlen : list Z := [0; 1; 2; 4; 8; 1; 0; 0; 0].
Record libbpf_nla_policy := Nla_policy { pol_type : Z; pol_minlen : Z; pol_maxlen : Z }.

Section Parse.
Context (msg : list Z).

Definition byte_of (p : Z) : option Z := if 0 <=? p then msg !! Z.to_nat p else None.
Definition half_of (p : Z) : option Z := x ← byte_of p; y ← byte_of (p + 1); Some (x + 256 * y).
Definition nla_len (nla : Z) : option Z := half_of nla.
Definition nla_type (nla : Z) : option Z := t ← half_of (nla + 2); Some (Z.land t NLA_TYPE_MASK).

Definition nla_next (nla remaining : Z) : option (Z * Z) :=
  l ← nla_len nla;
  let totlen := NLA_ALIGN l in
  Some (nla + totlen, s32 (remaining - totlen)).
Definition nla_ok (nla remaining : Z) : option bool :=
  if u64 remaining >=? sizeof_nlattr then
    l ← nla_len nla; Some ((l >=? sizeof_nlattr) && (l <=? remaining))
  else Some false.

Definition libbpf_nla_data (nla : Z) : Z := nla + NLA_HDRLEN.
Definition libbpf_nla_len (nla : Z) : option Z := l ← nla_len nla; Some (l - NLA_HDRLEN).
Definition libbpf_nla_getattr_u8 (nla : Z) : option Z := byte_of (libbpf_nla_data nla).
Definition libbpf_nla_getattr_u32 (nla : Z) : option Z :=
  let p := libbpf_nla_data nla in
  x ← half_of p; y ← half_of (p + 2); Some (x + 65536 * y).

Definition validate_nla (nla maxtype : Z) (policy : list libbpf_nla_policy) : option Z :=
  type ← nla_type nla;
  if (type <? 0) || (type >? maxtype) then Some 0
  else
    pt ← policy !! Z.to_nat type;
    if pol_type pt >? LIBBPF_NLA_TYPE_MAX then Some 0
    else
      minlen ← (if negb (pol_minlen pt =? 0) then Some (pol_minlen pt)
                else if negb (pol_type pt =? LIBBPF_NLA_UNSPEC) then nla_attr_minlen !! Z.to_nat (pol_type pt)
                else Some 0);
      len ← libbpf_nla_len nla;
      if u32 len <? minlen then Some (-1)
      else if negb (pol_maxlen pt =? 0) && (len >? pol_maxlen pt) then Some (-1)
      else if pol_type pt =? LIBBPF_NLA_STRING then
        b ← byte_of (libbpf_nla_data nla + len - 1);
        if negb (b =? 0) then Some (-1) else Some 0
      else Some 0.

(** The loop over the stream; [tb] holds the positions found. *)
Fixpoint parse_loop (fuel : nat) (tb : list (option Z)) (maxtype nla rem : Z)
    (policy : option (list libbpf_nla_policy)) : option (Z * list (option Z)) :=
  match fuel with
  | O => None
  | S fuel =>
      ok ← nla_ok nla rem;
      if negb ok then Some (0, tb)
      else
        type ← nla_type nla;
        '(next, rem') ← nla_next nla rem;
        if type >? maxtype then parse_loop fuel tb maxtype next rem' policy
        else
          err ← (match policy with Some p => validate_nla nla maxtype p | None => Some 0 end);
          if err <? 0 then Some (err, tb)
          else parse_loop fuel (setZ tb type (Some nla)) maxtype next rem' policy
  end.
Definition libbpf_nla_parse (maxtype head len : Z) (policy : option (list libbpf_nla_policy)) :=
  parse_loop (S (Z.to_nat len)) (replicate (Z.to_nat (maxtype + 1)) None) maxtype head len policy.
Definition libbpf_nla_parse_nested (maxtype nla : Z) (policy : option (list libbpf_nla_policy)) :=
  len ← libbpf_nla_len nla; libbpf_nla_parse maxtype (libbpf_nla_data nla) len policy.
End Parse.

(** ** Streams *)

(** An attribute and its encoding, padded to whole words. *)
Record attr := Attr { at_type : Z; at_data : list Z }.
Definition half_bytes (z : Z) : list Z := [u8 z; u8 (z / 256)].
Definition at_len (a : attr) : Z := 4 + lenZ (at_data a).
Definition pad (n : Z) : list Z := replicate (Z.to_nat (NLA_ALIGN n - n)) 0.
Definition encode_attr (a : attr) : list Z :=
  half_bytes (at_len a) ++ half_bytes (at_type a) ++ at_data a ++ pad (at_len a).
Definition encode (l : list attr) : list Z := concat (map encode_attr l).
Definition attr_ok (a : attr) : Prop :=
  is_u16 (at_type a) /\ at_len a < 65536 /\ Forall is_u8 (at_data a).

(** What the policy says of an attribute. *)
Definition obeys (a : attr) (p : libbpf_nla_policy) : bool :=
  let n := lenZ (at_data a) in
  let minlen := if negb (pol_minlen p =? 0) then pol_minlen p else getZ nla_attr_minlen (pol_type p) in
  (pol_type p >? LIBBPF_NLA_TYPE_MAX) ||
  ((minlen <=? n) && ((pol_maxlen p =? 0) || (n <=? pol_maxlen p)) &&
   (negb (pol_type p =? LIBBPF_NLA_STRING) || (getZ (at_data a) (n - 1) =? 0))).
Definition kind_of (a : attr) : Z := Z.land (at_type a) NLA_TYPE_MASK.
Definition accepted (maxtype : Z) (policy : option (list libbpf_nla_policy)) (a : attr) : bool :=
  match policy with
  | None => true
  | Some ps => match ps !! Z.to_nat (kind_of a) with Some p => obeys a p | None => true end
  end.

(** The reference: the attributes are visited in order, those of unknown types are
    skipped, the first rejected one ends the walk, and the index keeps the position of
    the last of each type. *)
Fixpoint index (maxtype : Z) (policy : option (list libbpf_nla_policy)) (pos : Z) (l : list attr)
    (tb : list (option Z)) : Z * list (option Z) :=
  match l with
  | [] => (0, tb)
  | a :: l' =>
      let next := pos + lenZ (encode_attr a) in
      if kind_of a >? maxtype then index maxtype policy next l' tb
      else if negb (accepted maxtype policy a) then (-1, tb)
      else index maxtype policy next l' (setZ tb (kind_of a) (Some pos))
  end.

Lemma align_eq n : NLA_ALIGN n = 4 * ((n + 3) / 4).
Proof.
  unfold NLA_ALIGN. change (Z.lnot 3) with (Z.lnot (Z.ones 2)). rewrite <- Z.ldiff_land.
  rewrite Z.ldiff_ones_r, Z.shiftl_mul_pow2, Z.shiftr_div_pow2 by lia. change (2 ^ 2) with 4. lia.
Qed.
Lemma align_bounds n : n <= NLA_ALIGN n < n + 4 /\ NLA_ALIGN n mod 4 = 0.
Proof. rewrite align_eq. Z.div_mod_to_equations. lia. Qed.
Lemma encode_attr_len a : lenZ (encode_attr a) = NLA_ALIGN (at_len a).
Proof.
  unfold encode_attr, pad, half_bytes. rewrite !length_app, length_replicate. cbn [length].
  pose proof (align_bounds (at_len a)). unfold at_len in *. lia.
Qed.
Lemma byte_of_app pre l i x : 0 <= i -> l !! Z.to_nat i = Some x -> byte_of (pre ++ l) (lenZ pre + i) = Some x.
Proof.
  intros Hi Hx. unfold byte_of. rewrite (proj2 (Z.leb_le _ _)) by lia.
  rewrite lookup_app_r by lia. rewrite <- Hx. f_equal. lia.
Qed.
Lemma half_of_app pre a i z : is_u16 z -> 0 <= i -> a !! Z.to_nat i = Some (u8 z) ->
  a !! Z.to_nat (i + 1) = Some (u8 (z / 256)) -> half_of (pre ++ a) (lenZ pre + i) = Some z.
Proof.
  intros Hz Hi H1 H2. unfold half_of. rewrite (byte_of_app _ _ _ _ Hi H1). cbn [mbind option_bind].
  rewrite <- Z.add_assoc, (byte_of_app _ _ (i + 1) _ ltac:(lia) H2). cbn [mbind option_bind]. f_equal. int_solve.
Qed.

Lemma at_len_u16 a : attr_ok a -> is_u16 (at_len a).
Proof. intros (_ & H & _). unfold at_len in *. int_solve. Qed.

(** The attribute at the front of a stream. *)
Section Front.
Context (pre : list Z) (a : attr) (rest : list Z) (Ha : attr_ok a).
Let msg := pre ++ encode_attr a ++ rest.
Let nla := lenZ pre.

Lemma front_len : nla_len msg nla = Some (at_len a).
Proof using Ha.
  unfold nla_len, nla, msg. rewrite <- (Z.add_0_r (lenZ pre)). by apply half_of_app; [by apply at_len_u16|..].
Qed.
Lemma front_type : nla_type msg nla = Some (kind_of a).
Proof using Ha.
  unfold nla_type, nla, msg, kind_of. rewrite (half_of_app pre _ 2 (at_type a)); [done|by destruct Ha|lia|done|done].
Qed.
Lemma front_data_len : libbpf_nla_len msg nla = Some (lenZ (at_data a)).
Proof using Ha. unfold libbpf_nla_len. rewrite front_len. cbn. f_equal. unfold at_len, NLA_HDRLEN. lia. Qed.
Lemma front_data i : 0 <= i < lenZ (at_data a) ->
  byte_of msg (libbpf_nla_data nla + i) = Some (getZ (at_data a) i).
Proof.
  intros Hi. unfold libbpf_nla_data, NLA_HDRLEN, nla, msg. rewrite <- Z.add_assoc. apply byte_of_app; [lia|].
  unfold encode_attr. replace (Z.to_nat (4 + i)) with (4 + Z.to_nat i)%nat by lia. unfold half_bytes. simpl.
  rewrite <- app_assoc, lookup_app_l by lia. by apply getZ_lookup.
Qed.
Lemma front_ok rem : at_len a <= rem < 2147483648 -> nla_ok msg nla rem = Some true.
Proof using Ha.
  intros Hr. unfold nla_ok. assert (4 <= at_len a) by (unfold at_len; lia).
  rewrite u64_small by int_solve. unfold sizeof_nlattr. rewrite (proj2 (Z.geb_le _ _)) by lia.
  rewrite front_len. cbn [mbind option_bind]. f_equal. apply andb_true_intro.
  split; [apply Z.geb_le|apply Z.leb_le]; lia.
Qed.
Lemma front_next rem : NLA_ALIGN (at_len a) <= rem < 2147483648 ->
  nla_next msg nla rem = Some (nla + lenZ (encode_attr a), rem - lenZ (encode_attr a)).
Proof using Ha.
  intros Hr. unfold nla_next. rewrite front_len. cbn [mbind option_bind]. rewrite encode_attr_len.
  pose proof (align_bounds (at_len a)). unfold at_len in *. rewrite s32_small by lia. done.
Qed.

Lemma front_valid maxtype ps : 0 <= kind_of a <= maxtype -> maxtype < lenZ ps ->
  Forall (fun p => 0 <= pol_type p /\ 0 <= pol_minlen p /\ 0 <= pol_maxlen p) ps ->
  validate_nla msg nla maxtype ps = Some (if accepted maxtype (Some ps) a then 0 else -1).
Proof using Ha.
  intros Hk Hl Hps. unfold validate_nla. rewrite front_type. cbn [mbind option_bind].
  rewrite (proj2 (Z.ltb_ge _ _)), Z.gtb_ltb, (proj2 (Z.ltb_ge _ _)) by lia. cbn [orb].
  unfold accepted. destruct (lookup_lt_is_Some_2 ps (Z.to_nat (kind_of a))) as [p Hp]; [lia|].
  rewrite Hp. cbn [mbind option_bind].
  pose proof (Forall_lookup_1 _ _ _ _ Hps Hp) as (Ht0 & Hmin & Hmax).
  unfold obeys. rewrite !Z.gtb_ltb. destruct (Z.ltb_spec LIBBPF_NLA_TYPE_MAX (pol_type p)) as [|Ht]; [done|].
  cbn [orb]. rewrite front_data_len.
  set (minlen := if negb (pol_minlen p =? 0) then pol_minlen p else getZ nla_attr_minlen (pol_type p)).
  assert (Hm : (if negb (pol_minlen p =? 0) then Some (pol_minlen p)
    else if negb (pol_type p =? LIBBPF_NLA_UNSPEC) then nla_attr_minlen !! Z.to_nat (pol_type p) else Some 0)
    = Some minlen).
  { subst minlen. destruct (negb (pol_minlen p =? 0)); [done|]. unfold LIBBPF_NLA_UNSPEC, LIBBPF_NLA_TYPE_MAX in *.
    destruct (Z.eqb_spec (pol_type p) 0) as [->|]; [done|]. cbn [negb]. apply getZ_lookup. simpl. lia. }
  rewrite Hm. cbn [mbind option_bind].
  assert (Hstr : pol_type p = LIBBPF_NLA_STRING -> 1 <= minlen).
  { intros E. subst minlen. rewrite E. destruct (Z.eqb_spec (pol_minlen p) 0); cbn [negb]; [by vm_compute|lia]. }
  clearbody minlen. destruct Ha as (_ & Hlen & _). unfold at_len in Hlen.
  rewrite u32_small by int_solve.
  destruct (Z.ltb_spec (lenZ (at_data a)) minlen) as [Hlt|Hge].
  { by rewrite (proj2 (Z.leb_gt _ _)) by lia. }
  rewrite (proj2 (Z.leb_le minlen _)) by lia. cbn [andb]. rewrite Z.gtb_ltb.
  destruct (Z.eqb_spec (pol_maxlen p) 0); cbn [negb andb orb].
  - destruct (Z.eqb_spec (pol_type p) LIBBPF_NLA_STRING) as [E|E]; [|done]. apply Hstr in E.
    rewrite <- Z.add_sub_assoc, front_data by lia. cbn [mbind option_bind]. by destruct (getZ (at_data a) _ =? 0).
  - destruct (Z.ltb_spec (pol_maxlen p) (lenZ (at_data a))).
    { by rewrite (proj2 (Z.leb_gt (lenZ (at_data a)) _)) by lia. }
    rewrite (proj2 (Z.leb_le _ (pol_maxlen p))) by lia.
    destruct (Z.eqb_spec (pol_type p) LIBBPF_NLA_STRING) as [E|E]; [|done]. apply Hstr in E.
    rewrite <- Z.add_sub_assoc, front_data by lia. cbn [mbind option_bind]. by destruct (getZ (at_data a) _ =? 0).
Qed.
End Front.

(** The policy covers the types the parser looks up. *)
Definition policy_ok (maxtype : Z) (policy : option (list libbpf_nla_policy)) : Prop :=
  match policy with
  | None => True
  | Some ps => maxtype < lenZ ps /\
      Forall (fun p => 0 <= pol_type p /\ 0 <= pol_minlen p /\ 0 <= pol_maxlen p) ps
  end.
Lemma kind_range a : attr_ok a -> 0 <= kind_of a.
Proof. intros ((H & _) & _). apply Z.land_nonneg. by left. Qed.

Lemma parse_loop_index maxtype policy l rest : policy_ok maxtype policy -> Forall attr_ok l ->
  forall pre fuel tb, (length l < fuel)%nat -> lenZ (encode l) < 2147483648 ->
  parse_loop (pre ++ encode l ++ rest) fuel tb maxtype (lenZ pre) (lenZ (encode l)) policy
  = Some (index maxtype policy (lenZ pre) l tb).
Proof.
  intros Hpol. induction l as [|a l IH]; intros Hl pre fuel tb Hf Hs; (destruct fuel as [|fuel]; [simpl in Hf; lia|]).
  - reflexivity.
  - apply Forall_cons_1 in Hl as [Ha Hl].
    change (encode (a :: l)) with (encode_attr a ++ encode l) in *. rewrite length_app in *.
    rewrite <- (app_assoc (encode_attr a)).
    pose proof (align_bounds (at_len a)). pose proof (encode_attr_len a).
    cbn [parse_loop length] in *. rewrite front_ok by (done || lia). cbn [mbind option_bind negb].
    rewrite front_type, front_next by (done || lia). cbn [mbind option_bind index].
    assert (Hnext : forall tb', parse_loop (pre ++ encode_attr a ++ encode l ++ rest) fuel tb' maxtype
        (lenZ pre + lenZ (encode_attr a)) (Z.of_nat (length (encode_attr a) + length (encode l)) - lenZ (encode_attr a)) policy
      = Some (index maxtype policy (lenZ pre + lenZ (encode_attr a)) l tb')).
    { intros tb'. rewrite app_assoc.
      replace (lenZ pre + lenZ (encode_attr a)) with (lenZ (pre ++ encode_attr a)) by (rewrite length_app; lia).
      replace (Z.of_nat (length (encode_attr a) + length (encode l)) - lenZ (encode_attr a))
        with (lenZ (encode l)) by lia.
      apply IH; [done|lia|lia]. }
    rewrite Z.gtb_ltb. destruct (Z.ltb_spec maxtype (kind_of a)); [apply Hnext|].
    pose proof (kind_range a Ha).
    assert (Hv : match policy with Some p => validate_nla (pre ++ encode_attr a ++ encode l ++ rest) (lenZ pre) maxtype p
                 | None => Some 0 end = Some (if accepted maxtype policy a then 0 else -1)).
    { destruct policy as [ps|]; [|done]. destruct Hpol. by apply front_valid. }
    rewrite Hv. cbn [mbind option_bind]. destruct (accepted maxtype policy a); [apply Hnext|done].
Qed.
Lemma encode_length l : (length l <= length (encode l))%nat.
Proof.
  induction l as [|a l IH]; [done|]. change (encode (a :: l)) with (encode_attr a ++ encode l).
  rewrite length_app. pose proof (encode_attr_len a). pose proof (align_bounds (at_len a)).
  unfold at_len in *. simpl. lia.
Qed.
Lemma nla_parse_index pre l rest maxtype policy :
  Forall attr_ok l -> policy_ok maxtype policy -> lenZ (encode l) < 2147483648 ->
  libbpf_nla_parse (pre ++ encode l ++ rest) maxtype (lenZ pre) (lenZ (encode l)) policy
  = Some (index maxtype policy (lenZ pre) l (replicate (Z.to_nat (maxtype + 1)) None)).
Proof. intros Hl Hp Hs. pose proof (encode_length l). apply parse_loop_index; (done || lia). Qed.

(** C33: parsing is the inverse of encoding.  On the encoding of any list of
    attributes (padded to words, as the kernel sends them) placed anywhere in a
    message, libbpf_nla_parse terminates without reading outside the message and
    returns what the reference walk returns: 0 and, for every type up to maxtype, the
    position of the last attribute of that type, or -1 and the index so far at the
    first attribute that breaks its policy (too short, too long, a string without its
    NUL). *)
Theorem nla_parse_roundtrip (pre rest : list Z) (l : list attr) (maxtype : Z)
    (policy : option (list libbpf_nla_policy)) :
  Forall attr_ok l -> policy_ok maxtype policy -> lenZ (encode l) < 2147483648 ->
  libbpf_nla_parse (pre ++ encode l ++ rest) maxtype (lenZ pre) (lenZ (encode l)) policy
  = Some (index maxtype policy (lenZ pre) l (replicate (Z.to_nat (maxtype + 1)) None)).
Proof. apply nla_parse_index. Qed.
(** A message of type 2 twice and type 7, with a policy that wants strings. *)
Definition demo_attrs : list attr := [Attr 2 [104; 105; 0]; Attr 7 [1]; Attr 2 [111; 107; 0]].
Definition demo_policy : list libbpf_nla_policy :=
  [Nla_policy 0 0 0; Nla_policy 3 0 0; Nla_policy 5 0 8; Nla_policy 0 0 0].
Lemma nla_parse_roundtrip_witness :
  libbpf_nla_parse (encode demo_attrs ++ [1; 2]) 3 0 24 (Some demo_policy) = Some (0, [None; None; Some 16; None]).
Proof.
  etransitivity; [apply (nla_parse_roundtrip [] [1; 2] demo_attrs 3 (Some demo_policy))|reflexivity].
  - repeat constructor; simpl; try lia; discriminate.
  - split; [simpl; lia|]. repeat constructor; simpl; lia.
  - reflexivity.
Defined.

(** ** Any bytes *)

Section Safe.
Context (msg : list Z) (Hm : Forall is_u8 msg).

Lemma byte_in p : 0 <= p < lenZ msg -> exists b, byte_of msg p = Some b /\ is_u8 b.
Proof using Hm.
  intros Hp. unfold byte_of. rewrite (proj2 (Z.leb_le _ _)) by lia.
  rewrite getZ_lookup by lia. exists (getZ msg p). split; [done|]. by apply (getZ_Forall is_u8).
Qed.
Lemma half_in p : 0 <= p -> p + 2 <= lenZ msg -> exists h, half_of msg p = Some h /\ 0 <= h < 65536.
Proof using Hm.
  intros Hp Hl. unfold half_of. destruct (byte_in p) as (x & -> & Hx); [lia|].
  destruct (byte_in (p + 1)) as (y & -> & Hy); [lia|]. simpl. eexists. split; [done|]. int_solve.
Qed.
Lemma validate_in nla l maxtype ps :
  policy_ok maxtype (Some ps) -> 0 <= nla -> nla_len msg nla = Some l -> 4 <= l < 65536 -> nla + l <= lenZ msg ->
  exists e, validate_nla msg nla maxtype ps = Some e /\ (e = 0 \/ e = -1).
Proof using Hm.
  intros [Hps Hpos] Hn Hl Hl4 Hend. unfold validate_nla, nla_type, libbpf_nla_len. rewrite Hl.
  destruct (half_in (nla + 2)) as (t & -> & Ht); [lia..|]. cbn [mbind option_bind].
  destruct (_ || _)%bool eqn:E; [eauto|]. bool_prop.
  destruct (lookup_lt_is_Some_2 ps (Z.to_nat (Z.land t NLA_TYPE_MASK))) as [p Hp]; [lia|]. rewrite Hp.
  cbn [mbind option_bind]. pose proof (Forall_lookup_1 _ _ _ _ Hpos Hp) as (Ht0 & Hmin0 & _).
  destruct (pol_type p >? LIBBPF_NLA_TYPE_MAX) eqn:Etm; [eauto|]. bool_prop. unfold LIBBPF_NLA_TYPE_MAX in *.
  assert (Hmin : exists m, (if negb (pol_minlen p =? 0) then Some (pol_minlen p)
    else if negb (pol_type p =? LIBBPF_NLA_UNSPEC) then nla_attr_minlen !! Z.to_nat (pol_type p) else Some 0)
    = Some m /\ (pol_type p = LIBBPF_NLA_STRING -> 1 <= m)).
  { destruct (Z.eqb_spec (pol_minlen p) 0); cbn [negb]; [|eexists; split; [done|lia]].
    destruct (Z.eqb_spec (pol_type p) LIBBPF_NLA_UNSPEC) as [E0|E0]; cbn [negb]; [rewrite E0; by exists 0|].
    destruct (lookup_lt_is_Some_2 nla_attr_minlen (Z.to_nat (pol_type p))) as [m Hmm]; [simpl; lia|].
    exists m. split; [done|]. intros Es. rewrite Es in Hmm. by injection Hmm as <-. }
  destruct Hmin as (m & -> & Hmstr). cbn [mbind option_bind].
  unfold NLA_HDRLEN in *. rewrite u32_small by int_solve.
  destruct (Z.ltb_spec (l - 4) m); [eauto|]. destruct (_ && _)%bool; [eauto|].
  destruct (Z.eqb_spec (pol_type p) LIBBPF_NLA_STRING) as [Es|]; [|eauto]. apply Hmstr in Es.
  unfold libbpf_nla_data, NLA_HDRLEN. destruct (byte_in (nla + 4 + (l - 4) - 1)) as (b & -> & _); [lia|].
  cbn [mbind option_bind]. destruct (negb _); eauto.
Qed.

Lemma parse_loop_safe maxtype policy : policy_ok maxtype policy -> forall fuel tb nla rem,
  0 <= nla -> 0 <= rem < 2147483648 -> rem mod 4 = 0 -> nla + rem <= lenZ msg -> rem < Z.of_nat fuel ->
  exists e tb', parse_loop msg fuel tb maxtype nla rem policy = Some (e, tb') /\ (e = 0 \/ e = -1).
Proof using Hm.
  intros Hpol. induction fuel as [|fuel IH]; intros tb nla rem Hn Hr H4 Hend Hf; [lia|].
  cbn [parse_loop]. unfold nla_ok, sizeof_nlattr. rewrite u64_small by int_solve.
  destruct (Z.geb_spec rem 4); [|cbn; eauto].
  destruct (half_in nla) as (l & Hl & Hlr); [lia..|]. fold (nla_len msg nla) in Hl. rewrite Hl.
  cbn [mbind option_bind]. destruct (Z.geb_spec l 4); [|cbn; eauto].
  destruct (Z.leb_spec l rem); [|cbn; eauto]. cbn [andb negb].
  unfold nla_type at 1, nla_next. rewrite Hl. destruct (half_in (nla + 2)) as (t & -> & Ht); [lia..|].
  cbn [mbind option_bind].
  pose proof (align_bounds l) as [Hal Hal4].
  assert (NLA_ALIGN l <= rem) by (Z.div_mod_to_equations; lia).
  rewrite s32_small by lia.
  assert (Hgo : forall tb', exists e tb'', parse_loop msg fuel tb' maxtype (nla + NLA_ALIGN l) (rem - NLA_ALIGN l) policy
    = Some (e, tb'') /\ (e = 0 \/ e = -1)).
  { intros tb'. apply IH; try lia. Z.div_mod_to_equations. lia. }
  destruct (_ >? maxtype); [apply Hgo|].
  assert (Hv : exists e, match policy with Some p => validate_nla msg nla maxtype p | None => Some 0 end = Some e
               /\ (e = 0 \/ e = -1)).
  { destruct policy as [ps|]; [|eauto]. eapply validate_in; try done; lia. }
  destruct Hv as (e & -> & [-> | ->]); cbn [mbind option_bind Z.ltb Z.compare]; [apply Hgo|eauto].
Qed.
Lemma nla_parse_any maxtype head len policy :
  policy_ok maxtype policy -> 0 <= head -> 0 <= len < 2147483648 -> len mod 4 = 0 -> head + len <= lenZ msg ->
  exists e tb, libbpf_nla_parse msg maxtype head len policy = Some (e, tb) /\ (e = 0 \/ e = -1).
Proof using Hm. intros Hp Hh Hl H4 He. apply parse_loop_safe; try done. lia. Qed.
End Safe.

(** The parser is safe on arbitrary bytes.  Whatever a stream of whole words
    contains, libbpf_nla_parse terminates, never reads outside the stream and returns 0
    or -1.  The restriction is needed: on a stream that ends inside a word the
    remaining count becomes negative, passes the first test of nla_ok as a size_t, and
    the length of an attribute behind the stream is read. *)
Theorem nla_parse_safe (msg : list Z) (maxtype head len : Z) (policy : option (list libbpf_nla_policy)) :
  Forall is_u8 msg -> policy_ok maxtype policy ->
  0 <= head -> 0 <= len < 2147483648 -> len mod 4 = 0 -> head + len <= lenZ msg ->
  (exists e tb, libbpf_nla_parse msg maxtype head len policy = Some (e, tb) /\ (e = 0 \/ e = -1)) /\
  libbpf_nla_parse [5; 0; 1; 0; 9] 3 0 5 None = None.
Proof.
  intros Hm Hp Hh Hl H4 He. split; [|reflexivity]. by apply nla_parse_any.
Qed.
Lemma nla_parse_safe_witness : exists e tb,
  libbpf_nla_parse [6; 0; 1; 0; 9; 9; 255; 255; 200; 1; 1; 0] 3 0 12 (Some demo_policy) = Some (e, tb).
Proof.
  destruct (nla_parse_safe [6; 0; 1; 0; 9; 9; 255; 255; 200; 1; 1; 0] 3 0 12 (Some demo_policy)) as [(e & tb & H & _) _].
  - repeat (constructor; [int_solve|]). constructor.
  - split; [simpl; lia|]. repeat constructor; simpl; lia.
  - lia.
  - lia.
  - reflexivity.
  - simpl. lia.
  - exists e, tb. exact H.
Defined.
