(* ===== verification/Netlink.v ===== *)
(** * Attaching XDP programs over netlink: libbpf/src/netlink.c

    A message is a list of bytes in the receive buffer, a header is a position in it, and
    reading outside the buffer is [None].  The kernel is a parameter, the class
    [NlKernel]: it answers a request with a list of datagrams.  The four functions that
    dump links, classes, qdiscs and filters share one text in the source and one
    definition here.  The theorems are proved against an abstract view of the kernel, in
    which a device has a list of attributes and attaching is a function: the request built
    by [bpf_set_link_xdp_fd] says what its arguments say, its result is the kernel's, the
    dump is decoded to the program of the requested mode, and the socket is always closed. *)

From S2P Require Import Prelude Nlattr.
#[local] Open Scope Z_scope.
#[local] Open Scope prog_scope.

Definition NLMSG_ERROR : Z := 2.
Definition NLMSG_DONE : Z := 3.
Definition RTM_GETLINK : Z := 18.
Definition RTM_SETLINK : Z := 19.
Definition RTM_GETQDISC : Z := 38.
Definition RTM_GETTCLASS : Z := 42.
Definition RTM_GETTFILTER : Z := 46.
Definition NLM_F_REQUEST : Z := 1.
Definition NLM_F_MULTI : Z := 2.
Definition NLM_F_ACK : Z := 4.
Definition NLM_F_DUMP : Z := 0x300.
Definition NLM_F_CAPPED : Z := 0x100.
Definition NLM_F_ACK_TLVS : Z := 0x200.
Definition NLA_F_NESTED : Z := 0x8000.
Definition AF_UNSPEC : Z := 0.
Definition AF_PACKET : Z := 17.
Definition IFLA_XDP : Z := 43.
Definition IFLA_MAX : Z := 53.
Definition TCA_MAX : Z := 14.
Definition IFLA_XDP_FD : Z := 1.
Definition IFLA_XDP_ATTACHED : Z := 2.
Definition IFLA_XDP_FLAGS : Z := 3.
Definition IFLA_XDP_PROG_ID : Z := 4.
Definition IFLA_XDP_DRV_PROG_ID : Z := 5.
Definition IFLA_XDP_SKB_PROG_ID : Z := 6.
Definition IFLA_XDP_HW_PROG_ID : Z := 7.
Definition IFLA_XDP_MAX : Z := 7.
Definition XDP_ATTACHED_NONE : Z := 0.
Definition XDP_ATTACHED_MULTI : Z := 4.
Definition XDP_FLAGS_SKB_MODE : Z := 2.
Definition XDP_FLAGS_DRV_MODE : Z := 4.
Definition XDP_FLAGS_HW_MODE : Z := 8.
Definition XDP_FLAGS_MASK : Z := 15.
Definition NLMSGERR_ATTR_MAX : Z := 3.
Definition EINVAL : Z := 22.
Definition LIBBPF_ERRNO__INTERNAL : Z := 4004.
Definition LIBBPF_ERRNO__WRNGPID : Z := 4011.
Definition LIBBPF_ERRNO__INVSEQ : Z := 4012.
Definition LIBBPF_ERRNO__NLPARSE : Z := 4013.
Definition sizeof_nlmsghdr : Z := 16.
Definition sizeof_ifinfomsg : Z := 16.
Definition sizeof_tcmsg : Z := 20.
Definition sizeof_sockaddr_nl : Z := 12.
Definition sizeof_nlmsgerr : Z := 20.
Definition BUFSIZE : nat := 4096.

Definition NLMSG_ALIGN (len : Z) : Z := u32 (Z.land (len + 3) (Z.lnot 3)).
Definition NLMSG_LENGTH (len : Z) : Z := len + 16.

(** ** Receiving *)

Section Receive.
Context (buf : list Z).

Definition word_of (p : Z) : option Z := x ← half_of buf p; y ← half_of buf (p + 2); Some (x + 65536 * y).
Definition nlmsg_len (nh : Z) : option Z := word_of nh.
Definition nlmsg_type (nh : Z) : option Z := half_of buf (nh + 4).
Definition nlmsg_flags (nh : Z) : option Z := half_of buf (nh + 6).
Definition nlmsg_seq (nh : Z) : option Z := word_of (nh + 8).
Definition nlmsg_pid (nh : Z) : option Z := word_of (nh + 12).
Definition NLMSG_DATA (nh : Z) : Z := nh + 16.
Definition NLMSG_OK (nh len : Z) : option bool :=
  if len >=? sizeof_nlmsghdr then
    l ← nlmsg_len nh; Some ((l >=? sizeof_nlmsghdr) && (l <=? len))
  else Some false.

(** The text of the kernel's error is printed, the result is always 0. *)
Definition extack_policy : list libbpf_nla_policy :=
  [Nla_policy 0 0 0; Nla_policy LIBBPF_NLA_STRING 0 0; Nla_policy 3 0 0; Nla_policy 0 0 0].
Definition libbpf_nla_dump_errormsg (nlh : Z) : option Z :=
  flags ← nlmsg_flags nlh;
  if Z.land flags NLM_F_ACK_TLVS =? 0 then Some 0
  else
    let err := NLMSG_DATA nlh in
    hlen ← (if Z.land flags NLM_F_CAPPED =? 0
            then l ← nlmsg_len (err + 4); Some (s32 (sizeof_nlmsgerr + (l - 16)))
            else Some sizeof_nlmsgerr);
    let attr := err + hlen in
    l ← nlmsg_len nlh;
    let alen := s32 (l - hlen) in
    '(r, tb) ← libbpf_nla_parse buf NLMSGERR_ATTR_MAX attr alen (Some extack_policy);
    Some 0.

(** The walk over the messages of a datagram: a [return] of the function or the end of
    the datagram with the variable [multipart]. *)
Inductive walk := Return (r : Z) | Finished (multipart : bool).

Fixpoint recv_msgs {C} (fuel : nat) (nh len nl_pid seq : Z) (fn : option (Z -> C -> option (Z * C)))
    (multipart : bool) (cookie : C) : option (walk * C) :=
  match fuel with
  | O => None
  | S fuel =>
      ok ← NLMSG_OK nh len;
      if negb ok then Some (Finished multipart, cookie)
      else
        pid ← nlmsg_pid nh;
        if negb (pid =? nl_pid) then Some (Return (- LIBBPF_ERRNO__WRNGPID), cookie)
        else
          sq ← nlmsg_seq nh;
          if negb (sq =? u32 seq) then Some (Return (- LIBBPF_ERRNO__INVSEQ), cookie)
          else
            flags ← nlmsg_flags nh;
            let multipart := if negb (Z.land flags NLM_F_MULTI =? 0) then true else multipart in
            l ← nlmsg_len nh;
            let next := recv_msgs fuel (nh + NLMSG_ALIGN l) (s32 (len - NLMSG_ALIGN l)) nl_pid seq fn multipart in
            type ← nlmsg_type nh;
            if type =? NLMSG_ERROR then
              error ← word_of (NLMSG_DATA nh);
              if error =? 0 then next cookie
              else r ← libbpf_nla_dump_errormsg nh; Some (Return (s32 error), cookie)
            else if type =? NLMSG_DONE then Some (Return 0, cookie)
            else
              match fn with
              | None => next cookie
              | Some fn => '(ret, cookie) ← fn nh cookie;
                           if negb (ret =? 0) then Some (Return ret, cookie) else next cookie
              end
  end.

(** ** Callbacks *)

(** [__dump_link_nlmsg] (a body of 16 bytes, attributes up to [IFLA_MAX]) and the three
    functions for tc messages (20 bytes, [TCA_MAX]): the attributes behind the body are
    indexed and handed on with the body. *)
Definition dump_nlmsg {C} (body max : Z) (dump : C -> Z -> list (option Z) -> option (Z * C))
    (nlh : Z) (cookie : C) : option (Z * C) :=
  let t := NLMSG_DATA nlh in
  l ← nlmsg_len nlh;
  let len := s32 (l - NLMSG_LENGTH body) in
  let attr := t + NLMSG_ALIGN body in
  '(r, tb) ← libbpf_nla_parse buf max attr len None;
  if negb (r =? 0) then Some (- LIBBPF_ERRNO__NLPARSE, cookie) else dump cookie t tb.
End Receive.
Definition __dump_link_nlmsg {C} buf := @dump_nlmsg buf C sizeof_ifinfomsg IFLA_MAX.
Definition __dump_class_nlmsg {C} buf := @dump_nlmsg buf C sizeof_tcmsg TCA_MAX.
Definition __dump_qdisc_nlmsg {C} buf := @dump_nlmsg buf C sizeof_tcmsg TCA_MAX.
Definition __dump_filter_nlmsg {C} buf := @dump_nlmsg buf C sizeof_tcmsg TCA_MAX.

Record xdp_link_info := Xdp_link_info {
  prog_id : Z; drv_prog_id : Z; hw_prog_id : Z; skb_prog_id : Z; attach_mode : Z
}.
Record xdp_id_md := Xdp_id_md { md_ifindex : Z; md_flags : Z; md_info : xdp_link_info }.
Definition set_info (x : xdp_id_md) (i : xdp_link_info) : xdp_id_md := Xdp_id_md (md_ifindex x) (md_flags x) i.

(** [if (tb[k]) field = libbpf_nla_getattr_u32(tb[k])] *)
Definition attr_u32 (buf : list Z) (tb : list (option Z)) (k old : Z) : option Z :=
  match tb !! Z.to_nat k with
  | None => None
  | Some None => Some old
  | Some (Some nla) => libbpf_nla_getattr_u32 buf nla
  end.

Definition get_xdp_info (buf : list Z) (xdp_id : xdp_id_md) (ifinfo : Z) (tb : list (option Z))
    : option (Z * xdp_id_md) :=
  ifi_index ← word_of buf (ifinfo + 4);
  if negb (md_ifindex xdp_id =? 0) && negb (md_ifindex xdp_id =? s32 ifi_index) then Some (0, xdp_id)
  else
    link ← tb !! Z.to_nat IFLA_XDP;
    match link with
    | None => Some (0, xdp_id)
    | Some link =>
        '(ret, xdp_tb) ← libbpf_nla_parse_nested buf IFLA_XDP_MAX link None;
        if negb (ret =? 0) then Some (ret, xdp_id)
        else
          attached ← xdp_tb !! Z.to_nat IFLA_XDP_ATTACHED;
          match attached with
          | None => Some (0, xdp_id)
          | Some attached =>
              mode ← libbpf_nla_getattr_u8 buf attached;
              let i := md_info xdp_id in
              if mode =? XDP_ATTACHED_NONE then
                Some (0, set_info xdp_id (Xdp_link_info (prog_id i) (drv_prog_id i) (hw_prog_id i) (skb_prog_id i) mode))
              else
                id ← attr_u32 buf xdp_tb IFLA_XDP_PROG_ID (prog_id i);
                skb ← attr_u32 buf xdp_tb IFLA_XDP_SKB_PROG_ID (skb_prog_id i);
                drv ← attr_u32 buf xdp_tb IFLA_XDP_DRV_PROG_ID (drv_prog_id i);
                hw ← attr_u32 buf xdp_tb IFLA_XDP_HW_PROG_ID (hw_prog_id i);
                Some (0, set_info xdp_id (Xdp_link_info id drv hw skb mode))
          end
    end.

(** ** Requests *)

(** Stores into a zeroed request; memory is little-endian. *)
Fixpoint poke (buf : list Z) (off : nat) (bs : list Z) : list Z :=
  match bs with [] => buf | b :: bs => poke (<[off := b]> buf) (S off) bs end.
Definition word_bytes (z : Z) : list Z := [u8 z; u8 (z / 256); u8 (z / 65536); u8 (z / 16777216)].
Definition poke16 buf off z := poke buf off (half_bytes z).
Definition poke32 buf off z := poke buf off (word_bytes z).
Definition poke_hdr (buf : list Z) (len type flags seq pid : Z) : list Z :=
  poke32 (poke32 (poke16 (poke16 (poke32 buf 0 len) 4 type) 6 flags) 8 seq) 12 pid.

(** The request of [bpf_set_link_xdp_fd]: header, [struct ifinfomsg], 64 bytes of
    attributes, of which the first [nlmsg_len] bytes are sent. *)
Definition setlink_request (ifindex fd flags seq : Z) : list Z :=
  let req := replicate 96 0 in
  let nlmsg_len := NLMSG_LENGTH sizeof_ifinfomsg in
  let req := poke_hdr req nlmsg_len RTM_SETLINK (Z.lor NLM_F_REQUEST NLM_F_ACK) seq 0 in
  let req := poke req 16 [AF_UNSPEC] in
  let req := poke32 req 20 ifindex in
  let nla := Z.to_nat (NLMSG_ALIGN nlmsg_len) in
  let req := poke16 req (nla + 2) (Z.lor NLA_F_NESTED IFLA_XDP) in
  let nla_len := NLA_HDRLEN in
  let nla_xdp := (nla + Z.to_nat nla_len)%nat in
  let req := poke16 req (nla_xdp + 2) IFLA_XDP_FD in
  let req := poke16 req nla_xdp (NLA_HDRLEN + 4) in
  let req := poke32 req (nla_xdp + 4) fd in
  let nla_len := nla_len + (NLA_HDRLEN + 4) in
  let '(req, nla_len) :=
    if negb (flags =? 0) then
      let nla_xdp := (nla + Z.to_nat nla_len)%nat in
      let req := poke16 req (nla_xdp + 2) IFLA_XDP_FLAGS in
      let req := poke16 req nla_xdp (NLA_HDRLEN + 4) in
      let req := poke32 req (nla_xdp + 4) flags in
      (req, nla_len + (NLA_HDRLEN + 4))
    else (req, nla_len) in
  let req := poke16 req nla nla_len in
  let nlmsg_len := nlmsg_len + NLA_ALIGN nla_len in
  take (Z.to_nat nlmsg_len) (poke32 req 0 nlmsg_len).

(** The dump requests of [libbpf_nl_get_link] and of the functions for tc: designated
    initialisers, every other byte is zero. *)
Definition getlink_request (seq : Z) : list Z :=
  let len := NLMSG_LENGTH sizeof_ifinfomsg in
  poke (poke_hdr (replicate 32 0) len RTM_GETLINK (Z.lor NLM_F_DUMP NLM_F_REQUEST) seq 0) 16 [AF_PACKET].
Definition tc_request (type ifindex parent seq : Z) : list Z :=
  let len := NLMSG_LENGTH sizeof_tcmsg in
  let req := poke_hdr (replicate 36 0) len type (Z.lor NLM_F_DUMP NLM_F_REQUEST) seq 0 in
  poke32 (poke32 (poke req 16 [AF_UNSPEC]) 20 ifindex) 28 parent.

(** ** Sockets *)

(** The kernel: results of the socket calls, and the answers to a request.  An answer of
    recv is an error number or the bytes of a datagram. *)
Class NlKernel := {
  kst : Type;
  (** a descriptor, given the open ones *)
  nl_socket : kst -> list Z -> Z;
  nl_bind : kst -> Z -> Z;
  nl_getsockname : kst -> Z -> Z * Z * Z;
  nl_send : kst -> list Z -> Z;
  nl_handle : kst -> list Z -> list (Z + list Z) * kst;
  nl_time : kst -> Z
}.

Section Sockets.
Context `{NlKernel}.

(** The kernel, the open descriptors, the answers that wait to be received, the receive
    buffer on the stack. *)
Record nlsys := Nlsys { n_kern : kst; n_fds : list Z; n_inbox : list (Z + list Z) }.
Abbreviation N := (M nlsys).

(** socket, bind and getsockname return a negative error number where the C code
    negates [errno]. *)
Definition sys_socket : N Z := fun s =>
  let fd := nl_socket (n_kern s) (n_fds s) in
  Some (fd, if fd <? 0 then s else Nlsys (n_kern s) (fd :: n_fds s) (n_inbox s)).
Definition sys_close (fd : Z) : N unit :=
  modify (fun s => Nlsys (n_kern s) (filter (fun x => x <> fd) (n_fds s)) []).
Definition sys_send (msg : list Z) : N Z := fun s =>
  let r := nl_send (n_kern s) msg in
  if r <? 0 then Some (r, s)
  else let '(answers, k) := nl_handle (n_kern s) msg in
       Some (r, Nlsys k (n_fds s) (n_inbox s ++ answers)).

(** [inl] is the error returned, [inr] the socket and its address. *)
Definition libbpf_netlink_open : N (Z + Z * Z) :=
  let! sock := sys_socket in
  if sock <? 0 then ret (inl sock)
  else
    let! r := gets (fun s => nl_bind (n_kern s) sock) in
    if r <? 0 then sys_close sock ;;; ret (inl r)
    else
      let! (r, addrlen, nl_pid) := gets (fun s => nl_getsockname (n_kern s) sock) in
      if r <? 0 then sys_close sock ;;; ret (inl r)
      else if negb (addrlen =? sizeof_sockaddr_nl) then sys_close sock ;;; ret (inl (- LIBBPF_ERRNO__INTERNAL))
      else ret (inr (sock, nl_pid)).

(** The outer loop: one receive per iteration; with nothing to receive the call blocks,
    which is [None].  [stack] is what the buffer held before. *)
Fixpoint recv_loop {C} (inbox : list (Z + list Z)) (stack : list Z) (nl_pid seq : Z)
    (fn : list Z -> option (Z -> C -> option (Z * C))) (cookie : C) : option (Z * C * list (Z + list Z)) :=
  match inbox with
  | [] => None
  | inl errno :: inbox => Some (- errno, cookie, inbox)
  | inr dgram :: inbox =>
      let data := take BUFSIZE dgram in
      let buf := data ++ drop (length data) stack in
      if lenZ data =? 0 then Some (0, cookie, inbox)
      else
        '(w, cookie) ← recv_msgs buf (S (length data)) 0 (lenZ data) nl_pid seq (fn buf) false cookie;
        match w with
        | Return r => Some (r, cookie, inbox)
        | Finished true => recv_loop inbox buf nl_pid seq fn cookie
        | Finished false => Some (0, cookie, inbox)
        end
  end.
(** The buffer of [BUFSIZE] bytes is uninitialised: [stack] is any content. *)
Definition bpf_netlink_recv {C} (stack : list Z) (nl_pid seq : Z)
    (fn : list Z -> option (Z -> C -> option (Z * C))) (cookie : C) : N (Z * C) := fun s =>
  '(r, cookie, inbox) ← recv_loop (n_inbox s) stack nl_pid seq fn cookie;
  Some ((r, cookie), Nlsys (n_kern s) (n_fds s) inbox).

Definition bpf_set_link_xdp_fd (stack : list Z) (ifindex fd flags : Z) : N Z :=
  let! o := libbpf_netlink_open in
  match o with
  | inl err => ret err
  | inr (sock, nl_pid) =>
      let seq := 1 in
      let! r := sys_send (setlink_request ifindex fd flags seq) in
      let! r := (if r <? 0 then ret r
                 else let! (r, _) := bpf_netlink_recv stack nl_pid seq (fun _ => None) tt in ret r) in
      sys_close sock ;;;
      ret r
  end.

(** The dump functions: [seq] is the time, an int. *)
Definition nl_dump {C} (stack : list Z) (nl_pid : Z) (request : Z -> list Z)
    (fn : list Z -> Z -> C -> option (Z * C)) (cookie : C) : N (Z * C) :=
  let! seq := gets (fun s => s32 (nl_time (n_kern s))) in
  let! r := sys_send (request seq) in
  if r <? 0 then ret (r, cookie)
  else bpf_netlink_recv stack nl_pid seq (fun buf => Some (fn buf)) cookie.
Definition libbpf_nl_get_link {C} stack (nl_pid : Z) (dump : list Z -> C -> Z -> list (option Z) -> option (Z * C)) :=
  nl_dump stack nl_pid getlink_request (fun buf => __dump_link_nlmsg buf (dump buf)).
Definition libbpf_nl_get_class {C} stack (nl_pid ifindex : Z)
    (dump : list Z -> C -> Z -> list (option Z) -> option (Z * C)) :=
  nl_dump stack nl_pid (tc_request RTM_GETTCLASS ifindex 0) (fun buf => __dump_class_nlmsg buf (dump buf)).
Definition libbpf_nl_get_qdisc {C} stack (nl_pid ifindex : Z)
    (dump : list Z -> C -> Z -> list (option Z) -> option (Z * C)) :=
  nl_dump stack nl_pid (tc_request RTM_GETQDISC ifindex 0) (fun buf => __dump_qdisc_nlmsg buf (dump buf)).
Definition libbpf_nl_get_filter {C} stack (nl_pid ifindex handle : Z)
    (dump : list Z -> C -> Z -> list (option Z) -> option (Z * C)) :=
  nl_dump stack nl_pid (tc_request RTM_GETTFILTER ifindex handle) (fun buf => __dump_filter_nlmsg buf (dump buf)).

(** [info_size] is the size of the caller's structure, [inl] the error; the first
    [min(info_size, sizeof info)] bytes are copied, here as the structure itself. *)
Definition bpf_get_link_xdp_info (stack : list Z) (ifindex info_size flags : Z) : N (Z + xdp_link_info) :=
  if negb (Z.land flags (u32 (Z.lnot XDP_FLAGS_MASK)) =? 0) || (info_size =? 0) then ret (inl (- EINVAL))
  else
    let flags := Z.land flags (Z.lor (Z.lor XDP_FLAGS_SKB_MODE XDP_FLAGS_DRV_MODE) XDP_FLAGS_HW_MODE) in
    let mask := u32 (flags - 1) in
    if negb (flags =? 0) && negb (Z.land flags mask =? 0) then ret (inl (- EINVAL))
    else
      let! o := libbpf_netlink_open in
      match o with
      | inl err => ret (inl err)
      | inr (sock, nl_pid) =>
          let xdp_id := Xdp_id_md ifindex flags (Xdp_link_info 0 0 0 0 0) in
          let! (r, xdp_id) := libbpf_nl_get_link stack nl_pid get_xdp_info xdp_id in
          sys_close sock ;;;
          ret (if r =? 0 then inr (md_info xdp_id) else inl r)
      end.

Definition get_xdp_id (info : xdp_link_info) (flags : Z) : Z :=
  if negb (attach_mode info =? XDP_ATTACHED_MULTI) then prog_id info
  else if negb (Z.land flags XDP_FLAGS_DRV_MODE =? 0) then drv_prog_id info
  else if negb (Z.land flags XDP_FLAGS_HW_MODE =? 0) then hw_prog_id info
  else if negb (Z.land flags XDP_FLAGS_SKB_MODE =? 0) then skb_prog_id info
  else 0.
Definition sizeof_xdp_link_info : Z := 20.
Definition bpf_get_link_xdp_id (stack : list Z) (ifindex flags : Z) : N (Z + Z) :=
  let! r := bpf_get_link_xdp_info stack ifindex sizeof_xdp_link_info flags in
  ret (match r with inr info => inr (get_xdp_id info flags) | inl err => inl err end).
End Sockets.

(** ** Messages as data *)

Record nlmsg := Nlmsg { m_type : Z; m_flags : Z; m_seq : Z; m_pid : Z; m_body : list Z }.
Definition m_len (m : nlmsg) : Z := 16 + lenZ (m_body m).
Definition encode_msg (m : nlmsg) : list Z :=
  word_bytes (m_len m) ++ half_bytes (m_type m) ++ half_bytes (m_flags m) ++ word_bytes (m_seq m) ++
  word_bytes (m_pid m) ++ m_body m ++ pad (m_len m).
Definition encode_msgs (l : list nlmsg) : list Z := concat (map encode_msg l).
Definition msg_ok (m : nlmsg) : Prop :=
  is_u16 (m_type m) /\ is_u16 (m_flags m) /\ is_u32 (m_seq m) /\ is_u32 (m_pid m) /\ m_len m < 65536.

Lemma word_of_app pre a i z : is_u32 z -> 0 <= i ->
  (forall j, (j < 4)%nat -> a !! (Z.to_nat i + j)%nat = word_bytes z !! j) ->
  word_of (pre ++ a) (lenZ pre + i) = Some z.
Proof.
  intros Hz Hi Hb. unfold word_of.
  rewrite (half_of_app pre a i (u16 z)), <- Z.add_assoc, (half_of_app pre a (i + 2) (z / 65536)).
  - cbn [mbind option_bind]. f_equal. int_solve.
  - int_solve.
  - lia.
  - replace (Z.to_nat (i + 2)) with (Z.to_nat i + 2)%nat by lia. rewrite Hb by lia. simpl. f_equal.
  - replace (Z.to_nat (i + 2 + 1)) with (Z.to_nat i + 3)%nat by lia. rewrite Hb by lia. simpl. f_equal. int_solve.
  - apply u16_range.
  - done.
  - rewrite <- (Nat.add_0_r (Z.to_nat i)), Hb by lia. simpl. f_equal. int_solve.
  - replace (Z.to_nat (i + 1)) with (Z.to_nat i + 1)%nat by lia. rewrite Hb by lia. simpl. f_equal. int_solve.
Qed.
Lemma nlmsg_align_eq n : 0 <= n < 4294967292 -> NLMSG_ALIGN n = NLA_ALIGN n.
Proof. intros. unfold NLMSG_ALIGN. fold (NLA_ALIGN n). pose proof (align_bounds n). apply u32_small. int_solve. Qed.
Lemma encode_msg_len m : lenZ (encode_msg m) = NLA_ALIGN (m_len m).
Proof.
  unfold encode_msg, pad, word_bytes, half_bytes. rewrite !length_app, length_replicate. cbn [length].
  pose proof (align_bounds (m_len m)). unfold m_len in *. lia.
Qed.

(** The message at the front of a stream. *)
Section FrontMsg.
Context (pre : list Z) (m : nlmsg) (rest : list Z) (Hm : msg_ok m).
Let buf := pre ++ encode_msg m ++ rest.
Let nh := lenZ pre.

Lemma msg_len_front : nlmsg_len buf nh = Some (m_len m).
Proof using Hm.
  unfold nlmsg_len, nh, buf. rewrite <- (Z.add_0_r (lenZ pre)). apply word_of_app; [|lia|].
  - destruct Hm as (_ & _ & _ & _ & H). unfold m_len in *. int_solve.
  - intros [|[|[|[|]]]] Hj; (done || lia).
Qed.
Lemma msg_type_front : nlmsg_type buf nh = Some (m_type m).
Proof using Hm. destruct Hm as (H & _). apply half_of_app; (done || lia). Qed.
Lemma msg_flags_front : nlmsg_flags buf nh = Some (m_flags m).
Proof using Hm. destruct Hm as (_ & H & _). apply half_of_app; (done || lia). Qed.
Lemma msg_seq_front : nlmsg_seq buf nh = Some (m_seq m).
Proof using Hm. destruct Hm as (_ & _ & H & _). apply word_of_app; [done|lia|]. intros [|[|[|[|]]]] Hj; (done || lia). Qed.
Lemma msg_pid_front : nlmsg_pid buf nh = Some (m_pid m).
Proof using Hm. destruct Hm as (_ & _ & _ & H & _). apply word_of_app; [done|lia|]. intros [|[|[|[|]]]] Hj; (done || lia). Qed.
Lemma msg_ok_front len : NLA_ALIGN (m_len m) <= len -> NLMSG_OK buf nh len = Some true.
Proof using Hm.
  intros Hl. pose proof (align_bounds (m_len m)). unfold NLMSG_OK, sizeof_nlmsghdr.
  assert (16 <= m_len m) by (unfold m_len; lia).
  rewrite (proj2 (Z.geb_le _ _)) by lia. rewrite msg_len_front. cbn [mbind option_bind]. f_equal.
  apply andb_true_intro. split; [apply Z.geb_le|apply Z.leb_le]; lia.
Qed.
End FrontMsg.

(** The walk over messages, with a callback on messages. *)
Fixpoint refwalk {C} (l : list nlmsg) (nl_pid seq : Z) (fn : option (nlmsg -> C -> Z * C))
    (multipart : bool) (c : C) : walk * C :=
  match l with
  | [] => (Finished multipart, c)
  | m :: l =>
      if negb (m_pid m =? nl_pid) then (Return (- LIBBPF_ERRNO__WRNGPID), c)
      else if negb (m_seq m =? u32 seq) then (Return (- LIBBPF_ERRNO__INVSEQ), c)
      else
        let multipart := if negb (Z.land (m_flags m) NLM_F_MULTI =? 0) then true else multipart in
        if m_type m =? NLMSG_ERROR then
          match word_of (m_body m) 0 with
          | None => (Finished multipart, c)
          | Some e => if e =? 0 then refwalk l nl_pid seq fn multipart c else (Return (s32 e), c)
          end
        else if m_type m =? NLMSG_DONE then (Return 0, c)
        else match fn with
             | None => refwalk l nl_pid seq fn multipart c
             | Some f => let '(r, c) := f m c in
                         if negb (r =? 0) then (Return r, c) else refwalk l nl_pid seq fn multipart c
             end
  end.

(** The message [m] lies at position [p] of the buffer. *)
Definition msg_at (buf : list Z) (p : Z) (m : nlmsg) : Prop :=
  exists pre rest, buf = pre ++ encode_msg m ++ rest /\ p = lenZ pre.

(** What the walk needs of the messages of a stream that starts at [p]: an error message
    has its code and its text can be dumped; the callback on positions agrees with the
    callback on messages. *)
Definition walkable {C} (buf : list Z) (fn : option (Z -> C -> option (Z * C)))
    (fm : option (nlmsg -> C -> Z * C)) (p : Z) (m : nlmsg) : Prop :=
  msg_ok m /\
  (m_type m = NLMSG_ERROR -> 4 <= lenZ (m_body m) /\
     (word_of (m_body m) 0 <> Some 0 -> exists r, libbpf_nla_dump_errormsg buf p = Some r)) /\
  match fn, fm with
  | None, None => True
  | Some fn, Some fm => m_type m <> NLMSG_ERROR -> m_type m <> NLMSG_DONE ->
      forall c, fn p c = Some (fm m c)
  | _, _ => False
  end.
Fixpoint all_walkable {C} buf fn fm (p : Z) (l : list nlmsg) : Prop :=
  match l with
  | [] => True
  | m :: l => @walkable C buf fn fm p m /\ all_walkable buf fn fm (p + lenZ (encode_msg m)) l
  end.

Lemma half_of_skip pre l p : 0 <= p -> half_of (pre ++ l) (lenZ pre + p) = half_of l p.
Proof.
  intros Hp. unfold half_of, byte_of. rewrite <- Z.add_assoc.
  rewrite !(proj2 (Z.leb_le 0 _)) by lia.
  rewrite !lookup_app_r by lia.
  by replace (Z.to_nat (lenZ pre + p) - length pre)%nat with (Z.to_nat p) by lia;
    replace (Z.to_nat (lenZ pre + (p + 1)) - length pre)%nat with (Z.to_nat (p + 1)) by lia.
Qed.
Lemma half_of_prefix l l' p h : half_of l p = Some h -> half_of (l ++ l') p = Some h.
Proof.
  unfold half_of, byte_of. destruct (0 <=? p), (0 <=? p + 1); simpl; try done.
  - destruct (l !! Z.to_nat p) eqn:E1, (l !! Z.to_nat (p + 1)) eqn:E2; simpl; try done.
    intros [= <-]. by rewrite (lookup_app_l_Some _ _ _ _ E1), (lookup_app_l_Some _ _ _ _ E2).
  - destruct (l !! Z.to_nat p); done.
Qed.
Lemma word_of_body pre m rest i w : 0 <= i -> word_of (m_body m) i = Some w ->
  word_of (pre ++ encode_msg m ++ rest) (lenZ pre + 16 + i) = Some w.
Proof.
  intros Hi Hw. unfold encode_msg.
  set (h := word_bytes (m_len m) ++ half_bytes (m_type m) ++ half_bytes (m_flags m) ++ word_bytes (m_seq m) ++
            word_bytes (m_pid m)).
  replace (pre ++ _ ++ rest) with ((pre ++ h) ++ m_body m ++ (pad (m_len m) ++ rest))
    by (unfold h; by rewrite <- !app_assoc).
  replace (lenZ pre + 16) with (lenZ (pre ++ h)) by (rewrite length_app; simpl; lia).
  unfold word_of in *. rewrite <- Z.add_assoc, !half_of_skip by lia.
  destruct (half_of (m_body m) i) as [x|] eqn:Ex; [|done]. destruct (half_of (m_body m) (i + 2)) as [y|] eqn:Ey; [|done].
  by rewrite (half_of_prefix _ _ _ _ Ex), (half_of_prefix _ _ _ _ Ey).
Qed.

Lemma recv_msgs_refwalk {C} nl_pid seq fn fm rest (l : list nlmsg) : forall pre fuel mp (c : C),
  all_walkable (pre ++ encode_msgs l ++ rest) fn fm (lenZ pre) l ->
  (length l < fuel)%nat -> lenZ (encode_msgs l) < 2147483648 ->
  recv_msgs (pre ++ encode_msgs l ++ rest) fuel (lenZ pre) (lenZ (encode_msgs l)) nl_pid seq fn mp c
  = Some (refwalk l nl_pid seq fm mp c).
Proof.
  induction l as [|m l IH]; intros pre fuel mp c Hl Hf Hs; (destruct fuel as [|fuel]; [simpl in Hf; lia|]); [done|].
  destruct Hl as [(Hm & Herr & Hfn) Hl].
  change (encode_msgs (m :: l)) with (encode_msg m ++ encode_msgs l) in *.
  rewrite <- (app_assoc (encode_msg m)) in *. rewrite length_app in *.
  pose proof (align_bounds (m_len m)). pose proof (encode_msg_len m).
  set (buf := pre ++ encode_msg m ++ encode_msgs l ++ rest) in *.
  assert (0 <= m_len m < 65536) by (destruct Hm as (_ & _ & _ & _ & ?); unfold m_len in *; lia).
  assert (Hnext : forall mp c, recv_msgs buf fuel (lenZ pre + NLMSG_ALIGN (m_len m))
     (s32 (Z.of_nat (length (encode_msg m) + length (encode_msgs l)) - NLMSG_ALIGN (m_len m))) nl_pid seq fn mp c
     = Some (refwalk l nl_pid seq fm mp c)).
  { intros mp' c'. rewrite nlmsg_align_eq, s32_small by lia.
    replace (lenZ pre + NLA_ALIGN (m_len m)) with (lenZ (pre ++ encode_msg m)) by (rewrite length_app; lia).
    replace (Z.of_nat (length (encode_msg m) + length (encode_msgs l)) - NLA_ALIGN (m_len m))
      with (lenZ (encode_msgs l)) by lia.
    unfold buf. rewrite app_assoc. apply IH; [|simpl in Hf; lia|lia].
    by rewrite <- app_assoc, length_app, Nat2Z.inj_add. }
  pose proof (msg_pid_front pre m (encode_msgs l ++ rest) Hm : nlmsg_pid buf _ = _) as Hpid.
  pose proof (msg_seq_front pre m (encode_msgs l ++ rest) Hm : nlmsg_seq buf _ = _) as Hseq.
  pose proof (msg_flags_front pre m (encode_msgs l ++ rest) Hm : nlmsg_flags buf _ = _) as Hflags.
  pose proof (msg_len_front pre m (encode_msgs l ++ rest) Hm : nlmsg_len buf _ = _) as Hlen.
  pose proof (msg_type_front pre m (encode_msgs l ++ rest) Hm : nlmsg_type buf _ = _) as Htype.
  assert (Hok : NLMSG_OK buf (lenZ pre) (Z.of_nat (length (encode_msg m) + length (encode_msgs l))) = Some true)
    by (apply msg_ok_front; (done || lia)).
  assert (Hbody : forall e, word_of (m_body m) 0 = Some e -> word_of buf (lenZ pre + 16) = Some e).
  { intros e Ew. rewrite <- (Z.add_0_r (lenZ pre + 16)). by apply word_of_body. }
  clearbody buf. cbn [recv_msgs refwalk]. rewrite Hok.
  cbn [mbind option_bind negb]. rewrite Hpid. cbn [mbind option_bind].
  destruct (negb (m_pid m =? nl_pid)); [done|].
  rewrite Hseq. cbn [mbind option_bind].
  destruct (negb (m_seq m =? u32 seq)); [done|].
  rewrite Hflags. cbn [mbind option_bind].
  rewrite Hlen. cbn [mbind option_bind].
  rewrite Htype. cbn [mbind option_bind].
  destruct (Z.eqb_spec (m_type m) NLMSG_ERROR) as [E|E].
  - destruct (Herr E) as [Hb Hd]. destruct (word_of (m_body m) 0) as [e|] eqn:Ew.
    + unfold NLMSG_DATA. rewrite (Hbody _ eq_refl). cbn [mbind option_bind].
      destruct (Z.eqb_spec e 0); [apply Hnext|]. destruct (Hd ltac:(congruence)) as [r ->]. done.
    + exfalso. clear -Ew Hb. destruct (m_body m) as [|? [|? [|? [|]]]]; simpl in Hb; try lia. done.
  - destruct (Z.eqb_spec (m_type m) NLMSG_DONE) as [Ed|Ed]; [done|].
    destruct fn as [fn|], fm as [fm|]; try done.
    rewrite (Hfn E Ed c). cbn [mbind option_bind]. destruct (fm m c) as [r c']. by destruct (negb (r =? 0)).
Qed.

(** ** The kernel's view *)

(** How the kernel reads an RTM_SETLINK request: sequence number, interface, descriptor,
    flags. *)
Definition decode_setlink (req : list Z) : option (Z * Z * Z * Z) :=
  l ← word_of req 0; type ← half_of req 4; flags ← half_of req 6; seq ← word_of req 8; idx ← word_of req 20;
  if (l =? lenZ req) && (type =? RTM_SETLINK) && (flags =? Z.lor NLM_F_REQUEST NLM_F_ACK) then
    '(_, tb) ← libbpf_nla_parse req IFLA_MAX 32 (l - 32) None;
    xdp ← mjoin (tb !! Z.to_nat IFLA_XDP);
    '(_, xtb) ← libbpf_nla_parse_nested req IFLA_XDP_MAX xdp None;
    fdp ← mjoin (xtb !! Z.to_nat IFLA_XDP_FD);
    fd ← libbpf_nla_getattr_u32 req fdp;
    fl ← match mjoin (xtb !! Z.to_nat IFLA_XDP_FLAGS) with
         | Some p => libbpf_nla_getattr_u32 req p
         | None => Some 0
         end;
    Some (seq, s32 idx, s32 fd, fl)
  else None.
Definition decode_getlink (req : list Z) : option Z :=
  l ← word_of req 0; type ← half_of req 4; flags ← half_of req 6; seq ← word_of req 8;
  if (l =? lenZ req) && (type =? RTM_GETLINK) && (flags =? Z.lor NLM_F_DUMP NLM_F_REQUEST) then Some seq else None.

(** An acknowledgement: the code, the request (only its header when the code is 0), and
    the attributes of the extended error. *)
Definition ack (pid seq e : Z) (req : list Z) (ext : list attr) : nlmsg :=
  Nlmsg NLMSG_ERROR (Z.lor (if e =? 0 then NLM_F_CAPPED else 0) (match ext with [] => 0 | _ => NLM_F_ACK_TLVS end))
    seq pid (word_bytes e ++ (if e =? 0 then take 16 req else req) ++ encode ext).

(** A device of a dump: the bytes of its [struct ifinfomsg] around the index, attributes
    before and behind the XDP attribute, and the attributes nested in that. *)
Record link := Link {
  l_index : Z; l_head : list Z; l_tail : list Z;
  l_before : list attr; l_xdp : option (list attr); l_behind : list attr
}.
Definition l_attrs (l : link) : list attr :=
  l_before l ++ match l_xdp l with Some xs => [Attr IFLA_XDP (encode xs)] | None => [] end ++ l_behind l.
Definition RTM_NEWLINK : Z := 16.
Definition newlink (pid seq : Z) (l : link) : nlmsg :=
  Nlmsg RTM_NEWLINK NLM_F_MULTI seq pid (l_head l ++ word_bytes (l_index l) ++ l_tail l ++ encode (l_attrs l)).
Definition dump_done (pid seq : Z) : nlmsg := Nlmsg NLMSG_DONE NLM_F_MULTI seq pid (word_bytes 0).
Definition attrs_ok (l : list attr) : Prop := Forall attr_ok l.
Definition link_ok (l : link) : Prop :=
  -2147483648 <= l_index l < 2147483648 /\ length (l_head l) = 4%nat /\ length (l_tail l) = 8%nat /\
  attrs_ok (l_attrs l) /\ Forall (fun a => kind_of a <> IFLA_XDP) (l_before l ++ l_behind l) /\
  match l_xdp l with
  | Some xs => attrs_ok xs /\
      Forall (fun a => kind_of a = IFLA_XDP_ATTACHED -> 1 <= lenZ (at_data a)) xs /\
      Forall (fun a => IFLA_XDP_PROG_ID <= kind_of a <= IFLA_XDP_HW_PROG_ID -> 4 <= lenZ (at_data a)) xs
  | None => True
  end.

Class LinkKernel `{NlKernel} := {
  port : kst -> Z;
  attach : kst -> Z -> Z -> Z -> Z * kst;
  links : kst -> list link
}.
(** rtnetlink(7): an acknowledged request is answered with its error code, which is 0 or a
    negative error number; a dump with the devices in multipart messages that end with
    NLMSG_DONE. *)
Class LinkKernelOk `{LK : LinkKernel} : Prop := {
  socket_fresh k F : nl_socket k F ∉ F;
  getsockname_port k fd : let '(r, len, pid) := nl_getsockname k fd in 0 <= r -> len = sizeof_sockaddr_nl /\ pid = port k;
  port_range k : is_u32 (port k);
  attach_code k i fd fl : -4096 < fst (attach k i fd fl) <= 0;
  setlink_answer k req seq i fd fl :
    decode_setlink req = Some (seq, i, fd, fl) ->
    exists ext, attrs_ok ext /\ lenZ (encode ext) <= 1024 /\
      nl_handle k req = ([inr (encode_msg (ack (port k) seq (fst (attach k i fd fl)) req ext))], snd (attach k i fd fl));
  links_ok k : Forall link_ok (links k);
  getlink_answer k req seq :
    decode_getlink req = Some seq ->
    exists parts, nl_handle k req = (map (fun p => inr (encode_msgs p)) parts, k) /\
      concat parts = map (newlink (port k) seq) (links k) ++ [dump_done (port k) seq] /\
      Forall (fun p => p <> [] /\ (length (encode_msgs p) <= BUFSIZE)%nat) parts
}.

(** The request says what the arguments say. *)
Lemma word_bytes_u32 z : is_u32 z ->
  u8 z + 256 * u8 (z / 256) + 65536 * (u8 (z / 65536) + 256 * u8 (z / 16777216)) = z.
Proof. intros. int_solve. Qed.
Lemma word_bytes_s32 z : -2147483648 <= z < 2147483648 ->
  s32 (u8 z + 256 * u8 (z / 256) + 65536 * (u8 (z / 65536) + 256 * u8 (z / 16777216))) = z.
Proof. intros. int_solve. Qed.

Lemma decode_setlink_request ifindex fd flags :
  -2147483648 <= ifindex < 2147483648 -> -2147483648 <= fd < 2147483648 -> is_u32 flags ->
  decode_setlink (setlink_request ifindex fd flags 1) = Some (1, ifindex, fd, flags).
Proof.
  intros Hi Hf Hfl.
  pose proof (word_bytes_s32 _ Hi) as Ei. pose proof (word_bytes_s32 _ Hf) as Ef. pose proof (word_bytes_u32 _ Hfl) as Efl.
  unfold setlink_request, poke32, word_bytes.
  revert Ei Ef Efl.
  generalize (u8 ifindex) (u8 (ifindex / 256)) (u8 (ifindex / 65536)) (u8 (ifindex / 16777216)).
  generalize (u8 fd) (u8 (fd / 256)) (u8 (fd / 65536)) (u8 (fd / 16777216)).
  generalize (u8 flags) (u8 (flags / 256)) (u8 (flags / 65536)) (u8 (flags / 16777216)).
  intros f0 f1 f2 f3 d0 d1 d2 d3 i0 i1 i2 i3 Ei Ef Efl.
  destruct (Z.eqb_spec flags 0) as [->|Hn].
  - transitivity (Some (1, s32 (i0 + 256 * i1 + 65536 * (i2 + 256 * i3)), s32 (d0 + 256 * d1 + 65536 * (d2 + 256 * d3)), 0));
      [reflexivity|by rewrite Ei, Ef].
  - transitivity (Some (1, s32 (i0 + 256 * i1 + 65536 * (i2 + 256 * i3)), s32 (d0 + 256 * d1 + 65536 * (d2 + 256 * d3)),
      f0 + 256 * f1 + 65536 * (f2 + 256 * f3))); [reflexivity|by rewrite Ei, Ef, Efl].
Qed.

Lemma setlink_request_len ifindex fd flags :
  lenZ (setlink_request ifindex fd flags 1) = if flags =? 0 then 44 else 52.
Proof. unfold setlink_request. by destruct (flags =? 0). Qed.
Lemma setlink_request_word ifindex fd flags :
  word_of (setlink_request ifindex fd flags 1) 0 = Some (lenZ (setlink_request ifindex fd flags 1)).
Proof. unfold setlink_request. by destruct (flags =? 0). Qed.
Lemma half_bytes_u8 z : Forall is_u8 (half_bytes z).
Proof. repeat constructor; apply u8_range. Qed.
Lemma word_bytes_u8 z : Forall is_u8 (word_bytes z).
Proof. repeat constructor; apply u8_range. Qed.
Lemma pad_u8 n : Forall is_u8 (pad n).
Proof. apply Forall_replicate. int_solve. Qed.
Lemma encode_u8 l : attrs_ok l -> Forall is_u8 (encode l).
Proof.
  induction 1 as [|a l (_ & _ & Ha) _ IH]; [constructor|]. change (encode (a :: l)) with (encode_attr a ++ encode l).
  unfold encode_attr. repeat apply Forall_app_2; auto using half_bytes_u8, pad_u8.
Qed.
Lemma encode_mod l : lenZ (encode l) mod 4 = 0.
Proof.
  induction l as [|a l IH]; [done|]. change (encode (a :: l)) with (encode_attr a ++ encode l).
  rewrite length_app. pose proof (encode_attr_len a). pose proof (align_bounds (at_len a)).
  Z.div_mod_to_equations. lia.
Qed.
Lemma poke_u8 bs : forall off buf, Forall is_u8 buf -> Forall is_u8 bs -> Forall is_u8 (poke buf off bs).
Proof.
  induction bs as [|b bs IH]; intros off buf Hbuf Hbs; [done|]. apply Forall_cons_1 in Hbs as [Hb Hbs].
  apply IH; [by apply Forall_insert|done].
Qed.
Lemma setlink_request_u8 ifindex fd flags : Forall is_u8 (setlink_request ifindex fd flags 1).
Proof.
  unfold setlink_request, poke_hdr, poke16, poke32. destruct (flags =? 0); cbn [negb];
    apply Forall_take; repeat (apply poke_u8; [|auto using half_bytes_u8, word_bytes_u8]);
    try (apply Forall_replicate; int_solve); (apply List.Forall_cons; [unfold AF_UNSPEC; int_solve|apply List.Forall_nil]).
Qed.

Lemma msg_at_len buf p m : msg_at buf p m -> 0 <= p /\ p + lenZ (encode_msg m) <= lenZ buf.
Proof. intros (pre & rest & -> & ->). rewrite !length_app. lia. Qed.

(** Dumping the text of an error looks 16 bytes too far: the length of the attributes is
    computed from the start of the message but they are counted from its payload.  It
    stays in the buffer when the message leaves that much room. *)
Lemma ack_dump buf p pid seq e req ext :
  Forall is_u8 buf -> e <> 0 -> msg_ok (ack pid seq e req ext) -> attrs_ok ext ->
  word_of req 0 = Some (lenZ req) -> 16 <= lenZ req < 65536 -> lenZ req mod 4 = 0 ->
  msg_at buf p (ack pid seq e req ext) -> p + m_len (ack pid seq e req ext) + 16 <= lenZ buf ->
  exists r, libbpf_nla_dump_errormsg buf p = Some r.
Proof.
  intros Hu He Hok Hext Hw Hlen Hmod Hat Hroom. pose proof (msg_at_len _ _ _ Hat) as [Hp _].
  destruct Hat as (pre & rest & Hbuf & ->).
  assert (Hreq : word_of (m_body (ack pid seq e req ext)) 4 = Some (lenZ req)).
  { unfold ack. cbn [m_body]. rewrite (proj2 (Z.eqb_neq e 0)) by done.
    unfold word_of in *. change 4 with (lenZ (word_bytes e) + 0). rewrite <- Z.add_assoc, !half_of_skip by lia.
    destruct (half_of req 0) eqn:E0; [|done]. destruct (half_of req (0 + 2)) eqn:E2; [|done].
    by rewrite (half_of_prefix _ _ _ _ E0), (half_of_prefix _ _ _ _ E2). }
  assert (Hflags : nlmsg_flags buf (lenZ pre) = Some (m_flags (ack pid seq e req ext)))
    by (rewrite Hbuf; by apply msg_flags_front).
  assert (Hl : nlmsg_len buf (lenZ pre) = Some (m_len (ack pid seq e req ext)))
    by (rewrite Hbuf; by apply msg_len_front).
  assert (Hinner : nlmsg_len buf (NLMSG_DATA (lenZ pre) + 4) = Some (lenZ req))
    by (rewrite Hbuf; apply word_of_body; [lia|done]).
  assert (Hfl : (Z.land (m_flags (ack pid seq e req ext)) NLM_F_CAPPED =? 0) = true).
  { unfold ack. cbn [m_flags]. rewrite (proj2 (Z.eqb_neq e 0)) by done. by destruct ext. }
  unfold libbpf_nla_dump_errormsg. rewrite Hflags. cbn [mbind option_bind].
  destruct (Z.land _ NLM_F_ACK_TLVS =? 0); [eauto|]. rewrite Hfl, Hinner. cbn [mbind option_bind].
  rewrite Hl. cbn [mbind option_bind]. unfold NLMSG_DATA.
  assert (Hml : m_len (ack pid seq e req ext) = 20 + lenZ req + lenZ (encode ext)).
  { unfold m_len, ack. cbn [m_body]. rewrite (proj2 (Z.eqb_neq e 0)), !length_app by done. simpl. lia. }
  destruct Hok as (_ & _ & _ & _ & Hlt). unfold sizeof_nlmsgerr. rewrite !s32_small by lia. pose proof (encode_mod ext).
  destruct (nla_parse_any buf Hu NLMSGERR_ATTR_MAX (lenZ pre + 16 + (20 + (lenZ req - 16)))
    (m_len (ack pid seq e req ext) - (20 + (lenZ req - 16))) (Some extack_policy)) as (r & tb & -> & _).
  - split; [by vm_compute|]. repeat (apply List.Forall_cons; [by vm_compute|]). apply List.Forall_nil.
  - lia.
  - lia.
  - rewrite Hml. Z.div_mod_to_equations. lia.
  - lia.
  - simpl. eauto.
Qed.

Section Links.
Context `{LO : LinkKernelOk}.

(** The socket calls of an exchange succeed. *)
Definition can_open (k : kst) (F : list Z) : Prop :=
  0 <= nl_socket k F /\ 0 <= nl_bind k (nl_socket k F) /\ 0 <= fst (fst (nl_getsockname k (nl_socket k F))).
Definition can_talk (s : nlsys) (req : list Z) : Prop := can_open (n_kern s) (n_fds s) /\ 0 <= nl_send (n_kern s) req.

(** A process with no exchange under way: nothing waits. *)
Definition quiet (s : nlsys) : Prop := n_inbox s = [].

Lemma wp_sys_close k fd F I (Q : unit -> nlsys -> Prop) :
  fd ∉ F -> Q tt (Nlsys k F []) -> wp (sys_close fd) Q (Nlsys k (fd :: F) I).
Proof. intros Hfd HQ. unfold sys_close. apply wp_modify. cbn [n_kern n_fds]. by rewrite filter_cons_fresh. Qed.

Lemma wp_netlink_open s (Q : Z + Z * Z -> nlsys -> Prop) :
  quiet s ->
  (forall e, e < 0 -> ~ can_open (n_kern s) (n_fds s) -> Q (inl e) s) ->
  (can_open (n_kern s) (n_fds s) -> Q (inr (nl_socket (n_kern s) (n_fds s), port (n_kern s)))
     (Nlsys (n_kern s) (nl_socket (n_kern s) (n_fds s) :: n_fds s) [])) ->
  wp libbpf_netlink_open Q s.
Proof using LO.
  destruct s as [k F I]. intros Hin HE HO. unfold quiet in Hin. simpl in *. subst I. unfold can_open in *. pose proof (socket_fresh k F) as Hfresh.
  unfold libbpf_netlink_open. wp_step. unfold sys_socket, wp at 1. cbn [n_kern n_fds n_inbox].
  wp_step; bool_prop.
  { wp_step. rewrite (proj2 (Z.ltb_lt _ _)) by done. apply HE; lia. }
  rewrite (proj2 (Z.ltb_ge _ _)) by done.
  assert (Hclose : forall e, e < 0 -> ~ (0 <= nl_socket k F /\ 0 <= nl_bind k (nl_socket k F) /\ 0 <= fst (fst (nl_getsockname k (nl_socket k F)))) ->
    wp (sys_close (nl_socket k F) ;;; ret (inl e)) Q (Nlsys k (nl_socket k F :: F) [])).
  { intros e He Hn. wp_step. apply wp_sys_close; [done|]. wp_step. by apply HE. }
  wp_step. wp_step. cbn [n_kern]. wp_step; bool_prop; [apply Hclose; lia|].
  wp_step. wp_step. cbn [n_kern]. pose proof (getsockname_port k (nl_socket k F)) as Hgs.
  destruct (nl_getsockname k (nl_socket k F)) as [[r len] pid]. simpl in *.
  wp_step; bool_prop; [apply Hclose; lia|]. destruct Hgs as [-> ->]; [done|].
  rewrite Z.eqb_refl. cbn [negb]. wp_step. apply HO. lia.
Qed.

(** One datagram that fits the buffer. *)
Lemma recv_one {C} dgram inbox stack nl_pid seq (fn : list Z -> option (Z -> C -> option (Z * C))) fm l (c : C)
    (buf := encode_msgs l ++ drop (length (encode_msgs l)) stack) :
  dgram = encode_msgs l -> l <> [] -> (length (encode_msgs l) <= BUFSIZE)%nat ->
  all_walkable buf (fn buf) fm 0 l ->
  recv_loop (inr dgram :: inbox) stack nl_pid seq fn c =
    match refwalk l nl_pid seq fm false c with
    | (Return r, c) => Some (r, c, inbox)
    | (Finished true, c) => recv_loop inbox buf nl_pid seq fn c
    | (Finished false, c) => Some (0, c, inbox)
    end.
Proof.
  intros -> Hne Hlen Hw. cbn [recv_loop]. rewrite !take_ge by done. fold buf.
  assert (Hpos : (length l <= length (encode_msgs l))%nat).
  { clear. induction l as [|m l IH]; [done|]. change (encode_msgs (m :: l)) with (encode_msg m ++ encode_msgs l).
    rewrite length_app. pose proof (encode_msg_len m). pose proof (align_bounds (m_len m)). unfold m_len in *. simpl. lia. }
  unfold BUFSIZE in Hlen. destruct l as [|m l']; [done|].
  rewrite (proj2 (Z.eqb_neq _ _)) by (cbn [length] in Hpos; lia).
  pose proof (recv_msgs_refwalk nl_pid seq (fn buf) fm (drop (length (encode_msgs (m :: l'))) stack) (m :: l') []
    (S (length (encode_msgs (m :: l')))) false c Hw ltac:(lia) ltac:(lia)) as Hr.
  change (recv_msgs buf (S (length (encode_msgs (m :: l')))) 0
    (lenZ (encode_msgs (m :: l'))) nl_pid seq (fn buf) false c = Some (refwalk (m :: l') nl_pid seq fm false c)) in Hr. rewrite Hr.
  cbn [mbind option_bind]. by destruct (refwalk _ _ _ _ _ _) as [[]].
Qed.
Lemma drop_buffer (l stack : list Z) : length stack = BUFSIZE -> (length l <= BUFSIZE)%nat ->
  length (l ++ drop (length l) stack) = BUFSIZE.
Proof. intros. rewrite length_app, length_drop. lia. Qed.

Lemma refwalk_ack pid e req ext : -4096 < e <= 0 ->
  refwalk [ack pid 1 e req ext] pid 1 None false tt = (if e =? 0 then Finished false else Return e, tt).
Proof.
  intros He. cbn [refwalk].
  change (m_pid (ack pid 1 e req ext)) with pid. rewrite Z.eqb_refl. cbn [negb].
  assert (word_of (m_body (ack pid 1 e req ext)) 0 = Some (u32 e)) as Hw.
  { change 0 with (lenZ (@nil Z) + 0). apply (word_of_app [] _ 0); [apply u32_range|lia|].
    intros [|[|[|[|]]]] Hj; [..|lia]; simpl; f_equal; int_solve. }
  change (m_seq (ack pid 1 e req ext) =? u32 1) with true. cbn [negb].
  change (m_type (ack pid 1 e req ext) =? NLMSG_ERROR) with true. cbn [negb]. cbv iota. rewrite Hw.
  replace (Z.land (m_flags (ack pid 1 e req ext)) NLM_F_MULTI) with 0
    by (unfold ack; cbn [m_flags]; by destruct (e =? 0), ext).
  destruct (Z.eqb_spec e 0) as [->|Hne]; [done|].
  rewrite (proj2 (Z.eqb_neq (u32 e) 0)) by int_solve. do 2 f_equal. int_solve.
Qed.

Lemma ack_msg_ok k seq e ifindex fd flags ext (req := setlink_request ifindex fd flags 1) :
  is_u32 seq -> lenZ (encode ext) <= 1024 -> msg_ok (ack (port k) seq e req ext) /\
  m_len (ack (port k) seq e req ext) <= 1096.
Proof using LO.
  intros Hs Hext. pose proof (setlink_request_len ifindex fd flags) as Hl. fold req in Hl.
  assert (Hm : m_len (ack (port k) seq e req ext) <= 1096).
  { unfold m_len, ack. cbn [m_body]. rewrite !length_app. change (length (word_bytes e)) with 4%nat.
    destruct (e =? 0), (flags =? 0); rewrite ?length_take; lia. }
  split; [|done]. split; [by vm_compute|]. split; [|split; [done|split; [apply port_range|lia]]].
  unfold ack. cbn [m_flags]. by destruct (e =? 0), ext.
Qed.

Lemma ack_u8 pid seq e ifindex fd flags ext : attrs_ok ext ->
  Forall is_u8 (encode_msg (ack pid seq e (setlink_request ifindex fd flags 1) ext)).
Proof.
  intros Hext. unfold encode_msg, ack. cbn [m_body].
  repeat apply Forall_app_2; auto using half_bytes_u8, word_bytes_u8, pad_u8, encode_u8.
  destruct (e =? 0); [apply Forall_take|]; apply setlink_request_u8.
Qed.
Lemma set_link_spec s stack ifindex fd flags (req := setlink_request ifindex fd flags 1) :
  -2147483648 <= ifindex < 2147483648 -> -2147483648 <= fd < 2147483648 -> is_u32 flags ->
  length stack = BUFSIZE -> Forall is_u8 stack -> quiet s ->
  wp (bpf_set_link_xdp_fd stack ifindex fd flags) (fun r s' =>
    (can_talk s req -> (r, n_kern s') = attach (n_kern s) ifindex fd flags) /\
    (~ can_talk s req -> r < 0 /\ n_kern s' = n_kern s) /\
    n_fds s' = n_fds s /\ n_inbox s' = []) s.
Proof using LO.
  intros Hi Hf Hfl Hst Hu Hq. pose proof (Hq : n_inbox s = []) as Hin. pose proof (socket_fresh (n_kern s) (n_fds s)) as Hfresh. unfold can_talk.
  unfold bpf_set_link_xdp_fd. wp_step. apply wp_netlink_open; [done|intros e He Hn|intros Hopen].
  { wp_step. split_and!; (tauto || done). }
  fold req. wp_step. unfold sys_send, wp at 1. cbn [n_kern n_fds n_inbox].
  destruct (Z.ltb_spec (nl_send (n_kern s) req) 0) as [Hsend|Hsend].
  { wp_steps; bool_prop; [|lia]. apply wp_sys_close; [done|]. wp_step. split_and!; (lia || done). }
  destruct (setlink_answer (n_kern s) req 1 ifindex fd flags) as (ext & Hext & Hlen & ->);
    [by apply decode_setlink_request|].
  pose proof (attach_code (n_kern s) ifindex fd flags) as Hc.
  destruct (attach (n_kern s) ifindex fd flags) as [e k'] eqn:Eat. cbn [fst snd] in *.
  rewrite (proj2 (Z.ltb_ge _ _)) by lia. set (m := ack (port (n_kern s)) 1 e req ext).
  destruct (ack_msg_ok (n_kern s) 1 e ifindex fd flags ext ltac:(int_solve) Hlen) as [Hok Hml]. fold req m in Hok, Hml.
  assert (Hrecv : recv_loop [inr (encode_msg m)] stack (port (n_kern s)) 1 (fun _ => None) tt = Some (e, tt, [])).
  { pose proof (encode_msg_len m) as Hel. pose proof (align_bounds (m_len m)).
    rewrite (recv_one _ _ _ _ _ _ None [m]); unfold encode_msgs; cbn [map concat]; rewrite ?app_nil_r; [|done|done|unfold BUFSIZE; lia|].
    - unfold m. rewrite refwalk_ack by done. by destruct (Z.eqb_spec e 0) as [->|].
    - split; [|done]. split_and!; [done| |done]. intros _. split.
      { unfold m, ack. cbn [m_body]. rewrite length_app. simpl. lia. }
      intros Hw. pose proof (setlink_request_len ifindex fd flags) as Hrl. fold req in Hrl.
      apply (ack_dump _ _ (port (n_kern s)) 1 e req ext); try done.
      + apply Forall_app_2; [by apply ack_u8|by apply Forall_drop].
      + intros ->. by apply Hw.
      + apply setlink_request_word.
      + destruct (flags =? 0); lia.
      + destruct (flags =? 0); rewrite Hrl; done.
      + exists [], (drop (length (encode_msg m)) stack). done.
      + fold m. rewrite length_app, length_drop, Hst. unfold BUFSIZE. lia. }
  wp_step. wp_step. unfold bpf_netlink_recv, wp at 1. cbn [n_kern n_fds n_inbox app]. rewrite Hrecv.
  cbn [mbind option_bind]. wp_steps. apply wp_sys_close; [done|]. wp_step. split_and!; (done || tauto).
Qed.

(** ** What a dump says *)

(** The last attribute of a kind. *)
Fixpoint find_attr (k : Z) (l : list attr) : option attr :=
  match l with
  | [] => None
  | a :: l => match find_attr k l with
              | Some b => Some b
              | None => if kind_of a =? k then Some a else None
              end
  end.
Definition attr_at (buf : list Z) (p : Z) (a : attr) : Prop :=
  exists pre rest, buf = pre ++ encode_attr a ++ rest /\ p = lenZ pre.

Lemma find_attr_in k l a : find_attr k l = Some a -> a ∈ l /\ kind_of a = k.
Proof.
  induction l as [|b l IH]; [done|]. cbn [find_attr]. destruct (find_attr k l) as [c|].
  - intros [= ->]. destruct IH as [Hin Hk]; [done|]. split; [by apply list_elem_of_further|done].
  - destruct (Z.eqb_spec (kind_of b) k); [|done]. intros [= ->]. split; [apply list_elem_of_here|done].
Qed.

Lemma index_find maxtype l rest k : 0 <= k <= maxtype -> attrs_ok l -> forall pre tb,
  length tb = Z.to_nat (maxtype + 1) ->
  exists tb', index maxtype None (lenZ pre) l tb = (0, tb') /\ length tb' = length tb /\
    match find_attr k l with
    | None => tb' !! Z.to_nat k = tb !! Z.to_nat k
    | Some a => exists p, tb' !! Z.to_nat k = Some (Some p) /\ attr_at (pre ++ encode l ++ rest) p a
    end.
Proof.
  intros Hk. induction l as [|a l IH]; intros Hl pre tb Htb; [by exists tb|].
  apply Forall_cons_1 in Hl as [Ha Hl]. pose proof (kind_range a Ha) as Hka. cbn [index find_attr].
  change (encode (a :: l)) with (encode_attr a ++ encode l). rewrite <- app_assoc.
  replace (lenZ pre + lenZ (encode_attr a)) with (lenZ (pre ++ encode_attr a)) by (rewrite length_app; lia).
  rewrite Z.gtb_ltb. destruct (Z.ltb_spec maxtype (kind_of a)) as [Hgt|Hle].
  - destruct (IH Hl (pre ++ encode_attr a) tb Htb) as (tb' & -> & Hlen & Hf). exists tb'. do 2 (split; [done|]).
    rewrite <- app_assoc in Hf. destruct (find_attr k l); [done|].
    by rewrite (proj2 (Z.eqb_neq _ _)) by lia.
  - cbn [accepted negb]. destruct (IH Hl (pre ++ encode_attr a) (setZ tb (kind_of a) (Some (lenZ pre)))) as (tb' & -> & Hlen & Hf);
      [by rewrite length_setZ|]. exists tb'. rewrite length_setZ in Hlen. do 2 (split; [done|]).
    rewrite <- app_assoc in Hf. destruct (find_attr k l); [done|]. unfold setZ in Hf.
    destruct (Z.eqb_spec (kind_of a) k) as [<-|Hne].
    + exists (lenZ pre). rewrite Hf, list_lookup_insert_eq by lia. split; [done|]. by exists pre, (encode l ++ rest).
    + by rewrite Hf, list_lookup_insert_ne by lia.
Qed.

(** The index of an encoded list. *)
Definition indexed (buf : list Z) (maxtype : Z) (l : list attr) (tb : list (option Z)) : Prop :=
  forall k, 0 <= k <= maxtype ->
    match find_attr k l with
    | None => tb !! Z.to_nat k = Some None
    | Some a => exists p, tb !! Z.to_nat k = Some (Some p) /\ attr_at buf p a
    end.
Lemma parse_indexed pre l rest maxtype : 0 <= maxtype -> attrs_ok l -> lenZ (encode l) < 2147483648 ->
  exists tb, libbpf_nla_parse (pre ++ encode l ++ rest) maxtype (lenZ pre) (lenZ (encode l)) None = Some (0, tb) /\
    indexed (pre ++ encode l ++ rest) maxtype l tb.
Proof.
  intros Hmax Hl Hs. rewrite nla_parse_index by done.
  set (tb0 := replicate (Z.to_nat (maxtype + 1)) None).
  destruct (index maxtype None (lenZ pre) l tb0) as [e tb] eqn:E.
  assert (Hall : forall k, 0 <= k <= maxtype -> e = 0 /\
    match find_attr k l with
    | None => tb !! Z.to_nat k = Some None
    | Some a => exists p, tb !! Z.to_nat k = Some (Some p) /\ attr_at (pre ++ encode l ++ rest) p a
    end).
  { intros k Hk. destruct (index_find maxtype l rest k Hk Hl pre tb0) as (tb' & E' & _ & Hf);
      [by apply length_replicate|]. rewrite E in E'. injection E' as -> <-. split; [done|].
    destruct (find_attr k l); [done|]. rewrite Hf. unfold tb0. apply lookup_replicate. split; [done|lia]. }
  destruct (Hall 0) as [-> _]; [lia|]. exists tb. split; [done|]. intros k Hk. by apply Hall.
Qed.

Definition le32 (l : list Z) : Z := getZ l 0 + 256 * getZ l 1 + 65536 * (getZ l 2 + 256 * getZ l 3).
Lemma attr_at_u8 buf p a : attr_at buf p a -> attr_ok a -> 1 <= lenZ (at_data a) ->
  libbpf_nla_getattr_u8 buf p = Some (getZ (at_data a) 0).
Proof.
  intros (pre & rest & -> & ->) Ha Hl. unfold libbpf_nla_getattr_u8.
  rewrite <- (Z.add_0_r (libbpf_nla_data (lenZ pre))). apply front_data; lia.
Qed.
Lemma attr_at_u32 buf p a : attr_at buf p a -> attr_ok a -> 4 <= lenZ (at_data a) ->
  libbpf_nla_getattr_u32 buf p = Some (le32 (at_data a)).
Proof.
  intros (pre & rest & -> & ->) Ha Hl. unfold libbpf_nla_getattr_u32, half_of.
  rewrite <- (Z.add_0_r (libbpf_nla_data (lenZ pre))) at 1. rewrite front_data by lia. cbn [mbind option_bind].
  rewrite front_data by lia. cbn [mbind option_bind]. rewrite front_data by lia. cbn [mbind option_bind].
  rewrite <- Z.add_assoc, front_data by lia. done.
Qed.
Lemma attr_at_nested buf p xs maxtype : 0 <= maxtype -> attr_at buf p (Attr IFLA_XDP (encode xs)) ->
  attr_ok (Attr IFLA_XDP (encode xs)) -> attrs_ok xs ->
  exists tb, libbpf_nla_parse_nested buf maxtype p None = Some (0, tb) /\ indexed buf maxtype xs tb.
Proof.
  intros Hmax (pre & rest & -> & ->) Ha Hxs. pose proof Ha as (_ & Hlt & _). unfold at_len in Hlt. cbn [at_data] in Hlt.
  unfold libbpf_nla_parse_nested. rewrite front_data_len by done. cbn [mbind option_bind at_data].
  set (a := Attr IFLA_XDP (encode xs)) in *.
  destruct (parse_indexed (pre ++ half_bytes (at_len a) ++ half_bytes (at_type a)) xs (pad (at_len a) ++ rest) maxtype)
    as (tb & Hp & Hi); [done|done|lia|].
  replace ((pre ++ half_bytes (at_len a) ++ half_bytes (at_type a)) ++ encode xs ++ pad (at_len a) ++ rest)
    with (pre ++ encode_attr a ++ rest) in * by (unfold encode_attr; by rewrite <- !app_assoc).
  exists tb. split; [|done]. rewrite <- Hp. f_equal. rewrite length_app. unfold libbpf_nla_data, NLA_HDRLEN. simpl. lia.
Qed.

(** The information a device contributes. *)
Definition u32_attr (k : Z) (xs : list attr) (old : Z) : Z :=
  match find_attr k xs with Some a => le32 (at_data a) | None => old end.
Definition xdp_step (i : xdp_link_info) (xs : list attr) : xdp_link_info :=
  match find_attr IFLA_XDP_ATTACHED xs with
  | None => i
  | Some a =>
      let mode := getZ (at_data a) 0 in
      if mode =? XDP_ATTACHED_NONE
      then Xdp_link_info (prog_id i) (drv_prog_id i) (hw_prog_id i) (skb_prog_id i) mode
      else Xdp_link_info (u32_attr IFLA_XDP_PROG_ID xs (prog_id i)) (u32_attr IFLA_XDP_DRV_PROG_ID xs (drv_prog_id i))
             (u32_attr IFLA_XDP_HW_PROG_ID xs (hw_prog_id i)) (u32_attr IFLA_XDP_SKB_PROG_ID xs (skb_prog_id i)) mode
  end.
Definition link_step (x : xdp_id_md) (l : link) : xdp_id_md :=
  if negb (md_ifindex x =? 0) && negb (md_ifindex x =? l_index l) then x
  else match l_xdp l with None => x | Some xs => set_info x (xdp_step (md_info x) xs) end.

Lemma attr_u32_find buf tb xs k old : indexed buf IFLA_XDP_MAX xs tb -> attrs_ok xs ->
  Forall (fun a => IFLA_XDP_PROG_ID <= kind_of a <= IFLA_XDP_HW_PROG_ID -> 4 <= lenZ (at_data a)) xs ->
  IFLA_XDP_PROG_ID <= k <= IFLA_XDP_HW_PROG_ID ->
  attr_u32 buf tb k old = Some (u32_attr k xs old).
Proof.
  intros Hi Hok Hlen Hk. unfold attr_u32, u32_attr. specialize (Hi k).
  unfold IFLA_XDP_PROG_ID, IFLA_XDP_HW_PROG_ID, IFLA_XDP_MAX in *. specialize (Hi ltac:(lia)).
  destruct (find_attr k xs) as [a|] eqn:Ef; [|by rewrite Hi].
  destruct Hi as (p & -> & Hat). apply find_attr_in in Ef as [Hin Hka]. apply list_elem_of_In in Hin.
  apply (attr_at_u32 _ _ a); [done|..].
  - unfold attrs_ok in Hok. rewrite List.Forall_forall in Hok. by apply Hok.
  - rewrite List.Forall_forall in Hlen. apply Hlen; [done|lia].
Qed.

Lemma find_attr_app k l1 l2 :
  find_attr k (l1 ++ l2) = match find_attr k l2 with Some a => Some a | None => find_attr k l1 end.
Proof. induction l1 as [|a l1 IH]; cbn [find_attr app]; [by destruct (find_attr k l2)|]. rewrite IH. by destruct (find_attr k l2). Qed.
Lemma find_attr_none k l : Forall (fun a => kind_of a <> k) l -> find_attr k l = None.
Proof. induction 1 as [|a l Ha _ IH]; [done|]. cbn [find_attr]. rewrite IH. by rewrite (proj2 (Z.eqb_neq _ _)). Qed.
Lemma find_xdp l : link_ok l ->
  find_attr IFLA_XDP (l_attrs l) = match l_xdp l with Some xs => Some (Attr IFLA_XDP (encode xs)) | None => None end.
Proof.
  intros (_ & _ & _ & _ & Hk & _). apply Forall_app in Hk as [Hb Ha]. unfold l_attrs.
  rewrite !find_attr_app, (find_attr_none _ _ Ha), (find_attr_none _ _ Hb). by destruct (l_xdp l).
Qed.

Lemma dump_link_step buf p pid seq l c :
  msg_at buf p (newlink pid seq l) -> msg_ok (newlink pid seq l) -> link_ok l ->
  __dump_link_nlmsg buf (get_xdp_info buf) p c = Some (0, link_step c l).
Proof.
  intros (pre & rest & Hbuf & ->) Hm Hl. pose proof (find_xdp l Hl) as Hfx.
  destruct Hl as (Hidx & Hhd & Htl & Hattrs & _ & Hxdp). set (m := newlink pid seq l) in *.
  assert (Hlen : nlmsg_len buf (lenZ pre) = Some (32 + lenZ (encode (l_attrs l)))).
  { rewrite Hbuf, msg_len_front by done. f_equal. unfold m_len, m, newlink. cbn [m_body]. rewrite !length_app. simpl. lia. }
  set (h := word_bytes (m_len m) ++ half_bytes (m_type m) ++ half_bytes (m_flags m) ++ word_bytes (m_seq m) ++
            word_bytes (m_pid m) ++ l_head l ++ word_bytes (l_index l) ++ l_tail l).
  assert (Hsplit : buf = (pre ++ h) ++ encode (l_attrs l) ++ (pad (m_len m) ++ rest)).
  { rewrite Hbuf. unfold encode_msg, h. unfold m at 6. unfold newlink. cbn [m_body]. by rewrite <- !app_assoc. }
  assert (Hh : lenZ (pre ++ h) = lenZ pre + 32) by (unfold h; rewrite !length_app; simpl; lia).
  assert (Hlt : lenZ (encode (l_attrs l)) < 65536).
  { destruct Hm as (_ & _ & _ & _ & Hm). unfold m_len, m, newlink in Hm. cbn [m_body] in Hm. rewrite !length_app in Hm. lia. }
  assert (Hword : word_of buf (lenZ pre + 16 + 4) = Some (u32 (l_index l))).
  { rewrite Hbuf. apply word_of_body; [lia|]. unfold m, newlink. cbn [m_body].
    replace 4 with (lenZ (l_head l) + 0) by lia. apply word_of_app; [apply u32_range|lia|].
    intros [|[|[|[|]]]] Hj; [..|lia]; simpl; f_equal; int_solve. }
  destruct (parse_indexed (pre ++ h) (l_attrs l) (pad (m_len m) ++ rest) IFLA_MAX) as (tb & Hp & Hi);
    [done|done|lia|]. rewrite <- Hsplit, Hh in *. clear Hsplit.
  unfold __dump_link_nlmsg, dump_nlmsg, NLMSG_DATA. rewrite Hlen. cbn [mbind option_bind].
  replace (s32 _) with (lenZ (encode (l_attrs l))) by (unfold NLMSG_LENGTH, sizeof_ifinfomsg; rewrite s32_small; lia).
  replace (lenZ pre + 16 + NLMSG_ALIGN sizeof_ifinfomsg) with (lenZ pre + 32) by (change (NLMSG_ALIGN sizeof_ifinfomsg) with 16; lia).
  rewrite Hp. cbn [mbind option_bind Z.eqb negb]. unfold get_xdp_info, link_step. rewrite Hword. cbn [mbind option_bind].
  replace (s32 (u32 (l_index l))) with (l_index l) by int_solve.
  destruct (_ && _)%bool; [done|]. specialize (Hi IFLA_XDP ltac:(done)). rewrite Hfx in Hi.
  destruct (l_xdp l) as [xs|] eqn:Exs; [|by rewrite Hi].
  destruct Hi as (q & -> & Hat). cbn [mbind option_bind]. destruct Hxdp as (Hxs & H1 & H4).
  destruct (attr_at_nested buf q xs IFLA_XDP_MAX) as (xtb & -> & Hxi); [done|done| |done|].
  { unfold attrs_ok in Hattrs. rewrite List.Forall_forall in Hattrs. apply Hattrs. unfold l_attrs. rewrite Exs.
    apply in_or_app. right. by left. }
  cbn [mbind option_bind Z.eqb negb]. unfold xdp_step. pose proof (Hxi IFLA_XDP_ATTACHED ltac:(done)) as Hatt.
  destruct (find_attr IFLA_XDP_ATTACHED xs) as [a|] eqn:Ef; [|rewrite Hatt; cbn; by destruct c].
  destruct Hatt as (q' & -> & Hat'). cbn [mbind option_bind]. apply find_attr_in in Ef as [Hin Hka]. apply list_elem_of_In in Hin.
  rewrite (attr_at_u8 _ _ a); [|done| |].
  - cbn [mbind option_bind]. destruct (_ =? XDP_ATTACHED_NONE); [done|].
    by rewrite !(attr_u32_find buf xtb xs) by done.
  - unfold attrs_ok in Hxs. rewrite List.Forall_forall in Hxs. by apply Hxs.
  - rewrite List.Forall_forall in H1. by apply H1.
Qed.

(** The callback on messages: the callback on a buffer that holds only the message. *)
Definition dump_msg (m : nlmsg) (c : xdp_id_md) : Z * xdp_id_md :=
  default (0, c) (__dump_link_nlmsg (encode_msg m) (get_xdp_info (encode_msg m)) 0 c).
Lemma dump_msg_link pid seq l c : msg_ok (newlink pid seq l) -> link_ok l ->
  dump_msg (newlink pid seq l) c = (0, link_step c l).
Proof.
  intros Hm Hl. unfold dump_msg. rewrite (dump_link_step _ 0 pid seq l c); [done| |done|done].
  exists [], []. by rewrite app_nil_r.
Qed.

Lemma all_walkable_intro {C} (fn : option (Z -> C -> option (Z * C))) fm rest l : forall pre,
  (forall m p, m ∈ l -> msg_at (pre ++ encode_msgs l ++ rest) p m -> walkable (pre ++ encode_msgs l ++ rest) fn fm p m) ->
  all_walkable (pre ++ encode_msgs l ++ rest) fn fm (lenZ pre) l.
Proof.
  induction l as [|m l IH]; intros pre Hw; [done|].
  change (encode_msgs (m :: l)) with (encode_msg m ++ encode_msgs l) in *. rewrite <- app_assoc in *. split.
  - apply Hw; [apply list_elem_of_here|]. by exists pre, (encode_msgs l ++ rest).
  - rewrite app_assoc in *. replace (lenZ pre + lenZ (encode_msg m)) with (lenZ (pre ++ encode_msg m)) by (rewrite length_app; lia).
    apply IH. intros m' p Hin Hat. apply Hw; [by apply list_elem_of_further|done].
Qed.
Lemma refwalk_links pid seq ls tl mp c :
  Forall (fun l => msg_ok (newlink pid (u32 seq) l) /\ link_ok l) ls ->
  refwalk (map (newlink pid (u32 seq)) ls ++ tl) pid seq (Some dump_msg) mp c =
  refwalk tl pid seq (Some dump_msg) (match ls with [] => mp | _ => true end) (foldl link_step c ls).
Proof.
  intros Hls. revert mp c. induction Hls as [|l ls [Hm Hl] _ IH]; intros mp c; [done|].
  cbn [map app refwalk foldl].
  change (m_pid (newlink pid (u32 seq) l)) with pid. change (m_seq (newlink pid (u32 seq) l)) with (u32 seq).
  change (m_type (newlink pid (u32 seq) l)) with 16.
  change (Z.land (m_flags (newlink pid (u32 seq) l)) NLM_F_MULTI =? 0) with false.
  rewrite !Z.eqb_refl. change (16 =? NLMSG_ERROR) with false. change (16 =? NLMSG_DONE) with false. cbn [negb]. cbv iota.
  rewrite (dump_msg_link pid (u32 seq) l c Hm Hl). cbn [Z.eqb negb]. rewrite IH. by destruct ls.
Qed.

Lemma encode_msg_in m l : m ∈ l -> lenZ (encode_msg m) <= lenZ (encode_msgs l).
Proof.
  induction l as [|m' l IH]; [by intros ?%elem_of_nil|].
  change (encode_msgs (m' :: l)) with (encode_msg m' ++ encode_msgs l). rewrite length_app.
  intros [<-|Hin]%elem_of_cons; [lia|]. specialize (IH Hin). lia.
Qed.
Lemma short_msg_ok (m : nlmsg) p : m ∈ p -> (length (encode_msgs p) <= BUFSIZE)%nat ->
  is_u16 (m_type m) -> is_u16 (m_flags m) -> is_u32 (m_seq m) -> is_u32 (m_pid m) -> msg_ok m.
Proof.
  intros Hin Hlen H1 H2 H3 H4. split_and!; try (apply H1 || apply H2 || apply H3 || apply H4).
  apply encode_msg_in in Hin. pose proof (encode_msg_len m). pose proof (align_bounds (m_len m)).
  unfold BUFSIZE in Hlen. lia.
Qed.

Abbreviation link_fn := (fun buf => Some (__dump_link_nlmsg buf (get_xdp_info buf))).

(** The links of one datagram, and the end of the dump in the last one. *)
Lemma part_walkable pid seq ls tl stack (p := map (newlink pid (u32 seq)) ls ++ tl)
    (buf := encode_msgs p ++ drop (length (encode_msgs p)) stack) :
  is_u32 pid -> Forall link_ok ls -> (length (encode_msgs p) <= BUFSIZE)%nat ->
  tl = [] \/ tl = [dump_done pid (u32 seq)] ->
  all_walkable buf (link_fn buf) (Some dump_msg) 0 p /\
  Forall (fun l => msg_ok (newlink pid (u32 seq) l) /\ link_ok l) ls.
Proof.
  intros Hpid Hls Hlen Htl.
  assert (Hok : forall l, l ∈ ls -> msg_ok (newlink pid (u32 seq) l) /\ link_ok l).
  { intros l Hl%list_elem_of_In. split; [|rewrite List.Forall_forall in Hls; by apply Hls].
    apply (short_msg_ok _ p); [|done|done|done|apply u32_range|done].
    apply list_elem_of_In. apply in_or_app. left. by apply in_map. }
  split; [|apply List.Forall_forall; intros l Hl; by apply Hok, list_elem_of_In].
  apply (all_walkable_intro _ _ _ p []). intros m q [Hin|Hin]%elem_of_app Hat.
  - apply list_elem_of_In, in_map_iff in Hin as (l & <- & Hl). destruct (Hok l) as [Hm Hlk]; [by apply list_elem_of_In|].
    split; [done|]. split; [done|]. intros _ _ c. cbn [app]. rewrite dump_msg_link by done. by apply (dump_link_step _ _ pid (u32 seq)).
  - destruct Htl as [-> | ->]; [by apply elem_of_nil in Hin|]. apply list_elem_of_singleton in Hin as ->.
    split; [|done]. apply (short_msg_ok _ p); [|done|done|done|apply u32_range|done].
    apply elem_of_app. right. by apply list_elem_of_singleton.
Qed.

Lemma recv_parts pid seq : is_u32 pid -> forall parts ls stack c,
  concat parts = map (newlink pid (u32 seq)) ls ++ [dump_done pid (u32 seq)] ->
  Forall (fun p => p <> [] /\ (length (encode_msgs p) <= BUFSIZE)%nat) parts -> Forall link_ok ls ->
  recv_loop (map (fun p => inr (encode_msgs p)) parts) stack pid seq link_fn c = Some (0, foldl link_step c ls, []).
Proof.
  intros Hpid. induction parts as [|p ps IH]; intros ls stack c Hc Hp Hls.
  { destruct ls; discriminate Hc. }
  apply Forall_cons_1 in Hp as [[Hne Hlen] Hp]. cbn [concat map] in *.
  assert ((exists ls1 ls2, ls = ls1 ++ ls2 /\ p = map (newlink pid (u32 seq)) ls1 /\
             concat ps = map (newlink pid (u32 seq)) ls2 ++ [dump_done pid (u32 seq)]) \/
          (p = map (newlink pid (u32 seq)) ls ++ [dump_done pid (u32 seq)] /\ ps = [])) as [(ls1 & ls2 & -> & -> & Hps)|[-> ->]].
  { apply app_eq_inv in Hc as [(k & -> & Hk)|(k & Hk & Hps)].
    - destruct k as [|m k]; [left; exists ls, []; by rewrite !app_nil_r|]. right.
      injection Hk as <- Hk. destruct k; [|discriminate Hk]. split; [done|].
      destruct ps as [|p' ps]; [done|]. apply Forall_cons_1 in Hp as [[Hn _] _]. by destruct p'.
    - left. apply map_eq_app in Hk as (ls1 & ls2 & -> & <- & <-). by exists ls1, ls2. }
  - apply Forall_app in Hls as [Hl1 Hl2]. pose proof (part_walkable pid seq ls1 [] stack Hpid Hl1) as Hw.
    rewrite app_nil_r in Hw. destruct Hw as [Hw Hms]; [done|by left|].
    rewrite (recv_one _ _ _ _ _ _ (Some dump_msg) (map (newlink pid (u32 seq)) ls1)) by done.
    rewrite <- (app_nil_r (map _ ls1)) at 1. rewrite refwalk_links by done. cbn [refwalk].
    destruct ls1; [done|]. rewrite (IH ls2) by done. by rewrite foldl_app.
  - destruct (part_walkable pid seq ls [dump_done pid (u32 seq)] stack Hpid Hls) as [Hw Hms]; [done|by right|].
    rewrite (recv_one _ _ _ _ _ _ (Some dump_msg) (map (newlink pid (u32 seq)) ls ++ [dump_done pid (u32 seq)])) by done.
    rewrite refwalk_links by done. cbn [refwalk dump_done m_pid m_seq m_type]. by rewrite !Z.eqb_refl.
Qed.

Lemma decode_getlink_request seq : -2147483648 <= seq < 2147483648 ->
  decode_getlink (getlink_request seq) = Some (u32 seq).
Proof.
  intros Hs. unfold getlink_request, poke_hdr, poke32, poke16, word_bytes.
  pose proof (word_bytes_u32 (u32 seq) (u32_range _)) as E.
  replace (u8 (u32 seq)) with (u8 seq) in E by int_solve.
  replace (u8 (u32 seq / 256)) with (u8 (seq / 256)) in E by int_solve.
  replace (u8 (u32 seq / 65536)) with (u8 (seq / 65536)) in E by int_solve.
  replace (u8 (u32 seq / 16777216)) with (u8 (seq / 16777216)) in E by int_solve.
  rewrite <- E. generalize (u8 seq) (u8 (seq / 256)) (u8 (seq / 65536)) (u8 (seq / 16777216)). reflexivity.
Qed.

(** The information of a dump, device by device. *)
Definition no_info : xdp_link_info := Xdp_link_info 0 0 0 0 0.
Definition info_step (ifindex : Z) (i : xdp_link_info) (l : link) : xdp_link_info :=
  if negb (ifindex =? 0) && negb (ifindex =? l_index l) then i
  else match l_xdp l with None => i | Some xs => xdp_step i xs end.
Lemma link_step_info ls x : md_info (foldl link_step x ls) = foldl (info_step (md_ifindex x)) (md_info x) ls.
Proof.
  revert x. induction ls as [|l ls IH]; intros x; [done|]. cbn [foldl]. rewrite IH. unfold link_step, info_step.
  destruct (_ && _)%bool; [done|]. by destruct (l_xdp l).
Qed.

(** The flags name at most one mode. *)
Definition single_mode (flags : Z) : bool := existsb (Z.eqb flags) [0; 1; 2; 3; 4; 5; 8; 9].
Lemma land_high flags : is_u32 flags -> Z.land flags (u32 (Z.lnot XDP_FLAGS_MASK)) = flags - flags mod 16.
Proof.
  intros Hf. change (u32 (Z.lnot XDP_FLAGS_MASK)) with (Z.land (Z.ones 32) (Z.lnot (Z.ones 4))).
  rewrite Z.land_assoc, Z.land_ones, <- Z.ldiff_land, Z.ldiff_ones_r, Z.shiftl_mul_pow2, Z.shiftr_div_pow2 by lia.
  change (2 ^ 4) with 16. change (2 ^ 32) with 4294967296. int_solve.
Qed.
Lemma mode_checks flags : is_u32 flags ->
  let low := Z.land flags (Z.lor (Z.lor XDP_FLAGS_SKB_MODE XDP_FLAGS_DRV_MODE) XDP_FLAGS_HW_MODE) in
  single_mode flags = (Z.land flags (u32 (Z.lnot XDP_FLAGS_MASK)) =? 0) &&
                      negb (negb (low =? 0) && negb (Z.land low (u32 (low - 1)) =? 0)).
Proof.
  intros Hf. cbv zeta. rewrite land_high by done. destruct (Z.eqb_spec (flags - flags mod 16) 0) as [E|E]; cbn [andb].
  - assert (0 <= flags < 16) as Hs by int_solve.
    assert (Forall (fun f => single_mode f = negb (negb (Z.land f 14 =? 0) && negb (Z.land (Z.land f 14) (u32 (Z.land f 14 - 1)) =? 0)))
      (map Z.of_nat (seq 0 16))) as HF by (repeat (apply List.Forall_cons; [reflexivity|]); apply List.Forall_nil).
    rewrite List.Forall_forall in HF. apply HF. apply in_map_iff. exists (Z.to_nat flags). split; [lia|]. apply in_seq. lia.
  - unfold single_mode. cbn [existsb]. rewrite !(proj2 (Z.eqb_neq flags _)) by int_solve. done.
Qed.

Lemma get_link_spec s stack ifindex flags (req := getlink_request (s32 (nl_time (n_kern s)))) :
  is_u32 flags -> quiet s ->
  wp (bpf_get_link_xdp_id stack ifindex flags) (fun r s' =>
    s' = s /\
    if single_mode flags then
      (can_talk s req -> r = inr (get_xdp_id (foldl (info_step ifindex) no_info (links (n_kern s))) flags)) /\
      (~ can_talk s req -> exists e, r = inl e /\ e < 0)
    else r = inl (- EINVAL)) s.
Proof using LO.
  intros Hf Hq. pose proof (Hq : n_inbox s = []) as Hin. pose proof (socket_fresh (n_kern s) (n_fds s)) as Hfresh. unfold bpf_get_link_xdp_id, bpf_get_link_xdp_info.
  rewrite (mode_checks flags Hf). cbv zeta. wp_step.
  destruct (Z.land flags (u32 (Z.lnot XDP_FLAGS_MASK)) =? 0); cbn [negb orb andb]; [|wp_steps; done].
  change (sizeof_xdp_link_info =? 0) with false. cbv iota.
  destruct (negb (Z.land flags _ =? 0) && negb (_ =? 0))%bool; cbn [negb]; [wp_steps; done|].
  wp_step. apply wp_netlink_open; [done|intros e He Hn|intros Hopen]; unfold can_talk.
  { wp_steps. split; [done|]. split; [tauto|eauto]. }
  wp_step. unfold libbpf_nl_get_link, nl_dump. wp_step. wp_step. cbn [n_kern]. fold req.
  wp_step. unfold sys_send, wp at 1. cbn [n_kern n_fds n_inbox].
  assert (Hs : Nlsys (n_kern s) (n_fds s) [] = s) by (destruct s; simpl in *; by subst).
  destruct (Z.ltb_spec (nl_send (n_kern s) req) 0) as [Hsend|Hsend].
  { rewrite (proj2 (Z.ltb_lt _ _)) by done. wp_steps. apply wp_sys_close; [done|]. wp_step.
    rewrite (proj2 (Z.eqb_neq _ _)) by lia. wp_steps. split; [done|]. split; [lia|eauto]. }
  destruct (getlink_answer (n_kern s) req (u32 (s32 (nl_time (n_kern s))))) as (parts & -> & Hc & Hp);
    [apply decode_getlink_request; int_solve|].
  rewrite (proj2 (Z.ltb_ge _ _)) by lia. unfold bpf_netlink_recv, wp at 1. cbn [n_inbox n_kern n_fds app].
  rewrite (recv_parts _ _ (port_range _) parts (links (n_kern s))) by (done || apply links_ok).
  cbn [mbind option_bind]. wp_steps. apply wp_sys_close; [done|]. wp_steps. rewrite link_step_info. cbn [md_ifindex md_info].
  split; [done|]. split; [done|tauto].
Qed.

(** The device with an index, and what its attributes say. *)
Definition device_info (ls : list link) (ifindex : Z) : xdp_link_info :=
  match List.find (fun l => l_index l =? ifindex) ls with
  | Some l => match l_xdp l with Some xs => xdp_step no_info xs | None => no_info end
  | None => no_info
  end.
Lemma info_steps_other ifindex i ls : ifindex <> 0 -> ifindex ∉ map l_index ls ->
  foldl (info_step ifindex) i ls = i.
Proof.
  intros Hi. revert i. induction ls as [|l ls IH]; intros i Hn; [done|]. cbn [map foldl] in *.
  apply not_elem_of_cons in Hn as [Hne Hn]. unfold info_step at 2.
  rewrite (proj2 (Z.eqb_neq ifindex 0)), (proj2 (Z.eqb_neq ifindex (l_index l))) by done. cbn [negb andb]. auto.
Qed.
Lemma info_steps_device ifindex ls : ifindex <> 0 -> NoDup (map l_index ls) ->
  foldl (info_step ifindex) no_info ls = device_info ls ifindex.
Proof.
  intros Hi. unfold device_info. induction ls as [|l ls IH]; intros Hnd; [done|]. cbn [map foldl List.find] in *.
  inversion_clear Hnd as [|? ? Hn Hnd']. unfold info_step at 2. rewrite (proj2 (Z.eqb_neq ifindex 0)) by done.
  rewrite (Z.eqb_sym ifindex). destruct (Z.eqb_spec (l_index l) ifindex) as [<-|Hne]; cbn [negb andb]; [|auto].
  destruct (l_xdp l); by apply info_steps_other.
Qed.
End Links.

(** Which program a device runs, from the attributes of its message in the dump
    (linux/if_link.h).  IFLA_XDP_ATTACHED is 0 when there is none, 4 when there are several, one
    per mode, and otherwise the mode of the only one; IFLA_XDP_PROG_ID has the id of the only
    one, and the three other attributes have the id of the program in generic, native and
    offloaded mode, which the flags 2, 4 and 8 stand for. *)
Definition id_attr (k : Z) (xs : list attr) : Z := match find_attr k xs with Some a => le32 (at_data a) | None => 0 end.
Definition mode_attr (flags : Z) : option Z :=
  match Z.land flags 14 with
  | 2 => Some IFLA_XDP_SKB_PROG_ID
  | 4 => Some IFLA_XDP_DRV_PROG_ID
  | 8 => Some IFLA_XDP_HW_PROG_ID
  | _ => None
  end.
Definition xdp_attrs (ls : list link) (ifindex : Z) : list attr :=
  match List.find (fun l => l_index l =? ifindex) ls with Some l => default [] (l_xdp l) | None => [] end.
Definition device_program (ls : list link) (ifindex flags : Z) : Z :=
  let xs := xdp_attrs ls ifindex in
  match find_attr IFLA_XDP_ATTACHED xs with
  | None => 0
  | Some a =>
      match getZ (at_data a) 0 with
      | 0 => 0
      | 4 => match mode_attr flags with Some k => id_attr k xs | None => 0 end
      | _ => id_attr IFLA_XDP_PROG_ID xs
      end
  end.
Lemma mode_attr_flags flags : single_mode flags = true -> forall drv hw skb : Z,
  (if negb (Z.land flags XDP_FLAGS_DRV_MODE =? 0) then drv else if negb (Z.land flags XDP_FLAGS_HW_MODE =? 0) then hw
   else if negb (Z.land flags XDP_FLAGS_SKB_MODE =? 0) then skb else 0) =
  match mode_attr flags with
  | Some k => if k =? IFLA_XDP_SKB_PROG_ID then skb else if k =? IFLA_XDP_DRV_PROG_ID then drv else hw
  | None => 0
  end.
Proof.
  unfold single_mode. cbn [existsb]. rewrite !orb_true_iff, !Z.eqb_eq. intros H drv hw skb. by destruct_or! H; subst.
Qed.
(** [get_xdp_id] picks it. *)
Lemma device_program_id ls ifindex flags : single_mode flags = true ->
  get_xdp_id (device_info ls ifindex) flags = device_program ls ifindex flags.
Proof.
  intros Hm. unfold device_info, device_program, xdp_attrs. destruct (List.find _ ls) as [l|]; [|done]. destruct (l_xdp l) as [xs|]; [|done]. change (default [] (Some xs)) with xs.
  unfold xdp_step. destruct (find_attr IFLA_XDP_ATTACHED xs) as [a|]; [|done]. cbv zeta. generalize (getZ (at_data a) 0). intros mode.
  destruct (Z.eqb_spec mode XDP_ATTACHED_NONE) as [->|Hn]; [done|]. unfold get_xdp_id. cbn [attach_mode prog_id drv_prog_id hw_prog_id skb_prog_id].
  destruct (Z.eqb_spec mode XDP_ATTACHED_MULTI) as [->|Hmu]; cbn [negb].
  - rewrite (mode_attr_flags flags Hm).
    assert (Hc : mode_attr flags = None \/ mode_attr flags = Some IFLA_XDP_SKB_PROG_ID \/ mode_attr flags = Some IFLA_XDP_DRV_PROG_ID \/
      mode_attr flags = Some IFLA_XDP_HW_PROG_ID) by (unfold mode_attr; repeat case_match; auto).
    by destruct Hc as [->|[->|[->| ->]]].
  - unfold XDP_ATTACHED_NONE, XDP_ATTACHED_MULTI in *. repeat case_match; done.
Qed.

(** C24: [bpf_set_link_xdp_fd] asks the kernel for exactly what its caller asked: whatever
    the receive buffer held before, if the socket calls succeed the result is the kernel's
    answer to attaching descriptor [fd] with [flags] to [ifindex] and the kernel is in the
    state after that; otherwise the result is negative and nothing was asked.  The call
    always returns and closes its socket. *)
Theorem set_link_reaches_kernel `{LO : LinkKernelOk} (s : nlsys) (stack : list Z) (ifindex fd flags : Z) :
  -2147483648 <= ifindex < 2147483648 -> -2147483648 <= fd < 2147483648 -> is_u32 flags ->
  length stack = BUFSIZE -> Forall is_u8 stack -> quiet s ->
  exists r s', bpf_set_link_xdp_fd stack ifindex fd flags s = Some (r, s') /\
    n_fds s' = n_fds s /\
    (can_talk s (setlink_request ifindex fd flags 1) ->
       (r, n_kern s') = attach (n_kern s) ifindex fd flags) /\
    (~ can_talk s (setlink_request ifindex fd flags 1) -> r < 0 /\ n_kern s' = n_kern s).
Proof.
  intros Hi Hf Hfl Hl Hu Hq. pose proof (set_link_spec s stack ifindex fd flags Hi Hf Hfl Hl Hu Hq) as W.
  apply wp_run in W as (r & s' & HR & H1 & H2 & H3 & _). by exists r, s'.
Qed.

(** C25: [bpf_get_link_xdp_id] reads the dump of all devices, in any number of datagrams,
    and returns the id of the program that the requested device runs in the requested
    mode ([device_program]): the general id when one program is attached, the id of the mode
    that the flags name when several are (0 if they name none), 0 when no program is attached
    or there is no such device.  Flags that name two modes are refused
    without asking; an error of a socket call is returned.  State and descriptors are as
    before. *)
Theorem get_link_reads_program `{LO : LinkKernelOk} (s : nlsys) (stack : list Z) (ifindex flags : Z) :
  is_u32 flags -> ifindex <> 0 -> quiet s -> NoDup (map l_index (links (n_kern s))) ->
  exists r, bpf_get_link_xdp_id stack ifindex flags s = Some (r, s) /\
    if single_mode flags then
      (can_talk s (getlink_request (s32 (nl_time (n_kern s)))) ->
         r = inr (device_program (links (n_kern s)) ifindex flags)) /\
      (~ can_talk s (getlink_request (s32 (nl_time (n_kern s)))) -> exists e, r = inl e /\ e < 0)
    else r = inl (- EINVAL).
Proof.
  intros Hf Hi Hq Hnd. pose proof (get_link_spec s stack ifindex flags Hf Hq) as W.
  apply wp_run in W as (r & s' & HR & -> & Hpost). exists r. split; [done|].
  rewrite info_steps_device in Hpost by done. destruct (single_mode flags) eqn:Em; [|done]. by rewrite device_program_id in Hpost.
Qed.

(** *** A kernel with one device *)

(** The state is the program of device 2 in each mode; a program in the other one of SKB
    and driver mode is in the way of a new one.  A program's id is its descriptor. *)
Definition one_state : Type := Z -> option Z.
Definition fresh_fd (F : list Z) : Z := 1 + foldr Z.max 8 F.
Lemma fresh_fd_new F : fresh_fd F ∉ F.
Proof.
  assert (H : forall x, x ∈ F -> x < fresh_fd F).
  { unfold fresh_fd. induction F as [|y F IH]; intros x Hx; [by apply elem_of_nil in Hx|]. cbn [foldr]. apply elem_of_cons in Hx as [->|Hx]; [lia|]. specialize (IH x Hx). lia. }
  intros Hin. specialize (H _ Hin). lia.
Qed.
Definition one_id (k : one_state) : Z := default 0 (k XDP_FLAGS_DRV_MODE).
Definition one_mode (flags : Z) : Z :=
  let m := Z.land flags 14 in if (m =? 2) || (m =? 8) then m else 4.
Definition one_link (id : Z) : link :=
  Link 2 [0; 0; 0; 0] [0; 0; 0; 0; 0; 0; 0; 0] [Attr 3 [101; 116; 104; 48; 0]]
    (Some [Attr IFLA_XDP_ATTACHED [if id =? 0 then 0 else 1]; Attr IFLA_XDP_PROG_ID (word_bytes id)]) [].
Definition one_attach (k : one_state) (ifindex fd flags : Z) : Z * one_state :=
  let m := one_mode flags in
  if negb (ifindex =? 2) then (-19, k)
  else if (0 <=? fd) && match k (if m =? 2 then 4 else 2) with Some _ => true | None => false end then (-17, k)
  else (0, fun n => if n =? m then (if fd <? 0 then None else Some fd) else k n).
#[export] Instance one_kernel : NlKernel := {|
  kst := one_state;
  nl_socket _ F := fresh_fd F;
  nl_bind _ _ := 0;
  nl_getsockname _ _ := (0, 12, 77);
  nl_send _ _ := 0;
  nl_handle k req :=
    match decode_setlink req with
    | Some (seq, i, fd, fl) => ([inr (encode_msg (ack 77 seq (fst (one_attach k i fd fl)) req []))], snd (one_attach k i fd fl))
    | None => match decode_getlink req with
              | Some seq => ([inr (encode_msgs [newlink 77 seq (one_link (one_id k)); dump_done 77 seq])], k)
              | None => ([], k)
              end
    end;
  nl_time _ := 1000
|}.
#[export] Instance one_links : LinkKernel := {| port _ := 77; attach := one_attach; links k := [one_link (one_id k)] |}.
Lemma one_attrs_ok id : attrs_ok [Attr IFLA_XDP_ATTACHED [if id =? 0 then 0 else 1]; Attr IFLA_XDP_PROG_ID (word_bytes id)].
Proof.
  repeat (apply List.Forall_cons; [split; [done|]; split; [done|]|]); [..|apply List.Forall_nil]; cbn [at_data].
  - destruct (id =? 0); all_bytes.
  - apply word_bytes_u8.
Qed.
Lemma one_link_ok id : link_ok (one_link id).
Proof.
  unfold link_ok, l_attrs, one_link. cbn [l_index l_head l_tail l_before l_xdp l_behind app].
  split; [lia|]. do 2 (split; [done|]). split.
  { repeat (apply List.Forall_cons; [split; [done|]; split; [done|]|]); [..|apply List.Forall_nil]; cbn [at_data].
    - all_bytes.
    - apply encode_u8, one_attrs_ok. }
  split; [by repeat (apply List.Forall_cons || apply List.Forall_nil)|]. split; [apply one_attrs_ok|].
  split; repeat (apply List.Forall_cons || apply List.Forall_nil); vm_compute; intuition congruence.
Qed.
Lemma one_kernel_ok : LinkKernelOk (LK := one_links).
Proof.
  split.
  - intros k F. apply fresh_fd_new.
  - intros k fd. done.
  - intros k. done.
  - intros k i fd fl. cbn. unfold one_attach. repeat case_match; simpl; lia.
  - intros k req seq i fd fl Hd. exists []. split; [apply List.Forall_nil|]. split; [done|]. cbn [nl_handle one_kernel].
    by rewrite Hd.
  - intros k. apply List.Forall_cons; [apply one_link_ok|apply List.Forall_nil].
  - intros k req seq Hd. exists [[newlink 77 seq (one_link (one_id k)); dump_done 77 seq]].
    assert (decode_setlink req = None) as Hn.
    { unfold decode_getlink, decode_setlink in *.
      destruct (word_of req 0), (half_of req 4) as [ty|], (half_of req 6), (word_of req 8); try done.
      cbn [mbind option_bind] in *. destruct (Z.eqb_spec ty RTM_GETLINK) as [->|];
        [|rewrite andb_false_r in Hd; discriminate Hd].
      change (RTM_GETLINK =? RTM_SETLINK) with false. rewrite andb_false_r. by destruct (word_of req 20). }
    cbn [nl_handle one_kernel]. rewrite Hn, Hd. split; [done|]. split; [done|].
    apply List.Forall_cons; [split; [done|apply Nat.leb_le; by vm_compute]|apply List.Forall_nil].
Qed.
Lemma one_can_talk s req : can_talk (H := one_kernel) s req.
Proof.
  repeat split; try done. cbn. unfold fresh_fd. assert (H : 8 <= foldr Z.max 8 (n_fds s)) by (induction (n_fds s); cbn [foldr]; lia). lia.
Qed.

Definition one_sys (k : one_state) : nlsys := @Nlsys one_kernel k [0; 1; 2] [].
Definition no_programs : one_state := fun _ => None.
Definition native_5 : one_state := fun m => if m =? 4 then Some 5 else None.

Lemma set_link_reaches_kernel_witness :
  exists s', bpf_set_link_xdp_fd (repeat 0xff BUFSIZE) 2 5 4 (one_sys no_programs) = Some (0, s') /\
    n_fds s' = [0; 1; 2] /\ n_kern s' 4 = Some 5.
Proof.
  destruct (set_link_reaches_kernel (LO := one_kernel_ok) (one_sys no_programs) (repeat 0xff BUFSIZE) 2 5 4)
    as (r & s' & HR & HF & HT & _); [lia|lia|int_solve|apply repeat_length| | |].
  - apply List.Forall_forall. intros x ->%repeat_spec. int_solve.
  - done.
  - injection (HT (one_can_talk _ _)) as -> HK. exists s'. by rewrite HK.
Defined.
Lemma get_link_reads_program_witness :
  bpf_get_link_xdp_id [] 2 4 (one_sys native_5) = Some (inr 5, one_sys native_5).
Proof.
  destruct (get_link_reads_program (LO := one_kernel_ok) (one_sys native_5) [] 2 4) as (r & HR & HT & _).
  - int_solve.
  - lia.
  - done.
  - cbn. constructor; [intros []%elem_of_nil|constructor].
  - rewrite HR, (HT (one_can_talk _ _)). reflexivity.
Defined.
