(* ===== verification/LinkUser.v ===== *)
(** * Attaching and detaching programs: common/common_user_bpf_xdp.c

    [xdp_link_attach] and [xdp_link_detach], on top of the netlink functions of Netlink.v,
    and the check of a map against what a program expects.  What the kernel does with an
    accepted request is stated by the class [XdpDevicesOk]: a device has at most one
    program per mode.  The theorems say what a device runs after a call, also after a
    failing one. *)

From S2P Require Import Prelude Nlattr Netlink.
#[local] Open Scope Z_scope.
#[local] Open Scope prog_scope.

Definition EEXIST : Z := 17.
Definition EXIT_OK : Z := 0.
Definition EXIT_FAIL : Z := 1.
Definition EXIT_FAIL_XDP : Z := 30.
Definition XDP_FLAGS_UPDATE_IF_NOEXIST : Z := 1.
Definition XDP_FLAGS_MODES : Z := Z.lor (Z.lor XDP_FLAGS_SKB_MODE XDP_FLAGS_DRV_MODE) XDP_FLAGS_HW_MODE.

Section Calls.
Context `{NlKernel} (stack : list Z).

(** The flags of the program that is unloaded before the second attempt. *)
Definition opposite_flags (old_flags : Z) : Z :=
  Z.lor (Z.land old_flags (u32 (Z.lnot XDP_FLAGS_MODES)))
    (if negb (Z.land old_flags XDP_FLAGS_SKB_MODE =? 0) then XDP_FLAGS_DRV_MODE else XDP_FLAGS_SKB_MODE).

Definition xdp_link_attach (ifindex xdp_flags prog_fd : Z) : M nlsys Z :=
  let! err := bpf_set_link_xdp_fd stack ifindex prog_fd xdp_flags in
  let! err :=
    if (err =? - EEXIST) && (Z.land xdp_flags XDP_FLAGS_UPDATE_IF_NOEXIST =? 0) then
      let! err := bpf_set_link_xdp_fd stack ifindex (-1) (opposite_flags xdp_flags) in
      if err =? 0 then bpf_set_link_xdp_fd stack ifindex prog_fd xdp_flags else ret err
    else ret err in
  if err <? 0 then ret EXIT_FAIL_XDP else ret EXIT_OK.

Definition xdp_link_detach (ifindex xdp_flags expected_prog_id : Z) : M nlsys Z :=
  let! r := bpf_get_link_xdp_id stack ifindex xdp_flags in
  match r with
  | inl _ => ret EXIT_FAIL_XDP
  | inr curr_prog_id =>
      if curr_prog_id =? 0 then ret EXIT_OK
      else if negb (expected_prog_id =? 0) && negb (curr_prog_id =? expected_prog_id) then ret EXIT_FAIL
      else
        let! err := bpf_set_link_xdp_fd stack ifindex (-1) xdp_flags in
        if err <? 0 then ret EXIT_FAIL_XDP else ret EXIT_OK
  end.
End Calls.

(** ** Maps *)

(** The fields of [struct bpf_map_info] that are compared. *)
Record bpf_map_info := Bpf_map_info {
  info_type : Z; info_id : Z; info_key_size : Z; info_value_size : Z; info_max_entries : Z
}.
Definition check_map_fd_info (info exp : bpf_map_info) : Z :=
  if negb (info_key_size exp =? 0) && negb (info_key_size exp =? info_key_size info) then EXIT_FAIL
  else if negb (info_value_size exp =? 0) && negb (info_value_size exp =? info_value_size info) then EXIT_FAIL
  else if negb (info_max_entries exp =? 0) && negb (info_max_entries exp =? info_max_entries info) then EXIT_FAIL
  else if negb (info_type exp =? 0) && negb (info_type exp =? info_type info) then EXIT_FAIL
  else 0.

(** ** Devices *)

(** [running k i m] is the program of device [i] in mode [m]; [mode_of] is the mode the
    kernel takes for flags, which is its own choice when they name none. *)
Class XdpDevices `{LinkKernel} := {
  running : kst -> Z -> Z -> option Z;
  mode_of : kst -> Z -> Z -> Z
}.
(** linux/if_link.h and the XDP attach documentation: an accepted request sets or, with a
    negative descriptor, removes the program of its mode; a refused one changes nothing. *)
Class XdpDevicesOk `{XD : XdpDevices} : Prop := {
  mode_skb k i fl : Z.land fl XDP_FLAGS_MODES = XDP_FLAGS_SKB_MODE -> mode_of k i fl = XDP_FLAGS_SKB_MODE;
  mode_drv k i fl : Z.land fl XDP_FLAGS_MODES = XDP_FLAGS_DRV_MODE -> mode_of k i fl = XDP_FLAGS_DRV_MODE;
  mode_hw k i fl : Z.land fl XDP_FLAGS_MODES = XDP_FLAGS_HW_MODE -> mode_of k i fl = XDP_FLAGS_HW_MODE;
  attach_sets k i fd fl k' j m : attach k i fd fl = (0, k') ->
    running k' j m = if decide (j = i /\ m = mode_of k i fl) then (if fd <? 0 then None else Some fd)
                     else running k j m;
  attach_refused k i fd fl e k' j m : attach k i fd fl = (e, k') -> e <> 0 -> running k' j m = running k j m
}.

Section Devices.
Context `{LO : LinkKernelOk} {XD : XdpDevices} {XO : XdpDevicesOk}.
Context (stack : list Z) (Hlen : length stack = BUFSIZE) (Hbytes : Forall is_u8 stack).
(** The process's descriptors. *)
Context (F : list Z).

Definition int32 (z : Z) : Prop := -2147483648 <= z < 2147483648.

(** The program tables of two kernel states agree, except that of device [i] in mode [m],
    which is [v]. *)
Definition reprogrammed (k k' : kst) (i m : Z) (v : option Z) : Prop :=
  forall j n, running k' j n = if decide (j = i /\ n = m) then v else running k j n.
Definition unchanged (k k' : kst) : Prop := forall j n, running k' j n = running k j n.

Lemma can_talk_dec s req : can_talk s req \/ ~ can_talk s req.
Proof.
  unfold can_talk, can_open. destruct s as [k S I]. cbn [n_kern n_fds]. destruct (Z.le_gt_cases 0 (nl_socket k S)), (Z.le_gt_cases 0 (nl_bind k (nl_socket k S))),
    (Z.le_gt_cases 0 (fst (fst (nl_getsockname k (nl_socket k S))))), (Z.le_gt_cases 0 (nl_send k req));
    (left; by split_and!) || (right; lia).
Qed.

(** One request: accepted, or negative and without effect on the devices. *)
Lemma wp_set_link k i fd fl (Q : Z -> nlsys -> Prop) :
  int32 i -> int32 fd -> is_u32 fl ->
  (forall k', reprogrammed k k' i (mode_of k i fl) (if fd <? 0 then None else Some fd) -> Q 0 (Nlsys k' F [])) ->
  (forall e k', bpf_set_link_xdp_fd stack i fd fl (Nlsys k F []) = Some (e, Nlsys k' F []) -> e < 0 -> unchanged k k' -> Q e (Nlsys k' F [])) ->
  wp (bpf_set_link_xdp_fd stack i fd fl) Q (Nlsys k F []).
Proof using Hlen Hbytes XO LO.
  intros Hi Hfd Hfl H0 Hneg.
  assert (quiet (Nlsys k F [])) as Hq by done.
  pose proof (set_link_spec _ stack i fd fl Hi Hfd Hfl Hlen Hbytes Hq) as W.
  apply wp_run in W as (e & [k' F' I'] & Ecall & Hok & Hno & HF & HI). cbn in Hok, Hno, HF, HI. subst F' I'.
  unfold wp. rewrite Ecall.
  destruct (can_talk_dec (Nlsys k F []) (setlink_request i fd fl 1)) as [Ht|Ht].
  - specialize (Hok Ht). symmetry in Hok. pose proof (attach_code k i fd fl) as Hc. rewrite Hok in Hc. cbn in Hc.
    destruct (decide (e = 0)) as [->|Hne].
    + apply H0. intros j n. by apply (attach_sets k i fd fl k').
    + apply Hneg; [done|lia|]. intros j n. by apply (attach_refused k i fd fl e).
  - destruct (Hno Ht) as [He ->]. by apply Hneg.
Qed.

Lemma opposite_u32 fl : is_u32 fl -> is_u32 (opposite_flags fl).
Proof.
  intros Hf. unfold opposite_flags. split; [apply Z.lor_nonneg; split; [apply Z.land_nonneg; left; apply Hf|by destruct (_ =? 0)]|].
  apply (Z.log2_lt_cancel _ (2 ^ 32)). rewrite Z.log2_lor.
  - apply Z.max_lub_lt; [|by destruct (_ =? 0)].
    eapply Z.le_lt_trans; [apply Z.log2_land; [apply Hf|done]|]. eapply Z.le_lt_trans; [apply Z.le_min_r|]. done.
  - apply Z.land_nonneg. left. apply Hf.
  - by destruct (_ =? 0).
Qed.
(** The unloaded mode is the other one of SKB and driver mode. *)
Definition opposite_mode (fl : Z) : Z :=
  if negb (Z.land fl XDP_FLAGS_SKB_MODE =? 0) then XDP_FLAGS_DRV_MODE else XDP_FLAGS_SKB_MODE.
Lemma opposite_mode_of k i fl : mode_of k i (opposite_flags fl) = opposite_mode fl.
Proof using XO.
  assert (forall m, Z.land m XDP_FLAGS_MODES = m ->
    Z.land (Z.lor (Z.land fl (u32 (Z.lnot XDP_FLAGS_MODES))) m) XDP_FLAGS_MODES = m) as Hm.
  { intros m Hm. rewrite Z.land_lor_distr_l, <- Z.land_assoc, Hm.
    change (Z.land (u32 (Z.lnot XDP_FLAGS_MODES)) XDP_FLAGS_MODES) with 0. by rewrite Z.land_0_r, Z.lor_0_l. }
  unfold opposite_flags, opposite_mode.
  destruct (Z.land fl XDP_FLAGS_SKB_MODE =? 0); cbn [negb]; [apply mode_skb|apply mode_drv]; by apply Hm.
Qed.

(** The mode [m] is the one that the flags name, if they name one. *)
Definition names_mode (fl m : Z) : Prop :=
  forall x, x ∈ [XDP_FLAGS_SKB_MODE; XDP_FLAGS_DRV_MODE; XDP_FLAGS_HW_MODE] -> Z.land fl XDP_FLAGS_MODES = x -> m = x.
Lemma names_mode_of k i fl : names_mode fl (mode_of k i fl).
Proof using XO.
  intros x Hx E. rewrite !elem_of_cons, elem_of_nil in Hx. destruct Hx as [->|[->|[->|[]]]]; [by apply mode_skb|by apply mode_drv|by apply mode_hw].
Qed.
(** Another program is in the way, and may be replaced: the first request was answered with
    -EEXIST, and the flags do not forbid to update. *)
Definition in_the_way (k : kst) (i fl fd : Z) : Prop :=
  Z.land fl XDP_FLAGS_UPDATE_IF_NOEXIST = 0 /\ exists s1, bpf_set_link_xdp_fd stack i fd fl (Nlsys k F []) = Some (- EEXIST, s1).
(** What the devices are after attaching with result [r]. *)
Definition attached (k k' : kst) (i fl fd r : Z) : Prop :=
  r = EXIT_OK /\ (exists m, names_mode fl m /\
    (reprogrammed k k' i m (Some fd) \/
     in_the_way k i fl fd /\ exists k1, reprogrammed k k1 i (opposite_mode fl) None /\ reprogrammed k1 k' i m (Some fd))) \/
  r = EXIT_FAIL_XDP /\ (unchanged k k' \/ in_the_way k i fl fd /\ reprogrammed k k' i (opposite_mode fl) None).
Lemma wp_attach k i fl fd : int32 i -> 0 <= fd < 2147483648 -> is_u32 fl ->
  wp (xdp_link_attach stack i fl fd) (fun r s' => exists k', s' = Nlsys k' F [] /\ attached k k' i fl fd r) (Nlsys k F []).
Proof using Hlen Hbytes XO LO.
  intros Hi Hfd Hfl. assert (int32 fd) as Hfd' by (unfold int32; lia). unfold xdp_link_attach. wp_step.
  assert (Hset : (if fd <? 0 then None else Some fd) = Some fd) by (by rewrite (proj2 (Z.ltb_ge _ _)) by lia).
  apply wp_set_link; [done..|intros k' Hk'|intros e k' Ecall He Hun].
  { rewrite Hset in Hk'. cbn [Z.eqb Z.opp andb]. wp_steps. exists k'. split; [done|]. left. split; [done|]. eexists. split; [apply names_mode_of|]. left. exact Hk'. }
  wp_step. destruct (_ && _)%bool eqn:Eb.
  2: { wp_step. rewrite (proj2 (Z.ltb_lt _ _)) by lia. wp_step. exists k'. split; [done|]. right. auto. }
  bool_prop. subst e. assert (Hway : in_the_way k i fl fd) by (split; [done|by eexists]). wp_step.
  apply wp_set_link; [done|unfold int32; lia|by apply opposite_u32|intros k2 Hk2|intros e2 k2 _ He2 Hun2].
  2: { rewrite (proj2 (Z.eqb_neq _ _)) by lia. wp_step. rewrite (proj2 (Z.ltb_lt _ _)) by lia. wp_step.
       exists k2. split; [done|]. right. split; [done|]. left. intros j n. by rewrite Hun2, Hun. }
  rewrite opposite_mode_of in Hk2. cbn [Z.ltb Z.compare Z.eqb] in *.
  assert (Hgone : reprogrammed k k2 i (opposite_mode fl) None) by (intros j n; rewrite Hk2; by rewrite Hun).
  apply wp_set_link; [done..|intros k3 Hk3|intros e3 k3 _ He3 Hun3].
  - rewrite Hset in Hk3. change (0 <? 0) with false. cbv iota. wp_step. exists k3. split; [done|]. left. split; [done|].
    eexists. split; [apply (names_mode_of k2 i)|]. right. split; [done|]. by exists k2.
  - rewrite (proj2 (Z.ltb_lt _ _)) by lia. wp_step. exists k3. split; [done|]. right. split; [done|]. right.
    split; [done|]. intros j n. by rewrite Hun3, Hgone.
Qed.
(** Whatever the result, other devices are as before. *)
Lemma attached_others k k' i fl fd r j n : attached k k' i fl fd r -> j <> i -> running k' j n = running k j n.
Proof.
  assert (Hrep : forall k k' m v, reprogrammed k k' i m v -> j <> i -> running k' j n = running k j n).
  { intros k0 k1 m v Hr Hj. rewrite Hr, decide_False; [done|]. by intros [? _]. }
  intros [(_ & m & _ & [Hr|(_ & k1 & H1 & H2)])|(_ & [Hu|(_ & Hr)])] Hj; [by eapply Hrep| |apply Hu|by eapply Hrep].
  rewrite (Hrep _ _ _ _ H2 Hj). by eapply Hrep.
Qed.
Lemma detach_spec k i fl expected : int32 i -> i <> 0 -> is_u32 fl -> NoDup (map l_index (links k)) ->
  wp (xdp_link_detach stack i fl expected) (fun r s' => exists k', s' = Nlsys k' F [] /\
    let id := get_xdp_id (device_info (links k) i) fl in
    (r = EXIT_OK /\ id = 0 /\ k' = k \/
     r = EXIT_FAIL /\ expected <> 0 /\ id <> expected /\ k' = k \/
     r = EXIT_OK /\ id <> 0 /\ (expected = 0 \/ id = expected) /\ reprogrammed k k' i (mode_of k i fl) None \/
     r = EXIT_FAIL_XDP /\ unchanged k k')) (Nlsys k F []).
Proof using Hlen Hbytes XO LO.
  intros Hi Hi0 Hfl Hnd. unfold xdp_link_detach. wp_step.
  assert (quiet (Nlsys k F [])) as Hq by done.
  eapply wp_mono; [by apply get_link_spec|]. cbn [n_kern]. intros r s' [-> Hr].
  rewrite info_steps_device in Hr by done.
  set (id := get_xdp_id (device_info (links k) i) fl) in *.
  assert (r = inr id \/ exists e, r = inl e) as [->|[e ->]].
  { destruct (single_mode fl); [|eauto]. destruct Hr as [H1 H2].
    destruct (can_talk_dec (Nlsys k F []) (getlink_request (s32 (nl_time k)))) as [Ht|Ht]; [auto|].
    destruct (H2 Ht) as (e & -> & _). eauto. }
  2: { wp_step. exists k. split; [done|]. do 3 right. by split. }
  clear Hr. destruct (Z.eqb_spec id 0) as [Hz|Hnz]; [wp_step; exists k; auto|].
  destruct (_ && _)%bool eqn:Eb.
  { bool_prop. wp_step. exists k. split; [done|]. right. left. by split_and!. }
  wp_step. apply wp_set_link; [done|unfold int32; lia|done|intros k' Hk'|intros e k' _ He Hun].
  - change (0 <? 0) with false. cbv iota. wp_step. exists k'. split; [done|]. do 2 right. left. split_and!; try done.
    apply andb_false_iff in Eb as [Eb|Eb]; bool_prop; auto.
  - rewrite (proj2 (Z.ltb_lt _ _)) by lia. wp_step. exists k'. split; [done|]. by do 3 right.
Qed.
End Devices.

(** C23: attaching.  The call always returns and leaves descriptors as they were; other
    devices are never touched.  With EXIT_OK the device runs the new program, in the mode that
    the flags name if they name one, and every other mode is as before, except that the program
    of the opposite mode may have been removed on the way; with EXIT_FAIL_XDP the devices are as
    before, or the program of the opposite mode is gone: a failing second attempt leaves the
    device without it.  In both cases a program is removed only if the kernel answered the
    first request with -EEXIST and the flags allow to replace. *)
Theorem link_attach_replaces `{LO : LinkKernelOk} {XD : XdpDevices} {XO : XdpDevicesOk}
    (stack : list Z) (k : kst) (F : list Z) (i fl fd : Z) :
  length stack = BUFSIZE -> Forall is_u8 stack ->
  int32 i -> 0 <= fd < 2147483648 -> is_u32 fl ->
  exists r k', xdp_link_attach stack i fl fd (Nlsys k F []) = Some (r, Nlsys k' F []) /\
    (forall j n, j <> i -> running k' j n = running k j n) /\
    (r = EXIT_OK /\ (exists m, names_mode fl m /\
       (reprogrammed k k' i m (Some fd) \/
        in_the_way stack F k i fl fd /\ exists k1, reprogrammed k k1 i (opposite_mode fl) None /\ reprogrammed k1 k' i m (Some fd))) \/
     r = EXIT_FAIL_XDP /\ (unchanged k k' \/ in_the_way stack F k i fl fd /\ reprogrammed k k' i (opposite_mode fl) None)).
Proof.
  intros Hl Hb Hi Hfd Hfl. pose proof (wp_attach stack Hl Hb F k i fl fd Hi Hfd Hfl) as W.
  apply wp_run in W as (r & s' & HR & k' & -> & Hpost). exists r, k'. split; [done|].
  split; [intros j n Hj; by eapply attached_others|exact Hpost].
Qed.

(** Detaching.  The program is removed only when the device runs one and its id is the
    expected one (or none was expected); a device without a program is a success, a
    different id is refused with EXIT_FAIL and nothing changes, and an error of the
    exchange leaves every program in place. *)
Theorem link_detach_checks_id `{LO : LinkKernelOk} {XD : XdpDevices} {XO : XdpDevicesOk}
    (stack : list Z) (k : kst) (F : list Z) (i fl expected : Z) :
  length stack = BUFSIZE -> Forall is_u8 stack ->
  int32 i -> i <> 0 -> is_u32 fl -> NoDup (map l_index (links k)) ->
  exists r k', xdp_link_detach stack i fl expected (Nlsys k F []) = Some (r, Nlsys k' F []) /\
    let id := get_xdp_id (device_info (links k) i) fl in
    (r = EXIT_OK /\ id = 0 /\ k' = k \/
     r = EXIT_FAIL /\ expected <> 0 /\ id <> expected /\ k' = k \/
     r = EXIT_OK /\ id <> 0 /\ (expected = 0 \/ id = expected) /\ reprogrammed k k' i (mode_of k i fl) None \/
     r = EXIT_FAIL_XDP /\ unchanged k k').
Proof.
  intros Hl Hb Hi Hi0 Hfl Hnd. pose proof (detach_spec stack Hl Hb F k i fl expected Hi Hi0 Hfl Hnd) as W.
  apply wp_run in W as (r & s' & HR & k' & -> & Hpost). by exists r, k'.
Qed.

(** The kernel with one device of Netlink.v, with a program in SKB mode. *)
#[local] Instance one_devices : XdpDevices := {|
  running k i m := if i =? 2 then k m else None;
  mode_of _ _ fl := one_mode fl
|}.
Lemma one_devices_ok : XdpDevicesOk (XD := one_devices).
Proof.
  split; cbn [running mode_of one_devices].
  1-3: intros k i fl Hm; unfold one_mode; change 14 with XDP_FLAGS_MODES; by rewrite Hm.
  - intros k i fd fl k' j m Ha. cbn in Ha. unfold one_attach in Ha.
    destruct (Z.eqb_spec i 2) as [->|]; cbn [negb] in Ha; [|discriminate Ha].
    destruct (_ && _)%bool; [discriminate Ha|]. injection Ha as <-. destruct (Z.eqb_spec j 2) as [->|Hj].
    + destruct (Z.eqb_spec m (one_mode fl)) as [->|Hm]; [by rewrite decide_True|]. rewrite decide_False; [done|by intros [_ ?]].
    + rewrite decide_False; [done|by intros [? _]].
  - intros k i fd fl e k' j m Ha He. cbn in Ha. unfold one_attach in Ha. repeat case_match; by simplify_eq.
Qed.
Definition skb_9 : one_state := fun m => if m =? 2 then Some 9 else None.
Lemma ff_bytes : Forall is_u8 (repeat 0xff BUFSIZE).
Proof. apply List.Forall_forall. intros x ->%repeat_spec. int_solve. Qed.

(** The SKB program is in the way, is removed, and the second attempt succeeds. *)
Lemma link_attach_replaces_witness :
  exists k', xdp_link_attach (repeat 0xff BUFSIZE) 2 4 5 (one_sys skb_9) = Some (EXIT_OK, @Nlsys one_kernel k' [0; 1; 2] []) /\
    k' 4 = Some 5 /\ k' 2 = None /\ (forall j n, j <> 2 -> running k' j n = running (H := one_kernel) skb_9 j n).
Proof.
  destruct (link_attach_replaces (LO := one_kernel_ok) (XO := one_devices_ok) (repeat 0xff BUFSIZE) skb_9 [0; 1; 2] 2 4 5
    (repeat_length _ _) ff_bytes) as (r & k' & HR & Hoth & _); [unfold int32; lia|lia|int_solve|].
  assert (Hval : option_map (fun p => (fst p, n_kern (snd p) 4, n_kern (snd p) 2))
    (xdp_link_attach (repeat 0xff BUFSIZE) 2 4 5 (one_sys skb_9)) = Some (EXIT_OK, Some 5, None)) by (vm_compute; reflexivity).
  unfold one_sys in Hval. rewrite HR in Hval. injection Hval as -> H4 H2. exists k'. exact (conj HR (conj H4 (conj H2 Hoth))).
Defined.
(** Id 5 runs, id 7 is expected. *)
Lemma link_detach_checks_id_witness :
  exists r k', xdp_link_detach (repeat 0xff BUFSIZE) 2 4 7 (one_sys native_5) = Some (r, @Nlsys one_kernel k' [0; 1; 2] []) /\
    let id := get_xdp_id (device_info (links (H := one_kernel) native_5) 2) 4 in
    (r = EXIT_OK /\ id = 0 /\ k' = native_5 \/
     r = EXIT_FAIL /\ 7 <> 0 /\ id <> 7 /\ k' = native_5 \/
     r = EXIT_OK /\ id <> 0 /\ (7 = 0 \/ id = 7) /\ reprogrammed (H := one_kernel) native_5 k' 2 4 None \/
     r = EXIT_FAIL_XDP /\ unchanged (H := one_kernel) native_5 k').
Proof.
  apply (link_detach_checks_id (LO := one_kernel_ok) (XO := one_devices_ok) (repeat 0xff BUFSIZE) native_5 [0; 1; 2] 2 4 7
    (repeat_length _ _) ff_bytes).
  - unfold int32. lia.
  - lia.
  - int_solve.
  - cbn. constructor; [intros []%elem_of_nil|constructor].
Defined.
