(* ===== verification/ProgLinfo.v ===== *)
(** * Line information of loaded programs: libbpf/src/bpf_prog_linfo.c

    The arrays copied from the kernel are byte lists, a record is a byte offset, and a
    read outside an array is [None].  Heap blocks are those of Os.v.  The theorems: the
    dissection cuts the records into one run per function, in order and with increasing
    addresses; the two searches return the last record that is not behind what is
    searched; construction owns its blocks or gives all of them back. *)

From S2P Require Import Prelude Nlattr Netlink Os.
#[local] Open Scope Z_scope.
#[local] Open Scope prog_scope.

(** [offsetof(struct bpf_line_info, file_name_off)] *)
Definition line_info_min : Z := 4.

Definition u64_of (buf : list Z) (p : Z) : option Z :=
  x ← word_of buf p; y ← word_of buf (p + 4); Some (x + 4294967296 * y).

(** The part of [struct bpf_prog_info] that is used; arrays are byte lists or, for the
    function symbols, lists of numbers; a null address is [None]. *)
Record bpf_prog_info := Bpf_prog_info {
  nr_line_info : Z; line_info_rec_size : Z; line_info : list Z;
  nr_jited_ksyms : Z; nr_jited_line_info : Z; jited_line_info_rec_size : Z; jited_line_info : option (list Z);
  nr_jited_func_lens : Z; jited_ksyms : option (list Z); jited_func_lens : option (list Z)
}.
Record bpf_prog_linfo := Bpf_prog_linfo {
  raw_linfo : list Z; raw_jited_linfo : list Z;
  nr_jited_linfo_per_func : list Z; jited_linfo_func_idx : list Z;
  nr_linfo : Z; nr_jited_func : Z; rec_size : Z; jited_rec_size : Z
}.

(** ** Dissection *)

(** The loop: [fi] and [per] are the arrays written; [inl] is the jump to [errout]. *)
Fixpoint dissect_loop (fuel : nat) (jited : list Z) (jrs nr_linfo nr_func : Z) (ksym_func ksym_len : list Z)
    (i f prev_i last : Z) (fi per : list Z) : option (Z + Z * Z * list Z * list Z) :=
  if (i <? nr_linfo) && (f <? nr_func) then
    match fuel with
    | O => None
    | S fuel =>
        cur ← u64_of jited (i * jrs);
        kf ← ksym_func !! Z.to_nat f;
        if kf =? cur then
          let fi := setZ fi f i in
          kp ← ksym_func !! Z.to_nat (f - 1);
          lp ← ksym_len !! Z.to_nat (f - 1);
          if u64 (u64 (last - kp) + 1) >? lp then Some (inl (- EINVAL))
          else dissect_loop fuel jited jrs nr_linfo nr_func ksym_func ksym_len (i + 1) (f + 1) i cur fi
                 (setZ per (f - 1) (i - prev_i))
        else if cur <=? last then Some (inl (- EINVAL))
        else dissect_loop fuel jited jrs nr_linfo nr_func ksym_func ksym_len (i + 1) f prev_i cur fi per
    end
  else Some (inr (f, prev_i, fi, per)).

(** The result and the two arrays; [fi] and [per] are what the allocator returned. *)
Definition dissect_jited_func (p : bpf_prog_linfo) (ksym_func ksym_len : list Z) : option (Z * bpf_prog_linfo) :=
  k0 ← ksym_func !! 0%nat;
  first ← u64_of (raw_jited_linfo p) 0;
  if negb (k0 =? first) then Some (- EINVAL, p)
  else
    let fi := setZ (jited_linfo_func_idx p) 0 0 in
    r ← dissect_loop (Z.to_nat (nr_linfo p)) (raw_jited_linfo p) (jited_rec_size p) (nr_linfo p) (nr_jited_func p)
          ksym_func ksym_len 1 1 0 first fi (nr_jited_linfo_per_func p);
    match r with
    | inl e => Some (e, p)
    | inr (f, prev_i, fi, per) =>
        let q per := Bpf_prog_linfo (raw_linfo p) (raw_jited_linfo p) per fi (nr_linfo p) (nr_jited_func p)
                       (rec_size p) (jited_rec_size p) in
        if negb (f =? nr_jited_func p) then Some (- EINVAL, q per)
        else Some (0, q (setZ per (nr_jited_func p - 1) (nr_linfo p - prev_i)))
    end.

(** ** Searching *)

(** The loop of both searches: [key] is compared with the values at [q], [q + step], ...;
    the result is the record before the one where it stops. *)
Fixpoint lfind_loop (n : nat) (value : Z -> option Z) (key q step raw rec_size : Z) : option (option Z) :=
  match n with
  | O => Some (Some (raw - rec_size))
  | S n => v ← value q;
           if key <? v then Some (Some (raw - rec_size))
           else lfind_loop n value key (q + step) step (raw + rec_size) rec_size
  end.

(** A returned pointer is an offset in [raw_linfo]; [Some None] is NULL. *)
Definition bpf_prog_linfo__lfind_addr_func (p : bpf_prog_linfo) (addr func_idx nr_skip : Z) : option (option Z) :=
  if func_idx >=? nr_jited_func p then Some None
  else
    nr_linfo ← nr_jited_linfo_per_func p !! Z.to_nat func_idx;
    if nr_skip >=? nr_linfo then Some None
    else
      fi ← jited_linfo_func_idx p !! Z.to_nat func_idx;
      let start := u32 (fi + nr_skip) in
      let jited := u32 (start * jited_rec_size p) in
      first ← u64_of (raw_jited_linfo p) jited;
      if addr <? first then Some None
      else
        let raw := u32 (start * rec_size p) in
        lfind_loop (Z.to_nat (nr_linfo - nr_skip)) (u64_of (raw_jited_linfo p)) addr jited (jited_rec_size p)
          raw (rec_size p).
Definition bpf_prog_linfo__lfind (p : bpf_prog_linfo) (insn_off nr_skip : Z) : option (option Z) :=
  if nr_skip >=? nr_linfo p then Some None
  else
    let raw := u32 (nr_skip * rec_size p) in
    first ← word_of (raw_linfo p) raw;
    if insn_off <? first then Some None
    else lfind_loop (Z.to_nat (nr_linfo p - nr_skip)) (word_of (raw_linfo p)) insn_off raw (rec_size p) raw (rec_size p).

(** ** Construction *)

Section Construct.
Context `{Os}.

(** The blocks of a structure: itself and its four arrays, null when not allocated. *)
Record blocks := Blocks { b_self : Z; b_linfo : option Z; b_jited : option Z; b_per : option Z; b_idx : option Z }.
Definition free_opt (p : option Z) : K unit := match p with Some p => free p | None => ret tt end.
Definition bpf_prog_linfo__free (b : option blocks) : K unit :=
  match b with
  | None => ret tt
  | Some b =>
      free_opt (b_linfo b) ;;; free_opt (b_jited b) ;;; free_opt (b_per b) ;;; free_opt (b_idx b) ;;;
      free (b_self b)
  end.

(** Enough information for the jited part. *)
Definition jited_complete (info : bpf_prog_info) : bool :=
  negb ((nr_jited_ksyms info =? 0) ||
        match jited_line_info info with None => true | Some _ => false end ||
        negb (nr_jited_line_info info =? nr_line_info info) ||
        (jited_line_info_rec_size info <? 8) ||
        negb (nr_jited_func_lens info =? nr_jited_ksyms info) ||
        match jited_ksyms info with None => true | Some _ => false end ||
        match jited_func_lens info with None => true | Some _ => false end).

(** [memcpy] of [n] bytes to a new block. *)
Definition memcpy (src : list Z) (n : Z) : K (list Z) :=
  if lenZ src <? n then fault else ret (take (Z.to_nat n) src).

(** [None] is NULL.  malloc does not say what a block holds; the arrays of the functions
    start as zeros here, and every element is written before it is read. *)
Definition bpf_prog_linfo__new (info : bpf_prog_info) : K (option (blocks * bpf_prog_linfo)) :=
  let nr := nr_line_info info in
  if nr =? 0 then ret None
  else if line_info_rec_size info <? line_info_min then ret None
  else
    let! self := calloc in
    match self with None => ret None | Some self =>
    let err_free b := bpf_prog_linfo__free (Some b) ;;; ret None in
    let! linfo := calloc in
    match linfo with None => err_free (Blocks self None None None None) | Some linfo =>
    let! raw := memcpy (line_info info) (nr * line_info_rec_size info) in
    if negb (jited_complete info) then
      ret (Some (Blocks self (Some linfo) None None None, Bpf_prog_linfo raw [] [] [] nr 0 (line_info_rec_size info) 0))
    else
    let! jited := calloc in
    match jited with None => err_free (Blocks self (Some linfo) None None None) | Some jited =>
    let! jraw := deref (jited_line_info info) in
    let! jraw := memcpy jraw (nr * jited_line_info_rec_size info) in
    let! per := calloc in
    match per with None => err_free (Blocks self (Some linfo) (Some jited) None None) | Some per =>
    let! idx := calloc in
    match idx with None => err_free (Blocks self (Some linfo) (Some jited) (Some per) None) | Some idx =>
    let b := Blocks self (Some linfo) (Some jited) (Some per) (Some idx) in
    let n := Z.to_nat (nr_jited_ksyms info) in
    let! ksyms := deref (jited_ksyms info) in
    let! lens := deref (jited_func_lens info) in
    let! (err, p) := deref (dissect_jited_func
      (Bpf_prog_linfo raw jraw (replicate n 0) (replicate n 0) nr (nr_jited_ksyms info) (line_info_rec_size info)
         (jited_line_info_rec_size info)) ksyms lens) in
    if negb (err =? 0) then err_free b else ret (Some (b, p))
    end end end end end.
End Construct.

(** ** Searching finds the last record not behind the key *)

(** Reading whole records. *)
Lemma word_in buf p : Forall is_u8 buf -> 0 <= p -> p + 4 <= lenZ buf -> exists w, word_of buf p = Some w /\ is_u32 w.
Proof.
  intros Hu Hp Hl. unfold word_of. destruct (half_in buf Hu p) as (x & -> & Hx); [lia..|].
  destruct (half_in buf Hu (p + 2)) as (y & -> & Hy); [lia..|]. cbn. eexists. split; [done|]. int_solve.
Qed.
Lemma u64_in buf p : Forall is_u8 buf -> 0 <= p -> p + 8 <= lenZ buf -> exists w, u64_of buf p = Some w /\ is_u64 w.
Proof.
  intros Hu Hp Hl. unfold u64_of. destruct (word_in buf p Hu) as (x & -> & Hx); [lia..|].
  destruct (word_in buf (p + 4) Hu) as (y & -> & Hy); [lia..|]. cbn. eexists. split; [done|]. int_solve.
Qed.

(** The instruction offset and the address of record [j]. *)
Definition rec_insn (p : bpf_prog_linfo) (j : Z) : Z := default 0 (word_of (raw_linfo p) (j * rec_size p)).
Definition rec_addr (p : bpf_prog_linfo) (j : Z) : Z := default 0 (u64_of (raw_jited_linfo p) (j * jited_rec_size p)).

(** The arrays hold [nr_linfo] records, and their sizes fit 32 bits, in which the searches
    compute offsets. *)
Record linfo_wf (p : bpf_prog_linfo) : Prop := {
  wf_raw : Forall is_u8 (raw_linfo p) /\ lenZ (raw_linfo p) = nr_linfo p * rec_size p;
  wf_rec : 4 <= rec_size p /\ nr_linfo p * rec_size p < 4294967296;
  wf_nr : 0 < nr_linfo p
}.
Record jited_wf (p : bpf_prog_linfo) : Prop := {
  wf_jraw : Forall is_u8 (raw_jited_linfo p) /\ lenZ (raw_jited_linfo p) = nr_linfo p * jited_rec_size p;
  wf_jrec : 8 <= jited_rec_size p /\ nr_linfo p * jited_rec_size p < 4294967296;
  wf_jfunc : 0 < nr_jited_func p /\ length (nr_jited_linfo_per_func p) = Z.to_nat (nr_jited_func p) /\
             length (jited_linfo_func_idx p) = Z.to_nat (nr_jited_func p)
}.
Lemma rec_insn_read p j : linfo_wf p -> 0 <= j < nr_linfo p -> word_of (raw_linfo p) (j * rec_size p) = Some (rec_insn p j).
Proof.
  intros [[Hu Hl] [Hr _] _] Hj. unfold rec_insn. destruct (word_in (raw_linfo p) (j * rec_size p) Hu) as (w & -> & _); [nia..|done].
Qed.
Lemma rec_addr_read p j : jited_wf p -> 0 <= j < nr_linfo p ->
  u64_of (raw_jited_linfo p) (j * jited_rec_size p) = Some (rec_addr p j).
Proof.
  intros [[Hu Hl] [Hr _] _] Hj. unfold rec_addr.
  destruct (u64_in (raw_jited_linfo p) (j * jited_rec_size p) Hu) as (w & -> & _); [nia..|done].
Qed.

(** The scan of records [a, a + n). *)
Lemma lfind_loop_spec (value : Z -> option Z) (e : Z -> Z) key step rs : forall n a,
  (forall j, a <= j < a + Z.of_nat n -> value (j * step) = Some (e j)) ->
  exists j, a - 1 <= j < a + Z.of_nat n /\
    lfind_loop n value key (a * step) step (a * rs) rs = Some (Some (j * rs)) /\
    (forall i, a <= i <= j -> e i <= key) /\ (j + 1 < a + Z.of_nat n -> key < e (j + 1)).
Proof.
  induction n as [|n IH]; intros a Hv.
  { exists (a - 1). split; [lia|]. split; [cbn; do 2 f_equal; lia|]. split; intros; lia. }
  cbn [lfind_loop]. rewrite Hv by lia. cbn [mbind option_bind]. destruct (Z.ltb_spec key (e a)) as [Hlt|Hge].
  - exists (a - 1). split; [lia|]. split; [do 2 f_equal; lia|]. split; [intros; lia|]. intros _. by replace (a - 1 + 1) with a by lia.
  - replace (a * step + step) with ((a + 1) * step) by lia. replace (a * rs + rs) with ((a + 1) * rs) by lia.
    destruct (IH (a + 1)) as (j & Hj & -> & Hle & Hgt); [intros; apply Hv; lia|].
    exists j. split; [lia|]. split; [done|]. split; [|intros; apply Hgt; lia].
    intros i Hi. destruct (decide (i = a)) as [->|]; [done|]. apply Hle. lia.
Qed.

(** What a search among the records [a, b) for a key returns: nothing when there are none
    or the first is behind the key, else the record before the first that is. *)
Definition found (e : Z -> Z) (key a b rs : Z) (r : option Z) : Prop :=
  match r with
  | None => b <= a \/ key < e a
  | Some q => exists j, a <= j < b /\ q = j * rs /\ (forall i, a <= i <= j -> e i <= key) /\ (j + 1 < b -> key < e (j + 1))
  end.
Lemma lfind_spec p insn_off nr_skip : linfo_wf p -> 0 <= nr_skip ->
  exists r, bpf_prog_linfo__lfind p insn_off nr_skip = Some r /\
    found (rec_insn p) insn_off nr_skip (nr_linfo p) (rec_size p) r.
Proof.
  intros W Hs. pose proof (wf_rec _ W) as [Hr4 Hr32]. unfold bpf_prog_linfo__lfind. rewrite Z.geb_leb.
  destruct (Z.leb_spec (nr_linfo p) nr_skip) as [Hge|Hlt]; [exists None; split; [done|by left]|].
  rewrite u32_small by (unfold is_u32; nia). rewrite rec_insn_read by (done || lia). cbn [mbind option_bind].
  destruct (Z.ltb_spec insn_off (rec_insn p nr_skip)) as [Hb|Hb]; [exists None; split; [done|by right]|].
  destruct (lfind_loop_spec (word_of (raw_linfo p)) (rec_insn p) insn_off (rec_size p) (rec_size p)
    (Z.to_nat (nr_linfo p - nr_skip)) nr_skip) as (j & Hj & -> & Hle & Hgt); [intros; apply rec_insn_read; [done|lia]|].
  eexists. split; [done|]. exists j. split; [|split; [done|split; [done|intros; apply Hgt; lia]]].
  destruct (decide (j = nr_skip - 1)) as [->|]; [|lia]. exfalso.
  replace (nr_skip - 1 + 1) with nr_skip in Hgt by lia. specialize (Hgt ltac:(lia)). lia.
Qed.
Lemma lfind_addr_spec p addr f nr_skip a c : linfo_wf p -> jited_wf p -> 0 <= nr_skip -> 0 <= f < nr_jited_func p ->
  jited_linfo_func_idx p !! Z.to_nat f = Some a -> nr_jited_linfo_per_func p !! Z.to_nat f = Some c ->
  0 <= a -> a + c <= nr_linfo p ->
  exists r, bpf_prog_linfo__lfind_addr_func p addr f nr_skip = Some r /\
    found (rec_addr p) addr (a + nr_skip) (a + c) (rec_size p) r.
Proof.
  intros W J Hs Hf Ha Hc Ha0 Hac. pose proof (wf_rec _ W) as [Hr4 Hr32]. pose proof (wf_jrec _ J) as [Hj8 Hj32].
  unfold bpf_prog_linfo__lfind_addr_func. rewrite !Z.geb_leb, (proj2 (Z.leb_gt _ _)) by lia. rewrite Hc. cbn [mbind option_bind].
  rewrite Z.geb_leb. destruct (Z.leb_spec c nr_skip) as [Hge|Hlt]; [exists None; split; [done|left; lia]|].
  rewrite Ha. cbn [mbind option_bind]. rewrite (u32_small (a + nr_skip)) by (unfold is_u32; nia).
  rewrite (u32_small ((a + nr_skip) * jited_rec_size p)) by (unfold is_u32; nia).
  rewrite (u32_small ((a + nr_skip) * rec_size p)) by (unfold is_u32; nia).
  rewrite rec_addr_read by (done || lia). cbn [mbind option_bind].
  destruct (Z.ltb_spec addr (rec_addr p (a + nr_skip))) as [Hb|Hb]; [exists None; split; [done|by right]|].
  destruct (lfind_loop_spec (u64_of (raw_jited_linfo p)) (rec_addr p) addr (jited_rec_size p) (rec_size p)
    (Z.to_nat (c - nr_skip)) (a + nr_skip)) as (j & Hj & -> & Hle & Hgt); [intros; apply rec_addr_read; [done|lia]|].
  eexists. split; [done|]. exists j. split; [|split; [done|split; [done|intros; apply Hgt; lia]]].
  destruct (decide (j = a + nr_skip - 1)) as [->|]; [|lia]. exfalso.
  replace (a + nr_skip - 1 + 1) with (a + nr_skip) in Hgt by lia. specialize (Hgt ltac:(lia)). lia.
Qed.

(** ** The dissection *)

Section Dissect.
Context (p : bpf_prog_linfo) (W : jited_wf p) (Hnr : 0 < nr_linfo p).
Context (ksym_func ksym_len : list Z).
Context (Hk : lenZ ksym_func = nr_jited_func p) (Hkl : lenZ ksym_len = nr_jited_func p).
Let addr := rec_addr p.
Let nf := nr_jited_func p.

(** Function [g] starts at record [s], with the address of its symbol, and has the [c]
    records up to the start of the next one; their addresses increase. *)
Definition segment (fi per : list Z) (g s c : Z) : Prop :=
  fi !! Z.to_nat g = Some s /\ per !! Z.to_nat g = Some c /\ 0 <= s /\ 1 <= c /\
  ksym_func !! Z.to_nat g = Some (addr s) /\
  fi !! Z.to_nat (g + 1) = Some (s + c) /\ s + c < nr_linfo p /\
  forall j, s < j < s + c -> addr (j - 1) < addr j.
(** The state of the loop before record [i], with [f] the function searched for. *)
Record scanned (i f prev_i last : Z) (fi per : list Z) : Prop := {
  sc_i : 0 <= prev_i < i /\ i <= nr_linfo p;
  sc_f : 1 <= f <= nf;
  sc_len : length fi = Z.to_nat nf /\ length per = Z.to_nat nf;
  sc_last : last = addr (i - 1);
  sc_start : fi !! Z.to_nat (f - 1) = Some prev_i /\ ksym_func !! Z.to_nat (f - 1) = Some (addr prev_i);
  sc_first : fi !! 0%nat = Some 0;
  sc_inc : forall j, prev_i < j < i -> addr (j - 1) < addr j;
  sc_segs : forall g, 0 <= g < f - 1 -> exists s c, segment fi per g s c
}.

Lemma dissect_found i f prev_i last fi per : scanned i f prev_i last fi per -> i < nr_linfo p -> f < nf ->
  ksym_func !! Z.to_nat f = Some (addr i) ->
  scanned (i + 1) (f + 1) i (addr i) (setZ fi f i) (setZ per (f - 1) (i - prev_i)).
Proof using Hk Hkl.
  intros [Hi Hf [Hlf Hlp] Hlast [Hst Hks] H0 Hinc Hsegs] Hin Hfn Hkf. unfold setZ. split.
  - lia.
  - lia.
  - by rewrite !length_insert.
  - f_equal. lia.
  - replace (f + 1 - 1) with f by lia. rewrite list_lookup_insert_eq by lia. done.
  - rewrite list_lookup_insert_ne by lia. done.
  - intros j Hj. lia.
  - intros g Hg. destruct (decide (g = f - 1)) as [->|Hne].
    + exists prev_i, (i - prev_i). unfold segment. replace (f - 1 + 1) with f by lia.
      rewrite (list_lookup_insert_ne fi), !list_lookup_insert_eq by lia.
      split_and!; try done; try lia; [by f_equal; lia|intros j Hj; apply Hinc; lia].
    + destruct (Hsegs g) as (s & c & S1 & S2 & S3 & S4 & S5 & S6 & S7 & S8); [lia|]. exists s, c. unfold segment.
      rewrite !(list_lookup_insert_ne fi), (list_lookup_insert_ne per) by lia. by split_and!.
Qed.
Lemma dissect_skip i f prev_i last fi per : scanned i f prev_i last fi per -> i < nr_linfo p -> last < addr i ->
  scanned (i + 1) f prev_i (addr i) fi per.
Proof.
  intros [Hi Hf Hl Hlast Hst H0 Hinc Hsegs] Hin Hlt. split; try done; [lia|f_equal; lia|].
  intros j Hj. destruct (decide (j = i)) as [->|]; [by rewrite <- Hlast|]. apply Hinc. lia.
Qed.

Lemma dissect_loop_spec : forall fuel i f prev_i last fi per,
  scanned i f prev_i last fi per -> nr_linfo p - i <= Z.of_nat fuel ->
  exists r, dissect_loop fuel (raw_jited_linfo p) (jited_rec_size p) (nr_linfo p) nf ksym_func ksym_len i f prev_i last fi per
              = Some r /\
    match r with
    | inl e => e = - EINVAL
    | inr (f', prev', fi', per') => exists i' last', scanned i' f' prev' last' fi' per'
    end.
Proof using W Hk Hkl.
  induction fuel as [|fuel IH]; intros i f prev_i last fi per S Hfuel; cbn [dissect_loop].
  { rewrite (proj2 (Z.ltb_ge i _)) by lia. cbn [andb]. eexists. split; [done|]. by exists i, last. }
  destruct (Z.ltb_spec i (nr_linfo p)) as [Hin|Hin]; cbn [andb]; [|eexists; split; [done|]; by exists i, last].
  destruct (Z.ltb_spec f nf) as [Hfn|Hfn]; [|eexists; split; [done|]; by exists i, last].
  pose proof (sc_i _ _ _ _ _ _ S) as [Hi _]. pose proof (sc_f _ _ _ _ _ _ S) as Hf.
  rewrite rec_addr_read by (done || lia). fold addr. cbn [mbind option_bind].
  destruct (lookup_lt_is_Some_2 ksym_func (Z.to_nat f)) as [kf Hkf]; [lia|]. rewrite Hkf. cbn [mbind option_bind].
  destruct (Z.eqb_spec kf (addr i)) as [->|Hne].
  - destruct (lookup_lt_is_Some_2 ksym_func (Z.to_nat (f - 1))) as [kp ->]; [lia|].
    destruct (lookup_lt_is_Some_2 ksym_len (Z.to_nat (f - 1))) as [lp ->]; [lia|]. cbn [mbind option_bind].
    destruct (_ >? lp); [by eexists|]. apply IH; [by apply dissect_found with (last := last)|lia].
  - destruct (Z.leb_spec (addr i) last); [by eexists|]. apply IH; [by apply dissect_skip with (last := last)|lia].
Qed.

(** Every function has its run of records.  The last one is only delimited: the loop ends
    when its start is found, and the order of its addresses is not checked. *)
Definition dissected (q : bpf_prog_linfo) : Prop :=
  jited_linfo_func_idx q !! 0%nat = Some 0 /\
  (forall g, 0 <= g < nf - 1 -> exists s c, segment (jited_linfo_func_idx q) (nr_jited_linfo_per_func q) g s c) /\
  exists s, jited_linfo_func_idx q !! Z.to_nat (nf - 1) = Some s /\ 0 <= s < nr_linfo p /\
    ksym_func !! Z.to_nat (nf - 1) = Some (addr s) /\
    nr_jited_linfo_per_func q !! Z.to_nat (nf - 1) = Some (nr_linfo p - s).

Lemma dissect_spec : exists e q, dissect_jited_func p ksym_func ksym_len = Some (e, q) /\
  (e = - EINVAL \/ e = 0 /\ dissected q /\
     (length (nr_jited_linfo_per_func q) = length (nr_jited_linfo_per_func p) /\
      length (jited_linfo_func_idx q) = length (jited_linfo_func_idx p)) /\
     raw_linfo q = raw_linfo p /\ raw_jited_linfo q = raw_jited_linfo p /\ nr_linfo q = nr_linfo p /\
     nr_jited_func q = nr_jited_func p /\ rec_size q = rec_size p /\ jited_rec_size q = jited_rec_size p).
Proof using W Hk Hkl Hnr.
  pose proof (wf_jfunc _ W) as (Hnf & Hlp & Hlf). unfold dissect_jited_func.
  destruct (lookup_lt_is_Some_2 ksym_func 0) as [k0 Hk0]; [lia|]. rewrite Hk0. cbn [mbind option_bind].
  pose proof (rec_addr_read p 0 W ltac:(lia)) as Hfirst. rewrite Z.mul_0_l in Hfirst. rewrite Hfirst. cbn [mbind option_bind].
  destruct (Z.eqb_spec k0 (rec_addr p 0)) as [->|]; cbn [negb]; [|do 2 eexists; split; [done|by left]].
  destruct (dissect_loop_spec (Z.to_nat (nr_linfo p)) 1 1 0 (rec_addr p 0) (setZ (jited_linfo_func_idx p) 0 0)
    (nr_jited_linfo_per_func p)) as (r & Hr & Hpost); [|lia|].
  { unfold setZ. split; try lia.
    - rewrite length_insert. done.
    - done.
    - split; [apply list_lookup_insert_eq; lia|done].
    - apply list_lookup_insert_eq. lia. }
  fold nf. rewrite Hr. cbn [mbind option_bind]. destruct r as [e|[[[f prev] fi] per]]; [do 2 eexists; split; [done|by left]|].
  destruct (Z.eqb_spec f nf) as [->|]; cbn [negb]; [|do 2 eexists; split; [done|by left]].
  do 2 eexists. split; [done|]. right. split; [done|].
  destruct Hpost as (i & last & [Hi _ [Hfl Hpl] _ [Hst Hks] H0 _ Hsegs]).
  split; [|split; [cbn; unfold setZ; rewrite length_insert; by rewrite Hpl, Hfl, Hlp, Hlf|done]].
  unfold dissected. cbn [jited_linfo_func_idx nr_jited_linfo_per_func]. split; [done|]. split.
  - intros g Hg. destruct (Hsegs g Hg) as (s & c & S1 & S2 & Srest). exists s, c. unfold segment, setZ.
    rewrite (list_lookup_insert_ne per) by lia. split; [done|]. split; [done|exact Srest].
  - exists prev. split_and!; try done; try lia. unfold setZ. rewrite list_lookup_insert_eq by lia. done.
Qed.
End Dissect.

(** ** The blocks *)

Section Blocks.
Context `{OO : OsOk}.

Definition block_list (b : blocks) : list Z :=
  b_self b :: option_list (b_linfo b) ++ option_list (b_jited b) ++ option_list (b_per b) ++ option_list (b_idx b).
(** A structure owns its blocks, which are new and distinct, beside [Hp]. *)
Definition owns_blocks (b : blocks) (Hp : list Z) (s : sys) F Mp : Prop :=
  NoDup (block_list b) /\ (forall x, x ∈ block_list b -> x ∉ Hp) /\
  exists l, has s F Mp (l ++ Hp) /\ l ≡ₚ block_list b.

Lemma wp_free_opt s F Mp Hp p (Q : unit -> sys -> Prop) : has s F Mp Hp ->
  (forall s', has s' F Mp (filter (fun q => q ∉ option_list p) Hp) -> Q tt s') -> wp (free_opt p) Q s.
Proof using OO.
  intros HS HQ. destruct p as [p|]; cbn [free_opt option_list] in *.
  - os_call. apply HQ. erewrite list_filter_iff; [eassumption|]. intros x. change (option_list (Some p)) with [p]. by rewrite list_elem_of_singleton.
  - apply wp_ret, HQ. rewrite filter_all; [done|]. intros x _. apply not_elem_of_nil.
Qed.
Lemma wp_linfo_free s F Mp Hp b : has s F Mp Hp ->
  wp (bpf_prog_linfo__free (Some b)) (fun _ s' => has s' F Mp (filter (fun q => q ∉ block_list b) Hp)) s.
Proof using OO.
  intros HS. cbn [bpf_prog_linfo__free].
  do 4 (apply wp_bind; eapply wp_free_opt; [eassumption|]; clear s HS; intros s HS; cbv beta).
  eapply wp_free; [eassumption|]. intros s' HS'. cbv beta. rewrite !list_filter_filter in HS'. erewrite list_filter_iff; [eassumption|]. intros x. cbv beta.
  unfold block_list. rewrite elem_of_cons, !elem_of_app. tauto.
Qed.
(** Freeing a structure gives back exactly what it owns. *)
Lemma wp_free_owned s F Mp Hp b : owns_blocks b Hp s F Mp ->
  wp (bpf_prog_linfo__free (Some b)) (fun _ s' => has s' F Mp Hp) s.
Proof using OO.
  intros (_ & Hfr & l & HS & Hl). eapply wp_mono; [by apply wp_linfo_free|]. intros u s' HS'. cbv beta in HS' |- *.
  rewrite list.filter_app, (filter_none _ l), filter_all in HS'; [done|..].
  - intros x Hx Hb. by apply (Hfr x).
  - intros x Hx Hn. apply Hn. by rewrite <- Hl.
Qed.

(** What the kernel hands over: arrays as large as their counts say, with sizes that fit
    32 bits. *)
Record info_ok (info : bpf_prog_info) : Prop := {
  io_raw : Forall is_u8 (line_info info) /\ nr_line_info info * line_info_rec_size info <= lenZ (line_info info);
  io_size : 0 <= nr_line_info info /\ nr_line_info info * line_info_rec_size info < 4294967296;
  io_jraw : forall l, jited_line_info info = Some l -> nr_jited_line_info info = nr_line_info info -> Forall is_u8 l /\
    nr_line_info info * jited_line_info_rec_size info <= lenZ l /\ nr_line_info info * jited_line_info_rec_size info < 4294967296;
  io_ksyms : 0 <= nr_jited_ksyms info /\ (forall l, jited_ksyms info = Some l -> lenZ l = nr_jited_ksyms info) /\
    (forall l, jited_func_lens info = Some l -> lenZ l = nr_jited_func_lens info)
}.
Lemma take_whole (l : list Z) n : 0 <= n <= lenZ l -> lenZ (take (Z.to_nat n) l) = n.
Proof. intros Hn. rewrite length_take. lia. Qed.
Lemma wp_memcpy (l : list Z) n (Q : list Z -> sys -> Prop) s : n <= lenZ l -> Q (take (Z.to_nat n) l) s -> wp (memcpy l n) Q s.
Proof. intros Hn HQ. unfold memcpy. rewrite (proj2 (Z.ltb_ge _ _)) by done. by apply wp_ret. Qed.

(** The result of the constructor. *)
Definition linfo_post (info : bpf_prog_info) F Mp Hp (r : option (blocks * bpf_prog_linfo)) (s : sys) : Prop :=
  match r with
  | None => has s F Mp Hp
  | Some (b, q) => owns_blocks b Hp s F Mp /\ linfo_wf q /\
      nr_linfo q = nr_line_info info /\ rec_size q = line_info_rec_size info /\
      raw_linfo q = take (Z.to_nat (nr_linfo q * rec_size q)) (line_info info) /\
      if jited_complete info then
        jited_wf q /\ nr_jited_func q = nr_jited_ksyms info /\ dissected q (default [] (jited_ksyms info)) q
      else nr_jited_func q = 0
  end.

(** The error exit: every block so far is given back. *)
Lemma wp_err_free info b l s F Mp Hp : has s F Mp (l ++ Hp) -> l ≡ₚ block_list b -> (forall x, x ∈ l -> x ∉ Hp) -> NoDup l ->
  wp (bpf_prog_linfo__free (Some b) ;;; ret None) (linfo_post info F Mp Hp) s.
Proof using OO.
  intros HS Hl Hfr Hnd. apply wp_bind. eapply wp_mono; [apply wp_free_owned with (Hp := Hp)|].
  - split; [by rewrite <- Hl|]. split; [intros x; rewrite <- Hl; apply Hfr|]. by exists l.
  - intros u s' HS'. by apply wp_ret.
Qed.
End Blocks.

(** The result of the dissection is what the searches need. *)
Lemma dissected_same p p' q ksyms : rec_addr p' = rec_addr p -> nr_linfo p' = nr_linfo p -> nr_jited_func p' = nr_jited_func p ->
  dissected p ksyms q -> dissected p' ksyms q.
Proof. unfold dissected, segment. intros -> -> ->. done. Qed.
Lemma dissect_wf p ksyms lens : linfo_wf p -> jited_wf p ->
  lenZ ksyms = nr_jited_func p -> lenZ lens = nr_jited_func p ->
  exists e q, dissect_jited_func p ksyms lens = Some (e, q) /\
    (e = - EINVAL \/ e = 0 /\ linfo_wf q /\ jited_wf q /\ dissected q ksyms q /\
       raw_linfo q = raw_linfo p /\ raw_jited_linfo q = raw_jited_linfo p /\ nr_linfo q = nr_linfo p /\
       nr_jited_func q = nr_jited_func p /\ rec_size q = rec_size p /\ jited_rec_size q = jited_rec_size p).
Proof.
  intros W J Hk Hl. destruct (dissect_spec p J (wf_nr _ W) ksyms lens Hk Hl) as (e & q & E & Hq).
  exists e, q. split; [done|]. destruct Hq as [He|(He & Hd & Hlens & E1 & E2 & E3 & E4 & E5 & E6)]; [by left|right].
  split; [done|]. destruct W as [W1 W2 W3], J as [J1 J2 J3].
  split; [by split; rewrite ?E1, ?E3, ?E5|]. split; [split; rewrite ?E2, ?E3, ?E4, ?E6; try done|].
  { destruct J3. split; [done|]. by rewrite !(proj1 Hlens), !(proj2 Hlens). }
  split; [|done]. eapply dissected_same; [..|exact Hd]; try done. unfold rec_addr. by rewrite E2, E6.
Qed.

Section New.
Context `{OO : OsOk}.

Lemma jited_complete_true info : jited_complete info = true ->
  nr_jited_ksyms info <> 0 /\ is_Some (jited_line_info info) /\ nr_jited_line_info info = nr_line_info info /\
  8 <= jited_line_info_rec_size info /\ nr_jited_func_lens info = nr_jited_ksyms info /\
  is_Some (jited_ksyms info) /\ is_Some (jited_func_lens info).
Proof.
  unfold jited_complete. intros H%negb_true_iff. rewrite !orb_false_iff in H.
  destruct H as [[[[[[H1 H2] H3] H4] H5] H6] H7].
  apply Z.eqb_neq in H1. apply Z.ltb_ge in H4. apply negb_false_iff, Z.eqb_eq in H3, H5.
  by destruct (jited_line_info info), (jited_ksyms info), (jited_func_lens info).
Qed.
(** Distinct new blocks. *)
Ltac new_blocks :=
  repeat match goal with H : _ ∉ _ :: _ |- _ => apply not_elem_of_cons in H as [? ?] end;
  first [ intros x Hx; repeat (apply elem_of_cons in Hx as [->|Hx]; [done|]); by apply not_elem_of_nil in Hx
        | repeat (apply list.NoDup_cons; split; [rewrite ?not_elem_of_cons; split_and?; first [done|congruence|apply not_elem_of_nil]|]);
          apply base.NoDup_nil_2 ].

(** The blocks so far, the last one first. *)
Lemma wp_new_err info b l s F Mp Hp : has s F Mp (l ++ Hp) -> reverse l = block_list b ->
  (forall x, x ∈ l -> x ∉ Hp) -> NoDup l ->
  wp (bpf_prog_linfo__free (Some b) ;;; ret None) (linfo_post info F Mp Hp) s.
Proof using OO. intros HS Hl Hfr Hnd. eapply wp_err_free; try done. by rewrite <- Hl, reverse_Permutation. Qed.

Lemma owns_new b l s F Mp Hp : has s F Mp (l ++ Hp) -> reverse l = block_list b -> (forall x, x ∈ l -> x ∉ Hp) -> NoDup l ->
  owns_blocks b Hp s F Mp.
Proof.
  intros HS Hl Hfr Hnd. assert (Hp' : l ≡ₚ block_list b) by (by rewrite <- Hl, reverse_Permutation).
  split; [by rewrite <- Hp'|]. split; [intros x; rewrite <- Hp'; apply Hfr|]. by exists l.
Qed.

Lemma wp_linfo_new info s F Mp Hp : info_ok info -> has s F Mp Hp ->
  wp (bpf_prog_linfo__new info) (linfo_post info F Mp Hp) s.
Proof using OO.
  intros [[Hu Hraw] [Hnr H32] Hj [Hks0 [Hks Hlens]]] HS. unfold bpf_prog_linfo__new.
  destruct (Z.eqb_spec (nr_line_info info) 0); [by apply wp_ret|]. unfold line_info_min.
  destruct (Z.ltb_spec (line_info_rec_size info) 4); [by apply wp_ret|].
  apply wp_bind. eapply wp_calloc; [eassumption|intros self s1 Hself HS1|intros s1 HS1]; cbv beta iota; [|by apply wp_ret].
  apply wp_bind. eapply wp_calloc; [eassumption|intros linfo s2 Hlinfo HS2|intros s2 HS2]; cbv beta iota;
    [|apply (wp_new_err info _ [self]); [done|done|new_blocks|new_blocks]].
  apply wp_bind, wp_memcpy; [done|].
  set (raw := take (Z.to_nat (nr_line_info info * line_info_rec_size info)) (line_info info)).
  assert (Hrl : lenZ raw = nr_line_info info * line_info_rec_size info) by (apply take_whole; nia).
  assert (Hru : Forall is_u8 raw) by (by apply Forall_take).
  destruct (jited_complete info) eqn:Hc; cbn [negb];
    [|apply wp_ret; split; [apply (owns_new _ [linfo; self]); [done|done|new_blocks|new_blocks]|]; rewrite Hc;
      split; [by split; cbn; lia || split|by split_and!]].
  destruct (jited_complete_true info Hc) as (Hk & [jl Hjl] & Hjn & Hj8 & Hfl & [ks Hksy] & [ls Hls]).
  destruct (Hj jl Hjl Hjn) as (Hju & Hjraw & Hj32). rewrite Hjl, Hksy, Hls.
  apply wp_bind. eapply wp_calloc; [eassumption|intros jited s3 Hjited HS3|intros s3 HS3]; cbv beta iota;
    [|apply (wp_new_err info _ [linfo; self]); [done|done|new_blocks|new_blocks]].
  apply wp_bind. eapply wp_deref; [reflexivity|]. apply wp_bind, wp_memcpy; [done|].
  set (jraw := take (Z.to_nat (nr_line_info info * jited_line_info_rec_size info)) jl).
  assert (Hjl' : lenZ jraw = nr_line_info info * jited_line_info_rec_size info) by (apply take_whole; nia).
  assert (Hju' : Forall is_u8 jraw) by (by apply Forall_take).
  apply wp_bind. eapply wp_calloc; [eassumption|intros per s4 Hper HS4|intros s4 HS4]; cbv beta iota;
    [|apply (wp_new_err info _ [jited; linfo; self]); [done|done|new_blocks|new_blocks]].
  apply wp_bind. eapply wp_calloc; [eassumption|intros idx s5 Hidx HS5|intros s5 HS5]; cbv beta iota;
    [|apply (wp_new_err info _ [per; jited; linfo; self]); [done|done|new_blocks|new_blocks]].
  do 2 (apply wp_bind; eapply wp_deref; [reflexivity|]).
  match goal with |- context [dissect_jited_func ?x _ _] => set (p := x) end.
  assert (W : linfo_wf p) by (split; cbn; [done|lia|lia]).
  assert (J : jited_wf p) by (split; cbn; [done|lia|rewrite !length_replicate; split_and!; lia]).
  destruct (dissect_wf p ks ls W J (Hks ks Hksy)) as (e & q & E & Hq); [by rewrite (Hlens ls Hls)|].
  rewrite E. apply wp_bind. eapply wp_deref; [reflexivity|]. cbv beta iota.
  destruct Hq as [->|(-> & Wq & Jq & Hd & E1 & E2 & E3 & E4 & E5 & E6)]; cbn [negb Z.eqb].
  { apply (wp_new_err info _ [idx; per; jited; linfo; self]); [done|done|new_blocks|new_blocks]. }
  apply wp_ret. split; [apply (owns_new _ [idx; per; jited; linfo; self]); [done|done|new_blocks|new_blocks]|].
  rewrite Hc, Hksy, E3, E5, E1, E4. by split_and!.
Qed.
End New.

(** The run of function [f]. *)
Lemma dissected_run q ksyms f : dissected q ksyms q -> 0 <= f < nr_jited_func q ->
  exists a c, jited_linfo_func_idx q !! Z.to_nat f = Some a /\ nr_jited_linfo_per_func q !! Z.to_nat f = Some c /\
    0 <= a /\ a + c <= nr_linfo q.
Proof.
  intros (_ & Hsegs & s & L1 & L2 & _ & L4) Hf. destruct (decide (f = nr_jited_func q - 1)) as [->|].
  - exists s, (nr_linfo q - s). split_and!; try done; lia.
  - destruct (Hsegs f) as (a & c & S1 & S2 & S3 & _ & _ & _ & S7 & _); [lia|]. exists a, c. split_and!; try done; lia.
Qed.

(** ** The theorems *)

(** C38: for line information whose arrays are as large as their counts say, dissecting
    the jited records always ends, with -EINVAL or with 0.  With 0, the records are cut into
    one run per function: the first run starts at record 0, every next one where the
    previous ends, the last ends with the array, each starts at the address of its function
    and, but for the last, has increasing addresses.  The search of function [f] for an
    address then returns, of the records of that function after the [nr_skip] first, the
    one before the first that is behind the address, and nothing when there is none; the
    search for an instruction does the same over all records. *)
Theorem dissected_search (p : bpf_prog_linfo) (ksyms lens : list Z) :
  linfo_wf p -> jited_wf p -> lenZ ksyms = nr_jited_func p -> lenZ lens = nr_jited_func p ->
  exists e q, dissect_jited_func p ksyms lens = Some (e, q) /\
    (e = - EINVAL \/ e = 0 /\ dissected p ksyms q /\
      (forall f addr nr_skip, 0 <= f < nr_jited_func p -> 0 <= nr_skip ->
         exists a c r, jited_linfo_func_idx q !! Z.to_nat f = Some a /\ nr_jited_linfo_per_func q !! Z.to_nat f = Some c /\
           bpf_prog_linfo__lfind_addr_func q addr f nr_skip = Some r /\
           found (rec_addr p) addr (a + nr_skip) (a + c) (rec_size p) r) /\
      (forall insn_off nr_skip, 0 <= nr_skip -> exists r, bpf_prog_linfo__lfind q insn_off nr_skip = Some r /\
         found (rec_insn p) insn_off nr_skip (nr_linfo p) (rec_size p) r)).
Proof.
  intros W J Hk Hl. destruct (dissect_wf p ksyms lens W J Hk Hl) as (e & q & E & Hq). exists e, q. split; [done|].
  destruct Hq as [->|(-> & Wq & Jq & Hd & E1 & E2 & E3 & E4 & E5 & E6)]; [by left|right]. split; [done|].
  assert (Ha : rec_addr p = rec_addr q) by (unfold rec_addr; by rewrite E2, E6).
  assert (Hi : rec_insn p = rec_insn q) by (unfold rec_insn; by rewrite E1, E5).
  split; [by eapply dissected_same; [..|exact Hd]|]. rewrite <- E3, <- E4, <- E5, Ha, Hi. split; [|intros; by apply lfind_spec].
  intros f addr nr_skip Hf Hs. destruct (dissected_run q ksyms f Hd Hf) as (a & c & Hfa & Hfc & Ha0 & Hac).
  destruct (lfind_addr_spec q addr f nr_skip a c) as (r & Hr & Hfound); [done..|]. by exists a, c, r.
Qed.

(** Two functions of two records each, at addresses 1000 and 2000; records of 8 bytes. *)
Definition demo_linfo : bpf_prog_linfo :=
  Bpf_prog_linfo (word_bytes 0 ++ word_bytes 0 ++ word_bytes 2 ++ word_bytes 0 ++ word_bytes 5 ++ word_bytes 0 ++ word_bytes 9 ++ word_bytes 0)
    (word_bytes 1000 ++ word_bytes 0 ++ word_bytes 1010 ++ word_bytes 0 ++ word_bytes 2000 ++ word_bytes 0 ++ word_bytes 2020 ++ word_bytes 0) [0; 0] [0; 0] 4 2 8 8.
Lemma demo_linfo_wf : linfo_wf demo_linfo /\ jited_wf demo_linfo.
Proof. split; split; cbn; try lia; (split; [all_bytes|done]). Qed.
Lemma dissected_search_witness : exists q,
  dissect_jited_func demo_linfo [1000; 2000] [64; 64] = Some (0, q) /\ dissected demo_linfo [1000; 2000] q /\
  jited_linfo_func_idx q = [0; 2] /\ nr_jited_linfo_per_func q = [2; 2] /\
  bpf_prog_linfo__lfind_addr_func q 1015 0 0 = Some (Some 8).
Proof.
  destruct demo_linfo_wf as [W J].
  destruct (dissected_search demo_linfo [1000; 2000] [64; 64] W J) as (e & q & E & Hq); [done..|].
  pose proof E as E'. vm_compute in E'. injection E' as <- <-.
  destruct Hq as [[=]|(_ & Hd & _)]. eexists. split; [exact E|]. split; [exact Hd|]. done.
Defined.

(** Whatever the allocator answers, [bpf_prog_linfo__new] returns: with nothing, and
    then every block it had allocated is given back, or with a structure that owns its
    blocks, all new and distinct, that holds a copy of the records and, when the kernel gave
    the jited part, its dissection.  Freeing the structure then gives back every block. *)
Theorem linfo_new_accounts `{OO : OsOk} (info : bpf_prog_info) (s : sys) : info_ok info ->
  exists r s', bpf_prog_linfo__new info s = Some (r, s') /\ linfo_post info (fds s) (maps s) (heap s) r s' /\
    exists s'', bpf_prog_linfo__free (option_map fst r) s' = Some (tt, s'') /\ has s'' (fds s) (maps s) (heap s).
Proof.
  intros Hok. destruct (proj1 (wp_run _ _ _) (wp_linfo_new info s (fds s) (maps s) (heap s) Hok ltac:(done))) as (r & s' & E & HP).
  exists r, s'. split; [done|]. split; [done|]. destruct r as [[b q]|]; cbn [option_map fst]; [|by exists s'].
  destruct HP as [Ho _]. destruct (proj1 (wp_run _ _ _) (wp_free_owned _ _ _ _ _ Ho)) as ([] & s'' & E' & HS). by exists s''.
Qed.

#[local] Existing Instance demo_os.
#[local] Existing Instance demo_os_ok.
Definition demo_info : bpf_prog_info :=
  Bpf_prog_info 4 8 (raw_linfo demo_linfo) 2 4 8 (Some (raw_jited_linfo demo_linfo)) 2 (Some [1000; 2000]) (Some [64; 64]).
Lemma demo_info_ok : info_ok demo_info.
Proof. split; cbn; [split; [all_bytes|lia]|lia|intros l [= <-] _; split; [all_bytes|cbn; lia]|]. split; [lia|]. split; by intros l [= <-]. Qed.
Lemma linfo_new_accounts_witness : exists b q s' s'',
  bpf_prog_linfo__new demo_info demo_state = Some (Some (b, q), s') /\ heap s' = [5; 4; 3; 2; 1] /\
  jited_linfo_func_idx q = [0; 2] /\ bpf_prog_linfo__free (Some b) s' = Some (tt, s'') /\ heap s'' = [].
Proof.
  destruct (linfo_new_accounts demo_info demo_state demo_info_ok) as (r & s' & E & _ & s'' & E2 & _ & _ & Hh).
  pose proof E as E'. vm_compute in E'. injection E' as <- <-.
  eexists _, _, _, s''. split; [exact E|]. split; [done|]. split; [done|]. split; [exact E2|exact Hh].
Defined.
