(* ===== verification/RedirectUser.v ===== *)
(** * Configuration of the redirect maps: packet03-redirecting/xdp_prog_user.c

    The tool reads two MAC addresses from the command line and writes them, with the
    target interface, to the pinned maps of the redirect program.  A C string is the rest
    of the buffer it lies in; reading past the buffer is [None].  The kernel side of the
    pinned maps is a parameter, the class [PinnedMaps].  The theorems: printing and
    parsing MAC addresses are inverse, parsing stays inside the buffer of [struct config],
    and after a successful run the redirect program of Packet03 forwards the frames of the
    configured source. *)

From S2P Require Import Prelude Xdp Packet03 Params.
#[local] Open Scope Z_scope.
#[local] Open Scope prog_scope.

Definition EXIT_OK : Z := 0.
Definition EXIT_FAIL_BPF : Z := 40.
Definition ETH_ALEN : nat := 6.

(** ** strtoul *)

Definition is_space (b : Z) : bool := (b =? 32) || ((9 <=? b) && (b <=? 13)).
Definition hex_val (b : Z) : option Z :=
  if (48 <=? b) && (b <=? 57) then Some (b - 48)
  else if (97 <=? b) && (b <=? 102) then Some (b - 87)
  else if (65 <=? b) && (b <=? 70) then Some (b - 55)
  else None.
Fixpoint skip_spaces (s : list Z) : option (list Z) :=
  match s with
  | [] => None
  | b :: s' => if is_space b then skip_spaces s' else Some s
  end.
Fixpoint hex_digits (acc : Z) (s : list Z) : option Z :=
  match s with
  | [] => None
  | b :: s' => match hex_val b with Some v => hex_digits (acc * 16 + v) s' | None => Some acc end
  end.
Definition ULONG_MAX : Z := 18446744073709551615.
(** An optional prefix 0x or 0X. *)
Definition skip_0x (s : list Z) : list Z :=
  match s with
  | b :: c :: s' => if (b =? 48) && ((c =? 120) || (c =? 88)) then s' else s
  | _ => s
  end.
(** [strtoul(str, 0, 16)]: saturates; a minus sign negates modulo 2^64. *)
Definition strtoul16 (str : list Z) : option Z :=
  s ← skip_spaces str;
  match s with
  | [] => None
  | b :: s' =>
      let neg := b =? 45 in
      v ← hex_digits 0 (skip_0x (if neg || (b =? 43) then s' else s));
      if v >? ULONG_MAX then Some ULONG_MAX
      else Some (if neg then u64 (- v) else v)
  end.

(** ** MAC addresses *)

(** [inl] is the result -1, [inr] the byte stored. *)
Definition parse_u8 (str : list Z) : option (Z + Z) :=
  z ← strtoul16 str;
  if z >? 0xff then Some (inl (-1)) else Some (inr (u8 z)).

Definition parse_mac (str : list Z) : option (Z + list Z) :=
  r0 ← parse_u8 str;
  match r0 with inl e => Some (inl e) | inr m0 =>
  r1 ← parse_u8 (drop 3 str);
  match r1 with inl e => Some (inl e) | inr m1 =>
  r2 ← parse_u8 (drop 6 str);
  match r2 with inl e => Some (inl e) | inr m2 =>
  r3 ← parse_u8 (drop 9 str);
  match r3 with inl e => Some (inl e) | inr m3 =>
  r4 ← parse_u8 (drop 12 str);
  match r4 with inl e => Some (inl e) | inr m4 =>
  r5 ← parse_u8 (drop 15 str);
  match r5 with inl e => Some (inl e) | inr m5 => Some (inr [m0; m1; m2; m3; m4; m5])
  end end end end end end.

(** %02x *)
Definition hex_digit (n : Z) : Z := if n <? 10 then 48 + n else 87 + n.
Definition hex_byte (b : Z) : list Z := [hex_digit (b / 16); hex_digit (b mod 16)].
(** %02x:%02x:%02x:%02x:%02x:%02x *)
Definition mac_text (m : list Z) : list Z :=
  hex_byte (getZ m 0) ++ 58 :: hex_byte (getZ m 1) ++ 58 :: hex_byte (getZ m 2) ++
  58 :: hex_byte (getZ m 3) ++ 58 :: hex_byte (getZ m 4) ++ 58 :: hex_byte (getZ m 5).

(** ** Pinned maps *)

(** The kernel's side: opening the map pinned at a path, updating an entry of the map
    behind a descriptor.  [map_of] is the map a path names, [content] what a map holds. *)
Class PinnedMaps := {
  kern : Type;
  map_of : kern -> list Z -> option nat;
  content : kern -> nat -> list Z -> option (list Z);
  fd_map : kern -> Z -> option nat;
  obj_get : kern -> list Z -> Z * kern;
  update_elem : kern -> Z -> list Z -> list Z -> Z * kern
}.
(** The documented behaviour of the BPF_OBJ_GET and BPF_MAP_UPDATE_ELEM commands. *)
Class PinnedMapsOk {P : PinnedMaps} : Prop := {
  obj_get_fd k path : 0 <= fst (obj_get k path) ->
    map_of k path <> None /\ fd_map (snd (obj_get k path)) (fst (obj_get k path)) = map_of k path;
  obj_get_map k path p : map_of (snd (obj_get k path)) p = map_of k p;
  obj_get_content k path m : content (snd (obj_get k path)) m = content k m;
  update_map k fd key v p : map_of (snd (update_elem k fd key v)) p = map_of k p;
  update_same k fd key v m : fst (update_elem k fd key v) = 0 -> fd_map k fd = Some m ->
    content (snd (update_elem k fd key v)) m key = Some v;
  update_other k fd key v m key' : fd_map k fd <> Some m \/ key' <> key ->
    content (snd (update_elem k fd key v)) m key' = content k m key';
  update_failed k fd key v m key' : fst (update_elem k fd key v) <> 0 ->
    content (snd (update_elem k fd key v)) m key' = content k m key';
  update_code k fd key v : fst (update_elem k fd key v) = 0 \/ fst (update_elem k fd key v) = -1
}.
Arguments PinnedMapsOk : clear implicits.

Section Tool.
Context `{PinnedMaps}.

(** The kernel and the lines written to standard output by [write_iface_params]. *)
Record tool := Tool { t_kern : kern; t_out : list (list Z) }.
Abbreviation T := (M tool).

Definition bpf_obj_get (path : list Z) : T Z := fun t =>
  let '(r, k) := obj_get (t_kern t) path in Some (r, Tool k (t_out t)).
Definition bpf_map_update_elem (fd : Z) (key v : list Z) : T Z := fun t =>
  let '(r, k) := update_elem (t_kern t) fd key v in Some (r, Tool k (t_out t)).
Definition printf (line : list Z) : T unit := modify (fun t => Tool (t_kern t) (t_out t ++ [line])).

(** "forward: " src " -> " dest *)
Definition forward_line (src dest : list Z) : list Z :=
  [102; 111; 114; 119; 97; 114; 100; 58; 32] ++ mac_text src ++ [32; 45; 62; 32] ++ mac_text dest ++ [10].

Definition write_iface_params (map_fd : Z) (src dest : list Z) : T Z :=
  let! r := bpf_map_update_elem map_fd src dest in
  if r <? 0 then ret (-1) else printf (forward_line src dest) ;;; ret 0.

(** "/sys/fs/bpf", "tx_port", "redirect_params", "xsks_map" *)
Definition pin_basedir : list Z := [47; 115; 121; 115; 47; 102; 115; 47; 98; 112; 102].
Definition tx_port_name : list Z := [116; 120; 95; 112; 111; 114; 116].
Definition redirect_params_name : list Z :=
  [114; 101; 100; 105; 114; 101; 99; 116; 95; 112; 97; 114; 97; 109; 115].
Definition xsks_map_name : list Z := [120; 115; 107; 115; 95; 109; 97; 112].

Definition PATH_MAX : nat := 4096.
(** [snprintf(buf, PATH_MAX, "%s/%s", a, b)]: the string in the buffer. *)
Definition join_path (a b : list Z) : list Z := take (PATH_MAX - 1) (a ++ 47 :: b).

(** [open_bpf_map_file] of common/common_user_bpf_xdp.c with a null [info]: the path is
    built (a negative length of snprintf does not occur) and opened; the descriptor or the
    error is the result. *)
Definition open_bpf_map_file (pin_dir mapname : list Z) : T Z :=
  bpf_obj_get (join_path pin_dir mapname).

(** An [int] in memory. *)
Definition int_bytes (z : Z) : list Z :=
  [u8 z; u8 (z / 256); u8 (z / 65536); u8 (z / 16777216)].

(** [main] after [parse_cmdline_args] has filled [cfg]; [port_map] is the name of the map
    opened first, the only difference between this tool and xdp_prog_user_david.c.  Printing
    a null [ifname] is a fault. *)
Definition main (port_map : list Z) (cfg : config) : T Z :=
  let redirect_map := (ifindex cfg >? 0) && (redirect_ifindex cfg >? 0) in
  if (redirect_ifindex cfg >? 0) && (ifindex cfg =? -1) then ret EXIT_FAIL_OPTION
  else
    let! name := deref (ifname cfg) in
    let! name := deref (c_str name) in
    let pin_dir := join_path pin_basedir name in
    let! src := deref (parse_mac (src_mac cfg)) in
    match src with inl _ => ret EXIT_FAIL_OPTION | inr src =>
    let! dest := deref (parse_mac (dest_mac cfg)) in
    match dest with inl _ => ret EXIT_FAIL_OPTION | inr dest =>
    let! map_fd := open_bpf_map_file pin_dir port_map in
    if map_fd <? 0 then ret EXIT_FAIL_BPF
    else if redirect_map then
      bpf_map_update_elem map_fd (int_bytes 0) (int_bytes (redirect_ifindex cfg)) ;;;
      let! map_fd := open_bpf_map_file pin_dir redirect_params_name in
      if map_fd <? 0 then ret EXIT_FAIL_BPF
      else
        let! r := write_iface_params map_fd src dest in
        if r <? 0 then ret 1 else ret EXIT_OK
    else ret EXIT_OK
    end end.
(** switchtsn/xdp_prog_user_david.c: the same text with another map. *)
Definition main_david : config -> T Z := main xsks_map_name.
End Tool.

(** ** Parsing what was printed *)

Lemma hex_val_digit n : 0 <= n < 16 -> hex_val (hex_digit n) = Some n.
Proof.
  intros Hn. assert (Forall (fun n => hex_val (hex_digit n) = Some n) (map Z.of_nat (seq 0 16))) as HF
    by (repeat constructor).
  rewrite Forall_forall in HF. apply HF. apply in_map_iff. exists (Z.to_nat n).
  split; [lia|]. apply in_seq. lia.
Qed.
Lemma hex_digit_text n : 0 <= n < 16 ->
  48 <= hex_digit n <= 57 \/ 97 <= hex_digit n <= 102.
Proof. intros. unfold hex_digit. destruct (Z.ltb_spec n 10); lia. Qed.

Lemma strtoul_hex_byte b c rest : is_u8 b -> hex_val c = None ->
  strtoul16 (hex_byte b ++ c :: rest) = Some b.
Proof.
  intros Hb Hc. unfold is_u8 in Hb.
  assert (0 <= b / 16 < 16 /\ 0 <= b mod 16 < 16) as [Hh Hl] by (Z.div_mod_to_equations; lia).
  pose proof (hex_digit_text _ Hh). pose proof (hex_digit_text _ Hl).
  unfold strtoul16, hex_byte. cbn [app skip_spaces].
  assert (is_space (hex_digit (b / 16)) = false) as -> by (unfold is_space; apply not_true_is_false; intros ?; bool_prop; lia).
  cbn [mbind option_bind].
  rewrite (proj2 (Z.eqb_neq (hex_digit (b / 16)) 45)), (proj2 (Z.eqb_neq (hex_digit (b / 16)) 43)) by lia.
  cbn [orb skip_0x].
  rewrite (proj2 (Z.eqb_neq (hex_digit (b mod 16)) 120)), (proj2 (Z.eqb_neq (hex_digit (b mod 16)) 88)) by lia.
  cbn [orb]. rewrite andb_false_r. cbn [hex_digits]. rewrite !hex_val_digit, Hc by done. cbn [mbind option_bind].
  replace ((0 * 16 + b / 16) * 16 + b mod 16) with b by (Z.div_mod_to_equations; lia).
  rewrite Z.gtb_ltb, (proj2 (Z.ltb_ge _ _)) by (unfold ULONG_MAX; lia). done.
Qed.
Lemma parse_u8_hex b c rest : is_u8 b -> hex_val c = None ->
  parse_u8 (hex_byte b ++ c :: rest) = Some (inr b).
Proof.
  intros Hb Hc. unfold parse_u8. rewrite strtoul_hex_byte by done. cbn [mbind option_bind].
  rewrite Z.gtb_ltb, (proj2 (Z.ltb_ge _ _)), u8_small by (done || int_solve). done.
Qed.

Lemma drop_hex_byte n b c rest : drop (3 + n) (hex_byte b ++ c :: rest) = drop n rest.
Proof. done. Qed.

(** A MAC address survives printing and parsing.  [parse_mac], run on the buffer that
    [parse_cmdline_args] fills from the text of the format the tool itself prints,
    returns the address; no digit is lost and the separators are skipped. *)
Theorem parse_mac_roundtrip (m : list Z) :
  length m = ETH_ALEN -> Forall is_u8 m ->
  parse_mac (strncpy (mac_text m) 18) = Some (inr m).
Proof.
  intros Hl Hu. destruct m as [|a [|b [|c [|d [|e [|f [|]]]]]]]; try done. clear Hl.
  do 6 (apply Forall_cons_1 in Hu as [? Hu]).
  change (strncpy (mac_text [a; b; c; d; e; f]) 18) with
    (hex_byte a ++ 58 :: hex_byte b ++ 58 :: hex_byte c ++ 58 :: hex_byte d ++ 58 :: hex_byte e ++ 58 ::
     hex_byte f ++ 0 :: []).
  unfold parse_mac. rewrite parse_u8_hex by done. cbn [mbind option_bind].
  rewrite (drop_hex_byte 0), (drop_hex_byte 3), (drop_hex_byte 6), (drop_hex_byte 9), (drop_hex_byte 12).
  repeat (rewrite ?(drop_hex_byte 0), ?(drop_hex_byte 3), ?(drop_hex_byte 6), ?(drop_hex_byte 9)).
  rewrite !drop_0. repeat (rewrite parse_u8_hex by done; cbn [mbind option_bind]). done.
Qed.
Lemma parse_mac_roundtrip_witness :
  parse_mac (strncpy (mac_text [2; 0; 0xab; 0x44; 0xea; 0x6d]) 18) = Some (inr [2; 0; 0xab; 0x44; 0xea; 0x6d]).
Proof. apply parse_mac_roundtrip; [done|repeat constructor; int_solve]. Defined.

(** ** Parsing stays inside the buffer *)

Lemma skip_spaces_nul s : 0 ∈ s -> exists s', skip_spaces s = Some s' /\ 0 ∈ s'.
Proof.
  induction s as [|b s IH]; intros Hin; [by apply elem_of_nil in Hin|]. cbn [skip_spaces].
  destruct (is_space b) eqn:E; [|by eexists].
  apply IH. apply elem_of_cons in Hin as [<-|]; [done|done].
Qed.
Lemma hex_digits_nul s acc : 0 ∈ s -> 0 <= acc -> exists v, hex_digits acc s = Some v /\ 0 <= v.
Proof.
  revert acc. induction s as [|b s IH]; intros acc Hin Hacc; [by apply elem_of_nil in Hin|]. cbn [hex_digits].
  destruct (hex_val b) as [v|] eqn:E; [|eauto].
  apply elem_of_cons in Hin as [<-|Hin]; [done|]. apply IH; [done|].
  unfold hex_val in E. repeat case_match; bool_prop; simplify_eq; lia.
Qed.
Lemma skip_0x_nul s : 0 ∈ s -> 0 ∈ skip_0x s.
Proof.
  intros Hin. unfold skip_0x. destruct s as [|b [|c s]]; [done..|]. destruct (_ && _) eqn:E; [|done].
  bool_prop. rewrite !elem_of_cons in Hin. destruct Hin as [<-|[<-|Hin]]; [lia|bool_prop|done].
  by destruct H0.
Qed.
Lemma parse_u8_nul s : 0 ∈ s ->
  exists r, parse_u8 s = Some r /\ match r with inl e => e = -1 | inr b => is_u8 b end.
Proof.
  intros Hin. unfold parse_u8, strtoul16. destruct (skip_spaces_nul s Hin) as (s' & -> & Hin').
  cbn [mbind option_bind]. destruct s' as [|b s']; [by apply elem_of_nil in Hin'|].
  assert (0 ∈ skip_0x (if (b =? 45) || (b =? 43) then s' else b :: s')) as Hd.
  { apply skip_0x_nul. destruct (_ || _)%bool eqn:E; [|done]. apply elem_of_cons in Hin' as [<-|Hin']; [discriminate E|done]. }
  destruct (hex_digits_nul _ 0 Hd) as (v & -> & Hv); [lia|]. cbn [mbind option_bind].
  destruct (v >? ULONG_MAX); cbn [mbind option_bind]; destruct (_ >? 0xff);
    (eexists; split; [reflexivity|]); (reflexivity || apply u8_range).
Qed.

Definition mac_result (r : Z + list Z) : Prop :=
  match r with inl e => e = -1 | inr m => length m = ETH_ALEN /\ Forall is_u8 m end.

(** One of the six reads of a terminated buffer. *)
Ltac next_octet Hnul k :=
  let r := fresh "r" in let HE := fresh "HE" in let Hr := fresh "Hr" in
  destruct (parse_u8_nul (drop k _) (Hnul k ltac:(lia))) as (r & HE & Hr); rewrite ?drop_0 in HE;
  rewrite HE; cbn [mbind option_bind]; destruct r as [r|r]; [by exists (inl r)|].

Lemma parse_mac_nul buf : (forall k, (k <= 15)%nat -> 0 ∈ drop k buf) ->
  exists r, parse_mac buf = Some r /\ mac_result r.
Proof.
  intros Hnul. unfold parse_mac.
  next_octet Hnul 0%nat. next_octet Hnul 3%nat. next_octet Hnul 6%nat.
  next_octet Hnul 9%nat. next_octet Hnul 12%nat. next_octet Hnul 15%nat.
  eexists. split; [done|]. split; [done|].
  repeat (apply List.Forall_cons; [assumption|]). apply List.Forall_nil.
Qed.
Lemma strncpy_nul s n : (length s < n)%nat -> forall k, (k < n)%nat -> 0 ∈ drop k (strncpy s n).
Proof.
  intros Hl k Hk. unfold strncpy.
  replace (take n (s ++ replicate n 0)) with (s ++ replicate (n - length s) 0).
  - apply list_elem_of_lookup. exists (n - 1 - k)%nat. rewrite lookup_drop, lookup_app_r by lia.
    apply lookup_replicate. split; [done|lia].
  - rewrite take_app_ge by lia. f_equal. by rewrite take_replicate, Nat.min_l by lia.
Qed.

(** C40: parsing the MAC addresses of the command line is memory safe and total: for an
    argument of at most 17 characters, whatever they are, [parse_mac] reads only inside
    the 18 bytes of the buffer in [struct config] and returns -1 or six octets. *)
Theorem parse_mac_in_buffer (optarg : list Z) :
  (length optarg <= 17)%nat ->
  exists r, parse_mac (strncpy optarg 18) = Some r /\ mac_result r.
Proof. intros Hl. apply parse_mac_nul. intros k Hk. apply strncpy_nul; lia. Qed.
(** An octet above 0xff is refused; the last octet of a longer argument runs out of the
    buffer. *)
Lemma parse_mac_in_buffer_witness :
  (exists r, parse_mac (strncpy [49; 48; 48; 58; 50] 18) = Some r /\ mac_result r) /\
  parse_mac (strncpy [49; 48; 48; 58; 50] 18) = Some (inl (-1)) /\
  parse_mac (strncpy (repeat 48 18) 18) = None.
Proof. split; [apply parse_mac_in_buffer; simpl; lia|]. split; reflexivity. Defined.

(** ** The whole run *)

Section Run.
Context `{PO : PinnedMapsOk}.

Lemma wp_open_map dir name t (Q : Z -> tool -> Prop) :
  (forall r k, (0 <= r -> fd_map k r = map_of (t_kern t) (join_path dir name)) ->
     (forall p, map_of k p = map_of (t_kern t) p) ->
     (forall m, content k m = content (t_kern t) m) -> Q r (Tool k (t_out t))) ->
  wp (open_bpf_map_file dir name) Q t.
Proof using PO.
  intros HQ. unfold open_bpf_map_file, wp, bpf_obj_get.
  pose proof (obj_get_fd (t_kern t) (join_path dir name)) as F.
  pose proof (obj_get_map (t_kern t) (join_path dir name)) as Hm.
  pose proof (obj_get_content (t_kern t) (join_path dir name)) as C.
  destruct (obj_get _ _) as [r k]. simpl in *.
  apply HQ; auto. intros Hr. by apply F.
Qed.
Lemma wp_update fd key v t (Q : Z -> tool -> Prop) :
  (forall r k, r = 0 \/ r = -1 ->
     (forall p, map_of k p = map_of (t_kern t) p) ->
     (forall m, r = 0 -> fd_map (t_kern t) fd = Some m -> content k m key = Some v) ->
     (forall m key', r <> 0 \/ fd_map (t_kern t) fd <> Some m \/ key' <> key ->
        content k m key' = content (t_kern t) m key') -> Q r (Tool k (t_out t))) ->
  wp (bpf_map_update_elem fd key v) Q t.
Proof using PO.
  intros HQ. unfold wp, bpf_map_update_elem.
  pose proof (update_map (t_kern t) fd key v) as Hm. pose proof (update_code (t_kern t) fd key v) as R.
  pose proof (fun m => update_same (t_kern t) fd key v m) as S.
  pose proof (fun m key' => update_other (t_kern t) fd key v m key') as O.
  pose proof (fun m key' => update_failed (t_kern t) fd key v m key') as F.
  destruct (update_elem _ _ _ _) as [r k]. simpl in *. apply HQ; auto.
  intros m key' [?|?]; auto.
Qed.

(** What the configuration promises about a kernel state: the entry of the source address
    is the destination address, every other entry is as before, and entry 0 of the port
    map is the target interface unless the kernel refused the update, which the tool does
    not notice. *)
Definition configured (k0 k : kern) (params port : nat) (src dest : list Z) (target : Z) : Prop :=
  content k params src = Some dest /\
  (forall key, key <> src -> content k params key = content k0 params key) /\
  (content k port (int_bytes 0) = Some (int_bytes target) \/
   forall key, content k port key = content k0 port key).

(** The configuration of a run: device and target given, MAC buffers terminated, the two
    maps pinned. *)
Record run_ok (port_map : list Z) (cfg : config) (k : kern) (name : list Z) (params port : nat) : Prop := {
  run_name : exists buf, ifname cfg = Some buf /\ c_str buf = Some name;
  run_src : forall i, (i <= 15)%nat -> 0 ∈ drop i (src_mac cfg);
  run_dest : forall i, (i <= 15)%nat -> 0 ∈ drop i (dest_mac cfg);
  run_dev : 0 < ifindex cfg /\ 0 < redirect_ifindex cfg;
  run_params : map_of k (join_path (join_path pin_basedir name) redirect_params_name) = Some params;
  run_port : map_of k (join_path (join_path pin_basedir name) port_map) = Some port;
  run_ne : port <> params
}.

Lemma main_spec port_map cfg name t params port :
  run_ok port_map cfg (t_kern t) name params port ->
  wp (main port_map cfg) (fun r t' =>
    (r = EXIT_OK /\ exists src dest, parse_mac (src_mac cfg) = Some (inr src) /\
       parse_mac (dest_mac cfg) = Some (inr dest) /\ mac_result (inr dest) /\
       configured (t_kern t) (t_kern t') params port src dest (redirect_ifindex cfg)) \/
    ((r = EXIT_FAIL_OPTION \/ r = EXIT_FAIL_BPF \/ r = 1) /\
      forall key, content (t_kern t') params key = content (t_kern t) params key)) t.
Proof using PO.
  intros [(buf & Hif & Hname) Hsrc Hdst [Hi Hr] Hparams Hport Hne]. unfold main.
  rewrite !Z.gtb_ltb, (proj2 (Z.ltb_lt 0 (ifindex cfg))), (proj2 (Z.ltb_lt 0 (redirect_ifindex cfg))) by done.
  rewrite (proj2 (Z.eqb_neq (ifindex cfg) (-1))), Hif by lia. cbn [andb].
  destruct (parse_mac_nul _ Hsrc) as (rs & -> & Hrs), (parse_mac_nul _ Hdst) as (rd & -> & Hrd).
  wp_go. rewrite Hname. wp_go.
  destruct rs as [es|src]; [wp_step; by right; auto|].
  wp_go. destruct rd as [ed|dest]; [wp_step; by right; auto|].
  wp_step. apply wp_open_map. intros fd k1 F1 M1 C1.
  wp_step; bool_prop; [wp_step; right; split; [auto|]; intros; simpl; by rewrite C1|].
  rewrite Hport in F1. specialize (F1 ltac:(lia)).
  wp_step. apply wp_update. cbn [t_kern t_out]. intros r2 k2 R2 M2 S2 O2.
  wp_step. apply wp_open_map. cbn [t_kern t_out]. intros fd3 k3 F3 M3 C3.
  rewrite M2, M1, Hparams in F3.
  assert (Hsame : forall key, content k3 params key = content (t_kern t) params key)
    by (intros key; rewrite C3, O2, C1; [done|right; left; congruence]).
  assert (Hprt : content k3 port (int_bytes 0) = Some (int_bytes (redirect_ifindex cfg)) \/
                 forall key, content k3 port key = content (t_kern t) port key).
  { rewrite C3. destruct R2 as [->| ->]; [left; auto|right]. intros. rewrite O2, C1 by (left; lia). done. }
  wp_step; bool_prop; [wp_step; right; split; [auto|done]|]. specialize (F3 ltac:(lia)).
  wp_step. unfold write_iface_params. wp_step. apply wp_update. cbn [t_kern t_out]. intros r4 k4 R4 M4 S4 O4.
  assert (forall key, content k4 port key = content k3 port key) as Hport4
    by (intros; apply O4; right; left; congruence).
  destruct R4 as [->| ->]; cbn [Z.ltb Z.compare]; [|wp_steps; right; split; [auto|]; intros; rewrite O4; auto].
  wp_steps. left. split; [done|]. exists src, dest. do 3 (split; [done|]).
  split; [auto|split].
  - intros key Hkey. rewrite O4, Hsame; auto.
  - destruct Hprt as [Hprt|Hprt]; [left; by rewrite Hport4|right; intros; by rewrite Hport4].
Qed.
End Run.

(** C21: from the command line to the wire.  With the device, the target and two
    terminated MAC buffers given, and the two maps pinned below the device's directory,
    the tool always ends: with an exit code that is not [EXIT_OK] the parameter map is
    untouched; with [EXIT_OK] both MAC addresses were parsed, the parameter map sends the
    source to the destination and is otherwise unchanged, and from then on
    xdp_redirect_map_func of the kernel program, run on any frame with that source
    address, writes the destination address, changes no other byte and redirects through
    port 0. *)
Theorem redirect_configuration `{PO : PinnedMapsOk} `{HO : BpfHelpersOk} (cfg : config) (t : tool)
    (name : list Z) (params port : nat) :
  run_ok tx_port_name cfg (t_kern t) name params port ->
  (forall key v, content (t_kern t) params key = Some v -> length v = ETH_ALEN /\ Forall is_u8 v) ->
  exists r t', main tx_port_name cfg t = Some (r, t') /\
    (r <> EXIT_OK -> forall key, content (t_kern t') params key = content (t_kern t) params key) /\
    (r = EXIT_OK -> exists src dest,
       parse_mac (src_mac cfg) = Some (inr src) /\ parse_mac (dest_mac cfg) = Some (inr dest) /\
       configured (t_kern t) (t_kern t') params port src dest (redirect_ifindex cfg) /\
       forall s tx_port, wf s -> bytes_at s (dat s + 6) 6 = src ->
         wp (xdp_redirect_map_func (content (t_kern t') params) tx_port)
            (redirect_post s (Some dest) (bpf_redirect_map tx_port 0 0)) s).
Proof.
  intros Hrun Hmac. pose proof (main_spec _ _ _ _ _ _ Hrun) as Hwp.
  apply wp_run in Hwp as (r & t' & Hmain & Hpost). exists r, t'. split; [done|].
  destruct Hpost as [(-> & src & dest & Hs & Hd & Hres & Hc)|[Hr Hsame]].
  - split; [done|]. intros _. exists src, dest. do 3 (split; [done|]). intros s tx_port W Hb.
    destruct Hc as (Hsd & Hoth & _). rewrite <- Hsd, <- Hb. apply redirect_map_spec; [done|].
    intros key v Hv. destruct (decide (key = src)) as [->|Hne]; [|rewrite Hoth in Hv by done; eauto].
    rewrite Hsd in Hv. by simplify_eq.
  - split; [done|]. intros ->. by destruct Hr as [?|[?|?]].
Qed.

(** Two maps pinned below /sys/fs/bpf/eth0, as functions. *)
Definition eth0 : list Z := [101; 116; 104; 48].
Definition eth0_path (mapname : list Z) : list Z := join_path (join_path pin_basedir eth0) mapname.
#[local] Instance eth0_maps : PinnedMaps := {|
  kern := nat -> list Z -> option (list Z);
  map_of _ p := if decide (p = eth0_path tx_port_name) then Some 0%nat
                else if decide (p = eth0_path redirect_params_name) then Some 1%nat else None;
  content k := k;
  fd_map _ fd := if fd =? 3 then Some 0%nat else if fd =? 4 then Some 1%nat else None;
  obj_get k p := (if decide (p = eth0_path tx_port_name) then 3
                  else if decide (p = eth0_path redirect_params_name) then 4 else -1, k);
  update_elem k fd key v :=
    let m := if fd =? 3 then Some 0%nat else if fd =? 4 then Some 1%nat else None in
    match m with
    | Some m => (0, fun m' key' => if decide (m' = m /\ key' = key) then Some v else k m' key')
    | None => (-1, k)
    end
|}.
Lemma eth0_maps_ok : PinnedMapsOk eth0_maps.
Proof.
  split; simpl; intros; repeat case_match; simplify_eq/=; try case_decide; intuition congruence.
Qed.
Definition eth0_config : config :=
  Config 0 2 (Some (strncpy eth0 16)) 3 (Some (strncpy eth0 16)) false false [] []
    (strncpy (mac_text [2; 0; 0; 0; 0; 1]) 18) (strncpy (mac_text [2; 0; 0; 0; 0; 2]) 18) 0 0 false true.
Definition empty_maps : kern := fun _ _ => None.
Lemma eth0_run_ok : run_ok tx_port_name eth0_config empty_maps eth0 1 0.
Proof.
  split; [by eexists| | |simpl; lia|vm_compute; reflexivity|vm_compute; reflexivity|done];
    intros i Hi; apply strncpy_nul; simpl; lia.
Qed.
Lemma redirect_configuration_witness :
  (exists r t', main tx_port_name eth0_config (Tool empty_maps []) = Some (r, t') /\
    (r <> EXIT_OK -> forall key, content (t_kern t') 1 key = content empty_maps 1 key) /\
    (r = EXIT_OK -> exists src dest,
       parse_mac (src_mac eth0_config) = Some (inr src) /\ parse_mac (dest_mac eth0_config) = Some (inr dest) /\
       configured empty_maps (t_kern t') 1 0 src dest 3 /\
       forall s tx_port, wf s -> bytes_at s (dat s + 6) 6 = src ->
         wp (xdp_redirect_map_func (H := ref_helpers) (content (t_kern t') 1) tx_port)
            (redirect_post s (Some dest) (bpf_redirect_map (BpfHelpers := ref_helpers) tx_port 0 0)) s)) /\
  option_map fst (main tx_port_name eth0_config (Tool empty_maps [])) = Some EXIT_OK.
Proof.
  split; [|vm_compute; reflexivity].
  apply (redirect_configuration (PO := eth0_maps_ok) (HO := ref_helpers_ok) eth0_config
    (Tool empty_maps []) eth0 1 0 eth0_run_ok).
  intros key v Hv. discriminate Hv.
Defined.
