(* ===== verification/StatsUser.v ===== *)
(** * The statistics readers: basic04-pinning-maps/xdp_stats.c, basic03-map-counter/xdp_load_and_stats.c

    The tools poll the per-CPU statistics map that the XDP programs of Stats.v fill and
    print totals and rates.  They run on the system of Os.v; maps are read by its queries,
    whose answers are lists of numbers, two per [struct datarec].  [exit] is the left side
    of a sum.  What an uninitialised local holds is the parameter [junk]; reading outside an
    array is a fault.  The theorems: a reading is the sum over the CPUs and, composed with
    the recording programs, the number of packets and bytes counted since the map was
    created, whichever CPUs received them; a printed line is what was counted between two
    successive readings; polling gives back every descriptor it opens.  The tool counts the
    CPUs of the first range of the kernel's list only, so that this is said of machines whose
    CPUs are numbered without gaps; on others it overflows its array ([gap_overflows]). *)

From S2P Require Import Prelude Xdp Stats BpfProg Os Params RedirectUser LinkUser.
#[local] Open Scope Z_scope.
#[local] Open Scope prog_scope.

Definition BPF_MAP_TYPE_ARRAY : Z := 2.
Definition BPF_MAP_TYPE_PERCPU_ARRAY : Z := 6.
Definition NANOSEC_PER_SEC : Z := 1000000000.

Record record := Record_ { timestamp : Z; total : datarec }.
(** [struct stats_record]: one record per action in basic04, one record in basic03. *)
Abbreviation stats_record := (list record).
Definition zero_record : record := Record_ 0 (Datarec 0 0).
Definition zero_stats : stats_record := replicate (Z.to_nat XDP_ACTION_MAX) zero_record.

(** Code that may call [exit]: the left side is the exit code. *)
Definition ebind {A B} (c : K (Z + A)) (k : A -> K (Z + B)) : K (Z + B) :=
  let! r := c in match r with inl e => ret (inl e) | inr a => k a end.
Definition eret {A} (a : A) : K (Z + A) := ret (inr a).
Definition exit {A} (code : Z) : K (Z + A) := ret (inl code).
Notation "'let?' x := c 'in' k" := (ebind c (fun x => k)) 
  (at level 10, x pattern, c at level 100, k at level 200) : prog_scope.

(** ** headers/bpf_util.h *)

Definition is_digit (b : Z) : bool := (48 <=? b) && (b <=? 57).
Fixpoint dec_digits (acc : Z) (s : list Z) : Z * list Z :=
  match s with
  | b :: s' => if is_digit b then dec_digits (acc * 10 + (b - 48)) s' else (acc, s)
  | [] => (acc, [])
  end.
Fixpoint drop_spaces (s : list Z) : list Z :=
  match s with b :: s' => if is_space b then drop_spaces s' else s | [] => [] end.
(** The conversion %u: spaces, an optional sign and digits; saturated at 64 bits and cut to
    32.  [inl] with true is the end of the input, with false a mismatch. *)
Definition scan_u (s : list Z) : bool + Z * list Z :=
  match drop_spaces s with
  | [] => inl true
  | b :: s' =>
      let neg := b =? 45 in
      match (if neg || (b =? 43) then s' else b :: s') with
      | c :: t => if is_digit c then
                    let '(v, rest) := dec_digits 0 (c :: t) in
                    let v := Z.min v ULONG_MAX in
                    inr (u32 (if neg then - v else v), rest)
                  else inl false
      | [] => inl false
      end
  end.
(** [sscanf(buff, "%u-%u", &start, &end)]: the values stored; none, one or two.  At the end
    of the input the result is EOF and nothing is stored. *)
Inductive scan_result := Scan_eof | Scan0 | Scan1 (start : Z) | Scan2 (start stop : Z).
Definition sscanf_range (s : list Z) : scan_result :=
  match scan_u s with
  | inl true => Scan_eof
  | inl false => Scan0
  | inr (start, b :: rest) =>
      if b =? 45 then match scan_u rest with inr (stop, _) => Scan2 start stop | inl _ => Scan1 start end else Scan1 start
  | inr (start, []) => Scan1 start
  end.

Section Tool.
Context `{Os}.
(** "/sys/devices/system/cpu/possible" *)
Definition possible_path : list Z :=
  [47; 115; 121; 115; 47; 100; 101; 118; 105; 99; 101; 115; 47; 115; 121; 115; 116; 101; 109; 47; 99; 112; 117; 47;
   112; 111; 115; 115; 105; 98; 108; 101].

(** The loop over the lines is left after the first.  After EOF [start] is read without
    having been stored: a fault. *)
Definition bpf_num_possible_cpus : K (Z + Z) :=
  let! fp := sys_open (Fopen possible_path) in
  if fp <? 0 then exit 1
  else
    let! (e, line) := sys_query (Fgets fp 128) in
    if negb (e =? 0) then close fp ;;; eret 0
    else
      match sscanf_range line with
      | Scan_eof => fault
      | Scan0 => exit 1
      | Scan1 start => close fp ;;; eret (if start =? 0 then u32 (start + 1) else 0)
      | Scan2 start stop => close fp ;;; eret (if start =? 0 then u32 (stop + 1) else 0)
      end.

(** ** Reading the map *)

Context (junk : sys -> datarec).

Definition gettime : K (Z + Z) :=
  let! (res, t) := sys_query Clock_gettime in
  if res <? 0 then exit 1 else eret (u64 (u64 (getZ t 0) * NANOSEC_PER_SEC + getZ t 1)).

(** The numbers of the kernel as records. *)
Fixpoint datarecs (d : list Z) : list datarec :=
  match d with p :: b :: d' => Datarec p b :: datarecs d' | _ => [] end.

(** The kernel writes one record to [value]. *)
Definition map_get_value_array (fd key : Z) (value : datarec) : K datarec :=
  let! (e, d) := sys_query (Bpf_map_lookup_elem fd key) in
  if negb (e =? 0) then ret value
  else match datarecs d with [v] => ret v | _ => fault end.

Fixpoint sum_values (values : list datarec) (sum_pkts sum_bytes : Z) : Z * Z :=
  match values with
  | [] => (sum_pkts, sum_bytes)
  | v :: values => sum_values values (u64 (sum_pkts + rx_packets v)) (u64 (sum_bytes + rx_bytes v))
  end.
(** The kernel writes one record per possible CPU to [values], which has [nr_cpus]. *)
Definition map_get_value_percpu_array (fd key : Z) (value : datarec) : K (Z + datarec) :=
  let? nr_cpus := bpf_num_possible_cpus in
  let! (e, d) := sys_query (Bpf_map_lookup_elem fd key) in
  if negb (e =? 0) then eret value
  else
    let values := datarecs d in
    if negb (lenZ values =? nr_cpus) then fault
    else let '(sum_pkts, sum_bytes) := sum_values values 0 0 in eret (Datarec sum_pkts sum_bytes).

Definition map_collect (fd map_type key : Z) (rec : record) : K (Z + bool * record) :=
  let! value := gets junk in
  let? t := gettime in
  let rec := Record_ t (total rec) in
  if map_type =? BPF_MAP_TYPE_ARRAY then
    let! value := map_get_value_array fd key value in
    eret (true, Record_ (timestamp rec) (Datarec (rx_packets value) (rx_bytes value)))
  else if map_type =? BPF_MAP_TYPE_PERCPU_ARRAY then
    let? value := map_get_value_percpu_array fd key value in
    eret (true, Record_ (timestamp rec) (Datarec (rx_packets value) (rx_bytes value)))
  else eret (false, rec).

(** The loop over the keys from [key], [n] of them. *)
Fixpoint collect_loop (n : nat) (map_fd map_type key : Z) (st : stats_record) : K (Z + stats_record) :=
  match n with
  | O => eret st
  | S n =>
      let! rec := deref (st !! Z.to_nat key) in
      let? (_, rec) := map_collect map_fd map_type key rec in
      collect_loop n map_fd map_type (key + 1) (<[Z.to_nat key := rec]> st)
  end.
Definition stats_collect (map_fd map_type : Z) (st : stats_record) : K (Z + stats_record) :=
  collect_loop (Z.to_nat XDP_ACTION_MAX) map_fd map_type 0 st.

(** ** Printing *)

(** What a line is computed from: the action, the totals, the packets and bits since the
    previous reading and the nanoseconds between them.  The rates are quotients of these. *)
Record line := Line {
  l_action : Z; l_packets : Z; l_new_packets : Z; l_kbytes : Z; l_new_bits : Z; l_period : Z
}.
Definition calc_period (r p : record) : Z := u64 (timestamp r - timestamp p).
(** The loop from action [i], [n] actions; it returns at the first record whose period is 0. *)
Fixpoint print_loop (n : nat) (i : Z) (rec prev : stats_record) : option (list line) :=
  match n with
  | O => Some []
  | S n =>
      r ← rec !! Z.to_nat i;
      p ← prev !! Z.to_nat i;
      let period := calc_period r p in
      if period =? 0 then Some []
      else
        let packets := u64 (rx_packets (total r) - rx_packets (total p)) in
        let bytes := u64 (rx_bytes (total r) - rx_bytes (total p)) in
        ls ← print_loop n (i + 1) rec prev;
        Some (Line i (rx_packets (total r)) packets (rx_bytes (total r) / 1000) (u64 (bytes * 8)) period :: ls)
  end.
Definition stats_print (rec prev : stats_record) : option (list line) :=
  print_loop (Z.to_nat XDP_ACTION_MAX) 0 rec prev.

(** ** Polling *)

Definition info_of (d : list Z) : bpf_map_info :=
  Bpf_map_info (getZ d 0) (getZ d 1) (getZ d 2) (getZ d 3) (getZ d 4).
(** [open_bpf_map_file] of common/common_user_bpf_xdp.c with an [info]: the descriptor and
    what is in [info] afterwards. *)
Definition open_bpf_map_file_info (pin_dir mapname : list Z) (info : bpf_map_info) : K (Z * bpf_map_info) :=
  let! fd := sys_open (Bpf_obj_get (join_path pin_dir mapname)) in
  if fd <? 0 then ret (fd, info)
  else
    let! (err, d) := sys_query (Bpf_obj_get_info_by_fd fd) in
    if negb (err =? 0) then ret (EXIT_FAIL_BPF, info) else ret (fd, info_of d).
(** "xdp_stats_map" *)
Definition stats_map_name : list Z := [120; 100; 112; 95; 115; 116; 97; 116; 115; 95; 109; 97; 112].
Definition zero_info : bpf_map_info := Bpf_map_info 0 0 0 0 0.

(** [n] turns of the loop of [stats_poll]: the value returned, if it has returned, and the
    printed tables. *)
Fixpoint poll_loop (n : nat) (pin_dir : list Z) (id map_type : Z) (info : bpf_map_info) (rec : stats_record)
    : K (Z + option Z * list (list line)) :=
  match n with
  | O => eret (None, [])
  | S n =>
      let prev := rec in
      let! (map_fd, info) := open_bpf_map_file_info pin_dir stats_map_name info in
      if map_fd <? 0 then eret (Some EXIT_FAIL_BPF, [])
      else if negb (id =? info_id info) then close map_fd ;;; eret (Some 0, [])
      else
        let? rec := stats_collect map_fd map_type rec in
        let! table := deref (stats_print rec prev) in
        close map_fd ;;;
        let? (r, tables) := poll_loop n pin_dir id map_type info rec in
        eret (r, table :: tables)
  end.
Definition stats_poll (n : nat) (pin_dir : list Z) (map_fd id map_type : Z) : K (Z + option Z * list (list line)) :=
  let? rec := stats_collect map_fd map_type zero_stats in
  poll_loop n pin_dir id map_type zero_info rec.

Definition map_expect : bpf_map_info := Bpf_map_info 0 0 4 16 XDP_ACTION_MAX.
(** [m] turns of the loop of [main], each with at most [n] turns of polling; polling that has
    not returned ends the run with [None]. *)
Fixpoint main_loop (m n : nat) (pin_dir : list Z) (info : bpf_map_info) : K (Z + option Z * list (list line)) :=
  match m with
  | O => eret (None, [])
  | S m =>
      let! (stats_map_fd, info) := open_bpf_map_file_info pin_dir stats_map_name info in
      if stats_map_fd <? 0 then eret (Some EXIT_FAIL_BPF, [])
      else
        let err := check_map_fd_info info map_expect in
        if negb (err =? 0) then close stats_map_fd ;;; eret (Some err, [])
        else
          let? (r, tables) := stats_poll n pin_dir stats_map_fd (info_id info) (info_type info) in
          match r with
          | None => eret (None, tables)
          | Some err =>
              close stats_map_fd ;;;
              if err <? 0 then eret (Some err, tables)
              else let? (r, tables') := main_loop m n pin_dir info in eret (r, tables ++ tables')
          end
  end.
(** [main] after [parse_cmdline_args]; a device option without a name is a fault. *)
Definition main (m n : nat) (cfg : config) : K (Z + option Z * list (list line)) :=
  if ifindex cfg =? -1 then eret (Some EXIT_FAIL_OPTION, [])
  else
    let! name := deref (ifname cfg) in
    let! name := deref (c_str name) in
    main_loop m n (join_path pin_basedir name) zero_info.
End Tool.

(** ** basic03-map-counter/xdp_load_and_stats.c *)

Module Basic03.
Section Tool.
Context `{Os} (junk : sys -> datarec).
(** [struct stats_record] has one record, that of XDP_PASS. *)
Definition stats_collect (map_fd map_type : Z) (st : stats_record) : K (Z + stats_record) :=
  let! rec := deref (st !! 0%nat) in
  let? (_, rec) := map_collect junk map_fd map_type XDP_PASS rec in
  eret (<[0%nat := rec]> st).
(** [n] turns of the loop, which has no exit. *)
Fixpoint poll_loop (n : nat) (map_fd map_type : Z) (rec : stats_record) : K (Z + list (list line)) :=
  match n with
  | O => eret []
  | S n =>
      let prev := rec in
      let? rec := stats_collect map_fd map_type rec in
      let! table := deref (stats_print rec prev) in
      let? tables := poll_loop n map_fd map_type rec in
      eret (table :: tables)
  end.
Definition stats_poll (n : nat) (map_fd map_type : Z) : K (Z + list (list line)) :=
  let? rec := stats_collect map_fd map_type [zero_record] in
  poll_loop n map_fd map_type rec.
Definition __check_map_fd_info (map_fd : Z) (exp : bpf_map_info) : K (Z * bpf_map_info) :=
  if map_fd <? 0 then ret (EXIT_FAIL, zero_info)
  else
    let! (err, d) := sys_query (Bpf_obj_get_info_by_fd map_fd) in
    if negb (err =? 0) then ret (EXIT_FAIL_BPF, zero_info)
    else ret (check_map_fd_info (info_of d) exp, info_of d).
End Tool.
End Basic03.

(** ** What a reading sums up *)

(** A packet counted under an action on a CPU. *)
Record arrival := Arrival { ar_cpu : nat; ar_action : Z; ar_frame : list Z }.
Definition arrival_ok (n : nat) (a : arrival) : Prop :=
  (ar_cpu a < n)%nat /\ 0 <= ar_action a < XDP_ACTION_MAX /\ Forall is_u8 (ar_frame a) /\ lenZ (ar_frame a) < 4294967296.

(** The recording program runs on that CPU's records. *)
Definition on_cpu (m : list datarec) (frame : list Z) : xstate :=
  Xstate (Xdp_md 0 (lenZ frame) 0 0) frame m None.
Definition receive (maps : list (list datarec)) (a : arrival) : list (list datarec) :=
  alter (fun m => match xdp_stats_record_action (ar_action a) (on_cpu m (ar_frame a)) with
                  | Some (_, s) => xdp_stats_map s
                  | None => m
                  end) (ar_cpu a) maps.
Definition percpu (n : nat) (h : list arrival) : list (list datarec) :=
  foldl receive (replicate n (replicate 5 (Datarec 0 0))) h.

(** Packets and bytes counted under action [k], on one CPU and on all. *)
Definition counts_on (c : nat) (k : Z) (a : arrival) : bool := bool_decide (ar_cpu a = c) && (ar_action a =? k).
Definition sum_over {A} (f : A -> Z) (l : list A) : Z := foldr (fun x z => f x + z) 0 l.
Definition packets_of (p : arrival -> bool) (h : list arrival) : Z := sum_over (fun a => if p a then 1 else 0) h.
Definition bytes_of_ (p : arrival -> bool) (h : list arrival) : Z := sum_over (fun a => if p a then lenZ (ar_frame a) else 0) h.
Definition of_action (k : Z) (a : arrival) : bool := ar_action a =? k.
Definition tally (p : arrival -> bool) (h : list arrival) : datarec := Datarec (u64 (packets_of p h)) (u64 (bytes_of_ p h)).

Lemma sum_over_app {A} (f : A -> Z) l l' : sum_over f (l ++ l') = sum_over f l + sum_over f l'.
Proof. unfold sum_over. induction l as [|x l IH]; simpl; [lia|]. rewrite IH. lia. Qed.
Lemma sum_over_ext {A} (f g : A -> Z) l : (forall x, x ∈ l -> f x = g x) -> sum_over f l = sum_over g l.
Proof.
  unfold sum_over. induction l as [|x l IH]; intros Hfg; simpl; [done|]. rewrite Hfg by left. f_equal. apply IH.
  intros y Hy. apply Hfg. by right.
Qed.
Lemma sum_over_plus {A} (f g : A -> Z) l : sum_over (fun x => f x + g x) l = sum_over f l + sum_over g l.
Proof. unfold sum_over. induction l as [|x l IH]; simpl; [lia|]. rewrite IH. lia. Qed.
(** A CPU below [n] is one of the CPUs. *)
Lemma sum_over_one (c n i : nat) (v : Z) : sum_over (fun x => if bool_decide (c = x) then v else 0) (seq i n) =
  if bool_decide (i <= c < i + n)%nat then v else 0.
Proof.
  revert i. induction n as [|n IH]; intros i; [cbn; rewrite bool_decide_false by lia; done|].
  change (sum_over ?f (seq i (S n))) with (f i + sum_over f (seq (S i) n)). cbv beta. rewrite IH.
  repeat case_bool_decide; lia.
Qed.

Lemma tally_snoc p h a : tally p (h ++ [a]) = if p a then count_packet (lenZ (ar_frame a)) (tally p h) else tally p h.
Proof.
  unfold tally, packets_of, bytes_of_. rewrite !sum_over_app. cbn.
  destruct (p a); unfold count_packet, add_bytes, add_packets; cbn; f_equal; int_solve.
Qed.

Lemma receive_counts maps a c : arrival_ok (length maps) a -> Forall (fun m => length m = 5%nat) maps ->
  receive maps a !! c = (fun m => if bool_decide (ar_cpu a = c) then alter (count_packet (lenZ (ar_frame a))) (Z.to_nat (ar_action a)) m else m)
    <$> maps !! c.
Proof.
  intros (Hc & Ha & Hf & Hl) Hm. unfold receive. destruct (decide (ar_cpu a = c)) as [<-|Hne].
  - rewrite list_lookup_alter_eq, bool_decide_true by done. destruct (maps !! ar_cpu a) as [m|] eqn:E; [|done]. cbn. f_equal.
    assert (W : wf (on_cpu m (ar_frame a))).
    { split; cbn; [lia|lia|lia|done|]. exact (Forall_lookup_1 _ _ _ _ Hm E). }
    unfold XDP_ACTION_MAX, XDP_REDIRECT in Ha.
    rewrite record_action_spec by done. rewrite u32_small by (int_unfold; lia).
    replace (_ && _)%bool with true by lia. done.
  - rewrite list_lookup_alter_ne, bool_decide_false by done. by destruct (maps !! c).
Qed.
Lemma percpu_snoc n h a : percpu n (h ++ [a]) = receive (percpu n h) a.
Proof. unfold percpu. by rewrite foldl_app. Qed.
Lemma percpu_length n h : length (percpu n h) = n.
Proof.
  induction h as [|a h IH] using rev_ind; [apply length_replicate|].
  rewrite percpu_snoc. unfold receive. by rewrite length_alter.
Qed.

(** The record of every CPU is the tally of what it received. *)
Lemma percpu_tally n h : Forall (arrival_ok n) h -> forall c, (c < n)%nat ->
  percpu n h !! c = Some (map (fun k => tally (counts_on c k) h) [0; 1; 2; 3; 4]).
Proof.
  induction h as [|a h IH] using rev_ind; intros Hh c Hc.
  { unfold percpu. cbn. rewrite lookup_replicate_2 by done. done. }
  apply Forall_app in Hh as [Hh Ha]. apply List.Forall_inv in Ha. specialize (IH Hh).
  rewrite percpu_snoc, receive_counts.
  - rewrite (IH c Hc). cbn [fmap option_fmap option_map]. f_equal. destruct Ha as (_ & Ha & _).
    unfold XDP_ACTION_MAX, XDP_REDIRECT in Ha.
    assert (Hco : forall k, counts_on c k a = bool_decide (ar_cpu a = c) && (ar_action a =? k)) by done.
    cbn [map]. rewrite !tally_snoc, !Hco.
    destruct (bool_decide (ar_cpu a = c)); cbn [andb]; [|done].
    assert (ar_action a = 0 \/ ar_action a = 1 \/ ar_action a = 2 \/ ar_action a = 3 \/ ar_action a = 4) as Hcase by lia.
    destruct Hcase as [E|[E|[E|[E|E]]]]; rewrite !E; reflexivity.
  - by rewrite percpu_length.
  - apply Forall_lookup_2. intros i m Hm. pose proof (lookup_lt_Some _ _ _ Hm) as Hi. rewrite percpu_length in Hi.
    rewrite (IH i Hi) in Hm. by injection Hm as <-.
Qed.
(** The kernel's answer for a key: the record of every CPU. *)
Definition answer (maps : list (list datarec)) (key : Z) : list Z :=
  flat_map (fun m => match m !! Z.to_nat key with Some r => [rx_packets r; rx_bytes r] | None => [] end) maps.

Lemma percpu_map n h : Forall (arrival_ok n) h ->
  percpu n h = map (fun c => map (fun k => tally (counts_on c k) h) [0; 1; 2; 3; 4]) (seq 0 n).
Proof.
  intros Hh. apply list_eq. intros c. destruct (decide (c < n)%nat) as [Hc|Hc].
  - rewrite percpu_tally by done. rewrite list_lookup_fmap, lookup_seq_lt by done. done.
  - rewrite !lookup_ge_None_2; [done| |]; [rewrite length_map, length_seq|rewrite percpu_length]; lia.
Qed.
Lemma answer_tally n h k : Forall (arrival_ok n) h -> 0 <= k < XDP_ACTION_MAX ->
  datarecs (answer (percpu n h) k) = map (fun c => tally (counts_on c k) h) (seq 0 n).
Proof.
  intros Hh Hk. unfold XDP_ACTION_MAX, XDP_REDIRECT in Hk. rewrite percpu_map by done. unfold answer.
  assert (k = 0 \/ k = 1 \/ k = 2 \/ k = 3 \/ k = 4) as Hcase by lia.
  destruct Hcase as [->|[->|[->|[->| ->]]]]; (induction (seq 0 n) as [|c l IH]; [done|]; simpl; f_equal; exact IH).
Qed.

Lemma sum_values_map {A} (f g : A -> Z) l : forall p b, is_u64 p -> is_u64 b ->
  sum_values (map (fun c => Datarec (u64 (f c)) (u64 (g c))) l) p b = (u64 (p + sum_over f l), u64 (b + sum_over g l)).
Proof.
  induction l as [|c l IH]; intros p b Hp Hb; cbn [map sum_values].
  - cbn. by rewrite !Z.add_0_r, !u64_small.
  - cbn [rx_packets rx_bytes]. rewrite IH by apply u64_range. unfold sum_over. cbn [foldr].
    fold (sum_over f l). fold (sum_over g l). f_equal; int_solve.
Qed.
(** Every packet is counted on one CPU. *)
Lemma sum_cpus n k (f : arrival -> Z) h : Forall (arrival_ok n) h ->
  sum_over (fun c => sum_over (fun a => if counts_on c k a then f a else 0) h) (seq 0 n) =
  sum_over (fun a => if of_action k a then f a else 0) h.
Proof.
  induction 1 as [|a h (Hc & _) _ IH]; [by induction (seq 0 n)|].
  rewrite (sum_over_ext _ (fun c => (if bool_decide (ar_cpu a = c) then (if of_action k a then f a else 0) else 0) +
    sum_over (fun a => if counts_on c k a then f a else 0) h)).
  - rewrite sum_over_plus, sum_over_one, bool_decide_true, IH by lia. done.
  - intros c _. unfold sum_over. cbn [foldr]. f_equal. unfold counts_on, of_action. by destruct (bool_decide _).
Qed.
Lemma sum_answer n h k : Forall (arrival_ok n) h -> 0 <= k < XDP_ACTION_MAX ->
  sum_values (datarecs (answer (percpu n h) k)) 0 0 = (u64 (packets_of (of_action k) h), u64 (bytes_of_ (of_action k) h)).
Proof.
  intros Hh Hk. rewrite answer_tally by done. unfold tally. rewrite sum_values_map by int_solve.
  unfold packets_of, bytes_of_. by rewrite !sum_cpus by done.
Qed.

(** ** The number of CPUs *)

(** The list of possible CPUs as the kernel prints it. *)
Definition possible_text (n : Z) : list Z :=
  if n =? 1 then [48; 10] else 48 :: 45 :: dec_text 10 (n - 1) ++ [10].

Lemma dec_digits_app l : Forall (fun b => is_digit b = true) l -> forall acc rest,
  dec_digits acc (l ++ rest) = dec_digits (fst (dec_digits acc l)) rest.
Proof. induction 1 as [|b l Hb _ IH]; intros acc rest; [done|]. cbn [dec_digits app]. rewrite !Hb. apply IH. Qed.
Lemma dec_text_digits fuel : forall n, 0 <= n -> Forall (fun b => is_digit b = true) (dec_text fuel n).
Proof.
  induction fuel as [|fuel IH]; intros n Hn; cbn [dec_text]; [done|]. unfold is_digit.
  destruct (Z.ltb_spec n 10).
  - apply List.Forall_cons; [lia|done].
  - apply Forall_app. split; [apply IH; apply Z.div_pos; lia|]. apply List.Forall_cons; [|done].
    pose proof (Z.mod_pos_bound n 10). lia.
Qed.
Lemma dec_text_value fuel : forall n, 0 <= n < 10 ^ Z.of_nat fuel -> dec_digits 0 (dec_text fuel n) = (n, []).
Proof.
  induction fuel as [|fuel IH]; intros n Hn; cbn [dec_text].
  { cbn in Hn. by replace n with 0 by lia. }
  destruct (Z.ltb_spec n 10).
  - cbn. unfold is_digit. replace (_ && _)%bool with true by lia. f_equal. lia.
  - assert (0 <= n / 10 < 10 ^ Z.of_nat fuel).
    { rewrite Nat2Z.inj_succ, Z.pow_succ_r in Hn by lia. split; [apply Z.div_pos; lia|]. apply Z.div_lt_upper_bound; lia. }
    rewrite dec_digits_app by (apply dec_text_digits; lia). rewrite IH by done. cbn [fst dec_digits].
    pose proof (Z.mod_pos_bound n 10). pose proof (Z.div_mod n 10). unfold is_digit.
    replace (_ && _)%bool with true by lia. f_equal. lia.
Qed.
Lemma dec_text_head fuel n : 0 <= n -> exists c t, dec_text (S fuel) n = c :: t /\ is_digit c = true.
Proof.
  intros Hn. pose proof (dec_text_digits (S fuel) n Hn) as Hd. destruct (dec_text (S fuel) n) as [|c t] eqn:E.
  - exfalso. cbn [dec_text] in E. destruct (n <? 10); [discriminate|]. apply app_eq_nil in E as [_ E]. discriminate.
  - exists c, t. split; [done|]. by apply List.Forall_inv in Hd.
Qed.
Lemma scan_dec n rest : 0 <= n < 4294967296 -> scan_u (dec_text 10 n ++ 10 :: rest) = inr (n, 10 :: rest).
Proof.
  intros Hn. destruct (dec_text_head 9 n) as (c & t & E & Hc); [lia|].
  pose proof (dec_text_value 10 n ltac:(lia)) as Hv. pose proof (dec_text_digits 10 n ltac:(lia)) as Hd.
  pose proof (dec_digits_app _ Hd 0 (10 :: rest)) as Happ. rewrite Hv in Happ. rewrite E in *. unfold scan_u. cbn [app drop_spaces].
  assert (48 <= c <= 57) by (unfold is_digit in Hc; lia).
  replace (is_space c) with false by (unfold is_space; lia).
  replace (c =? 45) with false by lia. replace (c =? 43) with false by lia. cbn [orb]. rewrite Hc.
  cbn [app] in Happ. rewrite Happ. cbn. unfold ULONG_MAX. rewrite Z.min_l by lia. by rewrite u32_small by (int_unfold; lia).
Qed.
(** Scanning what is printed finds the number of CPUs. *)
Lemma scan_possible n : 0 < n < 4294967296 ->
  sscanf_range (possible_text n) = if n =? 1 then Scan1 0 else Scan2 0 (n - 1).
Proof.
  intros Hn. unfold possible_text. destruct (Z.eqb_spec n 1); [done|].
  pose proof (scan_dec (n - 1) [] ltac:(lia)) as Hs. revert Hs. generalize (dec_text 10 (n - 1)). intros T Hs.
  unfold sscanf_range. change (scan_u (48 :: 45 :: T ++ [10])) with (inr (A := bool) (0, 45 :: T ++ [10])). cbv iota beta.
  change (45 =? 45) with true. cbv iota. by rewrite Hs.
Qed.

(** ** The kernel side *)

(** [hist s m] are the packets counted in map [m] up to the state [s]; [fd_map s fd] is the
    statistics map the descriptor refers to, if it does; [ncpus] is the number of possible CPUs. *)
Class StatsKernel `{Os} := {
  hist : sys -> Z -> list arrival;
  fd_map : sys -> Z -> option Z;
  ncpus : nat
}.
(** After a successful [sys_open]. *)
Definition opened (s : sys) (fd : Z) : sys := Sys (fd :: fds s) (maps s) (heap s) (errno s) (S (clock s)).

Class StatsKernelOk `{SK : StatsKernel} : Prop := {
  stats_os :: OsOk H;
  ncpus_range : 0 < Z.of_nat ncpus < 4294967296;
  (** what is counted is counted for good, by the recording program *)
  hist_grows s s' m : (clock s <= clock s')%nat -> exists new, hist s' m = hist s m ++ new;
  hist_ok s m : Forall (arrival_ok ncpus) (hist s m);
  (** a descriptor refers to the same map as long as it is open *)
  fd_stable s s' fd : fd ∈ fds s -> fd ∈ fds s' -> (clock s <= clock s' <= S (clock s))%nat -> fd_map s' fd = fd_map s fd;
  (** the pinned file is a statistics map *)
  pinned_ok s dir fd : os_open s (Bpf_obj_get (join_path dir stats_map_name)) = fd -> 0 <= fd -> exists m, fd_map (opened s fd) fd = Some m;
  (** the information of its descriptor tells the type and the id *)
  info_ok s fd m : fd ∈ fds s -> fd_map s fd = Some m ->
    exists d, os_query s (Bpf_obj_get_info_by_fd fd) = (0, d) /\ getZ d 0 = BPF_MAP_TYPE_PERCPU_ARRAY /\ getZ d 1 = m;
  (** a lookup answers with the record of every possible CPU *)
  lookup_ok s fd m key : fd ∈ fds s -> fd_map s fd = Some m -> 0 <= key < XDP_ACTION_MAX ->
    os_query s (Bpf_map_lookup_elem fd key) = (0, answer (percpu ncpus (hist s m)) key)
}.
(** The possible CPUs are numbered from 0 without gaps, so that the kernel prints one range.  On
    other machines the tool counts too few, and the kernel writes behind its array. *)
Definition cpus_without_gaps `{StatsKernel} : Prop := forall s fp, os_open s (Fopen possible_path) = fp -> 0 <= fp ->
  os_query (opened s fp) (Fgets fp 128) = (0, possible_text (Z.of_nat ncpus)).

(** ** Readings are tallies *)

Section Reading.
Context `{SO : StatsKernelOk} (junk : sys -> datarec) (gapless : cpus_without_gaps).

(** Descriptor [fd] is open on map [m], at clock [c] or later. *)
Record open_on (s : sys) F Mp Hp (fd m : Z) (c : nat) : Prop := {
  oo_has : has s F Mp Hp;
  oo_in : fd ∈ F;
  oo_map : fd_map s fd = Some m;
  oo_clock : (c <= clock s)%nat
}.
Lemma oo_fds s F Mp Hp fd m c : open_on s F Mp Hp fd m c -> fd ∈ fds s.
Proof. intros [(HF & _) Hin _ _]. by rewrite HF. Qed.
(** One call later. *)
Lemma oo_step s s' F F' Mp Hp fd m c : open_on s F Mp Hp fd m c -> has s' F' Mp Hp -> fd ∈ F' ->
  (clock s <= clock s' <= S (clock s))%nat -> open_on s' F' Mp Hp fd m c.
Proof using SO.
  intros O HS' Hin Hc. pose proof (oo_fds _ _ _ _ _ _ _ O) as Hs. destruct O as [_ _ Hm Hcl]. split; [done|done| |lia].
  rewrite <- Hm. apply fd_stable; [done| |done]. destruct HS' as (HF & _). by rewrite HF.
Qed.
Lemma wp_query_on q s F Mp Hp fd m c (Q : Z * list Z -> sys -> Prop) : open_on s F Mp Hp fd m c ->
  (forall e d s', os_query s q = (e, d) -> open_on s' F Mp Hp fd m c -> (clock s <= clock s')%nat -> Q (e, d) s') ->
  wp (sys_query q) Q s.
Proof using SO.
  intros O HQ. unfold wp, sys_query. destruct (os_query s q) as [e d] eqn:E.
  pose proof (oo_has _ _ _ _ _ _ _ O) as HS. pose proof (oo_in _ _ _ _ _ _ _ O) as Hin.
  destruct (Z.eqb_spec e 0) as [->|]; apply HQ; try done; try (cbn; lia); (eapply oo_step; [exact O|exact HS|exact Hin|cbn; lia]).
Qed.

Lemma wp_ebind {A B} (c : K (Z + A)) (k : A -> K (Z + B)) Q s :
  wp c (fun r s' => match r with inl e => Q (inl e) s' | inr a => wp (k a) Q s' end) s -> wp (ebind c k) Q s.
Proof. intros Hw. apply wp_bind. eapply wp_mono; [exact Hw|]. by intros [e|a] s' HQ. Qed.

(** Between the clocks [lo] and [hi] the time could not be read, or the list of the CPUs could
    not be opened. *)
Definition cannot_go_on (lo hi : nat) : Prop := exists s1, (lo <= clock s1 <= hi)%nat /\ (fst (os_query s1 Clock_gettime) < 0 \/ os_open s1 (Fopen possible_path) < 0).
Lemma cannot_mono lo lo' hi hi' : cannot_go_on lo hi -> (lo' <= lo)%nat -> (hi <= hi')%nat -> cannot_go_on lo' hi'.
Proof. intros (s1 & Hs & H1) H2 H3. exists s1. split; [lia|done]. Qed.
(** A call that keeps the descriptor, exits with 1 for a reason or returns what [P] says. *)
Definition keeps {A} (s : sys) F Mp Hp fd m c (P : A -> sys -> Prop) (r : Z + A) (s' : sys) : Prop :=
  match r with
  | inl e => e = 1 /\ cannot_go_on (clock s) (clock s')
  | inr a => open_on s' F Mp Hp fd m c /\ (clock s <= clock s')%nat /\ P a s'
  end.
(** After a call that kept it. *)
Lemma keeps_later {A} s s1 s2 F Mp Hp fd m c (P : A -> sys -> Prop) r : (clock s <= clock s1)%nat -> keeps s1 F Mp Hp fd m c P r s2 -> keeps s F Mp Hp fd m c P r s2.
Proof. intros Hc. destruct r as [e|a]; [intros [-> H1]; split; [done|]; eapply cannot_mono; [exact H1|done|done]|]. intros (O & Hc' & HP). split; [done|]. split; [lia|done]. Qed.
(** What the clock says in a state. *)
Definition time_at (s : sys) : Z := let t := snd (os_query s Clock_gettime) in u64 (u64 (getZ t 0) * NANOSEC_PER_SEC + getZ t 1).

Lemma wp_gettime s F Mp Hp fd m c : open_on s F Mp Hp fd m c ->
  wp gettime (keeps s F Mp Hp fd m c (fun t _ => t = time_at s)) s.
Proof using SO.
  intros O. unfold gettime. apply wp_bind. eapply wp_query_on; [exact O|]. intros e d s' Eq O' Hc. cbv beta iota.
  destruct (Z.ltb_spec e 0); apply wp_ret.
  - split; [done|]. exists s. split; [lia|]. left. by rewrite Eq.
  - split; [done|]. split; [done|]. unfold time_at. by rewrite Eq.
Qed.
Lemma wp_cpus s F Mp Hp fd m c : open_on s F Mp Hp fd m c ->
  wp bpf_num_possible_cpus (keeps s F Mp Hp fd m c (fun n _ => n = Z.of_nat ncpus)) s.
Proof using SO gapless.
  intros O. pose proof (oo_has _ _ _ _ _ _ _ O) as (HF & HM & HH). pose proof (oo_in _ _ _ _ _ _ _ O) as Hin.
  pose proof (oo_fds _ _ _ _ _ _ _ O) as Hfd. pose proof ncpus_range as Hn.
  unfold bpf_num_possible_cpus. apply wp_bind. unfold wp at 1, sys_open.
  set (fp := os_open s (Fopen possible_path)).
  destruct (Z.ltb_spec fp 0) as [Hlt|Hge].
  { rewrite (proj2 (Z.ltb_lt _ _)) by done. apply wp_ret. split; [done|]. exists s. split; [cbn; lia|by right]. }
  rewrite (proj2 (Z.ltb_ge _ _)) by done. fold (opened s fp).
  assert (Hne : fd <> fp) by (intros ->; by apply (open_fresh s (Fopen possible_path))).
  assert (O1 : open_on (opened s fp) (fp :: F) Mp Hp fd m c).
  { eapply oo_step; [exact O| |by right|cbn; lia]. split; [cbn; by rewrite HF|done]. }
  apply wp_bind. eapply wp_query_on; [exact O1|]. rewrite (gapless s fp) by done.
  intros e d s2 [= <- <-] O2 Hc2. cbv beta iota. cbn [negb Z.eqb]. rewrite scan_possible by done.
  assert (Hclose : forall Q, (forall s3, open_on s3 F Mp Hp fd m c -> (clock s <= clock s3)%nat -> Q tt s3) -> wp (close fp) Q s2).
  { intros Q HQ. unfold close. apply wp_modify. apply HQ; [|cbn in *; lia].
    eapply oo_step; [exact O2| |exact Hin|cbn; lia]. destruct (oo_has _ _ _ _ _ _ _ O2) as (HF2 & HM2 & HH2).
    split; [|done]. cbn. rewrite HF2, filter_cons_fresh; [done|]. rewrite <- HF. apply open_fresh. done. }
  destruct (Z.eqb_spec (Z.of_nat ncpus) 1) as [E|]; apply wp_bind, Hclose; intros s3 O3 Hc3; apply wp_ret;
    (split; [done|split; [done|]]); cbn; rewrite ?E; [done|]. rewrite u32_small by (int_unfold; lia). lia.
Qed.

(** The states in which a reading took the time and the record of each action. *)
Record shot := Shot { sh_time : Z -> sys; sh_state : Z -> sys }.
Definition shot_in (lo hi : nat) (sh : shot) : Prop := forall k, 0 <= k < XDP_ACTION_MAX ->
  (lo <= clock (sh_time sh k))%nat /\ (clock (sh_time sh k) <= clock (sh_state sh k))%nat /\ (clock (sh_state sh k) <= hi)%nat.
(** The record has what was counted under the action [k] in the map [m]. *)
Definition record_shows (m k : Z) (sh : shot) (rec : record) : Prop :=
  timestamp rec = time_at (sh_time sh k) /\ total rec = tally (of_action k) (hist (sh_state sh k) m).
Lemma wp_map_collect s F Mp Hp fd m c key rec : open_on s F Mp Hp fd m c -> 0 <= key < XDP_ACTION_MAX ->
  wp (map_collect junk fd BPF_MAP_TYPE_PERCPU_ARRAY key rec)
    (keeps s F Mp Hp fd m c (fun r s' => exists s2, (clock s <= clock s2 <= clock s')%nat /\ record_shows m key (Shot (fun _ => s) (fun _ => s2)) (snd r))) s.
Proof using SO gapless.
  intros O Hk. unfold map_collect. apply wp_bind, wp_gets. apply wp_ebind.
  eapply wp_mono; [by eapply wp_gettime|]. intros [e|t] s1 HP; [exact HP|]. destruct HP as (O1 & Hc1 & ->).
  change (BPF_MAP_TYPE_PERCPU_ARRAY =? BPF_MAP_TYPE_ARRAY) with false.
  change (BPF_MAP_TYPE_PERCPU_ARRAY =? BPF_MAP_TYPE_PERCPU_ARRAY) with true. cbv iota.
  apply wp_ebind. unfold map_get_value_percpu_array. apply wp_ebind.
  eapply wp_mono; [by eapply wp_cpus|]. intros [e|n] s2 HP; [destruct HP as [-> HC]; split; [done|]; eapply cannot_mono; [exact HC|done|done]|]. destruct HP as (O2 & Hc2 & ->).
  apply wp_bind. eapply wp_query_on; [exact O2|]. rewrite (lookup_ok s2 fd m) by (done || by eapply oo_fds || by destruct O2).
  intros e d s3 [= <- <-] O3 Hc3. cbv beta iota. cbn [negb Z.eqb].
  rewrite answer_tally at 1 by (done || apply hist_ok). rewrite length_map, length_seq, Z.eqb_refl. cbn [negb].
  rewrite sum_answer by (done || apply hist_ok). apply wp_ret. cbv beta iota. apply wp_ret.
  split; [done|]. split; [lia|]. exists s2. split; [lia|done].
Qed.

(** All five records. *)
Definition reading (m : Z) (sh : shot) (st : stats_record) : Prop :=
  length st = 5%nat /\ forall k rec, 0 <= k < XDP_ACTION_MAX -> st !! Z.to_nat k = Some rec -> record_shows m k sh rec.
(** The shot with the states of the action [key] put in. *)
Definition put (sh : shot) (key : Z) (s1 s2 : sys) : shot :=
  Shot (fun k => if k =? key then s1 else sh_time sh k) (fun k => if k =? key then s2 else sh_state sh k).
Lemma wp_collect_loop n : forall s F Mp Hp fd m c key st lo sh, open_on s F Mp Hp fd m c ->
  key + Z.of_nat n = XDP_ACTION_MAX -> 0 <= key -> length st = 5%nat -> (lo <= clock s)%nat ->
  (forall k, 0 <= k < key -> (lo <= clock (sh_time sh k))%nat /\ (clock (sh_time sh k) <= clock (sh_state sh k))%nat /\ (clock (sh_state sh k) <= clock s)%nat) ->
  (forall k rec, 0 <= k < key -> st !! Z.to_nat k = Some rec -> record_shows m k sh rec) ->
  wp (collect_loop junk n fd BPF_MAP_TYPE_PERCPU_ARRAY key st)
    (keeps s F Mp Hp fd m c (fun st' s' => exists sh', shot_in lo (clock s') sh' /\ reading m sh' st')) s.
Proof using SO gapless.
  induction n as [|n IH]; intros s F Mp Hp fd m c key st lo sh O Hk Hk0 Hl Hlo Hsh Hst; cbn [collect_loop].
  { apply wp_ret. split; [done|]. split; [done|]. exists sh. split; [intros k Hkr; apply Hsh; lia|]. split; [done|]. intros k rec Hkr. apply Hst. lia. }
  assert (Hk5 : key < 5) by (unfold XDP_ACTION_MAX, XDP_REDIRECT in Hk; lia).
  destruct (lookup_lt_is_Some_2 st (Z.to_nat key)) as [rec Hrec]; [lia|]. rewrite Hrec.
  apply wp_bind. eapply wp_deref; [reflexivity|]. apply wp_ebind.
  eapply wp_mono; [eapply wp_map_collect; [exact O|lia]|]. intros [e|[b rec']] s1 HP; [exact HP|].
  destruct HP as (O1 & Hc1 & s2 & Hs2 & Ht). cbv beta iota. eapply wp_mono; [apply (IH s1 F Mp Hp fd m c (key + 1) _ lo (put sh key s s2))|].
  - exact O1.
  - lia.
  - lia.
  - by rewrite length_insert.
  - lia.
  - intros k Hkr. cbn [put sh_time sh_state]. destruct (Z.eqb_spec k key) as [->|Hne]; [lia|]. destruct (Hsh k ltac:(lia)) as (? & ? & ?). lia.
  - intros k r Hkr. unfold record_shows. cbn [put sh_time sh_state]. destruct (Z.eqb_spec k key) as [->|Hne].
    + rewrite list_lookup_insert_eq by lia. intros [= <-]. exact Ht.
    + rewrite list_lookup_insert_ne by lia. intros Hr. apply (Hst k r); [lia|done].
  - intros r s' HP. by apply (keeps_later s s1).
Qed.
Lemma wp_stats_collect s F Mp Hp fd m c st : open_on s F Mp Hp fd m c -> length st = 5%nat ->
  wp (stats_collect junk fd BPF_MAP_TYPE_PERCPU_ARRAY st)
    (keeps s F Mp Hp fd m c (fun st' s' => exists sh, shot_in (clock s) (clock s') sh /\ reading m sh st')) s.
Proof using SO gapless. intros O Hl. apply (wp_collect_loop _ s F Mp Hp fd m c 0 st (clock s) (Shot (fun _ => s) (fun _ => s))); try done; intros k; lia. Qed.

(** ** Printed lines are differences of tallies *)

(** The nanoseconds between two readings of an action. *)
Definition elapsed (p r : shot) (k : Z) : Z := u64 (time_at (sh_time r k) - time_at (sh_time p k)).
(** The line compares the readings [p] and [r]: the packets [new] were counted between them. *)
Definition line_between (m : Z) (p r : shot) (l : line) : Prop :=
  exists new, hist (sh_state r (l_action l)) m = hist (sh_state p (l_action l)) m ++ new /\
    l_packets l = u64 (packets_of (of_action (l_action l)) (hist (sh_state r (l_action l)) m)) /\
    l_new_packets l = u64 (packets_of (of_action (l_action l)) new) /\
    l_kbytes l = u64 (bytes_of_ (of_action (l_action l)) (hist (sh_state r (l_action l)) m)) / 1000 /\
    l_new_bits l = u64 (8 * bytes_of_ (of_action (l_action l)) new) /\
    l_period l = elapsed p r (l_action l) /\ l_period l <> 0.
(** A table has a line for each action in turn, up to the first for which no time has passed. *)
Definition table_between (m : Z) (p r : shot) (t : list line) : Prop := Forall (line_between m p r) t /\
  map l_action t = map Z.of_nat (seq 0 (length t)) /\ (lenZ t = XDP_ACTION_MAX \/ lenZ t < XDP_ACTION_MAX /\ elapsed p r (lenZ t) = 0).
Lemma print_loop_exact m lo hi hi' p r rec prev : shot_in lo hi p -> shot_in hi hi' r -> reading m p prev -> reading m r rec ->
  forall n i, Z.of_nat i + Z.of_nat n = XDP_ACTION_MAX ->
  exists t, print_loop n (Z.of_nat i) rec prev = Some t /\ Forall (line_between m p r) t /\ map l_action t = map Z.of_nat (seq i (length t)) /\
    (Z.of_nat i + lenZ t = XDP_ACTION_MAX \/ Z.of_nat i + lenZ t < XDP_ACTION_MAX /\ elapsed p r (Z.of_nat i + lenZ t) = 0).
Proof using SO.
  clear junk gapless. intros Sp Sr [Hlp Hp] [Hlr Hr]. induction n as [|n IH]; intros i Hi; [exists []; split; [done|]; split; [done|]; split; [done|]; left; cbn [length]; lia|]. cbn [print_loop].
  assert (Hi5 : (i < 5)%nat) by (unfold XDP_ACTION_MAX, XDP_REDIRECT in Hi; lia). assert (Hk : 0 <= Z.of_nat i < XDP_ACTION_MAX) by (unfold XDP_ACTION_MAX, XDP_REDIRECT in *; lia). rewrite Nat2Z.id.
  destruct (lookup_lt_is_Some_2 rec i) as [x Er]; [lia|]. destruct (lookup_lt_is_Some_2 prev i) as [y Ep]; [lia|]. rewrite Er, Ep. cbn [mbind option_bind].
  destruct (Hr (Z.of_nat i) x Hk ltac:(by rewrite Nat2Z.id)) as [X1 X2]. destruct (Hp (Z.of_nat i) y Hk ltac:(by rewrite Nat2Z.id)) as [Y1 Y2].
  assert (Epd : calc_period x y = elapsed p r (Z.of_nat i)) by (unfold calc_period, elapsed; by rewrite X1, Y1). rewrite Epd.
  destruct (Z.eqb_spec (elapsed p r (Z.of_nat i)) 0) as [E0|Hne].
  { exists []. split; [done|]. split; [done|]. split; [done|]. right. cbn [length]. change (Z.of_nat 0) with 0. rewrite Z.add_0_r. split; [lia|done]. }
  destruct (IH (S i)) as (t & Et & Ht & Ha & He); [lia|]. replace (Z.of_nat i + 1) with (Z.of_nat (S i)) by lia. rewrite Et. cbn [mbind option_bind].
  eexists. split; [done|]. split; [|split; [cbn [map length seq l_action]; by rewrite Ha|cbn [length]; by replace (Z.of_nat i + Z.of_nat (S (length t))) with (Z.of_nat (S i) + lenZ t) by lia]].
  apply List.Forall_cons; [|done].
  destruct (hist_grows (sh_state p (Z.of_nat i)) (sh_state r (Z.of_nat i)) m) as [new Hnew]; [destruct (Sp _ Hk) as (? & ? & ?), (Sr _ Hk) as (? & ? & ?); lia|]. exists new.
  cbn [l_packets l_new_packets l_kbytes l_new_bits l_action l_period]. split; [done|]. rewrite X2, Y2, Hnew. cbn [tally rx_packets rx_bytes].
  unfold packets_of, bytes_of_. rewrite !sum_over_app. split; [done|]. split; [int_solve|]. split; [done|]. split; [int_solve|done].
Qed.

(** ** Polling *)

(** What the information of the pinned map says, when it can be opened; its id. *)
Definition pin_info (s : sys) (dir : list Z) : option (list Z) :=
  let fd := os_open s (Bpf_obj_get (join_path dir stats_map_name)) in
  if fd <? 0 then None else let '(e, d) := os_query (opened s fd) (Bpf_obj_get_info_by_fd fd) in if e =? 0 then Some d else None.
Definition pin_id (s : sys) (dir : list Z) : option Z := (fun d => getZ d 1) <$> pin_info s dir.
Lemma wp_open_info s F Mp Hp dir info (Q : Z * bpf_map_info -> sys -> Prop) : has s F Mp Hp ->
  (forall fd s', fd < 0 -> has s' F Mp Hp -> pin_info s dir = None -> (clock s <= clock s')%nat -> Q (fd, info) s') ->
  (forall fd d s', 0 <= fd -> fd ∉ F -> open_on s' (fd :: F) Mp Hp fd (info_id (info_of d)) (clock s) -> pin_info s dir = Some d ->
     info_type (info_of d) = BPF_MAP_TYPE_PERCPU_ARRAY -> Q (fd, info_of d) s') ->
  wp (open_bpf_map_file_info dir stats_map_name info) Q s.
Proof using SO.
  intros HS Hf Hok. unfold open_bpf_map_file_info, pin_info in *. apply wp_bind. unfold wp at 1, sys_open.
  set (fd := os_open s _) in *. pose proof (open_fresh s (Bpf_obj_get (join_path dir stats_map_name))) as Hfr. fold fd in Hfr.
  destruct HS as (HF & HM & HH).
  destruct (Z.ltb_spec fd 0) as [Hlt|Hge]; [rewrite (proj2 (Z.ltb_lt _ _)) by done; apply wp_ret, Hf; try done; cbn; lia|].
  rewrite (proj2 (Z.ltb_ge _ _)) by done. fold (opened s fd). apply wp_bind.
  destruct (pinned_ok s dir fd eq_refl Hge) as [m Hm].
  assert (O : open_on (opened s fd) (fd :: F) Mp Hp fd m (clock s)).
  { split; [split; [cbn; by rewrite HF|done]|by left|done|cbn; lia]. }
  eapply wp_query_on; [exact O|]. destruct (info_ok (opened s fd) fd m) as (d & Ed & Hty & Hd); [by left|done|]. rewrite Ed in *.
  intros e d' s' [= <- <-] O' Hc. cbv beta iota. cbn [negb Z.eqb]. apply wp_ret, Hok; [done|rewrite <- HF; by apply Hfr| |done|done].
  cbn [info_id info_of]. by rewrite Hd.
Qed.

Lemma wp_close_clock fd s F Mp Hp (Q : unit -> sys -> Prop) : has s F Mp Hp ->
  (forall s', has s' (filter (fun q => q <> fd) F) Mp Hp -> clock s' = S (clock s) -> Q tt s') -> wp (close fd) Q s.
Proof. intros (HF & <- & <-) HQ. unfold close. apply wp_modify, HQ; [|done]. repeat split; cbn. by rewrite HF. Qed.
Lemma shot_mono lo lo' hi hi' sh : shot_in lo hi sh -> (lo' <= lo)%nat -> (hi <= hi')%nat -> shot_in lo' hi' sh.
Proof. intros H1 H2 H3 k Hk. destruct (H1 k Hk) as (? & ? & ?). lia. Qed.

(** The turns of one polling: each table compares a reading with the one before, [p] being the
    one before the first, taken up to the clock [c]. *)
Inductive turns (m : Z) : nat -> shot -> list (list line) -> nat -> Prop :=
  | turns_end c p c' : (c <= c')%nat -> turns m c p [] c'
  | turns_more c p r c1 t ts c' : shot_in c c1 r -> table_between m p r t -> turns m c1 r ts c' -> turns m c p (t :: ts) c'.
(** Polling of the map [m], which is the pinned one when it starts: a first reading, and the
    tables of those that follow. *)
Definition polling (dir : list Z) (m : Z) (c : nat) (ts : list (list line)) (c' : nat) : Prop :=
  exists s0 p c0, (c <= clock s0 <= c0)%nat /\ pin_id s0 dir = Some m /\ shot_in c c0 p /\ turns m c0 p ts c'.
(** It ends because [m] is no longer the pinned map. *)
Definition moved (dir : list Z) (m : Z) (lo hi : nat) : Prop := exists s1, (lo <= clock s1 <= hi)%nat /\ pin_id s1 dir <> Some m.
(** What a run of the polling loop yields, the reading [p] having been taken. *)
Definition polled (c : nat) F Mp Hp (dir : list Z) (m : Z) (n : nat) (p : shot) (r : Z + option Z * list (list line)) (s : sys) : Prop :=
  match r with
  | inl e => e = 1 /\ cannot_go_on c (clock s)
  | inr (o, ts) => has s F Mp Hp /\ exists c', turns m c p ts c' /\ (c <= c')%nat /\ (c' <= clock s)%nat /\
      match o with None => length ts = n | Some e => 0 <= e /\ moved dir m c' (clock s) end
  end.
Lemma wp_poll_loop n : forall s F Mp Hp dir m info rec p lo, has s F Mp Hp -> shot_in lo (clock s) p -> reading m p rec ->
  wp (poll_loop junk n dir m BPF_MAP_TYPE_PERCPU_ARRAY info rec) (polled (clock s) F Mp Hp dir m n p) s.
Proof using SO gapless.
  induction n as [|n IH]; intros s F Mp Hp dir m info rec p lo HS Hin HR; cbn [poll_loop].
  { apply wp_ret. split; [done|]. exists (clock s). by split; [constructor|]. }
  apply wp_bind. apply (wp_open_info s F Mp Hp); [done|..].
  { intros fd s' Hfd HS' Hpin Hc. cbv beta iota. rewrite (proj2 (Z.ltb_lt _ _)) by done. apply wp_ret. split; [done|]. exists (clock s). split; [by constructor|]. split; [done|]. split; [done|].
    split; [done|]. exists s. split; [lia|]. unfold pin_id. by rewrite Hpin. }
  intros fd d s1 Hfd Hfr O Hpin _. cbv beta iota. rewrite (proj2 (Z.ltb_ge _ _)) by done. pose proof (oo_clock _ _ _ _ _ _ _ O) as Hc1.
  destruct (Z.eqb_spec m (info_id (info_of d))) as [->|Hne]; cbn [negb].
  - apply wp_ebind. eapply wp_mono; [eapply wp_stats_collect; [exact O|apply HR]|].
    intros [e|st] s2 HP; [destruct HP as [-> HC]; split; [done|]; by eapply cannot_mono|]. destruct HP as (O2 & Hc2 & r & Hin2 & HR2).
    assert (Hin' : shot_in (clock s) (clock s2) r) by (eapply shot_mono; [exact Hin2|done|done]).
    destruct (print_loop_exact _ _ _ _ _ _ _ _ Hin Hin' HR HR2 5 0) as (t & Et & Ht); [done|]. change (Z.of_nat 0) with 0 in Et.
    unfold stats_print. change (Z.to_nat XDP_ACTION_MAX) with 5%nat. rewrite Et. apply wp_bind. eapply wp_deref; [reflexivity|].
    apply wp_bind. apply (wp_close_clock fd s2 (fd :: F) Mp Hp); [exact (oo_has _ _ _ _ _ _ _ O2)|]. intros s3 HS3 Hc3. cbv beta.
    rewrite filter_cons_fresh in HS3 by done. assert (Hin3 : shot_in (clock s) (clock s3) r) by (eapply shot_mono; [exact Hin'|done|lia]).
    apply wp_ebind. eapply wp_mono; [by eapply (IH s3 F Mp Hp)|].
    intros [e|[o ts]] s4 HP; [destruct HP as [-> HC]; split; [done|]; eapply cannot_mono; [exact HC|lia|done]|]. destruct HP as (HS4 & c' & Hts & H3 & H4 & Ho). apply wp_ret. split; [done|].
    exists c'. split; [by eapply turns_more; [exact Hin3|exact Ht|]|]. split; [lia|]. split; [done|]. destruct o; [done|]. cbn [length]. by f_equal.
  - apply wp_bind. apply (wp_close_clock fd s1 (fd :: F) Mp Hp); [exact (oo_has _ _ _ _ _ _ _ O)|]. intros s2 HS2 Hc2. rewrite filter_cons_fresh in HS2 by done.
    apply wp_ret. split; [done|]. exists (clock s). split; [by constructor|]. split; [done|]. split; [lia|]. split; [done|]. exists s. split; [lia|]. unfold pin_id. rewrite Hpin. cbn. intros [= E]. by apply Hne.
Qed.

(** [main]: pollings that ended, one after the other. *)
Inductive pollings (dir : list Z) : nat -> list (list (list line)) -> nat -> Prop :=
  | pollings_end c c' : (c <= c')%nat -> pollings dir c [] c'
  | pollings_more c m ts c1 c2 out c' : polling dir m c ts c1 -> moved dir m c1 c2 -> pollings dir c2 out c' -> pollings dir c (ts :: out) c'.
(** Why the tool returns: the map is not pinned, or has other sizes. *)
Definition returns_why (dir : list Z) (lo hi : nat) (e : Z) : Prop := exists s1, (lo <= clock s1 <= hi)%nat /\
  (e = EXIT_FAIL_BPF /\ pin_info s1 dir = None \/
   e = EXIT_FAIL /\ exists d, pin_info s1 dir = Some d /\ ~ (getZ d 2 = 4 /\ getZ d 3 = 16 /\ getZ d 4 = XDP_ACTION_MAX)).
(** What a run of the tool with at most [k] turns yields, each with at most [n] of polling. *)
Definition tool_post (c : nat) F Mp Hp (dir : list Z) (k n : nat) (r : Z + option Z * list (list line)) (s : sys) : Prop :=
  match r with
  | inl e => e = 1 /\ cannot_go_on c (clock s)
  | inr (o, tables) => exists out c1, pollings dir c out c1 /\ (c <= c1)%nat /\ (c1 <= clock s)%nat /\
      match o with
      | Some e => has s F Mp Hp /\ tables = concat out /\ returns_why dir c1 (clock s) e
      | None => has s F Mp Hp /\ tables = concat out /\ length out = k \/
                exists fd m ts, has s (fd :: F) Mp Hp /\ tables = concat out ++ ts /\ polling dir m c1 ts (clock s) /\ length ts = n
      end
  end.
Lemma check_why info : check_map_fd_info info map_expect = 0 \/
  check_map_fd_info info map_expect = EXIT_FAIL /\ ~ (info_key_size info = 4 /\ info_value_size info = 16 /\ info_max_entries info = XDP_ACTION_MAX).
Proof.
  unfold check_map_fd_info. cbn [map_expect info_key_size info_value_size info_max_entries info_type]. change (4 =? 0) with false. change (16 =? 0) with false.
  change (XDP_ACTION_MAX =? 0) with false. change (0 =? 0) with true. cbn [negb andb]. destruct (Z.eqb_spec 4 (info_key_size info)); cbn [negb]; [|right; split; [done|lia]].
  destruct (Z.eqb_spec 16 (info_value_size info)); cbn [negb]; [|right; split; [done|lia]]. destruct (Z.eqb_spec XDP_ACTION_MAX (info_max_entries info)); cbn [negb]; [by left|right; split; [done|lia]].
Qed.
Lemma turns_later m c p ts c' : turns m c p ts c' -> forall c2, (c' <= c2)%nat -> turns m c p ts c2.
Proof. induction 1 as [|? ? ? ? ? ? ? H1 H2 _ IH]; intros c2 Hc; [constructor; lia|]. eapply turns_more; [exact H1|exact H2|by apply IH]. Qed.
Lemma wp_stats_poll n s F Mp Hp dir fd m c s0 : open_on s F Mp Hp fd m c -> (clock s0 <= clock s)%nat -> pin_id s0 dir = Some m ->
  wp (stats_poll junk n dir fd m BPF_MAP_TYPE_PERCPU_ARRAY) (fun r s' => match r with
    | inl e => e = 1 /\ cannot_go_on (clock s) (clock s')
    | inr (o, ts) => has s' F Mp Hp /\ exists c', polling dir m (clock s0) ts c' /\ (clock s <= c')%nat /\ (c' <= clock s')%nat /\
        match o with None => length ts = n | Some e => 0 <= e /\ moved dir m c' (clock s') end
    end) s.
Proof using SO gapless.
  intros O Hc0 Hpin. apply wp_ebind. eapply wp_mono; [eapply wp_stats_collect; [exact O|done]|].
  intros [e|st] s1 HP; [exact HP|]. destruct HP as (O1 & Hc1 & p & Hin & HR). eapply wp_mono; [eapply wp_poll_loop; [exact (oo_has _ _ _ _ _ _ _ O1)|exact Hin|exact HR]|].
  intros [e|[o ts]] s2 HP; [destruct HP as [-> HC]; split; [done|]; by eapply cannot_mono|]. destruct HP as (HS & c' & Ht & H1 & H2 & Ho). split; [done|]. exists c'. split; [|split; [lia|done]].
  exists s0, p, (clock s1). split; [lia|]. split; [done|]. split; [eapply shot_mono; [exact Hin|lia|done]|done].
Qed.
Lemma polling_later dir m c ts c' c2 : polling dir m c ts c' -> (c' <= c2)%nat -> polling dir m c ts c2.
Proof. intros (s0 & p & c0 & H1 & H2 & H3 & H4) Hc. exists s0, p, c0. repeat (split; [done|]). by eapply turns_later. Qed.
Lemma wp_main_loop k n : forall s F Mp Hp dir info, has s F Mp Hp -> wp (main_loop junk k n dir info) (tool_post (clock s) F Mp Hp dir k n) s.
Proof using SO gapless.
  induction k as [|k IH]; intros s F Mp Hp dir info HS; cbn [main_loop].
  { apply wp_ret. exists [], (clock s). split; [by constructor|]. split; [done|]. split; [done|]. by left. }
  apply wp_bind. apply (wp_open_info s F Mp Hp); [done|..].
  { intros fd s' Hfd HS' Hpin Hc. cbv beta iota. rewrite (proj2 (Z.ltb_lt _ _)) by done. apply wp_ret. exists [], (clock s). split; [by constructor|]. split; [done|]. split; [done|].
    split; [done|]. split; [done|]. exists s. split; [lia|by left]. }
  intros fd d s1 Hfd Hfr O Hpin Hty. cbv beta iota zeta. rewrite (proj2 (Z.ltb_ge _ _)) by done. pose proof (oo_clock _ _ _ _ _ _ _ O) as Hc1.
  destruct (check_why (info_of d)) as [-> |[-> Hsz]]; cbn [negb Z.eqb EXIT_FAIL].
  2: { apply wp_bind. apply (wp_close_clock fd s1 (fd :: F) Mp Hp); [exact (oo_has _ _ _ _ _ _ _ O)|]. intros s2 HS2 Hc2. rewrite filter_cons_fresh in HS2 by done.
    apply wp_ret. exists [], (clock s). split; [by constructor|]. split; [done|]. split; [lia|]. split; [done|]. split; [done|]. exists s. split; [lia|]. right. split; [done|]. by exists d. }
  rewrite Hty. apply wp_ebind. eapply wp_mono; [eapply (wp_stats_poll n s1 (fd :: F) Mp Hp dir fd _ _ s); [exact O|done|unfold pin_id; by rewrite Hpin]|].
  intros [e|[o ts]] s2 HP; [destruct HP as [-> HC]; split; [done|]; by eapply cannot_mono|]. destruct HP as (HS2 & c' & Hpo & H1 & H2 & Ho). cbv beta iota.
  destruct o as [e|].
  2: { apply wp_ret. exists [], (clock s). split; [by constructor|]. split; [done|]. split; [lia|]. right. eexists fd, _, ts. split; [done|]. split; [done|]. split; [by eapply polling_later|done]. }
  destruct Ho as [He Hmv]. apply wp_bind. apply (wp_close_clock fd s2 (fd :: F) Mp Hp); [done|]. intros s3 HS3 Hc3. rewrite filter_cons_fresh in HS3 by done. rewrite (proj2 (Z.ltb_ge _ _)) by done.
  apply wp_ebind. eapply wp_mono; [by eapply (IH s3 F Mp Hp)|]. intros [e'|[o' ts']] s4 HP; [destruct HP as [-> HC]; split; [done|]; eapply cannot_mono; [exact HC|lia|done]|].
  destruct HP as (out & c1 & Hout & H3 & H4 & HO). apply wp_ret.
  assert (Hmv3 : moved dir (info_id (info_of d)) c' (clock s3)) by (destruct Hmv as (s5 & ? & ?); exists s5; split; [lia|done]).
  exists (ts :: out), c1. split; [by eapply pollings_more|]. split; [lia|]. split; [done|]. destruct o' as [e'|].
  - destruct HO as (HS4 & -> & HW). split; [done|]. by split.
  - destruct HO as [(HS4 & -> & Hl)|(fd' & m' & ts2 & HS4 & -> & Hp2 & Hl)].
    + left. split; [done|]. split; [done|]. cbn [length]. by f_equal.
    + right. exists fd', m', ts2. split; [done|]. split; [by rewrite (assoc_L (++))|by split].
Qed.
End Reading.

(** ** The theorems *)

(** Take any sequence of packets, each counted by the recording program on some CPU
    under a valid action.  Whatever the CPUs, adding up the records that the kernel returns
    for an action, one per possible CPU, gives the number of packets counted under that
    action and the sum of their lengths, modulo 2^64. *)
Theorem reading_is_tally (n : nat) (h : list arrival) (key : Z) :
  Forall (arrival_ok n) h -> 0 <= key < XDP_ACTION_MAX ->
  sum_values (datarecs (answer (percpu n h) key)) 0 0 =
    (u64 (packets_of (of_action key) h), u64 (bytes_of_ (of_action key) h)).
Proof. apply sum_answer. Qed.

Definition demo_arrivals : list arrival :=
  [Arrival 0 2 [1; 2; 3]; Arrival 1 2 [4; 5]; Arrival 1 1 [6]; Arrival 0 2 (replicate 60 7)].
Lemma demo_arrivals_ok : Forall (arrival_ok 2) demo_arrivals.
Proof.
  unfold demo_arrivals, arrival_ok, XDP_ACTION_MAX, XDP_REDIRECT.
  repeat (apply List.Forall_cons; [cbn; split; [lia|]; split; [lia|]; split; [all_bytes|lia]|]). apply List.Forall_nil.
Qed.
Lemma reading_is_tally_witness : sum_values (datarecs (answer (percpu 2 demo_arrivals) 2)) 0 0 = (3, 65).
Proof. rewrite (reading_is_tally 2 demo_arrivals 2 demo_arrivals_ok) by (split; done). reflexivity. Defined.

(** C19: On a machine whose possible CPUs are numbered without gaps, against a kernel whose
    statistics maps are filled by the recording program, the tool runs, for any number of
    turns, without reading outside its arrays and without reading what it has not
    initialised.  It polls the pinned map, one reading after the other; each table compares a
    reading with the one before it, and its line for an action shows the packets and
    kilobytes counted under the action up to the reading, and the packets and bits counted
    and the time that passed since the one before.  Polling ends when the pinned map is
    another one, and starts again with that.  The tool returns only when the map cannot be
    opened or has other sizes, with every descriptor closed that it opened; while it polls,
    only its own descriptor of the map is open besides.  It exits early, with 1, only when
    the time or the list of the CPUs cannot be read. *)
Theorem stats_tool_exact `{SO : StatsKernelOk} (junk : sys -> datarec) (k n : nat) (cfg : config) (buf name : list Z) (s : sys) :
  cpus_without_gaps -> ifname cfg = Some buf -> c_str buf = Some name ->
  exists r s', main junk k n cfg s = Some (r, s') /\
    if ifindex cfg =? -1 then r = inr (Some EXIT_FAIL_OPTION, []) /\ s' = s
    else tool_post (clock s) (fds s) (maps s) (heap s) (join_path pin_basedir name) k n r s'.
Proof.
  intros HG Hn H0. apply wp_run. unfold main. destruct (ifindex cfg =? -1); [by apply wp_ret|].
  rewrite Hn. apply wp_bind. eapply wp_deref; [reflexivity|]. apply wp_bind. eapply wp_deref; [exact H0|]. by apply wp_main_loop.
Qed.

(** With a gap, [0-1,4-5], the tool counts two CPUs of four: the four records of the kernel do not
    fit its array, and the run faults. *)
Lemma gap_overflows `{Os} (fd key : Z) (value : datarec) (s s1 s2 : sys) (d : list Z) :
  bpf_num_possible_cpus s = Some (inr 2, s1) -> sys_query (Bpf_map_lookup_elem fd key) s1 = Some ((0, d), s2) -> lenZ (datarecs d) = 4 ->
  map_get_value_percpu_array fd key value s = None.
Proof.
  intros E1 E2 E3. unfold map_get_value_percpu_array, ebind, bind. rewrite E1. cbv beta iota. rewrite E2. cbv beta iota. cbn [negb Z.eqb]. by rewrite E3.
Qed.
Example gap_counted : sscanf_range [48; 45; 49; 44; 52; 45; 53; 10] = Scan2 0 1.
Proof. reflexivity. Qed.

(** Two CPUs; the packets of [demo_arrivals] are counted one by one, every twelve calls. *)
#[local] Instance demo_stats_os : Os := {|
  os_calloc s := Some (fresh_z (heap s));
  os_mmap s _ _ _ := Some (fresh_z (map fst (Os.maps s)));
  os_open s _ := fresh_z (fds s);
  os_do _ _ := 0;
  os_query s q := match q with
    | Getsockopt_offsets _ => (0, [128])
    | If_nametoindex _ => (0, [5])
    | Bpf_obj_get_info_by_fd _ => (0, [BPF_MAP_TYPE_PERCPU_ARRAY; 7; 4; 16; 5])
    | Bpf_map_lookup_elem _ key => (0, answer (percpu 2 (take (clock s / 12) demo_arrivals)) key)
    | Clock_gettime => (0, [Z.of_nat (clock s); 0])
    | Fgets _ _ => (0, possible_text 2)
    | _ => (0, [])
    end;
  os_errno _ := EINVAL;
  getpagesize := 4096
|}.
#[local] Instance demo_stats : StatsKernel := {|
  hist s _ := take (clock s / 12) demo_arrivals;
  fd_map _ _ := Some 7;
  ncpus := 2
|}.
#[local] Instance demo_stats_ok : StatsKernelOk.
Proof.
  split; try done.
  - split; cbn.
    + intros s p [= <-] Hin. apply fresh_z_above in Hin. lia.
    + intros s o _ Hin. apply fresh_z_above in Hin. lia.
    + intros s len fd off p len' [= <-] Hin. apply list_elem_of_In, (in_map fst), list_elem_of_In, fresh_z_above in Hin.
      cbn in Hin. lia.
    + by unfold EINVAL.
    + done.
    + by intros s [].
    + intros s fd d [= <-]. by left.
    + by intros s n d [= <-].
  - intros s s' m Hc. exists (take (clock s' / 12 - clock s / 12) (drop (clock s / 12) demo_arrivals)). cbn [hist demo_stats].
    rewrite take_take_drop. f_equal. pose proof (Nat.Div0.div_le_mono _ _ 12 Hc). lia.
  - intros s m. apply Forall_take, demo_arrivals_ok.
  - intros s dir fd _ _. by exists 7.
  - intros s fd m _ [= <-]. by eexists.
Qed.
Lemma demo_pin s dir : pin_id s dir = Some 7.
Proof.
  unfold pin_id, pin_info. cbn [os_open demo_stats_os]. pose proof (fresh_z_nonneg (fds s)). by rewrite (proj2 (Z.ltb_ge _ _)) by done.
Qed.
Definition demo_stats_config : config := set_dev demo_config [118; 49; 0] 5.
Lemma stats_tool_exact_witness : exists tables s',
  main (fun _ => Datarec 0 0) 1 2 demo_stats_config demo_state = Some (inr (None, tables), s') /\
  (exists fd m, has s' (fd :: fds demo_state) (maps demo_state) (heap demo_state) /\ polling (join_path pin_basedir [118; 49]) m (clock demo_state) tables (clock s')) /\
  map (map (fun l => (l_packets l, l_new_packets l))) tables =
    [[(0, 0); (1, 1); (2, 1); (0, 0); (0, 0)]; [(0, 0); (1, 0); (3, 1); (0, 0); (0, 0)]].
Proof.
  destruct (stats_tool_exact (fun _ => Datarec 0 0) 1 2 demo_stats_config [118; 49; 0] [118; 49] demo_state)
    as (r & s' & E & HP); [by intros ? ? _ _|reflexivity..|].
  pose proof E as E'. vm_compute in E'. injection E' as <- <-. change (ifindex demo_stats_config =? -1) with false in HP. destruct HP as (out & c1 & Hout & H1 & H2 & HP).
  destruct HP as [(HS & Ht & Hl)|(fd & m & ts & HS & Ht & Hp & Hl)].
  - exfalso. destruct HS as (HF & _). apply Permutation_length in HF. by vm_compute in HF.
  - destruct Hout as [c c' Hc|c m' ts' ca cb out c' Hpo (s5 & _ & Hid) _]; [|exfalso].
    + cbn [concat app] in Ht. subst ts. eexists _, _. split; [exact E|]. split; [|reflexivity]. exists fd, m. split; [exact HS|].
      destruct Hp as (s0 & p & c0 & Hs0 & Hpin & Hin & Htr). exists s0, p, c0. split; [lia|]. split; [done|]. split; [eapply shot_mono; [exact Hin|exact H1|done]|done].
    + destruct Hpo as (s0 & _ & _ & _ & Hpin & _). rewrite demo_pin in Hpin. injection Hpin as <-. exact (Hid (demo_pin _ _)).
Defined.

(** ** The reader of basic03 *)

Module Basic03Facts.
(** Its [struct stats_record] has room for one action, but the printing loop runs over all
    five: the table is complete only for an empty period, and otherwise the second turn
    reads outside the structure. *)
Lemma print_past_end (r p : record) : calc_period r p <> 0 -> stats_print [r] [p] = None.
Proof.
  intros Hp. unfold stats_print. change (Z.to_nat XDP_ACTION_MAX) with (S (S 3)). cbn [print_loop].
  change ([r] !! Z.to_nat 0) with (Some r). change ([p] !! Z.to_nat 0) with (Some p). cbn [mbind option_bind].
  by rewrite (proj2 (Z.eqb_neq _ _) Hp).
Qed.
End Basic03Facts.
