(* ===== verification/Btf.v ===== *)
(** * BTF type information: libbpf/src/btf.c

    The parser and the lookups of the BPF type format.  The image is a byte list, a type is
    the offset of its record in the image, and a read outside the image is a fault ([None]).
    Heap blocks are those of Os.v; [realloc] is a new block for the old one.  The theorems:
    building from the image of a list of types finds exactly these types, at every size,
    owning its blocks or giving all of them back; the size of a type is what the type
    language defines, and resolving always ends; a search by name finds the first match. *)

From S2P Require Import Prelude Nlattr Netlink Os Params ProgLinfo.
#[local] Open Scope Z_scope.
#[local] Open Scope prog_scope.

Definition BTF_MAGIC : Z := 0xeb9f.
Definition BTF_VERSION : Z := 1.
Definition BTF_MAX_NR_TYPES : Z := 0x7fffffff.
Definition BTF_MAX_STR_OFFSET : Z := 0x7fffffff.
Definition MAX_RESOLVE_DEPTH : nat := 32.
Definition UINT32_MAX : Z := 4294967295.
Definition E2BIG : Z := 7.
Definition ENOTSUP : Z := 95.
Definition sizeof_btf_header : Z := 24.
Definition sizeof_btf_type : Z := 12.

Definition BTF_KIND_INT : Z := 1.
Definition BTF_KIND_PTR : Z := 2.
Definition BTF_KIND_ARRAY : Z := 3.
Definition BTF_KIND_STRUCT : Z := 4.
Definition BTF_KIND_UNION : Z := 5.
Definition BTF_KIND_ENUM : Z := 6.
Definition BTF_KIND_FWD : Z := 7.
Definition BTF_KIND_TYPEDEF : Z := 8.
Definition BTF_KIND_VOLATILE : Z := 9.
Definition BTF_KIND_CONST : Z := 10.
Definition BTF_KIND_RESTRICT : Z := 11.
Definition BTF_KIND_FUNC : Z := 12.
Definition BTF_KIND_FUNC_PROTO : Z := 13.
Definition BTF_KIND_VAR : Z := 14.
Definition BTF_KIND_DATASEC : Z := 15.
Definition is_kind (k : Z) (l : list Z) : bool := existsb (Z.eqb k) l.

(** [types] are the elements written so far, of [types_size]; [None] is [&btf_void].  The
    last three fields are the blocks of the structure. *)
Record btf := Btf {
  bt_data : list Z; types : list (option Z); strings : Z; nr_types : Z; types_size : Z;
  blk_self : Z; blk_data : option Z; blk_types : option Z
}.

(** ** Records of the image *)

Section Image.
Context (buf : list Z).
Definition hdr_magic : option Z := half_of buf 0.
Definition hdr_version : option Z := byte_of buf 2.
Definition hdr_flags : option Z := byte_of buf 3.
Definition hdr_type_off : option Z := word_of buf 8.
Definition hdr_str_off : option Z := word_of buf 16.
Definition hdr_str_len : option Z := word_of buf 20.
Definition name_off (t : Z) : option Z := word_of buf t.
Definition info (t : Z) : option Z := word_of buf (t + 4).
(** The union of [size] and [type]. *)
Definition size_or_type (t : Z) : option Z := word_of buf (t + 8).
Definition btf_kind (t : Z) : option Z := i ← info t; Some (Z.land (Z.shiftr i 24) 15).
Definition btf_vlen (t : Z) : option Z := i ← info t; Some (Z.land i 65535).
(** [struct btf_array] behind the type. *)
Definition array_type (t : Z) : option Z := word_of buf (t + 12).
Definition array_nelems (t : Z) : option Z := word_of buf (t + 20).

(** The size of the record, by kind and number of elements. *)
Definition record_size (kind vlen : Z) : Z :=
  if is_kind kind [BTF_KIND_FWD; BTF_KIND_CONST; BTF_KIND_VOLATILE; BTF_KIND_RESTRICT; BTF_KIND_PTR; BTF_KIND_TYPEDEF;
                   BTF_KIND_FUNC] then sizeof_btf_type
  else if kind =? BTF_KIND_INT then sizeof_btf_type + 4
  else if kind =? BTF_KIND_ENUM then sizeof_btf_type + vlen * 8
  else if kind =? BTF_KIND_ARRAY then sizeof_btf_type + 12
  else if is_kind kind [BTF_KIND_STRUCT; BTF_KIND_UNION] then sizeof_btf_type + vlen * 12
  else if kind =? BTF_KIND_FUNC_PROTO then sizeof_btf_type + vlen * 8
  else if kind =? BTF_KIND_VAR then sizeof_btf_type + 4
  else if kind =? BTF_KIND_DATASEC then sizeof_btf_type + vlen * 12
  else - EINVAL.
Definition btf_type_size (t : Z) : option Z := k ← btf_kind t; v ← btf_vlen t; Some (record_size k v).

Definition btf_parse_hdr : option Z :=
  if lenZ buf <? sizeof_btf_header then Some (- EINVAL)
  else
    magic ← hdr_magic;
    if negb (magic =? BTF_MAGIC) then Some (- EINVAL)
    else
      version ← hdr_version;
      if negb (version =? BTF_VERSION) then Some (- ENOTSUP)
      else
        flags ← hdr_flags;
        if negb (flags =? 0) then Some (- ENOTSUP)
        else
          let meta_left := lenZ buf - sizeof_btf_header in
          if meta_left =? 0 then Some (- EINVAL)
          else
            type_off ← hdr_type_off;
            if meta_left <? type_off then Some (- EINVAL)
            else
              str_off ← hdr_str_off;
              if meta_left <? str_off then Some (- EINVAL)
              else if type_off >=? str_off then Some (- EINVAL)
              else if negb (Z.land type_off 2 =? 0) then Some (- EINVAL)
              else Some 0.
(** The result and the start of the strings. *)
Definition btf_parse_str_sec : option (Z * Z) :=
  str_off ← hdr_str_off;
  str_len ← hdr_str_len;
  let start := sizeof_btf_header + str_off in
  if (str_len =? 0) || (str_len - 1 >? BTF_MAX_STR_OFFSET) then Some (- EINVAL, 0)
  else
    first ← byte_of buf start;
    if negb (first =? 0) then Some (- EINVAL, 0)
    else
      last ← byte_of buf (start + str_len - 1);
      if negb (last =? 0) then Some (- EINVAL, 0) else Some (0, start).
End Image.

(** ** Construction *)

Section Construct.
Context `{Os}.

Definition set_strings (b : btf) (s : Z) : btf :=
  Btf (bt_data b) (types b) s (nr_types b) (types_size b) (blk_self b) (blk_data b) (blk_types b).
Definition btf_add_type (b : btf) (t : Z) : K (Z * btf) :=
  let add b :=
    guard_ (nr_types b + 1 <? types_size b) ;;;
    ret (0, Btf (bt_data b) (types b ++ [Some t]) (strings b) (nr_types b + 1) (types_size b)
              (blk_self b) (blk_data b) (blk_types b)) in
  if u32 (types_size b - nr_types b) <? 2 then
    if types_size b =? BTF_MAX_NR_TYPES then ret (- E2BIG, b)
    else
      let expand_by := Z.max (Z.shiftr (types_size b) 2) 16 in
      let new_size := Z.min BTF_MAX_NR_TYPES (types_size b + expand_by) in
      let! new_types := calloc in
      match new_types with
      | None => ret (- ENOMEM, b)
      | Some p =>
          free_opt (blk_types b) ;;;
          add (Btf (bt_data b) (if nr_types b =? 0 then [None] else types b) (strings b) (nr_types b) new_size
                 (blk_self b) (blk_data b) (Some p))
      end
  else add b.

(** Every turn advances by at least the size of a type. *)
Fixpoint parse_types (fuel : nat) (b : btf) (next_type end_type : Z) : K (Z * btf) :=
  if next_type <? end_type then
    match fuel with
    | O => fault
    | S fuel =>
        let t := next_type in
        let! type_size := deref (btf_type_size (bt_data b) t) in
        if type_size <? 0 then ret (type_size, b)
        else
          let! (err, b) := btf_add_type b t in
          if negb (err =? 0) then ret (err, b) else parse_types fuel b (next_type + type_size) end_type
    end
  else ret (0, b).
Definition btf_parse_type_sec (b : btf) : K (Z * btf) :=
  let! type_off := deref (hdr_type_off (bt_data b)) in
  let! str_off := deref (hdr_str_off (bt_data b)) in
  parse_types (length (bt_data b)) b (sizeof_btf_header + type_off) (sizeof_btf_header + str_off).

(** The descriptor of the structure is -1 here: it is set by loading. *)
Definition btf__free (b : option btf) : K unit :=
  match b with
  | None => ret tt
  | Some b => free_opt (blk_data b) ;;; free_opt (blk_types b) ;;; free (blk_self b)
  end.
(** [inl] is ERR_PTR. *)
Definition btf__new (data : list Z) : K (Z + btf) :=
  let! self := calloc in
  match self with
  | None => ret (inl (- ENOMEM))
  | Some self =>
      let fail err b := btf__free (Some b) ;;; ret (inl err) in
      let! blk := calloc in
      match blk with
      | None => fail (- ENOMEM) (Btf [] [] 0 0 0 self None None)
      | Some blk =>
          let b := Btf data [] 0 0 0 self (Some blk) None in
          let! err := deref (btf_parse_hdr data) in
          if negb (err =? 0) then fail err b
          else
            let! (err, start) := deref (btf_parse_str_sec data) in
            if negb (err =? 0) then fail err b
            else
              let! (err, b) := btf_parse_type_sec (set_strings b start) in
              if negb (err =? 0) then fail err b else ret (inr b)
      end
  end.
End Construct.

(** ** Lookups *)

Section Lookup.
Context (b : btf).
Abbreviation buf := (bt_data b).

(** NULL is [Some None]; a type is [Some (Some t)] with [t] as in [types]. *)
Definition btf__type_by_id (type_id : Z) : option (option (option Z)) :=
  if type_id >? nr_types b then Some None else t ← types b !! Z.to_nat type_id; Some (Some t).
(** NULL, [btf_void] or a forward declaration. *)
Definition btf_type_is_void_or_null (t : option (option Z)) : option bool :=
  match t with
  | None | Some None => Some true
  | Some (Some t) => k ← btf_kind buf t; Some (k =? BTF_KIND_FWD)
  end.

(** The end of [btf__resolve_size], at [done]. *)
Definition resolve_done (size nelems : Z) : Z :=
  if size <? 0 then - EINVAL
  else if negb (nelems =? 0) && (size >? UINT32_MAX / nelems) then - E2BIG
  else nelems * size.
(** The loop, [n] turns before the limit. *)
Fixpoint resolve_size_loop (n : nat) (t : option (option Z)) (nelems : Z) : option Z :=
  match n with
  | O => Some (resolve_done (-1) nelems)
  | S n =>
      void ← btf_type_is_void_or_null t;
      match t with
      | Some (Some t) =>
          if (void : bool) then Some (resolve_done (-1) nelems)
          else
            kind ← btf_kind buf t;
            if is_kind kind [BTF_KIND_INT; BTF_KIND_STRUCT; BTF_KIND_UNION; BTF_KIND_ENUM; BTF_KIND_DATASEC] then
              size ← size_or_type buf t; Some (resolve_done size nelems)
            else if kind =? BTF_KIND_PTR then Some (resolve_done 8 nelems)
            else if is_kind kind [BTF_KIND_TYPEDEF; BTF_KIND_VOLATILE; BTF_KIND_CONST; BTF_KIND_RESTRICT; BTF_KIND_VAR] then
              type_id ← size_or_type buf t; t ← btf__type_by_id type_id; resolve_size_loop n t nelems
            else if kind =? BTF_KIND_ARRAY then
              an ← array_nelems buf t;
              if negb (nelems =? 0) && (an >? UINT32_MAX / nelems) then Some (- E2BIG)
              else type_id ← array_type buf t; t ← btf__type_by_id type_id; resolve_size_loop n t (u32 (nelems * an))
            else Some (- EINVAL)
      | _ => Some (resolve_done (-1) nelems)
      end
  end.
Definition btf__resolve_size (type_id : Z) : option Z :=
  t ← btf__type_by_id type_id; resolve_size_loop MAX_RESOLVE_DEPTH t 1.

Definition is_ref_kind (k : Z) : bool :=
  is_kind k [BTF_KIND_VOLATILE; BTF_KIND_CONST; BTF_KIND_RESTRICT] || (k =? BTF_KIND_TYPEDEF) || (k =? BTF_KIND_VAR).
(** The loop and the test after it; [n] turns before the limit. *)
Fixpoint resolve_type_loop (n : nat) (type_id : Z) : option Z :=
  match n with
  | O => Some (- EINVAL)
  | S n =>
      t ← btf__type_by_id type_id;
      void ← btf_type_is_void_or_null t;
      match t with
      | Some (Some t) =>
          if (void : bool) then Some (- EINVAL)
          else
            kind ← btf_kind buf t;
            if is_ref_kind kind then type_id ← size_or_type buf t; resolve_type_loop n type_id
            else Some (s32 type_id)
      | _ => Some (- EINVAL)
      end
  end.
Definition btf__resolve_type (type_id : Z) : option Z := resolve_type_loop MAX_RESOLVE_DEPTH type_id.

(** A name is the rest of the image from its offset. *)
Definition btf__name_by_offset (offset : Z) : option (option (list Z)) :=
  str_len ← hdr_str_len buf;
  Some (if offset <? str_len then Some (drop (Z.to_nat (strings b + offset)) buf) else None).
(** "void" *)
Definition void_name : list Z := [118; 111; 105; 100].
Fixpoint find_name (n : nat) (i : Z) (type_name : list Z) : option Z :=
  match n with
  | O => Some (- ENOENT)
  | S n =>
      t ← types b !! Z.to_nat i;
      t ← t;
      off ← name_off buf t;
      name ← btf__name_by_offset off;
      match name with
      | Some name => s ← c_str name;
                     if bool_decide (type_name = s) then Some (s32 i) else find_name n (i + 1) type_name
      | None => find_name n (i + 1) type_name
      end
  end.
Definition btf__find_by_name (type_name : list Z) : option Z :=
  if bool_decide (type_name = void_name) then Some 0 else find_name (Z.to_nat (nr_types b)) 1 type_name.
End Lookup.

(** ** Images *)

(** A type: the three words of [struct btf_type] and what its kind adds. *)
Record ty := Ty { ty_name : Z; ty_info : Z; ty_size : Z; ty_rest : list Z }.
Definition ty_kind (t : ty) : Z := Z.land (Z.shiftr (ty_info t) 24) 15.
Definition ty_vlen (t : ty) : Z := Z.land (ty_info t) 65535.
Definition ty_len (t : ty) : Z := sizeof_btf_type + lenZ (ty_rest t).
(** The format: the bytes that follow [struct btf_type], by kind and number of elements, from
    the layouts of linux/btf.h.  An integer is followed by one word, an array by three
    ([struct btf_array]), a variable by one ([struct btf_var]); a member of a structure or
    union and an entry of a data section take three words each, an enumerator and a
    parameter two; nothing follows the other kinds, and there is no kind 0. *)
Definition layout (kind vlen : Z) : option Z :=
  match kind with
  | 1 | 14 => Some 4
  | 3 => Some 12
  | 4 | 5 | 15 => Some (12 * vlen)
  | 6 | 13 => Some (8 * vlen)
  | 2 | 7 | 8 | 9 | 10 | 11 | 12 => Some 0
  | _ => None
  end.
Definition ty_ok (t : ty) : Prop :=
  is_u32 (ty_name t) /\ is_u32 (ty_info t) /\ is_u32 (ty_size t) /\ Forall is_u8 (ty_rest t) /\
  layout (ty_kind t) (ty_vlen t) = Some (lenZ (ty_rest t)).
Definition encode_ty (t : ty) : list Z := word_bytes (ty_name t) ++ word_bytes (ty_info t) ++ word_bytes (ty_size t) ++ ty_rest t.
Definition encode_types (ts : list ty) : list Z := concat (map encode_ty ts).
Definition header (type_off type_len str_off str_len : Z) : list Z :=
  half_bytes BTF_MAGIC ++ [BTF_VERSION; 0] ++ word_bytes 24 ++ word_bytes type_off ++ word_bytes type_len ++
  word_bytes str_off ++ word_bytes str_len.
Definition image (ts : list ty) (strs : list Z) : list Z :=
  let n := lenZ (encode_types ts) in header 0 n n (lenZ strs) ++ encode_types ts ++ strs.
(** At least one type; the strings begin and end with a zero; all of it fits 31 bits. *)
Record image_ok (ts : list ty) (strs : list Z) : Prop := {
  io_types : Forall ty_ok ts /\ ts <> [];
  io_strs : exists s, strs = 0 :: s /\ (s = [] \/ exists s', s = s' ++ [0]);
  io_len : lenZ (image ts strs) < 2147483648
}.
(** The offsets of the types, the first at [p]. *)
Fixpoint offsets (p : Z) (ts : list ty) : list Z :=
  match ts with [] => [] | t :: ts => p :: offsets (p + ty_len t) ts end.

(** The sizes that the code computes are those of the format. *)
Lemma record_size_layout k v n : layout k v = Some n -> record_size k v = sizeof_btf_type + n.
Proof.
  unfold layout. repeat (match goal with |- context [match ?x with _ => _ end] => is_var x; destruct x end); try done;
    intros [= <-]; unfold record_size; cbn -[Z.add Z.mul Z.opp]; lia.
Qed.
Lemma layout_record_size k v n : 0 <= k < 16 -> record_size k v = sizeof_btf_type + n -> 0 <= n -> layout k v = Some n.
Proof.
  intros Hk. assert (Hc : k ∈ seqZ 0 16) by (apply elem_of_seqZ; lia). revert Hc. clear Hk. unfold sizeof_btf_type.
  vm_compute seqZ. rewrite !elem_of_cons, elem_of_nil. intros Hc. destruct_or! Hc; subst; unfold record_size, EINVAL; unfold sizeof_btf_type; cbn -[Z.add Z.mul Z.opp];
    intros; first [done | exfalso; lia | f_equal; lia].
Qed.
Lemma ty_ok_size t : ty_ok t -> record_size (ty_kind t) (ty_vlen t) = ty_len t.
Proof. intros (_ & _ & _ & _ & H). by apply record_size_layout in H. Qed.
Lemma encode_ty_len t : lenZ (encode_ty t) = ty_len t.
Proof. unfold encode_ty, ty_len, sizeof_btf_type. rewrite !length_app. cbn [word_bytes length]. lia. Qed.
Lemma word_front pre z rest : is_u32 z -> word_of (pre ++ word_bytes z ++ rest) (lenZ pre) = Some z.
Proof.
  intros Hz. rewrite <- (Z.add_0_r (lenZ pre)). apply word_of_app; [done|done|]. intros j Hj. by rewrite lookup_app_l by (cbn; lia).
Qed.
Lemma word_at' pre mid z rest p : is_u32 z -> p = lenZ pre + lenZ mid -> word_of (pre ++ mid ++ word_bytes z ++ rest) p = Some z.
Proof. intros Hz ->. rewrite (assoc_L (++)), <- Nat2Z.inj_add, <- length_app. by apply word_front. Qed.

(** The words of a type behind [pre]. *)
Section Fields.
Context (pre : list Z) (t : ty) (rest : list Z) (Ht : ty_ok t).
Let buf := pre ++ encode_ty t ++ rest.
Lemma field_name : name_off buf (lenZ pre) = Some (ty_name t).
Proof using Ht. unfold name_off, buf, encode_ty. rewrite <- !(assoc_L (++)). apply word_front, Ht. Qed.
Lemma field_info : info buf (lenZ pre) = Some (ty_info t).
Proof using Ht. unfold info, buf, encode_ty. rewrite <- !(assoc_L (++)). apply word_at'; [apply Ht|done]. Qed.
Lemma field_size : size_or_type buf (lenZ pre) = Some (ty_size t).
Proof using Ht.
  unfold size_or_type, buf, encode_ty. rewrite <- !(assoc_L (++)), (assoc_L (++) (word_bytes (ty_name t))). apply word_at'; [apply Ht|done].
Qed.
Lemma field_kind : btf_kind buf (lenZ pre) = Some (ty_kind t).
Proof using Ht. unfold btf_kind. by rewrite field_info. Qed.
Lemma field_type_size : btf_type_size buf (lenZ pre) = Some (ty_len t).
Proof using Ht. unfold btf_type_size, btf_kind, btf_vlen. rewrite field_info. cbn [mbind option_bind]. f_equal. by apply ty_ok_size. Qed.
(** A word of what the kind adds. *)
Lemma field_rest i w : 0 <= i -> word_of (ty_rest t) i = Some w -> word_of buf (lenZ pre + 12 + i) = Some w.
Proof.
  intros Hi Hw. unfold buf, encode_ty. unfold word_of in *.
  destruct (half_of (ty_rest t) i) as [x|] eqn:Ex; [|done]. destruct (half_of (ty_rest t) (i + 2)) as [y|] eqn:Ey; [|done].
  assert (Hskip : forall j h, 0 <= j -> half_of (ty_rest t) j = Some h ->
    half_of (pre ++ (word_bytes (ty_name t) ++ word_bytes (ty_info t) ++ word_bytes (ty_size t) ++ ty_rest t) ++ rest)
      (lenZ pre + 12 + j) = Some h).
  { intros j h Hj Hh. rewrite <- Z.add_assoc, half_of_skip by lia. apply half_of_prefix.
    change (word_bytes (ty_name t) ++ word_bytes (ty_info t) ++ word_bytes (ty_size t) ++ ty_rest t)
      with ((word_bytes (ty_name t) ++ word_bytes (ty_info t) ++ word_bytes (ty_size t)) ++ ty_rest t).
    change 12 with (lenZ (word_bytes (ty_name t) ++ word_bytes (ty_info t) ++ word_bytes (ty_size t))).
    by rewrite half_of_skip. }
  rewrite (Hskip i x Hi Ex), <- Z.add_assoc, (Hskip (i + 2) y) by (done || lia). exact Hw.
Qed.
End Fields.

(** ** The header and the strings *)

Section Header.
Context (a b c d : Z) (rest : list Z) (Ha : is_u32 a) (Hc : is_u32 c) (Hd : is_u32 d).
Let buf := header a b c d ++ rest.
Let pre8 := half_bytes BTF_MAGIC ++ [BTF_VERSION; 0] ++ word_bytes 24.
Lemma header_type_off : hdr_type_off buf = Some a.
Proof using Ha. exact (word_front pre8 a (word_bytes b ++ word_bytes c ++ word_bytes d ++ rest) Ha). Qed.
Lemma header_str_off : hdr_str_off buf = Some c.
Proof using Hc. exact (word_front (pre8 ++ word_bytes a ++ word_bytes b) c (word_bytes d ++ rest) Hc). Qed.
Lemma header_str_len : hdr_str_len buf = Some d.
Proof using Hd. exact (word_front (pre8 ++ word_bytes a ++ word_bytes b ++ word_bytes c) d rest Hd). Qed.
Lemma header_len : lenZ buf = 24 + lenZ rest.
Proof. unfold buf. rewrite length_app. cbn. lia. Qed.
Lemma header_start : hdr_magic buf = Some BTF_MAGIC /\ hdr_version buf = Some 1 /\ hdr_flags buf = Some 0.
Proof. done. Qed.
End Header.

Lemma encode_types_len ts : Forall ty_ok ts -> ts <> [] -> 12 <= lenZ (encode_types ts).
Proof.
  intros Ht Hne. destruct ts as [|t ts]; [done|]. unfold encode_types. cbn [map concat]. rewrite length_app, Nat2Z.inj_add, encode_ty_len.
  unfold ty_len, sizeof_btf_type. lia.
Qed.
Lemma image_len ts strs : lenZ (image ts strs) = 24 + lenZ (encode_types ts) + lenZ strs.
Proof. unfold image. rewrite header_len, length_app. lia. Qed.

Section Parsed.
Context (ts : list ty) (strs : list Z) (IO : image_ok ts strs).
Let buf := image ts strs.
Let n := lenZ (encode_types ts).
Lemma image_bounds : 12 <= n /\ 0 < lenZ strs /\ n + lenZ strs < 2147483648.
Proof using IO.
  destruct IO as [[Ht Hne] (s & Hs & _) Hl]. pose proof (encode_types_len ts Ht Hne). rewrite image_len in Hl. unfold n.
  split; [done|]. split; [rewrite Hs; cbn; lia|lia].
Qed.
Lemma image_type_off : hdr_type_off buf = Some 0.
Proof. apply header_type_off. int_solve. Qed.
Lemma image_str_off : hdr_str_off buf = Some n.
Proof using IO. pose proof image_bounds. apply header_str_off. int_unfold. lia. Qed.
Lemma image_str_len : hdr_str_len buf = Some (lenZ strs).
Proof using IO. pose proof image_bounds. apply header_str_len. int_unfold. lia. Qed.
Lemma image_hdr : btf_parse_hdr buf = Some 0.
Proof using IO.
  pose proof image_bounds as (H1 & H2 & H3). unfold btf_parse_hdr.
  assert (Hl : lenZ buf = 24 + n + lenZ strs) by apply image_len. rewrite Hl. unfold sizeof_btf_header.
  rewrite (proj2 (Z.ltb_ge _ _)) by lia.
  destruct (header_start 0 n n (lenZ strs) (encode_types ts ++ strs)) as (E1 & E2 & E3).
  change (header 0 n n (lenZ strs) ++ encode_types ts ++ strs) with buf in *.
  rewrite E1. cbn [mbind option_bind]. rewrite E2. cbn [mbind option_bind]. rewrite E3. cbn [mbind option_bind].
  rewrite image_type_off, image_str_off. cbn [mbind option_bind negb].
  change (BTF_MAGIC =? BTF_MAGIC) with true. change (1 =? BTF_VERSION) with true. cbn [negb Z.eqb].
  rewrite (proj2 (Z.eqb_neq _ _)) by lia. rewrite !(proj2 (Z.ltb_ge _ _)) by lia.
  rewrite Z.geb_leb, (proj2 (Z.leb_gt _ _)) by lia. done.
Qed.
Lemma image_strs : btf_parse_str_sec buf = Some (0, 24 + n).
Proof using IO.
  pose proof image_bounds as (H1 & H2 & H3). unfold btf_parse_str_sec. rewrite image_str_off, image_str_len. cbn [mbind option_bind].
  unfold sizeof_btf_header, BTF_MAX_STR_OFFSET. rewrite (proj2 (Z.eqb_neq _ _)) by lia. cbn [orb].
  replace (lenZ strs - 1 >? 2147483647) with false by lia.
  assert (Hb : forall i x, 0 <= i -> strs !! Z.to_nat i = Some x -> byte_of buf (24 + n + i) = Some x).
  { intros i x Hi Hx. unfold buf, image. rewrite (assoc_L (++)).
    replace (24 + n + i) with (lenZ (header 0 n n (lenZ strs) ++ encode_types ts) + i) by (rewrite length_app; cbn; unfold n; lia).
    by apply byte_of_app. }
  destruct (io_strs _ _ IO) as (s & Hs & Hlast).
  assert (E0 : byte_of buf (24 + n) = Some 0) by (replace (24 + n) with (24 + n + 0) by lia; apply Hb; [done|by rewrite Hs]).
  assert (E1 : byte_of buf (24 + n + lenZ strs - 1) = Some 0).
  { rewrite <- Z.add_sub_assoc. apply Hb; [lia|]. rewrite Hs. destruct Hlast as [->|[s' ->]]; [done|].
    replace (Z.to_nat (lenZ (0 :: s' ++ [0]) - 1)) with (length (0 :: s')) by (cbn; rewrite length_app; cbn; lia).
    change (0 :: s' ++ [0]) with ((0 :: s') ++ [0]). rewrite lookup_app_r by done. by rewrite Nat.sub_diag. }
  rewrite E0. cbn [mbind option_bind negb Z.eqb]. rewrite E1. done.
Qed.
End Parsed.

(** ** Construction *)

Section New.
Context `{OO : OsOk} (F : list Z) (Mp : list (Z * Z)) (Hp : list Z).

(** The structure owns its blocks, which are new and distinct. *)
Definition owned (b : btf) (s : sys) : Prop :=
  exists d, blk_data b = Some d /\ has s F Mp (option_list (blk_types b) ++ d :: blk_self b :: Hp) /\
    (blk_self b ∉ Hp) /\ (d ∉ blk_self b :: Hp) /\ (forall p, blk_types b = Some p -> p ∉ d :: blk_self b :: Hp).
(** The table holds [btf_void] and the types [offs]. *)
Definition table (b : btf) (offs : list Z) : Prop :=
  nr_types b = lenZ offs /\
  (types_size b = 0 /\ offs = [] /\ types b = [] \/
   nr_types b < types_size b <= BTF_MAX_NR_TYPES /\ types b = None :: map Some offs).
Definition same_image (b b' : btf) : Prop := bt_data b' = bt_data b /\ strings b' = strings b.

Lemma wp_btf_free b s : owned b s -> wp (btf__free (Some b)) (fun _ s' => has s' F Mp Hp) s.
Proof using OO.
  intros (d & Hd & HS & H1 & H2 & H3). unfold btf__free. rewrite Hd. cbn [free_opt].
  apply wp_bind. os_call. destruct (blk_types b) as [p|]; cbn [free_opt].
  - change (option_list (Some p) ++ d :: blk_self b :: Hp) with (p :: d :: blk_self b :: Hp) in H. specialize (H3 p eq_refl). pose proof (proj1 (not_elem_of_cons _ _ _) H3) as [Hpd Hps].
    rewrite filter_cons_True in H by done. rewrite filter_cons_fresh in H by done.
    apply wp_bind. os_call. rewrite filter_cons_fresh in H0 by done. os_call. by rewrite filter_cons_fresh in H4 by done.
  - change (option_list None ++ d :: blk_self b :: Hp) with (d :: blk_self b :: Hp) in H.
    rewrite filter_cons_fresh in H by done. apply wp_bind, wp_ret. os_call. by rewrite filter_cons_fresh in H0 by done.
Qed.

Lemma wp_add_type b s offs t : owned b s -> table b offs -> lenZ offs < 2147483647 ->
  wp (btf_add_type b t) (fun '(e, b') s' => owned b' s' /\ same_image b b' /\
    (e = 0 /\ table b' (offs ++ [t]) \/ (e = - ENOMEM \/ e = - E2BIG))) s.
Proof using OO.
  intros HO [Hn Htab] Hlen. unfold btf_add_type.
  assert (Hadd : forall b1 s1, owned b1 s1 -> same_image b b1 -> nr_types b1 = lenZ offs -> nr_types b1 + 1 < types_size b1 <= BTF_MAX_NR_TYPES ->
    types b1 = None :: map Some offs ->
    wp (guard_ (nr_types b1 + 1 <? types_size b1) ;;;
        ret (0, Btf (bt_data b1) (types b1 ++ [Some t]) (strings b1) (nr_types b1 + 1) (types_size b1) (blk_self b1) (blk_data b1) (blk_types b1)))
      (fun '(e, b') s' => owned b' s' /\ same_image b b' /\ (e = 0 /\ table b' (offs ++ [t]) \/ (e = - ENOMEM \/ e = - E2BIG))) s1).
  { intros b1 s1 HO1 HI1 Hn1 Hs1 Ht1. apply wp_bind, wp_guard; [by apply Z.ltb_lt; lia|]. apply wp_ret. split; [exact HO1|].
    split; [done|]. left. split; [done|]. split; cbn; [rewrite length_app; cbn; lia|]. right. split; [lia|].
    by rewrite Ht1, map_app. }
  assert (Hrange : 0 <= types_size b <= BTF_MAX_NR_TYPES).
  { unfold BTF_MAX_NR_TYPES in *. destruct Htab as [(E & _)|(? & _)]; lia. }
  unfold BTF_MAX_NR_TYPES in *. destruct (Z.ltb_spec (u32 (types_size b - nr_types b)) 2) as [Hlt|Hge].
  - destruct (Z.eqb_spec (types_size b) 2147483647); [apply wp_ret; split; [done|]; split; [done|by right; right]|].
    destruct HO as (d & Hd & HS & H1 & H2 & H3).
    apply wp_bind. eapply wp_calloc; [exact HS|intros p s1 Hp1 HS1|intros s1 HS1]; cbv beta iota.
    2: { apply wp_ret. split; [by exists d|]. split; [done|by right; left]. }
    apply not_elem_of_app in Hp1 as [Hpt Hp1]. apply wp_bind.
    assert (Hfree : forall Q, (forall s2, has s2 F Mp (p :: d :: blk_self b :: Hp) -> Q tt s2) -> wp (free_opt (blk_types b)) Q s1).
    { intros Q HQ. destruct (blk_types b) as [q|]; cbn [free_opt]; [|by apply wp_ret, HQ].
      change (option_list (Some q) ++ d :: blk_self b :: Hp) with (q :: d :: blk_self b :: Hp) in HS1.
      apply not_elem_of_cons in Hpt as [Hpq _]. os_call. apply HQ. rewrite filter_cons_True in H by done.
      by rewrite filter_cons_fresh in H by (by apply H3). }
    apply Hfree. intros s2 HS2. apply Hadd; cbn; try done.
    + exists d. split; [done|]. split; [done|]. split; [done|]. split; [done|]. by intros ? [= <-].
    + assert (types_size b - nr_types b < 2 /\ nr_types b <= types_size b).
      { destruct Htab as [(E & -> & _)|(? & _)]; [cbn in Hn; lia|]. rewrite u32_small in Hlt by (int_unfold; lia). lia. }
      pose proof (Z.shiftr_nonneg (types_size b) 2). lia.
    + destruct Htab as [(E & -> & Et)|(? & Et)]; [by rewrite Hn|]. destruct (Z.eqb_spec (nr_types b) 0) as [E0|]; [|done].
      destruct offs; [done|]. cbn in Hn. lia.
  - destruct Htab as [(E & -> & Et)|(Hs & Et)].
    { exfalso. rewrite E, Hn in Hge. by apply Hge. }
    rewrite u32_small in Hge by (int_unfold; lia). apply Hadd; try done. lia.
Qed.

Lemma wp_parse_types : forall ts fuel pre rest b s offs, bt_data b = pre ++ encode_types ts ++ rest -> Forall ty_ok ts ->
  owned b s -> table b offs -> lenZ offs + lenZ ts < 2147483648 -> (length ts <= fuel)%nat ->
  wp (parse_types fuel b (lenZ pre) (lenZ pre + lenZ (encode_types ts))) (fun '(e, b') s' => owned b' s' /\ same_image b b' /\
    (e = 0 /\ table b' (offs ++ offsets (lenZ pre) ts) \/ (e = - ENOMEM \/ e = - E2BIG))) s.
Proof using OO.
  induction ts as [|t ts IH]; intros fuel pre rest b s offs Hb Hts HO Htab Hlen Hfuel.
  { cbn [encode_types map concat length]. rewrite Z.add_0_r. destruct fuel; cbn [parse_types]; rewrite Z.ltb_irrefl; apply wp_ret;
      (split; [done|]; split; [done|]; left; split; [done|]; cbn [offsets]; by rewrite app_nil_r). }
  pose proof (List.Forall_inv Hts) as Ht. pose proof (List.Forall_inv_tail Hts) as Hts'.
  assert (Hcons : encode_types (t :: ts) = encode_ty t ++ encode_types ts) by done.
  assert (Hl : lenZ (encode_types (t :: ts)) = ty_len t + lenZ (encode_types ts)) by (rewrite Hcons, length_app, Nat2Z.inj_add, encode_ty_len; done).
  assert (Hpos : 12 <= ty_len t) by (unfold ty_len, sizeof_btf_type; lia).
  destruct fuel as [|fuel]; [cbn in Hfuel; lia|]. cbn [parse_types]. rewrite (proj2 (Z.ltb_lt _ _)) by lia.
  rewrite Hcons, <- (assoc_L (++)) in Hb. apply wp_bind. rewrite Hb, field_type_size by done. eapply wp_deref; [reflexivity|].
  rewrite (proj2 (Z.ltb_ge _ _)) by lia. apply wp_bind.
  eapply wp_mono; [apply (wp_add_type b s offs (lenZ pre) HO Htab); cbn in Hlen; lia|].
  intros [e b1] s1 (HO1 & [HI1 HI2] & [(-> & Htab1)|He]); cbv beta iota.
  2: { rewrite (proj2 (Z.eqb_neq e 0)) by (unfold ENOMEM, E2BIG in He; lia). apply wp_ret. split; [done|]. split; [done|by right]. }
  cbn [negb Z.eqb]. rewrite Hl. replace (lenZ pre + ty_len t) with (lenZ (pre ++ encode_ty t)) by (rewrite length_app, Nat2Z.inj_add, encode_ty_len; done).
  replace (lenZ pre + (ty_len t + lenZ (encode_types ts))) with (lenZ (pre ++ encode_ty t) + lenZ (encode_types ts))
    by (rewrite length_app, Nat2Z.inj_add, encode_ty_len; lia).
  eapply wp_mono; [apply (IH fuel (pre ++ encode_ty t) rest b1 s1 (offs ++ [lenZ pre]))|].
  - by rewrite HI1, Hb, <- (assoc_L (++)).
  - done.
  - done.
  - done.
  - rewrite length_app. cbn in *. lia.
  - cbn in Hfuel. lia.
  - intros [e' b2] s2 (HO2 & [HJ1 HJ2] & Hcase). split; [done|]. split; [split; congruence|].
    destruct Hcase as [(-> & Htab2)|He]; [left|by right]. split; [done|]. rewrite <- (assoc_L (++)) in Htab2. cbn [app] in Htab2.
    cbn [offsets]. by rewrite length_app, Nat2Z.inj_add, encode_ty_len in Htab2.
Qed.

(** What building from the image of [ts] and [strs] yields. *)
Definition parsed (ts : list ty) (strs : list Z) (b : btf) : Prop :=
  bt_data b = image ts strs /\ strings b = 24 + lenZ (encode_types ts) /\ nr_types b = lenZ ts /\
  types b = None :: map Some (offsets 24 ts).
Definition new_post (ts : list ty) (strs : list Z) (r : Z + btf) (s : sys) : Prop :=
  match r with
  | inl e => (e = - ENOMEM \/ e = - E2BIG) /\ has s F Mp Hp
  | inr b => owned b s /\ parsed ts strs b
  end.
Lemma offsets_len ts p : length (offsets p ts) = length ts.
Proof. revert p. induction ts; intros p; cbn; [done|]. by rewrite IHts. Qed.
Lemma encode_types_count ts : 12 * lenZ ts <= lenZ (encode_types ts).
Proof.
  induction ts as [|t ts IH]; [done|]. unfold encode_types in *. cbn [map concat length]. rewrite length_app, Nat2Z.inj_add, encode_ty_len.
  unfold ty_len, sizeof_btf_type. lia.
Qed.
Lemma wp_btf_new ts strs s : image_ok ts strs -> has s F Mp Hp -> wp (btf__new (image ts strs)) (new_post ts strs) s.
Proof using OO.
  intros IO HS. unfold btf__new. pose proof (image_bounds ts strs IO) as (B1 & B2 & B3). pose proof (encode_types_count ts) as B4.
  apply wp_bind. eapply wp_calloc; [exact HS|intros self s1 Hself HS1|intros s1 HS1]; cbv beta iota;
    [|apply wp_ret; split; [by left|done]].
  apply wp_bind. eapply wp_calloc; [exact HS1|intros blk s2 Hblk HS2|intros s2 HS2]; cbv beta iota.
  2: { cbn [btf__free free_opt blk_data blk_types blk_self]. do 2 apply wp_bind. apply wp_ret, wp_bind, wp_ret. os_call. os_release.
       apply wp_ret. split; [by left|done]. }
  apply wp_bind. rewrite image_hdr by done. eapply wp_deref; [reflexivity|]. cbn [negb Z.eqb].
  apply wp_bind. rewrite image_strs by done. eapply wp_deref; [reflexivity|]. cbv beta iota. cbn [negb Z.eqb].
  apply wp_bind. unfold btf_parse_type_sec, set_strings. cbn [bt_data types strings nr_types types_size blk_self blk_data blk_types].
  rewrite image_type_off, image_str_off by done. apply wp_bind. eapply wp_deref; [reflexivity|]. apply wp_bind. eapply wp_deref; [reflexivity|].
  set (b := Btf _ _ _ _ _ _ _ _). set (h := header 0 (lenZ (encode_types ts)) (lenZ (encode_types ts)) (lenZ strs)).
  change (sizeof_btf_header + 0) with (lenZ h). change (sizeof_btf_header + lenZ (encode_types ts)) with (lenZ h + lenZ (encode_types ts)).
  eapply wp_mono; [apply (wp_parse_types ts _ h strs b s2 [])|].
  - done.
  - apply IO.
  - exists blk. split; [done|]. split; [done|]. split; [done|]. split; [done|]. done.
  - split; [done|]. by left.
  - cbn. lia.
  - pose proof (image_len ts strs). lia.
  - intros [e b'] s3 (HO & [HI1 HI2] & Hcase). cbv beta iota. destruct Hcase as [(-> & Hn & Htab)|He].
    + cbn [negb Z.eqb]. apply wp_ret. split; [done|]. split; [done|]. split; [done|]. cbn [app] in Hn, Htab.
      rewrite offsets_len in Hn. split; [done|]. destruct Htab as [(_ & E & _)|(_ & E)]; [|done].
      exfalso. destruct IO as [[_ Hne] _ _]. destruct ts; [done|]. discriminate.
    + rewrite (proj2 (Z.eqb_neq e 0)) by (unfold ENOMEM, E2BIG in He; lia). cbn [negb]. apply wp_bind.
      eapply wp_mono; [by apply wp_btf_free|]. intros u s4 HS4. by apply wp_ret.
Qed.
End New.

(** ** Lookups in a parsed image *)

(** Type number [id]; numbers start at 1. *)
Definition type_at (ts : list ty) (id : Z) (t : ty) : Prop := 1 <= id /\ ts !! Z.to_nat (id - 1) = Some t.

Section Lookups.
Context (ts : list ty) (strs : list Z) (b : btf) (IO : image_ok ts strs) (PB : parsed ts strs b).

Lemma offsets_lookup : forall (l : list ty) (p : Z) (i : nat) (t : ty), l !! i = Some t ->
  exists l1 l2, l = l1 ++ t :: l2 /\ offsets p l !! i = Some (p + lenZ (encode_types l1)).
Proof.
  clear. induction l as [|u l IH]; intros p i t Hi; [done|]. destruct i as [|i]; cbn in Hi.
  - injection Hi as ->. exists [], l. split; [done|]. cbn. f_equal. lia.
  - destruct (IH (p + ty_len u) i t Hi) as (l1 & l2 & -> & Ho). exists (u :: l1), l2. split; [done|].
    change (offsets p (u :: l1 ++ t :: l2) !! S i) with (offsets (p + ty_len u) (l1 ++ t :: l2) !! i). rewrite Ho. f_equal. unfold encode_types. cbn [map concat]. rewrite length_app, Nat2Z.inj_add, encode_ty_len. lia.
Qed.
(** The record of a type is where the table says. *)
Lemma type_record id t : type_at ts id t -> exists pre rest, ty_ok t /\ bt_data b = pre ++ encode_ty t ++ rest /\
  btf__type_by_id b id = Some (Some (Some (lenZ pre))).
Proof using IO PB.
  intros [Hid Ht]. destruct PB as (Hd & _ & Hn & Hty). destruct (offsets_lookup ts 24 _ t Ht) as (l1 & l2 & El & Ho).
  set (h := header 0 (lenZ (encode_types ts)) (lenZ (encode_types ts)) (lenZ strs)).
  exists (h ++ encode_types l1), (encode_types l2 ++ strs). split.
  { destruct IO as [[Hok _] _ _]. rewrite List.Forall_forall in Hok. apply Hok, list_elem_of_In. by eapply list_elem_of_lookup_2. }
  split.
  - rewrite Hd. unfold image. fold h. rewrite El at 1. unfold encode_types. rewrite map_app, concat_app. cbn [map concat].
    by rewrite <- !(assoc_L (++)).
  - unfold btf__type_by_id. pose proof (lookup_lt_Some _ _ _ Ht) as Hlt. rewrite Hn.
    replace (id >? lenZ ts) with false by lia. rewrite Hty.
    replace (Z.to_nat id) with (S (Z.to_nat (id - 1))) by lia. 
    change ((None :: map Some (offsets 24 ts)) !! S (Z.to_nat (id - 1))) with ((Some <$> offsets 24 ts) !! Z.to_nat (id - 1)).
    rewrite list_lookup_fmap, Ho, length_app, Nat2Z.inj_add. done.
Qed.
(** Number 0 is void, numbers behind the last are NULL. *)
Lemma type_absent id : 0 <= id -> (forall t, ~ type_at ts id t) ->
  btf__type_by_id b id = Some None \/ btf__type_by_id b id = Some (Some None).
Proof using PB.
  intros Hid Hno. destruct PB as (_ & _ & Hn & Hty). unfold btf__type_by_id. rewrite Hn.
  destruct (Z.gtb_spec id (lenZ ts)) as [Hgt|Hle]; [by left|right]. rewrite Hty.
  destruct (decide (id = 0)) as [->|Hne]; [done|]. exfalso.
  destruct (lookup_lt_is_Some_2 ts (Z.to_nat (id - 1))) as [t Ht]; [lia|]. apply (Hno t). split; [lia|done].
Qed.
Lemma type_cases id : 0 <= id -> (exists t, type_at ts id t) \/ (forall t, ~ type_at ts id t).
Proof. clear. intros Hid. destruct (decide (1 <= id)) as [H1|H1]; [|right; intros t [? _]; lia].
  destruct (ts !! Z.to_nat (id - 1)) as [t|] eqn:E; [left; by exists t|right]. intros t [_ Ht]. congruence.
Qed.

(** *** Sizes *)

Definition sized_kind (k : Z) : bool := is_kind k [BTF_KIND_INT; BTF_KIND_STRUCT; BTF_KIND_UNION; BTF_KIND_ENUM; BTF_KIND_DATASEC].
Definition ref_kind (k : Z) : bool := is_kind k [BTF_KIND_TYPEDEF; BTF_KIND_VOLATILE; BTF_KIND_CONST; BTF_KIND_RESTRICT; BTF_KIND_VAR].
(** The size of type [id] is [n], by a derivation of at most [d] types. *)
Inductive size_in : nat -> Z -> Z -> Prop :=
  | Size_direct d id t : type_at ts id t -> sized_kind (ty_kind t) = true -> size_in (S d) id (ty_size t)
  | Size_ptr d id t : type_at ts id t -> ty_kind t = BTF_KIND_PTR -> size_in (S d) id 8
  | Size_ref d id t n : type_at ts id t -> ref_kind (ty_kind t) = true -> size_in d (ty_size t) n -> size_in (S d) id n
  | Size_array d id t elem nelems n : type_at ts id t -> ty_kind t = BTF_KIND_ARRAY ->
      word_of (ty_rest t) 0 = Some elem -> word_of (ty_rest t) 8 = Some nelems -> size_in d elem n ->
      size_in (S d) id (nelems * n).
Lemma type_at_unique id t t' : type_at ts id t -> type_at ts id t' -> t' = t.
Proof. intros [_ H1] [_ H2]. congruence. Qed.
(** The last step of a derivation. *)
Lemma size_in_inv d id t m : size_in (S d) id m -> type_at ts id t ->
  sized_kind (ty_kind t) = true /\ m = ty_size t \/ ty_kind t = BTF_KIND_PTR /\ m = 8 \/
  ref_kind (ty_kind t) = true /\ size_in d (ty_size t) m \/
  ty_kind t = BTF_KIND_ARRAY /\ exists elem nelems n, word_of (ty_rest t) 0 = Some elem /\ word_of (ty_rest t) 8 = Some nelems /\
    size_in d elem n /\ m = nelems * n.
Proof.
  intros Hs Ht. inversion Hs as [? ? t' Ht' Hk|? ? t' Ht' Hk|? ? t' n Ht' Hk Hr|? ? t' elem nelems n Ht' Hk He Hn Hr]; subst;
    pose proof (type_at_unique _ _ _ Ht Ht'); subst t'; [by left|by right; left|by right; right; left|].
  right; right; right. split; [done|]. by exists elem, nelems, n.
Qed.

(** The overflow test of the source is a test of the product. *)
Lemma mul_fits n k : 0 <= n -> 0 <= k -> negb (n =? 0) && (k >? UINT32_MAX / n) = (n * k >? UINT32_MAX).
Proof.
  clear. intros Hn Hk. unfold UINT32_MAX. destruct (Z.eqb_spec n 0) as [->|Hne]; [done|]. cbn [negb andb].
  destruct (Z.gtb_spec k (4294967295 / n)) as [Hgt|Hle]; symmetry; [apply Z.gtb_lt|rewrite Z.gtb_ltb; apply Z.ltb_ge].
  - pose proof (Z.mul_succ_div_gt 4294967295 n ltac:(lia)). nia.
  - pose proof (Z.mul_div_le 4294967295 n ltac:(lia)). nia.
Qed.
Lemma resolve_done_spec size nelems : 0 <= size -> 0 <= nelems ->
  (nelems * size <= UINT32_MAX -> resolve_done size nelems = nelems * size) /\
  (0 <= resolve_done size nelems -> resolve_done size nelems = nelems * size /\ nelems * size <= UINT32_MAX).
Proof.
  clear. intros Hs Hn. unfold resolve_done. rewrite (proj2 (Z.ltb_ge _ _)), mul_fits by done. unfold E2BIG.
  destruct (Z.gtb_spec (nelems * size) UINT32_MAX); lia.
Qed.
Lemma array_words t : ty_ok t -> ty_kind t = BTF_KIND_ARRAY ->
  exists elem nelems, word_of (ty_rest t) 0 = Some elem /\ is_u32 elem /\ word_of (ty_rest t) 8 = Some nelems /\ is_u32 nelems.
Proof.
  clear. intros (_ & _ & _ & Hu & Hr) Hk. rewrite Hk in Hr. injection Hr as Hr.
  destruct (word_in (ty_rest t) 0 Hu) as (e & He & Hue); [lia..|]. destruct (word_in (ty_rest t) 8 Hu) as (n & Hn & Hun); [lia..|].
  by exists e, n.
Qed.

(** What the loop computes for type [id] with [nelems] elements around it. *)
Definition size_result (n : nat) (id nelems r : Z) : Prop :=
  (0 <= r -> exists m, size_in n id m /\ r = nelems * m /\ r <= UINT32_MAX) /\
  (forall m, size_in n id m -> 0 < nelems * m <= UINT32_MAX -> r = nelems * m).
Lemma no_size n id nelems r : r < 0 -> (forall m, ~ size_in n id m) -> size_result n id nelems r.
Proof. clear. intros Hr Hno. split; [lia|]. intros m Hm. by destruct (Hno m). Qed.
Ltac kinds := unfold sized_kind, ref_kind, is_kind, BTF_KIND_INT, BTF_KIND_PTR, BTF_KIND_ARRAY, BTF_KIND_STRUCT, BTF_KIND_UNION,
  BTF_KIND_ENUM, BTF_KIND_FWD, BTF_KIND_TYPEDEF, BTF_KIND_VOLATILE, BTF_KIND_CONST, BTF_KIND_RESTRICT, BTF_KIND_VAR, BTF_KIND_DATASEC in *;
  cbn [existsb] in *; lia.

Lemma size_loop : forall n id nelems, 0 <= id -> 0 <= nelems <= UINT32_MAX ->
  exists t r, btf__type_by_id b id = Some t /\ resolve_size_loop b n t nelems = Some r /\ size_result n id nelems r.
Proof using IO PB.
  induction n as [|n IH]; intros id nelems Hid Hne.
  { destruct (type_cases id Hid) as [[t Ht]|Hno].
    - destruct (type_record id t Ht) as (pre & rest & _ & _ & E). eexists _, _. split; [exact E|]. split; [done|].
      apply no_size; [unfold resolve_done; cbn; unfold EINVAL; lia|]. intros m Hm. inversion Hm.
    - destruct (type_absent id Hid Hno) as [E|E]; (eexists _, _; split; [exact E|]; split; [done|]);
        (apply no_size; [unfold resolve_done; cbn; unfold EINVAL; lia|]; intros m Hm; inversion Hm). }
  destruct (type_cases id Hid) as [[t Ht]|Hno].
  2: { destruct (type_absent id Hid Hno) as [E|E]; (eexists _, _; split; [exact E|]; split; [done|]);
        (apply no_size; [unfold resolve_done; cbn; unfold EINVAL; lia|]; intros m Hm; inversion Hm; by eapply Hno). }
  destruct (type_record id t Ht) as (pre & rest & Hok & Eb & E).
  assert (Fk : btf_kind (bt_data b) (lenZ pre) = Some (ty_kind t)) by (rewrite Eb; by apply field_kind).
  assert (Fs : size_or_type (bt_data b) (lenZ pre) = Some (ty_size t)) by (rewrite Eb; by apply field_size).
  exists (Some (Some (lenZ pre))). cbn [resolve_size_loop btf_type_is_void_or_null]. rewrite Fk. cbn [mbind option_bind].
  pose proof (fun m Hm => size_in_inv n id t m Hm Ht) as Hinv.
  assert (Hsz : 0 <= ty_size t) by apply Hok.
  destruct (Z.eqb_spec (ty_kind t) BTF_KIND_FWD) as [Ef|Ef].
  { eexists. split; [done|]. split; [done|]. apply no_size; [done|]. intros m Hm.
    destruct (Hinv m Hm) as [[H1 _]|[[H1 _]|[[H1 _]|[H1 _]]]]; rewrite Ef in H1; done. }
  fold (sized_kind (ty_kind t)). fold (ref_kind (ty_kind t)).
  destruct (sized_kind (ty_kind t)) eqn:Es.
  { rewrite Fs. cbn [mbind option_bind]. eexists. split; [done|]. split; [done|].
    destruct (resolve_done_spec (ty_size t) nelems Hsz ltac:(lia)) as [R1 R2]. split.
    - intros Hr. destruct (R2 Hr) as [-> Hle]. exists (ty_size t). split; [by eapply Size_direct|done].
    - intros m Hm Hle. destruct (Hinv m Hm) as [[_ ->]|[[H1 _]|[[H1 _]|[H1 _]]]]; [apply R1; lia|exfalso; kinds..]. }
  destruct (Z.eqb_spec (ty_kind t) BTF_KIND_PTR) as [Ep|Ep].
  { eexists. split; [done|]. split; [done|]. destruct (resolve_done_spec 8 nelems ltac:(lia) ltac:(lia)) as [R1 R2]. split.
    - intros Hr. destruct (R2 Hr) as [-> Hle]. exists 8. split; [by eapply Size_ptr|done].
    - intros m Hm Hle. destruct (Hinv m Hm) as [[H1 _]|[[_ ->]|[[H1 _]|[H1 _]]]]; [exfalso; kinds|apply R1; lia|exfalso; kinds..]. }
  destruct (ref_kind (ty_kind t)) eqn:Er.
  { rewrite Fs. cbn [mbind option_bind]. destruct (IH (ty_size t) nelems Hsz Hne) as (t' & r & -> & Hr & R1 & R2). cbn [mbind option_bind].
    exists r. split; [done|]. split; [done|]. split.
    - intros H0. destruct (R1 H0) as (m & Hm & Hrest). exists m. split; [by eapply Size_ref|done].
    - intros m Hm. destruct (Hinv m Hm) as [[H1 _]|[[H1 _]|[[_ H2]|[H1 _]]]]; [exfalso; kinds..|by apply R2|exfalso; kinds]. }
  destruct (Z.eqb_spec (ty_kind t) BTF_KIND_ARRAY) as [Ea|Ea].
  2: { eexists. split; [done|]. split; [done|]. apply no_size; [done|]. intros m Hm.
    destruct (Hinv m Hm) as [[H1 _]|[[H1 _]|[[H1 _]|[H1 _]]]]; congruence. }
  destruct (array_words t Hok Ea) as (elem & ne & We & Hue & Wn & Hun).
  assert (Fe : array_type (bt_data b) (lenZ pre) = Some elem).
  { unfold array_type. replace (lenZ pre + 12) with (lenZ pre + 12 + 0) by lia. rewrite Eb. by apply field_rest. }
  assert (Fn : array_nelems (bt_data b) (lenZ pre) = Some ne).
  { unfold array_nelems. replace (lenZ pre + 20) with (lenZ pre + 12 + 8) by lia. rewrite Eb. by apply field_rest. }
  rewrite Fn. cbn [mbind option_bind]. rewrite (mul_fits nelems ne) by (unfold is_u32 in Hun; lia). unfold UINT32_MAX in *.
  assert (Hm : forall m, size_in (S n) id m -> exists k, size_in n elem k /\ m = ne * k).
  { intros m Hm. destruct (Hinv m Hm) as [[H1 _]|[[H1 _]|[[H1 _]|(_ & e & c & k & W1 & W2 & Hk & ->)]]]; [congruence..|].
    exists k. split; congruence. }
  destruct (Z.gtb_spec (nelems * ne) 4294967295) as [Hgt|Hle].
  { eexists. split; [done|]. split; [done|]. split; [done|]. intros m Hs Hr. destruct (Hm m Hs) as (k & _ & ->). exfalso.
    rewrite Z.mul_assoc in Hr. revert Hgt Hr. generalize (nelems * ne). clear. intros P Hgt [Hr1 Hr2].
    assert (0 < k) by (apply (Z.mul_pos_cancel_l P k); lia). unfold UINT32_MAX in Hr2. nia. }
  rewrite Fe. cbn [mbind option_bind]. unfold is_u32 in *. rewrite u32_small by (int_unfold; nia).
  destruct (IH elem (nelems * ne)) as (t' & r & -> & Hr & R1 & R2); [lia|unfold UINT32_MAX; nia|]. cbn [mbind option_bind].
  exists r. split; [done|]. split; [done|]. split.
  - intros H0. destruct (R1 H0) as (k & Hk & -> & Hle'). exists (ne * k). split; [by eapply Size_array|]. split; [ring|done].
  - intros m Hs Hle'. destruct (Hm m Hs) as (k & Hk & ->). rewrite (R2 k Hk); [ring|]. unfold UINT32_MAX in *. lia.
Qed.

(** *** Modifiers *)

(** Following modifiers, typedefs and variables from [id] ends at [r], after at most [d] types. *)
Inductive strips : nat -> Z -> Z -> Prop :=
  | Strip_end d id t : type_at ts id t -> is_ref_kind (ty_kind t) = false -> ty_kind t <> BTF_KIND_FWD -> strips (S d) id id
  | Strip_step d id t r : type_at ts id t -> is_ref_kind (ty_kind t) = true -> strips d (ty_size t) r -> strips (S d) id r.
Lemma type_loop : forall n id, 0 <= id ->
  exists r, resolve_type_loop b n id = Some r /\ (r = - EINVAL /\ (forall r', ~ strips n id r') \/ strips n id r).
Proof using IO PB.
  induction n as [|n IH]; intros id Hid; cbn [resolve_type_loop].
  { eexists. split; [done|]. left. split; [done|]. intros r' Hs. inversion Hs. }
  destruct (type_cases id Hid) as [[t Ht]|Hno].
  2: { destruct (type_absent id Hid Hno) as [E|E]; rewrite E; (eexists; split; [done|]; left; split; [done|]);
       intros r' Hs; inversion Hs; subst; eapply Hno; eassumption. }
  destruct (type_record id t Ht) as (pre & rest & Hok & Eb & E). rewrite E. cbn [mbind option_bind btf_type_is_void_or_null].
  assert (Fk : btf_kind (bt_data b) (lenZ pre) = Some (ty_kind t)) by (rewrite Eb; by apply field_kind).
  assert (Fs : size_or_type (bt_data b) (lenZ pre) = Some (ty_size t)) by (rewrite Eb; by apply field_size).
  rewrite Fk. cbn [mbind option_bind].
  assert (Hinv : forall r', strips (S n) id r' -> is_ref_kind (ty_kind t) = false /\ ty_kind t <> BTF_KIND_FWD /\ r' = id \/
    is_ref_kind (ty_kind t) = true /\ strips n (ty_size t) r').
  { intros r' Hs. inversion Hs as [? ? t' Ht' Hk Hf|? ? t' ? Ht' Hk Hr]; subst; pose proof (type_at_unique _ _ _ Ht Ht'); subst t'; auto. }
  destruct (Z.eqb_spec (ty_kind t) BTF_KIND_FWD) as [Ef|Ef].
  { eexists. split; [done|]. left. split; [done|]. intros r' Hs. destruct (Hinv r' Hs) as [(_ & Hn & _)|[Hn _]]; [done|].
    rewrite Ef in Hn. done. }
  destruct (is_ref_kind (ty_kind t)) eqn:Er.
  - rewrite Fs. cbn [mbind option_bind]. destruct (IH (ty_size t)) as (r & -> & Hr); [apply Hok|]. exists r. split; [done|].
    destruct Hr as [[-> Hno]|Hr]; [left|right; by eapply Strip_step]. split; [done|]. intros r' Hs.
    destruct (Hinv r' Hs) as [[Hn _]|[_ Hs']]; [done|by eapply Hno].
  - assert (s32 id = id) as Hid32.
    { destruct Ht as [_ Ht]. pose proof (lookup_lt_Some _ _ _ Ht). pose proof (image_bounds ts strs IO). pose proof (encode_types_count ts).
      apply s32_small. lia. }
    rewrite Hid32. exists id. split; [done|]. right. by eapply Strip_end.
Qed.

(** *** Names *)

Definition name_of (t : ty) : option (list Z) :=
  if ty_name t <? lenZ strs then c_str (drop (Z.to_nat (ty_name t)) strs) else None.
Lemma c_str_closed l : exists s, c_str (l ++ [0]) = Some s.
Proof. clear. induction l as [|x l [s Hs]]; [by exists []|]. cbn [app c_str]. rewrite Hs. destruct x; by eexists. Qed.
Lemma strs_closed : exists l, strs = l ++ [0].
Proof using IO. destruct (io_strs _ _ IO) as (s & Es & Hs). rewrite Es. destruct Hs as [->|[s' ->]]; [by exists []|by exists (0 :: s')]. Qed.
Lemma name_total t : 0 <= ty_name t < lenZ strs -> exists s, name_of t = Some s /\ c_str (drop (Z.to_nat (ty_name t)) strs) = Some s.
Proof using IO.
  intros Ht. unfold name_of. rewrite (proj2 (Z.ltb_lt _ _)) by lia. destruct strs_closed as [l El].
  assert (Hd : drop (Z.to_nat (ty_name t)) strs = drop (Z.to_nat (ty_name t)) l ++ [0]).
  { rewrite El. apply drop_app_le. rewrite El, length_app in Ht. cbn in Ht. lia. }
  rewrite Hd. destruct (c_str_closed (drop (Z.to_nat (ty_name t)) l)) as [s ->]. by exists s.
Qed.
Lemma find_name_spec nm : forall n i, 1 <= i -> i + Z.of_nat n = lenZ ts + 1 ->
  exists r, find_name b n i nm = Some r /\
    (r = - ENOENT /\ (forall j t, i <= j -> type_at ts j t -> name_of t <> Some nm) \/
     i <= r /\ (exists t, type_at ts r t /\ name_of t = Some nm) /\
       forall j t, i <= j < r -> type_at ts j t -> name_of t <> Some nm).
Proof using IO PB.
  induction n as [|n IH]; intros i Hi Hin; cbn [find_name].
  { eexists. split; [done|]. left. split; [done|]. intros j t Hj [_ Ht]. apply lookup_lt_Some in Ht. lia. }
  destruct (lookup_lt_is_Some_2 ts (Z.to_nat (i - 1))) as [t Ht]; [lia|]. assert (Hat : type_at ts i t) by done.
  destruct (type_record i t Hat) as (pre & rest & Hok & Eb & E).
  assert (Et : types b !! Z.to_nat i = Some (Some (lenZ pre))).
  { unfold btf__type_by_id in E. destruct (i >? nr_types b); [done|]. destruct (types b !! Z.to_nat i); cbn in E; congruence. }
  rewrite Et. cbn [mbind option_bind].
  assert (Fn : name_off (bt_data b) (lenZ pre) = Some (ty_name t)) by (rewrite Eb; by apply field_name).
  rewrite Fn. cbn [mbind option_bind]. unfold btf__name_by_offset. destruct PB as (Hd & Hst & _ & _).
  assert (Fl : hdr_str_len (bt_data b) = Some (lenZ strs)) by (rewrite Hd; by apply image_str_len). rewrite Fl. cbn [mbind option_bind].
  assert (Hnext : name_of t <> Some nm -> exists r, find_name b n (i + 1) nm = Some r /\
    (r = - ENOENT /\ (forall j t, i <= j -> type_at ts j t -> name_of t <> Some nm) \/
     i <= r /\ (exists t, type_at ts r t /\ name_of t = Some nm) /\ forall j t, i <= j < r -> type_at ts j t -> name_of t <> Some nm)).
  { intros Hne. assert (Hj : forall j u, j = i -> type_at ts j u -> name_of u <> Some nm).
    { intros j u -> Hu. by rewrite (type_at_unique _ _ _ Hat Hu). }
    destruct (IH (i + 1)) as (r & -> & Hr); [lia..|]. exists r. split; [done|]. destruct Hr as [[-> Hno]|(Hle & Hex & Hno)]; [left|right].
    - split; [done|]. intros j u Hij. destruct (decide (j = i)) as [->|]; [by apply Hj|apply Hno; lia].
    - split; [lia|]. split; [done|]. intros j u Hij. destruct (decide (j = i)) as [->|]; [by apply Hj|apply Hno; lia]. }
  destruct (Z.ltb_spec (ty_name t) (lenZ strs)) as [Hlt|Hge].
  2: { apply Hnext. unfold name_of. by rewrite (proj2 (Z.ltb_ge _ _)) by done. }
  assert (H0 : 0 <= ty_name t) by apply Hok. destruct (name_total t) as (s & Hs & Hcs); [lia|].
  assert (Hdr : drop (Z.to_nat (strings b + ty_name t)) (bt_data b) = drop (Z.to_nat (ty_name t)) strs).
  { rewrite Hd, Hst. unfold image. rewrite (assoc_L (++)).
    replace (Z.to_nat (24 + lenZ (encode_types ts) + ty_name t))
      with (length (header 0 (lenZ (encode_types ts)) (lenZ (encode_types ts)) (lenZ strs) ++ encode_types ts) + Z.to_nat (ty_name t))%nat
      by (rewrite length_app; cbn [header half_bytes word_bytes app length]; lia).
    rewrite <- drop_drop, drop_app_length. done. }
  rewrite Hdr, Hcs. cbn [mbind option_bind]. destruct (bool_decide (nm = s)) eqn:Eq.
  - apply bool_decide_eq_true in Eq as ->. pose proof (lookup_lt_Some _ _ _ Ht). pose proof (image_bounds ts strs IO).
    pose proof (encode_types_count ts). rewrite s32_small by lia. exists i. split; [done|]. right. split; [lia|]. split; [by exists t|]. lia.
  - apply bool_decide_eq_false in Eq. apply Hnext. congruence.
Qed.
End Lookups.

(** ** The theorems *)

(** C35: parsing inverts encoding.  From the image of any list of types, each as long as the
    format says for its kind and number of elements ([layout]), and any string section, whatever the allocator answers, [btf__new] builds a structure whose table holds
    exactly these types, in order, behind [btf_void], each at the offset of its record, and
    which owns three blocks, all new, however often the table had to grow; or it reports
    -ENOMEM or -E2BIG and has given every block back.  Freeing the structure gives back
    every block. *)
Theorem btf_new_parses `{OO : OsOk} (ts : list ty) (strs : list Z) (s : sys) : image_ok ts strs ->
  exists r s', btf__new (image ts strs) s = Some (r, s') /\ new_post (fds s) (maps s) (heap s) ts strs r s' /\
    forall b, r = inr b -> exists s'', btf__free (Some b) s' = Some (tt, s'') /\ has s'' (fds s) (maps s) (heap s).
Proof.
  intros IO. destruct (proj1 (wp_run _ _ _) (wp_btf_new (fds s) (maps s) (heap s) ts strs s IO ltac:(done))) as (r & s' & E & HP).
  exists r, s'. split; [done|]. split; [done|]. intros b ->. destruct HP as [Ho _].
  destruct (proj1 (wp_run _ _ _) (wp_btf_free _ _ _ b s' Ho)) as ([] & s'' & E' & HS). by exists s''.
Qed.

(** An integer, a pointer, an array of 3 integers, a typedef of it; "int" and "t". *)
Definition demo_types : list ty :=
  [Ty 1 0x1000000 4 [32; 0; 0; 1]; Ty 0 0x2000000 1 [];
   Ty 0 0x3000000 0 (word_bytes 1 ++ word_bytes 1 ++ word_bytes 3); Ty 5 0x8000000 3 []].
Definition demo_strs : list Z := [0; 105; 110; 116; 0; 116; 0].
Lemma demo_image_ok : image_ok demo_types demo_strs.
Proof.
  split.
  - split; [|done]. unfold demo_types.
    repeat (apply List.Forall_cons; [unfold ty_ok; cbn [ty_name ty_info ty_size]; split; [int_solve|split; [int_solve|split; [int_solve|split; [cbn [ty_rest word_bytes app]; all_bytes|done]]]]|]).
    apply List.Forall_nil.
  - exists [105; 110; 116; 0; 116; 0]. split; [done|]. right. by exists [105; 110; 116; 0; 116].
  - done.
Qed.
#[local] Existing Instance demo_os.
#[local] Existing Instance demo_os_ok.
Lemma btf_new_parses_witness : exists b s', btf__new (image demo_types demo_strs) demo_state = Some (inr b, s') /\
  parsed demo_types demo_strs b /\ types b = [None; Some 24; Some 40; Some 52; Some 76] /\ heap s' = [3; 2; 1].
Proof.
  destruct (btf_new_parses demo_types demo_strs demo_state demo_image_ok) as (r & s' & E & HP & _).
  pose proof E as E'. vm_compute in E'. injection E' as <- <-. destruct HP as [_ HP].
  eexists _, _. split; [exact E|]. split; [exact HP|]. done.
Defined.

(** On a parsed image every lookup ends without reading outside it.
    [btf__resolve_size] returns an error or the size that the rules of the type language
    derive for the type, which fits 32 bits; it finds every size that a derivation of at most
    32 types yields, as long as it is positive and fits.  [btf__resolve_type] ends at the
    type behind at most 31 modifiers, typedefs and variables, and reports -EINVAL only when
    there is none. *)
Theorem btf_resolves (ts : list ty) (strs : list Z) (b : btf) (id : Z) :
  image_ok ts strs -> parsed ts strs b -> 0 <= id ->
  exists r q, btf__resolve_size b id = Some r /\ btf__resolve_type b id = Some q /\
    (0 <= r -> size_in ts MAX_RESOLVE_DEPTH id r /\ r <= UINT32_MAX) /\
    (forall m, size_in ts MAX_RESOLVE_DEPTH id m -> 0 < m <= UINT32_MAX -> r = m) /\
    (q = - EINVAL /\ (forall r', ~ strips ts MAX_RESOLVE_DEPTH id r') \/ strips ts MAX_RESOLVE_DEPTH id q).
Proof.
  intros IO PB Hid. destruct (size_loop ts strs b IO PB MAX_RESOLVE_DEPTH id 1 Hid) as (t & r & Et & Er & R1 & R2); [done|].
  destruct (type_loop ts strs b IO PB MAX_RESOLVE_DEPTH id Hid) as (q & Eq & Hq).
  exists r, q. unfold btf__resolve_size, btf__resolve_type. rewrite Et, Eq. cbn [mbind option_bind]. split; [done|]. split; [done|].
  split; [|split; [|done]].
  - intros Hr. destruct (R1 Hr) as (m & Hm & E & Hle). rewrite Z.mul_1_l in E. by subst m.
  - intros m Hm Hle. specialize (R2 m Hm). rewrite Z.mul_1_l in R2. by apply R2.
Qed.
Definition demo_btf : btf := Btf (image demo_types demo_strs) [None; Some 24; Some 40; Some 52; Some 76] 88 4 16 1 (Some 2) (Some 3).
Lemma demo_parsed : parsed demo_types demo_strs demo_btf.
Proof. done. Qed.
Lemma btf_resolves_witness : btf__resolve_size demo_btf 4 = Some 12 /\ size_in demo_types MAX_RESOLVE_DEPTH 4 12 /\
  btf__resolve_type demo_btf 4 = Some 3.
Proof.
  destruct (btf_resolves demo_types demo_strs demo_btf 4 demo_image_ok demo_parsed) as (r & q & E & Eq & Hr & _); [done|].
  pose proof E as E'. vm_compute in E'. injection E' as <-. split; [exact E|]. split; [apply Hr; done|]. reflexivity.
Defined.

(** A search by name returns the number of the first type with that name, 0 for "void", and
    -ENOENT only when no type has it. *)
Theorem btf_find_first (ts : list ty) (strs : list Z) (b : btf) (nm : list Z) :
  image_ok ts strs -> parsed ts strs b -> nm <> void_name ->
  exists r, btf__find_by_name b nm = Some r /\
    (r = - ENOENT /\ (forall j t, type_at ts j t -> name_of strs t <> Some nm) \/
     (exists t, type_at ts r t /\ name_of strs t = Some nm) /\ forall j t, j < r -> type_at ts j t -> name_of strs t <> Some nm).
Proof.
  intros IO PB Hv. unfold btf__find_by_name. rewrite bool_decide_false by done.
  destruct (find_name_spec ts strs b IO PB nm (Z.to_nat (nr_types b)) 1) as (r & -> & Hr); [done|destruct PB as (_ & _ & -> & _); lia|].
  exists r. split; [done|]. destruct Hr as [[-> Hno]|(_ & Hex & Hno)]; [left|right]; (split; [done|]).
  - intros j t Ht. apply (Hno j); [apply Ht|done].
  - intros j t Hj Ht. apply (Hno j); [destruct Ht; lia|done].
Qed.

(** The length of the string section is not compared with the size of the image: a header
    that is accepted can make the parser read behind the image. *)
Lemma str_len_unchecked : let buf := header 0 12 12 100 ++ encode_ty (Ty 0 0x2000000 0 []) ++ [0] in
  btf_parse_hdr buf = Some 0 /\ btf_parse_str_sec buf = None.
Proof. done. Qed.
