(* ===== verification/BtfExt.v ===== *)
(** * Extended BTF: libbpf/src/btf.c, the section .BTF.ext

    The section holds, per program section, records for the functions, the source lines and
    the field accesses of a program.  [btf_ext__new] checks it, [btf_ext_reloc_info] copies
    the records of one program section behind those a program already has and moves their
    instruction offsets.  Reads outside the image are faults; heap blocks are those of Os.v.
    The theorems: on any bytes the check ends, reads only inside the image, and what it
    accepts can be walked to its end; the records of the first section of a name are the
    ones that are copied, each with its instruction offset moved. *)

From S2P Require Import Prelude Nlattr Netlink Os Params ProgLinfo Btf.
#[local] Open Scope Z_scope.
#[local] Open Scope prog_scope.

(** An offset into the image, behind the word with the record size. *)
Record btf_ext_info := Btf_ext_info { ei_info : Z; ei_rec_size : Z; ei_len : Z }.
Definition no_ext_info : btf_ext_info := Btf_ext_info 0 0 0.
(** The last two fields are the blocks of the structure. *)
Record btf_ext := Btf_ext {
  ex_data : list Z; ex_func : btf_ext_info; ex_line : btf_ext_info; ex_field : btf_ext_info;
  ex_self : Z; ex_blk : option Z
}.
(** sizeof(struct btf_ext_info_sec) and of the three minimal records. *)
Definition sec_hdrlen : Z := 8.
Definition sizeof_bpf_func_info_min : Z := 8.
Definition sizeof_bpf_line_info_min : Z := 16.
Definition sizeof_bpf_field_reloc : Z := 16.
(** offsetofend(struct btf_ext_header, _) *)
Definition end_hdr_len : Z := 8.
Definition end_line_info_len : Z := 24.
Definition end_field_reloc_len : Z := 32.

Section Image.
Context (buf : list Z).

Definition ext_hdr_len : option Z := word_of buf 4.
Definition btf_ext_parse_hdr : option Z :=
  if lenZ buf <? end_hdr_len then Some (- EINVAL)
  else
    hdr_len ← ext_hdr_len;
    if lenZ buf <? hdr_len then Some (- EINVAL)
    else
      magic ← hdr_magic buf;
      if negb (magic =? BTF_MAGIC) then Some (- EINVAL)
      else
        version ← hdr_version buf;
        if negb (version =? BTF_VERSION) then Some (- ENOTSUP)
        else
          flags ← hdr_flags buf;
          if negb (flags =? 0) then Some (- ENOTSUP)
          else if lenZ buf =? hdr_len then Some (- EINVAL)
          else Some 0.

(** The loop over the sections; a turn takes at least a section header. *)
Fixpoint setup_loop (fuel : nat) (sinfo info_left record_size : Z) : option Z :=
  if info_left =? 0 then Some 0
  else
    match fuel with
    | O => None
    | S fuel =>
        if info_left <? sec_hdrlen then Some (- EINVAL)
        else
          num_records ← word_of buf (sinfo + 4);
          if num_records =? 0 then Some (- EINVAL)
          else
            let total_record_size := sec_hdrlen + num_records * record_size in
            if info_left <? total_record_size then Some (- EINVAL)
            else setup_loop fuel (sinfo + total_record_size) (info_left - total_record_size) record_size
    end.
(** The result and the description of the section, [ei] if it stays as it was. *)
Definition btf_ext_setup_info (off len min_rec_size : Z) (ei : btf_ext_info) : option (Z * btf_ext_info) :=
  if len =? 0 then Some (0, ei)
  else if negb (Z.land off 3 =? 0) then Some (- EINVAL, ei)
  else
    hdr_len ← ext_hdr_len;
    let info := hdr_len + off in
    if lenZ buf <? info + len then Some (- EINVAL, ei)
    else if len <? 4 then Some (- EINVAL, ei)
    else
      record_size ← word_of buf info;
      if (record_size <? min_rec_size) || negb (Z.land record_size 3 =? 0) then Some (- EINVAL, ei)
      else if len - 4 =? 0 then Some (- EINVAL, ei)
      else
        r ← setup_loop (Z.to_nat len) (info + 4) (len - 4) record_size;
        if negb (r =? 0) then Some (r, ei) else Some (0, Btf_ext_info (info + 4) record_size (len - 4)).
Definition btf_ext_setup_func_info (ei : btf_ext_info) : option (Z * btf_ext_info) :=
  off ← word_of buf 8; len ← word_of buf 12; btf_ext_setup_info off len sizeof_bpf_func_info_min ei.
Definition btf_ext_setup_line_info (ei : btf_ext_info) : option (Z * btf_ext_info) :=
  off ← word_of buf 16; len ← word_of buf 20; btf_ext_setup_info off len sizeof_bpf_line_info_min ei.
Definition btf_ext_setup_field_reloc (ei : btf_ext_info) : option (Z * btf_ext_info) :=
  off ← word_of buf 24; len ← word_of buf 28; btf_ext_setup_info off len sizeof_bpf_field_reloc ei.
End Image.

Section Construct.
Context `{Os}.
Definition btf_ext__free (x : option btf_ext) : K unit :=
  match x with None => ret tt | Some x => free_opt (ex_blk x) ;;; free (ex_self x) end.
(** [inl] is ERR_PTR. *)
Definition btf_ext__new (data : list Z) : K (Z + btf_ext) :=
  let! err := deref (btf_ext_parse_hdr data) in
  if negb (err =? 0) then ret (inl err)
  else
    let! self := calloc in
    match self with
    | None => ret (inl (- ENOMEM))
    | Some self =>
        let fail err x := btf_ext__free (Some x) ;;; ret (inl err) in
        let! blk := calloc in
        match blk with
        | None => fail (- ENOMEM) (Btf_ext [] no_ext_info no_ext_info no_ext_info self None)
        | Some blk =>
            let ext f l r := Btf_ext data f l r self (Some blk) in
            let! hdr_len := deref (ext_hdr_len data) in
            if hdr_len <? end_line_info_len then ret (inr (ext no_ext_info no_ext_info no_ext_info))
            else
              let! (err, f) := deref (btf_ext_setup_func_info data no_ext_info) in
              if negb (err =? 0) then fail err (ext f no_ext_info no_ext_info)
              else
                let! (err, l) := deref (btf_ext_setup_line_info data no_ext_info) in
                if negb (err =? 0) then fail err (ext f l no_ext_info)
                else if hdr_len <? end_field_reloc_len then ret (inr (ext f l no_ext_info))
                else
                  let! (err, r) := deref (btf_ext_setup_field_reloc data no_ext_info) in
                  if negb (err =? 0) then fail err (ext f l r) else ret (inr (ext f l r))
        end
    end.
End Construct.

(** ** The records of a program section *)

(** The instruction offset of each of [n] records, from bytes to instructions, moved by
    [insns_cnt]. *)
Fixpoint adjust (n : nat) (record_size : nat) (insns_cnt : Z) (data : list Z) : option (list Z) :=
  match n with
  | O => Some []
  | S n =>
      insn_off ← word_of data 0;
      rest ← adjust n record_size insns_cnt (drop record_size data);
      Some (word_bytes (u32 (insn_off / 8 + insns_cnt)) ++ take (record_size - 4) (drop 4 data) ++ rest)
  end.

Section Reloc.
(** [realloc] asks the allocator; the state is that of its caller. *)
Context {S : Type} (realloc : M S bool) (b : btf).

(** The copied records; [info] is NULL or the records collected so far, [cnt] of them. *)
Definition copy_records (data : list Z) (sinfo num_info record_size insns_cnt : Z) (info : option (list Z)) (cnt : Z) :
    M S (Z * option (list Z) * Z) :=
  let records_len := u32 (num_info * record_size) in
  let existing_len := u32 (cnt * record_size) in
  let! ok := realloc in
  if negb ok then ret (- ENOMEM, info, cnt)
  else
    guard_ (existing_len <=? lenZ (default [] info)) ;;;
    guard_ (sinfo + sec_hdrlen + records_len <=? lenZ data) ;;;
    let records := take (Z.to_nat records_len) (drop (Z.to_nat (sinfo + sec_hdrlen)) data) in
    let! moved := deref (adjust (Z.to_nat num_info) (Z.to_nat record_size) insns_cnt records) in
    ret (0, Some (take (Z.to_nat existing_len) (default [] info) ++ moved), u32 (cnt + num_info)).
(** [strcmp] of a NULL name is a fault. *)
Fixpoint reloc_loop (fuel : nat) (data : list Z) (sinfo remain_len record_size : Z) (sec_name : list Z) (insns_cnt : Z)
    (info : option (list Z)) (cnt : Z) : M S (Z * option (list Z) * Z) :=
  if remain_len <=? 0 then ret (- ENOENT, info, cnt)
  else
    match fuel with
    | O => fault
    | Datatypes.S fuel =>
        let! num_info := deref (word_of data (sinfo + 4)) in
        let records_len := u32 (num_info * record_size) in
        let! sec_name_off := deref (word_of data sinfo) in
        let! name := deref (btf__name_by_offset b sec_name_off) in
        let! name := deref name in
        let! name := deref (c_str name) in
        if negb (bool_decide (name = sec_name)) then
          reloc_loop fuel data (sinfo + sec_hdrlen + records_len) (u64 (remain_len - u32 (sec_hdrlen + records_len))) record_size
            sec_name insns_cnt info cnt
        else copy_records data sinfo num_info record_size insns_cnt info cnt
    end.
Definition btf_ext_reloc_info (x : btf_ext) (ei : btf_ext_info) (sec_name : list Z) (insns_cnt : Z) (info : option (list Z)) (cnt : Z) :
    M S (Z * option (list Z) * Z) :=
  reloc_loop (Z.to_nat (ei_len ei)) (ex_data x) (ei_info ei) (ei_len ei) (ei_rec_size ei) sec_name insns_cnt info cnt.
Definition btf_ext__reloc_func_info (x : btf_ext) (sec_name : list Z) (insns_cnt : Z) (info : option (list Z)) (cnt : Z) :=
  btf_ext_reloc_info x (ex_func x) sec_name insns_cnt info cnt.
Definition btf_ext__reloc_line_info (x : btf_ext) (sec_name : list Z) (insns_cnt : Z) (info : option (list Z)) (cnt : Z) :=
  btf_ext_reloc_info x (ex_line x) sec_name insns_cnt info cnt.
End Reloc.
Definition btf_ext__func_info_rec_size (x : btf_ext) : Z := ei_rec_size (ex_func x).
Definition btf_ext__line_info_rec_size (x : btf_ext) : Z := ei_rec_size (ex_line x).

(** ** What an image holds *)

(** A program section: the offset of its name and its records. *)
Record sec := Sec { sec_off : Z; sec_recs : list (list Z) }.

Section Sections.
Context (buf : list Z) (record_size : Z).

Definition sec_len (s : sec) : Z := sec_hdrlen + lenZ (sec_recs s) * record_size.
(** The [left] bytes from [p] are the encoding of the sections. *)
Inductive sections : Z -> Z -> list sec -> Prop :=
  | Sections_nil p : sections p 0 []
  | Sections_cons p left s l :
      word_of buf p = Some (sec_off s) -> word_of buf (p + 4) = Some (lenZ (sec_recs s)) ->
      sec_recs s <> [] -> Forall (fun r => lenZ r = record_size) (sec_recs s) ->
      take (Z.to_nat (lenZ (sec_recs s) * record_size)) (drop (Z.to_nat (p + sec_hdrlen)) buf) = concat (sec_recs s) ->
      sections (p + sec_len s) left l -> sections p (sec_len s + left) (s :: l).

(** Cutting bytes into records. *)
Fixpoint chunks (n k : nat) (l : list Z) : list (list Z) :=
  match n with O => [] | S n => take k l :: chunks n k (drop k l) end.
Lemma chunks_spec : forall n k l, length l = (n * k)%nat ->
  concat (chunks n k l) = l /\ length (chunks n k l) = n /\ Forall (fun r => lenZ r = Z.of_nat k) (chunks n k l).
Proof.
  induction n as [|n IH]; intros k l Hl; cbn [chunks concat length].
  { split; [by destruct l|]. split; [done|apply List.Forall_nil]. }
  destruct (IH k (drop k l)) as (E & Hn & HF); [rewrite length_drop; lia|]. rewrite E, Hn. split; [apply take_drop|].
  split; [done|]. apply List.Forall_cons; [|done]. rewrite length_take. lia.
Qed.
Lemma concat_records_len (l : list (list Z)) : Forall (fun r => lenZ r = record_size) l -> lenZ (concat l) = lenZ l * record_size.
Proof. induction 1 as [|r l Hr _ IH]; [done|]. cbn [concat length]. rewrite length_app. lia. Qed.

Context (Hbytes : Forall is_u8 buf) (Hrec : 0 <= record_size).
Lemma sec_len_pos s : sec_hdrlen <= sec_len s.
Proof using Hrec. unfold sec_len. nia. Qed.
Lemma sections_left p left l : sections p left l -> 0 <= left.
Proof using Hrec. induction 1 as [|p left s l]; [done|]. pose proof (sec_len_pos s). unfold sec_hdrlen in *. lia. Qed.

(** The check ends, and accepts exactly the encodings of sections. *)
Lemma setup_loop_decides : forall fuel p left, 0 <= p -> 0 <= left -> p + left <= lenZ buf -> left <= Z.of_nat fuel ->
  exists r, setup_loop buf fuel p left record_size = Some r /\
    (r = 0 /\ (exists l, sections p left l) \/ r = - EINVAL /\ (forall l, ~ sections p left l)).
Proof using Hbytes Hrec.
  unfold sec_hdrlen. induction fuel as [|fuel IH]; intros p left Hp Hl Hb Hf; cbn [setup_loop].
  { assert (left = 0) as -> by lia. exists 0. split; [done|]. left. split; [done|]. exists []. constructor. }
  destruct (Z.eqb_spec left 0) as [->|Hne]; [exists 0; split; [done|]; left; split; [done|]; exists []; constructor|].
  assert (Hinv : forall l, sections p left l -> exists s l', l = s :: l' /\ left = sec_len s + (left - sec_len s) /\ 8 <= sec_len s <= left /\
    word_of buf (p + 4) = Some (lenZ (sec_recs s)) /\ sec_recs s <> [] /\ sections (p + sec_len s) (left - sec_len s) l').
  { intros l Hs. inversion Hs as [|? left' s l' W1 W2 Hnn HF Hc Hs']; [lia|]. subst.
    pose proof (sections_left _ _ _ Hs'). pose proof (sec_len_pos s). unfold sec_hdrlen in *. exists s, l'.
    replace (sec_len s + left' - sec_len s) with left' by lia. split; [done|]. repeat split; try done; lia. }
  unfold sec_hdrlen. destruct (Z.ltb_spec left 8).
  { eexists. split; [done|]. right. split; [done|]. intros l Hs. destruct (Hinv l Hs) as (s & l' & _ & _ & ? & _). lia. }
  destruct (word_in buf (p + 4) Hbytes) as (n & En & Hn); [lia..|]. rewrite En. cbn [mbind option_bind].
  destruct (Z.eqb_spec n 0) as [->|Hn0].
  { eexists. split; [done|]. right. split; [done|]. intros l Hs. destruct (Hinv l Hs) as (s & l' & _ & _ & _ & E & Hnn & _).
    rewrite En in E. injection E as E. by destruct (sec_recs s). }
  int_unfold. destruct (Z.ltb_spec left (8 + n * record_size)) as [Hlt|Hge].
  { eexists. split; [done|]. right. split; [done|]. intros l Hs. destruct (Hinv l Hs) as (s & l' & _ & _ & Hle & E & _ & _).
    rewrite En in E. injection E as E. unfold sec_len, sec_hdrlen in Hle. rewrite <- E in Hle. lia. }
  destruct (word_in buf p Hbytes) as (no & Eo & _); [lia..|].
  set (body := take (Z.to_nat (n * record_size)) (drop (Z.to_nat (p + 8)) buf)).
  assert (Hbody : length body = (Z.to_nat n * Z.to_nat record_size)%nat).
  { unfold body. rewrite length_take, length_drop. nia. }
  destruct (chunks_spec _ _ _ Hbody) as (Ec & Elen & HF). set (recs := chunks (Z.to_nat n) (Z.to_nat record_size) body) in *.
  assert (Hlr : lenZ recs = n) by lia.
  destruct (IH (p + (8 + n * record_size)) (left - (8 + n * record_size))) as (r & Er & Hr); [nia..|]. exists r. split; [done|].
  destruct Hr as [[-> [l Hs]]|[-> Hno]]; [left|right]; (split; [done|]).
  - exists (Sec no recs :: l). replace left with (sec_len (Sec no recs) + (left - (8 + n * record_size)))
      by (unfold sec_len, sec_hdrlen; cbn [sec_recs]; lia).
    constructor; unfold sec_len, sec_hdrlen; cbn [sec_recs sec_off]; rewrite ?Hlr; try done.
    + intros E. rewrite E in Hlr. cbn in Hlr. lia.
    + eapply List.Forall_impl; [|exact HF]. cbv beta. intros. lia.
  - intros l Hs. destruct (Hinv l Hs) as (s & l' & _ & _ & _ & E & _ & Hs'). rewrite En in E. injection E as E.
    apply (Hno l'). unfold sec_len, sec_hdrlen in Hs'. by rewrite <- E in Hs'.
Qed.
End Sections.

(** The description [ei] of a part of the image says where the sections [l] are. *)
Definition holds (buf : list Z) (min_rec_size : Z) (ei : btf_ext_info) (l : list sec) : Prop :=
  ei = no_ext_info /\ l = [] \/
  l <> [] /\ min_rec_size <= ei_rec_size ei /\ is_u32 (ei_rec_size ei) /\ 0 <= ei_info ei /\ is_u32 (ei_len ei) /\
    ei_info ei + ei_len ei <= lenZ buf /\ sections buf (ei_rec_size ei) (ei_info ei) (ei_len ei) l.
Lemma setup_info_decodes buf off len m : Forall is_u8 buf -> 8 <= lenZ buf -> is_u32 off -> is_u32 len -> 4 <= m ->
  exists e ei, btf_ext_setup_info buf off len m no_ext_info = Some (e, ei) /\
    (e = 0 /\ (exists l, holds buf m ei l) \/ e = - EINVAL).
Proof.
  intros Hb Hl Ho Hn Hm. unfold btf_ext_setup_info. int_unfold.
  destruct (Z.eqb_spec len 0) as [->|Hne]; [eexists _, _; split; [done|]; left; split; [done|]; exists []; by left|].
  destruct (Z.land off 3 =? 0); cbn [negb]; [|eauto 6]. unfold ext_hdr_len.
  destruct (word_in buf 4 Hb) as (h & -> & Hh); [lia..|]. cbn [mbind option_bind]. int_unfold.
  destruct (Z.ltb_spec (lenZ buf) (h + off + len)); [eauto 6|]. destruct (Z.ltb_spec len 4); [eauto 6|].
  destruct (word_in buf (h + off) Hb) as (rs & -> & Hrs); [lia..|]. cbn [mbind option_bind]. int_unfold.
  destruct (_ || _)%bool eqn:Eb; [eauto 6|]. bool_prop. destruct (Z.eqb_spec (len - 4) 0) as [|Hne4]; [eauto 6|].
  destruct (setup_loop_decides buf rs Hb ltac:(lia) (Z.to_nat len) (h + off + 4) (len - 4)) as (r & -> & Hr); [lia..|].
  cbn [mbind option_bind]. destruct Hr as [[-> [l Hs]]|[-> _]]; cbn [negb Z.eqb]; [|eauto 6].
  eexists _, _. split; [done|]. left. split; [done|]. exists l. right. cbn [ei_info ei_rec_size ei_len]. int_unfold. split; [|split_and!; (done || lia)].
  intros ->. inversion Hs. lia.
Qed.

(** The check of the header ends, and what it accepts has a header inside the image. *)
Lemma parse_hdr_total data : Forall is_u8 data -> exists e, btf_ext_parse_hdr data = Some e /\
  (e < 0 \/ e = 0 /\ exists h, ext_hdr_len data = Some h /\ is_u32 h /\ 8 <= lenZ data /\ h < lenZ data).
Proof.
  intros Hb. unfold btf_ext_parse_hdr, end_hdr_len. destruct (Z.ltb_spec (lenZ data) 8); [eexists; split; [done|]; by left|].
  destruct (word_in data 4 Hb) as (h & Eh & Hh); [lia..|]. unfold ext_hdr_len. rewrite Eh. cbn [mbind option_bind].
  destruct (Z.ltb_spec (lenZ data) h); [eexists; split; [done|]; by left|].
  unfold hdr_magic, hdr_version, hdr_flags.
  destruct (half_in data Hb 0) as (mg & -> & _); [lia..|]. destruct (byte_in data Hb 2) as (v & -> & _); [lia|].
  destruct (byte_in data Hb 3) as (fl & -> & _); [lia|]. cbn [mbind option_bind].
  destruct (mg =? BTF_MAGIC); cbn [negb]; [|eexists; split; [done|]; by left].
  destruct (v =? BTF_VERSION); cbn [negb]; [|eexists; split; [done|]; by left].
  destruct (fl =? 0); cbn [negb]; [|eexists; split; [done|]; by left].
  destruct (Z.eqb_spec (lenZ data) h); [eexists; split; [done|]; by left|].
  eexists. split; [done|]. right. split; [done|]. exists h. split_and!; try done; lia.
Qed.

Section New.
Context `{OO : OsOk} (F : list Z) (Mp : list (Z * Z)) (Hp : list Z).

(** What an accepted image is: its bytes, its three lists of sections, and two new blocks. *)
Definition ext_holds (data : list Z) (x : btf_ext) : Prop :=
  ex_data x = data /\ (exists l, holds data sizeof_bpf_func_info_min (ex_func x) l) /\
  (exists l, holds data sizeof_bpf_line_info_min (ex_line x) l) /\ exists l, holds data sizeof_bpf_field_reloc (ex_field x) l.
Definition ext_owned (x : btf_ext) (s : sys) : Prop :=
  exists d, ex_blk x = Some d /\ has s F Mp (d :: ex_self x :: Hp) /\ (ex_self x ∉ Hp) /\ (d ∉ ex_self x :: Hp).
Definition ext_post (data : list Z) (r : Z + btf_ext) (s : sys) : Prop :=
  match r with
  | inl e => e < 0 /\ has s F Mp Hp
  | inr x => ext_owned x s /\ ext_holds data x
  end.
Lemma wp_ext_free x s : ext_owned x s -> wp (btf_ext__free (Some x)) (fun _ s' => has s' F Mp Hp) s.
Proof using OO.
  intros (d & Hd & HS & H1 & H2). unfold btf_ext__free. rewrite Hd. cbn [free_opt]. apply wp_bind. os_call. os_release. os_call. os_release. done.
Qed.
Lemma no_info_holds data m : exists l, holds data m no_ext_info l.
Proof. exists []. by left. Qed.
Lemma wp_ext_new data s : Forall is_u8 data -> has s F Mp Hp -> wp (btf_ext__new data) (ext_post data) s.
Proof using OO.
  intros Hb HS. unfold btf_ext__new.
  destruct (parse_hdr_total data Hb) as (e & -> & He). apply wp_bind. eapply wp_deref; [reflexivity|].
  destruct He as [He|(-> & h & Eh & Hh & Hl8 & Hlh)].
  { rewrite (proj2 (Z.eqb_neq e 0)) by lia. by apply wp_ret. }
  cbn [negb Z.eqb]. apply wp_bind. eapply wp_calloc; [exact HS|intros self s1 Hself HS1|intros s1 HS1]; cbv beta iota; [|by apply wp_ret].
  apply wp_bind. eapply wp_calloc; [exact HS1|intros blk s2 Hblk HS2|intros s2 HS2]; cbv beta iota.
  2: { cbn [btf_ext__free free_opt ex_blk ex_self]. do 2 apply wp_bind. apply wp_ret. os_call. os_release. by apply wp_ret. }
  rewrite Eh. apply wp_bind. eapply wp_deref; [reflexivity|].
  assert (Hfail : forall e f l r, e < 0 -> wp (btf_ext__free (Some (Btf_ext data f l r self (Some blk))) ;;; ret (inl e)) (ext_post data) s2).
  { intros e f l r He. apply wp_bind. eapply wp_mono; [apply wp_ext_free; by exists blk|]. intros u s3 HS3. by apply wp_ret. }
  assert (Hok : forall f l r, (exists k, holds data sizeof_bpf_func_info_min f k) -> (exists k, holds data sizeof_bpf_line_info_min l k) ->
    (exists k, holds data sizeof_bpf_field_reloc r k) -> wp (ret (inr (Btf_ext data f l r self (Some blk)))) (ext_post data) s2).
  { intros f l r H1 H2 H3. apply wp_ret. split; [by exists blk|]. by split_and!. }
  assert (Hset : forall oo lo m, 4 <= m -> 0 <= oo -> oo + 4 <= lenZ data -> 0 <= lo -> lo + 4 <= lenZ data ->
    exists e ei, (off ← word_of data oo; len ← word_of data lo; btf_ext_setup_info data off len m no_ext_info) = Some (e, ei) /\
      (e = 0 /\ (exists l, holds data m ei l) \/ e = - EINVAL)).
  { intros oo lo m Hm H1 H2 H3 H4. destruct (word_in data oo Hb H1 H2) as (o & -> & Ho). destruct (word_in data lo Hb H3 H4) as (n & -> & Hn).
    cbn [mbind option_bind]. by apply setup_info_decodes. }
  unfold end_line_info_len, end_field_reloc_len. destruct (Z.ltb_spec h 24); [apply Hok; apply no_info_holds|].
  destruct (Hset 8 12 sizeof_bpf_func_info_min) as (e1 & f & E1 & H1); [done|lia..|].
  change (btf_ext_setup_func_info data no_ext_info = Some (e1, f)) in E1. rewrite E1. apply wp_bind. eapply wp_deref; [reflexivity|]. cbv beta iota.
  destruct H1 as [[-> H1]| ->]; [|by apply Hfail]. cbn [negb Z.eqb].
  destruct (Hset 16 20 sizeof_bpf_line_info_min) as (e2 & l & E2 & H2); [done|lia..|].
  change (btf_ext_setup_line_info data no_ext_info = Some (e2, l)) in E2. rewrite E2. apply wp_bind. eapply wp_deref; [reflexivity|]. cbv beta iota.
  destruct H2 as [[-> H2]| ->]; [|by apply Hfail]. cbn [negb Z.eqb].
  destruct (Z.ltb_spec h 32); [apply Hok; [done|done|apply no_info_holds]|].
  destruct (Hset 24 28 sizeof_bpf_field_reloc) as (e3 & r & E3 & H3); [done|lia..|].
  change (btf_ext_setup_field_reloc data no_ext_info = Some (e3, r)) in E3. rewrite E3. apply wp_bind. eapply wp_deref; [reflexivity|]. cbv beta iota.
  destruct H3 as [[-> H3]| ->]; [|by apply Hfail]. cbn [negb Z.eqb]. by apply Hok.
Qed.
End New.

(** ** Copying records *)

(** The name at an offset of the string section. *)
Definition name_at (b : btf) (off : Z) : option (list Z) :=
  match btf__name_by_offset b off with Some (Some l) => c_str l | _ => None end.
(** A record with its instruction offset moved. *)
Definition move_rec (insns_cnt : Z) (r : list Z) : list Z :=
  word_bytes (u32 (default 0 (word_of r 0) / 8 + insns_cnt)) ++ drop 4 r.

Lemma word_of_prefix l l' w : word_of l 0 = Some w -> word_of (l ++ l') 0 = Some w.
Proof.
  unfold word_of. destruct (half_of l 0) as [x|] eqn:Ex; [|done]. destruct (half_of l (0 + 2)) as [y|] eqn:Ey; [|done].
  by rewrite (half_of_prefix _ _ _ _ Ex), (half_of_prefix _ _ _ _ Ey).
Qed.
Lemma adjust_moves k insns_cnt : forall recs, (4 <= k)%nat -> Forall (fun r => Forall is_u8 r /\ length r = k) recs ->
  adjust (length recs) k insns_cnt (concat recs) = Some (concat (map (move_rec insns_cnt) recs)).
Proof.
  induction recs as [|r recs IH]; intros Hk HF; [done|]. apply Forall_cons_1 in HF as [[Hr Hl] HF].
  cbn [length adjust concat map]. destruct (word_in r 0 Hr) as (w & Ew & _); [lia..|].
  rewrite (word_of_prefix _ _ _ Ew). cbn [mbind option_bind]. rewrite (drop_app_length' r _ k) by done. rewrite IH by done. cbn [mbind option_bind].
  f_equal. unfold move_rec. rewrite Ew. cbn [default]. rewrite <- (assoc_L (++)). do 2 f_equal.
  rewrite drop_app_le by lia. rewrite take_app_length' by (rewrite length_drop; lia). done.
Qed.

Section Copy.
Context {S : Type} (realloc : M S bool) (b : btf) (buf : list Z) (record_size : Z).
Context (Hbytes : Forall is_u8 buf) (Hrec : 4 <= record_size) (Hrec32 : is_u32 record_size).

(** Copying the records of the section at the front of [sections]. *)
Lemma copy_records_spec p left s l insns_cnt info cnt st :
  sections buf record_size p left (s :: l) -> 0 <= p -> p + left <= lenZ buf -> is_u32 left ->
  is_u32 cnt -> lenZ (default [] info) = cnt * record_size -> is_u32 (cnt * record_size) ->
  copy_records realloc buf p (lenZ (sec_recs s)) record_size insns_cnt info cnt st =
    bind realloc (fun ok : bool => if ok then
      ret (0, Some (default [] info ++ concat (map (move_rec insns_cnt) (sec_recs s))), u32 (cnt + lenZ (sec_recs s)))
    else ret (- ENOMEM, info, cnt)) st.
Proof using Hbytes Hrec Hrec32.
  intros Hs Hp Hb Hl Hc Hi He. inversion Hs as [|? left' ? ? W1 W2 Hne HF Hcat Hs' E1 E2]. subst.
  pose proof (sections_left buf record_size ltac:(lia) _ _ _ Hs'). unfold sec_len, sec_hdrlen in *. int_unfold.
  unfold copy_records, sec_hdrlen. rewrite (u32_small (lenZ (sec_recs s) * record_size)) by (int_unfold; lia).
  rewrite (u32_small (cnt * record_size)) by (int_unfold; lia). rewrite Hcat. unfold bind. destruct (realloc st) as [[ok st']|]; [|done].
  destruct ok; cbn [negb]; [|done]. unfold guard_. rewrite (proj2 (Z.leb_le _ _)) by lia. rewrite (proj2 (Z.leb_le _ _)) by lia. cbn [ret].
  rewrite Nat2Z.id, adjust_moves; [|lia|].
  - cbn [deref]. unfold ret at 1 2 3. cbv beta iota. unfold ret. by rewrite (take_ge (default [] info)) by lia.
  - apply List.Forall_forall. intros r Hr. split.
    + assert (Hall : Forall is_u8 (concat (sec_recs s))) by (rewrite <- Hcat; by apply Forall_take, Forall_drop).
      rewrite List.Forall_forall in Hall |- *. intros x Hx. apply Hall. apply in_concat. by exists r.
    + rewrite List.Forall_forall in HF. specialize (HF r Hr). cbv beta in HF. lia.
Qed.
(** One turn of the loop. *)
Lemma reloc_turn fuel p left s n sec_name insns_cnt info cnt st : 0 < left ->
  word_of buf p = Some (sec_off s) -> word_of buf (p + 4) = Some (lenZ (sec_recs s)) -> name_at b (sec_off s) = Some n ->
  reloc_loop realloc b (Datatypes.S fuel) buf p left record_size sec_name insns_cnt info cnt st =
  (let records_len := u32 (lenZ (sec_recs s) * record_size) in
   if negb (bool_decide (n = sec_name)) then
     reloc_loop realloc b fuel buf (p + sec_hdrlen + records_len) (u64 (left - u32 (sec_hdrlen + records_len))) record_size
       sec_name insns_cnt info cnt st
   else copy_records realloc buf p (lenZ (sec_recs s)) record_size insns_cnt info cnt st).
Proof.
  intros Hl W1 W2 Hn. cbn [reloc_loop]. rewrite (proj2 (Z.leb_gt _ _)) by lia. unfold name_at in Hn.
  unfold bind at 1. rewrite W2. cbn [deref]. unfold ret at 1. cbv beta iota zeta. unfold bind at 1. rewrite W1. cbn [deref]. unfold ret at 1. cbv beta iota.
  destruct (btf__name_by_offset b (sec_off s)) as [[l|]|]; [|done..]. unfold bind, deref, ret. rewrite Hn. by destruct (negb _).
Qed.
(** The loop passes the sections with other names. *)
Lemma reloc_loop_skips sec_name insns_cnt info cnt st : forall l1 p left l2 fuel,
  sections buf record_size p left (l1 ++ l2) -> left <= Z.of_nat fuel -> is_u32 left ->
  Forall (fun s => exists n, name_at b (sec_off s) = Some n /\ n <> sec_name) l1 ->
  exists fuel' p' left', p' + left' = p + left /\ p <= p' /\ left' <= left /\ left' <= Z.of_nat fuel' /\ sections buf record_size p' left' l2 /\
    reloc_loop realloc b fuel buf p left record_size sec_name insns_cnt info cnt st =
    reloc_loop realloc b fuel' buf p' left' record_size sec_name insns_cnt info cnt st.
Proof using Hrec Hrec32.
  induction l1 as [|s l1 IH]; intros p left l2 fuel Hs Hf Hl HF.
  { exists fuel, p, left. split_and!; (done || lia). }
  apply Forall_cons_1 in HF as [(n & Hn & Hne) HF]. cbn [app] in Hs. inversion Hs as [|? left' ? ? W1 W2 Hnn HFr Hcat Hs' E1 E2]. subst.
  pose proof (sections_left buf record_size ltac:(lia) _ _ _ Hs') as Hl'. pose proof (sec_len_pos record_size ltac:(lia) s) as Hsl.
  unfold sec_hdrlen in Hsl. int_unfold.
  destruct fuel as [|fuel]; [lia|]. destruct (IH (p + sec_len record_size s) left' l2 fuel) as (f' & p' & q' & H1 & H2 & H3 & H4 & H5 & H6);
    [done|lia|int_unfold; lia|done|]. exists f', p', q'. split_and!; try done; try lia. rewrite <- H6. clear H6.
  rewrite (reloc_turn fuel p (sec_len record_size s + left') s n) by (done || lia). rewrite bool_decide_false by done. cbn [negb].
  unfold sec_len, sec_hdrlen in *. rewrite (u32_small (_ * _)) by (int_unfold; lia). rewrite (u32_small (8 + _)) by (int_unfold; lia).
  rewrite (u64_small (_ - _)) by (int_unfold; lia). f_equal; lia.
Qed.
End Copy.

(** ** The theorems *)

(** C37: the section .BTF.ext is safe to load.  On any bytes, whatever the allocator answers,
    [btf_ext__new] ends without reading outside them: it reports an error and has given back
    every block, or it returns a structure with two new blocks whose function, line and field
    parts are each absent or the encoding of a non-empty list of program sections with
    records of the declared size, inside the image.  Freeing gives back every block. *)
Theorem ext_new_decodes `{OO : OsOk} (data : list Z) (s : sys) : Forall is_u8 data ->
  exists r s', btf_ext__new data s = Some (r, s') /\ ext_post (fds s) (maps s) (heap s) data r s' /\
    forall x, r = inr x -> exists s'', btf_ext__free (Some x) s' = Some (tt, s'') /\ has s'' (fds s) (maps s) (heap s).
Proof.
  intros Hb. destruct (proj1 (wp_run _ _ _) (wp_ext_new (fds s) (maps s) (heap s) data s Hb ltac:(done))) as (r & s' & E & HP).
  exists r, s'. split; [done|]. split; [done|]. intros x ->. destruct HP as [Ho _].
  destruct (proj1 (wp_run _ _ _) (wp_ext_free _ _ _ x s' Ho)) as ([] & s'' & E' & HS). by exists s''.
Qed.

Lemma reloc_info_spec {S : Type} (realloc : M S bool) (b : btf) (x : btf_ext) (ei : btf_ext_info) (l : list sec) (m : Z)
    (sec_name : list Z) (insns_cnt : Z) (info : option (list Z)) (cnt : Z) (st : S) :
  Forall is_u8 (ex_data x) -> 4 <= m -> holds (ex_data x) m ei l ->
  Forall (fun s => name_at b (sec_off s) <> None) l ->
  is_u32 cnt -> lenZ (default [] info) = cnt * ei_rec_size ei -> is_u32 (cnt * ei_rec_size ei) ->
  btf_ext_reloc_info realloc b x ei sec_name insns_cnt info cnt st =
    match list_find (fun s => name_at b (sec_off s) = Some sec_name) l with
    | None => Some ((- ENOENT, info, cnt), st)
    | Some (_, s) => bind realloc (fun ok : bool => if ok then
        ret (0, Some (default [] info ++ concat (map (move_rec insns_cnt) (sec_recs s))), u32 (cnt + lenZ (sec_recs s)))
        else ret (- ENOMEM, info, cnt)) st
    end.
Proof.
  intros Hb Hm HH HN Hc Hi He. unfold btf_ext_reloc_info. destruct HH as [[-> ->]|(Hne & H1 & H2 & H3 & H4 & H5 & Hs)]; [done|].
  assert (Hsplit : forall l1, (forall s, s ∈ l1 -> s ∈ l) -> (forall s, s ∈ l1 -> name_at b (sec_off s) <> Some sec_name) ->
    Forall (fun s => exists n, name_at b (sec_off s) = Some n /\ n <> sec_name) l1).
  { intros l1 Hin Hno. apply list.Forall_forall. intros s Hs1. rewrite list.Forall_forall in HN. specialize (HN s (Hin s Hs1)).
    destruct (name_at b (sec_off s)) as [n|] eqn:E; [|done]. exists n. split; [done|]. intros ->. by apply (Hno s Hs1). }
  destruct (list_find _ l) as [[i s]|] eqn:Ef.
  - apply list_find_Some in Ef as (Hi' & Hn & Hbef). rewrite <- (take_drop_middle l i s Hi') in Hs.
    destruct (reloc_loop_skips realloc b (ex_data x) (ei_rec_size ei) ltac:(lia) H2 sec_name insns_cnt info cnt st (take i l) (ei_info ei) (ei_len ei)
      (s :: drop (Datatypes.S i) l) (Z.to_nat (ei_len ei))) as (f' & p' & q' & Q1 & Q2 & Q3 & Q4 & Q5 & ->); [done|lia|done| |].
    { apply Hsplit; intros s' Hin; [by eapply subseteq_take|]. apply list_elem_of_lookup in Hin as [j Hj].
      apply lookup_take_Some in Hj as [Hj Hji]. by eapply Hbef. }
    inversion Q5 as [|? left' ? ? W1 W2 Hnn HF Hcat Hs' E1 E2]. subst.
    pose proof (sections_left (ex_data x) (ei_rec_size ei) ltac:(lia) _ _ _ Hs') as Hl'. pose proof (sec_len_pos (ei_rec_size ei) ltac:(lia) s) as Hsl. unfold sec_hdrlen in Hsl.
    int_unfold. destruct f' as [|f']; [lia|]. rewrite (reloc_turn realloc b (ex_data x) (ei_rec_size ei) f' p' _ s sec_name) by (done || lia).
    rewrite bool_decide_true by done. cbn [negb]. cbv zeta.
    apply (copy_records_spec realloc (ex_data x) (ei_rec_size ei) Hb ltac:(lia) H2 p' (sec_len (ei_rec_size ei) s + left') s (drop (Datatypes.S i) l));
      (done || int_unfold; lia).
  - apply list_find_None in Ef. rewrite list.Forall_forall in Ef. rewrite <- (app_nil_r l) in Hs.
    destruct (reloc_loop_skips realloc b (ex_data x) (ei_rec_size ei) ltac:(lia) H2 sec_name insns_cnt info cnt st l (ei_info ei) (ei_len ei)
      [] (Z.to_nat (ei_len ei))) as (f' & p' & q' & Q1 & Q2 & Q3 & Q4 & Q5 & ->); [done|lia|done|by apply Hsplit|].
    inversion Q5. by destruct f'.
Qed.
(** The records of a section are no longer than the image. *)
Lemma section_fits buf m ei l s : holds buf m ei l -> 4 <= m -> s ∈ l ->
  Forall (fun r => lenZ r = ei_rec_size ei) (sec_recs s) /\ lenZ (sec_recs s) * ei_rec_size ei <= lenZ buf.
Proof.
  intros [[-> ->]|(_ & H1 & H2 & H3 & H4 & H5 & Hs)] Hm Hin; [by apply not_elem_of_nil in Hin|].
  assert (G : Forall (fun r => lenZ r = ei_rec_size ei) (sec_recs s) /\ lenZ (sec_recs s) * ei_rec_size ei <= ei_len ei); [|destruct G; split; [done|lia]].
  clear H1 H3 H4 H5 Hm. induction Hs as [|p left t l E1 E2 Hne HF Hcat Hs IH]; [by apply not_elem_of_nil in Hin|].
  pose proof (sections_left buf (ei_rec_size ei) ltac:(int_unfold; lia) _ _ _ Hs). apply elem_of_cons in Hin as [->|Hin].
  - split; [done|]. unfold sec_len, sec_hdrlen. lia.
  - destruct (IH Hin) as [G1 G2]. split; [done|]. pose proof (sec_len_pos (ei_rec_size ei) ltac:(int_unfold; lia) t). unfold sec_hdrlen in *. lia.
Qed.
Lemma moved_len n k (l : list (list Z)) : 4 <= k -> Forall (fun r => lenZ r = k) l -> lenZ (concat (map (move_rec n) l)) = lenZ l * k.
Proof.
  intros Hk. induction 1 as [|r l Hr _ IH]; [done|]. cbn [map concat length]. rewrite length_app. unfold move_rec at 1. rewrite length_app, length_drop. cbn [word_bytes length]. lia.
Qed.

(** Copying records.  On a part of an accepted image whose section names exist,
    [btf_ext_reloc_info] returns -ENOENT and changes nothing when no section has the name;
    otherwise it asks for memory once and, given it, appends the records of the first such
    section behind those the program had, each with its instruction offset turned from bytes
    to instructions and moved by [insns_cnt], and adds their number. *)
Theorem reloc_info_copies {S : Type} (realloc : M S bool) (b : btf) (x : btf_ext) (ei : btf_ext_info) (l : list sec) (m : Z)
    (sec_name : list Z) (insns_cnt : Z) (info : option (list Z)) (cnt : Z) (st : S) :
  Forall is_u8 (ex_data x) -> 4 <= m -> holds (ex_data x) m ei l ->
  Forall (fun s => name_at b (sec_off s) <> None) l ->
  is_u32 cnt -> lenZ (default [] info) = cnt * ei_rec_size ei -> is_u32 (cnt * ei_rec_size ei) ->
  btf_ext_reloc_info realloc b x ei sec_name insns_cnt info cnt st =
    match list_find (fun s => name_at b (sec_off s) = Some sec_name) l with
    | None => Some ((- ENOENT, info, cnt), st)
    | Some (_, s) => bind realloc (fun ok : bool => if ok then
        ret (0, Some (default [] info ++ concat (map (move_rec insns_cnt) (sec_recs s))), u32 (cnt + lenZ (sec_recs s)))
        else ret (- ENOMEM, info, cnt)) st
    end.
Proof. apply reloc_info_spec. Qed.

(** Two functions and one line of the section "int" of the types of Btf.v. *)
Definition demo_recs : list (list Z) := [word_bytes 0 ++ word_bytes 5; word_bytes 16 ++ word_bytes 6].
Definition demo_ext : list Z :=
  half_bytes BTF_MAGIC ++ [BTF_VERSION; 0] ++ word_bytes 24 ++ word_bytes 0 ++ word_bytes 28 ++ word_bytes 28 ++ word_bytes 28 ++
  (word_bytes 8 ++ word_bytes 1 ++ word_bytes 2 ++ concat demo_recs) ++
  (word_bytes 16 ++ word_bytes 1 ++ word_bytes 1 ++ word_bytes 8 ++ word_bytes 0 ++ word_bytes 0 ++ word_bytes 0).
(** Bytes by evaluation. *)
Lemma bytes_by_test (l : list Z) : forallb (fun z => (0 <=? z) && (z <? 256)) l = true -> Forall is_u8 l.
Proof. intros Hl. apply List.Forall_forall. intros x Hx. rewrite forallb_forall in Hl. specialize (Hl x Hx). bool_prop. by split. Qed.
Lemma demo_ext_bytes : Forall is_u8 demo_ext.
Proof. by apply bytes_by_test. Qed.
#[local] Existing Instance demo_os.
#[local] Existing Instance demo_os_ok.
Lemma ext_new_decodes_witness : exists x s', btf_ext__new demo_ext demo_state = Some (inr x, s') /\ ext_holds demo_ext x /\
  ex_func x = Btf_ext_info 28 8 24 /\ ex_line x = Btf_ext_info 56 16 24 /\ heap s' = [2; 1].
Proof.
  destruct (ext_new_decodes demo_ext demo_state demo_ext_bytes) as (r & s' & E & HP & _).
  pose proof E as E'. vm_compute in E'. injection E' as <- <-. destruct HP as [_ HP].
  eexists _, _. split; [exact E|]. split; [exact HP|]. done.
Defined.
Definition demo_btf_ext : btf_ext := Btf_ext demo_ext (Btf_ext_info 28 8 24) (Btf_ext_info 56 16 24) no_ext_info 1 (Some 2).
Lemma demo_ext_holds : holds demo_ext sizeof_bpf_func_info_min (ex_func demo_btf_ext) [Sec 1 demo_recs].
Proof.
  right. split; [done|]. cbn [ex_func demo_btf_ext ei_info ei_rec_size ei_len]. unfold sizeof_bpf_func_info_min, is_u32.
  split; [lia|]. split; [lia|]. split; [lia|]. split; [lia|]. split; [done|].
  apply (Sections_cons demo_ext 8 28 0 (Sec 1 demo_recs) []); try done; [|constructor].
  by repeat (apply List.Forall_cons; [done|]).
Qed.
(** The functions of a subprogram appended behind 100 instructions. *)
Lemma reloc_info_copies_witness :
  btf_ext__reloc_func_info (S := unit) (ret true) demo_btf demo_btf_ext [105; 110; 116] 100 None 0 tt =
    Some ((0, Some (word_bytes 100 ++ word_bytes 5 ++ word_bytes 102 ++ word_bytes 6), 2), tt).
Proof.
  unfold btf_ext__reloc_func_info.
  rewrite (reloc_info_copies (ret true) demo_btf demo_btf_ext (ex_func demo_btf_ext) [Sec 1 demo_recs] 8);
    [reflexivity|exact demo_ext_bytes|done|exact demo_ext_holds|by apply List.Forall_cons|int_solve|done|int_solve].
Defined.

(** The offset of a section name is not checked: one behind the string section makes the
    search compare with NULL. *)
Lemma ext_name_unchecked : let ext := demo_btf_ext in
  btf_ext__reloc_func_info (S := unit) (ret true) (Btf (image demo_types [0]) [None; Some 24; Some 40; Some 52; Some 76] 88 4 16 1 (Some 2) (Some 3))
    ext [105; 110; 116] 0 None 0 tt = None.
Proof. reflexivity. Qed.
