(* ===== verification/Object.v ===== *)
(** * Objects, programs and maps: libbpf/src/libbpf.c

    The structures of a BPF object file in memory and the functions that only read them or
    set a field: iteration, searches, descriptors.  Maps and programs are lists; a handle of
    one is its index.  The theorem on iteration: stepping with [bpf_program__next] visits
    every program but the storage of functions, each once and in order, and a search by
    title finds the first of them. *)

From S2P Require Import Prelude BpfProg Os Btf BtfExt.
#[local] Open Scope Z_scope.

Abbreviation path := (list Z).
Definition ESRCH : Z := 3.
Definition BPF_PROG_TYPE_UNSPEC : Z := 0.
Definition BPF_PROG_TYPE_SOCKET_FILTER : Z := 1.
Definition BPF_PROG_TYPE_KPROBE : Z := 2.
Definition BPF_PROG_TYPE_XDP : Z := 6.
Definition BPF_PROG_TYPE_TRACING : Z := 26.
Definition BPF_MAP_TYPE_UNSPEC : Z := 0.
Definition BPF_MAP_TYPE_ARRAY : Z := 2.
Definition BPF_MAP_TYPE_PERF_EVENT_ARRAY : Z := 4.
Definition BPF_MAP_TYPE_ARRAY_OF_MAPS : Z := 12.
Definition BPF_MAP_TYPE_HASH_OF_MAPS : Z := 13.

Record bpf_map_def := Bpf_map_def { d_type : Z; d_key_size : Z; d_value_size : Z; d_max_entries : Z; d_map_flags : Z }.
Inductive libbpf_map_type := LIBBPF_MAP_UNSPEC | LIBBPF_MAP_DATA | LIBBPF_MAP_BSS | LIBBPF_MAP_RODATA.
#[export] Instance libbpf_map_type_eq_dec : EqDecision libbpf_map_type.
Proof. solve_decision. Defined.

(** [struct bpf_map], without the caller's private data. *)
Record bpf_map := Bpf_map {
  m_name : path; m_fd : Z; m_pin_path : option path; m_pinned : bool; m_reused : bool;
  m_sec_idx : Z; m_sec_offset : Z; m_ifindex : Z; m_inner_map_fd : Z; m_def : bpf_map_def;
  m_btf_key : Z; m_btf_value : Z; m_type : libbpf_map_type
}.
Definition set_fd (m : bpf_map) (fd : Z) : bpf_map :=
  Bpf_map (m_name m) fd (m_pin_path m) (m_pinned m) (m_reused m) (m_sec_idx m) (m_sec_offset m) (m_ifindex m) (m_inner_map_fd m)
    (m_def m) (m_btf_key m) (m_btf_value m) (m_type m).
Definition set_pin_path (m : bpf_map) (p : option path) : bpf_map :=
  Bpf_map (m_name m) (m_fd m) p (m_pinned m) (m_reused m) (m_sec_idx m) (m_sec_offset m) (m_ifindex m) (m_inner_map_fd m)
    (m_def m) (m_btf_key m) (m_btf_value m) (m_type m).
Definition set_pinned (m : bpf_map) (b : bool) : bpf_map :=
  Bpf_map (m_name m) (m_fd m) (m_pin_path m) b (m_reused m) (m_sec_idx m) (m_sec_offset m) (m_ifindex m) (m_inner_map_fd m)
    (m_def m) (m_btf_key m) (m_btf_value m) (m_type m).
Definition set_btf_ids (m : bpf_map) (k v : Z) : bpf_map :=
  Bpf_map (m_name m) (m_fd m) (m_pin_path m) (m_pinned m) (m_reused m) (m_sec_idx m) (m_sec_offset m) (m_ifindex m) (m_inner_map_fd m)
    (m_def m) k v (m_type m).
Definition set_def (m : bpf_map) (d : bpf_map_def) : bpf_map :=
  Bpf_map (m_name m) (m_fd m) (m_pin_path m) (m_pinned m) (m_reused m) (m_sec_idx m) (m_sec_offset m) (m_ifindex m) (m_inner_map_fd m)
    d (m_btf_key m) (m_btf_value m) (m_type m).
Definition bpf_map__set_ifindex (m : bpf_map) (i : Z) : bpf_map :=
  Bpf_map (m_name m) (m_fd m) (m_pin_path m) (m_pinned m) (m_reused m) (m_sec_idx m) (m_sec_offset m) i (m_inner_map_fd m)
    (m_def m) (m_btf_key m) (m_btf_value m) (m_type m).
Definition no_def : bpf_map_def := Bpf_map_def 0 0 0 0 0.
Definition set_name (m : bpf_map) (n : path) : bpf_map :=
  Bpf_map n (m_fd m) (m_pin_path m) (m_pinned m) (m_reused m) (m_sec_idx m) (m_sec_offset m) (m_ifindex m) (m_inner_map_fd m)
    (m_def m) (m_btf_key m) (m_btf_value m) (m_type m).
(** A map as [bpf_object__add_map] hands it out: zeroes and two descriptors of -1. *)
Definition new_map : bpf_map := Bpf_map [] (-1) None false false 0 0 0 (-1) no_def 0 0 LIBBPF_MAP_UNSPEC.

Inductive reloc_desc :=
  | RELO_LD64 (insn_idx map_idx : Z)
  | RELO_CALL (insn_idx text_off : Z)
  | RELO_DATA (insn_idx map_idx : Z).
(** [struct bpf_program], without private data.  [p_fds] are the instances, [] before the
    program is loaded ([nr] is -1 then and [fds] is NULL); [p_insns] are the instructions
    and [p_reloc] the relocations, [None] for NULL.  A preprocessor gets the number of the
    instance and the instructions, and returns an error code and new instructions. *)
Record bpf_program := Bpf_program {
  p_idx : Z; p_name : path; p_ifindex : Z; p_section_name : path; p_pin_name : path;
  p_insns : list bpf_insn; p_main_prog_cnt : Z; p_type : Z; p_reloc : option (list reloc_desc); p_log_level : Z;
  p_fds : list Z; p_prep : option (Z -> list bpf_insn -> Z * list bpf_insn);
  p_expected_attach_type : Z; p_attach_btf_id : Z;
  p_func_info : option (list Z); p_func_info_rec_size : Z; p_func_info_cnt : Z;
  p_line_info : option (list Z); p_line_info_rec_size : Z; p_line_info_cnt : Z; p_prog_flags : Z
}.
(** [struct bpf_capabilities]. *)
Record caps := Caps { cap_name : bool; cap_global_data : bool; cap_btf_func : bool; cap_btf_datasec : bool }.
(** [struct bpf_object], without private data and the list of all objects.  Of [efile] the
    section indices, which outlive the ELF file; [o_btf] is the type information with its
    descriptor. *)
Record bpf_object := Bpf_object {
  o_name : path; o_license : list Z; o_kern_version : Z;
  o_programs : list bpf_program; o_maps : list bpf_map; o_data : option (list Z); o_rodata : option (list Z);
  o_loaded : bool; o_has_pseudo_calls : bool;
  o_maps_shndx : Z; o_btf_maps_shndx : Z; o_text_shndx : Z; o_data_shndx : Z; o_rodata_shndx : Z; o_bss_shndx : Z;
  o_btf : option (btf * Z); o_btf_ext : option btf_ext; o_caps : caps
}.
Definition with_maps (o : bpf_object) (l : list bpf_map) : bpf_object :=
  Bpf_object (o_name o) (o_license o) (o_kern_version o) (o_programs o) l (o_data o) (o_rodata o) (o_loaded o) (o_has_pseudo_calls o)
    (o_maps_shndx o) (o_btf_maps_shndx o) (o_text_shndx o) (o_data_shndx o) (o_rodata_shndx o) (o_bss_shndx o) (o_btf o) (o_btf_ext o) (o_caps o).
Definition with_programs (o : bpf_object) (l : list bpf_program) : bpf_object :=
  Bpf_object (o_name o) (o_license o) (o_kern_version o) l (o_maps o) (o_data o) (o_rodata o) (o_loaded o) (o_has_pseudo_calls o)
    (o_maps_shndx o) (o_btf_maps_shndx o) (o_text_shndx o) (o_data_shndx o) (o_rodata_shndx o) (o_bss_shndx o) (o_btf o) (o_btf_ext o) (o_caps o).
Definition with_loaded (o : bpf_object) (b : bool) : bpf_object :=
  Bpf_object (o_name o) (o_license o) (o_kern_version o) (o_programs o) (o_maps o) (o_data o) (o_rodata o) b (o_has_pseudo_calls o)
    (o_maps_shndx o) (o_btf_maps_shndx o) (o_text_shndx o) (o_data_shndx o) (o_rodata_shndx o) (o_bss_shndx o) (o_btf o) (o_btf_ext o) (o_caps o).

(** An object as [bpf_object__new] makes it: zeroes, and -1 for all sections but .text. *)
Definition new_object (name : path) (kern_version : Z) : bpf_object :=
  Bpf_object name (replicate 64 0) kern_version [] [] None None false false (-1) (-1) 0 (-1) (-1) (-1) None None (Caps false false false false).

(** ** Fields of programs *)

Definition set_insns (p : bpf_program) (l : list bpf_insn) : bpf_program :=
  Bpf_program (p_idx p) (p_name p) (p_ifindex p) (p_section_name p) (p_pin_name p) l (p_main_prog_cnt p) (p_type p) (p_reloc p) (p_log_level p)
    (p_fds p) (p_prep p) (p_expected_attach_type p) (p_attach_btf_id p) (p_func_info p) (p_func_info_rec_size p) (p_func_info_cnt p)
    (p_line_info p) (p_line_info_rec_size p) (p_line_info_cnt p) (p_prog_flags p).
Definition set_main_prog_cnt (p : bpf_program) (n : Z) : bpf_program :=
  Bpf_program (p_idx p) (p_name p) (p_ifindex p) (p_section_name p) (p_pin_name p) (p_insns p) n (p_type p) (p_reloc p) (p_log_level p)
    (p_fds p) (p_prep p) (p_expected_attach_type p) (p_attach_btf_id p) (p_func_info p) (p_func_info_rec_size p) (p_func_info_cnt p)
    (p_line_info p) (p_line_info_rec_size p) (p_line_info_cnt p) (p_prog_flags p).
Definition set_reloc (p : bpf_program) (r : option (list reloc_desc)) : bpf_program :=
  Bpf_program (p_idx p) (p_name p) (p_ifindex p) (p_section_name p) (p_pin_name p) (p_insns p) (p_main_prog_cnt p) (p_type p) r (p_log_level p)
    (p_fds p) (p_prep p) (p_expected_attach_type p) (p_attach_btf_id p) (p_func_info p) (p_func_info_rec_size p) (p_func_info_cnt p)
    (p_line_info p) (p_line_info_rec_size p) (p_line_info_cnt p) (p_prog_flags p).
Definition set_fds (p : bpf_program) (l : list Z) : bpf_program :=
  Bpf_program (p_idx p) (p_name p) (p_ifindex p) (p_section_name p) (p_pin_name p) (p_insns p) (p_main_prog_cnt p) (p_type p) (p_reloc p) (p_log_level p)
    l (p_prep p) (p_expected_attach_type p) (p_attach_btf_id p) (p_func_info p) (p_func_info_rec_size p) (p_func_info_cnt p)
    (p_line_info p) (p_line_info_rec_size p) (p_line_info_cnt p) (p_prog_flags p).
Definition set_prep (p : bpf_program) (l : list Z) (f : Z -> list bpf_insn -> Z * list bpf_insn) : bpf_program :=
  Bpf_program (p_idx p) (p_name p) (p_ifindex p) (p_section_name p) (p_pin_name p) (p_insns p) (p_main_prog_cnt p) (p_type p) (p_reloc p) (p_log_level p)
    l (Some f) (p_expected_attach_type p) (p_attach_btf_id p) (p_func_info p) (p_func_info_rec_size p) (p_func_info_cnt p)
    (p_line_info p) (p_line_info_rec_size p) (p_line_info_cnt p) (p_prog_flags p).
Definition set_func_info (p : bpf_program) (i : option (list Z)) (sz n : Z) : bpf_program :=
  Bpf_program (p_idx p) (p_name p) (p_ifindex p) (p_section_name p) (p_pin_name p) (p_insns p) (p_main_prog_cnt p) (p_type p) (p_reloc p) (p_log_level p)
    (p_fds p) (p_prep p) (p_expected_attach_type p) (p_attach_btf_id p) i sz n
    (p_line_info p) (p_line_info_rec_size p) (p_line_info_cnt p) (p_prog_flags p).
Definition set_line_info (p : bpf_program) (i : option (list Z)) (sz n : Z) : bpf_program :=
  Bpf_program (p_idx p) (p_name p) (p_ifindex p) (p_section_name p) (p_pin_name p) (p_insns p) (p_main_prog_cnt p) (p_type p) (p_reloc p) (p_log_level p)
    (p_fds p) (p_prep p) (p_expected_attach_type p) (p_attach_btf_id p) (p_func_info p) (p_func_info_rec_size p) (p_func_info_cnt p)
    i sz n (p_prog_flags p).
(** The fields a caller sets before loading. *)
Definition set_load_fields (p : bpf_program) (ty eat i level flags : Z) : bpf_program :=
  Bpf_program (p_idx p) (p_name p) i (p_section_name p) (p_pin_name p) (p_insns p) (p_main_prog_cnt p) ty (p_reloc p) level
    (p_fds p) (p_prep p) eat (p_attach_btf_id p) (p_func_info p) (p_func_info_rec_size p) (p_func_info_cnt p)
    (p_line_info p) (p_line_info_rec_size p) (p_line_info_cnt p) flags.
Definition bpf_program__set_type (p : bpf_program) (ty : Z) : bpf_program :=
  set_load_fields p ty (p_expected_attach_type p) (p_ifindex p) (p_log_level p) (p_prog_flags p).
Definition bpf_program__set_expected_attach_type (p : bpf_program) (ty : Z) : bpf_program :=
  set_load_fields p (p_type p) ty (p_ifindex p) (p_log_level p) (p_prog_flags p).
Definition bpf_program__set_ifindex (p : bpf_program) (i : Z) : bpf_program :=
  set_load_fields p (p_type p) (p_expected_attach_type p) i (p_log_level p) (p_prog_flags p).
Definition set_log_level (p : bpf_program) (level : Z) : bpf_program :=
  set_load_fields p (p_type p) (p_expected_attach_type p) (p_ifindex p) level (p_prog_flags p).
Definition set_prog_flags (p : bpf_program) (flags : Z) : bpf_program :=
  set_load_fields p (p_type p) (p_expected_attach_type p) (p_ifindex p) (p_log_level p) flags.

Definition bpf_program__nth_fd (prog : option bpf_program) (n : Z) : option Z :=
  match prog with
  | None => Some (- EINVAL)
  | Some p =>
      let nr := if bool_decide (p_fds p = []) then -1 else lenZ (p_fds p) in
      if (n >=? nr) || (n <? 0) then Some (- EINVAL)
      else fd ← p_fds p !! Z.to_nat n; Some (if fd <? 0 then - ENOENT else fd)
  end.
Definition bpf_program__fd (prog : option bpf_program) : option Z := bpf_program__nth_fd prog 0.
(** [alloc] is the answer of the allocator. *)
Definition bpf_program__set_prep (p : bpf_program) (nr_instances : Z) (f : option (Z -> list bpf_insn -> Z * list bpf_insn)) (alloc : bool) :
    Z * bpf_program :=
  match f with
  | None => (- EINVAL, p)
  | Some f =>
      if nr_instances <=? 0 then (- EINVAL, p)
      else if negb (bool_decide (p_fds p = [])) then (- EINVAL, p)
      else if negb alloc then (- ENOMEM, p)
      else (0, set_prep p (replicate (Z.to_nat nr_instances) (-1)) f)
  end.

(** ** Fields of maps *)

Definition bpf_map__fd (m : option bpf_map) : Z := match m with Some m => m_fd m | None => - EINVAL end.
Definition bpf_map__is_offload_neutral (m : bpf_map) : bool := d_type (m_def m) =? BPF_MAP_TYPE_PERF_EVENT_ARRAY.
Definition bpf_map__is_internal (m : bpf_map) : bool := negb (bool_decide (m_type m = LIBBPF_MAP_UNSPEC)).
Definition bpf_map_type__is_map_in_map (ty : Z) : bool := (ty =? BPF_MAP_TYPE_ARRAY_OF_MAPS) || (ty =? BPF_MAP_TYPE_HASH_OF_MAPS).
Definition bpf_map__set_inner_map_fd (m : bpf_map) (fd : Z) : Z * bpf_map :=
  if negb (bpf_map_type__is_map_in_map (d_type (m_def m))) then (- EINVAL, m)
  else if negb (m_inner_map_fd m =? -1) then (- EINVAL, m)
  else (0, Bpf_map (m_name m) (m_fd m) (m_pin_path m) (m_pinned m) (m_reused m) (m_sec_idx m) (m_sec_offset m) (m_ifindex m) fd
             (m_def m) (m_btf_key m) (m_btf_value m) (m_type m)).
Definition bpf_map__resize (m : option bpf_map) (max_entries : Z) : Z * option bpf_map :=
  match m with
  | None => (- EINVAL, None)
  | Some m =>
      if max_entries =? 0 then (- EINVAL, Some m)
      else if m_fd m >=? 0 then (- EBUSY, Some m)
      else let d := m_def m in
           (0, Some (set_def m (Bpf_map_def (d_type d) (d_key_size d) (d_value_size d) max_entries (d_map_flags d))))
  end.

(** ** Iteration and searches *)

Section Iter.
Context (o : bpf_object).

Definition bpf_program__is_function_storage (p : bpf_program) : bool := (p_idx p =? o_text_shndx o) && o_has_pseudo_calls o.
Definition __bpf_program__iter (p : option Z) (forward : bool) : option Z :=
  let nr_programs := lenZ (o_programs o) in
  if nr_programs =? 0 then None
  else match p with
       | None => Some (if forward then 0 else nr_programs - 1)
       | Some i =>
           let idx := i + (if forward then 1 else -1) in
           if (idx >=? nr_programs) || (idx <? 0) then None else Some idx
       end.
(** The loop of [bpf_program__next] and [bpf_program__prev]; no more turns than programs
    and one. *)
Fixpoint iter_loop (fuel : nat) (p : option Z) (forward : bool) : option (option Z) :=
  match fuel with
  | O => None
  | S fuel =>
      match __bpf_program__iter p forward with
      | None => Some None
      | Some i => prog ← o_programs o !! Z.to_nat i;
                  if bpf_program__is_function_storage prog then iter_loop fuel (Some i) forward else Some (Some i)
      end
  end.
Definition bpf_program__next (prev : option Z) : option (option Z) := iter_loop (S (length (o_programs o))) prev true.
Definition bpf_program__prev (next : option Z) : option (option Z) := iter_loop (S (length (o_programs o))) next false.
(** [bpf_object__for_each_program]: the handles the loop visits. *)
Fixpoint visit (fuel : nat) (step : option Z -> option (option Z)) (pos : option Z) : option (list Z) :=
  match fuel with
  | O => None
  | S fuel => next ← step pos;
              match next with None => Some [] | Some i => rest ← visit fuel step (Some i); Some (i :: rest) end
  end.
Definition for_each_program : option (list Z) := visit (S (length (o_programs o))) bpf_program__next None.

Definition __bpf_map__iter (m : Z) (i : Z) : option Z :=
  if (m <? 0) || (m >=? lenZ (o_maps o)) then None
  else if (m + i >=? lenZ (o_maps o)) || (m + i <? 0) then None else Some (m + i).
(** An object without maps has no array of maps. *)
Definition bpf_map__next (prev : option Z) : option Z :=
  match prev with None => if bool_decide (o_maps o = []) then None else Some 0 | Some i => __bpf_map__iter i 1 end.
Definition bpf_map__prev (next : option Z) : option Z :=
  match next with None => if bool_decide (o_maps o = []) then None else Some (lenZ (o_maps o) - 1) | Some i => __bpf_map__iter i (-1) end.
Definition for_each_map : option (list Z) := visit (S (length (o_maps o))) (fun m => Some (bpf_map__next m)) None.

Fixpoint find_loop {A} (l : list Z) (elem : Z -> option A) (test : A -> bool) : option (option Z) :=
  match l with
  | [] => Some None
  | i :: l => a ← elem i; if test a then Some (Some i) else find_loop l elem test
  end.
Definition bpf_object__find_program_by_title (title : path) : option (option Z) :=
  l ← for_each_program; find_loop l (fun i => o_programs o !! Z.to_nat i) (fun p => bool_decide (p_section_name p = title)).
Definition bpf_object__find_map_by_name (name : path) : option (option Z) :=
  l ← for_each_map; find_loop l (fun i => o_maps o !! Z.to_nat i) (fun m => bool_decide (m_name m = name)).
Definition bpf_object__find_map_fd_by_name (name : path) : option Z :=
  m ← bpf_object__find_map_by_name name;
  match m with None => Some (bpf_map__fd None) | Some i => m ← o_maps o !! Z.to_nat i; Some (bpf_map__fd (Some m)) end.
(** [bpf_object__find_prog_by_idx] walks the array itself. *)
Definition bpf_object__find_prog_by_idx (idx : Z) : option Z :=
  match list_find (fun p => p_idx p = idx) (o_programs o) with Some (i, _) => Some (Z.of_nat i) | None => None end.
End Iter.

(** ** What the loops visit *)

(** Where a walk stands when [k] is the next index to try. *)
Definition before (k : nat) : option Z := match k with O => None | S k => Some (Z.of_nat k) end.

Section Visits.
Context (o : bpf_object).
Let n := length (o_programs o).

Definition keep (i : nat) : Prop := match o_programs o !! i with Some p => bpf_program__is_function_storage o p = false | None => False end.
#[local] Instance keep_dec i : Decision (keep i).
Proof. unfold keep. destruct (o_programs o !! i); apply _. Defined.
(** The programs from [k] on that are not the storage of functions. *)
Definition handles (k : nat) : list nat := filter keep (seq k (n - k)).

Lemma handles_step k : (k < n)%nat -> handles k = if decide (keep k) then k :: handles (S k) else handles (S k).
Proof. intros Hk. unfold handles. replace (n - k)%nat with (S (n - S k)) by lia. cbn [seq]. by rewrite filter_cons. Qed.
Lemma handles_end k : (n <= k)%nat -> handles k = [].
Proof. intros Hk. unfold handles. by replace (n - k)%nat with O by lia. Qed.
Lemma iter_next k : (k <= n)%nat -> __bpf_program__iter o (before k) true = if decide (k < n)%nat then Some (Z.of_nat k) else None.
Proof.
  intros Hk. unfold __bpf_program__iter, n in *. destruct k as [|k]; cbn [before].
  - destruct (Z.eqb_spec (lenZ (o_programs o)) 0); [by rewrite decide_False by lia|by rewrite decide_True by lia].
  - rewrite (proj2 (Z.eqb_neq _ _)) by lia. case_decide.
    + replace (_ || _)%bool with false by lia. f_equal. lia.
    + by replace (_ || _)%bool with true by lia.
Qed.
Lemma iter_loop_spec : forall fuel k, (k <= n)%nat -> (n - k < fuel)%nat ->
  iter_loop o fuel (before k) true = Some (Z.of_nat <$> head (handles k)).
Proof.
  induction fuel as [|fuel IH]; intros k Hk Hf; [lia|]. cbn [iter_loop]. rewrite iter_next by done. case_decide as Hlt.
  2: { by rewrite handles_end by lia. }
  rewrite handles_step by done. rewrite Nat2Z.id. destruct (lookup_lt_is_Some_2 (o_programs o) k Hlt) as [p Hp]. rewrite Hp. cbn [mbind option_bind].
  assert (Hkeep : keep k <-> bpf_program__is_function_storage o p = false) by (unfold keep; by rewrite Hp).
  destruct (bpf_program__is_function_storage o p).
  - rewrite decide_False by (by rewrite Hkeep). by apply (IH (S k)); lia.
  - by rewrite decide_True by (by rewrite Hkeep).
Qed.
Lemma handles_head k j l : (k <= n)%nat -> handles k = j :: l -> (k <= j < n)%nat /\ l = handles (S j).
Proof.
  intros Hk. remember (n - k)%nat as d eqn:Hd. revert k Hk Hd. induction d as [|d IH]; intros k Hk Hd Hh.
  - rewrite handles_end in Hh by lia. done.
  - rewrite handles_step in Hh by lia. case_decide; [injection Hh as <- <-; split; [lia|done]|].
    destruct (IH (S k)) as [? ->]; [lia|lia|done|]. split; [lia|done].
Qed.
Lemma visit_programs : forall fuel k, (k <= n)%nat -> (n - k < fuel)%nat ->
  visit fuel (bpf_program__next o) (before k) = Some (Z.of_nat <$> handles k).
Proof.
  induction fuel as [|fuel IH]; intros k Hk Hf; [lia|]. cbn [visit]. unfold bpf_program__next. fold n. rewrite iter_loop_spec by lia.
  cbn [mbind option_bind]. destruct (handles k) as [|j l] eqn:Eh; [done|]. cbn [head fmap option_fmap option_map].
  destruct (handles_head k j l Hk Eh) as [Hj ->]. fold (before (S j)). change (Some (Z.of_nat j)) with (before (S j)).
  by rewrite IH by lia.
Qed.
End Visits.

(** Iteration visits exactly the programs that are not the storage of functions, in order;
    all of them unless there are calls into .text. *)
Theorem for_each_program_visits (o : bpf_object) : for_each_program o = Some (Z.of_nat <$> handles o 0).
Proof. unfold for_each_program. apply (visit_programs o _ 0); lia. Qed.
Lemma handles_all (o : bpf_object) : o_has_pseudo_calls o = false -> handles o 0 = seq 0 (length (o_programs o)).
Proof.
  intros Hp. unfold handles. rewrite Nat.sub_0_r. apply filter_all. intros i Hi. apply elem_of_seq in Hi. unfold keep.
  destruct (lookup_lt_is_Some_2 (o_programs o) i) as [p ->]; [lia|]. unfold bpf_program__is_function_storage. rewrite Hp. apply andb_false_r.
Qed.

Lemma visit_maps (o : bpf_object) : forall fuel k, (k <= length (o_maps o))%nat -> (length (o_maps o) - k < fuel)%nat ->
  visit fuel (fun m => Some (bpf_map__next o m)) (before k) = Some (Z.of_nat <$> seq k (length (o_maps o) - k)).
Proof.
  induction fuel as [|fuel IH]; intros k Hk Hf; [lia|]. cbn [visit mbind option_bind].
  assert (E : bpf_map__next o (before k) = if decide (k < length (o_maps o))%nat then Some (Z.of_nat k) else None).
  { destruct k as [|k]; cbn [before bpf_map__next].
    - destruct (o_maps o); [done|by rewrite decide_True by (cbn; lia)].
    - unfold __bpf_map__iter. replace ((Z.of_nat k <? 0) || (Z.of_nat k >=? lenZ (o_maps o)))%bool with false by lia. case_decide.
      + replace (_ || _)%bool with false by lia. f_equal. lia.
      + by replace (_ || _)%bool with true by lia. }
  rewrite E. case_decide; [|by replace (length (o_maps o) - k)%nat with O by lia].
  change (Some (Z.of_nat k)) with (before (S k)). rewrite IH by lia. cbn [mbind option_bind].
  by replace (length (o_maps o) - k)%nat with (S (length (o_maps o) - S k)) by lia.
Qed.
Theorem for_each_map_visits (o : bpf_object) : for_each_map o = Some (Z.of_nat <$> seq 0 (length (o_maps o))).
Proof. unfold for_each_map. rewrite (visit_maps o _ 0) by lia. by rewrite Nat.sub_0_r. Qed.

(** A search returns the first handle whose element passes the test. *)
Lemma find_loop_first {A} (elem : Z -> option A) (test : A -> bool) : forall l, (forall i, i ∈ l -> elem i <> None) ->
  exists r, find_loop l elem test = Some r /\
    match r with
    | None => forall i a, i ∈ l -> elem i = Some a -> test a = false
    | Some i => exists l1 l2 a, l = l1 ++ i :: l2 /\ elem i = Some a /\ test a = true /\
                  forall j b, j ∈ l1 -> elem j = Some b -> test b = false
    end.
Proof.
  induction l as [|i l IH]; intros Hl; cbn [find_loop]; [exists None; split; [done|]; intros i a Hi; by apply elem_of_nil in Hi|].
  destruct (elem i) as [a|] eqn:Ea; [|by destruct (Hl i ltac:(left))]. cbn [mbind option_bind]. destruct (test a) eqn:Et.
  - exists (Some i). split; [done|]. exists [], l, a. split; [done|]. split; [done|]. split; [done|]. intros j b Hj. by apply elem_of_nil in Hj.
  - destruct IH as (r & -> & Hr); [intros j Hj; apply Hl; by right|]. exists r. split; [done|]. destruct r as [j|].
    + destruct Hr as (l1 & l2 & b & -> & Hb & Htb & Hno). exists (i :: l1), l2, b. split; [done|]. split; [done|]. split; [done|].
      intros k c [->|Hk]%elem_of_cons Hc; [congruence|by eapply Hno].
    + intros j b [->|Hj]%elem_of_cons Hb; [congruence|by eapply Hr].
Qed.
