(* ===== verification/Pinning.v ===== *)
(** * Pinning maps and programs: libbpf/src/libbpf.c and basic04-pinning-maps/xdp_loader.c

    Pinning gives a map or program a name in the BPF file system; the tools of this
    repository find each other's maps that way.  Paths are byte lists without the
    terminator; an object's maps and programs are lists, changed in place by the functions
    that return them.  The file system and the allocator are parameters, the class
    [PinKernel] with its laws [PinKernelOk].  The theorems: the flag [pinned] of a map always
    tells the truth about the file system; pinning the maps of an object is all or nothing;
    pinning and unpinning are inverse; the loader replaces the pins of an earlier run. *)

From S2P Require Import Prelude Os Params RedirectUser LinkUser Object.
#[local] Open Scope Z_scope.
#[local] Open Scope prog_scope.

Definition EEXIST : Z := 17.
Definition ENAMETOOLONG : Z := 36.
Definition BPF_FS_MAGIC : Z := 0xcafe4a11.
Definition slash : Z := 47.

(** Calls return 0 or a positive [errno]; [k_statfs] returns [inr] the type of the file
    system. *)
Class PinKernel := {
  pk : Type;
  k_strdup : pk -> bool * pk;
  k_mkdir : pk -> path -> Z * pk;
  k_statfs : pk -> path -> Z + Z;
  k_obj_pin : pk -> Z -> path -> Z * pk;
  k_unlink : pk -> path -> Z * pk;
  k_rmdir : pk -> path -> Z * pk;
  k_access : pk -> path -> bool;
  (** the object pinned at a path, and the object of a descriptor *)
  pinned_at : pk -> path -> option Z;
  obj_of : pk -> Z -> Z
}.

(** [dirname(3)]. *)
Fixpoint strip (p : Z -> bool) (l : list Z) : list Z :=
  match l with b :: l' => if p b then strip p l' else l | [] => [] end.
Definition dirname (p : path) : path :=
  let is_slash b := b =? slash in
  let base := strip is_slash (rev p) in
  match strip is_slash (strip (fun b => negb (is_slash b)) base) with
  | [] => if match p with b :: _ => is_slash b | [] => false end then [slash] else [46]
  | d => rev d
  end.
(** [snprintf(buf, PATH_MAX, "%s/%s", a, b)] with the check of its length. *)
Definition full_path (a b : path) : option path :=
  let p := a ++ slash :: b in if lenZ p >=? Z.of_nat PATH_MAX then None else Some p.

Section Pin.
Context `{PinKernel}.
Abbreviation P := (M pk).

Definition lift {A} (f : pk -> A * pk) : P A := fun k => Some (f k).
Definition make_parent_dir (p : path) : P Z :=
  let! ok := lift k_strdup in
  if negb ok then ret (- ENOMEM)
  else
    let! e := lift (fun k => k_mkdir k (dirname p)) in
    if negb (e =? 0) && negb (e =? EEXIST) then ret (- e) else ret 0.
Definition check_path (p : path) : P Z :=
  let! ok := lift k_strdup in
  if negb ok then ret (- ENOMEM)
  else
    let! st := gets (fun k => k_statfs k (dirname p)) in
    match st with
    | inl e => ret (- e)
    | inr t => if negb (t =? BPF_FS_MAGIC) then ret (- EINVAL) else ret 0
    end.

(** ** Maps *)

(** The part of [bpf_map__pin] after the path is known. *)
Definition pin_at (m : bpf_map) (p : path) : P (Z * bpf_map) :=
  let! err := make_parent_dir p in
  if negb (err =? 0) then ret (err, m)
  else
    let! err := check_path p in
    if negb (err =? 0) then ret (err, m)
    else
      let! e := lift (fun k => k_obj_pin k (m_fd m) p) in
      if negb (e =? 0) then ret (- e, m) else ret (0, set_pinned m true).
Definition bpf_map__pin (m : bpf_map) (p : option path) : P (Z * bpf_map) :=
  match m_pin_path m with
  | Some pp =>
      if match p with Some p => negb (bool_decide (p = pp)) | None => false end then ret (- EINVAL, m)
      else if m_pinned m then ret (0, m)
      else pin_at m pp
  | None =>
      match p with
      | None => ret (- EINVAL, m)
      | Some p =>
          if m_pinned m then ret (- EEXIST, m)
          else
            let! ok := lift k_strdup in
            if negb ok then ret (- ENOMEM, m) else pin_at (set_pin_path m (Some p)) p
      end
  end.
Definition bpf_map__unpin (m : bpf_map) (p : option path) : P (Z * bpf_map) :=
  let unpin_at p :=
    let! err := check_path p in
    if negb (err =? 0) then ret (err, m)
    else
      let! e := lift (fun k => k_unlink k p) in
      if negb (e =? 0) then ret (- e, m) else ret (0, set_pinned m false) in
  match m_pin_path m with
  | Some pp =>
      if match p with Some p => negb (bool_decide (p = pp)) | None => false end then ret (- EINVAL, m)
      else unpin_at pp
  | None => match p with None => ret (- EINVAL, m) | Some p => unpin_at p end
  end.
Definition bpf_map__set_pin_path (m : bpf_map) (p : option path) : P (Z * bpf_map) :=
  match p with
  | None => ret (0, set_pin_path m None)
  | Some p => let! ok := lift k_strdup in if negb ok then ret (- ENOMEM, m) else ret (0, set_pin_path m (Some p))
  end.

(** The loop at [err_unpin_maps]: the maps before the failing one, the last first. *)
Fixpoint unpin_back (done : list bpf_map) : P (list bpf_map) :=
  match done with
  | [] => ret []
  | m :: done =>
      match m_pin_path m with
      | None => let! l := unpin_back done in ret (m :: l)
      | Some _ => let! (_, m) := bpf_map__unpin m None in let! l := unpin_back done in ret (m :: l)
      end
  end.
Definition undo (err : Z) (done rest : list bpf_map) : P (Z * list bpf_map) :=
  let! done := unpin_back done in ret (err, reverse done ++ rest).
(** The loop over the maps, those already pinned in reverse order. *)
Fixpoint pin_maps_loop (dir : option path) (done rest : list bpf_map) : P (Z * list bpf_map) :=
  match rest with
  | [] => ret (0, reverse done)
  | m :: rest' =>
      let pin p := let! (err, m) := bpf_map__pin m p in
                   if negb (err =? 0) then undo err done (m :: rest') else pin_maps_loop dir (m :: done) rest' in
      match dir with
      | Some dir => match full_path dir (m_name m) with
                    | None => undo (- ENAMETOOLONG) done rest
                    | Some p => pin (Some p)
                    end
      | None => match m_pin_path m with None => pin_maps_loop None (m :: done) rest' | Some _ => pin None end
      end
  end.
Definition bpf_object__pin_maps (obj : option bpf_object) (dir : option path) : P (Z * option bpf_object) :=
  match obj with
  | None => ret (- ENOENT, None)
  | Some o =>
      if negb (o_loaded o) then ret (- ENOENT, Some o)
      else let! (e, l) := pin_maps_loop dir [] (o_maps o) in ret (e, Some (with_maps o l))
  end.
Fixpoint unpin_maps_loop (dir : option path) (maps : list bpf_map) : P (Z * list bpf_map) :=
  match maps with
  | [] => ret (0, [])
  | m :: maps' =>
      let unpin p := let! (err, m) := bpf_map__unpin m p in
                     if negb (err =? 0) then ret (err, m :: maps')
                     else let! (e, l) := unpin_maps_loop dir maps' in ret (e, m :: l) in
      match dir with
      | Some dir => match full_path dir (m_name m) with
                    | None => ret (- ENAMETOOLONG, maps)
                    | Some p => unpin (Some p)
                    end
      | None => match m_pin_path m with
                | None => let! (e, l) := unpin_maps_loop dir maps' in ret (e, m :: l)
                | Some _ => unpin None
                end
      end
  end.
Definition bpf_object__unpin_maps (obj : option bpf_object) (dir : option path) : P (Z * option bpf_object) :=
  match obj with
  | None => ret (- ENOENT, None)
  | Some o => let! (e, l) := unpin_maps_loop dir (o_maps o) in ret (e, Some (with_maps o l))
  end.

(** ** Programs *)

Definition bpf_program__pin_instance (prog : option bpf_program) (p : path) (instance : Z) : P Z :=
  let! err := make_parent_dir p in
  if negb (err =? 0) then ret err
  else
    let! err := check_path p in
    if negb (err =? 0) then ret err
    else match prog with None => ret (- EINVAL) | Some prog =>
      if (instance <? 0) || (instance >=? lenZ (p_fds prog)) then ret (- EINVAL)
      else
        let! fd := deref (p_fds prog !! Z.to_nat instance) in
        let! e := lift (fun k => k_obj_pin k fd p) in
        if negb (e =? 0) then ret (- e) else ret 0
    end.
Definition bpf_program__unpin_instance (prog : option bpf_program) (p : path) (instance : Z) : P Z :=
  let! err := check_path p in
  if negb (err =? 0) then ret err
  else match prog with None => ret (- EINVAL) | Some prog =>
    if (instance <? 0) || (instance >=? lenZ (p_fds prog)) then ret (- EINVAL)
    else
      let! e := lift (fun k => k_unlink k p) in
      if negb (e =? 0) then ret (- e) else ret 0
  end.

(** "%s/%d" *)
Definition instance_path (p : path) (i : Z) : option path := full_path p (dec_text 10 i).

(** The loop at [err_unpin], from [i] instances down. *)
Fixpoint unpin_instances (prog : bpf_program) (p : path) (i : nat) : P unit :=
  match i with
  | O => ret tt
  | S i =>
      match instance_path p (Z.of_nat i) with
      | None => unpin_instances prog p i
      | Some q => bpf_program__unpin_instance (Some prog) q (Z.of_nat i) ;;; unpin_instances prog p i
      end
  end.
(** [n] more instances from [i]; the result and how many are pinned. *)
Fixpoint pin_instances (n : nat) (prog : bpf_program) (p : path) (i : nat) : P (Z * nat) :=
  match n with
  | O => ret (0, i)
  | S n =>
      match instance_path p (Z.of_nat i) with
      | None => ret (- ENAMETOOLONG, i)
      | Some q => let! err := bpf_program__pin_instance (Some prog) q (Z.of_nat i) in
                  if negb (err =? 0) then ret (err, i) else pin_instances n prog p (S i)
      end
  end.
Definition bpf_program__pin (prog : option bpf_program) (p : path) : P Z :=
  let! err := make_parent_dir p in
  if negb (err =? 0) then ret err
  else
    let! err := check_path p in
    if negb (err =? 0) then ret err
    else match prog with None => ret (- EINVAL) | Some pr =>
      if lenZ (p_fds pr) <=? 0 then ret (- EINVAL)
      else if lenZ (p_fds pr) =? 1 then bpf_program__pin_instance prog p 0
      else
        let! (err, i) := pin_instances (length (p_fds pr)) pr p 0 in
        if negb (err =? 0) then
          unpin_instances pr p i ;;;
          let! _ := lift (fun k => k_rmdir k p) in ret err
        else ret 0
    end.
Fixpoint unpin_all_instances (n : nat) (prog : bpf_program) (p : path) (i : nat) : P Z :=
  match n with
  | O => ret 0
  | S n =>
      match instance_path p (Z.of_nat i) with
      | None => ret (- ENAMETOOLONG)
      | Some q => let! err := bpf_program__unpin_instance (Some prog) q (Z.of_nat i) in
                  if negb (err =? 0) then ret err else unpin_all_instances n prog p (S i)
      end
  end.
Definition bpf_program__unpin (prog : option bpf_program) (p : path) : P Z :=
  let! err := check_path p in
  if negb (err =? 0) then ret err
  else match prog with None => ret (- EINVAL) | Some pr =>
    if lenZ (p_fds pr) <=? 0 then ret (- EINVAL)
    else if lenZ (p_fds pr) =? 1 then bpf_program__unpin_instance prog p 0
    else
      let! err := unpin_all_instances (length (p_fds pr)) pr p 0 in
      if negb (err =? 0) then ret err
      else let! e := lift (fun k => k_rmdir k p) in if negb (e =? 0) then ret (- e) else ret 0
  end.

(** The loop at [err_unpin_programs]: the programs before the failing one, the last first. *)
Fixpoint unpin_programs_back (dir : path) (done : list bpf_program) : P unit :=
  match done with
  | [] => ret tt
  | prog :: done =>
      match full_path dir (p_pin_name prog) with
      | None => unpin_programs_back dir done
      | Some p => bpf_program__unpin (Some prog) p ;;; unpin_programs_back dir done
      end
  end.
Fixpoint pin_programs_loop (dir : path) (done rest : list bpf_program) : P Z :=
  match rest with
  | [] => ret 0
  | prog :: rest =>
      match full_path dir (p_pin_name prog) with
      | None => unpin_programs_back dir done ;;; ret (- ENAMETOOLONG)
      | Some p => let! err := bpf_program__pin (Some prog) p in
                  if negb (err =? 0) then unpin_programs_back dir done ;;; ret err
                  else pin_programs_loop dir (prog :: done) rest
      end
  end.
Definition bpf_object__pin_programs (obj : option bpf_object) (dir : path) : P Z :=
  match obj with
  | None => ret (- ENOENT)
  | Some o => if negb (o_loaded o) then ret (- ENOENT) else pin_programs_loop dir [] (o_programs o)
  end.
Fixpoint unpin_programs_loop (dir : path) (progs : list bpf_program) : P Z :=
  match progs with
  | [] => ret 0
  | prog :: progs =>
      match full_path dir (p_pin_name prog) with
      | None => ret (- ENAMETOOLONG)
      | Some p => let! err := bpf_program__unpin (Some prog) p in
                  if negb (err =? 0) then ret err else unpin_programs_loop dir progs
      end
  end.
Definition bpf_object__unpin_programs (obj : option bpf_object) (dir : path) : P Z :=
  match obj with None => ret (- ENOENT) | Some o => unpin_programs_loop dir (o_programs o) end.
Definition bpf_object__pin (obj : option bpf_object) (dir : path) : P (Z * option bpf_object) :=
  let! (err, obj) := bpf_object__pin_maps obj (Some dir) in
  if negb (err =? 0) then ret (err, obj)
  else
    let! err := bpf_object__pin_programs obj dir in
    if negb (err =? 0) then let! (_, obj) := bpf_object__unpin_maps obj (Some dir) in ret (err, obj)
    else ret (0, obj).

(** ** The loader of basic04 *)

(** "xdp_stats_map" *)
Definition map_name : path := [120; 100; 112; 95; 115; 116; 97; 116; 115; 95; 109; 97; 112].
(** [ifname] is the string of [cfg->ifname], [pin_dir] that of [cfg->pin_dir]. *)
Definition pin_maps_in_bpf_object (obj : option bpf_object) (ifname pin_dir : path) : P (Z * option bpf_object) :=
  let map_filename := take (PATH_MAX - 1) (pin_basedir ++ slash :: ifname ++ slash :: map_name) in
  let! there := gets (fun k => k_access k map_filename) in
  let! (err, obj) := if there then bpf_object__unpin_maps obj (Some pin_dir) else ret (0, obj) in
  if negb (err =? 0) then ret (EXIT_FAIL_BPF, obj)
  else
    let! (err, obj) := bpf_object__pin_maps obj (Some pin_dir) in
    if negb (err =? 0) then ret (EXIT_FAIL_BPF, obj) else ret (0, obj).
End Pin.

(** ** The laws of the file system *)

Class PinKernelOk {K : PinKernel} : Prop := {
  strdup_pins k q : pinned_at (snd (k_strdup k)) q = pinned_at k q;
  mkdir_pins k p q : pinned_at (snd (k_mkdir k p)) q = pinned_at k q;
  rmdir_pins k p q : pinned_at (snd (k_rmdir k p)) q = pinned_at k q;
  mkdir_code k p : 0 <= fst (k_mkdir k p);
  statfs_code k p e : k_statfs k p = inl e -> 0 < e;
  (** pinning creates a file, which must not exist *)
  pin_code k fd p : 0 <= fst (k_obj_pin k fd p);
  pin_new k fd p : fst (k_obj_pin k fd p) = 0 -> pinned_at k p = None /\ pinned_at (snd (k_obj_pin k fd p)) p = Some (obj_of k fd);
  pin_other k fd p q : q <> p \/ fst (k_obj_pin k fd p) <> 0 -> pinned_at (snd (k_obj_pin k fd p)) q = pinned_at k q;
  unlink_code k p : 0 <= fst (k_unlink k p);
  unlink_gone k p : fst (k_unlink k p) = 0 -> pinned_at (snd (k_unlink k p)) p = None;
  unlink_other k p q : q <> p \/ fst (k_unlink k p) <> 0 -> pinned_at (snd (k_unlink k p)) q = pinned_at k q;
  (** a pinned file can be removed, and is there *)
  unlink_pinned k p : pinned_at k p <> None -> fst (k_unlink k p) = 0;
  access_pinned k p : pinned_at k p <> None -> k_access k p = true;
  (** the type of the file system of a directory stays *)
  statfs_strdup k d : k_statfs (snd (k_strdup k)) d = k_statfs k d;
  statfs_mkdir k p d t : k_statfs k d = inr t -> k_statfs (snd (k_mkdir k p)) d = inr t;
  statfs_pin k fd p d : k_statfs (snd (k_obj_pin k fd p)) d = k_statfs k d;
  statfs_unlink k p d : k_statfs (snd (k_unlink k p)) d = k_statfs k d;
  (** none of these calls changes what a descriptor stands for *)
  obj_strdup k fd : obj_of (snd (k_strdup k)) fd = obj_of k fd;
  obj_mkdir k p fd : obj_of (snd (k_mkdir k p)) fd = obj_of k fd;
  obj_rmdir k p fd : obj_of (snd (k_rmdir k p)) fd = obj_of k fd;
  obj_pin k f p fd : obj_of (snd (k_obj_pin k f p)) fd = obj_of k fd;
  obj_unlink k p fd : obj_of (snd (k_unlink k p)) fd = obj_of k fd
}.
Arguments PinKernelOk : clear implicits.
(** [strdup] never fails. *)
Definition memory `{PinKernel} : Prop := forall k, fst (k_strdup k) = true.

(** ** What the flags say *)

Section Truth.
Context `{PO : PinKernelOk}.

(** What the descriptors stand for; the calls of this file keep it. *)
Context (ob : Z -> Z).
(** The pins an object's maps claim. *)
Definition pin_of (m : bpf_map) : option (path * Z) :=
  if m_pinned m then p ← m_pin_path m; Some (p, ob (m_fd m)) else None.
Definition pins (l : list bpf_map) : list (path * Z) := omap pin_of l.
(** [k0] is the file system without the pins of the maps [l], [k] the one with them. *)
Record truthful (k0 k : pk) (l : list bpf_map) : Prop := {
  tr_path : Forall (fun m => m_pinned m = true -> m_pin_path m <> None) l;
  tr_nodup : NoDup (map fst (pins l));
  tr_pins : forall p o, (p, o) ∈ pins l ->
    pinned_at k p = Some o /\ pinned_at k0 p = None /\ k_statfs k (dirname p) = inr BPF_FS_MAGIC;
  tr_other : forall q, q ∉ map fst (pins l) -> pinned_at k q = pinned_at k0 q;
  tr_obj : forall fd, obj_of k fd = ob fd
}.
#[export] Instance truthful_perm k0 k : Proper ((≡ₚ) ==> iff) (truthful k0 k).
Proof.
  assert (Hdir : forall l l', l ≡ₚ l' -> truthful k0 k l -> truthful k0 k l').
  { intros l l' Hl [H1 H2 H3 H4 H5]. assert (Hp : pins l ≡ₚ pins l') by (unfold pins; by rewrite Hl). split.
    - by rewrite <- Hl.
    - by rewrite <- Hp.
    - intros p o. rewrite <- Hp. apply H3.
    - intros q. rewrite <- Hp. apply H4.
    - done. }
  intros l l' Hl. split; apply Hdir; [done|by symmetry].
Qed.

(** Calls that leave every pin and the type of every directory in place. *)
Definition quiet (k k' : pk) : Prop :=
  (forall q, pinned_at k' q = pinned_at k q) /\ (forall d t, k_statfs k d = inr t -> k_statfs k' d = inr t) /\
  (forall fd, obj_of k' fd = obj_of k fd).
Lemma quiet_refl k : quiet k k.
Proof. done. Qed.
Lemma quiet_trans k1 k2 k3 : quiet k1 k2 -> quiet k2 k3 -> quiet k1 k3.
Proof. intros (A & B & E) (C & D & G). split; [intros q; by rewrite C|]. split; [auto|]. intros fd. by rewrite G. Qed.
Lemma truthful_quiet k0 k k' l : truthful k0 k l -> quiet k k' -> truthful k0 k' l.
Proof.
  intros [H1 H2 H3 H4 H5] (Q1 & Q2 & Q3). split; [done|done| |intros q Hq; rewrite Q1; auto|intros fd; by rewrite Q3].
  intros p o Hp. destruct (H3 p o Hp) as (? & ? & ?). rewrite Q1. auto.
Qed.
Lemma strdup_quiet k : quiet k (snd (k_strdup k)).
Proof using PO. split; [intros; apply strdup_pins|]. split; [intros d t; by rewrite statfs_strdup|intros; apply obj_strdup]. Qed.

Lemma wp_lift {A} (f : pk -> A * pk) (Q : A -> pk -> Prop) k : Q (fst (f k)) (snd (f k)) -> wp (lift f) Q k.
Proof. unfold wp, lift. by destruct (f k). Qed.
Lemma wp_make_parent_dir p k (Q : Z -> pk -> Prop) :
  (forall e k', quiet k k' -> e <= 0 -> Q e k') -> wp (make_parent_dir p) Q k.
Proof using PO.
  intros HQ. unfold make_parent_dir. apply wp_bind, wp_lift. pose proof (strdup_quiet k) as Hq.
  destruct (fst (k_strdup k)); cbn [negb]; [|apply wp_ret, HQ; [done|unfold ENOMEM; lia]].
  apply wp_bind, wp_lift. set (k1 := snd (k_strdup k)) in *. pose proof (mkdir_code k1 (dirname p)).
  assert (quiet k (snd (k_mkdir k1 (dirname p)))).
  { eapply quiet_trans; [exact Hq|]. split; [intros; apply mkdir_pins|]. split; [intros; by apply statfs_mkdir|intros; apply obj_mkdir]. }
  destruct (_ && _)%bool; apply wp_ret, HQ; (done || lia).
Qed.
Lemma wp_check_path p k (Q : Z -> pk -> Prop) :
  (forall k', quiet k k' -> k_statfs k' (dirname p) = inr BPF_FS_MAGIC -> Q 0 k') ->
  (forall e k', quiet k k' -> e < 0 -> ~ (memory /\ k_statfs k (dirname p) = inr BPF_FS_MAGIC) -> Q e k') ->
  wp (check_path p) Q k.
Proof using PO.
  intros H0 He. unfold check_path. apply wp_bind, wp_lift. pose proof (strdup_quiet k) as Hq.
  destruct (fst (k_strdup k)) eqn:Em; cbn [negb].
  2: { apply wp_ret, He; [done|unfold ENOMEM; lia|]. intros [Hm _]. by rewrite Hm in Em. }
  apply wp_bind, wp_gets. rewrite statfs_strdup. pose proof (statfs_strdup k (dirname p)) as Es.
  destruct (k_statfs k (dirname p)) as [e|t] eqn:E.
  - apply wp_ret, He; [done| |by intros [_ [=]]]. apply statfs_code in E. lia.
  - destruct (Z.eqb_spec t BPF_FS_MAGIC) as [->|Hne]; cbn [negb]; apply wp_ret; [by apply H0|].
    apply He; [done|unfold EINVAL; lia|]. intros [_ [= E']]. done.
Qed.

Lemma pin_of_not_pinned m : m_pinned m = false -> pin_of m = None.
Proof. unfold pin_of. by intros ->. Qed.
Lemma pins_not_pinned m l : m_pinned m = false -> pins (m :: l) = pins l.
Proof. intros Hm. unfold pins. cbn. by rewrite pin_of_not_pinned. Qed.
Lemma pins_pinned m l p : m_pinned m = true -> m_pin_path m = Some p -> pins (m :: l) = (p, ob (m_fd m)) :: pins l.
Proof. intros Hm Hp. unfold pins. cbn. unfold pin_of. by rewrite Hm, Hp. Qed.
Lemma pins_path k0 k l p : truthful k0 k l -> p ∈ map fst (pins l) -> pinned_at k p <> None.
Proof.
  intros T Hp. apply list_elem_of_In, in_map_iff in Hp as ([p' o] & <- & Hin). apply list_elem_of_In in Hin.
  destruct (tr_pins _ _ _ T _ _ Hin) as [E _]. cbn. by rewrite E.
Qed.

Lemma truthful_pin k0 k k' m l p : truthful k0 k (m :: l) -> m_pinned m = false -> m_pin_path m = Some p ->
  pinned_at k p = None -> pinned_at k' p = Some (ob (m_fd m)) -> (forall q, q <> p -> pinned_at k' q = pinned_at k q) ->
  (forall d, k_statfs k' d = k_statfs k d) -> (forall fd, obj_of k' fd = obj_of k fd) -> k_statfs k (dirname p) = inr BPF_FS_MAGIC ->
  truthful k0 k' (set_pinned m true :: l).
Proof using PO.
  intros T Hm Hp Hnone Hnew Hoth Hst Hob Hfs. pose proof (pins_path k0 k (m :: l) p T) as Hfree.
  destruct T as [H1 H2 H3 H4 H5]. rewrite pins_not_pinned in * by done.
  assert (Hp0 : p ∉ map fst (pins l)) by (intros Hin; by apply Hfree).
  split; rewrite ?(pins_pinned (set_pinned m true) l p) by done; cbn [map fst m_fd set_pinned].
  - apply List.Forall_cons; [cbn; by rewrite Hp|]. by apply List.Forall_inv_tail in H1.
  - apply list.NoDup_cons. done.
  - intros q o [[= -> ->]|Hin]%elem_of_cons.
    + rewrite Hst. rewrite <- (H4 p Hp0). done.
    + assert (q <> p) by (intros ->; apply Hp0; apply list_elem_of_In, in_map_iff; exists (p, o); by rewrite <- list_elem_of_In).
      rewrite Hoth, Hst by done. by apply H3.
  - intros q [Hq Hq']%not_elem_of_cons. rewrite Hoth by done. by apply H4.
  - intros fd. by rewrite Hob.
Qed.
Lemma truthful_unpin k0 k k' m l p : truthful k0 k (m :: l) -> m_pinned m = true -> m_pin_path m = Some p ->
  pinned_at k' p = None -> (forall q, q <> p -> pinned_at k' q = pinned_at k q) -> (forall d, k_statfs k' d = k_statfs k d) ->
  (forall fd, obj_of k' fd = obj_of k fd) -> truthful k0 k' (set_pinned m false :: l).
Proof using PO.
  intros [H1 H2 H3 H4 H5] Hm Hp Hgone Hoth Hst Hob. rewrite (pins_pinned m l p) in * by done. cbn [map fst] in *.
  apply list.NoDup_cons in H2 as [Hp0 H2].
  split; rewrite ?(pins_not_pinned (set_pinned m false)) by done.
  - apply List.Forall_cons; [done|]. by apply List.Forall_inv_tail in H1.
  - done.
  - intros q o Hin.
    assert (q <> p) by (intros ->; apply Hp0; apply list_elem_of_In, in_map_iff; exists (p, o); by rewrite <- list_elem_of_In).
    rewrite Hoth, Hst by done. apply H3. by right.
  - intros q Hq. destruct (decide (q = p)) as [->|Hne].
    + rewrite Hgone. destruct (H3 p (ob (m_fd m))) as (_ & -> & _); [by left|done].
    + rewrite Hoth by done. apply H4. apply not_elem_of_cons. done.
  - intros fd. by rewrite Hob.
Qed.

(** Same map, whatever its pin. *)
Definition same_map (m m' : bpf_map) : Prop := m_name m' = m_name m /\ m_fd m' = m_fd m.
(** Pinning one map: the flag stays true to the file system; with 0 the map is pinned where
    it was asked to be, otherwise its flag is as before. *)
Lemma wp_pin_at k0 k m l p : truthful k0 k (m :: l) -> m_pinned m = false -> m_pin_path m = Some p ->
  wp (pin_at m p) (fun '(e, m') k' => truthful k0 k' (m' :: l) /\ e <= 0 /\
    m' = if e =? 0 then set_pinned m true else m) k.
Proof using PO.
  intros T Hm Hp. unfold pin_at. apply wp_bind, wp_make_parent_dir. intros e1 k1 Q1 He1.
  pose proof (truthful_quiet _ _ _ _ T Q1) as T1.
  destruct (Z.eqb_spec e1 0) as [->|Hne]; cbn [negb]; [|apply wp_ret; rewrite (proj2 (Z.eqb_neq _ _)) by done; done].
  apply wp_bind, wp_check_path.
  2: { intros e2 k2 Q2 He2 _. rewrite (proj2 (Z.eqb_neq _ _)) by lia. cbn [negb]. apply wp_ret.
       rewrite (proj2 (Z.eqb_neq _ _)) by lia. split; [by eapply truthful_quiet|]. split; [lia|done]. }
  intros k2 Q2 Hst. pose proof (truthful_quiet _ _ _ _ T1 Q2) as T2. cbn [negb Z.eqb].
  apply wp_bind, wp_lift. pose proof (pin_code k2 (m_fd m) p) as Hc. pose proof (pin_other k2 (m_fd m) p) as Ho.
  pose proof (statfs_pin k2 (m_fd m) p) as Hs.
  destruct (Z.eqb_spec (fst (k_obj_pin k2 (m_fd m) p)) 0) as [E|Hne]; cbn [negb].
  - destruct (pin_new k2 (m_fd m) p E) as [Hn1 Hn2]. apply wp_ret. cbn [Z.eqb]. split; [|done].
    rewrite (tr_obj _ _ _ T2) in Hn2. eapply truthful_pin; [exact T2|done|exact Hp|done|done| |done|intros; apply obj_pin|done].
    intros q Hq. apply Ho. by left.
  - apply wp_ret. rewrite (proj2 (Z.eqb_neq _ _)) by lia. split; [|split; [lia|done]].
    eapply truthful_quiet; [exact T2|]. split; [intros q; apply Ho; by right|]. split; [intros d t; by rewrite Hs|intros; apply obj_pin].
Qed.
Lemma truthful_same k0 k m m' l : truthful k0 k (m :: l) -> m_pinned m = false -> m_pinned m' = false -> truthful k0 k (m' :: l).
Proof.
  intros [H1 H2 H3 H4 H5] Hm Hm'. rewrite pins_not_pinned in * by done.
  split; rewrite ?pins_not_pinned by done; try done. apply List.Forall_cons; [by rewrite Hm'|]. by apply List.Forall_inv_tail in H1.
Qed.
Ltac pin_refused :=
  apply wp_ret; split; [assumption|]; split; [unfold EINVAL, EEXIST, ENOMEM; lia|]; split; [by split|]; split; [discriminate|done].
Lemma wp_map_pin k0 k m l p : truthful k0 k (m :: l) ->
  wp (bpf_map__pin m p) (fun '(e, m') k' => truthful k0 k' (m' :: l) /\ e <= 0 /\ same_map m m' /\
    (e = 0 -> m_pinned m' = true /\ (forall q, p = Some q -> m_pin_path m' = Some q)) /\
    (e <> 0 -> m_pinned m' = m_pinned m)) k.
Proof using PO.
  intros T. unfold bpf_map__pin.
  assert (Hat : forall m1 pp k1, truthful k0 k1 (m1 :: l) -> same_map m m1 -> m_pinned m1 = m_pinned m -> m_pinned m = false ->
    m_pin_path m1 = Some pp -> (forall q, p = Some q -> q = pp) ->
    wp (pin_at m1 pp) (fun '(e, m') k' => truthful k0 k' (m' :: l) /\ e <= 0 /\ same_map m m' /\
      (e = 0 -> m_pinned m' = true /\ (forall q, p = Some q -> m_pin_path m' = Some q)) /\
      (e <> 0 -> m_pinned m' = m_pinned m)) k1).
  { intros m1 pp k1 T1 [S1 S2] Hp1 Hf Hpp Hq. eapply wp_mono; [apply (wp_pin_at k0 k1 m1 l pp T1); [congruence|done]|].
    intros [e m'] k' (T' & He & ->). split; [done|]. split; [done|].
    destruct (Z.eqb_spec e 0) as [->|Hne]; (split; [by split|]); (split; [|done || intros; congruence]).
    - intros _. split; [done|]. intros q Hq'. cbn. rewrite Hpp. f_equal. symmetry. by apply Hq.
    - intros ->. done. }
  destruct (m_pin_path m) as [pp|] eqn:Epp.
  - destruct (match p with Some p => negb (bool_decide (p = pp)) | None => false end) eqn:Ep; [pin_refused|].
    assert (Hq : forall q, p = Some q -> q = pp) by (intros q ->; by apply negb_false_iff, bool_decide_eq_true in Ep).
    destruct (m_pinned m) eqn:Em; [|by apply (Hat m pp k)].
    apply wp_ret. split; [done|]. split; [done|]. split; [by split|]. split; [|done]. intros _. split; [done|].
    intros q Hq'. rewrite Epp. f_equal. symmetry. by apply Hq.
  - destruct p as [p|]; [|pin_refused]. destruct (m_pinned m) eqn:Em; [pin_refused|].
    apply wp_bind, wp_lift. pose proof (truthful_quiet _ _ _ _ T (strdup_quiet k)) as T1.
    destruct (fst (k_strdup k)); cbn [negb]; [|pin_refused].
    apply (Hat (set_pin_path m (Some p)) p); try done; [|by intros q [= ->]].
    by apply (truthful_same k0 _ m).
Qed.
(** Unpinning a pinned map. *)
Lemma wp_map_unpin k0 k m l p q : truthful k0 k (m :: l) -> m_pinned m = true -> m_pin_path m = Some p -> (q = None \/ q = Some p) ->
  wp (bpf_map__unpin m q) (fun '(e, m') k' => truthful k0 k' (m' :: l) /\ same_map m m' /\ m_pin_path m' = m_pin_path m /\
    m_pinned m' = negb (e =? 0) /\ (memory -> e = 0)) k.
Proof using PO.
  intros T Hm Hp Hq. unfold bpf_map__unpin. rewrite Hp.
  replace (match q with Some q => negb (bool_decide (q = p)) | None => false end) with false
    by (destruct Hq as [->| ->]; [done|]; by rewrite bool_decide_true).
  destruct (tr_pins _ _ _ T p (ob (m_fd m))) as (Hat & _ & Hst); [rewrite (pins_pinned m l p) by done; by left|].
  apply wp_bind, wp_check_path.
  2: { intros e k1 Q1 He Hn. rewrite (proj2 (Z.eqb_neq _ _)) by lia. cbn [negb]. apply wp_ret.
       rewrite (proj2 (Z.eqb_neq _ _)) by lia. split; [by eapply truthful_quiet|]. split; [done|]. split; [done|]. split; [done|].
       intros Hmem. by destruct Hn. }
  intros k1 Q1 _. pose proof (truthful_quiet _ _ _ _ T Q1) as T1. cbn [negb Z.eqb]. apply wp_bind, wp_lift.
  assert (E : fst (k_unlink k1 p) = 0) by (apply unlink_pinned; destruct Q1 as [Q1 _]; by rewrite Q1, Hat).
  rewrite E. cbn [negb Z.eqb]. apply wp_ret. split; [|by repeat split].
  eapply truthful_unpin; [exact T1|done|exact Hp|by apply unlink_gone| |intros; apply statfs_unlink|intros; apply obj_unlink].
  intros r Hr. apply unlink_other. by left.
Qed.

(** ** All the maps of an object *)

(** Maps with a pin path are pinned. *)
Definition settled (m : bpf_map) : Prop := m_pin_path m <> None -> m_pinned m = true.
Lemma wp_unpin_back k0 : forall done rest k, truthful k0 k (done ++ rest) -> Forall settled done ->
  wp (unpin_back done) (fun done' k' => truthful k0 k' (done' ++ rest) /\ Forall2 same_map done done' /\
    (memory -> Forall (fun m => m_pinned m = false) done')) k.
Proof using PO.
  induction done as [|m done IH]; intros rest k T Hs; cbn [unpin_back]; [by apply wp_ret|].
  pose proof (List.Forall_inv Hs) as Hm. apply List.Forall_inv_tail in Hs.
  assert (Hrest : forall m' k1, truthful k0 k1 (m' :: done ++ rest) -> same_map m m' -> (memory -> m_pinned m' = false) ->
    wp (let! l := unpin_back done in ret (m' :: l)) (fun done' k' => truthful k0 k' (done' ++ rest) /\
      Forall2 same_map (m :: done) done' /\ (memory -> Forall (fun m => m_pinned m = false) done')) k1).
  { intros m' k1 T1 S1 M1. apply wp_bind. eapply wp_mono; [apply (IH (m' :: rest) k1); [|done]|].
    - by rewrite <- Permutation_middle.
    - intros l k2 (T2 & F2 & M2). rewrite <- Permutation_middle in T2. apply wp_ret. split; [done|]. split; [by constructor|]. intros Hmem.
      apply List.Forall_cons; [by apply M1|by apply M2]. }
  destruct (m_pin_path m) as [p|] eqn:Ep.
  - apply wp_bind. eapply wp_mono; [apply (wp_map_unpin k0 k m (done ++ rest) p None T); [by apply Hm; rewrite Ep|done|by left]|].
    intros [e m'] k1 (T1 & S1 & _ & P1 & M1). apply Hrest; [done|done|]. intros Hmem. by rewrite P1, (M1 Hmem).
  - apply Hrest; [done|done|]. intros _. pose proof (List.Forall_inv (tr_path _ _ _ T)) as Hp. cbv beta in Hp. rewrite Ep in Hp.
    destruct (m_pinned m); [exfalso; by apply Hp|done].
Qed.

(** The loop of [bpf_object__pin_maps]: the flags stay true; with 0 every map asked for is
    pinned; with an error no map handled by the loop is left pinned, as long as there is
    memory for the way back. *)
Definition pinned_in (dir : option path) (m : bpf_map) : Prop :=
  match dir with
  | Some d => m_pinned m = true /\ exists p, full_path d (m_name m) = Some p /\ m_pin_path m = Some p
  | None => settled m
  end.
Lemma pinned_in_settled dir m : pinned_in dir m -> settled m.
Proof. destruct dir; [by intros [? _] _|done]. Qed.
Lemma same_maps_refl l : Forall2 same_map l l.
Proof. induction l; by constructor. Qed.
Lemma same_map_trans m1 m2 m3 : same_map m1 m2 -> same_map m2 m3 -> same_map m1 m3.
Proof. intros [A B] [C D]. split; congruence. Qed.
Lemma same_maps_trans l1 l2 l3 : Forall2 same_map l1 l2 -> Forall2 same_map l2 l3 -> Forall2 same_map l1 l3.
Proof.
  intros H12. revert l3. induction H12 as [|a b l l' Hab _ IH]; intros l3 H23; inversion_clear H23; constructor; [|by apply IH].
  by eapply same_map_trans.
Qed.
Definition unpinned (m : bpf_map) : Prop := m_pinned m = false.
Definition maps_post (k0 : pk) (dir : option path) (all rest : list bpf_map) (r : Z * list bpf_map) (k' : pk) : Prop :=
  let '(e, l') := r in
  truthful k0 k' l' /\ Forall2 same_map all l' /\ e <= 0 /\ (e = 0 -> Forall (pinned_in dir) l') /\
  (e <> 0 -> memory -> Forall unpinned rest -> Forall unpinned l').

Lemma wp_undo k0 k dir e done m m' rest : truthful k0 k (done ++ m' :: rest) -> Forall (pinned_in dir) done -> e < 0 ->
  same_map m m' -> (unpinned m -> unpinned m') ->
  wp (undo e done (m' :: rest)) (maps_post k0 dir (reverse done ++ m :: rest) (m :: rest)) k.
Proof using PO.
  intros T Hd He Hs Hu. unfold undo. apply wp_bind. eapply wp_mono; [apply (wp_unpin_back k0 done (m' :: rest) k T)|].
  { eapply List.Forall_impl; [|exact Hd]. intros. by eapply pinned_in_settled. }
  intros done' k1 (T1 & F1 & M1). apply wp_ret. split; [by rewrite reverse_Permutation|]. split; [|split; [lia|split; [lia|]]].
  - apply Forall2_app; [by apply Forall2_reverse|]. apply List.Forall2_cons; [done|]. apply same_maps_refl.
  - intros _ Hmem Hr. apply Forall_app. split; [apply Forall_reverse; by apply M1|].
    inversion_clear Hr. apply List.Forall_cons; auto.
Qed.
Lemma wp_pin_loop k0 dir : forall rest done k, truthful k0 k (done ++ rest) -> Forall (pinned_in dir) done ->
  wp (pin_maps_loop dir done rest) (maps_post k0 dir (reverse done ++ rest) rest) k.
Proof using PO.
  induction rest as [|m rest IH]; intros done k T Hd; cbn [pin_maps_loop].
  { apply wp_ret. rewrite app_nil_r in *. split; [by rewrite reverse_Permutation|]. split; [apply same_maps_refl|].
    split; [done|]. split; [intros _; by apply Forall_reverse|done]. }
  assert (Hpin : forall p q, dir = None /\ p = None /\ m_pin_path m = Some q \/ (exists d, dir = Some d /\ full_path d (m_name m) = p /\ p = Some q) ->
    wp (let! (err, m) := bpf_map__pin m p in
        if negb (err =? 0) then undo err done (m :: rest) else pin_maps_loop dir (m :: done) rest)
      (maps_post k0 dir (reverse done ++ m :: rest) (m :: rest)) k).
  { intros p q Hcase. apply wp_bind. rewrite <- Permutation_middle in T.
    eapply wp_mono; [apply (wp_map_pin k0 k m (done ++ rest) p T)|]. intros [e m'] k1 (T1 & He & S1 & Hz & Hn).
    rewrite (Permutation_middle done rest m') in T1.
    destruct (Z.eqb_spec e 0) as [->|Hne]; cbn [negb].
    - destruct (Hz eq_refl) as [Hm' Hpp]. eapply wp_mono; [apply (IH (m' :: done) k1)|].
      + by rewrite <- Permutation_middle in T1.
      + apply List.Forall_cons; [|done].
        destruct Hcase as [(-> & -> & Hq)|(d & -> & Hf & ->)]; [by intros _|]. split; [done|]. exists q.
        destruct S1 as [-> _]. split; [done|by apply Hpp].
      + intros [e' l'] k2 (T2 & F2 & He2 & Hz2 & Hn2). split; [done|]. split; [|split; [done|split; [done|]]].
        * eapply same_maps_trans; [|exact F2]. rewrite reverse_cons, <- (assoc_L (++)).
          apply Forall2_app; [apply same_maps_refl|]. apply List.Forall2_cons; [done|apply same_maps_refl].
        * intros Hne Hmem Hu. apply Hn2; [done|done|]. by inversion_clear Hu.
    - apply wp_undo; [done|done|lia|done|]. unfold unpinned. intros Hu. by rewrite (Hn Hne). }
  destruct dir as [d|].
  - destruct (full_path d (m_name m)) as [p|] eqn:Ef; [apply (Hpin (Some p) p); right; by exists d|].
    apply wp_undo; [done|done|unfold ENAMETOOLONG; lia|done|done].
  - destruct (m_pin_path m) as [q|] eqn:Eq; [apply (Hpin None q); by left|].
    eapply wp_mono; [apply (IH (m :: done) k)|].
    + by rewrite <- Permutation_middle in T.
    + apply List.Forall_cons; [|done]. intros Hp. by rewrite Eq in Hp.
    + intros [e' l'] k2 (T2 & F2 & He2 & Hz2 & Hn2). rewrite reverse_cons, <- (assoc_L (++)) in F2.
      split; [done|]. split; [done|split; [done|split; [done|]]]. intros Hne Hmem Hu. apply Hn2; [done|done|]. by inversion_clear Hu.
Qed.

Lemma truthful_start k l : Forall unpinned l -> (forall fd, obj_of k fd = ob fd) -> truthful k k l.
Proof.
  intros Hu Hob. assert (pins l = []) as Hp.
  { induction Hu as [|m l Hm _ IH]; [done|]. rewrite pins_not_pinned by done. exact IH. }
  split; rewrite ?Hp.
  - eapply List.Forall_impl; [|exact Hu]. intros m Hm. unfold unpinned in Hm. by rewrite Hm.
  - apply base.NoDup_nil_2.
  - intros p o Hin. by apply not_elem_of_nil in Hin.
  - done.
  - done.
Qed.
(** With no map pinned the file system is as without the object. *)
Lemma truthful_none k0 k l : truthful k0 k l -> Forall unpinned l -> forall q, pinned_at k q = pinned_at k0 q.
Proof.
  intros T Hu q. apply (tr_other _ _ _ T). assert (pins l = []) as ->; [|apply not_elem_of_nil].
  clear T. induction Hu as [|m l Hm _ IH]; [done|]. rewrite pins_not_pinned by done. exact IH.
Qed.
(** A pinned map is where its path says. *)
Lemma truthful_at k0 k l m d : truthful k0 k l -> m ∈ l -> pinned_in (Some d) m ->
  exists p, full_path d (m_name m) = Some p /\ pinned_at k p = Some (ob (m_fd m)).
Proof.
  intros T Hm (Hp & p & Hf & Hpp). exists p. split; [done|]. apply (tr_pins _ _ _ T). unfold pins.
  apply list_elem_of_omap. exists m. split; [done|]. unfold pin_of. by rewrite Hp, Hpp.
Qed.

Lemma wp_unpin_loop k0 d : forall l done k, truthful k0 k (done ++ l) -> Forall (pinned_in (Some d)) l ->
  wp (unpin_maps_loop (Some d) l) (fun '(e, l') k' => truthful k0 k' (done ++ l') /\ Forall2 same_map l l' /\
    (memory -> e = 0 /\ Forall unpinned l')) k.
Proof using PO.
  induction l as [|m l IH]; intros done k T Hl; cbn [unpin_maps_loop]; [by apply wp_ret|].
  pose proof (List.Forall_inv Hl) as (Hm & p & Hf & Hp). pose proof (List.Forall_inv_tail Hl) as Hl'. rewrite Hf. apply wp_bind. rewrite <- Permutation_middle in T.
  eapply wp_mono; [apply (wp_map_unpin k0 k m (done ++ l) p (Some p) T Hm Hp); by right|].
  intros [e m'] k1 (T1 & S1 & _ & P1 & M1). destruct (Z.eqb_spec e 0) as [->|Hne]; cbn [negb] in *.
  - apply wp_bind. eapply wp_mono; [apply (IH (m' :: done) k1 T1 Hl')|].
    intros [e' l'] k2 (T2 & F2 & M2). apply wp_ret. split; [by rewrite <- Permutation_middle|]. split; [by constructor|].
    intros Hmem. destruct (M2 Hmem) as [-> Hu]. split; [done|]. by apply List.Forall_cons.
  - apply wp_ret. split; [by rewrite <- Permutation_middle|]. split; [constructor; [done|apply same_maps_refl]|].
    intros Hmem. by destruct (Hne (M1 Hmem)).
Qed.

(** Unpinning the maps of a freshly loaded object removes what an earlier run left. *)
Definition fresh_map (m : bpf_map) : Prop := m_pinned m = false /\ m_pin_path m = None.
Definition paths_of (d : path) (l : list bpf_map) : list path := omap (fun m => full_path d (m_name m)) l.
Lemma wp_unpin_fresh d : forall l k, Forall fresh_map l ->
  wp (unpin_maps_loop (Some d) l) (fun '(e, l') k' => l' = l /\ e <= 0 /\
    (forall fd, obj_of k' fd = obj_of k fd) /\ forall q, q ∉ paths_of d l -> pinned_at k' q = pinned_at k q) k.
Proof using PO.
  induction l as [|m l IH]; intros k Hl; cbn [unpin_maps_loop]; [by apply wp_ret|].
  pose proof (List.Forall_inv Hl) as [Hm Hp]. pose proof (List.Forall_inv_tail Hl) as Hl'. unfold paths_of. cbn [omap list_omap].
  destruct (full_path d (m_name m)) as [p|]; [|apply wp_ret; split; [done|]; unfold ENAMETOOLONG; split; [lia|by split]].
  unfold bpf_map__unpin. rewrite Hp. do 2 apply wp_bind. apply wp_check_path.
  2: { intros e k1 (Q1 & _ & Q3) He _. rewrite (proj2 (Z.eqb_neq e 0)) by lia. cbn [negb]. apply wp_ret. cbv beta iota.
       rewrite (proj2 (Z.eqb_neq e 0)) by lia. cbn [negb]. apply wp_ret. split; [done|]. split; [lia|]. split; [apply Q3|]. intros q _. apply Q1. }
  intros k1 (Q1 & _ & Q3) _. cbn [negb Z.eqb]. apply wp_bind, wp_lift. pose proof (unlink_other k1 p) as Ho. pose proof (unlink_code k1 p) as Hc.
  destruct (Z.eqb_spec (fst (k_unlink k1 p)) 0) as [E|Hne]; cbn [negb]; apply wp_ret; cbv beta iota.
  - cbn [negb Z.eqb]. apply wp_bind. eapply wp_mono; [apply IH; done|]. intros [e l'] k2 (-> & He & Hob & Hq). apply wp_ret.
    split; [destruct m; cbn in *; by subst|]. split; [done|]. split; [intros fd; by rewrite Hob, obj_unlink, Q3|]. intros q [Hqp Hql]%not_elem_of_cons. rewrite Hq by done.
    rewrite Ho by (by left). apply Q1.
  - rewrite (proj2 (Z.eqb_neq (- _) 0)) by lia. cbn [negb]. apply wp_ret. split; [done|]. split; [lia|]. split; [intros fd; by rewrite obj_unlink, Q3|].
    intros q _. rewrite Ho by (by right). apply Q1.
Qed.
End Truth.

Lemma full_path_join d n p : full_path d n = Some p -> join_path d n = p.
Proof.
  unfold full_path, join_path, slash. rewrite Z.geb_leb. destruct (Z.leb_spec (Z.of_nat PATH_MAX) (lenZ (d ++ 47 :: n))) as [|Hlt]; [done|].
  intros [= <-]. apply take_ge. unfold PATH_MAX in *. lia.
Qed.

Section Loader.
Context `{PO : PinKernelOk}.

Lemma paths_same d l l' : Forall2 same_map l l' -> paths_of d l' = paths_of d l.
Proof.
  induction 1 as [|m m' l l' [Hn _] _ IH]; [done|]. unfold paths_of in *. cbn [omap list_omap]. rewrite Hn.
  destruct (full_path d (m_name m)); [f_equal|]; exact IH.
Qed.
Lemma pins_in_paths ob d l q : Forall (pinned_in (Some d)) l -> q ∈ map fst (pins ob l) -> q ∈ paths_of d l.
Proof.
  intros Hl Hq. apply list_elem_of_In, in_map_iff in Hq as ([q' o] & <- & Hin). apply list_elem_of_In, list_elem_of_omap in Hin as (m & Hm & Hp).
  apply list_elem_of_omap. exists m. split; [done|]. rewrite List.Forall_forall in Hl.
  destruct (Hl m) as (Hpm & p & Hf & Hpp); [by apply list_elem_of_In|].
  unfold pin_of in Hp. rewrite Hpm, Hpp in Hp. cbn in *. injection Hp as <- <-. done.
Qed.
Lemma wp_pin_fresh d l k : Forall unpinned l ->
  wp (pin_maps_loop (Some d) [] l) (fun '(e, l') k' => Forall2 same_map l l' /\
    (e = 0 -> forall m, m ∈ l' -> pinned_at k' (join_path d (m_name m)) = Some (obj_of k (m_fd m))) /\
    (memory -> forall q, q ∉ paths_of d l -> pinned_at k' q = pinned_at k q)) k.
Proof using PO.
  intros Hu. eapply wp_mono; [apply (wp_pin_loop (obj_of k) k (Some d) l [] k (truthful_start (obj_of k) k l Hu (fun _ => eq_refl)) (List.Forall_nil _))|].
  intros [e l'] k' (T & F & He & Hz & Hn). cbn [reverse rev_append app] in F. split; [done|]. split.
  - intros He0 m Hm. specialize (Hz He0). rewrite List.Forall_forall in Hz.
    destruct (truthful_at (obj_of k) k k' l' m d T Hm) as (p & Hp & Hat); [by apply Hz, list_elem_of_In|]. by rewrite (full_path_join _ _ _ Hp).
  - intros Hmem q Hq. destruct (decide (e = 0)) as [->|Hne]; [|eapply truthful_none; [exact T|]; by apply Hn].
    apply (tr_other _ _ _ _ T). intros Hin. apply Hq. rewrite <- (paths_same d l l' F). apply (pins_in_paths (obj_of k)); [by apply Hz|done].
Qed.
Lemma wp_loader o ifname d k : o_loaded o = true -> Forall fresh_map (o_maps o) ->
  wp (pin_maps_in_bpf_object (Some o) ifname d) (fun '(r, obj) k' => exists o', obj = Some o' /\
    (r = 0 \/ r = EXIT_FAIL_BPF) /\ Forall2 same_map (o_maps o) (o_maps o') /\
    (r = 0 -> forall m, m ∈ o_maps o' -> pinned_at k' (join_path d (m_name m)) = Some (obj_of k (m_fd m))) /\
    (memory -> forall q, q ∉ paths_of d (o_maps o) -> pinned_at k' q = pinned_at k q)) k.
Proof using PO.
  intros Hl Hf. assert (Hu : Forall unpinned (o_maps o)) by (eapply List.Forall_impl; [|exact Hf]; by intros m [? _]).
  assert (Hpin : forall k1, (forall fd, obj_of k1 fd = obj_of k fd) -> (forall q, q ∉ paths_of d (o_maps o) -> pinned_at k1 q = pinned_at k q) ->
    wp (let! (err, obj) := bpf_object__pin_maps (Some o) (Some d) in
        if negb (err =? 0) then ret (EXIT_FAIL_BPF, obj) else ret (0, obj))
      (fun '(r, obj) k' => exists o', obj = Some o' /\ (r = 0 \/ r = EXIT_FAIL_BPF) /\ Forall2 same_map (o_maps o) (o_maps o') /\
        (r = 0 -> forall m, m ∈ o_maps o' -> pinned_at k' (join_path d (m_name m)) = Some (obj_of k (m_fd m))) /\
        (memory -> forall q, q ∉ paths_of d (o_maps o) -> pinned_at k' q = pinned_at k q)) k1).
  { intros k1 Hob1 Hk1. unfold bpf_object__pin_maps. rewrite Hl. cbn [negb]. do 2 apply wp_bind.
    eapply wp_mono; [apply (wp_pin_fresh d (o_maps o) k1 Hu)|]. intros [e l'] k2 (F & Hz & Hq). apply wp_ret. cbv beta iota.
    destruct (Z.eqb_spec e 0) as [->|Hne]; cbn [negb]; apply wp_ret; exists (with_maps o l'); (split; [done|]);
      (split; [auto|]); (split; [done|]); (split; [intros ?; try (intros m Hm; rewrite <- Hob1; by apply Hz); done|]); intros Hmem q Hqn; rewrite Hq by done; by apply Hk1. }
  unfold pin_maps_in_bpf_object. apply wp_bind, wp_gets. destruct (k_access _ _).
  - apply wp_bind. unfold bpf_object__unpin_maps. apply wp_bind. eapply wp_mono; [by apply (wp_unpin_fresh d (o_maps o) k)|].
    intros [e l'] k1 (-> & He & Hob & Hq). apply wp_ret. cbv beta iota.
    replace (with_maps o (o_maps o)) with o by (by destruct o).
    destruct (Z.eqb_spec e 0) as [->|Hne]; cbn [negb]; [by apply Hpin|].
    apply wp_ret. exists o. split; [done|]. split; [by right|]. split; [apply same_maps_refl|]. done.
  - apply wp_bind, wp_ret. cbv beta iota. cbn [negb Z.eqb]. by apply Hpin.
Qed.
End Loader.

(** ** The theorems *)

(** C22: pinning the maps of a loaded object of which none is pinned always returns, and the
    flags of the maps are then true to the file system.  With 0 every map is pinned in the
    directory under its name, and no other path has changed; with an error, as long as the
    allocator serves the way back, no path at all has changed and no map counts as
    pinned.  Unpinning the maps after success gives the file system back. *)
Theorem pin_maps_all_or_nothing `{PO : PinKernelOk} (o : bpf_object) (d : path) (k : pk) :
  o_loaded o = true -> Forall unpinned (o_maps o) ->
  exists e o' k', bpf_object__pin_maps (Some o) (Some d) k = Some ((e, Some o'), k') /\
    truthful (obj_of k) k k' (o_maps o') /\ Forall2 same_map (o_maps o) (o_maps o') /\
    (e = 0 /\ (forall m, m ∈ o_maps o' -> m_pinned m = true /\
                 exists p, full_path d (m_name m) = Some p /\ pinned_at k' p = Some (obj_of k (m_fd m))) /\
       (memory -> exists o'' k'', bpf_object__unpin_maps (Some o') (Some d) k' = Some ((0, Some o''), k'') /\
          Forall unpinned (o_maps o'') /\ forall q, pinned_at k'' q = pinned_at k q) \/
     e < 0 /\ (memory -> Forall unpinned (o_maps o') /\ forall q, pinned_at k' q = pinned_at k q)).
Proof.
  intros Hl Hu. unfold bpf_object__pin_maps. rewrite Hl. cbn [negb].
  destruct (proj1 (wp_run _ _ _) (wp_pin_loop (obj_of k) k (Some d) (o_maps o) [] k (truthful_start (obj_of k) k _ Hu (fun _ => eq_refl)) (List.Forall_nil _)))
    as ([e l'] & k' & E & T & F & He & Hz & Hn).
  exists e, (with_maps o l'), k'. unfold bind at 1. rewrite E. split; [done|]. split; [done|]. split; [done|].
  destruct (decide (e = 0)) as [->|Hne]; [left|right].
  - specialize (Hz eq_refl). split; [done|]. split.
    + intros m Hm. assert (Hi : pinned_in (Some d) m) by (rewrite List.Forall_forall in Hz; by apply Hz, list_elem_of_In).
      split; [apply Hi|]. by eapply truthful_at.
    + intros Hmem. destruct (proj1 (wp_run _ _ _) (wp_unpin_loop (obj_of k) k d l' [] k' T Hz)) as ([e2 l2] & k2 & E2 & T2 & _ & M2).
      destruct (M2 Hmem) as [-> Hu2]. exists (with_maps o l2), k2. unfold bpf_object__unpin_maps, bind. cbn [o_maps with_maps].
      rewrite E2. split; [done|]. split; [done|]. by eapply truthful_none.
  - split; [lia|]. intros Hmem. specialize (Hn Hne Hmem Hu). split; [done|]. by eapply truthful_none.
Qed.

(** The loader of basic04, with an object it has just loaded.  When it succeeds, every
    map of the object is pinned in the pin directory under its name, at the very path that
    the statistics reader opens, whatever an earlier run had left there; otherwise it
    returns EXIT_FAIL_BPF.  Paths that are not those of the object's maps never change. *)
Theorem loader_pins_maps `{PO : PinKernelOk} (o : bpf_object) (ifname d : path) (k : pk) :
  o_loaded o = true -> Forall fresh_map (o_maps o) ->
  exists r o' k', pin_maps_in_bpf_object (Some o) ifname d k = Some ((r, Some o'), k') /\
    (r = 0 \/ r = EXIT_FAIL_BPF) /\ Forall2 same_map (o_maps o) (o_maps o') /\
    (r = 0 -> forall m, m ∈ o_maps o' -> pinned_at k' (join_path d (m_name m)) = Some (obj_of k (m_fd m))) /\
    (memory -> forall q, q ∉ paths_of d (o_maps o) -> pinned_at k' q = pinned_at k q).
Proof.
  intros Hl Hf. destruct (proj1 (wp_run _ _ _) (wp_loader o ifname d k Hl Hf)) as ([r obj] & k' & E & o' & -> & HP).
  by exists r, o', k'.
Qed.

(** A file system that is a list of pins, all of it of the BPF type. *)
Fixpoint pins_lookup (l : list (path * Z)) (p : path) : option Z :=
  match l with [] => None | (q, o) :: l => if bool_decide (q = p) then Some o else pins_lookup l p end.
#[local] Instance list_fs : PinKernel := {|
  pk := list (path * Z);
  k_strdup k := (true, k);
  k_mkdir k _ := (0, k);
  k_statfs _ _ := inr BPF_FS_MAGIC;
  k_obj_pin k fd p := if bool_decide (pins_lookup k p = None) then (0, (p, fd) :: k) else (EEXIST, k);
  k_unlink k p := if bool_decide (pins_lookup k p = None) then (ENOENT, k) else (0, filter (fun x => x.1 <> p) k);
  k_rmdir k _ := (0, k);
  k_access k p := negb (bool_decide (pins_lookup k p = None));
  pinned_at := pins_lookup;
  obj_of _ fd := fd
|}.
Lemma lookup_filter_ne (l : list (path * Z)) p q : q <> p -> pins_lookup (filter (fun x => x.1 <> p) l) q = pins_lookup l q.
Proof.
  intros Hne. induction l as [|[r o] l IH]; [done|]. cbn [pins_lookup]. destruct (decide (r = p)) as [->|Hr].
  - rewrite filter_cons_False by (cbn; tauto). by rewrite bool_decide_false by congruence.
  - rewrite filter_cons_True by done. cbn [pins_lookup]. by rewrite IH.
Qed.
Lemma lookup_filter_eq (l : list (path * Z)) p : pins_lookup (filter (fun x => x.1 <> p) l) p = None.
Proof.
  induction l as [|[r o] l IH]; [done|]. destruct (decide (r = p)) as [->|Hr].
  - by rewrite filter_cons_False by (cbn; tauto).
  - rewrite filter_cons_True by done. cbn [pins_lookup]. by rewrite bool_decide_false.
Qed.
#[local] Instance list_fs_ok : PinKernelOk list_fs.
Proof.
  split; cbn; try done.
  - intros k fd p. by case_bool_decide.
  - intros k fd p. case_bool_decide; [|done]. intros _. cbn. by rewrite bool_decide_true.
  - intros k fd p q. case_bool_decide; [|done]. intros [Hne|[]]; [|done]. cbn. by rewrite bool_decide_false by congruence.
  - intros k p. by case_bool_decide.
  - intros k p. case_bool_decide; [done|]. intros _. apply lookup_filter_eq.
  - intros k p q. case_bool_decide; [done|]. intros [Hne|[]]; [|done]. by apply lookup_filter_ne.
  - intros k p Hp. by rewrite bool_decide_false.
  - intros k p Hp. by rewrite bool_decide_false.
Qed.

(** Two maps, to be pinned in the directory "d"; a file of an earlier run is there. *)
Definition demo_map (name : path) (fd : Z) : bpf_map := set_fd (set_name new_map name) fd.
Definition demo_object : bpf_object := with_loaded (with_maps (new_object [111] 0) [demo_map [97] 3; demo_map [98] 4]) true.
Lemma pin_maps_all_or_nothing_witness : exists o' k', bpf_object__pin_maps (Some demo_object) (Some [100]) ([] : list (path * Z)) = Some ((0, Some o'), k') /\
  pinned_at k' [100; 47; 97] = Some 3 /\ pinned_at k' [100; 47; 98] = Some 4 /\
  exists o'' k'', bpf_object__unpin_maps (Some o') (Some [100]) k' = Some ((0, Some o''), k'') /\ Forall unpinned (o_maps o'').
Proof.
  destruct (pin_maps_all_or_nothing (K0 := list_fs) demo_object [100] []) as (e & o' & k' & E & _ & _ & HP);
    [done|by repeat (apply List.Forall_cons; [done|])|].
  pose proof E as E'. vm_compute in E'. injection E' as <- <- <-. destruct HP as [(_ & _ & HR)|[[=] _]].
  eexists _, _. split; [exact E|]. split; [done|]. split; [done|].
  destruct HR as (o'' & k'' & Eu & Hu & _); [done|]. exists o'', k''. split; [exact Eu|exact Hu].
Defined.
Lemma loader_pins_maps_witness : exists o' k',
  pin_maps_in_bpf_object (Some demo_object) [118] [100] [([100; 47; 97], 9); ([120], 7)] = Some ((EXIT_FAIL_BPF, Some o'), k') /\
  pinned_at k' [120] = Some 7 /\
  exists o2 k2, pin_maps_in_bpf_object (Some demo_object) [118] [100] [([120], 7)] = Some ((0, Some o2), k2) /\
    pinned_at k2 (join_path [100] [98]) = Some 4.
Proof.
  assert (Hf : Forall fresh_map (o_maps demo_object)) by (by repeat (apply List.Forall_cons; [done|])).
  destruct (loader_pins_maps (K0 := list_fs) demo_object [118] [100] [([100; 47; 97], 9); ([120], 7)]) as (r & o' & k' & E & _ & _ & _ & Hq); [done|done|].
  destruct (loader_pins_maps (K0 := list_fs) demo_object [118] [100] [([120], 7)]) as (r2 & o2 & k2 & E2 & _ & _ & Hz & _); [done|done|].
  pose proof E as E'. vm_compute in E'. injection E' as <- <- <-. pose proof E2 as E2'. vm_compute in E2'. injection E2' as <- <- <-.
  eexists _, _. split; [exact E|]. split; [done|]. eexists _, _. split; [exact E2|]. 
  apply (Hz eq_refl (set_pinned (set_pin_path (demo_map [98] 4) (Some [100; 47; 98])) true)). right. by left.
Defined.
