(* ===== verification/BpfSys.v ===== *)
(** * The system call bpf(2): libbpf/src/bpf.c

    The wrappers fill a [union bpf_attr] and make the call.  The union is one constructor per
    command, with the fields that command uses; pointers to memory of the caller are the bytes
    they point to.  The kernel is a parameter, the class [BpfKernel]: it returns a result, the
    attributes as it leaves them in the caller's memory, and the bytes it writes through
    pointers.  The theorems are on [bpf_load_program_xattr]: it always returns, opens at most
    one descriptor and asks the kernel for what its caller asked, also when it has to retry. *)

From S2P Require Import Prelude BpfProg Os Params Btf Object RedirectUser Pinning.
#[local] Open Scope Z_scope.
#[local] Open Scope prog_scope.

Definition EAGAIN : Z := 11.
Definition ENOSPC : Z := 28.
Definition BPF_OBJ_NAME_LEN : nat := 16.
Definition BPF_F_NUMA_NODE : Z := 4.

(** ** Attributes *)

(** [struct bpf_create_map_attr]; [None] is a null name. *)
Record bpf_create_map_attr := Create_attr {
  ca_name : option path; ca_map_type : Z; ca_map_flags : Z; ca_key_size : Z; ca_value_size : Z; ca_max_entries : Z;
  ca_numa_node : Z; ca_btf_fd : Z; ca_btf_key_type_id : Z; ca_btf_value_type_id : Z; ca_map_ifindex : Z; ca_inner_map_fd : Z
}.
(** [struct bpf_load_program_attr]: [la_ifindex_or_btf_id] is the union of [prog_ifindex] and
    [attach_btf_id]. *)
Record bpf_load_program_attr := Load_attr {
  la_prog_type : Z; la_expected_attach_type : Z; la_name : option path; la_insns : list bpf_insn; la_license : list Z;
  la_kern_version : Z; la_ifindex_or_btf_id : Z; la_prog_btf_fd : Z;
  la_func_info_rec_size : Z; la_func_info : option (list Z); la_func_info_cnt : Z;
  la_line_info_rec_size : Z; la_line_info : option (list Z); la_line_info_cnt : Z; la_log_level : Z; la_prog_flags : Z
}.
(** The members of [union bpf_attr] for BPF_MAP_CREATE and BPF_PROG_LOAD; names are the
    zero-padded arrays, [pa_log_buf] says whether the pointer is set. *)
Record map_create_attr := Map_create_attr {
  mc_map_type : Z; mc_key_size : Z; mc_value_size : Z; mc_max_entries : Z; mc_map_flags : Z; mc_map_name : list Z; mc_numa_node : Z;
  mc_btf_fd : Z; mc_btf_key_type_id : Z; mc_btf_value_type_id : Z; mc_map_ifindex : Z; mc_inner_map_fd : Z
}.
Record prog_load_attr := Prog_load_attr {
  pa_prog_type : Z; pa_expected_attach_type : Z; pa_attach_btf_id : Z; pa_prog_ifindex : Z; pa_insns : list bpf_insn; pa_insn_cnt : Z;
  pa_license : list Z; pa_log_level : Z; pa_log_buf : bool; pa_log_size : Z; pa_kern_version : Z; pa_prog_btf_fd : Z;
  pa_func_info_rec_size : Z; pa_func_info_cnt : Z; pa_func_info : option (list Z);
  pa_line_info_rec_size : Z; pa_line_info_cnt : Z; pa_line_info : option (list Z); pa_prog_name : list Z; pa_prog_flags : Z
}.
Inductive id_kind := PROG_ID | MAP_ID | BTF_ID.
Inductive bpf_attr :=
  | MAP_CREATE (a : map_create_attr)
  | PROG_LOAD (a : prog_load_attr)
  | MAP_UPDATE_ELEM (fd : Z) (key value : list Z) (flags : Z)
  | MAP_LOOKUP_ELEM (fd : Z) (key : list Z) (flags : Z)
  | MAP_LOOKUP_AND_DELETE_ELEM (fd : Z) (key : list Z)
  | MAP_DELETE_ELEM (fd : Z) (key : list Z)
  | MAP_GET_NEXT_KEY (fd : Z) (key : option (list Z))
  | MAP_FREEZE (fd : Z)
  | OBJ_GET (pathname : path)
  | PROG_ATTACH (prog_fd target_fd type flags : Z)
  | PROG_DETACH (prog_fd target_fd type : Z)
  | GET_NEXT_ID (k : id_kind) (start_id : Z)
  | GET_FD_BY_ID (k : id_kind) (id : Z)
  | OBJ_GET_INFO_BY_FD (fd info_len : Z)
  | RAW_TRACEPOINT_OPEN (name : path) (prog_fd : Z)
  | BTF_LOAD (data : list Z) (log_level : Z) (log : bool) (log_size : Z).
(** The commands that return a new descriptor. *)
Definition creates (a : bpf_attr) : bool :=
  match a with
  | MAP_CREATE _ | PROG_LOAD _ | OBJ_GET _ | GET_FD_BY_ID _ _ | RAW_TRACEPOINT_OPEN _ _ | BTF_LOAD _ _ _ _ => true
  | _ => false
  end.

(** ** The kernel *)

(** [k_bpf], [k_open] and [k_close] are given the open descriptors.  Results are negative
    error numbers or what the call returns. *)
Class BpfKernel := {
  bk_pin :: PinKernel;
  k_bpf : pk -> list Z -> bpf_attr -> (Z * bpf_attr * list Z) * pk;
  (** [open(2)] of a path; [read(2)] with the bytes; [dup3(2)]; [close(2)] *)
  k_open : pk -> list Z -> path -> Z * pk;
  k_read : pk -> Z -> Z -> (Z * list Z) * pk;
  k_dup3 : pk -> Z -> Z -> Z * pk;
  k_close : pk -> Z -> Z * pk;
  (** how often in a row loading a program is answered with EAGAIN: the verifier of the kernel
      gives up with it when a signal is pending *)
  k_patience : nat;
  (** the sizes of a function record and of a line record that the kernel knows *)
  k_func_rec : Z;
  k_line_rec : Z
}.
(** Kernel, process, and the variable [cpus] of [libbpf_num_possible_cpus]. *)
Record bsys {K : BpfKernel} := Bsys { b_k : pk; b_sys : sys; b_cpus : Z }.
Arguments bsys : clear implicits.

Section Calls.
Context {BK : BpfKernel}.
Abbreviation B := (M (bsys BK)).

Definition with_errno (s : sys) (e : Z) : sys := Sys (fds s) (maps s) (heap s) e (clock s).
Definition with_fds (s : sys) (l : list Z) : sys := Sys l (maps s) (heap s) (errno s) (clock s).
Definition get_errno : B Z := gets (fun s => errno (b_sys s)).
(** The result of a call: a negative one becomes -1 and [errno]. *)
Definition finish {A} (new : bool) (r : Z) (x : A) (k : pk) : B (Z * A) := fun s =>
  if r <? 0 then Some ((-1, x), Bsys _ k (with_errno (b_sys s) (- r)) (b_cpus s))
  else Some ((r, x), Bsys _ k (if new then with_fds (b_sys s) (r :: fds (b_sys s)) else b_sys s) (b_cpus s)).
Definition sys_bpf (a : bpf_attr) : B (Z * (bpf_attr * list Z)) := fun s =>
  let '((r, a', out), k) := k_bpf (b_k s) (fds (b_sys s)) a in finish (creates a) r (a', out) k s.
Definition sys_open_path (p : path) : B Z := fun s =>
  let '(r, k) := k_open (b_k s) (fds (b_sys s)) p in
  match finish true r tt k s with Some ((r, _), s') => Some (r, s') | None => None end.
Definition sys_read (fd size : Z) : B (Z * list Z) := fun s =>
  let '((r, bytes), k) := k_read (b_k s) fd size in finish false r bytes k s.
(** The new descriptor is open already, so no descriptor is added. *)
Definition dup3 (fd new_fd : Z) : B Z := fun s =>
  let '(r, k) := k_dup3 (b_k s) fd new_fd in
  match finish false r tt k s with Some ((r, _), s') => Some (r, s') | None => None end.
(** The descriptor is free afterwards, also when the call reports an error. *)
Definition sys_close (fd : Z) : B Z := fun s =>
  let '(r, k) := k_close (b_k s) fd in
  let s' := Bsys _ k (with_fds (b_sys s) (filter (fun q => q <> fd) (fds (b_sys s)))) (b_cpus s) in
  match finish false r tt k s' with Some ((r, _), s') => Some (r, s') | None => None end.
(** The macro [zclose]: the result, and -1 for the variable. *)
Definition zclose (fd : Z) : B Z := if fd >=? 0 then sys_close fd else ret 0.
(** Memory of the objects and the calls is not tracked: only whether it was there. *)
Definition malloc : B bool := fun s => let '(ok, k) := k_strdup (b_k s) in
  Some (ok, if ok then Bsys _ k (b_sys s) (b_cpus s) else Bsys _ k (with_errno (b_sys s) ENOMEM) (b_cpus s)).
(** Calls of Pinning.v. *)
Definition on_fs {A} (c : M pk A) : B A := fun s =>
  match c (b_k s) with Some (a, k) => Some (a, Bsys _ k (b_sys s) (b_cpus s)) | None => None end.

(** ** The wrappers *)

(** memcpy of a name into a zeroed array of BPF_OBJ_NAME_LEN. *)
Definition name_field (name : option path) : list Z :=
  match name with
  | Some n => let l := take (BPF_OBJ_NAME_LEN - 1) n in l ++ replicate (BPF_OBJ_NAME_LEN - length l) 0
  | None => replicate BPF_OBJ_NAME_LEN 0
  end.
Definition map_request (c : bpf_create_map_attr) : map_create_attr :=
  Map_create_attr (ca_map_type c) (ca_key_size c) (ca_value_size c) (ca_max_entries c)
    (ca_map_flags c) (name_field (ca_name c)) (ca_numa_node c) (ca_btf_fd c) (ca_btf_key_type_id c) (ca_btf_value_type_id c)
    (ca_map_ifindex c) (ca_inner_map_fd c).
Definition bpf_create_map_xattr (c : bpf_create_map_attr) : B Z := let! (r, _) := sys_bpf (MAP_CREATE (map_request c)) in ret r.
Definition bpf_create_map_node (map_type : Z) (name : option path) (key_size value_size max_entries map_flags node : Z) : B Z :=
  let numa := node >=? 0 in
  bpf_create_map_xattr (Create_attr name map_type (if numa then Z.lor map_flags BPF_F_NUMA_NODE else map_flags)
    (u32 key_size) (u32 value_size) (u32 max_entries) (if numa then node else 0) 0 0 0 0 0).
Definition bpf_create_map (map_type key_size value_size max_entries map_flags : Z) : B Z :=
  bpf_create_map_xattr (Create_attr None map_type map_flags (u32 key_size) (u32 value_size) (u32 max_entries) 0 0 0 0 0 0).
Definition bpf_create_map_name (map_type : Z) (name : option path) (key_size value_size max_entries map_flags : Z) : B Z :=
  bpf_create_map_xattr (Create_attr name map_type map_flags (u32 key_size) (u32 value_size) (u32 max_entries) 0 0 0 0 0 0).
Definition bpf_create_map_in_map_node (map_type : Z) (name : option path) (key_size inner_map_fd max_entries map_flags node : Z) : B Z :=
  let numa := node >=? 0 in
  let! (r, _) := sys_bpf (MAP_CREATE (Map_create_attr map_type (u32 key_size) 4 (u32 max_entries)
    (if numa then Z.lor map_flags BPF_F_NUMA_NODE else map_flags) (name_field name) (if numa then node else 0) 0 0 0 0 (u32 inner_map_fd))) in
  ret r.
Definition bpf_create_map_in_map (map_type : Z) (name : option path) (key_size inner_map_fd max_entries map_flags : Z) : B Z :=
  bpf_create_map_in_map_node map_type name key_size inner_map_fd max_entries map_flags (-1).

Definition bpf_map_update_elem (fd : Z) (key value : list Z) (flags : Z) : B Z :=
  let! (r, _) := sys_bpf (MAP_UPDATE_ELEM fd key value flags) in ret r.
(** The value is what the kernel wrote. *)
Definition bpf_map_lookup_elem (fd : Z) (key : list Z) : B (Z * list Z) :=
  let! (r, (_, out)) := sys_bpf (MAP_LOOKUP_ELEM fd key 0) in ret (r, out).
Definition bpf_map_lookup_elem_flags (fd : Z) (key : list Z) (flags : Z) : B (Z * list Z) :=
  let! (r, (_, out)) := sys_bpf (MAP_LOOKUP_ELEM fd key flags) in ret (r, out).
Definition bpf_map_lookup_and_delete_elem (fd : Z) (key : list Z) : B (Z * list Z) :=
  let! (r, (_, out)) := sys_bpf (MAP_LOOKUP_AND_DELETE_ELEM fd key) in ret (r, out).
Definition bpf_map_delete_elem (fd : Z) (key : list Z) : B Z := let! (r, _) := sys_bpf (MAP_DELETE_ELEM fd key) in ret r.
Definition bpf_map_get_next_key (fd : Z) (key : option (list Z)) : B (Z * list Z) :=
  let! (r, (_, out)) := sys_bpf (MAP_GET_NEXT_KEY fd key) in ret (r, out).
Definition bpf_map_freeze (fd : Z) : B Z := let! (r, _) := sys_bpf (MAP_FREEZE fd) in ret r.
Definition bpf_obj_get (pathname : path) : B Z := let! (r, _) := sys_bpf (OBJ_GET pathname) in ret r.
Definition bpf_prog_attach (prog_fd target_fd type flags : Z) : B Z :=
  let! (r, _) := sys_bpf (PROG_ATTACH prog_fd target_fd type flags) in ret r.
Definition bpf_prog_detach (target_fd type : Z) : B Z := let! (r, _) := sys_bpf (PROG_DETACH 0 target_fd type) in ret r.
Definition bpf_prog_detach2 (prog_fd target_fd type : Z) : B Z := let! (r, _) := sys_bpf (PROG_DETACH prog_fd target_fd type) in ret r.
(** The id, when the call succeeds; the caller's variable stays otherwise. *)
Definition bpf_obj_get_next_id (k : id_kind) (start_id next_id : Z) : B (Z * Z) :=
  let! (r, (_, out)) := sys_bpf (GET_NEXT_ID k start_id) in ret (r, if r =? 0 then getZ out 0 else next_id).
Definition bpf_prog_get_next_id := bpf_obj_get_next_id PROG_ID.
Definition bpf_map_get_next_id := bpf_obj_get_next_id MAP_ID.
Definition bpf_btf_get_next_id := bpf_obj_get_next_id BTF_ID.
Definition bpf_prog_get_fd_by_id (id : Z) : B Z := let! (r, _) := sys_bpf (GET_FD_BY_ID PROG_ID id) in ret r.
Definition bpf_map_get_fd_by_id (id : Z) : B Z := let! (r, _) := sys_bpf (GET_FD_BY_ID MAP_ID id) in ret r.
Definition bpf_btf_get_fd_by_id (id : Z) : B Z := let! (r, _) := sys_bpf (GET_FD_BY_ID BTF_ID id) in ret r.
(** The bytes of the info structure, and its length as the kernel leaves it. *)
Definition bpf_obj_get_info_by_fd (fd info_len : Z) : B (Z * list Z * Z) :=
  let! (r, (a, out)) := sys_bpf (OBJ_GET_INFO_BY_FD fd info_len) in
  ret (r, out, match a with OBJ_GET_INFO_BY_FD _ n => if r =? 0 then n else info_len | _ => info_len end).
Definition bpf_raw_tracepoint_open (name : path) (prog_fd : Z) : B Z := let! (r, _) := sys_bpf (RAW_TRACEPOINT_OPEN name prog_fd) in ret r.
(** [log_buf] says whether the caller passes a buffer. *)
Definition bpf_load_btf (data : list Z) (log_buf : bool) (log_buf_size : Z) (do_log : bool) : B Z :=
  let log := log_buf && negb (log_buf_size =? 0) in
  let call do_log := let! (r, _) := sys_bpf (BTF_LOAD data (if do_log && log then 1 else 0) (do_log && log) (if do_log && log then log_buf_size else 0)) in
                     ret r in
  let! fd := call do_log in
  if (fd =? -1) && negb do_log && log then call true else ret fd.

(** ** Loading a program *)

(** The loop on EAGAIN.  In the source it has no bound: it goes on as long as the kernel answers
    EAGAIN.  Here it goes on [fuel] times, and running out of fuel is a fault; the callers give
    it [k_patience], which the law [bpf_patience] makes enough.  So what is proved of them is
    for a kernel that does not answer EAGAIN for ever.  The kernel writes into the same attributes and the same log buffer,
    which holds [log], every time. *)
Fixpoint sys_bpf_prog_load (fuel : nat) (a : prog_load_attr) (log : list Z) : B (Z * prog_load_attr * list Z) :=
  let! (r, (a', out)) := sys_bpf (PROG_LOAD a) in
  let! a' := deref match a' with PROG_LOAD a' => Some a' | _ => None end in
  let log := match out with [] => log | _ => out end in
  let! e := get_errno in
  if (r <? 0) && (e =? EAGAIN) then match fuel with O => fault | S fuel => sys_bpf_prog_load fuel a' log end
  else ret (r, a', log).

(** Every record with only its first [expected_rec_size] bytes; the rest are zeroes. *)
Fixpoint zero_tailing (cnt : nat) (orecord : list Z) (actual expected : nat) : list Z :=
  match cnt with
  | O => []
  | S cnt => take expected orecord ++ replicate (actual - expected) 0 ++ zero_tailing cnt (drop actual orecord) actual expected
  end.
Definition alloc_zero_tailing_info (orecord : option (list Z)) (cnt actual_rec_size expected_rec_size : Z) : B (option (list Z)) :=
  let! ok := malloc in
  if negb ok then ret None
  else
    let! orecord := deref orecord in
    guard_ (cnt * actual_rec_size <=? lenZ orecord) ;;;
    ret (Some (zero_tailing (Z.to_nat cnt) orecord (Z.to_nat actual_rec_size) (Z.to_nat expected_rec_size))).

Definition pa_set_func (a : prog_load_attr) (rec_size : Z) (info : option (list Z)) : prog_load_attr :=
  Prog_load_attr (pa_prog_type a) (pa_expected_attach_type a) (pa_attach_btf_id a) (pa_prog_ifindex a) (pa_insns a) (pa_insn_cnt a) (pa_license a)
    (pa_log_level a) (pa_log_buf a) (pa_log_size a) (pa_kern_version a) (pa_prog_btf_fd a) rec_size (pa_func_info_cnt a) info
    (pa_line_info_rec_size a) (pa_line_info_cnt a) (pa_line_info a) (pa_prog_name a) (pa_prog_flags a).
Definition pa_set_line (a : prog_load_attr) (rec_size : Z) (info : option (list Z)) : prog_load_attr :=
  Prog_load_attr (pa_prog_type a) (pa_expected_attach_type a) (pa_attach_btf_id a) (pa_prog_ifindex a) (pa_insns a) (pa_insn_cnt a) (pa_license a)
    (pa_log_level a) (pa_log_buf a) (pa_log_size a) (pa_kern_version a) (pa_prog_btf_fd a) (pa_func_info_rec_size a) (pa_func_info_cnt a) (pa_func_info a)
    rec_size (pa_line_info_cnt a) info (pa_prog_name a) (pa_prog_flags a).
Definition pa_set_log (a : prog_load_attr) (level : Z) (buf : bool) (size : Z) : prog_load_attr :=
  Prog_load_attr (pa_prog_type a) (pa_expected_attach_type a) (pa_attach_btf_id a) (pa_prog_ifindex a) (pa_insns a) (pa_insn_cnt a) (pa_license a)
    level buf size (pa_kern_version a) (pa_prog_btf_fd a) (pa_func_info_rec_size a) (pa_func_info_cnt a) (pa_func_info a)
    (pa_line_info_rec_size a) (pa_line_info_cnt a) (pa_line_info a) (pa_prog_name a) (pa_prog_flags a).

(** The loop on E2BIG: the result, the attributes, and whether the code jumped to [done].
    [finfo] and [linfo] say which records were corrected: each turn corrects one. *)
Fixpoint fixup_loop (fuel : nat) (l : bpf_load_program_attr) (fd : Z) (a : prog_load_attr) (finfo linfo : bool) (out : list Z) :
    B (Z * prog_load_attr * list Z * bool) :=
  let! e := get_errno in
  if (e =? E2BIG) && (negb finfo || negb linfo) then
    match fuel with
    | O => fault
    | S fuel =>
        let again a finfo linfo :=
          let! (fd, a, out) := sys_bpf_prog_load k_patience a out in
          if fd >=? 0 then ret (fd, a, out, true) else fixup_loop fuel l fd a finfo linfo out in
        if negb finfo && negb (pa_func_info_cnt a =? 0) && (pa_func_info_rec_size a <? la_func_info_rec_size l) then
          let! i := alloc_zero_tailing_info (la_func_info l) (la_func_info_cnt l) (la_func_info_rec_size l) (pa_func_info_rec_size a) in
          match i with
          | None => ret (fd, a, out, true)
          | Some i => again (pa_set_func a (la_func_info_rec_size l) (Some i)) true linfo
          end
        else if negb linfo && negb (pa_line_info_cnt a =? 0) && (pa_line_info_rec_size a <? la_line_info_rec_size l) then
          let! i := alloc_zero_tailing_info (la_line_info l) (la_line_info_cnt l) (la_line_info_rec_size l) (pa_line_info_rec_size a) in
          match i with
          | None => ret (fd, a, out, true)
          | Some i => again (pa_set_line a (la_line_info_rec_size l) (Some i)) finfo true
          end
        else ret (fd, a, out, false)
    end
  else ret (fd, a, out, false).

(** The attributes of the first attempt. *)
Definition load_request (l : bpf_load_program_attr) (log_buf : bool) (log_buf_sz : Z) : prog_load_attr :=
  let tracing := la_prog_type l =? BPF_PROG_TYPE_TRACING in
  let logs := negb (la_log_level l =? 0) in
  Prog_load_attr (la_prog_type l) (la_expected_attach_type l) (if tracing then la_ifindex_or_btf_id l else 0)
    (if tracing then 0 else la_ifindex_or_btf_id l) (la_insns l) (u32 (lenZ (la_insns l))) (la_license l)
    (la_log_level l) (logs && log_buf) (if logs then log_buf_sz else 0) (la_kern_version l) (la_prog_btf_fd l)
    (la_func_info_rec_size l) (la_func_info_cnt l) (la_func_info l) (la_line_info_rec_size l) (la_line_info_cnt l) (la_line_info l)
    (name_field (la_name l)) (la_prog_flags l).
(** The result and the first byte of the log buffer, [None] if nothing has been written to it;
    [log_buf] says whether the caller passes a buffer. *)
Definition bpf_load_program_xattr (l : bpf_load_program_attr) (log_buf : bool) (log_buf_sz : Z) : B (Z * option Z) :=
  if negb (Bool.eqb (negb log_buf) (log_buf_sz =? 0)) then ret (- EINVAL, None)
  else if (la_log_level l >? 7) || (negb (la_log_level l =? 0) && negb log_buf) then ret (- EINVAL, None)
  else
    let! (fd, a, out) := sys_bpf_prog_load k_patience (load_request l log_buf log_buf_sz) [] in
    if fd >=? 0 then ret (fd, head out)
    else
      let! (fd, a, out, done) := fixup_loop 2 l fd a false false out in
      if done || negb (la_log_level l =? 0) || negb log_buf then ret (fd, head out)
      else
        let! (fd, a, out) := sys_bpf_prog_load k_patience (pa_set_log a 1 true log_buf_sz) [0] in
        ret (fd, head out).
Definition bpf_load_program (type : Z) (insns : list bpf_insn) (license : list Z) (kern_version : Z) (log_buf : bool) (log_buf_sz : Z) : B (Z * option Z) :=
  bpf_load_program_xattr (Load_attr type 0 None insns license kern_version 0 0 0 None 0 0 None 0 0 0) log_buf log_buf_sz.
Definition bpf_verify_program (type : Z) (insns : list bpf_insn) (prog_flags : Z) (license : list Z) (kern_version log_buf_sz log_level : Z) : B Z :=
  let! (fd, _, _) := sys_bpf_prog_load k_patience (Prog_load_attr type 0 0 0 insns (u32 (lenZ insns)) license log_level true log_buf_sz kern_version
    0 0 0 None 0 0 None (replicate BPF_OBJ_NAME_LEN 0) prog_flags) [0] in
  ret fd.
End Calls.

(** ** The laws of the kernel *)

(** Pins and file systems as before; descriptors in [P] stand for what they stood for. *)
Definition frame `{PinKernel} (P : Z -> Prop) (k k' : pk) : Prop :=
  (forall q, pinned_at k' q = pinned_at k q) /\ (forall d, k_statfs k' d = k_statfs k d) /\ (forall fd, P fd -> obj_of k' fd = obj_of k fd).
(** [n] attempts in a row are answered with EAGAIN. *)
Fixpoint all_again `{BpfKernel} (n : nat) (k : pk) (F : list Z) (a : bpf_attr) : Prop :=
  match n with
  | O => True
  | S n => let '((r, a', _), k') := k_bpf k F a in r = - EAGAIN /\ all_again n k' F a'
  end.
(** Some record of [cnt], each of [size] bytes, has a non-zero byte behind the first [known]. *)
Definition too_long (cnt size known : Z) (info : option (list Z)) : Prop :=
  0 <= known < size /\
  exists bytes p b, info = Some bytes /\ 0 <= p < cnt * size /\ known <= p mod size /\ bytes !! Z.to_nat p = Some b /\ b <> 0.
(** What the kernel does to the attributes of a load that it answers with E2BIG: records with
    more in them than it knows are the reason, and it writes the size that it knows. *)
Definition hint `{BpfKernel} (a b : prog_load_attr) : Prop :=
  too_long (pa_func_info_cnt a) (pa_func_info_rec_size a) k_func_rec (pa_func_info a) /\ b = pa_set_func a k_func_rec (pa_func_info a) \/
  too_long (pa_line_info_cnt a) (pa_line_info_rec_size a) k_line_rec (pa_line_info a) /\ b = pa_set_line a k_line_rec (pa_line_info a).
(** The log buffer of a kernel is at most UINT_MAX >> 2; a larger one is refused as invalid. *)
Definition LOG_MAX : Z := 0x3fffffff.

Class BpfKernelOk {BK : BpfKernel} : Prop := {
  bk_pin_ok :: PinKernelOk bk_pin;
  bpf_fresh k F a r a' out k' : k_bpf k F a = ((r, a', out), k') -> creates a = true -> 0 <= r -> r ∉ F;
  bpf_code k F a r a' out k' : k_bpf k F a = ((r, a', out), k') -> creates a = false -> r <= 0;
  bpf_frame k F a r a' out k' : k_bpf k F a = ((r, a', out), k') -> frame (fun fd => creates a = true -> fd <> r) k k';
  bpf_load_hints k F a r a' out k' : k_bpf k F (PROG_LOAD a) = ((r, a', out), k') -> exists b, a' = PROG_LOAD b /\ (b = a \/ r = - E2BIG /\ hint a b);
  bpf_patience k F a : ~ all_again (S k_patience) k F (PROG_LOAD a);
  (** ENOSPC means that the log did not fit *)
  bpf_nospace k F a a' out k' : k_bpf k F (PROG_LOAD a) = ((- ENOSPC, a', out), k') ->
    pa_log_level a <> 0 /\ 0 < pa_log_size a <= LOG_MAX;
  (** the name of an object ends within its array *)
  bpf_info_name k F fd n a' out k' : k_bpf k F (OBJ_GET_INFO_BY_FD fd n) = ((0, a', out), k') -> Forall is_u8 out /\ getZ out 39 = 0;
  (** a pinned object is what the new descriptor stands for *)
  bpf_get_pinned k F p r a' out k' : k_bpf k F (OBJ_GET p) = ((r, a', out), k') -> 0 <= r -> pinned_at k p = Some (obj_of k' r);
  open_new k F p r k' : k_open k F p = (r, k') -> (0 <= r -> r ∉ F) /\ frame (fun fd => fd <> r) k k';
  (** as many bytes as the result says, at most as many as asked for *)
  read_bytes k fd size r bytes k' : k_read k fd size = ((r, bytes), k') ->
    (0 <= r -> r = lenZ bytes /\ r <= size) /\ frame (fun _ => True) k k';
  dup3_new k fd new_fd r k' : k_dup3 k fd new_fd = (r, k') ->
    (r = new_fd /\ obj_of k' new_fd = obj_of k fd \/ r < 0) /\ frame (fun f => r < 0 \/ f <> new_fd) k k';
  close_code k fd r k' : k_close k fd = (r, k') -> r <= 0 /\ frame (fun f => f <> fd) k k'
}.
Arguments BpfKernelOk : clear implicits.

(** Permutations of lists made of the same pieces, by counting. *)
Lemma count_cons (a : Z) l x : count_occ Z.eq_dec (a :: l) x = (count_occ Z.eq_dec [a] x + count_occ Z.eq_dec l x)%nat.
Proof. cbn. by destruct (Z.eq_dec a x). Qed.
Ltac perm_solve :=
  let x := fresh "x" in
  apply (Permutation_count_occ Z.eq_dec); intros x;
  repeat first [rewrite count_occ_app | match goal with
    | |- context [count_occ Z.eq_dec (?a :: ?l) x] => lazymatch l with [] => fail | _ => rewrite (count_cons a l x) end end];
  rewrite ?count_occ_nil; lia.

Section Rules.
Context {BK : BpfKernel} {BO : BpfKernelOk BK}.
Abbreviation B := (M (bsys BK)).

Lemma frame_refl (P : Z -> Prop) k : frame P k k.
Proof. done. Qed.
Lemma frame_trans (P : Z -> Prop) k1 k2 k3 : frame P k1 k2 -> frame P k2 k3 -> frame P k1 k3.
Proof. intros (A & C & D) (A' & C' & D'). split; [intros q; by rewrite A'|]. split; [intros d; by rewrite C'|]. intros fd Hfd. by rewrite D', D. Qed.
Lemma frame_mono (P P' : Z -> Prop) k k' : frame P k k' -> (forall fd, P' fd -> P fd) -> frame P' k k'.
Proof. intros (A & C & D) HP. split; [done|]. split; [done|]. auto. Qed.

(** The process's descriptors are [F], as a set; what the object code uses of Os.v. *)
Definition bhas (s : bsys BK) (F : list Z) : Prop := fds (b_sys s) ≡ₚ F.
(** Nothing but the kernel state and [errno] has changed. *)
Definition same_sys (s s' : bsys BK) : Prop :=
  heap (b_sys s') = heap (b_sys s) /\ maps (b_sys s') = maps (b_sys s) /\ b_cpus s' = b_cpus s.
#[export] Instance bhas_proper s : Proper ((≡ₚ) ==> iff) (bhas s).
Proof. intros F F' HF. unfold bhas. by rewrite HF. Qed.

Lemma wp_bpf a s F (Q : Z * (bpf_attr * list Z) -> bsys BK -> Prop) : bhas s F ->
  (forall fd a' out s', creates a = true -> 0 <= fd -> fd ∉ F -> k_bpf (b_k s) (fds (b_sys s)) a = ((fd, a', out), b_k s') ->
    bhas s' (fd :: F) -> same_sys s s' -> frame (fun f => f <> fd) (b_k s) (b_k s') -> Q (fd, (a', out)) s') ->
  (forall a' out s', creates a = false -> k_bpf (b_k s) (fds (b_sys s)) a = ((0, a', out), b_k s') ->
    bhas s' F -> same_sys s s' -> frame (fun _ => True) (b_k s) (b_k s') -> Q (0, (a', out)) s') ->
  (forall e a' out s', 0 < e -> k_bpf (b_k s) (fds (b_sys s)) a = ((- e, a', out), b_k s') ->
    bhas s' F -> same_sys s s' -> fds (b_sys s') = fds (b_sys s) -> errno (b_sys s') = e -> frame (fun f => 0 <= f \/ creates a = false) (b_k s) (b_k s') -> Q (-1, (a', out)) s') ->
  wp (sys_bpf a) Q s.
Proof using BO.
  intros HF H1 H2 H3. unfold wp, sys_bpf. destruct (k_bpf (b_k s) (fds (b_sys s)) a) as [[[r a'] out] k'] eqn:E. unfold finish.
  pose proof (bpf_frame _ _ _ _ _ _ _ E) as Hfr. destruct (Z.ltb_spec r 0).
  - apply (H3 (- r)); rewrite ?Z.opp_involutive; try done; [lia|]. eapply frame_mono; [exact Hfr|]. intros f [Hf|Hf] Hc; [lia|congruence].
  - destruct (creates a) eqn:Ec.
    + apply H1; try done.
      * unfold bhas in HF. rewrite <- HF. by eapply bpf_fresh.
      * unfold bhas in *. cbn. by rewrite HF.
      * eapply frame_mono; [exact Hfr|]. intros f Hf _. exact Hf.
    + pose proof (bpf_code _ _ _ _ _ _ _ E Ec). replace r with 0 in * by lia. apply H2; try done. eapply frame_mono; [exact Hfr|]. intros f _ Hc. congruence.
Qed.
Lemma wp_malloc s F (Q : bool -> bsys BK -> Prop) : bhas s F ->
  (forall ok s', bhas s' F -> same_sys s s' -> (ok = false -> errno (b_sys s') = ENOMEM /\ ~ memory) -> (ok = true -> errno (b_sys s') = errno (b_sys s)) ->
    frame (fun _ => True) (b_k s) (b_k s') -> Q ok s') -> wp malloc Q s.
Proof using BO.
  intros HF HQ. unfold wp, malloc. destruct (k_strdup (b_k s)) as [ok k] eqn:E.
  assert (frame (fun _ => True) (b_k s) k).
  { pose proof (strdup_pins (b_k s)) as H1. pose proof (statfs_strdup (b_k s)) as H2. pose proof (obj_strdup (b_k s)) as H3. rewrite E in *. by split. }
  destruct ok; apply HQ; try done. intros _. split; [done|]. intros Hm. specialize (Hm (b_k s)). by rewrite E in Hm.
Qed.
Lemma wp_open_path p s F (Q : Z -> bsys BK -> Prop) : bhas s F ->
  (forall fd s', 0 <= fd -> fd ∉ F -> bhas s' (fd :: F) -> same_sys s s' -> frame (fun f => f <> fd) (b_k s) (b_k s') -> Q fd s') ->
  (forall s', bhas s' F -> same_sys s s' -> 0 < errno (b_sys s') -> frame (fun f => 0 <= f) (b_k s) (b_k s') -> Q (-1) s') ->
  wp (sys_open_path p) Q s.
Proof using BO.
  intros HF H1 H2. unfold wp, sys_open_path. destruct (k_open (b_k s) (fds (b_sys s)) p) as [r k] eqn:E.
  destruct (open_new _ _ _ _ _ E) as [Hfr Hf]. unfold finish. destruct (Z.ltb_spec r 0).
  - apply H2; try done; cbn; [lia|]. eapply frame_mono; [exact Hf|]. cbv beta. intros. lia.
  - apply H1; try done; [unfold bhas in HF; rewrite <- HF; by apply Hfr|]. unfold bhas in *. cbn. by rewrite HF.
Qed.
Lemma wp_read fd size s F (Q : Z * list Z -> bsys BK -> Prop) : bhas s F ->
  (forall bytes s', lenZ bytes <= size -> k_read (b_k s) fd size = ((lenZ bytes, bytes), b_k s') -> bhas s' F -> same_sys s s' ->
    frame (fun _ => True) (b_k s) (b_k s') -> Q (lenZ bytes, bytes) s') ->
  (forall bytes s', bhas s' F -> same_sys s s' -> 0 < errno (b_sys s') -> frame (fun _ => True) (b_k s) (b_k s') -> Q (-1, bytes) s') ->
  wp (sys_read fd size) Q s.
Proof using BO.
  intros HF H1 H2. unfold wp, sys_read. destruct (k_read (b_k s) fd size) as [[r bytes] k] eqn:E. destruct (read_bytes _ _ _ _ _ _ E) as [Hr Hf].
  unfold finish. destruct (Z.ltb_spec r 0).
  - apply H2; try done; cbn; lia.
  - destruct (Hr ltac:(lia)) as [-> ?]. by apply H1.
Qed.
Lemma wp_dup3 fd new_fd s F (Q : Z -> bsys BK -> Prop) : bhas s F -> 0 <= new_fd ->
  (forall s', bhas s' F -> same_sys s s' -> obj_of (b_k s') new_fd = obj_of (b_k s) fd -> frame (fun f => f <> new_fd) (b_k s) (b_k s') -> Q new_fd s') ->
  (forall s', bhas s' F -> same_sys s s' -> 0 < errno (b_sys s') -> frame (fun _ => True) (b_k s) (b_k s') -> Q (-1) s') ->
  wp (dup3 fd new_fd) Q s.
Proof using BO.
  intros HF Hn H1 H2. unfold wp, dup3. destruct (k_dup3 (b_k s) fd new_fd) as [r k] eqn:E. destruct (dup3_new _ _ _ _ _ E) as [Hr Hf].
  unfold finish. destruct (Z.ltb_spec r 0).
  - apply H2; try done; cbn; [lia|]. eapply frame_mono; [exact Hf|]. intros f _. by left.
  - destruct Hr as [[-> Ho]|]; [|lia]. apply H1; try done. eapply frame_mono; [exact Hf|]. intros f Hne. by right.
Qed.
Lemma wp_close_fd fd s F (Q : Z -> bsys BK -> Prop) : bhas s F ->
  (forall r s', r = 0 \/ r = -1 -> bhas s' (filter (fun q => q <> fd) F) -> same_sys s s' -> (r = -1 -> 0 < errno (b_sys s')) -> (r = 0 -> errno (b_sys s') = errno (b_sys s)) ->
    frame (fun f => f <> fd) (b_k s) (b_k s') -> Q r s') -> wp (sys_close fd) Q s.
Proof using BO.
  intros HF HQ. unfold wp, sys_close. destruct (k_close (b_k s) fd) as [r k] eqn:E. destruct (close_code _ _ _ _ E) as [Hr Hf].
  unfold finish. destruct (Z.ltb_spec r 0).
  - apply HQ; try done; cbn; [by right|unfold bhas in *; cbn; by rewrite HF|lia].
  - replace r with 0 by lia. apply HQ; try done; cbn; [by left|unfold bhas in *; cbn; by rewrite HF].
Qed.
Lemma wp_zclose fd s F (Q : Z -> bsys BK -> Prop) : bhas s F ->
  (forall r s', r = 0 \/ r = -1 -> bhas s' (if fd >=? 0 then filter (fun q => q <> fd) F else F) -> same_sys s s' -> (r = -1 -> 0 < errno (b_sys s')) ->
    (r = 0 -> errno (b_sys s') = errno (b_sys s)) -> frame (fun f => f <> fd) (b_k s) (b_k s') -> Q r s') -> wp (zclose fd) Q s.
Proof using BO.
  intros HF HQ. unfold zclose. destruct (fd >=? 0); [by eapply wp_close_fd|]. apply wp_ret, HQ; try done. by left.
Qed.
Lemma same_sys_trans s1 s2 s3 : same_sys s1 s2 -> same_sys s2 s3 -> same_sys s1 s3.
Proof. intros (A & C & D) (A' & C' & D'). split; [congruence|]. split; congruence. Qed.

(** ** Loading *)

(** The kernel granted the request [a] with the descriptor [fd]; it denied it with the error [e]. *)
Definition granted (a : prog_load_attr) (fd : Z) (k' : pk) : Prop :=
  0 <= fd /\ exists k F a' out, k_bpf k F (PROG_LOAD a) = ((fd, a', out), k').
Definition denied (a : prog_load_attr) (e : Z) : Prop :=
  0 < e /\ exists k F a' out k', k_bpf k F (PROG_LOAD a) = ((- e, a', out), k').
Definition loaded (s : bsys BK) (F : list Z) (fd : Z) (s' : bsys BK) : Prop :=
  0 <= fd /\ (fd ∉ F) /\ bhas s' (fd :: F) /\ same_sys s s' /\ frame (fun f => 0 <= f /\ f <> fd) (b_k s) (b_k s').
Definition refused (s : bsys BK) (F : list Z) (s' : bsys BK) : Prop :=
  bhas s' F /\ same_sys s s' /\ 0 < errno (b_sys s') /\ frame (fun f => 0 <= f) (b_k s) (b_k s').
(** The attributes as they are after [a] was denied with [e]. *)
Definition answered (a : prog_load_attr) (e : Z) (a' : prog_load_attr) : Prop := denied a e /\ (a' = a \/ e = E2BIG /\ hint a a').
Lemma prog_load_loop : forall n a log s F (Q : Z * prog_load_attr * list Z -> bsys BK -> Prop),
  ~ all_again (S n) (b_k s) (fds (b_sys s)) (PROG_LOAD a) -> bhas s F ->
  (forall fd a' log' s', granted a fd (b_k s') -> loaded s F fd s' -> Q (fd, a', log') s') ->
  (forall a' log' s', answered a (errno (b_sys s')) a' -> refused s F s' -> (log <> [] -> log' <> []) ->
    (errno (b_sys s') = ENOSPC -> pa_log_level a <> 0 /\ 0 < pa_log_size a <= LOG_MAX) -> Q (-1, a', log') s') ->
  wp (sys_bpf_prog_load n a log) Q s.
Proof using BO.
  induction n as [|n IH]; intros a log s F Q Hp HF H1 H2; cbn [sys_bpf_prog_load]; apply wp_bind;
    (eapply wp_bpf; [exact HF|intros fd a' out s' _ Hfd Hfr E HF' Hs Hf|intros a' out s' [=]|intros e a' out s' He E HF' Hs Hfds Her Hf]); cbv beta iota.
  1, 3: destruct (bpf_load_hints _ _ _ _ _ _ _ E) as (b & -> & _); apply wp_bind; (eapply wp_deref; [reflexivity|]); apply wp_bind, wp_gets;
    rewrite (proj2 (Z.ltb_ge _ _)) by lia; cbn [andb]; apply wp_ret; (eapply H1; [split; [done|by eexists _, _, _, _]|]);
    (split; [done|]); (split; [done|]); (split; [done|]); (split; [done|]); (eapply frame_mono; [exact Hf|by intros f [_ ?]]).
  all: destruct (bpf_load_hints _ _ _ _ _ _ _ E) as (b & -> & Hb); apply wp_bind; (eapply wp_deref; [reflexivity|]); apply wp_bind, wp_gets; rewrite Her;
    change (-1 <? 0) with true; cbn [andb]; destruct (Z.eqb_spec e EAGAIN) as [->|Hne].
  2, 4: apply wp_ret, H2; [|split; [done|]; split; [done|]; split; [lia|]; (eapply frame_mono; [exact Hf|by left])|by destruct out|];
    rewrite Her; [|intros ->; by eapply bpf_nospace];
    split; [split; [done|by eexists _, _, _, _, _]|]; destruct Hb as [->|[He2 Hb]]; [by left|right; split; [lia|done]].
  - exfalso. apply Hp. cbn [all_again]. by rewrite E.
  - assert (Href : refused s F s') by (split; [done|]; split; [done|]; split; [unfold EAGAIN in *; lia|]; eapply frame_mono; [exact Hf|by left]).
    destruct Hb as [->|[[=] _]]. eapply (IH a _ s' F).
    + intros Hag. apply Hp. cbn [all_again]. rewrite E. split; [done|]. by rewrite <- Hfds.
    + done.
    + intros fd a' log' s'' Hg (G1 & G2 & G3 & G4 & G5). eapply H1; [done|]. destruct Href as (_ & R2 & _ & R4).
      split; [done|]. split; [done|]. split; [done|]. split; [by eapply same_sys_trans|]. eapply frame_trans; [|exact G5].
      eapply frame_mono; [exact R4|]. by intros f [? _].
    + intros a' log' s'' Hh (G1 & G2 & G3 & G4) Hne Hno. eapply H2; [done| |intros Hl; apply Hne; by destruct out|done].
      destruct Href as (_ & R2 & _ & R4). split; [done|]. split; [by eapply same_sys_trans|]. split; [done|]. by eapply frame_trans.
Qed.
Lemma wp_prog_load a log s F (Q : Z * prog_load_attr * list Z -> bsys BK -> Prop) : bhas s F ->
  (forall fd a' log' s', granted a fd (b_k s') -> loaded s F fd s' -> Q (fd, a', log') s') ->
  (forall a' log' s', answered a (errno (b_sys s')) a' -> refused s F s' -> (log <> [] -> log' <> []) ->
    (errno (b_sys s') = ENOSPC -> pa_log_level a <> 0 /\ 0 < pa_log_size a <= LOG_MAX) -> Q (-1, a', log') s') ->
  wp (sys_bpf_prog_load k_patience a log) Q s.
Proof using BO. intros. eapply prog_load_loop; try done. apply bpf_patience. Qed.

(** The records of the caller are as long as their number says. *)
Definition info_fits (cnt rec_size : Z) (info : option (list Z)) : Prop :=
  cnt = 0 \/ 0 <= cnt /\ exists bytes, info = Some bytes /\ cnt * rec_size <= lenZ bytes.
(** [sent] has the [cnt] records of [bytes], of [size] bytes each, cut after [known] bytes: of
    every record the first [known] bytes are there, and zeroes follow up to its end. *)
Definition cut_to (cnt size known : Z) (bytes sent : list Z) : Prop :=
  lenZ sent = cnt * size /\
  forall p, 0 <= p < cnt * size -> sent !! Z.to_nat p = if p mod size <? known then bytes !! Z.to_nat p else Some 0.
(** Records are the caller's, or the caller's cut to the size that the kernel knows, when that
    is less than the caller's. *)
Definition records (cnt rec_size known : Z) (info sent : option (list Z)) : Prop :=
  sent = info \/ 0 <= known < rec_size /\ exists bytes i, info = Some bytes /\ sent = Some i /\ cut_to cnt rec_size known bytes i.
(** The request [a] asks for what [l] asks; the log aside.  The interface and
    the type to attach to share a place in [l]: which it is depends on the type. *)
Record asks (l : bpf_load_program_attr) (a : prog_load_attr) : Prop := Asks {
  ask_type : pa_prog_type a = la_prog_type l /\ pa_expected_attach_type a = la_expected_attach_type l;
  ask_tracing : la_prog_type l = BPF_PROG_TYPE_TRACING -> pa_attach_btf_id a = la_ifindex_or_btf_id l /\ pa_prog_ifindex a = 0;
  ask_others : la_prog_type l <> BPF_PROG_TYPE_TRACING -> pa_attach_btf_id a = 0 /\ pa_prog_ifindex a = la_ifindex_or_btf_id l;
  ask_insns : pa_insns a = la_insns l /\ pa_insn_cnt a = u32 (lenZ (la_insns l));
  ask_rest : pa_license a = la_license l /\ pa_kern_version a = la_kern_version l /\ pa_prog_btf_fd a = la_prog_btf_fd l /\
    pa_prog_flags a = la_prog_flags l /\ pa_prog_name a = name_field (la_name l);
  ask_func : pa_func_info_cnt a = la_func_info_cnt l /\ pa_func_info_rec_size a = la_func_info_rec_size l /\
    records (la_func_info_cnt l) (la_func_info_rec_size l) k_func_rec (la_func_info l) (pa_func_info a);
  ask_line : pa_line_info_cnt a = la_line_info_cnt l /\ pa_line_info_rec_size a = la_line_info_rec_size l /\
    records (la_line_info_cnt l) (la_line_info_rec_size l) k_line_rec (la_line_info l) (pa_line_info a)
}.

Lemma asks_request l log sz : asks l (load_request l log sz).
Proof.
  split; cbn; try done; try (by split; [|split; [|left]]); intros H.
  - by rewrite H.
  - by apply Z.eqb_neq in H as ->.
Qed.
Lemma asks_log l a lv bf sz : asks l a -> asks l (pa_set_log a lv bf sz).
Proof. by intros []. Qed.
Lemma asks_func l a i : asks l a -> records (la_func_info_cnt l) (la_func_info_rec_size l) k_func_rec (la_func_info l) i ->
  asks l (pa_set_func a (la_func_info_rec_size l) i).
Proof. intros [? ? ? ? ? (? & _ & _) ?] Hi. by split. Qed.
Lemma asks_line l a i : asks l a -> records (la_line_info_cnt l) (la_line_info_rec_size l) k_line_rec (la_line_info l) i ->
  asks l (pa_set_line a (la_line_info_rec_size l) i).
Proof. intros [? ? ? ? ? ? (? & _ & _)] Hi. by split. Qed.
Lemma set_func_twice a n i m j : pa_set_func (pa_set_func a n i) m j = pa_set_func a m j.
Proof. done. Qed.
Lemma set_line_twice a n i m j : pa_set_line (pa_set_line a n i) m j = pa_set_line a m j.
Proof. done. Qed.

(** Cut records are short enough for the kernel. *)
Lemma cut_short cnt size known bytes i : cut_to cnt size known bytes i -> ~ too_long cnt size known (Some i).
Proof.
  intros [_ Hc] (_ & i' & p & b & [= <-] & Hp & Hk & Hb & Hne). rewrite (Hc p Hp), (proj2 (Z.ltb_ge _ _) Hk) in Hb. by injection Hb as <-.
Qed.
Lemma too_long_cnt cnt size known info : too_long cnt size known info -> cnt <> 0 /\ known < size.
Proof. intros (Hk & _ & p & _ & _ & Hp & _). split; [|lia]. intros ->. lia. Qed.
Lemma zero_tailing_bytes size known : (known <= size)%nat -> forall n l, (n * size <= length l)%nat ->
  length (zero_tailing n l size known) = (n * size)%nat /\
  forall p, (p < n * size)%nat -> zero_tailing n l size known !! p = if (p mod size <? known)%nat then l !! p else Some 0.
Proof.
  intros Hk. induction n as [|n IH]; intros l Hl; [split; [done|lia]|]. cbn [zero_tailing]. destruct (IH (drop size l)) as [L1 L2]; [rewrite length_drop; lia|].
  assert (Ht : length (take known l) = known) by (rewrite length_take; lia). split; [rewrite !length_app, length_replicate, L1; lia|].
  intros p Hp. destruct (decide (p < size)%nat) as [Hlt|Hge].
  - rewrite Nat.mod_small by done. destruct (Nat.ltb_spec p known).
    + rewrite lookup_app_l by lia. by rewrite lookup_take_lt.
    + rewrite lookup_app_r, lookup_app_l by (rewrite ?length_replicate; lia). apply lookup_replicate. split; [done|lia].
  - rewrite lookup_app_r, lookup_app_r by (rewrite ?length_replicate; lia). rewrite Ht, length_replicate, L2 by lia.
    replace (p - known - (size - known))%nat with (p - size)%nat by lia. rewrite lookup_drop.
    replace (size + (p - size))%nat with p by lia. replace (p mod size)%nat with ((p - size) mod size)%nat; [done|].
    rewrite <- (Nat.Div0.mod_add (p - size) 1 size). f_equal. lia.
Qed.
Lemma zero_tailing_cut cnt size known bytes : 0 <= cnt -> 0 <= known <= size -> cnt * size <= lenZ bytes ->
  cut_to cnt size known bytes (zero_tailing (Z.to_nat cnt) bytes (Z.to_nat size) (Z.to_nat known)).
Proof.
  intros Hc Hk Hb. destruct (zero_tailing_bytes (Z.to_nat size) (Z.to_nat known) ltac:(lia) (Z.to_nat cnt) bytes) as [L1 L2]; [nia|].
  split; [nia|]. intros p Hp. rewrite L2 by nia. assert (0 < size) by nia.
  replace (p mod size) with (Z.of_nat (Z.to_nat p mod Z.to_nat size)) by (rewrite Nat2Z.inj_mod, !Z2Nat.id by lia; done).
  destruct (Nat.ltb_spec (Z.to_nat p mod Z.to_nat size) (Z.to_nat known)) as [Hl|Hl].
  - by rewrite (proj2 (Z.ltb_lt _ _)) by lia.
  - by rewrite (proj2 (Z.ltb_ge _ _)) by lia.
Qed.

Lemma refused_trans s1 s2 s3 F : refused s1 F s2 -> refused s2 F s3 -> refused s1 F s3.
Proof. intros (A & C & D & E) (A' & C' & D' & E'). split; [done|]. split; [by eapply same_sys_trans|]. split; [done|]. by eapply frame_trans. Qed.
Lemma loaded_trans s1 s2 s3 F fd : refused s1 F s2 -> loaded s2 F fd s3 -> loaded s1 F fd s3.
Proof.
  intros (A & C & D & E) (A' & B' & C' & D' & E'). split; [done|]. split; [done|]. split; [done|]. split; [by eapply same_sys_trans|].
  eapply frame_trans; [|exact E']. eapply frame_mono; [exact E|]. by intros f [? _].
Qed.
(** Correcting records: memory is the only thing that can be missing. *)
Lemma wp_zero_tailing info cnt actual expected s0 s F (Q : option (list Z) -> bsys BK -> Prop) :
  refused s0 F s -> info_fits cnt actual info -> cnt <> 0 -> 0 <= expected < actual ->
  (forall bytes i s', refused s0 F s' -> info = Some bytes -> cut_to cnt actual expected bytes i -> Q (Some i) s') ->
  (forall s', refused s0 F s' -> errno (b_sys s') = ENOMEM -> ~ memory -> Q None s') ->
  wp (alloc_zero_tailing_info info cnt actual expected) Q s.
Proof using BO.
  intros HR [->|(Hc & bytes & -> & Hb)] Hne Hx H1 H2; [done|]. unfold alloc_zero_tailing_info. apply wp_bind.
  destruct HR as (R1 & R2 & R3 & R4). eapply wp_malloc; [exact R1|]. intros ok s' HF Hs Hf Ht Hfr.
  assert (Hfr0 : frame (fun f => 0 <= f) (b_k s0) (b_k s')) by (eapply frame_trans; [exact R4|]; eapply frame_mono; [exact Hfr|done]).
  destruct ok; cbn [negb].
  - apply wp_bind. eapply wp_deref; [reflexivity|]. apply wp_bind, wp_guard; [by apply Z.leb_le|]. apply wp_ret, (H1 bytes); [|done|].
    + split; [done|]. split; [by eapply same_sys_trans|]. rewrite Ht by done. by split.
    + apply zero_tailing_cut; lia.
  - destruct (Hf eq_refl) as [He Hm]. apply wp_ret, H2; [|done|done]. split; [done|]. split; [by eapply same_sys_trans|].
    rewrite He. by split.
Qed.
Definition uncorrected (finfo linfo : bool) : nat := (if finfo then 0 else 1) + (if linfo then 0 else 1).
Definition no_records (l : bpf_load_program_attr) : Prop := la_func_info_cnt l = 0 /\ la_line_info_cnt l = 0.
(** ENOSPC is only for a log that the caller asked for. *)
Definition nospace_only (lv sz : Z) (s : bsys BK) : Prop := errno (b_sys s) = ENOSPC -> lv <> 0 /\ 0 < sz <= LOG_MAX.
(** Where the loop is: [a] is what the kernel left of a request [a0] that asks for what [l]
    asks; records that were corrected are no longer too long. *)
Record attempt (l : bpf_load_program_attr) (lv sz : Z) (finfo linfo : bool) (a0 a : prog_load_attr) (e : Z) : Prop := Attempt {
  at_asks : asks l a0;
  at_answer : answered a0 e a;
  at_log : pa_log_level a = lv /\ pa_log_size a = sz;
  at_func : finfo = true -> ~ too_long (la_func_info_cnt l) (la_func_info_rec_size l) k_func_rec (pa_func_info a0);
  at_line : linfo = true -> ~ too_long (la_line_info_cnt l) (la_line_info_rec_size l) k_line_rec (pa_line_info a0)
}.
(** What may be next: nothing to correct, or one kind of records. *)
Lemma attempt_cases l lv sz fi li a0 a e : attempt l lv sz fi li a0 a e ->
  a = a0 \/
  e = E2BIG /\ fi = false /\ a = pa_set_func a0 k_func_rec (pa_func_info a0) /\ la_func_info_cnt l <> 0 /\ 0 <= k_func_rec < la_func_info_rec_size l \/
  e = E2BIG /\ li = false /\ a = pa_set_line a0 k_line_rec (pa_line_info a0) /\ la_line_info_cnt l <> 0 /\ 0 <= k_line_rec < la_line_info_rec_size l.
Proof.
  intros [[_ _ _ _ _ (F1 & F2 & _) (L1 & L2 & _)] [_ Hb] _ Hf Hl]. rewrite <- F1, <- F2 in *. rewrite <- L1, <- L2 in *.
  destruct Hb as [->|[-> [[Ht ->]|[Ht ->]]]]; [by left| |]; right; pose proof (too_long_cnt _ _ _ _ Ht) as [Hc Hlt]; pose proof (proj1 Ht) as Hr.
  - left. split; [done|]. split; [|done]. destruct fi; [|done]. by destruct (Hf eq_refl).
  - right. split; [done|]. split; [|done]. destruct li; [|done]. by destruct (Hl eq_refl).
Qed.
Lemma answered_log a e a' : answered a e a' -> pa_log_level a' = pa_log_level a /\ pa_log_size a' = pa_log_size a.
Proof. by intros [_ [->|[_ [[_ ->]|[_ ->]]]]]. Qed.

Section Fixup.
Context (l : bpf_load_program_attr) (lv sz : Z) (s0 : bsys BK) (F : list Z) (Q : Z * prog_load_attr * list Z * bool -> bsys BK -> Prop).
Context (Hfi : info_fits (la_func_info_cnt l) (la_func_info_rec_size l) (la_func_info l)).
Context (Hli : info_fits (la_line_info_cnt l) (la_line_info_rec_size l) (la_line_info l)).
Context (HOK : forall fd a a' log s', asks l a -> granted a fd (b_k s') -> loaded s0 F fd s' -> Q (fd, a', log, true) s').
(** [done] is that memory was missing; else the answer to the last request is [errno]. *)
Context (HKO : forall a a' log done s' e, asks l a -> denied a e -> (done = false -> a' = a /\ errno (b_sys s') = e) ->
  refused s0 F s' -> nospace_only lv sz s' -> (done = true -> ~ memory /\ ~ no_records l /\ errno (b_sys s') = ENOMEM) -> Q (-1, a', log, done) s').
(** A corrected request is sent. *)
Lemma wp_again fuel a1 f1 l1 log s1 :
  (forall a log s a0, attempt l lv sz f1 l1 a0 a (errno (b_sys s)) -> refused s0 F s -> nospace_only lv sz s -> wp (fixup_loop fuel l (-1) a f1 l1 log) Q s) ->
  asks l a1 -> pa_log_level a1 = lv -> pa_log_size a1 = sz -> refused s0 F s1 ->
  (f1 = true -> ~ too_long (la_func_info_cnt l) (la_func_info_rec_size l) k_func_rec (pa_func_info a1)) ->
  (l1 = true -> ~ too_long (la_line_info_cnt l) (la_line_info_rec_size l) k_line_rec (pa_line_info a1)) ->
  wp (let! (fd, a, out) := sys_bpf_prog_load k_patience a1 log in
      if fd >=? 0 then ret (fd, a, out, true) else fixup_loop fuel l fd a f1 l1 out) Q s1.
Proof using BO HOK.
  intros IH Ha Hlv Hsz HR Hf Hl. apply wp_bind. eapply wp_prog_load; [apply HR|..].
  - intros fd a' log' s' Hg Hld. cbv beta iota. replace (fd >=? 0) with true by (destruct Hld; lia). apply wp_ret.
    eapply HOK; [exact Ha|done|]. by eapply loaded_trans.
  - intros a' log' s' Hh HR' _ Hns. cbv beta iota. change (-1 >=? 0) with false. cbv iota. apply (IH _ _ _ a1); [|by eapply refused_trans|].
    + split; try done. destruct (answered_log _ _ _ Hh) as [-> ->]. by split.
    + intros E. rewrite <- Hlv, <- Hsz. auto.
Qed.
Lemma no_memory s' : errno (b_sys s') = ENOMEM -> nospace_only lv sz s'.
Proof. intros He E. rewrite E in He. done. Qed.
Lemma wp_fixup : forall fuel a0 a finfo linfo log s, (uncorrected finfo linfo <= fuel)%nat -> attempt l lv sz finfo linfo a0 a (errno (b_sys s)) ->
  refused s0 F s -> nospace_only lv sz s -> wp (fixup_loop fuel l (-1) a finfo linfo log) Q s.
Proof using BO HOK HKO Hfi Hli.
  assert (Hstop : forall a0 a log s fi li, attempt l lv sz fi li a0 a (errno (b_sys s)) -> a = a0 -> refused s0 F s -> nospace_only lv sz s ->
    wp (ret (-1, a, log, false)) Q s).
  { intros a0 a log s fi li At -> HR He. apply wp_ret. eapply (HKO a0); try done; apply At. }
  induction fuel as [|fuel IH]; intros a0 a finfo linfo log s Hu At HR He; pose proof At as [Ha Han [Hlv Hsz] Hf Hl];
    destruct (attempt_cases _ _ _ _ _ _ _ _ At) as [->|[(Ee & -> & -> & Hc & Hk)|(Ee & -> & -> & Hc & Hk)]].
  - unfold uncorrected in Hu. destruct finfo, linfo; cbn in Hu; try lia. cbn [fixup_loop negb orb]. apply wp_bind, wp_gets. rewrite andb_false_r. by eapply Hstop.
  - unfold uncorrected in Hu. lia.
  - unfold uncorrected in Hu. destruct finfo; lia.
  - cbn [fixup_loop]. apply wp_bind, wp_gets. destruct (_ && _)%bool; [|by eapply Hstop].
    destruct Ha as [_ _ _ _ _ (_ & F2 & _) (_ & L2 & _)]. rewrite F2, L2, !Z.ltb_irrefl, !andb_false_r. by eapply Hstop.
  - cbn [fixup_loop]. apply wp_bind, wp_gets. rewrite Ee. cbn [negb orb andb]. rewrite Z.eqb_refl. cbn [andb].
    cbn [pa_set_func pa_func_info_cnt pa_func_info_rec_size]. pose proof Ha as [_ _ _ _ _ (F1 & _) _].
    rewrite F1, (proj2 (Z.eqb_neq _ _) Hc), (proj2 (Z.ltb_lt _ _)) by lia. cbn [negb andb].
    apply wp_bind. eapply wp_zero_tailing; [exact HR|exact Hfi|done|done|intros bytes i s' HR' Eb Hi|intros s' HR' He' Hm].
    + rewrite set_func_twice. apply wp_again; try done; [|by apply asks_func; [|right; split; [done|]; eexists _, _]|by intros _; eapply cut_short].
      intros ? ? ? ? At'. eapply IH; [|exact At']. unfold uncorrected in *. destruct linfo; lia.
    + apply wp_ret. eapply (HKO a0); [done|apply Han|done|done|by apply no_memory|]. intros _. split; [done|]. split; [|done]. intros [? _]. congruence.
  - cbn [fixup_loop]. apply wp_bind, wp_gets. rewrite Ee. cbn [negb orb andb]. rewrite orb_true_r, Z.eqb_refl. cbn [andb].
    cbn [pa_set_line pa_func_info_cnt pa_func_info_rec_size pa_line_info_cnt pa_line_info_rec_size]. pose proof Ha as [_ _ _ _ _ (_ & F2 & _) (L1 & _)].
    rewrite F2, Z.ltb_irrefl, andb_false_r, L1, (proj2 (Z.eqb_neq _ _) Hc), (proj2 (Z.ltb_lt _ _)) by lia. cbn [negb andb].
    apply wp_bind. eapply wp_zero_tailing; [exact HR|exact Hli|done|done|intros bytes i s' HR' Eb Hi|intros s' HR' He' Hm].
    + rewrite set_line_twice. apply wp_again; try done; [|by apply asks_line; [|right; split; [done|]; eexists _, _]|by intros _; eapply cut_short].
      intros ? ? ? ? At'. eapply IH; [|exact At']. unfold uncorrected in *. destruct finfo; lia.
    + apply wp_ret. eapply (HKO a0); [done|apply Han|done|done|by apply no_memory|]. intros _. split; [done|]. split; [|done]. intros [_ ?]. congruence.
Qed.
End Fixup.

(** The arguments are accepted. *)
Definition log_args (l : bpf_load_program_attr) (log_buf : bool) (sz : Z) : Prop :=
  negb log_buf = (sz =? 0) /\ 0 <= la_log_level l <= 7 /\ (la_log_level l <> 0 -> log_buf = true).
(** Why loading failed: the kernel denied a request for what [l] asks with [errno], or with an
    error that cannot be corrected without memory, and there is none. *)
Definition not_granted (l : bpf_load_program_attr) (e : Z) : Prop :=
  exists a e', asks l a /\ denied a e' /\ (e = e' \/ e = ENOMEM /\ ~ memory).
Lemma wp_load_xattr l log_buf sz s F (Q : Z * option Z -> bsys BK -> Prop) :
  info_fits (la_func_info_cnt l) (la_func_info_rec_size l) (la_func_info l) ->
  info_fits (la_line_info_cnt l) (la_line_info_rec_size l) (la_line_info l) -> bhas s F -> log_args l log_buf sz ->
  (forall fd c a s', asks l a -> granted a fd (b_k s') -> loaded s F fd s' -> Q (fd, c) s') ->
  (forall c s', not_granted l (errno (b_sys s')) -> refused s F s' -> (log_buf = true -> la_log_level l = 0 -> memory \/ no_records l -> c <> None) ->
    (errno (b_sys s') = ENOSPC -> log_buf = true /\ 0 < sz <= LOG_MAX) -> Q (-1, c) s') ->
  wp (bpf_load_program_xattr l log_buf sz) Q s.
Proof using BO.
  intros Hfi Hli HF (Hb & Hlv & Hlog) HOK HKO. unfold bpf_load_program_xattr.
  replace (Bool.eqb (negb log_buf) (sz =? 0)) with true by (rewrite Hb; by rewrite Bool.eqb_reflx). cbn [negb].
  replace ((la_log_level l >? 7) || (negb (la_log_level l =? 0) && negb log_buf))%bool with false
    by (destruct (Z.eqb_spec (la_log_level l) 0) as [->|Hne]; [done|]; rewrite (Hlog Hne); symmetry; lia).
  set (z := if negb (la_log_level l =? 0) then sz else 0).
  apply wp_bind. eapply wp_prog_load; [exact HF|intros fd a' log' s' Hg Hld|intros a1 log1 s1 Hh HR1 _ Hns1]; cbv beta iota.
  { replace (fd >=? 0) with true by (destruct Hld; lia). apply wp_ret. eapply HOK; [apply asks_request|done|done]. }
  change (-1 >=? 0) with false. cbv iota. apply wp_bind.
  assert (Hz : nospace_only (la_log_level l) z s1) by (exact Hns1).
  assert (Hsp : forall s', nospace_only (la_log_level l) z s' -> errno (b_sys s') = ENOSPC -> log_buf = true /\ 0 < sz <= LOG_MAX).
  { intros s' Hn E. destruct (Hn E) as [Hne Hzz]. split; [auto|]. unfold z in Hzz. by rewrite (proj2 (Z.eqb_neq _ _)) in Hzz by done. }
  eapply (wp_fixup l (la_log_level l) z s F _ Hfi Hli); [| |unfold uncorrected; lia| |done|done].
  3: { split; [apply asks_request|exact Hh|destruct (answered_log _ _ _ Hh) as [-> ->]; done|done|done]. }
  - intros fd a a' log' s' Ha Hg Hld. cbv beta iota. cbn [orb]. apply wp_ret. by eapply HOK.
  - intros a a' log' dn s' e Ha Hd Hlast HR' He' Hdn. cbv beta iota. destruct dn; cbn [orb].
    { destruct (Hdn eq_refl) as (Hm & Hno & En). apply wp_ret, HKO; [|done| |exact (Hsp _ He')]; [|intros _ _ [?|?]; done].
      exists a, e. split; [done|]. split; [done|]. by right. }
    destruct (Hlast eq_refl) as [-> <-]. assert (Hng : not_granted l (errno (b_sys s'))) by (eexists a, _; split; [done|]; split; [done|by left]).
    destruct (Z.eqb_spec (la_log_level l) 0) as [E0|Hne0]; cbn [negb orb]; [|apply wp_ret, HKO; [done|done|done|exact (Hsp _ He')]].
    destruct log_buf; cbn [negb] in *; [|apply wp_ret, HKO; [done|done|done|exact (Hsp _ He')]].
    symmetry in Hb. apply Z.eqb_neq in Hb. apply wp_bind.
    eapply wp_prog_load; [apply HR'|intros fd a2 log2 s2 Hg Hld|intros a2 log2 s2 Hh2 HR2 Hlg Hns2]; cbv beta iota; apply wp_ret.
    + eapply HOK; [by apply asks_log|done|by eapply loaded_trans].
    + apply HKO; [|by eapply refused_trans| |].
      * eexists _, _. split; [by apply asks_log|]. split; [apply Hh2|by left].
      * intros _ _ _. specialize (Hlg ltac:(done)). by destruct log2.
      * intros E. split; [done|]. by destruct (Hns2 E) as [_ ?].
Qed.

(** ** Descriptors as a set *)

(** The open descriptors are [X], each once. *)
Definition own (s : bsys BK) (X : list Z) : Prop := bhas s X /\ NoDup X /\ Forall (fun f => 0 <= f) X.
#[export] Instance own_proper s : Proper ((≡ₚ) ==> iff) (own s).
Proof. intros X Y HX. unfold own. by rewrite HX. Qed.
Definition kept (X : list Z) (s s' : bsys BK) : Prop := frame (fun f => f ∈ X) (b_k s) (b_k s').
Lemma kept_refl X s : kept X s s.
Proof. apply frame_refl. Qed.
Lemma kept_trans X s1 s2 s3 : kept X s1 s2 -> kept X s2 s3 -> kept X s1 s3.
Proof. apply frame_trans. Qed.
Lemma kept_sub X Y s s' : kept X s s' -> (forall f, f ∈ Y -> f ∈ X) -> kept Y s s'.
Proof. intros H Hs. eapply frame_mono; [exact H|]. auto. Qed.
Lemma own_pos s X f : own s X -> f ∈ X -> 0 <= f.
Proof. intros (_ & _ & H). rewrite list.Forall_forall in H. auto. Qed.

(** The calls that return a descriptor, with the kernel's answer on both branches, and without. *)
Lemma own_create_answer a s X (Q : Z * (bpf_attr * list Z) -> bsys BK -> Prop) : own s X -> creates a = true ->
  (forall fd a' out s', k_bpf (b_k s) (fds (b_sys s)) a = ((fd, a', out), b_k s') -> own s' (fd :: X) -> kept X s s' -> Q (fd, (a', out)) s') ->
  (forall a' out s', k_bpf (b_k s) (fds (b_sys s)) a = ((- errno (b_sys s'), a', out), b_k s') -> own s' X -> 0 < errno (b_sys s') -> kept X s s' -> Q (-1, (a', out)) s') ->
  wp (sys_bpf a) Q s.
Proof using BO.
  intros HO Hc H1 H2. destruct HO as (HF & HN & HP). eapply wp_bpf; [exact HF|intros fd a' out s' _ Hfd Hfr E HF' Hs Hf|congruence|intros e a' out s' He E HF' Hs _ Her Hf].
  - apply H1; [done|split; [done|]; split; [by apply list.NoDup_cons|by apply List.Forall_cons]|]. eapply frame_mono; [exact Hf|].
    intros f Hin ->. done.
  - apply H2; [by rewrite Her|done|lia|]. eapply frame_mono; [exact Hf|]. intros f Hin. left. rewrite list.Forall_forall in HP. auto.
Qed.
Lemma own_create a s X (Q : Z * (bpf_attr * list Z) -> bsys BK -> Prop) : own s X -> creates a = true ->
  (forall fd a' out s', k_bpf (b_k s) (fds (b_sys s)) a = ((fd, a', out), b_k s') -> own s' (fd :: X) -> kept X s s' -> Q (fd, (a', out)) s') ->
  (forall a' out s', own s' X -> 0 < errno (b_sys s') -> kept X s s' -> Q (-1, (a', out)) s') ->
  wp (sys_bpf a) Q s.
Proof using BO. intros HO Hc H1 H2. eapply own_create_answer; [exact HO|done|done|]. intros a' out s' _. auto. Qed.
(** The others. *)
Lemma own_call a s X (Q : Z * (bpf_attr * list Z) -> bsys BK -> Prop) : own s X -> creates a = false ->
  (forall a' out s', k_bpf (b_k s) (fds (b_sys s)) a = ((0, a', out), b_k s') -> own s' X -> kept X s s' -> Q (0, (a', out)) s') ->
  (forall a' out s', own s' X -> 0 < errno (b_sys s') -> kept X s s' -> Q (-1, (a', out)) s') ->
  wp (sys_bpf a) Q s.
Proof using BO.
  intros (HF & HN & HP) Hc H1 H2. eapply wp_bpf; [exact HF|congruence|intros a' out s' _ E HF' Hs Hf|intros e a' out s' He E HF' Hs _ Her Hf].
  - apply H1; [done|done|]. by eapply frame_mono.
  - apply H2; [done|lia|]. eapply frame_mono; [exact Hf|]. intros f _. by right.
Qed.
Lemma own_malloc s X (Q : bool -> bsys BK -> Prop) : own s X ->
  (forall ok s', own s' X -> kept X s s' -> (ok = false -> 0 < errno (b_sys s') /\ ~ memory /\ errno (b_sys s') = ENOMEM) -> Q ok s') -> wp malloc Q s.
Proof using BO.
  intros (HF & HR) HQ. eapply wp_malloc; [exact HF|]. intros ok s' HF' _ Hf _ Hfr. apply HQ; [done|by eapply frame_mono|].
  intros E. destruct (Hf E) as [-> ?]. done.
Qed.
Lemma own_open p s X (Q : Z -> bsys BK -> Prop) : own s X ->
  (forall fd s', own s' (fd :: X) -> kept X s s' -> Q fd s') -> (forall s', own s' X -> 0 < errno (b_sys s') -> kept X s s' -> Q (-1) s') ->
  wp (sys_open_path p) Q s.
Proof using BO.
  intros (HF & HN & HP) H1 H2. eapply wp_open_path; [exact HF|intros fd s' Hfd Hfr HF' _ Hf|intros s' HF' _ He Hf].
  - apply H1; [split; [done|]; split; [by apply list.NoDup_cons|by apply List.Forall_cons]|]. eapply frame_mono; [exact Hf|]. intros f Hin ->. done.
  - apply H2; [done|done|]. eapply frame_mono; [exact Hf|]. cbv beta. rewrite list.Forall_forall in HP. auto.
Qed.
(** The target is a descriptor of the caller. *)
Lemma own_dup3 fd new_fd s X (Q : Z -> bsys BK -> Prop) : own s (new_fd :: X) ->
  (forall s', own s' (new_fd :: X) -> obj_of (b_k s') new_fd = obj_of (b_k s) fd -> kept X s s' -> Q new_fd s') ->
  (forall s', own s' (new_fd :: X) -> 0 < errno (b_sys s') -> kept X s s' -> Q (-1) s') ->
  wp (dup3 fd new_fd) Q s.
Proof using BO.
  intros HO H1 H2. pose proof (own_pos _ _ new_fd HO ltac:(by left)). destruct HO as (HF & HN & HP).
  pose proof HN as [Hfr _]%list.NoDup_cons. eapply wp_dup3; [exact HF|done|intros s' HF' _ Ho Hf|intros s' HF' _ He Hf].
  - apply H1; [done|done|]. eapply frame_mono; [exact Hf|]. intros f Hin ->. done.
  - apply H2; [done|done|]. by eapply frame_mono.
Qed.
Lemma own_close fd s X (Q : Z -> bsys BK -> Prop) : own s (fd :: X) ->
  (forall r s', r = 0 \/ r = -1 -> own s' X -> kept X s s' -> (r = -1 -> 0 < errno (b_sys s')) -> Q r s') -> wp (sys_close fd) Q s.
Proof using BO.
  intros (HF & [Hfr HN]%list.NoDup_cons & HP) HQ. eapply wp_close_fd; [exact HF|]. intros r s' Hr HF' _ He _ Hf.
  rewrite filter_cons_False, filter_fresh in HF' by tauto. apply HQ; [done|split; [done|]; split; [done|by apply List.Forall_inv_tail in HP]| |done].
  eapply frame_mono; [exact Hf|]. intros f Hin ->. done.
Qed.
(** [close(-1)]. *)
Lemma own_close_neg fd s X (Q : Z -> bsys BK -> Prop) : own s X -> fd < 0 ->
  (forall r s', own s' X -> kept X s s' -> Q r s') -> wp (sys_close fd) Q s.
Proof using BO.
  intros HO Hfd HQ. assert (Hn : fd ∉ X) by (intros Hin; pose proof (own_pos _ _ _ HO Hin); lia). destruct HO as (HF & HN & HP).
  eapply wp_close_fd; [exact HF|]. intros r s' Hr HF' _ He _ Hf. rewrite filter_fresh in HF' by done. apply HQ; [done|].
  eapply frame_mono; [exact Hf|]. intros f Hin ->. done.
Qed.
(** A descriptor that may be there. *)
Definition fd_list (fd : Z) : list Z := if fd >=? 0 then [fd] else [].
Lemma own_zclose fd s X (Q : Z -> bsys BK -> Prop) : own s (fd_list fd ++ X) ->
  (forall r s', r = 0 \/ r = -1 -> own s' X -> kept X s s' -> (r = -1 -> 0 < errno (b_sys s')) -> Q r s') -> wp (zclose fd) Q s.
Proof using BO.
  intros HO HQ. unfold zclose, fd_list in *. destruct (fd >=? 0); [by eapply own_close|]. apply wp_ret, HQ; [by left|done|apply kept_refl|done].
Qed.
End Rules.

(** ** The theorem *)

(** C13: [bpf_load_program_xattr] with arguments it accepts returns, whatever the kernel
    answers, as long as it does not answer EAGAIN more than [k_patience] times in a row (the
    source would retry for ever on a kernel that does).  Either it opened one descriptor, a new
    one, which the kernel granted for a request with the caller's type, instructions, license,
    flags and record sizes and with the caller's records, each kind of them whole or with every
    record cut to the size that the kernel knows and filled up with zeroes; or it returns -1,
    the kernel denied such a request, [errno] is the kernel's error or ENOMEM if a correction
    found no memory, and the process has the descriptors it had.  Descriptors, pins and file
    systems are otherwise as before. *)
Theorem load_program_asks `{BO : BpfKernelOk} (l : bpf_load_program_attr) (log_buf : bool) (sz : Z) (s : bsys BK) :
  info_fits (la_func_info_cnt l) (la_func_info_rec_size l) (la_func_info l) ->
  info_fits (la_line_info_cnt l) (la_line_info_rec_size l) (la_line_info l) -> log_args l log_buf sz ->
  exists r c s', bpf_load_program_xattr l log_buf sz s = Some ((r, c), s') /\
    (loaded s (fds (b_sys s)) r s' /\ (exists a, asks l a /\ granted a r (b_k s')) \/
     r = -1 /\ refused s (fds (b_sys s)) s' /\ not_granted l (errno (b_sys s'))).
Proof.
  intros Hf Hl Ha. assert (W : wp (bpf_load_program_xattr l log_buf sz) (fun '(r, c) s' =>
    loaded s (fds (b_sys s)) r s' /\ (exists a, asks l a /\ granted a r (b_k s')) \/
    r = -1 /\ refused s (fds (b_sys s)) s' /\ not_granted l (errno (b_sys s'))) s).
  { apply (wp_load_xattr l log_buf sz s (fds (b_sys s))); [exact Hf|exact Hl|unfold bhas; reflexivity|exact Ha| |].
    - intros fd c a s' H1 H2 H3. left. split; [done|]. by exists a.
    - intros c s' Hn H _ _. by right. }
  apply wp_run in W as ([r c] & s' & E & HP). by exists r, c, s'.
Qed.

(** ** A concrete kernel *)

(** Pins, and the objects of descriptors that are not their own number.  Every request is
    granted with the next free descriptor. *)
Record table := Table { tb_pins : list (path * Z); tb_objs : list (Z * Z) }.
Definition tb_obj (k : table) (fd : Z) : Z := match list_find (fun x => x.1 = fd) (tb_objs k) with Some (_, x) => x.2 | None => fd end.
Definition tb_set (k : table) (fd obj : Z) : table := Table (tb_pins k) ((fd, obj) :: tb_objs k).
Definition table_fs : PinKernel := {|
  pk := table;
  k_strdup k := (true, k);
  k_mkdir k _ := (0, k);
  k_statfs _ _ := inr BPF_FS_MAGIC;
  k_obj_pin k fd p := if bool_decide (pins_lookup (tb_pins k) p = None) then (0, Table ((p, tb_obj k fd) :: tb_pins k) (tb_objs k)) else (EEXIST, k);
  k_unlink k p := if bool_decide (pins_lookup (tb_pins k) p = None) then (ENOENT, k) else (0, Table (filter (fun x => x.1 <> p) (tb_pins k)) (tb_objs k));
  k_rmdir k _ := (0, k);
  k_access k p := negb (bool_decide (pins_lookup (tb_pins k) p = None));
  pinned_at k := pins_lookup (tb_pins k);
  obj_of := tb_obj
|}.
Lemma table_fs_ok : PinKernelOk table_fs.
Proof.
  split; cbn; try done.
  - intros k fd p. by case_bool_decide.
  - intros k fd p. case_bool_decide; [|done]. intros _. cbn. by rewrite bool_decide_true.
  - intros k fd p q. case_bool_decide; [|done]. intros [Hne|[]]; [|done]. cbn. by rewrite bool_decide_false by congruence.
  - intros k p. by case_bool_decide.
  - intros k p. case_bool_decide; [done|]. intros _. apply lookup_filter_eq.
  - intros k p q. case_bool_decide; [done|]. intros [Hne|[]]; [|done]. by apply lookup_filter_ne.
  - intros k p Hp. by rewrite bool_decide_false.
  - intros k p Hp. by rewrite bool_decide_false.
  - intros k f p fd. by case_bool_decide.
  - intros k p fd. by case_bool_decide.
Qed.
(** "0-3" and a newline, for every file. *)
Definition table_kernel : BpfKernel := {|
  bk_pin := table_fs;
  k_bpf k F a := match a with
                 | OBJ_GET p => match pins_lookup (tb_pins k) p with
                                | Some o => ((fresh_z F, a, []), tb_set k (fresh_z F) o)
                                | None => ((- ENOENT, a, []), k)
                                end
                 | _ => if creates a then ((fresh_z F, a, []), tb_set k (fresh_z F) (fresh_z F)) else ((0, a, []), k)
                 end;
  k_open k F _ := (fresh_z F, tb_set k (fresh_z F) (fresh_z F));
  k_read k _ size := if size <? 4 then ((- EINVAL, []), k) else ((4, [48; 45; 51; 10]), k);
  k_dup3 k fd new_fd := if new_fd <? 0 then (-9, k) else (new_fd, tb_set k new_fd (tb_obj k fd));
  k_close k fd := (0, k);
  k_patience := 0;
  k_func_rec := 8;
  k_line_rec := 16
|}.
Lemma tb_set_obj k fd o f : tb_obj (tb_set k fd o) f = if bool_decide (fd = f) then o else tb_obj k f.
Proof. unfold tb_obj, tb_set. cbn. case_bool_decide as E; [by rewrite decide_True|]. rewrite decide_False by done. by destruct (list_find _ (tb_objs k)) as [[]|]. Qed.
Lemma table_frame k fd o P : (forall f, P f -> f <> fd) -> @frame table_fs P k (tb_set k fd o).
Proof. intros HP. split; [done|]. split; [done|]. intros f Hf. cbn. rewrite tb_set_obj, bool_decide_false; [done|]. intros ->. by apply (HP f). Qed.
Lemma table_bpf k F a r a' out k' : @k_bpf table_kernel k F a = ((r, a', out), k') -> a' = a /\ out = [] /\
  (creates a = true /\ r = fresh_z F /\ (exists o, k' = tb_set k (fresh_z F) o /\ forall p, a = OBJ_GET p -> pins_lookup (tb_pins k) p = Some o) \/
   creates a = false /\ r = 0 /\ k' = k \/ r = - ENOENT /\ k' = k /\ exists p, a = OBJ_GET p).
Proof.
  cbn. destruct a; try (intros [= <- <- <- <-]; split; [done|]; split; [done|]; first [right; left; done | left; split; [done|]; split; [done|]; eexists; split; [done|]; done]).
  destruct (pins_lookup _ _) as [o|] eqn:E; intros [= <- <- <- <-]; (split; [done|]; split; [done|]).
  - left. split; [done|]. split; [done|]. exists o. split; [done|]. by intros p [= <-].
  - right. right. split; [done|]. split; [done|]. by eexists.
Qed.
Lemma table_kernel_ok : BpfKernelOk table_kernel.
Proof.
  assert (Hn : forall F, fresh_z F ∉ F) by (intros F Hin; apply fresh_z_above in Hin; lia).
  split.
  - apply table_fs_ok.
  - intros k F a r a' out k' E%table_bpf Hc Hr. destruct E as (_ & _ & [(_ & -> & _)|[(? & _)|(-> & _)]]); [apply Hn|congruence|done].
  - intros k F a r a' out k' E%table_bpf Hc. destruct E as (_ & _ & [(? & _)|[(_ & -> & _)|(-> & _)]]); [congruence|done|done].
  - intros k F a r a' out k' E%table_bpf. destruct E as (_ & _ & [(Hc & -> & o & -> & _)|[(_ & _ & ->)|(_ & -> & _)]]); [|done|done].
    apply table_frame. auto.
  - intros k F a r a' out k' E%table_bpf. destruct E as (-> & _). eexists. split; [done|by left].
  - intros k F a [E _]. pose proof (fresh_z_nonneg F). cbn in E. unfold EAGAIN in E. lia.
  - intros k F a a' out k' E%table_bpf. destruct E as (_ & _ & [(_ & E & _)|[(? & _)|(E & _)]]); [|done|done]. pose proof (fresh_z_nonneg F). unfold ENOSPC in E. lia.
  - intros k F fd n a' out k' E%table_bpf. destruct E as (_ & -> & _). by split.
  - intros k F p r a' out k' E%table_bpf Hr. destruct E as (_ & _ & [(_ & -> & o & -> & Ho)|[(? & _)|(-> & _)]]); [|done|done].
    cbn. rewrite tb_set_obj, bool_decide_true by done. by apply Ho.
  - intros k F p r k' [= <- <-]. split; [intros _; apply Hn|]. apply table_frame. auto.
  - intros k fd size r bytes k'. cbn. destruct (Z.ltb_spec size 4); intros [= <- <- <-]; (split; [unfold EINVAL; cbn [length]; lia|done]).
  - intros k fd new_fd r k'. cbn. destruct (Z.ltb_spec new_fd 0); intros [= <- <-].
    + split; [by right|done].
    + split; [left; split; [done|]; cbn; by rewrite tb_set_obj, bool_decide_true|]. apply table_frame. intros f [?|?]; [lia|done].
  - intros k fd r k' [= <- <-]. split; [done|done].
Qed.
Definition table_state : bsys table_kernel := Bsys table_kernel (Table [] []) (Sys [0; 1; 2] [] [] 0 0) 0.

Definition demo_load : bpf_load_program_attr :=
  Load_attr BPF_PROG_TYPE_XDP 0 (Some [120]) [BPF_MOV64_IMM 0 2; BPF_EXIT_INSN] [71; 80; 76; 0] 0 0 0 0 None 0 0 None 0 0 0.
Lemma load_program_asks_witness : exists c s', bpf_load_program_xattr demo_load true 64 table_state = Some ((3, c), s') /\
  fds (b_sys s') = [3; 0; 1; 2] /\ exists a, asks (BK := table_kernel) demo_load a /\ granted a 3 (b_k s').
Proof.
  destruct (load_program_asks (BO := table_kernel_ok) demo_load true 64 table_state) as (r & c & s' & E & HP); [by left|by left|done|].
  pose proof E as E'. vm_compute in E'. injection E' as <- <- <-. eexists _, _. split; [exact E|]. split; [done|]. by destruct HP as [[_ ?]|[[=] _]].
Defined.
