(* ===== verification/CpuCount.v ===== *)
(** * The number of possible CPUs: [libbpf_num_possible_cpus] of libbpf/src/libbpf.c

    The function reads the list of possible CPUs, ranges between commas, adds up their sizes
    and keeps the sum in a static variable.  The theorem: when the file holds the text that the
    kernel prints for a list of ranges, the result is the number of CPUs in them if the text
    has fewer than 128 bytes, and -EOVERFLOW if it is longer.  The function of the same
    purpose in headers/bpf_util.h (StatsUser.v) reads only the first range, and only one
    that starts at CPU 0. *)

From S2P Require Import Prelude Params RedirectUser Os StatsUser BpfSys.
#[local] Open Scope Z_scope.
#[local] Open Scope prog_scope.

Definition EOVERFLOW : Z := 75.

(** One piece of the list: what it adds. *)
Definition scan_piece (piece : list Z) : option Z :=
  match sscanf_range piece with
  | Scan_eof | Scan0 => None
  | Scan1 start => Some (start - start + 1)
  | Scan2 start stop => Some (stop - start + 1)
  end.
(** The loop: [piece] are the bytes from [il], [rest] those from [ir], [tmp_cpus] is an int
    to which an unsigned number is added. *)
Fixpoint count_cpus (piece rest : list Z) (tmp_cpus : Z) : option Z :=
  match rest with
  | [] => n ← scan_piece piece; Some (s32 (tmp_cpus + n))
  | c :: rest =>
      if (c =? 44) || (c =? 0) then n ← scan_piece piece; count_cpus [] rest (s32 (tmp_cpus + n))
      else count_cpus (piece ++ [c]) rest tmp_cpus
  end.
Definition parse_cpus (text : list Z) : option Z :=
  n ← count_cpus [] text 0; if n <=? 0 then None else Some n.

Section Count.
Context {BK : BpfKernel}.
Abbreviation B := (M (bsys BK)).
Definition libbpf_num_possible_cpus : B Z :=
  let! cpus := gets b_cpus in
  if cpus >? 0 then ret cpus
  else
    let! fd := sys_open_path possible_path in
    if fd <? 0 then let! e := get_errno in ret (- e)
    else
      let! (len, buf) := sys_read fd 128 in
      sys_close fd ;;;
      let! e := get_errno in
      if len <=? 0 then ret (- (if len =? 0 then EINVAL else e))
      else if len =? 128 then ret (- EOVERFLOW)
      else match parse_cpus buf with
           | None => ret (- EINVAL)
           | Some n => modify (fun s => Bsys _ (b_k s) (b_sys s) n) ;;; ret n
           end.

(** ** What it does with the descriptors *)

Context {BO : BpfKernelOk BK}.
Definition cpus_post (s : bsys BK) (F : list Z) (r : Z) (s' : bsys BK) : Prop :=
  bhas s' F /\ frame (fun f => f ∈ F) (b_k s) (b_k s') /\ heap (b_sys s') = heap (b_sys s) /\ maps (b_sys s') = maps (b_sys s) /\ r <> 0 /\
  (0 < r -> b_cpus s' = r) /\ (r < 0 -> b_cpus s' = b_cpus s).
Lemma parse_cpus_pos text n : parse_cpus text = Some n -> 0 < n.
Proof. unfold parse_cpus. destruct (count_cpus [] text 0) as [m|]; cbn; [|done]. destruct (Z.leb_spec m 0); [done|]. intros [= <-]. lia. Qed.
Lemma wp_num_cpus s F : bhas s F -> (forall f, f ∈ F -> 0 <= f) -> wp libbpf_num_possible_cpus (cpus_post s F) s.
Proof using BO.
  intros HF HP. unfold libbpf_num_possible_cpus. apply wp_bind, wp_gets. destruct (Z.gtb_spec (b_cpus s) 0).
  { apply wp_ret. split; [done|]. split; [by apply frame_refl|]. split; [done|]. split; [done|]. split; [lia|]. split; [done|lia]. }
  apply wp_bind. eapply wp_open_path; [exact HF|intros fd s1 Hfd Hfr HF1 S1 F1|intros s1 HF1 S1 He F1].
  2: { cbn [Z.ltb Z.compare]. apply wp_bind, wp_gets. apply wp_ret. destruct S1 as (? & ? & ?). split; [done|]. split; [|split; [done|split; [done|split; [lia|split; [lia|done]]]]].
    eapply frame_mono; [exact F1|]. cbv beta. auto. }
  rewrite (proj2 (Z.ltb_ge _ _)) by lia. apply wp_bind.
  assert (Hrest : forall len buf s2, bhas s2 (fd :: F) -> same_sys s1 s2 -> frame (fun _ => True) (b_k s1) (b_k s2) -> (len = -1 -> 0 < errno (b_sys s2)) -> -1 <= len ->
    wp (sys_close fd ;;; let! e := get_errno in
        if len <=? 0 then ret (- (if len =? 0 then EINVAL else e)) else if len =? 128 then ret (- EOVERFLOW)
        else match parse_cpus buf with None => ret (- EINVAL) | Some n => modify (fun s => Bsys _ (b_k s) (b_sys s) n) ;;; ret n end)
       (cpus_post s F) s2).
  { intros len buf s2 HF2 S2 F2 He Hlen. apply wp_bind. eapply wp_close_fd; [exact HF2|].
    intros r s3 Hr HF3 S3 He3 He0 F3. rewrite filter_cons_False, filter_fresh in HF3 by tauto. apply wp_bind, wp_gets.
    assert (S3' : same_sys s s3) by (eapply same_sys_trans; [exact S1|]; by eapply same_sys_trans). destruct S3' as (G1 & G2 & G3).
    assert (Hfrm : frame (fun f => f ∈ F) (b_k s) (b_k s3)).
    { eapply frame_trans; [eapply frame_mono; [exact F1|]|eapply frame_trans; [eapply frame_mono; [exact F2|done]|eapply frame_mono; [exact F3|]]];
        cbv beta; intros f Hf ->; done. }
    destruct (Z.leb_spec len 0).
    - apply wp_ret. assert (0 < if len =? 0 then EINVAL else errno (b_sys s3)).
      { destruct (Z.eqb_spec len 0); [done|]. assert (len = -1) by lia. destruct Hr as [->| ->]; [rewrite He0 by done; auto|auto]. }
      split; [done|]. split; [done|]. split; [done|]. split; [done|]. split; [lia|]. split; [lia|done].
    - destruct (len =? 128); [apply wp_ret; by repeat (split; [done|])|]. destruct (parse_cpus buf) as [n|] eqn:En.
      + apply parse_cpus_pos in En. apply wp_bind, wp_modify, wp_ret. repeat (split; [done|]). split; [lia|]. split; [done|lia].
      + apply wp_ret. by repeat (split; [done|]). }
  eapply wp_read; [exact HF1|intros bytes s2 Hlen E HF2 S2 F2|intros bytes s2 HF2 S2 He2 F2]; cbv beta iota; apply Hrest; (done || lia).
Qed.
Lemma own_num_cpus s X (Q : Z -> bsys BK -> Prop) : own s X ->
  (forall r s', r <> 0 -> own s' X -> kept X s s' -> Q r s') -> wp libbpf_num_possible_cpus Q s.
Proof using BO.
  intros HO HQ. eapply wp_mono; [apply (wp_num_cpus s X); [apply HO|intros f; by apply (own_pos s)]|].
  intros r s' (HF & Hf & _ & _ & Hr & _). apply HQ; [done|split; [done|apply HO]|done].
Qed.
End Count.

(** ** Reading what is printed *)

Definition range_text (r : Z * Z) : list Z := if r.1 =? r.2 then dec_text 10 r.1 else dec_text 10 r.1 ++ 45 :: dec_text 10 r.2.
Fixpoint ranges_text (r : Z * Z) (rs : list (Z * Z)) : list Z :=
  match rs with [] => range_text r ++ [10] | r' :: rs => range_text r ++ 44 :: ranges_text r' rs end.
Definition range_ok (r : Z * Z) : Prop := 0 <= r.1 <= r.2 /\ r.2 < 4294967296.
Definition cpus_in (rs : list (Z * Z)) : Z := foldr (fun r n => r.2 - r.1 + 1 + n) 0 rs.

Lemma scan_dec_end n rest : 0 <= n < 4294967296 -> match rest with c :: _ => is_digit c = false | [] => True end ->
  scan_u (dec_text 10 n ++ rest) = inr (n, rest).
Proof.
  intros Hn Hr. destruct (dec_text_head 9 n) as (c & t & E & Hc); [lia|].
  pose proof (dec_text_value 10 n ltac:(lia)) as Hv. pose proof (dec_text_digits 10 n ltac:(lia)) as Hd.
  pose proof (dec_digits_app _ Hd 0 rest) as Happ. rewrite Hv in Happ. cbn [fst] in Happ.
  assert (Hend : dec_digits n rest = (n, rest)) by (destruct rest; [done|cbn [dec_digits]; by rewrite Hr]). rewrite Hend in Happ.
  rewrite E in *. unfold scan_u. cbn [app drop_spaces]. assert (48 <= c <= 57) by (unfold is_digit in Hc; lia).
  replace (is_space c) with false by (unfold is_space; lia).
  replace (c =? 45) with false by lia. replace (c =? 43) with false by lia. cbn [orb]. rewrite Hc.
  cbn [app] in Happ. rewrite Happ. cbn. unfold ULONG_MAX. rewrite Z.min_l by lia. by rewrite u32_small by (int_unfold; lia).
Qed.
Lemma scan_range_text r rest : range_ok r -> match rest with c :: _ => is_digit c = false /\ c <> 45 | [] => True end ->
  scan_piece (range_text r ++ rest) = Some (r.2 - r.1 + 1).
Proof.
  destruct r as [a b]. intros [Hab Hb] Hr. cbn [fst snd] in *. unfold scan_piece, range_text, sscanf_range. cbn [fst snd].
  destruct (Z.eqb_spec a b) as [->|Hne].
  - rewrite scan_dec_end by (lia || (destruct rest; [done|apply Hr])). destruct rest as [|c rest]; cbn; [f_equal; lia|].
    destruct (Z.eqb_spec c 45); [by destruct Hr|]. done.
  - rewrite <- (assoc_L (++)). cbn [app]. rewrite scan_dec_end by (lia || done). cbn [Z.eqb Pos.eqb].
    rewrite scan_dec_end; [done|lia|]. destruct rest; [done|apply Hr].
Qed.
Definition plain (c : Z) : Prop := c <> 44 /\ c <> 0.
Lemma count_plain l : Forall plain l -> forall piece rest n, count_cpus piece (l ++ rest) n = count_cpus (piece ++ l) rest n.
Proof.
  induction 1 as [|c l [H1 H2] _ IH]; intros piece rest n; [by rewrite app_nil_r|]. cbn [app count_cpus].
  rewrite (proj2 (Z.eqb_neq c 44)), (proj2 (Z.eqb_neq c 0)) by done. cbn [orb]. rewrite IH. by rewrite <- (assoc_L (++)).
Qed.
Lemma range_plain r : range_ok r -> Forall plain (range_text r).
Proof.
  intros [H1 H2]. assert (Hd : forall n, 0 <= n -> Forall plain (dec_text 10 n)).
  { intros n Hn. apply (list.Forall_impl (fun b => is_digit b = true)); [by apply dec_text_digits|]. intros c Hc. unfold is_digit in Hc. unfold plain. lia. }
  unfold range_text. destruct (_ =? _); [apply Hd; lia|]. apply Forall_app. split; [apply Hd; lia|]. apply List.Forall_cons; [done|]. apply Hd. lia.
Qed.
Lemma cpus_in_pos rs : Forall range_ok rs -> 0 <= cpus_in rs.
Proof. induction 1 as [|r rs [H1 H2] _ IH]; cbn; [done|]. unfold cpus_in in IH. lia. Qed.
Lemma count_ranges : forall rs r n, Forall range_ok (r :: rs) -> 0 <= n -> n + cpus_in (r :: rs) < 2147483648 ->
  count_cpus [] (ranges_text r rs) n = Some (n + cpus_in (r :: rs)).
Proof.
  induction rs as [|r' rs IH]; intros r n Hok Hn Hb; inversion Hok as [|? ? Hr Hrs]; subst; cbn [ranges_text].
  - rewrite count_plain by by apply range_plain. cbn [app count_cpus Z.eqb Pos.eqb orb]. rewrite scan_range_text by done.
    cbn [mbind option_bind]. unfold cpus_in in *. cbn [foldr] in *. rewrite s32_small by (destruct Hr; lia). f_equal. lia.
  - rewrite count_plain by by apply range_plain. cbn [app count_cpus Z.eqb Pos.eqb orb].
    rewrite <- (app_nil_r (range_text r)), scan_range_text by done. cbn [mbind option_bind].
    assert (E : cpus_in (r :: r' :: rs) = r.2 - r.1 + 1 + cpus_in (r' :: rs)) by done. rewrite E in *.
    pose proof (cpus_in_pos _ Hrs). destruct Hr as [Hr1 Hr2]. rewrite s32_small by lia. rewrite IH by (done || lia). f_equal. lia.
Qed.

Lemma parse_ranges r rs : Forall range_ok (r :: rs) -> cpus_in (r :: rs) < 2147483648 ->
  parse_cpus (ranges_text r rs) = Some (cpus_in (r :: rs)) /\ 0 < cpus_in (r :: rs) /\ 0 < lenZ (ranges_text r rs).
Proof.
  intros Hok Hb. assert (Hpos : 0 < cpus_in (r :: rs)).
  { inversion Hok as [|? ? [Hr1 Hr2] Hrs]; subst. pose proof (cpus_in_pos _ Hrs). unfold cpus_in in *. cbn [foldr] in *. lia. }
  split; [|split; [done|]].
  - unfold parse_cpus. rewrite count_ranges by (done || lia). cbn [mbind option_bind]. rewrite Z.add_0_l. by rewrite (proj2 (Z.leb_gt _ _)).
  - destruct rs; cbn [ranges_text]; rewrite length_app; cbn [length]; lia.
Qed.
(** The file of the possible CPUs holds [text]: it can be opened, and a read of 128 bytes
    returns the first 128 bytes of it, or all if there are fewer. *)
Definition shows_text `{BK : BpfKernel} (s : bsys BK) (text : list Z) : Prop :=
  let '(fd, k1) := k_open (b_k s) (fds (b_sys s)) possible_path in
  let '((n, bytes), _) := k_read k1 fd 128 in 0 <= fd /\ bytes = take 128 text /\ n = lenZ bytes.

(** C20: round trip with the kernel's text.  Take any list of ranges of CPUs, one at least and
    with fewer than 2^31 CPUs in all, and a kernel whose file of possible CPUs can be read and
    holds the text "a-b,c,d-e" of the list.  The first call of [libbpf_num_possible_cpus]
    returns the number of CPUs in the list if the text has fewer than 128 bytes, and then every
    later call returns it too, without a system call; for a longer text it returns -EOVERFLOW
    and remembers nothing.  The descriptors are as before. *)
Theorem possible_cpus_counted `{BO : BpfKernelOk} (r : Z * Z) (rs : list (Z * Z)) (s : bsys BK) :
  Forall range_ok (r :: rs) -> cpus_in (r :: rs) < 2147483648 -> b_cpus s <= 0 -> shows_text s (ranges_text r rs) ->
  exists n s', libbpf_num_possible_cpus s = Some (n, s') /\ fds (b_sys s') = fds (b_sys s) /\
    (lenZ (ranges_text r rs) < 128 -> n = cpus_in (r :: rs) /\ libbpf_num_possible_cpus s' = Some (n, s')) /\
    (128 <= lenZ (ranges_text r rs) -> n = - EOVERFLOW /\ b_cpus s' = b_cpus s).
Proof.
  intros Hok Hb Hc Hs. destruct (parse_ranges r rs Hok Hb) as (Ep & Hpos & Hlen). unfold shows_text in Hs.
  destruct (k_open (b_k s) (fds (b_sys s)) possible_path) as [fd k1] eqn:Eo. destruct (k_read k1 fd 128) as [[m bytes] k2] eqn:Er.
  destruct Hs as (Hfd & -> & ->). destruct (open_new _ _ _ _ _ Eo) as [Hfr _]. specialize (Hfr Hfd).
  destruct (k_close k2 fd) as [q k3] eqn:Ec.
  assert (Hf : filter (fun x => x <> fd) (fd :: fds (b_sys s)) = fds (b_sys s)) by (rewrite filter_cons_False by tauto; by apply filter_fresh).
  assert (H128 : 0 < lenZ (take 128 (ranges_text r rs))) by (rewrite length_take; lia).
  assert (Hrun : exists s3, fds (b_sys s3) = fds (b_sys s) /\ b_cpus s3 = b_cpus s /\ libbpf_num_possible_cpus s =
    (if lenZ (take 128 (ranges_text r rs)) =? 128 then ret (- EOVERFLOW)
     else match parse_cpus (take 128 (ranges_text r rs)) with
          | None => ret (- EINVAL) | Some n => modify (fun s => Bsys _ (b_k s) (b_sys s) n) ;;; ret n end) s3).
  { unfold libbpf_num_possible_cpus, bind, gets. rewrite Z.gtb_ltb, (proj2 (Z.ltb_ge _ _)) by done.
    unfold sys_open_path. rewrite Eo. unfold finish. rewrite !(proj2 (Z.ltb_ge fd _)) by done.
    unfold sys_read. cbn [b_k]. rewrite Er. unfold finish. rewrite (proj2 (Z.ltb_ge (lenZ _) _)) by lia.
    unfold sys_close. cbn [b_k b_sys fds with_fds with_errno b_cpus]. rewrite Ec, Hf. unfold finish, get_errno, gets.
    destruct (q <? 0); cbn [b_sys]; rewrite (proj2 (Z.leb_gt _ _)) by done; (eexists; split; [|split]; [| |reflexivity]); done. }
  destruct Hrun as (s3 & F3 & C3 & ->). destruct (Z.eqb_spec (lenZ (take 128 (ranges_text r rs))) 128) as [E|E]; rewrite length_take in E.
  - eexists _, _. split; [reflexivity|]. split; [done|]. split; [lia|done].
  - rewrite take_ge, Ep by lia. eexists _, _. split; [reflexivity|]. split; [done|]. split; [|lia]. intros _. split; [done|].
    unfold libbpf_num_possible_cpus, bind, gets. cbn [b_cpus]. by rewrite Z.gtb_ltb, (proj2 (Z.ltb_lt _ _)).
Qed.
(** A kernel with CPUs 0 to 3. *)
Lemma possible_cpus_counted_witness : exists s', libbpf_num_possible_cpus table_state = Some (4, s') /\ fds (b_sys s') = [0; 1; 2] /\
  libbpf_num_possible_cpus s' = Some (4, s').
Proof.
  destruct (possible_cpus_counted (BO := table_kernel_ok) (0, 3) [] table_state) as (n & s' & E & F & H & _); [|done|done|done|].
  - apply List.Forall_cons; [done|apply List.Forall_nil].
  - destruct H as [-> H]; [done|]. exists s'. split; [exact E|]. split; [exact F|exact H].
Defined.
(** "0-3,5,8-11": this function adds up the ranges, headers/bpf_util.h reads the first only. *)
Lemma first_range_only : parse_cpus [48; 45; 51; 44; 53; 44; 56; 45; 49; 49; 10] = Some 9 /\
  sscanf_range [48; 45; 51; 44; 53; 44; 56; 45; 49; 49; 10] = Scan2 0 3.
Proof. done. Qed.
