(* ===== verification/ObjMaps.v ===== *)
(** * The maps of an object: libbpf/src/libbpf.c, libbpf/src/btf.c

    Creating the maps of an object, or taking over a map that is pinned or that the caller
    has: [bpf_map__reuse_fd], [bpf_object__reuse_map], [bpf_object__populate_internal_map],
    [bpf_object__create_maps] with the search for type information.  The rules at the end
    follow every descriptor and every pin, on all paths; ObjLoad.v uses them. *)

From S2P Require Import Prelude Params Nlattr Netlink ProgLinfo BpfProg Os Btf BtfExt Object RedirectUser Pinning BpfSys CpuCount.
#[local] Open Scope Z_scope.
#[local] Open Scope prog_scope.

(** ** Type information of a map *)

(** "____btf_map_" *)
Definition container_prefix : list Z := [95; 95; 95; 95; 98; 116; 102; 95; 109; 97; 112; 95].
(** The result and the two type ids. *)
Definition btf__get_map_kv_tids (b : btf) (map_name : list Z) (expected_key_size expected_value_size : Z) : option (Z * Z * Z) :=
  let max_name := 256 in
  let text := container_prefix ++ map_name in
  if lenZ text =? max_name then Some (- EINVAL, 0, 0)
  else
    container_id ← btf__find_by_name b (take 255 text);
    if container_id <? 0 then Some (container_id, 0, 0)
    else
      container_type ← btf__type_by_id b container_id;
      match container_type with
      | None => Some (- EINVAL, 0, 0)
      | Some None => (** [btf_void], a kind of 0 *) Some (- EINVAL, 0, 0)
      | Some (Some t) =>
          kind ← btf_kind (bt_data b) t;
          vlen ← btf_vlen (bt_data b) t;
          if negb (kind =? BTF_KIND_STRUCT) || (vlen <? 2) then Some (- EINVAL, 0, 0)
          else
            key ← word_of (bt_data b) (t + 12 + 4);
            value ← word_of (bt_data b) (t + 12 + 16);
            key_size ← btf__resolve_size b key;
            if key_size <? 0 then Some (s32 key_size, 0, 0)
            else if negb (expected_key_size =? key_size) then Some (- EINVAL, 0, 0)
            else
              value_size ← btf__resolve_size b value;
              if value_size <? 0 then Some (s32 value_size, 0, 0)
              else if negb (expected_value_size =? value_size) then Some (- EINVAL, 0, 0)
              else Some (0, key, value)
      end.
(** ".data", ".bss" and ".rodata" *)
Definition libbpf_type_to_btf_name (t : libbpf_map_type) : option (list Z) :=
  match t with
  | LIBBPF_MAP_UNSPEC => None
  | LIBBPF_MAP_DATA => Some [46; 100; 97; 116; 97]
  | LIBBPF_MAP_BSS => Some [46; 98; 115; 115]
  | LIBBPF_MAP_RODATA => Some [46; 114; 111; 100; 97; 116; 97]
  end.
Definition bpf_map_find_btf_info (o : bpf_object) (b : btf) (m : bpf_map) : option (Z * bpf_map) :=
  if m_sec_idx m =? o_btf_maps_shndx o then Some (0, m)
  else if negb (bpf_map__is_internal m) then
    '(res, k, v) ← btf__get_map_kv_tids b (m_name m) (d_key_size (m_def m)) (d_value_size (m_def m));
    Some (if res <? 0 then (res, m) else (0, set_btf_ids m k v))
  else
    name ← libbpf_type_to_btf_name (m_type m);
    res ← btf__find_by_name b name;
    Some (if res <? 0 then (res, m) else (0, set_btf_ids m 0 res)).

(** ** What the kernel tells of a map *)

Definition sizeof_bpf_map_info : Z := 80.
Record bpf_map_info := Map_info { mi_def : bpf_map_def; mi_name : list Z; mi_btf_key : Z; mi_btf_value : Z }.
(** The structure is zeroed before the kernel writes [out] to it. *)
Definition map_info_of (out : list Z) : option bpf_map_info :=
  let buf := take 80 (out ++ replicate 80 0) in
  type ← word_of buf 0; key_size ← word_of buf 8; value_size ← word_of buf 12; max_entries ← word_of buf 16; map_flags ← word_of buf 20;
  name ← c_str (drop 24 buf); btf_key ← word_of buf 68; btf_value ← word_of buf 72;
  Some (Map_info (Bpf_map_def type key_size value_size max_entries map_flags) name btf_key btf_value).
#[export] Instance bpf_map_def_eq_dec : EqDecision bpf_map_def.
Proof. solve_decision. Defined.

Section Maps.
Context {BK : BpfKernel}.
Abbreviation B := (M (bsys BK)).

Definition map_is_reuse_compat (m : bpf_map) (map_fd : Z) : B bool :=
  let! (r, out, _) := bpf_obj_get_info_by_fd map_fd sizeof_bpf_map_info in
  if negb (r =? 0) then ret false
  else let! info := deref (map_info_of out) in ret (bool_decide (mi_def info = m_def m)).
(** The map takes over what the descriptor stands for. *)
Definition take_over (m : bpf_map) (fd : Z) (i : bpf_map_info) : bpf_map :=
  Bpf_map (mi_name i) fd (m_pin_path m) (m_pinned m) true (m_sec_idx m) (m_sec_offset m) (m_ifindex m) (m_inner_map_fd m)
    (mi_def i) (mi_btf_key i) (mi_btf_value i) (m_type m).
Definition bpf_map__reuse_fd (m : bpf_map) (fd : Z) : B (Z * bpf_map) :=
  let! (err, out, _) := bpf_obj_get_info_by_fd fd sizeof_bpf_map_info in
  if negb (err =? 0) then ret (err, m)
  else
    let! info := deref (map_info_of out) in
    let! ok := malloc in
    if negb ok then let! e := get_errno in ret (- e, m)
    else
      let! new_fd := sys_open_path [slash] in
      if new_fd <? 0 then let! e := get_errno in ret (- e, m)
      else
        let! new_fd := dup3 fd new_fd in
        if new_fd <? 0 then let! e := get_errno in sys_close new_fd ;;; ret (- e, m)
        else
          let! err := zclose (m_fd m) in
          if negb (err =? 0) then let! e := get_errno in sys_close new_fd ;;; ret (- e, set_fd m (-1))
          else ret (0, take_over m new_fd info).
Definition bpf_object__reuse_map (m : bpf_map) : B (Z * bpf_map) :=
  let! pin_path := deref (m_pin_path m) in
  let! pin_fd := bpf_obj_get pin_path in
  if pin_fd <? 0 then let! e := get_errno in if - e =? - ENOENT then ret (0, m) else ret (- e, m)
  else
    let! compat := map_is_reuse_compat m pin_fd in
    if negb compat then sys_close pin_fd ;;; ret (- EINVAL, m)
    else
      let! (err, m) := bpf_map__reuse_fd m pin_fd in
      if negb (err =? 0) then sys_close pin_fd ;;; ret (err, m) else ret (0, set_pinned m true).

(** ** Creating the maps *)

Definition bpf_object__populate_internal_map (o : bpf_object) (m : bpf_map) : B Z :=
  if bool_decide (m_type m = LIBBPF_MAP_BSS) then ret 0
  else
    let! data := deref (if bool_decide (m_type m = LIBBPF_MAP_DATA) then o_data o else o_rodata o) in
    let! err := bpf_map_update_elem (m_fd m) [0; 0; 0; 0] data 0 in
    if (err =? 0) && bool_decide (m_type m = LIBBPF_MAP_RODATA) then bpf_map_freeze (m_fd m) ;;; ret 0 else ret err.

(** How a turn of the loop over the maps ends: with the next turn, with [return err], or at
    [err_out].  [inner] is [create_attr.inner_map_fd], which is never reset. *)
Inductive turn :=
  | Next (m : bpf_map) (inner nr_cpus : Z)
  | Leave (err : Z) (m : bpf_map)
  | Err_out (err : Z) (m : bpf_map).
Definition create_attr (o : bpf_object) (m : bpf_map) (max_entries inner btf_fd key value : Z) : bpf_create_map_attr :=
  let d := m_def m in
  Create_attr (if cap_name (o_caps o) then Some (m_name m) else None) (d_type d) (d_map_flags d) (d_key_size d) (d_value_size d) max_entries 0
    (u32 btf_fd) key value (m_ifindex m) inner.
(** The type information for a new map: descriptor and ids, zeroes without. *)
Definition map_btf (o : bpf_object) (m : bpf_map) : option (bpf_map * (Z * Z * Z)) :=
  match o_btf o with
  | None => Some (m, (0, 0, 0))
  | Some (b, fd) =>
      '(res, m) ← bpf_map_find_btf_info o b m;
      Some (m, if res =? 0 then (fd, m_btf_key m, m_btf_value m) else (0, 0, 0))
  end.
(** The attempt with type information and, when it had some and failed, the one without. *)
Definition create_map_fd (attr : Z -> Z -> Z -> bpf_create_map_attr) (m : bpf_map) (ids : Z * Z * Z) : B bpf_map :=
  let '(btf_fd, key, value) := ids in
  let! fd := bpf_create_map_xattr (attr btf_fd key value) in
  if (fd <? 0) && (negb (key =? 0) || negb (value =? 0)) then
    let! fd := bpf_create_map_xattr (attr 0 0 0) in ret (set_fd (set_btf_ids m 0 0) fd)
  else ret (set_fd m fd).
(** The end of a turn: filling internal maps, and the pin. *)
Definition finish_map (o : bpf_object) (m : bpf_map) (inner nr_cpus : Z) : B turn :=
  let! err := if bpf_map__is_internal m then bpf_object__populate_internal_map o m else ret 0 in
  if err <? 0 then zclose (m_fd m) ;;; ret (Err_out err (set_fd m (-1)))
  else if match m_pin_path m with Some _ => negb (m_pinned m) | None => false end then
    let! (err, m) := on_fs (bpf_map__pin m None) in
    ret (if negb (err =? 0) then Leave err m else Next m inner nr_cpus)
  else ret (Next m inner nr_cpus).
(** A map without a descriptor: the sizes of perf event arrays, and the map itself. *)
Definition sized_by_cpus (m : bpf_map) : bool := (d_type (m_def m) =? BPF_MAP_TYPE_PERF_EVENT_ARRAY) && (d_max_entries (m_def m) =? 0).
Definition create_new (o : bpf_object) (m : bpf_map) (inner nr_cpus : Z) : B turn :=
  let d := m_def m in
  let max_entries := if sized_by_cpus m then nr_cpus else d_max_entries d in
  let inner := if bpf_map_type__is_map_in_map (d_type d) && (m_inner_map_fd m >=? 0) then m_inner_map_fd m else inner in
  let! (m, ids) := deref (map_btf o m) in
  let! m := create_map_fd (create_attr o m max_entries inner) m ids in
  if m_fd m <? 0 then let! e := get_errno in ret (Err_out (- e) m)
  else finish_map o m inner nr_cpus.
Definition make_map (o : bpf_object) (m : bpf_map) (inner nr_cpus : Z) : B turn :=
  let! nr_cpus := if sized_by_cpus m && (nr_cpus =? 0) then libbpf_num_possible_cpus else ret nr_cpus in
  if sized_by_cpus m && (nr_cpus <? 0) then ret (Err_out nr_cpus m) else create_new o m inner nr_cpus.
Definition create_map (o : bpf_object) (m : bpf_map) (inner nr_cpus : Z) : B turn :=
  let! (err, m) := match m_pin_path m with None => ret (0, m) | Some _ => bpf_object__reuse_map m end in
  if negb (err =? 0) then ret (Leave err m)
  else if m_fd m >=? 0 then ret (Next m inner nr_cpus)
  else make_map o m inner nr_cpus.

(** [zclose] on the descriptor of every map. *)
Fixpoint close_maps (l : list bpf_map) : B (list bpf_map) :=
  match l with
  | [] => ret []
  | m :: l => zclose (m_fd m) ;;; let! l := close_maps l in ret (set_fd m (-1) :: l)
  end.
(** The maps before the current one are in reverse order. *)
Fixpoint create_loop (o : bpf_object) (done rest : list bpf_map) (inner nr_cpus : Z) : B (Z * list bpf_map) :=
  match rest with
  | [] => ret (0, reverse done)
  | m :: rest =>
      let! t := create_map o m inner nr_cpus in
      match t with
      | Next m inner nr_cpus => create_loop o (m :: done) rest inner nr_cpus
      | Leave err m => ret (err, reverse done ++ m :: rest)
      | Err_out err m => let! l := close_maps (reverse done) in ret (err, l ++ m :: rest)
      end
  end.
Definition bpf_object__create_maps (o : bpf_object) : B (Z * bpf_object) :=
  let! (err, l) := create_loop o [] (o_maps o) 0 0 in ret (err, with_maps o l).
End Maps.

(** ** Type information is read in bounds *)

(** The errors of [btf__resolve_size]. *)
Definition size_code (r : Z) : Prop := 0 <= r \/ r = - EINVAL \/ r = - E2BIG.
Lemma resolve_done_code size nelems : 0 <= nelems -> size_code (resolve_done size nelems).
Proof.
  intros Hn. unfold resolve_done. destruct (Z.ltb_spec size 0); [right; by left|]. destruct (_ && _)%bool; [right; by right|]. left. lia.
Qed.
Lemma resolve_size_code b : forall n t nelems r, 0 <= nelems -> resolve_size_loop b n t nelems = Some r -> size_code r.
Proof.
  induction n as [|n IH]; intros t nelems r Hn E; cbn [resolve_size_loop] in E; [injection E as <-; by apply resolve_done_code|].
  destruct (btf_type_is_void_or_null b t) as [void|]; [|done]. cbn [mbind option_bind] in E.
  destruct t as [[t|]|]; [|injection E as <-; by apply resolve_done_code..]. destruct void; [injection E as <-; by apply resolve_done_code|].
  destruct (btf_kind (bt_data b) t) as [kind|]; [|done]. cbn [mbind option_bind] in E.
  destruct (is_kind kind _).
  { destruct (size_or_type (bt_data b) t); [|done]. injection E as <-. by apply resolve_done_code. }
  destruct (kind =? BTF_KIND_PTR); [injection E as <-; by apply resolve_done_code|]. destruct (is_kind kind _).
  { destruct (size_or_type (bt_data b) t) as [id|]; [|done]. cbn [mbind option_bind] in E. destruct (btf__type_by_id b id); [|done]. by eapply IH. }
  destruct (kind =? BTF_KIND_ARRAY); [|injection E as <-; right; by left].
  destruct (array_nelems (bt_data b) t) as [an|]; [|done]. cbn [mbind option_bind] in E. destruct (_ && _)%bool; [injection E as <-; right; by right|].
  destruct (array_type (bt_data b) t) as [id|]; [|done]. cbn [mbind option_bind] in E. destruct (btf__type_by_id b id); [|done].
  eapply IH; [|exact E]. apply Z.mod_pos_bound. done.
Qed.
Lemma size_code_neg r : size_code r -> r < 0 -> s32 r <> 0.
Proof. intros [|[->| ->]]; [lia|done..]. Qed.

Definition btf_good (b : btf) : Prop := exists ts strs, image_ok ts strs /\ parsed ts strs b.
Section Tids.
Context (b : btf) (ts : list ty) (strs : list Z) (IO : image_ok ts strs) (PB : parsed ts strs b).
Lemma find_total nm : exists r, btf__find_by_name b nm = Some r /\ (r < 0 \/ nm = void_name \/ exists t, type_at ts r t /\ name_of strs t = Some nm).
Proof using IO PB.
  unfold btf__find_by_name. case_bool_decide as E; [exists 0; auto|].
  destruct (find_name_spec ts strs b IO PB nm (Z.to_nat (nr_types b)) 1) as (r & -> & Hr); [done|destruct PB as (_ & _ & -> & _); lia|].
  exists r. split; [done|]. destruct Hr as [[-> _]|(_ & Hex & _)]; [by left|right; by right].
Qed.
Lemma size_total id : 0 <= id -> exists r, btf__resolve_size b id = Some r /\ size_code r /\ size_result ts MAX_RESOLVE_DEPTH id 1 r.
Proof using IO PB.
  intros Hid. destruct (size_loop ts strs b IO PB MAX_RESOLVE_DEPTH id 1 Hid ltac:(by unfold UINT32_MAX)) as (t & r & E1 & E2 & Hr).
  exists r. unfold btf__resolve_size. rewrite E1. split; [done|]. split; [by eapply (resolve_size_code b _ t 1)|done].
Qed.
(** The types of the first two members of a structure. *)
Lemma members_total t pre rest : ty_ok t -> bt_data b = pre ++ encode_ty t ++ rest -> ty_kind t = BTF_KIND_STRUCT -> 2 <= ty_vlen t ->
  exists k v, word_of (bt_data b) (lenZ pre + 12 + 4) = Some k /\ word_of (bt_data b) (lenZ pre + 12 + 16) = Some v /\ 0 <= k /\ 0 <= v /\
    word_of (ty_rest t) 4 = Some k /\ word_of (ty_rest t) 16 = Some v.
Proof.
  intros Hok E Hk Hv. pose proof Hok as (_ & _ & _ & Hu & Hr). rewrite Hk in Hr. injection Hr as Hr.
  destruct (word_in (ty_rest t) 4 Hu) as (k & Ek & Hbk); [lia..|]. destruct (word_in (ty_rest t) 16 Hu) as (v & Ev & Hbv); [lia..|].
  unfold is_u32 in *. exists k, v. split; [rewrite E; by apply field_rest|]. split; [rewrite E; by apply field_rest|]. split; [lia|]. split; [lia|done].
Qed.
(** The search ends; with 0 the ids are the types of the first two members of a structure
    with the name of the map, and their sizes are the ones asked for. *)
Lemma kv_tids_spec nm ek ev : exists r k v, btf__get_map_kv_tids b nm ek ev = Some (r, k, v) /\
  (r = 0 -> exists id t, type_at ts id t /\ ty_kind t = BTF_KIND_STRUCT /\ name_of strs t = Some (take 255 (container_prefix ++ nm)) /\
    word_of (ty_rest t) 4 = Some k /\ word_of (ty_rest t) 16 = Some v /\
    size_in ts MAX_RESOLVE_DEPTH k ek /\ size_in ts MAX_RESOLVE_DEPTH v ev).
Proof using IO PB.
  unfold btf__get_map_kv_tids. destruct (Z.eqb_spec (lenZ (container_prefix ++ nm)) 256); [by eexists _, _, _|].
  destruct (find_total (take 255 (container_prefix ++ nm))) as (id & -> & Hid). cbn [mbind option_bind].
  destruct (Z.ltb_spec id 0); [eexists _, _, _; split; [done|lia]|]. destruct Hid as [|[Hv|(t & Ht & Hnm)]]; [lia|by destruct nm|].
  destruct (type_record ts strs b IO PB id t Ht) as (pre & rest & Hok & Eb & ->). cbn [mbind option_bind].
  assert (Fk : btf_kind (bt_data b) (lenZ pre) = Some (ty_kind t)) by (rewrite Eb; by apply field_kind).
  assert (Fv : btf_vlen (bt_data b) (lenZ pre) = Some (ty_vlen t)) by (unfold btf_vlen; rewrite Eb; rewrite field_info; done).
  rewrite Fk, Fv. cbn [mbind option_bind]. destruct (_ || _)%bool eqn:Es; [by eexists _, _, _|]. bool_prop.
  destruct (members_total t pre rest Hok Eb ltac:(lia) ltac:(lia)) as (k & v & -> & -> & Hk & Hv & Wk & Wv). cbn [mbind option_bind].
  destruct (size_total k Hk) as (ks & -> & Ck & Sk & _). cbn [mbind option_bind]. destruct (Z.ltb_spec ks 0) as [Hn|Hn].
  { eexists _, _, _. split; [done|]. intros E. by destruct (size_code_neg _ ltac:(eassumption) ltac:(eassumption) E). }
  destruct (Z.eqb_spec ek ks) as [->|]; cbn [negb]; [|by eexists _, _, _].
  destruct (size_total v Hv) as (vs & -> & Cv & Sv & _). cbn [mbind option_bind]. destruct (Z.ltb_spec vs 0) as [Hn'|Hn'].
  { eexists _, _, _. split; [done|]. intros E. by destruct (size_code_neg _ ltac:(eassumption) ltac:(eassumption) E). }
  destruct (Z.eqb_spec ev vs) as [->|]; cbn [negb]; [|by eexists _, _, _].
  destruct (Sk Hn) as (km & Hkm & -> & _). destruct (Sv Hn') as (vm & Hvm & -> & _). rewrite !Z.mul_1_l in *.
  eexists _, _, _. split; [done|]. intros _. exists id, t. split; [done|]. split; [lia|]. done.
Qed.
End Tids.

(** ** Rules *)

Lemma c_str_zero l i : l !! i = Some 0 -> exists s, c_str l = Some s.
Proof.
  revert i. induction l as [|x l IH]; intros i Hi; [done|]. cbn [c_str]. destruct i as [|i]; [injection Hi as ->; by exists []|].
  destruct (IH i Hi) as [s ->]. destruct x; by eexists.
Qed.
Lemma info_total out : Forall is_u8 out -> getZ out 39 = 0 -> exists i, map_info_of out = Some i.
Proof.
  intros Hu H0. unfold map_info_of. set (buf := take 80 (out ++ replicate 80 0)).
  assert (Hb : Forall is_u8 buf). { apply Forall_take, Forall_app. split; [done|]. by apply list.Forall_replicate. }
  assert (Hl : lenZ buf = 80) by (unfold buf; rewrite length_take, length_app, length_replicate; lia).
  assert (Hw : forall p, 0 <= p -> p + 4 <= 80 -> exists w, word_of buf p = Some w) by (intros p ? ?; destruct (word_in buf p Hb) as (w & Ew & _); [lia..|by exists w]).
  destruct (Hw 0) as [w0 ->]; [lia..|]. destruct (Hw 8) as [w1 ->]; [lia..|]. destruct (Hw 12) as [w2 ->]; [lia..|].
  destruct (Hw 16) as [w3 ->]; [lia..|]. destruct (Hw 20) as [w4 ->]; [lia..|]. destruct (Hw 68) as [w5 ->]; [lia..|]. destruct (Hw 72) as [w6 ->]; [lia..|].
  destruct (c_str_zero (drop 24 buf) 15) as [s ->]; [|by eexists]. rewrite lookup_drop. unfold buf. rewrite lookup_take_lt by lia. cbn [Nat.add].
  destruct (decide (length out <= 39)%nat).
  - rewrite lookup_app_r by done. apply lookup_replicate_2. lia.
  - rewrite lookup_app_l by lia. unfold getZ in H0. change (Z.to_nat 39) with 39%nat in H0.
    destruct (lookup_lt_is_Some_2 out 39) as [x Hx]; [lia|]. rewrite Hx. f_equal. apply nth_lookup_Some with (d := 0) in Hx. congruence.
Qed.

Section MapRules.
Context {BK : BpfKernel} {BO : BpfKernelOk BK}.
Abbreviation B := (M (bsys BK)).

Lemma wp_info fd s X (Q : Z * list Z * Z -> bsys BK -> Prop) : own s X ->
  (forall out n i s', map_info_of out = Some i -> own s' X -> kept X s s' -> Q (0, out, n) s') ->
  (forall out n s', own s' X -> 0 < errno (b_sys s') -> kept X s s' -> Q (-1, out, n) s') ->
  wp (bpf_obj_get_info_by_fd fd sizeof_bpf_map_info) Q s.
Proof using BO.
  intros HO H1 H2. unfold bpf_obj_get_info_by_fd. apply wp_bind.
  eapply own_call; [exact HO|done|intros a' out s' E HO' HK|intros a' out s' HO' He HK]; cbv beta iota; apply wp_ret.
  - destruct (bpf_info_name _ _ _ _ _ _ _ E) as [Hu H0]. destruct (info_total out Hu H0) as [i Hi]. by eapply H1.
  - by eapply H2.
Qed.

(** What loading keeps of a map. *)
Definition same_place (m m' : bpf_map) : Prop := m_pin_path m' = m_pin_path m /\ m_type m' = m_type m.
(** At most [n] descriptors that nobody closes. *)
Definition lost (n : nat) (L : list Z) : Prop := (length L <= n)%nat.
(** The descriptor of the map and the others. *)
Definition reused_post (m : bpf_map) (fd : Z) (X : list Z) (s : bsys BK) (r : Z * bpf_map) (s' : bsys BK) : Prop :=
  let '(e, m') := r in
  kept X s s' /\
  if e =? 0 then exists i, m' = take_over m (m_fd m') i /\ own s' (m_fd m' :: X) /\ obj_of (b_k s') (m_fd m') = obj_of (b_k s) fd
  else m_pinned m' = m_pinned m /\ m_reused m' = m_reused m /\ same_place m m' /\
    exists L, lost 1 L /\ own s' (fd_list (m_fd m') ++ L ++ X).
Lemma wp_reuse_fd m fd s X : own s (fd_list (m_fd m) ++ X) -> fd ∈ X -> wp (bpf_map__reuse_fd m fd) (reused_post m fd X s) s.
Proof using BO.
  intros HO Hfd. set (Y := fd_list (m_fd m) ++ X) in *. assert (HX : forall f, f ∈ X -> f ∈ Y) by (intros f Hf; apply elem_of_app; by right).
  assert (Hsame : forall e s', e < 0 -> own s' Y -> kept Y s s' -> reused_post m fd X s (e, m) s').
  { intros e s' He HO' HK. split; [by eapply kept_sub|]. rewrite (proj2 (Z.eqb_neq _ _)) by lia. split; [done|]. split; [done|]. split; [done|].
    exists []. by split; [apply Nat.le_0_l|]. }
  unfold bpf_map__reuse_fd. apply wp_bind. eapply wp_info; [exact HO|intros out n i s1 Hi HO1 K1|intros out n s1 HO1 He K1]; cbv beta iota.
  2: { cbn [negb Z.eqb]. apply wp_ret, Hsame; (done || lia). }
  cbn [negb Z.eqb]. apply wp_bind. eapply wp_deref; [exact Hi|]. apply wp_bind. eapply own_malloc; [exact HO1|]. intros ok s2 HO2 K2 Hok.
  pose proof (kept_trans _ _ _ _ K1 K2) as K12. destruct ok; cbn [negb].
  2: { destruct (Hok eq_refl) as [He _]. apply wp_bind, wp_gets, wp_ret, Hsame; (done || lia). }
  apply wp_bind. eapply own_open; [exact HO2|intros nfd s3 HO3 K3|intros s3 HO3 He K3].
  2: { cbn [Z.ltb Z.compare]. apply wp_bind, wp_gets, wp_ret, Hsame; [lia|done|by eapply kept_trans]. }
  pose proof (kept_trans _ _ _ _ K12 K3) as K13. pose proof (own_pos _ _ nfd HO3 ltac:(by left)) as Hnfd. rewrite (proj2 (Z.ltb_ge _ _)) by lia.
  apply wp_bind. eapply own_dup3; [exact HO3|intros s4 HO4 Hob K4|intros s4 HO4 He K4].
  2: { cbn [Z.ltb Z.compare]. apply wp_bind, wp_gets, wp_bind. eapply own_close_neg; [exact HO4|done|]. intros r s5 HO5 K5. apply wp_ret.
       split; [eapply kept_sub; [|exact HX]; eapply kept_trans; [exact K13|]; eapply kept_trans; [exact K4|]; eapply kept_sub; [exact K5|by right]|].
       rewrite (proj2 (Z.eqb_neq _ _)) by lia. split; [done|]. split; [done|]. split; [done|]. exists [nfd]. split; [unfold lost; cbn; lia|].
       eapply own_proper; [|exact HO5]. unfold Y. by rewrite Permutation_middle. }
  rewrite (proj2 (Z.ltb_ge _ _)) by lia. pose proof (kept_trans _ _ _ _ K13 K4) as K14.
  assert (HO4' : own s4 (fd_list (m_fd m) ++ nfd :: X)) by (eapply own_proper; [|exact HO4]; unfold Y; by rewrite Permutation_middle).
  apply wp_bind. eapply own_zclose; [exact HO4'|]. intros r s5 Hr HO5 K5 He.
  assert (K15 : kept X s s5) by (eapply kept_trans; [eapply kept_sub; [exact K14|exact HX]|eapply kept_sub; [exact K5|by right]]).
  destruct Hr as [->| ->]; cbn [negb Z.eqb].
  - apply wp_ret. split; [done|]. cbn [Z.eqb]. exists i. split; [done|]. split; [done|]. cbn [take_over m_fd].
    destruct K5 as (_ & _ & Ho5). rewrite Ho5 by by left. rewrite Hob. destruct K13 as (_ & _ & Ho3). apply Ho3. auto.
  - apply wp_bind, wp_gets, wp_bind. specialize (He eq_refl). eapply own_close; [exact HO5|]. intros r s6 _ HO6 K6 _. apply wp_ret.
    split; [by eapply kept_trans|]. rewrite (proj2 (Z.eqb_neq _ _)) by lia. split; [done|]. split; [done|]. split; [done|].
    exists []. split; [apply Nat.le_0_l|]. done.
Qed.
Definition good_pin (k : pk) (m : bpf_map) : Prop :=
  forall p, m_pin_path m = Some p -> m_pinned m = true /\ pinned_at k p = Some (obj_of k (m_fd m)).
Lemma wp_reuse_map m p s X : own s (fd_list (m_fd m) ++ X) -> m_pin_path m = Some p -> m_pinned m = false ->
  wp (bpf_object__reuse_map m) (fun '(e, m') s' => kept X s s' /\ same_place m m' /\
    exists L, lost 1 L /\ own s' (fd_list (m_fd m') ++ L ++ X) /\
      (m' = m /\ L = [] \/ e <> 0 /\ m_pinned m' = false \/
       e = 0 /\ 0 <= m_fd m' /\ m_reused m' = true /\ good_pin (b_k s') m')) s.
Proof using BO.
  intros HO Hp Hn. set (Y := fd_list (m_fd m) ++ X) in *. assert (HX : forall f, f ∈ X -> f ∈ Y) by (intros f Hf; apply elem_of_app; by right).
  unfold bpf_object__reuse_map. apply wp_bind. eapply wp_deref; [exact Hp|]. apply wp_bind. unfold bpf_obj_get. apply wp_bind.
  eapply own_create; [exact HO|done|intros fd a' out s1 E HO1 K1|intros a' out s1 HO1 He K1]; cbv beta iota; apply wp_ret.
  2: { cbn [Z.ltb Z.compare]. apply wp_bind, wp_gets. destruct (- errno (b_sys s1) =? - ENOENT); apply wp_ret;
       (split; [by eapply kept_sub|]; split; [done|]; exists []; split; [apply Nat.le_0_l|]; split; [done|by left]). }
  pose proof (own_pos _ _ fd HO1 ltac:(by left)) as Hfd. rewrite (proj2 (Z.ltb_ge _ _)) by lia.
  pose proof (bpf_get_pinned _ _ _ _ _ _ _ E Hfd) as Hpin. apply wp_bind. unfold map_is_reuse_compat. apply wp_bind.
  assert (Hno : forall s2, own s2 (fd :: Y) -> kept (fd :: Y) s1 s2 -> wp (sys_close fd ;;; ret (- EINVAL, m)) (fun '(e, m') s' =>
    kept X s s' /\ same_place m m' /\ exists L, lost 1 L /\ own s' (fd_list (m_fd m') ++ L ++ X) /\
      (m' = m /\ L = [] \/ e <> 0 /\ m_pinned m' = false \/ e = 0 /\ 0 <= m_fd m' /\ m_reused m' = true /\ good_pin (b_k s') m')) s2).
  { intros s2 HO2 K2. apply wp_bind. eapply own_close; [exact HO2|]. intros r s3 _ HO3 K3 _. apply wp_ret. split.
    - eapply kept_sub; [|exact HX]. eapply kept_trans; [exact K1|]. eapply kept_trans; [eapply kept_sub; [exact K2|by right]|done].
    - split; [done|]. exists []. split; [apply Nat.le_0_l|]. split; [done|by left]. }
  eapply wp_info; [exact HO1|intros out' n i s2 Hi HO2 K2|intros out' n s2 HO2 He K2]; cbv beta iota; cbn [negb Z.eqb].
  2: { apply wp_ret. cbn [negb]. by apply Hno. }
  apply wp_bind. eapply wp_deref; [exact Hi|]. apply wp_ret. case_bool_decide; cbn [negb]; [|by apply Hno].
  assert (HO2' : own s2 (fd_list (m_fd m) ++ fd :: X)) by (eapply own_proper; [|exact HO2]; unfold Y; by rewrite Permutation_middle).
  apply wp_bind. eapply wp_mono; [apply (wp_reuse_fd m fd s2 (fd :: X) HO2' ltac:(by left))|].
  assert (K12 : kept X s s2) by (eapply kept_trans; [by eapply kept_sub|eapply kept_sub; [exact K2|]; intros f Hf; right; auto]).
  intros [e m'] s3 [K3 Hr]. assert (K13 : kept X s s3) by (eapply kept_trans; [exact K12|eapply kept_sub; [exact K3|by right]]).
  destruct (Z.eqb_spec e 0) as [->|Hne]; cbn [negb].
  - destruct Hr as (i' & Em & HO3 & Hob). apply wp_ret. split; [done|]. cbn [set_pinned m_fd].
    assert (Hpl : same_place m (set_pinned m' true)) by (rewrite Em; by split). split; [done|]. pose proof (own_pos _ _ (m_fd m') HO3 ltac:(by left)) as Hpos.
    exists [fd]. split; [unfold lost; cbn; lia|]. split; [unfold fd_list; replace (m_fd m' >=? 0) with true by lia; done|]. right. right.
    split; [done|]. split; [done|]. split; [by rewrite Em|]. intros q Hq. cbn in Hq. rewrite Em in Hq. cbn in Hq. split; [done|]. cbn [set_pinned m_fd].
    rewrite Hob. assert (q = p) by congruence. subst q. destruct K2 as (P2 & _ & O2). rewrite O2 by by left. rewrite <- Hpin.
    destruct K13 as (P3 & _ & _). apply P3.
  - destruct Hr as (H1 & H2 & Hpl & L & HL & HO3). assert (HO3' : own s3 (fd :: fd_list (m_fd m') ++ L ++ X)).
    { eapply own_proper; [|exact HO3]. rewrite !(assoc_L (++)). by rewrite Permutation_middle. }
    apply wp_bind. eapply own_close; [exact HO3'|]. intros r s4 _ HO4 K4 _. apply wp_ret. split.
    { eapply kept_trans; [exact K13|]. eapply kept_sub; [exact K4|]. intros f Hf. apply elem_of_app. right. apply elem_of_app. by right. }
    split; [done|]. exists L. split; [done|]. split; [done|]. right. left. split; [done|congruence].
Qed.

(** The kernel created a map for the request. *)
Definition map_granted (c : bpf_create_map_attr) (fd : Z) : Prop :=
  exists k F a' out k', k_bpf k F (MAP_CREATE (map_request c)) = ((fd, a', out), k').
Lemma wp_create_fd attr m ids s X : own s X ->
  wp (create_map_fd attr m ids) (fun m' s' => kept X s s' /\ own s' (fd_list (m_fd m') ++ X) /\ same_place m m' /\
    m_pinned m' = m_pinned m /\ m_reused m' = m_reused m /\ m_def m' = m_def m /\
    (m_fd m' < 0 -> 0 < errno (b_sys s')) /\ (0 <= m_fd m' -> exists b k v, map_granted (attr b k v) (m_fd m'))) s.
Proof using BO.
  intros HO. destruct ids as [[b k] v]. unfold create_map_fd, bpf_create_map_xattr. apply wp_bind, wp_bind.
  assert (Hok : forall fd a' out s0 s' c, k_bpf (b_k s0) (fds (b_sys s0)) (MAP_CREATE (map_request c)) = ((fd, a', out), b_k s') ->
    own s' (fd :: X) -> own s' (fd_list fd ++ X) /\ (fd < 0 -> 0 < errno (b_sys s')) /\ map_granted c fd).
  { intros fd a' out s0 s' c E HO'. pose proof (own_pos _ _ fd HO' ltac:(by left)). unfold fd_list. replace (fd >=? 0) with true by lia.
    split; [done|]. split; [lia|]. by eexists _, _, _, _, _. }
  eapply own_create; [exact HO|done|intros fd a' out s1 E HO1 K1|intros a' out s1 HO1 He K1]; cbv beta iota; apply wp_ret.
  { destruct (Hok _ _ _ _ _ _ E HO1) as (H1 & H2 & H3). pose proof (own_pos _ _ fd HO1 ltac:(by left)). rewrite (proj2 (Z.ltb_ge _ _)) by lia. apply wp_ret.
    repeat (split; [done|]). intros _. by exists b, k, v. }
  change (-1 <? 0) with true. cbn [andb]. destruct (_ || _)%bool; [|apply wp_ret; by repeat (split; [done|])].
  apply wp_bind, wp_bind. eapply own_create; [exact HO1|done|intros fd a2 out2 s2 E HO2 K2|intros a2 out2 s2 HO2 He2 K2]; cbv beta iota; apply wp_ret, wp_ret.
  - destruct (Hok _ _ _ _ _ _ E HO2) as (H1 & H2 & H3). split; [by eapply kept_trans|]. repeat (split; [done|]). intros _. by exists 0, 0, 0.
  - split; [by eapply kept_trans|]. by repeat (split; [done|]).
Qed.
Lemma wp_populate o m s X : own s X -> (m_type m = LIBBPF_MAP_DATA -> o_data o <> None) -> (m_type m = LIBBPF_MAP_RODATA -> o_rodata o <> None) ->
  bpf_map__is_internal m = true ->
  wp (bpf_object__populate_internal_map o m) (fun _ s' => own s' X /\ kept X s s') s.
Proof using BO.
  intros HO Hd Hr Hi. unfold bpf_object__populate_internal_map. case_bool_decide as Eb; [by apply wp_ret|].
  assert (Hdata : exists d, (if bool_decide (m_type m = LIBBPF_MAP_DATA) then o_data o else o_rodata o) = Some d).
  { apply negb_true_iff, bool_decide_eq_false in Hi. case_bool_decide as E1; [destruct (o_data o); [by eexists|by destruct Hd]|].
    destruct (o_rodata o); [by eexists|]. destruct (m_type m) eqn:Et; try done. by destruct Hr. }
  destruct Hdata as [d Ed]. apply wp_bind. eapply wp_deref; [exact Ed|]. apply wp_bind. unfold bpf_map_update_elem. apply wp_bind.
  assert (Hend : forall e s1, own s1 X -> kept X s s1 ->
    wp (if (e =? 0) && bool_decide (m_type m = LIBBPF_MAP_RODATA) then bpf_map_freeze (m_fd m) ;;; ret 0 else ret e) (fun _ s' => own s' X /\ kept X s s') s1).
  { intros e s1 HO1 K1. destruct (_ && _)%bool; [|by apply wp_ret]. unfold bpf_map_freeze. apply wp_bind, wp_bind.
    eapply own_call; [exact HO1|done|intros a' out s2 _ HO2 K2|intros a' out s2 HO2 _ K2]; cbv beta iota; apply wp_ret, wp_ret;
      (split; [done|by eapply kept_trans]). }
  eapply own_call; [exact HO|done|intros a' out s1 _ HO1 K1|intros a' out s1 HO1 _ K1]; cbv beta iota; apply wp_ret; by apply Hend.
Qed.

(** The pin that loading made for a map. *)
Definition auto (m : bpf_map) : option path := if m_pinned m && negb (m_reused m) then m_pin_path m else None.
(** What a turn for the map [m'] does to pins, file systems and the descriptors [X]. *)
Record pin_step (X : list Z) (k k' : pk) (m' : bpf_map) : Prop := {
  ps_obj : forall f, f ∈ X -> obj_of k' f = obj_of k f;
  ps_fs : forall d t, k_statfs k d = inr t -> k_statfs k' d = inr t;
  ps_pins : match auto m' with
            | None => forall q, pinned_at k' q = pinned_at k q
            | Some p => pinned_at k p = None /\ pinned_at k' p = Some (obj_of k' (m_fd m')) /\ k_statfs k' (dirname p) = inr BPF_FS_MAGIC /\
                        forall q, q <> p -> pinned_at k' q = pinned_at k q
            end
}.
Lemma pin_step_kept X s s' m : kept X s s' -> auto m = None -> pin_step X (b_k s) (b_k s') m.
Proof. intros (H1 & H2 & H3) Ha. split; [auto|intros d t; by rewrite H2|by rewrite Ha]. Qed.
Lemma pin_step_after X s s1 k' m : kept X s s1 -> pin_step X (b_k s1) k' m -> pin_step X (b_k s) k' m.
Proof.
  intros (H1 & H2 & H3) [P1 P2 P3]. split; [intros f Hf; rewrite P1 by done; auto|intros d t Hd; apply P2; by rewrite H2|].
  destruct (auto m) as [p|]; [|intros q; by rewrite P3]. rewrite <- H1. destruct P3 as (G1 & G2 & G3 & G4). repeat (split; [done|]).
  intros q Hq. by rewrite G4.
Qed.
(** Directories keep their file systems. *)
Lemma wp_pin_fs m p k : wp (pin_at m p) (fun _ k' => forall d t, k_statfs k d = inr t -> k_statfs k' d = inr t) k.
Proof using BO.
  unfold pin_at. apply wp_bind, wp_make_parent_dir. intros e1 k1 (_ & Q1 & _) _. destruct (negb (e1 =? 0)); [by apply wp_ret|].
  apply wp_bind, wp_check_path.
  - intros k2 (_ & Q2 & _) _. cbn [negb Z.eqb]. apply wp_bind, wp_lift.
    destruct (negb _); apply wp_ret; intros d t Hd; rewrite statfs_pin; auto.
  - intros e k2 (_ & Q2 & _) He _. rewrite (proj2 (Z.eqb_neq _ _)) by lia. cbn [negb]. apply wp_ret. auto.
Qed.
(** Pinning a new map. *)
Lemma wp_auto_pin m p s X : own s X -> m_pin_path m = Some p -> m_pinned m = false -> m_reused m = false ->
  wp (on_fs (bpf_map__pin m None)) (fun '(e, m') s' => own s' X /\ pin_step X (b_k s) (b_k s') m' /\ m_fd m' = m_fd m /\ same_place m m' /\
    m_reused m' = false /\ m_def m' = m_def m /\ (e = 0 -> good_pin (b_k s') m')) s.
Proof using BO.
  intros HO Hp Hn Hr. assert (T : truthful (obj_of (b_k s)) (b_k s) (b_k s) [m]).
  { apply truthful_start; [|done]. apply List.Forall_cons; [done|apply List.Forall_nil]. }
  assert (W : wp (bpf_map__pin m None) (fun '(e, m') k' => truthful (obj_of (b_k s)) (b_k s) k' [m'] /\ (m' = if e =? 0 then set_pinned m true else m) /\
    (forall d t, k_statfs (b_k s) d = inr t -> k_statfs k' d = inr t)) (b_k s)).
  { unfold bpf_map__pin. rewrite Hp, Hn. eapply wp_mono; [apply wp_conj; [by apply (wp_pin_at (obj_of (b_k s)) (b_k s) (b_k s) m [] p)|apply wp_pin_fs]|].
    intros [e m'] k' [(T' & _ & Em) Hfs]. done. }
  unfold wp, on_fs in *. destruct (bpf_map__pin m None (b_k s)) as [[[e m'] k']|]; [|done]. destruct W as (T' & Em & Hfs). cbn [b_k].
  split; [done|]. destruct T' as [_ _ T3 T4 T5]. assert (Hpins : pins (obj_of (b_k s)) [m'] = match auto m' with Some p => [(p, obj_of (b_k s) (m_fd m'))] | None => [] end).
  { unfold pins, pin_of, auto. cbn. rewrite Em. destruct (e =? 0); cbn; rewrite ?Hn, ?Hr, ?Hp; done. }
  assert (Hs : m_fd m' = m_fd m /\ same_place m m' /\ m_reused m' = false /\ m_def m' = m_def m) by (rewrite Em; by destruct (e =? 0)).
  destruct Hs as (S1 & S2 & S3 & S4). split; [|split; [done|]; split; [done|]; split; [done|]; split; [done|]].
  - split; [auto|done|]. rewrite Hpins in *. destruct (auto m') as [q|].
    + destruct (T3 q (obj_of (b_k s) (m_fd m'))) as (G1 & G2 & G3); [by left|]. rewrite T5. repeat (split; [done|]). intros r Hne. apply T4.
      cbn. intros [->|[]%not_elem_of_nil]%elem_of_cons. done.
    + intros q. apply T4. apply not_elem_of_nil.
  - intros ->. cbn in Em. intros q Hq. assert (q = p) by (rewrite Em in Hq; cbn in Hq; congruence). subst q. split; [by rewrite Em|].
    assert (Ea : auto m' = Some p) by (rewrite Em; unfold auto; cbn; by rewrite Hr). rewrite Hpins, Ea in T3.
    destruct (T3 p (obj_of (b_k s) (m_fd m'))) as (G1 & _); [by left|]. by rewrite T5.
Qed.

(** ** One turn of the loop *)

(** A map before loading: new or preset by the caller; the contents of its section are there. *)
Record map_ready (o : bpf_object) (m : bpf_map) : Prop := {
  mr_pinned : m_pinned m = false;
  mr_reused : m_reused m = true -> 0 <= m_fd m;
  mr_data : m_type m = LIBBPF_MAP_DATA -> o_data o <> None;
  mr_rodata : m_type m = LIBBPF_MAP_RODATA -> o_rodata o <> None
}.
(** The kernel made the map as it is defined; a perf event array without a size gets one
    entry per CPU. *)
Definition as_defined (m : bpf_map) : Prop :=
  let d := m_def m in
  exists c, map_granted c (m_fd m) /\ ca_map_type c = d_type d /\ ca_key_size c = d_key_size d /\ ca_value_size c = d_value_size d /\
    ca_map_flags c = d_map_flags d /\
    (ca_max_entries c = d_max_entries d \/ d_type d = BPF_MAP_TYPE_PERF_EVENT_ARRAY /\ d_max_entries d = 0 /\ 0 < ca_max_entries c).
Definition turn_map (t : turn) : bpf_map := match t with Next m _ _ | Leave _ m | Err_out _ m => m end.
Definition leak_of (m : bpf_map) : nat := match m_pin_path m with Some _ => 1 | None => 0 end.
Definition turn_post (X : list Z) (m : bpf_map) (s : bsys BK) (t : turn) (s' : bsys BK) : Prop :=
  let m' := turn_map t in
  pin_step X (b_k s) (b_k s') m' /\ same_place m m' /\
  (exists L, lost (leak_of m) L /\ own s' (fd_list (m_fd m') ++ L ++ X)) /\
  match t with
  | Next _ _ nr_cpus => 0 <= nr_cpus /\ 0 <= m_fd m' /\ (m_fd m < 0 -> good_pin (b_k s') m' /\ (m_reused m' = true \/ as_defined m'))
  | Leave e _ => e <> 0
  | Err_out e _ => e <> 0 /\ m_fd m' < 0
  end.
Lemma fd_list_pos fd : 0 <= fd -> fd_list fd = [fd].
Proof. intros H. unfold fd_list. by replace (fd >=? 0) with true by lia. Qed.
Lemma fd_list_neg fd : fd < 0 -> fd_list fd = [].
Proof. intros H. unfold fd_list. by replace (fd >=? 0) with false by lia. Qed.

Lemma auto_unpinned m : m_pinned m = false -> auto m = None.
Proof. unfold auto. by intros ->. Qed.
Lemma wp_finish_map o m m0 inner n s X : own s (m_fd m :: X) -> m_pinned m = false -> m_reused m = false -> map_ready o m0 -> same_place m0 m ->
  0 <= n -> as_defined m -> wp (finish_map o m inner n) (turn_post X m0 s) s.
Proof using BO.
  intros HO Hn Hr [_ _ Hd Hrd] [Sp St] Hcpu Hdef. unfold finish_map. apply wp_bind.
  pose proof (own_pos _ _ (m_fd m) HO ltac:(by left)) as Hfd. set (Y := m_fd m :: X) in *.
  assert (HX : forall f, f ∈ X -> f ∈ Y) by (intros; by right).
  assert (Hnil : forall s', own s' Y -> exists L, lost (leak_of m0) L /\ own s' (fd_list (m_fd m) ++ L ++ X)).
  { intros s' HO'. exists []. split; [apply Nat.le_0_l|]. by rewrite fd_list_pos. }
  assert (Hend : forall e s1, own s1 Y -> kept Y s s1 -> wp (if e <? 0 then zclose (m_fd m) ;;; ret (Err_out e (set_fd m (-1)))
      else if match m_pin_path m with Some _ => negb (m_pinned m) | None => false end then
        let! (err, m) := on_fs (bpf_map__pin m None) in ret (if negb (err =? 0) then Leave err m else Next m inner n)
      else ret (Next m inner n)) (turn_post X m0 s) s1).
  { intros e s1 HO1 K1. destruct (Z.ltb_spec e 0).
    - apply wp_bind. apply (own_zclose _ s1 X); [by rewrite fd_list_pos|]. intros r s2 _ HO2 K2 _. apply wp_ret. split; [|split; [done|split; [|split; [lia|done]]]].
      + apply pin_step_kept; [|by apply auto_unpinned]. eapply kept_trans; [by eapply kept_sub|done].
      + exists []. split; [apply Nat.le_0_l|]. done.
    - rewrite Hn. destruct (m_pin_path m) as [p|] eqn:Ep; cbn [negb].
      + apply wp_bind. eapply wp_mono; [by apply (wp_auto_pin m p s1 Y)|]. intros [e' m'] s2 (HO2 & PS & Ef & [P1 P2] & Er & Ed & Hg). apply wp_ret.
        assert (PS' : pin_step X (b_k s) (b_k s2) m').
        { apply (pin_step_after X s s1); [by eapply kept_sub|]. destruct PS as [G1 G2 G3]. split; auto. }
        assert (Hcom : same_place m0 m') by (split; congruence).
        destruct (Z.eqb_spec e' 0) as [->|]; cbn [negb]; (split; [done|]; split; [done|]; split; [cbn [turn_map]; rewrite Ef; by apply Hnil|]).
        * split; [done|]. cbn [turn_map]. rewrite Ef. split; [done|]. intros _. split; [by apply Hg|]. right. unfold as_defined. rewrite Ef, Ed. exact Hdef.
        * done.
      + apply wp_ret. split; [apply pin_step_kept; [by eapply kept_sub|by apply auto_unpinned]|]. split; [split; [cbn; congruence|done]|]. split; [by apply Hnil|].
        split; [done|]. split; [done|]. intros _. split; [|by right]. intros q Hq. cbn in Hq. congruence. }
  destruct (bpf_map__is_internal m) eqn:Ei; [|by apply wp_ret, Hend; [|apply kept_refl]].
  eapply wp_mono; [apply (wp_populate o m s Y HO); rewrite ?St; done|]. intros e s1 [HO1 K1]. by apply Hend.
Qed.

Definition obj_good (o : bpf_object) : Prop := forall b fd, o_btf o = Some (b, fd) -> btf_good b.
Lemma map_btf_total o m : obj_good o -> exists m' ids, map_btf o m = Some (m', ids) /\ same_place m m' /\ m_pinned m' = m_pinned m /\
  m_reused m' = m_reused m /\ m_def m' = m_def m /\ m_fd m' = m_fd m.
Proof.
  intros Ho. unfold map_btf. destruct (o_btf o) as [[b fd]|] eqn:Eb; [|by eexists _, _]. destruct (Ho b fd Eb) as (ts & strs & IO & PB).
  assert (H : exists r m', bpf_map_find_btf_info o b m = Some (r, m') /\ same_place m m' /\ m_pinned m' = m_pinned m /\
    m_reused m' = m_reused m /\ m_def m' = m_def m /\ m_fd m' = m_fd m).
  { unfold bpf_map_find_btf_info. destruct (_ =? _); [by eexists _, _|]. destruct (bpf_map__is_internal m) eqn:Ei; cbn [negb].
    - apply negb_true_iff, bool_decide_eq_false in Ei.
      assert (exists nm, libbpf_type_to_btf_name (m_type m) = Some nm) as [nm ->] by (destruct (m_type m); [done|by eexists..]). cbn [mbind option_bind].
      destruct (find_total b ts strs IO PB nm) as (r & -> & _). cbn [mbind option_bind]. destruct (r <? 0); by eexists _, _.
    - destruct (kv_tids_spec b ts strs IO PB (m_name m) (d_key_size (m_def m)) (d_value_size (m_def m))) as (r & k & v & -> & _). cbn [mbind option_bind].
      destruct (r <? 0); by eexists _, _. }
  destruct H as (r & m' & -> & H). cbn [mbind option_bind]. by eexists _, _.
Qed.

Lemma wp_create_new o m inner nc s X : own s X -> map_ready o m -> obj_good o -> m_fd m < 0 -> 0 <= nc -> (sized_by_cpus m = true -> 0 < nc) ->
  wp (create_new o m inner nc) (turn_post X m s) s.
Proof using BO.
  intros HO Hm Hobj Hneg Hnc Hsz. unfold create_new. cbv zeta. pose proof (mr_pinned _ _ Hm) as Hp0.
  assert (Hnr : m_reused m = false) by (destruct (m_reused m) eqn:E; [|done]; apply mr_reused with (o := o) in E; [lia|done]).
  destruct (map_btf_total o m Hobj) as (m1 & ids & Eb & [S1 S2] & Sn & Sr & Sd & Sf). apply wp_bind. eapply wp_deref; [exact Eb|]. cbv beta iota.
  apply wp_bind. eapply wp_mono; [by apply wp_create_fd|]. intros m2 s3 (K3 & HO3 & [P1 P2] & Pn & Pr & Pd & Pe & Pg).
  assert (Hpl : same_place m m2) by (split; congruence). destruct (Z.ltb_spec (m_fd m2) 0) as [Hlt|Hge].
  - apply wp_bind, wp_gets, wp_ret. specialize (Pe Hlt). split; [apply pin_step_kept; [done|apply auto_unpinned; cbn; congruence]|].
    split; [done|]. split; [|split; [lia|done]]. exists []. split; [apply Nat.le_0_l|]. done.
  - destruct (Pg Hge) as (b & k & v & Hg). rewrite fd_list_pos in HO3 by done.
    eapply wp_mono; [apply (wp_finish_map o m2 m _ nc s3 X); try done; try congruence|].
    + eexists. split; [exact Hg|]. cbn [create_attr ca_map_type ca_key_size ca_value_size ca_map_flags ca_max_entries]. rewrite Pd, Sd.
      repeat (split; [done|]). destruct (sized_by_cpus m) eqn:Es; [right|by left]. unfold sized_by_cpus in Es. bool_prop. split; [lia|]. split; [lia|auto].
    + intros t s4 (T1 & T2 & T3 & T4). split; [|done]. by apply (pin_step_after X s s3).
Qed.
Lemma wp_make_map o m inner n s X : own s X -> map_ready o m -> obj_good o -> m_fd m < 0 -> 0 <= n -> wp (make_map o m inner n) (turn_post X m s) s.
Proof using BO.
  intros HO Hm Hobj Hneg Hcpu. unfold make_map. apply wp_bind.
  assert (Hrest : forall nc s2, own s2 X -> kept X s s2 -> (sized_by_cpus m = true -> nc <> 0) -> (sized_by_cpus m = false -> 0 <= nc) ->
    wp (if sized_by_cpus m && (nc <? 0) then ret (Err_out nc m) else create_new o m inner nc) (turn_post X m s) s2).
  { intros nc s2 HO2 K2 Hnc1 Hnc2. destruct (sized_by_cpus m && (nc <? 0))%bool eqn:Es.
    - bool_prop. apply wp_ret. split; [apply pin_step_kept; [done|by apply auto_unpinned; apply Hm]|]. split; [done|]. split; [|split; [lia|done]].
      exists []. split; [apply Nat.le_0_l|]. cbn [turn_map]. by rewrite fd_list_neg.
    - assert (Hnc : 0 <= nc /\ (sized_by_cpus m = true -> 0 < nc)) by (destruct (sized_by_cpus m); cbn in Es; [specialize (Hnc1 eq_refl)|specialize (Hnc2 eq_refl)]; lia).
      eapply wp_mono; [apply (wp_create_new o m inner nc s2 X); (done || apply Hnc)|].
      intros t s4 (T1 & T2 & T3 & T4). split; [|done]. by apply (pin_step_after X s s2). }
  destruct (sized_by_cpus m) eqn:Es; cbn [andb] in *; [|apply wp_ret; apply Hrest; try done; apply kept_refl].
  destruct (Z.eqb_spec n 0); [|apply wp_ret; apply Hrest; try done; apply kept_refl].
  eapply own_num_cpus; [exact HO|]. intros r s2 Hr HO2 K2. by apply Hrest.
Qed.
Lemma wp_create_map o m inner n s X : own s (fd_list (m_fd m) ++ X) -> map_ready o m -> obj_good o -> 0 <= n ->
  wp (create_map o m inner n) (turn_post X m s) s.
Proof using BO.
  intros HO Hm Hobj Hcpu. unfold create_map. apply wp_bind. pose proof (mr_pinned _ _ Hm) as Hp0. pose proof (auto_unpinned m Hp0) as Ha.
  (** the map as it was given *)
  assert (Hsame : forall e s1, own s1 (fd_list (m_fd m) ++ X) -> kept X s s1 ->
    wp (if negb (e =? 0) then ret (Leave e m) else if m_fd m >=? 0 then ret (Next m inner n) else make_map o m inner n) (turn_post X m s) s1).
  { intros e s1 HO1 K1. assert (Hcom : pin_step X (b_k s) (b_k s1) m /\ same_place m m /\ exists L, lost (leak_of m) L /\ own s1 (fd_list (m_fd m) ++ L ++ X)).
    { split; [by apply pin_step_kept|]. split; [done|]. exists []. split; [apply Nat.le_0_l|done]. }
    destruct Hcom as (C1 & C2 & C3). destruct (Z.eqb_spec e 0) as [->|]; cbn [negb]; [|by apply wp_ret].
    destruct (Z.geb_spec (m_fd m) 0) as [Hge|Hlt].
    - apply wp_ret. split; [done|]. split; [done|]. split; [done|]. split; [done|]. split; [done|]. cbn. lia.
    - rewrite fd_list_neg in HO1 by done. eapply wp_mono; [by apply (wp_make_map o m inner n s1 X)|].
      intros t s4 (T1 & T2 & T3 & T4). split; [|done]. by apply (pin_step_after X s s1). }
  destruct (m_pin_path m) as [p|] eqn:Ep; [|apply wp_ret; apply Hsame; [done|apply kept_refl]].
  eapply wp_mono; [by apply (wp_reuse_map m p s X)|]. intros [e m'] s1 (K1 & Pl & L & HL & HO1 & [[-> ->]|[[Hne Hp]|(-> & Hge & Hr & Hg)]]).
  - by apply Hsame.
  - cbv beta iota. rewrite (proj2 (Z.eqb_neq _ _)) by done. cbn [negb]. apply wp_ret.
    split; [apply pin_step_kept; [done|by apply auto_unpinned]|]. split; [done|]. split; [|done]. exists L. split; [|done]. unfold leak_of. by rewrite Ep.
  - cbv beta iota. cbn [negb Z.eqb]. replace (m_fd m' >=? 0) with true by lia. apply wp_ret.
    split; [apply pin_step_kept; [done|cbn [turn_map]; unfold auto; rewrite Hr; cbn; by rewrite andb_false_r]|]. split; [done|]. split.
    + exists L. split; [|done]. unfold leak_of. by rewrite Ep.
    + split; [done|]. split; [done|]. intros _. split; [done|]. by left.
Qed.

(** ** All the maps *)

Definition map_fds (l : list bpf_map) : list Z := concat (map (fun m => fd_list (m_fd m)) l).
Lemma map_fds_app l l' : map_fds (l ++ l') = map_fds l ++ map_fds l'.
Proof. unfold map_fds. by rewrite map_app, concat_app. Qed.
Lemma map_fds_cons m l : map_fds (m :: l) = fd_list (m_fd m) ++ map_fds l.
Proof. done. Qed.
Definition closed (m : bpf_map) : bpf_map := set_fd m (-1).
Lemma map_fds_closed l : map_fds (map closed l) = [].
Proof. by induction l. Qed.
Lemma wp_close_maps : forall l s X, own s (map_fds l ++ X) ->
  wp (close_maps l) (fun l' s' => l' = map closed l /\ own s' X /\ kept X s s') s.
Proof using BO.
  induction l as [|m l IH]; intros s X HO; cbn [close_maps]; [by apply wp_ret|]. rewrite map_fds_cons, <- (assoc_L (++)) in HO.
  apply wp_bind. eapply own_zclose; [exact HO|]. intros r s1 _ HO1 K1 _. apply wp_bind. eapply wp_mono; [by apply IH|].
  intros l' s2 (-> & HO2 & K2). apply wp_ret. split; [done|]. split; [done|]. eapply kept_trans; [|exact K2]. eapply kept_sub; [exact K1|].
  intros f Hf. apply elem_of_app. by right.
Qed.

(** [k0] without the pins of the maps, [k] with them. *)
Record autopins (k0 k : pk) (l : list bpf_map) : Prop := {
  ap_nodup : NoDup (omap auto l);
  ap_in : forall p, p ∈ omap auto l -> pinned_at k0 p = None /\ pinned_at k p <> None /\ k_statfs k (dirname p) = inr BPF_FS_MAGIC;
  ap_other : forall q, q ∉ omap auto l -> pinned_at k q = pinned_at k0 q
}.
Lemma omap_auto_middle l1 l2 m : omap auto (l1 ++ m :: l2) ≡ₚ match auto m with Some p => p :: omap auto (l1 ++ l2) | None => omap auto (l1 ++ l2) end.
Proof. rewrite !omap_app. cbn. destruct (auto m); [by rewrite Permutation_middle|done]. Qed.
Lemma autopins_step k0 k k' X l1 l2 m m' : autopins k0 k (l1 ++ m :: l2) -> auto m = None -> pin_step X k k' m' -> autopins k0 k' (l1 ++ m' :: l2).
Proof.
  intros [A1 A2 A3] Hm [P1 P2 P3]. pose proof (omap_auto_middle l1 l2 m) as E. rewrite Hm in E. pose proof (omap_auto_middle l1 l2 m') as E'.
  destruct (auto m') as [p|].
  - destruct P3 as (Q1 & Q2 & Q3 & Q4). assert (Hp : p ∉ omap auto (l1 ++ l2)).
    { rewrite <- E. intros Hin. destruct (A2 p Hin) as (_ & Hx & _). done. }
    split.
    + rewrite E'. apply list.NoDup_cons. split; [done|]. by rewrite <- E.
    + intros q. rewrite E'. intros [->|Hin]%elem_of_cons.
      * split; [|by rewrite Q2]. rewrite <- A3; [done|]. by rewrite E.
      * assert (q <> p) by (intros ->; done). rewrite <- E in Hin. destruct (A2 q Hin) as (H1 & H2 & H3). rewrite Q4 by done. auto.
    + intros q. rewrite E'. intros [Hq Hin]%not_elem_of_cons. rewrite Q4 by done. apply A3. by rewrite E.
  - split.
    + by rewrite E', <- E.
    + intros q. rewrite E', <- E. intros Hin. destruct (A2 q Hin) as (H1 & H2 & H3). rewrite P3. auto.
    + intros q. rewrite E', <- E. intros Hin. rewrite P3. auto.
Qed.
Lemma autopins_same k0 k k' l l' : autopins k0 k l -> omap auto l' = omap auto l -> (forall q, pinned_at k' q = pinned_at k q) ->
  (forall d t, k_statfs k d = inr t -> k_statfs k' d = inr t) -> autopins k0 k' l'.
Proof.
  intros [A1 A2 A3] E Hq Hd. split; rewrite E; [done| |intros q Hin; rewrite Hq; auto]. intros p Hin. destruct (A2 p Hin) as (H1 & H2 & H3). rewrite Hq. auto.
Qed.
Lemma omap_closed l : omap auto (map closed l) = omap auto l.
Proof. induction l as [|m l IH]; [done|]. cbn. by rewrite IH. Qed.
Lemma good_pin_step X k k' m m' : good_pin k m -> m_fd m ∈ X -> pin_step X k k' m' -> good_pin k' m.
Proof.
  intros Hg Hin [P1 P2 P3] p Hp. destruct (Hg p Hp) as [Hm Hat]. split; [done|]. rewrite P1 by done.
  destruct (auto m') as [q|]; [|by rewrite P3]. destruct P3 as (Q1 & _ & _ & Q4). rewrite Q4; [done|]. intros ->. congruence.
Qed.
Definition leaks (l : list bpf_map) : nat := list_sum (map leak_of l).
Lemma leaks_app l l' : leaks (l ++ l') = (leaks l + leaks l')%nat.
Proof. unfold leaks. by rewrite map_app, list_sum_app. Qed.
Lemma leak_same m m' : same_place m m' -> leak_of m' = leak_of m.
Proof. intros [Hp _]. unfold leak_of. by rewrite Hp. Qed.

(** The maps [l] of an object whose loading started in [s0] with the maps [orig]. *)
Record loading (s0 : bsys BK) (F : list Z) (orig l : list bpf_map) (n : nat) (s : bsys BK) : Prop := {
  lo_own : exists L, lost n L /\ own s (map_fds l ++ L ++ F);
  lo_pins : autopins (b_k s0) (b_k s) l;
  lo_place : Forall2 same_place orig l;
  lo_obj : forall f, f ∈ F -> obj_of (b_k s) f = obj_of (b_k s0) f;
  lo_fs : forall d t, k_statfs (b_k s0) d = inr t -> k_statfs (b_k s) d = inr t
}.
(** A map of the object after loading: its pin is good, and the kernel made it as it is
    defined; preset maps are left alone. *)
Definition map_loaded (k : pk) (m m' : bpf_map) : Prop :=
  0 <= m_fd m' /\ (m_fd m < 0 -> good_pin k m' /\ (m_reused m' = true \/ as_defined m')).

Lemma same_place_refl m : same_place m m.
Proof. done. Qed.
(** Replacing the current map. *)
Lemma loading_turn s0 F od d m m' rest s s' n L L' : loading s0 F (od ++ m :: rest) (d ++ m :: rest) n s -> length od = length d -> auto m = None ->
  lost n L -> lost (leak_of m) L' -> pin_step (map_fds d ++ map_fds rest ++ L ++ F) (b_k s) (b_k s') m' -> same_place m m' ->
  own s' (fd_list (m_fd m') ++ L' ++ map_fds d ++ map_fds rest ++ L ++ F) ->
  loading s0 F (od ++ m :: rest) (d ++ m' :: rest) (n + leak_of m) s'.
Proof.
  intros [H1 H2 H3 H4 H5] Hlen Ha HL HL' PS Hp HO. split.
  - exists (L' ++ L). split; [unfold lost in *; rewrite length_app; lia|]. eapply own_proper; [|exact HO].
    rewrite map_fds_app, map_fds_cons. perm_solve.
  - by eapply autopins_step.
  - apply Forall2_app_inv in H3 as [H3a H3b]; [|done]. apply Forall2_app; [done|]. inversion H3b; subst. by constructor.
  - intros f Hf. rewrite (ps_obj _ _ _ _ PS); [auto|]. rewrite !elem_of_app. auto.
  - intros dd t Hd. apply (ps_fs _ _ _ _ PS). auto.
Qed.
Lemma loading_more s0 F orig l n n' s : loading s0 F orig l n s -> (n <= n')%nat -> loading s0 F orig l n' s.
Proof. intros [(L & HL & HO) H2 H3 H4 H5] Hn. split; try done. exists L. split; [unfold lost in *; lia|done]. Qed.
(** Closing the maps [d] at the start of the list. *)
Lemma loading_close s0 F orig d rest n s s' L : loading s0 F orig (d ++ rest) n s -> lost n L -> own s' (map_fds rest ++ L ++ F) ->
  kept (map_fds rest ++ L ++ F) s s' -> loading s0 F orig (map closed d ++ rest) n s'.
Proof.
  intros [_ H2 H3 H4 H5] HL HO (K1 & K2 & K3). split.
  - exists L. split; [done|]. by rewrite map_fds_app, map_fds_closed.
  - eapply autopins_same; [exact H2| |done|intros dd t; by rewrite K2]. by rewrite !omap_app, omap_closed.
  - apply Forall2_app_inv_r in H3 as (o1 & o2 & F1 & F2 & ->). apply Forall2_app; [|done]. clear -F1. induction F1; cbn; [constructor|]. by constructor.
  - intros f Hf. rewrite K3; [auto|]. rewrite !elem_of_app. auto.
  - intros dd t Hd. rewrite K2. auto.
Qed.
Lemma map_loaded_step X k k' m' od d : Forall2 (map_loaded k) od d -> (forall f, f ∈ map_fds d -> f ∈ X) -> pin_step X k k' m' -> Forall2 (map_loaded k') od d.
Proof.
  intros HF Hin PS. induction HF as [|m m1 od d [H1 H2] HF IH]; [constructor|]. rewrite map_fds_cons in Hin. constructor; [|apply IH; intros f Hf; apply Hin, elem_of_app; by right].
  split; [done|]. intros Hm. destruct (H2 Hm) as [Hg Hd]. split; [|done]. eapply good_pin_step; [exact Hg| |exact PS]. apply Hin, elem_of_app. left.
  rewrite fd_list_pos by done. by left.
Qed.

Lemma wp_create_loop o s0 F orig : obj_good o -> Forall (map_ready o) orig ->
  forall rest done od inner cpus s, orig = od ++ rest -> length od = length done -> loading s0 F orig (reverse done ++ rest) (leaks od) s -> 0 <= cpus ->
    Forall2 (map_loaded (b_k s)) od (reverse done) ->
  wp (create_loop o done rest inner cpus) (fun '(e, l') s' => loading s0 F orig l' (leaks orig) s' /\ (e = 0 -> Forall2 (map_loaded (b_k s')) orig l')) s.
Proof using BO.
  intros Hobj Hready. induction rest as [|m rest IH]; intros done od inner cpus s -> Hlen HL Hc Hdone; cbn [create_loop].
  { apply wp_ret. rewrite !app_nil_r in *. done. }
  assert (Hm : map_ready o m) by (apply Forall_app in Hready as [_ Hr]; by apply List.Forall_inv in Hr).
  pose proof (auto_unpinned m (mr_pinned _ _ Hm)) as Ha. destruct (lo_own _ _ _ _ _ _ HL) as (L & HLn & HO).
  set (d := reverse done) in *. assert (Hlen' : length od = length d) by (unfold d; by rewrite length_reverse).
  set (X := map_fds d ++ map_fds rest ++ L ++ F). apply wp_bind.
  eapply wp_mono; [apply (wp_create_map o m inner cpus s X); [|done|done|done]|].
  { eapply own_proper; [|exact HO]. unfold X. rewrite map_fds_app, map_fds_cons. perm_solve. }
  intros t s1 (PS & Pl & (L' & HL' & HO') & Ht). cbv beta.
  pose proof (loading_turn s0 F od d m (turn_map t) rest s s1 (leaks od) L L' HL Hlen' Ha HLn HL' PS Pl HO') as HT.
  assert (Hle : leaks (od ++ m :: rest) = (leaks od + leak_of m + leaks rest)%nat) by (rewrite leaks_app; change (leaks (m :: rest)) with (leak_of m + leaks rest)%nat; lia).
  destruct t as [m' inner' cpus'|e m'|e m']; cbn [turn_map] in *.
  - destruct Ht as (Hc' & Hfd & Hg). apply (IH (m' :: done) (od ++ [m])).
    + by rewrite <- (assoc_L (++)).
    + rewrite length_app. cbn. lia.
    + rewrite reverse_cons, <- (assoc_L (++)). cbn [app]. rewrite leaks_app. change (leaks [m]) with (leak_of m + 0)%nat. by rewrite Nat.add_0_r.
    + done.
    + rewrite reverse_cons. apply Forall2_app; [|constructor; [done|constructor]]. eapply map_loaded_step; [exact Hdone| |exact PS]. intros f Hf. unfold X. apply elem_of_app. by left.
  - apply wp_ret. split; [|done]. eapply loading_more; [exact HT|lia].
  - destruct Ht as [He Hfd]. apply wp_bind. fold d. eapply wp_mono; [apply (wp_close_maps d s1 (map_fds (m' :: rest) ++ (L' ++ L) ++ F))|].
    { eapply own_proper; [|exact HO']. rewrite map_fds_cons. unfold X. perm_solve. }
    intros l' s2 (-> & HO2 & K2). apply wp_ret. split; [|done]. eapply loading_more; [|rewrite Hle; apply Nat.le_add_r].
    eapply (loading_close s0 F _ d (m' :: rest) _ s1 s2 (L' ++ L)); try done. unfold lost in *. rewrite length_app. lia.
Qed.
Lemma autopins_start k l : Forall (fun m => m_pinned m = false) l -> autopins k k l.
Proof.
  intros Hl. assert (E : omap auto l = []). { induction Hl as [|m l Hm _ IH]; [done|]. cbn. by rewrite auto_unpinned. }
  split; rewrite E; [constructor|intros p []%not_elem_of_nil|done].
Qed.
Lemma wp_create_maps o s F : obj_good o -> Forall (map_ready o) (o_maps o) -> own s (map_fds (o_maps o) ++ F) ->
  wp (bpf_object__create_maps o) (fun '(e, o') s' => exists l', o' = with_maps o l' /\ loading s F (o_maps o) l' (leaks (o_maps o)) s' /\
    (e = 0 -> Forall2 (map_loaded (b_k s')) (o_maps o) l')) s.
Proof using BO.
  intros Hobj Hready HO. unfold bpf_object__create_maps. apply wp_bind.
  eapply wp_mono; [apply (wp_create_loop o s F (o_maps o) Hobj Hready (o_maps o) [] [] 0 0 s); try done|].
  - split.
    + exists []. by split; [apply Nat.le_0_l|].
    + apply autopins_start. eapply list.Forall_impl; [exact Hready|]. by intros m [].
    + clear. induction (o_maps o); constructor; done.
    + done.
    + done.
  - intros [e l'] s' [HL He]. apply wp_ret. by exists l'.
Qed.
End MapRules.
