(* ===== verification/Reloc.v ===== *)
(** * Relocation: libbpf/src/libbpf.c

    The instructions of a program get the descriptors of the maps they refer to, calls into
    .text get that section appended and their offsets moved, and function and line records
    are collected for the program and what was appended.  The theorem describes a relocated
    program instruction by instruction.  Field relocation for another kernel
    ([bpf_core_reloc_fields]) is a parameter of the object's relocation. *)

From S2P Require Import Prelude BpfProg Os Btf BtfExt Object RedirectUser Pinning BpfSys ObjMaps.
#[local] Open Scope Z_scope.
#[local] Open Scope prog_scope.

Definition LIBBPF_ERRNO__RELOC : Z := 4005.
Definition BPF_PSEUDO_MAP_VALUE : Z := 2.
Definition with_src (i : bpf_insn) (r : Z) : bpf_insn := Bpf_insn (code i) (dst_reg i) r (off i) (imm i).
Definition with_imm (i : bpf_insn) (v : Z) : bpf_insn := Bpf_insn (code i) (dst_reg i) (src_reg i) (off i) v.

(** The result is that of [check_btf_ext_reloc_err]; [info] says whether there are records. *)
Definition check_btf_ext_reloc_err (err : Z) (info : bool) : Z :=
  if negb (err =? - ENOENT) then err else if info then err else 0.

(** The two slots of a 64-bit load. *)
Definition reloc_ld64 (insns : list bpf_insn) (insn_idx fd : Z) (relo_data : bool) : option (list bpf_insn) :=
  if negb (0 <=? insn_idx) then None
  else
    i ← insns !! Z.to_nat insn_idx;
    j ← insns !! Z.to_nat (insn_idx + 1);
    let insns := if relo_data then setZ insns (insn_idx + 1) (with_imm j (imm i)) else insns in
    Some (setZ insns insn_idx (with_imm (with_src i (if relo_data then BPF_PSEUDO_MAP_VALUE else BPF_PSEUDO_MAP_FD)) fd)).

Section Reloc.
Context {BK : BpfKernel}.
Abbreviation B := (M (bsys BK)).

Definition bpf_program_reloc_btf_ext (p : bpf_program) (o : bpf_object) (x : btf_ext) (section_name : path) (insn_offset : Z) :
    B (Z * bpf_program) :=
  let! (b, _) := deref (o_btf o) in
  let has {A} (i : option A) := match i with Some _ => true | None => false end in
  let! (err, p) :=
    if (insn_offset =? 0) || has (p_func_info p) then
      let! (err, info, cnt) := btf_ext__reloc_func_info malloc b x section_name insn_offset (p_func_info p) (p_func_info_cnt p) in
      if negb (err =? 0) then ret (Some (check_btf_ext_reloc_err err (has info)), set_func_info p info (p_func_info_rec_size p) cnt)
      else ret (None, set_func_info p info (btf_ext__func_info_rec_size x) cnt)
    else ret (None, p) in
  match err with
  | Some err => ret (err, p)
  | None =>
      if (insn_offset =? 0) || has (p_line_info p) then
        let! (err, info, cnt) := btf_ext__reloc_line_info malloc b x section_name insn_offset (p_line_info p) (p_line_info_cnt p) in
        if negb (err =? 0) then ret (check_btf_ext_reloc_err err (has info), set_line_info p info (p_line_info_rec_size p) cnt)
        else ret (0, set_line_info p info (btf_ext__line_info_rec_size x) cnt)
      else ret (0, p)
  end.

(** The part of [bpf_program__reloc_text] that appends .text, when it has not been. *)
Definition append_text (p : bpf_program) (o : bpf_object) : B (Z * bpf_program) :=
  match bpf_object__find_prog_by_idx o (o_text_shndx o) with
  | None => ret (- LIBBPF_ERRNO__RELOC, p)
  | Some t =>
      let! text := deref (o_programs o !! Z.to_nat t) in
      let! ok := malloc in
      if negb ok then ret (- ENOMEM, p)
      else
        let! (err, p) := match o_btf_ext o with
                         | Some x => bpf_program_reloc_btf_ext p o x (p_section_name text) (u32 (lenZ (p_insns p)))
                         | None => ret (0, p)
                         end in
        if negb (err =? 0) then ret (err, p)
        else ret (0, set_main_prog_cnt (set_insns p (p_insns p ++ p_insns text)) (lenZ (p_insns p)))
  end.
Definition bpf_program__reloc_text (p : bpf_program) (o : bpf_object) (insn_idx : Z) : B (Z * bpf_program) :=
  if p_idx p =? o_text_shndx o then ret (- LIBBPF_ERRNO__RELOC, p)
  else
    let! (err, p) := if p_main_prog_cnt p =? 0 then append_text p o else ret (0, p) in
    if negb (err =? 0) then ret (err, p)
    else
      guard_ (0 <=? insn_idx) ;;;
      let! i := deref (p_insns p !! Z.to_nat insn_idx) in
      ret (0, set_insns p (setZ (p_insns p) insn_idx (with_imm i (s32 (imm i + p_main_prog_cnt p - insn_idx))))).

Fixpoint reloc_insns (p : bpf_program) (o : bpf_object) (relocs : list reloc_desc) : B (Z * bpf_program) :=
  let ld64 insn_idx map_idx relo_data :=
    if insn_idx + 1 >=? s32 (lenZ (p_insns p)) then ret (- LIBBPF_ERRNO__RELOC, p)
    else
      guard_ (0 <=? map_idx) ;;;
      let! m := deref (o_maps o !! Z.to_nat map_idx) in
      let! insns := deref (reloc_ld64 (p_insns p) insn_idx (m_fd m) relo_data) in
      ret (0, set_insns p insns) in
  match relocs with
  | [] => ret (0, set_reloc p None)
  | r :: relocs =>
      let! (err, p) := match r with
                       | RELO_LD64 insn_idx map_idx => ld64 insn_idx map_idx false
                       | RELO_DATA insn_idx map_idx => ld64 insn_idx map_idx true
                       | RELO_CALL insn_idx _ => bpf_program__reloc_text p o insn_idx
                       end in
      if negb (err =? 0) then ret (err, p) else reloc_insns p o relocs
  end.
Definition bpf_program__relocate (p : bpf_program) (o : bpf_object) : B (Z * bpf_program) :=
  let! (err, p) := match o_btf_ext o with
                   | Some x => bpf_program_reloc_btf_ext p o x (p_section_name p) 0
                   | None => ret (0, p)
                   end in
  if negb (err =? 0) then ret (err, p)
  else match p_reloc p with None => ret (0, p) | Some relocs => reloc_insns p o relocs end.

(** [bpf_core_reloc_fields], given the object and the path of the target's type information. *)
Context (bpf_core_reloc_fields : bpf_object -> option path -> B (Z * bpf_object)).
Definition bpf_object__relocate_core (o : bpf_object) (x : btf_ext) (targ_btf_path : option path) : B (Z * bpf_object) :=
  if negb (ei_len (ex_field x) =? 0) then bpf_core_reloc_fields o targ_btf_path else ret (0, o).
(** [i] is the index of the next program, [n] the number of those left. *)
Fixpoint relocate_programs (n i : nat) (o : bpf_object) : B (Z * bpf_object) :=
  match n with
  | O => ret (0, o)
  | S n =>
      let! p := deref (o_programs o !! i) in
      let! (err, p) := bpf_program__relocate p o in
      let o := with_programs o (<[i := p]> (o_programs o)) in
      if negb (err =? 0) then ret (err, o) else relocate_programs n (S i) o
  end.
Definition bpf_object__relocate (o : bpf_object) (targ_btf_path : option path) : B (Z * bpf_object) :=
  let! (err, o) := match o_btf_ext o with
                   | Some x => bpf_object__relocate_core o x targ_btf_path
                   | None => ret (0, o)
                   end in
  if negb (err =? 0) then ret (err, o) else relocate_programs (length (o_programs o)) 0 o.
End Reloc.

(** ** Records *)

(** What .BTF.ext holds was checked when it was read, and its section names exist. *)
Definition ext_ok (o : bpf_object) : Prop := forall x, o_btf_ext o = Some x -> exists b fd lf ll,
  o_btf o = Some (b, fd) /\ Forall is_u8 (ex_data x) /\ lenZ (ex_data x) < 2147483648 /\
  holds (ex_data x) sizeof_bpf_func_info_min (ex_func x) lf /\ holds (ex_data x) sizeof_bpf_line_info_min (ex_line x) ll /\
  Forall (fun s => name_at b (sec_off s) <> None) (lf ++ ll).
(** [cnt] records of [rec] bytes each, collected in [n] copies. *)
Record info_ok (data : list Z) (n rec : Z) (info : option (list Z)) (sz cnt : Z) : Prop := {
  in_cnt : 0 <= cnt;
  in_len : lenZ (default [] info) = cnt * rec;
  in_max : cnt * rec <= n * lenZ data;
  in_none : info = None -> cnt = 0;
  in_some : info <> None -> sz = rec /\ 4 <= rec
}.
Definition infos_ok (o : bpf_object) (n : Z) (p : bpf_program) : Prop :=
  match o_btf_ext o with
  | None => p_func_info_cnt p = 0 /\ p_line_info_cnt p = 0
  | Some x => info_ok (ex_data x) n (ei_rec_size (ex_func x)) (p_func_info p) (p_func_info_rec_size p) (p_func_info_cnt p) /\
              info_ok (ex_data x) n (ei_rec_size (ex_line x)) (p_line_info p) (p_line_info_rec_size p) (p_line_info_cnt p)
  end.
Lemma info_ok_fits data n rec info sz cnt : info_ok data n rec info sz cnt -> info_fits cnt sz info.
Proof.
  intros [H1 H2 H3 H4 H5]. destruct info as [l|]; [right|left; auto]. split; [done|]. exists l. split; [done|]. destruct H5 as [-> _]; [done|]. cbn in H2. lia.
Qed.
Lemma info_ok_more data n n' rec info sz cnt : info_ok data n rec info sz cnt -> n <= n' -> info_ok data n' rec info sz cnt.
Proof. intros [H1 H2 H3 H4 H5] Hn. split; try done. nia. Qed.

Section RelocRules.
Context {BK : BpfKernel} {BO : BpfKernelOk BK}.
Abbreviation B := (M (bsys BK)).

Lemma wp_copy b x ei l m name off info sz cnt n s X : own s X -> Forall is_u8 (ex_data x) -> lenZ (ex_data x) < 2147483648 -> 4 <= m ->
  holds (ex_data x) m ei l -> Forall (fun s => name_at b (sec_off s) <> None) l -> 0 <= n <= 1 -> info_ok (ex_data x) n (ei_rec_size ei) info sz cnt ->
  wp (btf_ext_reloc_info malloc b x ei name off info cnt) (fun '(e, info', cnt') s' => own s' X /\ kept X s s' /\
    (e = 0 /\ info' <> None /\ info_ok (ex_data x) (n + 1) (ei_rec_size ei) info' (ei_rec_size ei) cnt' \/ e < 0 /\ info' = info /\ cnt' = cnt)) s.
Proof using BO.
  intros HO Hb Hd Hm HH HN Hn HI. pose proof HI as [I1 I2 I3 I4 I5].
  assert (Hc : is_u32 cnt /\ is_u32 (cnt * ei_rec_size ei)).
  { int_unfold. destruct info as [bytes|]; [destruct I5 as [_ I5]; [done|]; nia|]. rewrite I4 by done. lia. }
  pose proof (reloc_info_spec malloc b x ei l m name off info cnt s Hb Hm HH HN ltac:(apply Hc) I2 ltac:(apply Hc)) as Heq.
  destruct (list_find _ l) as [[i sc]|] eqn:Ef; [eapply wp_eq; [exact Heq|]|].
  2: { apply (wp_eq _ (ret (- ENOENT, info, cnt))); [exact Heq|]. apply wp_ret. split; [done|]. split; [apply kept_refl|]. by right. }
  apply list_find_Some in Ef as (Hi & _ & _). apply list_elem_of_lookup_2 in Hi. destruct (section_fits _ _ _ _ _ HH Hm Hi) as [HF Hlen].
  assert (Hrec : 4 <= ei_rec_size ei) by (destruct HH as [[_ ->]|(_ & ? & _)]; [by apply not_elem_of_nil in Hi|lia]).
  apply wp_bind. eapply own_malloc; [exact HO|]. intros ok s1 HO1 K1 _. destruct ok; apply wp_ret; (split; [done|]; split; [done|]); [left|by right].
  split; [done|]. split; [done|]. set (k := lenZ (sec_recs sc)) in *.
  assert (E : u32 (cnt + k) = cnt + k) by (apply u32_small; int_unfold; nia). rewrite E.
  split; [lia| | |done|done].
  - cbn [default from_option id]. rewrite length_app, Nat2Z.inj_add, I2. rewrite (moved_len off (ei_rec_size ei)) by done. fold k. ring.
  - nia.
Qed.

(** The same program, other records. *)
Definition with_infos (p : bpf_program) (fi : option (list Z)) (fs fc : Z) (li : option (list Z)) (ls lc : Z) : bpf_program :=
  set_line_info (set_func_info p fi fs fc) li ls lc.
Definition same_code (p p' : bpf_program) : Prop := exists fi fs fc li ls lc, p' = with_infos p fi fs fc li ls lc.
Lemma same_code_refl p : same_code p p.
Proof. exists (p_func_info p), (p_func_info_rec_size p), (p_func_info_cnt p), (p_line_info p), (p_line_info_rec_size p), (p_line_info_cnt p). by destruct p. Qed.
Lemma wp_reloc_ext p o x name off n s X : own s X -> ext_ok o -> o_btf_ext o = Some x -> infos_ok o n p -> 0 <= n <= 1 ->
  wp (bpf_program_reloc_btf_ext p o x name off) (fun '(e, p') s' => own s' X /\ kept X s s' /\ same_code p p' /\ infos_ok o (n + 1) p') s.
Proof using BO.
  intros HO HE Hx HI Hn. destruct (HE x Hx) as (b & fd & lf & ll & Eb & Hu & Hd & Hf & Hl & HN). apply Forall_app in HN as [HNf HNl].
  unfold infos_ok in *. rewrite Hx in *. destruct HI as [If Il]. pose proof (info_ok_more _ n (n + 1) _ _ _ _ If ltac:(lia)) as If'.
  pose proof (info_ok_more _ n (n + 1) _ _ _ _ Il ltac:(lia)) as Il'.
  unfold bpf_program_reloc_btf_ext. apply wp_bind. eapply wp_deref; [exact Eb|]. cbv beta iota zeta.
  assert (Hline : forall p1 s1, own s1 X -> kept X s s1 -> same_code p p1 -> p_line_info p1 = p_line_info p -> p_line_info_rec_size p1 = p_line_info_rec_size p ->
    p_line_info_cnt p1 = p_line_info_cnt p ->
    info_ok (ex_data x) (n + 1) (ei_rec_size (ex_func x)) (p_func_info p1) (p_func_info_rec_size p1) (p_func_info_cnt p1) ->
    wp (if (off =? 0) || match p_line_info p1 with Some _ => true | None => false end then
          let! (err, info, cnt) := btf_ext__reloc_line_info malloc b x name off (p_line_info p1) (p_line_info_cnt p1) in
          if negb (err =? 0) then ret (check_btf_ext_reloc_err err match info with Some _ => true | None => false end, set_line_info p1 info (p_line_info_rec_size p1) cnt)
          else ret (0, set_line_info p1 info (btf_ext__line_info_rec_size x) cnt)
        else ret (0, p1)) (fun '(e, p') s' => own s' X /\ kept X s s' /\ same_code p p' /\
          info_ok (ex_data x) (n + 1) (ei_rec_size (ex_func x)) (p_func_info p') (p_func_info_rec_size p') (p_func_info_cnt p') /\
          info_ok (ex_data x) (n + 1) (ei_rec_size (ex_line x)) (p_line_info p') (p_line_info_rec_size p') (p_line_info_cnt p')) s1).
  { intros p1 s1 HO1 K1 (fi & fs & fc & li & ls & lc & ->) E1 E2 E3 I1. rewrite E1, E2, E3. destruct (_ || _)%bool.
    - apply wp_bind. unfold btf_ext__reloc_line_info. eapply wp_mono; [apply (wp_copy b x (ex_line x) ll sizeof_bpf_line_info_min name off _ (p_line_info_rec_size p) _ n s1 X HO1 Hu Hd ltac:(by unfold sizeof_bpf_line_info_min) Hl HNl Hn Il)|].
      intros [[e info] cnt] s2 (HO2 & K2 & Hc). assert (K : kept X s s2) by by eapply kept_trans. destruct Hc as [(-> & Hne & I2)|(He & -> & ->)].
      + cbn [negb Z.eqb]. apply wp_ret. split; [done|]. split; [done|]. split; [by eexists _, _, _, _, _, _|]. done.
      + rewrite (proj2 (Z.eqb_neq _ _)) by lia. cbn [negb]. apply wp_ret. split; [done|]. split; [done|]. split; [by eexists _, _, _, _, _, _|]. done.
    - apply wp_ret. split; [done|]. split; [done|]. split; [by eexists _, _, _, _, _, _|]. split; [done|]. by rewrite E1, E2, E3. }
  apply wp_bind. destruct (_ || _)%bool.
  - apply wp_bind. unfold btf_ext__reloc_func_info. eapply wp_mono; [apply (wp_copy b x (ex_func x) lf sizeof_bpf_func_info_min name off _ (p_func_info_rec_size p) _ n s X HO Hu Hd ltac:(by unfold sizeof_bpf_func_info_min) Hf HNf Hn If)|].
    intros [[e info] cnt] s1 (HO1 & K1 & Hc). assert (Hsc : forall fi fs fc, same_code p (set_func_info p fi fs fc)) by (intros fi fs fc; exists fi, fs, fc, (p_line_info p), (p_line_info_rec_size p), (p_line_info_cnt p); by destruct p).
    destruct Hc as [(-> & Hne & I2)|(He & -> & ->)].
    + cbn [negb Z.eqb]. apply wp_ret. by apply Hline.
    + rewrite (proj2 (Z.eqb_neq _ _)) by lia. cbn [negb]. apply wp_ret, wp_ret. split; [done|]. split; [done|]. split; [done|]. done.
  - apply wp_ret. apply Hline; try done. apply same_code_refl.
Qed.

(** ** Instructions *)

(** The instructions a relocation changes, and whether they and the map exist. *)
Definition slots (r : reloc_desc) : list Z := match r with RELO_LD64 i _ | RELO_CALL i _ => [i] | RELO_DATA i _ => [i; i + 1] end.
Definition reloc_fits (o : bpf_object) (n : Z) (r : reloc_desc) : Prop :=
  match r with
  | RELO_LD64 i m | RELO_DATA i m => 0 <= i /\ i + 1 < n /\ 0 <= m < lenZ (o_maps o)
  | RELO_CALL i _ => 0 <= i < n
  end.
Abbreviation at_ l i := (l !! Z.to_nat i).
(** [ins0] before, [ins] after: loads of a map's address get the map's descriptor, loads of
    an address in a map's value also move the offset to the second slot, and a call that
    was to instruction [imm + 1] of .text is to the same one of the appended copy. *)
Definition reloc_done (o : bpf_object) (ins0 ins : list bpf_insn) (r : reloc_desc) : Prop :=
  match r with
  | RELO_LD64 i m => exists a mp, at_ ins0 i = Some a /\ at_ (o_maps o) m = Some mp /\
      at_ ins i = Some (Bpf_insn (code a) (dst_reg a) BPF_PSEUDO_MAP_FD (off a) (m_fd mp))
  | RELO_DATA i m => exists a b mp, at_ ins0 i = Some a /\ at_ ins0 (i + 1) = Some b /\ at_ (o_maps o) m = Some mp /\
      at_ ins i = Some (Bpf_insn (code a) (dst_reg a) BPF_PSEUDO_MAP_VALUE (off a) (m_fd mp)) /\
      at_ ins (i + 1) = Some (Bpf_insn (code b) (dst_reg b) (src_reg b) (off b) (imm a))
  | RELO_CALL i _ => exists a, at_ ins0 i = Some a /\
      at_ ins i = Some (Bpf_insn (code a) (dst_reg a) (src_reg a) (off a) (s32 (imm a + lenZ ins0 - i)))
  end.
Lemma setZ_at {A} (l : list A) i v j : 0 <= i < lenZ l -> 0 <= j -> at_ (setZ l i v) j = if j =? i then Some v else at_ l j.
Proof.
  intros Hi Hj. unfold setZ. destruct (Z.eqb_spec j i) as [->|Hne]; [apply list_lookup_insert_eq; lia|]. apply list_lookup_insert_ne. lia.
Qed.
Lemma setZ_len {A} (l : list A) i v : length (setZ l i v) = length l.
Proof. apply length_insert. Qed.
Lemma lookup_some {A} (l : list A) i : 0 <= i < lenZ l -> exists a, at_ l i = Some a.
Proof. intros Hi. destruct (lookup_lt_is_Some_2 l (Z.to_nat i)) as [a Ha]; [lia|by exists a]. Qed.
Lemma reloc_ld64_spec ins i fd d : 0 <= i -> i + 1 < lenZ ins -> exists a b ins', at_ ins i = Some a /\ at_ ins (i + 1) = Some b /\
  reloc_ld64 ins i fd d = Some ins' /\ length ins' = length ins /\
  at_ ins' i = Some (Bpf_insn (code a) (dst_reg a) (if d then BPF_PSEUDO_MAP_VALUE else BPF_PSEUDO_MAP_FD) (off a) fd) /\
  (d = true -> at_ ins' (i + 1) = Some (Bpf_insn (code b) (dst_reg b) (src_reg b) (off b) (imm a))) /\
  (forall k, 0 <= k -> k <> i -> (d = true -> k <> i + 1) -> at_ ins' k = at_ ins k).
Proof.
  intros Hi Hn. destruct (lookup_some ins i ltac:(lia)) as [a Ha]. destruct (lookup_some ins (i + 1) ltac:(lia)) as [b Hb].
  unfold reloc_ld64. replace (0 <=? i) with true by lia. cbn [negb]. rewrite Ha, Hb. cbn [mbind option_bind]. exists a, b. eexists.
  split; [done|]. split; [done|]. split; [done|]. destruct d.
  - split; [by rewrite !setZ_len|]. split; [rewrite setZ_at, Z.eqb_refl by (rewrite ?setZ_len; lia); done|]. split.
    + intros _. rewrite setZ_at by (rewrite ?setZ_len; lia). rewrite (proj2 (Z.eqb_neq _ _)) by lia. rewrite setZ_at, Z.eqb_refl by lia. done.
    + intros k Hk H1 H2. specialize (H2 eq_refl). rewrite setZ_at by (rewrite ?setZ_len; lia). rewrite (proj2 (Z.eqb_neq _ _)) by lia.
      rewrite setZ_at by lia. by rewrite (proj2 (Z.eqb_neq _ _)) by lia.
  - split; [by rewrite setZ_len|]. split; [rewrite setZ_at, Z.eqb_refl by lia; done|]. split; [done|].
    intros k Hk H1 _. rewrite setZ_at by lia. by rewrite (proj2 (Z.eqb_neq _ _)) by lia.
Qed.

(** The instructions of .text, which calls append. *)
Definition text_of (o : bpf_object) : list bpf_insn :=
  match bpf_object__find_prog_by_idx o (o_text_shndx o) with
  | Some t => match o_programs o !! Z.to_nat t with Some p => p_insns p | None => [] end
  | None => []
  end.
Definition is_call (r : reloc_desc) : bool := match r with RELO_CALL _ _ => true | _ => false end.
(** [ins0] with the relocations [rs] done. *)
Record relocated (o : bpf_object) (ins0 : list bpf_insn) (rs : list reloc_desc) (ins : list bpf_insn) : Prop := {
  rl_done : Forall (reloc_done o ins0 ins) rs;
  rl_other : forall k, 0 <= k < lenZ ins0 -> k ∉ concat (map slots rs) -> at_ ins k = at_ ins0 k;
  rl_text : drop (length ins0) ins = if existsb is_call rs then text_of o else []
}.
Lemma reloc_done_same o ins0 ins ins' r : (forall k, k ∈ slots r -> at_ ins' k = at_ ins k) -> reloc_done o ins0 ins r -> reloc_done o ins0 ins' r.
Proof.
  intros H. destruct r as [i m|i t|i m]; cbn [reloc_done slots] in *.
  - intros (a & mp & H1 & H2 & H3). exists a, mp. rewrite H by (by left). done.
  - intros (a & H1 & H2). exists a. rewrite H by (by left). done.
  - intros (a & b & mp & H1 & H2 & H3 & H4 & H5). exists a, b, mp. rewrite !H by (repeat first [by left|right]). done.
Qed.
Lemma slots_fit o n r k : reloc_fits o n r -> k ∈ slots r -> 0 <= k < n.
Proof. destruct r; cbn; intros Hf Hk; rewrite ?elem_of_cons, ?elem_of_nil in Hk; lia. Qed.
Lemma relocated_step o ins0 rs r ins ins' : relocated o ins0 rs ins -> Forall (reloc_fits o (lenZ ins0)) rs -> NoDup (concat (map slots (rs ++ [r]))) ->
  reloc_done o ins0 ins' r -> (forall k, 0 <= k < lenZ ins0 -> k ∉ slots r -> at_ ins' k = at_ ins k) ->
  drop (length ins0) ins' = (if existsb is_call (rs ++ [r]) then text_of o else []) -> relocated o ins0 (rs ++ [r]) ins'.
Proof.
  intros [R1 R2 R3] HF HN Hr Ho Ht. rewrite map_app, concat_app in HN. cbn [map concat] in HN. rewrite app_nil_r in HN.
  apply list.NoDup_app in HN as (_ & Hdis & _). split; [|intros k Hk Hn; rewrite map_app, concat_app in Hn; cbn [map concat] in Hn; rewrite app_nil_r, elem_of_app in Hn; rewrite Ho by tauto; apply R2; tauto|done].
  apply Forall_app. split; [|by apply List.Forall_cons]. rewrite list.Forall_forall in *. intros r' Hr'. eapply reloc_done_same; [|by apply R1].
  intros k Hk. apply Ho; [by eapply slots_fit; [apply HF|]|]. apply Hdis. apply list_elem_of_In, in_concat. exists (slots r').
  split; [apply in_map, list_elem_of_In; done|by apply list_elem_of_In].
Qed.
(** A program and what relocation may have made of it. *)
Definition moved (p q : bpf_program) : Prop :=
  exists ins main fi fs fc li ls lc, q = set_main_prog_cnt (set_insns (with_infos p fi fs fc li ls lc) ins) main.
Lemma moved_insns p q ins : moved p q -> moved p (set_insns q ins).
Proof. intros (i & main & fi & fs & fc & li & ls & lc & ->). by exists ins, main, fi, fs, fc, li, ls, lc. Qed.
Lemma moved_text p q q' ins main : moved p q -> same_code q q' -> moved p (set_main_prog_cnt (set_insns q' ins) main).
Proof.
  intros (i & main0 & fi & fs & fc & li & ls & lc & ->) (fi' & fs' & fc' & li' & ls' & lc' & ->). by exists ins, main, fi', fs', fc', li', ls', lc'.
Qed.
Lemma moved_code p q q' : moved p q -> same_code q q' -> moved p q'.
Proof.
  intros (i & main0 & fi & fs & fc & li & ls & lc & ->) (fi' & fs' & fc' & li' & ls' & lc' & ->). by exists i, main0, fi', fs', fc', li', ls', lc'.
Qed.
(** The state of the loop. *)
Record halfway (o : bpf_object) (p q : bpf_program) (rs : list reloc_desc) : Prop := {
  hw_moved : moved p q;
  hw_ins : relocated o (p_insns p) rs (p_insns q);
  hw_len : (length (p_insns p) <= length (p_insns q))%nat;
  hw_main : p_main_prog_cnt q = if existsb is_call rs then lenZ (p_insns p) else 0;
  hw_infos : infos_ok o (if existsb is_call rs then 2 else 1) q
}.
Lemma infos_insns o n q ins : infos_ok o n q -> infos_ok o n (set_insns q ins).
Proof. done. Qed.
Lemma halfway_set o p q rs r ins' : halfway o p q rs -> existsb is_call (rs ++ [r]) = existsb is_call rs -> Forall (reloc_fits o (lenZ (p_insns p))) rs ->
  NoDup (concat (map slots (rs ++ [r]))) -> length ins' = length (p_insns q) -> reloc_done o (p_insns p) ins' r ->
  (forall k, 0 <= k -> k ∉ slots r -> at_ ins' k = at_ (p_insns q) k) -> (forall k, k ∈ slots r -> k < lenZ (p_insns p)) ->
  halfway o p (set_insns q ins') (rs ++ [r]).
Proof.
  intros [H1 H2 H3 H4 H5] Hc HF HN Hl Hd Ho Hs. split; rewrite ?Hc; cbn [set_insns p_insns p_main_prog_cnt]; try done; [by apply moved_insns| |lia].
  eapply relocated_step; [exact H2|done|done|done|intros k Hk; apply Ho; lia|]. rewrite Hc, <- (rl_text _ _ _ _ H2).
  apply list_eq. intros j. rewrite !lookup_drop. specialize (Ho (Z.of_nat (length (p_insns p) + j)) ltac:(lia)). rewrite Nat2Z.id in Ho.
  apply Ho. intros Hin. apply Hs in Hin. lia.
Qed.

Lemma infos_more o n n' p : infos_ok o n p -> n <= n' -> infos_ok o n' p.
Proof. unfold infos_ok. destruct (o_btf_ext o); [|done]. intros [H1 H2] Hn. by split; eapply info_ok_more. Qed.
Lemma infos_same o n p p' : infos_ok o n p -> p_func_info p' = p_func_info p -> p_func_info_rec_size p' = p_func_info_rec_size p ->
  p_func_info_cnt p' = p_func_info_cnt p -> p_line_info p' = p_line_info p -> p_line_info_rec_size p' = p_line_info_rec_size p ->
  p_line_info_cnt p' = p_line_info_cnt p -> infos_ok o n p'.
Proof. unfold infos_ok. intros H -> -> -> -> -> ->. done. Qed.
Lemma halfway_exact o p q rs : halfway o p q rs -> existsb is_call rs = false -> length (p_insns q) = length (p_insns p).
Proof.
  intros H Hc. pose proof (rl_text _ _ _ _ (hw_ins _ _ _ _ H)) as Ht. rewrite Hc in Ht. pose proof (hw_len _ _ _ _ H).
  apply (f_equal length) in Ht. rewrite length_drop in Ht. cbn in Ht. lia.
Qed.
Lemma same_code_insns p p' : same_code p p' -> p_insns p' = p_insns p /\ p_main_prog_cnt p' = p_main_prog_cnt p /\ p_idx p' = p_idx p.
Proof. by intros (? & ? & ? & ? & ? & ? & ->). Qed.
(** Appending .text for the first call. *)
Lemma wp_append_text o p q rs s X : own s X -> ext_ok o -> halfway o p q rs -> existsb is_call rs = false ->
  wp (append_text q o) (fun '(e, q') s' => own s' X /\ kept X s s' /\ moved p q' /\ infos_ok o 2 q' /\
    (e = 0 -> p_insns q' = p_insns q ++ text_of o /\ p_main_prog_cnt q' = lenZ (p_insns p))) s.
Proof using BO.
  intros HO HE HW Hc. pose proof (halfway_exact _ _ _ _ HW Hc) as Hlen. destruct HW as [H1 H2 H3 H4 H5]. rewrite Hc in *.
  pose proof (infos_more o 1 2 q H5 ltac:(lia)) as H5'. unfold append_text, text_of.
  destruct (bpf_object__find_prog_by_idx o (o_text_shndx o)) as [t|] eqn:Et; [|by apply wp_ret].
  unfold bpf_object__find_prog_by_idx in Et. destruct (list_find _ _) as [[j text]|] eqn:Ef; [|done]. injection Et as <-.
  apply list_find_Some in Ef as (Ej & _ & _). rewrite Nat2Z.id, Ej. apply wp_bind. eapply wp_deref; [reflexivity|].
  apply wp_bind. eapply own_malloc; [exact HO|]. intros ok s1 HO1 K1 _. destruct ok; cbn [negb]; [|apply wp_ret; by repeat (split; [done|])].
  assert (Hend : forall e q1 s2, own s2 X -> kept X s s2 -> same_code q q1 -> infos_ok o 2 q1 ->
    wp (if negb (e =? 0) then ret (e, q1) else ret (0, set_main_prog_cnt (set_insns q1 (p_insns q1 ++ p_insns text)) (lenZ (p_insns q1))))
      (fun '(e, q') s' => own s' X /\ kept X s s' /\ moved p q' /\ infos_ok o 2 q' /\
        (e = 0 -> p_insns q' = p_insns q ++ p_insns text /\ p_main_prog_cnt q' = lenZ (p_insns p))) s2).
  { intros e q1 s2 HO2 K2 Hsc HI. destruct (Z.eqb_spec e 0); cbn [negb]; apply wp_ret; (split; [done|]; split; [done|]).
    - split; [by eapply moved_text|]. split; [done|]. intros _. destruct (same_code_insns _ _ Hsc) as (-> & _ & _). cbn. by rewrite Hlen.
    - split; [by eapply moved_code|]. by split. }
  apply wp_bind. destruct (o_btf_ext o) as [x|] eqn:Ex; [|apply wp_ret; apply Hend; [done|done|apply same_code_refl|done]].
  eapply wp_mono; [apply (wp_reloc_ext q o x _ _ 1 s1 X HO1 HE Ex H5 ltac:(lia))|]. intros [e q1] s2 (HO2 & K2 & Hsc & HI).
  apply Hend; [done|by eapply kept_trans|done|done].
Qed.
Lemma existsb_app_call rs r : existsb is_call (rs ++ [r]) = existsb is_call rs || is_call r.
Proof. rewrite existsb_app. cbn. by rewrite orb_false_r. Qed.
Definition step_post (o : bpf_object) (p : bpf_program) (rs : list reloc_desc) (s : bsys BK) (X : list Z) (r : Z * bpf_program) (s' : bsys BK) : Prop :=
  own s' X /\ kept X s s' /\ if r.1 =? 0 then halfway o p r.2 rs else moved p r.2 /\ infos_ok o 2 r.2.
Lemma wp_reloc_text o p q rs i t s X : own s X -> ext_ok o -> halfway o p q rs -> Forall (reloc_fits o (lenZ (p_insns p))) rs -> 0 <= i < lenZ (p_insns p) ->
  NoDup (concat (map slots (rs ++ [RELO_CALL i t]))) -> wp (bpf_program__reloc_text q o i) (step_post o p (rs ++ [RELO_CALL i t]) s X) s.
Proof using BO.
  intros HO HE HW HF Hi HN. assert (HI2 : infos_ok o 2 q) by (eapply infos_more; [apply HW|destruct (existsb is_call rs); lia]).
  unfold bpf_program__reloc_text. destruct (p_idx q =? o_text_shndx o).
  { apply wp_ret. split; [done|]. split; [apply kept_refl|]. split; [apply HW|done]. }
  assert (Hat : at_ (p_insns q) i = at_ (p_insns p) i).
  { apply (rl_other _ _ _ _ (hw_ins _ _ _ _ HW)); [done|]. intros Hin. rewrite map_app, concat_app in HN. apply list.NoDup_app in HN as (_ & Hd & _).
    apply (Hd i Hin). cbn. by left. }
  destruct (lookup_some (p_insns p) i Hi) as [a Ha].
  assert (Hend : forall q1 s1, own s1 X -> kept X s s1 -> moved p q1 -> infos_ok o 2 q1 -> p_main_prog_cnt q1 = lenZ (p_insns p) ->
    (forall k, 0 <= k < lenZ (p_insns p) -> at_ (p_insns q1) k = at_ (p_insns q) k) -> drop (length (p_insns p)) (p_insns q1) = text_of o ->
    (length (p_insns p) <= length (p_insns q1))%nat ->
    wp (guard_ (0 <=? i) ;;; let! i' := deref (at_ (p_insns q1) i) in
        ret (0, set_insns q1 (setZ (p_insns q1) i (with_imm i' (s32 (imm i' + p_main_prog_cnt q1 - i)))))) (step_post o p (rs ++ [RELO_CALL i t]) s X) s1).
  { intros q1 s1 HO1 K1 Hm HI Hmain Hsame Htext Hlen. apply wp_bind, wp_guard; [lia|]. apply wp_bind. eapply wp_deref; [rewrite Hsame, Hat by lia; exact Ha|].
    apply wp_ret. split; [done|]. split; [done|]. cbn [fst snd Z.eqb]. split; rewrite ?existsb_app_call, ?orb_true_r; cbn [set_insns p_insns p_main_prog_cnt]; try done; [by apply moved_insns| |by rewrite setZ_len].
    eapply relocated_step; [apply HW|done|done| | |].
    - exists a. split; [done|]. rewrite setZ_at, Z.eqb_refl by lia. by rewrite Hmain.
    - intros k Hk Hn. rewrite setZ_at by lia. rewrite (proj2 (Z.eqb_neq k i)) by (intros ->; apply Hn; by left). by apply Hsame.
    - rewrite existsb_app_call. cbn [is_call]. rewrite orb_true_r. unfold setZ. rewrite drop_insert_lt by lia. done. }
  apply wp_bind. rewrite (hw_main _ _ _ _ HW). destruct (existsb is_call rs) eqn:Ec.
  - rewrite (proj2 (Z.eqb_neq (lenZ (p_insns p)) 0)) by lia. apply wp_ret. cbn [negb Z.eqb].
    apply Hend; try done; [apply HW|by rewrite (hw_main _ _ _ _ HW), Ec| |apply HW].
    pose proof (rl_text _ _ _ _ (hw_ins _ _ _ _ HW)) as Ht. by rewrite Ec in Ht.
  - cbn [Z.eqb]. eapply wp_mono; [by apply (wp_append_text o p q rs s X)|]. intros [e q1] s1 (HO1 & K1 & Hm & HI & H0). pose proof (halfway_exact _ _ _ _ HW Ec) as Hlen.
    destruct (Z.eqb_spec e 0) as [->|Hne]; cbn [negb].
    + destruct (H0 eq_refl) as [E1 E2]. apply Hend; try done; rewrite ?E1.
      * intros k Hk. apply lookup_app_l. lia.
      * by rewrite <- Hlen, drop_app_length.
      * rewrite length_app. lia.
    + apply wp_ret. split; [done|]. split; [done|]. cbn [fst snd]. by rewrite (proj2 (Z.eqb_neq _ _)).
Qed.
Lemma wp_reloc_ld64 o p q rs (i m : Z) (d : bool) s X : own s X -> halfway o p q rs -> Forall (reloc_fits o (lenZ (p_insns p))) rs ->
  let r := if d then RELO_DATA i m else RELO_LD64 i m : reloc_desc in
  reloc_fits o (lenZ (p_insns p)) r -> NoDup (concat (map slots (rs ++ [r]))) ->
  wp (if i + 1 >=? s32 (lenZ (p_insns q)) then ret (- LIBBPF_ERRNO__RELOC, q)
      else guard_ (0 <=? m) ;;; let! mp := deref (at_ (o_maps o) m) in let! insns := deref (reloc_ld64 (p_insns q) i (m_fd mp) d) in ret (0, set_insns q insns))
    (step_post o p (rs ++ [r]) s X) s.
Proof using BO.
  intros HO HW HF r Hr HN. assert (Hfit : 0 <= i /\ i + 1 < lenZ (p_insns p) /\ 0 <= m < lenZ (o_maps o)) by (unfold r in Hr; by destruct d).
  pose proof (hw_len _ _ _ _ HW) as Hl1. destruct (_ >=? _).
  { apply wp_ret. split; [done|]. split; [apply kept_refl|]. split; [apply HW|]. eapply infos_more; [apply HW|destruct (existsb is_call rs); lia]. }
  destruct (lookup_some (o_maps o) m ltac:(lia)) as [mp Hmp]. apply wp_bind, wp_guard; [lia|]. apply wp_bind. eapply wp_deref; [exact Hmp|].
  destruct (reloc_ld64_spec (p_insns q) i (m_fd mp) d) as (a & b & ins' & Ha & Hb & -> & Hll & Hi & Hi1 & Hoth); [lia..|].
  apply wp_bind. eapply wp_deref; [reflexivity|]. apply wp_ret. split; [done|]. split; [apply kept_refl|]. cbn [fst snd Z.eqb].
  assert (Hin : forall k, k ∈ slots r -> at_ (p_insns q) k = at_ (p_insns p) k).
  { intros k Hk. apply (rl_other _ _ _ _ (hw_ins _ _ _ _ HW)); [by eapply slots_fit|]. intros Hin. rewrite map_app, concat_app in HN.
    apply list.NoDup_app in HN as (_ & Hd & _). apply (Hd k Hin). cbn. by rewrite app_nil_r. }
  apply halfway_set; try done.
  - rewrite existsb_app_call. unfold r. destruct d; cbn; by rewrite orb_false_r.
  - unfold r in *. destruct d; cbn [reloc_done slots] in *.
    + exists a, b, mp. rewrite <- !Hin by (repeat first [by left|right]). by rewrite Hi1.
    + exists a, mp. rewrite <- Hin by by left. done.
  - intros k Hk Hn. apply Hoth; [done|intros ->; apply Hn; unfold r; destruct d; by left|]. intros -> ->. apply Hn. unfold r. right. by left.
  - intros k Hk. by eapply slots_fit.
Qed.
Definition reloc_post (o : bpf_object) (p : bpf_program) (rs : list reloc_desc) (s : bsys BK) (X : list Z) (r : Z * bpf_program) (s' : bsys BK) : Prop :=
  own s' X /\ kept X s s' /\ exists q, moved p q /\ infos_ok o 2 q /\ (r.2 = q \/ r.2 = set_reloc q None) /\
    (r.1 = 0 -> relocated o (p_insns p) rs (p_insns q)).
Lemma wp_reloc_loop o p X : ext_ok o ->
  forall rs done q s s0, own s X -> kept X s0 s -> halfway o p q done -> Forall (reloc_fits o (lenZ (p_insns p))) (done ++ rs) ->
    NoDup (concat (map slots (done ++ rs))) -> wp (reloc_insns q o rs) (reloc_post o p (done ++ rs) s0 X) s.
Proof using BO.
  intros HE. induction rs as [|r rs IH]; intros done q s s0 HO HK HW HF HN; cbn [reloc_insns].
  { apply wp_ret. rewrite app_nil_r in *. split; [done|]. split; [done|]. exists q. split; [apply HW|]. split; [|split; [by right|]].
    - eapply infos_more; [apply HW|destruct (existsb is_call done); lia].
    - intros _. apply HW. }
  assert (E : done ++ r :: rs = (done ++ [r]) ++ rs) by by rewrite <- (assoc_L (++)). rewrite E in *. pose proof HF as [HF1 _]%Forall_app.
  pose proof HF1 as [HF0 HFr]%Forall_app. apply List.Forall_inv in HFr. assert (HN1 : NoDup (concat (map slots (done ++ [r])))).
  { rewrite map_app, concat_app in HN. by apply list.NoDup_app in HN as (? & _ & _). }
  apply wp_bind. eapply wp_mono with (Q := step_post o p (done ++ [r]) s X).
  - destruct r as [i m|i t|i m].
    + by apply (wp_reloc_ld64 o p q done i m false s X).
    + by apply wp_reloc_text.
    + by apply (wp_reloc_ld64 o p q done i m true s X).
  - intros [e q1] s1 (HO1 & K1 & Hc). cbn [fst snd] in Hc. assert (K01 : kept X s0 s1) by by eapply kept_trans. destruct (Z.eqb_spec e 0) as [->|Hne]; cbn [negb].
    + by apply (IH (done ++ [r]) q1 s1).
    + apply wp_ret. destruct Hc as [Hm HI]. split; [done|]. split; [done|]. exists q1. cbn [fst snd]. split; [done|]. split; [done|]. split; [by left|done].
Qed.
(** A program before relocation. *)
Record prog_ready (o : bpf_object) (p : bpf_program) : Prop := {
  pr_infos : infos_ok o 0 p;
  pr_main : p_main_prog_cnt p = 0;
  pr_fits : Forall (reloc_fits o (lenZ (p_insns p))) (default [] (p_reloc p));
  pr_slots : NoDup (concat (map slots (default [] (p_reloc p))))
}.
Lemma moved_self p : moved p p.
Proof.
  exists (p_insns p), (p_main_prog_cnt p), (p_func_info p), (p_func_info_rec_size p), (p_func_info_cnt p), (p_line_info p), (p_line_info_rec_size p), (p_line_info_cnt p).
  by destruct p.
Qed.
Lemma relocated_none o ins : relocated o ins [] ins.
Proof. split; [constructor|done|]. by rewrite drop_all. Qed.
Lemma wp_relocate o p s X : own s X -> ext_ok o -> prog_ready o p ->
  wp (bpf_program__relocate p o) (reloc_post o p (default [] (p_reloc p)) s X) s.
Proof using BO.
  intros HO HE [R1 R2 R3 R4]. unfold bpf_program__relocate. apply wp_bind.
  assert (Hrest : forall q s1, own s1 X -> kept X s s1 -> same_code p q -> infos_ok o 1 q ->
    wp (match p_reloc q with None => ret (0, q) | Some relocs => reloc_insns q o relocs end) (reloc_post o p (default [] (p_reloc p)) s X) s1).
  { intros q s1 HO1 K1 Hsc HI. assert (Er : p_reloc q = p_reloc p) by (by destruct Hsc as (? & ? & ? & ? & ? & ? & ->)). rewrite Er.
    destruct (same_code_insns _ _ Hsc) as (Ei & Em & _). assert (Hm : moved p q) by (eapply moved_code; [apply moved_self|done]).
    destruct (p_reloc p) as [rs|]; cbn [default from_option id] in *.
    - apply (wp_reloc_loop o p X HE rs [] q s1 s HO1 K1); [|done|done]. split; rewrite ?Ei, ?Em; try done. apply relocated_none.
    - apply wp_ret. split; [done|]. split; [done|]. exists q. split; [done|]. split; [by eapply infos_more; [exact HI|lia]|]. split; [by left|].
      intros _. rewrite Ei. apply relocated_none. }
  destruct (o_btf_ext o) as [x|] eqn:Ex.
  - eapply wp_mono; [apply (wp_reloc_ext p o x _ 0 0 s X HO HE Ex R1 ltac:(lia))|]. intros [e q] s1 (HO1 & K1 & Hsc & HI).
    destruct (negb (e =? 0)) eqn:Ee; [|by apply Hrest]. apply negb_true_iff, Z.eqb_neq in Ee. apply wp_ret. split; [done|]. split; [done|]. exists q. cbn [fst snd].
    split; [eapply moved_code; [apply moved_self|done]|]. split; [eapply infos_more; [exact HI|lia]|]. split; [by left|done].
  - apply wp_ret. cbn [negb Z.eqb]. apply Hrest; [done|apply kept_refl|apply same_code_refl|]. eapply infos_more; [exact R1|lia].
Qed.

(** ** All the programs *)

(** Program [p] of the object [o] became [p'].  Between, the object had the same maps; its
    .text was already relocated or was not. *)
Definition prog_relocated (o o' : bpf_object) (p p' : bpf_program) : Prop :=
  exists oi, o_maps oi = o_maps o /\ (text_of oi = text_of o \/ text_of oi = text_of o') /\
    relocated oi (p_insns p) (default [] (p_reloc p)) (p_insns p').
(** The fields relocation keeps. *)
Definition touched (o : bpf_object) (p p' : bpf_program) : Prop :=
  exists q, moved p q /\ infos_ok o 2 q /\ (p' = q \/ p' = set_reloc q None).
Lemma touched_idx o p p' : touched o p p' -> p_idx p' = p_idx p.
Proof. by intros (q & (? & ? & ? & ? & ? & ? & ? & ? & ->) & _ & [->| ->]). Qed.
Lemma find_idx_same (o : bpf_object) l x : map p_idx l = map p_idx (o_programs o) ->
  bpf_object__find_prog_by_idx (with_programs o l) x = bpf_object__find_prog_by_idx o x.
Proof.
  intros E. unfold bpf_object__find_prog_by_idx. cbn [with_programs o_programs].
  assert (H : forall l, match list_find (fun p => p_idx p = x) l with Some (i, _) => Some (Z.of_nat i) | None => None end =
    match list_find (fun y => y = x) (map p_idx l) with Some (i, _) => Some (Z.of_nat i) | None => None end).
  { clear. induction l as [|p l IH]; [done|]. cbn [list_find map]. destruct (decide (p_idx p = x)); [done|]. destruct (list_find _ l) as [[i q]|], (list_find _ (map _ l)) as [[j y]|]; cbn in *; try done.
    injection IH as IH. f_equal. lia. }
  by rewrite !H, E.
Qed.
Lemma find_idx_lookup o x t : bpf_object__find_prog_by_idx o x = Some t -> exists p, o_programs o !! Z.to_nat t = Some p.
Proof.
  unfold bpf_object__find_prog_by_idx. destruct (list_find _ _) as [[i p]|] eqn:E; [|done]. intros [= <-]. apply list_find_Some in E as (E & _). rewrite Nat2Z.id. by exists p.
Qed.
(** The programs up to [i] are done. *)
Record relocating (o : bpf_object) (i : nat) (l : list bpf_program) : Prop := {
  rg_touched : Forall2 (touched o) (o_programs o) l;
  rg_done : forall j p p', (j < i)%nat -> o_programs o !! j = Some p -> l !! j = Some p' -> prog_relocated o (with_programs o l) p p';
  rg_rest : forall j, (i <= j)%nat -> l !! j = o_programs o !! j
}.
Lemma touched_idxs o l : Forall2 (touched o) (o_programs o) l -> map p_idx l = map p_idx (o_programs o).
Proof. induction 1 as [|p p' ps l Hp _ IH]; [done|]. cbn. by rewrite IH, (touched_idx _ _ _ Hp). Qed.
Lemma text_insert o l i p p' : Forall2 (touched o) (o_programs o) l -> l !! i = Some p -> o_programs o !! i = Some p -> touched o p p' ->
  text_of (with_programs o l) = text_of (with_programs o (<[i := p']> l)) \/ text_of (with_programs o l) = text_of o.
Proof.
  intros HF Hl Ho Hp. pose proof (touched_idxs _ _ HF) as Ei. assert (Ei' : map p_idx (<[i := p']> l) = map p_idx (o_programs o)).
  { rewrite <- Ei. apply list_eq. intros j. rewrite !list_lookup_fmap. destruct (decide (i = j)) as [<-|Hne]; [|by rewrite list_lookup_insert_ne].
    rewrite list_lookup_insert_eq by (by eapply lookup_lt_Some). rewrite Hl. cbn. by rewrite (touched_idx _ _ _ Hp). }
  unfold text_of. cbn [with_programs o_text_shndx]. rewrite !(find_idx_same o) by done. destruct (bpf_object__find_prog_by_idx o _) as [t|]; [|by left].
  cbn [with_programs o_programs]. destruct (decide (Z.to_nat t = i)) as [->|Hne]; [right; by rewrite Hl, Ho|left]. by rewrite list_lookup_insert_ne.
Qed.
Lemma relocating_step o i l p p' oi : relocating o i l -> o_programs o !! i = Some p -> touched o p p' -> oi = with_programs o l ->
  relocated oi (p_insns p) (default [] (p_reloc p)) (p_insns p') -> relocating o (S i) (<[i := p']> l).
Proof.
  intros [R1 R2 R3] Hp Ht -> Hr. assert (Hl : l !! i = Some p) by by rewrite R3.
  pose proof (text_insert o l i p p' R1 Hl Hp Ht) as Htx. split.
  - apply Forall2_lookup. intros j. destruct (decide (i = j)) as [<-|Hne].
    + rewrite Hp, list_lookup_insert_eq by (by eapply lookup_lt_Some). by constructor.
    + rewrite list_lookup_insert_ne by done. by apply Forall2_lookup.
  - intros j q q' Hj Hq Hq'. destruct (decide (i = j)) as [<-|Hne].
    + rewrite list_lookup_insert_eq in Hq' by (by eapply lookup_lt_Some). assert (q = p) by congruence. assert (q' = p') by congruence. subst q q'.
      exists (with_programs o l). split; [done|]. split; [|done]. destruct Htx as [E|E]; rewrite E; [by right|by left].
    + rewrite list_lookup_insert_ne in Hq' by done. destruct (R2 j q q' ltac:(lia) Hq Hq') as (oj & E1 & E2 & E3). exists oj. split; [done|]. split; [|done].
      destruct E2 as [E2|E2]; [by left|]. rewrite E2. destruct Htx as [E|E]; rewrite E; [by right|by left].
  - intros j Hj. rewrite list_lookup_insert_ne by lia. apply R3. lia.
Qed.
Lemma prog_ready_with o l p : prog_ready o p -> prog_ready (with_programs o l) p.
Proof. by intros [H1 H2 H3 H4]. Qed.
Lemma wp_relocate_programs o X : ext_ok o -> Forall (prog_ready o) (o_programs o) ->
  forall n i l s, (i + n = length (o_programs o))%nat -> relocating o i l -> own s X ->
  wp (relocate_programs n i (with_programs o l)) (fun '(e, o') s' => own s' X /\ kept X s s' /\ exists l', o' = with_programs o l' /\
    Forall2 (touched o) (o_programs o) l' /\ (e = 0 -> Forall2 (prog_relocated o o') (o_programs o) l')) s.
Proof using BO.
  intros HE HR. induction n as [|n IH]; intros i l s Hn Hrel HO; cbn [relocate_programs].
  { apply wp_ret. split; [done|]. split; [apply kept_refl|]. exists l. split; [done|]. split; [apply Hrel|]. intros _. apply Forall2_same_length_lookup.
    pose proof (list.Forall2_length _ _ _ (rg_touched _ _ _ Hrel)). split; [done|]. intros j p p' Hp Hp'. apply (rg_done _ _ _ Hrel j); [|done|done].
    apply lookup_lt_Some in Hp. lia. }
  destruct (lookup_lt_is_Some_2 (o_programs o) i) as [p Hp]; [lia|]. pose proof (rg_rest _ _ _ Hrel i ltac:(lia)) as Hl. rewrite Hp in Hl.
  apply wp_bind. eapply wp_deref; [exact Hl|]. apply wp_bind.
  assert (Hpr : prog_ready (with_programs o l) p). { apply prog_ready_with. rewrite list.Forall_forall in HR. apply HR. by eapply list_elem_of_lookup_2. }
  eapply wp_mono; [apply (wp_relocate (with_programs o l) p s X HO HE Hpr)|]. intros [e p'] s1 (HO1 & K1 & q & Hm & HI & Hq & Hr). cbn [fst snd] in *.
  assert (Ht : touched o p p') by (exists q; by split). assert (Eins : p_insns p' = p_insns q) by (by destruct Hq as [->| ->]). cbn [with_programs o_programs].
  destruct (Z.eqb_spec e 0) as [->|Hne]; cbn [negb].
  - eapply wp_mono; [apply (IH (S i) (<[i := p']> l) s1); [lia| |done]|].
    + eapply relocating_step; [done|exact Hp|done|reflexivity|]. rewrite Eins. by apply Hr.
    + intros [e' o'] s2 (HO2 & K2 & Hrest). split; [done|]. split; [by eapply kept_trans|done].
  - apply wp_ret. split; [done|]. split; [done|]. exists (<[i := p']> l). split; [done|]. split; [|done].
    apply Forall2_lookup. intros j. destruct (decide (i = j)) as [<-|Hj].
    + rewrite Hp, list_lookup_insert_eq by (by eapply lookup_lt_Some). by constructor.
    + rewrite list_lookup_insert_ne by done. apply Forall2_lookup. apply Hrel.
Qed.

(** What the relocation of an object with .BTF.ext relies on: field relocation changes
    instructions in place and closes what it opens (Core.v). *)
Definition patched (p p' : bpf_program) : Prop := exists ins, p' = set_insns p ins /\ length ins = length (p_insns p).
Definition core_sound (core : bpf_object -> option path -> B (Z * bpf_object)) (o : bpf_object) : Prop :=
  o_btf_ext o <> None -> forall t s X, own s X -> wp (core o t) (fun '(e, o') s' => own s' X /\ kept X s s' /\
    exists l, o' = with_programs o l /\ Forall2 patched (o_programs o) l) s.
Lemma patched_refl l : Forall2 patched l l.
Proof. induction l as [|p l IH]; constructor; [|done]. exists (p_insns p). split; [by destruct p|done]. Qed.
Lemma prog_ready_patched o l p p' : prog_ready o p -> patched p p' -> prog_ready (with_programs o l) p'.
Proof. intros [H1 H2 H3 H4] (ins & -> & Hl). split; try done. cbn [set_insns p_insns p_reloc]. by rewrite Hl. Qed.
Lemma touched_patched o p p1 p' : patched p p1 -> touched o p1 p' -> touched o p p'.
Proof.
  intros (ins & -> & _) (q & (i & main & fi & fs & fc & li & ls & lc & ->) & HI & Hq). eexists. split; [|split; [exact HI|exact Hq]].
  by exists i, main, fi, fs, fc, li, ls, lc.
Qed.
Definition object_relocated (o o' : bpf_object) (l' : list bpf_program) : Prop :=
  exists l1, Forall2 patched (o_programs o) l1 /\ Forall2 (prog_relocated (with_programs o l1) o') l1 l'.
Lemma relocating_start o : Forall (fun p => infos_ok o 2 p) (o_programs o) -> relocating o 0 (o_programs o).
Proof.
  intros HI. split; [|intros j p p' Hj; lia|done]. induction HI as [|p l Hp _ IH]; constructor; [|done].
  exists p. split; [apply moved_self|]. split; [done|by left].
Qed.
Lemma wp_obj_relocate core o t s X : core_sound core o -> own s X -> ext_ok o -> Forall (prog_ready o) (o_programs o) ->
  wp (bpf_object__relocate core o t) (fun '(e, o') s' => own s' X /\ kept X s s' /\ exists l', o' = with_programs o l' /\
    Forall2 (touched o) (o_programs o) l' /\ (e = 0 -> object_relocated o o' l')) s.
Proof using BO.
  intros HC HO HE HR. unfold bpf_object__relocate. apply wp_bind.
  assert (Hrest : forall e l1 s1, own s1 X -> kept X s s1 -> Forall2 patched (o_programs o) l1 -> wp (if negb (e =? 0) then ret (e, with_programs o l1)
      else relocate_programs (length (o_programs (with_programs o l1))) 0 (with_programs o l1))
    (fun '(e, o') s' => own s' X /\ kept X s s' /\ exists l', o' = with_programs o l' /\ Forall2 (touched o) (o_programs o) l' /\ (e = 0 -> object_relocated o o' l')) s1).
  { intros e l1 s1 HO1 K1 HP. set (o1 := with_programs o l1).
    assert (HR1 : Forall (prog_ready o1) l1).
    { apply Forall_lookup. intros j p1 Hp1. destruct (Forall2_lookup_r _ _ _ _ _ HP Hp1) as (p & Hp & Hpp). eapply prog_ready_patched; [|exact Hpp].
      rewrite Forall_lookup in HR. by eapply HR. }
    assert (Htp : forall l2, Forall2 (touched o1) l1 l2 -> Forall2 (touched o) (o_programs o) l2).
    { intros l2 H2. clear -HP H2. revert l2 H2. induction HP as [|p p1 ps l1 Hp _ IH]; intros l2 H2; inversion H2 as [|? p2 ? l2' H21 H22]; subst; constructor; [|by apply IH].
      by eapply (touched_patched o). }
    assert (Hst : relocating o1 0 l1).
    { apply (relocating_start o1). eapply list.Forall_impl; [exact HR1|]. intros p [H _ _ _]. eapply infos_more; [exact H|lia]. }
    destruct (Z.eqb_spec e 0) as [->|Hne]; cbn [negb].
    - assert (E1 : o1 = with_programs o1 l1) by done. rewrite E1.
      eapply wp_mono; [apply (wp_relocate_programs o1 X HE HR1 (length l1) 0 l1 s1); done|]. intros [e' o'] s2 (HO2 & K2 & l' & -> & HT & HQ).
      split; [done|]. split; [by eapply kept_trans|]. exists l'. split; [done|]. split; [by apply Htp|]. intros H0. exists l1. split; [done|]. by apply HQ.
    - apply wp_ret. split; [done|]. split; [done|]. exists l1. split; [done|]. split; [apply Htp, Hst|done]. }
  pose proof (Hrest 0 (o_programs o) s HO (kept_refl X s) (patched_refl _)) as Hsame.
  replace (with_programs o (o_programs o)) with o in Hsame by by destruct o.
  destruct (o_btf_ext o) as [x|] eqn:Ex.
  - unfold bpf_object__relocate_core. destruct (negb (ei_len (ex_field x) =? 0)).
    + eapply wp_mono; [apply HC; [by rewrite Ex|exact HO]|]. intros [e o'] s1 (HO1 & K1 & l1 & -> & HP). by apply Hrest.
    + apply wp_ret, Hsame.
  - apply wp_ret, Hsame.
Qed.
End RelocRules.

(** ** The theorem *)

(** C9: relocating a program.  For a program whose relocations lie inside it, do not overlap
    and name maps of the object, [bpf_program__relocate] returns without reading or writing
    outside the instructions, and with result 0: every load of a map's address has the
    descriptor of that map; every load of an address in a map's value also has its offset
    in the second slot; every call that went to instruction [imm + 1] of .text goes to the
    same instruction of the copy of .text behind the program, which is there once; every
    other instruction of the program is as it was. *)
Theorem program_relocated `{BO : BpfKernelOk} (o : bpf_object) (p : bpf_program) (s : bsys BK) :
  ext_ok o -> prog_ready o p -> NoDup (fds (b_sys s)) -> Forall (fun f => 0 <= f) (fds (b_sys s)) ->
  exists e p' s', bpf_program__relocate p o s = Some ((e, p'), s') /\ bhas s' (fds (b_sys s)) /\
    (e = 0 -> relocated o (p_insns p) (default [] (p_reloc p)) (p_insns p')).
Proof.
  intros HE HR HN HP. assert (HO : own s (fds (b_sys s))) by (split; [unfold bhas; reflexivity|done]).
  destruct (proj1 (wp_run _ _ _) (wp_relocate o p s _ HO HE HR)) as ([e p'] & s' & E & (HF & _) & _ & q & _ & _ & Hq & Hr).
  exists e, p', s'. split; [done|]. split; [done|]. intros H0. cbn in *. destruct Hq as [->| ->]; by apply Hr.
Qed.

(** A program that loads a map's address and calls a function; .text with one function. *)
Definition demo_prog (idx : Z) (ins : list bpf_insn) (rs : list reloc_desc) : bpf_program :=
  Bpf_program idx [120] 0 [120] [120] ins 0 BPF_PROG_TYPE_XDP (Some rs) 0 [] None 0 0 None 0 0 None 0 0 0.
Definition demo_main : bpf_program :=
  demo_prog 3 (BPF_LD_MAP_FD 1 0 ++ [Bpf_insn (Z.lor BPF_JMP BPF_CALL) 0 1 0 (-1); BPF_EXIT_INSN]) [RELO_LD64 0 1; RELO_CALL 2 0].
Definition demo_text : bpf_program := demo_prog 2 [BPF_MOV64_IMM 0 2; BPF_EXIT_INSN] [].
Definition demo_relo : bpf_object :=
  let o := with_programs (with_maps (new_object [111] 0) [demo_map [97] 5; demo_map [98] 7]) [demo_text; demo_main] in
  Bpf_object (o_name o) (o_license o) 0 (o_programs o) (o_maps o) None None false true (-1) (-1) 2 (-1) (-1) (-1) None None (Caps false false false false).
Lemma program_relocated_witness : exists p' s', bpf_program__relocate demo_main demo_relo table_state = Some ((0, p'), s') /\
  relocated demo_relo (p_insns demo_main) [RELO_LD64 0 1; RELO_CALL 2 0] (p_insns p') /\
  map imm (p_insns p') = [7; 0; 1; 0; 2; 0] /\ map src_reg (p_insns p') = [1; 0; 1; 0; 0; 0].
Proof.
  assert (HR : prog_ready demo_relo demo_main).
  { split; [done|done| |by apply (bool_decide_unpack _); vm_compute].
    repeat (apply List.Forall_cons; [cbn; lia|]). apply List.Forall_nil. }
  destruct (program_relocated (BO := table_kernel_ok) demo_relo demo_main table_state) as (e & p' & s' & E & _ & H0); [done|exact HR| |repeat (apply List.Forall_cons; [cbn; lia|]); apply List.Forall_nil|].
  { apply (bool_decide_unpack _). by vm_compute. }
  pose proof E as E'. vm_compute in E'. injection E' as <- <- <-. eexists _, _. split; [exact E|]. split; [by apply H0|done].
Defined.
(** The order of the sections matters: a program before .text gets the copy of .text with its
    relocations still to do. *)
Lemma text_copied_too_early :
  let text := demo_prog 2 (BPF_LD_MAP_FD 1 0 ++ [BPF_EXIT_INSN]) [RELO_LD64 0 1] in
  let main := demo_prog 1 [Bpf_insn (Z.lor BPF_JMP BPF_CALL) 0 1 0 (-1); BPF_EXIT_INSN] [RELO_CALL 0 0] in
  match bpf_object__relocate (BK := table_kernel) (fun o _ => ret (0, o)) (with_programs demo_relo [main; text]) None table_state with
  | Some ((e, o'), _) => e = 0 /\ map (fun p => map imm (p_insns p)) (o_programs o') = [[1; 0; 0; 0; 0]; [7; 0; 0]]
  | None => False
  end.
Proof. by vm_compute. Qed.
