(* ===== verification/ObjLoad.v ===== *)
(** * Loading an object: libbpf/src/libbpf.c

    [bpf_object__load_xattr] creates the maps, relocates the programs and loads them; when a
    step fails it removes the pins it made and closes what it opened.  [load_program] retries
    with a larger log while the kernel says that the log did not fit.  The theorem: loading
    is all or nothing, on every path, up to descriptors that the reuse of pinned maps
    leaves open. *)

From S2P Require Import Prelude BpfProg Os Btf BtfExt Object RedirectUser Pinning BpfSys ObjMaps Reloc.
#[local] Open Scope Z_scope.
#[local] Open Scope prog_scope.

Definition LIBBPF_ERRNO__INTERNAL : Z := 4004.
Definition LIBBPF_ERRNO__VERIFY : Z := 4007.
Definition LIBBPF_ERRNO__PROG2BIG : Z := 4008.
Definition LIBBPF_ERRNO__PROGTYPE : Z := 4010.
Definition BPF_LOG_BUF_SIZE : Z := 0xffffff.
Definition BPF_MAXINSNS : Z := 4096.

(** ** Programs *)

Definition bpf_object__btf_fd (o : bpf_object) : Z := match o_btf o with Some (_, fd) => fd | None => -1 end.
(** The attributes [load_program] fills in: [attach_btf_id] comes last into the union with
    [prog_ifindex]. *)
Definition load_attr_of (o : bpf_object) (p : bpf_program) (insns : list bpf_insn) (license : list Z) (kern_version : Z) : bpf_load_program_attr :=
  let btf_fd := match o_btf_ext o with Some _ => bpf_object__btf_fd o | None => -1 end in
  Load_attr (p_type p) (p_expected_attach_type p) (if cap_name (o_caps o) then Some (p_name p) else None) insns license kern_version
    (p_attach_btf_id p) (if btf_fd >=? 0 then btf_fd else 0) (p_func_info_rec_size p) (p_func_info p) (p_func_info_cnt p)
    (p_line_info_rec_size p) (p_line_info p) (p_line_info_cnt p) (p_log_level p) (p_prog_flags p).
Definition as_kprobe (l : bpf_load_program_attr) : bpf_load_program_attr :=
  Load_attr BPF_PROG_TYPE_KPROBE 0 (la_name l) (la_insns l) (la_license l) (la_kern_version l) (la_ifindex_or_btf_id l) (la_prog_btf_fd l)
    (la_func_info_rec_size l) (la_func_info l) (la_func_info_cnt l) (la_line_info_rec_size l) (la_line_info l) (la_line_info_cnt l)
    (la_log_level l) (la_prog_flags l).

Section Load.
Context {BK : BpfKernel}.
Abbreviation B := (M (bsys BK)).

(** The loop from [retry_load]: the descriptor, or [errno] and the log buffer: whether there
    is one, and its first byte.  The size doubles: no more than 8 attempts. *)
Fixpoint retry_load (fuel : nat) (l : bpf_load_program_attr) (log_buf_size : Z) : B (Z + Z * (bool * option Z)) :=
  let! log_buf := malloc in
  let! (r, c) := bpf_load_program_xattr l log_buf log_buf_size in
  if r >=? 0 then ret (inl r)
  else
    let! e := get_errno in
    if e =? ENOSPC then
      guard_ (2 * log_buf_size <? 2147483648) ;;;
      match fuel with O => fault | S fuel => retry_load fuel l (2 * log_buf_size) end
    else ret (inr (e, (log_buf, c))).
(** The result and the descriptor. *)
Definition load_program (o : bpf_object) (p : bpf_program) (insns : list bpf_insn) (license : list Z) (kern_version : Z) : B (Z * option Z) :=
  if bool_decide (insns = []) then ret (- EINVAL, None)
  else
    let l := load_attr_of o p insns license kern_version in
    let! r := retry_load 7 l BPF_LOG_BUF_SIZE in
    match r with
    | inl fd => ret (0, Some fd)
    | inr (e, (log_buf, c)) =>
        let! c := if log_buf : bool then deref c else ret 0 in
        if negb (c =? 0) then ret (- LIBBPF_ERRNO__VERIFY, None)
        else if lenZ insns >=? BPF_MAXINSNS then ret (- LIBBPF_ERRNO__PROG2BIG, None)
        else if negb (la_prog_type l =? BPF_PROG_TYPE_KPROBE) then
          let! (fd, _) := bpf_load_program_xattr (as_kprobe l) false 0 in
          if fd >=? 0 then sys_close fd ;;; ret (- LIBBPF_ERRNO__PROGTYPE, None) else ret (- e, None)
        else ret (- e, None)
    end.

(** The instances from [i] on, [n] of them. *)
Fixpoint load_instances (n i : nat) (o : bpf_object) (p : bpf_program) (prep : Z -> list bpf_insn -> Z * list bpf_insn)
    (license : list Z) (kern_version : Z) : B (Z * bpf_program) :=
  match n with
  | O => ret (0, p)
  | S n =>
      let '(err, insns) := prep (Z.of_nat i) (p_insns p) in
      if negb (err =? 0) then ret (err, p)
      else if bool_decide (insns = []) then load_instances n (S i) o (set_fds p (<[i := -1]> (p_fds p))) prep license kern_version
      else
        let! (err, fd) := load_program o p insns license kern_version in
        if negb (err =? 0) then ret (err, p)
        else
          let! fd := deref fd in
          load_instances n (S i) o (set_fds p (<[i := fd]> (p_fds p))) prep license kern_version
  end.
Definition bpf_program__load (o : bpf_object) (p : bpf_program) (license : list Z) (kern_version : Z) : B (Z * bpf_program) :=
  let run p :=
    let! (err, p) := match p_prep p with
                     | None => let! (err, fd) := load_program o p (p_insns p) license kern_version in
                               if err =? 0 then let! fd := deref fd in ret (err, set_fds p (<[0%nat := fd]> (p_fds p))) else ret (err, p)
                     | Some prep => load_instances (length (p_fds p)) 0 o p prep license kern_version
                     end in
    ret (err, set_insns p []) in
  if bool_decide (p_fds p = []) then
    match p_prep p with
    | Some _ => ret (- LIBBPF_ERRNO__INTERNAL, p)
    | None => let! ok := malloc in if negb ok then ret (- ENOMEM, p) else run (set_fds p [-1])
    end
  else run p.
Fixpoint load_progs (o : bpf_object) (log_level : Z) (done rest : list bpf_program) : B (Z * list bpf_program) :=
  match rest with
  | [] => ret (0, reverse done)
  | p :: rest =>
      if bpf_program__is_function_storage o p then load_progs o log_level (p :: done) rest
      else
        let! (err, p) := bpf_program__load o (set_log_level p (Z.lor (p_log_level p) log_level)) (o_license o) (o_kern_version o) in
        if negb (err =? 0) then ret (err, reverse done ++ p :: rest) else load_progs o log_level (p :: done) rest
  end.
Definition bpf_object__load_progs (o : bpf_object) (log_level : Z) : B (Z * bpf_object) :=
  let! (err, l) := load_progs o log_level [] (o_programs o) in ret (err, with_programs o l).

(** ** Unloading *)

Fixpoint close_fds (l : list Z) : B unit :=
  match l with [] => ret tt | fd :: l => zclose fd ;;; close_fds l end.
Definition bpf_program__unload (p : bpf_program) : B bpf_program :=
  close_fds (p_fds p) ;;;
  let p := set_fds p [] in
  let p := set_func_info p None (p_func_info_rec_size p) (p_func_info_cnt p) in
  ret (set_line_info p None (p_line_info_rec_size p) (p_line_info_cnt p)).
Fixpoint unload_programs (l : list bpf_program) : B (list bpf_program) :=
  match l with [] => ret [] | p :: l => let! p := bpf_program__unload p in let! l := unload_programs l in ret (p :: l) end.
Definition bpf_object__unload (obj : option bpf_object) : B (Z * option bpf_object) :=
  match obj with
  | None => ret (- EINVAL, None)
  | Some o =>
      let! maps := close_maps (o_maps o) in
      let! progs := unload_programs (o_programs o) in
      ret (0, Some (with_programs (with_maps o maps) progs))
  end.
(** [btf__free] closes the descriptor of the type information; memory is not tracked, and the
    ELF file of an opened object is closed already. *)
Definition bpf_object__close (obj : option bpf_object) : B unit :=
  match obj with
  | None => ret tt
  | Some o =>
      let! _ := bpf_object__unload (Some o) in
      match o_btf o with
      | Some (_, fd) => if negb (fd =? -1) then sys_close fd ;;; ret tt else ret tt
      | None => ret tt
      end
  end.

(** ** Loading *)

(** The loop at [out]. *)
Fixpoint unpin_auto (l : list bpf_map) : B (list bpf_map) :=
  match l with
  | [] => ret []
  | m :: l =>
      let! m := if m_pinned m && negb (m_reused m) then let! (_, m) := on_fs (bpf_map__unpin m None) in ret m else ret m in
      let! l := unpin_auto l in
      ret (m :: l)
  end.
Definition load_failed (err : Z) (o : bpf_object) : B (Z * option bpf_object) :=
  let! l := unpin_auto (o_maps o) in
  let! (_, o) := bpf_object__unload (Some (with_maps o l)) in
  ret (err, o).
Context (bpf_core_reloc_fields : bpf_object -> option path -> B (Z * bpf_object)).
(** [attr] is the object, the log level and the path of the target's type information. *)
Definition bpf_object__load_xattr (attr : option (option bpf_object * Z * option path)) : B (Z * option bpf_object) :=
  match attr with
  | None => ret (- EINVAL, None)
  | Some (None, _, _) => ret (- EINVAL, None)
  | Some (Some o, log_level, target_btf_path) =>
      if o_loaded o then ret (- EINVAL, Some o)
      else
        let! (err, o) := bpf_object__create_maps (with_loaded o true) in
        if negb (err =? 0) then load_failed err o
        else
          let! (err, o) := bpf_object__relocate bpf_core_reloc_fields o target_btf_path in
          if negb (err =? 0) then load_failed err o
          else
            let! (err, o) := bpf_object__load_progs o log_level in
            if negb (err =? 0) then load_failed err o else ret (0, Some o)
  end.
Definition bpf_object__load (obj : option bpf_object) : B (Z * option bpf_object) :=
  match obj with None => bpf_object__load_xattr (Some (None, 0, None)) | Some o => bpf_object__load_xattr (Some (Some o, 0, None)) end.
End Load.

(** ** Rules *)

Section LoadRules.
Context {BK : BpfKernel} {BO : BpfKernelOk BK}.
Abbreviation B := (M (bsys BK)).

(** No record is cut for lack of memory. *)
Definition records_safe (l : bpf_load_program_attr) : Prop := memory \/ no_records l.
Definition attr_ok (l : bpf_load_program_attr) : Prop :=
  info_fits (la_func_info_cnt l) (la_func_info_rec_size l) (la_func_info l) /\
  info_fits (la_line_info_cnt l) (la_line_info_rec_size l) (la_line_info l) /\ la_log_level l = 0 /\ records_safe l.
Lemma loaded_own s X fd s' : own s X -> loaded s X fd s' -> own s' (fd :: X) /\ kept X s s'.
Proof.
  intros (HF & HN & HP) (L1 & L2 & L3 & L4 & L5). split; [split; [done|]; split; [by apply list.NoDup_cons|by apply List.Forall_cons]|].
  eapply frame_mono; [exact L5|]. intros f Hf. rewrite list.Forall_forall in HP. split; [auto|]. intros ->. done.
Qed.
Lemma refused_own s X s' : own s X -> refused s X s' -> own s' X /\ kept X s s' /\ 0 < errno (b_sys s').
Proof.
  intros HO (L1 & L2 & L3 & L4). split; [split; [done|apply HO]|]. split; [|done]. eapply frame_mono; [exact L4|]. cbv beta. intros f Hf. by eapply own_pos.
Qed.
Definition load_post (l : bpf_load_program_attr) (s : bsys BK) (X : list Z) (fd : Z) (s' : bsys BK) : Prop :=
  own s' (fd :: X) /\ kept X s s' /\ exists a k', asks l a /\ granted a fd k'.
Lemma own_load_xattr l log_buf sz s X (Q : Z * option Z -> bsys BK -> Prop) : own s X -> attr_ok l -> negb log_buf = (sz =? 0) ->
  (forall fd c s', load_post l s X fd s' -> Q (fd, c) s') ->
  (forall c s', own s' X -> kept X s s' -> 0 < errno (b_sys s') -> (log_buf = true -> c <> None) ->
    (errno (b_sys s') = ENOSPC -> sz <= LOG_MAX) -> Q (-1, c) s') ->
  wp (bpf_load_program_xattr l log_buf sz) Q s.
Proof using BO.
  intros HO (Hf & Hl & H0 & Hr) Hb H1 H2. apply (wp_load_xattr l log_buf sz s X); [exact Hf|exact Hl|apply HO|split; [done|]; rewrite H0; done| |].
  - intros fd c a s' Ha Hg Hld. destruct (loaded_own _ _ _ _ HO Hld) as [HO' HK]. apply H1. split; [done|]. split; [done|]. by eexists _, _.
  - intros c s' _ HR Hc He. destruct (refused_own _ _ _ HO HR) as (HO' & HK & Hp). apply H2; try done.
    + intros Hlb. by apply Hc.
    + intros E. destruct (He E). lia.
Qed.
(** The sizes 0xffffff, twice that, and so on, up to the last that fits an int. *)
Lemma wp_retry_load l X (Q : Z + Z * (bool * option Z) -> bsys BK -> Prop) s0 : attr_ok l ->
  (forall fd s', load_post l s0 X fd s' -> Q (inl fd) s') ->
  (forall e b c s', own s' X -> kept X s0 s' -> 0 < e -> (b = true -> c <> None) -> Q (inr (e, (b, c))) s') ->
  forall fuel sz s, sz * 2 ^ Z.of_nat fuel = BPF_LOG_BUF_SIZE * 2 ^ 7 -> 0 < sz -> own s X -> kept X s0 s -> wp (retry_load fuel l sz) Q s.
Proof using BO.
  intros Ha H1 H2.
  assert (Hturn : forall sz s (next : B (Z + Z * (bool * option Z))), 0 < sz -> own s X -> kept X s0 s ->
    (forall s2, sz <= LOG_MAX -> own s2 X -> kept X s0 s2 -> wp next Q s2) ->
    wp (let! log_buf := malloc in let! (r, c) := bpf_load_program_xattr l log_buf sz in
        if r >=? 0 then ret (inl r) else let! e := get_errno in if e =? ENOSPC then next else ret (inr (e, (log_buf, c)))) Q s).
  { intros sz s next Hpos HO HK Hnext. apply wp_bind. eapply own_malloc; [exact HO|]. intros ok s1 HO1 K1 Hok.
    pose proof (kept_trans _ _ _ _ HK K1) as K01. apply wp_bind. destruct ok.
    - eapply own_load_xattr; [exact HO1|done|by rewrite (proj2 (Z.eqb_neq sz 0)) by lia|intros fd c s2 (P1 & P2 & P3)|intros c s2 HO2 K2 He Hc Hns]; cbv beta iota.
      + replace (fd >=? 0) with true by (pose proof (own_pos _ _ fd P1 ltac:(by left)); lia). apply wp_ret, H1. split; [done|]. split; [by eapply kept_trans|done].
      + change (-1 >=? 0) with false. cbv iota. apply wp_bind, wp_gets. pose proof (kept_trans _ _ _ _ K01 K2).
        destruct (Z.eqb_spec (errno (b_sys s2)) ENOSPC) as [E|]; [apply Hnext; auto|by apply wp_ret, H2].
    - destruct (Hok eq_refl) as (He & _ & En). unfold bpf_load_program_xattr. rewrite (proj2 (Z.eqb_neq sz 0)) by lia. cbn [negb Bool.eqb].
      apply wp_ret. change (- EINVAL >=? 0) with false. cbv iota. apply wp_bind, wp_gets. rewrite En. change (ENOMEM =? ENOSPC) with false. cbv iota.
      by apply wp_ret, H2. }
  induction fuel as [|fuel IH]; intros sz s Hsz Hpos HO HK; cbn [retry_load]; apply Hturn; try done; intros s2 Hmax HO2 K2.
  - exfalso. cbn in Hsz. unfold BPF_LOG_BUF_SIZE, LOG_MAX in *. lia.
  - apply wp_bind, wp_guard; [unfold LOG_MAX in Hmax; lia|]. apply IH; try done; [|lia].
    rewrite <- Hsz. rewrite Nat2Z.inj_succ, Z.pow_succ_r by lia. ring.
Qed.

(** A program that can be loaded. *)
Record prog_loadable (p : bpf_program) : Prop := {
  pl_func : info_fits (p_func_info_cnt p) (p_func_info_rec_size p) (p_func_info p);
  pl_line : info_fits (p_line_info_cnt p) (p_line_info_rec_size p) (p_line_info p);
  pl_level : p_log_level p = 0;
  pl_records : memory \/ p_func_info_cnt p = 0 /\ p_line_info_cnt p = 0
}.
Lemma loadable_attr o p ins lic kv : prog_loadable p -> attr_ok (load_attr_of o p ins lic kv).
Proof. by intros [H1 H2 H3 H4]. Qed.
Lemma wp_load_program o p ins lic kv s X : own s X -> prog_loadable p ->
  wp (load_program o p ins lic kv) (fun '(e, fd) s' => (exists f, e = 0 /\ fd = Some f /\ load_post (load_attr_of o p ins lic kv) s X f s') \/
    e <> 0 /\ own s' X /\ kept X s s') s.
Proof using BO.
  intros HO HP. unfold load_program. case_bool_decide; [apply wp_ret; right; split; [done|]; split; [done|apply kept_refl]|].
  pose proof (loadable_attr o p ins lic kv HP) as Ha. cbv zeta. set (l := load_attr_of o p ins lic kv) in *. apply wp_bind.
  apply (wp_retry_load l X _ s Ha); [| |done|done|done|apply kept_refl].
  - intros fd s1 HL. apply wp_ret. left. by exists fd.
  - intros e b c s1 HO1 K1 He Hc. apply wp_bind.
    assert (Hrest : forall c', wp (if negb (c' =? 0) then ret (- LIBBPF_ERRNO__VERIFY, None)
        else if lenZ ins >=? BPF_MAXINSNS then ret (- LIBBPF_ERRNO__PROG2BIG, None)
        else if negb (la_prog_type l =? BPF_PROG_TYPE_KPROBE) then
          let! (fd, _) := bpf_load_program_xattr (as_kprobe l) false 0 in
          if fd >=? 0 then sys_close fd ;;; ret (- LIBBPF_ERRNO__PROGTYPE, None) else ret (- e, None)
        else ret (- e, None)) (fun '(e, fd) s' => (exists f, e = 0 /\ fd = Some f /\ load_post l s X f s') \/ e <> 0 /\ own s' X /\ kept X s s') s1).
    { intros c'. destruct (negb (c' =? 0)); [apply wp_ret; by right|]. destruct (_ >=? _); [apply wp_ret; by right|].
      destruct (negb _); [|apply wp_ret; right; split; [lia|done]]. apply wp_bind.
      eapply own_load_xattr; [exact HO1|exact Ha|done|intros fd c2 s2 (P1 & P2 & _)|intros c2 s2 HO2 K2 He2 _ _]; cbv beta iota.
      - replace (fd >=? 0) with true by (pose proof (own_pos _ _ fd P1 ltac:(by left)); lia). apply wp_bind. eapply own_close; [exact P1|].
        intros r s3 _ HO3 K3 _. apply wp_ret. right. split; [done|]. split; [done|]. eapply kept_trans; [exact K1|]. by eapply kept_trans.
      - change (-1 >=? 0) with false. cbv iota. apply wp_ret. right. split; [lia|]. split; [done|by eapply kept_trans]. }
    destruct b; [|by apply wp_ret]. destruct c as [c|]; [|by destruct (Hc eq_refl)]. eapply wp_deref; [reflexivity|]. done.
Qed.

(** ** Instances and programs *)

Definition list_fds (l : list Z) : list Z := concat (map fd_list l).
Definition prog_fds (p : bpf_program) : list Z := list_fds (p_fds p).
Lemma list_fds_insert l i fd old : l !! i = Some old -> old < 0 -> list_fds (<[i := fd]> l) ≡ₚ fd_list fd ++ list_fds l.
Proof.
  intros Hi Ho. rewrite <- (take_drop_middle l i old Hi) at 2. rewrite insert_take_drop by (by eapply lookup_lt_Some).
  unfold list_fds. rewrite !map_app, !concat_app. cbn [map concat]. rewrite (fd_list_neg old) by done. cbn [app]. by rewrite Permutation_app_swap_app.
Qed.
Definition loaded_as (o : bpf_object) (p : bpf_program) (fd : Z) : Prop :=
  exists a k', asks (load_attr_of o p (p_insns p) (o_license o) (o_kern_version o)) a /\ granted a fd k'.
Lemma wp_load_instances o prep lic kv X s0 : forall n i p s, own s (prog_fds p ++ X) -> kept X s0 s -> prog_loadable p -> (i + n = length (p_fds p))%nat ->
  (forall j fd, (i <= j)%nat -> p_fds p !! j = Some fd -> fd < 0) ->
  wp (load_instances n i o p prep lic kv) (fun '(e, p') s' => own s' (prog_fds p' ++ X) /\ kept X s0 s') s.
Proof using BO.
  induction n as [|n IH]; intros i p s HO HK HP Hn Hneg; cbn [load_instances]; [by apply wp_ret|].
  destruct (prep (Z.of_nat i) (p_insns p)) as [err ins]. destruct (negb (err =? 0)); [by apply wp_ret|].
  destruct (lookup_lt_is_Some_2 (p_fds p) i) as [old Hold]; [lia|]. pose proof (Hneg i old ltac:(lia) Hold) as Hold0.
  assert (Hnext : forall fd s1, own s1 (fd_list fd ++ prog_fds p ++ X) -> kept X s0 s1 ->
    wp (load_instances n (S i) o (set_fds p (<[i := fd]> (p_fds p))) prep lic kv) (fun '(e, p') s' => own s' (prog_fds p' ++ X) /\ kept X s0 s') s1).
  { intros fd s1 HO1 K1. apply IH; try done.
    - eapply own_proper; [|exact HO1]. unfold prog_fds at 1. cbn [set_fds p_fds]. rewrite (list_fds_insert _ i fd old) by done. by rewrite (assoc_L (++)).
    - by destruct HP.
    - cbn [set_fds p_fds]. rewrite length_insert. lia.
    - intros j f Hj. cbn [set_fds p_fds]. rewrite list_lookup_insert_ne by lia. apply Hneg. lia. }
  case_bool_decide; [apply Hnext; done|]. apply wp_bind. eapply wp_mono; [by apply wp_load_program|].
  intros [e fd] s1 [(f & -> & -> & P1 & P2 & _)|(He & HO1 & K1)]; cbv beta iota.
  - cbn [negb Z.eqb]. apply wp_bind. eapply wp_deref; [reflexivity|]. apply Hnext.
    + rewrite fd_list_pos by (eapply own_pos; [exact P1|by left]). done.
    + eapply kept_trans; [exact HK|]. eapply kept_sub; [exact P2|]. intros g Hg. apply elem_of_app. by right.
  - rewrite (proj2 (Z.eqb_neq e 0)) by done. cbn [negb]. apply wp_ret. split; [done|]. eapply kept_trans; [exact HK|]. eapply kept_sub; [exact K1|].
    intros g Hg. apply elem_of_app. by right.
Qed.
(** Both stand for the same section. *)
Definition same_section (p p' : bpf_program) : Prop := p_idx p' = p_idx p /\ p_section_name p' = p_section_name p.
(** A program that is not loaded. *)
Definition prog_closed (p : bpf_program) : Prop := (p_prep p = None -> p_fds p = []) /\ Forall (fun fd => fd < 0) (p_fds p).
Lemma closed_fds p : prog_closed p -> prog_fds p = [].
Proof. intros [_ H]. unfold prog_fds, list_fds. induction H as [|fd l Hfd _ IH]; [done|]. cbn. rewrite IH, fd_list_neg by done. done. Qed.
Lemma wp_program_load o p s X : own s X -> prog_loadable p -> prog_closed p ->
  wp (bpf_program__load o p (o_license o) (o_kern_version o)) (fun '(e, p') s' => own s' (prog_fds p' ++ X) /\ kept X s s' /\
    (e = 0 -> p_prep p = None -> exists fd, p_fds p' = [fd] /\ 0 <= fd /\ loaded_as o p fd /\ same_section p p')) s.
Proof using BO.
  intros HO HP HC. pose proof (closed_fds p HC) as Hno. destruct HC as [HC1 HC2]. unfold bpf_program__load. case_bool_decide as Ef.
  - destruct (p_prep p) as [prep|] eqn:Ep; [apply wp_ret; rewrite Hno; by repeat (split; [done|])|]. apply wp_bind.
    eapply own_malloc; [exact HO|]. intros ok s1 HO1 K1 _. destruct ok; cbn [negb]; [|apply wp_ret; rewrite Hno; by repeat (split; [done|])].
    cbn [set_fds p_prep]. rewrite Ep. apply wp_bind, wp_bind. eapply wp_mono; [apply (wp_load_program o (set_fds p [-1]) _ _ _ s1 X HO1); by destruct HP|].
    intros [e fd] s2 [(f & -> & -> & P1 & P2 & a & k' & P3 & P4)|(He & HO2 & K2)]; cbv beta iota.
    + cbn [Z.eqb]. apply wp_bind. eapply wp_deref; [reflexivity|]. apply wp_ret, wp_ret. pose proof (own_pos _ _ f P1 ltac:(by left)) as Hf.
      split; [unfold prog_fds; cbn; by rewrite fd_list_pos|]. split; [by eapply kept_trans|]. intros _ _. exists f. split; [done|]. split; [done|]. split; [by exists a, k'|done].
    + rewrite (proj2 (Z.eqb_neq e 0)) by done. apply wp_ret, wp_ret. split; [done|]. split; [by eapply kept_trans|done].
  - destruct (p_prep p) as [prep|] eqn:Ep; [|by destruct Ef; apply HC1]. apply wp_bind.
    eapply wp_mono; [apply (wp_load_instances o prep _ _ X s (length (p_fds p)) 0 p s); [by rewrite Hno|apply kept_refl|done|done|]|].
    + intros j fd _ Hj. rewrite list.Forall_forall in HC2. apply HC2. by eapply list_elem_of_lookup_2.
    + intros [e p'] s1 [HO1 K1]. apply wp_ret. split; [done|]. split; [done|]. congruence.
Qed.

(** ** All the programs *)

Definition progs_fds (l : list bpf_program) : list Z := concat (map prog_fds l).
Lemma progs_fds_app l l' : progs_fds (l ++ l') = progs_fds l ++ progs_fds l'.
Proof. unfold progs_fds. by rewrite map_app, concat_app. Qed.
Lemma progs_fds_cons p l : progs_fds (p :: l) = prog_fds p ++ progs_fds l.
Proof. done. Qed.
(** Program [p] became [p']: a program without preprocessor has one descriptor, which the
    kernel granted for its instructions. *)
Definition prog_loaded (o : bpf_object) (p p' : bpf_program) : Prop :=
  if bpf_program__is_function_storage o p then p' = p
  else p_prep p = None -> exists fd, p_fds p' = [fd] /\ 0 <= fd /\ loaded_as o p fd /\ same_section p p'.
Lemma wp_load_progs o X s0 orig : Forall prog_loadable orig -> Forall prog_closed orig ->
  forall rest done od s, orig = od ++ rest -> own s (progs_fds (reverse done) ++ X) -> kept X s0 s -> Forall2 (prog_loaded o) od (reverse done) ->
  wp (load_progs o 0 done rest) (fun '(e, l') s' => own s' (progs_fds l' ++ X) /\ kept X s0 s' /\ (e = 0 -> Forall2 (prog_loaded o) orig l')) s.
Proof using BO.
  intros HL HC. induction rest as [|p rest IH]; intros done od s -> HO HK HD; cbn [load_progs].
  { apply wp_ret. rewrite app_nil_r in *. done. }
  assert (Hp : prog_loadable p /\ prog_closed p).
  { apply Forall_app in HL as [_ HL]. apply Forall_app in HC as [_ HC]. by apply List.Forall_inv in HL, HC. } destruct Hp as [Hp1 Hp2].
  assert (Hnext : forall p' s1, own s1 (prog_fds p' ++ progs_fds (reverse done) ++ X) -> kept X s0 s1 -> prog_loaded o p p' ->
    wp (load_progs o 0 (p' :: done) rest) (fun '(e, l') s' => own s' (progs_fds l' ++ X) /\ kept X s0 s' /\ (e = 0 -> Forall2 (prog_loaded o) (od ++ p :: rest) l')) s1).
  { intros p' s1 HO1 K1 Hl. apply (IH (p' :: done) (od ++ [p])).
    - by rewrite <- (assoc_L (++)).
    - eapply own_proper; [|exact HO1]. rewrite reverse_cons, progs_fds_app. unfold progs_fds at 2. cbn [map concat]. perm_solve.
    - done.
    - rewrite reverse_cons. apply Forall2_app; [done|]. constructor; [done|constructor]. }
  destruct (bpf_program__is_function_storage o p) eqn:Es.
  - apply Hnext; [by rewrite (closed_fds p Hp2)|done|]. unfold prog_loaded. by rewrite Es.
  - replace (set_log_level p (Z.lor (p_log_level p) 0)) with p by (destruct Hp1 as [_ _ E _]; destruct p; cbn in *; by subst).
    apply wp_bind. eapply wp_mono; [by apply (wp_program_load o p s _ HO)|]. intros [e p'] s1 (HO1 & K1 & He). cbv beta iota.
    assert (K01 : kept X s0 s1) by (eapply kept_trans; [exact HK|]; eapply kept_sub; [exact K1|]; intros f Hf; apply elem_of_app; by right).
    destruct (Z.eqb_spec e 0) as [->|Hne]; cbn [negb].
    + apply Hnext; [done|done|]. unfold prog_loaded. rewrite Es. auto.
    + apply wp_ret. split; [|by split]. eapply own_proper; [|exact HO1]. rewrite progs_fds_app, progs_fds_cons.
      assert (E : progs_fds rest = []).
      { apply Forall_app in HC as [_ HC]. apply List.Forall_inv_tail in HC. clear -HC. induction HC as [|q l Hq _ IH]; [done|].
        rewrite progs_fds_cons, IH. by rewrite closed_fds. }
      rewrite E, app_nil_r. perm_solve.
Qed.

(** ** Unloading *)

Lemma wp_close_fds : forall l s X, own s (list_fds l ++ X) -> wp (close_fds l) (fun _ s' => own s' X /\ kept X s s') s.
Proof using BO.
  induction l as [|fd l IH]; intros s X HO; cbn [close_fds]; [by apply wp_ret|]. unfold list_fds in HO. cbn [map concat] in HO. rewrite <- (assoc_L (++)) in HO.
  apply wp_bind. eapply own_zclose; [exact HO|]. intros r s1 _ HO1 K1 _. eapply wp_mono; [by apply IH|]. intros u s2 [HO2 K2]. split; [done|].
  eapply kept_trans; [|exact K2]. eapply kept_sub; [exact K1|]. intros f Hf. apply elem_of_app. by right.
Qed.
Lemma wp_unload_programs : forall l s X, own s (progs_fds l ++ X) ->
  wp (unload_programs l) (fun l' s' => own s' X /\ kept X s s' /\ Forall (fun p => p_fds p = []) l') s.
Proof using BO.
  induction l as [|p l IH]; intros s X HO; cbn [unload_programs]; [by apply wp_ret|]. rewrite progs_fds_cons, <- (assoc_L (++)) in HO.
  apply wp_bind. unfold bpf_program__unload. apply wp_bind. eapply wp_mono; [by apply wp_close_fds|]. intros u s1 [HO1 K1]. apply wp_ret.
  apply wp_bind. eapply wp_mono; [by apply IH|]. intros l' s2 (HO2 & K2 & HF). apply wp_ret. split; [done|]. split; [|by apply List.Forall_cons].
  eapply kept_trans; [|exact K2]. eapply kept_sub; [exact K1|]. intros f Hf. apply elem_of_app. by right.
Qed.
Definition obj_fds (o : bpf_object) : list Z := map_fds (o_maps o) ++ progs_fds (o_programs o).
(** No map and no program has a descriptor. *)
Definition unloaded (o : bpf_object) : Prop := Forall (fun m => m_fd m = -1) (o_maps o) /\ Forall (fun p => p_fds p = []) (o_programs o).
Lemma wp_unload o s X : own s (obj_fds o ++ X) ->
  wp (bpf_object__unload (Some o)) (fun '(e, o') s' => own s' X /\ kept X s s' /\ e = 0 /\ exists o2, o' = Some o2 /\ unloaded o2 /\
    o_maps o2 = map closed (o_maps o) /\ o_btf o2 = o_btf o) s.
Proof using BO.
  intros HO. unfold obj_fds in HO. rewrite <- (assoc_L (++)) in HO. unfold bpf_object__unload. apply wp_bind.
  eapply wp_mono; [by apply wp_close_maps|]. intros l s1 (-> & HO1 & K1). apply wp_bind. eapply wp_mono; [by apply wp_unload_programs|].
  intros l' s2 (HO2 & K2 & HF). apply wp_ret. split; [done|]. split.
  { eapply kept_trans; [|exact K2]. eapply kept_sub; [exact K1|]. intros f Hf. apply elem_of_app. by right. }
  split; [done|]. eexists. split; [done|]. split; [|by split]. split; [|done]. cbn. apply list.Forall_forall. intros m Hm.
  apply list_elem_of_In, in_map_iff in Hm as (m0 & <- & _). done.
Qed.

(** ** Removing pins *)

Lemma wp_unpin_one m k : wp (bpf_map__unpin m None) (fun '(_, m') k' => m_fd m' = m_fd m /\ (forall f, obj_of k' f = obj_of k f) /\
  (forall d t, k_statfs k d = inr t -> k_statfs k' d = inr t) /\
  match m_pin_path m with
  | None => forall q, pinned_at k' q = pinned_at k q
  | Some p => (forall q, q <> p -> pinned_at k' q = pinned_at k q) /\
      (memory -> k_statfs k (dirname p) = inr BPF_FS_MAGIC -> pinned_at k p <> None -> pinned_at k' p = None)
  end) k.
Proof using BO.
  unfold bpf_map__unpin. destruct (m_pin_path m) as [p|] eqn:Ep; [|apply wp_ret; by repeat (split; [done|])].
  apply wp_bind, wp_check_path.
  - intros k1 (Q1 & Q2 & Q3) Hst. cbn [negb Z.eqb]. apply wp_bind, wp_lift. destruct (Z.eqb_spec (fst (k_unlink k1 p)) 0) as [E|Hne]; cbn [negb]; apply wp_ret.
    + split; [done|]. split; [intros f; by rewrite obj_unlink, Q3|]. split; [intros d t Hd; rewrite statfs_unlink; auto|]. split.
      * intros q Hq. rewrite unlink_other by by left. apply Q1.
      * intros _ _ _. by apply unlink_gone.
    + split; [done|]. split; [intros f; by rewrite obj_unlink, Q3|]. split; [intros d t Hd; rewrite statfs_unlink; auto|]. split.
      * intros q Hq. rewrite unlink_other by by right. apply Q1.
      * intros _ _ Hp. exfalso. apply Hne. apply unlink_pinned. by rewrite Q1.
  - intros e k1 (Q1 & Q2 & Q3) He Hn. rewrite (proj2 (Z.eqb_neq e 0)) by lia. cbn [negb]. apply wp_ret. split; [done|]. split; [done|]. split; [done|].
    split; [auto|]. intros Hm Hst _. by destruct Hn.
Qed.
Lemma wp_unpin_auto k0 : forall l s X, own s X ->
  wp (unpin_auto l) (fun l' s' => own s' X /\ map m_fd l' = map m_fd l /\ (forall f, obj_of (b_k s') f = obj_of (b_k s) f) /\
    (memory -> autopins k0 (b_k s) l -> forall q, pinned_at (b_k s') q = pinned_at k0 q)) s.
Proof using BO.
  induction l as [|m l IH]; intros s X HO; cbn [unpin_auto].
  { apply wp_ret. split; [done|]. split; [done|]. split; [done|]. intros _ [_ _ A3] q. apply A3. apply not_elem_of_nil. }
  apply wp_bind. assert (Hrest : forall m' s1, own s1 X -> m_fd m' = m_fd m -> (forall f, obj_of (b_k s1) f = obj_of (b_k s) f) ->
    (memory -> autopins k0 (b_k s) (m :: l) -> autopins k0 (b_k s1) l) ->
    wp (let! l := unpin_auto l in ret (m' :: l)) (fun l' s' => own s' X /\ map m_fd l' = map m_fd (m :: l) /\ (forall f, obj_of (b_k s') f = obj_of (b_k s) f) /\
      (memory -> autopins k0 (b_k s) (m :: l) -> forall q, pinned_at (b_k s') q = pinned_at k0 q)) s1).
  { intros m' s1 HO1 Ef Ho Ha. apply wp_bind. eapply wp_mono; [by apply IH|]. intros l' s2 (HO2 & E2 & Ho2 & Hq). apply wp_ret. split; [done|].
    split; [cbn; by rewrite Ef, E2|]. split; [intros f; by rewrite Ho2|]. auto. }
  destruct (m_pinned m && negb (m_reused m))%bool eqn:Em.
  - apply wp_bind. pose proof (wp_unpin_one m (b_k s)) as W. unfold wp, on_fs in *. destruct (bpf_map__unpin m None (b_k s)) as [[[e m'] k']|]; [|done].
    destruct W as (Ef & Ho & Hs & Hp). apply (Hrest m'); [done|done|done|]. intros Hm [A1 A2 A3]. cbn [b_k].
    assert (Ea : auto m = m_pin_path m) by (unfold auto; by rewrite Em). cbn in A1, A2, A3. rewrite Ea in *.
    destruct (m_pin_path m) as [p|].
    + destruct Hp as [Hp1 Hp2]. apply list.NoDup_cons in A1 as [Hnin A1]. destruct (A2 p ltac:(by left)) as (B1 & B2 & B3). split; [done| |].
      * intros q Hq. assert (q <> p) by (intros ->; done). destruct (A2 q ltac:(by right)) as (C1 & C2 & C3). rewrite Hp1 by done. auto.
      * intros q Hq. destruct (decide (q = p)) as [->|Hne]; [by rewrite Hp2, B1|]. rewrite Hp1 by done. apply A3. by apply not_elem_of_cons.
    + split; [done| |intros q Hq; rewrite Hp; auto]. intros q Hq. destruct (A2 q Hq) as (C1 & C2 & C3). rewrite Hp. auto.
  - apply wp_ret. apply Hrest; [done|done|done|]. intros _ [A1 A2 A3]. assert (Ea : auto m = None) by (unfold auto; by rewrite Em). cbn in A1, A2, A3. rewrite Ea in *. done.
Qed.

(** ** Loading an object *)

Record obj_ready (o : bpf_object) : Prop := {
  or_loaded : o_loaded o = false;
  or_maps : Forall (map_ready o) (o_maps o);
  or_btf : obj_good o;
  or_ext : ext_ok o;
  or_progs : Forall (prog_ready o) (o_programs o);
  or_closed : Forall prog_closed (o_programs o);
  or_level : Forall (fun p => p_log_level p = 0) (o_programs o);
  or_records : memory \/ o_btf_ext o = None
}.
(** Every descriptor of the object is closed, and the pins are those of the start. *)
Definition load_undone (o : bpf_object) (s0 : bsys BK) (F L : list Z) (o' : bpf_object) (s : bsys BK) : Prop :=
  own s (L ++ F) /\ unloaded o' /\ o_btf o' = o_btf o /\ (forall f, f ∈ F -> obj_of (b_k s) f = obj_of (b_k s0) f) /\
  (memory -> forall q, pinned_at (b_k s) q = pinned_at (b_k s0) q).
Lemma map_fds_same l l' : map m_fd l' = map m_fd l -> map_fds l' = map_fds l.
Proof.
  intros E. unfold map_fds. assert (H : forall l, concat (map (fun m => fd_list (m_fd m)) l) = concat (map fd_list (map m_fd l))) by (intros; by rewrite map_map).
  by rewrite !H, E.
Qed.
Lemma wp_load_failed e o s s0 F L : own s (obj_fds o ++ L ++ F) -> autopins (b_k s0) (b_k s) (o_maps o) ->
  (forall f, f ∈ F -> obj_of (b_k s) f = obj_of (b_k s0) f) ->
  wp (load_failed e o) (fun '(e', o') s' => e' = e /\ exists o2, o' = Some o2 /\ load_undone o s0 F L o2 s') s.
Proof using BO.
  intros HO HA Hob. unfold load_failed. apply wp_bind. eapply wp_mono; [by apply (wp_unpin_auto (b_k s0))|]. intros l s1 (HO1 & El & Ho1 & Hq).
  apply wp_bind. eapply wp_mono; [apply (wp_unload (with_maps o l) s1 (L ++ F))|].
  - unfold obj_fds in *. cbn [with_maps o_maps o_programs]. by rewrite (map_fds_same _ _ El).
  - intros [e' o'] s2 (HO2 & K2 & _ & o2 & -> & Hu & _ & Hb). apply wp_ret. split; [done|]. exists o2. split; [done|]. split; [done|]. split; [done|]. split; [done|].
    destruct K2 as (P2 & _ & O2). split; [|intros Hm q; rewrite P2; auto]. intros f Hf. rewrite O2 by (apply elem_of_app; by right). rewrite Ho1. auto.
Qed.
Lemma map_loaded_kept s s' X od d : Forall2 (map_loaded (b_k s)) od d -> (forall f, f ∈ map_fds d -> f ∈ X) -> kept X s s' -> Forall2 (map_loaded (b_k s')) od d.
Proof. intros HF Hin HK. apply (map_loaded_step X (b_k s) (b_k s') new_map); [done|done|]. by apply pin_step_kept. Qed.
Lemma autopins_kept k0 s s' X l : autopins k0 (b_k s) l -> kept X s s' -> autopins k0 (b_k s') l.
Proof. intros HA (P & D & _). eapply autopins_same; [exact HA|done|done|]. intros d t. by rewrite D. Qed.
Lemma touched_loadable o p p' : touched o p p' -> p_log_level p = 0 -> memory \/ o_btf_ext o = None -> prog_loadable p'.
Proof.
  intros (q & Hm & HI & Hq) Hl Hr. assert (HL : prog_loadable q).
  { assert (El : p_log_level q = 0) by (by destruct Hm as (? & ? & ? & ? & ? & ? & ? & ? & ->)). unfold infos_ok in HI. destruct (o_btf_ext o) as [x|] eqn:Ex.
    - destruct HI as [H1 H2]. split; [by eapply info_ok_fits|by eapply info_ok_fits|done|]. destruct Hr as [Hr|Hr]; [by left|done].
    - destruct HI as [H1 H2]. split; [by left|by left|done|]. by right. }
  destruct Hq as [->| ->]; [done|]. by destruct HL.
Qed.
Lemma touched_closed o p p' : touched o p p' -> prog_closed p -> prog_closed p'.
Proof. by intros (q & (? & ? & ? & ? & ? & ? & ? & ? & ->) & _ & [->| ->]). Qed.
Lemma touched_section o p p' : touched o p p' -> same_section p p'.
Proof. by intros (q & (? & ? & ? & ? & ? & ? & ? & ? & ->) & _ & [->| ->]). Qed.
Lemma touched_prep o p p' : touched o p p' -> p_prep p' = p_prep p.
Proof. by intros (q & (? & ? & ? & ? & ? & ? & ? & ? & ->) & _ & [->| ->]). Qed.
Lemma prog_ready_maps o l p : prog_ready o p -> length l = length (o_maps o) -> prog_ready (with_maps o l) p.
Proof.
  intros [H1 H2 H3 H4] Hl. split; try done. eapply list.Forall_impl; [exact H3|]. intros r. unfold reloc_fits. cbn [with_maps o_maps]. rewrite Hl. by destruct r.
Qed.
(** The object with its maps and programs loaded. *)
Definition load_done (o o' : bpf_object) (F L : list Z) (s : bsys BK) : Prop :=
  own s (obj_fds o' ++ L ++ F) /\ Forall2 (map_loaded (b_k s)) (o_maps o) (o_maps o') /\
  exists l2, let om := with_maps (with_loaded o true) (o_maps o') in
    o' = with_programs om (o_programs o') /\ Forall2 same_section (o_programs o) l2 /\ Forall2 (fun p q => p_prep q = p_prep p) (o_programs o) l2 /\
    object_relocated om (with_programs om l2) l2 /\ Forall2 (prog_loaded (with_programs om l2)) l2 (o_programs o').

Section Whole.
Context (core : bpf_object -> option path -> B (Z * bpf_object)).
(** Field relocation is asked for when the maps are there. *)
Definition core_fits (o : bpf_object) : Prop := forall l, core_sound core (with_maps (with_loaded o true) l).
Lemma wp_load_xattr_obj o t s F : core_fits o -> obj_ready o -> own s (map_fds (o_maps o) ++ F) ->
  wp (bpf_object__load_xattr core (Some (Some o, 0, t))) (fun '(e, o') s' => exists o2 L, o' = Some o2 /\ lost (leaks (o_maps o)) L /\
    (forall f, f ∈ F -> obj_of (b_k s') f = obj_of (b_k s) f) /\
    (e = 0 /\ load_done o o2 F L s' \/ e <> 0 /\ load_undone o s F L o2 s')) s.
Proof using BO.
  intros HC [R1 R2 R3 R4 R5 R6 R7 R8] HO. unfold bpf_object__load_xattr. rewrite R1. apply wp_bind. set (oL := with_loaded o true).
  eapply wp_mono; [apply (wp_create_maps oL s F); [done| |done]|].
  { eapply list.Forall_impl; [exact R2|]. by intros m []. }
  intros [e o1] s1 (l1 & -> & HL & Hmok). set (om := with_maps oL l1).
  destruct (lo_own _ _ _ _ _ _ HL) as (L & HLn & HO1). pose proof (lo_obj _ _ _ _ _ _ HL) as Hob1. pose proof (lo_pins _ _ _ _ _ _ HL) as HA1.
  assert (Hclosed : progs_fds (o_programs o) = []).
  { clear -R6. induction R6 as [|q l Hq _ IH]; [done|]. rewrite progs_fds_cons, IH. by rewrite closed_fds. }
  (** every failing step ends the same way *)
  assert (Hfail : forall e2 o2 s2, e2 <> 0 -> o_maps o2 = l1 -> o_btf o2 = o_btf o -> own s2 (progs_fds (o_programs o2) ++ map_fds l1 ++ L ++ F) -> kept (map_fds l1 ++ L ++ F) s1 s2 ->
    wp (load_failed e2 o2) (fun '(e, o') s' => exists o2 L, o' = Some o2 /\ lost (leaks (o_maps o)) L /\
      (forall f, f ∈ F -> obj_of (b_k s') f = obj_of (b_k s) f) /\ (e = 0 /\ load_done o o2 F L s' \/ e <> 0 /\ load_undone o s F L o2 s')) s2).
  { intros e2 o2 s2 He2 Em Eb HO2 K2. eapply wp_mono; [apply (wp_load_failed e2 o2 s2 s F L)|].
    - unfold obj_fds. rewrite Em. eapply own_proper; [|exact HO2]. perm_solve.
    - rewrite Em. by eapply autopins_kept.
    - destruct K2 as (_ & _ & O2). intros f Hf. rewrite O2 by (rewrite !elem_of_app; auto). auto.
    - intros [e' o'] s3 (-> & o3 & -> & HU). exists o3, L. split; [done|]. split; [done|]. split; [apply HU|].
      right. split; [done|]. unfold load_undone in *. by rewrite Eb in HU. }
  destruct (Z.eqb_spec e 0) as [->|Hne]; cbn [negb]; [|apply Hfail; [done|done|done|change (o_programs om) with (o_programs o); by rewrite Hclosed|apply kept_refl]].
  assert (Hlen : length l1 = length (o_maps o)) by (symmetry; exact (list.Forall2_length _ _ _ (lo_place _ _ _ _ _ _ HL))).
  apply wp_bind. eapply wp_mono; [apply (wp_obj_relocate core om t s1 (map_fds l1 ++ L ++ F) (HC l1) HO1 R4)|].
  { eapply list.Forall_impl; [exact R5|]. intros p Hp. by apply (prog_ready_maps oL); [destruct Hp|]. }
  intros [e2 o2] s2 (HO2 & K2 & l2 & -> & HT & HR). set (o2 := with_programs om l2) in *.
  assert (HT' : Forall prog_loadable l2 /\ Forall prog_closed l2).
  { rewrite !Forall_lookup. rewrite Forall_lookup in R6, R7. split; intros j p' Hp'; destruct (Forall2_lookup_r _ _ _ _ _ HT Hp') as (p & Hp & Htp).
    - eapply touched_loadable; [exact Htp|by eapply R7|exact R8].
    - eapply touched_closed; [exact Htp|by eapply R6]. } destruct HT' as [HT1 HT2].
  assert (Hclosed2 : progs_fds l2 = []).
  { clear -HT2. induction HT2 as [|q l Hq _ IH]; [done|]. rewrite progs_fds_cons, IH. by rewrite closed_fds. }
  destruct (Z.eqb_spec e2 0) as [->|Hne2]; cbn [negb]; [|apply Hfail; [done|done|done|change (o_programs o2) with l2; by rewrite Hclosed2|done]].
  apply wp_bind. unfold bpf_object__load_progs. apply wp_bind.
  eapply wp_mono; [apply (wp_load_progs o2 (map_fds l1 ++ L ++ F) s2 l2 HT1 HT2 l2 [] [] s2); [done|done|apply kept_refl|constructor]|].
  intros [e3 l3] s3 (HO3 & K3 & HP). apply wp_ret. pose proof (kept_trans _ _ _ _ K2 K3) as K13.
  destruct (Z.eqb_spec e3 0) as [->|Hne3]; cbn [negb]; [|by apply Hfail]. apply wp_ret. eexists _, L. split; [done|]. split; [done|]. split.
  { destruct K13 as (_ & _ & O). intros f Hf. rewrite O by (rewrite !elem_of_app; auto). auto. }
  left. split; [done|]. split; [|split].
  - change (obj_fds (with_programs o2 l3)) with (map_fds l1 ++ progs_fds l3). eapply own_proper; [|exact HO3]. perm_solve.
  - eapply map_loaded_kept; [by apply Hmok| |exact K13]. intros f Hf. rewrite elem_of_app. auto.
  - exists l2. cbv zeta. split; [done|]. split; [by eapply list.Forall2_impl; [exact HT|apply touched_section]|].
    split; [by eapply list.Forall2_impl; [exact HT|apply touched_prep]|]. split; [by apply HR|]. by apply HP.
Qed.
End Whole.
End LoadRules.

(** ** The theorems *)

(** C6: loading is all or nothing.  For an object as opening leaves it, whatever the kernel
    answers, [bpf_object__load_xattr] returns.  With 0, every map has a descriptor of its own:
    it was preset, or it is the map pinned at its path, or the kernel created it as it is
    defined, and a map with a pin path is pinned there; every program was relocated against
    these maps and has one descriptor of its own, which the kernel granted for exactly the
    relocated instructions.  With an error the object has no descriptors and, while memory
    lasts, the file system has the pins it had.  The other descriptors of the process are as
    before; the only new ones besides the object's are at most one per map with a pin path. *)
Theorem load_all_or_nothing `{BO : BpfKernelOk} (core : bpf_object -> option path -> M (bsys BK) (Z * bpf_object))
    (o : bpf_object) (t : option path) (s : bsys BK) (F : list Z) :
  core_fits core o -> obj_ready o -> own s (map_fds (o_maps o) ++ F) ->
  exists e o' s' L, bpf_object__load_xattr core (Some (Some o, 0, t)) s = Some ((e, Some o'), s') /\ lost (leaks (o_maps o)) L /\
    (forall f, f ∈ F -> obj_of (b_k s') f = obj_of (b_k s) f) /\
    (e = 0 /\ load_done o o' F L s' \/ e <> 0 /\ load_undone o s F L o' s').
Proof.
  intros HC HR HO. destruct (proj1 (wp_run _ _ _) (wp_load_xattr_obj core o t s F HC HR HO)) as ([e ob] & s' & E & o' & L & -> & HP).
  by exists e, o', s', L.
Qed.

(** Two maps, the first of which is to be pinned at "/m"; a program and .text. *)
Definition demo_obj : bpf_object :=
  with_maps demo_relo [set_pin_path (demo_map [97] (-1)) (Some [47; 109]); demo_map [98] (-1)].
Definition no_core {BK : BpfKernel} (o : bpf_object) (t : option path) : M (bsys BK) (Z * bpf_object) := ret (- EINVAL, o).
Lemma core_fits_none {BK : BpfKernel} (core : bpf_object -> option path -> M (bsys BK) (Z * bpf_object)) o : o_btf_ext o = None -> core_fits core o.
Proof. intros E l Hx. by destruct Hx. Qed.
Lemma demo_ready : obj_ready (BK := table_kernel) demo_obj.
Proof.
  split.
  - done.
  - repeat (apply List.Forall_cons; [by split|]). apply List.Forall_nil.
  - intros b fd [=].
  - intros x [=].
  - apply List.Forall_cons; [split; [done|done|apply List.Forall_nil|constructor]|]. apply List.Forall_cons; [|apply List.Forall_nil].
    split; [done|done| |apply (bool_decide_unpack _); by vm_compute]. repeat (apply List.Forall_cons; [cbn; lia|]). apply List.Forall_nil.
  - repeat (apply List.Forall_cons; [split; [done|apply List.Forall_nil]|]). apply List.Forall_nil.
  - repeat (apply List.Forall_cons; [done|]). apply List.Forall_nil.
  - by right.
Qed.
Lemma load_all_or_nothing_witness : exists o' s' L, bpf_object__load_xattr no_core (Some (Some demo_obj, 0, None)) table_state = Some ((0, Some o'), s') /\
  load_done demo_obj o' [0; 1; 2] L s' /\ map m_fd (o_maps o') = [3; 4] /\ map p_fds (o_programs o') = [[]; [5]] /\
  pinned_at (b_k s') [47; 109] = Some 3.
Proof.
  destruct (load_all_or_nothing (BO := table_kernel_ok) no_core demo_obj None table_state [0; 1; 2] (core_fits_none no_core demo_obj eq_refl) demo_ready) as (e & o' & s' & L & E & _ & _ & HP).
  { split; [unfold bhas; reflexivity|]. split; [apply (bool_decide_unpack _); by vm_compute|]. repeat (apply List.Forall_cons; [lia|]). apply List.Forall_nil. }
  pose proof E as E'. vm_compute in E'. injection E' as <- <- <-. destruct HP as [[_ HD]|[[] _]]; [|done].
  eexists _, _, L. split; [exact E|]. split; [exact HD|]. done.
Defined.

(** ** What modelling showed *)

(** The interface a program is offloaded to never reaches the kernel: [attach_btf_id] is
    written over it. *)
Lemma ifindex_lost o p ins lic kv buf sz : p_type p <> BPF_PROG_TYPE_TRACING ->
  pa_prog_ifindex (load_request (load_attr_of o p ins lic kv) buf sz) = p_attach_btf_id p.
Proof. intros Ht. cbn. by rewrite (proj2 (Z.eqb_neq _ _)). Qed.
(** A log level that [bpf_load_program_xattr] refuses makes [load_program] read a log buffer that
    nobody has written. *)
Lemma refused_level_reads_log (o : bpf_object) (p : bpf_program) ins lic kv (s : bsys table_kernel) :
  7 < p_log_level p -> ins <> [] -> errno (b_sys s) <> ENOSPC -> load_program o p ins lic kv s = None.
Proof.
  intros Hl Hi He. unfold load_program. rewrite bool_decide_false by done. cbv zeta. unfold bind at 1. cbn [retry_load]. unfold bind at 1, malloc. cbn [k_strdup bk_pin table_kernel table_fs].
  unfold bind at 1, bpf_load_program_xattr. cbn [negb Bool.eqb Z.eqb BPF_LOG_BUF_SIZE load_attr_of la_log_level].
  replace (p_log_level p >? 7) with true by lia. cbn [orb ret]. change (- EINVAL >=? 0) with false. cbv iota. unfold bind at 1, get_errno, gets. cbn [b_sys].
  rewrite (proj2 (Z.eqb_neq _ _)) by done. done.
Qed.
(** The descriptor of a reused pin is never closed: the map has 4, the program 5, and 3 stays
    open. *)
Lemma reused_pin_leaks : let s := Bsys table_kernel (Table [([47; 109], 9)] []) (Sys [0; 1; 2] [] [] 0 0) 0 in
  let o := with_programs (with_maps demo_relo [set_pin_path (demo_map [97] (-1)) (Some [47; 109])]) [demo_prog 3 [BPF_EXIT_INSN] []] in
  match bpf_object__load_xattr no_core (Some (Some o, 0, None)) s with
  | Some ((e, Some o'), s') => e = 0 /\ obj_fds o' = [4; 5] /\ fds (b_sys s') = [5; 4; 3; 0; 1; 2]
  | _ => False
  end.
Proof. by vm_compute. Qed.
