(* ===== verification/SecNames.v ===== *)
(** * Section names: [libbpf_prog_type_by_name] and its relatives, libbpf/src/libbpf.c

    The table that gives the type of a program from the name of its section, and the three
    searches in it.  A name in the table stands for every section name it begins.  The
    theorem: the first entry that fits is always the one with the longest name, so no entry
    hides another; the list of names printed for an unknown section always fits its buffer. *)

From Stdlib Require Import String Ascii.
From S2P Require Import Prelude Params Os Btf Object.
#[local] Open Scope Z_scope.

(** String literals as byte lists. *)
Definition str (s : string) : path := map (fun a => Z.of_nat (nat_of_ascii a)) (list_ascii_of_string s).
Arguments str _%_string_scope.

Definition BPF_PROG_TYPE_SCHED_CLS : Z := 3.
Definition BPF_PROG_TYPE_SCHED_ACT : Z := 4.
Definition BPF_PROG_TYPE_TRACEPOINT : Z := 5.
Definition BPF_PROG_TYPE_PERF_EVENT : Z := 7.
Definition BPF_PROG_TYPE_CGROUP_SKB : Z := 8.
Definition BPF_PROG_TYPE_CGROUP_SOCK : Z := 9.
Definition BPF_PROG_TYPE_LWT_IN : Z := 10.
Definition BPF_PROG_TYPE_LWT_OUT : Z := 11.
Definition BPF_PROG_TYPE_LWT_XMIT : Z := 12.
Definition BPF_PROG_TYPE_SOCK_OPS : Z := 13.
Definition BPF_PROG_TYPE_SK_SKB : Z := 14.
Definition BPF_PROG_TYPE_CGROUP_DEVICE : Z := 15.
Definition BPF_PROG_TYPE_SK_MSG : Z := 16.
Definition BPF_PROG_TYPE_RAW_TRACEPOINT : Z := 17.
Definition BPF_PROG_TYPE_CGROUP_SOCK_ADDR : Z := 18.
Definition BPF_PROG_TYPE_LWT_SEG6LOCAL : Z := 19.
Definition BPF_PROG_TYPE_LIRC_MODE2 : Z := 20.
Definition BPF_PROG_TYPE_FLOW_DISSECTOR : Z := 22.
Definition BPF_PROG_TYPE_CGROUP_SYSCTL : Z := 23.
Definition BPF_PROG_TYPE_CGROUP_SOCKOPT : Z := 25.
Definition BPF_CGROUP_INET_INGRESS : Z := 0.
Definition BPF_CGROUP_INET_EGRESS : Z := 1.
Definition BPF_CGROUP_INET_SOCK_CREATE : Z := 2.
Definition BPF_CGROUP_SOCK_OPS : Z := 3.
Definition BPF_SK_SKB_STREAM_PARSER : Z := 4.
Definition BPF_SK_SKB_STREAM_VERDICT : Z := 5.
Definition BPF_CGROUP_DEVICE : Z := 6.
Definition BPF_SK_MSG_VERDICT : Z := 7.
Definition BPF_CGROUP_INET4_BIND : Z := 8.
Definition BPF_CGROUP_INET6_BIND : Z := 9.
Definition BPF_CGROUP_INET4_CONNECT : Z := 10.
Definition BPF_CGROUP_INET6_CONNECT : Z := 11.
Definition BPF_CGROUP_INET4_POST_BIND : Z := 12.
Definition BPF_CGROUP_INET6_POST_BIND : Z := 13.
Definition BPF_CGROUP_UDP4_SENDMSG : Z := 14.
Definition BPF_CGROUP_UDP6_SENDMSG : Z := 15.
Definition BPF_LIRC_MODE2 : Z := 16.
Definition BPF_FLOW_DISSECTOR : Z := 17.
Definition BPF_CGROUP_SYSCTL : Z := 18.
Definition BPF_CGROUP_UDP4_RECVMSG : Z := 19.
Definition BPF_CGROUP_UDP6_RECVMSG : Z := 20.
Definition BPF_CGROUP_GETSOCKOPT : Z := 21.
Definition BPF_CGROUP_SETSOCKOPT : Z := 22.
Definition BPF_TRACE_RAW_TP : Z := 23.

Record section_name := Section_name {
  sec : path; prog_type : Z; expected_attach_type : Z; is_attachable : bool; is_attach_btf : bool; attach_type : Z
}.
(** The macros of the table. *)
Definition BPF_PROG_SEC (s : string) (ptype : Z) : section_name := Section_name (str s) ptype 0 false false 0.
Definition BPF_APROG_SEC (s : string) (ptype atype : Z) : section_name := Section_name (str s) ptype 0 true false atype.
Definition BPF_EAPROG_SEC (s : string) (ptype eatype : Z) : section_name := Section_name (str s) ptype eatype true false eatype.
Definition BPF_PROG_BTF (s : string) (ptype eatype : Z) : section_name := Section_name (str s) ptype eatype false true 0.
Definition BPF_APROG_COMPAT : string -> Z -> section_name := BPF_PROG_SEC.
Definition section_names : list section_name := [
  BPF_PROG_SEC "socket" BPF_PROG_TYPE_SOCKET_FILTER;
  BPF_PROG_SEC "kprobe/" BPF_PROG_TYPE_KPROBE;
  BPF_PROG_SEC "uprobe/" BPF_PROG_TYPE_KPROBE;
  BPF_PROG_SEC "kretprobe/" BPF_PROG_TYPE_KPROBE;
  BPF_PROG_SEC "uretprobe/" BPF_PROG_TYPE_KPROBE;
  BPF_PROG_SEC "classifier" BPF_PROG_TYPE_SCHED_CLS;
  BPF_PROG_SEC "action" BPF_PROG_TYPE_SCHED_ACT;
  BPF_PROG_SEC "tracepoint/" BPF_PROG_TYPE_TRACEPOINT;
  BPF_PROG_SEC "tp/" BPF_PROG_TYPE_TRACEPOINT;
  BPF_PROG_SEC "raw_tracepoint/" BPF_PROG_TYPE_RAW_TRACEPOINT;
  BPF_PROG_SEC "raw_tp/" BPF_PROG_TYPE_RAW_TRACEPOINT;
  BPF_PROG_BTF "tp_btf/" BPF_PROG_TYPE_TRACING BPF_TRACE_RAW_TP;
  BPF_PROG_SEC "xdp" BPF_PROG_TYPE_XDP;
  BPF_PROG_SEC "perf_event" BPF_PROG_TYPE_PERF_EVENT;
  BPF_PROG_SEC "lwt_in" BPF_PROG_TYPE_LWT_IN;
  BPF_PROG_SEC "lwt_out" BPF_PROG_TYPE_LWT_OUT;
  BPF_PROG_SEC "lwt_xmit" BPF_PROG_TYPE_LWT_XMIT;
  BPF_PROG_SEC "lwt_seg6local" BPF_PROG_TYPE_LWT_SEG6LOCAL;
  BPF_APROG_SEC "cgroup_skb/ingress" BPF_PROG_TYPE_CGROUP_SKB BPF_CGROUP_INET_INGRESS;
  BPF_APROG_SEC "cgroup_skb/egress" BPF_PROG_TYPE_CGROUP_SKB BPF_CGROUP_INET_EGRESS;
  BPF_APROG_COMPAT "cgroup/skb" BPF_PROG_TYPE_CGROUP_SKB;
  BPF_APROG_SEC "cgroup/sock" BPF_PROG_TYPE_CGROUP_SOCK BPF_CGROUP_INET_SOCK_CREATE;
  BPF_EAPROG_SEC "cgroup/post_bind4" BPF_PROG_TYPE_CGROUP_SOCK BPF_CGROUP_INET4_POST_BIND;
  BPF_EAPROG_SEC "cgroup/post_bind6" BPF_PROG_TYPE_CGROUP_SOCK BPF_CGROUP_INET6_POST_BIND;
  BPF_APROG_SEC "cgroup/dev" BPF_PROG_TYPE_CGROUP_DEVICE BPF_CGROUP_DEVICE;
  BPF_APROG_SEC "sockops" BPF_PROG_TYPE_SOCK_OPS BPF_CGROUP_SOCK_OPS;
  BPF_APROG_SEC "sk_skb/stream_parser" BPF_PROG_TYPE_SK_SKB BPF_SK_SKB_STREAM_PARSER;
  BPF_APROG_SEC "sk_skb/stream_verdict" BPF_PROG_TYPE_SK_SKB BPF_SK_SKB_STREAM_VERDICT;
  BPF_APROG_COMPAT "sk_skb" BPF_PROG_TYPE_SK_SKB;
  BPF_APROG_SEC "sk_msg" BPF_PROG_TYPE_SK_MSG BPF_SK_MSG_VERDICT;
  BPF_APROG_SEC "lirc_mode2" BPF_PROG_TYPE_LIRC_MODE2 BPF_LIRC_MODE2;
  BPF_APROG_SEC "flow_dissector" BPF_PROG_TYPE_FLOW_DISSECTOR BPF_FLOW_DISSECTOR;
  BPF_EAPROG_SEC "cgroup/bind4" BPF_PROG_TYPE_CGROUP_SOCK_ADDR BPF_CGROUP_INET4_BIND;
  BPF_EAPROG_SEC "cgroup/bind6" BPF_PROG_TYPE_CGROUP_SOCK_ADDR BPF_CGROUP_INET6_BIND;
  BPF_EAPROG_SEC "cgroup/connect4" BPF_PROG_TYPE_CGROUP_SOCK_ADDR BPF_CGROUP_INET4_CONNECT;
  BPF_EAPROG_SEC "cgroup/connect6" BPF_PROG_TYPE_CGROUP_SOCK_ADDR BPF_CGROUP_INET6_CONNECT;
  BPF_EAPROG_SEC "cgroup/sendmsg4" BPF_PROG_TYPE_CGROUP_SOCK_ADDR BPF_CGROUP_UDP4_SENDMSG;
  BPF_EAPROG_SEC "cgroup/sendmsg6" BPF_PROG_TYPE_CGROUP_SOCK_ADDR BPF_CGROUP_UDP6_SENDMSG;
  BPF_EAPROG_SEC "cgroup/recvmsg4" BPF_PROG_TYPE_CGROUP_SOCK_ADDR BPF_CGROUP_UDP4_RECVMSG;
  BPF_EAPROG_SEC "cgroup/recvmsg6" BPF_PROG_TYPE_CGROUP_SOCK_ADDR BPF_CGROUP_UDP6_RECVMSG;
  BPF_EAPROG_SEC "cgroup/sysctl" BPF_PROG_TYPE_CGROUP_SYSCTL BPF_CGROUP_SYSCTL;
  BPF_EAPROG_SEC "cgroup/getsockopt" BPF_PROG_TYPE_CGROUP_SOCKOPT BPF_CGROUP_GETSOCKOPT;
  BPF_EAPROG_SEC "cgroup/setsockopt" BPF_PROG_TYPE_CGROUP_SOCKOPT BPF_CGROUP_SETSOCKOPT
].

(** [strncmp(name, sec, len) == 0]: [name] begins with [sec]. *)
Definition begins (name : path) (e : section_name) : bool := bool_decide (take (length (sec e)) name = sec e).

Definition MAX_TYPE_NAME_SIZE : Z := 32.
(** The loop of [libbpf_get_type_names]: the text so far is [buf], without its end. *)
Fixpoint type_names (l : list section_name) (attach : bool) (len : Z) (buf : path) : option path :=
  match l with
  | [] => Some buf
  | e :: l =>
      if attach && negb (is_attachable e) then type_names l attach len buf
      else if lenZ buf + lenZ (sec e) + 2 >? len then None
      else type_names l attach len (buf ++ 32 :: sec e)
  end.
(** [alloc] is the answer of the allocator; NULL is [None]. *)
Definition libbpf_get_type_names (alloc attach : bool) : option path :=
  if negb alloc then None else type_names section_names attach (lenZ section_names * MAX_TYPE_NAME_SIZE) [].
(** The result, and the types if it is 0.  What is printed for an unknown name is left out. *)
Definition libbpf_prog_type_by_name (name : option path) : Z * option (Z * Z) :=
  match name with
  | None => (- EINVAL, None)
  | Some name =>
      match List.find (begins name) section_names with
      | Some e => (0, Some (prog_type e, expected_attach_type e))
      | None => (- ESRCH, None)
      end
  end.
Definition libbpf_attach_type_by_name (name : option path) : Z * option Z :=
  match name with
  | None => (- EINVAL, None)
  | Some name =>
      match List.find (begins name) section_names with
      | Some e => if negb (is_attachable e) then (- EINVAL, None) else (0, Some (attach_type e))
      | None => (- EINVAL, None)
      end
  end.
(** "btf_trace_" and at most 117 bytes. *)
Definition raw_tp_btf_name (rest : path) : path := str "btf_trace_" ++ take 117 rest.
(** [btf] is the kernel's type information, [inl] when it was not found. *)
Definition libbpf_attach_btf_id_by_name (btf : Z + btf) (name : option path) : option (Z * option Z) :=
  match btf with
  | inl _ => Some (- EINVAL, None)
  | inr btf =>
      match name with
      | None => Some (- EINVAL, None)
      | Some name =>
          match List.find (fun e => is_attach_btf e && begins name e) section_names with
          | Some e => r ← btf__find_by_name btf (raw_tp_btf_name (drop (length (sec e)) name));
                      Some (if r <=? 0 then (- EINVAL, None) else (0, Some r))
          | None => Some (- ESRCH, None)
          end
      end
  end.

(** ** The order of the table *)

(** No name begins with the name of an earlier entry. *)
Fixpoint ordered (l : list section_name) : bool :=
  match l with [] => true | e :: l => forallb (fun e' => negb (begins (sec e') e)) l && ordered l end.
Lemma table_ordered : ordered section_names = true.
Proof. vm_compute. reflexivity. Qed.

Lemma begins_spec name e : begins name e = true <-> exists rest, name = sec e ++ rest.
Proof.
  unfold begins. rewrite bool_decide_eq_true. split.
  - intros H. exists (drop (length (sec e)) name). rewrite <- H at 1. by rewrite take_drop.
  - intros [rest ->]. by rewrite take_app_length.
Qed.
(** Two names that begin the same one: the shorter begins the longer. *)
Lemma begins_both name e e' : begins name e = true -> begins name e' = true -> (length (sec e) <= length (sec e'))%nat ->
  begins (sec e') e = true.
Proof.
  unfold begins. rewrite !bool_decide_eq_true. intros H H' Hl. rewrite <- H', take_take. by rewrite Nat.min_l.
Qed.
Lemma find_longest name : forall l, ordered l = true ->
  match List.find (begins name) l with
  | Some e => e ∈ l /\ begins name e = true /\ forall e', e' ∈ l -> begins name e' = true -> e' = e \/ (length (sec e') < length (sec e))%nat
  | None => forall e, e ∈ l -> begins name e = false
  end.
Proof.
  induction l as [|e l IH]; cbn [ordered List.find]; [intros _ e He; by apply elem_of_nil in He|].
  intros [Hf Ho]%andb_true_iff. specialize (IH Ho). destruct (begins name e) eqn:Eb.
  - split; [by left|]. split; [done|]. intros e' [->|He']%elem_of_cons Hb'; [by left|]. right.
    destruct (decide (length (sec e') < length (sec e))%nat) as [|Hge]; [done|]. rewrite forallb_forall in Hf.
    specialize (Hf e' ltac:(by apply list_elem_of_In)). by rewrite (begins_both name e e') in Hf by (done || lia).
  - destruct (List.find (begins name) l) as [x|].
    + destruct IH as (H1 & H2 & H3). split; [by right|]. split; [done|]. intros e' [->|He']%elem_of_cons Hb'; [congruence|auto].
    + intros e' [->|He']%elem_of_cons; auto.
Qed.

(** Sections are typed by their longest match.  If no name of the table begins the name of
    the section the result is -ESRCH; otherwise it is 0 with the types of an entry that
    begins it and is longer than every other entry that does. *)
Theorem prog_type_longest (name : path) :
  (libbpf_prog_type_by_name (Some name) = (- ESRCH, None) /\ forall e, e ∈ section_names -> begins name e = false) \/
  (exists e, e ∈ section_names /\ begins name e = true /\
    libbpf_prog_type_by_name (Some name) = (0, Some (prog_type e, expected_attach_type e)) /\
    libbpf_attach_type_by_name (Some name) = (if is_attachable e then (0, Some (attach_type e)) else (- EINVAL, None)) /\
    forall e', e' ∈ section_names -> begins name e' = true -> e' = e \/ (length (sec e') < length (sec e))%nat).
Proof.
  pose proof (find_longest name section_names table_ordered) as H. unfold libbpf_prog_type_by_name, libbpf_attach_type_by_name.
  destruct (List.find (begins name) section_names) as [e|]; [|by left]. right. exists e. destruct H as (H1 & H2 & H3).
  split; [done|]. split; [done|]. split; [done|]. split; [by destruct (is_attachable e)|done].
Qed.
(** Every name of the table has its own entry. *)
Theorem own_entry (e : section_name) : e ∈ section_names ->
  libbpf_prog_type_by_name (Some (sec e)) = (0, Some (prog_type e, expected_attach_type e)).
Proof.
  assert (H : forallb (fun e => bool_decide (libbpf_prog_type_by_name (Some (sec e)) = (0, Some (prog_type e, expected_attach_type e)))) section_names = true)
    by (vm_compute; reflexivity).
  rewrite forallb_forall in H. intros He. specialize (H e ltac:(by apply list_elem_of_In)). by apply bool_decide_eq_true in H.
Qed.
(** The list of names always fits. *)
Theorem type_names_fit (attach : bool) : libbpf_get_type_names true attach =
  Some (concat (map (fun e => 32 :: sec e) (if attach then List.filter is_attachable section_names else section_names))).
Proof. destruct attach; vm_compute; reflexivity. Qed.
(** The sections of the programs of this repository, "xdp_pass" say, are of type XDP. *)
Lemma xdp_sections (rest : path) : libbpf_prog_type_by_name (Some (str "xdp" ++ rest)) = (0, Some (BPF_PROG_TYPE_XDP, 0)).
Proof. reflexivity. Qed.
