(* ===== verification/Elf.v ===== *)
(** * ELF objects: reading an object file, libbpf/src/libbpf.c

    What opening an object reads of the ELF file: header, sections, symbols, programs.  The
    library libelf is not part of the repository: the class [Libelf] is what it answers, and
    [LibelfOk] what the code relies on.  A section is its index; [None] is an error or NULL.
    The file in memory while it is open is [efile]; what outlives it is in [bpf_object].  The
    theorems: the instructions of a program are the bytes of its section; a program has the
    name of the first global symbol of its section. *)

From Stdlib Require Import String.
From S2P Require Import Prelude Params Netlink Os StatsUser Btf BtfExt BpfProg Object Pinning BpfSys Reloc ObjLoad SecNames.
#[local] Open Scope Z_scope.
#[local] Open Scope prog_scope.

Definition LIBBPF_ERRNO__LIBELF : Z := 4000.
Definition LIBBPF_ERRNO__FORMAT : Z := 4001.
Definition LIBBPF_ERRNO__ENDIAN : Z := 4003.
Definition EIO : Z := 5.
Definition ET_REL : Z := 1.
Definition EM_BPF : Z := 247.
Definition ELFDATA2LSB : Z := 1.
Definition SHT_PROGBITS : Z := 1.
Definition SHT_SYMTAB : Z := 2.
Definition SHT_NOBITS : Z := 8.
Definition SHT_REL : Z := 9.
Definition SHF_EXECINSTR : Z := 4.
Definition STB_GLOBAL : Z := 1.
Definition STT_OBJECT : Z := 1.
Definition SHN_LORESERVE : Z := 0xff00.
Definition sizeof_GElf_Sym : Z := 24.

(** ** libelf *)

Record GElf_Ehdr := Ehdr { e_type : Z; e_machine : Z; e_shstrndx : Z; e_ident_data : Z }.
Record GElf_Shdr := Shdr { sh_name : Z; sh_type : Z; sh_flags : Z; sh_link : Z; sh_info : Z; sh_size : Z; sh_entsize : Z }.
Record GElf_Sym := Sym { st_name : Z; st_info : Z; st_shndx : Z; st_value : Z }.
Record GElf_Rel := Rel { r_offset : Z; r_info : Z }.
(** A section without contents in the file has a size but no buffer. *)
Record Elf_Data := Data { d_buf : option (list Z); d_size : Z }.

Class Libelf {BK : BpfKernel} := {
  elf : Type;
  elf_version_ok : bool;
  elf_memory : list Z -> option elf;
  elf_begin : pk -> Z -> option elf;
  gelf_getehdr : elf -> option GElf_Ehdr;
  (** the sections [elf_nextscn] visits are 1 to this number *)
  elf_scns : elf -> nat;
  gelf_getshdr : elf -> Z -> option GElf_Shdr;
  elf_getdata : elf -> Z -> option Elf_Data;
  elf_rawdata : elf -> Z -> option Elf_Data;
  elf_strptr : elf -> Z -> Z -> option path;
  gelf_getsym : Elf_Data -> Z -> option GElf_Sym;
  gelf_getrel : Elf_Data -> Z -> option GElf_Rel
}.
Arguments Libelf : clear implicits.
Class LibelfOk {BK : BpfKernel} (LE : Libelf BK) : Prop := {
  data_bytes e i d b : elf_getdata e i = Some d -> d_buf d = Some b -> lenZ b = d_size d /\ Forall is_u8 b;
  data_size e i d : elf_getdata e i = Some d -> 0 <= d_size d < 2147483648;
  data_there e i sh d : gelf_getshdr e i = Some sh -> elf_getdata e i = Some d -> sh_type sh <> SHT_NOBITS -> 0 < d_size d -> d_buf d <> None;
  sym_fields d i s : gelf_getsym d i = Some s -> is_u8 (st_info s) /\ is_u16 (st_shndx s) /\ is_u64 (st_value s);
  rel_fields d i r : gelf_getrel d i = Some r -> is_u64 (r_offset r) /\ is_u64 (r_info r);
  shdr_fields e i sh : gelf_getshdr e i = Some sh -> is_u32 (sh_info sh) /\ is_u32 (sh_link sh)
}.
Definition GELF_ST_BIND (info : Z) : Z := Z.shiftr info 4.
Definition GELF_ST_TYPE (info : Z) : Z := Z.land info 15.
Definition GELF_R_SYM (info : Z) : Z := Z.shiftr info 32.

(** [efile] of [struct bpf_object], but for the section indices.  [ef_fd] and [ef_elf] are
    those of the open file; [ef_strtabidx] is 0 until the symbol table is found. *)
Record efile {BK : BpfKernel} {LE : Libelf BK} := Efile {
  ef_fd : Z; ef_elf : option elf; ef_ehdr : GElf_Ehdr; ef_symbols : option Elf_Data; ef_strtabidx : Z;
  ef_data : option Elf_Data; ef_rodata : option Elf_Data; ef_bss : option Elf_Data; ef_reloc : list (GElf_Shdr * Elf_Data)
}.
Arguments efile {BK} LE.

(** ** Fields *)

Definition with_license (o : bpf_object) (l : list Z) : bpf_object :=
  Bpf_object (o_name o) l (o_kern_version o) (o_programs o) (o_maps o) (o_data o) (o_rodata o) (o_loaded o) (o_has_pseudo_calls o)
    (o_maps_shndx o) (o_btf_maps_shndx o) (o_text_shndx o) (o_data_shndx o) (o_rodata_shndx o) (o_bss_shndx o) (o_btf o) (o_btf_ext o) (o_caps o).
Definition with_kern_version (o : bpf_object) (v : Z) : bpf_object :=
  Bpf_object (o_name o) (o_license o) v (o_programs o) (o_maps o) (o_data o) (o_rodata o) (o_loaded o) (o_has_pseudo_calls o)
    (o_maps_shndx o) (o_btf_maps_shndx o) (o_text_shndx o) (o_data_shndx o) (o_rodata_shndx o) (o_bss_shndx o) (o_btf o) (o_btf_ext o) (o_caps o).
Definition with_caps (o : bpf_object) (c : caps) : bpf_object :=
  Bpf_object (o_name o) (o_license o) (o_kern_version o) (o_programs o) (o_maps o) (o_data o) (o_rodata o) (o_loaded o) (o_has_pseudo_calls o)
    (o_maps_shndx o) (o_btf_maps_shndx o) (o_text_shndx o) (o_data_shndx o) (o_rodata_shndx o) (o_bss_shndx o) (o_btf o) (o_btf_ext o) c.
Definition with_btf (o : bpf_object) (b : option (btf * Z)) (x : option btf_ext) : bpf_object :=
  Bpf_object (o_name o) (o_license o) (o_kern_version o) (o_programs o) (o_maps o) (o_data o) (o_rodata o) (o_loaded o) (o_has_pseudo_calls o)
    (o_maps_shndx o) (o_btf_maps_shndx o) (o_text_shndx o) (o_data_shndx o) (o_rodata_shndx o) (o_bss_shndx o) b x (o_caps o).
Definition with_pseudo_calls (o : bpf_object) : bpf_object :=
  Bpf_object (o_name o) (o_license o) (o_kern_version o) (o_programs o) (o_maps o) (o_data o) (o_rodata o) (o_loaded o) true
    (o_maps_shndx o) (o_btf_maps_shndx o) (o_text_shndx o) (o_data_shndx o) (o_rodata_shndx o) (o_bss_shndx o) (o_btf o) (o_btf_ext o) (o_caps o).
(** The copies of .data and .rodata. *)
Definition with_contents (o : bpf_object) (d r : option (list Z)) : bpf_object :=
  Bpf_object (o_name o) (o_license o) (o_kern_version o) (o_programs o) (o_maps o) d r (o_loaded o) (o_has_pseudo_calls o)
    (o_maps_shndx o) (o_btf_maps_shndx o) (o_text_shndx o) (o_data_shndx o) (o_rodata_shndx o) (o_bss_shndx o) (o_btf o) (o_btf_ext o) (o_caps o).
(** The sections with a meaning of their own. *)
Inductive known := MAPS | BTF_MAPS | TEXT | DATA | RODATA | BSS.
#[export] Instance known_eq_dec : EqDecision known.
Proof. solve_decision. Defined.
Definition shndx_of (o : bpf_object) (k : known) : Z :=
  match k with
  | MAPS => o_maps_shndx o | BTF_MAPS => o_btf_maps_shndx o | TEXT => o_text_shndx o
  | DATA => o_data_shndx o | RODATA => o_rodata_shndx o | BSS => o_bss_shndx o
  end.
Definition with_shndx (o : bpf_object) (k : known) (i : Z) : bpf_object :=
  let f k' := if decide (k' = k) then i else shndx_of o k' in
  Bpf_object (o_name o) (o_license o) (o_kern_version o) (o_programs o) (o_maps o) (o_data o) (o_rodata o) (o_loaded o) (o_has_pseudo_calls o)
    (f MAPS) (f BTF_MAPS) (f TEXT) (f DATA) (f RODATA) (f BSS) (o_btf o) (o_btf_ext o) (o_caps o).

(** ** Programs *)

(** A program as [bpf_program__init] leaves it. *)
Definition new_program (idx : Z) (section_name pin_name : path) (insns : list bpf_insn) : bpf_program :=
  Bpf_program idx [] 0 section_name pin_name insns 0 BPF_PROG_TYPE_UNSPEC None 0 [] None 0 0 None 0 0 None 0 0 0.
Definition set_prog_name (p : bpf_program) (n : path) : bpf_program :=
  Bpf_program (p_idx p) n (p_ifindex p) (p_section_name p) (p_pin_name p) (p_insns p) (p_main_prog_cnt p) (p_type p) (p_reloc p) (p_log_level p)
    (p_fds p) (p_prep p) (p_expected_attach_type p) (p_attach_btf_id p) (p_func_info p) (p_func_info_rec_size p) (p_func_info_cnt p)
    (p_line_info p) (p_line_info_rec_size p) (p_line_info_cnt p) (p_prog_flags p).
Definition set_attach_btf_id (p : bpf_program) (i : Z) : bpf_program :=
  Bpf_program (p_idx p) (p_name p) (p_ifindex p) (p_section_name p) (p_pin_name p) (p_insns p) (p_main_prog_cnt p) (p_type p) (p_reloc p) (p_log_level p)
    (p_fds p) (p_prep p) (p_expected_attach_type p) i (p_func_info p) (p_func_info_rec_size p) (p_func_info_cnt p)
    (p_line_info p) (p_line_info_rec_size p) (p_line_info_cnt p) (p_prog_flags p).
(** [struct bpf_insn] as it lies in the section: code, two registers in a byte, offset, value. *)
Definition s16 (z : Z) : Z := (z + 32768) mod 65536 - 32768.
Definition insn_bytes (i : bpf_insn) : list Z :=
  [u8 (code i); u8 (dst_reg i + 16 * src_reg i)] ++ Nlattr.half_bytes (off i) ++ word_bytes (imm i).
Fixpoint insns_of (l : list Z) : list bpf_insn :=
  match l with
  | c :: r :: o0 :: o1 :: i0 :: i1 :: i2 :: i3 :: l =>
      Bpf_insn c (r mod 16) (r / 16) (s16 (o0 + 256 * o1)) (s32 (i0 + 256 * i1 + 65536 * i2 + 16777216 * i3)) :: insns_of l
  | _ => []
  end.

Section Elf.
Context {BK : BpfKernel} {LE : Libelf BK}.
Abbreviation B := (M (bsys BK)).

(** A slash becomes an underscore; the copy is not checked before it is searched. *)
Definition __bpf_program__pin_name (section_name : path) : B path :=
  let! ok := malloc in
  guard_ ok ;;;
  ret (map (fun c => if c =? slash then 95 else c) section_name).
(** [inl] is the error. *)
Definition bpf_program__init (d : Elf_Data) (section_name : path) (idx : Z) : B (Z + bpf_program) :=
  if (d_size d =? 0) || negb (d_size d mod 8 =? 0) then ret (inl (- EINVAL))
  else
    let! ok := malloc in
    if negb ok then ret (inl (- ENOMEM))
    else
      let! pin_name := __bpf_program__pin_name section_name in
      let! ok := malloc in
      if negb ok then ret (inl (- ENOMEM))
      else
        let! b := deref (d_buf d) in
        ret (inr (new_program idx section_name pin_name (insns_of b))).
Definition bpf_object__add_program (o : bpf_object) (d : Elf_Data) (section_name : path) (idx : Z) : B (Z * bpf_object) :=
  let! r := bpf_program__init d section_name idx in
  match r with
  | inl err => ret (err, o)
  | inr p => let! ok := malloc in
             if negb ok then ret (- ENOMEM, o) else ret (0, with_programs o (o_programs o ++ [p]))
  end.

(** The inner loop of [bpf_object__init_prog_names]: [n] symbols from [si]; NULL is [None],
    [inl] the error. *)
Fixpoint prog_symbol (ef : efile LE) (e : elf) (symbols : Elf_Data) (idx : Z) (n : nat) (si : Z) : Z + option path :=
  match n with
  | O => inr None
  | S n =>
      match gelf_getsym symbols si with
      | None => prog_symbol ef e symbols idx n (si + 1)
      | Some sym =>
          if negb (st_shndx sym =? idx) then prog_symbol ef e symbols idx n (si + 1)
          else if negb (GELF_ST_BIND (st_info sym) =? STB_GLOBAL) then prog_symbol ef e symbols idx n (si + 1)
          else match elf_strptr e (ef_strtabidx ef) (st_name sym) with
               | None => inl (- LIBBPF_ERRNO__LIBELF)
               | Some name => inr (Some name)
               end
      end
  end.
Definition nr_syms (symbols : Elf_Data) : nat := Z.to_nat (d_size symbols / sizeof_GElf_Sym).
Fixpoint init_prog_names (ef : efile LE) (e : elf) (symbols : Elf_Data) (text_shndx : Z) (done rest : list bpf_program) : B (Z * list bpf_program) :=
  match rest with
  | [] => ret (0, done)
  | p :: rest =>
      let stop err := ret (err, done ++ p :: rest) in
      match prog_symbol ef e symbols (p_idx p) (nr_syms symbols) 0 with
      | inl err => stop err
      | inr name =>
          match (match name with None => if p_idx p =? text_shndx then Some (str ".text") else None | Some _ => name end) with
          | None => stop (- EINVAL)
          | Some name =>
              let! ok := malloc in
              if negb ok then stop (- ENOMEM) else init_prog_names ef e symbols text_shndx (done ++ [set_prog_name p name]) rest
          end
      end
  end.
Definition bpf_object__init_prog_names (ef : efile LE) (o : bpf_object) : B (Z * bpf_object) :=
  let! e := deref (ef_elf ef) in
  let! symbols := deref (ef_symbols ef) in
  let! (err, l) := init_prog_names ef e symbols (o_text_shndx o) [] (o_programs o) in
  ret (err, with_programs o l).

(** ** The file *)

(** [release] is what [uname(2)] answers; the version is 0 if it has no three numbers. *)
Definition get_kernel_version (release : list Z) : Z :=
  let number s := match scan_u s with inr x => Some x | inl _ => None end in
  let dot (s : list Z) := match s with b :: s => if b =? 46 then Some s else None | [] => None end in
  default 0 ('(major, s) ← number release; s ← dot s; '(minor, s) ← number s; s ← dot s; '(patch, _) ← number s;
             Some (u32 (Z.shiftl major 16 + Z.shiftl minor 8 + patch))).
(** [basename(3)] of GNU: what follows the last slash. *)
Definition basename (p : path) : path := rev ((fix go l := match l with [] => [] | c :: l => if c =? slash then [] else c :: go l end) (rev p)).
Fixpoint before_dot (p : path) : path := match p with [] => [] | c :: p => if c =? 46 then [] else c :: before_dot p end.
(** [inl] is ERR_PTR. *)
Definition bpf_object__new (release : list Z) (p : path) (obj_name : option path) : B (Z + bpf_object * efile LE) :=
  let! ok := malloc in
  if negb ok then ret (inl (- ENOMEM))
  else
    let name := match obj_name with Some n => take 15 n | None => before_dot (take 15 (basename p)) end in
    ret (inr (new_object name (get_kernel_version release), Efile _ _ (-1) None (Ehdr 0 0 0 0) None 0 None None None [])).

Definition set_elf (ef : efile LE) (fd : Z) (e : option elf) : efile LE :=
  Efile _ _ fd e (ef_ehdr ef) (ef_symbols ef) (ef_strtabidx ef) (ef_data ef) (ef_rodata ef) (ef_bss ef) (ef_reloc ef).
Definition set_ehdr (ef : efile LE) (h : GElf_Ehdr) : efile LE :=
  Efile _ _ (ef_fd ef) (ef_elf ef) h (ef_symbols ef) (ef_strtabidx ef) (ef_data ef) (ef_rodata ef) (ef_bss ef) (ef_reloc ef).
Definition set_symbols (ef : efile LE) (d : Elf_Data) (i : Z) : efile LE :=
  Efile _ _ (ef_fd ef) (ef_elf ef) (ef_ehdr ef) (Some d) i (ef_data ef) (ef_rodata ef) (ef_bss ef) (ef_reloc ef).
Definition set_sections (ef : efile LE) (d r b : option Elf_Data) : efile LE :=
  Efile _ _ (ef_fd ef) (ef_elf ef) (ef_ehdr ef) (ef_symbols ef) (ef_strtabidx ef) d r b (ef_reloc ef).
Definition add_reloc (ef : efile LE) (sh : GElf_Shdr) (d : Elf_Data) : efile LE :=
  Efile _ _ (ef_fd ef) (ef_elf ef) (ef_ehdr ef) (ef_symbols ef) (ef_strtabidx ef) (ef_data ef) (ef_rodata ef) (ef_bss ef) (ef_reloc ef ++ [(sh, d)]).

(** Without an ELF handle nothing is closed. *)
Definition bpf_object__elf_finish (ef : efile LE) : B (efile LE) :=
  match ef_elf ef with
  | None => ret ef
  | Some _ =>
      zclose (ef_fd ef) ;;;
      ret (Efile _ _ (if ef_fd ef >=? 0 then -1 else ef_fd ef) None (ef_ehdr ef) None (ef_strtabidx ef) None None None [])
  end.
(** [buf] is the image in memory, [None] if the file is to be opened. *)
Definition bpf_object__elf_init (ef : efile LE) (p : path) (buf : option (list Z)) : B (Z * efile LE) :=
  match ef_elf ef with
  | Some _ => ret (- LIBBPF_ERRNO__LIBELF, ef)
  | None =>
      let check ef :=
        let errout err := let! ef := bpf_object__elf_finish ef in ret (err, ef) in
        match ef_elf ef with
        | None => errout (- LIBBPF_ERRNO__LIBELF)
        | Some e =>
            match gelf_getehdr e with
            | None => errout (- LIBBPF_ERRNO__FORMAT)
            | Some ep =>
                let ef := set_ehdr ef ep in
                if negb (e_type ep =? ET_REL) || (negb (e_machine ep =? 0) && negb (e_machine ep =? EM_BPF)) then
                  let! ef := bpf_object__elf_finish ef in ret (- LIBBPF_ERRNO__FORMAT, ef)
                else ret (0, ef)
            end
        end in
      match buf with
      | Some b => check (set_elf ef (ef_fd ef) (elf_memory b))
      | None =>
          let! fd := sys_open_path p in
          if fd <? 0 then let! e := get_errno in ret (- e, set_elf ef fd None)
          else let! e := gets (fun s => elf_begin (b_k s) fd) in check (set_elf ef fd e)
      end
  end.
Definition bpf_object__check_endianness (ef : efile LE) : Z :=
  if e_ident_data (ef_ehdr ef) =? ELFDATA2LSB then 0 else - LIBBPF_ERRNO__ENDIAN.

(** [char license[64]], the last byte of which stays 0. *)
Definition bpf_object__init_license (o : bpf_object) (d : Elf_Data) : B (Z * bpf_object) :=
  let n := Z.min (d_size d) 63 in
  let! b := if n =? 0 then ret [] else deref (d_buf d) in
  ret (0, with_license o (take (Z.to_nat n) b ++ drop (Z.to_nat n) (o_license o))).
Definition bpf_object__init_kversion (o : bpf_object) (d : Elf_Data) : B (Z * bpf_object) :=
  if negb (d_size d =? 4) then ret (- LIBBPF_ERRNO__FORMAT, o)
  else let! b := deref (d_buf d) in let! v := deref (word_of b 0) in ret (0, with_kern_version o v).
Definition section_have_execinstr (e : elf) (idx : Z) : bool :=
  match gelf_getshdr e idx with None => false | Some sh => negb (Z.land (sh_flags sh) SHF_EXECINSTR =? 0) end.

(** ** Sizes and offsets by name *)

(** The loop of [bpf_object_search_section_size], [n] sections from [idx]: the result and the size. *)
Fixpoint search_section (e : elf) (shstrndx : Z) (name : path) (n : nat) (idx : Z) : Z * Z :=
  match n with
  | O => (- ENOENT, 0)
  | S n =>
      match gelf_getshdr e idx with
      | None => (- EIO, 0)
      | Some sh =>
          match elf_strptr e shstrndx (sh_name sh) with
          | None => (- EIO, 0)
          | Some sec_name =>
              if negb (bool_decide (name = sec_name)) then search_section e shstrndx name n (idx + 1)
              else match elf_getdata e idx with None => (- EIO, 0) | Some d => (0, d_size d) end
          end
      end
  end.
Definition bpf_object_search_section_size (ef : efile LE) (e : elf) (name : path) : Z * Z :=
  search_section e (e_shstrndx (ef_ehdr ef)) name (elf_scns e) 1.
(** The result and the size, an u32. *)
Definition bpf_object__section_size (ef : efile LE) (e : elf) (name : option path) : Z * Z :=
  match name with
  | None => (- EINVAL, 0)
  | Some name =>
      let of_data d := match d with Some d => u32 (d_size d) | None => 0 end in
      let '(r, size) :=
        if bool_decide (name = str ".data") then (- ENOENT, of_data (ef_data ef))
        else if bool_decide (name = str ".bss") then (- ENOENT, of_data (ef_bss ef))
        else if bool_decide (name = str ".rodata") then (- ENOENT, of_data (ef_rodata ef))
        else let '(r, d_size) := bpf_object_search_section_size ef e name in (r, if r =? 0 then u32 d_size else 0) in
      (if negb (size =? 0) then 0 else r, size)
  end.
(** The loop of [bpf_object__variable_offset], [n] symbols from [si]: the result and the offset. *)
Fixpoint variable_symbol (ef : efile LE) (e : elf) (symbols : Elf_Data) (name : path) (n : nat) (si : Z) : Z * option Z :=
  match n with
  | O => (- ENOENT, None)
  | S n =>
      match gelf_getsym symbols si with
      | None => variable_symbol ef e symbols name n (si + 1)
      | Some sym =>
          if negb (GELF_ST_BIND (st_info sym) =? STB_GLOBAL) || negb (GELF_ST_TYPE (st_info sym) =? STT_OBJECT) then
            variable_symbol ef e symbols name n (si + 1)
          else match elf_strptr e (ef_strtabidx ef) (st_name sym) with
               | None => (- EIO, None)
               | Some sname => if bool_decide (name = sname) then (0, Some (u32 (st_value sym))) else variable_symbol ef e symbols name n (si + 1)
               end
      end
  end.
(** Without a name or a place for the offset the result is -EINVAL; its caller has them. *)
Definition bpf_object__variable_offset (ef : efile LE) (e : elf) (name : path) : option (Z * option Z) :=
  symbols ← ef_symbols ef; Some (variable_symbol ef e symbols name (nr_syms symbols) 0).
End Elf.

(** ** A concrete libelf *)

(** A file as its sections, section 0 first; symbols and relocations are encoded as in ELF64. *)
Record efi := Efi { fi_ehdr : GElf_Ehdr; fi_scns : list (GElf_Shdr * Elf_Data) }.
Definition fi_scn (f : efi) (i : Z) : option (GElf_Shdr * Elf_Data) := if 0 <=? i then fi_scns f !! Z.to_nat i else None.
Definition fi_str (f : efi) (scn off : Z) : option path :=
  '(_, d) ← fi_scn f scn; b ← d_buf d; if (0 <=? off) && (off <? lenZ b) then c_str (drop (Z.to_nat off) b) else None.
Definition le_of (b : list Z) (p : Z) (n : nat) : Z := foldr (fun i z => getZ b (p + Z.of_nat i) + 256 * z) 0 (seq 0 n).
Definition entry (d : Elf_Data) (size i : Z) : option (list Z) :=
  b ← d_buf d; if (0 <=? i) && (size * (i + 1) <=? lenZ b) then Some (take (Z.to_nat size) (drop (Z.to_nat (size * i)) b)) else None.
Definition sym_of (b : list Z) : GElf_Sym := Sym (le_of b 0 4) (u8 (le_of b 4 1)) (u16 (le_of b 6 2)) (u64 (le_of b 8 8)).
Definition rel_of (b : list Z) : GElf_Rel := Rel (u64 (le_of b 0 8)) (u64 (le_of b 8 8)).
Definition shdr_ok (sh : GElf_Shdr) : bool := (0 <=? sh_info sh) && (sh_info sh <? 4294967296) && (0 <=? sh_link sh) && (sh_link sh <? 4294967296).
Definition data_ok (sh : GElf_Shdr) (d : Elf_Data) : bool :=
  (0 <=? d_size d) && (d_size d <? 2147483648) &&
  match d_buf d with
  | Some b => (lenZ b =? d_size d) && forallb (fun x => (0 <=? x) && (x <? 256)) b
  | None => (sh_type sh =? SHT_NOBITS) || (d_size d =? 0)
  end.
(** Every file that is opened is [f]; headers and sections that are not well formed are errors. *)
Definition bytes_elf (BK : BpfKernel) (f : efi) : Libelf BK := {|
  elf := efi; elf_version_ok := true; elf_memory _ := Some f; elf_begin _ _ := Some f;
  gelf_getehdr e := Some (fi_ehdr e); elf_scns e := pred (length (fi_scns e));
  gelf_getshdr e i := '(sh, _) ← fi_scn e i; if shdr_ok sh then Some sh else None;
  elf_getdata e i := '(sh, d) ← fi_scn e i; if data_ok sh d then Some d else None;
  elf_rawdata e i := snd <$> fi_scn e i; elf_strptr := fi_str;
  gelf_getsym d i := sym_of <$> entry d sizeof_GElf_Sym i; gelf_getrel d i := rel_of <$> entry d 16 i
|}.
Lemma bytes_elf_ok (BK : BpfKernel) (f : efi) : LibelfOk (bytes_elf BK f).
Proof.
  split; cbn.
  - intros e i d b. destruct (fi_scn e i) as [[sh d']|]; cbn; [|done]. destruct (data_ok sh d') eqn:Ed; [|done]. intros [= <-] Eb.
    unfold data_ok in Ed. rewrite Eb in Ed. apply andb_true_iff in Ed as [_ [E1 E2]%andb_true_iff]. apply Z.eqb_eq in E1. split; [done|].
    rewrite forallb_forall in E2. apply list.Forall_forall. intros x Hx%list_elem_of_In. specialize (E2 x Hx). unfold is_u8. lia.
  - intros e i d. destruct (fi_scn e i) as [[sh d']|]; cbn; [|done]. destruct (data_ok sh d') eqn:Ed; [|done]. intros [= <-]. unfold data_ok in Ed. lia.
  - intros e i sh d. destruct (fi_scn e i) as [[sh' d']|]; cbn; [|done]. destruct (shdr_ok sh'); [|done]. intros [= <-].
    destruct (data_ok sh' d') eqn:Ed; [|done]. intros [= <-] Ht Hd Hb. unfold data_ok in Ed. rewrite Hb in Ed. lia.
  - intros d i y. destruct (entry d sizeof_GElf_Sym i); cbn; [|done]. intros [= <-]. cbn. auto with ints.
  - intros d i y. destruct (entry d 16 i); cbn; [|done]. intros [= <-]. cbn. auto with ints.
  - intros e i sh. destruct (fi_scn e i) as [[sh' d']|]; cbn; [|done]. destruct (shdr_ok sh') eqn:Es; [|done]. intros [= <-]. unfold shdr_ok in Es.
    unfold is_u32. lia.
Qed.

(** ** Instructions *)

Definition insn_ok (i : bpf_insn) : Prop :=
  is_u8 (code i) /\ 0 <= dst_reg i < 16 /\ 0 <= src_reg i < 16 /\ -32768 <= off i < 32768 /\ -2147483648 <= imm i < 2147483648.
(** The instructions of a section are what was encoded into it. *)
Theorem insns_roundtrip (l : list bpf_insn) : Forall insn_ok l -> insns_of (concat (map insn_bytes l)) = l.
Proof.
  induction 1 as [|i l (H1 & H2 & H3 & H4 & H5) _ IH]; [done|]. destruct i as [c d r o m]. cbn [code dst_reg src_reg off imm] in *.
  cbn [map concat]. unfold insn_bytes, Nlattr.half_bytes, word_bytes. cbn [app insns_of code dst_reg src_reg off imm]. f_equal; [|done].
  assert (E2 : u8 (d + 16 * r) = d + 16 * r) by (apply u8_small; unfold is_u8; lia).
  f_equal; [by apply u8_small|rewrite E2; Z.div_mod_to_equations; lia|rewrite E2; Z.div_mod_to_equations; lia| |].
  - unfold s16, u8. Z.div_mod_to_equations. lia.
  - unfold s32, u8. Z.div_mod_to_equations. lia.
Qed.
Lemma insns_of_length : forall n l, (length l <= n)%nat -> length (insns_of l) = (length l / 8)%nat.
Proof.
  induction n as [|n IH]; intros l Hl; [by destruct l; [|cbn in Hl; lia]|].
  do 8 (destruct l as [|? l]; [reflexivity|]). cbn [insns_of length]. rewrite IH by (cbn in Hl; lia).
  replace (S (S (S (S (S (S (S (S (length l)))))))))%nat with (length l + 1 * 8)%nat by lia. rewrite Nat.div_add by lia. lia.
Qed.

(** ** An object file *)

(** A section "maps" with one map m, a program in the section "xdp" that loads the address
    of the map, a license. *)
Definition le_bytes (n : nat) (v : Z) : list Z := map (fun i => u8 (v / 256 ^ Z.of_nat i)) (seq 0 n).
Definition sym_bytes (name info shndx value : Z) : list Z := le_bytes 4 name ++ [info; 0] ++ le_bytes 2 shndx ++ le_bytes 8 value ++ le_bytes 8 0.
Definition demo_names : list Z :=
  concat (map (fun s => s ++ [0]) [[]; str "maps"; str "xdp"; str "license"; str ".symtab"; str ".strtab"; str ".relxdp"; str "m"; str "prog"]).
Definition demo_prog : list bpf_insn := BPF_LD_MAP_FD 1 0 ++ [BPF_MOV64_IMM 0 2; BPF_EXIT_INSN].
Definition scn (name type flags link info : Z) (b : list Z) (entsize : Z) : GElf_Shdr * Elf_Data :=
  (Shdr name type flags link info (lenZ b) entsize, Data (Some b) (lenZ b)).
Definition demo_file : efi := Efi (Ehdr ET_REL EM_BPF 1 ELFDATA2LSB)
  [scn 0 0 0 0 0 [] 0; scn 26 3 0 0 0 demo_names 0;
   scn 18 SHT_SYMTAB 0 1 0 (sym_bytes 0 0 0 0 ++ sym_bytes 42 17 3 0 ++ sym_bytes 44 18 4 0) 24;
   scn 1 SHT_PROGBITS 3 0 0 (word_bytes 2 ++ word_bytes 4 ++ word_bytes 8 ++ word_bytes 5 ++ word_bytes 0) 0;
   scn 6 SHT_PROGBITS 6 0 0 (concat (map insn_bytes demo_prog)) 0;
   scn 10 SHT_PROGBITS 3 0 0 (str "GPL" ++ [0]) 0;
   scn 34 SHT_REL 0 2 4 (le_bytes 8 0 ++ le_bytes 4 1 ++ le_bytes 4 1) 16].
