(* ===== verification/OpenMaps.v ===== *)
(** * The maps of an object file: libbpf/src/libbpf.c

    The definitions of maps in the sections "maps" and ".maps" and the internal maps for
    .data, .rodata and .bss, up to [bpf_object__init_maps].  An array of maps grows; whether
    the allocator is asked depends on the number of maps alone.  [qsort] is a stable sort.
    The theorem: for a section "maps" with a definition per symbol, of any size, the maps of
    the object are the symbols of the section in order, each defined by the bytes at its
    value. *)

From Stdlib Require Import String.
From S2P Require Import Prelude Params Netlink Os Btf BtfExt BpfProg Object Pinning BpfSys ObjMaps Reloc ObjLoad SecNames Elf.
#[local] Open Scope Z_scope.
#[local] Open Scope prog_scope.

Definition BPF_F_RDONLY_PROG : Z := 128.
Definition LIBBPF_PIN_NONE : Z := 0.
Definition LIBBPF_PIN_BY_NAME : Z := 1.
Definition BTF_VAR_STATIC : Z := 0.
Definition BTF_VAR_GLOBAL_ALLOCATED : Z := 1.
Definition sizeof_bpf_map_def : Z := 20.

(** ** The array of maps *)

(** No place for one more when there are [n]: capacities are 4, 6, 9, and so on. *)
Fixpoint full (fuel : nat) (cap n : Z) : bool :=
  match fuel with
  | O => false
  | S fuel => if n =? cap then true else if n <? cap then false else full fuel (Z.max 4 (cap * 3 / 2)) n
  end.
Definition set_place (m : bpf_map) (ty : libbpf_map_type) (sec_idx sec_offset : Z) : bpf_map :=
  Bpf_map (m_name m) (m_fd m) (m_pin_path m) (m_pinned m) (m_reused m) sec_idx sec_offset (m_ifindex m) (m_inner_map_fd m)
    (m_def m) (m_btf_key m) (m_btf_value m) ty.
(** A copy of [n] bytes of a buffer. *)
Definition copy (b : list Z) (p n : Z) : option (list Z) :=
  if (0 <=? p) && (0 <=? n) && (p + n <=? lenZ b) then Some (take (Z.to_nat n) (drop (Z.to_nat p) b)) else None.
(** A definition from its bytes; what is missing is 0. *)
Definition def_of (b : list Z) : bpf_map_def :=
  let w i := getZ b i + 256 * getZ b (i + 1) + 65536 * getZ b (i + 2) + 16777216 * getZ b (i + 3) in
  Bpf_map_def (w 0) (w 4) (w 8) (w 12) (w 16).

(** [compare_bpf_map] and [qsort] with it. *)
Definition compare_bpf_map (a b : bpf_map) : Z :=
  if negb (m_sec_idx a =? m_sec_idx b) then s32 (m_sec_idx a - m_sec_idx b) else s32 (m_sec_offset a - m_sec_offset b).
Fixpoint insert_map (m : bpf_map) (l : list bpf_map) : list bpf_map :=
  match l with [] => [m] | x :: l => if compare_bpf_map m x <=? 0 then m :: x :: l else x :: insert_map m l end.
Definition sort_maps (l : list bpf_map) : list bpf_map := foldr insert_map [] l.

(** ** Maps from type information *)

Section Fields.
Context (b : btf).
Abbreviation buf := (bt_data b).
(** The kind of what a pointer to a type points to: NULL is a fault, [btf_void] has none. *)
Definition kind_at (t : option (option Z)) : option Z :=
  match t with None => None | Some None => Some 0 | Some (Some t) => btf_kind buf t end.
Definition name_off_at (t : option (option Z)) : option Z :=
  match t with None => None | Some None => Some 0 | Some (Some t) => name_off buf t end.
Definition type_field_at (t : option (option Z)) : option Z :=
  match t with None => None | Some None => Some 0 | Some (Some t) => size_or_type buf t end.
Definition is_mod_or_typedef (k : Z) : bool := is_kind k [BTF_KIND_VOLATILE; BTF_KIND_CONST; BTF_KIND_RESTRICT; BTF_KIND_TYPEDEF].
(** The loop has no limit of its own: a cycle of types is a fault. *)
Fixpoint skip_mods (fuel : nat) (t : option (option Z)) (res_id : Z) : option (option (option Z) * Z) :=
  match fuel with
  | O => None
  | S fuel => k ← kind_at t;
              if is_mod_or_typedef k then id ← type_field_at t; t ← btf__type_by_id b id; skip_mods fuel t id else Some (t, res_id)
  end.
(** The type and its id. *)
Definition skip_mods_and_typedefs (id : Z) : option (option (option Z) * Z) :=
  t ← btf__type_by_id b id; skip_mods (S (Z.to_nat (nr_types b))) t id.
(** A member: its name and its type.  [Some None] is the result false. *)
Definition get_map_field_int (m_type : Z) : option (option Z) :=
  '(t, _) ← skip_mods_and_typedefs m_type;
  k ← kind_at t;
  if negb (k =? BTF_KIND_PTR) then Some None
  else
    id ← type_field_at t;
    arr ← btf__type_by_id b id;
    match arr with
    | None => Some None
    | Some _ =>
        k ← kind_at arr;
        if negb (k =? BTF_KIND_ARRAY) then Some None
        else match arr with Some (Some a) => n ← array_nelems buf a; Some (Some n) | _ => None end
    end.
(** The key or the value of a map: [inl] the error, or the size and the type. *)
Definition pointed_size (m_type : Z) : option (Z + Z * Z) :=
  t ← btf__type_by_id b m_type;
  match t with
  | None => Some (inl (- EINVAL))
  | Some _ =>
      k ← kind_at t;
      if negb (k =? BTF_KIND_PTR) then Some (inl (- EINVAL))
      else
        id ← type_field_at t;
        sz ← btf__resolve_size b id;
        Some (if sz <? 0 then inl sz else inr (sz, id))
  end.
(** A string of the type information, NULL is [Some None]. *)
Definition c_name (off : Z) : option (option path) :=
  n ← btf__name_by_offset b off; match n with None => Some None | Some n => s ← c_str n; Some (Some s) end.
End Fields.

Definition set_def_type (m : bpf_map) (v : Z) : bpf_map :=
  let d := m_def m in set_def m (Bpf_map_def v (d_key_size d) (d_value_size d) (d_max_entries d) (d_map_flags d)).
Definition set_def_key (m : bpf_map) (v : Z) : bpf_map :=
  let d := m_def m in set_def m (Bpf_map_def (d_type d) v (d_value_size d) (d_max_entries d) (d_map_flags d)).
Definition set_def_value (m : bpf_map) (v : Z) : bpf_map :=
  let d := m_def m in set_def m (Bpf_map_def (d_type d) (d_key_size d) v (d_max_entries d) (d_map_flags d)).
Definition set_def_entries (m : bpf_map) (v : Z) : bpf_map :=
  let d := m_def m in set_def m (Bpf_map_def (d_type d) (d_key_size d) (d_value_size d) v (d_map_flags d)).
Definition set_def_flags (m : bpf_map) (v : Z) : bpf_map :=
  let d := m_def m in set_def m (Bpf_map_def (d_type d) (d_key_size d) (d_value_size d) (d_max_entries d) v).

Section OpenMaps.
Context {BK : BpfKernel} {LE : Libelf BK}.
Abbreviation B := (M (bsys BK)).

(** The object with one more map, the last; [None] is ERR_PTR(-ENOMEM). *)
Definition bpf_object__add_map (o : bpf_object) : B (option bpf_object) :=
  let n := lenZ (o_maps o) in
  let! ok := if full (S (length (o_maps o))) 0 n then malloc else ret true in
  ret (if (ok : bool) then Some (with_maps o (o_maps o ++ [new_map])) else None).
(** Changing the last map. *)
Definition set_last (o : bpf_object) (m : bpf_map) : bpf_object := with_maps o (removelast (o_maps o) ++ [m]).

(** "%.8s%.7s" *)
Definition internal_name (o : bpf_object) (ty : libbpf_map_type) : path := take 8 (o_name o) ++ take 7 (default [] (libbpf_type_to_btf_name ty)).
Definition bpf_object__init_internal_map (o : bpf_object) (ty : libbpf_map_type) (sec_idx : Z) (d : Elf_Data) (with_data : bool) :
    B (Z * bpf_object * option (list Z)) :=
  let! r := bpf_object__add_map o in
  match r with
  | None => ret (- ENOMEM, o, None)
  | Some o =>
      let m := set_place new_map ty sec_idx 0 in
      let! ok := malloc in
      if negb ok then ret (- ENOMEM, set_last o m, None)
      else
        let def := Bpf_map_def BPF_MAP_TYPE_ARRAY 4 (u32 (d_size d)) 1 (if decide (ty = LIBBPF_MAP_RODATA) then BPF_F_RDONLY_PROG else 0) in
        let m := set_def m def in
        let named := set_last o (set_name m (internal_name o ty)) in
        if negb with_data then ret (0, named, None)
        else
          let! ok := malloc in
          if negb ok then ret (- ENOMEM, set_last o m, None)
          else
            let! b := if d_size d =? 0 then ret [] else deref (d_buf d) in
            ret (0, named, Some b)
  end.
Definition bpf_object__init_global_data_maps (ef : efile LE) (o : bpf_object) : B (Z * bpf_object) :=
  if negb (cap_global_data (o_caps o)) then ret (0, o)
  else
    let! (err, o) := if o_data_shndx o >=? 0 then
                       let! d := deref (ef_data ef) in
                       let! (err, o, b) := bpf_object__init_internal_map o LIBBPF_MAP_DATA (o_data_shndx o) d true in
                       ret (err, match b with Some _ => with_contents o b (o_rodata o) | None => o end)
                     else ret (0, o) in
    if negb (err =? 0) then ret (err, o)
    else
      let! (err, o) := if o_rodata_shndx o >=? 0 then
                         let! d := deref (ef_rodata ef) in
                         let! (err, o, b) := bpf_object__init_internal_map o LIBBPF_MAP_RODATA (o_rodata_shndx o) d true in
                         ret (err, match b with Some _ => with_contents o (o_data o) b | None => o end)
                       else ret (0, o) in
      if negb (err =? 0) then ret (err, o)
      else if o_bss_shndx o >=? 0 then
        let! d := deref (ef_bss ef) in
        let! (err, o, _) := bpf_object__init_internal_map o LIBBPF_MAP_BSS (o_bss_shndx o) d false in
        ret (err, o)
      else ret (0, o).

(** ** Maps from the section "maps" *)

(** The symbols of section [idx] among [n] from [i], and their number. *)
Fixpoint symbols_of (symbols : Elf_Data) (idx : Z) (n : nat) (i : Z) : list GElf_Sym :=
  match n with
  | O => []
  | S n => match gelf_getsym symbols i with
           | None => symbols_of symbols idx n (i + 1)
           | Some sym => if negb (st_shndx sym =? idx) then symbols_of symbols idx n (i + 1) else sym :: symbols_of symbols idx n (i + 1)
           end
  end.
(** One turn of the second loop. *)
Definition init_user_map (e : elf) (strtabidx : Z) (d : Elf_Data) (map_def_sz : Z) (strict : bool) (o : bpf_object) (sym : GElf_Sym) : B (Z * bpf_object) :=
  let! r := bpf_object__add_map o in
  match r with
  | None => ret (- ENOMEM, o)
  | Some o =>
      match elf_strptr e strtabidx (st_name sym) with
      | None => ret (- LIBBPF_ERRNO__FORMAT, o)
      | Some map_name =>
          let m := set_place new_map LIBBPF_MAP_UNSPEC (st_shndx sym) (st_value sym) in
          if u64 (st_value sym + map_def_sz) >? d_size d then ret (- EINVAL, set_last o m)
          else
            let! ok := malloc in
            if negb ok then ret (- ENOMEM, set_last o m)
            else
              let m := set_name m map_name in
              let! b := deref (d_buf d) in
              let! def := deref (copy b (st_value sym) map_def_sz) in
              if map_def_sz <=? sizeof_bpf_map_def then ret (0, set_last o (set_def m (def_of def)))
              else if strict && negb (forallb (Z.eqb 0) (drop (Z.to_nat sizeof_bpf_map_def) def)) then ret (- EINVAL, set_last o m)
              else ret (0, set_last o (set_def m (def_of (take (Z.to_nat sizeof_bpf_map_def) def))))
      end
  end.
Fixpoint user_maps_loop (e : elf) (strtabidx : Z) (d : Elf_Data) (map_def_sz : Z) (strict : bool) (o : bpf_object) (l : list GElf_Sym) : B (Z * bpf_object) :=
  match l with
  | [] => ret (0, o)
  | sym :: l => let! (err, o) := init_user_map e strtabidx d map_def_sz strict o sym in
                if negb (err =? 0) then ret (err, o) else user_maps_loop e strtabidx d map_def_sz strict o l
  end.
Definition bpf_object__init_user_maps (ef : efile LE) (o : bpf_object) (strict : bool) : B (Z * bpf_object) :=
  if o_maps_shndx o <? 0 then ret (0, o)
  else match ef_symbols ef with
  | None => ret (- EINVAL, o)
  | Some symbols =>
      let! e := deref (ef_elf ef) in
      match elf_getdata e (o_maps_shndx o) with
      | None => ret (- EINVAL, o)
      | Some d =>
          let l := symbols_of symbols (o_maps_shndx o) (nr_syms symbols) 0 in
          let nr_maps := lenZ l in
          if (d_size d =? 0) || (nr_maps =? 0) || negb (d_size d mod nr_maps =? 0) then ret (- EINVAL, o)
          else user_maps_loop e (ef_strtabidx ef) d (d_size d / nr_maps) strict o l
      end
  end.

(** ** Maps from the section ".maps" *)

Definition build_map_pin_path (m : bpf_map) (root : option path) : B (Z * bpf_map) :=
  match full_path (default (str "/sys/fs/bpf") root) (m_name m) with
  | None => ret (- ENAMETOOLONG, m)
  | Some p => on_fs (bpf_map__set_pin_path m (Some p))
  end.
(** One member of the definition: its name and its type. *)
Definition map_field (b : btf) (name : path) (m_type : Z) (strict : bool) (pin_root_path : option path) (m : bpf_map) : B (Z * bpf_map) :=
  let int_field (k : Z -> B (Z * bpf_map)) :=
    let! v := deref (get_map_field_int b m_type) in
    match v with None => ret (- EINVAL, m) | Some v => k v end in
  let conflict (old new : Z) := negb (old =? 0) && negb (old =? new) in
  if bool_decide (name = str "type") then int_field (fun v => ret (0, set_def_type m v))
  else if bool_decide (name = str "max_entries") then int_field (fun v => ret (0, set_def_entries m v))
  else if bool_decide (name = str "map_flags") then int_field (fun v => ret (0, set_def_flags m v))
  else if bool_decide (name = str "key_size") then
    int_field (fun sz => if conflict (d_key_size (m_def m)) sz then ret (- EINVAL, m) else ret (0, set_def_key m sz))
  else if bool_decide (name = str "key") then
    let! r := deref (pointed_size b m_type) in
    match r with
    | inl err => ret (s32 err, m)
    | inr (sz, id) => if conflict (d_key_size (m_def m)) sz then ret (- EINVAL, m)
                      else ret (0, set_btf_ids (set_def_key m (u32 sz)) id (m_btf_value m))
    end
  else if bool_decide (name = str "value_size") then
    int_field (fun sz => if conflict (d_value_size (m_def m)) sz then ret (- EINVAL, m) else ret (0, set_def_value m sz))
  else if bool_decide (name = str "value") then
    let! r := deref (pointed_size b m_type) in
    match r with
    | inl err => ret (s32 err, m)
    | inr (sz, id) => if conflict (d_value_size (m_def m)) sz then ret (- EINVAL, m)
                      else ret (0, set_btf_ids (set_def_value m (u32 sz)) (m_btf_key m) id)
    end
  else if bool_decide (name = str "pinning") then
    int_field (fun v => if negb (v =? LIBBPF_PIN_NONE) && negb (v =? LIBBPF_PIN_BY_NAME) then ret (- EINVAL, m)
                        else if v =? LIBBPF_PIN_BY_NAME then build_map_pin_path m pin_root_path else ret (0, m))
  else if strict then ret (- ENOTSUP, m) else ret (0, m).
(** The loop over the members of [def], [n] of them from [i]. *)
Fixpoint map_fields (b : btf) (def : Z) (n : nat) (i : Z) (strict : bool) (pin_root_path : option path) (m : bpf_map) : B (Z * bpf_map) :=
  match n with
  | O => ret (0, m)
  | S n =>
      let! off := deref (word_of (bt_data b) (def + 12 + 12 * i)) in
      let! name := deref (c_name b off) in
      match name with
      | None => ret (- EINVAL, m)
      | Some name =>
          let! m_type := deref (word_of (bt_data b) (def + 12 + 12 * i + 4)) in
          let! (err, m) := map_field b name m_type strict pin_root_path m in
          if negb (err =? 0) then ret (err, m) else map_fields b def n (i + 1) strict pin_root_path m
      end
  end.
(** [sec] is the DATASEC, [b] the type information of the object. *)
Definition bpf_object__init_user_btf_map (o : bpf_object) (b : btf) (sec var_idx sec_idx : Z) (d : Elf_Data) (strict : bool) (pin_root_path : option path) :
    B (Z * bpf_object) :=
  let buf := bt_data b in
  let vi := sec + 12 + 12 * var_idx in
  let! vi_type := deref (word_of buf vi) in
  let! var := deref (btf__type_by_id b vi_type) in
  let! off := deref (name_off_at b var) in
  let! map_name := deref (c_name b off) in
  match map_name with
  | None | Some [] => ret (- EINVAL, o)
  | Some map_name =>
      let! vi_offset := deref (word_of buf (vi + 4)) in
      let! vi_size := deref (word_of buf (vi + 8)) in
      if vi_offset + vi_size >? d_size d then ret (- EINVAL, o)
      else
        let! k := deref (kind_at b var) in
        if negb (k =? BTF_KIND_VAR) then ret (- EINVAL, o)
        else
          let! t := deref (match var with Some (Some t) => Some t | _ => None end) in
          let! linkage := deref (word_of buf (t + 12)) in
          if negb (linkage =? BTF_VAR_GLOBAL_ALLOCATED) && negb (linkage =? BTF_VAR_STATIC) then ret (- EOPNOTSUPP, o)
          else
            let! ty := deref (size_or_type buf t) in
            let! (def, _) := deref (skip_mods_and_typedefs b ty) in
            let! k := deref (kind_at b def) in
            if negb (k =? BTF_KIND_STRUCT) then ret (- EINVAL, o)
            else
              let! def := deref (match def with Some (Some t) => Some t | _ => None end) in
              let! size := deref (size_or_type buf def) in
              if size >? vi_size then ret (- EINVAL, o)
              else
                let! r := bpf_object__add_map o in
                match r with
                | None => ret (- ENOMEM, o)
                | Some o =>
                    let! ok := malloc in
                    if negb ok then ret (- ENOMEM, o)
                    else
                      let m := set_place (set_name new_map map_name) LIBBPF_MAP_UNSPEC sec_idx vi_offset in
                      let! vlen := deref (btf_vlen buf def) in
                      let! (err, m) := map_fields b def (Z.to_nat vlen) 0 strict pin_root_path m in
                      ret (if negb (err =? 0) then err else if d_type (m_def m) =? BPF_MAP_TYPE_UNSPEC then - EINVAL else 0, set_last o m)
                end
  end.
(** The DATASEC ".maps" among [n] types from [i]. *)
Fixpoint find_maps_sec (b : btf) (n : nat) (i : Z) : option (option Z) :=
  match n with
  | O => Some None
  | S n =>
      t ← btf__type_by_id b i;
      k ← kind_at b t;
      if negb (k =? BTF_KIND_DATASEC) then find_maps_sec b n (i + 1)
      else
        off ← name_off_at b t;
        name ← c_name b off;
        name ← name;
        if bool_decide (name = str ".maps") then match t with Some (Some t) => Some (Some t) | _ => None end else find_maps_sec b n (i + 1)
  end.
(** The loop over the variables of the section, [n] of them from [i]. *)
Fixpoint btf_maps_loop (b : btf) (sec sec_idx : Z) (d : Elf_Data) (strict : bool) (pin_root_path : option path) (n : nat) (i : Z) (o : bpf_object) : B (Z * bpf_object) :=
  match n with
  | O => ret (0, o)
  | S n =>
      let! (err, o) := bpf_object__init_user_btf_map o b sec i sec_idx d strict pin_root_path in
      if negb (err =? 0) then ret (err, o) else btf_maps_loop b sec sec_idx d strict pin_root_path n (i + 1) o
  end.
Definition bpf_object__init_user_btf_maps (ef : efile LE) (o : bpf_object) (strict : bool) (pin_root_path : option path) : B (Z * bpf_object) :=
  if o_btf_maps_shndx o <? 0 then ret (0, o)
  else
    let! e := deref (ef_elf ef) in
    match elf_getdata e (o_btf_maps_shndx o) with
    | None => ret (- EINVAL, o)
    | Some d =>
        let! (b, _) := deref (o_btf o) in
        let! sec := deref (find_maps_sec b (Z.to_nat (nr_types b)) 1) in
        match sec with
        | None => ret (- ENOENT, o)
        | Some sec => let! vlen := deref (btf_vlen (bt_data b) sec) in
                      btf_maps_loop b sec (o_btf_maps_shndx o) d strict pin_root_path (Z.to_nat vlen) 0 o
        end
    end.
Definition bpf_object__init_maps (ef : efile LE) (o : bpf_object) (relaxed_maps : bool) (pin_root_path : option path) : B (Z * bpf_object) :=
  let strict := negb relaxed_maps in
  let! (err, o) := bpf_object__init_user_maps ef o strict in
  if negb (err =? 0) then ret (err, o)
  else
    let! (err, o) := bpf_object__init_user_btf_maps ef o strict pin_root_path in
    if negb (err =? 0) then ret (err, o)
    else
      let! (err, o) := bpf_object__init_global_data_maps ef o in
      if negb (err =? 0) then ret (err, o) else ret (0, with_maps o (sort_maps (o_maps o))).
End OpenMaps.

(** ** What the loops do *)

Section MapRules.
Context {BK : BpfKernel} {BO : BpfKernelOk BK} {LE : Libelf BK} {LO : LibelfOk LE}.
Abbreviation B := (M (bsys BK)).

Lemma own_malloc_ok s X (Q : bool -> bsys BK -> Prop) : own s X -> memory ->
  (forall s', own s' X -> kept X s s' -> Q true s') -> wp malloc Q s.
Proof using BO.
  intros HO Hm HQ. eapply own_malloc; [exact HO|]. intros [] s' HO' HK Hf; [auto|]. by destruct (Hf eq_refl) as (_ & ? & _).
Qed.
(** A map that opening made: no descriptor, not pinned. *)
Definition fresh (m : bpf_map) : Prop := m_fd m = -1 /\ m_pinned m = false /\ m_reused m = false /\ m_inner_map_fd m = -1 /\ m_pin_path m = None.
Lemma set_last_add o m : set_last (with_maps o (o_maps o ++ [new_map])) m = with_maps o (o_maps o ++ [m]).
Proof. unfold set_last. cbn [with_maps o_maps]. by rewrite removelast_last. Qed.
Lemma wp_add_map o s X (Q : option bpf_object -> bsys BK -> Prop) : own s X ->
  (forall s', own s' X -> kept X s s' -> Q (Some (with_maps o (o_maps o ++ [new_map]))) s') ->
  (forall s', own s' X -> kept X s s' -> ~ memory -> Q None s') ->
  wp (bpf_object__add_map o) Q s.
Proof using BO.
  intros HO H1 H2. unfold bpf_object__add_map. apply wp_bind. destruct (full _ _ _).
  - eapply own_malloc; [exact HO|]. intros [] s1 HO1 K1 Hf; apply wp_ret; [by apply H1|apply H2; try done; by apply Hf].
  - apply wp_ret, wp_ret. apply H1; [done|apply kept_refl].
Qed.

(** The definition of a map in [sz] bytes at the value of its symbol. *)
Definition defined_by (e : elf) (strtabidx : Z) (b : list Z) (sz : Z) (strict : bool) (sym : GElf_Sym) (m : bpf_map) : Prop :=
  exists name bytes, elf_strptr e strtabidx (st_name sym) = Some name /\ copy b (st_value sym) sz = Some bytes /\
    (strict = true -> Forall (eq 0) (drop 20 bytes)) /\
    m = set_def (set_name (set_place new_map LIBBPF_MAP_UNSPEC (st_shndx sym) (st_value sym)) name) (def_of (take 20 bytes)).
Lemma copy_some b p n : 0 <= p -> 0 <= n -> p + n <= lenZ b -> copy b p n = Some (take (Z.to_nat n) (drop (Z.to_nat p) b)).
Proof. intros. unfold copy. by replace (_ && _ && _)%bool with true by lia. Qed.
Lemma copy_length b p n l : copy b p n = Some l -> lenZ l = n.
Proof. unfold copy. destruct (_ && _ && _)%bool eqn:E; [|done]. intros [= <-]. rewrite length_take, length_drop. lia. Qed.
Lemma forallb_zero l : forallb (Z.eqb 0) l = true <-> Forall (eq 0) l.
Proof. rewrite forallb_forall, list.Forall_forall. setoid_rewrite list_elem_of_In. setoid_rewrite Z.eqb_eq. done. Qed.

(** One symbol: errors apart, one map more. *)
Definition one_more (e : elf) (strtabidx : Z) (b : list Z) (sz : Z) (strict : bool) (X : list Z) (o : bpf_object) (sym : GElf_Sym) (s : bsys BK) (r : Z * bpf_object) (s' : bsys BK) : Prop :=
  own s' X /\ kept X s s' /\ ((r.1 <> 0 /\ (r.2 = o \/ exists m, fresh m /\ m_type m = LIBBPF_MAP_UNSPEC /\ r.2 = with_maps o (o_maps o ++ [m]))) \/
    (r.1 = 0 /\ exists m, defined_by e strtabidx b sz strict sym m /\ r.2 = with_maps o (o_maps o ++ [m]))).
Lemma wp_user_map e strtabidx d b sz strict o sym s X : own s X -> d_buf d = Some b -> lenZ b = d_size d -> 0 < sz <= d_size d -> d_size d < 2147483648 ->
  0 <= st_value sym < 9223372036854775808 ->
  wp (init_user_map e strtabidx d sz strict o sym) (one_more e strtabidx b sz strict X o sym s) s.
Proof using BO.
  intros HO Hb Hl Hsz Hd Hv. unfold init_user_map. apply wp_bind.
  apply (wp_add_map o s X); [done|intros s1 HO1 K1|intros s1 HO1 K1 _; apply wp_ret; split; [done|]; split; [done|]; left; split; [done|by left]].
  assert (Hfail : forall m r s2, r <> 0 -> own s2 X -> kept X s1 s2 -> fresh m -> m_type m = LIBBPF_MAP_UNSPEC ->
    one_more e strtabidx b sz strict X o sym s (r, with_maps o (o_maps o ++ [m])) s2).
  { intros m r s2 Hr HO2 K2 Hm Ht. split; [done|]. split; [by eapply kept_trans|]. left. split; [done|]. right. by exists m. }
  destruct (elf_strptr e strtabidx (st_name sym)) as [name|] eqn:En; [|apply wp_ret; by apply Hfail].
  rewrite !set_last_add. rewrite (u64_small (st_value sym + sz)) by (unfold is_u64; lia).
  destruct (Z.gtb_spec (st_value sym + sz) (d_size d)); [apply wp_ret; by apply Hfail|].
  apply wp_bind. eapply own_malloc; [exact HO1|]. intros ok s2 HO2 K2 _. destruct ok; cbn [negb]; [|apply wp_ret; by apply Hfail].
  apply wp_bind. eapply wp_deref; [exact Hb|]. pose proof (copy_some b (st_value sym) sz ltac:(lia) ltac:(lia) ltac:(lia)) as Hc.
  set (bytes := take (Z.to_nat sz) (drop (Z.to_nat (st_value sym)) b)) in *. apply wp_bind. eapply wp_deref; [exact Hc|].
  pose proof (copy_length _ _ _ _ Hc) as Hbl.
  assert (Hok : forall l, def_of l = def_of (take 20 bytes) -> (strict = true -> Forall (eq 0) (drop 20 bytes)) ->
    one_more e strtabidx b sz strict X o sym s (0, with_maps o (o_maps o ++ [set_def (set_name (set_place new_map LIBBPF_MAP_UNSPEC (st_shndx sym) (st_value sym)) name) (def_of l)])) s2).
  { intros l El Hz. split; [done|]. split; [by eapply kept_trans|]. right. split; [done|]. eexists. split; [|done]. exists name, bytes. by rewrite El. }
  rewrite !set_last_add. unfold sizeof_bpf_map_def. destruct (Z.leb_spec sz 20).
  - apply wp_ret, Hok; [by rewrite (take_ge bytes) by lia|]. intros _. rewrite drop_ge by lia. constructor.
  - change (Z.to_nat 20) with 20%nat. destruct strict; cbn [andb].
    + destruct (forallb (Z.eqb 0) (drop 20 bytes)) eqn:Ez; cbn [negb]; apply wp_ret; [|by apply Hfail]. apply Hok; [done|]. intros _. by apply forallb_zero.
    + apply wp_ret, Hok; [done|done].
Qed.

Lemma fresh_defined e strtabidx b sz strict sym m : defined_by e strtabidx b sz strict sym m -> fresh m /\ m_type m = LIBBPF_MAP_UNSPEC.
Proof. by intros (name & bytes & _ & _ & _ & ->). Qed.
Lemma with_maps_app o l m : with_maps (with_maps o (o_maps o ++ l)) (o_maps (with_maps o (o_maps o ++ l)) ++ m) = with_maps o (o_maps o ++ l ++ m).
Proof. cbn [with_maps o_maps]. unfold with_maps. cbn. by rewrite (assoc_L (++)). Qed.
(** All symbols: the new maps, one for each symbol when there is no error. *)
Definition maps_added (e : elf) (strtabidx : Z) (b : list Z) (sz : Z) (strict : bool) (X : list Z) (o : bpf_object) (syms : list GElf_Sym) (s : bsys BK)
    (r : Z * bpf_object) (s' : bsys BK) : Prop :=
  own s' X /\ kept X s s' /\ exists l, r.2 = with_maps o (o_maps o ++ l) /\ Forall (fun m => fresh m /\ m_type m = LIBBPF_MAP_UNSPEC) l /\
    (r.1 = 0 -> Forall2 (defined_by e strtabidx b sz strict) syms l).
Lemma with_maps_nil o : o = with_maps o (o_maps o ++ []).
Proof. rewrite app_nil_r. by destruct o. Qed.
Lemma wp_user_maps_loop e strtabidx d b sz strict X : d_buf d = Some b -> lenZ b = d_size d -> 0 < sz <= d_size d -> d_size d < 2147483648 ->
  forall syms o s, own s X -> Forall (fun sym => 0 <= st_value sym < 9223372036854775808) syms ->
  wp (user_maps_loop e strtabidx d sz strict o syms) (maps_added e strtabidx b sz strict X o syms s) s.
Proof using BO.
  intros Hb Hl Hsz Hd. induction syms as [|sym syms IH]; intros o s HO Hs; cbn [user_maps_loop].
  { apply wp_ret. split; [done|]. split; [apply kept_refl|]. exists []. split; [by apply with_maps_nil|]. split; [constructor|constructor]. }
  apply Forall_cons_1 in Hs as [Hsym Hs]. apply wp_bind. eapply wp_mono; [by apply (wp_user_map e strtabidx d b sz strict o sym s X)|].
  intros [err o1] s1 (HO1 & K1 & [[He Ho]|[He (m & Hm & Ho)]]); cbn [fst snd] in *.
  - rewrite (proj2 (Z.eqb_neq _ _)) by done. cbn [negb]. apply wp_ret. split; [done|]. split; [done|]. destruct Ho as [->|(m & Hf & Ht & ->)].
    + exists []. split; [by apply with_maps_nil|]. by split.
    + exists [m]. split; [done|]. split; [by apply List.Forall_cons|done].
  - subst. cbn [negb Z.eqb]. eapply wp_mono; [by apply IH|]. intros [e2 o2] s2 (HO2 & K2 & l & Ho2 & Hf & H2). cbn [fst snd] in *. subst o2.
    split; [done|]. split; [by eapply kept_trans|]. exists (m :: l). split; [by apply (with_maps_app o [m] l)|].
    split; [apply List.Forall_cons; [by eapply fresh_defined|done]|]. intros E. constructor; auto.
Qed.
(** The section "maps" is there and has its bytes. *)
Definition maps_section (ef : efile LE) (o : bpf_object) : Prop :=
  o_maps_shndx o < 0 \/ exists e, ef_elf ef = Some e /\
    (forall d, elf_getdata e (o_maps_shndx o) = Some d -> 0 < d_size d -> d_buf d <> None) /\
    forall symbols i sym, ef_symbols ef = Some symbols -> gelf_getsym symbols i = Some sym -> st_value sym < 9223372036854775808.
(** What is left of the symbols is sane. *)
Lemma symbols_sane symbols idx n : (forall i sym, gelf_getsym symbols i = Some sym -> st_value sym < 9223372036854775808) ->
  forall i, Forall (fun sym => 0 <= st_value sym < 9223372036854775808) (symbols_of symbols idx n i).
Proof using LO.
  intros Hs. induction n as [|n IH]; intros i; cbn [symbols_of]; [constructor|]. destruct (gelf_getsym symbols i) as [sym|] eqn:E; [|apply IH].
  destruct (negb _); [apply IH|]. apply List.Forall_cons; [|apply IH]. destruct (sym_fields _ _ _ E) as (_ & _ & [? _]). split; [done|by eapply Hs].
Qed.
(** The maps of the section, or nothing. *)
Definition user_maps_post (ef : efile LE) (o : bpf_object) (strict : bool) (X : list Z) (s : bsys BK) (r : Z * bpf_object) (s' : bsys BK) : Prop :=
  own s' X /\ kept X s s' /\ exists l, r.2 = with_maps o (o_maps o ++ l) /\ Forall (fun m => fresh m /\ m_type m = LIBBPF_MAP_UNSPEC) l /\
    (r.1 = 0 -> 0 <= o_maps_shndx o -> exists e symbols d b, ef_elf ef = Some e /\ ef_symbols ef = Some symbols /\
      elf_getdata e (o_maps_shndx o) = Some d /\ d_buf d = Some b /\
      let syms := symbols_of symbols (o_maps_shndx o) (nr_syms symbols) 0 in
      0 < lenZ syms /\ (lenZ syms | lenZ b) /\ Forall2 (defined_by e (ef_strtabidx ef) b (lenZ b / lenZ syms) strict) syms l) /\
    (o_maps_shndx o < 0 -> r.1 = 0 /\ l = []).
Lemma wp_init_user_maps ef o strict s X : own s X -> maps_section ef o ->
  wp (bpf_object__init_user_maps ef o strict) (user_maps_post ef o strict X s) s.
Proof using BO LO.
  intros HO HM. unfold bpf_object__init_user_maps. destruct (Z.ltb_spec (o_maps_shndx o) 0) as [Hneg|Hpos].
  { apply wp_ret. split; [done|]. split; [apply kept_refl|]. exists []. split; [by apply with_maps_nil|]. split; [constructor|]. split; [cbn; lia|done]. }
  destruct HM as [|(e & He & Hd & Hs)]; [lia|].
  assert (Hstop : forall r, r <> 0 -> user_maps_post ef o strict X s (r, o) s).
  { intros r Hr. split; [done|]. split; [apply kept_refl|]. exists []. split; [by apply with_maps_nil|]. split; [constructor|]. split; [done|lia]. }
  destruct (ef_symbols ef) as [symbols|] eqn:Es; [|apply wp_ret; by apply Hstop]. apply wp_bind. eapply wp_deref; [exact He|].
  destruct (elf_getdata e (o_maps_shndx o)) as [d|] eqn:Ed; [|apply wp_ret; by apply Hstop]. cbv zeta.
  set (syms := symbols_of symbols (o_maps_shndx o) (nr_syms symbols) 0). pose proof (data_size _ _ _ Ed) as Hds.
  destruct (Z.eqb_spec (d_size d) 0); cbn [orb]; [apply wp_ret; by apply Hstop|]. destruct (Z.eqb_spec (lenZ syms) 0); cbn [orb]; [apply wp_ret; by apply Hstop|].
  destruct (Z.eqb_spec (d_size d mod lenZ syms) 0) as [Hm|]; cbn [negb]; [|apply wp_ret; by apply Hstop].
  destruct (d_buf d) as [b|] eqn:Eb; [|by destruct (Hd d eq_refl ltac:(lia))]. destruct (data_bytes _ _ _ _ Ed Eb) as [Hbl _].
  apply Z.mod_divide in Hm; [|lia]. destruct Hm as [q Hq]. assert (Hdiv : d_size d / lenZ syms = q) by (rewrite Hq; apply Z.div_mul; lia).
  rewrite Hdiv. eapply wp_mono; [apply (wp_user_maps_loop e (ef_strtabidx ef) d b q strict X Eb Hbl ltac:(nia) ltac:(lia) syms o s HO)|].
  - apply symbols_sane. intros i sym. by eapply Hs.
  - intros [err o'] s' (HO' & HK & l & Ho & Hf & H2). cbn [fst snd] in *. split; [done|]. split; [done|]. exists l. split; [done|]. split; [done|].
    split; [|lia]. intros E _. exists e, symbols, d, b. split; [done|]. split; [done|]. split; [done|]. split; [done|]. cbv zeta. fold syms.
    split; [lia|]. split; [exists q; lia|]. rewrite Hbl, Hdiv. auto.
Qed.

(** ** Internal maps *)

(** The sections of global data have their bytes. *)
Definition data_sections (ef : efile LE) (o : bpf_object) : Prop :=
  (0 <= o_data_shndx o -> exists d b, ef_data ef = Some d /\ d_buf d = Some b) /\
  (0 <= o_rodata_shndx o -> exists d b, ef_rodata ef = Some d /\ d_buf d = Some b) /\
  (0 <= o_bss_shndx o -> ef_bss ef <> None).
(** A map for a section. *)
Definition internal_map (o : bpf_object) (ty : libbpf_map_type) (idx : Z) (d : Elf_Data) : bpf_map :=
  set_name (set_def (set_place new_map ty idx 0)
    (Bpf_map_def BPF_MAP_TYPE_ARRAY 4 (u32 (d_size d)) 1 (if decide (ty = LIBBPF_MAP_RODATA) then BPF_F_RDONLY_PROG else 0))) (internal_name o ty).
Lemma wp_internal_map o ty idx d wd s X : own s X -> memory -> (wd = true -> d_buf d <> None) ->
  wp (bpf_object__init_internal_map o ty idx d wd) (fun '(err, o', b) s' => own s' X /\ kept X s s' /\ err = 0 /\
    o' = with_maps o (o_maps o ++ [internal_map o ty idx d]) /\ (if wd then b <> None else b = None)) s.
Proof using BO.
  intros HO Hm Hd. unfold bpf_object__init_internal_map. apply wp_bind. apply (wp_add_map o s X); [done|intros s1 HO1 K1|done].
  apply wp_bind. apply (own_malloc_ok s1 X); [done|done|]. intros s2 HO2 K2. cbn [negb]. rewrite !set_last_add. pose proof (kept_trans _ _ _ _ K1 K2) as K02.
  destruct wd; cbn [negb]; [|by apply wp_ret].
  apply wp_bind. apply (own_malloc_ok s2 X); [done|done|]. intros s3 HO3 K3. cbn [negb].
  assert (Hfin : forall b s4, s4 = s3 -> own s4 X /\ kept X s s4 /\ 0 = 0 /\ with_maps o (o_maps o ++ [internal_map o ty idx d]) =
    with_maps o (o_maps o ++ [internal_map o ty idx d]) /\ Some b <> (None : option (list Z))).
  { intros b s4 ->. split; [done|]. split; [by eapply kept_trans|done]. }
  apply wp_bind. destruct (d_size d =? 0); [apply wp_ret, wp_ret; by apply Hfin|].
  destruct (d_buf d) as [b|]; [|by destruct (Hd eq_refl)]. eapply wp_deref; [reflexivity|]. apply wp_ret. by apply Hfin.
Qed.
(** The maps of the sections: each has its contents in the object. *)
Definition internal_maps_post (ef : efile LE) (o : bpf_object) (X : list Z) (s : bsys BK) (r : Z * bpf_object) (s' : bsys BK) : Prop :=
  own s' X /\ kept X s s' /\ r.1 = 0 /\ exists l d rd, r.2 = with_contents (with_maps o (o_maps o ++ l)) d rd /\
    Forall fresh l /\ (Exists (fun m => m_type m = LIBBPF_MAP_DATA) l -> d <> None) /\ (Exists (fun m => m_type m = LIBBPF_MAP_RODATA) l -> rd <> None).
Lemma wp_global_data_maps ef o s X : own s X -> memory -> data_sections ef o ->
  wp (bpf_object__init_global_data_maps ef o) (internal_maps_post ef o X s) s.
Proof using BO.
  intros HO Hm (H1 & H2 & H3). unfold bpf_object__init_global_data_maps. destruct (cap_global_data (o_caps o)); cbn [negb].
  2: { apply wp_ret. split; [done|]. split; [apply kept_refl|]. split; [done|]. exists [], (o_data o), (o_rodata o). split; [|by rewrite !Exists_nil].
       rewrite app_nil_r. by destruct o. }
  (** one section after the other *)
  apply wp_bind. apply (wp_mono _ (fun '(e, o1) s1 => own s1 X /\ kept X s s1 /\ e = 0 /\ exists l d, o1 = with_contents (with_maps o (o_maps o ++ l)) d (o_rodata o) /\
    Forall fresh l /\ Forall (fun m => m_type m = LIBBPF_MAP_DATA) l /\ (l <> [] -> d <> None))).
  { destruct (Z.geb_spec (o_data_shndx o) 0).
    - destruct (H1 ltac:(lia)) as (d & b & Ed & Eb). apply wp_bind. eapply wp_deref; [exact Ed|]. apply wp_bind.
      eapply wp_mono; [apply (wp_internal_map o LIBBPF_MAP_DATA _ d true s X HO Hm); congruence|]. intros [[e o1] c] s1 (HO1 & K1 & -> & -> & Hc).
      destruct c as [c|]; [|done]. apply wp_ret. split; [done|]. split; [done|]. split; [done|]. eexists [_], (Some c). split; [done|].
      split; [by apply List.Forall_cons|]. split; [by apply List.Forall_cons|done].
    - apply wp_ret. split; [done|]. split; [apply kept_refl|]. split; [done|]. exists [], (o_data o). rewrite app_nil_r. split; [by destruct o|by split; [|split]]. }
  intros [e1 o1] s1 (HO1 & K1 & -> & l1 & d & -> & F1 & T1 & D1). cbn [negb Z.eqb]. apply wp_bind.
  apply (wp_mono _ (fun '(e, o2) s2 => own s2 X /\ kept X s s2 /\ e = 0 /\ exists l rd, o2 = with_contents (with_maps o (o_maps o ++ l1 ++ l)) d rd /\
    Forall fresh l /\ Forall (fun m => m_type m = LIBBPF_MAP_RODATA) l /\ (l <> [] -> rd <> None))).
  { cbn [with_contents with_maps o_rodata_shndx]. destruct (Z.geb_spec (o_rodata_shndx o) 0).
    - destruct (H2 ltac:(lia)) as (d2 & b & Ed & Eb). apply wp_bind. eapply wp_deref; [exact Ed|]. apply wp_bind.
      eapply wp_mono; [apply (wp_internal_map _ LIBBPF_MAP_RODATA _ d2 true s1 X HO1 Hm); congruence|]. intros [[e o2] c] s2 (HO2 & K2 & -> & -> & Hc).
      destruct c as [c|]; [|done]. apply wp_ret. split; [done|]. split; [by eapply kept_trans|]. split; [done|]. eexists [_], (Some c).
      split; [cbn; by rewrite (assoc_L (++))|]. split; [by apply List.Forall_cons|]. split; [by apply List.Forall_cons|done].
    - apply wp_ret. split; [done|]. split; [done|]. split; [done|]. exists [], (o_rodata o). by rewrite app_nil_r. }
  intros [e2 o2] s2 (HO2 & K2 & -> & l2 & rd & -> & F2 & T2 & D2). cbn [negb Z.eqb].
  assert (Hend : forall l3 s3, Forall fresh l3 -> Forall (fun m => m_type m = LIBBPF_MAP_BSS) l3 -> own s3 X -> kept X s s3 ->
    internal_maps_post ef o X s (0, with_contents (with_maps o (o_maps o ++ (l1 ++ l2) ++ l3)) d rd) s3).
  { intros l3 s3 F3 T3 HO3 K3. split; [done|]. split; [done|]. split; [done|]. exists ((l1 ++ l2) ++ l3), d, rd. split; [done|].
    split; [by rewrite !Forall_app|]. rewrite list.Forall_forall in T1, T2, T3. split; intros (m & Hin%list_elem_of_In & Ht)%List.Exists_exists; [apply D1|apply D2]; intros ->;
      rewrite ?app_nil_l, ?app_nil_r in Hin; apply elem_of_app in Hin as [Hin|Hin]; first [apply T1 in Hin|apply T2 in Hin|apply T3 in Hin]; congruence. }
  cbn [with_contents with_maps o_bss_shndx]. destruct (Z.geb_spec (o_bss_shndx o) 0).
  - destruct (ef_bss ef) as [d3|] eqn:E3; [|by destruct (H3 ltac:(lia))]. apply wp_bind. eapply wp_deref; [reflexivity|]. apply wp_bind.
    eapply wp_mono; [apply (wp_internal_map _ LIBBPF_MAP_BSS _ d3 false s2 X HO2 Hm); done|]. intros [[e o3] c] s3 (HO3 & K3 & -> & -> & _).
    apply wp_ret. cbn. rewrite <- (assoc_L (++)). apply Hend; [by apply List.Forall_cons|by apply List.Forall_cons|done|by eapply kept_trans].
  - apply wp_ret. specialize (Hend [] s2). rewrite app_nil_r in Hend. by apply Hend.
Qed.
End MapRules.

(** ** The theorems *)

(** C8: The section "maps" is decoded.  For an object file in which symbols have values below
    2^63, [bpf_object__init_user_maps] returns without reading outside the section, with the
    descriptors it found.  With 0, the section is a table of equally sized definitions, one for
    each symbol of the section, and the object has one new map per symbol, in their order: its
    name is the symbol's, its place the symbol's section and value, its definition the first
    five words of the bytes there, missing words 0; when strict, all further bytes are 0.
    New maps have no descriptor and are not pinned. *)
Theorem user_maps_decoded `{BO : BpfKernelOk} (LE : Libelf BK) (LO : LibelfOk LE) (ef : efile LE) (o : bpf_object) (strict : bool) (s : bsys BK) (X : list Z) :
  own s X -> maps_section ef o ->
  exists r s', bpf_object__init_user_maps ef o strict s = Some (r, s') /\ user_maps_post ef o strict X s r s'.
Proof. intros HO HM. exact (proj1 (wp_run _ _ _) (wp_init_user_maps ef o strict s X HO HM)). Qed.

Definition demo_sym_bytes : list Z := sym_bytes 0 0 0 0 ++ sym_bytes 42 17 3 0 ++ sym_bytes 44 18 4 0.
Definition demo_symbols : Elf_Data := Data (Some demo_sym_bytes) 72.
Definition demo_efile : efile (bytes_elf table_kernel demo_file) :=
  Efile _ (bytes_elf table_kernel demo_file) (-1) (Some demo_file) (fi_ehdr demo_file) (Some demo_symbols) 1 None None None [].
Lemma demo_syms i sym : gelf_getsym (Libelf := bytes_elf table_kernel demo_file) demo_symbols i = Some sym -> st_value sym < 9223372036854775808.
Proof.
  assert (HL : lenZ demo_sym_bytes = 72) by reflexivity. cbn -[sym_of demo_sym_bytes]. unfold entry. cbn [d_buf demo_symbols mbind option_bind].
  rewrite HL. destruct (_ && _)%bool eqn:E; cbn -[sym_of demo_sym_bytes]; [|done]. intros [= <-].
  assert (Hi : i = 0 \/ i = 1 \/ i = 2) by (unfold sizeof_GElf_Sym in E; lia).
  destruct Hi as [->|[->| ->]]; vm_compute; reflexivity.
Qed.
Lemma demo_own : own (BK := table_kernel) table_state [0; 1; 2].
Proof. split; [by unfold bhas|]. split; [apply (bool_decide_unpack _); vm_compute; exact I|]. by repeat (apply List.Forall_cons; [done|]). Qed.
Lemma user_maps_decoded_witness : exists o' s',
  bpf_object__init_user_maps demo_efile (with_shndx (new_object [] 0) MAPS 3) true table_state = Some ((0, o'), s') /\
  map (fun m => (m_name m, m_def m)) (o_maps o') = [(str "m", Bpf_map_def 2 4 8 5 0)] /\ own s' [0; 1; 2].
Proof.
  destruct (user_maps_decoded (BO := table_kernel_ok) _ (bytes_elf_ok _ _) demo_efile (with_shndx (new_object [] 0) MAPS 3) true table_state [0; 1; 2]) as ([r o'] & s' & E & HO & HK & HP).
  - exact demo_own.
  - right. exists demo_file. split; [done|]. split.
    + intros d Hd _. vm_compute in Hd. injection Hd as <-. done.
    + intros symbols i sym [= <-]. apply demo_syms.
  - exists o', s'. assert (E' := E). vm_compute in E'. injection E' as <- <- <-. split; [exact E|]. split; [reflexivity|exact HO].
Defined.
