(* ===== verification/Probe.v ===== *)
(** * Probing the kernel: libbpf/src/libbpf_probes.c and the probes of libbpf/src/libbpf.c

    What a kernel supports is found out by asking for it.  The theorems: every probe gives
    back all the descriptors it opens, whatever the kernel answers; a capability is noted
    if and only if the kernel granted the requests that need it; the type information the probes
    load is well formed.  [bpf_probe_helper], which reads the text of the verifier, is left
    out. *)

From Stdlib Require Import String.
From S2P Require Import Prelude Params Netlink Os StatsUser Btf BpfProg Object Pinning BpfSys ObjMaps Reloc ObjLoad SecNames Elf OpenMaps.
#[local] Open Scope Z_scope.
#[local] Open Scope prog_scope.

Definition BPF_ST : Z := 2.
Definition BTF_INT_SIGNED : Z := 1.
Definition BPF_MAP_TYPE_HASH : Z := 1.
Definition BPF_MAP_TYPE_STACK_TRACE : Z := 7.
Definition BPF_MAP_TYPE_LPM_TRIE : Z := 11.
Definition BPF_MAP_TYPE_CGROUP_STORAGE : Z := 19.
Definition BPF_MAP_TYPE_PERCPU_CGROUP_STORAGE : Z := 21.
Definition BPF_MAP_TYPE_QUEUE : Z := 22.
Definition BPF_MAP_TYPE_STACK : Z := 23.
Definition BPF_MAP_TYPE_SK_STORAGE : Z := 24.
Definition BPF_F_NO_PREALLOC : Z := 1.
Definition BPF_ST_MEM (sz dst o im : Z) : bpf_insn := Bpf_insn (or3 BPF_ST (BPF_SIZE sz) BPF_MEM) dst 0 o im.
Definition BPF_LD_MAP_VALUE (dst map_fd value_off : Z) : list bpf_insn := BPF_LD_IMM64_RAW_FULL dst BPF_PSEUDO_MAP_VALUE 0 0 map_fd value_off.

(** ** Type information by hand *)

Definition BTF_INFO_ENC (kind kind_flag vlen : Z) : Z := Z.lor (Z.lor (if kind_flag =? 0 then 0 else Z.shiftl 1 31) (Z.shiftl kind 24)) (Z.land vlen 65535).
Definition BTF_INT_ENC (encoding bits_offset nr_bits : Z) : Z := Z.lor (Z.lor (Z.shiftl encoding 24) (Z.shiftl bits_offset 16)) nr_bits.
Definition BTF_TYPE_ENC (name info size_or_type : Z) : list Z := [name; info; size_or_type].
Definition BTF_TYPE_INT_ENC (name encoding bits_offset bits sz : Z) : list Z :=
  BTF_TYPE_ENC name (BTF_INFO_ENC BTF_KIND_INT 0 0) sz ++ [BTF_INT_ENC encoding bits_offset bits].
Definition words (l : list Z) : list Z := concat (map word_bytes l).
(** Strings one behind the other, each with its zero. *)
Definition literal (l : list path) : list Z := concat (map (fun s => s ++ [0]) l).

Definition btf_func_types : list Z :=
  BTF_TYPE_INT_ENC 1 BTF_INT_SIGNED 0 32 4 ++ BTF_TYPE_ENC 0 (BTF_INFO_ENC BTF_KIND_FUNC_PROTO 0 1) 0 ++ [7; 1] ++
  BTF_TYPE_ENC 5 (BTF_INFO_ENC BTF_KIND_FUNC 0 0) 2.
Definition btf_func_strs : list Z := literal [[]; str "int"; str "x"; str "a"].
Definition btf_datasec_types : list Z :=
  BTF_TYPE_INT_ENC 0 BTF_INT_SIGNED 0 32 4 ++ BTF_TYPE_ENC 1 (BTF_INFO_ENC BTF_KIND_VAR 0 0) 1 ++ [BTF_VAR_STATIC] ++
  BTF_TYPE_ENC 3 (BTF_INFO_ENC BTF_KIND_DATASEC 0 1) 4 ++ [2; 0; 4].
Definition btf_datasec_strs : list Z := literal [[]; str "x"; str ".data"].
Definition sk_storage_types : list Z :=
  BTF_TYPE_INT_ENC 0 BTF_INT_SIGNED 0 32 4 ++ BTF_TYPE_ENC 1 (BTF_INFO_ENC BTF_KIND_STRUCT 0 1) 4 ++ [15; 1; 0] ++
  BTF_TYPE_ENC 15 (BTF_INFO_ENC BTF_KIND_STRUCT 0 2) 8 ++ [19; 1; 0] ++ [23; 2; 32].
Definition sk_storage_strs : list Z := literal [[]; str "bpf_spin_lock"; str "val"; str "cnt"; str "l"].

(** The image [libbpf__load_raw_btf] puts together. *)
Definition raw_btf (types strs : list Z) : list Z := header 0 (lenZ types) (lenZ types) (lenZ strs) ++ types ++ strs.

Section Probe.
Context {BK : BpfKernel}.
Abbreviation B := (M (bsys BK)).

Definition libbpf__load_raw_btf (types strs : list Z) : B Z :=
  let! ok := malloc in
  if negb ok then ret (- ENOMEM) else bpf_load_btf (raw_btf types strs) false 0 false.
Definition load_sk_storage_btf : B Z := libbpf__load_raw_btf (words sk_storage_types) sk_storage_strs.

(** ** libbpf_probes.c *)

(** [get_kernel_version] of this file: [None] when uname(2) fails; the conversions are
    signed here and unsigned in libbpf.c, which is the same for the numbers of a release. *)
Definition probe_kernel_version (release : option (list Z)) : Z :=
  match release with None => 0 | Some r => s32 (get_kernel_version r) end.
Definition probe_attr (release : option (list Z)) (prog_type : Z) (insns : list bpf_insn) (ifindex : Z) : bpf_load_program_attr :=
  Load_attr prog_type (if prog_type =? BPF_PROG_TYPE_CGROUP_SOCK_ADDR then BPF_CGROUP_INET4_CONNECT else 0) None insns (str "GPL")
    (if prog_type =? BPF_PROG_TYPE_KPROBE then u32 (probe_kernel_version release) else 0) ifindex 0 0 None 0 0 None 0 0 0.
Definition probe_load (release : option (list Z)) (prog_type : Z) (insns : list bpf_insn) (buf : bool) (buf_len ifindex : Z) : B unit :=
  let! (fd, _) := bpf_load_program_xattr (probe_attr release prog_type insns ifindex) buf buf_len in
  if fd >=? 0 then sys_close fd ;;; ret tt else ret tt.
Definition set_errno_b (e : Z) : B unit := modify (fun s => Bsys _ (b_k s) (with_errno (b_sys s) e) (b_cpus s)).
Definition bpf_probe_prog_type (release : option (list Z)) (prog_type ifindex : Z) : B bool :=
  let im := if negb (ifindex =? 0) && (prog_type =? BPF_PROG_TYPE_SCHED_CLS) then 2 else 0 in
  set_errno_b 0 ;;;
  probe_load release prog_type [BPF_MOV64_IMM 0 im; BPF_EXIT_INSN] false 0 ifindex ;;;
  let! e := get_errno in
  ret (negb (e =? EINVAL) && negb (e =? EOPNOTSUPP)).
(** Key size, value size, entries and flags of a map of the type. *)
Definition probe_sizes (map_type : Z) : Z * Z * Z * Z :=
  if map_type =? BPF_MAP_TYPE_STACK_TRACE then (4, 8, 1, 0)
  else if map_type =? BPF_MAP_TYPE_LPM_TRIE then (8, 8, 1, BPF_F_NO_PREALLOC)
  else if (map_type =? BPF_MAP_TYPE_CGROUP_STORAGE) || (map_type =? BPF_MAP_TYPE_PERCPU_CGROUP_STORAGE) then (16, 8, 0, 0)
  else if (map_type =? BPF_MAP_TYPE_QUEUE) || (map_type =? BPF_MAP_TYPE_STACK) then (0, 4, 1, 0)
  else if map_type =? BPF_MAP_TYPE_SK_STORAGE then (4, 8, 0, BPF_F_NO_PREALLOC)
  else (4, 4, 1, 0).
(** The end: both descriptors are closed if they are there. *)
Definition probe_end (fd btf_fd : Z) : B bool :=
  (if fd >=? 0 then sys_close fd else ret 0) ;;;
  (if btf_fd >=? 0 then sys_close btf_fd else ret 0) ;;;
  ret (fd >=? 0).
Definition probe_create (map_type ifindex btf_fd : Z) : B bool :=
  if bpf_map_type__is_map_in_map map_type then
    if negb (ifindex =? 0) then ret false
    else
      let! fd_inner := bpf_create_map BPF_MAP_TYPE_HASH 4 4 1 0 in
      if fd_inner <? 0 then ret false
      else
        let! fd := bpf_create_map_in_map map_type None 4 fd_inner 1 0 in
        sys_close fd_inner ;;;
        probe_end fd btf_fd
  else
    let '(key_size, value_size, max_entries, map_flags) := probe_sizes map_type in
    let has := btf_fd >=? 0 in
    let! fd := bpf_create_map_xattr (Create_attr None map_type map_flags key_size value_size max_entries 0
      (if has then btf_fd else 0) (if has then 1 else 0) (if has then 3 else 0) ifindex 0) in
    probe_end fd btf_fd.
Definition bpf_probe_map_type (map_type ifindex : Z) : B bool :=
  if map_type =? BPF_MAP_TYPE_SK_STORAGE then
    let! btf_fd := load_sk_storage_btf in
    if btf_fd <? 0 then ret false else probe_create map_type ifindex btf_fd
  else probe_create map_type ifindex (-1).

(** ** libbpf.c *)

Definition simple_attr (name : option path) (insns : list bpf_insn) : bpf_load_program_attr :=
  Load_attr BPF_PROG_TYPE_SOCKET_FILTER 0 name insns (str "GPL") 0 0 0 0 None 0 0 None 0 0 0.
Definition basic_insns : list bpf_insn := [BPF_MOV64_IMM 0 0; BPF_EXIT_INSN].
Definition bpf_object__probe_name (c : caps) : B (Z * caps) :=
  let! (r, _) := bpf_load_program_xattr (simple_attr None basic_insns) false 0 in
  if r <? 0 then let! e := get_errno in ret (- e, c)
  else
    sys_close r ;;;
    let! (r, _) := bpf_load_program_xattr (simple_attr (Some (str "test")) basic_insns) false 0 in
    if r >=? 0 then sys_close r ;;; ret (0, Caps true (cap_global_data c) (cap_btf_func c) (cap_btf_datasec c)) else ret (0, c).
Definition global_data_map : bpf_create_map_attr := Create_attr None BPF_MAP_TYPE_ARRAY 0 4 32 1 0 0 0 0 0 0.
Definition global_data_insns (map : Z) : list bpf_insn := BPF_LD_MAP_VALUE 1 map 16 ++ [BPF_ST_MEM BPF_DW 1 0 42; BPF_MOV64_IMM 0 0; BPF_EXIT_INSN].
Definition bpf_object__probe_global_data (c : caps) : B (Z * caps) :=
  let! map := bpf_create_map_xattr global_data_map in
  if map <? 0 then let! e := get_errno in ret (- e, c)
  else
    let! (r, _) := bpf_load_program_xattr (simple_attr None (global_data_insns map)) false 0 in
    let! c := if r >=? 0 then sys_close r ;;; ret (Caps (cap_name c) true (cap_btf_func c) (cap_btf_datasec c)) else ret c in
    sys_close map ;;;
    ret (0, c).
Definition bpf_object__probe_btf_func (c : caps) : B (Z * caps) :=
  let! btf_fd := libbpf__load_raw_btf (words btf_func_types) btf_func_strs in
  if btf_fd >=? 0 then sys_close btf_fd ;;; ret (1, Caps (cap_name c) (cap_global_data c) true (cap_btf_datasec c)) else ret (0, c).
Definition bpf_object__probe_btf_datasec (c : caps) : B (Z * caps) :=
  let! btf_fd := libbpf__load_raw_btf (words btf_datasec_types) btf_datasec_strs in
  if btf_fd >=? 0 then sys_close btf_fd ;;; ret (1, Caps (cap_name c) (cap_global_data c) (cap_btf_func c) true) else ret (0, c).
(** The results of the probes are only printed. *)
Definition bpf_object__probe_caps (o : bpf_object) : B (Z * bpf_object) :=
  let! (_, c) := bpf_object__probe_name (o_caps o) in
  let! (_, c) := bpf_object__probe_global_data c in
  let! (_, c) := bpf_object__probe_btf_func c in
  let! (_, c) := bpf_object__probe_btf_datasec c in
  ret (0, with_caps o c).
End Probe.

(** ** Theorems *)

Section ProbeRules.
Context {BK : BpfKernel} {BO : BpfKernelOk BK}.
Abbreviation B := (M (bsys BK)).

(** The kernel granted a request for a descriptor; it denied it. *)
Definition grants_fd (a : bpf_attr) (fd : Z) : Prop := 0 <= fd /\ exists k F a' out k', k_bpf k F a = ((fd, a', out), k').
Definition grants (a : bpf_attr) : Prop := exists fd, grants_fd a fd.
Definition denies (a : bpf_attr) : Prop := exists e k F a' out k', 0 < e /\ k_bpf k F a = ((- e, a', out), k').
(** The same for a program. *)
Definition loads (l : bpf_load_program_attr) : Prop := exists a fd k', asks l a /\ granted a fd k'.
Definition fails (l : bpf_load_program_attr) : Prop := exists a e, asks l a /\ denied a e.

Lemma own_btf data s X (Q : Z -> bsys BK -> Prop) : own s X ->
  (forall fd s', own s' (fd :: X) -> kept X s s' -> grants (BTF_LOAD data 0 false 0) -> Q fd s') ->
  (forall s', own s' X -> kept X s s' -> denies (BTF_LOAD data 0 false 0) -> Q (-1) s') ->
  wp (bpf_load_btf data false 0 false) Q s.
Proof using BO.
  intros HO H1 H2. unfold bpf_load_btf. cbn [andb]. apply wp_bind, wp_bind.
  eapply own_create_answer; [exact HO|done|intros fd a' out s' E HO' HK|intros a' out s' E HO' He HK]; cbv beta iota.
  - apply wp_ret. rewrite andb_false_r. apply wp_ret, H1; [done|done|]. pose proof (own_pos _ _ fd HO' ltac:(by left)).
    exists fd. split; [done|]. by eexists _, _, _, _, _.
  - apply wp_ret. cbn [andb]. rewrite andb_false_r. apply wp_ret, H2; [done|done|]. by eexists _, _, _, _, _, _.
Qed.
Lemma own_raw_btf types strs s X (Q : Z -> bsys BK -> Prop) : own s X ->
  (forall fd s', own s' (fd :: X) -> kept X s s' -> grants (BTF_LOAD (raw_btf types strs) 0 false 0) -> Q fd s') ->
  (forall r s', r < 0 -> own s' X -> kept X s s' -> ~ memory \/ denies (BTF_LOAD (raw_btf types strs) 0 false 0) -> Q r s') ->
  wp (libbpf__load_raw_btf types strs) Q s.
Proof using BO.
  intros HO H1 H2. unfold libbpf__load_raw_btf. apply wp_bind. eapply own_malloc; [exact HO|]. intros ok s1 HO1 K1 Hm.
  destruct ok; cbn [negb]; [|apply wp_ret, H2; [done|done|done|left; by apply Hm]].
  apply (own_btf _ s1 X); [done|intros fd s2 HO2 K2 Hg|intros s2 HO2 K2 Hd].
  - apply H1; [done|by eapply kept_trans|done].
  - apply H2; [done|done|by eapply kept_trans|by right].
Qed.
(** A descriptor that is closed at once. *)
Lemma own_drop {A} fd s X (c : B A) (Q : A -> bsys BK -> Prop) : own s (fd :: X) -> (forall s', own s' X -> kept X s s' -> wp c Q s') -> wp (sys_close fd ;;; c) Q s.
Proof using BO. intros HO HQ. apply wp_bind. eapply own_close; [exact HO|]. intros r s' _ HO' K' _. auto. Qed.
(** A program without records. *)
Lemma own_simple l s X (Q : Z * option Z -> bsys BK -> Prop) : own s X -> no_records l -> la_log_level l = 0 ->
  (forall fd c s', 0 <= fd -> own s' (fd :: X) -> kept X s s' -> loads l -> Q (fd, c) s') ->
  (forall c s', own s' X -> kept X s s' -> fails l -> Q (-1, c) s') ->
  wp (bpf_load_program_xattr l false 0) Q s.
Proof using BO.
  intros HO [N1 N2] Hl H1 H2. apply (wp_load_xattr l false 0 s X); [by left|by left|apply HO|split; [done|]; rewrite Hl; done| |].
  - intros fd c a s' Ha Hg Hld. destruct (loaded_own _ _ _ _ HO Hld) as [HO' HK]. apply H1; [apply Hld|done|done|]. by eexists _, _, _.
  - intros c s' (a & e & Ha & Hd & _) HR _ _. destruct (refused_own _ _ _ HO HR) as (HO' & HK & _). apply H2; [done|done|]. by eexists _, _.
Qed.

(** What a capability stands for, and what its absence means. *)
Definition name_answer (b : bool) : Prop :=
  if b then loads (simple_attr (Some (str "test")) basic_insns)
  else fails (simple_attr None basic_insns) \/ fails (simple_attr (Some (str "test")) basic_insns).
Definition global_answer (b : bool) : Prop :=
  let map_attr := MAP_CREATE (map_request global_data_map) in
  if b then exists map, grants_fd map_attr map /\ loads (simple_attr None (global_data_insns map))
  else denies map_attr \/ exists map, grants_fd map_attr map /\ fails (simple_attr None (global_data_insns map)).
Definition btf_answer (types strs : list Z) (b : bool) : Prop :=
  let a := BTF_LOAD (raw_btf types strs) 0 false 0 in if b then grants a else ~ memory \/ denies a.
Record caps_exact (c : caps) : Prop := {
  ce_name : name_answer (cap_name c);
  ce_global : global_answer (cap_global_data c);
  ce_func : btf_answer (words btf_func_types) btf_func_strs (cap_btf_func c);
  ce_datasec : btf_answer (words btf_datasec_types) btf_datasec_strs (cap_btf_datasec c)
}.
(** A probe sets one capability, which [set] writes. *)
Definition probe_post (X : list Z) (s : bsys BK) (set : bool -> caps) (A : bool -> Prop) (r : Z * caps) (s' : bsys BK) : Prop :=
  own s' X /\ kept X s s' /\ exists b, r.2 = set b /\ A b.

Lemma wp_probe_name g f d s X : own s X ->
  wp (bpf_object__probe_name (Caps false g f d)) (probe_post X s (fun b => Caps b g f d) name_answer) s.
Proof using BO.
  intros HO. unfold bpf_object__probe_name. apply wp_bind.
  apply (own_simple _ s X); [done|done|done|intros fd cc s1 Hfd HO1 K1 _|intros cc s1 HO1 K1 Hn]; cbv beta iota.
  2: { apply wp_bind, wp_gets, wp_ret. split; [done|]. split; [done|]. exists false. split; [done|by left]. }
  rewrite (proj2 (Z.ltb_ge _ _)) by done. eapply own_drop; [exact HO1|]. intros s2 HO2 K2. pose proof (kept_trans _ _ _ _ K1 K2) as K02.
  apply wp_bind. apply (own_simple _ s2 X); [done|done|done|intros fd2 c2 s3 Hfd2 HO3 K3 Hg|intros c2 s3 HO3 K3 Hn]; cbv beta iota.
  - replace (fd2 >=? 0) with true by lia. eapply own_drop; [exact HO3|]. intros s4 HO4 K4. apply wp_ret.
    split; [done|]. split; [eapply kept_trans; [exact K02|]; by eapply kept_trans|]. by exists true.
  - apply wp_ret. split; [done|]. split; [by eapply kept_trans|]. exists false. split; [done|by right].
Qed.
Lemma wp_probe_global n f d s X : own s X ->
  wp (bpf_object__probe_global_data (Caps n false f d)) (probe_post X s (fun b => Caps n b f d) global_answer) s.
Proof using BO.
  intros HO. unfold bpf_object__probe_global_data, bpf_create_map_xattr. apply wp_bind, wp_bind.
  eapply own_create_answer; [exact HO|done|intros map a' out s1 E HO1 K1|intros a' out s1 E HO1 He K1]; cbv beta iota; apply wp_ret.
  2: { change (-1 <? 0) with true. cbv iota. apply wp_bind, wp_gets, wp_ret. split; [done|]. split; [done|]. exists false. split; [done|left].
    by eexists _, _, _, _, _, _. }
  pose proof (own_pos _ _ map HO1 ltac:(by left)) as Hm. rewrite (proj2 (Z.ltb_ge _ _)) by done.
  assert (Hgm : grants_fd (MAP_CREATE (map_request global_data_map)) map) by (split; [done|by eexists _, _, _, _, _]). clear E.
  apply wp_bind. apply (own_simple _ s1 (map :: X)); [done|done|done|intros fd cc s2 Hfd HO2 K2 Hg|intros cc s2 HO2 K2 Hn]; cbv beta iota.
  all: assert (K02 : kept X s s2) by (eapply kept_trans; [exact K1|]; eapply kept_sub; [exact K2|]; intros q Hf; by right).
  - replace (fd >=? 0) with true by lia. apply wp_bind. eapply own_drop; [exact HO2|]. intros s3 HO3 K3. apply wp_ret.
    assert (K03 : kept X s s3) by (eapply kept_trans; [exact K02|]; eapply kept_sub; [exact K3|]; intros q Hf; by right).
    eapply own_drop; [exact HO3|]. intros s4 HO4 K4. apply wp_ret. split; [done|]. split; [by eapply kept_trans|].
    exists true. split; [done|]. by exists map.
  - apply wp_bind, wp_ret. eapply own_drop; [exact HO2|]. intros s3 HO3 K3. apply wp_ret. split; [done|]. split; [by eapply kept_trans|].
    exists false. split; [done|]. right. by exists map.
Qed.
Lemma wp_probe_btf (types strs : list Z) (set : bool -> caps) s X : own s X ->
  wp (let! btf_fd := libbpf__load_raw_btf types strs in if btf_fd >=? 0 then sys_close btf_fd ;;; ret (1, set true) else ret (0, set false))
    (probe_post X s set (btf_answer types strs)) s.
Proof using BO.
  intros HO. apply wp_bind. apply (own_raw_btf _ _ s X); [done|intros fd s1 HO1 K1 Hg|intros r s1 Hr HO1 K1 Hd].
  - pose proof (own_pos _ _ fd HO1 ltac:(by left)). replace (fd >=? 0) with true by lia. eapply own_drop; [exact HO1|]. intros s2 HO2 K2.
    apply wp_ret. split; [done|]. split; [by eapply kept_trans|]. by exists true.
  - replace (r >=? 0) with false by lia. apply wp_ret. split; [done|]. split; [done|]. by exists false.
Qed.
Lemma wp_probe_caps o s X : own s X -> o_caps o = Caps false false false false ->
  wp (bpf_object__probe_caps o) (fun '(e, o') s' => e = 0 /\ own s' X /\ kept X s s' /\ exists c, o' = with_caps o c /\ caps_exact c) s.
Proof using BO.
  intros HO HC. unfold bpf_object__probe_caps. rewrite HC.
  apply wp_bind. eapply wp_mono; [by apply (wp_probe_name _ _ _ s X)|]. intros [e1 c1] s1 (HO1 & K1 & n & C1 & A1). cbn [snd] in C1. subst c1.
  apply wp_bind. eapply wp_mono; [by apply (wp_probe_global _ _ _ s1 X)|]. intros [e2 c2] s2 (HO2 & K2 & g & C2 & A2). cbn [snd] in C2. subst c2.
  apply wp_bind. eapply wp_mono; [by apply (wp_probe_btf _ _ (fun b => Caps n g b false) s2 X)|]. intros [e3 c3] s3 (HO3 & K3 & f & C3 & A3). cbn [snd] in C3. subst c3.
  apply wp_bind. eapply wp_mono; [by apply (wp_probe_btf _ _ (fun b => Caps n g f b) s3 X)|]. intros [e4 c4] s4 (HO4 & K4 & d & C4 & A4). cbn [snd] in C4. subst c4.
  apply wp_ret. split; [done|]. split; [done|]. split; [|by exists (Caps n g f d)].
  eapply kept_trans; [exact K1|]. eapply kept_trans; [exact K2|]. by eapply kept_trans.
Qed.

(** Probing a map type: all descriptors are given back, and the answer is yes only if the
    kernel granted a map of the type. *)
Definition map_probed (t : Z) (X : list Z) (s : bsys BK) (r : bool) (s' : bsys BK) : Prop :=
  own s' X /\ kept X s s' /\ (r = true -> exists a, grants (MAP_CREATE a) /\ mc_map_type a = t).
Lemma wp_probe_end t fd b s0 s X : own s (fd_list fd ++ fd_list b ++ X) -> kept X s0 s ->
  (0 <= fd -> exists a, grants (MAP_CREATE a) /\ mc_map_type a = t) -> wp (probe_end fd b) (map_probed t X s0) s.
Proof using BO.
  intros HO HK Hg. unfold probe_end. apply wp_bind. apply (own_zclose fd s (fd_list b ++ X)); [done|]. intros r1 s1 _ HO1 K1 _.
  apply wp_bind. apply (own_zclose b s1 X); [done|]. intros r2 s2 _ HO2 K2 _. apply wp_ret. split; [done|]. split.
  - eapply kept_trans; [exact HK|]. eapply kept_trans; [|exact K2]. eapply kept_sub; [exact K1|]. intros f Hf. rewrite elem_of_app. auto.
  - intros H. apply Hg. lia.
Qed.
(** Creating a map, as the probe goes on with it. *)
Lemma own_map_create a s X (Q : Z -> bsys BK -> Prop) : own s X ->
  (forall fd s', own s' (fd_list fd ++ X) -> kept X s s' -> (0 <= fd -> grants (MAP_CREATE a)) -> Q fd s') ->
  wp (let! (r, _) := sys_bpf (MAP_CREATE a) in ret r) Q s.
Proof using BO.
  intros HO HQ. apply wp_bind. eapply own_create; [exact HO|done|intros fd a' out s1 E HO1 K1|intros a' out s1 HO1 He K1]; cbv beta iota; apply wp_ret, HQ; try done.
  - pose proof (own_pos _ _ fd HO1 ltac:(by left)). unfold fd_list. by replace (fd >=? 0) with true by lia.
  - intros ?. eexists. split; [done|]. by eexists _, _, _, _, _.
Qed.
Lemma wp_probe_create t i b s0 s X : own s (fd_list b ++ X) -> kept X s0 s -> (bpf_map_type__is_map_in_map t = true -> b < 0) ->
  wp (probe_create t i b) (map_probed t X s0) s.
Proof using BO.
  intros HO HK Hb. unfold probe_create.
  assert (Hsub : forall Y s1 s2, kept X s0 s1 -> kept (Y ++ X) s1 s2 -> kept X s0 s2).
  { intros Y s1 s2 K1 K2. eapply kept_trans; [exact K1|]. eapply kept_sub; [exact K2|]. intros f Hf. rewrite elem_of_app. auto. }
  destruct (bpf_map_type__is_map_in_map t) eqn:Em.
  - rewrite (fd_list_neg b) in HO by auto. cbn [app] in HO. destruct (negb (i =? 0)); [by apply wp_ret|]. apply wp_bind.
    apply (own_map_create _ s X); [done|]. intros inner s1 HO1 K1 _. pose proof (kept_trans _ _ _ _ HK K1) as K01.
    destruct (Z.ltb_spec inner 0) as [Hi|Hi]; [rewrite fd_list_neg in HO1 by done; by apply wp_ret|].
    rewrite fd_list_pos in HO1 by done. apply wp_bind. apply (own_map_create _ s1 ([inner] ++ X)); [done|]. intros fd s2 HO2 K2 Hg.
    eapply (own_drop inner s2 (fd_list fd ++ X)).
    + eapply own_proper; [|exact HO2]. perm_solve.
    + intros s3 HO3 K3. apply wp_probe_end; [by rewrite (fd_list_neg b) by auto|by eapply Hsub; [eapply Hsub; [exact K01|exact K2]|exact K3]|].
      intros Hf. eexists. split; [by apply Hg|done].
  - destruct (probe_sizes t) as [[[ks vs] me] fl]. apply wp_bind. apply (own_map_create _ s (fd_list b ++ X)); [done|]. intros fd s1 HO1 K1 Hg.
    apply wp_probe_end; [done|by eapply Hsub|]. intros Hf. eexists. split; [by apply Hg|done].
Qed.
Lemma wp_probe_map_type t i s X : own s X -> wp (bpf_probe_map_type t i) (map_probed t X s) s.
Proof using BO.
  intros HO. unfold bpf_probe_map_type. destruct (Z.eqb_spec t BPF_MAP_TYPE_SK_STORAGE) as [->|Hne].
  - apply wp_bind. apply (own_raw_btf _ _ s X); [done|intros fd s1 HO1 K1 _|intros r s1 Hr HO1 K1 _].
    + pose proof (own_pos _ _ fd HO1 ltac:(by left)). rewrite (proj2 (Z.ltb_ge _ _)) by done. apply wp_probe_create; [by rewrite fd_list_pos|done|done].
    + rewrite (proj2 (Z.ltb_lt _ _)) by done. by apply wp_ret.
  - apply wp_probe_create; [done|apply kept_refl|done].
Qed.
End ProbeRules.

(** ** The theorems *)

(** C34: Probing is neutral and honest.  Whatever the kernel answers, [bpf_object__probe_caps]
    returns 0 with the descriptors, pins and objects of the process as they were.  Each of the
    four capabilities says what the kernel answered.  It is set only if the kernel granted, with
    a descriptor, what it stands for: a program with a name, a program that writes through the
    address of the value of the map just made, type information with functions, with sections.
    It is not set only if the kernel denied one of the probe's requests, or, for the type
    information, there was no memory for the image. *)
Theorem probe_caps_honest `{BO : BpfKernelOk} (o : bpf_object) (s : bsys BK) (X : list Z) :
  own s X -> o_caps o = Caps false false false false ->
  exists c s', bpf_object__probe_caps o s = Some ((0, with_caps o c), s') /\ own s' X /\ kept X s s' /\ caps_exact c.
Proof.
  intros HO HC. destruct (proj1 (wp_run _ _ _) (wp_probe_caps o s X HO HC)) as ([e o'] & s' & E & -> & H1 & H2 & c & -> & H3).
  by exists c, s'.
Qed.

(** The types the probes load, as types of Btf.v. *)
Definition btf_func_ty : list ty :=
  [Ty 1 (BTF_INFO_ENC BTF_KIND_INT 0 0) 4 (word_bytes (BTF_INT_ENC BTF_INT_SIGNED 0 32));
   Ty 0 (BTF_INFO_ENC BTF_KIND_FUNC_PROTO 0 1) 0 (words [7; 1]); Ty 5 (BTF_INFO_ENC BTF_KIND_FUNC 0 0) 2 []].
Definition btf_datasec_ty : list ty :=
  [Ty 0 (BTF_INFO_ENC BTF_KIND_INT 0 0) 4 (word_bytes (BTF_INT_ENC BTF_INT_SIGNED 0 32));
   Ty 1 (BTF_INFO_ENC BTF_KIND_VAR 0 0) 1 (words [BTF_VAR_STATIC]); Ty 3 (BTF_INFO_ENC BTF_KIND_DATASEC 0 1) 4 (words [2; 0; 4])].
Definition sk_storage_ty : list ty :=
  [Ty 0 (BTF_INFO_ENC BTF_KIND_INT 0 0) 4 (word_bytes (BTF_INT_ENC BTF_INT_SIGNED 0 32));
   Ty 1 (BTF_INFO_ENC BTF_KIND_STRUCT 0 1) 4 (words [15; 1; 0]); Ty 15 (BTF_INFO_ENC BTF_KIND_STRUCT 0 2) 8 (words [19; 1; 0; 23; 2; 32])].
(** All three images are well formed. *)
Theorem probe_images_ok :
  (raw_btf (words btf_func_types) btf_func_strs = image btf_func_ty btf_func_strs /\ image_ok btf_func_ty btf_func_strs) /\
  (raw_btf (words btf_datasec_types) btf_datasec_strs = image btf_datasec_ty btf_datasec_strs /\ image_ok btf_datasec_ty btf_datasec_strs) /\
  (raw_btf (words sk_storage_types) sk_storage_strs = image sk_storage_ty sk_storage_strs /\ image_ok sk_storage_ty sk_storage_strs).
Proof.
  assert (H : forall ts strs, Forall ty_ok ts /\ ts <> [] -> (exists s, strs = 0 :: s /\ (s = [] \/ exists s', s = s' ++ [0])) ->
    lenZ (image ts strs) < 2147483648 -> image_ok ts strs) by (by split).
  split; [|split]; (split; [vm_compute; reflexivity|]); apply H; [| |done| | |done| | |done]; try (eexists; split; [reflexivity|]; right).
  1, 3, 5: split; [|done]; repeat (apply List.Forall_cons; [split; [by vm_compute|]; split; [by vm_compute|]; split; [by vm_compute|]; split; [|done];
    vm_compute; repeat (apply List.Forall_cons; [done|]); apply List.Forall_nil|]); apply List.Forall_nil.
  - by exists (removelast (tail btf_func_strs)).
  - by exists (removelast (tail btf_datasec_strs)).
  - by exists (removelast (tail sk_storage_strs)).
Qed.
Lemma probe_caps_honest_witness : exists c s', bpf_object__probe_caps (new_object [] 0) table_state = Some ((0, with_caps (new_object [] 0) c), s') /\
  own s' [0; 1; 2] /\ c = Caps true true true true /\ caps_exact (BK := table_kernel) c.
Proof.
  destruct (probe_caps_honest (BO := table_kernel_ok) (new_object [] 0) table_state [0; 1; 2]) as (c & s' & E & HO & _ & HC); [|done|].
  - split; [by unfold bhas|]. split; [apply (bool_decide_unpack _); vm_compute; exact I|]. by repeat (apply List.Forall_cons; [done|]).
  - exists c, s'. split; [exact E|]. split; [exact HO|]. split; [|exact HC]. vm_compute in E. by injection E as <- <-.
Defined.
