(* ===== verification/BtfLoad.v ===== *)
(** * Type information of an object: libbpf/src/libbpf.c and btf.c

    From the sections .BTF and .BTF.ext of the file to the type information in the kernel:
    the sizes and offsets that only the ELF file knows are filled in, what an older kernel
    would refuse is rewritten to something it accepts, and the result is loaded.  All of it
    writes into the image; a write outside it is a fault. *)

From Stdlib Require Import String.
From S2P Require Import Prelude Params Netlink Os Btf BtfExt BpfProg Object Pinning BpfSys ObjMaps Reloc ObjLoad SecNames Elf OpenMaps Probe.
#[local] Open Scope Z_scope.
#[local] Open Scope prog_scope.

(** ** Writing into an image *)

Definition put (b : list Z) (p : Z) (v : list Z) : option (list Z) :=
  if (0 <=? p) && (p + lenZ v <=? lenZ b) then Some (take (Z.to_nat p) b ++ v ++ drop (Z.to_nat p + length v) b) else None.
Definition put_word (b : btf) (p v : Z) : option btf :=
  d ← put (bt_data b) p (word_bytes v);
  Some (Btf d (types b) (strings b) (nr_types b) (types_size b) (blk_self b) (blk_data b) (blk_types b)).
Definition put_bytes (b : btf) (p : Z) (v : list Z) : option btf :=
  d ← put (bt_data b) p v;
  Some (Btf d (types b) (strings b) (nr_types b) (types_size b) (blk_self b) (blk_data b) (blk_types b)).

(** Records of [struct btf_var_secinfo]: type, offset, size. *)
Definition secinfo : Type := Z * Z * Z.
Fixpoint read_secinfos (b : list Z) (p : Z) (n : nat) : option (list secinfo) :=
  match n with
  | O => Some []
  | S n => ty ← word_of b p; off ← word_of b (p + 4); sz ← word_of b (p + 8); l ← read_secinfos b (p + 12) n; Some ((ty, off, sz) :: l)
  end.
Definition secinfo_bytes (v : secinfo) : list Z := let '(ty, off, sz) := v in word_bytes ty ++ word_bytes off ++ word_bytes sz.
(** [qsort] with [compare_vsi_off]. *)
Definition compare_vsi_off (a b : secinfo) : Z := s32 (a.1.2 - b.1.2).
Fixpoint insert_secinfo (v : secinfo) (l : list secinfo) : list secinfo :=
  match l with [] => [v] | x :: l => if compare_vsi_off v x <=? 0 then v :: x :: l else x :: insert_secinfo v l end.
Definition sort_secinfos (l : list secinfo) : list secinfo := foldr insert_secinfo [] l.

Section BtfLoad.
Context {BK : BpfKernel} {LE : Libelf BK} {OS : Os}.
Abbreviation B := (M (bsys BK)).

(** ** btf__finalize_data *)

(** The loop over the variables, [n] of them from [i]: the result and the image. *)
Fixpoint fixup_vars (ef : efile LE) (e : elf) (b : btf) (t : Z) (n : nat) (i : Z) : option (Z * btf) :=
  match n with
  | O => Some (0, b)
  | S n =>
      let vsi := t + 12 + 12 * i in
      ty ← word_of (bt_data b) vsi;
      t_var ← btf__type_by_id b ty;
      k ← kind_at b t_var;
      if negb (k =? BTF_KIND_VAR) then Some (- EINVAL, b)
      else
        v ← match t_var with Some (Some v) => Some v | _ => None end;
        linkage ← word_of (bt_data b) (v + 12);
        if linkage =? BTF_VAR_STATIC then fixup_vars ef e b t n (i + 1)
        else
          off ← name_off (bt_data b) v;
          name ← c_name b off;
          match name with
          | None => Some (- ENOENT, b)
          | Some name =>
              r ← bpf_object__variable_offset ef e name;
              match r with
              | (0, Some off) => b ← put_word b (vsi + 4) off; fixup_vars ef e b t n (i + 1)
              | _ => Some (- ENOENT, b)
              end
          end
  end.
Definition btf_fixup_datasec (ef : efile LE) (e : elf) (b : btf) (t : Z) : option (Z * btf) :=
  vars ← btf_vlen (bt_data b) t;
  off ← name_off (bt_data b) t;
  name ← c_name b off;
  match name with
  | None => Some (- ENOENT, b)
  | Some name =>
      let '(r, size) := bpf_object__section_size ef e (Some name) in
      t_size ← size_or_type (bt_data b) t;
      if negb (r =? 0) || (size =? 0) || (negb (t_size =? 0) && negb (t_size =? size)) then Some (- ENOENT, b)
      else
        b ← put_word b (t + 8) size;
        '(r, b) ← fixup_vars ef e b t (Z.to_nat vars) 0;
        if negb (r =? 0) then Some (r, b)
        else
          l ← read_secinfos (bt_data b) (t + 12) (Z.to_nat vars);
          b ← put_bytes b (t + 12) (concat (map secinfo_bytes (sort_secinfos l)));
          Some (0, b)
  end.
(** [n] types from [i]. *)
Fixpoint finalize_loop (ef : efile LE) (e : elf) (b : btf) (n : nat) (i : Z) : option (Z * btf) :=
  match n with
  | O => Some (0, b)
  | S n =>
      t ← types b !! Z.to_nat i;
      t ← t;
      k ← btf_kind (bt_data b) t;
      if k =? BTF_KIND_DATASEC then
        '(err, b) ← btf_fixup_datasec ef e b t;
        if negb (err =? 0) then Some (err, b) else finalize_loop ef e b n (i + 1)
      else finalize_loop ef e b n (i + 1)
  end.
Definition btf__finalize_data (ef : efile LE) (e : elf) (b : btf) : option (Z * btf) := finalize_loop ef e b (Z.to_nat (nr_types b)) 1.

(** ** Sanitizing *)

(** Every dot of the name becomes an underscore. *)
Fixpoint undot (l : list Z) : option (list Z) :=
  match l with [] => None | c :: l => if c =? 0 then Some (c :: l) else l ← undot l; Some ((if c =? 46 then 95 else c) :: l) end.
(** The loop over the variables: each becomes a member in its place. *)
Fixpoint to_members (b : btf) (t : Z) (n : nat) (j : Z) : option btf :=
  match n with
  | O => Some b
  | S n =>
      let v := t + 12 + 12 * j in
      off ← word_of (bt_data b) (v + 4);
      b ← put_word b (v + 8) (off * 8);
      ty ← word_of (bt_data b) v;
      b ← put_word b (v + 4) ty;
      vt ← btf__type_by_id b ty;
      name ← name_off_at b vt;
      b ← put_word b v name;
      to_members b t n (j + 1)
  end.
Definition sanitize_type (has_datasec has_func : bool) (b : btf) (t : Z) : option btf :=
  k ← btf_kind (bt_data b) t;
  if negb has_datasec && (k =? BTF_KIND_VAR) then
    b ← put_word b (t + 4) (BTF_INFO_ENC BTF_KIND_INT 0 0);
    b ← put_word b (t + 8) 1;
    put_word b (t + 12) (BTF_INT_ENC 0 0 8)
  else if negb has_datasec && (k =? BTF_KIND_DATASEC) then
    off ← name_off (bt_data b) t;
    name ← btf__name_by_offset b off;
    name ← name;
    name ← undot name;
    b ← put_bytes b (strings b + off) name;
    vlen ← btf_vlen (bt_data b) t;
    b ← put_word b (t + 4) (BTF_INFO_ENC BTF_KIND_STRUCT 0 vlen);
    to_members b t (Z.to_nat vlen) 0
  else if negb has_func && (k =? BTF_KIND_FUNC_PROTO) then
    vlen ← btf_vlen (bt_data b) t;
    b ← put_word b (t + 4) (BTF_INFO_ENC BTF_KIND_ENUM 0 vlen);
    put_word b (t + 8) 4
  else if negb has_func && (k =? BTF_KIND_FUNC) then put_word b (t + 4) (BTF_INFO_ENC BTF_KIND_TYPEDEF 0 0)
  else Some b.
Fixpoint sanitize_loop (has_datasec has_func : bool) (b : btf) (n : nat) (i : Z) : option btf :=
  match n with
  | O => Some b
  | S n =>
      t ← btf__type_by_id b i;
      t ← match t with Some (Some t) => Some t | _ => None end;
      b ← sanitize_type has_datasec has_func b t;
      sanitize_loop has_datasec has_func b n (i + 1)
  end.
Definition bpf_object__sanitize_btf (o : bpf_object) : option bpf_object :=
  let has_datasec := cap_btf_datasec (o_caps o) in
  let has_func := cap_btf_func (o_caps o) in
  match o_btf o with
  | None => Some o
  | Some (b, fd) =>
      if has_func && has_datasec then Some o
      else b ← sanitize_loop has_datasec has_func b (Z.to_nat (nr_types b)) 1; Some (with_btf o (Some (b, fd)) (o_btf_ext o))
  end.
Definition bpf_object__sanitize_btf_ext (o : bpf_object) : bpf_object :=
  match o_btf_ext o with
  | None => o
  | Some _ => if negb (cap_btf_func (o_caps o)) then with_btf o (o_btf o) None else o
  end.

(** ** Reading and loading *)

Definition bpf_object__is_btf_mandatory (o : bpf_object) : bool := o_btf_maps_shndx o >=? 0.
(** Memory of objects is not tracked here: of a call that works on the heap the result and
    [errno] count. *)
Definition untracked {A} (c : M sys A) : B A := fun s =>
  match c (b_sys s) with
  | Some (a, s') => Some (a, Bsys _ (b_k s) (Sys (fds (b_sys s)) (maps (b_sys s)) (heap (b_sys s)) (errno s') (clock s')) (b_cpus s))
  | None => None
  end.
Definition bpf_object__init_btf (ef : efile LE) (o : bpf_object) (btf_data btf_ext_data : option Elf_Data) : B (Z * bpf_object) :=
  let btf_required := bpf_object__is_btf_mandatory o in
  let! e := deref (ef_elf ef) in
  (** the type information or its error, and [err] *)
  let! (b, err) :=
    match btf_data with
    | None => ret (inr None, 0)
    | Some d =>
        let! data := if d_size d =? 0 then ret [] else deref (d_buf d) in
        let! r := untracked (btf__new data) in
        match r with
        | inl perr => ret (inl perr, 0)
        | inr b => let! (err, b) := deref (btf__finalize_data ef e b) in ret (inr (Some b), err)
        end
    end in
  let! ext :=
    match b, btf_ext_data with
    | inr (Some _), Some d =>
        if negb (err =? 0) then ret None
        else
          let! data := if d_size d =? 0 then ret [] else deref (d_buf d) in
          let! r := untracked (btf_ext__new data) in
          ret (match r with inl _ => None | inr x => Some x end)
    | _, _ => ret None
    end in
  let bad := negb (err =? 0) || match b with inl _ => true | inr _ => false end in
  let err := if bad then if btf_required then if negb (err =? 0) then err else match b with inl perr => perr | inr _ => 0 end else 0 else err in
  let b := if bad then None else match b with inr b => b | inl _ => None end in
  let o := with_btf o (match b with Some b => Some (b, -1) | None => None end) ext in
  match b with
  | None => if btf_required then ret (if err =? 0 then - ENOENT else err, o) else ret (0, o)
  | Some _ => ret (0, o)
  end.

(** [inl] the error, or the descriptor. *)
Definition btf__load (b : btf) (fd : Z) : B (Z + Z) :=
  if fd >=? 0 then ret (inl (- EEXIST))
  else
    let! ok := malloc in
    if negb ok then ret (inl (- ENOMEM))
    else
      let! fd := bpf_load_btf (bt_data b) true BPF_LOG_BUF_SIZE false in
      if fd <? 0 then let! e := get_errno in ret (inl (- e)) else ret (inr fd).
Definition bpf_object__sanitize_and_load_btf (o : bpf_object) : B (Z * bpf_object) :=
  match o_btf o with
  | None => ret (0, o)
  | Some _ =>
      let! o := deref (bpf_object__sanitize_btf o) in
      let o := bpf_object__sanitize_btf_ext o in
      let! (b, fd) := deref (o_btf o) in
      let! r := btf__load b fd in
      match r with
      | inr fd => ret (0, with_btf o (Some (b, fd)) (o_btf_ext o))
      | inl err =>
          (** [btf__free] closes a descriptor; here there is none *)
          let o' := with_btf o None None in
          ret (if bpf_object__is_btf_mandatory o then err else 0, o')
      end
  end.
End BtfLoad.
