(* ===== verification/BtfSane.v ===== *)
(** * Sanitized type information: libbpf/src/libbpf.c

    [bpf_object__sanitize_btf] rewrites the records that an older kernel refuses, in place.
    The theorem: the result is again an image of types, type by type the one the code means,
    with the same numbers, names and places, and without the kinds the kernel lacks. *)

From S2P Require Import Prelude Nlattr Netlink Os Btf BpfProg Object ProgLinfo OpenMaps Elf Probe BtfLoad.
#[local] Open Scope Z_scope.

(** ** What becomes of a type *)

(** The name of type [id], 0 for void. *)
Definition name_of (ts : list ty) (id : Z) : Z := if 1 <=? id then default 0 (ty_name <$> ts !! Z.to_nat (id - 1)) else 0.
Definition member_bytes (ts : list ty) (v : secinfo) : list Z :=
  let '(ty, off, _) := v in word_bytes (name_of ts ty) ++ word_bytes ty ++ word_bytes (off * 8).
Definition vars_of (t : ty) : list secinfo := default [] (read_secinfos (ty_rest t) 0 (Z.to_nat (ty_vlen t))).
Definition sanitized (has_datasec has_func : bool) (ts : list ty) (t : ty) : ty :=
  let k := ty_kind t in
  if negb has_datasec && (k =? BTF_KIND_VAR) then Ty (ty_name t) (BTF_INFO_ENC BTF_KIND_INT 0 0) 1 (word_bytes (BTF_INT_ENC 0 0 8))
  else if negb has_datasec && (k =? BTF_KIND_DATASEC) then
    Ty (ty_name t) (BTF_INFO_ENC BTF_KIND_STRUCT 0 (ty_vlen t)) (ty_size t) (concat (map (member_bytes ts) (vars_of t)))
  else if negb has_func && (k =? BTF_KIND_FUNC_PROTO) then Ty (ty_name t) (BTF_INFO_ENC BTF_KIND_ENUM 0 (ty_vlen t)) 4 (ty_rest t)
  else if negb has_func && (k =? BTF_KIND_FUNC) then Ty (ty_name t) (BTF_INFO_ENC BTF_KIND_TYPEDEF 0 0) (ty_size t) (ty_rest t)
  else t.
(** A kind that the kernel knows. *)
Definition supported (has_datasec has_func : bool) (t : ty) : Prop :=
  (has_datasec = false -> ty_kind t <> BTF_KIND_VAR /\ ty_kind t <> BTF_KIND_DATASEC) /\
  (has_func = false -> ty_kind t <> BTF_KIND_FUNC_PROTO /\ ty_kind t <> BTF_KIND_FUNC).
(** The name of a data section is a string and its variables have types; the code checks
    neither. *)
Definition section_ok (ts : list ty) (strs : list Z) (t : ty) : Prop :=
  ty_kind t = BTF_KIND_DATASEC -> ty_name t < lenZ strs /\ Forall (fun v => v.1.1 <= lenZ ts) (vars_of t).
(** A dot may have become an underscore. *)
Definition dotless (a b : Z) : Prop := b = a \/ a = 46 /\ b = 95.

(** ** Words and records *)

Lemma bytes_word a b c d : is_u8 a -> is_u8 b -> is_u8 c -> is_u8 d ->
  exists w, is_u32 w /\ word_bytes w = [a; b; c; d].
Proof.
  intros Ha Hb Hc Hd. exists (a + 256 * b + 65536 * c + 16777216 * d). unfold is_u8, is_u32 in *. split; [lia|]. unfold word_bytes, u8.
  f_equal; [|f_equal; [|f_equal; [|f_equal]]]; Z.div_mod_to_equations; lia.
Qed.
Definition secinfo_u32 (v : secinfo) : Prop := is_u32 v.1.1 /\ is_u32 v.1.2 /\ is_u32 v.2.
(** Any bytes are variables. *)
Lemma read_vars : forall n pre l, Forall is_u8 l -> length l = (12 * n)%nat ->
  exists vs, read_secinfos (pre ++ l) (lenZ pre) n = Some vs /\ l = concat (map secinfo_bytes vs) /\ Forall secinfo_u32 vs /\ length vs = n.
Proof.
  induction n as [|n IH]; intros pre l Hu Hl; [exists []; by destruct l|].
  do 12 (destruct l as [|? l]; [cbn in Hl; lia|]). repeat (apply Forall_cons_1 in Hu as [? Hu]).
  match type of Hl with length (?a :: ?b :: ?c :: ?d :: ?e :: ?f :: ?g :: ?h :: ?i :: ?j :: ?k :: ?m :: _) = _ =>
    destruct (bytes_word a b c d) as (x & Hx & Ex); [done..|]; destruct (bytes_word e f g h) as (y & Hy & Ey); [done..|];
    destruct (bytes_word i j k m) as (w & Hw & Ew); [done..|];
    replace (a :: b :: c :: d :: e :: f :: g :: h :: i :: j :: k :: m :: l) with (word_bytes x ++ word_bytes y ++ word_bytes w ++ l) by (by rewrite Ex, Ey, Ew) end.
  cbn [read_secinfos]. rewrite (word_front pre x) by done. cbn [mbind option_bind].
  rewrite (word_at' pre (word_bytes x) y (word_bytes w ++ l) (lenZ pre + 4) Hy eq_refl). cbn [mbind option_bind].
  destruct (IH (pre ++ word_bytes x ++ word_bytes y ++ word_bytes w) l Hu) as (vs & E & El & Hvs & Hn); [cbn in Hl; lia|].
  replace (lenZ (pre ++ word_bytes x ++ word_bytes y ++ word_bytes w)) with (lenZ pre + 12) in E by (rewrite !length_app; cbn; lia).
  rewrite <- !(assoc_L (++)) in E.
  rewrite (assoc_L (++) (word_bytes x) (word_bytes y)), (word_at' pre (word_bytes x ++ word_bytes y) w l (lenZ pre + 8) Hw eq_refl), <- (assoc_L (++)). cbn [mbind option_bind].
  rewrite E. cbn [mbind option_bind]. exists ((x, y, w) :: vs). split; [done|]. cbn [map concat secinfo_bytes]. split; [by rewrite <- El, <- !(assoc_L (++))|].
  split; [by apply List.Forall_cons|cbn; lia].
Qed.
Lemma datasec_vars t : ty_ok t -> ty_kind t = BTF_KIND_DATASEC ->
  ty_rest t = concat (map secinfo_bytes (vars_of t)) /\ Forall secinfo_u32 (vars_of t) /\ lenZ (vars_of t) = ty_vlen t.
Proof.
  intros (_ & _ & _ & Hu & Hr) Hk. rewrite Hk in Hr. injection Hr as Hr.
  assert (0 <= ty_vlen t) by (apply Z.land_nonneg; right; done).
  destruct (read_vars (Z.to_nat (ty_vlen t)) [] (ty_rest t)) as (vs & E & El & Hvs & Hn); [done|lia|]. cbn [app length] in E. change (Z.of_nat 0) with 0 in E.
  unfold vars_of. rewrite E. cbn. split; [done|]. split; [done|]. lia.
Qed.

(** ** Writing into a parsed image *)

Definition set_data (b : btf) (d : list Z) : btf := Btf d (types b) (strings b) (nr_types b) (types_size b) (blk_self b) (blk_data b) (blk_types b).
Lemma put_app pre old v rest : length old = length v -> put (pre ++ old ++ rest) (lenZ pre) v = Some (pre ++ v ++ rest).
Proof.
  intros Hl. unfold put. destruct (_ && _)%bool eqn:E.
  2: { rewrite !length_app in E. apply andb_false_iff in E as [E|E]; apply Z.leb_gt in E; rewrite ?Hl in E; lia. }
  rewrite Nat2Z.id, take_app_length, drop_app_add, <- Hl, drop_app_length. done.
Qed.
Lemma shape_update ts i t t' : ts !! i = Some t -> ty_len t' = ty_len t ->
  lenZ (encode_types (<[i := t']> ts)) = lenZ (encode_types ts) /\ forall p, offsets p (<[i := t']> ts) = offsets p ts.
Proof.
  intros Hi Hl. revert i Hi. induction ts as [|u ts IH]; intros [|i] Hi; [done|done| |].
  - injection Hi as ->. change (<[0%nat := t']> (t :: ts)) with (t' :: ts). unfold encode_types. cbn [map concat offsets].
    rewrite !length_app, !Nat2Z.inj_add, !encode_ty_len, Hl. done.
  - destruct (IH i Hi) as [H1 H2]. change (<[S i := t']> (u :: ts)) with (u :: <[i := t']> ts). unfold encode_types in *. cbn [map concat offsets].
    rewrite !length_app, !Nat2Z.inj_add, H1. split; [done|]. intros p. by rewrite H2.
Qed.
Lemma offsets_at p l1 t l2 : offsets p (l1 ++ t :: l2) !! length l1 = Some (p + lenZ (encode_types l1)).
Proof.
  revert p. induction l1 as [|u l1 IH]; intros p; [cbn; f_equal; lia|]. cbn [app offsets length].
  change (offsets (p + ty_len u) (l1 ++ t :: l2) !! length l1 = Some (p + lenZ (encode_types (u :: l1)))). rewrite IH. f_equal.
  unfold encode_types. cbn [map concat]. rewrite length_app, Nat2Z.inj_add, encode_ty_len. lia.
Qed.
(** Type [id] is [t] and is at [p]; [ts] are the types it is among. *)
Definition holds_ty (ts : list ty) (strs : list Z) (b : btf) (id p : Z) (t : ty) : Prop :=
  exists pre rest, p = lenZ pre /\ bt_data b = pre ++ encode_ty t ++ rest /\ btf__type_by_id b id = Some (Some (Some p)) /\
    forall t', ty_len t' = ty_len t -> parsed (<[Z.to_nat (id - 1) := t']> ts) strs (set_data b (pre ++ encode_ty t' ++ rest)).
Lemma holds_ty_intro ts strs b id t : parsed ts strs b -> type_at ts id t -> exists p, holds_ty ts strs b id p t.
Proof.
  intros (Hd & Hs & Hn & Hty) [Hid Ht]. destruct (list_elem_of_split_length ts _ t Ht) as (l1 & l2 & El & Hi).
  pose proof (offsets_at 24 l1 t l2) as Ho. rewrite <- El, <- Hi in Ho.
  set (h := header 0 (lenZ (encode_types ts)) (lenZ (encode_types ts)) (lenZ strs)).
  exists (lenZ (h ++ encode_types l1)), (h ++ encode_types l1), (encode_types l2 ++ strs). split; [done|].
  assert (Himg : forall u, encode_types (l1 ++ u :: l2) = encode_types l1 ++ encode_ty u ++ encode_types l2).
  { intros u. unfold encode_types. rewrite map_app, concat_app. done. }
  split; [|split].
  - rewrite Hd. unfold image. fold h. by rewrite El at 1; rewrite Himg, <- !(assoc_L (++)).
  - unfold btf__type_by_id. pose proof (lookup_lt_Some _ _ _ Ht) as Hlt. rewrite Hn. replace (id >? lenZ ts) with false by lia. rewrite Hty.
    replace (Z.to_nat id) with (S (Z.to_nat (id - 1))) by lia.
    change ((None :: map Some (offsets 24 ts)) !! S (Z.to_nat (id - 1))) with ((Some <$> offsets 24 ts) !! Z.to_nat (id - 1)).
    rewrite list_lookup_fmap, Ho, length_app, Nat2Z.inj_add. done.
  - intros t' Hl. destruct (shape_update ts _ t t' Ht Hl) as [E1 E2]. split; [|split; [|split]]; cbn [set_data bt_data strings nr_types types].
    + unfold image. rewrite E1. fold h. rewrite Hi, El, insert_app_r_alt, Nat.sub_diag by done. cbn [insert list_insert]. by rewrite Himg, <- !(assoc_L (++)).
    + by rewrite E1.
    + by rewrite length_insert.
    + by rewrite E2.
Qed.
Lemma set_data_same b : set_data b (bt_data b) = b.
Proof. by destruct b. Qed.
Lemma holds_ty_parsed ts strs b id p t : holds_ty ts strs b id p t -> parsed (<[Z.to_nat (id - 1) := t]> ts) strs b.
Proof. intros (pre & rest & _ & Hd & _ & H). specialize (H t eq_refl). by rewrite <- Hd, set_data_same in H. Qed.
(** Writing one word of the record. *)
Lemma put_field ts strs b id p t q1 w q2 v t' : holds_ty ts strs b id p t -> encode_ty t = q1 ++ word_bytes w ++ q2 -> encode_ty t' = q1 ++ word_bytes v ++ q2 ->
  exists b', put_word b (p + lenZ q1) v = Some b' /\ holds_ty ts strs b' id p t'.
Proof.
  intros (pre & rest & -> & Hd & Hty & H) E E'.
  assert (Hl : ty_len t' = ty_len t) by (by rewrite <- !encode_ty_len, E, E', !length_app).
  exists (set_data b (pre ++ encode_ty t' ++ rest)). split.
  - unfold put_word. rewrite Hd, E, E', <- Nat2Z.inj_add, <- length_app, <- !(assoc_L (++)), (assoc_L (++) pre q1).
    by rewrite (put_app (pre ++ q1) (word_bytes w) (word_bytes v)), <- !(assoc_L (++)).
  - exists pre, rest. split; [done|]. split; [done|]. split; [done|]. intros u Hu. apply H. congruence.
Qed.
Lemma put_info ts strs b id p nm inf sz rest v : holds_ty ts strs b id p (Ty nm inf sz rest) ->
  exists b', put_word b (p + 4) v = Some b' /\ holds_ty ts strs b' id p (Ty nm v sz rest).
Proof. intros H. exact (put_field _ _ _ _ _ _ (word_bytes nm) inf (word_bytes sz ++ rest) v (Ty nm v sz rest) H eq_refl eq_refl). Qed.
Lemma put_size ts strs b id p nm inf sz rest v : holds_ty ts strs b id p (Ty nm inf sz rest) ->
  exists b', put_word b (p + 8) v = Some b' /\ holds_ty ts strs b' id p (Ty nm inf v rest).
Proof. intros H. exact (put_field _ _ _ _ _ _ (word_bytes nm ++ word_bytes inf) sz rest v (Ty nm inf v rest) H eq_refl eq_refl). Qed.
Lemma put_rest ts strs b id p nm inf sz r1 w r2 v q : holds_ty ts strs b id p (Ty nm inf sz (r1 ++ word_bytes w ++ r2)) -> q = p + 12 + lenZ r1 ->
  exists b', put_word b q v = Some b' /\ holds_ty ts strs b' id p (Ty nm inf sz (r1 ++ word_bytes v ++ r2)).
Proof.
  intros H ->. replace (p + 12 + lenZ r1) with (p + lenZ (word_bytes nm ++ word_bytes inf ++ word_bytes sz ++ r1)) by (cbn; lia).
  by apply (put_field ts strs b id p (Ty nm inf sz (r1 ++ word_bytes w ++ r2)) _ w r2 v).
Qed.
Lemma get_rest ts strs b id p nm inf sz r1 w r2 q : holds_ty ts strs b id p (Ty nm inf sz (r1 ++ word_bytes w ++ r2)) -> q = p + 12 + lenZ r1 -> is_u32 w ->
  word_of (bt_data b) q = Some w.
Proof.
  intros (pre & rest & -> & -> & _) -> Hw. unfold encode_ty. cbn [ty_name ty_info ty_size ty_rest]. rewrite <- !(assoc_L (++)).
  replace (lenZ pre + 12 + lenZ r1) with (lenZ pre + lenZ (word_bytes nm ++ word_bytes inf ++ word_bytes sz ++ r1)) by (cbn; lia).
  pose proof (word_at' pre (word_bytes nm ++ word_bytes inf ++ word_bytes sz ++ r1) w (r2 ++ rest) _ Hw eq_refl) as H. by rewrite <- !(assoc_L (++)) in H.
Qed.

(** ** Names of types *)

Definition names_u32 (ts : list ty) : Prop := Forall (fun t => is_u32 (ty_name t)) ts.
Lemma name_of_type ts strs b id : parsed ts strs b -> names_u32 ts -> 0 <= id <= lenZ ts ->
  exists r, btf__type_by_id b id = Some r /\ name_off_at b r = Some (name_of ts id).
Proof.
  intros HP Hn Hid. unfold name_of. destruct (Z.leb_spec 1 id) as [H1|H1].
  - destruct (lookup_lt_is_Some_2 ts (Z.to_nat (id - 1))) as [t Ht]; [lia|]. destruct (holds_ty_intro ts strs b id t HP (conj H1 Ht)) as (p & pre & rest & -> & Hd & E & _).
    exists (Some (Some (lenZ pre))). split; [done|]. rewrite Ht. cbn. rewrite Hd. unfold name_off, encode_ty. rewrite <- !(assoc_L (++)).
    apply word_front. unfold names_u32 in Hn. rewrite Forall_lookup in Hn. by eapply Hn.
  - assert (id = 0) as -> by lia. destruct HP as (_ & _ & Hnr & Hty). exists (Some None). split; [|done]. unfold btf__type_by_id. rewrite Hnr, Hty.
    by replace (0 >? lenZ ts) with false by lia.
Qed.
Lemma name_of_update ts i t t' : ts !! i = Some t -> ty_name t' = ty_name t -> forall id, name_of (<[i := t']> ts) id = name_of ts id.
Proof.
  intros Hi Hn id. unfold name_of. destruct (1 <=? id); [|done]. destruct (decide (Z.to_nat (id - 1) = i)) as [->|Hne].
  - rewrite list_lookup_insert_eq by (by eapply lookup_lt_Some). rewrite Hi. cbn. by rewrite Hn.
  - by rewrite list_lookup_insert_ne.
Qed.

(** ** Variables become members *)

Lemma members_len ts vs : lenZ (concat (map (member_bytes ts) vs)) = 12 * lenZ vs.
Proof. induction vs as [|[[ty off] sz] vs IH]; [done|]. cbn [map concat length]. rewrite length_app, Nat2Z.inj_add, IH. cbn. lia. Qed.
Section Members.
Context (ts : list ty) (strs : list Z) (id p nm : Z) (Hts : names_u32 ts) (Hnm : ty_name <$> ts !! Z.to_nat (id - 1) = Some nm).
Lemma name_meanwhile b inf sz rest ty : holds_ty ts strs b id p (Ty nm inf sz rest) -> 0 <= ty <= lenZ ts ->
  exists r, btf__type_by_id b ty = Some r /\ name_off_at b r = Some (name_of ts ty).
Proof using Hts Hnm.
  intros H Hty. apply holds_ty_parsed in H. destruct (ts !! Z.to_nat (id - 1)) as [t|] eqn:Et; [|done]. cbn in Hnm. injection Hnm as Hn.
  destruct (name_of_type _ strs b ty H) as (r & E1 & E2); [| |exists r; split; [done|]].
  - unfold names_u32 in *. apply Forall_insert; [done|]. cbn. rewrite Forall_lookup in Hts. rewrite <- Hn. by eapply Hts.
  - by rewrite length_insert.
  - by rewrite (name_of_update ts _ t) in E2.
Qed.
Lemma to_members_ok : forall todo done b inf sz, Forall secinfo_u32 todo -> Forall (fun v => v.1.1 <= lenZ ts) todo ->
  holds_ty ts strs b id p (Ty nm inf sz (concat (map (member_bytes ts) done) ++ concat (map secinfo_bytes todo))) ->
  exists b', to_members b p (length todo) (lenZ done) = Some b' /\ holds_ty ts strs b' id p (Ty nm inf sz (concat (map (member_bytes ts) (done ++ todo)))).
Proof using Hts Hnm.
  induction todo as [|[[ty off] sz0] todo IH]; intros done b inf sz Hu Hk H; [exists b; by rewrite app_nil_r in H |- *|].
  apply Forall_cons_1 in Hu as [(U1 & U2 & U3) Hu]. apply Forall_cons_1 in Hk as [Hk1 Hk]. cbn [fst snd] in *.
  cbn [length to_members]. cbv zeta. pose proof (members_len ts done) as HL. set (M := concat (map (member_bytes ts) done)) in *. set (T := concat (map secinfo_bytes todo)).
  change (concat (map secinfo_bytes ((ty, off, sz0) :: todo))) with ((word_bytes ty ++ word_bytes off ++ word_bytes sz0) ++ T) in H.
  assert (L1 : p + 12 + 12 * lenZ done = p + 12 + lenZ M) by lia.
  assert (L2 : p + 12 + 12 * lenZ done + 4 = p + 12 + lenZ (M ++ word_bytes ty)) by (rewrite length_app; cbn; lia).
  assert (L3 : p + 12 + 12 * lenZ done + 8 = p + 12 + lenZ ((M ++ word_bytes ty) ++ word_bytes off)) by (rewrite !length_app; cbn; lia).
  assert (E : forall x y z, M ++ (word_bytes x ++ word_bytes y ++ word_bytes z) ++ T = (M ++ word_bytes x) ++ word_bytes y ++ word_bytes z ++ T)
    by (intros; by rewrite <- !(assoc_L (++))).
  assert (E2 : forall x y z, M ++ (word_bytes x ++ word_bytes y ++ word_bytes z) ++ T = ((M ++ word_bytes x) ++ word_bytes y) ++ word_bytes z ++ T)
    by (intros; by rewrite <- !(assoc_L (++))).
  assert (E0 : forall x y z, M ++ (word_bytes x ++ word_bytes y ++ word_bytes z) ++ T = M ++ word_bytes x ++ (word_bytes y ++ word_bytes z ++ T))
    by (intros; by rewrite <- !(assoc_L (++))).
  assert (G : word_of (bt_data b) (p + 12 + 12 * lenZ done + 4) = Some off) by (rewrite E in H; by eapply get_rest). rewrite G. cbn [mbind option_bind].
  rewrite E2 in H. destruct (put_rest _ _ _ _ _ _ _ _ _ _ _ (off * 8) _ H L3) as (b1 & -> & H1). rewrite <- E2 in H1. cbn [mbind option_bind].
  assert (G1 : word_of (bt_data b1) (p + 12 + 12 * lenZ done) = Some ty) by (rewrite E0 in H1; by eapply get_rest). rewrite G1. cbn [mbind option_bind].
  rewrite E in H1. destruct (put_rest _ _ _ _ _ _ _ _ _ _ _ ty _ H1 L2) as (b2 & -> & H2). rewrite <- E in H2. cbn [mbind option_bind].
  destruct (name_meanwhile _ _ _ _ ty H2) as (r & -> & Hn); [unfold is_u32 in U1; lia|]. cbn [mbind option_bind]. rewrite Hn. cbn [mbind option_bind].
  rewrite E0 in H2. destruct (put_rest _ _ _ _ _ _ _ _ _ _ _ (name_of ts ty) _ H2 L1) as (b3 & -> & H3). rewrite <- E0 in H3. cbn [mbind option_bind].
  replace (lenZ done + 1) with (lenZ (done ++ [(ty, off, sz0)])) by (rewrite length_app; cbn; lia).
  destruct (IH (done ++ [(ty, off, sz0)]) b3 inf sz Hu Hk) as (b4 & E4 & H4).
  - rewrite map_app, concat_app. fold M T. cbn [map concat member_bytes]. rewrite app_nil_r, <- !(assoc_L (++)). by rewrite <- !(assoc_L (++)) in H3.
  - exists b4. rewrite <- (assoc_L (++)) in H4. by split.
Qed.
End Members.

(** ** Dots in section names *)

Lemma undot_ok l : 0 ∈ l -> exists l', undot l = Some l' /\ Forall2 dotless l l'.
Proof.
  induction l as [|c l IH]; [by intros ?%not_elem_of_nil|]. intros Hin. cbn [undot]. destruct (Z.eqb_spec c 0) as [->|Hc].
  - eexists. split; [done|]. apply list.Forall2_cons. split; [by left|]. clear. induction l; [done|]. apply list.Forall2_cons. split; [by left|done].
  - apply elem_of_cons in Hin as [<-|Hin]; [done|]. destruct (IH Hin) as (l' & -> & Hl). cbn. eexists. split; [done|]. apply list.Forall2_cons. split; [|done].
    destruct (Z.eqb_spec c 46); [by right|by left].
Qed.
Lemma dotless_refl l : Forall2 dotless l l.
Proof. induction l; [done|]. apply list.Forall2_cons. split; [by left|done]. Qed.
Lemma dotless_trans l1 l2 l3 : Forall2 dotless l1 l2 -> Forall2 dotless l2 l3 -> Forall2 dotless l1 l3.
Proof.
  intros H. revert l3. induction H as [|a b l1 l2 Hab _ IH]; intros l3 H3; [done|]. apply Forall2_cons_inv_l in H3 as (c & l3' & Hbc & H3 & ->).
  apply list.Forall2_cons. split; [|auto]. unfold dotless in *. lia.
Qed.
Lemma strings_dotless (strs strs' : list Z) : Forall2 dotless strs strs' -> (exists s, strs = 0 :: s /\ (s = [] \/ exists s', s = s' ++ [0])) ->
  exists s, strs' = 0 :: s /\ (s = [] \/ exists s', s = s' ++ [0]).
Proof.
  intros HF (s & E & Hend). rewrite E in HF. apply Forall2_cons_inv_l in HF as (c & l & Hc & HF & ->).
  exists l. split; [unfold dotless in Hc; f_equal; lia|]. destruct Hend as [->|[s' ->]]; [left; by apply Forall2_nil_inv_l in HF|right].
  apply Forall2_app_inv_l in HF as (l1 & l2 & _ & H2 & ->). apply Forall2_cons_inv_l in H2 as (d & l2' & Hd' & H2 & ->). apply Forall2_nil_inv_l in H2 as ->.
  exists l1. unfold dotless in Hd'. repeat f_equal. lia.
Qed.

(** ** One type *)

Lemma info_enc k v : 0 <= k < 16 -> 0 <= v < 65536 ->
  let i := BTF_INFO_ENC k 0 v in is_u32 i /\ Z.land (Z.shiftr i 24) 15 = k /\ Z.land i 65535 = v.
Proof.
  intros Hk Hv. cbv zeta. unfold BTF_INFO_ENC. cbn [Z.eqb]. rewrite Z.lor_0_l. assert (Ev : Z.land v 65535 = v) by (change 65535 with (Z.ones 16); rewrite Z.land_ones by lia; apply Z.mod_small; lia).
  rewrite Ev. assert (Hs : Z.shiftl k 24 = k * 16777216) by (rewrite Z.shiftl_mul_pow2 by lia; done). split; [|split].
  - pose proof (Z.add_lor_land (Z.shiftl k 24) v). assert (0 <= Z.lor (Z.shiftl k 24) v) by (apply Z.lor_nonneg; lia).
    assert (0 <= Z.land (Z.shiftl k 24) v) by (apply Z.land_nonneg; lia). unfold is_u32. lia.
  - rewrite Z.shiftr_lor, Z.shiftr_shiftl_l by lia. rewrite (Z.shiftr_div_pow2 v) by lia. rewrite Z.div_small by lia. cbn [Z.sub Z.add Z.opp Z.pos_sub].
    rewrite Z.shiftl_0_r, Z.lor_0_r. change 15 with (Z.ones 4). rewrite Z.land_ones by lia. apply Z.mod_small. lia.
  - rewrite Z.land_lor_distr_l, Ev. change 65535 with (Z.ones 16). rewrite Z.land_ones, Hs by lia. replace (k * 16777216) with (k * 256 * 2 ^ 16) by (cbn; lia).
    by rewrite Z.mod_mul by done.
Qed.
Lemma vlen_range t : 0 <= ty_vlen t < 65536.
Proof. unfold ty_vlen. change 65535 with (Z.ones 16). rewrite Z.land_ones by lia. apply Z.mod_pos_bound. done. Qed.
Lemma member_bytes_u8 ts vs : Forall is_u8 (concat (map (member_bytes ts) vs)).
Proof.
  induction vs as [|[[ty off] sz] vs IH]; [apply List.Forall_nil|]. cbn [map concat member_bytes]. rewrite !Forall_app. repeat split; apply word_bytes_u8 || done.
Qed.
Definition becomes (hd hf : bool) (t t' : ty) : Prop := ty_ok t' /\ ty_name t' = ty_name t /\ ty_len t' = ty_len t /\ supported hd hf t'.
Lemma becomes_new hd hf t k v sz rest : ty_ok t -> 0 <= v < 65536 -> is_u32 sz -> Forall is_u8 rest -> 12 + lenZ rest = ty_len t -> record_size k v = ty_len t ->
  k ∈ [BTF_KIND_INT; BTF_KIND_STRUCT; BTF_KIND_ENUM; BTF_KIND_TYPEDEF] -> becomes hd hf t (Ty (ty_name t) (BTF_INFO_ENC k 0 v) sz rest).
Proof.
  intros (H1 & _) Hv Hs Hr Hl Hk Hin. assert (Hk16 : 0 <= k < 16) by (rewrite !elem_of_cons, elem_of_nil in Hin; decompose [or] Hin; subst; done).
  destruct (info_enc k v Hk16 Hv) as (I1 & I2 & I3). unfold becomes, ty_ok, supported, ty_kind, ty_vlen, ty_len. cbn [ty_name ty_info ty_size ty_rest].
  rewrite I2, I3. change sizeof_btf_type with 12. assert (Hlay : layout k v = Some (lenZ rest)) by (apply layout_record_size; [done|unfold sizeof_btf_type; lia|lia]).
  split; [done|]. split; [done|]. split; [done|].
  rewrite !elem_of_cons, elem_of_nil in Hin; decompose [or] Hin; subst; done.
Qed.
Lemma sanitized_ok hd hf ts t : ty_ok t -> becomes hd hf t (sanitized hd hf ts t).
Proof.
  intros Hok. pose proof Hok as (H1 & H2 & H3 & H4 & _). pose proof (ty_ok_size t Hok) as H5. pose proof (vlen_range t) as Hv. unfold sanitized. cbv zeta.
  destruct (Z.eqb_spec (ty_kind t) BTF_KIND_VAR) as [Ek|N1].
  { rewrite Ek in H5 |- *. cbn [Z.eqb]. rewrite !andb_false_r, !andb_true_r. destruct hd; cbn [negb].
    - split; [done|]. split; [done|]. split; [done|]. unfold supported. by rewrite Ek.
    - apply becomes_new; [done|lia|done|apply word_bytes_u8|exact H5|exact H5|by left]. }
  destruct (Z.eqb_spec (ty_kind t) BTF_KIND_DATASEC) as [Ek|N2].
  { destruct (datasec_vars t Hok Ek) as (E1 & _ & E3). rewrite Ek in H5 |- *. cbn [Z.eqb]. rewrite !andb_false_r, !andb_true_r. destruct hd; cbn [negb].
    - split; [done|]. split; [done|]. split; [done|]. unfold supported. by rewrite Ek.
    - apply becomes_new; [done|done|done|apply member_bytes_u8| |exact H5|by right; left]. rewrite members_len, E3, <- H5.
      change (record_size BTF_KIND_DATASEC (ty_vlen t)) with (12 + ty_vlen t * 12). lia. }
  destruct (Z.eqb_spec (ty_kind t) BTF_KIND_FUNC_PROTO) as [Ek|N3].
  { rewrite Ek in H5 |- *. cbn [Z.eqb]. rewrite !andb_false_r, !andb_true_r. destruct hf; cbn [negb].
    - split; [done|]. split; [done|]. split; [done|]. unfold supported. by rewrite Ek.
    - apply becomes_new; [done|done|done|done|done|exact H5|by right; right; left]. }
  destruct (Z.eqb_spec (ty_kind t) BTF_KIND_FUNC) as [Ek|N4]; rewrite !andb_false_r.
  { rewrite Ek in H5. rewrite !andb_true_r. destruct hf; cbn [negb].
    - split; [done|]. split; [done|]. split; [done|]. unfold supported. by rewrite Ek.
    - apply becomes_new; [done|lia|done|done|done|exact H5|by right; right; right; left]. }
  split; [done|]. split; [done|]. split; [done|]. by split.
Qed.

(** The strings at the end of the image. *)
Lemma undot_section ts strs b off : image_ok ts strs -> parsed ts strs b -> 0 <= off < lenZ strs ->
  exists name name' strs', btf__name_by_offset b off = Some (Some name) /\ undot name = Some name' /\ Forall2 dotless strs strs' /\
    put_bytes b (strings b + off) name' = Some (set_data b (image ts strs')) /\ image_ok ts strs' /\ parsed ts strs' (set_data b (image ts strs')).
Proof.
  intros IO (Hd & Hs & Hn & Hty) Hoff. set (h := header 0 (lenZ (encode_types ts)) (lenZ (encode_types ts)) (lenZ strs)).
  pose proof (image_str_len ts strs IO) as Hlen. rewrite <- (take_drop (Z.to_nat off) strs) in Hd. set (s1 := take (Z.to_nat off) strs) in *. set (s2 := drop (Z.to_nat off) strs) in *.
  assert (Hl1 : lenZ s1 = off) by (unfold s1; rewrite length_take; lia). assert (Hstrs : strs = s1 ++ s2) by (symmetry; apply take_drop).
  assert (Hlast : 0 ∈ s2).
  { assert (H0 : strs !! (length strs - 1)%nat = Some 0).
    { destruct IO as [_ (s & E & [->|[s' ->]]) _]; rewrite E; [done|]. change (0 :: s' ++ [0]) with ((0 :: s') ++ [0]).
      rewrite length_app, lookup_app_r by (cbn; lia). by rewrite Nat.add_sub, Nat.sub_diag. }
    apply list_elem_of_lookup. exists (length strs - 1 - Z.to_nat off)%nat. unfold s2. rewrite lookup_drop.
    by replace (Z.to_nat off + (length strs - 1 - Z.to_nat off))%nat with (length strs - 1)%nat by lia. }
  destruct (undot_ok s2 Hlast) as (s2' & Eu & Hu). pose proof (list.Forall2_length _ _ _ Hu) as Hl2.
  assert (HF : Forall2 dotless strs (s1 ++ s2')) by (rewrite Hstrs at 1; apply List.Forall2_app; [apply dotless_refl|done]).
  assert (Hls : lenZ (s1 ++ s2') = lenZ strs) by (rewrite Hstrs, !length_app; lia).
  assert (Hpos : strings b + off = lenZ (h ++ encode_types ts ++ s1)) by (rewrite Hs, !length_app; cbn; lia).
  assert (Himg : bt_data b = (h ++ encode_types ts ++ s1) ++ s2) by (rewrite Hd; unfold image; rewrite <- Hstrs at 1; fold h; by rewrite <- !(assoc_L (++))).
  assert (Himg' : image ts (s1 ++ s2') = (h ++ encode_types ts ++ s1) ++ s2') by (unfold image; rewrite Hls; fold h; by rewrite <- !(assoc_L (++))).
  exists s2, s2', (s1 ++ s2'). split; [|split; [done|split; [done|split; [|split]]]].
  - unfold btf__name_by_offset. rewrite Hd, <- Hstrs, Hlen. cbn [mbind option_bind]. rewrite (proj2 (Z.ltb_lt _ _)) by lia.
    rewrite Hpos, Nat2Z.id. f_equal. f_equal. rewrite Hstrs, <- Hd, Himg. apply drop_app_length.
  - unfold put_bytes. rewrite Hpos, Himg. pose proof (put_app (h ++ encode_types ts ++ s1) s2 s2' [] Hl2) as Hp. rewrite !app_nil_r in Hp. rewrite Hp. cbn [mbind option_bind]. by rewrite Himg'.
  - destruct IO as [I1 I2 I3]. split; [done|by eapply strings_dotless|rewrite image_len in I3 |- *; lia].
  - done.
Qed.

Section Type_.
Context (hd hf : bool) (ts : list ty) (strs : list Z) (b : btf) (IO : image_ok ts strs) (PB : parsed ts strs b).
(** The fields of the record, from where it is. *)
Lemma record_fields id p t : holds_ty ts strs b id p t -> ty_ok t ->
  btf_kind (bt_data b) p = Some (ty_kind t) /\ btf_vlen (bt_data b) p = Some (ty_vlen t) /\ name_off (bt_data b) p = Some (ty_name t).
Proof.
  intros (pre & rest & -> & -> & _) Hok. unfold btf_vlen. rewrite (field_kind pre t rest Hok), (field_info pre t rest Hok), (field_name pre t rest Hok). done.
Qed.
Lemma names_ok : names_u32 ts.
Proof using IO. destruct IO as [[H _] _ _]. eapply list.Forall_impl; [exact H|]. by intros t (H1 & _). Qed.
Lemma holds_ty_eta id p t : holds_ty ts strs b id p t -> holds_ty ts strs b id p (Ty (ty_name t) (ty_info t) (ty_size t) (ty_rest t)).
Proof. by destruct t. Qed.
Lemma sanitize_type_ok id p t : type_at ts id t -> holds_ty ts strs b id p t -> (hd = false -> section_ok ts strs t) ->
  exists b' strs', sanitize_type hd hf b p = Some b' /\ Forall2 dotless strs strs' /\
    parsed (<[Z.to_nat (id - 1) := sanitized hd hf ts t]> ts) strs' b'.
Proof using IO PB.
  intros [Hid Ht] H Hsec. assert (Hok : ty_ok t) by (destruct IO as [[Hall _] _ _]; rewrite Forall_lookup in Hall; by eapply Hall).
  destruct (record_fields id p t H Hok) as (E1 & E2 & E3). unfold sanitize_type, sanitized. rewrite E1. cbn [mbind option_bind]. cbv zeta.
  pose proof (holds_ty_eta id p t H) as He.
  destruct (negb hd && (ty_kind t =? BTF_KIND_VAR))%bool eqn:C1.
  { apply andb_true_iff in C1 as [_ Ek%Z.eqb_eq]. destruct (put_info _ _ _ _ _ _ _ _ _ (BTF_INFO_ENC BTF_KIND_INT 0 0) He) as (b1 & -> & H1). cbn [mbind option_bind].
    destruct (put_size _ _ _ _ _ _ _ _ _ 1 H1) as (b2 & -> & H2). cbn [mbind option_bind].
    destruct Hok as (_ & _ & _ & Hu & Hr). rewrite Ek in Hr. injection Hr as Hr.
    destruct (ty_rest t) as [|a [|c [|d [|e [|]]]]]; try (cbn in Hr; lia). repeat (apply Forall_cons_1 in Hu as [? Hu]).
    destruct (bytes_word a c d e) as (w & _ & Ew); [done..|]. change [a; c; d; e] with ([] ++ [a; c; d; e] ++ []) in H2. rewrite <- Ew in H2.
    destruct (put_rest _ _ _ _ _ _ _ _ _ _ _ (BTF_INT_ENC 0 0 8) (p + 12) H2) as (b3 & -> & Hend); [cbn; lia|]. exists b3, strs. split; [done|]. split; [apply dotless_refl|].
    apply holds_ty_parsed in Hend. by rewrite app_nil_r in Hend. }
  destruct (negb hd && (ty_kind t =? BTF_KIND_DATASEC))%bool eqn:C2.
  { apply andb_true_iff in C2 as [Hhd%negb_true_iff Ek%Z.eqb_eq]. destruct (Hsec Hhd Ek) as [Hn Hvars]. destruct (datasec_vars t Hok Ek) as (V1 & V2 & V3).
    rewrite E3. cbn [mbind option_bind]. assert (Hu : is_u32 (ty_name t)) by apply Hok. unfold is_u32 in Hu.
    destruct (undot_section ts strs b (ty_name t) IO PB) as (name & name' & strs' & -> & U2 & U3 & U4 & IO' & PB'); [lia|]. cbn [mbind option_bind].
    rewrite U2. cbn [mbind option_bind]. rewrite U4. cbn [mbind option_bind].
    destruct (holds_ty_intro ts strs' _ id t PB' (conj Hid Ht)) as (p' & H'). assert (p' = p) as ->.
    { destruct H as (? & ? & _ & _ & Q1 & _), H' as (? & ? & _ & _ & Q2 & _). unfold btf__type_by_id in Q1, Q2. cbn [set_data nr_types types] in Q2. congruence. }
    assert (E2' : btf_vlen (bt_data (set_data b (image ts strs'))) p = Some (ty_vlen t)).
    { destruct H' as (pre & rest & -> & -> & _). unfold btf_vlen. by rewrite (field_info pre t rest Hok). }
    rewrite E2'. cbn [mbind option_bind]. assert (He' : holds_ty ts strs' (set_data b (image ts strs')) id p (Ty (ty_name t) (ty_info t) (ty_size t) (ty_rest t))) by (by destruct t).
    destruct (put_info _ _ _ _ _ _ _ _ _ (BTF_INFO_ENC BTF_KIND_STRUCT 0 (ty_vlen t)) He') as (b1 & -> & H1). cbn [mbind option_bind]. rewrite V1 in H1.
    destruct (to_members_ok ts strs' id p (ty_name t) names_ok ltac:(by rewrite Ht) (vars_of t) [] b1 _ _ V2 Hvars H1) as (b2 & E4 & H4).
    replace (Z.to_nat (ty_vlen t)) with (length (vars_of t)) by lia. exists b2, strs'. split; [done|]. split; [done|]. by apply holds_ty_parsed in H4. }
  destruct (negb hf && (ty_kind t =? BTF_KIND_FUNC_PROTO))%bool.
  { rewrite E2. cbn [mbind option_bind]. destruct (put_info _ _ _ _ _ _ _ _ _ (BTF_INFO_ENC BTF_KIND_ENUM 0 (ty_vlen t)) He) as (b1 & -> & H1). cbn [mbind option_bind].
    destruct (put_size _ _ _ _ _ _ _ _ _ 4 H1) as (b2 & -> & H2). exists b2, strs. split; [done|]. split; [apply dotless_refl|]. by apply holds_ty_parsed in H2. }
  destruct (negb hf && (ty_kind t =? BTF_KIND_FUNC))%bool.
  { destruct (put_info _ _ _ _ _ _ _ _ _ (BTF_INFO_ENC BTF_KIND_TYPEDEF 0 0) He) as (b1 & -> & H1). exists b1, strs. split; [done|]. split; [apply dotless_refl|].
    by apply holds_ty_parsed in H1. }
  exists b, strs. split; [done|]. split; [apply dotless_refl|]. by rewrite list_insert_id.
Qed.
End Type_.

(** ** All types *)

Definition so_far (hd hf : bool) (ts : list ty) (k : nat) : list ty := map (sanitized hd hf ts) (take k ts) ++ drop k ts.
Section Loop.
Context (hd hf : bool) (ts : list ty) (strs : list Z) (IO : image_ok ts strs) (HS : hd = false -> Forall (section_ok ts strs) ts).
Lemma all_ok : Forall ty_ok ts.
Proof using IO. apply IO. Qed.
Lemma so_far_lookup k i : (i < length ts)%nat -> exists t, ts !! i = Some t /\
  (so_far hd hf ts k !! i = Some (sanitized hd hf ts t) \/ (k <= i)%nat /\ so_far hd hf ts k !! i = Some t).
Proof.
  intros Hi. destruct (lookup_lt_is_Some_2 ts i Hi) as [t Ht]. exists t. split; [done|]. unfold so_far. destruct (decide (i < k)%nat) as [Hk|Hk].
  - left. rewrite lookup_app_l by (rewrite length_map, length_take; lia). change (map ?f ?l) with (f <$> l). by rewrite list_lookup_fmap, lookup_take_lt, Ht by done.
  - right. split; [lia|]. rewrite lookup_app_r by (rewrite length_map, length_take; lia). rewrite length_map, length_take, lookup_drop. rewrite <- Ht. f_equal. lia.
Qed.
Lemma so_far_len k : length (so_far hd hf ts k) = length ts.
Proof. unfold so_far. rewrite length_app, length_map, <- length_app, take_drop. done. Qed.
Lemma so_far_step k t : ts !! k = Some t -> <[k := sanitized hd hf ts t]> (so_far hd hf ts k) = so_far hd hf ts (S k).
Proof.
  intros Ht. pose proof (lookup_lt_Some _ _ _ Ht). unfold so_far. rewrite (drop_S ts t k Ht), (take_S_r ts k t Ht), map_app, <- (assoc_L (++)).
  rewrite insert_app_r_alt by (rewrite length_map, length_take; lia). by replace (k - length (map (sanitized hd hf ts) (take k ts)))%nat with 0%nat by (rewrite length_map, length_take; lia).
Qed.
Lemma so_far_names k id : name_of (so_far hd hf ts k) id = name_of ts id.
Proof using IO.
  unfold name_of. destruct (1 <=? id); [|done]. destruct (decide (Z.to_nat (id - 1) < length ts)%nat) as [Hi|Hi].
  - destruct (so_far_lookup k _ Hi) as (t & Ht & [->|[_ ->]]); rewrite Ht; [|done]. cbn. pose proof all_ok as HA. rewrite Forall_lookup in HA.
    by destruct (sanitized_ok hd hf ts t (HA _ _ Ht)) as (_ & -> & _).
  - by rewrite !lookup_ge_None_2 by (rewrite ?so_far_len; lia).
Qed.
Lemma so_far_image k strs' : Forall2 dotless strs strs' -> image_ok (so_far hd hf ts k) strs'.
Proof using IO.
  intros HF. pose proof all_ok as HA. pose proof (list.Forall2_length _ _ _ HF) as Hl.
  assert (Hall : Forall2 (fun t t' => ty_ok t' /\ ty_len t' = ty_len t) ts (so_far hd hf ts k)).
  { apply Forall2_same_length_lookup. split; [by rewrite so_far_len|]. intros i t t' Ht Ht'. destruct (so_far_lookup k i) as (u & Hu & Hc); [by eapply lookup_lt_Some|].
    assert (u = t) as -> by congruence. rewrite Forall_lookup in HA. specialize (HA _ _ Ht). destruct (sanitized_ok hd hf ts t HA) as (S1 & _ & S3 & _).
    destruct Hc as [Hc|[_ Hc]]; rewrite Hc in Ht'; injection Ht' as <-; [by split|done]. }
  assert (HE : lenZ (encode_types (so_far hd hf ts k)) = lenZ (encode_types ts)).
  { clear - Hall. induction Hall as [|t t' l l' [_ H] _ IH]; [done|]. unfold encode_types in *. cbn [map concat]. rewrite !length_app, !Nat2Z.inj_add, !encode_ty_len. lia. }
  split.
  - split; [clear - Hall; induction Hall as [|? ? ? ? [? _] _ IH]; [apply List.Forall_nil|by apply List.Forall_cons]|]. intros E. destruct IO as [[_ Hne] _ _].
    apply Hne. apply nil_length_inv. rewrite <- (so_far_len k), E. done.
  - destruct IO as [_ I2 _]. by eapply strings_dotless.
  - destruct IO as [_ _ I3]. rewrite image_len in I3 |- *. lia.
Qed.
Lemma sanitized_names k t : sanitized hd hf (so_far hd hf ts k) t = sanitized hd hf ts t.
Proof using IO.
  unfold sanitized. assert (E : map (member_bytes (so_far hd hf ts k)) (vars_of t) = map (member_bytes ts) (vars_of t)); [|by rewrite E].
  apply map_ext. intros [[ty off] sz]. cbn [member_bytes]. by rewrite so_far_names.
Qed.
Lemma sanitize_loop_ok : forall n k b strs1, length ts = (k + n)%nat -> Forall2 dotless strs strs1 -> parsed (so_far hd hf ts k) strs1 b ->
  exists b' strs', sanitize_loop hd hf b n (Z.of_nat k + 1) = Some b' /\ Forall2 dotless strs strs' /\ parsed (map (sanitized hd hf ts) ts) strs' b'.
Proof using IO HS.
  induction n as [|n IH]; intros k b strs1 Hk HF HP; cbn [sanitize_loop].
  { exists b, strs1. split; [done|]. split; [done|]. unfold so_far in HP. by rewrite firstn_all2, drop_ge, app_nil_r in HP by lia. }
  destruct (lookup_lt_is_Some_2 ts k) as [t Ht]; [lia|].
  assert (Hat : type_at (so_far hd hf ts k) (Z.of_nat k + 1) t).
  { split; [lia|]. replace (Z.to_nat (Z.of_nat k + 1 - 1)) with k by lia. unfold so_far.
    rewrite lookup_app_r by (rewrite length_map, length_take; lia). rewrite length_map, length_take, lookup_drop, <- Ht. f_equal. lia. }
  destruct (holds_ty_intro _ _ _ _ _ HP Hat) as (p & H). assert (Ety : btf__type_by_id b (Z.of_nat k + 1) = Some (Some (Some p))) by (by destruct H as (? & ? & _ & _ & ? & _)).
  rewrite Ety. cbn [mbind option_bind]. destruct (sanitize_type_ok hd hf (so_far hd hf ts k) strs1 b (so_far_image k strs1 HF) HP _ p t Hat H) as (b1 & strs2 & -> & HF2 & HP2).
  { intros Hhd Ek. specialize (HS Hhd). rewrite Forall_lookup in HS. destruct (HS _ _ Ht Ek) as [S1 S2]. rewrite <- (list.Forall2_length _ _ _ HF), so_far_len. done. }
  cbn [mbind option_bind]. replace (Z.to_nat (Z.of_nat k + 1 - 1)) with k in HP2 by lia. rewrite sanitized_names, so_far_step in HP2 by done.
  replace (Z.of_nat k + 1 + 1) with (Z.of_nat (S k) + 1) by lia. apply (IH (S k) b1 strs2); [lia|by eapply dotless_trans|done].
Qed.
End Loop.

(** ** The theorem *)

(** C36: Sanitizing keeps type information well formed.  Given the image of some types, in which
    data sections have names and their variables have types, [bpf_object__sanitize_btf] does not
    write outside the image and leaves the image of the same number of types with the same
    numbers, names and places: each is what [sanitized] says, a type the kernel knows; in the
    strings only dots have become underscores. *)
Theorem sanitize_keeps_types (o : bpf_object) (ts : list ty) (strs : list Z) (b : btf) (fd : Z) :
  let hd := cap_btf_datasec (o_caps o) in
  let hf := cap_btf_func (o_caps o) in
  o_btf o = Some (b, fd) -> image_ok ts strs -> parsed ts strs b -> (hd = false -> Forall (section_ok ts strs) ts) ->
  exists b' strs', bpf_object__sanitize_btf o = Some (with_btf o (Some (b', fd)) (o_btf_ext o)) /\
    let ts' := map (sanitized hd hf ts) ts in
    parsed ts' strs' b' /\ image_ok ts' strs' /\ Forall2 dotless strs strs' /\
    Forall2 (fun t t' => becomes hd hf t t') ts ts'.
Proof.
  intros hd hf Ho IO PB HS. unfold bpf_object__sanitize_btf. fold hd hf. rewrite Ho.
  assert (Hall : Forall2 (fun t t' => becomes hd hf t t') ts (map (sanitized hd hf ts) ts)).
  { destruct IO as [[HA _] _ _]. set (f := sanitized hd hf ts). assert (Hf : forall t, ty_ok t -> becomes hd hf t (f t)) by (intros; by apply sanitized_ok). clearbody f.
    clear - HA Hf. induction HA as [|t l Ht _ IH]; [done|]. cbn [map]. apply list.Forall2_cons. auto. }
  assert (Hso : so_far hd hf ts (length ts) = map (sanitized hd hf ts) ts) by (unfold so_far; by rewrite firstn_all, drop_all, app_nil_r).
  destruct (hf && hd)%bool eqn:Eb.
  - apply andb_true_iff in Eb as [Ehf Ehd]. exists b, strs. split; [by destruct o; cbn in *; subst|]. cbv zeta. rewrite Ehd, Ehf in *.
    assert (Hid : map (sanitized true true ts) ts = ts) by exact (map_id ts). rewrite Hid in *.
    split; [done|]. split; [done|]. split; [apply dotless_refl|done].
  - destruct (sanitize_loop_ok hd hf ts strs IO HS (length ts) 0 b strs eq_refl (dotless_refl strs) PB) as (b' & strs' & E & HF & HP).
    assert (Hnr : nr_types b = lenZ ts) by apply PB. rewrite Hnr, Nat2Z.id. change (Z.of_nat 0 + 1) with 1 in E. rewrite E. cbn [mbind option_bind].
    exists b', strs'. split; [done|]. cbv zeta. split; [done|]. split; [|by split]. rewrite <- Hso. by apply (so_far_image hd hf ts strs IO).
Qed.

(** The types the probe for data sections loads, in an object for a kernel without them. *)
Definition probe_btf : btf := Btf (image btf_datasec_ty btf_datasec_strs) (None :: map Some (offsets 24 btf_datasec_ty))
  (24 + lenZ (encode_types btf_datasec_ty)) 3 16 1 None None.
Definition old_object : bpf_object := with_btf (with_caps (new_object [] 0) (Caps true true true false)) (Some (probe_btf, -1)) None.
Lemma sanitize_keeps_types_witness : exists b', bpf_object__sanitize_btf old_object = Some (with_btf old_object (Some (b', -1)) None) /\
  (exists strs', parsed (map (sanitized false true btf_datasec_ty) btf_datasec_ty) strs' b' /\ Forall2 dotless btf_datasec_strs strs') /\
  map ty_kind (map (sanitized false true btf_datasec_ty) btf_datasec_ty) = [BTF_KIND_INT; BTF_KIND_INT; BTF_KIND_STRUCT] /\
  drop 80 (bt_data b') = [0; 120; 0; 95; 100; 97; 116; 97; 0].
Proof.
  destruct (sanitize_keeps_types old_object btf_datasec_ty btf_datasec_strs probe_btf (-1) eq_refl (proj2 (proj1 (proj2 probe_images_ok)))) as (b' & strs' & E & HP & _ & HF & _).
  - done.
  - intros _. repeat (apply List.Forall_cons; [intros Hk; vm_compute in Hk; try discriminate Hk|]); [|apply List.Forall_nil].
    split; [by vm_compute|]. vm_compute. repeat (apply List.Forall_cons; [done|]). apply List.Forall_nil.
  - exists b'. split; [exact E|]. split; [exists strs'; exact (conj HP HF)|]. split; [vm_compute; reflexivity|].
    vm_compute in E. injection E as <-. reflexivity.
Defined.
