(* ===== verification/CoreSpec.v ===== *)
(** * CO-RE field relocation, the types: libbpf/src/libbpf.c

    A program compiled against one kernel reads fields of another kernel's structures.  The
    relocation record names a field by an access string, [bpf_core_spec_parse] turns it into
    accessors (named fields and array indices), [bpf_core_spec_match] follows them in the
    type information of the running kernel, and [bpf_core_calc_field_relo] computes the
    value the instruction gets.  Reads are those of Btf.v: [None] is a fault.  An array with a
    length ([spec] and [len], [raw_spec] and [raw_len]) is a list of at most 64 elements.
    The theorems: on type information that is well formed nothing faults, and the field that
    is found in the target is reached by the same names and indices as in the local type, at
    the offset that the relation [reaches] defines. *)

From S2P Require Import Prelude Nlattr Netlink Os Params StatsUser BpfProg Btf BtfExt Object RedirectUser Pinning BpfSys Reloc Elf OpenMaps.
#[local] Open Scope Z_scope.

Definition BPF_CORE_SPEC_MAX_LEN : Z := 64.
(** [enum bpf_field_info_kind]. *)
Definition BPF_FIELD_BYTE_OFFSET : Z := 0.
Definition BPF_FIELD_BYTE_SIZE : Z := 1.
Definition BPF_FIELD_EXISTS : Z := 2.
Definition BPF_FIELD_SIGNED : Z := 3.
Definition BPF_FIELD_LSHIFT_U64 : Z := 4.
Definition BPF_FIELD_RSHIFT_U64 : Z := 5.
Definition BTF_INT_SIGNED : Z := 1.
Definition BPF_ALU : Z := 4.
Definition BPF_CLASS (code : Z) : Z := Z.land code 7.
Definition BPF_SRC (code : Z) : Z := Z.land code 8.

(** ** libbpf/src/btf.h *)

Section Types.
Context (b : btf).
Abbreviation buf := (bt_data b).
Definition btf_kflag (t : Z) : option bool := i ← info buf t; Some (negb (Z.shiftr i 31 =? 0)).
Definition composite (k : Z) : bool := is_kind k [BTF_KIND_STRUCT; BTF_KIND_UNION].
(** [struct btf_member] behind the type. *)
Definition member (t i : Z) : Z := t + sizeof_btf_type + 12 * i.
Definition member_name (t i : Z) : option Z := word_of buf (member t i).
Definition member_type (t i : Z) : option Z := word_of buf (member t i + 4).
Definition member_offset (t i : Z) : option Z := word_of buf (member t i + 8).
Definition btf_member_bit_offset (t i : Z) : option Z :=
  kflag ← btf_kflag t; o ← member_offset t i; Some (if (kflag : bool) then Z.land o 0xffffff else o).
Definition btf_member_bitfield_size (t i : Z) : option Z :=
  kflag ← btf_kflag t; if (kflag : bool) then o ← member_offset t i; Some (Z.shiftr o 24) else Some 0.
Definition int_data (t : Z) : option Z := word_of buf (t + sizeof_btf_type).
Definition btf_int_encoding (t : Z) : option Z := w ← int_data t; Some (Z.shiftr (Z.land w 0x0f000000) 24).
Definition btf_int_offset (t : Z) : option Z := w ← int_data t; Some (Z.shiftr (Z.land w 0x00ff0000) 16).
End Types.

(** ** Specifications *)

Record bpf_core_accessor := Acc { a_type_id : Z; a_idx : Z; a_name : option path }.
Record bpf_core_spec := Spec { sp_spec : list bpf_core_accessor; sp_raw : list Z; sp_bit_offset : Z }.
Definition no_spec : bpf_core_spec := Spec [] [] 0.
(** [spec->spec[spec->len++]] and its undoing; behind the end of the array is a fault. *)
Definition push_acc (sp : bpf_core_spec) (a : bpf_core_accessor) : option bpf_core_spec :=
  if lenZ (sp_spec sp) <? BPF_CORE_SPEC_MAX_LEN then Some (Spec (sp_spec sp ++ [a]) (sp_raw sp) (sp_bit_offset sp)) else None.
Definition pop_acc (sp : bpf_core_spec) : bpf_core_spec := Spec (removelast (sp_spec sp)) (sp_raw sp) (sp_bit_offset sp).
Definition push_raw (sp : bpf_core_spec) (i : Z) : bpf_core_spec := Spec (sp_spec sp) (sp_raw sp ++ [i]) (sp_bit_offset sp).
Definition pop_raw (sp : bpf_core_spec) : bpf_core_spec := Spec (sp_spec sp) (removelast (sp_raw sp)) (sp_bit_offset sp).
Definition add_offset (sp : bpf_core_spec) (o : Z) : bpf_core_spec := Spec (sp_spec sp) (sp_raw sp) (u32 (sp_bit_offset sp + o)).

(** The conversion %d: saturated at 64 bits and cut to 32. *)
Definition scan_d (s : list Z) : bool + Z * list Z :=
  match drop_spaces s with
  | [] => inl true
  | c :: s' =>
      let neg := c =? 45 in
      match (if neg || (c =? 43) then s' else c :: s') with
      | c :: t => if is_digit c then
                    let '(v, rest) := dec_digits 0 (c :: t) in
                    inr (s32 (if neg then Z.max (- v) (- 9223372036854775808) else Z.min v 9223372036854775807), rest)
                  else inl false
      | [] => inl false
      end
  end.
(** The loop over the access string; every turn reads at least a digit.  [inl] is the error. *)
Fixpoint parse_raw (fuel : nat) (s raw : list Z) : option (Z + list Z) :=
  match s with
  | [] => Some (inr raw)
  | c :: s' =>
      match fuel with
      | O => None
      | S fuel =>
          match scan_d (if c =? 58 then s' else s) with
          | inl _ => Some (inl (- EINVAL))
          | inr (access_idx, rest) =>
              if lenZ raw =? BPF_CORE_SPEC_MAX_LEN then Some (inl (- E2BIG)) else parse_raw fuel rest (raw ++ [access_idx])
          end
      end
  end.
(** The loop over the raw accessors behind the first. *)
Fixpoint parse_accessors (b : btf) (raw : list Z) (id : Z) (sp : bpf_core_spec) : option (Z + bpf_core_spec) :=
  match raw with
  | [] => Some (inr sp)
  | access_idx :: raw =>
      '(t, id) ← skip_mods_and_typedefs b id;
      match t with
      | None => Some (inl (- EINVAL))
      | Some t =>
          kind ← kind_at b (Some t);
          if composite kind then
            t ← t;
            vlen ← btf_vlen (bt_data b) t;
            if access_idx >=? vlen then Some (inl (- EINVAL))
            else
              bit_offset ← btf_member_bit_offset b t (u32 access_idx);
              let sp := add_offset sp bit_offset in
              name_off ← member_name b t access_idx;
              if negb (name_off =? 0) then
                name ← c_name b name_off;
                match name with
                | None | Some [] => Some (inl (- EINVAL))
                | Some name =>
                    sp ← push_acc sp (Acc id (u32 access_idx) (Some name));
                    ty ← member_type b t access_idx; parse_accessors b raw ty sp
                end
              else ty ← member_type b t access_idx; parse_accessors b raw ty sp
          else if kind =? BTF_KIND_ARRAY then
            t ← t;
            elem ← array_type (bt_data b) t;
            '(et, id) ← skip_mods_and_typedefs b elem;
            nelems ← array_nelems (bt_data b) t;
            if (match et with None => true | Some _ => false end) || (u32 access_idx >=? nelems) then Some (inl (- EINVAL))
            else
              sp ← push_acc sp (Acc id (u32 access_idx) None);
              sz ← btf__resolve_size b id;
              if sz <? 0 then Some (inl sz) else parse_accessors b raw id (add_offset sp (access_idx * sz * 8))
          else Some (inl (- EINVAL))
      end
  end.
Definition bpf_core_spec_parse (b : btf) (type_id : Z) (spec_str : path) : option (Z + bpf_core_spec) :=
  match spec_str with
  | [] => Some (inl (- EINVAL))
  | c :: _ =>
      if c =? 58 then Some (inl (- EINVAL))
      else
        raw ← parse_raw (length spec_str) spec_str [];
        match raw with
        | inl err => Some (inl err)
        | inr [] => Some (inl (- EINVAL))
        | inr (access_idx :: raw) =>
            '(t, id) ← skip_mods_and_typedefs b type_id;
            match t with
            | None => Some (inl (- EINVAL))
            | Some _ =>
                sp ← push_acc no_spec (Acc id (u32 access_idx) None);
                sz ← btf__resolve_size b id;
                if sz <? 0 then Some (inl sz)
                else parse_accessors b raw id (Spec (sp_spec sp) (access_idx :: raw) (u32 (access_idx * sz * 8)))
            end
        end
  end.

(** ** Names *)

(** At the head of a name. *)
Definition bpf_core_is_flavor_sep (s : list Z) : bool :=
  match s with
  | x :: a :: b :: c :: y :: _ => negb (x =? 95) && (a =? 95) && (b =? 95) && (c =? 95) && negb (y =? 95)
  | _ => false
  end.
(** The loop from [i] down. *)
Fixpoint flavor_loop (name : path) (n : nat) : option Z :=
  match n with
  | O => None
  | S i => if bpf_core_is_flavor_sep (drop i name) then Some (Z.of_nat i + 1) else flavor_loop name i
  end.
Definition bpf_core_essential_name_len (name : path) : Z := default (lenZ name) (flavor_loop name (length name - 4)).
(** [strncmp] of two strings that are at least [n] long. *)
Definition same_prefix (n : Z) (a b : path) : bool := bool_decide (take (Z.to_nat n) a = take (Z.to_nat n) b).

(** ** Matching *)

Section Match.
Context (local_btf targ_btf : btf).
(** A string that is read at once: NULL is a fault. *)
Definition name_at_type (b : btf) (t : option Z) : option path :=
  off ← name_off_at b (Some t); n ← c_name b off; n.
(** The loop through arrays has no limit of its own. *)
Fixpoint compat_loop (fuel : nat) (local_id targ_id : Z) : option Z :=
  match fuel with
  | O => None
  | S fuel =>
      '(local_type, _) ← skip_mods_and_typedefs local_btf local_id;
      '(targ_type, _) ← skip_mods_and_typedefs targ_btf targ_id;
      match local_type, targ_type with
      | Some lt, Some gt =>
          lk ← kind_at local_btf (Some lt);
          tk ← kind_at targ_btf (Some gt);
          if composite lk && composite tk then Some 1
          else if negb (lk =? tk) then Some 0
          else if lk =? BTF_KIND_PTR then Some 1
          else if is_kind lk [BTF_KIND_FWD; BTF_KIND_ENUM] then
            local_name ← name_at_type local_btf lt;
            targ_name ← name_at_type targ_btf gt;
            let local_len := bpf_core_essential_name_len local_name in
            let targ_len := bpf_core_essential_name_len targ_name in
            Some (if (local_len =? 0) || (targ_len =? 0) || ((local_len =? targ_len) && same_prefix local_len local_name targ_name) then 1 else 0)
          else if lk =? BTF_KIND_INT then
            lt ← lt; gt ← gt;
            lo ← btf_int_offset local_btf lt;
            if negb (lo =? 0) then Some 0
            else tof ← btf_int_offset targ_btf gt; Some (if tof =? 0 then 1 else 0)
          else if lk =? BTF_KIND_ARRAY then
            lt ← lt; gt ← gt;
            le ← array_type (bt_data local_btf) lt;
            te ← array_type (bt_data targ_btf) gt;
            compat_loop fuel le te
          else Some 0
      | _, _ => Some (- EINVAL)
      end
  end.
Definition bpf_core_fields_are_compat (local_id targ_id : Z) : option Z := compat_loop (S (Z.to_nat (nr_types local_btf))) local_id targ_id.

(** The loop over the members of the type [t] with the id [targ_id], [n] of them from [i].
    [rec] is the recursive call; the results are the return value, the specification and
    [*next_targ_id].  [local_t] is the local type, [local_name] the name of its member. *)
Fixpoint member_loop (rec : Z -> bpf_core_spec -> Z -> option (Z * bpf_core_spec * Z)) (local_t local_idx : Z) (local_name : option path)
    (t targ_id : Z) (n : nat) (i : Z) (sp : bpf_core_spec) (next : Z) : option (Z * bpf_core_spec * Z) :=
  match n with
  | O => Some (0, sp, next)
  | S n =>
      bit_offset ← btf_member_bit_offset targ_btf t i;
      if lenZ (sp_raw sp) =? BPF_CORE_SPEC_MAX_LEN then Some (- E2BIG, sp, next)
      else
        let sp := push_raw (add_offset sp bit_offset) i in
        let turned_out_not sp next :=
          member_loop rec local_t local_idx local_name t targ_id n (i + 1) (pop_raw (add_offset sp (- bit_offset))) next in
        name_off ← member_name targ_btf t i;
        targ_name ← c_name targ_btf name_off;
        match targ_name with
        | None | Some [] =>
            ty ← member_type targ_btf t i;
            '(found, sp, next) ← rec ty sp next;
            if negb (found =? 0) then Some (found, sp, next) else turned_out_not sp next
        | Some targ_name =>
            local_name ← local_name;
            if bool_decide (local_name = targ_name) then
              sp ← push_acc sp (Acc targ_id i (Some targ_name));
              ty ← member_type targ_btf t i;
              local_ty ← member_type local_btf local_t local_idx;
              found ← bpf_core_fields_are_compat local_ty ty;
              Some (found, if found =? 0 then pop_acc sp else sp, ty)
            else turned_out_not sp next
        end
  end.
(** Every level of the recursion adds to [raw_spec], which has 64 elements. *)
Fixpoint bpf_core_match_member (depth : nat) (local_acc : bpf_core_accessor) (targ_id : Z) (sp : bpf_core_spec) (next : Z) :
    option (Z * bpf_core_spec * Z) :=
  match depth with
  | O => None
  | S depth =>
      '(targ_type, targ_id) ← skip_mods_and_typedefs targ_btf targ_id;
      match targ_type with
      | None => Some (- EINVAL, sp, next)
      | Some targ_type =>
          kind ← kind_at targ_btf (Some targ_type);
          if negb (composite kind) then Some (0, sp, next)
          else
            t ← targ_type;
            local_type ← btf__type_by_id local_btf (a_type_id local_acc);
            local_t ← match local_type with Some (Some t) => Some t | _ => None end;
            name_off ← member_name local_btf local_t (a_idx local_acc);
            local_name ← c_name local_btf name_off;
            n ← btf_vlen (bt_data targ_btf) t;
            member_loop (bpf_core_match_member depth local_acc) local_t (a_idx local_acc) local_name t targ_id (Z.to_nat n) 0 sp next
      end
  end.
Definition MATCH_DEPTH : nat := 65.
(** An index: the type of the element, or what is returned. *)
Definition match_index (i : nat) (acc : bpf_core_accessor) (targ_type : option Z) (targ_id : Z) : option (Z + Z) :=
  if (0 <? i)%nat then
    kind ← kind_at targ_btf (Some targ_type);
    if negb (kind =? BTF_KIND_ARRAY) then Some (inl 0)
    else
      t ← targ_type;
      nelems ← array_nelems (bt_data targ_btf) t;
      if a_idx acc >=? nelems then Some (inl 0)
      else
        elem ← array_type (bt_data targ_btf) t;
        '(et, id) ← skip_mods_and_typedefs targ_btf elem;
        Some (match et with None => inl (- EINVAL) | Some _ => inr id end)
  else Some (inr targ_id).
(** The loop over the local accessors, the next of which is the [i]-th. *)
Fixpoint match_loop (accs : list bpf_core_accessor) (i : nat) (targ_id : Z) (sp : bpf_core_spec) : option (Z * bpf_core_spec) :=
  match accs with
  | [] => Some (1, sp)
  | acc :: accs =>
      '(targ_type, targ_id) ← skip_mods_and_typedefs targ_btf targ_id;
      match targ_type with
      | None => Some (- EINVAL, sp)
      | Some targ_type =>
          match a_name acc with
          | Some _ =>
              '(matched, sp, targ_id) ← bpf_core_match_member MATCH_DEPTH acc targ_id sp targ_id;
              if matched <=? 0 then Some (matched, sp) else match_loop accs (S i) targ_id sp
          | None =>
              r ← match_index i acc targ_type targ_id;
              match r with
              | inl code => Some (code, sp)
              | inr targ_id =>
                  if lenZ (sp_raw sp) =? BPF_CORE_SPEC_MAX_LEN then Some (- E2BIG, sp)
                  else if negb (Nat.eqb (length (sp_spec sp)) i) then None (** [targ_acc] is the element behind the last *)
                  else
                    sp ← push_acc sp (Acc targ_id (a_idx acc) None);
                    let sp := push_raw sp (s32 (a_idx acc)) in
                    sz ← btf__resolve_size targ_btf targ_id;
                    let sz := s32 sz in
                    if sz <? 0 then Some (sz, sp) else match_loop accs (S i) targ_id (add_offset sp (a_idx acc * sz * 8))
              end
          end
      end
  end.
Definition bpf_core_spec_match (local_spec : bpf_core_spec) (targ_id : Z) : option (Z * bpf_core_spec) :=
  match_loop (sp_spec local_spec) 0 targ_id no_spec.
End Match.

(** ** The value *)

Record bpf_field_reloc := Field_reloc { fr_insn_off : Z; fr_type_id : Z; fr_access_str_off : Z; fr_kind : Z }.
(** The loop that widens the load of a bitfield, [inl] when eight bytes are not enough; the
    results are the size and the offset in bytes. *)
Fixpoint widen (fuel : nat) (bit_off bit_sz byte_sz : Z) : option (Z + Z * Z) :=
  if byte_sz =? 0 then None
  else
    let byte_off := u32 (bit_off / 8 / byte_sz * byte_sz) in
    if u32 (bit_off + bit_sz - byte_off * 8) >? u32 (byte_sz * 8) then
      match fuel with
      | O => None
      | S fuel => if byte_sz >=? 8 then Some (inl (- E2BIG)) else widen fuel bit_off bit_sz (u32 (byte_sz * 2))
      end
    else Some (inr (byte_sz, byte_off)).
(** The last step, by kind; [mt] is the type of the field. *)
Definition field_value (b : btf) (kind : Z) (mt : option Z) (bitfield : bool) (bit_off bit_sz byte_sz byte_off : Z) : option (Z + Z * bool) :=
  let validate := negb bitfield in
  if kind =? BPF_FIELD_BYTE_OFFSET then Some (inr (byte_off, validate))
  else if kind =? BPF_FIELD_BYTE_SIZE then Some (inr (byte_sz, validate))
  else if kind =? BPF_FIELD_SIGNED then
    k ← kind_at b (Some mt);
    if k =? BTF_KIND_ENUM then Some (inr (1, true))
    else t ← mt; e ← btf_int_encoding b t; Some (inr (if negb (Z.land e BTF_INT_SIGNED =? 0) then 1 else 0, true))
  else if kind =? BPF_FIELD_LSHIFT_U64 then Some (inr (u32 (64 - (bit_off + bit_sz - byte_off * 8)), validate))
  else if kind =? BPF_FIELD_RSHIFT_U64 then Some (inr (u32 (64 - bit_sz), true))
  else Some (inl (- EINVAL)).
(** [inl] the error, or the value and whether the instruction is to be compared with it. *)
Definition bpf_core_calc_field_relo (b : btf) (kind : Z) (sp : bpf_core_spec) : option (Z + Z * bool) :=
  acc ← (list.last (sp_spec sp) : option bpf_core_accessor);
  match a_name acc with
  | None =>
      if kind =? BPF_FIELD_BYTE_OFFSET then Some (inr (sp_bit_offset sp / 8, true))
      else if kind =? BPF_FIELD_BYTE_SIZE then
        sz ← btf__resolve_size b (a_type_id acc);
        Some (if sz <? 0 then inl (- EINVAL) else inr (u32 sz, true))
      else Some (inl (- EINVAL))
  | Some _ =>
      t ← btf__type_by_id b (a_type_id acc);
      t ← match t with Some (Some t) => Some t | _ => None end;
      m_type ← member_type b t (a_idx acc);
      '(mt, _) ← skip_mods_and_typedefs b m_type;
      let bit_off := sp_bit_offset sp in
      bit_sz ← btf_member_bitfield_size b t (a_idx acc);
      if bit_sz >? 0 then
        size ← type_field_at b mt;
        mt ← mt;
        r ← widen 4 bit_off bit_sz size;
        match r with
        | inl err => Some (inl err)
        | inr (byte_sz, byte_off) => field_value b kind mt true bit_off bit_sz byte_sz byte_off
        end
      else
        sz ← btf__resolve_size b m_type;
        if sz <? 0 then Some (inl (- EINVAL))
        else
          mt ← mt;
          let byte_sz := u32 sz in
          field_value b kind mt false bit_off (u32 (byte_sz * 8)) byte_sz (bit_off / 8)
  end.
(** [targ_spec] is [None] when nothing matched.  The result and the instructions. *)
Definition bpf_core_reloc_insn (local_btf targ_btf : btf) (insns : list bpf_insn) (relo : bpf_field_reloc) (local_spec : bpf_core_spec)
    (targ_spec : option bpf_core_spec) : option (Z * list bpf_insn) :=
  if negb (fr_insn_off relo mod 8 =? 0) then Some (- EINVAL, insns)
  else
    let insn_idx := fr_insn_off relo / 8 in
    (** [failed], [validate], [orig_val] and [new_val] *)
    v ← (if fr_kind relo =? BPF_FIELD_EXISTS then Some (inr (false, true, 1, match targ_spec with Some _ => 1 | None => 0 end))
         else match targ_spec with
              | None => Some (inr (true, true, 0, UINT32_MAX))
              | Some targ_spec =>
                  o ← bpf_core_calc_field_relo local_btf (fr_kind relo) local_spec;
                  match o with
                  | inl err => Some (inl err)
                  | inr (orig_val, validate) =>
                      n ← bpf_core_calc_field_relo targ_btf (fr_kind relo) targ_spec;
                      match n with inl err => Some (inl err) | inr (new_val, _) => Some (inr (false, validate, orig_val, new_val)) end
                  end
              end);
    match v with
    | inl err => Some (err, insns)
    | inr (failed, validate, orig_val, new_val) =>
        insn ← insns !! Z.to_nat insn_idx;
        let class := BPF_CLASS (code insn) in
        if (class =? BPF_ALU) || (class =? BPF_ALU64) then
          if negb (BPF_SRC (code insn) =? BPF_K) then Some (- EINVAL, insns)
          else if negb failed && validate && negb (u32 (imm insn) =? orig_val) then Some (- EINVAL, insns)
          else Some (0, setZ insns insn_idx (with_imm insn (s32 new_val)))
        else Some (- EINVAL, insns)
    end.

(** ** What type information promises *)

Section Wf.
Context (b : btf).
Abbreviation buf := (bt_data b).
Definition in_range (id : Z) : Prop := 0 <= id <= nr_types b.
(** The offset in bits of the member [i]: 24 bits of its word when the topmost bit of the type's
    information says that the others are the size of a bitfield, else all of it. *)
Definition bits_before (t i o : Z) : Prop := exists inf w, info buf t = Some inf /\ member_offset b t i = Some w /\
  o = if inf / 2 ^ 31 =? 0 then w else w mod 2 ^ 24.
Lemma bit_offset_means t i o : btf_member_bit_offset b t i = Some o <-> bits_before t i o.
Proof using.
  unfold bits_before, btf_member_bit_offset, btf_kflag. destruct (info buf t) as [inf|]; cbn [mbind option_bind]; [|split; [done|by intros (? & ? & ? & _)]].
  rewrite (Z.shiftr_div_pow2 inf 31) by lia. destruct (member_offset b t i) as [w|]; cbn [mbind option_bind]; [|split; [done|by intros (? & ? & _ & ? & _)]].
  pose proof (Z.land_ones w 24 ltac:(lia)) as HL. change (Z.ones 24) with 0xffffff in HL. rewrite HL. destruct (inf / 2 ^ 31 =? 0) eqn:E; cbn [negb]; split.
  - intros [= <-]. exists inf, w. by rewrite E.
  - intros (? & ? & [= <-] & [= <-] & ->). by rewrite E.
  - intros [= <-]. exists inf, w. by rewrite E.
  - intros (? & ? & [= <-] & [= <-] & ->). by rewrite E.
Qed.
(** A member [i] of the type [id], which is the composite type [h] behind typedefs. *)
Definition member_at (id h i : Z) (name : path) (ty o : Z) : Prop := exists t k v nm,
  skip_mods_and_typedefs b id = Some (Some (Some t), h) /\ btf_kind buf t = Some k /\ composite k = true /\ btf_vlen buf t = Some v /\ 0 <= i < v /\
  member_name b t i = Some nm /\ c_name b nm = Some (Some name) /\ member_type b t i = Some ty /\ bits_before t i o.
(** The type [id] is an array of [n] elements of the type [e], [sz] bytes each. *)
Definition elements (id n e sz : Z) : Prop := exists t h ty et,
  skip_mods_and_typedefs b id = Some (Some (Some t), h) /\ btf_kind buf t = Some BTF_KIND_ARRAY /\ array_nelems buf t = Some n /\
  array_type buf t = Some ty /\ skip_mods_and_typedefs b ty = Some (Some et, e) /\ btf__resolve_size b e = Some sz /\ 0 <= sz.

(** A field by its name, through members without a name: the indices on the way, its offset in
    bits, the type that has it, its index there and its type. *)
Inductive field_in (name : path) : Z -> list Z -> Z -> Z -> Z -> Z -> Prop :=
  | field_here id h i ty o : member_at id h i name ty o -> field_in name id [i] o h i ty
  | field_below id h0 j ty0 o0 js o h i ty : member_at id h0 j [] ty0 o0 -> field_in name ty0 js o h i ty -> field_in name id (j :: js) (o0 + o) h i ty.
(** Members without a name, each inside the one before. *)
Inductive nested : Z -> nat -> Prop :=
  | nested_none id : nested id 0
  | nested_more id h j ty o m : member_at id h j [] ty o -> nested ty m -> nested id (S m).
(** A search for [name] in [id] that starts with [r] raw accessors may need more than there is
    room for: through members without a name, or, because the steps to a field of the name
    whose type does not fit stay, through them behind such a field. *)
Definition too_deep (name : path) (id r : Z) : Prop := exists m, nested id m /\
  (BPF_CORE_SPEC_MAX_LEN <= r + Z.of_nat m \/ exists js o h i ty, field_in name id js o h i ty /\ BPF_CORE_SPEC_MAX_LEN <= r + Z.of_nat m + lenZ js).
(** As in C, a name is there only once. *)
Definition unique_fields : Prop := forall name id js o h i ty js' o' h' i' ty', name <> [] ->
  field_in name id js o h i ty -> field_in name id js' o' h' i' ty' -> js = js'.

(** A step of an access, and what a list of steps leads to: the offset in bits, and the type. *)
Inductive step := Field (name : path) | Index (i : Z).
Inductive reaches : Z -> list step -> Z -> Z -> Prop :=
  | reaches_end id : reaches id [] 0 id
  | reaches_inside id h i ty o l off fin : member_at id h i [] ty o -> reaches ty l off fin -> reaches id l (o + off) fin
  | reaches_field id h i name ty o l off fin : name <> [] -> member_at id h i name ty o -> reaches ty l off fin -> reaches id (Field name :: l) (o + off) fin
  | reaches_index id n e sz i l off fin : elements id n e sz -> 0 <= i < n -> reaches e l off fin -> reaches id (Index i :: l) (i * sz * 8 + off) fin.
(** From a pointer to the type: the element first. *)
Definition locates (id i : Z) (l : list step) (off fin : Z) : Prop := exists t h sz off',
  skip_mods_and_typedefs b id = Some (Some t, h) /\ btf__resolve_size b h = Some sz /\ 0 <= sz /\ reaches h l off' fin /\ off = i * sz * 8 + off'.

(** A field is not void, and a bitfield lies in a type with a size. *)
Definition field_type (t i ty : Z) : Prop := forall mt h, skip_mods_and_typedefs b ty = Some (Some mt, h) -> mt <> None /\
  forall n sz, btf_member_bitfield_size b t i = Some n -> 0 < n -> type_field_at b (Some mt) = Some sz -> 0 < sz < 2147483648.
(** The record of a type: its fields can be read, its names are strings, its types exist, and
    [rank] decreases through typedefs, qualifiers and arrays. *)
Record type_wf (rank : Z -> nat) (id t : Z) : Prop := {
  tw_fields : exists k v nm sz w s, btf_kind buf t = Some k /\ btf_vlen buf t = Some v /\ name_off buf t = Some nm /\ size_or_type buf t = Some sz /\
    0 <= v /\ 0 <= sz /\ int_data b t = Some w /\ c_name b nm = Some (Some s);
  tw_mod k sz : btf_kind buf t = Some k -> is_mod_or_typedef k = true -> size_or_type buf t = Some sz -> in_range sz /\ (rank sz < rank id)%nat;
  tw_array : btf_kind buf t = Some BTF_KIND_ARRAY -> exists e n, array_type buf t = Some e /\ array_nelems buf t = Some n /\ in_range e /\ (rank e < rank id)%nat;
  tw_members k v i : btf_kind buf t = Some k -> composite k = true -> btf_vlen buf t = Some v -> 0 <= i < v -> exists nm ty o s,
    member_name b t i = Some nm /\ member_type b t i = Some ty /\ member_offset b t i = Some o /\ in_range ty /\ c_name b nm = Some (Some s) /\
    field_type t i ty
}.
Record btf_wf (rank : Z -> nat) : Prop := {
  bw_lookup id : 0 <= id -> exists t, btf__type_by_id b id = Some t;
  bw_there id : in_range id -> exists t, btf__type_by_id b id = Some (Some t);
  bw_type id t : 0 <= id -> btf__type_by_id b id = Some (Some (Some t)) -> in_range id /\ type_wf rank id t;
  bw_count : 0 <= nr_types b;
  bw_rank id : (rank id <= Z.to_nat (nr_types b))%nat;
  bw_empty : c_name b 0 = Some (Some [])
}.
End Wf.

Section Lookups.
Context (b : btf) (rank : Z -> nat) (W : btf_wf b rank).
Abbreviation buf := (bt_data b).
Lemma type_parts id t : 0 <= id -> btf__type_by_id b id = Some (Some (Some t)) -> exists k v nm sz w s, btf_kind buf t = Some k /\
  btf_vlen buf t = Some v /\ name_off buf t = Some nm /\ size_or_type buf t = Some sz /\ 0 <= v /\ 0 <= sz /\ int_data b t = Some w /\ c_name b nm = Some (Some s).
Proof using W. intros Hi Ht. apply (tw_fields _ _ _ _ (proj2 (bw_type _ _ W id t Hi Ht))). Qed.
(** A type as [skip_mods_and_typedefs] returns it. *)
Definition plain (t : option Z) (id : Z) : Prop := in_range b id /\ btf__type_by_id b id = Some (Some t) /\
  exists k, kind_at b (Some t) = Some k /\ is_mod_or_typedef k = false.
Lemma skip_mods_ok : forall fuel id t, in_range b id -> btf__type_by_id b id = Some (Some t) -> (rank id < fuel)%nat ->
  exists t' h, skip_mods b fuel (Some t) id = Some (Some t', h) /\ plain t' h /\ (rank h <= rank id)%nat.
Proof using W.
  induction fuel as [|fuel IH]; intros id t Hi Ht Hf; [lia|]. cbn [skip_mods]. destruct t as [t|].
  - destruct (type_parts id t ltac:(apply Hi) Ht) as (k & v & nm & sz & w & s & Ek & _ & _ & Es & _). cbn [kind_at type_field_at]. rewrite Ek. cbn [mbind option_bind].
    destruct (is_mod_or_typedef k) eqn:Em; [|exists (Some t), id; split; [done|]; split; [|done]; split; [done|]; split; [done|by exists k]].
    rewrite Es. cbn [mbind option_bind]. destruct (tw_mod _ _ _ _ (proj2 (bw_type _ _ W id t ltac:(apply Hi) Ht)) k sz Ek Em Es) as [Hr Hrk].
    destruct (bw_there _ _ W sz Hr) as [t' Ht']. rewrite Ht'. cbn [mbind option_bind]. destruct (IH sz t' Hr Ht' ltac:(lia)) as (t2 & h & E & Hp & Hh).
    exists t2, h. split; [done|]. split; [done|lia].
  - cbn [kind_at mbind option_bind]. exists None, id. split; [done|]. split; [|done]. split; [done|]. split; [done|by exists 0].
Qed.
Lemma skip_ok id : in_range b id -> exists t h, skip_mods_and_typedefs b id = Some (Some t, h) /\ plain t h /\ (rank h <= rank id)%nat.
Proof using W.
  intros Hi. unfold skip_mods_and_typedefs. destruct (bw_there _ _ W id Hi) as [t Ht]. rewrite Ht. cbn [mbind option_bind].
  apply skip_mods_ok; [done|done|]. pose proof (bw_rank _ _ W id). lia.
Qed.
Lemma skip_plain t h : plain t h -> skip_mods_and_typedefs b h = Some (Some t, h).
Proof using.
  intros (Hi & Ht & k & Hk & Hm). unfold skip_mods_and_typedefs. rewrite Ht. cbn [mbind option_bind skip_mods]. rewrite Hk. cbn [mbind option_bind]. by rewrite Hm.
Qed.
Lemma plain_fields t h : plain (Some t) h -> exists k v nm sz w s, btf_kind buf t = Some k /\ btf_vlen buf t = Some v /\ name_off buf t = Some nm /\
  size_or_type buf t = Some sz /\ 0 <= v /\ 0 <= sz /\ int_data b t = Some w /\ c_name b nm = Some (Some s) /\ type_wf b rank h t.
Proof using W.
  intros (Hi & Ht & _). destruct (type_parts h t ltac:(apply Hi) Ht) as (k & v & nm & sz & w & s & H). exists k, v, nm, sz, w, s.
  destruct H as (H1 & H2 & H3 & H4 & H5 & H6 & H7 & H8). repeat (split; [assumption|]). apply (bw_type _ _ W h t ltac:(apply Hi) Ht).
Qed.
Lemma kind_plain t h : plain t h -> exists k, kind_at b (Some t) = Some k.
Proof using. intros (_ & _ & k & Hk & _). by exists k. Qed.
(** A size is always an answer. *)
Lemma resolve_total : forall n id nelems, 0 <= id -> exists r, (t ← btf__type_by_id b id; resolve_size_loop b n t nelems) = Some r.
Proof using W.
  induction n as [|n IH]; intros id nelems Hid; destruct (bw_lookup _ _ W id Hid) as [t Ht]; rewrite Ht; cbn [mbind option_bind resolve_size_loop]; [by eexists|].
  destruct t as [[t|]|]; cbn [btf_type_is_void_or_null mbind option_bind]; [|by eexists..].
  destruct (type_parts id t Hid Ht) as (k & v & nm & sz & w & s & Ek & _ & _ & Es & _ & Hsz & _). rewrite Ek. cbn [mbind option_bind].
  destruct (k =? BTF_KIND_FWD); [by eexists|]. destruct (is_kind k _); [rewrite Es; by eexists|]. destruct (k =? BTF_KIND_PTR); [by eexists|].
  destruct (is_kind k _); [rewrite Es; cbn [mbind option_bind]; by apply IH|]. destruct (Z.eqb_spec k BTF_KIND_ARRAY) as [->|]; [|by eexists].
  destruct (tw_array _ _ _ _ (proj2 (bw_type _ _ W id t Hid Ht)) Ek) as (e & an & Ee & En & [Hr _] & _). rewrite En, Ee. cbn [mbind option_bind].
  destruct (_ && _)%bool; [by eexists|]. by apply IH.
Qed.
Lemma resolve_size_ok id : in_range b id -> exists r, btf__resolve_size b id = Some r.
Proof using W. intros [Hi _]. by apply resolve_total. Qed.
Lemma bit_offset_ok t k v i : forall h, plain (Some t) h -> btf_kind buf t = Some k -> composite k = true -> btf_vlen buf t = Some v -> 0 <= i < v ->
  exists nm ty o s, member_name b t i = Some nm /\ member_type b t i = Some ty /\ btf_member_bit_offset b t i = Some o /\ in_range b ty /\ c_name b nm = Some (Some s).
Proof using W.
  intros h Hp Ek Hc Ev Hi. destruct (plain_fields t h Hp) as (k' & v' & nm' & sz & w & s' & _ & _ & _ & _ & _ & _ & _ & _ & HT).
  destruct (tw_members _ _ _ _ HT k v i Ek Hc Ev Hi) as (nm & ty & o & s & E1 & E2 & E3 & Hr & E4 & _).
  assert (exists f, btf_kflag b t = Some f) as [f Ef]. { unfold btf_kflag, btf_kind in *. destruct (info buf t); [|done]. by eexists. }
  exists nm, ty, (if f then Z.land o 0xffffff else o), s. unfold btf_member_bit_offset. rewrite Ef, E3. done.
Qed.
Lemma bitfield_ok t k v i : forall h, plain (Some t) h -> btf_kind buf t = Some k -> composite k = true -> btf_vlen buf t = Some v -> 0 <= i < v ->
  exists n, btf_member_bitfield_size b t i = Some n.
Proof using W.
  intros h Hp Ek Hc Ev Hi. destruct (bit_offset_ok t k v i h Hp Ek Hc Ev Hi) as (nm & ty & o & s & _ & _ & E & _). unfold btf_member_bit_offset, btf_member_bitfield_size in *.
  destruct (btf_kflag b t) as [[]|]; [|by eexists|done]. cbn [mbind option_bind] in *. destruct (member_offset b t i); [|done]. by eexists.
Qed.
End Lookups.

(** ** Parsing *)

Definition step_of (a : bpf_core_accessor) : step := match a_name a with Some n => Field n | None => Index (a_idx a) end.
Definition acc_ok (b : btf) (a : bpf_core_accessor) : Prop :=
  in_range b (a_type_id a) /\ is_u32 (a_idx a) /\
  match a_name a with
  | Some n => n <> [] /\ exists ty o, member_at b (a_type_id a) (a_type_id a) (a_idx a) n ty o /\ in_range b ty
  | None => True
  end.
(** What an access string may hold: the numbers behind the first are not negative. *)
Definition access_ok (s : path) : Prop := forall raw, parse_raw (length s) s [] = Some (inr raw) -> Forall (fun i => 0 <= i) (tail raw).
Definition int_range (i : Z) : Prop := -2147483648 <= i < 2147483648.
Lemma drop_spaces_len s : (length (drop_spaces s) <= length s)%nat.
Proof. induction s as [|c s IH]; cbn [drop_spaces]; [done|]. destruct (is_space c); cbn [length] in *; lia. Qed.
Lemma dec_digits_len : forall s acc, (length (dec_digits acc s).2 <= length s)%nat.
Proof. induction s as [|c s IH]; intros acc; cbn [dec_digits]; [done|]. destruct (is_digit c); cbn [snd length]; [|done]. specialize (IH (acc * 10 + (c - 48))). lia. Qed.
Lemma scan_d_ok s v rest : scan_d s = inr (v, rest) -> (length rest < length s)%nat /\ int_range v.
Proof.
  unfold scan_d. pose proof (drop_spaces_len s) as Hs. destruct (drop_spaces s) as [|c s']; [done|]. cbn [length] in Hs.
  assert (Hl : (length (if ((c =? 45) || (c =? 43))%Z then s' else c :: s') <= length s)%nat) by (destruct (_ || _); cbn [length]; lia).
  destruct (if (c =? 45) || (c =? 43) then s' else c :: s') as [|d t]; [done|]. cbn [length] in Hl. destruct (is_digit d) eqn:Ed; [|done]. cbn [dec_digits]. rewrite Ed.
  pose proof (dec_digits_len t (0 * 10 + (d - 48))) as Ht. destruct (dec_digits _ t) as [w r]. cbn [snd] in Ht. intros [= <- <-].
  split; [lia|]. unfold int_range. int_solve.
Qed.
Lemma parse_raw_ok : forall fuel s raw, (length s <= fuel)%nat -> Forall int_range raw -> lenZ raw <= 64 ->
  exists r, parse_raw fuel s raw = Some r /\ match r with inl e => e < 0 | inr l => Forall int_range l /\ lenZ l <= 64 end.
Proof.
  induction fuel as [|fuel IH]; intros [|c s] raw Hf Hr Hl; cbn [parse_raw]; [by eexists|cbn in Hf; lia|by eexists|]. cbn [length] in Hf.
  destruct (scan_d (if c =? 58 then s else c :: s)) as [e|[v rest]] eqn:E; [by eexists|]. destruct (scan_d_ok _ _ _ E) as [Hlt Hv].
  unfold BPF_CORE_SPEC_MAX_LEN. destruct (Z.eqb_spec (lenZ raw) 64); [by eexists|]. apply IH.
  - destruct (c =? 58); cbn [length] in Hlt; lia.
  - apply Forall_app. by split; [|constructor].
  - rewrite length_app. cbn [length]. lia.
Qed.
Lemma add_nothing sp : is_u32 (sp_bit_offset sp) -> sp = Spec (sp_spec sp ++ []) (sp_raw sp) (u32 (sp_bit_offset sp + 0)).
Proof. intros H. rewrite app_nil_r, Z.add_0_r, u32_small by done. by destruct sp. Qed.
Lemma push_acc_ok sp a : lenZ (sp_spec sp) < 64 -> push_acc sp a = Some (Spec (sp_spec sp ++ [a]) (sp_raw sp) (sp_bit_offset sp)).
Proof. intros H. unfold push_acc, BPF_CORE_SPEC_MAX_LEN. by rewrite (proj2 (Z.ltb_lt _ _) H). Qed.

Section Parse.
Context (b : btf) (rank : Z -> nat) (W : btf_wf b rank).
(** The specification [sp] extended by accessors that lead on from [id]. *)
Definition extended (id : Z) (sp : bpf_core_spec) (sp' : bpf_core_spec) : Prop := exists accs off fin,
  sp' = Spec (sp_spec sp ++ accs) (sp_raw sp) (u32 (sp_bit_offset sp + off)) /\ Forall (acc_ok b) accs /\ reaches b id (map step_of accs) off fin.
Lemma extended_self id sp : is_u32 (sp_bit_offset sp) -> extended id sp sp.
Proof using. intros H. exists [], 0, id. split; [by apply add_nothing|]. split; [done|constructor]. Qed.
Lemma extended_step id ty sp sp' o accs : extended ty (Spec (sp_spec sp ++ accs) (sp_raw sp) (u32 (sp_bit_offset sp + o))) sp' -> Forall (acc_ok b) accs ->
  (forall l off fin, reaches b ty l off fin -> reaches b id (map step_of accs ++ l) (o + off) fin) -> extended id sp sp'.
Proof using.
  intros (accs' & off & fin & -> & Ha & Hr) Hacc Hstep. exists (accs ++ accs'), (o + off), fin. cbn [sp_spec sp_raw sp_bit_offset].
  split; [|split; [by apply Forall_app|rewrite map_app; by apply Hstep]]. rewrite <- app_assoc. f_equal. rewrite u32_add. f_equal. lia.
Qed.
Lemma plain_member id t h k v i nm name ty o : skip_mods_and_typedefs b id = Some (Some (Some t), h) -> plain b (Some t) h -> btf_kind (bt_data b) t = Some k ->
  composite k = true -> btf_vlen (bt_data b) t = Some v -> 0 <= i < v -> member_name b t i = Some nm -> c_name b nm = Some (Some name) ->
  member_type b t i = Some ty -> btf_member_bit_offset b t i = Some o -> member_at b id h i name ty o /\ member_at b h h i name ty o.
Proof using.
  intros E Hp H1 H2 H3 H4 H5 H6 H7 H8%bit_offset_means. split; exists t, k, v, nm; (split; [|by repeat (split; [done|])]); [exact E|by apply skip_plain].
Qed.
Lemma parse_accessors_ok : forall raw id sp, in_range b id -> Forall (fun i => 0 <= i) raw -> Forall int_range raw -> lenZ (sp_spec sp) + lenZ raw <= 64 ->
  is_u32 (sp_bit_offset sp) -> exists r, parse_accessors b raw id sp = Some r /\ match r with inl e => e < 0 | inr sp' => extended id sp sp' /\ lenZ (sp_spec sp') <= 64 end.
Proof using W.
  induction raw as [|i raw IH]; intros id sp Hid H0 Hint Hlen Hoff; cbn [parse_accessors]; [exists (inr sp); split; [done|]; split; [by apply extended_self|cbn in Hlen; lia]|].
  apply Forall_cons_1 in H0 as [Hi H0], Hint as [Hir Hint]. cbn [length] in Hlen. unfold int_range in Hir.
  assert (Hu : u32 i = i) by int_solve. rewrite Hu.
  destruct (skip_ok b rank W id Hid) as (t & h & E & Hp & _). rewrite E. cbn [mbind option_bind]. destruct (kind_plain b t h Hp) as [k Ek]. rewrite Ek. cbn [mbind option_bind].
  destruct (composite k) eqn:Hc; [|destruct (Z.eqb_spec k BTF_KIND_ARRAY) as [->|]; [|by eexists]].
  - destruct t as [t|]; [|by injection Ek as <-]. cbn [mbind option_bind]. cbn [kind_at] in Ek.
    destruct (plain_fields b rank W t h Hp) as (k' & v & _ & _ & _ & _ & _ & Ev & _). rewrite Ev. cbn [mbind option_bind]. rewrite Z.geb_leb.
    destruct (Z.leb_spec v i); [by eexists|]. destruct (bit_offset_ok b rank W t k v i h Hp Ek Hc Ev ltac:(lia)) as (nm & ty & o & s & E1 & E2 & E3 & Hty & E4).
    rewrite E3, E1, E2. cbn [mbind option_bind]. destruct (plain_member id t h k v i nm s ty o E Hp Ek Hc Ev ltac:(lia) E1 E4 E2 E3) as [M1 M2].
    destruct (Z.eqb_spec nm 0) as [->|Hn]; cbn [negb].
    + rewrite (bw_empty _ _ W) in E4. injection E4 as <-. destruct (IH ty (add_offset sp o) Hty H0 Hint) as (r & Er & HP); [cbn; lia|apply u32_range|].
      exists r. split; [done|]. destruct r as [e|sp']; [done|]. destruct HP as [HP Hle]. split; [|done]. eapply (extended_step id ty sp sp' o []); [by rewrite app_nil_r|done|]. intros. by eapply reaches_inside.
    + rewrite E4. cbn [mbind option_bind]. destruct s as [|c s]; [by eexists|]. rewrite push_acc_ok by (cbn; lia). cbn [mbind option_bind].
      destruct (IH ty (Spec (sp_spec sp ++ [Acc h i (Some (c :: s))]) (sp_raw sp) (u32 (sp_bit_offset sp + o))) Hty H0 Hint) as (r & Er & HP).
      { cbn [sp_spec]. rewrite length_app. cbn [length]. lia. } { apply u32_range. }
      exists r. split; [done|]. destruct r as [e|sp']; [done|]. destruct HP as [HP Hle]. split; [|done]. eapply extended_step; [exact HP| |].
      * constructor; [|done]. split; [apply Hp|]. split; [cbn; int_solve|]. split; [done|]. by exists ty, o.
      * intros. by eapply reaches_field.
  - destruct t as [t|]; [|done]. cbn [mbind option_bind]. cbn [kind_at] in Ek.
    destruct (plain_fields b rank W t h Hp) as (k' & v & _ & _ & _ & _ & _ & _ & _ & _ & _ & _ & _ & _ & HT). destruct (tw_array _ _ _ _ HT Ek) as (e & n & Ee & En & He & _).
    rewrite Ee. cbn [mbind option_bind]. destruct (skip_ok b rank W e He) as (et & eh & E' & Hp' & _). rewrite E', En. cbn [mbind option_bind orb]. rewrite Z.geb_leb.
    destruct (Z.leb_spec n i); [by eexists|]. rewrite push_acc_ok by lia. cbn [mbind option_bind]. destruct (resolve_size_ok b rank W eh ltac:(apply Hp')) as [sz Es]. rewrite Es. cbn [mbind option_bind].
    destruct (Z.ltb_spec sz 0); [by eexists|].
    destruct (IH eh (Spec (sp_spec sp ++ [Acc eh i None]) (sp_raw sp) (u32 (sp_bit_offset sp + i * sz * 8))) ltac:(apply Hp') H0 Hint) as (r & Er & HP).
    { cbn [sp_spec]. rewrite length_app. cbn [length]. lia. } { apply u32_range. }
    exists r. split; [done|]. destruct r as [er|sp']; [done|]. destruct HP as [HP Hle]. split; [|done]. eapply extended_step; [exact HP| |].
    + constructor; [|done]. split; [apply Hp'|]. split; [cbn; int_solve|done].
    + intros. eapply (reaches_index b id n eh sz); [|lia|done]. exists t, h, e, et. by repeat (split; [done|]).
Qed.
(** A specification of the type [id]: an element and a path from it. *)
Definition specifies (id : Z) (sp : bpf_core_spec) : Prop := exists a0 accs off fin,
  sp_spec sp = a0 :: accs /\ a_name a0 = None /\ Forall (acc_ok b) (a0 :: accs) /\ locates b id (a_idx a0) (map step_of accs) off fin /\
  sp_bit_offset sp = u32 off /\ lenZ (sp_spec sp) <= 64 /\ exists t, skip_mods_and_typedefs b id = Some (Some t, a_type_id a0).
Lemma spec_parse_ok id s : in_range b id -> access_ok s ->
  exists r, bpf_core_spec_parse b id s = Some r /\ match r with inl e => e < 0 | inr sp => specifies id sp end.
Proof using W.
  intros Hid Hs. unfold bpf_core_spec_parse. destruct s as [|c s]; [by eexists|]. destruct (c =? 58); [by eexists|].
  destruct (parse_raw_ok (length (c :: s)) (c :: s) []) as (r & Er & HR); [done|done|done|]. rewrite Er. cbn [mbind option_bind]. destruct r as [e|[|i raw]]; [by eexists|by eexists|].
  specialize (Hs _ Er). cbn [tail] in Hs. destruct HR as [HR Hl]. apply Forall_cons_1 in HR as [Hi HR]. cbn [length] in Hl.
  destruct (skip_ok b rank W id Hid) as (t & h & E & Hp & _). rewrite E. cbn [mbind option_bind]. unfold push_acc. cbn [sp_spec no_spec length Z.of_nat Z.ltb Z.compare BPF_CORE_SPEC_MAX_LEN mbind option_bind app].
  destruct (resolve_size_ok b rank W h ltac:(apply Hp)) as [sz Es]. rewrite Es. cbn [mbind option_bind]. destruct (Z.ltb_spec sz 0); [by eexists|].
  destruct (parse_accessors_ok raw h (Spec [Acc h (u32 i) None] (i :: raw) (u32 (i * sz * 8))) ltac:(apply Hp) Hs HR) as (r & E2 & HP); [cbn; lia|apply u32_range|].
  exists r. split; [done|]. destruct r as [e|sp]; [done|]. destruct HP as [(accs & off & fin & -> & Ha & Hr) Hle]. cbn [sp_spec sp_raw sp_bit_offset app] in *.
  exists (Acc h (u32 i) None), accs, (u32 i * sz * 8 + off), fin. split; [done|]. split; [done|]. split; [|split; [|split]].
  - constructor; [|done]. split; [apply Hp|]. split; [apply u32_range|done].
  - exists t, h, sz, off. by repeat (split; [done|]).
  - cbn [sp_bit_offset]. rewrite u32_add. unfold u32. rewrite (Zplus_mod (i * sz * 8)), (Zplus_mod (i mod 4294967296 * sz * 8)). do 2 f_equal.
    rewrite <- !Z.mul_assoc. by rewrite Zmult_mod_idemp_l.
  - split; [done|by exists t].
Qed.
End Parse.

(** ** Compatible types *)

(** A name with a flavor: the essential name, three underscores, and the flavor. *)
Definition flavored (name e : path) : Prop := exists e' x y f, e = e' ++ [x] /\ x <> 95 /\ y <> 95 /\ name = e ++ [95; 95; 95] ++ y :: f.
(** The essential name is what is before the last flavor, or the name itself. *)
Definition essential (name e : path) : Prop :=
  flavored name e /\ (forall e', flavored name e' -> (length e' <= length e)%nat) \/ e = name /\ forall e', ~ flavored name e'.
Lemma sep_ok s : bpf_core_is_flavor_sep s = true <-> exists x y f, x <> 95 /\ y <> 95 /\ s = x :: 95 :: 95 :: 95 :: y :: f.
Proof.
  split.
  - destruct s as [|x [|a [|b [|c [|y f]]]]]; cbn; try done. intros H. exists x, y, f. apply andb_prop in H as [H H5]. apply andb_prop in H as [H H4]. apply andb_prop in H as [H H3]. apply andb_prop in H as [H1 H2].
    apply negb_true_iff in H1, H5. apply Z.eqb_neq in H1, H5. apply Z.eqb_eq in H2, H3, H4. by subst.
  - intros (x & y & f & Hx & Hy & ->). cbn. by rewrite (proj2 (Z.eqb_neq _ _) Hx), (proj2 (Z.eqb_neq _ _) Hy).
Qed.
Lemma flavored_at name i : bpf_core_is_flavor_sep (drop i name) = true -> flavored name (take (S i) name) /\ (length (take (S i) name) = S i)%nat /\ (i < length name - 4)%nat.
Proof.
  intros (x & y & f & Hx & Hy & E)%sep_ok. assert (Hl : length (drop i name) = (5 + length f)%nat) by by rewrite E. rewrite length_drop in Hl.
  assert (Et : take (S i) name = take i name ++ [x]).
  { rewrite <- (take_drop i name) at 1. rewrite E, take_app_ge by (rewrite length_take; lia). f_equal. rewrite length_take. by replace (S i - i `min` length name)%nat with 1%nat by lia. }
  split; [|rewrite length_take; lia]. exists (take i name), x, y, f. split; [done|]. split; [done|]. split; [done|]. rewrite Et, <- app_assoc. rewrite <- (take_drop i name) at 1. by rewrite E.
Qed.
Lemma flavored_from name e : flavored name e -> exists i, length e = S i /\ bpf_core_is_flavor_sep (drop i name) = true /\ e = take (S i) name.
Proof.
  intros (e' & x & y & f & -> & Hx & Hy & ->). exists (length e'). split; [rewrite length_app; cbn [length]; lia|]. split.
  - apply sep_ok. exists x, y, f. split; [done|]. split; [done|]. by rewrite <- app_assoc, drop_app_length.
  - rewrite take_app_length' by (rewrite length_app; cbn [length]; lia). done.
Qed.
Lemma flavor_loop_ok name : forall n, match flavor_loop name n with
  | Some k => exists i, k = Z.of_nat i + 1 /\ bpf_core_is_flavor_sep (drop i name) = true /\ forall j, (i < j < n)%nat -> bpf_core_is_flavor_sep (drop j name) = false
  | None => forall j, (j < n)%nat -> bpf_core_is_flavor_sep (drop j name) = false
  end.
Proof.
  induction n as [|n IH]; cbn [flavor_loop]; [lia|]. destruct (bpf_core_is_flavor_sep (drop n name)) eqn:E; [exists n; split; [done|]; split; [done|]; lia|].
  destruct (flavor_loop name n) as [k|].
  - destruct IH as (i & -> & Hi & HN). exists i. split; [done|]. split; [done|]. intros j Hj. destruct (decide (j = n)) as [->|]; [done|]. apply HN. lia.
  - intros j Hj. destruct (decide (j = n)) as [->|]; [done|]. apply IH. lia.
Qed.
(** The function computes the length of the essential name. *)
Lemma essential_len name : essential name (take (Z.to_nat (bpf_core_essential_name_len name)) name).
Proof.
  unfold bpf_core_essential_name_len. pose proof (flavor_loop_ok name (length name - 4)) as H. destruct (flavor_loop name (length name - 4)) as [k|]; cbn [from_option]; unfold id.
  - destruct H as (i & -> & Hi & HN). replace (Z.to_nat (Z.of_nat i + 1)) with (S i) by lia. destruct (flavored_at name i Hi) as (HF & Hl & _). left. split; [done|].
    intros e' (j & Hj & Es & _)%flavored_from. destruct (flavored_at name j Es) as (_ & _ & Hlt). rewrite Hj, Hl. destruct (decide (i < j)%nat); [|lia]. rewrite HN in Es by lia. done.
  - rewrite Nat2Z.id, take_ge by done. right. split; [done|]. intros e' (j & _ & Es & _)%flavored_from. destruct (flavored_at name j Es) as (_ & _ & Hlt). by rewrite H in Es.
Qed.
Lemma essential_det name e e' : essential name e -> essential name e' -> e = e'.
Proof.
  intros [[F M]|[-> N]] [[F' M']|[-> N']]; [|by destruct (N' e)|by destruct (N e')|done]. specialize (M _ F'). specialize (M' _ F).
  destruct (flavored_from _ _ F) as (i & Hi & _ & ->), (flavored_from _ _ F') as (i' & Hi' & _ & ->). f_equal. lia.
Qed.
Lemma essential_bound name : 0 <= bpf_core_essential_name_len name <= lenZ name.
Proof.
  unfold bpf_core_essential_name_len. pose proof (flavor_loop_ok name (length name - 4)) as H. destruct (flavor_loop name (length name - 4)) as [k|]; cbn [from_option]; unfold id; [|lia].
  destruct H as (i & -> & Hi & _). destruct (flavored_at name i Hi) as (_ & _ & ?). lia.
Qed.
Lemma same_essential a b : bpf_core_essential_name_len a = bpf_core_essential_name_len b /\ same_prefix (bpf_core_essential_name_len a) a b = true <-> exists e, essential a e /\ essential b e.
Proof.
  pose proof (essential_len a) as Ha. pose proof (essential_len b) as Hb. unfold same_prefix. rewrite bool_decide_eq_true. split.
  - intros [El Ep]. rewrite <- El in Hb. rewrite <- Ep in Hb. by eexists.
  - intros (e & Ea & Eb). pose proof (essential_det _ _ _ Ha Ea) as E1. pose proof (essential_det _ _ _ Hb Eb) as E2. pose proof (essential_bound a). pose proof (essential_bound b).
    assert (El : bpf_core_essential_name_len a = bpf_core_essential_name_len b).
    { apply (f_equal length) in E1, E2. rewrite length_take in E1, E2. lia. }
    split; [done|]. rewrite E1, <- E2. by rewrite El.
Qed.
Lemma essential_nil name : bpf_core_essential_name_len name = 0 <-> name = [].
Proof.
  unfold bpf_core_essential_name_len. pose proof (flavor_loop_ok name (length name - 4)) as H. destruct (flavor_loop name (length name - 4)) as [k|]; cbn [from_option]; unfold id.
  - destruct H as (i & -> & Hi & _). destruct (flavored_at name i Hi) as (_ & _ & ?). split; [lia|]. intros ->. cbn in *. lia.
  - split; [|by intros ->]. destruct name; [done|]. cbn [length]. lia.
Qed.
(** Names that may stand for each other. *)
Definition names_agree (a b : path) : Prop := a = [] \/ b = [] \/ exists e, essential a e /\ essential b e.
Lemma names_agree_ok a b : let la := bpf_core_essential_name_len a in let lb := bpf_core_essential_name_len b in
  (la =? 0) || (lb =? 0) || ((la =? lb) && same_prefix la a b) = true <-> names_agree a b.
Proof. cbv zeta. rewrite !orb_true_iff, andb_true_iff, !Z.eqb_eq, !essential_nil, same_essential. unfold names_agree. tauto. Qed.

(** The record of the type that [id] is behind typedefs and qualifiers, and its kind. *)
Definition type_of (b : btf) (id t k : Z) : Prop := exists h, skip_mods_and_typedefs b id = Some (Some (Some t), h) /\ btf_kind (bt_data b) t = Some k.
(** Which types of the kernel may stand for a local one: a structure or a union for a structure
    or a union, a pointer for a pointer, a forward declaration or an enumeration for one that
    has the same essential name or where one of the names is empty, an integer for an integer
    when neither starts inside its bytes, and an array for an array if the elements may. *)
Inductive compatible (local targ : btf) : Z -> Z -> Prop :=
  | compat_composites lid tid t k t' k' : type_of local lid t k -> type_of targ tid t' k' -> k = BTF_KIND_STRUCT \/ k = BTF_KIND_UNION -> k' = BTF_KIND_STRUCT \/ k' = BTF_KIND_UNION ->
      compatible local targ lid tid
  | compat_pointers lid tid t t' : type_of local lid t BTF_KIND_PTR -> type_of targ tid t' BTF_KIND_PTR -> compatible local targ lid tid
  | compat_names lid tid t t' k n n' : type_of local lid t k -> type_of targ tid t' k -> k = BTF_KIND_FWD \/ k = BTF_KIND_ENUM ->
      name_at_type local (Some t) = Some n -> name_at_type targ (Some t') = Some n' -> names_agree n n' -> compatible local targ lid tid
  | compat_ints lid tid t t' w w' : type_of local lid t BTF_KIND_INT -> type_of targ tid t' BTF_KIND_INT -> int_data local t = Some w -> int_data targ t' = Some w' ->
      w / 65536 mod 256 = 0 -> w' / 65536 mod 256 = 0 -> compatible local targ lid tid
  | compat_arrays lid tid t t' e e' : type_of local lid t BTF_KIND_ARRAY -> type_of targ tid t' BTF_KIND_ARRAY -> array_type (bt_data local) t = Some e ->
      array_type (bt_data targ) t' = Some e' -> compatible local targ e e' -> compatible local targ lid tid.
Lemma type_of_det b id t k t' k' h : skip_mods_and_typedefs b id = Some (Some t, h) -> kind_at b (Some t) = Some k -> type_of b id t' k' -> t = Some t' /\ k' = k.
Proof. intros E K (h' & E' & K'). rewrite E in E'. injection E' as -> _. cbn [kind_at] in K. split; [done|congruence]. Qed.
Lemma composite_kinds k : composite k = true <-> k = BTF_KIND_STRUCT \/ k = BTF_KIND_UNION.
Proof. unfold composite, is_kind. cbn [existsb]. rewrite !orb_true_iff, !Z.eqb_eq. intuition done. Qed.
Lemma name_kinds k : is_kind k [BTF_KIND_FWD; BTF_KIND_ENUM] = true <-> k = BTF_KIND_FWD \/ k = BTF_KIND_ENUM.
Proof. unfold is_kind. cbn [existsb]. rewrite !orb_true_iff, !Z.eqb_eq. intuition done. Qed.
Lemma int_offset_zero b t w o : int_data b t = Some w -> btf_int_offset b t = Some o -> (o =? 0) = true <-> w / 65536 mod 256 = 0.
Proof.
  unfold btf_int_offset. intros ->. cbn [mbind option_bind]. intros [= <-]. rewrite Z.eqb_eq, Z.shiftr_land. change (Z.shiftr 0xff0000 16) with (Z.ones 8). rewrite Z.land_ones by lia.
  by rewrite Z.shiftr_div_pow2 by lia.
Qed.
Lemma or_cut {A B : Prop} : A \/ B -> ~ A -> B.
Proof. tauto. Qed.
(** What two types of known kinds must have. *)
Lemma compatible_inv local targ lid tid t h k t' h' k' : skip_mods_and_typedefs local lid = Some (Some t, h) -> kind_at local (Some t) = Some k ->
  skip_mods_and_typedefs targ tid = Some (Some t', h') -> kind_at targ (Some t') = Some k' -> compatible local targ lid tid ->
  composite k = true /\ composite k' = true \/ k = k' /\ exists x x', t = Some x /\ t' = Some x' /\
    (k = BTF_KIND_PTR \/ is_kind k [BTF_KIND_FWD; BTF_KIND_ENUM] = true /\ (exists n n', name_at_type local t = Some n /\ name_at_type targ t' = Some n' /\ names_agree n n') \/
     k = BTF_KIND_INT /\ (exists w w', int_data local x = Some w /\ int_data targ x' = Some w' /\ w / 65536 mod 256 = 0 /\ w' / 65536 mod 256 = 0) \/
     k = BTF_KIND_ARRAY /\ exists e e', array_type (bt_data local) x = Some e /\ array_type (bt_data targ) x' = Some e' /\ compatible local targ e e').
Proof.
  intros E K E' K' HC. destruct HC as [? ? x kx x' kx' T T' Hk Hk'|? ? x x' T T'|? ? x x' kx n n' T T' Hk N N' HA|? ? x x' w w' T T' W W' HW HW'|? ? x x' e e' T T' A A' HC];
    destruct (type_of_det _ _ _ _ _ _ _ E K T) as [-> Ek], (type_of_det _ _ _ _ _ _ _ E' K' T') as [-> Ek'].
  - left. subst. by rewrite !composite_kinds.
  - right. split; [congruence|]. exists x, x'. split; [done|]. split; [done|]. by left.
  - right. split; [congruence|]. exists x, x'. split; [done|]. split; [done|]. right. left. subst. split; [by apply name_kinds|by exists n, n'].
  - right. split; [congruence|]. exists x, x'. split; [done|]. split; [done|]. right. right. left. split; [done|by exists w, w'].
  - right. split; [congruence|]. exists x, x'. split; [done|]. split; [done|]. right. right. right. split; [done|by exists e, e'].
Qed.

(** ** Matching *)

Lemma member_at_det b id h i name ty o h' name' ty' o' : member_at b id h i name ty o -> member_at b id h' i name' ty' o' ->
  h = h' /\ name = name' /\ ty = ty' /\ o = o'.
Proof.
  intros (t & k & v & nm & E & _ & _ & _ & _ & E1 & E2 & E3 & E4) (t' & k' & v' & nm' & E' & _ & _ & _ & _ & E1' & E2' & E3' & E4').
  rewrite E in E'. injection E' as <- <-. rewrite E1 in E1'. injection E1' as <-. apply bit_offset_means in E4, E4'. split; [done|]. split; [congruence|]. split; congruence.
Qed.
Lemma field_in_det b name id js o h i ty : name <> [] -> field_in b name id js o h i ty -> forall o' h' i' ty', field_in b name id js o' h' i' ty' ->
  o = o' /\ h = h' /\ i = i' /\ ty = ty'.
Proof.
  intros Hn. induction 1 as [id h i ty o M|id h0 j ty0 o0 js o h i ty M F IH]; intros o' h' i' ty' F'.
  - inversion F' as [? ? ? ? ? M'|? ? ? ? ? ? ? ? ? ? M' F2]; subst; [destruct (member_at_det _ _ _ _ _ _ _ _ _ _ _ M M') as (? & ? & ? & ?); subst; done|inversion F2].
  - inversion F' as [? ? ? ? ? M'|? ? ? ? ? ? ? ? ? ? M' F2]; subst; [inversion F|]. destruct (member_at_det _ _ _ _ _ _ _ _ _ _ _ M M') as (_ & _ & <- & <-).
    destruct (IH _ _ _ _ F2) as (<- & <- & <- & <-). done.
Qed.
(** Where a field can start. *)
Lemma field_in_start b name id j js o h i ty : field_in b name id (j :: js) o h i ty -> exists h' n ty' o', member_at b id h' j n ty' o' /\
  (n = name /\ ty = ty' \/ n = [] /\ exists o2, field_in b name ty' js o2 h i ty).
Proof. intros F. inversion F as [? ? ? ? ? M|? ? ? ? ? ? ? ? ? ? M F2]; subst; eexists _, _, _, _; (split; [exact M|]); [by left|right; eauto]. Qed.
Lemma field_in_nonempty b name id js o h i ty : field_in b name id js o h i ty -> exists j js', js = j :: js'.
Proof. destruct 1; eauto. Qed.

Section MatchRules.
Context (local targ : btf) (rl rt : Z -> nat) (WL : btf_wf local rl) (WT : btf_wf targ rt).
Lemma name_at_type_ok b rank (W : btf_wf b rank) t h : plain b (Some t) h -> exists s, name_at_type b (Some t) = Some s.
Proof using.
  intros Hp. destruct (plain_fields b rank W t h Hp) as (k & v & nm & sz & w & s & _ & _ & En & _ & _ & _ & _ & Ec & _). exists s.
  unfold name_at_type. cbn [name_off_at]. rewrite En. cbn [mbind option_bind]. by rewrite Ec.
Qed.
(** The code decides compatibility. *)
Definition decides (lid tid r : Z) : Prop := r = 0 /\ ~ compatible local targ lid tid \/ r = 1 /\ compatible local targ lid tid.
Lemma decides_if lid tid (c : bool) : (c = true <-> compatible local targ lid tid) -> decides lid tid (if c then 1 else 0).
Proof using. intros H. destruct c; [right; split; [done|by apply H]|left; split; [done|]]. by intros ?%H. Qed.
Lemma int_offset_ok b rank (W : btf_wf b rank) t h : plain b (Some t) h -> exists w o, int_data b t = Some w /\ btf_int_offset b t = Some o.
Proof using.
  intros Hp. destruct (plain_fields b rank W t h Hp) as (? & ? & ? & ? & w & ? & _ & _ & _ & _ & _ & _ & Ew & _). unfold btf_int_offset. rewrite Ew. by eexists _, _.
Qed.
Lemma compat_loop_ok : forall fuel lid tid, in_range local lid -> in_range targ tid -> (rl lid < fuel)%nat ->
  exists r, compat_loop local targ fuel lid tid = Some r /\ decides lid tid r.
Proof using WL WT.
  induction fuel as [|fuel IH]; intros lid tid Hl Ht Hf; [lia|]. cbn [compat_loop].
  destruct (skip_ok local rl WL lid Hl) as (lt & lh & E1 & P1 & R1). destruct (skip_ok targ rt WT tid Ht) as (gt & th & E2 & P2 & _). rewrite E1, E2. cbn [mbind option_bind].
  destruct (kind_plain _ _ _ P1) as [lk K1]. destruct (kind_plain _ _ _ P2) as [tk K2]. rewrite K1, K2. cbn [mbind option_bind].
  pose proof (compatible_inv local targ lid tid lt lh lk gt th tk E1 K1 E2 K2) as Hinv.
  assert (Hvoid : forall b k, kind_at b (Some None) = Some k -> k = 0) by (by intros b k [= <-]).
  assert (Hno : ~ compatible local targ lid tid -> exists r, Some 0 = Some r /\ decides lid tid r) by (intros N; exists 0; split; [done|by left]).
  assert (T1 : forall x, lt = Some x -> type_of local lid x lk) by (intros x ->; by exists lh). assert (T2 : forall x, gt = Some x -> type_of targ tid x tk) by (intros x ->; by exists th).
  destruct (composite lk && composite tk) eqn:Ec.
  { apply andb_prop in Ec as [C1 C2]. exists 1. split; [done|]. right. split; [done|]. destruct lt as [lt|]; [|by rewrite (Hvoid _ _ K1) in C1]. destruct gt as [gt|]; [|by rewrite (Hvoid _ _ K2) in C2].
    eapply compat_composites; [by apply T1|by apply T2|by apply composite_kinds..]. }
  destruct (Z.eqb_spec lk tk) as [->|Hne]; cbn [negb]; [|apply Hno; intros [[C1 C2]|[? _]]%Hinv; [by rewrite C1, C2 in Ec|done]].
  assert (HN : ~ (composite tk = true /\ composite tk = true)) by (intros [C1 C2]; by rewrite C1 in Ec). pose proof (fun HC => proj2 (or_cut (Hinv HC) HN)) as Hinv'.
  clear Hinv. rename Hinv' into Hinv. destruct (Z.eqb_spec tk BTF_KIND_PTR) as [->|Hptr].
  { exists 1. split; [done|]. right. split; [done|]. destruct lt as [lt|]; [|done]. destruct gt as [gt|]; [|done]. by eapply compat_pointers; [apply T1|apply T2]. }
  destruct (is_kind tk _) eqn:Ek.
  { destruct lt as [lt|]; [|by rewrite (Hvoid _ _ K1) in Ek]. destruct gt as [gt|]; [|by rewrite (Hvoid _ _ K2) in Ek].
    destruct (name_at_type_ok local rl WL lt lh P1) as [s1 N1]. destruct (name_at_type_ok targ rt WT gt th P2) as [s2 N2]. rewrite N1, N2. cbn [mbind option_bind].
    eexists. split; [done|]. apply decides_if. rewrite (names_agree_ok s1 s2). split.
    - intros HA. eapply compat_names; [by apply T1|by apply T2|by apply name_kinds|exact N1|exact N2|done].
    - intros HC. destruct (Hinv HC) as (x & x' & [= <-] & [= <-] & [?|[(_ & n & n' & M1 & M2 & HA)|[[-> _]|[-> _]]]]); [done| |done|done].
      rewrite N1 in M1. rewrite N2 in M2. injection M1 as <-. by injection M2 as <-. }
  destruct (Z.eqb_spec tk BTF_KIND_INT) as [->|Hint].
  { destruct lt as [lt|]; [|done]. destruct gt as [gt|]; [|done]. cbn [mbind option_bind].
    destruct (int_offset_ok local rl WL lt lh P1) as (w1 & o1 & W1 & O1), (int_offset_ok targ rt WT gt th P2) as (w2 & o2 & W2 & O2). rewrite O1, O2. cbn [mbind option_bind].
    exists (if (o1 =? 0) && (o2 =? 0) then 1 else 0). split; [by destruct (o1 =? 0)|]. apply decides_if. rewrite andb_true_iff, (int_offset_zero _ _ _ _ W1 O1), (int_offset_zero _ _ _ _ W2 O2). split.
    - intros [Z1 Z2]. by eapply compat_ints; [apply T1|apply T2|..].
    - intros HC. destruct (Hinv HC) as (x & x' & [= <-] & [= <-] & [?|[[? _]|[(_ & w & w' & M1 & M2 & HA)|[? _]]]]); [done|done| |done].
      rewrite W1 in M1. rewrite W2 in M2. injection M1 as <-. by injection M2 as <-. }
  destruct (Z.eqb_spec tk BTF_KIND_ARRAY) as [->|Harr]; [|apply Hno; intros HC; destruct (Hinv HC) as (_ & _ & _ & _ & [?|[[? _]|[[? _]|[? _]]]]); congruence].
  destruct lt as [lt|]; [|done]. destruct gt as [gt|]; [|done]. cbn [mbind option_bind].
  destruct (plain_fields local rl WL lt lh P1) as (? & ? & ? & ? & ? & ? & _ & _ & _ & _ & _ & _ & _ & _ & HT1).
  destruct (plain_fields targ rt WT gt th P2) as (? & ? & ? & ? & ? & ? & _ & _ & _ & _ & _ & _ & _ & _ & HT2).
  destruct (tw_array _ _ _ _ HT1 K1) as (e1 & n1 & A1 & _ & G1 & L1). destruct (tw_array _ _ _ _ HT2 K2) as (e2 & n2 & A2 & _ & G2 & _). rewrite A1, A2. cbn [mbind option_bind].
  destruct (IH e1 e2 G1 G2 ltac:(lia)) as (r & Er & Hr). exists r. split; [done|]. destruct Hr as [[-> N]|[-> C]]; [left; split; [done|]|right; split; [done|]; by eapply compat_arrays; [apply T1|apply T2|..]].
  intros HC. destruct (Hinv HC) as (y & y2 & [= <-] & [= <-] & [?|[[? _]|[[? _]|(_ & e & e' & M1 & M2 & HA)]]]); [done|done|done|].
  rewrite A1 in M1. rewrite A2 in M2. injection M1 as <-. by injection M2 as <-.
Qed.
Lemma compat_ok lid tid : in_range local lid -> in_range targ tid -> exists r, bpf_core_fields_are_compat local targ lid tid = Some r /\ decides lid tid r.
Proof using WL WT. intros Hl Ht. apply compat_loop_ok; [done|done|]. pose proof (bw_rank _ _ WL lid). lia. Qed.

(** One field: [name] is the name of the local member, [lty] its type. *)
Context (name : path) (lty : Z) (Hname : name <> []) (Hlty : in_range local lty).
Definition spec_fits (sp : bpf_core_spec) : Prop := lenZ (sp_spec sp) <= lenZ (sp_raw sp) <= 64 /\ is_u32 (sp_bit_offset sp).
Definition found_post (id : Z) (sp sp' : bpf_core_spec) (ty : Z) : Prop := exists js o h i,
  field_in targ name id js o h i ty /\ acc_ok targ (Acc h i (Some name)) /\ in_range targ ty /\ compatible local targ lty ty /\
  sp' = Spec (sp_spec sp ++ [Acc h i (Some name)]) (sp_raw sp ++ js) (u32 (sp_bit_offset sp + o)).
Definition match_post (id : Z) (sp : bpf_core_spec) (r : Z * bpf_core_spec * Z) : Prop :=
  let '(found, sp', ty) := r in
  found = - E2BIG /\ too_deep targ name id (lenZ (sp_raw sp)) \/ spec_fits sp' /\
  (found = 1 /\ found_post id sp sp' ty \/
   found = 0 /\ lenZ (sp_raw sp) <= lenZ (sp_raw sp') /\ sp_spec sp' = sp_spec sp /\
     (sp' = sp \/ exists js o h i ty, field_in targ name id js o h i ty /\ lenZ (sp_raw sp') <= lenZ (sp_raw sp) + lenZ js) /\
     (forall js o h i ty, field_in targ name id js o h i ty -> ~ compatible local targ lty ty)).
Context (unique : unique_fields targ).
Lemma add_back x o : is_u32 x -> u32 (u32 (x + o) + - o) = x.
Proof using. int_solve. Qed.
Lemma length_removelast {A} (l : list A) : length (removelast l) = (length l - 1)%nat.
Proof using. induction l as [|a [|c l] IH]; [done|done|]. cbn [removelast length] in *. lia. Qed.

Section Loop.
Context (rec : Z -> bpf_core_spec -> Z -> option (Z * bpf_core_spec * Z)) (len : Z)
  (Hrec : forall ty sp next, in_range targ ty -> spec_fits sp -> len < lenZ (sp_raw sp) -> exists r, rec ty sp next = Some r /\ match_post ty sp r).
Context (local_t local_idx : Z) (Hlm : member_type local local_t local_idx = Some lty).
Context (id t h k v : Z) (E : skip_mods_and_typedefs targ id = Some (Some (Some t), h)) (Hp : plain targ (Some t) h)
  (Ek : btf_kind (bt_data targ) t = Some k) (Hc : composite k = true) (Ev : btf_vlen (bt_data targ) t = Some v).
(** [sp0] is the specification before the loop; after a field of the name that is not
    compatible it is not restored. *)
Definition looked (sp0 : bpf_core_spec) (i : Z) (sp : bpf_core_spec) : Prop := spec_fits sp /\ len <= lenZ (sp_raw sp0) <= lenZ (sp_raw sp) /\ sp_spec sp = sp_spec sp0 /\
  (sp = sp0 \/ exists j js o h i' ty, j < i /\ field_in targ name id (j :: js) o h i' ty /\ lenZ (sp_raw sp) <= lenZ (sp_raw sp0) + lenZ js) /\
  (forall j js o h i' ty, j < i -> field_in targ name id (j :: js) o h i' ty -> ~ compatible local targ lty ty).
Lemma looked_found sp0 i sp js o h' i' ty : looked sp0 i sp -> field_in targ name id (i :: js) o h' i' ty -> sp = sp0.
Proof using unique Hname.
  intros (_ & _ & _ & [->|(j & js' & o2 & h2 & i2 & ty2 & Hj & Hf & _)] & _) Hin; [done|]. pose proof (unique _ _ _ _ _ _ _ _ _ _ _ _ Hname Hin Hf) as [= ? _]. lia.
Qed.
(** One more member is done when what starts there is not what is looked for. *)
Lemma none_next i : (forall j js o h i' ty, j < i -> field_in targ name id (j :: js) o h i' ty -> ~ compatible local targ lty ty) ->
  (forall js o h i' ty, field_in targ name id (i :: js) o h i' ty -> ~ compatible local targ lty ty) ->
  forall j js o h i' ty, j < i + 1 -> field_in targ name id (j :: js) o h i' ty -> ~ compatible local targ lty ty.
Proof using. intros H1 H2 j js o h' i' ty Hj F. destruct (Z.eq_dec j i) as [->|]; [by eapply H2|]. eapply H1; [|exact F]. lia. Qed.
Lemma looked_next sp0 i sp o ty next sp2 : looked sp0 i sp -> lenZ (sp_raw sp) <> 64 -> member_at targ id h i [] ty o ->
  match_post ty (push_raw (add_offset sp o) i) (0, sp2, next) -> looked sp0 (i + 1) (pop_raw (add_offset sp2 (- o))).
Proof using Hname unique.
  intros HL H64 Hm. pose proof HL as (Hfit & Hraw & Hsp & Hcl & Hno). intros [[? _]|[Hfit2 [[? _]|(_ & Hlen2 & Hsp2 & Hcl2 & Hno2)]]]; [done|done|]. cbn [push_raw add_offset sp_raw sp_spec] in *. rewrite length_app in Hlen2. cbn [length] in Hlen2.
  destruct Hfit as [[F1 F2] F3], Hfit2 as [[G1 G2] G3]. split; [|split; [|split; [|split]]].
  - split; [|apply u32_range]. cbn [pop_raw add_offset sp_spec sp_raw]. rewrite length_removelast, Hsp2. lia.
  - cbn [pop_raw add_offset sp_raw]. rewrite length_removelast. lia.
  - cbn [pop_raw add_offset sp_spec]. by rewrite Hsp2.
  - destruct Hcl2 as [->|(js & o2 & h2 & i2 & ty2 & Hf & Hg)].
    + assert (Esp : pop_raw (add_offset (push_raw (add_offset sp o) i) (- o)) = sp).
      { unfold pop_raw, push_raw, add_offset. cbn [sp_spec sp_raw sp_bit_offset]. rewrite removelast_last, add_back by done. by destruct sp. }
      rewrite Esp. destruct Hcl as [->|(j & js & o2 & h2 & i2 & ty2 & Hj & Hf & Hg)]; [by left|]. right. exists j, js, o2, h2, i2, ty2. split; [lia|done].
    + assert (Hin : field_in targ name id (i :: js) (o + o2) h2 i2 ty2) by (by eapply field_below). right. exists i, js, (o + o2), h2, i2, ty2. split; [lia|]. split; [done|].
      rewrite <- (looked_found _ _ _ _ _ _ _ _ HL Hin). cbn [pop_raw add_offset sp_raw]. rewrite length_removelast. rewrite length_app in Hg. cbn [length] in Hg. lia.
  - apply none_next; [done|]. intros js o2 h2 i2 ty2 F. destruct (field_in_start _ _ _ _ _ _ _ _ _ F) as (? & n & ty' & ? & M & HF).
    destruct (member_at_det _ _ _ _ _ _ _ _ _ _ _ Hm M) as (_ & <- & <- & _). destruct HF as [[<- _]|[_ [? Fin]]]; [done|by eapply Hno2].
Qed.
Lemma looked_other sp0 i sp o n ty : looked sp0 i sp -> member_at targ id h i n ty o -> n <> [] -> n <> name -> looked sp0 (i + 1) (pop_raw (add_offset (push_raw (add_offset sp o) i) (- o))).
Proof using.
  intros (Hfit & Hraw & Hsp & Hcl & Hno) Hm Hn Hne. assert (Esp : pop_raw (add_offset (push_raw (add_offset sp o) i) (- o)) = sp).
  { unfold pop_raw, push_raw, add_offset. cbn [sp_spec sp_raw sp_bit_offset]. rewrite removelast_last, add_back by apply Hfit. by destruct sp. }
  rewrite Esp. split; [done|]. split; [done|]. split; [done|]. split.
  - destruct Hcl as [->|(j & js & o2 & h2 & i2 & ty2 & Hj & Hf & Hg)]; [by left|]. right. exists j, js, o2, h2, i2, ty2. split; [lia|done].
  - apply none_next; [done|]. intros js o2 h2 i2 ty2 F. destruct (field_in_start _ _ _ _ _ _ _ _ _ F) as (? & m & ty' & ? & M & HF).
    destruct (member_at_det _ _ _ _ _ _ _ _ _ _ _ Hm M) as (_ & <- & <- & _). by destruct HF as [[? _]|[? _]].
Qed.
(** Where there is no room, or the search in a member finds none. *)
Lemma deep_here sp0 i sp : looked sp0 i sp -> lenZ (sp_raw sp) = 64 -> too_deep targ name id (lenZ (sp_raw sp0)).
Proof using.
  intros (_ & _ & _ & Hcl & _) H64. exists 0%nat. split; [constructor|]. unfold BPF_CORE_SPEC_MAX_LEN. destruct Hcl as [->|(j & js & o & h' & i' & ty & _ & Hf & Hg)]; [left; lia|].
  right. exists (j :: js), o, h', i', ty. split; [done|]. cbn [length]. lia.
Qed.
Lemma deep_below sp0 i sp o ty : looked sp0 i sp -> member_at targ id h i [] ty o -> too_deep targ name ty (lenZ (sp_raw sp) + 1) -> too_deep targ name id (lenZ (sp_raw sp0)).
Proof using Hname unique.
  intros HL Hm (m & Hn & HD). exists (S m). split; [by econstructor|]. destruct HD as [HD|(js & o2 & h2 & i2 & ty2 & Hf & HD)].
  - destruct HL as (_ & _ & _ & [->|(j & js & o2 & h' & i' & ty2 & _ & Hf & Hg)] & _); [left; lia|]. right. exists (j :: js), o2, h', i', ty2. split; [done|]. cbn [length]. lia.
  - assert (Hin : field_in targ name id (i :: js) (o + o2) h2 i2 ty2) by (by eapply field_below). rewrite <- (looked_found _ _ _ _ _ _ _ _ HL Hin).
    right. exists (i :: js), (o + o2), h2, i2, ty2. split; [done|]. cbn [length]. lia.
Qed.
Lemma member_loop_ok sp0 : forall n i sp next, 0 <= i -> i + Z.of_nat n = v -> looked sp0 i sp ->
  exists r, member_loop local targ rec local_t local_idx (Some name) t h n i sp next = Some r /\ match_post id sp0 r.
Proof using WL WT Hname Hlty unique Hrec Hlm E Hp Ek Hc Ev.
  induction n as [|n IH]; intros i sp next Hi Hn HL; cbn [member_loop].
  { exists (0, sp, next). split; [done|]. destruct HL as (Hfit & [_ Hraw] & Hsp & Hcl & Hno). right. split; [done|]. right. split; [done|]. split; [done|]. split; [done|]. split.
    - destruct Hcl as [->|(j & js & o & h2 & i2 & ty2 & _ & Hf & Hg)]; [by left|]. right. exists (j :: js), o, h2, i2, ty2. split; [done|]. cbn [length]. lia.
    - intros js o h2 i2 ty2 F. destruct (field_in_nonempty _ _ _ _ _ _ _ _ F) as (j & js' & ->). destruct (field_in_start _ _ _ _ _ _ _ _ _ F) as (? & ? & ? & ? & M & _).
      destruct M as (t' & k' & v' & nm & E' & _ & _ & Ev' & Hj & _). rewrite E in E'. injection E' as <- <-. assert (v' = v) as -> by congruence. eapply Hno; [|exact F]. lia. }
  destruct (bit_offset_ok targ rt WT t k v i h Hp Ek Hc Ev ltac:(lia)) as (nm & ty & o & s & E1 & E2 & E3 & Hty & E4). rewrite E3. cbn [mbind option_bind]. unfold BPF_CORE_SPEC_MAX_LEN.
  destruct (Z.eqb_spec (lenZ (sp_raw sp)) 64) as [H64|H64]; [eexists; split; [done|]; left; split; [done|]; by eapply deep_here|]. rewrite E1. cbn [mbind option_bind]. rewrite E4. cbn [mbind option_bind].
  destruct (plain_member targ id t h k v i nm s ty o E Hp Ek Hc Ev ltac:(lia) E1 E4 E2 E3) as [M1 M2]. pose proof HL as (([F1 F2] & F3) & [L1 L2] & Hsp & Hcl & Hno).
  destruct s as [|c s].
  - rewrite E2. cbn [mbind option_bind]. destruct (Hrec ty (push_raw (add_offset sp o) i) next Hty) as (r & Er & HP).
    { split; [|apply u32_range]. cbn [push_raw add_offset sp_raw sp_spec]. rewrite length_app. cbn [length]. lia. }
    { cbn [push_raw add_offset sp_raw]. rewrite length_app. cbn [length]. lia. }
    rewrite Er. cbn [mbind option_bind]. destruct r as [[found sp2] next2]. cbn [match_post] in HP.
    destruct (Z.eqb_spec found 0) as [->|Hf]; cbn [negb].
    + apply IH; [lia|lia|]. by eapply looked_next.
    + eexists. split; [done|]. destruct HP as [[-> HD]|[Hfit [[-> HF]|[? _]]]]; [left; split; [done|]; cbn [push_raw add_offset sp_raw] in HD; rewrite length_app in HD; cbn [length] in HD; replace (Z.of_nat (length (sp_raw sp) + 1)) with (lenZ (sp_raw sp) + 1) in HD by lia; by eapply deep_below| |done]. right. split; [done|]. left. split; [done|].
      destruct HF as (js & o2 & h2 & i2 & Hin & Ha & Hr & Hco & ->). assert (Hin' : field_in targ name id (i :: js) (o + o2) h2 i2 next2) by (by eapply field_below).
      rewrite <- (looked_found _ _ _ _ _ _ _ _ HL Hin'). exists (i :: js), (o + o2), h2, i2. repeat (split; [done|]). cbn [push_raw add_offset sp_spec sp_raw sp_bit_offset].
      rewrite <- app_assoc. f_equal. rewrite u32_add. f_equal. lia.
  - cbn [mbind option_bind]. case_bool_decide as Hnm; [|apply IH; [lia|lia|by eapply looked_other]].
    rewrite push_acc_ok by (cbn [push_raw add_offset sp_spec]; lia). cbn [mbind option_bind]. rewrite E2, Hlm. cbn [mbind option_bind].
    destruct (compat_ok lty ty Hlty Hty) as (r & Er & [[-> HD]|[-> HD]]); rewrite Er; cbn [mbind option_bind Z.eqb]; eexists; (split; [done|]); right; rewrite <- Hnm in M1, M2 |- *.
    + split; [|right].
      * split; [|apply u32_range]. cbn [pop_acc push_raw add_offset sp_spec sp_raw]. rewrite removelast_last, length_app. cbn [length]. lia.
      * split; [done|]. cbn [pop_acc push_raw add_offset sp_spec sp_raw]. rewrite removelast_last, length_app. split; [lia|]. split; [done|]. split; [right; exists [i], o, h, i, ty; split; [by apply field_here|rewrite <- (looked_found _ _ _ _ _ _ _ _ HL (field_here _ _ _ _ _ _ _ M1)); cbn [length]; lia]|].
        intros js o2 h2 i2 ty2 F. pose proof (unique _ _ _ _ _ _ _ _ _ _ _ _ Hname (field_here _ _ _ _ _ _ _ M1) F) as <-.
        destruct (field_in_det _ _ _ _ _ _ _ _ Hname (field_here _ _ _ _ _ _ _ M1) _ _ _ _ F) as (_ & _ & _ & <-). exact HD.
    + assert (Hin : field_in targ name id [i] o h i ty) by (by apply field_here). split; [|left].
      * split; [|apply u32_range]. cbn [push_raw add_offset sp_spec sp_raw]. rewrite !length_app. cbn [length]. lia.
      * split; [done|]. rewrite <- (looked_found _ _ _ _ _ _ _ _ HL Hin). exists [i], o, h, i. split; [done|]. split; [|done]. split; [apply Hp|]. split; [|split; [done|by exists ty, o]].
        cbn [a_idx]. destruct (plain_fields targ rt WT t h Hp) as (? & v' & ? & ? & ? & ? & _ & Ev' & _). assert (v' = v) as -> by congruence.
        unfold btf_vlen in Ev. destruct (info (bt_data targ) t) as [inf|]; [|done]. injection Ev as Ev. cbn in Ev.
        pose proof (Z.land_ones inf 16 ltac:(lia)) as HL16. change (Z.ones 16) with 65535 in HL16. rewrite HL16 in Ev. pose proof (Z.mod_pos_bound inf (2 ^ 16) ltac:(lia)).
        change (2 ^ 16) with 65536 in *. int_unfold. lia.
Qed.
End Loop.
(** The whole function, at any depth that the array of raw accessors leaves. *)
Lemma match_member_ok acc lo : acc_ok local acc -> a_name acc = Some name -> member_at local (a_type_id acc) (a_type_id acc) (a_idx acc) name lty lo ->
  forall depth id sp next, in_range targ id -> spec_fits sp -> 65 <= Z.of_nat depth + lenZ (sp_raw sp) ->
  exists r, bpf_core_match_member local targ depth acc id sp next = Some r /\ match_post id sp r.
Proof using WL WT Hname Hlty unique.
  intros [Hacc _] _ (lt & lk & lv & lnm & L1 & _ & _ & _ & _ & L6 & L7 & L8 & _).
  assert (EL : btf__type_by_id local (a_type_id acc) = Some (Some (Some lt))).
  { destruct (skip_ok local rl WL _ Hacc) as (t' & h' & E' & (_ & Ht & _) & _). rewrite L1 in E'. by injection E' as <- <-. }
  induction depth as [|depth IH]; intros id sp next Hid Hfit Hd; [destruct Hfit; lia|]. cbn [bpf_core_match_member].
  destruct (skip_ok targ rt WT id Hid) as (t & h & E & Hp & _). rewrite E. cbn [mbind option_bind]. destruct (kind_plain _ _ _ Hp) as [k Ek]. rewrite Ek. cbn [mbind option_bind].
  destruct (composite k) eqn:Hc; cbn [negb]; [|eexists; split; [done|]; right; split; [done|]; right; split; [done|]; split; [lia|]; split; [done|]; split; [by left|]].
  2: { intros js o h2 i2 ty2 F. destruct (field_in_nonempty _ _ _ _ _ _ _ _ F) as (j & js' & ->). destruct (field_in_start _ _ _ _ _ _ _ _ _ F) as (? & ? & ? & ? & M & _).
    destruct M as (t' & k' & v' & nm & E' & Ek' & Hc' & _). rewrite E in E'. injection E' as -> <-. cbn [kind_at] in Ek. congruence. }
  destruct t as [t|]; [|by injection Ek as <-]. cbn [kind_at] in Ek. cbn [mbind option_bind]. rewrite EL. cbn [mbind option_bind]. rewrite L6. cbn [mbind option_bind]. rewrite L7. cbn [mbind option_bind].
  destruct (plain_fields targ rt WT t h Hp) as (k' & v & _ & _ & _ & _ & _ & Ev & _ & _ & Hv & _). rewrite Ev. cbn [mbind option_bind].
  apply (member_loop_ok (bpf_core_match_member local targ depth acc) (lenZ (sp_raw sp))) with (id := id) (k := k) (v := v); try done.
  - intros ty sp' next' Hty Hfit' Hlen. apply IH; [done|done|lia].
  - lia.
  - split; [done|]. split; [lia|]. split; [done|]. split; [by left|]. intros j js o h2 i2 ty2 Hj F. destruct (field_in_start _ _ _ _ _ _ _ _ _ F) as (? & ? & ? & ? & M & _).
    destruct M as (t' & k2 & v' & nm & _ & _ & _ & _ & Hj' & _). lia.
Qed.
End MatchRules.

(** A size is an error or fits 32 bits. *)
Lemma resolve_done_range size nelems : 0 <= nelems -> let r := resolve_done size nelems in r = - EINVAL \/ r = - E2BIG \/ 0 <= r <= UINT32_MAX.
Proof.
  intros Hn. cbv zeta. unfold resolve_done. destruct (Z.ltb_spec size 0); [by left|]. destruct (Z.eqb_spec nelems 0) as [->|]; cbn [negb andb]; [right; right; unfold UINT32_MAX; lia|].
  rewrite Z.gtb_ltb. destruct (Z.ltb_spec (UINT32_MAX / nelems) size); [by right; left|]. right. right. unfold UINT32_MAX in *. Z.div_mod_to_equations. nia.
Qed.
Lemma resolve_range b : forall n t nelems r, 0 <= nelems -> resolve_size_loop b n t nelems = Some r -> r = - EINVAL \/ r = - E2BIG \/ 0 <= r <= UINT32_MAX.
Proof.
  induction n as [|n IH]; intros t nelems r Hn; cbn [resolve_size_loop]; [intros [= <-]; by apply (resolve_done_range (-1))|].
  destruct (btf_type_is_void_or_null b t) as [void|]; [|done]. cbn [mbind option_bind]. destruct t as [[t|]|]; [|intros [= <-]; by apply (resolve_done_range (-1))..].
  destruct void; [intros [= <-]; by apply (resolve_done_range (-1))|]. destruct (btf_kind (bt_data b) t) as [k|]; [|done]. cbn [mbind option_bind].
  destruct (is_kind k _); [destruct (size_or_type (bt_data b) t) as [size|]; [|done]; intros [= <-]; by apply (resolve_done_range size)|].
  destruct (k =? BTF_KIND_PTR); [intros [= <-]; by apply (resolve_done_range 8)|].
  destruct (is_kind k _). { destruct (size_or_type (bt_data b) t) as [i|]; [|done]. cbn [mbind option_bind]. destruct (btf__type_by_id b i) as [t'|]; [|done]. cbn [mbind option_bind]. by apply IH. }
  destruct (k =? BTF_KIND_ARRAY); [|intros [= <-]; by left]. destruct (array_nelems (bt_data b) t) as [an|]; [|done]. cbn [mbind option_bind].
  destruct (_ && _)%bool; [intros [= <-]; by right; left|]. destruct (array_type (bt_data b) t) as [i|]; [|done]. cbn [mbind option_bind]. destruct (btf__type_by_id b i) as [t'|]; [|done].
  cbn [mbind option_bind]. apply IH. apply u32_range.
Qed.
Lemma resolve_size_s32 b id sz : btf__resolve_size b id = Some sz -> 0 <= s32 sz -> s32 sz = sz /\ 0 <= sz.
Proof.
  unfold btf__resolve_size. destruct (btf__type_by_id b id) as [t|]; [|done]. cbn [mbind option_bind]. intros H Hs. apply resolve_range in H; [|lia].
  unfold EINVAL, E2BIG, UINT32_MAX in *. unfold s32 in *. destruct H as [->|[->|H]]; [done|done|]. Z.div_mod_to_equations. lia.
Qed.

Lemma field_reaches b name id js o h i ty l off fin : name <> [] -> field_in b name id js o h i ty -> reaches b ty l off fin -> reaches b id (Field name :: l) (o + off) fin.
Proof. intros Hn Hf. revert l off fin. induction Hf as [| ? ? ? ? ? ? ? ? ? ? Hm _ IH]; intros l off fin Hr; [by eapply reaches_field|]. rewrite <- Z.add_assoc. eapply reaches_inside; [done|]. by apply IH. Qed.
Lemma member_skip b id t h i name ty o : skip_mods_and_typedefs b id = Some (Some t, h) -> plain b t h -> member_at b h h i name ty o -> member_at b id h i name ty o.
Proof.
  intros E Hp (t' & k & v & nm & E' & H). rewrite (skip_plain b t h Hp) in E'. injection E' as ->. by exists t', k, v, nm.
Qed.
Lemma reaches_skip b id t h l off fin : skip_mods_and_typedefs b id = Some (Some t, h) -> plain b t h -> l <> [] -> reaches b h l off fin -> reaches b id l off fin.
Proof.
  intros E Hp Hl Hr. pose proof (skip_plain b t h Hp) as Eh. revert Eh Hl. destruct Hr as [|? h' i ty o l off fin (t' & k & v & nm & E1 & H1) Hr|? h' i name ty o l off fin Hn (t' & k & v & nm & E1 & H1) Hr|
    ? n e sz i l off fin (t' & h' & ty & et & E1 & H1) Hi Hr]; intros Eh Hl; [done|..]; rewrite Eh in E1; injection E1 as -> ->.
  - eapply reaches_inside; [|done]. by exists t', k, v, nm.
  - eapply reaches_field; [done| |done]. by exists t', k, v, nm.
  - eapply reaches_index; [|done|done]. by exists t', h', ty, et.
Qed.

Section SpecMatch.
Context (local targ : btf) (rl rt : Z -> nat) (WL : btf_wf local rl) (WT : btf_wf targ rt) (unique : unique_fields targ).
(** What matching decides: in the target, from [id] on, there is a field of each name, of a
    compatible type, and an element of each index.  The offset of it in bits, and its type. *)
Inductive corresponds : list bpf_core_accessor -> Z -> Z -> Z -> Prop :=
  | corr_end id : corresponds [] id 0 id
  | corr_field acc accs id name lty lo js o h i ty off fin : a_name acc = Some name -> name <> [] ->
      member_at local (a_type_id acc) (a_type_id acc) (a_idx acc) name lty lo -> field_in targ name id js o h i ty ->
      compatible local targ lty ty -> corresponds accs ty off fin -> corresponds (acc :: accs) id (o + off) fin
  | corr_index acc accs id n e sz off fin : a_name acc = None -> elements targ id n e sz -> 0 <= a_idx acc < n ->
      corresponds accs e off fin -> corresponds (acc :: accs) id (a_idx acc * sz * 8 + off) fin.
Lemma corresponds_reaches accs id off fin : corresponds accs id off fin -> reaches targ id (map step_of accs) off fin.
Proof using.
  induction 1 as [|acc accs id name lty lo js o h i ty off fin En Hn _ Hf _ _ IH|acc accs id n e sz off fin En He Hi _ IH]; cbn [map]; [constructor| |]; unfold step_of at 1; rewrite En.
  - by eapply field_reaches.
  - by eapply reaches_index.
Qed.
(** Typedefs on the way do not matter. *)
Lemma member_unskip id t h h' i name ty o : skip_mods_and_typedefs targ id = Some (Some t, h) -> plain targ t h -> member_at targ id h' i name ty o -> member_at targ h h' i name ty o.
Proof using. intros E Hp (t' & k & v & nm & E' & H). rewrite E in E'. injection E' as -> <-. exists t', k, v, nm. split; [|done]. by apply skip_plain. Qed.
Lemma field_unskip name id t h js o h' i ty : skip_mods_and_typedefs targ id = Some (Some t, h) -> plain targ t h -> field_in targ name id js o h' i ty -> field_in targ name h js o h' i ty.
Proof using.
  intros E Hp F. inversion F as [? ? ? ? ? M|? ? ? ? ? ? ? ? ? ? M F2]; subst.
  - apply field_here. by eapply member_unskip.
  - eapply field_below; [|done]. by eapply member_unskip.
Qed.
Lemma field_skip name id t h js o h' i ty : skip_mods_and_typedefs targ id = Some (Some t, h) -> plain targ t h -> field_in targ name h js o h' i ty -> field_in targ name id js o h' i ty.
Proof using.
  intros E Hp F. assert (Hm : forall h2 j n y z, member_at targ h h2 j n y z -> member_at targ id h2 j n y z).
  { intros h2 j n y z (t' & k & v & nm & E' & H). rewrite (skip_plain _ _ _ Hp) in E'. injection E' as -> <-. by exists t', k, v, nm. }
  inversion F as [? ? ? ? ? M|? ? ? ? ? ? ? ? ? ? M F2]; subst; [apply field_here; by apply Hm|]. eapply field_below; [by apply Hm|done].
Qed.
Lemma deep_skip name id t h r : skip_mods_and_typedefs targ id = Some (Some t, h) -> plain targ t h -> too_deep targ name h r -> too_deep targ name id r.
Proof using.
  intros E Hp (m & Hn & HD). exists m. split.
  - inversion Hn as [|? h2 j ty o m' (t' & k & v & nm & E' & H) Hn']; subst; [constructor|]. rewrite (skip_plain _ _ _ Hp) in E'. injection E' as -> <-. eapply nested_more; [|exact Hn']. by exists t', k, v, nm.
  - destruct HD as [HD|(js & o & h2 & i & ty & Hf & HD)]; [by left|]. right. exists js, o, h2, i, ty. split; [|done]. by eapply field_skip.
Qed.
Lemma elements_det id n e sz n' e' sz' : elements targ id n e sz -> elements targ id n' e' sz' -> n = n' /\ e = e' /\ sz = sz'.
Proof using.
  intros (t & h & ty & et & E1 & _ & E3 & E4 & E5 & E6 & _) (t' & h' & ty' & et' & E1' & _ & E3' & E4' & E5' & E6' & _). rewrite E1 in E1'. injection E1' as <- <-.
  rewrite E4 in E4'. injection E4' as <-. rewrite E5 in E5'. injection E5' as <- <-. split; [congruence|]. split; [done|congruence].
Qed.
(** There is one place at most. *)
Lemma corresponds_det accs id off fin : corresponds accs id off fin -> forall off' fin', corresponds accs id off' fin' -> off = off' /\ fin = fin'.
Proof using unique.
  induction 1 as [|acc accs id name lty lo js o h i ty off fin En Hn _ Hf _ _ IH|acc accs id n e sz off fin En He Hi _ IH]; intros off' fin' HC.
  - by inversion HC.
  - inversion HC as [|? ? ? name' lty' lo' js' o' h3 i3 ty3 off3 ? En' _ _ Hf' _ Hrest|]; subst; [|congruence]. assert (name' = name) as -> by congruence.
    pose proof (unique _ _ _ _ _ _ _ _ _ _ _ _ Hn Hf Hf') as <-. destruct (field_in_det _ _ _ _ _ _ _ _ Hn Hf _ _ _ _ Hf') as (<- & _ & _ & <-). destruct (IH _ _ Hrest) as [<- <-]. done.
  - inversion HC as [| |? ? ? n' e' sz' off3 ? _ He' _ Hrest]; subst; [congruence|]. destruct (elements_det _ _ _ _ _ _ _ He He') as (<- & <- & <-). destruct (IH _ _ Hrest) as [<- <-]. done.
Qed.
(** The accessors [accs], followed in the target from [id]. *)
Definition followed (accs : list bpf_core_accessor) (id : Z) (sp sp' : bpf_core_spec) : Prop := exists accs' js off fin,
  sp' = Spec (sp_spec sp ++ accs') (sp_raw sp ++ js) (u32 (sp_bit_offset sp + off)) /\ map step_of accs' = map step_of accs /\
  Forall (acc_ok targ) accs' /\ corresponds accs id off fin /\ spec_fits sp'.
(** Why a search from [id] ends with an error, [r] raw accessors being there: on the way that the
    accessors lead there is no room for one more, or the elements of an array have no size
    below 2 GiB. *)
Inductive gives_up : list bpf_core_accessor -> Z -> Z -> Z -> Prop :=
  | up_deep acc accs id r name : a_name acc = Some name -> too_deep targ name id r -> gives_up (acc :: accs) id r (- E2BIG)
  | up_full acc accs id : a_name acc = None -> gives_up (acc :: accs) id BPF_CORE_SPEC_MAX_LEN (- E2BIG)
  | up_size acc accs id r t h n ty et e sz : a_name acc = None -> skip_mods_and_typedefs targ id = Some (Some (Some t), h) -> btf_kind (bt_data targ) t = Some BTF_KIND_ARRAY ->
      array_nelems (bt_data targ) t = Some n -> 0 <= a_idx acc < n -> array_type (bt_data targ) t = Some ty -> skip_mods_and_typedefs targ ty = Some (Some et, e) ->
      btf__resolve_size targ e = Some sz -> s32 sz < 0 -> gives_up (acc :: accs) id r (s32 sz)
  | up_field acc accs id r name lty lo js o h i ty code : a_name acc = Some name -> member_at local (a_type_id acc) (a_type_id acc) (a_idx acc) name lty lo ->
      field_in targ name id js o h i ty -> compatible local targ lty ty -> gives_up accs ty (r + lenZ js) code -> gives_up (acc :: accs) id r code
  | up_index acc accs id r n e sz code : a_name acc = None -> elements targ id n e sz -> 0 <= a_idx acc < n -> gives_up accs e (r + 1) code -> gives_up (acc :: accs) id r code.
Definition loop_post (accs : list bpf_core_accessor) (id : Z) (sp : bpf_core_spec) (r : Z * bpf_core_spec) : Prop :=
  r.1 < 0 /\ gives_up accs id (lenZ (sp_raw sp)) r.1 \/ r.1 = 0 /\ (forall off fin, ~ corresponds accs id off fin) \/ r.1 = 1 /\ followed accs id sp r.2.
Lemma followed_step acc accs id id' sp a js o sp' : followed accs id' (Spec (sp_spec sp ++ [a]) (sp_raw sp ++ js) (u32 (sp_bit_offset sp + o))) sp' ->
  step_of a = step_of acc -> acc_ok targ a -> (forall off fin, corresponds accs id' off fin -> corresponds (acc :: accs) id (o + off) fin) ->
  followed (acc :: accs) id sp sp'.
Proof using.
  intros (accs' & js' & off & fin & -> & Hs & Ha & Hr & Hf) Hst Hok Hstep. exists (a :: accs'), (js ++ js'), (o + off), fin. cbn [sp_spec sp_raw sp_bit_offset map] in *.
  split; [|split; [by rewrite Hst, Hs|split; [by constructor|split; [by apply Hstep|done]]]]. rewrite <- !app_assoc. f_equal. rewrite u32_add. f_equal. lia.
Qed.
Lemma named_parts acc name : acc_ok local acc -> a_name acc = Some name -> name <> [] /\ exists lty lo,
  member_at local (a_type_id acc) (a_type_id acc) (a_idx acc) name lty lo /\ in_range local lty.
Proof using. intros (_ & _ & H) E. by rewrite E in H. Qed.
(** The end of a turn that pushes an index. *)
Lemma index_turn acc accs i id eid sp (H : forall id sp, in_range targ id -> spec_fits sp -> length (sp_spec sp) = S i ->
    exists r, match_loop local targ accs (S i) id sp = Some r /\ loop_post accs id sp r) :
  in_range targ eid -> spec_fits sp -> length (sp_spec sp) = i -> is_u32 (a_idx acc) -> a_name acc = None ->
  (forall sz off fin, btf__resolve_size targ eid = Some sz -> 0 <= sz -> corresponds accs eid off fin -> corresponds (acc :: accs) id (a_idx acc * sz * 8 + off) fin) ->
  (forall off fin, corresponds (acc :: accs) id off fin -> exists off', corresponds accs eid off' fin) ->
  (forall sz r code, btf__resolve_size targ eid = Some sz -> (s32 sz < 0 -> code = s32 sz -> gives_up (acc :: accs) id r code) /\ (0 <= sz -> gives_up accs eid (r + 1) code -> gives_up (acc :: accs) id r code)) ->
  exists r, (if lenZ (sp_raw sp) =? BPF_CORE_SPEC_MAX_LEN then Some (- E2BIG, sp)
             else if negb (Nat.eqb (length (sp_spec sp)) i) then None
             else sp ← push_acc sp (Acc eid (a_idx acc) None);
                  let sp := push_raw sp (s32 (a_idx acc)) in
                  sz ← btf__resolve_size targ eid;
                  let sz := s32 sz in
                  if sz <? 0 then Some (sz, sp) else match_loop local targ accs (S i) eid (add_offset sp (a_idx acc * sz * 8))) = Some r /\ loop_post (acc :: accs) id sp r.
Proof using WT.
  intros Heid [[F1 F2] F3] Hlen Hu Hn Hstep Hback Hup. unfold BPF_CORE_SPEC_MAX_LEN. destruct (Z.eqb_spec (lenZ (sp_raw sp)) 64) as [E64|]; [eexists; split; [done|left; split; [done|cbn [fst]; rewrite E64; by apply up_full]]|].
  rewrite (proj2 (Nat.eqb_eq _ _) Hlen). cbn [negb]. rewrite push_acc_ok by lia. cbn [mbind option_bind]. destruct (resolve_size_ok targ rt WT eid Heid) as [sz Es]. rewrite Es. cbn [mbind option_bind].
  destruct (Z.ltb_spec (s32 sz) 0) as [|Hs]; [eexists; split; [done|left; split; [cbn; lia|apply (proj1 (Hup sz _ _ Es)); [lia|done]]]|]. destruct (resolve_size_s32 _ _ _ Es Hs) as [-> Hs0].
  unfold push_raw, add_offset. cbn [sp_spec sp_raw sp_bit_offset].
  destruct (H eid (Spec (sp_spec sp ++ [Acc eid (a_idx acc) None]) (sp_raw sp ++ [s32 (a_idx acc)]) (u32 (sp_bit_offset sp + a_idx acc * sz * 8))) Heid) as (r & Er & HP).
  - split; [|apply u32_range]. cbn [sp_spec sp_raw]. rewrite !length_app. cbn [length]. lia.
  - cbn [sp_spec]. rewrite length_app. cbn [length]. lia.
  - exists r. split; [done|]. destruct HP as [[Hneg HG]|[[E0 HN]|[E1 HF]]].
    + left. split; [done|]. apply (proj2 (Hup sz _ _ Es)); [done|]. cbn [sp_raw] in HG. rewrite length_app in HG. cbn [length] in HG. by replace (lenZ (sp_raw sp) + 1) with (Z.of_nat (length (sp_raw sp) + 1)) by lia.
    + right. left. split; [done|]. intros off fin Hc. destruct (Hback _ _ Hc) as [off' Hc']. by eapply HN.
    + right. right. split; [done|]. eapply followed_step; [exact HF| | |].
      * unfold step_of. cbn [a_name a_idx]. by rewrite Hn.
      * split; [done|]. by split.
      * intros off fin Hr. by apply Hstep.
Qed.
Lemma match_loop_ok : forall accs i id sp, Forall (acc_ok local) accs -> in_range targ id -> spec_fits sp -> length (sp_spec sp) = S i ->
  exists r, match_loop local targ accs (S i) id sp = Some r /\ loop_post accs id sp r.
Proof using WL WT unique.
  induction accs as [|acc accs IH]; intros i id sp Ha Hid Hfit Hlen; cbn [match_loop].
  { exists (1, sp). split; [done|]. right. right. split; [done|]. exists [], [], 0, id. split; [|split; [done|split; [done|split; [constructor|done]]]].
    rewrite !app_nil_r, Z.add_0_r, u32_small by apply Hfit. by destruct sp. }
  apply Forall_cons_1 in Ha as [Hacc Ha]. destruct (skip_ok targ rt WT id Hid) as (t & h & E & Hp & _). rewrite E. cbn [mbind option_bind].
  destruct (a_name acc) as [name|] eqn:En.
  - destruct (named_parts acc name Hacc En) as (Hn & lty & lo & Hm & Hl).
    destruct (match_member_ok local targ rl rt WL WT name lty Hn Hl unique acc lo Hacc En Hm MATCH_DEPTH h sp h ltac:(apply Hp) Hfit) as (r & Er & HP); [unfold MATCH_DEPTH; lia|].
    rewrite Er. cbn [mbind option_bind]. destruct r as [[matched sp2] ty].
    destruct HP as [[-> HD]|[Hfit2 [[-> HF]|(-> & _ & _ & _ & Hno)]]]; cbn [Z.leb Z.compare].
    { eexists. split; [done|]. left. split; [done|]. eapply up_deep; [exact En|]. by eapply deep_skip. }
    2: { eexists. split; [done|]. right. left. split; [done|]. intros off fin Hc. inversion Hc as [|? ? ? name' lty' lo' js o h2 i2 ty2 ? ? En' _ Hm' Hf Hco _|]; subst; [|congruence].
      assert (name' = name) as -> by congruence. destruct (member_at_det _ _ _ _ _ _ _ _ _ _ _ Hm Hm') as (_ & _ & <- & _). eapply Hno; [|exact Hco]. by eapply field_unskip. }
    destruct HF as (js & o & h2 & i2 & Hin & Hok & Hr & Hcompat & ->). cbn [sp_spec sp_raw sp_bit_offset] in *.
    pose proof (field_skip _ _ _ _ _ _ _ _ _ E Hp Hin) as Hin'.
    destruct (IH (S i) ty (Spec (sp_spec sp ++ [Acc h2 i2 (Some name)]) (sp_raw sp ++ js) (u32 (sp_bit_offset sp + o))) Ha Hr Hfit2) as (r & Er2 & HP2).
    { cbn [sp_spec]. rewrite length_app. cbn [length]. lia. }
    exists r. split; [done|]. destruct HP2 as [[Hneg HG]|[[E0 HN]|[E1 HF]]].
    + left. split; [done|]. eapply up_field; [exact En|exact Hm|exact Hin'|done|]. cbn [sp_raw] in HG. rewrite length_app in HG.
      by replace (lenZ (sp_raw sp) + lenZ js) with (Z.of_nat (length (sp_raw sp) + length js)) by lia.
    + right. left. split; [done|]. intros off fin Hc. inversion Hc as [|? ? ? name' lty' lo' js' o' h3 i3 ty3 off' ? En' _ Hm' Hf Hco Hrest|]; subst; [|congruence].
      assert (name' = name) as -> by congruence. pose proof (unique _ _ _ _ _ _ _ _ _ _ _ _ Hn Hin' Hf) as <-.
      destruct (field_in_det _ _ _ _ _ _ _ _ Hn Hin' _ _ _ _ Hf) as (_ & _ & _ & <-). by eapply HN.
    + right. right. split; [done|]. eapply followed_step; [exact HF| |done|].
      * unfold step_of. cbn [a_name]. by rewrite En.
      * intros off fin Hrl. by eapply corr_field.
  - unfold match_index. cbn [Nat.ltb Nat.leb]. destruct (kind_plain _ _ _ Hp) as [k Ek]. rewrite Ek. cbn [mbind option_bind].
    destruct (Z.eqb_spec k BTF_KIND_ARRAY) as [->|]; cbn [negb mbind option_bind].
    2: { eexists. split; [done|]. right. left. split; [done|]. intros off fin Hc. inversion Hc as [| |? ? ? n9 e9 sz9 ? ? _ (t' & h' & ty & et & E1 & E2 & _) _ _]; subst; [congruence|].
      rewrite E in E1. injection E1 as -> <-. cbn [kind_at] in Ek. congruence. }
    destruct t as [t|]; [|done]. cbn [kind_at] in Ek. cbn [mbind option_bind].
    destruct (plain_fields targ rt WT t h Hp) as (? & ? & ? & ? & ? & ? & _ & _ & _ & _ & _ & _ & _ & _ & HT). destruct (tw_array _ _ _ _ HT Ek) as (e & n & Ee & Enl & He & _).
    rewrite Enl, Ee. cbn [mbind option_bind]. rewrite Z.geb_leb. destruct (Z.leb_spec n (a_idx acc)); cbn [mbind option_bind].
    { eexists. split; [done|]. right. left. split; [done|]. intros off fin Hc. inversion Hc as [| |? ? ? n' e' sz ? ? _ (t' & h' & ty & et & E1 & _ & E3 & _) Hi _]; subst; [congruence|].
      rewrite E in E1. injection E1 as <- <-. assert (n' = n) as -> by congruence. lia. }
    destruct (skip_ok targ rt WT e He) as (et & eh & E' & Hp' & _). rewrite E'. cbn [mbind option_bind]. destruct Hacc as (_ & Hu & _).
    assert (Hel : forall sz, btf__resolve_size targ eh = Some sz -> 0 <= sz -> elements targ id n eh sz) by (intros sz Es Hs; exists t, h, e, et; by repeat (split; [done|])).
    eapply index_turn; [|apply Hp'|done|done|done|done| | |].
    + intros id' sp' H1 H2 H3. by apply IH.
    + intros sz off fin Es Hs Hr. eapply (corr_index acc accs id n eh sz); [done|by apply Hel|int_unfold; lia|done].
    + intros off fin Hc. inversion Hc as [| |? ? ? n' e' sz off' ? _ (t' & h' & ty & et' & E1 & _ & _ & E4 & E5 & _) _ Hrest]; subst; [congruence|].
      rewrite E in E1. injection E1 as <- <-. rewrite Ee in E4. injection E4 as <-. rewrite E' in E5. injection E5 as <- <-. by eexists.
    + intros sz r code Es. split; [intros Hs ->; eapply (up_size acc accs id r t h n e et eh sz); try done; int_unfold; lia|].
      intros Hs HG. eapply (up_index acc accs id r n eh sz); [done|by apply Hel|int_unfold; lia|done].
Qed.
(** From a pointer to the target type [tid]. *)
Definition corresponds_at (lsp : bpf_core_spec) (tid off fin : Z) : Prop := exists a0 accs t h sz off', sp_spec lsp = a0 :: accs /\
  skip_mods_and_typedefs targ tid = Some (Some t, h) /\ btf__resolve_size targ h = Some sz /\ 0 <= sz /\ corresponds accs h off' fin /\ off = a_idx a0 * sz * 8 + off'.
Lemma corresponds_at_det lsp tid off fin off' fin' : corresponds_at lsp tid off fin -> corresponds_at lsp tid off' fin' -> off = off' /\ fin = fin'.
Proof using unique.
  intros (a0 & accs & t & h & sz & o & Es & E & Ez & _ & Hc & ->) (a0' & accs' & t' & h' & sz' & o' & Es' & E' & Ez' & _ & Hc' & ->). rewrite Es in Es'. injection Es' as <- <-.
  rewrite E in E'. injection E' as <- <-. rewrite Ez in Ez'. injection Ez' as <-. destruct (corresponds_det _ _ _ _ Hc _ _ Hc') as [<- <-]. done.
Qed.
(** [tsp] describes in the type [tid] the access that [lsp] describes. *)
Definition target_spec (lsp : bpf_core_spec) (tid : Z) (tsp : bpf_core_spec) : Prop := specifies targ tid tsp /\ map step_of (sp_spec tsp) = map step_of (sp_spec lsp) /\
  exists off fin, corresponds_at lsp tid off fin /\ sp_bit_offset tsp = u32 off.
Lemma corresponds_locates lid lsp tid off fin : specifies local lid lsp -> corresponds_at lsp tid off fin -> exists i l loff lfin,
  locates local lid i l loff lfin /\ sp_bit_offset lsp = u32 loff /\ locates targ tid i l off fin.
Proof using.
  intros (a0 & accs & loff & lfin & Es & _ & _ & Hl & Hb & _) (a0' & accs' & t & h & sz & off' & Es' & E & Ez & Hz & Hc & ->). rewrite Es in Es'. injection Es' as <- <-.
  exists (a_idx a0), (map step_of accs), loff, lfin. split; [done|]. split; [done|]. exists t, h, sz, off'. repeat (split; [done|]). split; [|done]. by apply corresponds_reaches.
Qed.
(** Why matching ends with an error: the type has no size, or see [gives_up]. *)
Definition hopeless (lsp : bpf_core_spec) (tid code : Z) : Prop := exists a0 accs t h sz, sp_spec lsp = a0 :: accs /\
  skip_mods_and_typedefs targ tid = Some (Some t, h) /\ btf__resolve_size targ h = Some sz /\ (s32 sz < 0 /\ code = s32 sz \/ 0 <= sz /\ gives_up accs h 1 code).
Definition match_result (lsp : bpf_core_spec) (tid code : Z) (sp : bpf_core_spec) : Prop :=
  code < 0 /\ hopeless lsp tid code \/ code = 0 /\ (forall off fin, ~ corresponds_at lsp tid off fin) \/
  code = 1 /\ target_spec lsp tid sp.
(** The root: the first accessor is an index from the type itself. *)
Lemma spec_match_ok lid lsp tid : specifies local lid lsp -> in_range targ tid -> exists code sp, bpf_core_spec_match local targ lsp tid = Some (code, sp) /\
  match_result lsp tid code sp.
Proof using WL WT unique.
  intros (a0 & accs & off & fin & Es & En & Ha & _ & _ & Hlen & _) Htid. unfold bpf_core_spec_match. rewrite Es. cbn [match_loop].
  destruct (skip_ok targ rt WT tid Htid) as (t & h & E & Hp & _). rewrite E. cbn [mbind option_bind]. rewrite En. unfold match_index. cbn [Nat.ltb Nat.leb mbind option_bind].
  apply Forall_cons_1 in Ha as [(_ & Hu & _) Ha]. unfold BPF_CORE_SPEC_MAX_LEN. cbn [no_spec sp_raw sp_spec length Z.of_nat Z.eqb Nat.eqb negb]. rewrite push_acc_ok by (cbn; lia). cbn [mbind option_bind no_spec sp_spec sp_raw sp_bit_offset app].
  destruct (resolve_size_ok targ rt WT h ltac:(apply Hp)) as [sz Ez]. rewrite Ez. cbn [mbind option_bind]. destruct (Z.ltb_spec (s32 sz) 0) as [|Hs]; [eexists _, _; split; [done|left; split; [lia|exists a0, accs, t, h, sz; repeat (split; [done|]); by left]]|].
  destruct (resolve_size_s32 _ _ _ Ez Hs) as [-> Hs0]. unfold push_raw, add_offset. cbn [sp_spec sp_raw sp_bit_offset app].
  destruct (match_loop_ok accs 0 h (Spec [Acc h (a_idx a0) None] [s32 (a_idx a0)] (u32 (0 + a_idx a0 * sz * 8))) Ha ltac:(apply Hp)) as ([code sp] & Er & HP).
  { split; [cbn; lia|apply u32_range]. } { done. }
  exists code, sp. split; [done|]. unfold loop_post in HP. cbn [fst snd] in HP. destruct HP as [[? HG]|[[-> HN]|[-> HF]]]; [left; split; [done|]; exists a0, accs, t, h, sz; repeat (split; [done|]); by right| |].
  { right. left. split; [done|]. intros off2 fin2 (a0' & accs' & t' & h' & sz' & off' & Es' & E' & _ & _ & Hc & _). rewrite Es in Es'. injection Es' as <- <-. rewrite E in E'. injection E' as <- <-. by eapply HN. }
  right. right. split; [done|]. unfold target_spec. destruct HF as (accs' & js & off' & fin' & -> & Hst & Hok & Hc & Hfit). cbn [sp_spec sp_raw sp_bit_offset app] in *.
  split; [|split; [rewrite Es; cbn [map]; unfold step_of at 1 3; by rewrite En, Hst|]].
  - exists (Acc h (a_idx a0) None), accs', (a_idx a0 * sz * 8 + off'), fin'. split; [done|]. split; [done|]. split; [|split; [|split]].
    + constructor; [|done]. split; [apply Hp|]. by split.
    + exists t, h, sz, off'. rewrite Hst. repeat (split; [done|]). split; [by apply corresponds_reaches|done].
    + cbn [sp_bit_offset]. rewrite u32_add. done.
    + destruct Hfit as [[? ?] _]. cbn [sp_spec sp_raw] in *. split; [lia|by exists t].
  - exists (a_idx a0 * sz * 8 + off'), fin'. split; [|by rewrite u32_add]. exists a0, accs, t, h, sz, off'. by repeat (split; [done|]).
Qed.
End SpecMatch.

(** ** Values *)

(** What [widen] ends with: the first of the sizes [byte_sz * 2^n] whose load holds the field. *)
Lemma widen_ok bit_off bit_sz : forall fuel byte_sz, (0 < fuel)%nat -> 0 < byte_sz < 2147483648 -> 8 <= byte_sz * 2 ^ (Z.of_nat fuel - 1) ->
  exists r, widen fuel bit_off bit_sz byte_sz = Some r /\ match r with
  | inl e => e = - E2BIG
  | inr (sz, o) => byte_sz <= sz < 2147483648 /\ o = u32 (bit_off / 8 / sz * sz) /\ u32 (bit_off + bit_sz - o * 8) <= u32 (sz * 8)
  end.
Proof.
  induction fuel as [|fuel IH]; intros byte_sz Hf Hb H8; [lia|]. cbn [widen]. destruct (Z.eqb_spec byte_sz 0); [lia|]. cbv zeta. rewrite Z.gtb_ltb.
  destruct (Z.ltb_spec (u32 (byte_sz * 8)) (u32 (bit_off + bit_sz - u32 (bit_off / 8 / byte_sz * byte_sz) * 8))); [|eexists; split; [done|]; split; [lia|by split]].
  rewrite Z.geb_leb. destruct (Z.leb_spec 8 byte_sz); [by eexists|]. rewrite (u32_small (byte_sz * 2)) by (int_unfold; lia). destruct fuel as [|fuel]; [cbn in H8; lia|].
  destruct (IH (byte_sz * 2)) as (r & Er & HP); [lia|lia| |].
  { replace (Z.of_nat (S (S fuel)) - 1) with (Z.of_nat (S fuel) - 1 + 1) in H8 by lia. rewrite Z.pow_add_r in H8 by lia. change (2 ^ 1) with 2 in H8. lia. }
  exists r. split; [done|]. destruct r as [e|[sz o]]; [done|]. destruct HP as [? ?]. split; [lia|done].
Qed.

Section Calc.
Context (b : btf) (rank : Z -> nat) (W : btf_wf b rank).
(** The member that a named accessor stands for. *)
Lemma named_member acc name : acc_ok b acc -> a_name acc = Some name -> exists t ty mt h n, btf__type_by_id b (a_type_id acc) = Some (Some (Some t)) /\
  member_type b t (a_idx acc) = Some ty /\ in_range b ty /\ skip_mods_and_typedefs b ty = Some (Some (Some mt), h) /\ plain b (Some mt) h /\
  btf_member_bitfield_size b t (a_idx acc) = Some n /\ (0 < n -> forall sz, size_or_type (bt_data b) mt = Some sz -> 0 < sz < 2147483648).
Proof using W.
  intros (Hi & _ & Hm) En. rewrite En in Hm. destruct Hm as (_ & ty & o & (t & k & v & nm & E & Ek & Hc & Ev & Hv & _ & _ & E2 & _) & Hty).
  destruct (skip_ok b rank W _ Hi) as (t' & h' & E' & Hp & _). rewrite E in E'. injection E' as <- <-. destruct (skip_ok b rank W ty Hty) as (mt & h & Em & Hpm & _).
  destruct (bitfield_ok b rank W t k v (a_idx acc) _ Hp Ek Hc Ev Hv) as [n En'].
  destruct (plain_fields b rank W t _ Hp) as (? & ? & ? & ? & ? & ? & _ & _ & _ & _ & _ & _ & _ & _ & HT).
  destruct (tw_members _ _ _ _ HT k v (a_idx acc) Ek Hc Ev Hv) as (? & ty' & ? & ? & _ & E2' & _ & _ & _ & Hft). assert (ty' = ty) as -> by congruence.
  destruct (Hft mt h Em) as [Hne Hbits]. destruct mt as [mt|]; [|done]. exists t, ty, mt, h, n. split; [apply Hp|]. repeat (split; [done|]). intros Hn sz Es. by eapply Hbits.
Qed.
Lemma field_value_ok kind mt h bf o n sz bo : plain b (Some mt) h -> exists r, field_value b kind (Some mt) bf o n sz bo = Some r.
Proof using W.
  intros Hp. unfold field_value. destruct (plain_fields b rank W mt h Hp) as (k & v & nm & z & w & s & Ek & _ & _ & _ & _ & _ & Ew & _). cbn [kind_at mbind option_bind]. rewrite Ek. unfold btf_int_encoding. rewrite Ew.
  cbn [mbind option_bind]. repeat (match goal with |- context [if ?c then _ else _] => destruct c end); by eexists.
Qed.
Lemma last_acc id sp : specifies b id sp -> exists acc, list.last (sp_spec sp) = Some acc /\ acc_ok b acc.
Proof using.
  intros (a0 & accs & off & fin & Es & _ & Ha & _). rewrite Es. destruct (list.last (a0 :: accs)) as [acc|] eqn:E; [|by apply last_None in E]. exists acc. split; [done|].
  apply last_Some in E as [l El]. rewrite El in Ha. apply Forall_app in Ha as [_ Ha]. by apply Forall_cons_1 in Ha as [? _].
Qed.
Lemma calc_ok kind id sp : specifies b id sp -> exists r, bpf_core_calc_field_relo b kind sp = Some r.
Proof using W.
  intros Hs. destruct (last_acc id sp Hs) as (acc & El & Hacc). unfold bpf_core_calc_field_relo. rewrite El. cbn [mbind option_bind]. destruct (a_name acc) as [name|] eqn:En.
  - destruct (named_member acc name Hacc En) as (t & ty & mt & h & n & Et & Ety & Hty & Em & Hp & Ebs & Hbits). rewrite Et. cbn [mbind option_bind]. rewrite Ety. cbn [mbind option_bind]. rewrite Em. cbn [mbind option_bind].
    rewrite Ebs. cbn [mbind option_bind]. rewrite Z.gtb_ltb. destruct (Z.ltb_spec 0 n) as [Hn|].
    + destruct (plain_fields b rank W mt h Hp) as (? & ? & ? & z & ? & ? & _ & _ & _ & Ez & _). cbn [type_field_at]. rewrite Ez. cbn [mbind option_bind].
      destruct (widen_ok (sp_bit_offset sp) n 4 z ltac:(lia) (Hbits Hn z Ez)) as (r & Er & _); [change (Z.of_nat 4 - 1) with 3; pose proof (Hbits Hn z Ez); lia|].
      rewrite Er. cbn [mbind option_bind]. destruct r as [e|[bsz boff]]; [by eexists|by eapply field_value_ok].
    + destruct (resolve_size_ok b rank W ty Hty) as [z Ez]. rewrite Ez. cbn [mbind option_bind]. destruct (z <? 0); [by eexists|]. by eapply field_value_ok.
  - destruct Hacc as (Hi & _ & _). destruct (resolve_size_ok b rank W _ Hi) as [z Ez]. rewrite Ez. cbn [mbind option_bind].
    repeat (match goal with |- context [if ?c then _ else _] => destruct c end; [by eexists|]). by eexists.
Qed.
End Calc.

(** ** Bitfields *)

(** The bits of a field from the bits of a load that holds it: shift it to the top, then down. *)
Lemma shifted_out m p q w s : 0 <= p <= q -> 0 < w -> q + w - p <= s -> q + w - p <= 64 ->
  Z.shiftr (u64 (Z.shiftl (Z.shiftr m p mod 2 ^ s) (64 - (q + w - p)))) (64 - w) = Z.shiftr m q mod 2 ^ w.
Proof.
  intros Hp Hw Hs H64. apply Z.bits_inj'. intros i Hi. unfold u64. change 18446744073709551616 with (2 ^ 64). rewrite Z.shiftr_spec by lia.
  destruct (Z.lt_ge_cases i w) as [Hlt|Hge].
  - rewrite !Z.mod_pow2_bits_low by lia. rewrite Z.shiftl_spec by lia. rewrite Z.mod_pow2_bits_low by lia. rewrite !Z.shiftr_spec by lia. f_equal. lia.
  - rewrite Z.mod_pow2_bits_high by lia. by rewrite Z.mod_pow2_bits_high by lia.
Qed.
(** The width of the field of a specification in bits, and whether it is a bitfield. *)
Definition field_width (b : btf) (sp : bpf_core_spec) : option (Z * bool) :=
  acc ← (list.last (sp_spec sp) : option bpf_core_accessor);
  t ← btf__type_by_id b (a_type_id acc);
  t ← match t with Some (Some t) => Some t | _ => None end;
  n ← btf_member_bitfield_size b t (a_idx acc);
  if n >? 0 then Some (n, true) else ty ← member_type b t (a_idx acc); sz ← btf__resolve_size b ty; Some (8 * sz, false).
Definition is_field (sp : bpf_core_spec) : Prop := exists acc n, list.last (sp_spec sp) = Some acc /\ a_name acc = Some n.
(** The four values of one layout. *)
Definition layout (b : btf) (sp : bpf_core_spec) (byte_off byte_sz lshift rshift : Z) : Prop := exists v0 v1 v2 v3,
  bpf_core_calc_field_relo b BPF_FIELD_BYTE_OFFSET sp = Some (inr (byte_off, v0)) /\ bpf_core_calc_field_relo b BPF_FIELD_BYTE_SIZE sp = Some (inr (byte_sz, v1)) /\
  bpf_core_calc_field_relo b BPF_FIELD_LSHIFT_U64 sp = Some (inr (lshift, v2)) /\ bpf_core_calc_field_relo b BPF_FIELD_RSHIFT_U64 sp = Some (inr (rshift, v3)).
Section Bits.
Context (b : btf) (rank : Z -> nat) (W : btf_wf b rank).
Lemma layout_ok id sp w bf : specifies b id sp -> is_field sp -> field_width b sp = Some (w, bf) -> 0 <= w <= 64 ->
  (exists e, e < 0 /\ bpf_core_calc_field_relo b BPF_FIELD_BYTE_OFFSET sp = Some (inl e)) \/
  exists bo bs, layout b sp bo bs (u32 (64 - (sp_bit_offset sp + w - bo * 8))) (u32 (64 - w)) /\
    (bo = u32 (sp_bit_offset sp / 8 / bs * bs) /\ 0 < bs < 2147483648 /\ 0 < w /\ u32 (sp_bit_offset sp + w - bo * 8) <= u32 (bs * 8) \/
     bo = sp_bit_offset sp / 8 /\ w = 8 * bs /\ bf = false).
Proof using W.
  intros Hs (acc & name & El & En) Hw Hw64. destruct (last_acc b id sp Hs) as (acc' & El' & Hacc). assert (acc' = acc) as -> by congruence.
  destruct (named_member b rank W acc name Hacc En) as (t & ty & mt & h & n & Et & Ety & Hty & Em & Hp & Ebs & Hbits).
  unfold field_width in Hw. rewrite El in Hw. cbn [mbind option_bind] in Hw. rewrite Et in Hw. cbn [mbind option_bind] in Hw. rewrite Ebs in Hw. cbn [mbind option_bind] in Hw.
  rewrite Z.gtb_ltb in Hw. unfold layout, bpf_core_calc_field_relo. rewrite El. cbn [mbind option_bind]. rewrite En, Et. cbn [mbind option_bind]. rewrite Ety in Hw |- *. cbn [mbind option_bind] in Hw |- *.
  rewrite Em. cbn [mbind option_bind]. rewrite Ebs. cbn [mbind option_bind]. rewrite Z.gtb_ltb. destruct (Z.ltb_spec 0 n) as [Hn|Hn].
  - injection Hw as -> <-. destruct (plain_fields b rank W mt h Hp) as (? & ? & ? & z & ? & ? & _ & _ & _ & Ez & _). cbn [type_field_at]. rewrite Ez. cbn [mbind option_bind].
    destruct (widen_ok (sp_bit_offset sp) w 4 z ltac:(lia) (Hbits Hn z Ez)) as (r & Er & HR); [change (Z.of_nat 4 - 1) with 3; pose proof (Hbits Hn z Ez); lia|].
    rewrite Er. cbn [mbind option_bind]. pose proof (Hbits Hn z Ez). destruct r as [e|[bs bo]]; [left; exists e; subst e; by split|]. right. destruct HR as (R1 & R2 & R3). exists bo, bs. split; [|left; split; [done|]; split; [lia|]; split; [lia|done]].
    by exists false, false, false, true.
  - destruct (resolve_size_ok b rank W ty Hty) as [z Ez]. rewrite Ez in Hw |- *. cbn [mbind option_bind] in Hw |- *. injection Hw as <- <-. destruct (Z.ltb_spec z 0); [left; by exists (- EINVAL)|].
    right. rewrite (u32_small z) by (int_unfold; lia). rewrite (u32_small (z * 8)) by (int_unfold; lia). exists (sp_bit_offset sp / 8), z. split; [|right; split; [done|]; split; [lia|done]].
    rewrite (Z.mul_comm 8 z). by exists true, true, true, true.
Qed.
End Bits.

(** ** The theorems *)

(** C11: Relocation finds the same field.  On well-formed type information of the program and of
    the kernel, in which a structure has a name at most once, parsing an access string ends, and a
    specification that it gives describes the access: a list of names and indices from the
    local type and its offset.  Matching it with any type of the kernel ends and decides
    whether the access exists there, with types that are compatible (the relation
    [compatible], which the code decides): the result is 1 exactly when it does (or an error
    when the nesting is too deep or a type has no size), and then the offset is that of the
    same names and indices in the type of the kernel.  This is said of access strings whose
    numbers behind the first are not negative ([access_ok]), as compilers write them: on
    others the code reads a member outside the type (libbpf.c:2573). *)
Theorem relocation_finds_field (local targ : btf) (rl rt : Z -> nat) (lid tid : Z) (s : path) :
  btf_wf local rl -> btf_wf targ rt -> unique_fields targ -> in_range local lid -> in_range targ tid -> access_ok s ->
  exists r, bpf_core_spec_parse local lid s = Some r /\ match r with
  | inl e => e < 0
  | inr lsp => exists i l loff lfin, map step_of (sp_spec lsp) = Index i :: l /\ locates local lid i l loff lfin /\ sp_bit_offset lsp = u32 loff /\
      exists code tsp, bpf_core_spec_match local targ lsp tid = Some (code, tsp) /\
        (code < 0 /\ hopeless local targ lsp tid code \/ code = 0 /\ (forall off fin, ~ corresponds_at local targ lsp tid off fin) \/
         code = 1 /\ exists off fin, corresponds_at local targ lsp tid off fin /\ locates targ tid i l off fin /\ sp_bit_offset tsp = u32 off)
  end.
Proof.
  intros WL WT HU Hl Ht Hs. destruct (spec_parse_ok local rl WL lid s Hl Hs) as (r & Er & HP). exists r. split; [done|]. destruct r as [e|lsp]; [done|].
  destruct (spec_match_ok local targ rl rt WL WT HU lid lsp tid HP Ht) as (code & tsp & Em & HM).
  pose proof HP as (a0 & accs & loff & lfin & Es & En & _ & HL & Hb & _). exists (a_idx a0), (map step_of accs), loff, lfin. split; [rewrite Es; cbn [map]; unfold step_of at 1; by rewrite En|]. split; [done|]. split; [done|]. exists code, tsp. split; [done|].
  destruct HM as [?|[?|(-> & _ & _ & off & fin & Hc & Ho)]]; [by left|by right; left|]. right. right. split; [done|]. exists off, fin. split; [done|]. split; [|done].
  destruct Hc as (a0' & accs' & t & h & sz & off' & Es' & E & Ez & Hz & Hc & ->). rewrite Es in Es'. injection Es' as <- <-. exists t, h, sz, off'. repeat (split; [done|]).
  split; [by eapply corresponds_reaches|done].
Qed.

(** C12: The four values of a field fit together.  For a field of at most 64 bits the offset is
    refused, or the load of the relocated size at the relocated offset, shifted left and then
    right by the relocated amounts, gives the bits of the field, whatever the memory holds
    (as long as the load has at most eight bytes, and a field that is not a bitfield starts
    at a byte). *)
Theorem field_loaded (b : btf) (rank : Z -> nat) (id : Z) (sp : bpf_core_spec) (w : Z) (bf : bool) :
  btf_wf b rank -> specifies b id sp -> is_field sp -> field_width b sp = Some (w, bf) -> 0 < w <= 64 -> sp_bit_offset sp + w < 4294967296 ->
  bf = true \/ sp_bit_offset sp mod 8 = 0 ->
  (exists e, e < 0 /\ bpf_core_calc_field_relo b BPF_FIELD_BYTE_OFFSET sp = Some (inl e)) \/
  exists byte_off byte_sz lshift rshift, layout b sp byte_off byte_sz lshift rshift /\
    (byte_sz <= 8 -> forall m, Z.shiftr (u64 (Z.shiftl (Z.shiftr m (8 * byte_off) mod 2 ^ (8 * byte_sz)) lshift)) rshift = Z.shiftr m (sp_bit_offset sp) mod 2 ^ w).
Proof.
  intros W Hs Hf Hw Hw64 Hoff Hal. destruct (layout_ok b rank W id sp w bf Hs Hf Hw ltac:(lia)) as [?|(bo & bs & HL & HC)]; [by left|]. right.
  assert (Hq : 0 <= sp_bit_offset sp). { destruct Hs as (? & ? & off & ? & _ & _ & _ & _ & -> & _). apply u32_range. }
  exists bo, bs, (u32 (64 - (sp_bit_offset sp + w - bo * 8))), (u32 (64 - w)). split; [done|]. intros Hbs m.
  assert (Hfit : 0 <= bo /\ 8 * bo <= sp_bit_offset sp /\ sp_bit_offset sp + w - 8 * bo <= 8 * bs).
  { destruct HC as [(-> & Hb & _ & Hle)|(-> & -> & ->)].
    - set (q := sp_bit_offset sp) in *. assert (Hd : 0 <= q / 8 / bs * bs <= q / 8). { split; [apply Z.mul_nonneg_nonneg; [|lia]; apply Z.div_pos; [|lia]; apply Z.div_pos; lia|]. rewrite Z.mul_comm. apply Z.mul_div_le. lia. }
      assert (8 * (q / 8) <= q) by (apply Z.mul_div_le; lia). rewrite (u32_small (q / 8 / bs * bs)) in * by (int_unfold; lia). rewrite !u32_small in Hle by (int_unfold; lia). lia.
    - destruct Hal as [?|Hal]; [done|]. pose proof (Z.div_mod (sp_bit_offset sp) 8 ltac:(lia)). lia. }
  rewrite !u32_small by (int_unfold; lia). rewrite <- (shifted_out m (8 * bo) (sp_bit_offset sp) w (8 * bs)) by lia. do 4 f_equal. lia.
Qed.

(** A program compiled against [struct s { int a; int b; }], run on a kernel in which it is
    [struct s { int s; struct { int a : 4; int b : 12; int c; }; }]. *)
Definition demo_names : list Z := [0; 105; 110; 116; 0; 115; 0; 97; 0; 98; 0; 99; 0; 48; 58; 49; 0].
Definition demo_member (name ty o : Z) : list Z := word_bytes name ++ word_bytes ty ++ word_bytes o.
Definition demo_int : ty := Ty 1 0x1000000 4 (word_bytes 0x1000020).
Definition demo_local_types : list ty := [demo_int; Ty 5 0x4000002 8 (demo_member 7 1 0 ++ demo_member 9 1 32)].
Definition demo_targ_types : list ty :=
  [demo_int; Ty 0 0x84000003 8 (demo_member 7 1 0x4000000 ++ demo_member 9 1 0xc000004 ++ demo_member 11 1 32);
   Ty 5 0x4000002 16 (demo_member 5 1 0 ++ demo_member 0 2 64)].
Definition demo_btf (ts : list ty) : btf :=
  Btf (image ts demo_names) (None :: map Some (offsets 24 ts)) (24 + lenZ (encode_types ts)) (lenZ ts) 16 0 None None.
Definition demo_local : btf := demo_btf demo_local_types.
Definition demo_targ : btf := demo_btf demo_targ_types.
Definition demo_rank (id : Z) : nat := 0.
Example demo_reloc : bpf_core_spec_parse demo_local 2 [48; 58; 49] = Some (inr (Spec [Acc 2 0 None; Acc 2 1 (Some [98])] [0; 1] 32)) /\
  bpf_core_spec_match demo_local demo_targ (Spec [Acc 2 0 None; Acc 2 1 (Some [98])] [0; 1] 32) 3 =
    Some (1, Spec [Acc 3 0 None; Acc 2 1 (Some [98])] [0; 1; 1] 68).
Proof. split; vm_compute; reflexivity. Qed.
(** Facts about the fields of one type of a small example. *)
Ltac demo_fields := eexists _, _, _, _, _, _; repeat (split; [by vm_compute|]); by vm_compute.
Ltac demo_field := eexists _, _, _, _; repeat (split; [by vm_compute|]); let E := fresh in intros ? ? E; vm_compute in E; injection E as <- <-; split; [done|];
  let E1 := fresh in let E2 := fresh in let Hn := fresh in intros ? ? E1 Hn E2; vm_compute in E1; vm_compute in E2; injection E1 as <-; injection E2 as <-; by vm_compute.
Ltac demo_type := split; [demo_fields
  |let E := fresh in let E1 := fresh in intros ? ? E E1; vm_compute in E; injection E as <-; by vm_compute in E1
  |let E := fresh in intros E; by vm_compute in E|].
Ltac demo_no_members := let E := fresh in let E1 := fresh in intros ? ? ? E E1; vm_compute in E; injection E as <-; by vm_compute in E1.
Ltac demo_members i Hi := let E2 := fresh in intros ? ? i _ _ E2 Hi; vm_compute in E2; injection E2 as <-.
Lemma demo_lookup ts id : 0 <= id -> exists t, btf__type_by_id (demo_btf ts) id = Some t.
Proof.
  intros Hi. unfold btf__type_by_id. cbn [demo_btf nr_types types]. rewrite Z.gtb_ltb. destruct (Z.ltb_spec (lenZ ts) id); [by eexists|].
  destruct (lookup_lt_is_Some_2 (None :: map Some (offsets 24 ts)) (Z.to_nat id)) as [t E].
  - cbn [length]. rewrite length_map. rewrite offsets_len. lia.
  - rewrite E. by eexists.
Qed.
Lemma demo_range ts id t : 0 <= id -> btf__type_by_id (demo_btf ts) id = Some (Some t) -> 0 <= id <= lenZ ts.
Proof. intros Hi. unfold btf__type_by_id. cbn [demo_btf nr_types]. rewrite Z.gtb_ltb. destruct (Z.ltb_spec (lenZ ts) id); [done|]. lia. Qed.
Lemma demo_local_wf : btf_wf demo_local demo_rank.
Proof.
  split; [apply demo_lookup| | |done|intros id; unfold demo_rank; lia|by vm_compute].
  - intros id Hi. change (0 <= id <= 2) in Hi. assert (id = 0 \/ id = 1 \/ id = 2) as [->|[->| ->]] by lia; eexists; vm_compute; reflexivity.
  - intros id t Hi Ht. pose proof (demo_range _ _ _ Hi Ht) as Hr. change (lenZ demo_local_types) with 2 in Hr. split; [exact Hr|].
    assert (id = 0 \/ id = 1 \/ id = 2) as [->|[->| ->]] by lia; vm_compute in Ht; try done; injection Ht as <-.
    + demo_type. demo_no_members.
    + demo_type. demo_members i Hi2. assert (i = 0 \/ i = 1) as [->| ->] by lia; demo_field.
Qed.
Lemma demo_targ_wf : btf_wf demo_targ demo_rank.
Proof.
  split; [apply demo_lookup| | |done|intros id; unfold demo_rank; lia|by vm_compute].
  - intros id Hi. change (0 <= id <= 3) in Hi. assert (id = 0 \/ id = 1 \/ id = 2 \/ id = 3) as [->|[->|[->| ->]]] by lia; eexists; vm_compute; reflexivity.
  - intros id t Hi Ht. pose proof (demo_range _ _ _ Hi Ht) as Hr. change (lenZ demo_targ_types) with 3 in Hr. split; [exact Hr|].
    assert (id = 0 \/ id = 1 \/ id = 2 \/ id = 3) as [->|[->|[->| ->]]] by lia; vm_compute in Ht; try done; injection Ht as <-.
    + demo_type. demo_no_members.
    + demo_type. demo_members i Hi2. assert (i = 0 \/ i = 1 \/ i = 2) as [->|[->| ->]] by lia; demo_field.
    + demo_type. demo_members i Hi2. assert (i = 0 \/ i = 1) as [->| ->] by lia; demo_field.
Qed.
(** The members of the example, and that each name is there once. *)
Lemma demo_member_at id h i n ty o : member_at demo_targ id h i n ty o ->
  id = 2 /\ (i = 0 /\ n = [97] /\ ty = 1 \/ i = 1 /\ n = [98] /\ ty = 1 \/ i = 2 /\ n = [99] /\ ty = 1) \/ id = 3 /\ (i = 0 /\ n = [115] /\ ty = 1 \/ i = 1 /\ n = [] /\ ty = 2).
Proof.
  intros (t & k & v & nm & E & Ek & Hc & Ev & Hi & E1 & E2 & E3 & _).
  assert (Hr : 0 <= id <= 3).
  { unfold skip_mods_and_typedefs, btf__type_by_id in E. rewrite Z.gtb_ltb in E. change (nr_types demo_targ) with 3 in E. destruct (Z.ltb_spec 3 id); [done|].
    destruct (Z.lt_ge_cases id 0); [|lia]. replace (Z.to_nat id) with 0%nat in E by lia. by vm_compute in E. }
  assert (id = 0 \/ id = 1 \/ id = 2 \/ id = 3) as [->|[->|[->| ->]]] by lia; vm_compute in E; try done; injection E as <- _; vm_compute in Ek; injection Ek as <-; try done; vm_compute in Ev; injection Ev as <-.
  - left. split; [done|]. assert (i = 0 \/ i = 1 \/ i = 2) as [->|[->| ->]] by lia; vm_compute in E1; injection E1 as <-; vm_compute in E2; injection E2 as <-; vm_compute in E3; injection E3 as <-; tauto.
  - right. split; [done|]. assert (i = 0 \/ i = 1) as [->| ->] by lia; vm_compute in E1; injection E1 as <-; vm_compute in E2; injection E2 as <-; vm_compute in E3; injection E3 as <-; tauto.
Qed.
Lemma demo_unique : unique_fields demo_targ.
Proof.
  assert (H2 : forall name js o h i ty, name <> [] -> field_in demo_targ name 2 js o h i ty -> exists j, js = [j] /\ (j = 0 /\ name = [97] \/ j = 1 /\ name = [98] \/ j = 2 /\ name = [99])).
  { intros name js o h i ty Hn F. inversion F as [? ? ? ? ? M|? ? ? ? ? ? ? ? ? ? M _]; subst; destruct (demo_member_at _ _ _ _ _ _ M) as [[_ D]|[? _]]; try done.
    - exists i. intuition congruence.
    - exfalso. decompose [and or] D; congruence. }
  assert (H3 : forall name js o h i ty, name <> [] -> field_in demo_targ name 3 js o h i ty -> js = [0] /\ name = [115] \/ exists j, js = [1; j] /\ (j = 0 /\ name = [97] \/ j = 1 /\ name = [98] \/ j = 2 /\ name = [99])).
  { intros name js o h i ty Hn F. inversion F as [? ? ? ? ? M|? ? ? ? ? ? ? ? ? ? M F2]; subst; destruct (demo_member_at _ _ _ _ _ _ M) as [[? _]|[_ D]]; try done.
    - destruct D as [(-> & -> & _)|(_ & -> & _)]; [by left|done].
    - destruct D as [(_ & ? & _)|(-> & _ & ->)]; [done|]. right. destruct (H2 _ _ _ _ _ _ Hn F2) as (j & -> & Hj). by exists j. }
  intros name id js o h i ty js' o' h' i' ty' Hn F F'.
  assert (id = 2 \/ id = 3) as [->| ->]. { inversion F as [? ? ? ? ? M|? ? ? ? ? ? ? ? ? ? M _]; subst; destruct (demo_member_at _ _ _ _ _ _ M) as [[-> _]|[-> _]]; auto. }
  - destruct (H2 _ _ _ _ _ _ Hn F) as (j & -> & Hj), (H2 _ _ _ _ _ _ Hn F') as (j' & -> & Hj'). assert (j = j') as -> by (decompose [and or] Hj; decompose [and or] Hj'; congruence). done.
  - destruct (H3 _ _ _ _ _ _ Hn F) as [[-> ?]|(j & -> & Hj)], (H3 _ _ _ _ _ _ Hn F') as [[-> ?]|(j' & -> & Hj')]; [done| | |].
    + exfalso. decompose [and or] Hj'; congruence.
    + exfalso. decompose [and or] Hj; congruence.
    + assert (j = j') as -> by (decompose [and or] Hj; decompose [and or] Hj'; congruence). done.
Qed.
Lemma demo_access_ok : access_ok [48; 58; 49].
Proof. intros raw E. vm_compute in E. injection E as <-. by repeat constructor. Qed.
Lemma relocation_finds_field_witness : exists lsp tsp l loff lfin off fin, bpf_core_spec_parse demo_local 2 [48; 58; 49] = Some (inr lsp) /\
  bpf_core_spec_match demo_local demo_targ lsp 3 = Some (1, tsp) /\ locates demo_local 2 0 l loff lfin /\ locates demo_targ 3 0 l off fin /\ u32 loff = 32 /\ u32 off = 68.
Proof.
  destruct (relocation_finds_field demo_local demo_targ demo_rank demo_rank 2 3 [48; 58; 49] demo_local_wf demo_targ_wf demo_unique) as (r & E & HP).
  - by vm_compute.
  - by vm_compute.
  - exact demo_access_ok.
  - rewrite (proj1 demo_reloc) in E. injection E as <-. destruct HP as (i & l & loff & lfin & Hl & HL & Hb & code & tsp & E & HC). vm_compute in Hl. injection Hl as <- <-.
    rewrite (proj2 demo_reloc) in E. injection E as <- <-. destruct HC as [[? _]|[[? _]|(_ & off & fin & Hc & HT & Ho)]]; [lia|lia|].
    eexists _, _, _, loff, lfin, off, fin. split; [exact (proj1 demo_reloc)|]. split; [exact (proj2 demo_reloc)|].
    split; [done|]. split; [done|]. split; [by rewrite <- Hb|by rewrite <- Ho].
Defined.
Definition demo_spec : bpf_core_spec := Spec [Acc 3 0 None; Acc 2 1 (Some [98])] [0; 1; 1] 68.
Lemma demo_specifies : specifies demo_targ 3 demo_spec.
Proof.
  assert (Hacc : access_ok [48; 58; 49; 58; 49]) by (intros raw E; vm_compute in E; injection E as <-; by repeat constructor).
  destruct (spec_parse_ok demo_targ demo_rank demo_targ_wf 3 [48; 58; 49; 58; 49] ltac:(by vm_compute) Hacc) as (r & E & HP). vm_compute in E. by injection E as <-.
Qed.
Lemma field_loaded_witness : layout demo_targ demo_spec 8 4 48 52 /\
  forall m, Z.shiftr (u64 (Z.shiftl (Z.shiftr m 64 mod 2 ^ 32) 48)) 52 = Z.shiftr m 68 mod 2 ^ 12.
Proof.
  assert (HL : layout demo_targ demo_spec 8 4 48 52) by (exists false, false, false, true; repeat split; vm_compute; reflexivity). split; [exact HL|].
  destruct (field_loaded demo_targ demo_rank 3 demo_spec 12 true) as [(e & _ & E)|(bo & bs & l & r & (v0 & v1 & v2 & v3 & E0 & E1 & E2 & E3) & HP)].
  - exact demo_targ_wf.
  - exact demo_specifies.
  - eexists _, _. split; vm_compute; reflexivity.
  - vm_compute. reflexivity.
  - lia.
  - by vm_compute.
  - by left.
  - vm_compute in E. discriminate E.
  - vm_compute in E0, E1, E2, E3. injection E0 as <- _. injection E1 as <- _. injection E2 as <- _. injection E3 as <- _. apply HP. lia.
Defined.
