(* ===== verification/ObjOpen.v ===== *)
(** * Opening an object: libbpf/src/libbpf.c

    [bpf_object__elf_collect] walks the sections of the file, [bpf_object__collect_reloc]
    turns relocation entries into descriptions of what to patch, and [__bpf_object__open] puts
    the parts together.  The theorems: a relocation description names the map its symbol
    stands for; opening a file without type information ends with an error and nothing open,
    or with an object that [bpf_object__load] can take, with no descriptor of its own. *)

From Stdlib Require Import String.
From S2P Require Import Prelude Params Netlink Os Btf BtfExt BpfProg Object Pinning BpfSys ObjMaps Reloc ObjLoad SecNames Elf OpenMaps Probe BtfLoad.
#[local] Open Scope Z_scope.
#[local] Open Scope prog_scope.

Definition BPF_PSEUDO_CALL : Z := 1.

(** ** Known sections *)

Definition bpf_object__shndx_is_data (o : bpf_object) (shndx : Z) : bool :=
  (shndx =? o_data_shndx o) || (shndx =? o_bss_shndx o) || (shndx =? o_rodata_shndx o).
Definition bpf_object__shndx_is_maps (o : bpf_object) (shndx : Z) : bool := (shndx =? o_maps_shndx o) || (shndx =? o_btf_maps_shndx o).
Definition bpf_object__relo_in_known_section (o : bpf_object) (shndx : Z) : bool :=
  (shndx =? o_text_shndx o) || bpf_object__shndx_is_maps o shndx || bpf_object__shndx_is_data o shndx.
Definition bpf_object__section_to_libbpf_map_type (o : bpf_object) (shndx : Z) : libbpf_map_type :=
  if shndx =? o_data_shndx o then LIBBPF_MAP_DATA
  else if shndx =? o_bss_shndx o then LIBBPF_MAP_BSS
  else if shndx =? o_rodata_shndx o then LIBBPF_MAP_RODATA
  else LIBBPF_MAP_UNSPEC.
(** The map a symbol stands for. *)
Definition stands_for (ty : libbpf_map_type) (sym : GElf_Sym) (m : bpf_map) : Prop :=
  m_type m = ty /\ (ty <> LIBBPF_MAP_UNSPEC \/ (m_sec_idx m = st_shndx sym /\ m_sec_offset m = st_value sym)).
#[export] Instance stands_for_dec ty sym m : Decision (stands_for ty sym m).
Proof. unfold stands_for. apply _. Defined.

Section Open.
Context {BK : BpfKernel} {LE : Libelf BK} {OS : Os}.
Abbreviation B := (M (bsys BK)).

(** ** Relocations *)

(** One entry: the description, or the error.  For a load whose symbol is in .text the code
    leaves the description as it was allocated: a fault here, since it is always read. *)
Definition reloc_entry (symbols d : Elf_Data) (o : bpf_object) (insns : list bpf_insn) (i : Z) : B (Z + reloc_desc) :=
  match gelf_getrel d i with
  | None => ret (inl (- LIBBPF_ERRNO__FORMAT))
  | Some rel =>
      match gelf_getsym symbols (GELF_R_SYM (r_info rel)) with
      | None => ret (inl (- LIBBPF_ERRNO__FORMAT))
      | Some sym =>
          let shdr_idx := st_shndx sym in
          let insn_idx := u32 (r_offset rel / 8) in
          if shdr_idx >=? SHN_LORESERVE then
            let! _ := deref (insns !! Z.to_nat insn_idx) in ret (inl (- LIBBPF_ERRNO__RELOC))
          else if negb (bpf_object__relo_in_known_section o shdr_idx) then ret (inl (- LIBBPF_ERRNO__RELOC))
          else
            let! insn := deref (insns !! Z.to_nat insn_idx) in
            if code insn =? Z.lor BPF_JMP BPF_CALL then
              if negb (src_reg insn =? BPF_PSEUDO_CALL) then ret (inl (- LIBBPF_ERRNO__RELOC))
              else ret (inr (RELO_CALL insn_idx (s32 (st_value sym))))
            else if negb (code insn =? or3 BPF_LD BPF_IMM BPF_DW) then ret (inl (- LIBBPF_ERRNO__RELOC))
            else if bpf_object__shndx_is_maps o shdr_idx || bpf_object__shndx_is_data o shdr_idx then
              let ty := bpf_object__section_to_libbpf_map_type o shdr_idx in
              let internal := negb (bool_decide (ty = LIBBPF_MAP_UNSPEC)) in
              if internal && (GELF_ST_BIND (st_info sym) =? STB_GLOBAL) then ret (inl (- LIBBPF_ERRNO__RELOC))
              else if internal && negb (cap_global_data (o_caps o)) then ret (inl (- LIBBPF_ERRNO__RELOC))
              else match list_find (stands_for ty sym) (o_maps o) with
                   | None => ret (inl (- LIBBPF_ERRNO__RELOC))
                   | Some (map_idx, _) =>
                       ret (inr (if internal then RELO_DATA insn_idx (Z.of_nat map_idx) else RELO_LD64 insn_idx (Z.of_nat map_idx)))
                   end
            else fault
      end
  end.
(** [n] entries from [i]; [done] are the descriptions before them. *)
Fixpoint reloc_entries (symbols d : Elf_Data) (o : bpf_object) (insns : list bpf_insn) (n : nat) (i : Z) (done : list reloc_desc) :
    B (Z * list reloc_desc * bpf_object) :=
  match n with
  | O => ret (0, done, o)
  | S n =>
      let! r := reloc_entry symbols d o insns i in
      match r with
      | inl err => ret (err, done, o)
      | inr x => reloc_entries symbols d (match x with RELO_CALL _ _ => with_pseudo_calls o | _ => o end) insns n (i + 1) (done ++ [x])
      end
  end.
Definition bpf_program__collect_reloc (p : bpf_program) (sh : GElf_Shdr) (d : Elf_Data) (ef : efile LE) (o : bpf_object) : B (Z * bpf_program * bpf_object) :=
  guard_ (negb (sh_entsize sh =? 0)) ;;;
  let nrels := s32 (sh_size sh / sh_entsize sh) in
  let! ok := malloc in
  if negb ok then ret (- ENOMEM, p, o)
  else
    let! symbols := deref (ef_symbols ef) in
    let! (err, l, o) := reloc_entries symbols d o (p_insns p) (Z.to_nat nrels) 0 [] in
    ret (err, set_reloc p (Some l), o).
Fixpoint collect_reloc_loop (ef : efile LE) (l : list (GElf_Shdr * Elf_Data)) (o : bpf_object) : B (Z * bpf_object) :=
  match l with
  | [] => ret (0, o)
  | (sh, d) :: l =>
      let idx := s32 (sh_info sh) in
      if negb (sh_type sh =? SHT_REL) then ret (- LIBBPF_ERRNO__INTERNAL, o)
      else match bpf_object__find_prog_by_idx o idx with
           | None => ret (- LIBBPF_ERRNO__RELOC, o)
           | Some i =>
               let! p := deref (o_programs o !! Z.to_nat i) in
               let! (err, p, o) := bpf_program__collect_reloc p sh d ef o in
               let o := with_programs o (<[Z.to_nat i := p]> (o_programs o)) in
               if negb (err =? 0) then ret (err, o) else collect_reloc_loop ef l o
           end
  end.
Definition bpf_object__collect_reloc (ef : efile LE) (o : bpf_object) : B (Z * bpf_object) :=
  match ef_elf ef with
  | None => ret (- LIBBPF_ERRNO__INTERNAL, o)
  | Some _ => collect_reloc_loop ef (ef_reloc ef) o
  end.

(** ** Sections *)

(** What the walk has found besides [efile] and the object: .BTF and .BTF.ext. *)
Record walk := Walk { w_ef : efile LE; w_obj : bpf_object; w_btf : option Elf_Data; w_ext : option Elf_Data }.
Definition on_obj (w : walk) (r : Z * bpf_object) : Z * walk := (r.1, Walk (w_ef w) r.2 (w_btf w) (w_ext w)).
Definition on_ef (w : walk) (ef : efile LE) : walk := Walk ef (w_obj w) (w_btf w) (w_ext w).
(** One section: its index, header, name and data. *)
Definition collect_section (e : elf) (idx : Z) (sh : GElf_Shdr) (name : path) (d : Elf_Data) (w : walk) : B (Z * walk) :=
  let o := w_obj w in
  let ef := w_ef w in
  let named (s : string) := bool_decide (name = str s) in
  if named "license"%string then let! r := bpf_object__init_license o d in ret (on_obj w r)
  else if named "version"%string then let! r := bpf_object__init_kversion o d in ret (on_obj w r)
  else if named "maps"%string then ret (on_obj w (0, with_shndx o MAPS idx))
  else if named ".maps"%string then ret (on_obj w (0, with_shndx o BTF_MAPS idx))
  else if named ".BTF"%string then ret (0, Walk ef o (Some d) (w_ext w))
  else if named ".BTF.ext"%string then ret (0, Walk ef o (w_btf w) (Some d))
  else if sh_type sh =? SHT_SYMTAB then
    match ef_symbols ef with
    | Some _ => ret (- LIBBPF_ERRNO__FORMAT, w)
    | None => ret (0, on_ef w (set_symbols ef d (sh_link sh)))
    end
  else if (sh_type sh =? SHT_PROGBITS) && (d_size d >? 0) then
    if negb (Z.land (sh_flags sh) SHF_EXECINSTR =? 0) then
      let o := if named ".text"%string then with_shndx o TEXT idx else o in
      let! r := bpf_object__add_program o d name idx in ret (on_obj w r)
    else if named ".data"%string then
      ret (0, Walk (set_sections ef (Some d) (ef_rodata ef) (ef_bss ef)) (with_shndx o DATA idx) (w_btf w) (w_ext w))
    else if named ".rodata"%string then
      ret (0, Walk (set_sections ef (ef_data ef) (Some d) (ef_bss ef)) (with_shndx o RODATA idx) (w_btf w) (w_ext w))
    else ret (0, w)
  else if sh_type sh =? SHT_REL then
    if negb (section_have_execinstr e (s32 (sh_info sh))) then ret (0, w)
    else
      let! ok := malloc in
      if negb ok then ret (- ENOMEM, w) else ret (0, on_ef w (add_reloc ef sh d))
  else if (sh_type sh =? SHT_NOBITS) && named ".bss"%string then
    ret (0, Walk (set_sections ef (ef_data ef) (ef_rodata ef) (Some d)) (with_shndx o BSS idx) (w_btf w) (w_ext w))
  else ret (0, w).
(** [n] sections from [idx]. *)
Fixpoint collect_sections (e : elf) (shstrndx : Z) (n : nat) (idx : Z) (w : walk) : B (Z * walk) :=
  match n with
  | O => ret (0, w)
  | S n =>
      match gelf_getshdr e idx with
      | None => ret (- LIBBPF_ERRNO__FORMAT, w)
      | Some sh =>
          match elf_strptr e shstrndx (sh_name sh) with
          | None => ret (- LIBBPF_ERRNO__FORMAT, w)
          | Some name =>
              match elf_getdata e idx with
              | None => ret (- LIBBPF_ERRNO__FORMAT, w)
              | Some d => let! (err, w) := collect_section e idx sh name d w in
                          if negb (err =? 0) then ret (err, w) else collect_sections e shstrndx n (idx + 1) w
              end
          end
      end
  end.
Definition bpf_object__elf_collect (ef : efile LE) (o : bpf_object) (relaxed_maps : bool) (pin_root_path : option path) : B (Z * efile LE * bpf_object) :=
  let! e := deref (ef_elf ef) in
  match elf_rawdata e (e_shstrndx (ef_ehdr ef)) with
  | None => ret (- LIBBPF_ERRNO__FORMAT, ef, o)
  | Some _ =>
      let! (err, w) := collect_sections e (e_shstrndx (ef_ehdr ef)) (elf_scns e) 1 (Walk ef o None None) in
      let ef := w_ef w in
      let o := w_obj w in
      if negb (err =? 0) then ret (err, ef, o)
      else if (ef_strtabidx ef =? 0) || (ef_strtabidx ef >? Z.of_nat (elf_scns e)) then ret (- LIBBPF_ERRNO__FORMAT, ef, o)
      else
        let! (err, o) := bpf_object__init_btf ef o (w_btf w) (w_ext w) in
        if negb (err =? 0) then ret (err, ef, o)
        else
          let! (err, o) := bpf_object__init_maps ef o relaxed_maps pin_root_path in
          if negb (err =? 0) then ret (err, ef, o)
          else
            let! (err, o) := bpf_object__sanitize_and_load_btf o in
            if negb (err =? 0) then ret (err, ef, o)
            else let! (err, o) := bpf_object__init_prog_names ef o in ret (err, ef, o)
  end.

(** ** Opening *)

(** The options; NULL is [None]. *)
Record open_opts := Open_opts { oo_object_name : option path; oo_relaxed_maps : bool; oo_pin_root_path : option path }.
(** "%lx" *)
Fixpoint hex_text (fuel : nat) (n : Z) : path :=
  let digit d := if d <? 10 then 48 + d else 87 + d in
  match fuel with
  | O => []
  | S fuel => if n <? 16 then [digit n] else hex_text fuel (n / 16) ++ [digit (n mod 16)]
  end.

(** The kernel's own type information as [bpf_core_find_kernel_btf] finds it, and what
    uname(2) answers. *)
Context (kernel_btf : Z + btf) (release : list Z).
(** The loop over the programs of [l], given by their handles. *)
Fixpoint guess_types (l : list Z) (o : bpf_object) : B (Z * bpf_object) :=
  match l with
  | [] => ret (0, o)
  | i :: l =>
      let! p := deref (o_programs o !! Z.to_nat i) in
      match libbpf_prog_type_by_name (Some (p_section_name p)) with
      | (err, None) => if err =? - ESRCH then guess_types l o else ret (err, o)
      | (err, Some (ty, at_)) =>
          if negb (err =? 0) then ret (err, o)
          else
            let p := bpf_program__set_expected_attach_type (bpf_program__set_type p ty) at_ in
            let set p := with_programs o (<[Z.to_nat i := p]> (o_programs o)) in
            if ty =? BPF_PROG_TYPE_TRACING then
              let! (err, id) := deref (libbpf_attach_btf_id_by_name kernel_btf (Some (p_section_name p))) in
              match id with
              | Some id => if negb (err =? 0) then ret (err, set p) else guess_types l (set (set_attach_btf_id p id))
              | None => ret (err, set p)
              end
            else guess_types l (set p)
      end
  end.
(** At [out]: closing an object also closes its file. *)
Definition open_failed (err : Z) (ef : efile LE) (o : bpf_object) : B (Z + bpf_object) :=
  let! _ := bpf_object__elf_finish ef in
  bpf_object__close (Some o) ;;;
  ret (inl err).
(** [buf] is the image and its address; [inl] is ERR_PTR. *)
Definition __bpf_object__open (p : option path) (buf : option (list Z * Z)) (opts : option open_opts) : B (Z + bpf_object) :=
  if negb elf_version_ok then ret (inl (- LIBBPF_ERRNO__LIBELF))
  else
    let obj_name := match opts with Some o => oo_object_name o | None => p end in
    let obj_name := match buf, obj_name with
                    | Some (b, a), None => Some (hex_text 16 a ++ 45 :: hex_text 16 (lenZ b))
                    | _, _ => obj_name
                    end in
    let! p := deref (match buf with Some _ => obj_name | None => p end) in
    let! r := bpf_object__new release p obj_name in
    match r with
    | inl err => ret (inl err)
    | inr (o, ef) =>
        let relaxed_maps := match opts with Some o => oo_relaxed_maps o | None => false end in
        let pin_root_path := match opts with Some o => oo_pin_root_path o | None => None end in
        let! (err, ef) := bpf_object__elf_init ef p (match buf with Some (b, _) => if lenZ b >? 0 then Some b else None | None => None end) in
        if negb (err =? 0) then open_failed err ef o
        else
          let err := bpf_object__check_endianness ef in
          if negb (err =? 0) then open_failed err ef o
          else
            let! (err, o) := bpf_object__probe_caps o in
            if negb (err =? 0) then open_failed err ef o
            else
              let! (err, ef, o) := bpf_object__elf_collect ef o relaxed_maps pin_root_path in
              if negb (err =? 0) then open_failed err ef o
              else
                let! (err, o) := bpf_object__collect_reloc ef o in
                if negb (err =? 0) then open_failed err ef o
                else
                  let! ef := bpf_object__elf_finish ef in
                  let! l := deref (for_each_program o) in
                  let! (err, o) := guess_types l o in
                  if negb (err =? 0) then open_failed err ef o else ret (inr o)
    end.
(** NULL is [inr None] from here on, where the code returns it. *)
Definition some_object (r : Z + bpf_object) : Z + option bpf_object := match r with inl e => inl e | inr o => inr (Some o) end.
Definition MAPS_RELAX_COMPAT : Z := 1.
Definition __bpf_object__open_xattr (file : option path) (flags : Z) : B (Z + option bpf_object) :=
  match file with
  | None => ret (inr None)
  | Some _ => let! r := __bpf_object__open file None (Some (Open_opts None (negb (Z.land flags MAPS_RELAX_COMPAT =? 0)) None)) in ret (some_object r)
  end.
Definition bpf_object__open_xattr (file : option path) : B (Z + option bpf_object) := __bpf_object__open_xattr file 0.
Definition bpf_object__open (p : option path) : B (Z + option bpf_object) := bpf_object__open_xattr p.
Definition bpf_object__open_file (p : option path) (opts : option open_opts) : B (Z + bpf_object) :=
  match p with None => ret (inl (- EINVAL)) | Some _ => __bpf_object__open p None opts end.
Definition bpf_object__open_mem (buf : option (list Z * Z)) (opts : option open_opts) : B (Z + bpf_object) :=
  match buf with
  | None => ret (inl (- EINVAL))
  | Some (b, _) => if lenZ b =? 0 then ret (inl (- EINVAL)) else __bpf_object__open None buf opts
  end.
Definition bpf_object__open_buffer (buf : option (list Z * Z)) (name : option path) : B (Z + option bpf_object) :=
  match buf with
  | None => ret (inr None)
  | Some (b, _) => if lenZ b =? 0 then ret (inr None)
                   else let! r := bpf_object__open_mem buf (Some (Open_opts name true None)) in ret (some_object r)
  end.
End Open.

(** ** What is collected *)

Section OpenRules.
Context {BK : BpfKernel} {BO : BpfKernelOk BK} {LE : Libelf BK} {LO : LibelfOk LE} {OS : Os}.
Abbreviation B := (M (bsys BK)).

(** The index of the instruction an entry is about. *)
Definition insn_of (rel : GElf_Rel) : Z := u32 (r_offset rel / 8).
(** The entry lies in the program, and a load is not from .text. *)
Definition entry_ok (symbols d : Elf_Data) (o : bpf_object) (insns : list bpf_insn) (i : Z) : Prop :=
  forall rel, gelf_getrel d i = Some rel -> insn_of rel < lenZ insns /\
    forall sym insn, gelf_getsym symbols (GELF_R_SYM (r_info rel)) = Some sym -> insns !! Z.to_nat (insn_of rel) = Some insn ->
      st_shndx sym = o_text_shndx o -> code insn = or3 BPF_LD BPF_IMM BPF_DW -> bpf_object__shndx_is_maps o (st_shndx sym) || bpf_object__shndx_is_data o (st_shndx sym) = true.
(** What a description says of entry [i]: a call is a call; a load is from the first map that
    the symbol stands for, internal or not. *)
Definition describes (symbols d : Elf_Data) (o : bpf_object) (insns : list bpf_insn) (i : Z) (x : reloc_desc) : Prop :=
  exists rel sym insn, gelf_getrel d i = Some rel /\ gelf_getsym symbols (GELF_R_SYM (r_info rel)) = Some sym /\
    insns !! Z.to_nat (insn_of rel) = Some insn /\
    let ty := bpf_object__section_to_libbpf_map_type o (st_shndx sym) in
    let first_map k m := o_maps o !! k = Some m /\ stands_for ty sym m /\ forall j m', (j < k)%nat -> o_maps o !! j = Some m' -> ~ stands_for ty sym m' in
    match x with
    | RELO_CALL j _ => j = insn_of rel /\ code insn = Z.lor BPF_JMP BPF_CALL /\ src_reg insn = BPF_PSEUDO_CALL
    | RELO_LD64 j k => j = insn_of rel /\ code insn = or3 BPF_LD BPF_IMM BPF_DW /\ ty = LIBBPF_MAP_UNSPEC /\ exists n m, k = Z.of_nat n /\ first_map n m
    | RELO_DATA j k => j = insn_of rel /\ code insn = or3 BPF_LD BPF_IMM BPF_DW /\ ty <> LIBBPF_MAP_UNSPEC /\ exists n m, k = Z.of_nat n /\ first_map n m
    end.
Lemma insn_of_range rel : 0 <= insn_of rel.
Proof. apply u32_range. Qed.
Lemma wp_reloc_entry symbols d o insns i s : entry_ok symbols d o insns i ->
  wp (reloc_entry symbols d o insns i) (fun r s' => s' = s /\ match r with inl e => e <> 0 | inr x => describes symbols d o insns i x end) s.
Proof using.
  intros Hok. unfold reloc_entry. destruct (gelf_getrel d i) as [rel|] eqn:Er; [|by apply wp_ret].
  destruct (gelf_getsym symbols (GELF_R_SYM (r_info rel))) as [sym|] eqn:Es; [|by apply wp_ret]. destruct (Hok rel Er) as [Hin Htext]. cbv zeta. fold (insn_of rel).
  destruct (lookup_lt_is_Some_2 insns (Z.to_nat (insn_of rel))) as [insn Ei]; [pose proof (insn_of_range rel); lia|].
  destruct (st_shndx sym >=? SHN_LORESERVE); [apply wp_bind; eapply wp_deref; [exact Ei|]; by apply wp_ret|].
  destruct (bpf_object__relo_in_known_section o (st_shndx sym)) eqn:Ek; cbn [negb]; [|by apply wp_ret].
  apply wp_bind. eapply wp_deref; [exact Ei|]. destruct (Z.eqb_spec (code insn) (Z.lor BPF_JMP BPF_CALL)) as [Hc|Hc].
  { destruct (Z.eqb_spec (src_reg insn) BPF_PSEUDO_CALL) as [Hsr|]; cbn [negb]; apply wp_ret; [|done]. split; [done|]. by exists rel, sym, insn. }
  destruct (Z.eqb_spec (code insn) (or3 BPF_LD BPF_IMM BPF_DW)) as [Hl|]; cbn [negb]; [|by apply wp_ret].
  destruct (bpf_object__shndx_is_maps o (st_shndx sym) || bpf_object__shndx_is_data o (st_shndx sym))%bool eqn:Emd.
  2: { exfalso. unfold bpf_object__relo_in_known_section in Ek. rewrite <- orb_assoc, Emd, orb_false_r in Ek. apply Z.eqb_eq in Ek.
       specialize (Htext sym insn Es Ei Ek Hl). congruence. }
  set (ty := bpf_object__section_to_libbpf_map_type o (st_shndx sym)). destruct (_ && (GELF_ST_BIND (st_info sym) =? STB_GLOBAL))%bool; [by apply wp_ret|].
  destruct (_ && negb (cap_global_data (o_caps o)))%bool; [by apply wp_ret|].
  destruct (list_find (stands_for ty sym) (o_maps o)) as [[k m]|] eqn:Ef; [|by apply wp_ret]. apply list_find_Some in Ef as (E1 & E2 & E3).
  apply wp_ret. split; [done|]. case_bool_decide as Hty; cbn [negb]; exists rel, sym, insn; (split; [done|]); (split; [done|]); (split; [done|]); cbv zeta; fold ty;
    (split; [done|]); (split; [done|]); (split; [done|]); exists k, m; (split; [done|]); (split; [done|]); (split; [done|]); intros j m' Hj Hm'; by eapply E3.
Qed.

(** All entries of a section. *)
Definition same_maps (o o' : bpf_object) : Prop := o' = o \/ o' = with_pseudo_calls o.
Lemma describes_same symbols d o o' insns i x : same_maps o o' -> describes symbols d o insns i x -> describes symbols d o' insns i x.
Proof. by intros [->| ->]. Qed.
Lemma entry_ok_same symbols d o o' insns i : same_maps o o' -> entry_ok symbols d o insns i -> entry_ok symbols d o' insns i.
Proof. by intros [->| ->]. Qed.
Lemma same_maps_step o1 o2 o3 : same_maps o1 o2 -> same_maps o2 o3 -> same_maps o1 o3.
Proof. intros [->| ->] [->| ->]; [by left|by right|by right|by right]. Qed.
Lemma wp_reloc_entries symbols d insns s : forall n i o done, (forall j, entry_ok symbols d o insns j) ->
  wp (reloc_entries symbols d o insns n i done) (fun '(err, l, o') s' => s' = s /\ same_maps o o' /\ exists new, l = done ++ new /\
    (forall k x, new !! k = Some x -> describes symbols d o insns (i + Z.of_nat k) x) /\ (err = 0 -> length new = n)) s.
Proof using.
  induction n as [|n IH]; intros i o done Hok; cbn [reloc_entries].
  { apply wp_ret. split; [done|]. split; [by left|]. exists []. by rewrite app_nil_r. }
  apply wp_bind. eapply wp_mono; [by apply wp_reloc_entry|]. intros [err|x] s1 [-> Hx].
  { apply wp_ret. split; [done|]. split; [by left|]. exists []. rewrite app_nil_r. split; [done|]. split; [done|]. by intros ->. }
  set (o1 := match x with RELO_CALL _ _ => with_pseudo_calls o | _ => o end).
  assert (Hs : same_maps o o1) by (unfold o1; destruct x; [by left|by right|by left]).
  eapply wp_mono; [apply (IH (i + 1) o1); intros j; by eapply entry_ok_same|]. intros [[err l] o2] s2 (-> & Ho & new & -> & Hn & Hl).
  split; [done|]. split; [by eapply same_maps_step|]. exists (x :: new). split; [by rewrite <- (assoc_L (++))|]. split; [|intros E; cbn; by rewrite Hl].
  intros [|k] y; cbn [lookup list_lookup]; [intros [= <-]; by rewrite Z.add_0_r|]. intros Hy. apply Hn in Hy.
  replace (i + 1 + Z.of_nat k) with (i + Z.of_nat (S k)) in Hy by lia. by unfold o1 in Hy; destruct x.
Qed.

(** ** Programs *)

(** A program before it is loaded. *)
Record fresh_prog (p : bpf_program) : Prop := {
  fp_main : p_main_prog_cnt p = 0;
  fp_level : p_log_level p = 0;
  fp_fds : p_fds p = [] /\ p_prep p = None;
  fp_records : p_func_info_cnt p = 0 /\ p_line_info_cnt p = 0
}.
(** Its instructions are the bytes of its section. *)
Definition from_section (e : elf) (p : bpf_program) : Prop :=
  exists d b, elf_getdata e (p_idx p) = Some d /\ d_buf d = Some b /\ d_size d mod 8 = 0 /\ p_insns p = insns_of b.
Definition prog_in (e : elf) (p : bpf_program) : Prop := fresh_prog p /\ from_section e p.
(** A symbol table of the file. *)
Definition symtab (e : elf) (d : Elf_Data) : Prop := exists k sh, gelf_getshdr e k = Some sh /\ sh_type sh = SHT_SYMTAB /\ elf_getdata e k = Some d.
(** A relocation section of the file. *)
Definition rel_section (e : elf) (x : GElf_Shdr * Elf_Data) : Prop := exists k, gelf_getshdr e k = Some x.1 /\ sh_type x.1 = SHT_REL /\ elf_getdata e k = Some x.2.
(** Its relocations describe the entries of a relocation section for its section. *)
Definition relocs_in (e : elf) (o : bpf_object) (p : bpf_program) : Prop := forall l, p_reloc p = Some l ->
  exists symbols x, symtab e symbols /\ rel_section e x /\ p_idx p = s32 (sh_info x.1) /\
    forall k r, l !! k = Some r -> describes symbols x.2 o (p_insns p) (Z.of_nat k) r.
Lemma from_section_length e p d : from_section e p -> elf_getdata e (p_idx p) = Some d -> lenZ (p_insns p) = d_size d / 8.
Proof using LO.
  intros (d' & b & E1 & E2 & Hm & ->) Hd. assert (d' = d) as -> by congruence. destruct (data_bytes _ _ _ _ E1 E2) as [Hl _].
  rewrite (insns_of_length (length b)) by lia. rewrite Nat2Z.inj_div, Hl. done.
Qed.
Lemma wp_add_program e o d name idx s X : own s X -> memory -> elf_getdata e idx = Some d -> (0 < d_size d -> d_buf d <> None) ->
  wp (bpf_object__add_program o d name idx) (fun '(err, o') s' => own s' X /\ kept X s s' /\
    (err <> 0 /\ o' = o \/ err = 0 /\ exists p, prog_in e p /\ p_reloc p = None /\ o' = with_programs o (o_programs o ++ [p]))) s.
Proof using BO LO.
  intros HO Hm Ed Hb. unfold bpf_object__add_program, bpf_program__init. apply wp_bind.
  destruct (Z.eqb_spec (d_size d) 0); cbn [orb]; [apply wp_ret, wp_ret; split; [done|]; split; [apply kept_refl|by left]|].
  destruct (Z.eqb_spec (d_size d mod 8) 0) as [H8|]; cbn [negb]; [|apply wp_ret, wp_ret; split; [done|]; split; [apply kept_refl|by left]].
  pose proof (data_size _ _ _ Ed). destruct (d_buf d) as [b|] eqn:Eb; [|by destruct (Hb ltac:(lia))].
  apply wp_bind, (own_malloc_ok s X); [done|done|]. intros s1 HO1 K1. cbn [negb]. apply wp_bind. unfold __bpf_program__pin_name.
  apply wp_bind, (own_malloc_ok s1 X); [done|done|]. intros s2 HO2 K2. apply wp_bind, wp_guard; [done|]. apply wp_ret.
  apply wp_bind, (own_malloc_ok s2 X); [done|done|]. intros s3 HO3 K3. cbn [negb]. apply wp_bind. eapply wp_deref; [reflexivity|]. apply wp_ret.
  apply wp_bind, (own_malloc_ok s3 X); [done|done|]. intros s4 HO4 K4. cbn [negb]. apply wp_ret. split; [done|]. split.
  { eapply kept_trans; [exact K1|]. eapply kept_trans; [exact K2|]. by eapply kept_trans. }
  right. split; [done|]. exists (new_program idx name (map (fun c => if c =? slash then 95 else c) name) (insns_of b)). split; [|by split]. split; [by split|]. by exists d, b.
Qed.
Lemma set_reloc_in e p l : prog_in e p -> prog_in e (set_reloc p l).
Proof. by intros [[H1 H2 H3 H4] H5]. Qed.

(** ** Collecting relocations *)

Definition sec_named (e : elf) (shstrndx i : Z) (name : path) : Prop :=
  exists sh, gelf_getshdr e i = Some sh /\ elf_strptr e shstrndx (sh_name sh) = Some name.
(** What a file must have for opening to stay inside it; none of it is checked.  The sections
    whose bytes are copied have bytes; symbols have values below 2^63; relocation entries have a
    size and lie inside the section they are for; no load is relocated to an undefined
    symbol or to one of .text.  There is no type information. *)
Record file_ok (e : elf) (shstrndx : Z) : Prop := {
  fk_bits i sh name : gelf_getshdr e i = Some sh -> elf_strptr e shstrndx (sh_name sh) = Some name ->
    name ∈ [str "license"; str "version"; str "maps"] -> sh_type sh <> SHT_NOBITS;
  fk_no_btf i : ~ sec_named e shstrndx i (str ".BTF");
  fk_values d i sym : symtab e d -> gelf_getsym d i = Some sym -> st_value sym < 9223372036854775808;
  fk_entsize k sh : gelf_getshdr e k = Some sh -> sh_type sh = SHT_REL -> sh_entsize sh <> 0;
  fk_inside k sh d j rel t : gelf_getshdr e k = Some sh -> sh_type sh = SHT_REL -> elf_getdata e k = Some d -> gelf_getrel d j = Some rel ->
    elf_getdata e (s32 (sh_info sh)) = Some t -> r_offset rel + 8 <= d_size t;
  fk_text k sh d j rel t b insn sd sym : gelf_getshdr e k = Some sh -> sh_type sh = SHT_REL -> elf_getdata e k = Some d -> gelf_getrel d j = Some rel ->
    elf_getdata e (s32 (sh_info sh)) = Some t -> d_buf t = Some b -> insns_of b !! Z.to_nat (insn_of rel) = Some insn ->
    symtab e sd -> gelf_getsym sd (GELF_R_SYM (r_info rel)) = Some sym ->
    st_shndx sym = 0 \/ sec_named e shstrndx (st_shndx sym) (str ".text") -> code insn <> or3 BPF_LD BPF_IMM BPF_DW
}.
Definition text_ok (e : elf) (shstrndx : Z) (o : bpf_object) : Prop := o_text_shndx o = 0 \/ sec_named e shstrndx (o_text_shndx o) (str ".text").

Section Entries.
Context (e : elf) (shstrndx : Z) (HF : file_ok e shstrndx).
Lemma entries_ok symbols o p x j : symtab e symbols -> text_ok e shstrndx o -> prog_in e p -> rel_section e x -> p_idx p = s32 (sh_info x.1) ->
  entry_ok symbols x.2 o (p_insns p) j.
Proof using HF LO.
  intros Hsym Htx [_ Hp] (k & Ek & Et & Ed) Hidx rel Hr. destruct Hp as (t & b & E1 & E2 & H8 & Ei). rewrite Hidx in E1.
  pose proof (fk_inside _ _ HF k x.1 x.2 j rel t Ek Et Ed Hr E1) as Hin. pose proof (data_size _ _ _ E1) as Hs. destruct (rel_fields _ _ _ Hr) as [[? _] _].
  assert (Hoff : insn_of rel = r_offset rel / 8). { unfold insn_of. apply u32_small. unfold is_u32. Z.div_mod_to_equations. lia. }
  assert (Hl : lenZ (p_insns p) = d_size t / 8). { apply (from_section_length e p t); [by exists t, b; rewrite Hidx|by rewrite Hidx]. }
  split; [rewrite Hoff, Hl; Z.div_mod_to_equations; lia|]. intros sym insn Hs1 Hi Hsh Hc. exfalso. rewrite Ei in Hi.
  eapply (fk_text _ _ HF k x.1 x.2 j rel t b insn symbols sym); try done. unfold text_ok in Htx. by rewrite <- Hsh in Htx.
Qed.
(** The object while relocations are collected. *)
Record collecting (o o' : bpf_object) : Prop := {
  co_maps : o_maps o' = o_maps o;
  co_shndx : forall k, shndx_of o' k = shndx_of o k;
  co_rest : o_loaded o' = o_loaded o /\ o_btf o' = o_btf o /\ o_btf_ext o' = o_btf_ext o /\ o_data o' = o_data o /\ o_rodata o' = o_rodata o /\ o_caps o' = o_caps o;
  co_progs : Forall (prog_in e) (o_programs o');
  co_relocs : Forall (relocs_in e o) (o_programs o')
}.
Lemma describes_collecting o o' symbols d insns i x : collecting o o' -> describes symbols d o' insns i x -> describes symbols d o insns i x.
Proof.
  intros [H1 H2 _ _ _]. unfold describes, bpf_object__section_to_libbpf_map_type. rewrite H1. pose proof (H2 DATA) as D. pose proof (H2 RODATA) as R. pose proof (H2 BSS) as S.
  cbn in D, R, S. by rewrite D, R, S.
Qed.
Lemma collecting_calls o o' : collecting o o' -> collecting o (with_pseudo_calls o').
Proof. by intros [H1 H2 H3 H4 H5]. Qed.
Lemma wp_collect_relocs ef symbols o s X : own s X -> memory -> ef_symbols ef = Some symbols -> symtab e symbols -> text_ok e shstrndx o ->
  forall l o1 s1, own s1 X -> kept X s s1 -> collecting o o1 -> Forall (rel_section e) l ->
  wp (collect_reloc_loop ef l o1) (fun '(err, o') s' => own s' X /\ kept X s s' /\ collecting o o') s1.
Proof using BO HF LO.
  intros HO Hm Es Hst Htx. induction l as [|[sh d] l IH]; intros o1 s1 HO1 K1 HC Hl; cbn [collect_reloc_loop]; [by apply wp_ret|].
  apply Forall_cons_1 in Hl as [Hx Hl]. destruct (negb (sh_type sh =? SHT_REL)); [by apply wp_ret|].
  destruct (bpf_object__find_prog_by_idx o1 (s32 (sh_info sh))) as [i|] eqn:Ei; [|by apply wp_ret].
  unfold bpf_object__find_prog_by_idx in Ei. destruct (list_find _ (o_programs o1)) as [[n p]|] eqn:Ep; [|done]. injection Ei as <-.
  apply list_find_Some in Ep as (Ep & Hidx & _). rewrite Nat2Z.id. apply wp_bind. eapply wp_deref; [exact Ep|]. apply wp_bind.
  assert (Hp : prog_in e p) by (pose proof (co_progs _ _ HC) as F; rewrite list.Forall_forall in F; apply F; by eapply list_elem_of_lookup_2).
  assert (Htx1 : text_ok e shstrndx o1) by (unfold text_ok in *; pose proof (co_shndx _ _ HC TEXT) as T; cbn in T; by rewrite T).
  unfold bpf_program__collect_reloc. apply wp_bind, wp_guard.
  { apply negb_true_iff, Z.eqb_neq. destruct Hx as (k & Ek & Et & _). by eapply (fk_entsize _ _ HF). }
  apply wp_bind, (own_malloc_ok s1 X); [done|done|]. intros s2 HO2 K2. cbn [negb]. apply wp_bind. eapply wp_deref; [exact Es|]. apply wp_bind.
  eapply wp_mono; [apply (wp_reloc_entries symbols d (p_insns p) s2); intros j; by apply (entries_ok symbols o1 p (sh, d) j)|].
  intros [[err rl] o2] s3 (-> & Hsm & new & -> & Hd & _). apply wp_ret. cbn [app]. set (o3 := with_programs o2 _).
  assert (HC2 : collecting o o2) by (destruct Hsm as [->| ->]; [done|by apply collecting_calls]).
  assert (Hp2 : o_programs o2 = o_programs o1) by (by destruct Hsm as [->| ->]).
  assert (HC3 : collecting o o3).
  { destruct HC2 as [G1 G2 G3 G4 G5]. split; [done|done|done| |].
    - apply Forall_insert; [done|by apply set_reloc_in].
    - apply Forall_insert; [done|]. intros rl [= <-]. exists symbols, (sh, d). split; [done|]. split; [done|]. split; [done|]. intros k x Hk. apply (describes_collecting o o1); [done|]. exact (Hd k x Hk). }
  pose proof (kept_trans _ _ _ _ K1 K2). destruct (negb (err =? 0)); [by apply wp_ret|]. by apply IH.
Qed.

(** ** Walking the sections *)

(** What the walk has found so far. *)
Record walked (fd : Z) (w : walk) : Prop := {
  wk_file : ef_elf (w_ef w) = Some e /\ ef_fd (w_ef w) = fd /\ e_shstrndx (ef_ehdr (w_ef w)) = shstrndx;
  wk_obj : o_loaded (w_obj w) = false /\ o_btf (w_obj w) = None /\ o_btf_ext (w_obj w) = None /\ o_maps (w_obj w) = [];
  wk_progs : Forall (prog_in e) (o_programs (w_obj w)) /\ Forall (fun p => p_reloc p = None) (o_programs (w_obj w));
  wk_syms : match ef_symbols (w_ef w) with Some d => symtab e d | None => ef_strtabidx (w_ef w) = 0 end;
  wk_maps : o_maps_shndx (w_obj w) < 0 \/ sec_named e shstrndx (o_maps_shndx (w_obj w)) (str "maps");
  wk_text : text_ok e shstrndx (w_obj w);
  wk_data : data_sections (w_ef w) (w_obj w);
  wk_relocs : Forall (rel_section e) (ef_reloc (w_ef w));
  wk_btf : w_btf w = None
}.
Lemma wp_license o d s : (0 < d_size d -> d_buf d <> None) -> 0 <= d_size d ->
  wp (bpf_object__init_license (BK := BK) o d) (fun r s' => s' = s /\ r.1 = 0 /\ exists l, r.2 = with_license o l) s.
Proof using.
  intros Hb Hs. unfold bpf_object__init_license. apply wp_bind. destruct (Z.eqb_spec (Z.min (d_size d) 63) 0).
  - apply wp_ret, wp_ret. split; [done|]. split; [done|]. by eexists.
  - destruct (d_buf d) as [b|]; [|by destruct (Hb ltac:(lia))]. eapply wp_deref; [reflexivity|]. apply wp_ret. split; [done|]. split; [done|]. by eexists.
Qed.
Lemma wp_kversion o d b s : d_size d = 4 -> d_buf d = Some b -> lenZ b = 4 ->
  wp (bpf_object__init_kversion (BK := BK) o d) (fun r s' => s' = s /\ r.1 = 0 /\ exists v, r.2 = with_kern_version o v) s.
Proof using.
  intros Hs Hb Hl. unfold bpf_object__init_kversion. rewrite Hs. cbn [negb Z.eqb Pos.eqb]. apply wp_bind. eapply wp_deref; [exact Hb|]. apply wp_bind.
  do 4 (destruct b as [|? b]; [cbn in Hl; lia|]). eapply wp_deref; [reflexivity|]. apply wp_ret. split; [done|]. split; [done|]. by eexists.
Qed.
Lemma wp_collect_section fd idx sh name d w s X : own s X -> memory -> walked fd w -> 0 <= idx ->
  gelf_getshdr e idx = Some sh -> elf_strptr e shstrndx (sh_name sh) = Some name -> elf_getdata e idx = Some d ->
  wp (collect_section e idx sh name d w) (fun '(err, w') s' => own s' X /\ kept X s s' /\ walked fd w') s.
Proof using BO HF LO.
  intros HO Hm [W1 W2 W3 W4 W5 W6 W7 W8 W9] Hi Esh En Ed. destruct w as [ef o bd xd]. cbn [w_ef w_obj w_btf w_ext] in *.
  pose proof (data_size _ _ _ Ed) as Hds. pose proof (data_there e idx sh d Esh Ed) as Hthere.
  assert (Hnm : sec_named e shstrndx idx name) by (by exists sh).
  assert (Hbits : name ∈ [str "license"; str "version"; str "maps"] -> 0 < d_size d -> d_buf d <> None).
  { intros Hin. apply Hthere. by eapply (fk_bits _ _ HF). }
  unfold collect_section. cbv zeta. cbn [w_ef w_obj w_btf w_ext].
  assert (Hkeep : forall (err : Z) (w' : walk), walked fd w' -> wp (ret (err, w')) (fun '(err, w') s' => own s' X /\ kept X s s' /\ walked fd w') s).
  { intros err w' H. apply wp_ret. split; [done|]. split; [apply kept_refl|done]. }
  assert (Hsame : walked fd (Walk ef o bd xd)) by done.
  case_bool_decide as N1.
  { apply wp_bind. eapply wp_mono; [apply wp_license; [intros; apply Hbits; [rewrite N1; by left|done]|lia]|]. intros [err o'] s' (-> & _ & l & El). cbn [fst snd] in El. subst o'.
    by apply Hkeep. }
  case_bool_decide as N2.
  { apply wp_bind. destruct (Z.eqb_spec (d_size d) 4) as [E4|Hne].
    - destruct (d_buf d) as [b|] eqn:Eb; [|by destruct (Hbits ltac:(rewrite N2; right; by left) ltac:(lia))]. destruct (data_bytes _ _ _ _ Ed Eb) as [Hl _].
      eapply wp_mono; [apply (wp_kversion o d b s E4 Eb ltac:(lia))|]. intros [err o'] s' (-> & _ & v & Ev). cbn [fst snd] in Ev. subst o'. by apply Hkeep.
    - unfold bpf_object__init_kversion. rewrite (proj2 (Z.eqb_neq _ _)) by done. cbn [negb]. apply wp_ret. by apply Hkeep. }
  case_bool_decide as N3. { apply Hkeep. split; try done. right. by rewrite <- N3. }
  case_bool_decide as N4. { by apply Hkeep. }
  case_bool_decide as N5. { subst name. by destruct (fk_no_btf _ _ HF idx). }
  case_bool_decide as N6. { by apply Hkeep. }
  destruct (Z.eqb_spec (sh_type sh) SHT_SYMTAB) as [Ht|_].
  { destruct (ef_symbols ef) as [|] eqn:Es; [by apply Hkeep; split; cbn; rewrite ?Es|]. apply Hkeep. split; try done. cbn. by exists idx, sh. }
  destruct (Z.eqb_spec (sh_type sh) SHT_PROGBITS) as [Ht|Hnp]; cbn [andb].
  - destruct (Z.gtb_spec (d_size d) 0) as [Hd0|Hd0].
    2: { rewrite Ht. cbn. by apply Hkeep. }
    destruct (d_buf d) as [b|] eqn:Eb; [|by destruct (Hthere ltac:(rewrite Ht; done) Hd0)].
    destruct (negb (Z.land (sh_flags sh) SHF_EXECINSTR =? 0)).
    + set (o1 := if bool_decide (name = str ".text") then with_shndx o TEXT idx else o).
      assert (Ho1 : walked fd (Walk ef o1 bd xd)).
      { unfold o1. case_bool_decide as Nt; [|done]. split; try done. right. change (sec_named e shstrndx idx (str ".text")). by rewrite <- Nt. }
      apply wp_bind. eapply wp_mono; [apply (wp_add_program e o1 d name idx s X HO Hm Ed); by rewrite Eb|]. intros [err o'] s' (HO' & K' & Hr).
      apply wp_ret. split; [done|]. split; [done|]. cbn [on_obj fst snd w_ef w_btf w_ext]. destruct Ho1 as [V1 V2 V3 V4 V5 V6 V7 V8 V9].
      destruct Hr as [[_ ->]|(_ & p & Hp & Hpr & ->)]; [done|]. split; try done. cbn in *. split; apply Forall_app; (split; [apply V3|]); by apply List.Forall_cons.
    + destruct W7 as (D1 & D2 & D3). case_bool_decide as Nd.
      { apply Hkeep. split; try done. cbn. split; [|done]. intros _. by exists d, b. }
      case_bool_decide as Nr. { apply Hkeep. split; try done. cbn. split; [done|]. split; [|done]. intros _. by exists d, b. }
      by apply Hkeep.
  - destruct (Z.eqb_spec (sh_type sh) SHT_REL) as [Ht|_].
    + destruct (negb (section_have_execinstr e (s32 (sh_info sh)))); [by apply Hkeep|]. apply wp_bind, (own_malloc_ok s X); [done|done|].
      intros s1 HO1 K1. cbn [negb]. apply wp_ret. split; [done|]. split; [done|]. split; try done. cbn. apply Forall_app. split; [done|].
      apply List.Forall_cons; [by exists idx|done].
    + destruct (_ && _)%bool; [|by apply Hkeep]. apply Hkeep. split; try done. cbn. destruct W7 as (D1 & D2 & D3). done.
Qed.
Lemma wp_collect_sections fd : forall n idx w s X, own s X -> memory -> walked fd w -> 0 <= idx ->
  wp (collect_sections e shstrndx n idx w) (fun '(err, w') s' => own s' X /\ kept X s s' /\ walked fd w') s.
Proof using BO HF LO.
  induction n as [|n IH]; intros idx w s X HO Hm HW Hi; cbn [collect_sections].
  { apply wp_ret. split; [done|]. split; [apply kept_refl|done]. }
  assert (Hstop : forall err : Z, wp (ret (err, w)) (fun '(err, w') s' => own s' X /\ kept X s s' /\ walked fd w') s).
  { intros err. apply wp_ret. split; [done|]. split; [apply kept_refl|done]. }
  destruct (gelf_getshdr e idx) as [sh|] eqn:Esh; [|apply Hstop]. destruct (elf_strptr e shstrndx (sh_name sh)) as [name|] eqn:En; [|apply Hstop].
  destruct (elf_getdata e idx) as [d|] eqn:Ed; [|apply Hstop]. apply wp_bind.
  eapply wp_mono; [by apply (wp_collect_section fd idx sh name d w s X)|]. intros [err w1] s1 (HO1 & K1 & HW1).
  destruct (negb (err =? 0)); [by apply wp_ret|]. eapply wp_mono; [apply (IH (idx + 1) w1 s1 X HO1 Hm HW1); lia|]. intros [err2 w2] s2 (HO2 & K2 & HW2).
  split; [done|]. split; [by eapply kept_trans|done].
Qed.

(** ** The object after the walk *)

(** An object without a descriptor. *)
Definition idle (o : bpf_object) : Prop := o_btf o = None /\ Forall fresh (o_maps o) /\ Forall fresh_prog (o_programs o).
(** Everything [bpf_object__elf_collect] leaves, but for the symbols. *)
Record collected (o : bpf_object) : Prop := {
  cl_obj : o_loaded o = false /\ o_btf o = None /\ o_btf_ext o = None;
  cl_maps : Forall fresh (o_maps o) /\ Forall (map_ready o) (o_maps o);
  cl_progs : Forall (prog_in e) (o_programs o) /\ Forall (fun p => p_reloc p = None) (o_programs o);
  cl_text : text_ok e shstrndx o
}.
Lemma collected_idle o : collected o -> idle o.
Proof. intros [(_ & Hb & _) [Hm _] [Hp _] _]. split; [done|]. split; [done|]. eapply list.Forall_impl; [exact Hp|]. by intros p []. Qed.
Lemma insert_map_perm m l : insert_map m l ≡ₚ m :: l.
Proof. induction l as [|x l IH]; cbn [insert_map]; [done|]. destruct (_ <=? 0); [done|]. rewrite IH. apply Permutation_swap. Qed.
Lemma sort_maps_perm l : sort_maps l ≡ₚ l.
Proof. induction l as [|m l IH]; cbn; [done|]. by rewrite insert_map_perm, IH. Qed.
Lemma fresh_ready o m : fresh m -> (m_type m = LIBBPF_MAP_DATA -> o_data o <> None) -> (m_type m = LIBBPF_MAP_RODATA -> o_rodata o <> None) -> map_ready o m.
Proof. intros (F1 & F2 & F3 & F4) H1 H2. split; [done|congruence|done|done]. Qed.

Lemma wp_init_maps fd w relaxed root s X : own s X -> memory -> walked fd w -> o_btf_maps_shndx (w_obj w) < 0 ->
  wp (bpf_object__init_maps (w_ef w) (w_obj w) relaxed root) (fun '(err, o') s' => own s' X /\ kept X s s' /\ idle o' /\ (err = 0 -> collected o')) s.
Proof using BO HF LO.
  intros HO Hm [W1 W2 W3 W4 W5 W6 W7 W8 W9] Hnb. destruct w as [ef o bd xd]. cbn [w_ef w_obj w_btf w_ext] in *.
  destruct W2 as (O1 & O2 & O3 & O4). destruct W3 as [P1 P2].
  assert (Hfp : Forall fresh_prog (o_programs o)) by (eapply list.Forall_impl; [exact P1|]; by intros p []).
  assert (HM : maps_section ef o).
  { destruct W5 as [|(sh & Esh & En)]; [by left|]. right. exists e. split; [apply W1|]. split.
    - intros d Ed. apply (data_there e _ sh d Esh Ed). eapply (fk_bits _ _ HF); [exact Esh|exact En|]. right. right. by left.
    - intros symbols i sym Es Hs. rewrite Es in W4. by eapply (fk_values _ _ HF). }
  unfold bpf_object__init_maps. apply wp_bind. eapply wp_mono; [by apply (wp_init_user_maps ef o (negb relaxed) s X)|].
  intros [e1 o1] s1 (HO1 & K1 & l & Ho1 & Hl & _). cbn [fst snd] in *. subst o1. rewrite O4. cbn [app].
  assert (Hlf : Forall fresh l) by (eapply list.Forall_impl; [exact Hl|]; by intros m []).
  destruct (negb (e1 =? 0)) eqn:E1; [apply wp_ret; split; [done|]; split; [done|]; split; [by split|by intros ->]|].
  unfold bpf_object__init_user_btf_maps. change (o_btf_maps_shndx (with_maps o l)) with (o_btf_maps_shndx o). rewrite (proj2 (Z.ltb_lt _ _)) by done.
  apply wp_bind, wp_ret. cbn [negb Z.eqb]. apply wp_bind. eapply wp_mono; [by apply (wp_global_data_maps ef (with_maps o l) s1 X)|].
  intros [e2 o2] s2 (HO2 & K2 & E2 & l2 & d & rd & Ho2 & F2 & D1 & D2). cbn [fst snd] in *. subst e2 o2. cbn [negb Z.eqb]. apply wp_ret.
  split; [done|]. split; [by eapply kept_trans|]. change (o_maps (with_contents _ d rd)) with (l ++ l2). set (o3 := with_maps _ _).
  assert (HA : Forall fresh (l ++ l2)) by (by apply Forall_app). assert (HA' : Forall fresh (o_maps o3)).
  { change (o_maps o3) with (sort_maps (l ++ l2)). by rewrite sort_maps_perm. }
  split; [by split|]. intros _. split; [done| |done|done]. split; [done|]. change (o_maps o3) with (sort_maps (l ++ l2)). rewrite sort_maps_perm.
  rewrite list.Forall_forall in HA, Hl. apply list.Forall_forall. intros m Hin. apply fresh_ready; [auto|intros Ht; apply D1|intros Ht; apply D2];
    (apply List.Exists_exists; exists m; split; [apply list_elem_of_In|done]); apply elem_of_app in Hin as [Hin|Hin];
    [destruct (Hl m Hin); congruence|done|destruct (Hl m Hin); congruence|done].
Qed.
(** Naming the programs. *)
Lemma wp_prog_names ef symbols tx s X : own s X -> forall rest done s1, own s1 X -> kept X s s1 ->
  Forall (prog_in e) (done ++ rest) -> Forall (fun p => p_reloc p = None) (done ++ rest) ->
  wp (init_prog_names ef e symbols tx done rest) (fun '(_, l) s' => own s' X /\ kept X s s' /\ Forall (prog_in e) l /\ Forall (fun p => p_reloc p = None) l) s1.
Proof using BO.
  intros HO. induction rest as [|p rest IH]; intros done s1 HO1 K1 HP HR; cbn [init_prog_names]; [rewrite app_nil_r in *; by apply wp_ret|]. cbv zeta.
  destruct (prog_symbol ef e symbols (p_idx p) (nr_syms symbols) 0) as [err|name]; [by apply wp_ret|].
  destruct (match name with Some _ => name | None => _ end) as [nm|]; [|by apply wp_ret].
  apply wp_bind. eapply own_malloc; [exact HO1|]. intros ok s2 HO2 K2 _. pose proof (kept_trans _ _ _ _ K1 K2). destruct ok; cbn [negb]; [|by apply wp_ret].
  apply IH; [done|done| |]; rewrite Forall_app in *; destruct HP as [HP1 HP2]; destruct HR as [HR1 HR2]; apply Forall_cons_1 in HP2 as [Hp HP2], HR2 as [Hr HR2];
    rewrite Forall_app; (split; [|done]); (split; [done|]); (apply List.Forall_cons; [|done]); [|done]. by destruct Hp as [[? ? ? ?] ?].
Qed.
(** The ELF file is open, with its symbols. *)
Definition file_open (fd : Z) (ef : efile LE) : Prop := ef_elf ef = Some e /\ ef_fd ef = fd.
Lemma init_btf_none fd ef o x s : file_open fd ef -> o_btf o = None -> o_btf_ext o = None ->
  bpf_object__init_btf ef o None x s = Some ((if bpf_object__is_btf_mandatory o then - ENOENT else 0, o), s).
Proof using.
  intros [He _] Hb Hx. unfold bpf_object__init_btf. rewrite He. unfold bind, deref, ret. cbn. replace (with_btf o None None) with o by (destruct o; cbn in *; by subst).
  by destruct (bpf_object__is_btf_mandatory o).
Qed.
Lemma wp_elf_collect fd ef o relaxed root s X : own s X -> memory -> file_open fd ef -> e_shstrndx (ef_ehdr ef) = shstrndx ->
  ef_symbols ef = None /\ ef_strtabidx ef = 0 /\ ef_reloc ef = [] ->
  (exists n v c, o = with_caps (new_object n v) c) ->
  wp (bpf_object__elf_collect ef o relaxed root) (fun '(err, ef', o') s' => own s' X /\ kept X s s' /\ file_open fd ef' /\ idle o' /\
    (err = 0 -> collected o' /\ (exists d, ef_symbols ef' = Some d /\ symtab e d) /\ Forall (rel_section e) (ef_reloc ef'))) s.
Proof using BO HF LO.
  intros HO Hm [Ee Ef] Eh (Es & Et & Er) (n & v & c & ->). set (o := with_caps (new_object n v) c). unfold bpf_object__elf_collect. apply wp_bind. eapply wp_deref; [exact Ee|].
  assert (Hidle : idle o) by (by split).
  rewrite Eh. destruct (elf_rawdata e shstrndx); [|apply wp_ret; split; [done|]; split; [apply kept_refl|]; by split].
  assert (HW : walked fd (Walk ef o None None)).
  { split; cbn [w_ef w_obj w_btf w_ext]; rewrite ?Es, ?Er; first [done|by left|split; [|split]; intros H; cbn in H; lia]. }
  apply wp_bind. eapply wp_mono; [apply (wp_collect_sections fd _ 1 _ s X HO Hm HW); lia|]. intros [err w] s1 (HO1 & K1 & HW1).
  assert (Hw : file_open fd (w_ef w) /\ idle (w_obj w)).
  { destruct HW1 as [(V1 & V2 & _) (_ & V3 & _ & V4) [V5 _] _ _ _ _ _ _]. split; [done|]. split; [done|]. rewrite V4. split; [constructor|].
    eapply list.Forall_impl; [exact V5|]. by intros p []. } destruct Hw as [Hfo Hid].
  destruct (negb (err =? 0)) eqn:Eerr; [apply wp_ret; repeat (split; [done|]); by intros ->|]. cbn [negb].
  destruct (_ || _)%bool eqn:Estr; [apply wp_ret; by repeat (split; [done|])|].
  assert (Hsy : exists d, ef_symbols (w_ef w) = Some d /\ symtab e d).
  { pose proof (wk_syms _ _ HW1) as V. destruct (ef_symbols (w_ef w)) as [d|]; [by exists d|]. rewrite V in Estr. done. }
  destruct (wk_obj _ _ HW1) as (_ & Hb & Hx & _). rewrite (wk_btf _ _ HW1).
  apply wp_bind. apply (wp_eq _ (ret (if bpf_object__is_btf_mandatory (w_obj w) then - ENOENT else 0, w_obj w))); [by apply (init_btf_none fd)|]. apply wp_ret. destruct (bpf_object__is_btf_mandatory (w_obj w)) eqn:Em.
  { cbn [negb Z.eqb]. apply wp_ret. by repeat (split; [done|]). }
  cbn [negb Z.eqb]. unfold bpf_object__is_btf_mandatory in Em. apply wp_bind.
  eapply wp_mono; [apply (wp_init_maps fd w relaxed root s1 X HO1 Hm HW1); lia|]. intros [e2 o2] s2 (HO2 & K2 & Hid2 & Hc2). pose proof (kept_trans _ _ _ _ K1 K2) as K02.
  destruct (Z.eqb_spec e2 0) as [->|Hne]; cbn [negb]; [|apply wp_ret; by repeat (split; [done|])]. specialize (Hc2 eq_refl).
  destruct Hc2 as [C1 C2 C3 C4]. unfold bpf_object__sanitize_and_load_btf. destruct C1 as (C1a & C1b & C1c). rewrite C1b. apply wp_bind, wp_ret. cbn [negb Z.eqb].
  unfold bpf_object__init_prog_names. apply wp_bind, wp_bind. destruct Hfo as [Hfe Hfd]. eapply wp_deref; [exact Hfe|]. destruct Hsy as (d & Ed & Hsd).
  apply wp_bind. eapply wp_deref; [exact Ed|]. apply wp_bind. eapply wp_mono; [apply (wp_prog_names (w_ef w) d (o_text_shndx o2) s2 X HO2 (o_programs o2) [] s2 HO2 (kept_refl _ _)); apply C3|].
  intros [e3 l3] s3 (HO3 & K3 & P3 & R3). apply wp_ret, wp_ret. split; [done|]. split; [by eapply kept_trans|]. split; [done|].
  assert (HC3 : collected (with_programs o2 l3)).
  { split; [done| |done|done]. destruct C2 as [C2a C2b]. split; [done|]. eapply list.Forall_impl; [exact C2b|]. by intros m []. }
  split; [by apply collected_idle|]. intros _. split; [done|]. split; [by exists d|]. apply (wk_relocs _ _ HW1).
Qed.
End Entries.

(** ** Types from section names *)

(** The program with the types its section name stands for, if it stands for any. *)
Definition retyped (p p' : bpf_program) : Prop :=
  match (libbpf_prog_type_by_name (Some (p_section_name p))).2 with
  | Some (ty, at_) => exists id, p' = set_attach_btf_id (bpf_program__set_expected_attach_type (bpf_program__set_type p ty) at_) id
  | None => p' = p
  end.
Lemma same_attach p : set_attach_btf_id p (p_attach_btf_id p) = p.
Proof. by destruct p. Qed.
Definition kernel_btf_ok (kb : Z + btf) : Prop := forall b, kb = inr b -> btf_good b.
Lemma attach_id_total kb name : kernel_btf_ok kb -> exists r, libbpf_attach_btf_id_by_name kb (Some name) = Some r /\ (r.2 = None -> r.1 <> 0) /\ (r.2 <> None -> r.1 = 0).
Proof.
  intros Hk. unfold libbpf_attach_btf_id_by_name. destruct kb as [err|b]; [by exists (- EINVAL, None)|]. destruct (Hk b eq_refl) as (ts & strs & IO & PB).
  destruct (List.find _ _) as [x|]; [|by exists (- ESRCH, None)].
  destruct (btf_find_first ts strs b (raw_tp_btf_name (drop (length (sec x)) name)) IO PB) as (r & -> & _); [done|].
  cbn [mbind option_bind]. eexists. split; [reflexivity|]. by destruct (r <=? 0).
Qed.
(** After the loop over the handles [l]: these programs have their types when there was no
    error; the others are as they were. *)
Definition maybe_typed (p p' : bpf_program) : Prop := p' = p \/ exists q, retyped p q /\ (p' = q \/ exists id, q = set_attach_btf_id p' id).
Definition guessed (l : list Z) (o : bpf_object) (err : Z) (ps : list bpf_program) : Prop :=
  length ps = length (o_programs o) /\ forall i p p', o_programs o !! i = Some p -> ps !! i = Some p' ->
    maybe_typed p p' /\ (Z.of_nat i ∉ l -> p' = p) /\ (err = 0 -> Z.of_nat i ∈ l -> retyped p p').
Lemma guessed_none o : guessed [] o 0 (o_programs o).
Proof.
  split; [done|]. intros i p p' E1 E2. assert (p' = p) as -> by congruence. split; [by left|]. split; [done|]. intros _ H. by apply elem_of_nil in H.
Qed.
Lemma guessed_step i l o p q err ps : 0 <= i -> i ∉ l -> o_programs o !! Z.to_nat i = Some p -> retyped p q ->
  guessed l (with_programs o (<[Z.to_nat i := q]> (o_programs o))) err ps -> guessed (i :: l) o err ps.
Proof.
  intros Hi Hni Hp Hq [Hlen HP]. cbn [with_programs o_programs] in *. rewrite length_insert in Hlen. pose proof (lookup_lt_Some _ _ _ Hp) as Hlt.
  split; [done|]. intros j r r' Hr Hr'. destruct (decide (Z.to_nat i = j)) as [<-|Hne].
  - assert (r = p) as -> by congruence. destruct (HP (Z.to_nat i) q r') as (_ & H2 & _); [by rewrite list_lookup_insert_eq|done|].
    rewrite Z2Nat.id in * by lia. rewrite (H2 Hni) in *. split; [right; exists q; split; [done|by left]|]. split; [|done]. intros Hn. destruct Hn. by left.
  - destruct (HP j r r') as (H1 & H2 & H3); [by rewrite list_lookup_insert_ne|done|]. split; [done|]. split.
    + intros Hn. apply H2. intros Hj. apply Hn. by right.
    + intros E [Hj|Hj]%elem_of_cons; [exfalso; lia|auto].
Qed.
Lemma guessed_stop i l o p q err : err <> 0 -> 0 <= i -> o_programs o !! Z.to_nat i = Some p -> maybe_typed p q ->
  guessed (i :: l) o err (<[Z.to_nat i := q]> (o_programs o)).
Proof.
  intros He Hi Hp Hq. pose proof (lookup_lt_Some _ _ _ Hp) as Hlt. split; [by rewrite length_insert|]. intros j r r' Hr Hr'. split; [|split; [|done]].
  - destruct (decide (Z.to_nat i = j)) as [<-|Hne]; [rewrite list_lookup_insert_eq in Hr' by done|rewrite list_lookup_insert_ne in Hr' by done; left; congruence].
    assert (r = p) as -> by congruence. by injection Hr' as <-.
  - intros Hn. rewrite list_lookup_insert_ne in Hr'; [congruence|]. intros E. apply Hn, elem_of_cons. left. lia.
Qed.
Lemma wp_guess kb s : kernel_btf_ok kb -> forall l o, NoDup l -> (forall i, i ∈ l -> 0 <= i < lenZ (o_programs o)) ->
  wp (guess_types kb l o) (fun '(err, o') s' => s' = s /\ exists ps, o' = with_programs o ps /\ guessed l o err ps) s.
Proof using.
  intros Hkb. induction l as [|i l IH]; intros o Hnd Hin; cbn [guess_types].
  { apply wp_ret. split; [done|]. exists (o_programs o). split; [by destruct o|apply guessed_none]. }
  apply list.NoDup_cons in Hnd as [Hni Hnd]. pose proof (Hin i ltac:(by left)) as Hi.
  destruct (lookup_lt_is_Some_2 (o_programs o) (Z.to_nat i)) as [p Hp]; [lia|]. apply wp_bind. eapply wp_deref; [exact Hp|].
  assert (Hgo : forall q, retyped p q -> wp (guess_types kb l (with_programs o (<[Z.to_nat i := q]> (o_programs o))))
    (fun '(err, o') s' => s' = s /\ exists ps, o' = with_programs o ps /\ guessed (i :: l) o err ps) s).
  { intros q Hq. eapply wp_mono; [apply IH; [done|]|].
    - intros j Hj. cbn [with_programs o_programs]. rewrite length_insert. apply Hin. by right.
    - intros [err o'] s' (-> & ps & -> & HP). split; [done|]. exists ps. split; [done|]. by eapply guessed_step; [lia|..]. }
  assert (Hid : with_programs o (<[Z.to_nat i := p]> (o_programs o)) = o) by (rewrite list_insert_id by done; by destruct o).
  destruct (libbpf_prog_type_by_name (Some (p_section_name p))) as [err [[ty at_]|]] eqn:Et.
  - assert (err = 0) as ->. { unfold libbpf_prog_type_by_name in Et. destruct (List.find _ _); congruence. } cbn [negb Z.eqb]. cbv zeta.
    set (q := bpf_program__set_expected_attach_type (bpf_program__set_type p ty) at_).
    assert (Hrt : forall id, retyped p (set_attach_btf_id q id)) by (intros id; unfold retyped; rewrite Et; by exists id).
    destruct (ty =? BPF_PROG_TYPE_TRACING).
    + destruct (attach_id_total kb (p_section_name q) Hkb) as ([err id] & Ea & A1 & A2). cbn [fst snd] in *. apply wp_bind. eapply wp_deref; [exact Ea|]. cbv beta iota.
      destruct id as [id|].
      * rewrite A2 by done. cbn [negb Z.eqb]. by apply Hgo.
      * apply wp_ret. split; [done|]. eexists. split; [reflexivity|]. apply (guessed_stop i l o p); [by apply A1|lia|done|]. right. exists (set_attach_btf_id q 0).
        split; [apply Hrt|]. right. by exists 0.
    + apply Hgo. rewrite <- (same_attach q). apply Hrt.
  - assert (Hq : retyped p p) by (unfold retyped; by rewrite Et). destruct (Z.eqb_spec err (- ESRCH)).
    + specialize (Hgo p Hq). by rewrite Hid in Hgo.
    + apply wp_ret. split; [done|]. exists (<[Z.to_nat i := p]> (o_programs o)). split; [done|]. apply (guessed_stop i l o p); [|lia|done|by left].
      unfold libbpf_prog_type_by_name in Et. destruct (List.find _ _); [done|]. by injection Et as <-.
Qed.

(** ** The whole *)

(** The object [bpf_object__open] returns, from the file [e]. *)
Record opened (e : elf) (o : bpf_object) : Prop := {
  od_obj : o_loaded o = false /\ o_btf o = None /\ o_btf_ext o = None;
  od_maps : Forall fresh (o_maps o) /\ Forall (map_ready o) (o_maps o);
  od_progs : Forall (prog_in e) (o_programs o);
  od_relocs : Forall (relocs_in e o) (o_programs o);
  od_types : forall i p, keep o i -> o_programs o !! i = Some p -> match (libbpf_prog_type_by_name (Some (p_section_name p))).2 with
               | Some (ty, at_) => p_type p = ty /\ p_expected_attach_type p = at_
               | None => True
               end
}.
Lemma maybe_typed_keeps p p' : maybe_typed p p' ->
  p_idx p' = p_idx p /\ p_insns p' = p_insns p /\ p_reloc p' = p_reloc p /\ p_section_name p' = p_section_name p /\ (fresh_prog p -> fresh_prog p').
Proof.
  assert (Hset : forall ty at_ id, let q := set_attach_btf_id (bpf_program__set_expected_attach_type (bpf_program__set_type p ty) at_) id in
    p_idx q = p_idx p /\ p_insns q = p_insns p /\ p_reloc q = p_reloc p /\ p_section_name q = p_section_name p /\ (fresh_prog p -> fresh_prog q)).
  { intros ty at_ id q. repeat (split; [done|]). by intros []. }
  intros [->|(q & Hq & Hr)]; [done|]. unfold retyped in Hq. destruct (_.2) as [[ty at_]|].
  - destruct Hq as [id ->]. destruct Hr as [->|(id' & E)]; [apply Hset|]. destruct p, p'. injection E; intros; subst. repeat (split; [done|]). by intros [].
  - subst q. destruct Hr as [->|(id & E)]; [done|]. destruct p, p'. injection E; intros; subst. repeat (split; [done|]). by intros [].
Qed.
Lemma idle_fds o : idle o -> obj_fds o = [].
Proof.
  intros (_ & Hm & Hp). unfold obj_fds. assert (map_fds (o_maps o) = []) as ->.
  { induction Hm as [|m l (Hfd & _) _ IH]; [done|]. unfold map_fds in *. cbn. by rewrite Hfd, IH. }
  induction Hp as [|p l Hp _ IH]; [done|]. rewrite progs_fds_cons. destruct Hp as [_ _ [Hf _] _]. unfold prog_fds. by rewrite Hf.
Qed.
Lemma wp_close_idle o s X : idle o -> own s X -> wp (bpf_object__close (Some o)) (fun _ s' => own s' X /\ kept X s s') s.
Proof using BO.
  intros Hi HO. unfold bpf_object__close. apply wp_bind. eapply wp_mono; [apply (wp_unload o s X); by rewrite idle_fds|]. intros [e1 o1] s1 (HO1 & K1 & _).
  destruct Hi as [-> _]. by apply wp_ret.
Qed.
Lemma wp_open_failed e fd ef err o s X : idle o -> file_open e fd ef -> own s (fd :: X) ->
  wp (open_failed err ef o) (fun r s' => own s' X /\ kept X s s' /\ r = inl err) s.
Proof using BO.
  intros Hi [Ee Ef] HO. unfold open_failed, bpf_object__elf_finish. rewrite Ee, Ef. apply wp_bind, wp_bind.
  apply (own_zclose fd s X); [by rewrite fd_list_pos by (by eapply own_pos; [exact HO|left])|]. intros r s1 _ HO1 K1 _. apply wp_ret, wp_bind.
  eapply wp_mono; [by apply wp_close_idle|]. intros _ s2 [HO2 K2]. apply wp_ret. split; [done|]. split; [by eapply kept_trans|done].
Qed.
Lemma wp_open_failed_closed ef err o s X : idle o -> ef_elf ef = None -> own s X ->
  wp (open_failed err ef o) (fun r s' => own s' X /\ kept X s s' /\ r = inl err) s.
Proof using BO.
  intros Hi Ee HO. unfold open_failed, bpf_object__elf_finish. rewrite Ee. apply wp_bind, wp_ret, wp_bind. eapply wp_mono; [by apply wp_close_idle|].
  intros _ s2 [HO2 K2]. by apply wp_ret.
Qed.
Definition new_efile : efile LE := Efile _ _ (-1) None (Ehdr 0 0 0 0) None 0 None None None [].
(** Opening the file: with an error it is closed again, unless libelf did not take it. *)
Lemma wp_elf_init p s X : own s X ->
  wp (bpf_object__elf_init new_efile p None) (fun '(err, ef) s' => kept X s s' /\
    (err <> 0 /\ ef_elf ef = None /\ (own s' X \/ exists fd k, own s' (fd :: X) /\ elf_begin k fd = None) \/
     err = 0 /\ exists fd k e ep, own s' (fd :: X) /\ elf_begin k fd = Some e /\ gelf_getehdr e = Some ep /\ ef = set_ehdr (set_elf new_efile fd (Some e)) ep)) s.
Proof using BO.
  intros HO. unfold bpf_object__elf_init. cbn [new_efile ef_elf]. apply wp_bind. eapply own_open; [exact HO|intros fd s1 HO1 K1|intros s1 HO1 He K1].
  2: { change (-1 <? 0) with true. cbv iota. apply wp_bind, wp_gets, wp_ret. split; [done|]. left. split; [lia|]. split; [done|by left]. }
  pose proof (own_pos _ _ fd HO1 ltac:(by left)) as Hfd. rewrite (proj2 (Z.ltb_ge _ _)) by done. apply wp_bind, wp_gets. cbv zeta.
  destruct (elf_begin (b_k s1) fd) as [e|] eqn:Eb; cbn [set_elf ef_elf].
  2: { apply wp_bind, wp_ret, wp_ret. split; [done|]. left. split; [done|]. split; [done|]. right. by exists fd, (b_k s1). }
  assert (Hclose : forall err ef, err <> 0 -> ef_elf ef = Some e -> ef_fd ef = fd ->
    wp (let! ef := bpf_object__elf_finish ef in ret (err, ef)) (fun '(err, ef) s' => kept X s s' /\
    (err <> 0 /\ ef_elf ef = None /\ (own s' X \/ exists fd k, own s' (fd :: X) /\ elf_begin k fd = None) \/
     err = 0 /\ exists fd k e ep, own s' (fd :: X) /\ elf_begin k fd = Some e /\ gelf_getehdr e = Some ep /\ ef = set_ehdr (set_elf new_efile fd (Some e)) ep)) s1).
  { intros err ef Hne E1 E2. unfold bpf_object__elf_finish. rewrite E1, E2. apply wp_bind, wp_bind. apply (own_zclose fd s1 X); [by rewrite fd_list_pos|].
    intros r s2 _ HO2 K2 _. apply wp_ret, wp_ret. split; [by eapply kept_trans|]. left. split; [done|]. split; [done|by left]. }
  destruct (gelf_getehdr e) as [ep|] eqn:Eh; [|by apply Hclose].
  destruct (_ || _)%bool; [by apply Hclose|]. apply wp_ret. split; [done|]. right. split; [done|]. by exists fd, (b_k s1), e, ep.
Qed.
Definition open_post (s : bsys BK) (X : list Z) (r : Z + bpf_object) (s' : bsys BK) : Prop :=
  kept X s s' /\
  match r with
  | inl err => err <> 0 /\ (own s' X \/ exists fd k, own s' (fd :: X) /\ elf_begin k fd = None)
  | inr o => own s' X /\ exists e k fd, elf_begin k fd = Some e /\ opened e o
  end.
Lemma handles_range o i : i ∈ (Z.of_nat <$> handles o 0) -> 0 <= i < lenZ (o_programs o).
Proof.
  intros (j & -> & Hj)%list_elem_of_fmap. unfold handles in Hj. apply list_elem_of_filter in Hj as [_ Hj]. apply elem_of_seq in Hj. lia.
Qed.
Lemma handles_nodup o : NoDup (Z.of_nat <$> handles o 0).
Proof. apply (list.NoDup_fmap_2 _). unfold handles. apply list.NoDup_filter, NoDup_seq. Qed.
Lemma handles_keep o i : keep o i -> Z.of_nat i ∈ (Z.of_nat <$> handles o 0).
Proof.
  intros Hk. apply list_elem_of_fmap. exists i. split; [done|]. unfold handles. apply list_elem_of_filter. split; [done|]. apply elem_of_seq.
  unfold keep in Hk. destruct (o_programs o !! i) eqn:E; [|done]. apply lookup_lt_Some in E. lia.
Qed.
Lemma Forall_guessed (P : bpf_program -> Prop) l o err ps : guessed l o err ps -> Forall P (o_programs o) ->
  (forall p p', maybe_typed p p' -> P p -> P p') -> Forall P ps.
Proof.
  intros [Hl HG] HP Hk. apply Forall_lookup. intros i p' Hp'. destruct (lookup_lt_is_Some_2 (o_programs o) i) as [p Hp]; [apply lookup_lt_Some in Hp'; lia|].
  destruct (HG i p p' Hp Hp') as [Hm _]. eapply Hk; [exact Hm|]. rewrite Forall_lookup in HP. by eapply HP.
Qed.
(** A program that is kept after guessing was kept before. *)
Lemma keep_guessed l o err ps i : guessed l o err ps -> keep (with_programs o ps) i -> keep o i.
Proof.
  intros [Hl HG]. unfold keep, bpf_program__is_function_storage. cbn [with_programs o_programs o_text_shndx o_has_pseudo_calls].
  destruct (ps !! i) as [p'|] eqn:Ep'; [|done]. destruct (lookup_lt_is_Some_2 (o_programs o) i) as [p Hp]; [apply lookup_lt_Some in Ep'; lia|].
  rewrite Hp. destruct (HG i p p' Hp Ep') as [Hm _]. by destruct (maybe_typed_keeps p p' Hm) as [-> _].
Qed.

(** Guessing the types of a collected object. *)
Lemma opened_typed e o err ps : o_loaded o = false /\ o_btf o = None /\ o_btf_ext o = None -> Forall fresh (o_maps o) /\ Forall (map_ready o) (o_maps o) ->
  Forall (prog_in e) (o_programs o) -> Forall (relocs_in e o) (o_programs o) -> guessed (Z.of_nat <$> handles o 0) o err ps -> idle (with_programs o ps) /\
  (err = 0 -> opened e (with_programs o ps)).
Proof.
  intros H1 H2 H3 H4 HG.
  assert (HP : Forall (prog_in e) ps).
  { eapply Forall_guessed; [exact HG|done|]. intros p p' Hm [Hf Hs]. destruct (maybe_typed_keeps p p' Hm) as (E1 & E2 & _ & _ & Hk). split; [auto|].
    unfold from_section in *. by rewrite E1, E2. }
  assert (HR : Forall (relocs_in e o) ps).
  { eapply Forall_guessed; [exact HG|done|]. intros p p' Hm Hr. destruct (maybe_typed_keeps p p' Hm) as (E1 & E2 & E3 & _). unfold relocs_in in *. by rewrite E1, E2, E3. }
  split.
  { split; [apply H1|]. split; [apply H2|]. eapply list.Forall_impl; [exact HP|]. by intros p []. }
  intros ->. split; [done| |done|done|].
  - split; [apply H2|]. destruct H2 as [_ H2]. eapply list.Forall_impl; [exact H2|]. by intros m [].
  - intros i p' Hk Hp'. pose proof (keep_guessed _ _ _ _ _ HG Hk) as Hk0. cbn [with_programs o_programs] in Hp'. destruct HG as [Hl HG].
    destruct (lookup_lt_is_Some_2 (o_programs o) i) as [p Hp]; [apply lookup_lt_Some in Hp'; lia|]. destruct (HG i p p' Hp Hp') as (Hm & _ & Hr).
    specialize (Hr eq_refl (handles_keep o i Hk0)). destruct (maybe_typed_keeps p p' Hm) as (_ & _ & _ & -> & _). unfold retyped in Hr.
    destruct (_.2) as [[ty at_]|]; [|done]. by destruct Hr as [id ->].
Qed.
Lemma wp_open_object kb release p opts s X : own s X -> memory -> kernel_btf_ok kb ->
  (forall k fd e ep, elf_begin k fd = Some e -> gelf_getehdr e = Some ep -> file_ok e (e_shstrndx ep)) ->
  wp (__bpf_object__open kb release (Some p) None opts) (open_post s X) s.
Proof using BO LO.
  intros HO Hm Hkb Hfile. unfold __bpf_object__open. destruct elf_version_ok; cbn [negb]; [|apply wp_ret; split; [apply kept_refl|]; split; [done|by left]].
  apply wp_bind. eapply wp_deref; [reflexivity|]. set (on := match opts with Some o => oo_object_name o | None => Some p end). apply wp_bind. unfold bpf_object__new.
  apply wp_bind, (own_malloc_ok s X); [done|done|]. intros s1 HO1 K1. cbn [negb]. apply wp_ret. fold new_efile.
  set (o0 := new_object _ _). assert (Hid0 : idle o0) by (by split).
  set (relaxed := match opts with Some o => oo_relaxed_maps o | None => false end). set (root := match opts with Some o => oo_pin_root_path o | None => None end).
  apply wp_bind. eapply wp_mono; [by apply (wp_elf_init p s1 X)|]. intros [err ef] s2 (K2 & Hr). pose proof (kept_trans _ _ _ _ K1 K2) as K02.
  destruct Hr as [(He & Ee & Hown)|(-> & fd & k & e & ep & HO2 & Eb & Eh & ->)].
  { rewrite (proj2 (Z.eqb_neq _ _)) by done. cbn [negb]. destruct Hown as [HO2|(fd & k & HO2 & Eb)].
    - eapply wp_mono; [by apply (wp_open_failed_closed ef err o0 s2 X)|]. intros r s3 (HO3 & K3 & ->). split; [by eapply kept_trans|]. split; [done|by left].
    - eapply wp_mono; [by apply (wp_open_failed_closed ef err o0 s2 (fd :: X))|]. intros r s3 (HO3 & K3 & ->). split.
      + eapply kept_trans; [exact K02|]. eapply kept_sub; [exact K3|]. intros f Hf. by right.
      + split; [done|]. right. by exists fd, k. }
  cbn [negb Z.eqb]. set (ef := set_ehdr _ ep). pose proof (Hfile k fd e ep Eb Eh) as HF.
  (** every failure from here on closes the file *)
  assert (Hfail : forall err ef' o s3, err <> 0 -> idle o -> file_open e fd ef' -> own s3 (fd :: X) -> kept X s s3 -> wp (open_failed err ef' o) (open_post s X) s3).
  { intros er ef' o s3 Hne Hi Hfo HO3 K3. eapply wp_mono; [by apply (wp_open_failed e fd ef' er o s3 X)|]. intros r s4 (HO4 & K4 & ->).
    split; [by eapply kept_trans|]. split; [done|by left]. }
  assert (Hfo : file_open e fd ef) by done.
  destruct (Z.eqb_spec (bpf_object__check_endianness ef) 0) as [_|Hne]; cbn [negb]; [|by apply Hfail].
  assert (HX : forall f, f ∈ X -> f ∈ fd :: X) by (intros f Hf; by right).
  apply wp_bind. eapply wp_mono; [by apply (wp_probe_caps o0 s2 (fd :: X) HO2)|]. intros [e3 o3] s3 (-> & HO3 & K3 & c & -> & _).
  pose proof (kept_trans _ _ _ _ K02 (kept_sub _ _ _ _ K3 HX)) as K03. cbn [negb Z.eqb]. apply wp_bind.
  eapply wp_mono; [apply (wp_elf_collect e (e_shstrndx ep) HF fd ef (with_caps o0 c) relaxed root s3 (fd :: X) HO3 Hm Hfo); [done|done|by eexists _, _, _]|].
  intros [[e4 ef4] o4] s4 (HO4 & K4 & Hfo4 & Hid4 & Hc4). pose proof (kept_trans _ _ _ _ K03 (kept_sub _ _ _ _ K4 HX)) as K04.
  destruct (Z.eqb_spec e4 0) as [->|Hne4]; cbn [negb]; [|by apply Hfail]. destruct (Hc4 eq_refl) as ([(C1 & C2 & C3) [C4 C5] [C6 C7] C8] & (sd & Esd & Hsd) & Hrel).
  unfold bpf_object__collect_reloc. destruct Hfo4 as [Ee4 Ef4]. rewrite Ee4. apply wp_bind.
  assert (HC0 : collecting e o4 o4).
  { split; [done|done|done|done|]. eapply list.Forall_impl; [exact C7|]. intros q Hq l Hl. congruence. }
  eapply wp_mono; [apply (wp_collect_relocs e (e_shstrndx ep) HF ef4 sd o4 s4 (fd :: X) HO4 Hm Esd Hsd C8 (ef_reloc ef4) o4 s4 HO4 (kept_refl _ _) HC0 Hrel)|].
  intros [e5 o5] s5 (HO5 & K5 & [G1 G2 G3 G4 G5]). pose proof (kept_trans _ _ _ _ K04 (kept_sub _ _ _ _ K5 HX)) as K05. destruct G3 as (G3a & G3b & G3c & G3d & G3e & G3f).
  assert (Hid5 : idle o5).
  { split; [congruence|]. rewrite G1. split; [done|]. eapply list.Forall_impl; [exact G4|]. by intros q []. }
  destruct (Z.eqb_spec e5 0) as [->|Hne5]; cbn [negb]; [|by apply Hfail]. unfold bpf_object__elf_finish at 1. rewrite Ee4, Ef4. apply wp_bind, wp_bind.
  apply (own_zclose fd s5 X); [by rewrite fd_list_pos by (by eapply own_pos; [exact HO5|left])|]. intros r6 s6 _ HO6 K6 _. apply wp_ret.
  pose proof (kept_trans _ _ _ _ K05 K6) as K06. apply wp_bind. eapply wp_deref; [apply for_each_program_visits|]. apply wp_bind.
  eapply wp_mono; [apply (wp_guess kb s6 Hkb _ o5 (handles_nodup o5)); by apply handles_range|]. intros [e7 o7] s7 (-> & ps & -> & HG).
  assert (Hrel5 : Forall (relocs_in e o5) (o_programs o5)).
  { eapply list.Forall_impl; [exact G5|]. intros q Hq l Hl. destruct (Hq l Hl) as (symbols & d & Q1 & Q2 & Q3 & Hd). exists symbols, d. split; [done|]. split; [done|]. split; [done|]. intros j x Hj.
    specialize (Hd j x Hj). unfold describes, bpf_object__section_to_libbpf_map_type in *. rewrite G1. pose proof (G2 DATA) as D. pose proof (G2 RODATA) as R. pose proof (G2 BSS) as S.
    cbn in D, R, S. by rewrite D, R, S. }
  destruct (opened_typed e o5 e7 ps) as [Hid7 Hop]; [split; [congruence|split; congruence]| |done|done|done|].
  { rewrite G1. split; [done|]. eapply list.Forall_impl; [exact C5|]. intros m [M1 M2 M3 M4]. split; [done|done|by rewrite G3d|by rewrite G3e]. }
  destruct (Z.eqb_spec e7 0) as [->|Hne7]; cbn [negb].
  - apply wp_ret. split; [done|]. split; [done|]. exists e, k, fd. split; [done|]. by apply Hop.
  - eapply wp_mono; [by apply (wp_open_failed_closed _ e7 (with_programs o5 ps) s6 X)|]. intros r s8 (HO8 & K8 & ->). split; [by eapply kept_trans|]. split; [done|by left].
Qed.
End OpenRules.

(** ** The theorems *)

(** C7: Opening an object.  For a file without type information (no section .BTF) that is well
    formed where the code does not check it, and while memory lasts, [__bpf_object__open]
    returns.  With an error the process has the
    descriptors it had, but for the file itself if libelf did not take it.  Otherwise it has
    no new descriptor either and the object is as loading expects it: its maps have no
    descriptors and the internal ones have their contents; each program has the
    instructions of its section, the types its section name stands for, and relocations
    that lie in it and name the first map their symbol stands for. *)
Theorem open_gives_ready `{BO : BpfKernelOk} (LE : Libelf BK) (LO : LibelfOk LE) (OS : Os) (kernel_btf : Z + btf) (release : list Z) (p : path)
    (opts : option open_opts) (s : bsys BK) (X : list Z) :
  own s X -> memory -> kernel_btf_ok kernel_btf ->
  (forall k fd e ep, elf_begin k fd = Some e -> gelf_getehdr e = Some ep -> file_ok e (e_shstrndx ep)) ->
  exists r s', __bpf_object__open kernel_btf release (Some p) None opts s = Some (r, s') /\ open_post s X r s'.
Proof. intros HO Hm Hk Hf. exact (proj1 (wp_run _ _ _) (wp_open_object kernel_btf release p opts s X HO Hm Hk Hf)). Qed.

(** The file of Elf.v is well formed. *)
#[local] Existing Instance demo_os.
Abbreviation demo_elf := (bytes_elf table_kernel demo_file).
Lemma demo_shdr i sh : gelf_getshdr (Libelf := demo_elf) demo_file i = Some sh -> i = 0 \/ i = 1 \/ i = 2 \/ i = 3 \/ i = 4 \/ i = 5 \/ i = 6.
Proof.
  intros H. assert (Hs : is_Some (fi_scn demo_file i)). { cbn [gelf_getshdr bytes_elf] in H. destruct (fi_scn demo_file i); [by eexists|done]. }
  unfold fi_scn in Hs. destruct (Z.leb_spec 0 i); [|by destruct Hs]. apply lookup_lt_is_Some_1 in Hs. cbn in Hs. lia.
Qed.
Ltac each_section H := pose proof (demo_shdr _ _ H) as Hi; repeat (destruct Hi as [->|Hi]); subst; vm_compute in H; injection H as <-.
Lemma demo_rel j rel : gelf_getrel (Libelf := demo_elf) (Data (Some (le_bytes 8 0 ++ le_bytes 4 1 ++ le_bytes 4 1)) 16) j = Some rel -> rel = Rel 0 4294967297.
Proof.
  cbn [gelf_getrel bytes_elf]. unfold entry. cbn [d_buf mbind option_bind]. change (lenZ _) with 16.
  destruct (_ && _)%bool eqn:E; [|done]. assert (j = 0) as -> by lia. vm_compute. by intros [= <-].
Qed.
Lemma demo_symtab d : symtab (LE := demo_elf) demo_file d -> d = demo_symbols.
Proof. intros (k & sh & H & Ht & Hd). each_section H; try done. vm_compute in Hd. by injection Hd as <-. Qed.
Lemma demo_file_ok : file_ok (LE := demo_elf) demo_file 1.
Proof.
  split.
  - intros i sh name H _ _. by each_section H.
  - intros i (sh & H & Hn). by each_section H.
  - intros d i sym ->%demo_symtab. apply demo_syms.
  - intros k sh H Ht. by each_section H.
  - intros k sh d j rel t H Ht Hd Hr Htx. each_section H; try done. vm_compute in Hd. injection Hd as <-. apply demo_rel in Hr as ->.
    vm_compute in Htx. injection Htx as <-. by vm_compute.
  - intros k sh d j rel t b insn sd sym H Ht Hd Hr _ _ _ ->%demo_symtab Hsym Hs. each_section H; try done. vm_compute in Hd. injection Hd as <-.
    apply demo_rel in Hr as ->. vm_compute in Hsym. injection Hsym as <-. destruct Hs as [[=]|(sh & H & Hn)]. vm_compute in H. by injection H as <-.
Qed.
Lemma open_gives_ready_witness : exists o s', __bpf_object__open (LE := demo_elf) (inl (-2)) [53; 46; 51] (Some [97]) None None table_state = Some (inr o, s') /\
  own s' [0; 1; 2] /\ map m_name (o_maps o) = [str "m"] /\ map (fun p => (p_type p, p_reloc p)) (o_programs o) = [(6, Some [RELO_LD64 0 0])] /\
  map p_insns (o_programs o) = [demo_prog].
Proof.
  destruct (open_gives_ready (BO := table_kernel_ok) demo_elf (bytes_elf_ok _ _) demo_os (inl (-2)) [53; 46; 51] [97] None table_state [0; 1; 2]) as (r & s' & E & _ & HP).
  - exact demo_own.
  - done.
  - by intros b [=].
  - intros k fd e ep [= <-] [= <-]. exact demo_file_ok.
  - assert (E' := E). vm_compute in E'. injection E' as <- <-. destruct HP as [HO _]. eexists _, _. split; [exact E|]. split; [exact HO|].
    split; [|split]; reflexivity.
Defined.
