(* ===== verification/Core.v ===== *)
(** * CO-RE field relocation, the object: libbpf/src/libbpf.c, btf.c

    [bpf_core_reloc_fields] gets the type information of the running kernel, walks the
    records of .BTF.ext, finds the types of the kernel that may stand for the local one and
    patches the instructions.  The candidates of a local type are kept in a hash map
    (Hashmap.v); a vector of candidates is shared between the map and the caller, so the map
    holds the index of the vector in [vecs].  What the heap holds is not tracked, but the
    blocks of the vectors are: they are asked for with too few bytes, and how many bytes the
    allocator really gives is a parameter ([usable]); writing behind them is a fault.
    Printing is left out.  The theorem includes the law that Reloc.v asks of its parameter. *)

From Stdlib Require Import String.
From S2P Require Import Prelude Nlattr Netlink Os Params StatsUser BpfProg Btf BtfExt Object RedirectUser Pinning BpfSys Reloc ObjLoad Hashmap SecNames Elf OpenMaps BtfLoad CoreSpec ObjOpen.
#[local] Open Scope Z_scope.
#[local] Open Scope prog_scope.

Definition EBADF : Z := 9.

(** ** Candidates *)

(** [bpf_core_hash_fn] and [bpf_core_equal_fn]; a key is a type id. *)
#[export] Instance core_keys : KeyOps Z := { hash_fn k := k; equal_fn := Z.eqb }.
Record cands := Cands { cc_map : hashmap Z nat; vecs : list (list Z) }.

Section Core.
Context {BK : BpfKernel} {LE : Libelf BK} {OS : Os}.
Abbreviation B := (M (bsys BK)).
(** What a shift by the word size gives (Hashmap.v). *)
Context (undef : Z -> Z).
(** How many bytes of a block can be used when [realloc] was asked for so many (what
    malloc_usable_size(3) says of it); they are kept when it is asked for more. *)
Context (usable : Z -> Z).
(** [hashmap__set] of a key that is not there, with what it allocates. *)
Definition cache_set (key : Z) (v : nat) (m : hashmap Z nat) : B (Z * hashmap Z nat) :=
  let! calloc_ok := if hashmap_needs_to_grow m then malloc else ret true in
  let! malloc_ok := if (calloc_ok : bool) then malloc else ret true in
  let! ((err, _), m) := deref (hashmap__set undef key v calloc_ok malloc_ok m) in
  ret (err, m).

(** The loop over the types of the target, [n] of them from [i].  [realloc] is asked for a byte
    per id, not for four: an id behind the bytes that can be used is a fault. *)
Fixpoint cands_loop (local_name : path) (local_essent_len : Z) (targ_btf : btf) (n : nat) (i : Z) (ids : list Z) : B (Z + list Z) :=
  match n with
  | O => ret (inr ids)
  | S n =>
      let! t := deref (btf__type_by_id targ_btf i) in
      let! name_off := deref (name_off_at targ_btf t) in
      let! targ_name := deref (c_name targ_btf name_off) in
      let next ids := cands_loop local_name local_essent_len targ_btf n (i + 1) ids in
      match targ_name with
      | None | Some [] => next ids
      | Some targ_name =>
          if negb (bpf_core_essential_name_len targ_name =? local_essent_len) then next ids
          else if same_prefix local_essent_len local_name targ_name then
            let! ok := malloc in
            if negb ok then ret (inl (- ENOMEM))
            else if 4 * (lenZ ids + 1) <=? usable (lenZ ids + 1) then next (ids ++ [i]) else fault
          else next ids
      end
  end.
(** [inl] is ERR_PTR. *)
Definition bpf_core_find_cands (local_btf : btf) (local_type_id : Z) (targ_btf : btf) : B (Z + list Z) :=
  let! t := deref (btf__type_by_id local_btf local_type_id) in
  match t with
  | None => ret (inl (- EINVAL))
  | Some _ =>
      let! name_off := deref (name_off_at local_btf t) in
      let! local_name := deref (c_name local_btf name_off) in
      match local_name with
      | None | Some [] => ret (inl (- EINVAL))
      | Some local_name =>
          let! ok := malloc in
          if negb ok then ret (inl (- ENOMEM))
          else cands_loop local_name (bpf_core_essential_name_len local_name) targ_btf (Z.to_nat (nr_types targ_btf)) 1 []
      end
  end.
(** The loop over the candidates: [n] are left from [i], [j] have matched; [vec] is
    [cand_ids->data].  [inl] is what is returned, or [j] and [targ_spec]. *)
Fixpoint cand_loop (local_btf targ_btf : btf) (local_spec : bpf_core_spec) (n i j : nat) (vec : list Z) (targ_spec : bpf_core_spec) :
    option ((Z + nat * bpf_core_spec) * list Z) :=
  match n with
  | O => Some (inr (j, targ_spec), vec)
  | S n =>
      cand_id ← vec !! i;
      cand_type ← btf__type_by_id targ_btf cand_id;
      _ ← name_off_at targ_btf cand_type;
      '(err, cand_spec) ← bpf_core_spec_match local_btf targ_btf local_spec cand_id;
      if err <? 0 then Some (inl err, vec)
      else if err =? 0 then cand_loop local_btf targ_btf local_spec n (S i) j vec targ_spec
      else if negb (Nat.eqb j 0) && negb (sp_bit_offset cand_spec =? sp_bit_offset targ_spec) then Some (inl (- EINVAL), vec)
      else
        first ← sp_spec cand_spec !! 0%nat;
        if negb (j <? length vec)%nat then None
        else cand_loop local_btf targ_btf local_spec n (S i) (S j) (<[j := a_type_id first]> vec) (if Nat.eqb j 0 then cand_spec else targ_spec)
  end.

(** The candidates of a type that the cache has not, or the vector [found] in it; [inl] is an
    error. *)
Definition get_cands (local_btf targ_btf : btf) (relo : bpf_field_reloc) (found : option nat) (m : hashmap Z nat) (l : list (list Z)) : B ((Z + nat) * cands) :=
  match found with
  | Some v => ret (inr v, Cands m l)
  | None =>
      let! r := bpf_core_find_cands local_btf (fr_type_id relo) targ_btf in
      match r with
      | inl err => ret (inl err, Cands m l)
      | inr ids =>
          let! (err, m) := cache_set (fr_type_id relo) (length l) m in
          ret (if negb (err =? 0) then (inl err, Cands m l) else (inr (length l), Cands m (l ++ [ids])))
      end
  end.
(** [relaxed] is the field [relaxed_core_relocs] of the object. *)
Definition bpf_core_reloc_field (relaxed : bool) (p : bpf_program) (relo : bpf_field_reloc) (local_btf targ_btf : btf) (c : cands) :
    B (Z * bpf_program * cands) :=
  let! local_type := deref (btf__type_by_id local_btf (fr_type_id relo)) in
  match local_type with
  | None => ret (- EINVAL, p, c)
  | Some _ =>
      let! name_off := deref (name_off_at local_btf local_type) in
      let! local_name := deref (c_name local_btf name_off) in
      match local_name with
      | None | Some [] => ret (- EINVAL, p, c)
      | Some _ =>
          let! spec_str := deref (c_name local_btf (fr_access_str_off relo)) in
          match spec_str with
          | None | Some [] => ret (- EINVAL, p, c)
          | Some spec_str =>
              let! local_spec := deref (bpf_core_spec_parse local_btf (fr_type_id relo) spec_str) in
              match local_spec with
              | inl _ => ret (- EINVAL, p, c)
              | inr local_spec =>
                  let! (found, m) := deref (hashmap__find undef (fr_type_id relo) (cc_map c)) in
                  let! (r, c) := get_cands local_btf targ_btf relo found m (vecs c) in
                  match r with
                  | inl err => ret (err, p, c)
                  | inr v =>
                      let! vec := deref (vecs c !! v) in
                      let! (r, vec) := deref (cand_loop local_btf targ_btf local_spec (length vec) 0 0 vec no_spec) in
                      match r with
                      | inl err => ret (err, p, Cands (cc_map c) (<[v := vec]> (vecs c)))
                      | inr (j, targ_spec) =>
                          let c := Cands (cc_map c) (<[v := if (0 <? j)%nat then take j vec else vec]> (vecs c)) in
                          if Nat.eqb j 0 && negb relaxed && negb (fr_kind relo =? BPF_FIELD_EXISTS) then ret (- ESRCH, p, c)
                          else
                            let! (err, insns) := deref (bpf_core_reloc_insn local_btf targ_btf (p_insns p) relo local_spec
                                                          (if Nat.eqb j 0 then None else Some targ_spec)) in
                            ret (if negb (err =? 0) then - EINVAL else 0, set_insns p insns, c)
                      end
                  end
              end
          end
      end
  end.

(** ** The type information of the kernel *)

(** The sections: the data of .BTF and of .BTF.ext; [None] is an error. *)
Fixpoint btf_sections (e : elf) (shstrndx : Z) (want_ext : bool) (n : nat) (idx : Z) (d x : option Elf_Data) : option (option Elf_Data * option Elf_Data) :=
  match n with
  | O => Some (d, x)
  | S n =>
      sh ← gelf_getshdr e idx;
      name ← elf_strptr e shstrndx (sh_name sh);
      if bool_decide (name = str ".BTF") then d ← elf_getdata e idx; btf_sections e shstrndx want_ext n (idx + 1) (Some d) x
      else if want_ext && bool_decide (name = str ".BTF.ext") then x ← elf_getdata e idx; btf_sections e shstrndx want_ext n (idx + 1) d (Some x)
      else btf_sections e shstrndx want_ext n (idx + 1) d x
  end.
Definition contents (d : Elf_Data) : B (list Z) := if d_size d =? 0 then ret [] else deref (d_buf d).
(** [want_ext] is whether the caller asks for .BTF.ext.  [inl] is ERR_PTR. *)
Definition btf__parse_elf (p : path) (want_ext : bool) : B (Z + btf * option btf_ext) :=
  if negb elf_version_ok then ret (inl (- LIBBPF_ERRNO__LIBELF))
  else
    let! fd := sys_open_path p in
    if fd <? 0 then let! e := get_errno in ret (inl (- e))
    else
      let! e := gets (fun s => elf_begin (b_k s) fd) in
      let found := e ← e; ehdr ← gelf_getehdr e;
                   if negb (e_ident_data ehdr =? ELFDATA2LSB) then None
                   else _ ← elf_rawdata e (e_shstrndx ehdr); btf_sections e (e_shstrndx ehdr) want_ext (elf_scns e) 1 None None in
      let! r := match found with
                | None => ret (inl (- LIBBPF_ERRNO__FORMAT))
                | Some (None, _) => ret (inl (- ENOENT))
                | Some (Some d, x) =>
                    let! data := contents d in
                    let! r := untracked (btf__new data) in
                    match r with
                    | inl err => ret (inl err)
                    | inr b => match x with
                               | Some x => let! data := contents x in let! r := untracked (btf_ext__new data) in
                                           ret (match r with inl err => inl err | inr x => inr (b, Some x) end)
                               | None => ret (inr (b, None))
                               end
                    end
                end in
      sys_close fd ;;;
      ret r.
(** What stat(2) says of a file: an error, or its size. *)
Context (k_stat : pk -> path -> Z + Z).
(** [fread] of [n] bytes: reads until they are there; each but the last gives a byte or more.
    The number of bytes is the length of the result. *)
Fixpoint sys_fread (fuel : nat) (f n : Z) : B (list Z) :=
  match fuel with
  | O => ret []
  | S fuel =>
      if n <=? 0 then ret []
      else
        let! (r, bytes) := sys_read f n in
        if r <=? 0 then ret [] else let! rest := sys_fread fuel f (n - r) in ret (bytes ++ rest)
  end.
Definition btf_load_raw (p : path) : B (Z + btf) :=
  let! st := gets (fun s => k_stat (b_k s) p) in
  match st with
  | inl e => ret (inl (- e))
  | inr st_size =>
      let! ok := malloc in
      if negb ok then ret (inl (- ENOMEM))
      else
        let! f := sys_open_path p in
        if f <? 0 then let! e := get_errno in ret (inl (- e))
        else
          let! data := sys_fread (Z.to_nat st_size) f st_size in
          sys_close f ;;;
          if lenZ data <? st_size then ret (inl (- EBADF)) else untracked (btf__new data)
  end.
(** A path with the release of the kernel in it, and whether the file is raw. *)
Definition locations (release : path) : list (path * bool) :=
  [(str "/sys/kernel/btf/vmlinux", true);
   (str "/boot/vmlinux-" ++ release, false);
   (str "/lib/modules/" ++ release ++ str "/vmlinux-" ++ release, false);
   (str "/lib/modules/" ++ release ++ str "/build/vmlinux", false);
   (str "/usr/lib/modules/" ++ release ++ str "/kernel/vmlinux", false);
   (str "/usr/lib/debug/boot/vmlinux-" ++ release, false);
   (str "/usr/lib/debug/boot/vmlinux-" ++ release ++ str ".debug", false);
   (str "/usr/lib/debug/lib/modules/" ++ release ++ str "/vmlinux", false)].
Fixpoint try_locations (l : list (path * bool)) : B (Z + btf) :=
  match l with
  | [] => ret (inl (- ESRCH))
  | (p, raw_btf) :: l =>
      let p := take (PATH_MAX - 1) p in
      let! readable := gets (fun s => k_access (b_k s) p) in
      if negb readable then try_locations l
      else
        let! r := if (raw_btf : bool) then btf_load_raw p
                  else let! r := btf__parse_elf p false in ret (match r with inl e => inl e | inr (b, _) => inr b end) in
        match r with inl _ => try_locations l | inr b => ret (inr b) end
  end.
Context (release : path).
Definition bpf_core_find_kernel_btf : B (Z + btf) := try_locations (locations release).

(** ** The records *)

Definition read_reloc (data : list Z) (rec : Z) : option bpf_field_reloc :=
  insn_off ← word_of data rec;
  type_id ← word_of data (rec + 4);
  access_str_off ← word_of data (rec + 8);
  kind ← word_of data (rec + 12);
  Some (Field_reloc insn_off type_id access_str_off kind).
Context (relaxed : bool).
(** The records of one section, [n] of them at [rec], for the program [p]. *)
Fixpoint reloc_records (local_btf targ_btf : btf) (data : list Z) (rec_size : Z) (n : nat) (rec : Z) (p : bpf_program) (c : cands) :
    B (Z * bpf_program * cands) :=
  match n with
  | O => ret (0, p, c)
  | S n =>
      let! relo := deref (read_reloc data rec) in
      let! (err, p, c) := bpf_core_reloc_field relaxed p relo local_btf targ_btf c in
      if negb (err =? 0) then ret (err, p, c) else reloc_records local_btf targ_btf data rec_size n (rec + rec_size) p c
  end.
(** The sections from [sec] up to [stop]; each has a header. *)
Fixpoint reloc_sections (fuel : nat) (local_btf targ_btf : btf) (data : list Z) (rec_size sec stop : Z) (o : bpf_object) (c : cands) :
    B (Z * bpf_object * cands) :=
  if negb (sec <? stop) then ret (0, o, c)
  else
    match fuel with
    | O => fault
    | S fuel =>
        let! sec_name_off := deref (word_of data sec) in
        let! sec_name := deref (c_name local_btf sec_name_off) in
        match sec_name with
        | None | Some [] => ret (- EINVAL, o, c)
        | Some sec_name =>
            let! prog := deref (bpf_object__find_program_by_title o sec_name) in
            match prog with
            | None => ret (- EINVAL, o, c)
            | Some i =>
                let! num_info := deref (word_of data (sec + 4)) in
                let! p := deref (o_programs o !! Z.to_nat i) in
                let! (err, p, c) := reloc_records local_btf targ_btf data rec_size (Z.to_nat num_info) (sec + sec_hdrlen) p c in
                let o := with_programs o (<[Z.to_nat i := p]> (o_programs o)) in
                if negb (err =? 0) then ret (err, o, c)
                else reloc_sections fuel local_btf targ_btf data rec_size (sec + sec_hdrlen + u32 (rec_size * num_info)) stop o c
            end
        end
    end.
Definition bpf_core_reloc_fields (o : bpf_object) (targ_btf_path : option path) : B (Z * bpf_object) :=
  let! r := match targ_btf_path with
            | Some p => let! r := btf__parse_elf p false in ret (match r with inl e => inl e | inr (b, _) => inr b end)
            | None => bpf_core_find_kernel_btf
            end in
  match r with
  | inl err => ret (err, o)
  | inr targ_btf =>
      let! ok := malloc in
      match hashmap__new ok with
      | inl err => ret (err, o)
      | inr m =>
          let! x := deref (o_btf_ext o) in
          let! (local_btf, _) := deref (o_btf o) in
          let seg := ex_field x in
          let! (err, o, c) := reloc_sections (Z.to_nat (ei_len seg)) local_btf targ_btf (ex_data x) (ei_rec_size seg) (ei_info seg)
                                (ei_info seg + ei_len seg) o (Cands m []) in
          let! _ := deref (for_each_entry (cc_map c)) in
          let! _ := deref (hashmap__free (Some (cc_map c))) in
          ret (err, o)
      end
  end.
End Core.

(** ** Rules *)

#[export] Instance core_keys_ok : KeyOk core_keys.
Proof.
  split; cbn.
  - apply Z.eqb_refl.
  - apply Z.eqb_sym.
  - intros k1 k2 k3 E1%Z.eqb_eq E2%Z.eqb_eq. apply Z.eqb_eq. congruence.
  - by intros k k' ->%Z.eqb_eq.
Qed.

Section Candidates.
Context (local targ : btf) (rl rt : Z -> nat) (WL : btf_wf local rl) (WT : btf_wf targ rt) (unique : unique_fields targ) (undef : Z -> Z).
Definition type_name (b : btf) (id : Z) : option path := t ← btf__type_by_id b id; off ← name_off_at b t; n ← c_name b off; n.
(** The type [id] has a name, whose essential name is [e]. *)
Definition named (b : btf) (e : path) (id : Z) : Prop := 1 <= id <= nr_types b /\ exists n, type_name b id = Some n /\ n <> [] /\ essential n e.
(** A type of the target of the same essential name as the local type. *)
Definition namesake (lid tid : Z) : Prop := exists ln e, type_name local lid = Some ln /\ essential ln e /\ named targ e tid.
(** The type [tid] has what [lsp] describes. *)
Definition has (lsp : bpf_core_spec) (tid : Z) : Prop := exists off fin, corresponds_at local targ lsp tid off fin.
(** The accesses that were found so far, with their local types. *)
Definition history := list (Z * bpf_core_spec).
(** A type of the same essential name, that has everything that was found for the local type. *)
Definition eligible (H : history) (lid tid : Z) : Prop := namesake lid tid /\ forall lsp, (lid, lsp) ∈ H -> has lsp tid.
(** A type is in a vector itself or as what it is behind typedefs. *)
Definition stands (tid x : Z) : Prop := in_range targ tid /\ (x = tid \/ exists t, skip_mods_and_typedefs targ tid = Some (Some t, x)).
Definition candidate (H : history) (lid x : Z) : Prop := in_range targ x /\ exists tid, eligible H lid tid /\ stands tid x.
Definition all_there (H : history) (lid : Z) (v : list Z) : Prop := forall tid, eligible H lid tid -> exists x, x ∈ v /\ stands tid x.
(** The cache: a vector per local type, of the types that are left. *)
Definition bound (H : history) (f : fmap Z nat) (l : list (list Z)) : Prop :=
  (forall k e, binding f k = Some e -> exists v, l !! snd e = Some v /\ Forall (candidate H k) v /\ all_there H k v) /\
  (forall k k' e e', binding f k = Some e -> binding f k' = Some e' -> snd e = snd e' -> k = k') /\
  (forall k lsp, (k, lsp) ∈ H -> binding f k <> None).
Definition cands_ok (H : history) (c : cands) : Prop := exists f, sim undef (cc_map c) f /\ bound H f (vecs c).
Definition freeable (c : cands) : Prop := exists f, sim undef (cc_map c) f.
Lemma cands_freeable H c : cands_ok H c -> freeable c.
Proof using. intros (f & S & _). by exists f. Qed.
Lemma named_type b rank (W : btf_wf b rank) id : in_range b id -> exists t n s, btf__type_by_id b id = Some (Some t) /\ name_off_at b (Some t) = Some n /\ c_name b n = Some (Some s) /\
  type_name b id = Some s.
Proof using.
  intros Hi. destruct (bw_there _ _ W id Hi) as [t Ht]. exists t. unfold type_name. rewrite Ht. cbn [mbind option_bind]. destruct t as [t|].
  - destruct (type_parts b rank W id t ltac:(apply Hi) Ht) as (k & v & nm & sz & w & s & _ & _ & En & _ & _ & _ & _ & Ec). exists nm, s. cbn [name_off_at]. rewrite En. cbn [mbind option_bind]. by rewrite Ec.
  - exists 0, []. cbn [name_off_at mbind option_bind]. rewrite (bw_empty _ _ W). done.
Qed.
(** What stands for a type has the same fields. *)
Lemma stands_skip tid x : stands tid x -> exists t h, skip_mods_and_typedefs targ tid = Some (Some t, h) /\ skip_mods_and_typedefs targ x = Some (Some t, h) /\ in_range targ h.
Proof using WT.
  intros [Hi Hx]. destruct (skip_ok targ rt WT tid Hi) as (t & h & E & Hp & _). exists t, h. split; [done|]. split; [|apply Hp]. destruct Hx as [->|[t' E']]; [done|].
  rewrite E in E'. injection E' as <- <-. by apply skip_plain.
Qed.
Lemma corresponds_stands lsp tid x off fin : stands tid x -> corresponds_at local targ lsp tid off fin <-> corresponds_at local targ lsp x off fin.
Proof using WT.
  intros (t & h & E & E' & _)%stands_skip. split; intros (a0 & accs & t1 & h1 & sz & o & Es & E1 & H).
  - rewrite E in E1. injection E1 as <- <-. by exists a0, accs, t, h, sz, o.
  - rewrite E' in E1. injection E1 as <- <-. by exists a0, accs, t, h, sz, o.
Qed.
Lemma has_stands lsp tid x : stands tid x -> has lsp tid <-> has lsp x.
Proof using WT. intros H. split; intros (off & fin & Hc); exists off, fin; by apply (corresponds_stands lsp tid x). Qed.
Lemma target_stands lsp tid x tsp : stands tid x -> target_spec local targ lsp x tsp -> target_spec local targ lsp tid tsp.
Proof using WT.
  intros HS ((a0 & accs & off & fin & Es & En & Ha & (t & h & sz & o & E & HL) & Hb & Hl & t2 & E2) & Hm & off2 & fin2 & Hc & Ho). destruct (stands_skip _ _ HS) as (t' & h' & E3 & E4 & _).
  rewrite E4 in E, E2. injection E as <- <-. injection E2 as <- Eh. split; [|split; [done|exists off2, fin2; split; [by apply (corresponds_stands lsp tid x)|done]]].
  exists a0, accs, off, fin. repeat (split; [done|]). split; [by exists t', h', sz, o|]. split; [done|]. split; [done|]. exists t'. by rewrite <- Eh.
Qed.
Lemma stands_on tid x t y : stands tid x -> skip_mods_and_typedefs targ x = Some (Some t, y) -> stands tid y.
Proof using WT.
  intros HS E. pose proof HS as [Hi _]. destruct (stands_skip _ _ HS) as (t' & h & E1 & E2 & _). rewrite E2 in E. injection E as <- <-. split; [done|]. right. by exists t'.
Qed.
(** What the loop knows when it has seen [pre]: [reps] are what the types are that have the
    access, and all have it at the offset of [tsp]. *)
Definition scanned (lsp : bpf_core_spec) (pre reps : list Z) (tsp : bpf_core_spec) : Prop :=
  (forall y, y ∈ reps -> exists x t, x ∈ pre /\ has lsp x /\ skip_mods_and_typedefs targ x = Some (Some t, y)) /\
  (forall x off fin, x ∈ pre -> corresponds_at local targ lsp x off fin -> (exists y t, y ∈ reps /\ skip_mods_and_typedefs targ x = Some (Some t, y)) /\ sp_bit_offset tsp = u32 off) /\
  (reps = [] \/ exists x, x ∈ pre /\ target_spec local targ lsp x tsp).
Lemma scanned_miss lsp pre reps tsp x : scanned lsp pre reps tsp -> (forall off fin, ~ corresponds_at local targ lsp x off fin) -> scanned lsp (pre ++ [x]) reps tsp.
Proof using.
  intros (H1 & H2 & H3) HN. split; [|split].
  - intros y Hy. destruct (H1 y Hy) as (z & t & Hz & H). exists z, t. split; [|done]. apply elem_of_app. by left.
  - intros z off fin [Hz| ->%list_elem_of_singleton]%elem_of_app Hc; [by eapply H2|]. by destruct (HN off fin).
  - destruct H3 as [?|(z & Hz & H)]; [by left|right]. exists z. split; [|done]. apply elem_of_app. by left.
Qed.
Lemma scanned_hit lsp pre reps tsp x sp t y : scanned lsp pre reps tsp -> target_spec local targ lsp x sp -> skip_mods_and_typedefs targ x = Some (Some t, y) ->
  (reps = [] \/ sp_bit_offset sp = sp_bit_offset tsp) -> scanned lsp (pre ++ [x]) (reps ++ [y]) (if Nat.eqb (length reps) 0 then sp else tsp).
Proof using unique.
  intros (H1 & H2 & H3) HT Ex Hb. pose proof HT as (_ & _ & o & f & Hc & Ho). assert (Hx : x ∈ pre ++ [x]) by (apply elem_of_app; right; by apply list_elem_of_singleton).
  assert (Hin : forall z, z ∈ pre -> z ∈ pre ++ [x]) by (intros z Hz; apply elem_of_app; by left).
  assert (Eb : sp_bit_offset (if Nat.eqb (length reps) 0 then sp else tsp) = sp_bit_offset sp).
  { destruct (Nat.eqb_spec (length reps) 0); [done|]. destruct Hb as [->|Hb]; [done|by symmetry]. }
  split; [|split].
  - intros z [Hz| ->%list_elem_of_singleton]%elem_of_app; [destruct (H1 z Hz) as (u & t' & Hu & H); exists u, t'; split; [by apply Hin|done]|]. exists x, t. split; [done|]. split; [by exists o, f|done].
  - intros z off fin [Hz| ->%list_elem_of_singleton]%elem_of_app Hcz; rewrite Eb.
    + destruct (H2 z off fin Hz Hcz) as [(y' & t' & Hy & E) Eo]. split; [exists y', t'; split; [apply elem_of_app; by left|done]|]. destruct Hb as [->|Hb]; [by apply not_elem_of_nil in Hy|congruence].
    + split; [exists y, t; split; [apply elem_of_app; right; by apply list_elem_of_singleton|done]|]. destruct (corresponds_at_det _ _ unique _ _ _ _ _ _ Hcz Hc) as [-> _]. done.
  - right. destruct (Nat.eqb_spec (length reps) 0); [by exists x|]. destruct H3 as [->|(z & Hz & H)]; [done|]. exists z. split; [by apply Hin|done].
Qed.
(** The loop over the candidates of one vector: [reps] are kept, [gap] is what was passed over,
    [rest] is still to be looked at. *)
Lemma cand_loop_ok lid lsp : specifies local lid lsp -> forall rest reps gap pre tsp, Forall (in_range targ) rest -> scanned lsp pre reps tsp ->
  exists r vec', cand_loop local targ lsp (length rest) (length (reps ++ gap)) (length reps) (reps ++ gap ++ rest) tsp = Some (r, vec') /\ match r with
  | inl e => e < 0
  | inr (j, tsp') => exists reps' gap', vec' = reps' ++ gap' /\ j = length reps' /\ scanned lsp (pre ++ rest) reps' tsp' /\ (reps' = [] -> vec' = reps ++ gap ++ rest)
  end.
Proof using WL WT unique.
  intros Hs. induction rest as [|x rest IH]; intros reps gap pre tsp Hr HS; cbn [cand_loop length].
  { eexists _, _. split; [done|]. rewrite !app_nil_r. by exists reps, gap. }
  apply Forall_cons_1 in Hr as [Hx Hr]. rewrite (assoc_L (++)). rewrite list_lookup_middle by done. cbn [mbind option_bind].
  destruct (named_type targ rt WT x Hx) as (t & nm & s & E1 & E2 & _). rewrite E1. cbn [mbind option_bind]. rewrite E2. cbn [mbind option_bind].
  destruct (spec_match_ok local targ rl rt WL WT unique lid lsp x Hs Hx) as (code & sp & Em & HM). rewrite Em. cbn [mbind option_bind].
  destruct HM as [[Hneg _]|[[-> HN]|(-> & HT)]].
  - rewrite (proj2 (Z.ltb_lt _ _) Hneg). by eexists _, _.
  - cbn [Z.ltb Z.compare Z.eqb]. destruct (IH reps (gap ++ [x]) (pre ++ [x]) tsp Hr) as (r & vec' & E & HP); [by apply scanned_miss|].
    replace (length (reps ++ gap ++ [x])) with (S (length (reps ++ gap))) in E by (rewrite !length_app; cbn [length]; lia). rewrite <- !(assoc_L (++)) in *. cbn [app] in *. by exists r, vec'.
  - cbn [Z.ltb Z.compare Z.eqb]. destruct (_ && _)%bool eqn:Eamb; [by eexists _, _|].
    pose proof HT as ((a0 & accs & off & fin & Esp & _ & _ & _ & _ & _ & t' & Esk) & _). rewrite Esp. cbn [lookup list_lookup mbind option_bind].
    rewrite (proj2 (Nat.ltb_lt _ _)) by (rewrite !length_app; cbn [length]; lia). cbn [negb].
    assert (Hb : reps = [] \/ sp_bit_offset sp = sp_bit_offset tsp).
    { destruct reps; [by left|right]. cbn [length Nat.eqb negb andb] in Eamb. by apply negb_false_iff, Z.eqb_eq in Eamb. }
    pose proof (scanned_hit _ _ _ _ _ _ _ _ HS HT Esk Hb) as HS'.
    assert (Hg : exists gap', (<[length reps := a_type_id a0]> ((reps ++ gap) ++ x :: rest)) = (reps ++ [a_type_id a0]) ++ gap' ++ rest /\ length gap' = length gap).
    { destruct gap as [|g gap].
      - exists []. rewrite app_nil_r, <- (assoc_L (++)). split; [|done]. rewrite insert_app_r_alt, Nat.sub_diag by done. done.
      - exists (gap ++ [x]). rewrite <- !(assoc_L (++)). split; [|rewrite length_app; cbn [length]; lia]. rewrite insert_app_r_alt, Nat.sub_diag by done. done. }
    destruct Hg as (gap' & -> & Hlg). destruct (IH (reps ++ [a_type_id a0]) gap' (pre ++ [x]) _ Hr HS') as (r & vec' & E & HP).
    replace (length ((reps ++ [a_type_id a0]) ++ gap')) with (S (length (reps ++ gap))) in E by (rewrite !length_app; cbn [length]; lia).
    replace (length (reps ++ [a_type_id a0])) with (S (length reps)) in E by (rewrite !length_app; cbn [length]; lia). exists r, vec'. split; [done|]. destruct r as [e|[j tsp']]; [done|].
    destruct HP as (reps' & gap2 & -> & -> & HS2 & Hnil). exists reps', gap2. split; [done|]. split; [done|]. rewrite <- (assoc_L (++)) in HS2. split; [done|]. intros ->.
    destruct HS2 as (_ & H2 & _). pose proof HT as (_ & _ & o & f & Hc & _). destruct (H2 x o f) as [(y & ? & Hy & _) _]; [|done|by apply not_elem_of_nil in Hy].
    apply elem_of_app. right. apply elem_of_app. left. by apply list_elem_of_singleton.
Qed.
End Candidates.

(** The blocks that [realloc] gives are long enough for the types of one essential name. *)
Definition cands_fit (usable : Z -> Z) (b : btf) : Prop := forall e l, l <> [] -> NoDup l -> Forall (named b e) l -> 4 * lenZ l <= usable (lenZ l).

(** The two operations of the cache. *)
Lemma cache_find undef (m : hashmap Z nat) f k : sim undef m f -> exists m', hashmap__find undef k m = Some (snd <$> binding f k, m') /\ sim undef m' f.
Proof.
  intros S. destruct (exec_sim undef m f (Find k) S I) as (r & m' & f' & E & Hsp & S'). inversion Hsp; subst. exists m'. split; [|done]. cbn [exec] in E. unfold bind, ret in E.
  destruct (hashmap__find undef k m) as [[v m2]|]; [|done]. by injection E as <- <-.
Qed.
Lemma cache_insert undef (m : hashmap Z nat) f k v ok1 ok2 : sim undef m f -> binding f k = None -> exists err old m', hashmap__set undef k v ok1 ok2 m = Some ((err, old), m') /\
  (err = 0 /\ sim undef m' (bind_key f k (k, v) (card f + 1)) \/ err < 0 /\ sim undef m' f).
Proof.
  intros S Hb. destruct (exec_sim undef m f (Insert k v HASHMAP_SET ok1 ok2) S) as (r & m' & f' & E & Hsp & S'); [done|]. cbn [exec] in E. unfold bind, ret in E. unfold hashmap__set.
  destruct (hashmap__insert undef k v HASHMAP_SET ok1 ok2 m) as [[[err old] m2]|]; [|done]. injection E as <- <-. exists err, old, m2. split; [done|].
  inversion Hsp; subst; try congruence; [by left|right; by split].
Qed.

Section FieldRules.
Context {BK : BpfKernel} {BO : BpfKernelOk BK} (undef usable : Z -> Z).
Context (local targ : btf) (rl rt : Z -> nat) (WL : btf_wf local rl) (WT : btf_wf targ rt) (unique : unique_fields targ) (fit : cands_fit usable targ).
Abbreviation B := (M (bsys BK)).
(** The programs below keep the descriptors. *)
Definition quiet {A} (X : list Z) (s : bsys BK) (P : A -> Prop) (a : A) (s' : bsys BK) : Prop := own s' X /\ kept X s s' /\ P a.
Lemma wp_quiet_malloc X s s0 (Q : bool -> bsys BK -> Prop) : own s X -> kept X s0 s -> (forall ok s', own s' X -> kept X s0 s' -> Q ok s') -> wp malloc Q s.
Proof using BO. intros HO HK HQ. eapply own_malloc; [exact HO|]. intros ok s' HO' K' _. apply HQ; [done|by eapply kept_trans]. Qed.
(** What the loop has collected when it is at [i]. *)
Definition collected (lid i : Z) (ids : list Z) : Prop := NoDup ids /\ Forall (fun x => namesake local targ lid x /\ x < i) ids /\ forall tid, namesake local targ lid tid -> tid < i -> tid ∈ ids.
Lemma collected_skip lid i ids : collected lid i ids -> ~ namesake local targ lid i -> collected lid (i + 1) ids.
Proof using.
  intros (HD & HF & HA) Hn. split; [done|]. split; [eapply list.Forall_impl; [exact HF|]; intros x [? ?]; split; [done|lia]|].
  intros tid Ht Hlt. destruct (Z.eq_dec tid i) as [->|]; [done|]. apply HA; [done|lia].
Qed.
Lemma collected_add lid i ids : collected lid i ids -> namesake local targ lid i -> collected lid (i + 1) (ids ++ [i]).
Proof using.
  intros (HD & HF & HA) Hn. split; [|split].
  - apply list.NoDup_app. split; [done|]. split; [|apply list.NoDup_singleton]. intros x Hx ->%list_elem_of_singleton. rewrite list.Forall_forall in HF. destruct (HF i Hx). lia.
  - apply Forall_app. split; [eapply list.Forall_impl; [exact HF|]; intros x [? ?]; split; [done|lia]|]. constructor; [|done]. split; [done|lia].
  - intros tid Ht Hlt. apply elem_of_app. destruct (Z.eq_dec tid i) as [->|]; [right; by apply list_elem_of_singleton|left]. apply HA; [done|lia].
Qed.
Lemma collected_fits lid ln i ids : type_name local lid = Some ln -> collected lid i ids -> ids <> [] -> 4 * lenZ ids <= usable (lenZ ids).
Proof using fit.
  intros Hl (HD & HF & _) Hne. apply (fit (take (Z.to_nat (bpf_core_essential_name_len ln)) ln)); [done|done|]. eapply list.Forall_impl; [exact HF|].
  intros x [(ln' & e & Hl' & He & Hx) _]. rewrite Hl in Hl'. injection Hl' as <-. by rewrite (essential_det _ _ _ (essential_len ln) He).
Qed.
Lemma namesake_iff lid ln tn i : type_name local lid = Some ln -> type_name targ i = Some tn -> tn <> [] -> 1 <= i <= nr_types targ ->
  namesake local targ lid i <-> bpf_core_essential_name_len ln = bpf_core_essential_name_len tn /\ same_prefix (bpf_core_essential_name_len ln) ln tn = true.
Proof using.
  intros El Et Hne Hi. rewrite same_essential. split.
  - intros (ln' & e & El' & He & _ & tn' & Et' & _ & He'). rewrite El in El'. rewrite Et in Et'. injection El' as <-. injection Et' as <-. by exists e.
  - intros (e & He & He'). exists ln, e. split; [done|]. split; [done|]. split; [done|]. by exists tn.
Qed.
Lemma wp_cands_loop lid ln X s0 : type_name local lid = Some ln -> forall n i ids s, own s X -> kept X s0 s -> 1 <= i -> i + Z.of_nat n = nr_types targ + 1 -> collected lid i ids ->
  wp (cands_loop usable ln (bpf_core_essential_name_len ln) targ n i ids) (quiet X s0 (fun r => match r with inl e => e < 0 | inr l => collected lid (nr_types targ + 1) l end)) s.
Proof using BO WT fit.
  intros Hln. induction n as [|n IH]; intros i ids s HO HK Hi Hn Hc; cbn [cands_loop]; [apply wp_ret; split; [done|]; split; [done|]; by replace (nr_types targ + 1) with i by lia|].
  assert (Hr : in_range targ i) by (unfold in_range; lia). destruct (named_type targ rt WT i Hr) as (t & nm & tn & E1 & E2 & E3 & E4).
  apply wp_bind. eapply wp_deref; [exact E1|]. apply wp_bind. eapply wp_deref; [exact E2|]. apply wp_bind. eapply wp_deref; [exact E3|]. cbv zeta.
  destruct tn as [|c tn].
  { apply IH; try done; [lia|lia|]. apply collected_skip; [done|]. intros (? & ? & _ & _ & _ & tn & Et & Hne & _). rewrite E4 in Et. by injection Et as <-. }
  pose proof (namesake_iff lid ln (c :: tn) i Hln E4 ltac:(done) ltac:(lia)) as HN.
  destruct (Z.eqb_spec (bpf_core_essential_name_len (c :: tn)) (bpf_core_essential_name_len ln)) as [El|El]; cbn [negb].
  2: { apply IH; try done; [lia|lia|]. apply collected_skip; [done|]. rewrite HN. intros [? _]. congruence. }
  destruct (same_prefix _ _ _) eqn:Ep; [|apply IH; try done; [lia|lia|]; apply collected_skip; [done|]; rewrite HN; by intros [_ ?]].
  assert (Hc' : collected lid (i + 1) (ids ++ [i])) by (apply collected_add; [done|]; by apply HN).
  apply wp_bind. eapply wp_quiet_malloc; [exact HO|exact HK|]. intros ok s' HO' K'. destruct ok; cbn [negb]; [|by apply wp_ret].
  pose proof (collected_fits lid ln _ _ Hln Hc' ltac:(by destruct ids)) as Hf. rewrite length_app in Hf. cbn [length] in Hf. rewrite Nat2Z.inj_add in Hf. change (Z.of_nat 1) with 1 in Hf.
  rewrite (proj2 (Z.leb_le _ _) Hf). apply IH; try done; lia.
Qed.
Lemma collected_all lid l : collected lid (nr_types targ + 1) l -> forall H, (forall lsp, (lid, lsp) ∉ H) -> Forall (candidate local targ H lid) l /\ all_there local targ H lid l.
Proof using.
  intros (_ & HF & HA) H Hno. assert (Hr : forall x, namesake local targ lid x -> in_range targ x) by (intros x (? & ? & _ & _ & ? & _); unfold in_range; lia). split.
  - eapply list.Forall_impl; [exact HF|]. intros x [Hx _]. split; [by apply Hr|]. exists x. split; [split; [done|]; intros lsp ?; by destruct (Hno lsp)|]. split; [by apply Hr|by left].
  - intros tid [Ht _]. exists tid. split; [|split; [by apply Hr|by left]]. apply HA; [done|]. destruct Ht as (? & ? & _ & _ & ? & _). lia.
Qed.
Lemma wp_find_cands lid X s s0 : own s X -> kept X s0 s -> in_range local lid ->
  wp (bpf_core_find_cands usable local lid targ) (quiet X s0 (fun r => match r with inl e => e < 0 | inr l => collected lid (nr_types targ + 1) l end)) s.
Proof using BO WL WT fit.
  intros HO HK Hi. destruct (named_type local rl WL lid Hi) as (t & nm & ln & E1 & E2 & E3 & E4). unfold bpf_core_find_cands. apply wp_bind. eapply wp_deref; [exact E1|].
  apply wp_bind. eapply wp_deref; [exact E2|]. apply wp_bind. eapply wp_deref; [exact E3|]. destruct ln as [|c ln]; [by apply wp_ret|].
  apply wp_bind. eapply wp_quiet_malloc; [exact HO|exact HK|]. intros ok s' HO' K'. destruct ok; cbn [negb]; [|by apply wp_ret].
  pose proof (bw_count _ _ WT). apply wp_cands_loop; try done; [lia|]. split; [by apply base.NoDup_nil_2|]. split; [done|].
  intros tid (? & ? & _ & _ & ? & _). lia.
Qed.
(** A new entry of the cache is a new vector. *)
Lemma bound_add H f k l ids : bound local targ H f l -> binding f k = None -> Forall (candidate local targ H k) ids -> all_there local targ H k ids ->
  bound local targ H (bind_key f k (k, length l) (card f + 1)) (l ++ [ids]).
Proof using.
  intros (Hv & Hj & Hh) Hn Hi Ha. assert (HB : forall k' e, binding (bind_key f k (k, length l) (card f + 1)) k' = Some e -> k' = k /\ e = (k, length l) \/ k' <> k /\ binding f k' = Some e).
  { intros k' e. cbn [binding bind_key equal_fn core_keys]. destruct (Z.eqb_spec k k') as [->|]; [intros [= <-]; by left|right; split; [congruence|done]]. }
  assert (Hlt : forall k' e, binding f k' = Some e -> (snd e < length l)%nat) by (intros k' e He; destruct (Hv k' e He) as (v & E & _); by eapply lookup_lt_Some). split; [|split].
  - intros k' e [[-> ->]|[Hne Hb]]%HB; [exists ids; cbn [snd]; by rewrite lookup_app_r, Nat.sub_diag|]. destruct (Hv k' e Hb) as (v & E & HF). exists v. split; [|done].
    rewrite lookup_app_l; [done|by eapply Hlt].
  - intros k1 k2 e1 e2 [[-> ->]|[? B1]]%HB [[-> ->]|[? B2]]%HB; cbn [snd]; intros E; [done| | |by eapply Hj].
    + specialize (Hlt _ _ B2). lia.
    + specialize (Hlt _ _ B1). lia.
  - intros k' lsp Hin. cbn [binding bind_key equal_fn core_keys]. destruct (k =? k'); [done|by eapply Hh].
Qed.
Definition cands_post (H : history) (lid : Z) (rc : (Z + nat) * cands) : Prop := freeable undef rc.2 /\
  match rc.1 with
  | inl e => e < 0
  | inr v => exists f e, sim undef (cc_map rc.2) f /\ bound local targ H f (vecs rc.2) /\ binding f lid = Some e /\ snd e = v
  end.
Lemma wp_cache_new H f m lid l ids X s s0 : own s X -> kept X s0 s -> sim undef m f -> bound local targ H f l -> binding f lid = None -> Forall (candidate local targ H lid) ids ->
  all_there local targ H lid ids ->
  wp (let! (err, m) := cache_set undef lid (length l) m in ret (if negb (err =? 0) then (inl err, Cands m l) else (inr (length l), Cands m (l ++ [ids])))) (quiet X s0 (cands_post H lid)) s.
Proof using BO.
  intros HO HK S Hv Hb Hids Hall. unfold cache_set. apply wp_bind, wp_bind.
  eapply (wp_mono _ (quiet X s0 (fun _ => True))).
  { destruct (hashmap_needs_to_grow m); [eapply wp_quiet_malloc; [exact HO|exact HK|]; by intros|by apply wp_ret]. }
  intros ok1 s1 (HO1 & K1 & _). apply wp_bind. eapply (wp_mono _ (quiet X s0 (fun _ => True))).
  { destruct ok1; [eapply wp_quiet_malloc; [exact HO1|exact K1|]; by intros|by apply wp_ret]. }
  intros ok2 s2 (HO2 & K2 & _). destruct (cache_insert undef m f lid (length l) ok1 ok2 S Hb) as (err & old & m2 & E & HC).
  apply wp_bind. eapply wp_deref; [exact E|]. apply wp_ret, wp_ret. split; [done|]. split; [done|]. destruct HC as [[-> S2]|[Hneg S2]].
  - split; [by eexists|]. exists (bind_key f lid (lid, length l) (card f + 1)), (lid, length l). split; [done|]. split; [by apply bound_add|]. split; [|done].
    cbn [binding bind_key equal_fn core_keys]. by rewrite Z.eqb_refl.
  - destruct (Z.eqb_spec err 0); [lia|]. split; [by exists f|done].
Qed.
Lemma wp_get_cands H relo l f m X s s0 : own s X -> kept X s0 s -> in_range local (fr_type_id relo) -> sim undef m f -> bound local targ H f l ->
  wp (get_cands undef usable local targ relo (snd <$> binding f (fr_type_id relo)) m l) (quiet X s0 (cands_post H (fr_type_id relo))) s.
Proof using BO WL WT fit.
  intros HO HK Hi S Hv. unfold get_cands. destruct (binding f (fr_type_id relo)) as [[k v]|] eqn:Eb; cbn [base.fmap option_fmap option_map].
  - apply wp_ret. split; [done|]. split; [done|]. split; [by exists f|]. by exists f, (k, v).
  - apply wp_bind. eapply wp_mono; [by apply (wp_find_cands (fr_type_id relo) X s s0)|]. intros r s1 (HO1 & K1 & HR). destruct r as [e|ids].
    + apply wp_ret. split; [done|]. split; [done|]. split; [by exists f|done].
    + destruct (collected_all _ _ HR H) as [HF HA]; [|by eapply wp_cache_new]. intros lsp Hin. by apply (proj2 (proj2 Hv) _ _ Hin).
Qed.
(** The value of a relocation: from the specification of the target, if there is one. *)
Definition reloc_value (relo : bpf_field_reloc) (ts : option bpf_core_spec) (v : Z) : Prop :=
  match ts with
  | None => fr_kind relo = BPF_FIELD_EXISTS /\ v = 0 \/ fr_kind relo <> BPF_FIELD_EXISTS /\ v = UINT32_MAX
  | Some tsp => fr_kind relo = BPF_FIELD_EXISTS /\ v = 1 \/
      fr_kind relo <> BPF_FIELD_EXISTS /\ exists check, bpf_core_calc_field_relo targ (fr_kind relo) tsp = Some (inr (v, check))
  end.
Definition insn_there (relo : bpf_field_reloc) (n : Z) : Prop := 0 <= fr_insn_off relo /\ (fr_insn_off relo mod 8 = 0 -> fr_insn_off relo / 8 < n).
(** What the compiler must have put there: the value of the local field, where it is checked. *)
Definition expected (relo : bpf_field_reloc) (lsp : bpf_core_spec) (ts : option bpf_core_spec) (x : Z) : Prop :=
  if fr_kind relo =? BPF_FIELD_EXISTS then x = 1
  else match ts with
       | Some _ => exists orig check, bpf_core_calc_field_relo local (fr_kind relo) lsp = Some (inr (orig, check)) /\ (check = true -> x = orig)
       | None => True
       end.
(** The instruction of the record, arithmetic with an immediate, gets the value [v], and nothing
    else changes. *)
Definition patched_with (relo : bpf_field_reloc) (lsp : bpf_core_spec) (ts : option bpf_core_spec) (v : Z) (l l' : list bpf_insn) : Prop := fr_insn_off relo mod 8 = 0 /\
  exists insn, l !! Z.to_nat (fr_insn_off relo / 8) = Some insn /\ (BPF_CLASS (code insn) = BPF_ALU \/ BPF_CLASS (code insn) = BPF_ALU64) /\ BPF_SRC (code insn) = BPF_K /\
  expected relo lsp ts (u32 (imm insn)) /\ l' = setZ l (fr_insn_off relo / 8) (with_imm insn (s32 v)).
Lemma widen_error bit_off bit_sz fuel : forall byte_sz e, widen fuel bit_off bit_sz byte_sz = Some (inl e) -> e < 0.
Proof using.
  induction fuel as [|fuel IH]; intros byte_sz e; cbn [widen]; destruct (byte_sz =? 0); try done; cbv zeta; destruct (_ >? _); try done.
  destruct (_ >=? _); [by intros [= <-]|apply IH].
Qed.
Lemma field_value_error b kind mt bf o z bs bo e : field_value b kind mt bf o z bs bo = Some (inl e) -> e < 0.
Proof using.
  unfold field_value. repeat (match goal with |- context [if ?c then _ else _] => destruct c end; try done; try by intros [= <-]).
  destruct (kind_at b (Some mt)) as [k|]; [|done]. cbn [mbind option_bind]. destruct (_ =? _); [done|]. destruct mt as [t|]; [|done]. cbn [mbind option_bind].
  by destruct (btf_int_encoding b t).
Qed.
Lemma calc_error b kind sp e : bpf_core_calc_field_relo b kind sp = Some (inl e) -> e < 0.
Proof using.
  unfold bpf_core_calc_field_relo. destruct (list.last (sp_spec sp)) as [acc|]; [|done]. cbn [mbind option_bind]. destruct (a_name acc).
  - destruct (btf__type_by_id b (a_type_id acc)) as [[[t|]|]|]; try done. cbn [mbind option_bind]. destruct (member_type b t (a_idx acc)) as [ty|]; [|done]. cbn [mbind option_bind].
    destruct (skip_mods_and_typedefs b ty) as [[mt ?]|]; [|done]. cbn [mbind option_bind]. destruct (btf_member_bitfield_size b t (a_idx acc)) as [bz|]; [|done]. cbn [mbind option_bind].
    destruct (bz >? 0).
    + destruct (type_field_at b mt) as [size|]; [|done]. cbn [mbind option_bind]. destruct mt as [mt|]; [|done]. cbn [mbind option_bind].
      destruct (widen 4 (sp_bit_offset sp) bz size) as [[err|[bs bo]]|] eqn:E; [| |done]; cbn [mbind option_bind]; [|apply field_value_error]. intros [= <-]. by eapply widen_error.
    + destruct (btf__resolve_size b ty) as [sz|]; [|done]. cbn [mbind option_bind]. destruct (sz <? 0); [by intros [= <-]|]. destruct mt as [mt|]; [|done]. apply field_value_error.
  - destruct (kind =? _); [done|]. destruct (kind =? _); [|by intros [= <-]]. destruct (btf__resolve_size b (a_type_id acc)) as [sz|]; [|done]. cbn [mbind option_bind]. destruct (sz <? 0); [by intros [= <-]|done].
Qed.
Lemma reloc_insn_ok insns relo lid lsp ts : specifies local lid lsp -> match ts with None => True | Some tsp => exists tid, specifies targ tid tsp end ->
  insn_there relo (lenZ insns) -> exists e insns', bpf_core_reloc_insn local targ insns relo lsp ts = Some (e, insns') /\ length insns' = length insns /\
    (e = 0 -> exists v, reloc_value relo ts v /\ patched_with relo lsp ts v insns insns').
Proof using WL WT.
  intros HL HT [H0 Hin]. unfold bpf_core_reloc_insn. destruct (Z.eqb_spec (fr_insn_off relo mod 8) 0) as [H8|]; cbn [negb]; [|by eexists _, _].
  specialize (Hin H8). assert (Hd : 0 <= fr_insn_off relo / 8) by (apply Z.div_pos; lia).
  assert (Hend : forall failed validate orig v, reloc_value relo ts v -> (forall x, (negb failed && validate = true -> x = orig) -> expected relo lsp ts x) -> exists e insns', (insn ← insns !! Z.to_nat (fr_insn_off relo / 8);
      let class := BPF_CLASS (code insn) in
      if (class =? BPF_ALU) || (class =? BPF_ALU64) then
        if negb (BPF_SRC (code insn) =? BPF_K) then Some (- EINVAL, insns)
        else if negb failed && validate && negb (u32 (imm insn) =? orig) then Some (- EINVAL, insns)
        else Some (0, setZ insns (fr_insn_off relo / 8) (with_imm insn (s32 v)))
      else Some (- EINVAL, insns)) = Some (e, insns') /\ length insns' = length insns /\ (e = 0 -> exists v, reloc_value relo ts v /\ patched_with relo lsp ts v insns insns')).
  { intros failed validate orig v Hv Hx. destruct (lookup_lt_is_Some_2 insns (Z.to_nat (fr_insn_off relo / 8))) as [insn Ei]; [lia|]. rewrite Ei. cbn [mbind option_bind].
    destruct (_ || _) eqn:Ec; [|by eexists _, _]. apply orb_prop in Ec. rewrite !Z.eqb_eq in Ec. destruct (Z.eqb_spec (BPF_SRC (code insn)) BPF_K) as [EK|]; cbn [negb]; [|by eexists _, _].
    destruct (negb failed && validate && _)%bool eqn:Eo; [by eexists _, _|]. eexists _, _. split; [done|]. split; [apply length_setZ|].
    intros _. exists v. split; [done|]. split; [done|]. exists insn. repeat (split; [done|]). split; [|done]. apply Hx. intros Hf. rewrite Hf in Eo. cbn [andb] in Eo. by apply negb_false_iff, Z.eqb_eq in Eo. }
  cbv zeta. destruct (Z.eqb_spec (fr_kind relo) BPF_FIELD_EXISTS) as [Ek|Ek]; cbn [mbind option_bind].
  - apply Hend; [destruct ts; left; by split|]. intros x Hx. unfold expected. rewrite Ek, Z.eqb_refl. by apply Hx.
  - destruct ts as [tsp|]; cbn [mbind option_bind]; [|apply Hend; [by right|]; intros x _; unfold expected; by rewrite (proj2 (Z.eqb_neq _ _) Ek)]. destruct HT as [tid HT].
    destruct (calc_ok local rl WL (fr_kind relo) lid lsp HL) as [o Eo]. rewrite Eo. cbn [mbind option_bind]. destruct o as [e|[orig check]]; cbn [mbind option_bind].
    { apply calc_error in Eo. eexists _, _. split; [done|]. split; [done|]. lia. }
    destruct (calc_ok targ rt WT (fr_kind relo) tid tsp HT) as [n En]. rewrite En. cbn [mbind option_bind]. destruct n as [e|[v check']]; cbn [mbind option_bind].
    { apply calc_error in En. eexists _, _. split; [done|]. split; [done|]. lia. }
    apply Hend; [right; split; [done|]; by exists check'|]. intros x Hx. unfold expected. rewrite (proj2 (Z.eqb_neq _ _) Ek). by exists orig, check.
Qed.
(** One record. *)
Record relo_ok (relo : bpf_field_reloc) (n : Z) : Prop := {
  ro_type : in_range local (fr_type_id relo);
  ro_str : exists str, c_name local (fr_access_str_off relo) = Some str /\ match str with Some str => access_ok str | None => True end;
  ro_insn : insn_there relo n }.
(** The program whose instruction has the value of the field, [H] being what was found before,
    [H'] what is found now.  A type of the target that may stand for the local one ([eligible])
    has the access, and all that have it have it at the same offset; or none has it, and the
    record asks whether it exists or the object is relaxed. *)
Definition field_done (relaxed : bool) (relo : bpf_field_reloc) (H : history) (p p' : bpf_program) (H' : history) : Prop := exists str lsp ts v ins,
  c_name local (fr_access_str_off relo) = Some (Some str) /\ bpf_core_spec_parse local (fr_type_id relo) str = Some (inr lsp) /\ specifies local (fr_type_id relo) lsp /\
  match ts with
  | Some tsp => (exists tid, eligible local targ H (fr_type_id relo) tid /\ target_spec local targ lsp tid tsp) /\
      (forall tid off fin, eligible local targ H (fr_type_id relo) tid -> corresponds_at local targ lsp tid off fin -> sp_bit_offset tsp = u32 off) /\
      H' = (fr_type_id relo, lsp) :: H
  | None => (forall tid, eligible local targ H (fr_type_id relo) tid -> ~ has local targ lsp tid) /\ (relaxed = true \/ fr_kind relo = BPF_FIELD_EXISTS) /\ H' = H
  end /\ reloc_value relo ts v /\ patched_with relo lsp ts v (p_insns p) ins /\ p' = set_insns p ins.
(** The vector after a search that found: what is left. *)
Lemma eligible_more H k lid lsp tid : eligible local targ ((lid, lsp) :: H) k tid <-> eligible local targ H k tid /\ (k = lid -> has local targ lsp tid).
Proof using.
  split.
  - intros [HN HH]. split; [split; [done|]; intros l Hl; apply HH; apply elem_of_cons; by right|]. intros ->. apply HH. apply elem_of_cons. by left.
  - intros [[HN HH] HI]. split; [done|]. intros l [[= -> ->]|Hl]%elem_of_cons; [by apply HI|by apply HH].
Qed.
Lemma scanned_left H lid lsp v reps tsp : Forall (candidate local targ H lid) v -> all_there local targ H lid v -> scanned local targ lsp v reps tsp ->
  Forall (candidate local targ ((lid, lsp) :: H) lid) reps /\ all_there local targ ((lid, lsp) :: H) lid reps.
Proof using WT.
  intros HF HA (H1 & H2 & _). split.
  - apply list.Forall_forall. intros y Hy. destruct (H1 y Hy) as (x & t & Hx & Hh & E). rewrite list.Forall_forall in HF. destruct (HF x Hx) as [Hi (tid & He & HS)].
    pose proof (stands_on _ _ WT _ _ _ _ HS E) as HS'. split; [destruct (skip_ok targ rt WT x Hi) as (t2 & h2 & E2 & Hp & _); rewrite E in E2; injection E2 as <- <-; apply Hp|].
    exists tid. split; [|done]. apply eligible_more. split; [done|]. intros _. by apply (has_stands local targ rt WT lsp tid x).
  - intros tid [He Hh]%eligible_more. destruct (HA tid He) as (x & Hx & HS). apply (has_stands local targ rt WT lsp tid x HS) in Hh; [|done]. destruct Hh as (off & fin & Hc).
    destruct (H2 x off fin Hx Hc) as [(y & t & Hy & E) _]. exists y. split; [done|]. by eapply stands_on.
Qed.
Lemma scanned_all H lid lsp v reps tsp tid off fin : all_there local targ H lid v -> scanned local targ lsp v reps tsp -> eligible local targ H lid tid -> corresponds_at local targ lsp tid off fin ->
  reps <> [] /\ sp_bit_offset tsp = u32 off.
Proof using WT.
  intros HA (_ & H2 & _) He Hc. destruct (HA tid He) as (x & Hx & HS). apply (corresponds_stands local targ rt WT lsp tid x off fin HS) in Hc. destruct (H2 x off fin Hx Hc) as [(y & t & Hy & _) Eo].
  split; [|done]. intros ->. by apply not_elem_of_nil in Hy.
Qed.
Lemma bound_found H f l lid e lsp reps : bound local targ H f l -> binding f lid = Some e -> Forall (candidate local targ ((lid, lsp) :: H) lid) reps ->
  all_there local targ ((lid, lsp) :: H) lid reps -> bound local targ ((lid, lsp) :: H) f (<[snd e := reps]> l).
Proof using.
  intros (Hv & Hj & Hh) He HF HA. split; [|split; [done|]].
  - intros k e' He'. destruct (decide (k = lid)) as [->|Hne].
    + assert (e' = e) as -> by congruence. destruct (Hv lid e He) as (v & E & _). exists reps. split; [|done]. apply list_lookup_insert_eq. by eapply lookup_lt_Some.
    + destruct (Hv k e' He') as (v & E & HF' & HA'). exists v. rewrite list_lookup_insert_ne by (intros E2; by apply Hne, (Hj k lid e' e)). split; [done|]. split.
      * eapply list.Forall_impl; [exact HF'|]. intros x [Hi (tid & Ht & HS)]. split; [done|]. exists tid. split; [|done]. apply eligible_more. by split.
      * intros tid [Ht _]%eligible_more. by apply HA'.
  - intros k lsp' [[= -> ->]|Hin]%elem_of_cons; [by rewrite He|by eapply Hh].
Qed.
Lemma patched_same p : patched p p.
Proof using. exists (p_insns p). by destruct p. Qed.
Definition field_post (relaxed : bool) (relo : bpf_field_reloc) (H : history) (p : bpf_program) (r : Z * bpf_program * cands) : Prop :=
  freeable undef r.2 /\ patched p r.1.2 /\ (r.1.1 = 0 -> exists H', field_done relaxed relo H p r.1.2 H' /\ cands_ok local targ undef H' r.2).
Lemma wp_reloc_field relaxed p relo H c X s s0 : own s X -> kept X s0 s -> relo_ok relo (lenZ (p_insns p)) -> cands_ok local targ undef H c ->
  wp (bpf_core_reloc_field undef usable relaxed p relo local targ c) (quiet X s0 (field_post relaxed relo H p)) s.
Proof using BO WL WT unique fit.
  intros HO HK [Hid (str & Es & Hacc) Hin] Hc. unfold bpf_core_reloc_field.
  assert (Herr : forall e c s, own s X -> kept X s0 s -> e < 0 -> freeable undef c -> quiet X s0 (field_post relaxed relo H p) (e, p, c) s).
  { intros e c1 s1 ? ? ? ?. split; [done|]. split; [done|]. split; [done|]. split; [apply patched_same|]. cbn [fst snd]. lia. }
  pose proof (cands_freeable _ _ _ _ _ Hc) as Hfr.
  destruct (named_type local rl WL _ Hid) as (t & nm & ln & E1 & E2 & E3 & _). apply wp_bind. eapply wp_deref; [exact E1|]. apply wp_bind. eapply wp_deref; [exact E2|]. apply wp_bind. eapply wp_deref; [exact E3|].
  destruct ln as [|ch ln]; [apply wp_ret; by apply Herr|]. apply wp_bind. eapply wp_deref; [exact Es|]. destruct str as [[|ch' str]|]; try (apply wp_ret; by apply Herr).
  destruct (spec_parse_ok local rl WL (fr_type_id relo) (ch' :: str) Hid Hacc) as (r & Er & HP). apply wp_bind. eapply wp_deref; [exact Er|]. destruct r as [e|lsp]; [apply wp_ret; by apply Herr|].
  destruct Hc as (f & S & Hb). destruct (cache_find undef _ f (fr_type_id relo) S) as (m' & Ef & S'). apply wp_bind. eapply wp_deref; [exact Ef|]. apply wp_bind.
  eapply wp_mono; [by eapply (wp_get_cands H)|]. intros [r c1] s1 (HO1 & K1 & Hc1 & HR). cbn [fst snd] in Hc1, HR. destruct r as [e|v]; [apply wp_ret; by apply Herr|].
  destruct HR as (f1 & en & S1 & Hb1 & Hen & <-). destruct (proj1 Hb1 _ _ Hen) as (vec & Ev & HF & HA). apply wp_bind. eapply wp_deref; [exact Ev|].
  destruct (cand_loop_ok local targ rl rt WL WT unique (fr_type_id relo) lsp HP vec [] [] [] no_spec) as (r & vec' & El & HR).
  { eapply list.Forall_impl; [exact HF|]. by intros x [? _]. } { split; [|split; [|by left]]; intros ? *; by intros ?%not_elem_of_nil. }
  apply wp_bind. eapply wp_deref; [exact El|]. destruct r as [e|[j tsp]]; [apply wp_ret, Herr; try done; by exists f1|]. destruct HR as (reps & gap & -> & -> & HS & Hnil). cbv zeta. cbn [app] in HS, Hnil.
  destruct (_ && negb relaxed && _) eqn:Eno; [apply wp_ret, Herr; try done; by exists f1|].
  assert (HT : reps <> [] -> exists tid, eligible local targ H (fr_type_id relo) tid /\ target_spec local targ lsp tid tsp).
  { intros Hne. destruct HS as (_ & _ & [?|(x & Hx & HT)]); [done|]. rewrite list.Forall_forall in HF. destruct (HF x Hx) as [_ (tid & He & Hst)]. exists tid. split; [done|]. by eapply target_stands. }
  destruct (reloc_insn_ok (p_insns p) relo (fr_type_id relo) lsp (if Nat.eqb (length reps) 0 then None else Some tsp) HP) as (e & ins & Ei & Hlen & HV); [|done|].
  { destruct reps; [done|]. destruct (HT ltac:(done)) as (tid & _ & ? & _). by exists tid. }
  apply wp_bind. eapply wp_deref; [exact Ei|]. apply wp_ret. split; [done|]. split; [done|]. split; [by exists f1|]. cbn [fst snd]. split; [by exists ins|].
  destruct (Z.eqb_spec e 0) as [He|]; cbn [negb]; [|done]. intros _. destruct (HV He) as (w & Hw & Hp). destruct reps as [|y reps].
  - rewrite (Hnil eq_refl). cbn [length Nat.ltb Nat.leb Nat.eqb andb] in *. exists H. split.
    + exists (ch' :: str), lsp, None, w, ins. repeat (split; [done|]). split; [|done]. split; [intros tid Hel (off & fin & Hco); by destruct (scanned_all _ _ _ _ _ _ _ _ _ HA HS Hel Hco)|].
      split; [|done]. destruct relaxed; [by left|]. right. by apply negb_false_iff, Z.eqb_eq in Eno.
    + exists f1. split; [done|]. cbn [vecs]. by rewrite list_insert_id.
  - exists ((fr_type_id relo, lsp) :: H). split.
    + exists (ch' :: str), lsp, (Some tsp), w, ins. repeat (split; [done|]). split; [|done]. split; [by apply HT|]. split; [|done].
      intros tid off fin Hel Hco. by destruct (scanned_all _ _ _ _ _ _ _ _ _ HA HS Hel Hco).
    + exists f1. split; [done|]. cbn [vecs]. rewrite (proj2 (Nat.ltb_lt 0 _)) by (cbn [length]; lia). rewrite take_app_length.
      destruct (scanned_left _ _ _ _ _ _ HF HA HS). by apply bound_found.
Qed.
(** ** Records and sections *)

(** The records one after the other. *)
Inductive records_done (relaxed : bool) : list bpf_field_reloc -> history -> bpf_program -> bpf_program -> history -> Prop :=
  | done_nil H p : records_done relaxed [] H p p H
  | done_cons relo l H H' H'' p p' p'' : field_done relaxed relo H p p' H' -> records_done relaxed l H' p' p'' H'' -> records_done relaxed (relo :: l) H p p'' H''.
Lemma patched_trans p p' p'' : patched p p' -> patched p' p'' -> patched p p''.
Proof using. intros (ins & -> & Hl) (ins' & -> & Hl'). exists ins'. split; [done|]. cbn [set_insns p_insns] in Hl'. by rewrite Hl'. Qed.
Lemma patched_len p p' : patched p p' -> lenZ (p_insns p') = lenZ (p_insns p).
Proof using. intros (ins & -> & Hl). cbn [set_insns p_insns]. by rewrite Hl. Qed.
Lemma word_of_part buf pos r rest k w : 0 <= pos -> drop (Z.to_nat pos) buf = r ++ rest -> pos <= lenZ buf -> 0 <= k -> word_of r k = Some w -> word_of buf (pos + k) = Some w.
Proof using.
  intros Hp E Hl Hk Hw. rewrite <- (take_drop (Z.to_nat pos) buf), E. replace pos with (lenZ (take (Z.to_nat pos) buf)) at 2 by (rewrite length_take; lia).
  unfold word_of in *. rewrite <- Z.add_assoc, !half_of_skip by lia. destruct (half_of r k) as [x|] eqn:Ex; [|done]. destruct (half_of r (k + 2)) as [y|] eqn:Ey; [|done].
  by rewrite (half_of_prefix _ _ _ _ Ex), (half_of_prefix _ _ _ _ Ey).
Qed.
Lemma read_reloc_part buf pos r rest relo : 0 <= pos -> drop (Z.to_nat pos) buf = r ++ rest -> pos <= lenZ buf -> read_reloc r 0 = Some relo -> read_reloc buf pos = Some relo.
Proof using.
  intros Hp E Hl. unfold read_reloc. intros Hr.
  destruct (word_of r 0) as [w0|] eqn:E0; [|done]. destruct (word_of r (0 + 4)) as [w1|] eqn:E1; [|done]. destruct (word_of r (0 + 8)) as [w2|] eqn:E2; [|done]. destruct (word_of r (0 + 12)) as [w3|] eqn:E3; [|done].
  pose proof (fun k w => word_of_part buf pos r rest k w Hp E Hl) as HW. rewrite <- (Z.add_0_r pos) at 1. rewrite (HW 0 w0 ltac:(lia) E0), (HW 4 w1 ltac:(lia) E1), (HW 8 w2 ltac:(lia) E2), (HW 12 w3 ltac:(lia) E3). exact Hr.
Qed.
Definition records_post (relaxed : bool) (relos : list bpf_field_reloc) (H : history) (p : bpf_program) (r : Z * bpf_program * cands) : Prop :=
  freeable undef r.2 /\ patched p r.1.2 /\ (r.1.1 = 0 -> exists H', records_done relaxed relos H p r.1.2 H' /\ cands_ok local targ undef H' r.2).
Lemma wp_reloc_records relaxed data rec_size X s0 : 0 <= rec_size -> forall recs relos, Forall2 (fun r relo => read_reloc r 0 = Some relo) recs relos -> forall rec H p c s,
  own s X -> kept X s0 s -> 0 <= rec -> rec + lenZ recs * rec_size <= lenZ data -> Forall (fun r => lenZ r = rec_size) recs ->
  take (Z.to_nat (lenZ recs * rec_size)) (drop (Z.to_nat rec) data) = concat recs -> Forall (fun relo => relo_ok relo (lenZ (p_insns p))) relos -> cands_ok local targ undef H c ->
  wp (reloc_records undef usable relaxed local targ data rec_size (length recs) rec p c) (quiet X s0 (records_post relaxed relos H p)) s.
Proof using BO WL WT unique fit.
  intros Hrs. induction 1 as [|r relo recs relos Hr _ IH]; intros rec H p c s HO HK H0 Hend HF Hcat Hok Hc.
  { cbn [length reloc_records]. apply wp_ret. split; [done|]. split; [done|]. split; [by eapply cands_freeable|]. split; [apply patched_same|]. intros _. exists H. split; [constructor|done]. }
  apply Forall_cons_1 in HF as [Hlr HF]. apply Forall_cons_1 in Hok as [Ho Hok]. cbn [length concat] in *. cbn [reloc_records].
  assert (Hdrop : drop (Z.to_nat rec) data = r ++ (concat recs ++ drop (Z.to_nat (lenZ (r :: recs) * rec_size)) (drop (Z.to_nat rec) data))).
  { rewrite (assoc_L (++)), <- Hcat. by rewrite take_drop. }
  apply wp_bind. eapply wp_deref; [eapply read_reloc_part; [exact H0|exact Hdrop|nia|exact Hr]|]. apply wp_bind. eapply wp_mono; [by apply (wp_reloc_field relaxed p relo H c X s s0)|].
  intros [[e p1] c1] s1 (HO1 & K1 & Hc1 & Hp1 & Hd1). cbn [fst snd] in *. destruct (Z.eqb_spec e 0) as [->|Hne]; cbn [negb].
  - destruct (Hd1 eq_refl) as (H1 & HD1 & Hok1). eapply wp_mono; [apply (IH (rec + rec_size) H1 p1 c1 s1); try done; [lia|lia| |]|].
    + replace (Z.to_nat (rec + rec_size)) with (Z.to_nat rec + Z.to_nat rec_size)%nat by lia. rewrite <- drop_drop, Hdrop. rewrite (drop_app_length' r) by lia. apply take_app_length'.
      pose proof (concat_records_len rec_size recs HF). lia.
    + by rewrite (patched_len _ _ Hp1).
    + intros [[e2 p2] c2] s2 (HO2 & K2 & Hc2 & Hp2 & Hd2). split; [done|]. split; [done|]. split; [done|]. cbn [fst snd] in *. split; [by eapply patched_trans|]. intros E0. destruct (Hd2 E0) as (H2 & HD2 & Hok2). exists H2. split; [by econstructor|done].
  - apply wp_ret. split; [done|]. split; [done|]. by split.
Qed.
(** A search by title ends, at a program of the title. *)
Lemma find_title o title : exists r, bpf_object__find_program_by_title o title = Some r /\
  match r with Some i => exists p, o_programs o !! Z.to_nat i = Some p /\ p_section_name p = title | None => True end.
Proof using.
  unfold bpf_object__find_program_by_title. rewrite for_each_program_visits. cbn [mbind option_bind].
  destruct (find_loop_first (fun i => o_programs o !! Z.to_nat i) (fun p => bool_decide (p_section_name p = title)) (Z.of_nat <$> handles o 0)) as (r & E & Hr).
  { intros i Hi. apply handles_range in Hi. destruct (lookup_lt_is_Some_2 (o_programs o) (Z.to_nat i)) as [p ->]; [lia|done]. }
  exists r. split; [done|]. destruct r as [i|]; [|done]. destruct Hr as (_ & _ & p & _ & Ep & Et & _). exists p. split; [done|]. by apply bool_decide_eq_true in Et.
Qed.
(** What a section is to name: records that are sound for every program of its title. *)
Definition sec_ready (l : list bpf_program) (sc : BtfExt.sec) : Prop := exists n relos, c_name local (sec_off sc) = Some n /\
  Forall2 (fun r relo => read_reloc r 0 = Some relo) (sec_recs sc) relos /\
  forall p, p ∈ l -> n = Some (p_section_name p) -> Forall (fun relo => relo_ok relo (lenZ (p_insns p))) relos.
Inductive sections_done (relaxed : bool) (o : bpf_object) : history -> list BtfExt.sec -> list bpf_program -> list bpf_program -> Prop :=
  | sdone_nil H l : sections_done relaxed o H [] l l
  | sdone_cons H H' sc ss l l' n i p p' relos : c_name local (sec_off sc) = Some (Some n) -> bpf_object__find_program_by_title (with_programs o l) n = Some (Some i) ->
      l !! Z.to_nat i = Some p -> Forall2 (fun r relo => read_reloc r 0 = Some relo) (sec_recs sc) relos -> records_done relaxed relos H p p' H' ->
      sections_done relaxed o H' ss (<[Z.to_nat i := p']> l) l' -> sections_done relaxed o H (sc :: ss) l l'.
Lemma patched_insert l i p p' : l !! i = Some p -> patched p p' -> Forall2 patched l (<[i := p']> l).
Proof using.
  intros Hp Hpp. apply Forall2_lookup. intros j. destruct (decide (i = j)) as [<-|Hj].
  - rewrite Hp, list_lookup_insert_eq by (by eapply lookup_lt_Some). by constructor.
  - rewrite list_lookup_insert_ne by done. apply Forall2_lookup, patched_refl.
Qed.
Lemma patched_all_trans l l' l'' : Forall2 patched l l' -> Forall2 patched l' l'' -> Forall2 patched l l''.
Proof using. intros H. revert l''. induction H as [|p p' l l' Hp _ IH]; intros l'' H2; inversion H2; subst; constructor; [by eapply patched_trans|by apply IH]. Qed.
Lemma sec_ready_patched l l' sc : Forall2 patched l l' -> sec_ready l sc -> sec_ready l' sc.
Proof using.
  intros HP (n & relos & En & HF & HR). exists n, relos. split; [done|]. split; [done|]. intros p' (j & Hj)%list_elem_of_lookup Hn. destruct (Forall2_lookup_r _ _ _ _ _ HP Hj) as (p & Hpj & Hpp).
  rewrite (patched_len _ _ Hpp). apply HR; [by eapply list_elem_of_lookup_2|]. destruct Hpp as (ins & -> & _). done.
Qed.
Definition sections_post (relaxed : bool) (o : bpf_object) (H : history) (ss : list BtfExt.sec) (l : list bpf_program) (r : Z * bpf_object * cands) : Prop :=
  freeable undef r.2 /\ exists l', r.1.2 = with_programs o l' /\ Forall2 patched l l' /\ (r.1.1 = 0 -> sections_done relaxed o H ss l l').
Lemma wp_reloc_sections relaxed data rec_size o X s0 : 0 <= rec_size -> forall ss sec left fuel H l c s, own s X -> kept X s0 s -> sections data rec_size sec left ss ->
  0 <= sec -> sec + left <= lenZ data -> is_u32 left -> left <= Z.of_nat fuel -> Forall (sec_ready l) ss -> cands_ok local targ undef H c ->
  wp (reloc_sections undef usable relaxed fuel local targ data rec_size sec (sec + left) (with_programs o l) c) (quiet X s0 (sections_post relaxed o H ss l)) s.
Proof using BO WL WT unique fit.
  intros Hrs. induction ss as [|sc ss IH]; intros sec left fuel H l c s HO HK Hs H0 Hend Hu Hf Hok Hc; inversion Hs as [|? left' ? ? W1 W2 Hnn HF Hcat Hs' E1 E2]; subst.
  { destruct fuel; cbn [reloc_sections]; rewrite (proj2 (Z.ltb_ge sec _)) by lia; cbn [negb]; apply wp_ret; (split; [done|]; split; [done|]; split; [by eapply cands_freeable|]; exists l; split; [done|]; split; [apply patched_refl|]; intros _; constructor). }
  pose proof (sections_left data rec_size Hrs _ _ _ Hs') as Hl'. pose proof (sec_len_pos rec_size Hrs sc) as Hsl. unfold sec_len, sec_hdrlen in *. int_unfold.
  destruct fuel as [|fuel]; [lia|]. cbn [reloc_sections]. rewrite (proj2 (Z.ltb_lt _ _)) by lia. cbn [negb]. apply Forall_cons_1 in Hok as [Hsc Hok]. pose proof Hsc as (n & relos & En & HR & Hro).
  assert (Herr : forall e c s1, own s1 X -> kept X s0 s1 -> e < 0 -> freeable undef c -> quiet X s0 (sections_post relaxed o H (sc :: ss) l) (e, with_programs o l, c) s1).
  { intros e c1 s1 ? ? ? ?. split; [done|]. split; [done|]. split; [done|]. exists l. split; [done|]. split; [apply patched_refl|]. cbn [fst]. lia. }
  pose proof (cands_freeable _ _ _ _ _ Hc) as Hfr. apply wp_bind. eapply wp_deref; [exact W1|]. apply wp_bind. eapply wp_deref; [exact En|]. destruct n as [[|ch n]|]; try (apply wp_ret; by apply Herr).
  destruct (find_title (with_programs o l) (ch :: n)) as (r & Er & Hr). apply wp_bind. eapply wp_deref; [exact Er|]. destruct r as [i|]; [|apply wp_ret; by apply Herr].
  destruct Hr as (p & Ep & Hn). apply wp_bind. eapply wp_deref; [exact W2|]. apply wp_bind. eapply wp_deref; [exact Ep|]. cbn [with_programs o_programs] in Ep. apply wp_bind. rewrite Nat2Z.id.
  eapply wp_mono; [apply (wp_reloc_records relaxed data rec_size X s0 Hrs (sec_recs sc) relos HR (sec + sec_hdrlen) H); try done; [unfold sec_hdrlen; lia|unfold sec_hdrlen; lia|]|].
  { apply Hro; [by eapply list_elem_of_lookup_2|by rewrite Hn]. }
  intros [[e p1] c1] s1 (HO1 & K1 & Hc1 & Hp1 & Hd1). cbn [fst snd] in *. cbv zeta. pose proof (patched_insert _ _ _ _ Ep Hp1) as HP1.
  destruct (Z.eqb_spec e 0) as [->|Hne]; cbn [negb].
  - destruct (Hd1 eq_refl) as (H1 & HD1 & Hok1). change (with_programs (with_programs o l) ?l1) with (with_programs o l1). cbn [with_programs o_programs].
    unfold sec_hdrlen. rewrite u32_small by (int_unfold; lia).
    replace (sec + 8 + rec_size * lenZ (sec_recs sc)) with (sec + (8 + lenZ (sec_recs sc) * rec_size)) by lia.
    replace (sec + (8 + lenZ (sec_recs sc) * rec_size + left')) with (sec + (8 + lenZ (sec_recs sc) * rec_size) + left') by lia.
    eapply wp_mono; [eapply (IH (sec + (8 + lenZ (sec_recs sc) * rec_size)) left' fuel H1 (<[Z.to_nat i := p1]> l) c1 s1) |].
    all: try done; try (int_unfold; lia).
    + eapply list.Forall_impl; [exact Hok|]. intros sc'. by apply sec_ready_patched.
    + intros [[e2 o2] c2] s2 (HO2 & K2 & Hc2 & l2 & Eo & HP2 & Hd2). cbn [fst snd] in *. subst o2. split; [done|]. split; [done|]. split; [done|]. exists l2. split; [done|]. split; [by eapply patched_all_trans|].
      intros E0. econstructor; [exact En|exact Er|exact Ep|exact HR|exact HD1|by apply Hd2].
  - apply wp_ret. split; [done|]. split; [done|]. split; [done|]. exists (<[Z.to_nat i := p1]> l). split; [done|]. split; [done|]. done.
Qed.
End FieldRules.

(** ** The type information of the kernel *)

Section TargetRules.
Context {BK : BpfKernel} {BO : BpfKernelOk BK} {LE : Libelf BK} {OS : Os} (usable : Z -> Z) (k_stat : pk -> path -> Z + Z) (release : path).
Abbreviation B := (M (bsys BK)).
(** Type information of a kernel: well formed, a name at most once in a structure, and no more
    types of one essential name than the blocks hold. *)
Definition good_btf (b : btf) : Prop := (exists rank, btf_wf b rank) /\ unique_fields b /\ cands_fit usable b.
(** Bytes that are refused, or type information of a kernel. *)
Definition sound_image (data : list Z) : Prop := forall s, exists r s', btf__new data s = Some (r, s') /\ match r with inl e => e < 0 | inr b => good_btf b end.
(** The bytes that [sys_fread] gets. *)
Fixpoint file_bytes (fuel : nat) (k : pk) (f n : Z) : list Z :=
  match fuel with
  | O => []
  | S fuel => if n <=? 0 then [] else let '((r, bytes), k') := k_read k f n in if r <=? 0 then [] else bytes ++ file_bytes fuel k' f (n - r)
  end.
(** What is relied on of the files with the type information. *)
Record targets_ok : Prop := {
  to_elf k fd e ehdr i sh d : elf_begin k fd = Some e -> gelf_getehdr e = Some ehdr -> gelf_getshdr e i = Some sh ->
    elf_strptr e (e_shstrndx ehdr) (sh_name sh) = Some (str ".BTF") -> elf_getdata e i = Some d ->
    exists data, (if d_size d =? 0 then Some [] else d_buf d) = Some data /\ sound_image data;
  to_raw k0 size k F fd k' : k_stat k0 (str "/sys/kernel/btf/vmlinux") = inr size -> k_open k F (str "/sys/kernel/btf/vmlinux") = (fd, k') -> 0 <= fd ->
    size <= lenZ (file_bytes (Z.to_nat size) k' fd size) -> sound_image (file_bytes (Z.to_nat size) k' fd size) }.
Context (TO : targets_ok).
Definition image_post {A} (b : A -> btf) (r : Z + A) : Prop := match r with inl e => e < 0 | inr a => good_btf (b a) end.
Lemma wp_sound data X Y s0 s : sound_image data -> own s Y -> kept X s0 s ->
  wp (untracked (btf__new data)) (fun r s' => own s' Y /\ kept X s0 s' /\ image_post id r) s.
Proof using.
  intros Hd HO HK. unfold wp, untracked. destruct (Hd (b_sys s)) as (r & s' & -> & HR). split; [done|]. by split.
Qed.
Lemma btf_sections_found e shstrndx : forall n idx d d' x', btf_sections e shstrndx false n idx d None = Some (d', x') -> x' = None /\
  match d' with
  | Some dd => d = Some dd \/ exists i sh, gelf_getshdr e i = Some sh /\ elf_strptr e shstrndx (sh_name sh) = Some (str ".BTF") /\ elf_getdata e i = Some dd
  | None => True
  end.
Proof using.
  induction n as [|n IH]; intros idx d d' x'; cbn [btf_sections]; [intros [= <- <-]; split; [done|]; destruct d; [by left|done]|].
  destruct (gelf_getshdr e idx) as [sh|] eqn:Eh; [|done]. cbn [mbind option_bind]. destruct (elf_strptr e shstrndx (sh_name sh)) as [nm|] eqn:En; [|done]. cbn [mbind option_bind andb].
  case_bool_decide as Hn; [|apply IH]. destruct (elf_getdata e idx) as [dd|] eqn:Ed; [|done]. cbn [mbind option_bind]. intros E. destruct (IH _ _ _ _ E) as [-> HD]. split; [done|].
  destruct d' as [dd'|]; [|done]. destruct HD as [[= <-]|?]; [|by right]. right. exists idx, sh. by rewrite En, Hn.
Qed.
Lemma wp_parse_elf p X s s0 : own s X -> kept X s0 s -> wp (btf__parse_elf p false) (quiet X s0 (image_post fst)) s.
Proof using BO TO.
  intros HO HK. unfold btf__parse_elf. destruct elf_version_ok; cbn [negb]; [|by apply wp_ret]. apply wp_bind. eapply own_open; [exact HO| |].
  2: { intros s1 HO1 He K1. cbn [Z.ltb Z.compare]. apply wp_bind. apply wp_gets, wp_ret. split; [done|]. split; [by eapply kept_trans|]. cbn [image_post]. lia. }
  intros fd s1 HO1 K1. pose proof (own_pos _ _ fd HO1 ltac:(by left)). rewrite (proj2 (Z.ltb_ge fd 0)) by lia. apply wp_bind, wp_gets. cbv zeta. apply wp_bind.
  eapply (wp_mono _ (fun r s' => own s' (fd :: X) /\ kept X s0 s' /\ image_post fst r)).
  - assert (K01 : kept X s0 s1) by by eapply kept_trans.
    destruct (elf_begin (b_k s1) fd) as [e|] eqn:Ee; cbn [mbind option_bind]; [|by apply wp_ret]. destruct (gelf_getehdr e) as [ehdr|] eqn:Eh; cbn [mbind option_bind]; [|by apply wp_ret].
    destruct (negb _); [by apply wp_ret|]. destruct (elf_rawdata e _) as [raw|]; cbn [mbind option_bind]; [|by apply wp_ret].
    destruct (btf_sections e (e_shstrndx ehdr) false (elf_scns e) 1 None None) as [[d x]|] eqn:Es; [|by apply wp_ret]. destruct (btf_sections_found _ _ _ _ _ _ _ Es) as [-> HD].
    destruct d as [d|]; [|by apply wp_ret]. destruct HD as [?|(i & sh & E1 & E2 & E3)]; [done|]. destruct (to_elf TO _ _ _ _ _ _ _ Ee Eh E1 E2 E3) as (data & Ed & Hd).
    apply wp_bind. unfold contents. replace (if d_size d =? 0 then ret [] else deref (d_buf d)) with (deref (S := bsys BK) (Some data)).
    2: { destruct (d_size d =? 0); [by injection Ed as <-|by rewrite Ed]. }
    eapply wp_deref; [done|]. apply wp_bind. eapply wp_mono; [by eapply (wp_sound data X (fd :: X) s0 s1)|]. intros r s2 (HO2 & K2 & HR). destruct r as [err|b]; by apply wp_ret.
  - intros r s2 (HO2 & K2 & HR). apply wp_bind. eapply own_close; [exact HO2|]. intros c s3 _ HO3 K3 _. apply wp_ret. split; [done|]. split; [by eapply kept_trans|done].
Qed.
Lemma own_open_as p s X (Q : Z -> bsys BK -> Prop) : own s X ->
  (forall fd s', k_open (b_k s) (fds (b_sys s)) p = (fd, b_k s') -> own s' (fd :: X) -> kept X s s' -> Q fd s') -> (forall s', own s' X -> kept X s s' -> Q (-1) s') -> wp (sys_open_path p) Q s.
Proof using BO.
  intros HO H1 H2. pose proof (own_open p s X (fun fd s' => own s' (fd :: X) /\ kept X s s' \/ fd = -1 /\ own s' X /\ kept X s s') HO ltac:(by left) ltac:(by right)) as HW.
  unfold wp, sys_open_path in *. destruct (k_open (b_k s) (fds (b_sys s)) p) as [fd k] eqn:E. unfold finish in *. destruct (Z.ltb_spec fd 0).
  - destruct HW as [[HO' _]|(_ & HO' & HK')]; [|by apply H2]. pose proof (own_pos _ _ (-1) HO' ltac:(by left)). lia.
  - destruct HW as [[HO' HK']|(? & _)]; [by apply H1|lia].
Qed.
Lemma wp_fread f X Y s0 : forall fuel n s, own s Y -> kept X s0 s -> wp (sys_fread fuel f n) (fun bytes s' => bytes = file_bytes fuel (b_k s) f n /\ own s' Y /\ kept X s0 s') s.
Proof using BO.
  induction fuel as [|fuel IH]; intros n s HO HK; cbn [sys_fread file_bytes]; [by apply wp_ret|]. destruct (n <=? 0); [by apply wp_ret|]. apply wp_bind.
  unfold wp at 1, sys_read. destruct (k_read (b_k s) f n) as [[r bytes] k'] eqn:E. destruct (read_bytes _ _ _ _ _ _ E) as [_ Hf].
  assert (K1 : forall s', b_k s' = k' -> kept X s0 s') by (intros s' E'; eapply kept_trans; [exact HK|]; unfold kept; rewrite E'; by eapply frame_mono).
  unfold finish. destruct (Z.ltb_spec r 0); cbn [Z.leb Z.compare].
  - rewrite (proj2 (Z.leb_le r 0)) by lia. apply wp_ret. split; [done|]. split; [exact HO|by apply K1].
  - destruct (r <=? 0); [apply wp_ret; split; [done|]; split; [exact HO|by apply K1]|]. apply wp_bind. eapply wp_mono; [apply IH; [exact HO|by apply K1]|].
    intros rest s' (-> & HO' & K'). by apply wp_ret.
Qed.
Lemma wp_load_raw X s s0 : own s X -> kept X s0 s ->
  wp (btf_load_raw k_stat (str "/sys/kernel/btf/vmlinux")) (quiet X s0 (fun r => match r with inl _ => True | inr b => good_btf b end)) s.
Proof using BO TO.
  intros HO HK. unfold btf_load_raw. apply wp_bind, wp_gets. destruct (k_stat (b_k s) _) as [e|size] eqn:Est; [by apply wp_ret|].
  apply wp_bind. eapply wp_quiet_malloc; [exact HO|exact HK|]. intros ok s1 HO1 K1. destruct ok; cbn [negb]; [|by apply wp_ret]. apply wp_bind. eapply own_open_as; [exact HO1| |].
  2: { intros s2 HO2 K2. cbn [Z.ltb Z.compare]. apply wp_bind. apply wp_gets, wp_ret. split; [done|]. split; [by eapply kept_trans|done]. }
  intros fd s2 Eo HO2 K2. pose proof (own_pos _ _ fd HO2 ltac:(by left)) as Hfd. rewrite (proj2 (Z.ltb_ge fd 0)) by lia. apply wp_bind.
  assert (Hend : forall data s3, own s3 (fd :: X) -> kept X s0 s3 -> (size <= lenZ data -> sound_image data) ->
    wp (bind (sys_close fd) (fun _ => if lenZ data <? size then ret (inl (- EBADF)) else untracked (btf__new data))) (quiet X s0 (fun r => match r with inl _ => True | inr b => good_btf b end)) s3).
  { intros data s3 HO3 K3 Hd. apply wp_bind. eapply own_close; [exact HO3|]. intros c s4 _ HO4 K4 _. assert (kept X s0 s4) by by eapply kept_trans. destruct (Z.ltb_spec (lenZ data) size); [by apply wp_ret|].
    eapply wp_mono; [eapply (wp_sound data X X s0 s4); auto|]. intros r s5 (HO5 & K5 & HR). split; [done|]. split; [done|]. by destruct r. }
  assert (K02 : kept X s0 s2) by by eapply kept_trans.
  eapply wp_mono; [by apply (wp_fread fd X (fd :: X) s0 (Z.to_nat size) size s2)|]. intros data s3 (-> & HO3 & K3). apply Hend; [done|done|]. intros Hle. by eapply (to_raw TO).
Qed.
Lemma wp_try_locations X s0 : forall l s, own s X -> kept X s0 s -> Forall (fun x => x.2 = true -> take (PATH_MAX - 1) x.1 = str "/sys/kernel/btf/vmlinux") l ->
  wp (try_locations k_stat l) (quiet X s0 (image_post id)) s.
Proof using BO TO.
  induction l as [|[p raw] l IH]; intros s HO HK HF; cbn [try_locations]; [by apply wp_ret|]. apply Forall_cons_1 in HF as [Hp HF]. cbn [fst snd] in Hp. cbv zeta.
  apply wp_bind, wp_gets. destruct (k_access (b_k s) _); cbn [negb]; [|by apply IH]. apply wp_bind.
  eapply (wp_mono _ (quiet X s0 (fun r => match r with inl _ => True | inr b => good_btf b end))).
  - destruct raw; [rewrite Hp by done; by apply wp_load_raw|]. apply wp_bind. eapply wp_mono; [by apply (wp_parse_elf (take (PATH_MAX - 1) p) X s s0)|]. intros r s1 (HO1 & K1 & HR). apply wp_ret.
    split; [done|]. split; [done|]. by destruct r as [e|[b x]].
  - intros r s1 (HO1 & K1 & HR). destruct r as [e|b]; [by apply IH|by apply wp_ret].
Qed.
Lemma wp_find_kernel_btf X s s0 : own s X -> kept X s0 s -> wp (bpf_core_find_kernel_btf k_stat release) (quiet X s0 (image_post id)) s.
Proof using BO TO.
  intros HO HK. apply wp_try_locations; [done|done|]. unfold locations. repeat (apply List.Forall_cons; [done|]). apply List.Forall_nil.
Qed.

(** ** The object *)

Lemma cache_freed undef (m : hashmap Z nat) f : sim undef m f -> (exists l, for_each_entry m = Some l) /\ hashmap__free (Some m) = Some tt.
Proof using. intros [W _]. split; [eexists; by eapply wf_for_each|]. by destruct W. Qed.
(** An object whose type information is well formed, with the sections [ss] of field records. *)
Definition core_ready (o : bpf_object) (local : btf) (ss : list BtfExt.sec) : Prop := exists x fd rank, o_btf_ext o = Some x /\ o_btf o = Some (local, fd) /\ btf_wf local rank /\
  holds (ex_data x) sizeof_bpf_field_reloc (ex_field x) ss /\ Forall (sec_ready local (o_programs o)) ss.
Definition core_post (relaxed : bool) (o : bpf_object) (local : btf) (ss : list BtfExt.sec) (r : Z * bpf_object) : Prop := exists l', r.2 = with_programs o l' /\ Forall2 patched (o_programs o) l' /\
  (r.1 = 0 -> exists targ, good_btf targ /\ sections_done local targ relaxed o [] ss (o_programs o) l').
Lemma core_failed relaxed o local ss e X s0 s : own s X -> kept X s0 s -> e < 0 -> quiet X s0 (core_post relaxed o local ss) (e, o) s.
Proof using. intros HO HK He. split; [done|]. split; [done|]. exists (o_programs o). split; [by destruct o|]. split; [apply patched_refl|]. cbn [fst]. lia. Qed.
Lemma wp_core_sections undef relaxed o local x rank targ ss m X s s0 : own s X -> kept X s0 s -> btf_wf local rank -> good_btf targ -> sim undef m (Fmap (fun _ => None) 0) ->
  holds (ex_data x) sizeof_bpf_field_reloc (ex_field x) ss -> Forall (sec_ready local (o_programs o)) ss ->
  wp (reloc_sections undef usable relaxed (Z.to_nat (ei_len (ex_field x))) local targ (ex_data x) (ei_rec_size (ex_field x)) (ei_info (ex_field x)) (ei_info (ex_field x) + ei_len (ex_field x)) o (Cands m []))
     (quiet X s0 (fun r => sections_post undef local targ relaxed o [] ss (o_programs o) r)) s.
Proof using BO.
  intros HO HK WL [[rt WT] [Hun Hfit]] S Hh Hr. assert (Hc : cands_ok local targ undef [] (Cands m [])).
  { exists (Fmap (fun _ => None) 0). split; [done|]. split; [done|]. split; [done|]. by intros k lsp ?%not_elem_of_nil. } destruct Hh as [[-> ->]|(Hne & Hmin & Hu & H0 & Hul & Hend & Hs)].
  - cbn. apply wp_ret. split; [done|]. split; [done|]. split; [by eapply cands_freeable|]. exists (o_programs o). split; [by destruct o|]. split; [apply patched_refl|]. intros _. constructor.
  - replace o with (with_programs o (o_programs o)) at 1 by by destruct o. unfold sizeof_bpf_field_reloc in Hmin. int_unfold.
    apply (wp_reloc_sections undef usable local targ rank rt WL WT Hun Hfit relaxed (ex_data x) (ei_rec_size (ex_field x)) o X s0); try done; lia.
Qed.
Lemma wp_core_fields undef relaxed o local ss t s X : core_ready o local ss -> own s X ->
  wp (bpf_core_reloc_fields undef usable k_stat release relaxed o t) (quiet X s (core_post relaxed o local ss)) s.
Proof using BO TO.
  intros (x & fd & rank & Ex & Eb & WL & Hh & Hr) HO. unfold bpf_core_reloc_fields. apply wp_bind. eapply (wp_mono _ (quiet X s (image_post id))).
  { destruct t as [p|]; [|apply wp_find_kernel_btf; [done|apply kept_refl]]. apply wp_bind. eapply wp_mono; [apply (wp_parse_elf p X s s HO), kept_refl|].
    intros r s1 (HO1 & K1 & HR). apply wp_ret. split; [done|]. split; [done|]. by destruct r as [e|[b y]]. }
  intros [e|targ] s1 (HO1 & K1 & HR); [apply wp_ret; by apply core_failed|]. cbn [image_post id] in HR.
  apply wp_bind. eapply wp_quiet_malloc; [exact HO1|exact K1|]. intros ok s2 HO2 K2. destruct ok; cbn [hashmap__new]; [|apply wp_ret; by apply core_failed].
  apply wp_bind. eapply wp_deref; [exact Ex|]. apply wp_bind. eapply wp_deref; [exact Eb|]. cbv zeta. apply wp_bind.
  assert (S0 : sim undef (hashmap__init (K := Z) (V := nat)) (Fmap (fun _ => None) 0)) by apply init_sim. eapply wp_mono; [by eapply (wp_core_sections undef relaxed o local x rank targ ss hashmap__init X s2 s)|].
  intros [[e o'] c] s3 (HO3 & K3 & (f & S) & l' & Eo & HP & Hd). cbn [fst snd] in *. destruct (cache_freed undef _ f S) as [[l El] Ef].
  apply wp_bind. eapply wp_deref; [exact El|]. apply wp_bind. eapply wp_deref; [exact Ef|]. apply wp_ret. split; [done|]. split; [done|]. exists l'. split; [done|]. split; [done|].
  intros He. exists targ. auto.
Qed.
(** So an object that is loaded with this relocation is as ObjLoad.v asks. *)
Lemma core_fits_ready undef relaxed o local ss : core_ready o local ss -> core_fits (bpf_core_reloc_fields undef usable k_stat release relaxed) o.
Proof using BO TO.
  intros Hc ms _ t s X HO. eapply wp_mono; [by apply (wp_core_fields undef relaxed _ local ss t s X)|]. intros [e o1] s1 (HO1 & HK & l1 & E1 & HP & _). cbn [snd] in E1. split; [done|]. split; [done|]. by exists l1.
Qed.
End TargetRules.

(** ** The theorem *)


(** The types of CoreSpec.v, those of the kernel in a file; a program that reads the field b. *)
#[local] Existing Instance demo_os.
Definition core_file : efi := Efi (Ehdr 0 0 1 ELFDATA2LSB)
  [scn 0 0 0 0 0 [] 0; scn 0 3 0 0 0 (0 :: str ".BTF" ++ [0]) 0; scn 1 SHT_PROGBITS 0 0 0 (bt_data demo_targ) 0].
Abbreviation core_elf := (bytes_elf table_kernel core_file).
Definition core_recs : list Z := word_bytes 0 ++ word_bytes 2 ++ word_bytes 13 ++ word_bytes BPF_FIELD_BYTE_OFFSET.
Definition core_ext : btf_ext := Btf_ext (word_bytes 5 ++ word_bytes 1 ++ core_recs) no_ext_info no_ext_info (Btf_ext_info 0 16 24) 0 None.
Definition core_prog : bpf_program := Bpf_program 3 [115] 0 [115] [115] [BPF_MOV64_IMM 1 4; BPF_EXIT_INSN] 0 BPF_PROG_TYPE_XDP (Some []) 0 [] None 0 0 None 0 0 None 0 0 0.
Definition core_obj : bpf_object := with_btf (with_programs (new_object [111] 0) [core_prog]) (Some (demo_local, -1)) (Some core_ext).
(** What holds of types holds wherever the structure is. *)
Section Blocks.
Context (d : list Z) (ty : list (option Z)) (st n sz x x' : Z) (y z y' z' : option Z).
Abbreviation b1 := (Btf d ty st n sz x y z).
Abbreviation b2 := (Btf d ty st n sz x' y' z').
Lemma blocks_wf rank : btf_wf b1 rank -> btf_wf b2 rank.
Proof using.
  intros [H1 H2 H3 H4 H5 H6]. split; [exact H1|exact H2| |exact H4|exact H5|exact H6].
  intros id t Hi Ht. destruct (H3 id t Hi Ht) as [Hr [T1 T2 T3 T4]]. split; [exact Hr|]. split; [exact T1|exact T2|exact T3|exact T4].
Qed.
Lemma blocks_field name id js o h i t : field_in b2 name id js o h i t -> field_in b1 name id js o h i t.
Proof using. induction 1 as [? ? ? ? ? H|? ? ? ? ? ? ? ? ? ? H _ IH]; [by apply field_here|by eapply field_below]. Qed.
Lemma blocks_good usable : good_btf usable b1 -> good_btf usable b2.
Proof using.
  intros [[rank W] [U F0]]. split; [exists rank; by apply blocks_wf|]. split; [|exact F0]. intros name id js o h i t js' o' h' i' t' Hn F F'. eapply U; [exact Hn|by apply blocks_field|by apply blocks_field].
Qed.
End Blocks.
(** The blocks of the GNU C library: a multiple of 16 bytes, 8 of which are its own, 24 at least. *)
Definition glibc_usable (n : Z) : Z := Z.max 24 ((n + 23) / 16 * 16 - 8).
Lemma core_image_fits : cands_fit glibc_usable demo_targ.
Proof.
  intros e l _ HD HF. assert (Hl : lenZ l <= 3).
  { assert (Hs : l ⊆+ [1; 2; 3]); [|apply submseteq_length in Hs; cbn [length] in Hs; lia]. apply NoDup_submseteq; [done|]. intros x Hx. rewrite list.Forall_forall in HF. destruct (HF x Hx) as [Hr _].
    change (nr_types demo_targ) with 3 in Hr. assert (x = 1 \/ x = 2 \/ x = 3) as [->|[->| ->]] by lia; by repeat constructor. }
  unfold glibc_usable. lia.
Qed.
(** With blocks of the size that was asked for, the first candidate is written behind the end. *)
Example exact_blocks_overflow : bpf_core_find_cands (BK := table_kernel) (fun n => n) demo_local 2 demo_targ table_state = None /\
  match bpf_core_find_cands (BK := table_kernel) glibc_usable demo_local 2 demo_targ table_state with Some (inr ids, _) => ids = [3] | _ => False end.
Proof. split; vm_compute; reflexivity. Qed.
Lemma core_image : sound_image glibc_usable (bt_data demo_targ).
Proof.
  intros s. eexists _, _. split; [vm_compute; reflexivity|]. cbv beta iota. eapply blocks_good. split; [exists demo_rank; exact demo_targ_wf|]. split; [exact demo_unique|exact core_image_fits].
Qed.
Lemma core_targets : targets_ok (LE := core_elf) glibc_usable (fun _ _ => inl 2).
Proof.
  split.
  - intros k fd e ehdr i sh d [= <-] [= <-] Hs Hn Hd.
    assert (Hi : i = 2).
    { cbn [gelf_getshdr bytes_elf] in Hs. unfold fi_scn in Hs. destruct (Z.leb_spec 0 i); [|done]. destruct (Z.to_nat i) as [|[|[|m]]] eqn:Ei; cbn in Hs; [| |lia|done].
      - injection Hs as <-. by vm_compute in Hn.
      - injection Hs as <-. by vm_compute in Hn. }
    subst i. vm_compute in Hd. injection Hd as <-. eexists. split; [by vm_compute|]. exact core_image.
  - done.
Qed.
Lemma core_obj_ready : core_ready core_obj demo_local [Sec 5 [core_recs]].
Proof.
  exists core_ext, (-1), demo_rank. split; [done|]. split; [done|]. split; [exact demo_local_wf|]. split.
  - right. split; [done|]. split; [done|]. split; [done|]. split; [done|]. split; [done|]. split; [done|].
    apply (Sections_cons _ 16 0 0 (Sec 5 [core_recs]) []); [by vm_compute|by vm_compute|done|by apply List.Forall_cons|by vm_compute|constructor].
  - apply List.Forall_cons; [|apply List.Forall_nil]. exists (Some [115]), [Field_reloc 0 2 13 0]. split; [by vm_compute|]. split; [constructor; [by vm_compute|constructor]|].
    intros p ->%list_elem_of_singleton _. apply List.Forall_cons; [|apply List.Forall_nil]. split; [by vm_compute|exists (Some [48; 58; 49]); split; [by vm_compute|exact demo_access_ok]|by vm_compute].
Qed.
