(* ===== verification/Loader.v ===== *)
(** * The loaders: common/common_user_bpf_xdp.c, common_libbpf.c and libbpf/src/libbpf.c

    From an object file to a program on a device: [bpf_prog_load_xattr] opens and loads the
    file, [load_bpf_and_xdp_attach] picks one of its programs and attaches it.  A process has
    one table of descriptors, which the calls of BpfSys.v and the sockets of Netlink.v share.
    The theorems join ObjOpen, ObjLoad and LinkUser. *)

From Stdlib Require Import String.
From S2P Require Import Prelude Params Netlink LinkUser Os Btf BtfExt BpfProg Object RedirectUser Pinning BpfSys ObjMaps Reloc ObjLoad SecNames Elf OpenMaps Probe BtfLoad ObjOpen.
#[local] Open Scope Z_scope.
#[local] Open Scope prog_scope.

Definition sizeof_bpf_prog_info : Z := 208.
(** [struct bpf_prog_load_attr]. *)
Record bpf_prog_load_attr := Prog_load_attr {
  lf_file : option path; lf_prog_type : Z; lf_expected_attach_type : Z; lf_ifindex : Z; lf_log_level : Z; lf_prog_flags : Z
}.
(** [struct bpf_pinned_map] and the attributes that hold an array of them. *)
Record bpf_pinned_map := Bpf_pinned_map { pm_name : path; pm_filename : path; pm_map_fd : Z }.
Definition set_map_fd (m : bpf_pinned_map) (fd : Z) : bpf_pinned_map := Bpf_pinned_map (pm_name m) (pm_filename m) fd.
Record bpf_prog_load_attr_maps := Prog_load_attr_maps {
  lm_file : option path; lm_prog_type : Z; lm_expected_attach_type : Z; lm_ifindex : Z; lm_pinned_maps : list bpf_pinned_map
}.

Section Load.
Context {BK : BpfKernel} {LE : Libelf BK} {OS : Os}.
Context (core : bpf_object -> option path -> M (bsys BK) (Z * bpf_object)) (kernel_btf : Z + btf) (release : list Z).
Abbreviation B := (M (bsys BK)).

Definition set_program (o : bpf_object) (i : Z) (p : bpf_program) : bpf_object := with_programs o (<[Z.to_nat i := p]> (o_programs o)).
Definition set_map (o : bpf_object) (i : Z) (m : bpf_map) : bpf_object := with_maps o (<[Z.to_nat i := m]> (o_maps o)).
Definition or_first (first : option Z) (i : Z) : option Z := match first with Some f => Some f | None => Some i end.

(** ** bpf_prog_load_xattr *)

(** The loop over the programs: whether all have a type, and the first of them. *)
Fixpoint prepare_programs (a : bpf_prog_load_attr) (l : list Z) (first : option Z) (o : bpf_object) : B (bool * option Z * bpf_object) :=
  match l with
  | [] => ret (true, first, o)
  | i :: l =>
      let! p := deref (o_programs o !! Z.to_nat i) in
      let p := if negb (lf_prog_type a =? BPF_PROG_TYPE_UNSPEC)
               then bpf_program__set_expected_attach_type (bpf_program__set_type p (lf_prog_type a)) (lf_expected_attach_type a) else p in
      if p_type p =? BPF_PROG_TYPE_UNSPEC then ret (false, first, set_program o i p)
      else
        let p := set_prog_flags (set_log_level (bpf_program__set_ifindex p (lf_ifindex a)) (lf_log_level a)) (lf_prog_flags a) in
        prepare_programs a l (or_first first i) (set_program o i p)
  end.
(** The loop over the maps. *)
Fixpoint set_ifindexes (ifindex : Z) (l : list Z) (o : bpf_object) : B bpf_object :=
  match l with
  | [] => ret o
  | i :: l =>
      let! m := deref (o_maps o !! Z.to_nat i) in
      set_ifindexes ifindex l (if negb (bpf_map__is_offload_neutral m) then set_map o i (bpf_map__set_ifindex m ifindex) else o)
  end.
(** The result, and with 0 the object and the descriptor of its first program. *)
Definition bpf_prog_load_xattr (attr : option bpf_prog_load_attr) : B (Z * option (bpf_object * Z)) :=
  match attr with
  | None => ret (- EINVAL, None)
  | Some a =>
      match lf_file a with
      | None => ret (- EINVAL, None)
      | Some _ =>
          let! r := bpf_object__open_xattr kernel_btf release (lf_file a) in
          match r with
          | inl _ | inr None => ret (- ENOENT, None)
          | inr (Some o) =>
              let! l := deref (for_each_program o) in
              let! (typed, first_prog, o) := prepare_programs a l None o in
              if negb typed then bpf_object__close (Some o) ;;; ret (- EINVAL, None)
              else
                let! l := deref (for_each_map o) in
                let! o := set_ifindexes (lf_ifindex a) l o in
                match first_prog with
                | None => bpf_object__close (Some o) ;;; ret (- ENOENT, None)
                | Some first_prog =>
                    let! (err, obj) := bpf_object__load core (Some o) in
                    if negb (err =? 0) then bpf_object__close obj ;;; ret (- EINVAL, None)
                    else
                      let! o := deref obj in
                      let! p := deref (o_programs o !! Z.to_nat first_prog) in
                      let! fd := deref (bpf_program__fd (Some p)) in
                      ret (0, Some (o, fd))
                end
          end
      end
  end.
Definition bpf_prog_load (file : option path) (type : Z) : B (Z * option (bpf_object * Z)) :=
  bpf_prog_load_xattr (Some (Prog_load_attr file type 0 0 0 0)).

(** ** common_user_bpf_xdp.c *)

Definition load_bpf_object_file (filename : path) (ifindex : Z) : B (option bpf_object) :=
  let! (err, r) := bpf_prog_load_xattr (Some (Prog_load_attr (Some filename) BPF_PROG_TYPE_XDP 0 ifindex 0 0)) in
  if negb (err =? 0) then ret None else let! (o, _) := deref r in ret (Some o).
(** The loop over the programs. *)
Fixpoint make_xdp (ifindex : Z) (l : list Z) (first : option Z) (o : bpf_object) : B (option Z * bpf_object) :=
  match l with
  | [] => ret (first, o)
  | i :: l =>
      let! p := deref (o_programs o !! Z.to_nat i) in
      make_xdp ifindex l (or_first first i) (set_program o i (bpf_program__set_ifindex (bpf_program__set_type p BPF_PROG_TYPE_XDP) ifindex))
  end.
Definition open_bpf_object (file : path) (ifindex : Z) : B (option bpf_object) :=
  let! r := bpf_object__open_xattr kernel_btf release (Some file) in
  match r with
  | inl _ | inr None => ret None
  | inr (Some o) =>
      let! l := deref (for_each_program o) in
      let! (first_prog, o) := make_xdp ifindex l None o in
      let! l := deref (for_each_map o) in
      let! o := set_ifindexes ifindex l o in
      match first_prog with None => ret None | Some _ => ret (Some o) end
  end.
(** The loop over the maps.  A path that does not fit PATH_MAX is an error. *)
Fixpoint reuse_loop (dir : path) (l : list Z) (o : bpf_object) : B (Z * bpf_object) :=
  match l with
  | [] => ret (0, o)
  | i :: l =>
      let! m := deref (o_maps o !! Z.to_nat i) in
      match full_path dir (m_name m) with
      | None => ret (- ENAMETOOLONG, o)
      | Some buf =>
          let! pinned_map_fd := bpf_obj_get buf in
          if pinned_map_fd <? 0 then ret (pinned_map_fd, o)
          else
            let! (err, m) := bpf_map__reuse_fd m pinned_map_fd in
            let o := set_map o i m in
            if negb (err =? 0) then ret (err, o) else reuse_loop dir l o
      end
  end.
Definition reuse_maps_in (obj : option bpf_object) (dir : option path) : B (Z * option bpf_object) :=
  match obj, dir with
  | None, _ => ret (- ENOENT, None)
  | Some o, None => ret (- EINVAL, Some o)
  | Some o, Some dir => let! l := deref (for_each_map o) in let! (err, o) := reuse_loop dir l o in ret (err, Some o)
  end.
(** The object is not closed when something fails. *)
Definition load_bpf_object_file_reuse_maps (file : path) (ifindex : Z) (pin_dir : path) : B (option bpf_object) :=
  let! obj := open_bpf_object file ifindex in
  match obj with
  | None => ret None
  | Some o =>
      let! (err, obj) := reuse_maps_in (Some o) (Some pin_dir) in
      if negb (err =? 0) then ret None
      else
        let! (err, obj) := bpf_object__load core obj in
        if negb (err =? 0) then ret None else ret obj
  end.

(** ** common_libbpf.c *)

Fixpoint prepare_programs_maps (a : bpf_prog_load_attr_maps) (l : list Z) (first : option Z) (o : bpf_object) : B (option Z * bpf_object) :=
  match l with
  | [] => ret (first, o)
  | i :: l =>
      let! p := deref (o_programs o !! Z.to_nat i) in
      let p := bpf_program__set_expected_attach_type (bpf_program__set_type (bpf_program__set_ifindex p (lm_ifindex a)) (lm_prog_type a)) (lm_expected_attach_type a) in
      prepare_programs_maps a l (or_first first i) (set_program o i p)
  end.
(** The pinned maps of one map of the object; the result of [bpf_map__reuse_fd] is ignored. *)
Fixpoint reuse_pinned (m : bpf_map) (done pins : list bpf_pinned_map) : B (bpf_map * list bpf_pinned_map) :=
  match pins with
  | [] => ret (m, done)
  | pin :: pins =>
      if negb (bool_decide (m_name m = pm_name pin)) then reuse_pinned m (done ++ [pin]) pins
      else
        let! fd := bpf_obj_get (pm_filename pin) in
        if fd >? 0 then let! (_, m) := bpf_map__reuse_fd m fd in reuse_pinned m (done ++ [set_map_fd pin fd]) pins
        else reuse_pinned m (done ++ [pin]) pins
  end.
Fixpoint open_pinned_maps (ifindex : Z) (l : list Z) (o : bpf_object) (pins : list bpf_pinned_map) : B (bpf_object * list bpf_pinned_map) :=
  match l with
  | [] => ret (o, pins)
  | i :: l =>
      let! m := deref (o_maps o !! Z.to_nat i) in
      let m := if negb (bpf_map__is_offload_neutral m) then bpf_map__set_ifindex m ifindex else m in
      let! (m, pins) := reuse_pinned m [] pins in
      open_pinned_maps ifindex l (set_map o i m) pins
  end.
(** After loading: the maps that were not opened are pinned. *)
Fixpoint pin_rest (m : bpf_map) (done pins : list bpf_pinned_map) : B (bpf_map * list bpf_pinned_map) :=
  match pins with
  | [] => ret (m, done)
  | pin :: pins =>
      if negb (bool_decide (m_name m = pm_name pin)) then pin_rest m (done ++ [pin]) pins
      else if negb (pm_map_fd pin =? -1) then pin_rest m (done ++ [pin]) pins
      else
        let! (err, m) := on_fs (bpf_map__pin m (Some (pm_filename pin))) in
        pin_rest m (done ++ [if negb (err =? 0) then pin else set_map_fd pin (bpf_map__fd (Some m))]) pins
  end.
Fixpoint pin_loaded_maps (l : list Z) (o : bpf_object) (pins : list bpf_pinned_map) : B (bpf_object * list bpf_pinned_map) :=
  match l with
  | [] => ret (o, pins)
  | i :: l =>
      let! m := deref (o_maps o !! Z.to_nat i) in
      let! (m, pins) := pin_rest m [] pins in
      pin_loaded_maps l (set_map o i m) pins
  end.
(** The result, the pinned maps as they are left, the object and its first descriptor.  The
    attributes are read before they are compared with NULL. *)
Definition bpf_prog_load_xattr_maps (attr : option bpf_prog_load_attr_maps) : B (Z * list bpf_pinned_map * option (bpf_object * Z)) :=
  let! a := deref attr in
  let pins := lm_pinned_maps a in
  match lm_file a with
  | None => ret (- EINVAL, pins, None)
  | Some _ =>
      let! r := bpf_object__open_xattr kernel_btf release (lm_file a) in
      match r with
      | inl _ | inr None => ret (- ENOENT, pins, None)
      | inr (Some o) =>
          let! l := deref (for_each_program o) in
          let! (first_prog, o) := prepare_programs_maps a l None o in
          let pins := map (fun m => set_map_fd m (-1)) pins in
          let! l := deref (for_each_map o) in
          let! (o, pins) := open_pinned_maps (lm_ifindex a) l o pins in
          match first_prog with
          | None => bpf_object__close (Some o) ;;; ret (- ENOENT, pins, None)
          | Some first_prog =>
              let! (err, obj) := bpf_object__load core (Some o) in
              if negb (err =? 0) then bpf_object__close obj ;;; ret (- EINVAL, pins, None)
              else
                let! o := deref obj in
                let! l := deref (for_each_map o) in
                let! (o, pins) := pin_loaded_maps l o pins in
                let! p := deref (o_programs o !! Z.to_nat first_prog) in
                let! fd := deref (bpf_program__fd (Some p)) in
                ret (0, pins, Some (o, fd))
          end
      end
  end.
End Load.

(** ** Attaching *)

(** The process: its calls of bpf(2) and its netlink sockets share the descriptors. *)
Record lsys {BK : BpfKernel} {NK : NlKernel} := Lsys { l_b : bsys BK; l_nl : kst; l_inbox : list (Z + list Z) }.
Arguments lsys : clear implicits.
Arguments Lsys {BK NK}.

Section Attach.
Context {BK : BpfKernel} {LE : Libelf BK} {OS : Os} {NK : NlKernel} (stack : list Z).
Context (core : bpf_object -> option path -> M (bsys BK) (Z * bpf_object)) (kernel_btf : Z + btf) (release : list Z).
Abbreviation L := (M (lsys BK NK)).
Definition on_bpf {A} (c : M (bsys BK) A) : L A := fun s =>
  match c (l_b s) with Some (a, b) => Some (a, Lsys b (l_nl s) (l_inbox s)) | None => None end.
Definition on_netlink {A} (c : M nlsys A) : L A := fun s =>
  let b := l_b s in
  match c (Nlsys (l_nl s) (fds (b_sys b)) (l_inbox s)) with
  | Some (a, n) => Some (a, Lsys (Bsys _ (b_k b) (with_fds (b_sys b) (n_fds n)) (b_cpus b)) (n_kern n) (n_inbox n))
  | None => None
  end.
Definition set_progsec (cfg : config) (s : list Z) : config := Params.set_strings cfg (filename cfg) s (src_mac cfg) (dest_mac cfg).
(** exit(3) with a code, or the object and the configuration.  [pin_dir] is that of [cfg]. *)
Definition load_bpf_and_xdp_attach (cfg : config) (pin_dir : path) : L (Z + bpf_object * config) :=
  let offload_ifindex := if negb (Z.land (xdp_flags cfg) XDP_FLAGS_HW_MODE =? 0) then ifindex cfg else 0 in
  let! file := deref (c_str (filename cfg)) in
  let! bpf_obj := on_bpf (if reuse_maps cfg then load_bpf_object_file_reuse_maps core kernel_btf release file offload_ifindex pin_dir
                          else load_bpf_object_file core kernel_btf release file offload_ifindex) in
  match bpf_obj with
  | None => ret (inl EXIT_FAIL_BPF)
  | Some o =>
      let! bpf_prog := if negb (getZ (progsec cfg) 0 =? 0) then let! title := deref (c_str (progsec cfg)) in deref (bpf_object__find_program_by_title o title)
                       else deref (bpf_program__next o None) in
      match bpf_prog with
      | None => ret (inl EXIT_FAIL_BPF)
      | Some i =>
          let! p := deref (o_programs o !! Z.to_nat i) in
          let cfg := set_progsec cfg (strncpy (p_section_name p) 32) in
          let! prog_fd := deref (bpf_program__fd (Some p)) in
          if prog_fd <=? 0 then ret (inl EXIT_FAIL_BPF)
          else
            let! err := on_netlink (xdp_link_attach stack (ifindex cfg) (xdp_flags cfg) prog_fd) in
            if negb (err =? 0) then ret (inl err) else ret (inr (o, cfg))
      end
  end.
(** basic04-pinning-maps/xdp_loader.c after its command line is parsed. *)
Definition main_pinning (cfg : config) : L Z :=
  if ifindex cfg =? -1 then ret EXIT_FAIL_OPTION
  else if do_unload cfg then on_netlink (xdp_link_detach stack (ifindex cfg) (xdp_flags cfg) 0)
  else
    let! name := deref (ifname cfg) in
    let! name := deref (c_str name) in
    let pin_dir := join_path pin_basedir name in
    let! r := load_bpf_and_xdp_attach cfg pin_dir in
    match r with
    | inl code => ret code
    | inr (o, cfg) =>
        if negb (reuse_maps cfg) then
          let! (err, _) := on_bpf (on_fs (pin_maps_in_bpf_object (Some o) name pin_dir)) in
          if negb (err =? 0) then ret err else ret EXIT_OK
        else ret EXIT_OK
    end.
(** basic01-xdp-pass/xdp_pass_user.c. *)
Definition load_bpf_object_file__simple (filename : path) : M (bsys BK) Z :=
  let! (err, r) := bpf_prog_load core kernel_btf release (Some filename) BPF_PROG_TYPE_XDP in
  if negb (err =? 0) then ret (-1) else let! (_, fd) := deref r in ret fd.
Definition xdp_link_detach_simple (ifindex xdp_flags : Z) : M nlsys Z :=
  let! err := bpf_set_link_xdp_fd stack ifindex (-1) xdp_flags in
  if err <? 0 then ret EXIT_FAIL_XDP else ret EXIT_OK.
Definition main_pass (cfg : config) : L Z :=
  if ifindex cfg =? -1 then ret EXIT_FAIL_OPTION
  else if do_unload cfg then on_netlink (xdp_link_detach_simple (ifindex cfg) (xdp_flags cfg))
  else
    let! prog_fd := on_bpf (load_bpf_object_file__simple (str "xdp_pass_kern.o")) in
    if prog_fd <=? 0 then ret EXIT_FAIL_BPF
    else
      let! err := on_netlink (xdp_link_attach stack (ifindex cfg) (xdp_flags cfg) prog_fd) in
      if negb (err =? 0) then ret err
      else
        let! (err, _, _) := on_bpf (bpf_obj_get_info_by_fd prog_fd sizeof_bpf_prog_info) in
        if negb (err =? 0) then ret err else ret EXIT_OK.
(** basic02-prog-by-name/xdp_loader.c; what it lists when verbose is only printed. *)
Definition __load_bpf_object_file (filename : path) (ifindex : Z) : M (bsys BK) (option bpf_object) :=
  let! (err, r) := bpf_prog_load_xattr core kernel_btf release (Some (Prog_load_attr (Some filename) BPF_PROG_TYPE_XDP 0 ifindex 0 0)) in
  if negb (err =? 0) then ret None else let! (o, _) := deref r in ret (Some o).
Definition __load_bpf_and_xdp_attach (cfg : config) : L (Z + bpf_object) :=
  let offload_ifindex := if negb (Z.land (xdp_flags cfg) XDP_FLAGS_HW_MODE =? 0) then ifindex cfg else 0 in
  let! file := deref (c_str (filename cfg)) in
  let! bpf_obj := on_bpf (__load_bpf_object_file file offload_ifindex) in
  match bpf_obj with
  | None => ret (inl EXIT_FAIL_BPF)
  | Some o =>
      let! title := deref (c_str (progsec cfg)) in
      let! bpf_prog := deref (bpf_object__find_program_by_title o title) in
      match bpf_prog with
      | None => ret (inl EXIT_FAIL_BPF)
      | Some i =>
          let! p := deref (o_programs o !! Z.to_nat i) in
          let! prog_fd := deref (bpf_program__fd (Some p)) in
          if prog_fd <=? 0 then ret (inl EXIT_FAIL_BPF)
          else
            let! err := on_netlink (xdp_link_attach stack (ifindex cfg) (xdp_flags cfg) prog_fd) in
            if negb (err =? 0) then ret (inl err) else ret (inr o)
      end
  end.
Definition main_by_name (cfg : config) : L Z :=
  if ifindex cfg =? -1 then ret EXIT_FAIL_OPTION
  else if do_unload cfg then on_netlink (xdp_link_detach stack (ifindex cfg) (xdp_flags cfg) 0)
  else
    let! r := __load_bpf_and_xdp_attach cfg in
    match r with inl code => ret code | inr _ => ret EXIT_OK end.
End Attach.

(** ** Opened objects can be loaded *)

Lemma NoDup_concat_map {A B} (f : A -> list B) : forall l : list A, (forall a, a ∈ l -> NoDup (f a)) ->
  (forall i j a b, i <> j -> l !! i = Some a -> l !! j = Some b -> forall x, x ∈ f a -> x ∉ f b) -> NoDup (concat (map f l)).
Proof.
  induction l as [|a l IH]; intros Hn Hd; cbn [map concat]; [constructor|]. apply list.NoDup_app. split; [apply Hn; by left|]. split.
  - intros x Hx Hin%list_elem_of_In. apply in_concat in Hin as (c & Hc%list_elem_of_In & Hin%list_elem_of_In).
    apply list_elem_of_fmap in Hc as (b & -> & Hb). apply list_elem_of_lookup in Hb as [i Hb]. exact (Hd 0%nat (S i) a b ltac:(lia) eq_refl Hb x Hx Hin).
  - apply IH; [intros b Hb; apply Hn; by right|]. intros i j b c Hij Hb Hc. apply (Hd (S i) (S j)); [lia|done|done].
Qed.

Section Ready.
Context {BK : BpfKernel} {BO : BpfKernelOk BK} {LE : Libelf BK} {LO : LibelfOk LE}.
(** The relocation entries for one section are about different instructions, and the
    instructions they are about are complete. *)
Record relocs_ok (e : elf) : Prop := {
  ro_apart x t b i j ri rj insn : rel_section e x -> elf_getdata e (s32 (sh_info x.1)) = Some t -> d_buf t = Some b -> i <> j ->
    gelf_getrel x.2 i = Some ri -> gelf_getrel x.2 j = Some rj -> insns_of b !! Z.to_nat (insn_of ri) = Some insn ->
    insn_of rj <> insn_of ri /\ (code insn = or3 BPF_LD BPF_IMM BPF_DW -> insn_of rj <> insn_of ri + 1);
  ro_whole x t b i ri insn : rel_section e x -> elf_getdata e (s32 (sh_info x.1)) = Some t -> d_buf t = Some b ->
    gelf_getrel x.2 i = Some ri -> insns_of b !! Z.to_nat (insn_of ri) = Some insn -> code insn = or3 BPF_LD BPF_IMM BPF_DW ->
    insn_of ri + 1 < lenZ (insns_of b)
}.
(** What a description says of the instructions it changes. *)
Lemma describes_slots symbols d o insns i x : describes symbols d o insns i x -> exists rel insn, gelf_getrel d i = Some rel /\
  insns !! Z.to_nat (insn_of rel) = Some insn /\
  (slots x = [insn_of rel] \/ slots x = [insn_of rel; insn_of rel + 1] /\ code insn = or3 BPF_LD BPF_IMM BPF_DW) /\
  ((code insn = or3 BPF_LD BPF_IMM BPF_DW -> insn_of rel + 1 < lenZ insns) -> reloc_fits o (lenZ insns) x).
Proof using.
  intros (rel & sym & insn & E1 & _ & E3 & Hx). exists rel, insn. split; [done|]. split; [done|]. pose proof (insn_of_range rel) as Hr.
  pose proof (lookup_lt_Some _ _ _ E3) as Hl.
  assert (Hmap : forall n m, o_maps o !! n = Some m -> 0 <= Z.of_nat n < lenZ (o_maps o)) by (intros n m Hn; apply lookup_lt_Some in Hn; lia).
  cbv zeta in Hx. destruct x as [j m|j off|j m]; cbn [slots reloc_fits].
  - destruct Hx as (-> & Hc & _ & n & mp & -> & Hf & _). split; [by left|]. intros Hw. split; [done|]. split; [auto|by eapply Hmap].
  - destruct Hx as (-> & _). split; [by left|]. intros _. lia.
  - destruct Hx as (-> & Hc & _ & n & mp & -> & Hf & _). split; [by right|]. intros Hw. split; [done|]. split; [auto|by eapply Hmap].
Qed.
Lemma opened_prog_ready e o p : opened e o -> relocs_ok e -> prog_in e p -> relocs_in e o p -> prog_ready o p.
Proof using.
  intros [(_ & _ & Hext) _ _ _ _] [RA RW] [[F1 _ _ F4] (d & b & D1 & D2 & _ & D4)] Hrel. split; [by unfold infos_ok; rewrite Hext|done| |].
  - destruct (p_reloc p) as [l|] eqn:El; [|apply List.Forall_nil]. cbn [default]. destruct (Hrel l El) as (sy & x & _ & Hx & Hidx & Hd).
    apply Forall_lookup. intros k r Hk. destruct (describes_slots _ _ _ _ _ _ (Hd k r Hk)) as (rel & insn & E1 & E2 & _ & Hfit). apply Hfit.
    intros Hc. rewrite D4 in E2 |- *. rewrite Hidx in D1. by eapply RW.
  - destruct (p_reloc p) as [l|] eqn:El; [|constructor]. cbn [default]. destruct (Hrel l El) as (sy & x & _ & Hx & Hidx & Hd). rewrite Hidx in D1.
    apply NoDup_concat_map.
    + intros r (k & Hk)%list_elem_of_lookup. destruct (describes_slots _ _ _ _ _ _ (Hd k r Hk)) as (rel & insn & _ & _ & [-> | [-> _]] & _); [apply NoDup_singleton|].
      apply list.NoDup_cons. split; [rewrite list_elem_of_singleton; lia|apply NoDup_singleton].
    + intros i j ra rb Hij Hi Hj z Ha Hb. destruct (describes_slots _ _ _ _ _ _ (Hd i ra Hi)) as (r1 & i1 & A1 & A2 & A3 & _).
      destruct (describes_slots _ _ _ _ _ _ (Hd j rb Hj)) as (r2 & i2 & B1 & B2 & B3 & _). rewrite D4 in A2, B2.
      destruct (RA x d b (Z.of_nat i) (Z.of_nat j) r1 r2 i1 Hx D1 D2 ltac:(intros E; apply Hij; lia) A1 B1 A2) as [N1 N2].
      destruct (RA x d b (Z.of_nat j) (Z.of_nat i) r2 r1 i2 Hx D1 D2 ltac:(intros E; apply Hij; lia) B1 A1 B2) as [N3 N4].
      destruct A3 as [E1 | [E1 C1]], B3 as [E2 | [E2 C2]]; rewrite E1, ?elem_of_cons, ?elem_of_nil in Ha; rewrite E2, ?elem_of_cons, ?elem_of_nil in Hb; intuition lia.
Qed.
(** Nothing but the load fields of programs and the interfaces of maps. *)
Definition refit (p p' : bpf_program) : Prop := exists ty eat i fl, p' = set_load_fields p ty eat i 0 fl.
Definition remap (m m' : bpf_map) : Prop := m' = m \/ exists i, m' = bpf_map__set_ifindex m i.
Lemma opened_ready e o ps ms : opened e o -> relocs_ok e -> Forall2 refit (o_programs o) ps -> Forall2 remap (o_maps o) ms ->
  let o' := with_maps (with_programs o ps) ms in obj_ready o' /\ leaks (o_maps o') = 0%nat /\ map_fds (o_maps o') = [] /\ idle o'.
Proof using.
  intros HO HR HP HM o'. pose proof HO as [(L1 & L2 & L3) [M1 M2] P1 P2 _].
  assert (Hlen : length ms = length (o_maps o)) by (symmetry; by apply (list.Forall2_length remap)).
  assert (Hp : Forall (fun p => prog_ready o' p /\ fresh_prog p /\ p_log_level p = 0 /\ p_prep p = None) ps).
  { rewrite list.Forall_forall in P1, P2. apply Forall_lookup. intros i p' Hp'. destruct (Forall2_lookup_r _ _ _ _ _ HP Hp') as (p & Ep & ty & eat & ix & fl & ->).
    apply list_elem_of_lookup_2 in Ep. pose proof (P1 _ Ep) as Hin. destruct (opened_prog_ready e o p HO HR Hin (P2 _ Ep)) as [Q1 Q2 Q3 Q4]. destruct Hin as [[F1 F2 F3 F4] _].
    split; [|split; [by split|split; [done|apply F3]]]. split; [exact Q1|exact Q2| |exact Q4]. eapply list.Forall_impl; [exact Q3|]. intros r Hr.
    unfold reloc_fits in *. cbn [o' with_maps o_maps set_load_fields p_insns] in *. by rewrite Hlen. }
  assert (Hm : Forall (fun m => fresh m /\ map_ready o' m) ms).
  { rewrite Forall_lookup in M1, M2 |- *. intros i m' Hm'. destruct (Forall2_lookup_r _ _ _ _ _ HM Hm') as (m & Em & Hr).
    pose proof (M1 _ _ Em) as Hf. pose proof (M2 _ _ Em) as [R1 R2 R3 R4]. destruct Hr as [->|[ix ->]]; (split; [done|by split]). }
  split; [|split; [|split]].
  - split; [done|eapply list.Forall_impl; [exact Hm|by intros m []]|intros b fd Hb; cbn in Hb; congruence|intros x Hx; cbn in Hx; congruence|
      eapply list.Forall_impl; [exact Hp|by intros p []]| |eapply list.Forall_impl; [exact Hp|by intros p (_ & _ & ? & _)]|by right].
    eapply list.Forall_impl; [exact Hp|]. intros p (_ & [_ _ [F3 _] _] & _). unfold prog_closed. rewrite F3. split; [done|apply List.Forall_nil].
  - change (o_maps o') with ms. clear -Hm. revert Hm. generalize ms. intros l0 Hm. induction Hm as [|m l [(_ & _ & _ & _ & Hn) _] _ IH]; [done|]. change (leaks (m :: l)) with (leak_of m + leaks l)%nat. unfold leak_of. by rewrite Hn, IH.
  - change (o_maps o') with ms. clear -Hm. revert Hm. generalize ms. intros l0 Hm. induction Hm as [|m l [(Hfd & _) _] _ IH]; [done|]. unfold map_fds in *. cbn. by rewrite Hfd, IH.
  - split; [done|]. cbn [o' with_maps o_maps o_programs with_programs]. split; [eapply list.Forall_impl; [exact Hm|by intros m []]|eapply list.Forall_impl; [exact Hp|by intros p (_ & ? & _)]].
Qed.
End Ready.

(** ** Loading a file *)

Section LoadRules.
Context {BK : BpfKernel} {BO : BpfKernelOk BK} {LE : Libelf BK} {LO : LibelfOk LE} {OS : Os}.
Context (core : bpf_object -> option path -> M (bsys BK) (Z * bpf_object)) (kernel_btf : Z + btf) (Hkb : kernel_btf_ok kernel_btf) (release : list Z).

Definition configured (a : bpf_prog_load_attr) (p : bpf_program) : bpf_program :=
  set_load_fields p (lf_prog_type a) (lf_expected_attach_type a) (lf_ifindex a) (lf_log_level a) (lf_prog_flags a).
Lemma wp_prepare a s : lf_prog_type a <> BPF_PROG_TYPE_UNSPEC -> forall l first o, (forall i, i ∈ l -> 0 <= i < lenZ (o_programs o)) ->
  wp (prepare_programs a l first o) (fun '(t, first', o') s' => s' = s /\ t = true /\ first' = match first with Some f => Some f | None => head l end /\
    exists ps, o' = with_programs o ps /\ length ps = length (o_programs o) /\
      forall i p, o_programs o !! i = Some p -> ps !! i = Some (if decide (Z.of_nat i ∈ l) then configured a p else p)) s.
Proof using.
  intros Ht. induction l as [|i l IH]; intros first o Hl; cbn [prepare_programs].
  { apply wp_ret. split; [done|]. split; [done|]. split; [by destruct first|]. exists (o_programs o). split; [by destruct o|]. split; [done|].
    intros i p Hp. by rewrite decide_False by apply not_elem_of_nil. }
  pose proof (Hl i ltac:(by left)) as Hi. destruct (lookup_lt_is_Some_2 (o_programs o) (Z.to_nat i)) as [p Hp]; [lia|]. apply wp_bind. eapply wp_deref; [exact Hp|].
  assert (Hty : (lf_prog_type a =? BPF_PROG_TYPE_UNSPEC) = false) by (by apply Z.eqb_neq). rewrite Hty. cbn [negb].
  change (p_type (bpf_program__set_expected_attach_type (bpf_program__set_type p (lf_prog_type a)) (lf_expected_attach_type a))) with (lf_prog_type a).
  rewrite Hty. set (p' := set_prog_flags _ _). assert (Ep : p' = configured a p) by done. rewrite Ep.
  assert (Hlen : length (<[Z.to_nat i := configured a p]> (o_programs o)) = length (o_programs o)) by apply length_insert.
  eapply wp_mono; [apply IH|].
  { intros j Hj. cbn [set_program with_programs o_programs]. rewrite Hlen. apply Hl. by right. }
  intros [[t f] o'] s' (-> & -> & -> & ps & -> & Hps & Hl2). split; [done|]. split; [done|]. split; [by destruct first|]. exists ps. split; [done|].
  cbn [set_program with_programs o_programs] in *. split; [congruence|]. intros j q Hq. destruct (decide (Z.to_nat i = j)) as [<-|Hne].
  - specialize (Hl2 (Z.to_nat i) (configured a p)). rewrite list_lookup_insert_eq in Hl2 by lia. assert (q = p) as -> by congruence.
    rewrite (decide_True (P := Z.of_nat (Z.to_nat i) ∈ i :: l)) by (apply elem_of_cons; left; lia). rewrite Hl2 by done. by destruct (decide _).
  - specialize (Hl2 j q). rewrite list_lookup_insert_ne in Hl2 by done. rewrite Hl2 by done. f_equal. destruct (decide (Z.of_nat j ∈ l)) as [H|H].
    + by rewrite decide_True by (by right).
    + rewrite decide_False; [done|]. intros [E|?]%elem_of_cons; [lia|done].
Qed.
Lemma remap_trans m1 m2 m3 : remap m1 m2 -> remap m2 m3 -> remap m1 m3.
Proof. intros [->|[i ->]] [->|[j ->]]; [by left|right; by exists j|right; by exists i|right; by exists j]. Qed.
Lemma wp_ifindexes ix s : forall l o, (forall i, i ∈ l -> 0 <= i < lenZ (o_maps o)) ->
  wp (set_ifindexes ix l o) (fun o' s' => s' = s /\ exists ms, o' = with_maps o ms /\ Forall2 remap (o_maps o) ms) s.
Proof using.
  induction l as [|i l IH]; intros o Hl; cbn [set_ifindexes].
  { apply wp_ret. split; [done|]. exists (o_maps o). split; [by destruct o|]. apply Forall2_same_length_lookup. split; [done|]. intros j m m' H1 H2. left. congruence. }
  pose proof (Hl i ltac:(by left)) as Hi. destruct (lookup_lt_is_Some_2 (o_maps o) (Z.to_nat i)) as [m Hm]; [lia|]. apply wp_bind. eapply wp_deref; [exact Hm|].
  set (o1 := if negb (bpf_map__is_offload_neutral m) then set_map o i (bpf_map__set_ifindex m ix) else o).
  assert (H1 : exists ms, o1 = with_maps o ms /\ Forall2 remap (o_maps o) ms).
  { unfold o1. destruct (negb _).
    - eexists. split; [done|]. apply Forall2_same_length_lookup. split; [by rewrite length_insert|]. intros j x y Hx Hy. destruct (decide (Z.to_nat i = j)) as [<-|Hne].
      + rewrite list_lookup_insert_eq in Hy by lia. injection Hy as <-. assert (x = m) as -> by congruence. right. by eexists.
      + rewrite list_lookup_insert_ne in Hy by done. left. congruence.
    - exists (o_maps o). split; [by destruct o|]. apply Forall2_same_length_lookup. split; [done|]. intros j x y Hx Hy. left. congruence. }
  destruct H1 as (ms & -> & HF). eapply wp_mono; [apply IH|].
  { intros j Hj. cbn [with_maps o_maps]. rewrite <- (list.Forall2_length _ _ _ HF). apply Hl. by right. }
  intros o' s' (-> & ms' & -> & HF'). split; [done|]. exists ms'. split; [done|]. cbn [with_maps o_maps] in HF'. eapply list.Forall2_trans; [|exact HF|exact HF'].
  intros x y z. apply remap_trans.
Qed.

(** The files that are opened are well formed where the code does not check them. *)
Definition files_ok : Prop :=
  (forall k fd e ep, elf_begin k fd = Some e -> gelf_getehdr e = Some ep -> file_ok e (e_shstrndx ep)) /\
  (forall k fd e, elf_begin k fd = Some e -> relocs_ok e).
(** The object before it is loaded: as it was opened, but for what the attributes say. *)
Definition prepared (a : bpf_prog_load_attr) (o : bpf_object) : Prop := exists e k fd o0 ps ms, elf_begin k fd = Some e /\ opened e o0 /\
  o = with_maps (with_programs o0 ps) ms /\ Forall2 remap (o_maps o0) ms /\ length ps = length (o_programs o0) /\
  forall i p, o_programs o0 !! i = Some p -> ps !! i = Some (if bpf_program__is_function_storage o0 p then p else configured a p).
(** With an error nothing is left open, but for a file libelf did not take.  Otherwise the
    object is loaded. *)
Definition file_post (a : bpf_prog_load_attr) (s : bsys BK) (X : list Z) (r : Z * option (bpf_object * Z)) (s' : bsys BK) : Prop :=
  (forall f, f ∈ X -> obj_of (b_k s') f = obj_of (b_k s) f) /\
  match r with
  | (err, None) => err <> 0 /\ (own s' X \/ exists fd k, own s' (fd :: X) /\ elf_begin k fd = None)
  | (err, Some (o', fd)) => err = 0 /\ exists o, prepared a o /\ load_done o o' X [] s' /\
      exists i p', head (handles o 0) = Some i /\ o_programs o' !! i = Some p' /\ p_fds p' = [fd]
  end.
Lemma configured_refit a e o ps : lf_log_level a = 0 -> opened e o -> length ps = length (o_programs o) ->
  (forall i p, o_programs o !! i = Some p -> ps !! i = Some (if bpf_program__is_function_storage o p then p else configured a p)) -> Forall2 refit (o_programs o) ps.
Proof using.
  intros Hlv [_ _ P1 _ _] Hlen Hps. apply Forall2_same_length_lookup. split; [done|]. intros i p p' Hp Hp'. rewrite (Hps i p Hp) in Hp'. injection Hp' as <-.
  destruct (bpf_program__is_function_storage o p).
  - rewrite Forall_lookup in P1. destruct (P1 _ _ Hp) as [[_ F2 _ _] _]. exists (p_type p), (p_expected_attach_type p), (p_ifindex p), (p_prog_flags p).
    rewrite <- F2. by destruct p.
  - exists (lf_prog_type a), (lf_expected_attach_type a), (lf_ifindex a), (lf_prog_flags a). unfold configured. by rewrite Hlv.
Qed.
(** Which programs are kept does not depend on what is configured. *)
Lemma keep_prepared a o0 ps ms : length ps = length (o_programs o0) ->
  (forall i p, o_programs o0 !! i = Some p -> ps !! i = Some (if bpf_program__is_function_storage o0 p then p else configured a p)) ->
  forall i, keep (with_maps (with_programs o0 ps) ms) i <-> keep o0 i.
Proof using.
  intros Hlen Hps i. unfold keep at 1. cbn [with_maps with_programs o_programs]. destruct (o_programs o0 !! i) as [p|] eqn:Ep.
  - rewrite (Hps i p Ep). unfold keep. rewrite Ep. set (q := if bpf_program__is_function_storage o0 p then p else configured a p).
    assert (Hidx : p_idx q = p_idx p) by (by unfold q; destruct (bpf_program__is_function_storage o0 p)). clearbody q.
    unfold bpf_program__is_function_storage. by rewrite Hidx.
  - unfold keep. rewrite Ep. by rewrite lookup_ge_None_2 by (apply lookup_ge_None_1 in Ep; lia).
Qed.
Lemma handles_same o o' : length (o_programs o') = length (o_programs o) -> (forall i, keep o' i <-> keep o i) -> handles o' 0 = handles o 0.
Proof using. intros Hl Hk. unfold handles. rewrite Hl. apply list_filter_iff. intros i. apply Hk. Qed.
Lemma handle_iff o i : Z.of_nat i ∈ (Z.of_nat <$> handles o 0) <-> keep o i.
Proof using.
  split; [|apply handles_keep]. intros (j & E & Hj)%list_elem_of_fmap. apply Nat2Z.inj in E as ->. unfold handles in Hj. by apply list_elem_of_filter in Hj as [? _].
Qed.
Lemma unloaded_fds o : unloaded o -> obj_fds o = [].
Proof using.
  intros [Hm Hp]. unfold obj_fds. assert (map_fds (o_maps o) = []) as ->.
  { induction Hm as [|m l Hfd _ IH]; [done|]. unfold map_fds in *. cbn. by rewrite Hfd, IH. } cbn [app].
  induction Hp as [|p l Hf _ IH]; [done|]. rewrite progs_fds_cons, IH. unfold prog_fds. by rewrite Hf.
Qed.
(** A program of a loaded object that is not storage has a descriptor of its own, granted for
    its relocated instructions. *)
Lemma loaded_program o o' X L s i : load_done o o' X L s -> keep o i -> Forall fresh_prog (o_programs o) ->
  exists p' fd, o_programs o' !! i = Some p' /\ p_fds p' = [fd] /\ 0 <= fd /\ exists p om q, o_programs o !! i = Some p /\ same_section p p' /\
    same_section p q /\ loaded_as om q fd.
Proof using.
  intros (_ & _ & l2 & _ & HS & HP & _ & HL) Hk Hf. unfold keep in Hk. destruct (o_programs o !! i) as [p|] eqn:Ep; [|done].
  destruct (Forall2_lookup_l _ _ _ _ _ HS Ep) as (q & Eq & [S1 S2]). destruct (Forall2_lookup_l _ _ _ _ _ HP Ep) as (q' & Eq' & Hprep). assert (q' = q) as -> by congruence.
  destruct (Forall2_lookup_l _ _ _ _ _ HL Eq) as (p' & Ep' & Hl). unfold prog_loaded in Hl.
  assert (Hst : bpf_program__is_function_storage (with_programs (with_maps (with_loaded o true) (o_maps o')) l2) q = false).
  { unfold bpf_program__is_function_storage in *. by rewrite S1. }
  rewrite Hst in Hl. destruct Hl as (fd & F1 & F2 & F3 & [S3 S4]).
  { rewrite Hprep. rewrite Forall_lookup in Hf. destruct (Hf _ _ Ep) as [_ _ [_ F] _]. done. }
  exists p', fd. split; [done|]. split; [done|]. split; [done|]. eexists p, _, q. split; [done|]. split; [split; congruence|]. split; [by split|exact F3].
Qed.
Lemma one_fd p fd : p_fds p = [fd] -> 0 <= fd -> bpf_program__fd (Some p) = Some fd.
Proof using. intros E H. unfold bpf_program__fd, bpf_program__nth_fd. rewrite E. change (Some (if fd <? 0 then - ENOENT else fd) = Some fd). by rewrite (proj2 (Z.ltb_ge _ _)). Qed.
Lemma wp_load_xattr_file a p s X : own s X -> memory -> files_ok -> lf_file a = Some p -> lf_prog_type a <> BPF_PROG_TYPE_UNSPEC -> lf_log_level a = 0 ->
  wp (bpf_prog_load_xattr core kernel_btf release (Some a)) (file_post a s X) s.
Proof using BO LO Hkb.
  intros HO Hm Hf Ep Hty Hlv. unfold bpf_prog_load_xattr. rewrite Ep. apply wp_bind. unfold bpf_object__open_xattr, __bpf_object__open_xattr. apply wp_bind.
  eapply wp_mono; [apply wp_open_object; [exact HO|done|done|apply Hf]|].
  intros [err|o0] s1 [K1 Hpost]; apply wp_ret; cbn [some_object].
  { apply wp_ret. split; [apply K1|]. split; [done|apply Hpost]. }
  destruct Hpost as (HO1 & e & k & fd0 & Eb & Hop). apply wp_bind. eapply wp_deref; [apply for_each_program_visits|]. apply wp_bind.
  eapply wp_mono; [apply (wp_prepare a s1 Hty _ None o0); by apply handles_range|]. intros [[t first] o1] s2 (-> & -> & -> & ps & -> & Hlen & Hps). cbn [negb].
  assert (Hps' : forall i q, o_programs o0 !! i = Some q -> ps !! i = Some (if bpf_program__is_function_storage o0 q then q else configured a q)).
  { intros i q Hq. rewrite (Hps i q Hq). f_equal. assert (Hk := handle_iff o0 i). unfold keep in Hk. rewrite Hq in Hk.
    destruct (bpf_program__is_function_storage o0 q); [by rewrite decide_False by (by rewrite Hk)|by rewrite decide_True by (by rewrite Hk)]. }
  apply wp_bind. eapply wp_deref; [apply for_each_map_visits|]. apply wp_bind.
  eapply wp_mono; [apply wp_ifindexes|]. { intros i (j & -> & Hj)%list_elem_of_fmap. apply elem_of_seq in Hj. lia. }
  intros o2 s2 (-> & ms & -> & HM). cbn [with_programs o_maps] in HM.
  assert (Hreloc : relocs_ok e) by (by eapply Hf).
  destruct (opened_ready e o0 ps ms Hop Hreloc (configured_refit a e o0 ps Hlv Hop Hlen Hps') HM) as (HR & Hlk & Hfd & Hid).
  set (o2 := with_maps (with_programs o0 ps) ms) in *.
  assert (Hclose : forall o s2 err, idle o -> err <> 0 -> own s2 X -> kept X s s2 ->
    wp (bpf_object__close (Some o) ;;; ret (err, None)) (file_post a s X) s2).
  { intros o s2 err Hi He HO2 K2. apply wp_bind. eapply wp_mono; [by apply wp_close_idle|]. intros _ s3 [HO3 K3]. apply wp_ret.
    pose proof (kept_trans _ _ _ _ K2 K3) as (_ & _ & Hobj). split; [exact Hobj|]. split; [done|by left]. }
  destruct (head (Z.of_nat <$> handles o0 0)) as [first|] eqn:Efirst; [|by apply Hclose].
  assert (Hhd : handles o2 0 = handles o0 0) by (apply handles_same; [exact Hlen|by apply (keep_prepared a)]).
  destruct (head (handles o0 0)) as [i|] eqn:Ei; [|by destruct (handles o0 0)]. assert (first = Z.of_nat i) as -> by (by destruct (handles o0 0); [|injection Ei as ->; injection Efirst as ->]).
  unfold bpf_object__load. apply wp_bind. eapply wp_mono; [apply (wp_load_xattr_obj core o2 None s1 X); [apply core_fits_none, (od_obj _ _ Hop)|exact HR|by rewrite Hfd]|].
  intros [err obj] s3 (o3 & L & -> & HL & Hobj & Hcase). rewrite Hlk in HL. destruct L; [|by unfold lost in HL; cbn in HL; lia].
  assert (Hobj' : forall f, f ∈ X -> obj_of (b_k s3) f = obj_of (b_k s) f) by (intros f Hin; destruct K1 as (_ & _ & O1); rewrite Hobj, O1 by done; done).
  destruct Hcase as [[-> HD]|[Hne (HO3 & [U1 U2] & Eb3 & _ & _)]].
  2: { rewrite (proj2 (Z.eqb_neq _ _)) by done. cbn [negb]. apply wp_bind. unfold bpf_object__close. apply wp_bind.
       eapply wp_mono; [apply (wp_unload o3 s3 X); by rewrite unloaded_fds|]. intros [e4 o4] s4 (HO4 & K4 & _). rewrite Eb3. destruct Hid as [-> _]. apply wp_ret, wp_ret.
       split; [intros f Hin; destruct K4 as (_ & _ & O4); rewrite O4 by done; auto|]. split; [done|by left]. }
  cbn [negb Z.eqb]. apply wp_bind. eapply wp_deref; [reflexivity|]. rewrite Nat2Z.id.
  assert (Hk : keep o2 i). { apply handle_iff. rewrite Hhd. apply list_elem_of_fmap. exists i. split; [done|]. destruct (handles o0 0); [done|]. injection Ei as ->. by left. }
  destruct (loaded_program o2 o3 X [] s3 i HD Hk) as (p' & fd & Ep' & Hfds & Hpos & _); [by destruct Hid as (_ & _ & ?)|].
  apply wp_bind. eapply wp_deref; [exact Ep'|]. apply wp_bind. eapply wp_deref; [by apply one_fd|]. apply wp_ret.
  split; [done|]. split; [done|]. exists o2. split; [by exists e, k, fd0, o0, ps, ms|]. split; [done|]. exists i, p'. split; [congruence|]. by split.
Qed.
(** What [load_bpf_object_file] returns, for the attributes it passes. *)
Definition xdp_attr (filename : path) (ifindex : Z) : bpf_prog_load_attr := Prog_load_attr (Some filename) BPF_PROG_TYPE_XDP 0 ifindex 0 0.
Definition object_post (a : bpf_prog_load_attr) (s : bsys BK) (X : list Z) (r : option bpf_object) (s' : bsys BK) : Prop :=
  (forall f, f ∈ X -> obj_of (b_k s') f = obj_of (b_k s) f) /\
  match r with
  | None => own s' X \/ exists fd k, own s' (fd :: X) /\ elf_begin k fd = None
  | Some o' => exists o, prepared a o /\ load_done o o' X [] s' /\ handles o 0 <> []
  end.
Lemma wp_load_file p ix s X : own s X -> memory -> files_ok ->
  wp (load_bpf_object_file core kernel_btf release p ix) (object_post (xdp_attr p ix) s X) s.
Proof using BO LO Hkb.
  intros HO Hm Hf. unfold load_bpf_object_file. apply wp_bind. eapply wp_mono; [by apply (wp_load_xattr_file (xdp_attr p ix) p s X)|].
  intros [err [[o' fd]|]] s1 [Hob Hpost].
  - destruct Hpost as (-> & o & HP & HD & i & p' & Hi & _). cbn [negb Z.eqb]. apply wp_bind. eapply wp_deref; [reflexivity|]. apply wp_ret. split; [done|].
    exists o. split; [done|]. split; [done|]. by intros E; rewrite E in Hi.
  - destruct Hpost as (Hne & Hpost). rewrite (proj2 (Z.eqb_neq _ _)) by done. cbn [negb]. apply wp_ret. by split.
Qed.
End LoadRules.

(** ** Choosing a program *)

(** Program [i] of the object is the first one with that section name; an empty name is that
    of any program. *)
Definition chosen (o : bpf_object) (title : path) (i : nat) (p : bpf_program) : Prop :=
  keep o i /\ o_programs o !! i = Some p /\ (title = [] \/ p_section_name p = title) /\
  forall j q, (j < i)%nat -> keep o j -> o_programs o !! j = Some q -> title <> [] /\ p_section_name q <> title.
Definition none_chosen (o : bpf_object) (title : path) : Prop :=
  forall i q, keep o i -> o_programs o !! i = Some q -> title <> [] /\ p_section_name q <> title.
Lemma handles_before o : forall l1 k i l2, handles o k = l1 ++ i :: l2 -> (k <= length (o_programs o))%nat ->
  forall j, keep o j -> (k <= j < i)%nat -> j ∈ l1.
Proof.
  assert (Hin : forall j k, keep o j -> (k <= j)%nat -> j ∈ handles o k).
  { intros j k Hk Hj. unfold handles. apply list_elem_of_filter. split; [done|]. apply elem_of_seq. unfold keep in Hk.
    destruct (o_programs o !! j) eqn:E; [|done]. apply lookup_lt_Some in E. lia. }
  assert (Hge : forall j k, j ∈ handles o k -> (k <= j)%nat) by (intros j k (_ & H)%list_elem_of_filter; apply elem_of_seq in H; lia).
  induction l1 as [|a l1 IH]; intros k i l2 Hh Hk j Hj Hr; cbn [app] in Hh; destruct (handles_head o k _ _ Hk Hh) as [Ha Hl];
    pose proof (Hin j k Hj ltac:(lia)) as Hjk; rewrite Hh in Hjk; apply elem_of_cons in Hjk as [->|Hjk]; [lia| |by left|].
  - rewrite Hl in Hjk. apply Hge in Hjk. lia.
  - right. eapply (IH (S a) i l2); [done|lia|done|]. rewrite Hl in Hjk. apply Hge in Hjk. lia.
Qed.
Lemma first_chosen o : exists r, bpf_program__next o None = Some r /\
  match r with Some i => exists n p, i = Z.of_nat n /\ chosen o [] n p | None => none_chosen o [] end.
Proof.
  exists (Z.of_nat <$> head (handles o 0)). split; [exact (iter_loop_spec o (S (length (o_programs o))) 0 ltac:(lia) ltac:(lia))|].
  destruct (handles o 0) as [|i l] eqn:Eh; cbn [head fmap option_fmap option_map].
  - intros j q Hk _. pose proof (handles_keep o j Hk) as H. rewrite Eh in H. by apply elem_of_nil in H.
  - assert (Hk : keep o i) by (apply handle_iff; rewrite Eh; by left). unfold keep in Hk. destruct (o_programs o !! i) as [p|] eqn:Ep; [|done].
    exists i, p. split; [done|]. split; [by unfold keep; rewrite Ep|]. split; [done|]. split; [by left|]. intros j q Hj Hkj _.
    pose proof (handles_before o [] 0 i l Eh ltac:(lia) j Hkj ltac:(lia)) as H. by apply elem_of_nil in H.
Qed.
Lemma titled_chosen o title : title <> [] -> exists r, bpf_object__find_program_by_title o title = Some r /\
  match r with Some i => exists n p, i = Z.of_nat n /\ chosen o title n p | None => none_chosen o title end.
Proof.
  intros Ht. unfold bpf_object__find_program_by_title. rewrite for_each_program_visits. cbn [mbind option_bind].
  destruct (find_loop_first (fun i => o_programs o !! Z.to_nat i) (fun p => bool_decide (p_section_name p = title)) (Z.of_nat <$> handles o 0)) as (r & E & Hr).
  { intros i Hi. apply handles_range in Hi. destruct (lookup_lt_is_Some_2 (o_programs o) (Z.to_nat i)) as [p ->]; [lia|done]. }
  exists r. split; [done|]. destruct r as [i|].
  - destruct Hr as (l1 & l2 & p & El & Ep & Et & Hno). apply fmap_app_inv in El as (k1 & k2 & -> & E2 & Eh). symmetry in E2. apply fmap_cons_inv in E2 as (n & k3 & -> & -> & ->).
    rewrite Nat2Z.id in Ep. exists n, p. split; [done|]. apply bool_decide_eq_true in Et.
    assert (Hk : keep o n) by (apply handle_iff; rewrite Eh; apply list_elem_of_fmap; exists n; split; [done|]; apply elem_of_app; right; by left).
    split; [done|]. split; [done|]. split; [by right|]. intros j q Hj Hkj Eq. split; [done|]. specialize (Hno (Z.of_nat j) q). rewrite Nat2Z.id in Hno.
    apply (bool_decide_eq_false (p_section_name q = title)), Hno; [|done]. apply list_elem_of_fmap. exists j. split; [done|].
    by apply (handles_before o k1 0 n k3 Eh ltac:(lia) j Hkj ltac:(lia)).
  - intros i q Hk Eq. split; [done|]. specialize (Hr (Z.of_nat i) q). rewrite Nat2Z.id in Hr. apply (bool_decide_eq_false (p_section_name q = title)), Hr; [|done].
    by apply handle_iff.
Qed.

(** ** Loading and attaching *)

Section AttachRules.
Context {BK : BpfKernel} {BO : BpfKernelOk BK} {LE : Libelf BK} {LO : LibelfOk LE} {OS : Os}.
Context {NK : NlKernel} {LK : LinkKernel} {KO : LinkKernelOk} {XD : XdpDevices} {XO : XdpDevicesOk}.
Context (stack : list Z) (Hlen : length stack = BUFSIZE) (Hbytes : Forall is_u8 stack).
Context (core : bpf_object -> option path -> M (bsys BK) (Z * bpf_object)) (kernel_btf : Z + btf) (Hkb : kernel_btf_ok kernel_btf) (release : list Z).
Abbreviation L := (M (lsys BK NK)).

Lemma wp_on_bpf {A} (c : M (bsys BK) A) (P : A -> bsys BK -> Prop) (Q : A -> lsys BK NK -> Prop) (s : lsys BK NK) :
  wp c P (l_b s) -> (forall a b, c (l_b s) = Some (a, b) -> P a b -> Q a (Lsys b (l_nl s) (l_inbox s))) -> wp (on_bpf c) Q s.
Proof using.
  intros W H. apply wp_run in W as (a & b & E & HP). apply wp_run. exists a, (Lsys b (l_nl s) (l_inbox s)). split; [|by apply H]. unfold on_bpf. by rewrite E.
Qed.
Lemma wp_on_netlink {A} (c : M nlsys A) (Q : A -> lsys BK NK -> Prop) (b : bsys BK) k :
  wp c (fun a n => exists k', n = Nlsys k' (fds (b_sys b)) [] /\ Q a (Lsys b k' [])) (Nlsys k (fds (b_sys b)) []) -> wp (on_netlink c) Q (Lsys b k []).
Proof using.
  intros W. apply wp_run in W as (a & n & E & k' & -> & HQ). apply wp_run. exists a, (Lsys b k' []). split; [|done]. unfold on_netlink. cbn [l_b l_nl l_inbox]. rewrite E.
  cbn [n_fds n_kern n_inbox]. by destruct b as [? [] ?].
Qed.
Definition offload_ifindex (cfg : config) : Z := if negb (Z.land (xdp_flags cfg) XDP_FLAGS_HW_MODE =? 0) then ifindex cfg else 0.
(** With an object: it is the loaded file, and the device runs the program the configuration
    names, by its own descriptor, in the mode that the flags name.  Otherwise the devices are as
    before, or without the program of the opposite mode.  [attached] is that of LinkUser.v. *)
Definition attach_result (cfg : config) (file title : path) (X : list Z) (s : lsys BK NK) (r : Z + bpf_object * config) (s' : lsys BK NK) : Prop :=
  let done_with fd code := attached stack (fds (b_sys (l_b s'))) (l_nl s) (l_nl s') (ifindex cfg) (xdp_flags cfg) fd code in
  (forall j n, j <> ifindex cfg -> running (l_nl s') j n = running (l_nl s) j n) /\ l_inbox s' = [] /\
  match r with
  | inr (o', cfg') => exists o i p fd, prepared (xdp_attr file (offload_ifindex cfg)) o /\ load_done o o' X [] (l_b s') /\
      chosen o' title i p /\ p_fds p = [fd] /\ done_with fd EXIT_OK /\ cfg' = set_progsec cfg (strncpy (p_section_name p) 32)
  | inl code => code = EXIT_FAIL_BPF /\ l_nl s' = l_nl s \/ code = EXIT_FAIL_XDP /\ exists fd, done_with fd EXIT_FAIL_XDP
  end.
Lemma keep_loaded o o' X l s i : load_done o o' X l s -> Forall fresh_prog (o_programs o) -> keep o' i -> keep o i.
Proof using.
  intros (_ & _ & l2 & Eo & HS & HP & _ & HL) Hf Hk. unfold keep in *. destruct (o_programs o' !! i) as [p'|] eqn:Ep'; [|done].
  destruct (Forall2_lookup_r _ _ _ _ _ HL Ep') as (q & Eq & Hl). destruct (Forall2_lookup_r _ _ _ _ _ HS Eq) as (p & Ep & [S1 S2]).
  destruct (Forall2_lookup_r _ _ _ _ _ HP Eq) as (p1 & Ep1 & Hprep). assert (p1 = p) as -> by congruence. rewrite Ep.
  assert (Hidx : p_idx p' = p_idx p).
  { unfold prog_loaded in Hl. destruct (bpf_program__is_function_storage _ q); [congruence|]. rewrite Forall_lookup in Hf. destruct (Hf _ _ Ep) as [_ _ [_ F] _].
    destruct (Hl ltac:(congruence)) as (fd & _ & _ & _ & [S3 _]). congruence. }
  unfold bpf_program__is_function_storage in *. rewrite Eo, Hidx in Hk. exact Hk.
Qed.
Lemma prepared_idle a o : lf_log_level a = 0 -> files_ok -> prepared a o -> idle o.
Proof using.
  intros Hlv Hf (e & k & fd & o0 & ps & ms & Eb & Hop & -> & HM & Hl & Hps).
  destruct (opened_ready e o0 ps ms Hop ltac:(by eapply Hf) (configured_refit a e o0 ps Hlv Hop Hl Hps) HM) as (_ & _ & _ & H). exact H.
Qed.
Lemma wp_choose cfg o title (s : lsys BK NK) (Q : option Z -> lsys BK NK -> Prop) : c_str (progsec cfg) = Some title ->
  (forall n p, chosen o title n p -> Q (Some (Z.of_nat n)) s) -> (none_chosen o title -> Q None s) ->
  wp (if negb (getZ (progsec cfg) 0 =? 0) then let! t := deref (c_str (progsec cfg)) in deref (bpf_object__find_program_by_title o t) else deref (bpf_program__next o None)) Q s.
Proof using.
  intros Et H1 H2. destruct (progsec cfg) as [|b l] eqn:Ep; [done|]. change (getZ (b :: l) 0) with b. destruct (Z.eqb_spec b 0) as [->|Hb]; cbn [negb].
  - cbn in Et. injection Et as <-. destruct (first_chosen o) as (r & E & Hr). eapply wp_deref; [exact E|]. destruct r as [i|]; [|by apply H2].
    destruct Hr as (n & p & -> & Hc). by eapply H1.
  - apply wp_bind. eapply wp_deref; [exact Et|]. assert (Hne : title <> []). { cbn in Et. destruct b; [done| |]; (destruct (c_str l); [|done]); by injection Et as <-. }
    destruct (titled_chosen o title Hne) as (r & E & Hr). eapply wp_deref; [exact E|]. destruct r as [i|]; [|by apply H2]. destruct Hr as (n & p & -> & Hc). by eapply H1.
Qed.
Lemma wp_load_attach cfg pin_dir file title (s : lsys BK NK) X : own (l_b s) X -> memory -> files_ok -> l_inbox s = [] ->
  int32 (ifindex cfg) -> is_u32 (xdp_flags cfg) -> reuse_maps cfg = false -> c_str (filename cfg) = Some file -> c_str (progsec cfg) = Some title ->
  (forall r b, load_bpf_object_file core kernel_btf release file (offload_ifindex cfg) (l_b s) = Some (r, b) ->
     forall f, f ∈ fds (b_sys b) -> f < 2147483648) ->
  wp (load_bpf_and_xdp_attach stack core kernel_btf release cfg pin_dir) (attach_result cfg file title X s) s.
Proof using BO LO Hkb Hlen Hbytes XO KO.
  intros HO Hm Hf Hin Hi Hfl Hre Ef Et Hfd. unfold load_bpf_and_xdp_attach. fold (offload_ifindex cfg). apply wp_bind. eapply wp_deref; [exact Ef|]. rewrite Hre. apply wp_bind.
  eapply wp_on_bpf; [by apply (wp_load_file core kernel_btf Hkb release file (offload_ifindex cfg) (l_b s) X)|]. intros r b E [_ Hpost]. specialize (Hfd r b E).
  assert (Hbpf : forall b, wp (ret (inl EXIT_FAIL_BPF)) (attach_result cfg file title X s) (Lsys b (l_nl s) (l_inbox s))) by (intros b0; apply wp_ret; split; [done|]; split; [done|by left]).
  destruct r as [o'|]; [|apply Hbpf]. destruct Hpost as (o & HP & HD & _). apply wp_bind. apply (wp_choose cfg o' title); [done| |intros _; apply Hbpf].
  intros n p Hch. pose proof Hch as (Hk & Ep & _). rewrite Nat2Z.id. apply wp_bind. eapply wp_deref; [exact Ep|]. cbn [set_progsec ifindex xdp_flags Params.set_strings].
  pose proof (prepared_idle (xdp_attr file (offload_ifindex cfg)) o eq_refl Hf HP) as (_ & _ & Hfresh).
  destruct (loaded_program o o' X [] b n HD (keep_loaded _ _ _ _ _ _ HD Hfresh Hk) Hfresh) as (p' & fd & Ep' & Hfds & Hpos & _). assert (p' = p) as -> by congruence.
  apply wp_bind. eapply wp_deref; [by apply one_fd|]. destruct (Z.leb_spec fd 0); [apply Hbpf|]. apply wp_bind. rewrite Hin. apply wp_on_netlink.
  assert (Hin' : fd ∈ fds (b_sys b)).
  { destruct HD as [[Hb _] _]. unfold bhas in Hb. rewrite Hb. apply elem_of_app. left. unfold obj_fds. apply elem_of_app. right. unfold progs_fds.
    apply list_elem_of_In, in_concat. exists (prog_fds p). split; [apply in_map; apply list_elem_of_In; by eapply list_elem_of_lookup_2|]. apply list_elem_of_In. unfold prog_fds. rewrite Hfds.
    cbn. rewrite fd_list_pos by lia. by left. }
  eapply wp_mono; [apply (wp_attach stack Hlen Hbytes (fds (b_sys b)))|].
  - done.
  - pose proof (Hfd fd Hin'). lia.
  - done.
  - intros res n2 (k' & -> & Hcase). exists k'. split; [done|]. unfold attach_result. cbv zeta. cbn [l_b l_nl l_inbox].
    assert (Hoth : forall j m, j <> ifindex cfg -> running k' j m = running (l_nl s) j m) by (intros j m Hj; by eapply attached_others).
    pose proof Hcase as [[-> _]|[-> _]].
    + change (negb (EXIT_OK =? 0)) with false. cbv iota. apply wp_ret. split; [done|]. split; [done|]. exists o, n, p, fd. by repeat (split; [done|]).
    + change (negb (EXIT_FAIL_XDP =? 0)) with true. cbv iota. apply wp_ret. split; [done|]. split; [done|]. right. split; [done|]. by exists fd.
Qed.
End AttachRules.

(** ** The theorems *)

(** C4: A program gets onto its device.  For object files without type information (no section
    .BTF) that are well formed where the code does not check them, while memory lasts, and if
    descriptors are ints, [load_bpf_and_xdp_attach] without reuse of maps returns or exits.  If it
    returns, all programs and maps of the file are loaded: each program was given the type XDP,
    relocated, and granted by the kernel a descriptor of its own; and the device runs the
    first program whose section is the configured one, or the first program if none is
    configured, in the mode that the flags name if they name one.  If it exits with
    EXIT_FAIL_BPF no device has changed; with EXIT_FAIL_XDP the device is as before, or the
    program of the opposite mode is gone, which happens only if the kernel answered the first
    request with -EEXIST and the flags allow to replace.  Other devices never change. *)
Theorem load_and_attach `{BO : BpfKernelOk} (LE : Libelf BK) (LO : LibelfOk LE) (OS : Os) `{KO : LinkKernelOk} (XD : XdpDevices) (XO : XdpDevicesOk)
    (stack : list Z) (core : bpf_object -> option path -> M (bsys BK) (Z * bpf_object)) (kernel_btf : Z + btf) (release : list Z)
    (cfg : config) (pin_dir file title : path) (s : lsys BK _) (X : list Z) :
  length stack = BUFSIZE -> Forall is_u8 stack -> kernel_btf_ok kernel_btf -> own (l_b s) X -> memory -> files_ok -> l_inbox s = [] ->
  int32 (ifindex cfg) -> is_u32 (xdp_flags cfg) -> reuse_maps cfg = false -> c_str (filename cfg) = Some file -> c_str (progsec cfg) = Some title ->
  (forall r b, load_bpf_object_file core kernel_btf release file (offload_ifindex cfg) (l_b s) = Some (r, b) ->
     forall f, f ∈ fds (b_sys b) -> f < 2147483648) ->
  exists r s', load_bpf_and_xdp_attach stack core kernel_btf release cfg pin_dir s = Some (r, s') /\ attach_result stack cfg file title X s r s'.
Proof.
  intros H1 H2 H4 H5 H6 H7 H8 H9 H10 H11 H12 H13 H14.
  exact (proj1 (wp_run _ _ _) (wp_load_attach stack H1 H2 core kernel_btf H4 release cfg pin_dir file title s X H5 H6 H7 H8 H9 H10 H11 H12 H13 H14)).
Qed.

(** The file of Elf.v on the device of LinkUser.v. *)
#[local] Existing Instance demo_os.
#[local] Existing Instance one_devices.
Lemma demo_files_ok : files_ok (LE := demo_elf).
Proof.
  split; [intros k fd e ep [= <-] [= <-]; exact demo_file_ok|]. intros k fd e [= <-].
  assert (Hx : forall x, rel_section (LE := demo_elf) demo_file x -> s32 (sh_info x.1) = 4 /\ x.2 = Data (Some (le_bytes 8 0 ++ le_bytes 4 1 ++ le_bytes 4 1)) 16).
  { intros [sh d] (i & H & Ht & Hd). cbn [fst snd] in *. each_section H; try done. vm_compute in Hd. by injection Hd as <-. }
  split.
  - intros x t b i j ri rj insn Hr _ _ Hij Hi Hj _. destruct (Hx x Hr) as [_ E]. rewrite E in Hi, Hj. exfalso. apply Hij.
    assert (H0 : forall i r, gelf_getrel (Libelf := demo_elf) (Data (Some (le_bytes 8 0 ++ le_bytes 4 1 ++ le_bytes 4 1)) 16) i = Some r -> i = 0).
    { intros z r. cbn [gelf_getrel bytes_elf]. unfold entry. cbn [d_buf mbind option_bind]. change (lenZ _) with 16. destruct (_ && _)%bool eqn:Eb; [|done]. lia. }
    rewrite (H0 i ri Hi), (H0 j rj Hj). done.
  - intros x t b i ri insn Hr Ht Hb Hi _ _. destruct (Hx x Hr) as [E4 E]. rewrite E in Hi. rewrite E4 in Ht. apply demo_rel in Hi as ->. vm_compute in Ht. injection Ht as <-.
    injection Hb as <-. by vm_compute.
Qed.
Definition loader_config : config := Params.set_strings (set_dev demo_config (strncpy (str "v1") 16) 2) (strncpy (str "demo.o") 512) (strncpy (str "xdp") 32) [] [].
Definition loader_state : lsys table_kernel one_kernel := Lsys table_state no_programs [].
Lemma load_and_attach_witness : exists o' cfg' s',
  load_bpf_and_xdp_attach (LE := demo_elf) (repeat 0xff BUFSIZE) no_core (inl (-2)) [53; 46; 51] loader_config [] loader_state = Some (inr (o', cfg'), s') /\
  running (l_nl s') 2 4 = Some 4 /\ map p_fds (o_programs o') = [[4]] /\ map m_fd (o_maps o') = [3].
Proof.
  destruct (load_and_attach (BO := table_kernel_ok) demo_elf (bytes_elf_ok _ _) demo_os (KO := one_kernel_ok) one_devices one_devices_ok
    (repeat 0xff BUFSIZE) no_core (inl (-2)) [53; 46; 51] loader_config [] (str "demo.o") (str "xdp") loader_state [0; 1; 2]) as (r & s' & E & _ & _ & HP).
  - apply repeat_length.
  - exact ff_bytes.
  - by intros b [=].
  - exact demo_own.
  - done.
  - exact demo_files_ok.
  - done.
  - done.
  - done.
  - done.
  - vm_compute. reflexivity.
  - vm_compute. reflexivity.
  - intros r b E f Hf. vm_compute in E. injection E as <- <-. cbn [b_sys fds] in Hf. rewrite !elem_of_cons, elem_of_nil in Hf.
    decompose [or] Hf; subst; done.
  - assert (Hv : match load_bpf_and_xdp_attach (LE := demo_elf) (repeat 0xff BUFSIZE) no_core (inl (-2)) [53; 46; 51] loader_config [] loader_state with
      | Some (inr (o', _), _) => (map p_fds (o_programs o'), map m_fd (o_maps o')) | _ => ([], []) end = ([[4]], [3])) by (vm_compute; reflexivity).
    rewrite E in Hv. destruct r as [c|[o' cfg']]; [done|]. injection Hv as Hp Hm. exists o', cfg', s'. split; [exact E|]. split; [|exact (conj Hp Hm)].
    destruct HP as (o & i & p & fd & _ & _ & (_ & Ep & _) & Hfd & Hatt & _). assert (E4 : [[4]] !! i = Some (p_fds p)) by (rewrite <- Hp, list_lookup_fmap, Ep; done).
    destruct i; [|done]. rewrite Hfd in E4. injection E4 as <-. destruct Hatt as [(_ & m & Hmode & [Hr|(_ & k1 & _ & Hr)])|[[=] _]];
      (rewrite Hr, decide_True; [done|]; split; [done|]; symmetry; apply Hmode; [right; by left|done]).
Defined.
