(* ===== verification/Switch.v ===== *)
(** * The AF_XDP programs: switchtsn/af_xdp_user.c and its variants

    [main] of the switch after its command line is parsed: it may load a program of its own
    (Loader.v), creates the packet memory and the socket (Configure.v), runs the poll loop
    (Datapath.v) and gives everything back (XskResources.v, LinkUser.v).  A process has one
    table of descriptors, which all of these share; the system of Os, the BPF kernel and the
    devices of netlink are three parameters that share nothing else.  The statistics thread only reads the
    counters; its output is a function of the readings.  The theorems join the layers. *)

From Stdlib Require Import String.
From S2P Require Import Prelude Ring AfXdp AfXdpInv AfXdpSafe Datapath SharedUmem BpfProg Os XskCreate XskResources Configure Params Netlink LinkUser Btf Object RedirectUser Pinning BpfSys Elf OpenMaps BtfLoad ObjOpen ObjLoad SecNames Loader.
#[local] Open Scope Z_scope.
#[local] Open Scope prog_scope.

Definition EXIT_FAILURE : Z := 1.

(** ** The statistics thread *)

(** The operands of one printed line: the total and the difference to the previous reading, of
    packets and of bytes, and the period, here in nanoseconds, that the differences are divided
    by in floating point. *)
Record stats_line := Line { ln_total : Z; ln_packets : Z; ln_kbytes : Z; ln_bits : Z; ln_period : Z }.
Definition NANOSEC_PER_SEC : Z := 1000000000.
Definition calc_period (r p : stats_record) : Z := u64 (timestamp r - timestamp p).
Definition stats_print (rec prev : stats_record) : stats_line * stats_line :=
  let period := if calc_period rec prev =? 0 then NANOSEC_PER_SEC else calc_period rec prev in
  (Line (st_rx_packets rec) (u64 (st_rx_packets rec - st_rx_packets prev)) (st_rx_bytes rec / 1000) (u64 (u64 (st_rx_bytes rec - st_rx_bytes prev) * 8)) period,
   Line (st_tx_packets rec) (u64 (st_tx_packets rec - st_tx_packets prev)) (st_tx_bytes rec / 1000) (u64 (u64 (st_tx_bytes rec - st_tx_bytes prev) * 8)) period).
(** The loop: what [xsk->stats] holds in each turn, with the time of the turn.  The first [prev] is
    zero but for the time of the start. *)
Fixpoint stats_poll (prev : stats_record) (readings : list stats_record) : list (stats_line * stats_line) :=
  match readings with
  | [] => []
  | r :: readings => stats_print r prev :: stats_poll r readings
  end.

(** [cfg->ifindex = i]: the name of the device stays. *)
Definition set_index (c : config) (i : Z) : config :=
  Config (Params.xdp_flags c) i (ifname c) (redirect_ifindex c) (redirect_ifname c) (do_unload c) (reuse_maps c) (filename c) (progsec c)
    (src_mac c) (dest_mac c) (xsk_bind_flags c) (xsk_if_queue c) (xsk_poll_mode c) (verbose c).

Section Main.
Context {BK : BpfKernel} {LE : Libelf BK} {OS : Os} {NK : NlKernel} {XK : XskKernel} (stack : list Z).
Context (core : bpf_object -> option path -> M (bsys BK) (Z * bpf_object)) (kernel_btf : Z + btf) (release : list Z).
Abbreviation L := (M (lsys BK NK)).
Definition on_os {A} (c : M sys A) : L A := fun s =>
  let b := l_b s in
  match c (b_sys b) with
  | Some (a, p) => Some (a, Lsys (Bsys _ (b_k b) p (b_cpus b)) (l_nl s) (l_inbox s))
  | None => None
  end.
(** The loop runs on the structure of the socket. *)
Definition on_world {A} (c : M world A) (w : world) : L world := match c w with Some (_, w) => ret w | None => fault end.

(** Load custom program if configured: the exit code, or the configuration.  The pin directory
    is empty. *)
Definition load_custom (cfg : config) : L (Z + config) :=
  if getZ (filename cfg) 0 =? 0 then ret (inr cfg)
  else
    let! r := load_bpf_and_xdp_attach stack core kernel_btf release cfg [] in
    match r with
    | inl code => ret (inl code)
    | inr (o, cfg) =>
        let! m := deref (bpf_object__find_map_by_name o (str "xsks_map")) in
        let! xsks_map_fd := match m with
                            | None => ret (bpf_map__fd None)
                            | Some i => let! m := deref (o_maps o !! Z.to_nat i) in ret (bpf_map__fd (Some m))
                            end in
        ret (if xsks_map_fd <? 0 then inl EXIT_FAILURE else inr cfg)
    end.
(** From setrlimit to [configure_xsk_umem]; [posix_memalign] is an allocation. *)
Definition umem_area : L (option xsk_umem) :=
  let! r := on_os (sys_do Setrlimit_memlock) in
  if negb (r =? 0) then ret None
  else
    let! packet_buffer := on_os calloc in
    match packet_buffer with
    | None => ret None
    | Some packet_buffer => on_os (configure_xsk_umem packet_buffer (NUM_FRAMES * FRAME_SIZE))
    end.
(** Start thread to do statistics display: whether the program goes on.  Only whether the code
    is 0 matters. *)
Definition start_stats (cfg : config) : L bool :=
  if verbose cfg then let! ret_ := on_os (sys_do Pthread_create) in ret (ret_ =? 0) else ret true.

(** The first half, the text of all the programs: [inl] is the exit code of a run that ends
    here, [inr] the configuration, the socket information with its socket, and the umem. *)
Definition start_up (cfg : config) : L (Z + config * (world * xsk_socket) * xsk_umem) :=
  if ifindex cfg =? -1 then ret (inl EXIT_FAIL_OPTION)
  else if do_unload cfg then let! r := on_netlink (xdp_link_detach stack (ifindex cfg) (Params.xdp_flags cfg) 0) in ret (inl r)
  else
    let! r := load_custom cfg in
    match r with
    | inl code => ret (inl code)
    | inr cfg =>
        let! umem := umem_area in
        match umem with
        | None => ret (inl EXIT_FAILURE)
        | Some umem =>
            let! (xsk_socket, umem) := on_os (xsk_configure_socket cfg umem) in
            ret (match xsk_socket with None => inl EXIT_FAILURE | Some x => inr (cfg, x, umem) end)
        end
    end.
(** af_xdp_user.c.  [inl] is the exit code of a run that does not reach the loop, [inr] is
    EXIT_OK with what the loop has left.  [polls] are the turns of the loop. *)
Definition main_user (fuel : nat) (polls : list Z) (cfg : config) : L (Z + world) :=
  let! r := start_up cfg in
  match r with
  | inl code => ret (inl code)
  | inr (cfg, (w, xsk), umem) =>
      let! ok := start_stats cfg in
      if negb ok then ret (inl EXIT_FAILURE)
      else
        let! w := on_world (rx_and_process fuel (xsk_poll_mode cfg) polls) w in
        let! umem := on_os (xsk_socket__delete (Some xsk) umem) in
        let! _ := on_os (xsk_umem__delete (Some umem)) in
        let! _ := on_netlink (xdp_link_detach stack (ifindex cfg) (Params.xdp_flags cfg) 0) in
        ret (inr w)
  end.
(** af_xdp_david_new.c: the thread is the program above for the device with the index 4; the
    name of the device stays that of the command line.  [inr] is EXIT_OK with the result of
    the thread. *)
Definition thread_func (fuel : nat) (polls : list Z) (cfg : config) : L (Z + world) := main_user fuel polls cfg.
Definition main_david_new (fuel : nat) (polls : list Z) (cfg : config) : L (Z + (Z + world)) :=
  let right := set_index cfg 4 in
  let! r := on_os (sys_do Pthread_create) in
  if negb (r =? 0) then ret (inl EXIT_FAILURE) else let! x := thread_func fuel polls right in ret (inr x).
(** af_xdp_david_shared.c and af_xdp_user_david.c up to their second socket, on the umem of the
    first: [inl] is the exit code, [inr] says that the second socket is there.  The second
    configuration has the index [i] and, like every field without an initializer, a null
    [ifname]. *)
Definition right_config (cfg : config) (i : Z) : config :=
  Config 0 i None 0 None false false (strncpy [] 512) (strncpy (str "xdp_sock") 32) (strncpy [] 18) (strncpy [] 18) 0 0 false (verbose cfg).
Definition two_sockets (cfg right : config) : L (Z + (world * xsk_socket) * (world * xsk_socket) * xsk_umem) :=
  let! r := start_up cfg in
  match r with
  | inl code => ret (inl code)
  | inr (_, xsk_socket, umem) =>
      let! (right_socket, umem) := on_os (xsk_configure_socket right umem) in
      ret (match right_socket with None => inl EXIT_FAILURE | Some x => inr (xsk_socket, x, umem) end)
  end.
Definition main_david_shared (cfg : config) := two_sockets cfg (right_config cfg 11).
Definition main_user_david (cfg : config) := two_sockets cfg (right_config cfg 4).
End Main.

(** ** Proofs *)

Section InUse.
Context {OS : Os} {OO : OsOk OS} {XK : XskKernel} {XO : XskKernelOk XK}.
(** What the process owns while the loop runs, on top of [F], [Mp] and [Hp]: the umem, whose
    one socket is [x], and three blocks no library owns (the packet buffer and the two
    structures of the program). *)
Definition in_use (u : xsk_umem) (x : xsk_socket) (F : list Z) (Mp : list (Z * Z)) (Hp : list Z) (s : sys) : Prop :=
  exists off b p q, reported (um_fd u) off /\
    let fill := mapping (um_fill u) (off_fr off) (fill_size (um_config u)) sizeof_u64 in
    let comp := mapping (um_comp u) (off_cr off) (comp_size (um_config u)) sizeof_u64 in
    um_refcount u = 0 /\ (um_ptr u ∉ p :: b :: Hp) /\ (um_fd u ∉ F) /\ (fill ∉ Mp) /\ (comp ∉ fill :: Mp) /\ q <> um_ptr u /\
    owns_sock u x (um_fd u :: F) (comp :: fill :: Mp) (q :: um_ptr u :: p :: b :: Hp) s.
(** What is left when the program ends: the three blocks.  The descriptors [L] are those of
    maps of an earlier program of the device. *)
Definition given_back (F : list Z) (Mp : list (Z * Z)) (Hp : list Z) (s : sys) : Prop :=
  exists L b p q, (L ## F) /\ (L = [] \/ exists x, XskResources.attached x) /\ has s (L ++ F) Mp (q :: p :: b :: Hp).

Lemma in_use_same u x F Mp Hp s s' : in_use u x F Mp Hp s -> (forall F Mp Hp, has s F Mp Hp -> has s' F Mp Hp) -> in_use u x F Mp Hp s'.
Proof using.
  intros (off & b & p & q & H1 & H2 & H3 & H4 & H5 & H6 & H7 & HO) Hs. exists off, b, p, q. repeat (split; [done|]). by eapply owns_sock_same.
Qed.
(** The umem with its packet buffer, and the first socket on it. *)
Definition area (u : xsk_umem) (F : list Z) (Mp : list (Z * Z)) (Hp : list Z) (s : sys) : Prop :=
  umem_set_up u /\ exists b p, owns_umem u F Mp (p :: b :: Hp) s.
Lemma wp_first_socket cfg u F Mp Hp s : ifname cfg <> None -> area u F Mp Hp s ->
  wp (xsk_configure_socket cfg u) (fun r s' => match r with (Some (w, x), u') => idle_inv w /\ u' = set_refcount u 1 /\ in_use u x F Mp Hp s' | _ => True end) s.
Proof using OO XO.
  intros Hn (Hu & b & p & off & Hr & Hp1 & Hf & Hf0 & Hm1 & Hm2 & HS). eapply wp_mono; [by eapply wp_configure_socket|].
  intros [[[w x]|] u'] s2; [|done]. intros (Hi & -> & q & Hq & HO & _). destruct Hu as [Hu _]. split; [done|]. split; [by rewrite Hu|].
  exists off, b, p, q. repeat (split; [done|]). split; [|done]. intros ->. apply Hq. left.
Qed.
(** The second one never comes to be. *)
Lemma wp_second_socket cfg u s : um_refcount u <> 0 -> wp (xsk_configure_socket cfg u) (fun r _ => r = (None, u)) s.
Proof using OO.
  intros Hu. assert (HS : has s (fds s) (maps s) (heap s)) by done. unfold xsk_configure_socket. os_steps; [|done].
  eapply wp_mono; [eapply wp_shared_umem_refused; [eassumption|done|by left|done|done]|].
  intros ? s1 (err & -> & He & HS1). unfold deref. os_steps. replace (err =? 0) with false by (destruct He; subst; done). cbn [negb]. by wp_steps.
Qed.
(** The end: the socket and then the umem are deleted. *)
Context (layout_stable : forall fd off off', reported fd off -> reported fd off' -> off = off') (tells : forall fd, ~ XskResources.refused fd).
Lemma wp_give_back u x F Mp Hp s : in_use u x F Mp Hp s ->
  wp (let! u := xsk_socket__delete (Some x) (set_refcount u 1) in xsk_umem__delete (Some u)) (fun r s' => r = 0 /\ given_back F Mp Hp s') s.
Proof using OO layout_stable tells.
  intros (off & b & p & q & Hr & Hu & Hp1 & Hf & Hm1 & Hm2 & Hq & HO). apply wp_bind. replace 1 with (um_refcount u + 1) by lia.
  eapply wp_mono; [eapply wp_socket_delete; [exact layout_stable|lia|left|exact HO]|]. intros u' s1 (-> & L & HL & HLx & [HS|[[]%tells _]]).
  assert (Hd : um_fd u ∉ L ++ F) by (rewrite elem_of_app; intros [?|?]; [by apply (HL (um_fd u)); [|left]|done]).
  assert (HS1 : has s1 (um_fd u :: L ++ F) (mapping (um_comp u) (off_cr off) (comp_size (um_config u)) sizeof_u64 :: mapping (um_fill u) (off_fr off) (fill_size (um_config u)) sizeof_u64 :: Mp)
    (q :: um_ptr u :: p :: b :: Hp)) by (rewrite Permutation_middle; exact HS).
  eapply wp_mono; [by eapply wp_umem_delete_in|]. intros r s2 (-> & [HS2|[[]%tells _]]). split; [done|].
  exists L, b, p, q. split; [by intros y Hy ?; apply (HL y); [|right]|]. split; [destruct HLx; [by left|right; by eexists]|].
  rewrite filter_cons_True, filter_cons_False in HS2 by (done || naive_solver). by rewrite filter_all in HS2 by (intros y Hy ->; done).
Qed.
End InUse.

(** A search for a map ends, and finds one with the name. *)
Lemma find_map_safe o name : exists r, bpf_object__find_map_by_name o name = Some r /\
  forall i, r = Some i -> exists m, o_maps o !! Z.to_nat i = Some m /\ m_name m = name.
Proof.
  unfold bpf_object__find_map_by_name. rewrite for_each_map_visits. cbn [mbind option_bind].
  destruct (find_loop_first (fun i => o_maps o !! Z.to_nat i) (fun m => bool_decide (m_name m = name)) (Z.of_nat <$> seq 0 (length (o_maps o)))) as (r & E & Hr).
  { intros i (j & -> & Hj)%list_elem_of_fmap. apply elem_of_seq in Hj. rewrite Nat2Z.id. destruct (lookup_lt_is_Some_2 (o_maps o) j) as [m ->]; [lia|done]. }
  exists r. split; [exact E|]. intros i ->. destruct Hr as (_ & _ & m & _ & Em & Ht & _). exists m. split; [done|]. by apply bool_decide_eq_true in Ht.
Qed.

Section Runs.
Context {BK : BpfKernel} {BO : BpfKernelOk BK} {LE : Libelf BK} {LO : LibelfOk LE} {OS : Os} {OO : OsOk OS} {XK : XskKernel} {XO : XskKernelOk XK}.
Context {NK : NlKernel} {LK : LinkKernel} {KO : LinkKernelOk} {XD : XdpDevices} {XDO : XdpDevicesOk}.
Context (stack : list Z) (Hlen : length stack = BUFSIZE) (Hbytes : Forall is_u8 stack).
Context (core : bpf_object -> option path -> M (bsys BK) (Z * bpf_object)) (kernel_btf : Z + btf) (Hkb : kernel_btf_ok kernel_btf) (release : list Z).
(** No two devices of the kernel have the same index. *)
Context (indices_differ : forall k, NoDup (map l_index (links k))).
(** The state with another process state. *)
Definition with_sys (s : lsys BK NK) (p : sys) : lsys BK NK := Lsys (Bsys _ (b_k (l_b s)) p (b_cpus (l_b s))) (l_nl s) (l_inbox s).
Definition the_sys (s : lsys BK NK) : sys := b_sys (l_b s).
Lemma wp_on_os {A} (c : M sys A) (Q : A -> lsys BK NK -> Prop) s : wp c (fun a p => Q a (with_sys s p)) (the_sys s) -> wp (on_os c) Q s.
Proof using. unfold wp, on_os, the_sys, with_sys. cbv zeta. by destruct (c (b_sys (l_b s))) as [[a p]|]. Qed.
(** The same, where the caller keeps what is not the process. *)
Lemma wp_on_os_frame {A} (c : M sys A) (Q : A -> sys -> Prop) s :
  wp c Q (the_sys s) -> wp (on_os c) (fun a s' => Q a (the_sys s') /\ s' = with_sys s (the_sys s')) s.
Proof using. intros W. apply wp_on_os. eapply wp_mono; [exact W|]. by intros a p HQ. Qed.
Lemma with_sys_idem s p q : with_sys (with_sys s p) q = with_sys s q.
Proof using. done. Qed.

Lemma wp_umem_area s F Mp Hp : has (the_sys s) F Mp Hp ->
  wp umem_area (fun r s' => s' = with_sys s (the_sys s') /\ match r with Some u => area u F Mp Hp (the_sys s') | None => True end) s.
Proof using OO.
  intros HS. unfold umem_area. apply wp_bind. eapply wp_mono.
  { apply wp_on_os_frame. eapply (wp_do _ F Mp Hp HS _ (fun _ p => has p F Mp Hp)); by intros. }
  intros r s1 [HS1 E1]. destruct (negb _); [by apply wp_ret|]. apply wp_bind. eapply wp_mono.
  { apply wp_on_os_frame. eapply (wp_calloc _ F Mp Hp HS1 (fun r p => match r with Some b => has p F Mp (b :: Hp) | None => True end)); by intros. }
  intros [b|] s2 [HS2 E2]; rewrite E1, with_sys_idem in E2; [|by apply wp_ret].
  eapply wp_mono; [by apply wp_on_os_frame, wp_configure_umem|].
  intros r3 s3 [H3 E3]. rewrite E2, with_sys_idem in E3. split; [done|]. destruct r3 as [u|]; [|done]. destruct H3 as (Hu & p & HO & _). split; [done|]. by exists b, p.
Qed.

(** ** Runs *)

(** The exit code of a run that does not reach the loop; the codes of Loader.v are only for a
    configured program. *)
Definition stops (cfg : config) (code : Z) : Prop :=
  ifindex cfg = -1 /\ code = EXIT_FAIL_OPTION \/
  ifindex cfg <> -1 /\ do_unload cfg = true /\ (code = EXIT_OK \/ code = EXIT_FAIL_XDP) \/
  ifindex cfg <> -1 /\ do_unload cfg = false /\
    (code = EXIT_FAILURE \/ getZ (filename cfg) 0 <> 0 /\ (code = EXIT_FAIL_BPF \/ code = EXIT_FAIL_XDP)).
(** What the netlink functions need of the device and of the state. *)
Definition device_ok (cfg : config) (s : lsys BK NK) : Prop :=
  int32 (ifindex cfg) /\ ifindex cfg <> 0 /\ is_u32 (Params.xdp_flags cfg) /\ l_inbox s = [].
Lemma wp_detach cfg s : device_ok cfg s ->
  wp (on_netlink (xdp_link_detach stack (ifindex cfg) (Params.xdp_flags cfg) 0)) (fun r s' => (r = EXIT_OK \/ r = EXIT_FAIL_XDP) /\ l_b s' = l_b s) s.
Proof using KO XDO Hlen Hbytes indices_differ.
  intros (Hi & Hi0 & Hfl & Hin). destruct s as [b k i]. cbn [l_b l_nl l_inbox] in *. subst i. apply wp_on_netlink.
  eapply wp_mono; [by eapply detach_spec|]. intros r n (k' & -> & H). exists k'. split; [done|]. split; [|done].
  cbv zeta in H. destruct H as [[-> _]|[(_ & H0 & _)|[[-> _]|[-> _]]]]; [by left|by destruct H0|by left|by right].
Qed.
(** What loading a configured program needs: the conditions of Loader.v. *)
Definition custom_ok (cfg : config) (s : lsys BK NK) : Prop :=
  reuse_maps cfg = false /\ memory /\ files_ok /\
  exists file title, c_str (filename cfg) = Some file /\ c_str (progsec cfg) = Some title /\
    forall r b, load_bpf_object_file core kernel_btf release file (offload_ifindex cfg) (l_b s) = Some (r, b) ->
      forall f, f ∈ fds (b_sys b) -> f < 2147483648.
(** The start: the open descriptors are [X]. *)
Definition ready (cfg : config) (s : lsys BK NK) (X : list Z) : Prop :=
  own (l_b s) X /\ device_ok cfg s /\ ifname cfg <> None /\ (getZ (filename cfg) 0 <> 0 -> custom_ok cfg s).
(** After the load: nothing has happened if no program is configured.  Otherwise the object is
    loaded, one of its programs runs on the device, and it has a map for the sockets; [O] are
    its descriptors, which stay open until the process ends. *)
Definition custom_loaded (cfg : config) (s : lsys BK NK) (X : list Z) (cfg' : config) (s1 : lsys BK NK) (O : list Z) : Prop :=
  getZ (filename cfg) 0 = 0 /\ cfg' = cfg /\ s1 = s /\ O = [] \/
  getZ (filename cfg) 0 <> 0 /\ exists file title o m, c_str (filename cfg) = Some file /\ c_str (progsec cfg) = Some title /\
    attach_result stack cfg file title X s (inr (o, cfg')) s1 /\ O = obj_fds o /\
    m ∈ o_maps o /\ m_name m = str "xsks_map" /\ 0 <= m_fd m.
Lemma wp_load_custom cfg s X : ready cfg s X ->
  wp (load_custom stack core kernel_btf release cfg) (fun r s1 => match r with
    | inl code => code = EXIT_FAILURE \/ getZ (filename cfg) 0 <> 0 /\ (code = EXIT_FAIL_BPF \/ code = EXIT_FAIL_XDP)
    | inr cfg' => exists O, custom_loaded cfg s X cfg' s1 O /\ own (l_b s1) (O ++ X) /\ device_ok cfg' s1 /\ ifname cfg' <> None
    end) s.
Proof using BO LO Hkb Hlen Hbytes XDO KO.
  intros (HO & Hd & Hn & Hc). unfold load_custom. destruct (Z.eqb_spec (getZ (filename cfg) 0) 0) as [Hf|Hf].
  { apply wp_ret. exists []. split; [by left|]. done. }
  destruct (Hc Hf) as (Hre & Hm & Hfiles & file & title & Ef & Et & Hfd). pose proof Hd as (Hi & Hi0 & Hfl & Hin). apply wp_bind.
  eapply wp_mono; [by apply (wp_load_attach stack Hlen Hbytes core kernel_btf Hkb release cfg [] file title s X)|].
  intros [code|[o cfg']] s1 HA; [apply wp_ret; right; split; [done|]; destruct HA as (_ & _ & [[-> _]|[-> _]]); auto|].
  destruct (find_map_safe o (str "xsks_map")) as (r & Er & Hr). apply wp_bind. eapply wp_deref; [exact Er|].
  destruct r as [i|]; [|by apply wp_bind, wp_ret, wp_ret; left]. destruct (Hr i eq_refl) as (m & Em & Hname).
  apply wp_bind, wp_bind. eapply wp_deref; [exact Em|]. apply wp_ret. apply wp_ret. cbn [bpf_map__fd]. destruct (Z.ltb_spec (m_fd m) 0); [by left|].
  exists (obj_fds o). assert (HL : custom_loaded cfg s X cfg' s1 (obj_fds o)).
  { right. split; [done|]. exists file, title, o, m. repeat (split; [done|]). split; [by eapply list_elem_of_lookup_2|done]. }
  split; [exact HL|]. destruct HA as (_ & Hin1 & o1 & j & p & fd & _ & [HO1 _] & _ & _ & _ & ->). split; [exact HO1|]. by split.
Qed.
Lemma own_has (s : lsys BK NK) X : own (l_b s) X -> has (the_sys s) X (maps (the_sys s)) (heap (the_sys s)).
Proof using. by intros [HF _]. Qed.
Lemma wp_start_up cfg s X : ready cfg s X ->
  wp (start_up stack core kernel_btf release cfg) (fun r s' => match r with
    | inl code => stops cfg code
    | inr (c, (w, x), u') => ifindex cfg <> -1 /\ do_unload cfg = false /\ idle_inv w /\ exists s1 O u, custom_loaded cfg s X c s1 O /\ s' = with_sys s1 (the_sys s') /\
        device_ok c s' /\ u' = set_refcount u 1 /\ in_use u x (O ++ X) (maps (the_sys s1)) (heap (the_sys s1)) (the_sys s')
    end) s.
Proof using BO LO Hkb KO XDO Hlen Hbytes OO XO indices_differ.
  intros HR. unfold start_up. destruct (Z.eqb_spec (ifindex cfg) (-1)); [by apply wp_ret; left|]. destruct (do_unload cfg) eqn:Eu.
  - apply wp_bind. eapply wp_mono; [apply wp_detach, HR|]. intros r s2 [Hr _]. apply wp_ret. right; left. auto.
  - apply wp_bind. eapply wp_mono; [by apply wp_load_custom|]. intros [code|c] s1 HL; [apply wp_ret; right; right; auto|]. destruct HL as (O & HL & HO & Hd & Hn).
    apply wp_bind. eapply wp_mono; [by apply wp_umem_area, own_has|].
    intros [u|] s2 [E1 HA]; [|apply wp_ret; right; right; auto]. apply wp_bind. eapply wp_mono; [by eapply wp_on_os_frame, wp_first_socket|].
    intros [[[w x]|] u'] s3 [HW E2]; apply wp_ret; [|right; right; auto]. destruct HW as (Hi & -> & HU). rewrite E1, with_sys_idem in E2.
    repeat (split; [done|]). exists s1, O, u. split; [done|]. split; [done|]. split; [by rewrite E2|done].
Qed.
Lemma wp_start_stats cfg s : wp (start_stats cfg) (fun _ s' => s' = with_sys s (the_sys s') /\ forall F Mp Hp, has (the_sys s) F Mp Hp -> has (the_sys s') F Mp Hp) s.
Proof using.
  unfold start_stats. destruct (verbose cfg); [|apply wp_ret; by destruct s as [[] ? ?]]. apply wp_bind, wp_on_os. unfold wp, sys_do.
  by destruct (os_do _ _ =? 0).
Qed.
Context (layout_stable : forall fd off off', reported fd off -> reported fd off' -> off = off') (tells : forall fd, ~ XskResources.refused fd).
Lemma wp_main_user fuel polls cfg s X : ready cfg s X ->
  wp (main_user stack core kernel_btf release fuel polls cfg) (fun r s' => match r with
    | inl code => stops cfg code
    | inr w => idle_inv w /\ exists cfg' s1 O, custom_loaded cfg s X cfg' s1 O /\ given_back (O ++ X) (maps (the_sys s1)) (heap (the_sys s1)) (the_sys s')
    end) s.
Proof using BO LO Hkb KO XDO Hlen Hbytes OO XO indices_differ layout_stable tells.
  intros HR. unfold main_user. apply wp_bind. eapply wp_mono; [by eapply wp_start_up|]. intros [code|[[c [w x]] u']] s0; [intros; by apply wp_ret|].
  intros (Hi1 & Hu1 & Hw & s1 & O & u & HL & E1 & Hd & -> & HU). apply wp_bind. eapply wp_mono; [apply wp_start_stats|]. intros ok s2 [E2 Hs2].
  pose proof (in_use_same _ _ _ _ _ _ _ HU Hs2) as HU2.
  destruct ok; cbn [negb]; [|apply wp_ret; right; right; auto]. apply wp_bind. unfold on_world.
  destruct (proj1 (wp_run _ _ _) (wp_rx_and_process fuel (xsk_poll_mode c) polls w Hw)) as (a & w' & -> & Hw'). apply wp_ret.
  apply wp_bind. eapply wp_mono; [by eapply wp_on_os_frame, wp_unbind, wp_give_back|]. intros u' s3 [W E3]. rewrite E2, with_sys_idem in E3.
  apply wp_bind. eapply wp_mono; [by apply wp_on_os_frame, W|]. intros r s4 [[-> HG] E4]. rewrite E3, with_sys_idem in E4.
  apply wp_bind. eapply wp_mono; [apply wp_detach; by rewrite E4|]. intros r s5 [_ E5]. apply wp_ret. split; [done|].
  exists c, s1, O. split; [done|]. unfold the_sys. rewrite E5. exact HG.
Qed.
Lemma wp_two_sockets cfg right s X : ready cfg s X ->
  wp (two_sockets stack core kernel_btf release cfg right) (fun r _ => exists code, r = inl code /\ stops cfg code) s.
Proof using BO LO Hkb KO XDO Hlen Hbytes OO XO indices_differ.
  intros HR. unfold two_sockets. apply wp_bind. eapply wp_mono; [by apply (wp_start_up cfg s X)|].
  intros [code|[[c [w x]] u']] s2; [intros; apply wp_ret; by exists code|]. intros (Hi1 & Hu1 & _ & s1 & O & u & _ & _ & _ & -> & _).
  apply wp_bind. eapply wp_mono; [by apply wp_on_os_frame, wp_second_socket|]. intros ? s3 [-> _]. apply wp_ret. exists EXIT_FAILURE. split; [done|]. right; right. auto.
Qed.
End Runs.

(** ** The statistics *)

(** The differences of the lines add up to what has come in since the thread was started, modulo
    2^64, the width of the counters. *)
Lemma stats_poll_adds_up rs : forall prev, let rx := map fst (stats_poll prev rs) in
  u64 (foldr Z.add 0 (map ln_packets rx)) = u64 (st_rx_packets (default prev (list.last rs)) - st_rx_packets prev) /\
  map ln_total rx = map st_rx_packets rs.
Proof.
  induction rs as [|r rs IH]; intros prev rx; [by rewrite Z.sub_diag|]. destruct (IH r) as [IHs IHt]. subst rx. cbn [stats_poll map stats_print fst ln_packets ln_total foldr]. split; [|by rewrite IHt].
  rewrite last_cons. revert IHs. destruct (list.last rs) as [z|]; cbn [default]; unfold u64, id; intros IHs; rewrite Z.add_mod_idemp_l, <- Z.add_mod_idemp_r, IHs, Z.add_mod_idemp_r by lia; f_equal; lia.
Qed.

(** ** The theorems *)

Lemma one_indices (k : kst (NlKernel := one_kernel)) : NoDup (map l_index (links k)).
Proof. vm_compute. repeat constructor. by intros ?%list_elem_of_In. Qed.
Lemma demo_ready1 : ready (LE := demo_elf) (OS := demo_os) no_core (inl (-2)) [53; 46; 51] demo_config1 loader_state [0; 1; 2].
Proof. split; [exact demo_own|]. split; [by repeat (split; [done|])|]. split; [done|]. by intros []. Qed.

(** C27: Two devices never share a umem.  af_xdp_david_shared.c and af_xdp_user_david.c want a second
    socket on the umem of the first and do not ask libbpf to leave its program out: every run
    ends with an exit code before a loop is reached.  As for the switch, a run may load an
    object file first, which has no type information and is well formed where the code does
    not check it; whether that succeeds is part of the run. *)
Theorem second_device_refused {BK : BpfKernel} {BO : BpfKernelOk BK} (LE : Libelf BK) (LO : LibelfOk LE) (OS : Os) (OO : OsOk OS) (XK : XskKernel) (XO : XskKernelOk XK)
  {NK : NlKernel} {LK : LinkKernel} {KO : LinkKernelOk} (XD : XdpDevices) (XDO : XdpDevicesOk) stack core kernel_btf release
  (cfg : config) (s : lsys BK NK) (X : list Z) :
  length stack = BUFSIZE -> Forall is_u8 stack -> kernel_btf_ok kernel_btf -> (forall k, NoDup (map l_index (links k))) ->
  ready core kernel_btf release cfg s X ->
  (exists code s', main_david_shared stack core kernel_btf release cfg s = Some (inl code, s') /\ stops cfg code) /\
  (exists code s', main_user_david stack core kernel_btf release cfg s = Some (inl code, s') /\ stops cfg code).
Proof.
  intros Hl Hb Hk Hi HR. assert (H : forall right, exists code s', two_sockets stack core kernel_btf release cfg right s = Some (inl code, s') /\ stops cfg code).
  { intros right. destruct (proj1 (wp_run _ _ _) (wp_two_sockets stack Hl Hb core kernel_btf Hk release Hi cfg right s X HR)) as (r & s' & E & code & -> & Hc). by exists code, s'. }
  split; apply H.
Qed.
Lemma second_device_refused_witness : exists s',
  main_david_shared (LE := demo_elf) (OS := demo_os) (XK := demo_kernel) (repeat 0xff BUFSIZE) no_core (inl (-2)) [53; 46; 51] demo_config1 loader_state = Some (inl EXIT_FAILURE, s').
Proof.
  destruct (second_device_refused (BO := table_kernel_ok) demo_elf (bytes_elf_ok _ _) demo_os demo_os_ok demo_kernel demo_kernel_ok (KO := one_kernel_ok) one_devices one_devices_ok
    (repeat 0xff BUFSIZE) no_core (inl (-2)) [53; 46; 51] demo_config1 loader_state [0; 1; 2]) as ((code & s' & E & HP) & _).
  - apply repeat_length.
  - exact ff_bytes.
  - by intros b [=].
  - exact one_indices.
  - exact demo_ready1.
  - exists s'. destruct HP as [[H _]|[(_ & H & _)|(_ & _ & [Hc|[[] _]])]]; [discriminate H|discriminate H|rewrite <- Hc; exact E|reflexivity].
Defined.

(** af_xdp_david_new.c without --dev: the index 4 passes the test for the option, and the name,
    a null pointer, is read. *)
Lemma david_new_reads_null : main_david_new (LE := demo_elf) (OS := demo_os) (XK := demo_kernel) (repeat 0xff BUFSIZE) no_core (inl (-2)) [53; 46; 51] 10 [] demo_config loader_state = None.
Proof. match goal with |- ?x = None => assert (H : match x with None => true | Some _ => false end = true) by (vm_compute; reflexivity); revert H; generalize x end. by intros []. Qed.
