(* ===== verification/Links.v ===== *)
(** * Links: attaching programs to perf events and tracepoints (libbpf/src/libbpf.c)

    A link owns the descriptor of the hook and its own block.  Every attach function opens a
    hook and hands it to the program; the theorem says that a failure leaves nothing behind and
    that destroying the link gives back what attaching took. *)

From Stdlib Require Import String.
From S2P Require Import Prelude Params Os Btf Object SecNames.
#[local] Open Scope Z_scope.
#[local] Open Scope prog_scope.

Definition EIO : Z := 5.
Definition E2BIG : Z := 7.
Definition PERF_EVENT_IOC_ENABLE : Z := 0x2400.
Definition PERF_EVENT_IOC_DISABLE : Z := 0x2401.
Definition PERF_EVENT_IOC_SET_BPF : Z := 0x40042408.
Definition PERF_TYPE_TRACEPOINT : Z := 2.
Definition PATH_MAX : Z := 4096.

(** The function of a link, and [struct bpf_link_fd] with the block that holds it. *)
Inductive destroy := destroy_perf_event | destroy_fd.
Record bpf_link := Link { lk_ptr : Z; lk_destroy : destroy; lk_fd : Z }.

Section Calls.
Context `{Os}.
Definition neg_errno : K Z := let! e := get_errno in ret (- e).

Definition bpf_link__destroy_perf_event (l : bpf_link) : K Z :=
  let! err := sys_do (Ioctl (lk_fd l) PERF_EVENT_IOC_DISABLE 0) in
  let! err := if negb (err =? 0) then neg_errno else ret 0 in
  close (lk_fd l) ;;;
  ret err.
Definition bpf_link__destroy_fd (l : bpf_link) : K Z :=
  let! r := sys_do (Close_result (lk_fd l)) in
  close (lk_fd l) ;;;
  ret r.
Definition bpf_link__destroy (link : option bpf_link) : K Z :=
  match link with
  | None => ret 0
  | Some l =>
      let! err := match lk_destroy l with destroy_perf_event => bpf_link__destroy_perf_event l | destroy_fd => bpf_link__destroy_fd l end in
      free (lk_ptr l) ;;;
      ret err
  end.

(** [inl] is ERR_PTR of a code. *)
Definition bpf_program__attach_perf_event (prog : option bpf_program) (pfd : Z) : K (Z + bpf_link) :=
  if pfd <? 0 then ret (inl (- EINVAL))
  else
    let! prog_fd := deref (bpf_program__fd prog) in
    if prog_fd <? 0 then ret (inl (- EINVAL))
    else
      let! link := calloc in
      match link with
      | None => ret (inl (- ENOMEM))
      | Some link =>
          let! r := sys_do (Ioctl pfd PERF_EVENT_IOC_SET_BPF prog_fd) in
          if r <? 0 then let! err := neg_errno in free link ;;; ret (inl err)
          else
            let! r := sys_do (Ioctl pfd PERF_EVENT_IOC_ENABLE 0) in
            if r <? 0 then let! err := neg_errno in free link ;;; ret (inl err)
            else ret (inr (Link link destroy_perf_event pfd))
      end.

(** [fscanf] returns the number of conversions, 1 or 0, or EOF; only the latter sets errno. *)
Definition parse_uint_from_file (file fmt : list Z) : K Z :=
  let! f := sys_open (Fopen file) in
  if f <? 0 then neg_errno
  else
    let! (e, d) := sys_query (Fscanf f fmt) in
    let err := if e =? 0 then getZ d 0 else -1 in
    if negb (err =? 1) then
      let! err := if err =? -1 then ret (- EIO) else neg_errno in
      close f ;;;
      ret err
    else
      close f ;;;
      ret (s32 (getZ d 1)).
Definition fmt_uint : list Z := str "%d" ++ [10].
Definition fmt_config : list Z := str "config:%d" ++ [10].
Definition determine_kprobe_perf_type : K Z := parse_uint_from_file (str "/sys/bus/event_source/devices/kprobe/type") fmt_uint.
Definition determine_uprobe_perf_type : K Z := parse_uint_from_file (str "/sys/bus/event_source/devices/uprobe/type") fmt_uint.
Definition determine_kprobe_retprobe_bit : K Z := parse_uint_from_file (str "/sys/bus/event_source/devices/kprobe/format/retprobe") fmt_config.
Definition determine_uprobe_retprobe_bit : K Z := parse_uint_from_file (str "/sys/bus/event_source/devices/uprobe/format/retprobe") fmt_config.

(** [1 << bit] of type int is defined up to bit 30. *)
Definition shl1 (bit : Z) : option Z := if bit <=? 30 then Some (Z.shiftl 1 bit) else None.
(** [attr.config], or a negative code. *)
Definition probe_config (uprobe retprobe : bool) : K (Z + Z) :=
  if retprobe then
    let! bit := if uprobe then determine_uprobe_retprobe_bit else determine_kprobe_retprobe_bit in
    if bit <? 0 then ret (inl bit) else let! c := deref (shl1 bit) in ret (inr c)
  else ret (inr 0).
Definition perf_event_open_probe (uprobe retprobe : bool) (name : list Z) (offset pid : Z) : K Z :=
  let! type := if uprobe then determine_uprobe_perf_type else determine_kprobe_perf_type in
  if type <? 0 then ret type
  else
    let! config := probe_config uprobe retprobe in
    match config with
    | inl bit => ret bit
    | inr config =>
        let! pfd := sys_open (Perf_event_open (Perf_attr type config (Some name) offset 0 0 0) (if pid <? 0 then -1 else pid) (if pid =? -1 then 0 else -1)) in
        if pfd <? 0 then neg_errno else ret pfd
    end.
(** The end of the attach functions: the event is closed when the program cannot have it. *)
Definition attach_event (prog : option bpf_program) (pfd : Z) : K (Z + bpf_link) :=
  if pfd <? 0 then ret (inl pfd)
  else
    let! link := bpf_program__attach_perf_event prog pfd in
    match link with
    | inl err => close pfd ;;; ret (inl err)
    | inr link => ret (inr link)
    end.
Definition bpf_program__attach_kprobe (prog : option bpf_program) (retprobe : bool) (func_name : list Z) : K (Z + bpf_link) :=
  let! pfd := perf_event_open_probe false retprobe func_name 0 (-1) in
  attach_event prog pfd.
Definition bpf_program__attach_uprobe (prog : option bpf_program) (retprobe : bool) (pid : Z) (binary_path : list Z) (func_offset : Z) : K (Z + bpf_link) :=
  let! pfd := perf_event_open_probe true retprobe binary_path func_offset pid in
  attach_event prog pfd.

Definition determine_tracepoint_id (tp_category tp_name : list Z) : K Z :=
  let file := str "/sys/kernel/debug/tracing/events/" ++ tp_category ++ str "/" ++ tp_name ++ str "/id" in
  if lenZ file >=? PATH_MAX then ret (- E2BIG) else parse_uint_from_file file fmt_uint.
Definition perf_event_open_tracepoint (tp_category tp_name : list Z) : K Z :=
  let! tp_id := determine_tracepoint_id tp_category tp_name in
  if tp_id <? 0 then ret tp_id
  else
    let! pfd := sys_open (Perf_event_open (Perf_attr PERF_TYPE_TRACEPOINT tp_id None 0 0 0 0) (-1) 0) in
    if pfd <? 0 then neg_errno else ret pfd.
Definition bpf_program__attach_tracepoint (prog : option bpf_program) (tp_category tp_name : list Z) : K (Z + bpf_link) :=
  let! pfd := perf_event_open_tracepoint tp_category tp_name in
  attach_event prog pfd.

Definition bpf_program__attach_raw_tracepoint (prog : option bpf_program) (tp_name : list Z) : K (Z + bpf_link) :=
  let! prog_fd := deref (bpf_program__fd prog) in
  if prog_fd <? 0 then ret (inl (- EINVAL))
  else
    let! link := calloc in
    match link with
    | None => ret (inl (- ENOMEM))
    | Some link =>
        let! pfd := sys_open (Raw_tracepoint_open tp_name prog_fd) in
        if pfd <? 0 then let! err := neg_errno in free link ;;; ret (inl err)
        else ret (inr (Link link destroy_fd pfd))
    end.
End Calls.

(** ** Rules *)

(** Calls leave errno alone or set it to a code. *)
Definition errno_ok (s : sys) : Prop := 0 <= errno s.
Section Rules.
Context `{OO : OsOk}.
Lemma open_errno o s : errno_ok s -> wp (sys_open o) (fun _ s' => errno_ok s') s.
Proof using OO. intros E. unfold wp, sys_open, errno_ok in *. destruct (_ <? 0); [|done]. apply Z.lt_le_incl, errno_positive. Qed.
Lemma query_errno q s : errno_ok s -> wp (sys_query q) (fun _ s' => errno_ok s') s.
Proof using OO. intros E. unfold wp, sys_query, errno_ok in *. destruct (os_query s q) as [e d]. destruct (e =? 0); [done|]. apply Z.lt_le_incl, errno_positive. Qed.
Lemma close_errno fd s : errno_ok s -> wp (close fd) (fun _ s' => errno_ok s') s.
Proof using. done. Qed.
(** [sane] is [has] with that. *)
Definition sane (s : sys) F Mp Hp : Prop := has s F Mp Hp /\ errno_ok s.

(** The number of a file: an error leaves at most 0. *)
Lemma wp_parse_uint file fmt s F Mp Hp (Q : Z -> sys -> Prop) : sane s F Mp Hp ->
  (forall r s', sane s' F Mp Hp -> (r <= 0 \/ exists s fd d, os_query s (Fscanf fd fmt) = (0, d) /\ r = s32 (getZ d 1)) -> Q r s') ->
  wp (parse_uint_from_file file fmt) Q s.
Proof using OO.
  intros [HS HE] HQ. unfold parse_uint_from_file, neg_errno. apply wp_bind.
  eapply wp_mono; [apply wp_conj; [by apply (open_errno (Fopen file))|by apply (wp_open s F Mp Hp HS (Fopen file) (fun f s' => f < 0 /\ has s' F Mp Hp \/ 0 <= f /\ (f ∉ F) /\ has s' (f :: F) Mp Hp)); auto]|].
  intros f s1 [HE1 [[Hf HS1]|(Hf & Hff & HS1)]].
  { os_guard. apply wp_bind, wp_errno, wp_ret, HQ; [done|]. left. unfold errno_ok in HE1. lia. }
  os_guard. apply wp_bind.
  eapply wp_mono; [apply wp_conj; [by apply (query_errno (Fscanf f fmt))|by apply (wp_query s1 _ Mp Hp HS1 (Fscanf f fmt) (fun r s' => (r.1 = 0 -> os_query s1 (Fscanf f fmt) = r) /\ has s' (f :: F) Mp Hp)); intros; split; cbn; (done || lia)]|].
  intros [e d] s2 [HE2 [Hd HS2]]. cbn [fst] in Hd.
  assert (Hclose : forall r, (r <= 0 \/ exists s fd d, os_query s (Fscanf fd fmt) = (0, d) /\ r = s32 (getZ d 1)) -> wp (close f ;;; ret r) Q s2).
  { intros r Hr. apply wp_bind. eapply wp_mono; [apply wp_conj; [by apply close_errno|by apply (wp_close s2 _ Mp Hp HS2 f (fun _ s' => has s' (filter (fun q => q <> f) (f :: F)) Mp Hp))]|].
    intros [] s3 [HE3 HS3]. rewrite filter_cons_fresh in HS3 by done. apply wp_ret, HQ; done. }
  destruct (Z.eqb_spec (if e =? 0 then getZ d 0 else -1) 1) as [E1|E1]; cbn [negb].
  - apply Hclose. right. destruct (Z.eqb_spec e 0) as [->|]; [|done]. exists s1, f, d. split; [by apply Hd|done].
  - apply wp_bind. destruct (_ =? -1); [apply wp_ret, Hclose; left; by unfold EIO|]. apply wp_bind, wp_errno, wp_ret, Hclose. left. unfold errno_ok in HE2. lia.
Qed.
Context (bits : forall s fd d, os_query s (Fscanf fd fmt_config) = (0, d) -> s32 (getZ d 1) <= 30).
(** A hook: a new descriptor, or nothing and a negative code. *)
Definition hook_post F Mp Hp (r : Z) (s : sys) : Prop := r < 0 /\ has s F Mp Hp \/ 0 <= r /\ (r ∉ F) /\ has s (r :: F) Mp Hp.
Lemma wp_open_hook o s F Mp Hp : has s F Mp Hp -> wp (let! pfd := sys_open o in if pfd <? 0 then neg_errno else ret pfd) (hook_post F Mp Hp) s.
Proof using OO. intros HS. unfold neg_errno. os_steps; [by right|]. left. split; [lia|done]. Qed.
Lemma wp_probe_config uprobe retprobe s F Mp Hp : sane s F Mp Hp ->
  wp (probe_config uprobe retprobe) (fun r s' => sane s' F Mp Hp /\ match r with inl e => e < 0 | inr _ => True end) s.
Proof using OO bits.
  intros HS. unfold probe_config. destruct retprobe; [|by apply wp_ret].
  assert (Hp1 : forall file, wp (let! bit := parse_uint_from_file file fmt_config in if bit <? 0 then ret (inl bit) else let! c := deref (shl1 bit) in ret (inr c))
    (fun r s' => sane s' F Mp Hp /\ match r with inl e => e < 0 | inr _ => True end) s).
  { intros file. apply wp_bind. eapply wp_parse_uint; [exact HS|]. intros r s' HS' Hr. destruct (Z.ltb_spec r 0); [by apply wp_ret|].
    assert (Hb : r <= 30). { destruct Hr as [?|(s0 & fd & d & E & ->)]; [lia|by eapply bits]. }
    unfold shl1. rewrite (proj2 (Z.leb_le _ _) Hb). apply wp_bind. eapply wp_deref; [done|]. by apply wp_ret. }
  destruct uprobe; apply Hp1.
Qed.
Lemma wp_event_open_probe uprobe retprobe name offset pid s F Mp Hp : sane s F Mp Hp ->
  wp (perf_event_open_probe uprobe retprobe name offset pid) (hook_post F Mp Hp) s.
Proof using OO bits.
  intros HS. unfold perf_event_open_probe. apply wp_bind.
  assert (Ht : wp (if uprobe then determine_uprobe_perf_type else determine_kprobe_perf_type) (fun _ s' => sane s' F Mp Hp) s).
  { unfold determine_uprobe_perf_type, determine_kprobe_perf_type. destruct uprobe; (eapply wp_parse_uint; [exact HS|]; by intros). }
  eapply wp_mono; [exact Ht|]. intros type s1 HS1. destruct (Z.ltb_spec type 0); [apply wp_ret; left; by destruct HS1|]. apply wp_bind.
  eapply wp_mono; [apply (wp_probe_config uprobe retprobe s1 F Mp Hp HS1)|]. intros [e|c] s2 [HS2 Hc]; [apply wp_ret; left; by destruct HS2|]. apply wp_open_hook, HS2.
Qed.
Lemma wp_event_open_tracepoint cat name s F Mp Hp : sane s F Mp Hp -> wp (perf_event_open_tracepoint cat name) (hook_post F Mp Hp) s.
Proof using OO.
  intros HS. unfold perf_event_open_tracepoint, determine_tracepoint_id. apply wp_bind.
  assert (Hk : forall r s', sane s' F Mp Hp -> wp (if r <? 0 then ret r else let! pfd := sys_open (Perf_event_open (Perf_attr PERF_TYPE_TRACEPOINT r None 0 0 0 0) (-1) 0) in
    if pfd <? 0 then neg_errno else ret pfd) (hook_post F Mp Hp) s').
  { intros r s' [HS' _]. destruct (Z.ltb_spec r 0); [by apply wp_ret; left|]. by apply wp_open_hook. }
  cbv zeta. destruct (_ >=? _); [apply wp_ret, Hk, HS|]. eapply wp_parse_uint; [exact HS|]. intros; by apply Hk.
Qed.

(** A request that succeeds passes the tests for a negative code. *)
Ltac lk_steps := repeat (first [os_call | os_guard | match goal with |- context [0 <? 0] => change (0 <? 0) with false end; cbv iota]; os_release).
(** A link owns its block and its descriptor. *)
Definition link_post F Mp Hp (r : Z + bpf_link) (s : sys) : Prop :=
  match r with
  | inl e => e < 0 /\ has s F Mp Hp
  | inr l => (lk_fd l ∉ F) /\ (lk_ptr l ∉ Hp) /\ 0 <= lk_fd l /\ has s (lk_fd l :: F) Mp (lk_ptr l :: Hp)
  end.
Definition loadable (prog : option bpf_program) : Prop := bpf_program__fd prog <> None.
Lemma wp_attach_event prog pfd s F Mp Hp : loadable prog -> hook_post F Mp Hp pfd s -> wp (attach_event prog pfd) (link_post F Mp Hp) s.
Proof using OO.
  intros Hl Hh. unfold attach_event. destruct Hh as [[Hn HS]|(Hn & Hf & HS)]; [os_guard; by apply wp_ret|]. os_guard.
  unfold bpf_program__attach_perf_event, neg_errno, loadable in *. os_guard. destruct (bpf_program__fd prog) as [fd|]; [|done].
  apply wp_bind, wp_bind. eapply wp_deref; [done|].
  destruct (fd <? 0); lk_steps; cbn [link_post lk_fd lk_ptr]; (split; [done || lia|]); done.
Qed.
Lemma wp_attach_raw prog name s F Mp Hp : loadable prog -> has s F Mp Hp -> wp (bpf_program__attach_raw_tracepoint prog name) (link_post F Mp Hp) s.
Proof using OO.
  intros Hl HS. unfold bpf_program__attach_raw_tracepoint, neg_errno, loadable in *. destruct (bpf_program__fd prog) as [fd|]; [|done].
  apply wp_bind. eapply wp_deref; [done|]. destruct (fd <? 0); lk_steps; cbn [link_post lk_fd lk_ptr]; (split; [done || lia|]); done.
Qed.
Lemma wp_link_destroy l s F Mp Hp : link_post F Mp Hp (inr l) s -> wp (bpf_link__destroy (Some l)) (fun _ s' => has s' F Mp Hp) s.
Proof using OO.
  intros (Hf & Hp1 & _ & HS). unfold bpf_link__destroy, bpf_link__destroy_perf_event, bpf_link__destroy_fd, neg_errno. destruct (lk_destroy l); lk_steps; done.
Qed.
End Rules.

(** ** The theorem *)

(** The four ways to attach. *)
Inductive hook :=
  | Kprobe (retprobe : bool) (func_name : list Z)
  | Uprobe (retprobe : bool) (pid : Z) (binary_path : list Z) (func_offset : Z)
  | Tracepoint (tp_category tp_name : list Z)
  | Raw_tracepoint (tp_name : list Z).
Definition attach_to `{Os} (h : hook) (prog : option bpf_program) : K (Z + bpf_link) :=
  match h with
  | Kprobe r f => bpf_program__attach_kprobe prog r f
  | Uprobe r pid path off => bpf_program__attach_uprobe prog r pid path off
  | Tracepoint c n => bpf_program__attach_tracepoint prog c n
  | Raw_tracepoint n => bpf_program__attach_raw_tracepoint prog n
  end.

(** Attaching a program to a probe or a tracepoint returns, whatever the system answers.  It fails
    with a negative code and owns nothing, or gives a link that owns one descriptor and one block;
    destroying the link gives both back and nothing else. *)
Theorem links_own_their_hook `{OO : OsOk} (h : hook) (prog : option bpf_program) (s : sys) :
  (forall s fd d, os_query s (Fscanf fd fmt_config) = (0, d) -> s32 (getZ d 1) <= 30) -> 0 <= errno s -> loadable prog ->
  exists r s1, attach_to h prog s = Some (r, s1) /\ link_post (fds s) (maps s) (heap s) r s1 /\
    match r with
    | inl _ => True
    | inr l => exists c s2, bpf_link__destroy (Some l) s1 = Some (c, s2) /\ has s2 (fds s) (maps s) (heap s)
    end.
Proof.
  intros Hb He Hl. assert (HS : sane s (fds s) (maps s) (heap s)) by done.
  assert (W : wp (attach_to h prog) (link_post (fds s) (maps s) (heap s)) s).
  { destruct h; cbn [attach_to]; [| | |by apply wp_attach_raw]; apply wp_bind;
      (eapply wp_mono; [by apply wp_event_open_probe || by apply wp_event_open_tracepoint|]; intros; by apply wp_attach_event). }
  apply wp_run in W as (r & s1 & E & HP). exists r, s1. split; [done|]. split; [done|]. destruct r as [|l]; [done|]. by apply wp_run, wp_link_destroy.
Qed.
Definition link_prog : bpf_program := Bpf_program 3 [115] 0 [115] [115] [] 0 2 None 0 [7] None 0 0 None 0 0 None 0 0 0.
Lemma links_own_their_hook_witness : exists l s1 c s2,
  bpf_program__attach_tracepoint (H := demo_os) (Some link_prog) (str "xdp") (str "xdp_exception") demo_state = Some (inr l, s1) /\
  lk_fd l = 3 /\ bpf_link__destroy (H := demo_os) (Some l) s1 = Some (c, s2) /\ has s2 [0; 1; 2] [] [].
Proof.
  destruct (links_own_their_hook (OO := demo_os_ok) (Tracepoint (str "xdp") (str "xdp_exception")) (Some link_prog) demo_state) as (r & s1 & E & HP & HD).
  - intros s fd d [= <-]. by vm_compute.
  - done.
  - done.
  - vm_compute in E. injection E as <- <-. destruct HD as (c & s2 & E2 & HS). eexists _, _, c, s2. split; [vm_compute; reflexivity|]. split; [reflexivity|]. exact (conj E2 HS).
Defined.
(** A file that holds no number: [fscanf] converts nothing and leaves errno alone, and the result
    is 0, which the callers take for the number. *)
Lemma unreadable_number_is_zero file fmt : exists s', parse_uint_from_file (H := demo_os) file fmt demo_state = Some (0, s').
Proof. eexists. vm_compute. reflexivity. Qed.
