(* ===== verification/PerfBuf.v ===== *)
(** * Perf buffers: perf_buffer__new, perf_buffer__free (libbpf/src/libbpf.c)

    A perf buffer owns an epoll instance, three blocks, and for each CPU an event, its mapping
    and a block.  The theorem: creating one is all or nothing, and freeing it gives everything
    back.  What is read from the mappings is in PerfRing. *)

From stdpp Require Import sets.
From S2P Require Import Prelude Params Os Btf Object Links.
#[local] Open Scope Z_scope.
#[local] Open Scope prog_scope.

Definition PERF_COUNT_SW_BPF_OUTPUT : Z := 10.
Definition PERF_TYPE_SOFTWARE : Z := 1.
Definition PERF_SAMPLE_RAW : Z := 1024.

(** [struct perf_cpu_buf]; [cb_buf] is the block for records that wrap around. *)
Record perf_cpu_buf := Cpu_buf { cb_ptr : Z; cb_base : option Z; cb_buf : option Z; cb_fd : Z; cb_cpu : Z; cb_map_key : Z }.
(** [struct perf_buffer] without the callbacks; [pb_cpu_bufs] is the array up to its first null
    pointer, with its block. *)
Record perf_buffer := Perf_buffer {
  pb_ptr : Z; pb_page_size : Z; pb_mmap_size : Z;
  pb_cpu_bufs : option (Z * list perf_cpu_buf); pb_events : option Z;
  pb_cpu_cnt : Z; pb_epoll_fd : Z; pb_map_fd : Z
}.
(** [struct perf_buffer_params] without the callbacks. *)
Record perf_buffer_params := Params_ { pp_attr : perf_event_attr; pp_cpu_cnt : Z; pp_cpus : list Z; pp_map_keys : list Z }.

Section Calls.
Context `{Os}.
(** [free] of a pointer that may be null. *)
Definition free_ (p : option Z) : K unit := match p with Some p => free p | None => ret tt end.
Definition map_length (pb : perf_buffer) : Z := u64 (pb_mmap_size pb + pb_page_size pb).
Definition perf_buffer__free_cpu_buf (pb : perf_buffer) (cpu_buf : perf_cpu_buf) : K unit :=
  munmap (cb_base cpu_buf) (map_length pb) ;;;
  (if cb_fd cpu_buf >=? 0 then let! _ := sys_do (Ioctl (cb_fd cpu_buf) PERF_EVENT_IOC_DISABLE 0) in close (cb_fd cpu_buf) else ret tt) ;;;
  free_ (cb_buf cpu_buf) ;;;
  free (cb_ptr cpu_buf).
Fixpoint free_cpu_bufs (pb : perf_buffer) (l : list perf_cpu_buf) : K unit :=
  match l with
  | [] => ret tt
  | c :: l =>
      let! _ := sys_do (Bpf_map_delete_elem (pb_map_fd pb) (cb_map_key c)) in
      perf_buffer__free_cpu_buf pb c ;;;
      free_cpu_bufs pb l
  end.
Definition perf_buffer__free (pb : option perf_buffer) : K unit :=
  match pb with
  | None => ret tt
  | Some pb =>
      match pb_cpu_bufs pb with Some (p, l) => free_cpu_bufs pb l ;;; free p | None => ret tt end ;;;
      (if pb_epoll_fd pb >=? 0 then close (pb_epoll_fd pb) else ret tt) ;;;
      free_ (pb_events pb) ;;;
      free (pb_ptr pb)
  end.

Definition perf_buffer__open_cpu_buf (pb : perf_buffer) (attr : perf_event_attr) (cpu map_key : Z) : K (Z + perf_cpu_buf) :=
  let! p := calloc in
  match p with
  | None => ret (inl (- ENOMEM))
  | Some p =>
      let! fd := sys_open (Perf_event_open attr (-1) cpu) in
      if fd <? 0 then let! err := neg_errno in perf_buffer__free_cpu_buf pb (Cpu_buf p None None fd cpu map_key) ;;; ret (inl err)
      else
        let! base := mmap (map_length pb) fd 0 in
        match base with
        | None => let! err := neg_errno in perf_buffer__free_cpu_buf pb (Cpu_buf p None None fd cpu map_key) ;;; ret (inl err)
        | Some base =>
            let cpu_buf := Cpu_buf p (Some base) None fd cpu map_key in
            let! r := sys_do (Ioctl fd PERF_EVENT_IOC_ENABLE 0) in
            if r <? 0 then let! err := neg_errno in perf_buffer__free_cpu_buf pb cpu_buf ;;; ret (inl err)
            else ret (inr cpu_buf)
        end
  end.

Definition with_bufs (pb : perf_buffer) (l : list perf_cpu_buf) : perf_buffer :=
  Perf_buffer (pb_ptr pb) (pb_page_size pb) (pb_mmap_size pb) ((fun x => (x.1, l)) <$> pb_cpu_bufs pb) (pb_events pb) (pb_cpu_cnt pb) (pb_epoll_fd pb) (pb_map_fd pb).
(** The label [error]. *)
Definition new_error (pb : perf_buffer) (err : Z) : K (Z + perf_buffer) := perf_buffer__free (Some pb) ;;; ret (inl err).
(** The loop over the CPUs, [n] of them to go; [l] are the buffers so far. *)
Fixpoint open_cpu_bufs (n : nat) (p : perf_buffer_params) (pb : perf_buffer) (l : list perf_cpu_buf) : K (Z + perf_buffer) :=
  match n with
  | O => ret (inr (with_bufs pb l))
  | S n =>
      let i := length l in
      let! cpu := if pp_cpu_cnt p >? 0 then deref (pp_cpus p !! i) else ret (Z.of_nat i) in
      let! map_key := if pp_cpu_cnt p >? 0 then deref (pp_map_keys p !! i) else ret (Z.of_nat i) in
      let! cpu_buf := perf_buffer__open_cpu_buf pb (pp_attr p) cpu map_key in
      match cpu_buf with
      | inl err => new_error (with_bufs pb l) err
      | inr cpu_buf =>
          let l := l ++ [cpu_buf] in
          let! err := sys_do (Bpf_map_update_elem (pb_map_fd pb) map_key (cb_fd cpu_buf)) in
          if negb (err =? 0) then let! err := neg_errno in new_error (with_bufs pb l) err
          else
            let! r := sys_do (Epoll_ctl_add (pb_epoll_fd pb) (cb_fd cpu_buf)) in
            if r <? 0 then let! err := neg_errno in new_error (with_bufs pb l) err
            else open_cpu_bufs n p pb l
      end
  end.
(** How many CPUs: a negative number is a code. *)
Definition buffer_count (p : perf_buffer_params) (max_entries : Z) : K Z :=
  if pp_cpu_cnt p >? 0 then ret (pp_cpu_cnt p)
  else
    let! (e, d) := sys_query Num_possible_cpus in
    let cpu_cnt := if e =? 0 then getZ d 0 else e in
    ret (if cpu_cnt <? 0 then cpu_cnt else if max_entries <? cpu_cnt then s32 max_entries else cpu_cnt).
Definition __perf_buffer__new (map_fd page_cnt : Z) (p : perf_buffer_params) : K (Z + perf_buffer) :=
  if negb (Z.land page_cnt (u64 (page_cnt - 1)) =? 0) then ret (inl (- EINVAL))
  else
    let! (e, map) := sys_query (Bpf_map_info map_fd) in
    if negb (e =? 0) then let! err := neg_errno in ret (inl err)
    else if negb (getZ map 0 =? BPF_MAP_TYPE_PERF_EVENT_ARRAY) then ret (inl (- EINVAL))
    else
      let! ptr := calloc in
      match ptr with
      | None => ret (inl (- ENOMEM))
      | Some ptr =>
          let pb epoll_fd cnt events bufs := Perf_buffer ptr getpagesize (u64 (getpagesize * page_cnt)) bufs events cnt epoll_fd map_fd in
          let! epoll_fd := sys_open Epoll_create in
          if epoll_fd <? 0 then let! err := neg_errno in new_error (pb epoll_fd 0 None None) err
          else
            let! cnt := buffer_count p (getZ map 1) in
            if cnt <? 0 then new_error (pb epoll_fd cnt None None) cnt
            else
              let! events := calloc in
              match events with
              | None => new_error (pb epoll_fd cnt None None) (- ENOMEM)
              | Some events =>
                  let! bufs := calloc in
                  match bufs with
                  | None => new_error (pb epoll_fd cnt (Some events) None) (- ENOMEM)
                  | Some bufs => open_cpu_bufs (Z.to_nat cnt) p (pb epoll_fd cnt (Some events) (Some (bufs, []))) []
                  end
              end
      end.
Definition perf_buffer__new (map_fd page_cnt : Z) : K (Z + perf_buffer) :=
  __perf_buffer__new map_fd page_cnt (Params_ (Perf_attr PERF_TYPE_SOFTWARE PERF_COUNT_SW_BPF_OUTPUT None 0 PERF_SAMPLE_RAW 1 1) 0 [] []).
Definition perf_buffer__new_raw (map_fd page_cnt : Z) (opts : perf_buffer_params) : K (Z + perf_buffer) := __perf_buffer__new map_fd page_cnt opts.
End Calls.

(** ** Rules *)

Section Rules.
Context `{OO : OsOk}.
Definition base_of (c : perf_cpu_buf) : Z := default 0 (cb_base c).
(** A buffer in use, and what the buffers [l] own, oldest first, on top of [F], [Mp] and [Hp]. *)
Definition opened (c : perf_cpu_buf) : Prop := cb_base c = Some (base_of c) /\ cb_buf c = None /\ 0 <= cb_fd c.
Definition onto {A} (l X : list A) : Prop := NoDup l /\ l ## X.
Definition areas (pb : perf_buffer) (l : list perf_cpu_buf) : list (Z * Z) := map (fun c => (base_of c, map_length pb)) l.
Definition bufs_own (pb : perf_buffer) (l : list perf_cpu_buf) F Mp Hp (s : sys) : Prop :=
  Forall opened l /\ onto (map cb_fd l) F /\ onto (areas pb l) Mp /\ onto (map cb_ptr l) Hp /\
  has s (map cb_fd (rev l) ++ F) (areas pb (rev l) ++ Mp) (map cb_ptr (rev l) ++ Hp).

Lemma filter_mid {A} `{EqDecision A} (a : A) l X : (a ∉ l) -> (a ∉ X) -> filter (fun x => x <> a) (l ++ a :: X) = l ++ X.
Proof using.
  intros Hl HX. rewrite list.filter_app, filter_cons_fresh by done. f_equal. apply filter_all. by intros x Hx ->.
Qed.
Lemma onto_cons {A} (a : A) l X : onto (a :: l) X -> (a ∉ l) /\ (a ∉ X) /\ onto l X.
Proof using. intros [H1 H2]. apply list.NoDup_cons in H1 as [H1 H1']. split; [done|]. split; [intros Ha; apply (H2 a); [left|done]|]. split; [done|]. intros x Hx. apply (H2 x). by right. Qed.
Lemma onto_snoc {A} (a : A) l X : onto l X -> (a ∉ l ++ X) -> onto (l ++ [a]) X.
Proof using.
  intros [H1 H2] Ha. rewrite elem_of_app in Ha. split.
  - apply list.NoDup_app. split; [done|]. split; [|apply list.NoDup_singleton]. intros x Hx Hxa. apply list_elem_of_singleton in Hxa as ->. auto.
  - intros x [Hx|Hx]%elem_of_app; [by apply (H2 x)|]. apply list_elem_of_singleton in Hx as ->. auto.
Qed.
Lemma wp_free_cpu_buf pb c s F1 F2 M1 M2 H1 H2 : opened c ->
  (cb_fd c ∉ F1) -> (cb_fd c ∉ F2) -> ((base_of c, map_length pb) ∉ M1) -> ((base_of c, map_length pb) ∉ M2) -> (cb_ptr c ∉ H1) -> (cb_ptr c ∉ H2) ->
  has s (F1 ++ cb_fd c :: F2) (M1 ++ (base_of c, map_length pb) :: M2) (H1 ++ cb_ptr c :: H2) ->
  wp (perf_buffer__free_cpu_buf pb c) (fun _ s' => has s' (F1 ++ F2) (M1 ++ M2) (H1 ++ H2)) s.
Proof using OO.
  intros (Eb & Ebuf & Hfd) A1 A2 B1 B2 C1 C2 HS. unfold perf_buffer__free_cpu_buf. rewrite Eb, Ebuf. replace (cb_fd c >=? 0) with true by lia. cbn [free_].
  apply wp_bind. eapply wp_munmap; [exact HS|]. intros s1 HS1. rewrite filter_mid in HS1 by done. apply wp_bind, wp_bind.
  assert (Hk : forall s2, has s2 (F1 ++ cb_fd c :: F2) (M1 ++ M2) (H1 ++ cb_ptr c :: H2) ->
    wp (close (cb_fd c)) (fun _ s' => wp (ret tt ;;; free (cb_ptr c)) (fun _ s' => has s' (F1 ++ F2) (M1 ++ M2) (H1 ++ H2)) s') s2).
  { intros s2 HS2. eapply wp_close; [exact HS2|]. intros s3 HS3. rewrite filter_mid in HS3 by done. apply wp_bind, wp_ret.
    eapply wp_free; [exact HS3|]. intros s4 HS4. by rewrite filter_mid in HS4. }
  eapply wp_do; [exact HS1| |]; intros; by apply Hk.
Qed.
Lemma wp_free_cpu_bufs pb l : forall F Mp Hp s, bufs_own pb l F Mp Hp s -> wp (free_cpu_bufs pb l) (fun _ s' => has s' F Mp Hp) s.
Proof using OO.
  induction l as [|c l IH]; intros F Mp Hp s (Ho & Hf & Hm & Hp1 & HS); [by apply wp_ret|]. cbn [free_cpu_bufs]. apply List.Forall_cons_iff in Ho as [Hc Ho].
  cbn [map areas] in Hf, Hm, Hp1. apply onto_cons in Hf as (F1 & F2 & Hf), Hm as (M1 & M2 & Hm), Hp1 as (P1 & P2 & Hp1).
  cbn [rev] in HS. unfold areas in *. rewrite !map_app in HS. cbn [map] in HS. rewrite <- !app_assoc in HS. cbn [app] in HS.
  assert (Hk : forall s1, has s1 (map cb_fd (rev l) ++ cb_fd c :: F) (areas pb (rev l) ++ (base_of c, map_length pb) :: Mp) (map cb_ptr (rev l) ++ cb_ptr c :: Hp) ->
    wp (perf_buffer__free_cpu_buf pb c ;;; free_cpu_bufs pb l) (fun _ s' => has s' F Mp Hp) s1).
  { intros s1 HS1. apply wp_bind. eapply wp_mono; [eapply wp_free_cpu_buf; [exact Hc| | | | | | |exact HS1]; unfold areas; rewrite ?map_rev, ?elem_of_reverse; try done|].
    1-3: by rewrite list_elem_of_In, <- in_rev, <- list_elem_of_In.
    intros [] s2 HS2. apply IH. by repeat (split; [done|]). }
  apply wp_bind. eapply wp_do; [exact HS| |]; intros; by apply Hk.
Qed.

(** The steps of [Os] with the tests of this file. *)
Ltac pb_test :=
  match goal with
  | |- context [0 <? 0] => change (0 <? 0) with false
  | H : 0 <= ?e |- context [?e >=? 0] => replace (e >=? 0) with true by lia
  | H : ?e < 0 |- context [?e >=? 0] => replace (e >=? 0) with false by lia
  end; cbv iota.
Ltac pb_steps := repeat (first [os_call | os_guard | pb_test]; os_release).
Definition attach_post (pb : perf_buffer) F Mp Hp (r : Z + perf_cpu_buf) (s : sys) : Prop :=
  match r with
  | inl e => e < 0 /\ has s F Mp Hp
  | inr c => opened c /\ (cb_fd c ∉ F) /\ ((base_of c, map_length pb) ∉ Mp) /\ (cb_ptr c ∉ Hp) /\ has s (cb_fd c :: F) ((base_of c, map_length pb) :: Mp) (cb_ptr c :: Hp)
  end.
Lemma wp_open_cpu_buf pb attr cpu key s F Mp Hp : has s F Mp Hp -> wp (perf_buffer__open_cpu_buf pb attr cpu key) (attach_post pb F Mp Hp) s.
Proof using OO.
  intros HS. unfold perf_buffer__open_cpu_buf, perf_buffer__free_cpu_buf, neg_errno. cbn [cb_base cb_fd cb_buf cb_ptr free_].
  pb_steps; cbn [attach_post]; (split; [done || lia|done]).
Qed.
(** What a perf buffer owns. *)
Definition made (pb : perf_buffer) F Mp Hp (s : sys) : Prop := exists bufs ev l,
  pb_cpu_bufs pb = Some (bufs, l) /\ pb_events pb = Some ev /\ 0 <= pb_epoll_fd pb /\ (pb_epoll_fd pb ∉ F) /\
  (pb_ptr pb ∉ Hp) /\ (ev ∉ pb_ptr pb :: Hp) /\ (bufs ∉ ev :: pb_ptr pb :: Hp) /\
  bufs_own pb l (pb_epoll_fd pb :: F) Mp (bufs :: ev :: pb_ptr pb :: Hp) s.
Definition new_post F Mp Hp (r : Z + perf_buffer) (s : sys) : Prop :=
  match r with inl e => e < 0 /\ has s F Mp Hp | inr pb => made pb F Mp Hp s end.
Lemma wp_perf_free pb F Mp Hp s : made pb F Mp Hp s -> wp (perf_buffer__free (Some pb)) (fun _ s' => has s' F Mp Hp) s.
Proof using OO.
  intros (bufs & ev & l & El & Ee & Hep & A1 & A2 & A3 & A4 & HB). cbn [perf_buffer__free]. rewrite El, Ee. apply wp_bind, wp_bind.
  eapply wp_mono; [by apply wp_free_cpu_bufs|]. intros [] s1 HS1. cbn [free_]. by pb_steps.
Qed.
Lemma wp_new_error pb e F Mp Hp s : e < 0 -> made pb F Mp Hp s -> wp (new_error pb e) (new_post F Mp Hp) s.
Proof using OO. intros He HM. unfold new_error. apply wp_bind. eapply wp_mono; [by apply wp_perf_free|]. intros [] s1 HS1. by apply wp_ret. Qed.
Lemma fresh_rev {A B} (f : A -> B) b l X : (b ∉ map f (rev l) ++ X) -> (b ∉ map f l ++ X).
Proof using. rewrite map_rev, !elem_of_app, !list_elem_of_In, <- in_rev. done. Qed.
(** One more buffer. *)
Lemma made_snoc pb l c F Mp Hp s s' : made (with_bufs pb l) F Mp Hp s ->
  (forall F' Mp' Hp', has s F' Mp' Hp' -> attach_post pb F' Mp' Hp' (inr c) s') -> made (with_bufs pb (l ++ [c])) F Mp Hp s'.
Proof using.
  intros (bufs & ev & l0 & El & A1 & A2 & A3 & A4 & A5 & A6 & (Ho & Hf & Hm & Hp1 & HS)) Hc. exists bufs, ev, (l ++ [c]).
  cbn [with_bufs pb_cpu_bufs pb_events pb_epoll_fd pb_ptr] in *. destruct (pb_cpu_bufs pb) as [[b0 l1]|]; [|done]. cbn in El. injection El as -> ->.
  repeat (split; [done|]). destruct (Hc _ _ _ HS) as (Hoc & F1 & M1 & P1 & HS'). unfold bufs_own, areas in *. rewrite !map_app, rev_app_distr. cbn [map rev app].
  change (map_length (with_bufs pb l0)) with (map_length pb) in *. change (map_length (with_bufs pb (l0 ++ [c]))) with (map_length pb).
  apply fresh_rev in F1, M1, P1.
  split; [apply Forall_app; split; [done|by constructor]|]. by repeat (split; [by apply onto_snoc|]).
Qed.
Lemma made_same pb F Mp Hp s s' : made pb F Mp Hp s -> (forall F Mp Hp, has s F Mp Hp -> has s' F Mp Hp) -> made pb F Mp Hp s'.
Proof using.
  intros (bufs & ev & l & A1 & A2 & A3 & A4 & A5 & A6 & A7 & (Ho & Hf & Hm & Hp1 & HS)) Hs. exists bufs, ev, l. repeat (split; [done|]). by apply Hs.
Qed.
Lemma do_same r s (Q : Z -> sys -> Prop) :
  (forall s', (forall F Mp Hp, has s F Mp Hp -> has s' F Mp Hp) -> Q 0 s') ->
  (forall e s', e < 0 -> 0 < errno s' -> (forall F Mp Hp, has s F Mp Hp -> has s' F Mp Hp) -> Q e s') -> wp (sys_do r) Q s.
Proof using OO.
  intros H1 H2. unfold wp, sys_do. pose proof (do_code s r). destruct (Z.eqb_spec (os_do s r) 0); [by apply H1|]. apply H2; [lia|apply errno_positive|done].
Qed.
(** The arrays of the caller are as long as they say. *)
Definition params_ok (p : perf_buffer_params) : Prop := pp_cpu_cnt p > 0 -> pp_cpu_cnt p <= lenZ (pp_cpus p) /\ pp_cpu_cnt p <= lenZ (pp_map_keys p).
Lemma wp_index p l (i : nat) s (Q : Z -> sys -> Prop) : (pp_cpu_cnt p > 0 -> Z.of_nat i < lenZ l) -> (forall x, Q x s) ->
  wp (if pp_cpu_cnt p >? 0 then deref (l !! i) else ret (Z.of_nat i)) Q s.
Proof using.
  intros Hi HQ. destruct (Z.gtb_spec (pp_cpu_cnt p) 0); [|by apply wp_ret]. destruct (l !! i) as [x|] eqn:E; [by eapply wp_deref|].
  apply lookup_ge_None in E. assert (Hi' : Z.of_nat i < lenZ l) by (apply Hi; lia). unfold lenZ in Hi'. lia.
Qed.
Lemma wp_open_cpu_bufs p pb : forall n l F Mp Hp s, params_ok p -> (pp_cpu_cnt p > 0 -> Z.of_nat (length l + n) <= pp_cpu_cnt p) ->
  made (with_bufs pb l) F Mp Hp s -> wp (open_cpu_bufs n p pb l) (new_post F Mp Hp) s.
Proof using OO.
  induction n as [|n IH]; intros l F Mp Hp s Hpar Hn HM; cbn [open_cpu_bufs]; [by apply wp_ret|].
  apply wp_bind, wp_index; [intros Hc; specialize (Hpar Hc); specialize (Hn Hc); lia|]. intros cpu.
  apply wp_bind, wp_index; [intros Hc; specialize (Hpar Hc); specialize (Hn Hc); lia|]. intros key. apply wp_bind.
  assert (Hs0 : has s (fds s) (maps s) (heap s)) by done.
  apply wp_run. destruct (perf_buffer__open_cpu_buf pb (pp_attr p) cpu key s) as [[r s1]|] eqn:E;
    [|pose proof (wp_open_cpu_buf pb (pp_attr p) cpu key s _ _ _ Hs0) as W; unfold wp in W; by rewrite E in W].
  assert (HA : forall F' Mp' Hp', has s F' Mp' Hp' -> attach_post pb F' Mp' Hp' r s1).
  { intros F' Mp' Hp' HS'. pose proof (wp_open_cpu_buf pb (pp_attr p) cpu key s _ _ _ HS') as W. unfold wp in W. by rewrite E in W. }
  exists r, s1. split; [done|]. destruct r as [e|c].
  - destruct (HA _ _ _ Hs0) as [He _]. apply wp_new_error; [done|]. eapply made_same; [exact HM|]. intros F' Mp' Hp' HS'. by destruct (HA _ _ _ HS').
  - assert (HM1 : made (with_bufs pb (l ++ [c])) F Mp Hp s1) by by eapply made_snoc. cbv zeta.
    apply wp_bind, do_same; [|intros e s2 He Hen Hs2; os_guard; unfold neg_errno; apply wp_bind, wp_bind, wp_errno, wp_ret, wp_new_error; [lia|by eapply made_same]].
    intros s2 Hs2. os_guard. cbv iota. assert (HM2 : made (with_bufs pb (l ++ [c])) F Mp Hp s2) by by eapply made_same.
    apply wp_bind, do_same; [|intros e s3 He Hen Hs3; os_guard; unfold neg_errno; apply wp_bind, wp_bind, wp_errno, wp_ret, wp_new_error; [lia|by eapply made_same]].
    intros s3 Hs3. change (0 <? 0) with false. cbv iota. apply IH; [done| |by eapply made_same]. intros Hc. specialize (Hn Hc). rewrite length_app. cbn [length]. lia.
Qed.
Lemma wp_buffer_count p m s F Mp Hp : has s F Mp Hp -> wp (buffer_count p m) (fun r s' => has s' F Mp Hp /\ (pp_cpu_cnt p > 0 -> r = pp_cpu_cnt p)) s.
Proof using OO. intros HS. unfold buffer_count. destruct (Z.gtb_spec (pp_cpu_cnt p) 0); os_steps; (split; [done|lia || done]). Qed.
Lemma wp_perf_buffer_new map_fd page_cnt p s F Mp Hp : has s F Mp Hp -> params_ok p -> wp (__perf_buffer__new map_fd page_cnt p) (new_post F Mp Hp) s.
Proof using OO.
  intros HS Hpar. unfold __perf_buffer__new, neg_errno. destruct (negb (Z.land _ _ =? 0)); [by apply wp_ret|].
  apply wp_bind. eapply wp_query; [exact HS| |intros; os_guard; os_steps; by (split; [lia|done])]. intros map s1 _ HS1. os_guard. cbv iota.
  destruct (negb (_ =? _)); [by apply wp_ret|]. apply wp_bind. eapply wp_calloc; [exact HS1| |intros; by apply wp_ret]. intros ptr s2 Hptr HS2. cbv zeta.
  apply wp_bind. eapply wp_open; [exact HS2| |]; [|intros; unfold new_error; cbn [perf_buffer__free pb_cpu_bufs pb_epoll_fd pb_events free_ pb_ptr]; pb_steps; by (split; [lia|done])].
  intros ep s3 Hep Hepf HS3. os_guard. cbv iota. apply wp_bind. eapply wp_mono; [by eapply wp_buffer_count|]. intros cnt s4 [HS4 Hcnt].
  destruct (Z.ltb_spec cnt 0); [unfold new_error; cbn [perf_buffer__free pb_cpu_bufs pb_epoll_fd pb_events free_ pb_ptr]; by pb_steps|].
  apply wp_bind. eapply wp_calloc; [exact HS4| |intros; unfold new_error; cbn [perf_buffer__free pb_cpu_bufs pb_epoll_fd pb_events free_ pb_ptr]; by pb_steps].
  intros ev s5 Hev HS5. apply wp_bind. eapply wp_calloc; [exact HS5| |intros; unfold new_error; cbn [perf_buffer__free pb_cpu_bufs pb_epoll_fd pb_events free_ pb_ptr]; by pb_steps].
  intros bufs s6 Hbufs HS6. apply wp_open_cpu_bufs; [done|intros Hc; rewrite (Hcnt Hc); cbn [length]; lia|].
  exists bufs, ev, []. repeat (split; [done|]). repeat split; try done; try apply base.NoDup_nil_2; try (by intros ? ?%elem_of_nil); apply HS6.
Qed.
End Rules.

(** ** The theorem *)

(** A perf buffer is all or nothing.  Creating one returns, whatever the system answers: with a
    negative code and nothing left open, mapped or allocated, or with a buffer that owns an epoll
    instance and for every CPU an event, its mapping and a block; freeing it gives back exactly
    what creating it took. *)
Theorem perf_buffer_all_or_nothing `{OO : OsOk} (map_fd page_cnt : Z) (p : perf_buffer_params) (s : sys) : params_ok p ->
  exists r s1, __perf_buffer__new map_fd page_cnt p s = Some (r, s1) /\ new_post (fds s) (maps s) (heap s) r s1 /\
    match r with
    | inl _ => True
    | inr pb => exists s2, perf_buffer__free (Some pb) s1 = Some (tt, s2) /\ has s2 (fds s) (maps s) (heap s)
    end.
Proof.
  intros Hp. destruct (proj1 (wp_run _ _ _) (wp_perf_buffer_new map_fd page_cnt p s (fds s) (maps s) (heap s) ltac:(done) Hp)) as (r & s1 & E & HP).
  exists r, s1. split; [done|]. split; [done|]. destruct r as [|pb]; [done|]. destruct (proj1 (wp_run _ _ _) (wp_perf_free _ _ _ _ _ HP)) as ([] & s2 & E2 & HS). by exists s2.
Qed.
(** Two CPUs of the caller's choice, on a system that grants everything. *)
Definition demo_perf_os : Os := {|
  os_calloc := @os_calloc demo_os; os_mmap := @os_mmap demo_os; os_open := @os_open demo_os; os_do := @os_do demo_os;
  os_query s q := match q with Bpf_map_info _ => (0, [4; 8]) | _ => os_query (Os := demo_os) s q end;
  os_errno := @os_errno demo_os; getpagesize := 4096
|}.
Lemma demo_perf_os_ok : OsOk demo_perf_os.
Proof. destruct demo_os_ok. split; cbn; try done. by intros s []. Qed.
Definition demo_params : perf_buffer_params := Params_ (Perf_attr 1 10 None 0 1024 1 1) 2 [4; 6] [0; 1].
Lemma perf_buffer_all_or_nothing_witness : exists pb s1 s2,
  __perf_buffer__new (H := demo_perf_os) 9 8 demo_params demo_state = Some (inr pb, s1) /\
  (option_map (fun x => map cb_cpu (snd x)) (pb_cpu_bufs pb) = Some [4; 6] /\ length (fds s1) = 6%nat /\ length (maps s1) = 2%nat) /\
  perf_buffer__free (H := demo_perf_os) (Some pb) s1 = Some (tt, s2) /\ has s2 [0; 1; 2] [] [].
Proof.
  destruct (perf_buffer_all_or_nothing (OO := demo_perf_os_ok) 9 8 demo_params demo_state) as (r & s1 & E & _ & HD); [by intros _; vm_compute|].
  destruct r as [c|pb]; [vm_compute in E; discriminate E|]. destruct HD as (s2 & E2 & HS). exists pb, s1, s2. split; [exact E|].
  split; [|exact (conj E2 HS)]. vm_compute in E. injection E as <- <-. done.
Defined.
