(* ===== verification/PerfRing.v ===== *)
(** * Reading perf buffers: bpf_perf_event_read_simple, perf_buffer__poll (libbpf/src/libbpf.c)

    The kernel writes records into the pages of an event, one after the other, and wraps around
    at their end; two 64-bit counters say which bytes are to be read.  [head] is read once and the
    kernel does not touch bytes before it, so that the pages are constant during a call.  The
    theorems: whatever the position, the reader hands exactly the records to the callback, in
    order, and moves [tail] behind the last one; and polling decodes what was encoded. *)

From S2P Require Import Prelude Nlattr Netlink.
#[local] Open Scope Z_scope.

Definition LIBBPF_PERF_EVENT_DONE : Z := 0.
Definition LIBBPF_PERF_EVENT_ERROR : Z := -1.
Definition LIBBPF_PERF_EVENT_CONT : Z := -2.
Definition PERF_RECORD_LOST : Z := 2.
Definition PERF_RECORD_SAMPLE : Z := 9.

(** The data pages and the counters of [struct perf_event_mmap_page]. *)
Record perf_ring := Perf_ring { pr_data : list Z; pr_head : Z; pr_tail : Z }.
Definition bytes_at (data : list Z) (off len : Z) : option (list Z) :=
  if (0 <=? off) && (0 <=? len) && (off + len <=? lenZ data) then Some (take (Z.to_nat len) (drop (Z.to_nat off) data)) else None.

Section Read.
(** [fn] and the answers of the allocator. *)
Context {S : Type} (fn : list Z -> S -> option (Z * S)) (malloc : Z -> bool).
(** The record at [off] with its size, in place or in the copy, and the size of the copy's block;
    [Some None] is a failed allocation. *)
Definition fetch (data : list Z) (off copy_size : Z) : option (option (list Z * Z * Z)) :=
  let mmap_size := lenZ data in
  ehdr_size ← half_of data (off + 6);
  if off + ehdr_size >? mmap_size then
    let len_first := mmap_size - off in
    let len_secnd := ehdr_size - len_first in
    match (if copy_size <? ehdr_size then if malloc ehdr_size then Some ehdr_size else None else Some copy_size) with
    | None => Some None
    | Some copy_size => a ← bytes_at data off len_first; b ← bytes_at data 0 len_secnd; Some (Some (a ++ b, ehdr_size, copy_size))
    end
  else a ← bytes_at data off ehdr_size; Some (Some (a, ehdr_size, copy_size)).
(** The loop: the last result, [data_tail], the size of the copy's block. *)
Fixpoint read_loop (fuel : nat) (data : list Z) (data_head data_tail copy_size : Z) (r : Z) (st : S) : option (Z * Z * Z * S) :=
  if data_head =? data_tail then Some (r, data_tail, copy_size, st)
  else
    match fuel with
    | O => None
    | Datatypes.S fuel =>
        e ← fetch data (Z.land data_tail (lenZ data - 1)) copy_size;
        match e with
        | None => Some (LIBBPF_PERF_EVENT_ERROR, data_tail, 0, st)
        | Some (ehdr, ehdr_size, copy_size) =>
            x ← fn ehdr st;
            let data_tail := u64 (data_tail + ehdr_size) in
            if negb (x.1 =? LIBBPF_PERF_EVENT_CONT) then Some (x.1, data_tail, copy_size, x.2)
            else read_loop fuel data data_head data_tail copy_size x.1 x.2
        end
    end.
Definition bpf_perf_event_read_simple (fuel : nat) (ring : perf_ring) (copy_size : Z) (st : S) : option (Z * perf_ring * Z * S) :=
  x ← read_loop fuel (pr_data ring) (pr_head ring) (pr_tail ring) copy_size LIBBPF_PERF_EVENT_CONT st;
  let '(r, data_tail, copy_size, st) := x in
  Some (r, Perf_ring (pr_data ring) (pr_head ring) data_tail, copy_size, st).
End Read.

(** ** Perf buffers *)

Section Poll.
(** The callbacks of [struct perf_buffer] and the answers of the allocator.  A sample is handed
    over as the bytes the callback may read. *)
Context {S : Type} (event_cb : option (Z -> list Z -> S -> option (Z * S))) (sample_cb : option (Z -> list Z -> S -> S))
  (lost_cb : option (Z -> Z -> S -> S)) (malloc : Z -> bool).
Definition dword_of (buf : list Z) (p : Z) : option Z := x ← word_of buf p; y ← word_of buf (p + 4); Some (x + 4294967296 * y).
Definition perf_buffer__process_record (cpu : Z) (e : list Z) (st : S) : option (Z * S) :=
  match event_cb with
  | Some cb => cb cpu e st
  | None =>
      type ← word_of e 0;
      if type =? PERF_RECORD_SAMPLE then
        match sample_cb with
        | None => Some (LIBBPF_PERF_EVENT_CONT, st)
        | Some cb => size ← word_of e 8; d ← bytes_at e 12 size; Some (LIBBPF_PERF_EVENT_CONT, cb cpu d st)
        end
      else if type =? PERF_RECORD_LOST then
        match lost_cb with
        | None => Some (LIBBPF_PERF_EVENT_CONT, st)
        | Some cb => lost ← dword_of e 16; Some (LIBBPF_PERF_EVENT_CONT, cb cpu lost st)
        end
      else Some (LIBBPF_PERF_EVENT_ERROR, st)
  end.
(** The pages of a [struct perf_cpu_buf], [buf_size] and [cpu]. *)
Record cpu_ring := Cpu_ring { cr_ring : perf_ring; cr_buf_size : Z; cr_cpu : Z }.
Definition perf_buffer__process_records (fuel : nat) (c : cpu_ring) (st : S) : option (Z * cpu_ring * S) :=
  x ← bpf_perf_event_read_simple (perf_buffer__process_record (cr_cpu c)) malloc fuel (cr_ring c) (cr_buf_size c) st;
  let '(r, ring, buf_size, st) := x in
  Some (if negb (r =? LIBBPF_PERF_EVENT_CONT) then r else 0, Cpu_ring ring buf_size (cr_cpu c), st).
(** The buffers of the events, in the order of [epoll_wait]. *)
Fixpoint poll_loop (fuel : nat) (events : list nat) (bufs : list cpu_ring) (st : S) : option (Z * list cpu_ring * S) :=
  match events with
  | [] => Some (0, bufs, st)
  | i :: events =>
      c ← bufs !! i;
      x ← perf_buffer__process_records fuel c st;
      let '(err, c, st) := x in
      if negb (err =? 0) then Some (err, <[i := c]> bufs, st) else poll_loop fuel events (<[i := c]> bufs) st
  end.
(** [inl] is errno of a failed [epoll_wait]. *)
Definition perf_buffer__poll (fuel : nat) (events : Z + list nat) (bufs : list cpu_ring) (st : S) : option (Z * list cpu_ring * S) :=
  match events with
  | inl e => Some (- e, bufs, st)
  | inr events =>
      x ← poll_loop fuel events bufs st;
      let '(err, bufs, st) := x in
      Some (if negb (err =? 0) then err else lenZ events, bufs, st)
  end.
End Poll.

(** ** The records in the pages *)

(** A record says its own length. *)
Definition record (r : list Z) : Prop := 8 <= lenZ r < 65536 /\ lenZ r mod 8 = 0 /\ half_of r 6 = Some (lenZ r).
(** The bytes [l] are in the pages from [tail] on, around the end. *)
Definition window (data : list Z) (tail : Z) (l : list Z) : Prop :=
  forall i, 0 <= i < lenZ l -> getZ data ((tail + i) mod lenZ data) = getZ l i.
Definition pages (data : list Z) : Prop := exists k, 3 <= k <= 63 /\ lenZ data = 2 ^ k.
Definition ring_holds (ring : perf_ring) (rs : list (list Z)) : Prop :=
  pages (pr_data ring) /\ is_u64 (pr_tail ring) /\ pr_tail ring mod 8 = 0 /\ Forall record rs /\
  lenZ (concat rs) <= lenZ (pr_data ring) /\ window (pr_data ring) (pr_tail ring) (concat rs) /\
  pr_head ring = u64 (pr_tail ring + lenZ (concat rs)).

Lemma bytes_at_window data off l : 0 <= off -> off + lenZ l <= lenZ data ->
  (forall i, 0 <= i < lenZ l -> getZ data (off + i) = getZ l i) -> bytes_at data off (lenZ l) = Some l.
Proof.
  intros Ho Hl Hw. unfold bytes_at. rewrite (proj2 (Z.leb_le 0 off)), (proj2 (Z.leb_le 0 (lenZ l))), (proj2 (Z.leb_le _ _) Hl) by lia. cbn [andb]. f_equal.
  apply list_eq. intros i. destruct (decide (i < length l)%nat) as [Hi|Hi].
  - rewrite lookup_take_lt by lia. rewrite lookup_drop. specialize (Hw (Z.of_nat i) ltac:(lia)).
    pose proof (getZ_lookup data (off + Z.of_nat i) ltac:(lia)) as E1. pose proof (getZ_lookup l (Z.of_nat i) ltac:(lia)) as E2.
    rewrite Nat2Z.id in E2. replace (Z.to_nat (off + Z.of_nat i)) with (Z.to_nat off + i)%nat in E1 by lia. congruence.
  - rewrite !(proj2 (lookup_ge_None _ _)); [done|lia|]. rewrite length_take, length_drop. lia.
Qed.
Lemma half_of_getZ l p : 0 <= p -> p + 1 < lenZ l -> half_of l p = Some (getZ l p + 256 * getZ l (p + 1)).
Proof.
  intros Hp Hl. unfold half_of, byte_of. rewrite !(proj2 (Z.leb_le _ _)) by lia. rewrite !getZ_lookup by lia. done.
Qed.
Section Fetch.
Context (data : list Z) (Hpg : pages data).
Lemma pages_div8 : (8 | lenZ data) /\ 8 <= lenZ data.
Proof using Hpg.
  destruct Hpg as (k & Hk & ->). replace k with (3 + (k - 3)) by lia. rewrite Z.pow_add_r by lia. change (2 ^ 3) with 8.
  split; [by apply Z.divide_factor_l|]. pose proof (Z.pow_pos_nonneg 2 (k - 3)). nia.
Qed.
Lemma pages_land t : Z.land t (lenZ data - 1) = t mod lenZ data.
Proof using Hpg. destruct Hpg as (k & Hk & ->). rewrite <- Z.land_ones by lia. by rewrite Z.ones_equiv, Z.sub_1_r. Qed.
Lemma pages_u64 t i : (u64 t + i) mod lenZ data = (t + i) mod lenZ data.
Proof using Hpg.
  destruct Hpg as (k & Hk & ->). unfold u64. change 18446744073709551616 with (2 ^ 64). replace 64 with (k + (64 - k)) by lia. rewrite Z.pow_add_r by lia.
  rewrite <- (Z.add_mod_idemp_l (t mod _)) by lia. rewrite Z.mod_mod_divide by apply Z.divide_factor_l. by rewrite Z.add_mod_idemp_l by lia.
Qed.
Context (malloc : Z -> bool) (tail : Z) (r : list Z).
Lemma fetch_record copy_size : tail mod 8 = 0 -> record r -> lenZ r <= lenZ data -> window data tail r ->
  (exists copy_size', fetch malloc data (tail mod lenZ data) copy_size = Some (Some (r, lenZ r, copy_size'))) \/
  fetch malloc data (tail mod lenZ data) copy_size = Some None /\ malloc (lenZ r) = false.
Proof using Hpg.
  intros Ht ((Hr1 & Hr2) & Hr8 & Hh) Hle Hw. destruct pages_div8 as [H8 H8']. set (m := lenZ data) in *. set (off := tail mod m).
  assert (Ho : 0 <= off < m) by (apply Z.mod_pos_bound; lia).
  assert (Ho8 : off mod 8 = 0) by (unfold off; rewrite Z.mod_mod_divide by done; done).
  assert (Hfit : off + 8 <= m). { destruct H8 as [q Hq]. Z.div_mod_to_equations. lia. }
  assert (Hin : forall i, 0 <= i < lenZ r -> off + i < m -> getZ data (off + i) = getZ r i).
  { intros i Hi Hm. rewrite <- (Hw i Hi). f_equal. fold m. rewrite <- Z.add_mod_idemp_l by lia. fold off. by rewrite Z.mod_small by lia. }
  assert (Hwrap : forall i, 0 <= i < lenZ r -> m <= off + i -> getZ data (off + i - m) = getZ r i).
  { intros i Hi Hm. rewrite <- (Hw i Hi). f_equal. fold m. rewrite <- Z.add_mod_idemp_l by lia. fold off.
    replace (off + i) with (off + i - m + 1 * m) at 2 by lia. rewrite Z.mod_add by lia. by rewrite Z.mod_small by lia. }
  assert (Hsize : half_of data (off + 6) = Some (lenZ r)).
  { rewrite half_of_getZ by lia. rewrite half_of_getZ in Hh by lia. rewrite Hin by lia. replace (off + 6 + 1) with (off + 7) by lia. by rewrite Hin by lia. }
  unfold fetch. fold m. rewrite Hsize. cbn [mbind option_bind]. destruct (Z.gtb_spec (off + lenZ r) m) as [Hg|Hg].
  - assert (Hparts : bytes_at data off (m - off) = Some (take (Z.to_nat (m - off)) r) /\ bytes_at data 0 (lenZ r - (m - off)) = Some (drop (Z.to_nat (m - off)) r)).
    { assert (L1 : lenZ (take (Z.to_nat (m - off)) r) = m - off) by (rewrite length_take; lia).
      assert (L2 : lenZ (drop (Z.to_nat (m - off)) r) = lenZ r - (m - off)) by (rewrite length_drop; lia).
      rewrite <- L2. split; [rewrite <- L1 at 1|]; (apply bytes_at_window; [lia|rewrite ?L1, ?L2; fold m; lia|]); rewrite ?L1, ?L2; intros i Hi.
      - rewrite Hin by lia. unfold getZ. rewrite !nth_lookup. by rewrite lookup_take_lt by lia.
      - specialize (Hwrap (m - off + i) ltac:(lia) ltac:(lia)). replace (off + (m - off + i) - m) with (0 + i) in Hwrap by lia. rewrite Hwrap.
        unfold getZ. rewrite !nth_lookup, lookup_drop. do 2 f_equal. lia. }
    destruct Hparts as [-> ->]. cbn [mbind option_bind]. rewrite take_drop. destruct (copy_size <? lenZ r); [|left; by eexists].
    destruct (malloc (lenZ r)) eqn:Em; [left; by eexists|by right].
  - left. rewrite bytes_at_window; [by eexists|lia|fold m; lia|]. intros i Hi. apply Hin; lia.
Qed.
End Fetch.

(** ** Reading records *)

Section Served.
Context {S : Type} (fn : list Z -> S -> option (Z * S)) (malloc : Z -> bool).
(** The callback gets the records one by one, until it does not want more or the memory for a
    copy is missing; [rest] stays in the pages. *)
Inductive served : list (list Z) -> S -> Z -> list (list Z) -> S -> Prop :=
  | served_all st : served [] st LIBBPF_PERF_EVENT_CONT [] st
  | served_no_memory r rs st : malloc (lenZ r) = false -> served (r :: rs) st LIBBPF_PERF_EVENT_ERROR (r :: rs) st
  | served_stop r rs st c st' : fn r st = Some (c, st') -> c <> LIBBPF_PERF_EVENT_CONT -> served (r :: rs) st c rs st'
  | served_next r rs st st1 c rest st' : fn r st = Some (LIBBPF_PERF_EVENT_CONT, st1) -> served rs st1 c rest st' -> served (r :: rs) st c rest st'.

Lemma window_app data tail a b : window data tail (a ++ b) -> window data tail a /\ window data (tail + lenZ a) b.
Proof.
  intros H. split; intros i Hi.
  - rewrite H by (rewrite length_app; lia). unfold getZ. rewrite app_nth1 by lia. done.
  - rewrite <- Z.add_assoc, H by (rewrite length_app; lia). unfold getZ. rewrite app_nth2 by lia. f_equal. lia.
Qed.
Lemma holds_next ring r rs : ring_holds ring (r :: rs) -> ring_holds (Perf_ring (pr_data ring) (pr_head ring) (u64 (pr_tail ring + lenZ r))) rs.
Proof.
  intros (Hpg & Ht & Ht8 & Hr & Hlen & Hw & Hh). cbn [concat] in *. apply List.Forall_cons_iff in Hr as [((H1 & H2) & H8 & _) Hr]. rewrite length_app in *.
  apply window_app in Hw as [_ Hw]. split; [done|]. cbn [pr_data pr_head pr_tail]. split; [apply u64_range|].
  split; [unfold u64; Z.div_mod_to_equations; lia|]. split; [done|]. split; [lia|]. split.
  - intros i Hi. rewrite (pages_u64 _ Hpg). by apply Hw.
  - rewrite Hh. unfold u64. rewrite Z.add_mod_idemp_l by lia. f_equal. lia.
Qed.
Lemma holds_head ring r rs : ring_holds ring (r :: rs) -> pr_head ring <> pr_tail ring.
Proof.
  intros (Hpg & Ht & Ht8 & Hr & Hlen & Hw & Hh). apply List.Forall_cons_iff in Hr as [((H1 & H2) & _) _]. cbn [concat] in *. rewrite length_app in *. rewrite Hh.
  destruct Hpg as (k & Hk & E). assert (2 ^ k <= 2 ^ 63) by (apply Z.pow_le_mono_r; lia). change (2 ^ 63) with 9223372036854775808 in *.
  unfold u64, is_u64 in *. Z.div_mod_to_equations. lia.
Qed.
Lemma read_loop_served : forall rs fuel ring copy_size st, ring_holds ring rs -> (length rs <= fuel)%nat -> (forall r st, r ∈ rs -> fn r st <> None) ->
  exists c rest copy_size' st', read_loop fn malloc fuel (pr_data ring) (pr_head ring) (pr_tail ring) copy_size LIBBPF_PERF_EVENT_CONT st
    = Some (c, u64 (pr_head ring - lenZ (concat rest)), copy_size', st') /\ served rs st c rest st'.
Proof.
  induction rs as [|r rs IH]; intros fuel ring copy_size st HH Hf Hfn.
  - destruct HH as (_ & Ht & _ & _ & _ & _ & Hh). cbn in Hh. rewrite Z.add_0_r in Hh. rewrite (u64_small _ Ht) in Hh. exists LIBBPF_PERF_EVENT_CONT, [], copy_size, st.
    split; [|constructor]. destruct fuel; cbn [read_loop]; rewrite Hh, Z.eqb_refl; cbn [concat length]; by rewrite Z.sub_0_r, u64_small.
  - pose proof (holds_head _ _ _ HH) as Hne. pose proof (holds_next _ _ _ HH) as HN. destruct HH as (Hpg & Ht & Ht8 & Hr & Hlen & Hw & Hh).
    apply List.Forall_cons_iff in Hr as [Hr _]. cbn [concat] in *. rewrite length_app in *. apply window_app in Hw as [Hw _].
    destruct fuel as [|fuel]; [cbn in Hf; lia|]. cbn [read_loop]. rewrite (proj2 (Z.eqb_neq _ _) Hne), (pages_land _ Hpg).
    assert (Etail : u64 (pr_head ring - (lenZ r + lenZ (concat rs))) = pr_tail ring).
    { rewrite Hh. unfold u64, is_u64 in *. rewrite Zminus_mod_idemp_l. rewrite <- (Z.mod_small (pr_tail ring) 18446744073709551616) at 2 by done. f_equal. lia. }
    destruct (fetch_record _ Hpg malloc (pr_tail ring) r copy_size Ht8 Hr ltac:(lia) Hw) as [[cs ->]|[-> Em]]; cbn [mbind option_bind].
    + destruct (fn r st) as [[c st1]|] eqn:Efn; [|by destruct (Hfn r st ltac:(left))]. cbn [mbind option_bind fst snd].
      destruct (Z.eqb_spec c LIBBPF_PERF_EVENT_CONT) as [->|Hc]; cbn [negb].
      * destruct (IH fuel (Perf_ring (pr_data ring) (pr_head ring) (u64 (pr_tail ring + lenZ r))) cs st1 HN ltac:(cbn in Hf; lia)) as (c & rest & cs' & st' & E & Hs); [intros; apply Hfn; by right|].
        exists c, rest, cs', st'. split; [exact E|]. by eapply served_next.
      * exists c, rs, cs, st1. split; [|by apply served_stop]. do 4 f_equal. destruct HN as (_ & HN & _ & _ & _ & _ & Hh'). cbn [pr_tail pr_head] in *.
        rewrite Hh'. unfold u64, is_u64 in *. rewrite Zminus_mod_idemp_l. rewrite Z.add_simpl_r. by rewrite Z.mod_mod by lia.
    + exists LIBBPF_PERF_EVENT_ERROR, (r :: rs), 0, st. split; [|by constructor]. cbn [concat]. by rewrite length_app, Nat2Z.inj_add, Etail.
Qed.
End Served.

(** C28: The reader of perf buffers reads the records.  Where the pages hold some records, whatever the
    position and however they wrap around, [bpf_perf_event_read_simple] ends; the callback gets
    exactly the bytes of the records, in order, until it stops or the memory for a wrapped record
    is missing; and the tail is left before the first record that was not served. *)
Theorem perf_reader_serves {S} (fn : list Z -> S -> option (Z * S)) malloc fuel ring rs copy_size st :
  ring_holds ring rs -> (length rs <= fuel)%nat -> (forall r st, r ∈ rs -> fn r st <> None) ->
  exists c rest copy_size' st',
    bpf_perf_event_read_simple fn malloc fuel ring copy_size st
      = Some (c, Perf_ring (pr_data ring) (pr_head ring) (u64 (pr_head ring - lenZ (concat rest))), copy_size', st') /\
    served fn malloc rs st c rest st'.
Proof.
  intros HH Hf Hfn. destruct (read_loop_served fn malloc rs fuel ring copy_size st HH Hf Hfn) as (c & rest & cs & st' & E & Hs). exists c, rest, cs, st'.
  split; [|done]. unfold bpf_perf_event_read_simple. by rewrite E.
Qed.

(** ** Polling *)

(** What the kernel puts into a buffer, and its encoding. *)
Inductive perf_event := Sample (d : list Z) | Lost (id n : Z).
Definition dword_bytes (z : Z) : list Z := word_bytes z ++ word_bytes (z / 4294967296).
Definition sample_len (d : list Z) : Z := (12 + lenZ d + 7) / 8 * 8.
Definition encode_event (e : perf_event) : list Z :=
  match e with
  | Sample d => word_bytes PERF_RECORD_SAMPLE ++ half_bytes 0 ++ half_bytes (sample_len d) ++ word_bytes (lenZ d) ++ d ++
      replicate (Z.to_nat (sample_len d - 12 - lenZ d)) 0
  | Lost id n => word_bytes PERF_RECORD_LOST ++ half_bytes 0 ++ half_bytes 24 ++ dword_bytes id ++ dword_bytes n
  end.
Definition event_ok (e : perf_event) : Prop := match e with Sample d => lenZ d <= 65516 | Lost _ n => is_u64 n end.
Lemma half_bytes_val z : is_u16 z -> u8 z + 256 * u8 (z / 256) = z.
Proof. unfold u8, is_u16. intros H. Z.div_mod_to_equations. lia. Qed.
Lemma word_bytes_val z : is_u32 z -> u8 z + 256 * u8 (z / 256) + 65536 * (u8 (z / 65536) + 256 * u8 (z / 16777216)) = z.
Proof. unfold u8, is_u32. intros H. Z.div_mod_to_equations. lia. Qed.
Lemma sample_len_range d : lenZ d <= 65516 -> 12 + lenZ d <= sample_len d < 65536 /\ sample_len d mod 8 = 0.
Proof. unfold sample_len. intros H. split; [Z.div_mod_to_equations; lia|]. by apply Z.mod_mul. Qed.
Lemma encode_record e : event_ok e -> record (encode_event e).
Proof.
  destruct e as [d|id n]; cbn [event_ok]; intros H.
  - pose proof (sample_len_range d H) as [Hr H8]. assert (E : lenZ (encode_event (Sample d)) = sample_len d).
    { cbn [encode_event word_bytes half_bytes app]. cbn [length]. rewrite length_app, length_replicate. lia. }
    split; rewrite E; [lia|]. split; [done|]. rewrite <- (half_bytes_val (sample_len d)) by (unfold is_u16; lia). reflexivity.
  - split; [by vm_compute|]. split; [by vm_compute|]. reflexivity.
Qed.
Section Delivered.
Context {S : Type} (sample_cb : option (Z -> list Z -> S -> S)) (lost_cb : option (Z -> Z -> S -> S)) (malloc : Z -> bool).
Definition deliver (cpu : Z) (st : S) (e : perf_event) : S :=
  match e with
  | Sample d => match sample_cb with Some cb => cb cpu d st | None => st end
  | Lost _ n => match lost_cb with Some cb => cb cpu n st | None => st end
  end.
Lemma process_encoded cpu e st : event_ok e -> perf_buffer__process_record None sample_cb lost_cb cpu (encode_event e) st = Some (LIBBPF_PERF_EVENT_CONT, deliver cpu st e).
Proof.
  destruct e as [d|id n]; cbn [event_ok]; intros H; unfold perf_buffer__process_record.
  - change (word_of (encode_event (Sample d)) 0) with (Some PERF_RECORD_SAMPLE). cbn [mbind option_bind]. rewrite Z.eqb_refl. cbn [deliver]. destruct sample_cb as [cb|]; [|done].
    change (word_of (encode_event (Sample d)) 8) with (Some (u8 (lenZ d) + 256 * u8 (lenZ d / 256) + 65536 * (u8 (lenZ d / 65536) + 256 * u8 (lenZ d / 16777216)))).
    rewrite word_bytes_val by (unfold is_u32; lia). cbn [mbind option_bind]. rewrite bytes_at_window; [done|lia| |].
    + destruct (encode_record (Sample d) H) as [_ _]. cbn [encode_event word_bytes half_bytes app]. cbn [length]. rewrite length_app. lia.
    + intros i Hi. unfold getZ. replace (Z.to_nat (12 + i)) with (12 + Z.to_nat i)%nat by lia. cbn [encode_event word_bytes half_bytes app Nat.add nth]. by rewrite app_nth1 by lia.
  - change (word_of (encode_event (Lost id n)) 0) with (Some PERF_RECORD_LOST). cbn [mbind option_bind]. change (PERF_RECORD_LOST =? PERF_RECORD_SAMPLE) with false. rewrite Z.eqb_refl.
    cbn [deliver]. destruct lost_cb as [cb|]; [|done].
    change (dword_of (encode_event (Lost id n)) 16) with (Some ((u8 n + 256 * u8 (n / 256) + 65536 * (u8 (n / 65536) + 256 * u8 (n / 16777216))) + 4294967296 *
      (u8 (n / 4294967296) + 256 * u8 (n / 4294967296 / 256) + 65536 * (u8 (n / 4294967296 / 65536) + 256 * u8 (n / 4294967296 / 16777216))))).
    cbn [mbind option_bind]. do 3 f_equal. rewrite (word_bytes_val (n / 4294967296)) by (unfold is_u32, is_u64 in *; Z.div_mod_to_equations; lia).
    unfold u8, is_u64 in *. Z.div_mod_to_equations. lia.
Qed.
Lemma served_events cpu es : forall st c rest st', (forall n, malloc n = true) -> Forall event_ok es ->
  served (perf_buffer__process_record None sample_cb lost_cb cpu) malloc (map encode_event es) st c rest st' ->
  c = LIBBPF_PERF_EVENT_CONT /\ rest = [] /\ st' = foldl (deliver cpu) st es.
Proof.
  induction es as [|e es IH]; intros st c rest st' Hm He Hs; cbn [map] in Hs; [by inversion Hs|]. apply List.Forall_cons_iff in He as [He Hes]. inversion Hs; subst.
  - match goal with H : malloc _ = false |- _ => by rewrite Hm in H end.
  - match goal with H : perf_buffer__process_record _ _ _ _ _ _ = _ |- _ => rewrite process_encoded in H by done; by injection H as <- <- end.
  - match goal with H : perf_buffer__process_record _ _ _ _ _ _ = _ |- _ => rewrite process_encoded in H by done; injection H as <- end. by apply IH.
Qed.
(** A buffer that holds events. *)
Definition pending (fuel : nat) (c : cpu_ring) (es : list perf_event) : Prop :=
  ring_holds (cr_ring c) (map encode_event es) /\ Forall event_ok es /\ (length es <= fuel)%nat.
Definition drained (c c' : cpu_ring) : Prop := exists b, c' = Cpu_ring (Perf_ring (pr_data (cr_ring c)) (pr_head (cr_ring c)) (pr_head (cr_ring c))) b (cr_cpu c).
Lemma process_records_drains fuel c es st : (forall n, malloc n = true) -> pending fuel c es ->
  exists c', perf_buffer__process_records None sample_cb lost_cb malloc fuel c st = Some (0, c', foldl (deliver (cr_cpu c)) st es) /\ drained c c'.
Proof.
  intros Hm (HH & He & Hl). destruct (read_loop_served (perf_buffer__process_record None sample_cb lost_cb (cr_cpu c)) malloc (map encode_event es) fuel (cr_ring c) (cr_buf_size c) st HH)
    as (k & rest & cs & st' & E & Hs); [by rewrite length_map| |].
  { intros r st0 Hr. apply list_elem_of_In, in_map_iff in Hr as (e & <- & Hin). rewrite process_encoded; [done|]. rewrite list.Forall_forall in He. apply He. by apply list_elem_of_In. }
  apply served_events in Hs as (-> & -> & ->); [|done|done].
  exists (Cpu_ring (Perf_ring (pr_data (cr_ring c)) (pr_head (cr_ring c)) (pr_head (cr_ring c))) cs (cr_cpu c)). split; [|by exists cs].
  unfold perf_buffer__process_records, bpf_perf_event_read_simple. rewrite E. cbn [mbind option_bind concat length]. rewrite Z.sub_0_r.
  destruct HH as (_ & _ & _ & _ & _ & _ & Hh). rewrite (u64_small (pr_head _)) by (rewrite Hh; apply u64_range). done.
Qed.
End Delivered.

(** All the events of the ready buffers, in the order of [epoll_wait]. *)
Definition poll_all {S} sample_cb lost_cb (bufs : list cpu_ring) (pend : list (list perf_event)) (ready : list nat) (st : S) : S :=
  foldl (fun st i => foldl (deliver sample_cb lost_cb (default 0 (cr_cpu <$> bufs !! i))) st (default [] (pend !! i))) st ready.
Lemma poll_all_ext {S} sample_cb lost_cb bufs bufs' pend ready : (forall i, i ∈ ready -> cr_cpu <$> bufs !! i = cr_cpu <$> bufs' !! i) ->
  forall st : S, poll_all sample_cb lost_cb bufs pend ready st = poll_all sample_cb lost_cb bufs' pend ready st.
Proof.
  unfold poll_all. induction ready as [|i ready IH]; intros H st; cbn [foldl]; [done|]. rewrite (H i) by left. apply IH. intros j Hj. apply H. by right.
Qed.
Lemma poll_loop_drains {S} sample_cb lost_cb malloc fuel pend ready : (forall n, malloc n = true) -> NoDup ready -> forall bufs (st : S),
  (forall i, i ∈ ready -> exists c es, bufs !! i = Some c /\ pend !! i = Some es /\ pending fuel c es) ->
  exists bufs', poll_loop None sample_cb lost_cb malloc fuel ready bufs st = Some (0, bufs', poll_all sample_cb lost_cb bufs pend ready st) /\
    forall i, (i ∈ ready -> exists c c', bufs !! i = Some c /\ bufs' !! i = Some c' /\ drained c c') /\ (i ∉ ready -> bufs' !! i = bufs !! i).
Proof.
  intros Hm. induction ready as [|i ready IH]; intros Hnd bufs st Hp; cbn [poll_loop].
  { exists bufs. split; [done|]. intros i. split; [by intros ?%elem_of_nil|done]. }
  apply list.NoDup_cons in Hnd as [Hi Hnd]. destruct (Hp i ltac:(left)) as (c & es & Eb & Ep & Hpe). rewrite Eb. cbn [mbind option_bind].
  destruct (process_records_drains sample_cb lost_cb malloc fuel c es st Hm Hpe) as (c' & -> & Hd). cbn [mbind option_bind negb Z.eqb].
  assert (Hlt : (i < length bufs)%nat) by by eapply lookup_lt_Some.
  destruct (IH Hnd (<[i := c']> bufs) (foldl (deliver sample_cb lost_cb (cr_cpu c)) st es)) as (bufs' & E & Hb).
  { intros j Hj. rewrite list_lookup_insert_ne by (by intros ->). apply Hp. by right. }
  exists bufs'. split.
  - rewrite E. do 2 f_equal. unfold poll_all at 2. cbn [foldl]. rewrite Eb, Ep. cbn [fmap option_fmap option_map default]. unfold id. apply poll_all_ext.
    intros j Hj. by rewrite list_lookup_insert_ne by (by intros ->).
  - intros j. destruct (Hb j) as [Hb1 Hb2]. split.
    + intros [->|Hj]%elem_of_cons.
      * exists c, c'. split; [done|]. split; [|done]. rewrite Hb2 by done. by apply list_lookup_insert_eq.
      * destruct (Hb1 Hj) as (d & d' & E1 & E2 & E3). rewrite list_lookup_insert_ne in E1 by (by intros ->). eauto.
    + intros Hj. rewrite elem_of_cons in Hj. rewrite Hb2 by tauto. apply list_lookup_insert_ne. intros ->. tauto.
Qed.

(** Polling a perf buffer delivers every event.  Where the buffers that [epoll_wait] reports hold
    the encodings of some events, and memory for copies is granted, [perf_buffer__poll] returns
    their number; the callbacks have got every sample and every count of lost samples, once and
    in order; the reported buffers are empty and the others are as before. *)
Theorem poll_delivers_all {S} sample_cb lost_cb malloc fuel pend ready bufs (st : S) : (forall n, malloc n = true) -> NoDup ready ->
  (forall i, i ∈ ready -> exists c es, bufs !! i = Some c /\ pend !! i = Some es /\ pending fuel c es) ->
  exists bufs', perf_buffer__poll None sample_cb lost_cb malloc fuel (inr ready) bufs st = Some (lenZ ready, bufs', poll_all sample_cb lost_cb bufs pend ready st) /\
    forall i, (i ∈ ready -> exists c c', bufs !! i = Some c /\ bufs' !! i = Some c' /\ drained c c') /\ (i ∉ ready -> bufs' !! i = bufs !! i).
Proof.
  intros Hm Hnd Hp. destruct (poll_loop_drains sample_cb lost_cb malloc fuel pend ready Hm Hnd bufs st Hp) as (bufs' & E & Hb). exists bufs'. split; [|done].
  unfold perf_buffer__poll. by rewrite E.
Qed.

(** ** An example *)

(** Two records in 64 bytes of pages, of which the second wraps around. *)
Definition demo_records : list (list Z) := [encode_event (Sample [1; 2; 3; 4]); encode_event (Lost 7 300)].
Definition demo_data : list Z := drop 24 (concat demo_records) ++ replicate 24 255 ++ take 24 (concat demo_records).
Definition demo_ring : perf_ring := Perf_ring demo_data (u64 (18446744073709551592 + 40)) 18446744073709551592.
Lemma window_check data tail l : forallb (fun i => getZ data ((tail + Z.of_nat i) mod lenZ data) =? getZ l (Z.of_nat i)) (seq 0 (length l)) = true -> window data tail l.
Proof.
  intros H i Hi. rewrite forallb_forall in H. specialize (H (Z.to_nat i)). rewrite Z2Nat.id in H by lia. apply Z.eqb_eq, H, in_seq. lia.
Qed.
Lemma demo_ring_holds : ring_holds demo_ring demo_records.
Proof.
  split; [by exists 6; vm_compute|]. split; [by vm_compute|]. split; [by vm_compute|].
  split; [repeat apply List.Forall_cons; [by apply encode_record; vm_compute|by apply encode_record; vm_compute|apply List.Forall_nil]|].
  split; [by vm_compute|]. split; [apply window_check; vm_compute; reflexivity|by vm_compute].
Qed.
Lemma perf_reader_serves_witness : exists copy_size,
  bpf_perf_event_read_simple (fun r st => Some (LIBBPF_PERF_EVENT_CONT, st ++ [r])) (fun _ => true) 2 demo_ring 0 []
    = Some (LIBBPF_PERF_EVENT_CONT, Perf_ring demo_data 16 16, copy_size, demo_records).
Proof.
  destruct (perf_reader_serves (fun r st => Some (LIBBPF_PERF_EVENT_CONT, st ++ [r])) (fun _ => true) 2 demo_ring demo_records 0 [] demo_ring_holds)
    as (c & rest & cs & st' & E & Hs); [by vm_compute; lia|done|].
  exists cs. rewrite E. inversion Hs as [|? ? ? Hm|? ? ? ? ? Hc Hn|? ? ? ? ? ? ? Hc Hs1]; subst; [done| |].
  { by injection Hc as <- <-. }
  injection Hc as <-. inversion Hs1 as [|? ? ? Hm|? ? ? ? ? Hc Hn|? ? ? ? ? ? ? Hc Hs2]; subst; [done| |].
  { by injection Hc as <- <-. }
  injection Hc as <-. inversion Hs2; subst. reflexivity.
Defined.
(** Polling the same pages as the buffer of CPU 3. *)
Lemma poll_delivers_all_witness : exists bufs',
  perf_buffer__poll None (Some (fun cpu d st => st ++ [(cpu, d)])) (Some (fun cpu n st => st ++ [(cpu, [n])])) (fun _ => true) 2 (inr [0%nat]) [Cpu_ring demo_ring 0 3] []
    = Some (1, bufs', [(3, [1; 2; 3; 4]); (3, [300])]).
Proof.
  destruct (poll_delivers_all (Some (fun cpu d st => st ++ [(cpu, d)])) (Some (fun cpu n st => st ++ [(cpu, [n])])) (fun _ => true) 2
    [[Sample [1; 2; 3; 4]; Lost 7 300]] [0%nat] [Cpu_ring demo_ring 0 3] []) as (bufs' & E & _).
  - done.
  - apply list.NoDup_singleton.
  - intros i ->%list_elem_of_singleton. eexists _, _. split; [reflexivity|]. split; [reflexivity|]. split; [exact demo_ring_holds|].
    split; [repeat apply List.Forall_cons; [by vm_compute|by vm_compute|apply List.Forall_nil]|cbn; lia].
  - exists bufs'. exact E.
Defined.
