(* ===== verification/ProgInfo.v ===== *)
(** * Program information in one block: bpf_program__get_prog_info_linear (libbpf/src/libbpf.c)

    The arrays that describe a program are fetched into one block behind the structure, whose
    pointers can be turned into offsets, stored, and turned back.  The theorems: the kernel is
    told places for the arrays that lie one behind the other inside the block; and turning
    pointers into offsets and back, also at another address, moves them with the block. *)

From S2P Require Import Prelude Os.
#[local] Open Scope Z_scope.

Definition sizeof_info : Z := 208.
Definition sizeof_linear : Z := 224.
Definition BPF_PROG_INFO_LAST_ARRAY : Z := 9.
Record bpf_prog_info_array_desc := Desc { array_offset : Z; count_offset : Z; size_offset : Z }.
(** The offsets are those of [struct bpf_prog_info] of the uapi header. *)
Definition array_descs : list bpf_prog_info_array_desc :=
  [Desc 24 16 (-1); Desc 32 20 (-1); Desc 56 52 (-4); Desc 112 104 (-8); Desc 120 108 (-4);
   Desc 136 144 132; Desc 152 148 172; Desc 160 168 176; Desc 184 180 (-8)].

(** [struct bpf_prog_info] as its 52 words of 32 bits. *)
Abbreviation info := (list Z).
Definition bpf_prog_info_read_offset_u32 (w : info) (offset : Z) : Z := if offset >=? 0 then getZ w (offset / 4) else u32 (- offset).
Definition bpf_prog_info_read_offset_u64 (w : info) (offset : Z) : Z :=
  if offset >=? 0 then getZ w (2 * (offset / 8)) + 4294967296 * getZ w (2 * (offset / 8) + 1) else u64 (- offset).
Definition bpf_prog_info_set_offset_u32 (w : info) (offset val : Z) : info := if offset >=? 0 then setZ w (offset / 4) val else w.
Definition bpf_prog_info_set_offset_u64 (w : info) (offset val : Z) : info :=
  if offset >=? 0 then setZ (setZ w (2 * (offset / 8)) (u32 val)) (2 * (offset / 8) + 1) (u32 (val / 4294967296)) else w.

(** [struct bpf_prog_info_linear]; [li_data] is the address of the data. *)
Record bpf_prog_info_linear := Linear { li_info_len : Z; li_data_len : Z; li_arrays : Z; li_info : info; li_data : Z }.

(** Step 2: the arrays that are there, and their size together.  [i] is the number of the first
    description. *)
Fixpoint array_dimensions (i : Z) (l : list bpf_prog_info_array_desc) (w : info) (info_len arrays data_len : Z) : Z * Z :=
  match l with
  | [] => (arrays, data_len)
  | d :: l =>
      let include_array := Z.testbit arrays i in
      let include_array :=
        if (info_len <? array_offset d + 4) || (info_len <? count_offset d + 4) || ((size_offset d >? 0) && (info_len <? size_offset d)) then false else include_array in
      if negb include_array then array_dimensions (i + 1) l w info_len (Z.clearbit arrays i) data_len
      else
        let count := bpf_prog_info_read_offset_u32 w (count_offset d) in
        let size := bpf_prog_info_read_offset_u32 w (size_offset d) in
        array_dimensions (i + 1) l w info_len arrays (u32 (data_len + u32 (count * size)))
  end.
(** Step 4: the counts, the sizes and the places of the arrays, into [r]. *)
Fixpoint place_arrays (i : Z) (l : list bpf_prog_info_array_desc) (w : info) (arrays ptr : Z) (r : info) : info :=
  match l with
  | [] => r
  | d :: l =>
      if negb (Z.testbit arrays i) then place_arrays (i + 1) l w arrays ptr r
      else
        let count := bpf_prog_info_read_offset_u32 w (count_offset d) in
        let size := bpf_prog_info_read_offset_u32 w (size_offset d) in
        let r := bpf_prog_info_set_offset_u32 r (count_offset d) count in
        let r := bpf_prog_info_set_offset_u32 r (size_offset d) size in
        let r := bpf_prog_info_set_offset_u64 r (array_offset d) ptr in
        place_arrays (i + 1) l w arrays (u64 (ptr + u32 (count * size))) r
  end.
Definition roundup8 (n : Z) : Z := (n + 7) / 8 * 8.

Section Get.
(** bpf(2) with what it writes: the code, the structure and its length; and the allocator. *)
Context (bpf_obj_get_info_by_fd : Z -> info -> Z -> Z * info * Z) (malloc : Z -> option Z).
(** [inl] is ERR_PTR of a code.  Step 6 only warns. *)
Definition bpf_program__get_prog_info_linear (fd arrays : Z) : Z + bpf_prog_info_linear :=
  if negb (Z.shiftr arrays BPF_PROG_INFO_LAST_ARRAY =? 0) then inl (- EINVAL)
  else
    let '(err, w, info_len) := bpf_obj_get_info_by_fd fd (repeat 0 52) sizeof_info in
    if negb (err =? 0) then inl (- EFAULT)
    else
      let '(arrays, data_len) := array_dimensions 0 array_descs w info_len arrays 0 in
      let data_len := u32 (roundup8 data_len) in
      match malloc (sizeof_linear + data_len) with
      | None => inl (- ENOMEM)
      | Some p =>
          let data := p + sizeof_linear in
          let '(err, w', _) := bpf_obj_get_info_by_fd fd (place_arrays 0 array_descs w arrays data (repeat 0 52)) info_len in
          if negb (err =? 0) then inl (- EFAULT) else inr (Linear sizeof_info data_len arrays w' data)
      end.
End Get.
Fixpoint move_arrays (i : Z) (l : list bpf_prog_info_array_desc) (arrays by_ : Z) (w : info) : info :=
  match l with
  | [] => w
  | d :: l =>
      if negb (Z.testbit arrays i) then move_arrays (i + 1) l arrays by_ w
      else
        let addr := bpf_prog_info_read_offset_u64 w (array_offset d) in
        move_arrays (i + 1) l arrays by_ (bpf_prog_info_set_offset_u64 w (array_offset d) (u64 (addr + by_)))
  end.
Definition with_info (l : bpf_prog_info_linear) (w : info) : bpf_prog_info_linear := Linear (li_info_len l) (li_data_len l) (li_arrays l) w (li_data l).
Definition bpf_program__bpil_addr_to_offs (l : bpf_prog_info_linear) : bpf_prog_info_linear :=
  with_info l (move_arrays 0 array_descs (li_arrays l) (- li_data l) (li_info l)).
Definition bpf_program__bpil_offs_to_addr (l : bpf_prog_info_linear) : bpf_prog_info_linear :=
  with_info l (move_arrays 0 array_descs (li_arrays l) (li_data l) (li_info l)).

(** ** Words *)

(** The words a description stands for. *)
Definition array_words (d : bpf_prog_info_array_desc) : list Z := [2 * (array_offset d / 8); 2 * (array_offset d / 8) + 1].
Definition desc_words (d : bpf_prog_info_array_desc) : list Z :=
  array_words d ++ [count_offset d / 4] ++ (if size_offset d >=? 0 then [size_offset d / 4] else []).
Definition desc_ok (d : bpf_prog_info_array_desc) : Prop := 0 <= array_offset d < 208 /\ 0 <= count_offset d < 208 /\ -8 <= size_offset d < 208.
Lemma descs_ok : Forall desc_ok array_descs.
Proof. unfold array_descs. repeat constructor; vm_compute; done. Qed.
Lemma descs_apart : NoDup (concat (map desc_words array_descs)).
Proof. apply (bool_decide_unpack _). vm_compute. done. Qed.

Lemma set_u64_other w off v k : 0 <= off -> 0 <= k -> (k ∉ [2 * (off / 8); 2 * (off / 8) + 1]) -> getZ (bpf_prog_info_set_offset_u64 w off v) k = getZ w k.
Proof.
  intros Ho Hk Hn. unfold bpf_prog_info_set_offset_u64. replace (off >=? 0) with true by lia. rewrite !elem_of_cons in Hn.
  assert (0 <= off / 8) by (Z.div_mod_to_equations; lia). rewrite !getZ_setZ_ne by (lia || tauto). done.
Qed.
Lemma set_u64_length w off v : length (bpf_prog_info_set_offset_u64 w off v) = length w.
Proof. unfold bpf_prog_info_set_offset_u64. destruct (off >=? 0); [|done]. by rewrite !length_setZ. Qed.
Lemma read_set_u64 w off v : 0 <= off < 208 -> length w = 52%nat -> is_u64 v -> bpf_prog_info_read_offset_u64 (bpf_prog_info_set_offset_u64 w off v) off = v.
Proof.
  intros Ho Hl Hv. unfold bpf_prog_info_read_offset_u64, bpf_prog_info_set_offset_u64. replace (off >=? 0) with true by lia.
  assert (0 <= off / 8 < 26) by (Z.div_mod_to_equations; lia). rewrite getZ_setZ_eq by (rewrite length_setZ, Hl; lia). rewrite getZ_setZ_ne, getZ_setZ_eq by (rewrite ?Hl; lia).
  unfold u32, is_u64 in *. Z.div_mod_to_equations. lia.
Qed.
Lemma read_u32_pos w off : 0 <= off -> bpf_prog_info_read_offset_u32 w off = getZ w (off / 4).
Proof. intros H. unfold bpf_prog_info_read_offset_u32. by replace (off >=? 0) with true by lia. Qed.
Lemma read_u64_ext w w' off : (forall k, k ∈ [2 * (off / 8); 2 * (off / 8) + 1] -> getZ w k = getZ w' k) -> bpf_prog_info_read_offset_u64 w off = bpf_prog_info_read_offset_u64 w' off.
Proof. intros H. unfold bpf_prog_info_read_offset_u64. destruct (off >=? 0); [|done]. by rewrite !H by (rewrite !elem_of_cons; tauto). Qed.

(** ** The places of the arrays *)

Section Place.
Context (w : info) (arrays : Z).
Definition len_of (d : bpf_prog_info_array_desc) : Z := bpf_prog_info_read_offset_u32 w (count_offset d) * bpf_prog_info_read_offset_u32 w (size_offset d).
(** The bytes of the arrays of [l], those that are not included with none. *)
Fixpoint lens (i : Z) (l : list bpf_prog_info_array_desc) : list Z :=
  match l with [] => [] | d :: l => (if Z.testbit arrays i then u32 (len_of d) else 0) :: lens (i + 1) l end.
Definition sum (l : list Z) : Z := foldr Z.add 0 l.
(** One description: what is written. *)
Definition place1 (d : bpf_prog_info_array_desc) (ptr : Z) (r : info) : info :=
  bpf_prog_info_set_offset_u64
    (bpf_prog_info_set_offset_u32 (bpf_prog_info_set_offset_u32 r (count_offset d) (bpf_prog_info_read_offset_u32 w (count_offset d)))
       (size_offset d) (bpf_prog_info_read_offset_u32 w (size_offset d))) (array_offset d) ptr.
Lemma place1_length d ptr r : length (place1 d ptr r) = length r.
Proof using. unfold place1. rewrite set_u64_length. unfold bpf_prog_info_set_offset_u32. destruct (_ >=? 0), (_ >=? 0); by rewrite ?length_setZ. Qed.
Lemma place1_other d ptr r k : desc_ok d -> 0 <= k -> (k ∉ desc_words d) -> getZ (place1 d ptr r) k = getZ r k.
Proof using.
  intros (H1 & H2 & H3) Hk Hn. unfold place1, desc_words, array_words in *. rewrite !elem_of_app in Hn. rewrite set_u64_other by (lia || tauto).
  assert (0 <= count_offset d / 4) by (Z.div_mod_to_equations; lia).
  assert (k <> count_offset d / 4) by (intros ->; apply Hn; right; left; left).
  unfold bpf_prog_info_set_offset_u32. replace (count_offset d >=? 0) with true by lia. destruct (Z.geb_spec (size_offset d) 0) as [Hs|Hs]; [|by rewrite getZ_setZ_ne by lia].
  assert (0 <= size_offset d / 4) by (Z.div_mod_to_equations; lia). rewrite !getZ_setZ_ne; try lia. intros E. apply Hn. rewrite <- E. right; right. left.
Qed.
Lemma place1_reads d ptr r : desc_ok d -> NoDup (desc_words d) -> length r = 52%nat -> is_u64 ptr ->
  bpf_prog_info_read_offset_u64 (place1 d ptr r) (array_offset d) = ptr /\
  bpf_prog_info_read_offset_u32 (place1 d ptr r) (count_offset d) = bpf_prog_info_read_offset_u32 w (count_offset d) /\
  bpf_prog_info_read_offset_u32 (place1 d ptr r) (size_offset d) = bpf_prog_info_read_offset_u32 w (size_offset d).
Proof using.
  intros (H1 & H2 & H3) Hnd Hl Hp. unfold desc_words, array_words in Hnd. apply list.NoDup_app in Hnd as (_ & Ha & Hb). split.
  { unfold place1. apply read_set_u64; [done| |done]. unfold bpf_prog_info_set_offset_u32. destruct (_ >=? 0), (_ >=? 0); by rewrite ?length_setZ. }
  assert (A1 : 0 <= count_offset d / 4 < 52) by (Z.div_mod_to_equations; lia).
  assert (Hother : forall k, 0 <= k -> (k ∈ [count_offset d / 4] ++ (if size_offset d >=? 0 then [size_offset d / 4] else [])) ->
    forall r', getZ (bpf_prog_info_set_offset_u64 r' (array_offset d) ptr) k = getZ r' k).
  { intros k Hk Hin r'. apply set_u64_other; [lia|done|]. intros Hin'. by apply (Ha k). }
  unfold place1, bpf_prog_info_set_offset_u32. replace (count_offset d >=? 0) with true by lia. rewrite !(read_u32_pos _ (count_offset d)) by lia.
  destruct (Z.geb_spec (size_offset d) 0) as [Hs|Hs].
  - replace (size_offset d >=? 0) with true in * by lia. assert (A2 : 0 <= size_offset d / 4 < 52) by (Z.div_mod_to_equations; lia).
    cbn [app] in Hb, Hother. apply list.NoDup_cons in Hb as [Hb _]. assert (Hne : size_offset d / 4 <> count_offset d / 4) by (intros E; apply Hb; rewrite E; left).
    rewrite !(read_u32_pos _ (size_offset d)) by lia. rewrite !Hother by (lia || (left; done) || (right; left)). rewrite getZ_setZ_ne, !getZ_setZ_eq by (rewrite ?length_setZ, ?Hl; lia). done.
  - rewrite Hother by (lia || left). split; [apply getZ_setZ_eq; rewrite Hl; lia|]. unfold bpf_prog_info_read_offset_u32. by replace (size_offset d >=? 0) with false by lia.
Qed.
Lemma place_other l : forall i ptr r k, Forall desc_ok l -> 0 <= k -> (k ∉ concat (map desc_words l)) -> getZ (place_arrays i l w arrays ptr r) k = getZ r k.
Proof using.
  induction l as [|d l IH]; intros i ptr r k Ho Hk Hn; cbn [place_arrays]; [done|]. apply List.Forall_cons_iff in Ho as [Hd Ho]. cbn [map concat] in Hn. rewrite elem_of_app in Hn.
  destruct (negb _); [apply IH; tauto|]. cbv zeta. rewrite IH by tauto. apply place1_other; tauto.
Qed.
(** The [j]-th array, if it is included, is behind those before it. *)
Lemma place_spec l : forall i ptr r j d, Forall desc_ok l -> NoDup (concat (map desc_words l)) -> length r = 52%nat -> is_u64 ptr ->
  l !! j = Some d -> Z.testbit arrays (i + Z.of_nat j) = true ->
  let r' := place_arrays i l w arrays ptr r in
  bpf_prog_info_read_offset_u64 r' (array_offset d) = u64 (ptr + sum (take j (lens i l))) /\
  bpf_prog_info_read_offset_u32 r' (count_offset d) = bpf_prog_info_read_offset_u32 w (count_offset d) /\
  bpf_prog_info_read_offset_u32 r' (size_offset d) = bpf_prog_info_read_offset_u32 w (size_offset d).
Proof using.
  induction l as [|d0 l IH]; intros i ptr r j d Ho Hnd Hl Hp Hj Hb; [done|]. apply List.Forall_cons_iff in Ho as [Hd Ho]. cbn [map concat] in Hnd.
  apply list.NoDup_app in Hnd as (Hnd0 & Hx & Hnd). cbn [place_arrays lens]. destruct j as [|j].
  - injection Hj as ->. rewrite Z.add_0_r in Hb. rewrite Hb. cbn [negb take]. unfold sum at 1. cbn [foldr]. rewrite Z.add_0_r, (u64_small _ Hp).
    set (r1 := bpf_prog_info_set_offset_u64 _ _ _). change r1 with (place1 d ptr r). destruct (place1_reads d ptr r Hd Hnd0 Hl Hp) as (E1 & E2 & E3).
    assert (Hsame : forall k, 0 <= k -> k ∈ desc_words d -> getZ (place_arrays (i + 1) l w arrays (u64 (ptr + u32 (bpf_prog_info_read_offset_u32 w (count_offset d) *
      bpf_prog_info_read_offset_u32 w (size_offset d)))) (place1 d ptr r)) k = getZ (place1 d ptr r) k) by (intros k Hk Hin; apply place_other; auto).
    destruct Hd as (A1 & A2 & A3). unfold desc_words, array_words in Hsame. cbv zeta. set (X := place_arrays _ _ _ _ _ _) in Hsame |- *. clearbody X. split; [|split].
    + refine (eq_trans _ E1). apply read_u64_ext. intros k Hk. apply Hsame; [|by apply elem_of_app; left]. rewrite !elem_of_cons, elem_of_nil in Hk. Z.div_mod_to_equations. lia.
    + refine (eq_trans _ E2). rewrite !(read_u32_pos _ (count_offset d)) by lia. apply Hsame; [Z.div_mod_to_equations; lia|]. apply elem_of_app; right. left.
    + refine (eq_trans _ E3). destruct (Z.geb_spec (size_offset d) 0) as [Hs|Hs]; [|unfold bpf_prog_info_read_offset_u32; by replace (size_offset d >=? 0) with false by lia].
      rewrite !(read_u32_pos _ (size_offset d)) by lia. apply Hsame; [Z.div_mod_to_equations; lia|]. apply elem_of_app; right. apply elem_of_app; right. left.
  - cbn [lookup list_lookup] in Hj. rewrite Nat2Z.inj_succ in Hb. replace (i + Z.succ (Z.of_nat j)) with (i + 1 + Z.of_nat j) in Hb by lia. cbn [take].
    unfold sum at 1. cbn [foldr]. fold (sum (take j (lens (i + 1) l))). destruct (Z.testbit arrays i); cbn [negb].
    + cbv zeta. destruct (IH (i + 1) (u64 (ptr + u32 (len_of d0))) (place1 d0 ptr r) j d Ho Hnd ltac:(by rewrite place1_length) ltac:(apply u64_range) Hj Hb) as (E1 & E2).
      cbv zeta in E1, E2. split; [|exact E2]. refine (eq_trans E1 _). unfold u64. rewrite Z.add_mod_idemp_l by lia. f_equal. lia.
    + by apply IH.
Qed.
End Place.
Lemma lens_ext w a a' l : forall i, (forall k, i <= k -> Z.testbit a k = Z.testbit a' k) -> lens w a i l = lens w a' i l.
Proof. induction l as [|d l IH]; intros i H; cbn [lens]; [done|]. rewrite (H i) by lia. f_equal. apply IH. intros k Hk. apply H. lia. Qed.
(** The second step counts the included arrays. *)
Lemma dimensions_spec w info_len l : forall i arrays n, 0 <= i -> let '(a, m) := array_dimensions i l w info_len arrays n in
  (forall k, 0 <= k < i -> Z.testbit a k = Z.testbit arrays k) /\ (forall k, Z.testbit a k = true -> Z.testbit arrays k = true) /\
  m mod 4294967296 = (n + sum (lens w a i l)) mod 4294967296 /\ (is_u32 n -> is_u32 m).
Proof.
  induction l as [|d l IH]; intros i arrays n Hi; cbn [array_dimensions]; [cbn; by rewrite Z.add_0_r|].
  set (inc := if _ || _ then false else _). assert (Hinc : inc = true -> Z.testbit arrays i = true) by (unfold inc; destruct (_ || _); done).
  cbv zeta. destruct inc; cbn [negb].
  - specialize (IH (i + 1) arrays (u32 (n + u32 (len_of w d))) ltac:(lia)). unfold len_of in *. destruct (array_dimensions _ _ _ _ _ _) as [a m]. destruct IH as (H1 & H2 & H3 & H4).
    split; [intros k Hk; apply H1; lia|]. split; [done|]. split; [|intros _; apply H4, u32_range]. cbn [lens]. rewrite (H1 i), Hinc by (lia || done). unfold sum in *. cbn [foldr].
    rewrite H3. unfold u32, len_of. rewrite Z.add_mod_idemp_l by lia. f_equal. lia.
  - specialize (IH (i + 1) (Z.clearbit arrays i) n ltac:(lia)). destruct (array_dimensions _ _ _ _ _ _) as [a m]. destruct IH as (H1 & H2 & H3 & H4).
    assert (Hbit : forall k, k <> i -> 0 <= k -> Z.testbit (Z.clearbit arrays i) k = Z.testbit arrays k) by (intros k Hk Hk0; apply Z.clearbit_neq; lia).
    split; [intros k Hk; rewrite H1 by lia; apply Hbit; lia|]. split.
    { intros k Hk. apply H2 in Hk. rewrite Z.clearbit_eqb in Hk. by apply andb_prop in Hk as [? _]. }
    split; [|done]. cbn [lens]. rewrite (H1 i) by lia. rewrite Z.clearbit_eq. unfold sum in *. cbn [foldr]. by rewrite Z.add_0_l.
Qed.
Lemma sum_nonneg l : Forall (fun x => 0 <= x) l -> 0 <= sum l.
Proof. unfold sum. induction 1; cbn [foldr]; lia. Qed.
Lemma sum_app a b : sum (a ++ b) = sum a + sum b.
Proof. unfold sum. induction a; cbn [foldr app]; lia. Qed.
Lemma lens_nonneg w a l : forall i, Forall (fun x => 0 <= x) (lens w a i l).
Proof. induction l as [|d l IH]; intros i; cbn [lens]; constructor; [|apply IH]. destruct (Z.testbit a i); [apply u32_range|lia]. Qed.
Lemma lens_lookup w a l : forall i j d, l !! j = Some d -> Z.testbit a (i + Z.of_nat j) = true -> lens w a i l !! j = Some (u32 (len_of w d)).
Proof.
  induction l as [|d0 l IH]; intros i j d Hj Hb; [done|]. destruct j as [|j]; cbn [lens].
  - injection Hj as ->. rewrite Z.add_0_r in Hb. by rewrite Hb.
  - cbn [lookup list_lookup] in *. apply IH; [done|]. replace (i + 1 + Z.of_nat j) with (i + Z.of_nat (S j)) by lia. done.
Qed.
(** Between two places lies the first array. *)
Lemma sum_between l i j x : Forall (fun x => 0 <= x) l -> l !! i = Some x -> (i < j)%nat -> sum (take i l) + x <= sum (take j l).
Proof.
  intros Hp Hi Hj. rewrite <- (take_drop i (take j l)), sum_app, take_take, Nat.min_l by lia. rewrite skipn_firstn_comm, (drop_S _ _ _ Hi).
  replace (j - i)%nat with (S (j - i - 1)) by lia. cbn [take]. unfold sum at 3. cbn [foldr]. fold (sum (take (j - i - 1) (drop (S i) l))).
  assert (0 <= sum (take (j - i - 1) (drop (S i) l))); [|lia]. by apply sum_nonneg, Forall_take, Forall_drop.
Qed.
Lemma sum_take_le l i x : Forall (fun x => 0 <= x) l -> l !! i = Some x -> sum (take i l) + x <= sum l.
Proof.
  intros Hp Hi. rewrite <- (firstn_all l) at 2. apply sum_between; [done|done|]. by eapply lookup_lt_Some.
Qed.

(** C39: The arrays of a program fit their block.  Unless their sizes together overflow 32 bits, the
    kernel is asked to write every included array to a place inside the data of the block, with
    the number and the size of elements it has reported, and the places follow each other
    without overlapping. *)
Theorem info_arrays_fit (w : info) (info_len arrays p : Z) :
  let '(a, n) := array_dimensions 0 array_descs w info_len arrays 0 in
  let data_len := u32 (roundup8 n) in
  let data := p + sizeof_linear in
  let r := place_arrays 0 array_descs w a data (repeat 0 52) in
  sum (lens w a 0 array_descs) <= 4294967288 -> Forall (fun d => is_u32 (len_of w d)) array_descs -> 0 <= p -> data + data_len < 18446744073709551616 ->
  forall i d, array_descs !! i = Some d -> Z.testbit a (Z.of_nat i) = true ->
    let place := bpf_prog_info_read_offset_u64 r (array_offset d) in
    data <= place /\ place + len_of w d <= data + data_len /\
    bpf_prog_info_read_offset_u32 r (count_offset d) = bpf_prog_info_read_offset_u32 w (count_offset d) /\
    bpf_prog_info_read_offset_u32 r (size_offset d) = bpf_prog_info_read_offset_u32 w (size_offset d) /\
    forall j e, (i < j)%nat -> array_descs !! j = Some e -> Z.testbit a (Z.of_nat j) = true ->
      place + len_of w d <= bpf_prog_info_read_offset_u64 r (array_offset e).
Proof.
  pose proof (dimensions_spec w info_len array_descs 0 arrays 0 ltac:(lia)) as HD. destruct (array_dimensions 0 array_descs w info_len arrays 0) as [a n].
  destruct HD as (_ & _ & Hn & Hn32). specialize (Hn32 ltac:(done)). cbv zeta. intros Htot Hlen Hp Hd.
  pose proof (sum_nonneg _ (lens_nonneg w a array_descs 0)) as Hs0. set (T := sum (lens w a 0 array_descs)) in *.
  assert (n = T) as ->. { unfold is_u32 in Hn32. rewrite Z.add_0_l, !Z.mod_small in Hn by lia. done. }
  assert (HT : T <= u32 (roundup8 T)). { unfold u32, roundup8. rewrite Z.mod_small; Z.div_mod_to_equations; lia. }
  assert (Hplace : forall j e, array_descs !! j = Some e -> Z.testbit a (Z.of_nat j) = true ->
    bpf_prog_info_read_offset_u64 (place_arrays 0 array_descs w a (p + sizeof_linear) (repeat 0 52)) (array_offset e) = p + sizeof_linear + sum (take j (lens w a 0 array_descs)) /\
    0 <= sum (take j (lens w a 0 array_descs)) /\ sum (take j (lens w a 0 array_descs)) + len_of w e <= T /\ lens w a 0 array_descs !! j = Some (len_of w e)).
  { intros j e Hj Hb. assert (El : lens w a 0 array_descs !! j = Some (len_of w e)).
    { rewrite (lens_lookup _ _ _ _ _ _ Hj) by done. f_equal. apply u32_small. rewrite Forall_lookup in Hlen. by eapply Hlen. }
    pose proof (sum_nonneg _ (Forall_take _ j _ (lens_nonneg w a array_descs 0))) as H1. pose proof (sum_take_le _ _ _ (lens_nonneg w a array_descs 0) El) as H2. fold T in H2.
    assert (0 <= len_of w e). { rewrite Forall_lookup in Hlen. apply (Hlen _ _ Hj). }
    destruct (place_spec w a array_descs 0 (p + sizeof_linear) (repeat 0 52) j e descs_ok descs_apart eq_refl) as (E & _); [unfold is_u64, sizeof_linear in *; lia|done|done|].
    split; [|done]. rewrite E. apply u64_small. unfold is_u64, sizeof_linear in *. lia. }
  intros i d Hi Hb. destruct (Hplace i d Hi Hb) as (E & H1 & H2 & H3). rewrite E.
  destruct (place_spec w a array_descs 0 (p + sizeof_linear) (repeat 0 52) i d descs_ok descs_apart eq_refl) as (_ & E2 & E3); [unfold is_u64, sizeof_linear in *; lia|done|done|].
  split; [lia|]. split; [lia|]. split; [done|]. split; [done|]. intros j e Hij Hj Hbj. destruct (Hplace j e Hj Hbj) as (-> & _).
  pose proof (sum_between _ i j _ (lens_nonneg w a array_descs 0) H3 Hij). lia.
Qed.

(** ** Pointers and offsets *)

Section Move.
Context (arrays : Z).
(** The words that hold pointers to included arrays. *)
Fixpoint pointer_words (i : Z) (l : list bpf_prog_info_array_desc) : list Z :=
  match l with [] => [] | d :: l => (if Z.testbit arrays i then array_words d else []) ++ pointer_words (i + 1) l end.
Lemma pointer_words_in l : forall i k, k ∈ pointer_words i l <-> exists j d, l !! j = Some d /\ Z.testbit arrays (i + Z.of_nat j) = true /\ k ∈ array_words d.
Proof using.
  induction l as [|d0 l IH]; intros i k; cbn [pointer_words].
  { rewrite elem_of_nil. split; [done|]. by intros (j & d & ? & _). }
  rewrite elem_of_app, IH. split.
  - intros [H|(j & d & Hj & Hb & Hk)].
    + destruct (Z.testbit arrays i) eqn:E; [|by apply elem_of_nil in H]. exists O, d0. rewrite Z.add_0_r. done.
    + exists (S j), d. split; [done|]. replace (i + Z.of_nat (S j)) with (i + 1 + Z.of_nat j) by lia. done.
  - intros (j & d & Hj & Hb & Hk). destruct j as [|j].
    + injection Hj as <-. rewrite Z.add_0_r in Hb. rewrite Hb. by left.
    + right. exists j, d. split; [done|]. replace (i + 1 + Z.of_nat j) with (i + Z.of_nat (S j)) by lia. done.
Qed.
Lemma move_other b l : forall i w k, Forall desc_ok l -> 0 <= k -> (k ∉ pointer_words i l) -> getZ (move_arrays i l arrays b w) k = getZ w k.
Proof using.
  induction l as [|d l IH]; intros i w k Ho Hk Hn; cbn [move_arrays]; [done|]. apply List.Forall_cons_iff in Ho as [(Hd & _) Ho]. cbn [pointer_words] in Hn. rewrite elem_of_app in Hn.
  destruct (Z.testbit arrays i); cbn [negb]; [|apply IH; tauto]. cbv zeta. rewrite IH by tauto. apply set_u64_other; [lia|done|tauto].
Qed.
Lemma move_words b l : forall i w, length w = 52%nat -> Forall is_u32 w -> length (move_arrays i l arrays b w) = 52%nat /\ Forall is_u32 (move_arrays i l arrays b w).
Proof using.
  induction l as [|d l IH]; intros i w Hl Hw; cbn [move_arrays]; [done|]. destruct (negb _); [by apply IH|]. cbv zeta. apply IH; [by rewrite set_u64_length|].
  unfold bpf_prog_info_set_offset_u64. destruct (_ >=? 0); [|done]. repeat apply Forall_setZ; try apply u32_range. done.
Qed.
Lemma read_u64_range w off : 0 <= off -> Forall is_u32 w -> is_u64 (bpf_prog_info_read_offset_u64 w off).
Proof using.
  intros Ho Hw. assert (H : forall k, is_u32 (getZ w k)).
  { intros k. unfold getZ. destruct (nth_in_or_default (Z.to_nat k) w 0) as [H| ->]; [|done]. rewrite list.Forall_forall in Hw. by apply Hw, list_elem_of_In. }
  unfold bpf_prog_info_read_offset_u64. replace (off >=? 0) with true by lia. pose proof (H (2 * (off / 8))). pose proof (H (2 * (off / 8) + 1)). unfold is_u32, is_u64 in *. lia.
Qed.
Lemma array_words_desc d k : k ∈ array_words d -> k ∈ desc_words d.
Proof using. intros H. unfold desc_words. apply elem_of_app. by left. Qed.
Lemma pointer_words_desc l i k : k ∈ pointer_words i l -> k ∈ concat (map desc_words l).
Proof using.
  intros (j & d & Hj & _ & Hk)%pointer_words_in. apply list_elem_of_In, in_concat. exists (desc_words d). split; [|by apply list_elem_of_In, array_words_desc].
  apply in_map, list_elem_of_In. by eapply list_elem_of_lookup_2.
Qed.
Lemma move_spec b l : forall i w j d, Forall desc_ok l -> NoDup (concat (map desc_words l)) -> length w = 52%nat -> l !! j = Some d -> Z.testbit arrays (i + Z.of_nat j) = true ->
  bpf_prog_info_read_offset_u64 (move_arrays i l arrays b w) (array_offset d) = u64 (bpf_prog_info_read_offset_u64 w (array_offset d) + b).
Proof using.
  induction l as [|d0 l IH]; intros i w j d Ho Hnd Hl Hj Hb; [done|]. apply List.Forall_cons_iff in Ho as [Hd Ho]. cbn [map concat] in Hnd.
  apply list.NoDup_app in Hnd as (_ & Hx & Hnd). cbn [move_arrays]. destruct j as [|j].
  - injection Hj as ->. rewrite Z.add_0_r in Hb. rewrite Hb. cbn [negb]. cbv zeta. destruct Hd as (Hd & _).
    rewrite (read_u64_ext _ (bpf_prog_info_set_offset_u64 w (array_offset d) (u64 (bpf_prog_info_read_offset_u64 w (array_offset d) + b)))).
    + apply read_set_u64; [done|done|apply u64_range].
    + intros k Hk. apply move_other; [done|rewrite !elem_of_cons, elem_of_nil in Hk; Z.div_mod_to_equations; lia|]. intros Hin%pointer_words_desc. apply (Hx k); [by apply array_words_desc|done].
  - cbn [lookup list_lookup] in Hj. rewrite Nat2Z.inj_succ in Hb. replace (i + Z.succ (Z.of_nat j)) with (i + 1 + Z.of_nat j) in Hb by lia.
    destruct (Z.testbit arrays i); cbn [negb]; [|by eapply IH]. cbv zeta. destruct Hd as (Hd & _). rewrite (IH (i + 1) _ j d) by (done || by rewrite set_u64_length). do 2 f_equal.
    apply read_u64_ext. intros k Hk. rewrite Forall_lookup in Ho. destruct (Ho _ _ Hj) as (Hd1 & _).
    apply set_u64_other; [lia|rewrite !elem_of_cons, elem_of_nil in Hk; Z.div_mod_to_equations; lia|]. intros Hin. apply (Hx k); [by apply array_words_desc|].
    apply list_elem_of_In, in_concat. exists (desc_words d). split; [apply in_map, list_elem_of_In; by eapply list_elem_of_lookup_2|]. by apply list_elem_of_In, array_words_desc.
Qed.
End Move.
Lemma read_u64_words w w' off k : 0 <= off < 208 -> length w = 52%nat -> length w' = 52%nat -> Forall is_u32 w -> Forall is_u32 w' ->
  bpf_prog_info_read_offset_u64 w off = bpf_prog_info_read_offset_u64 w' off -> k ∈ [2 * (off / 8); 2 * (off / 8) + 1] -> getZ w k = getZ w' k.
Proof.
  intros Ho Hl Hl' Hw Hw' E Hk. assert (H : forall v i, Forall is_u32 v -> is_u32 (getZ v i)).
  { intros v i Hv. unfold getZ. destruct (nth_in_or_default (Z.to_nat i) v 0) as [H| ->]; [|done]. rewrite list.Forall_forall in Hv. by apply Hv, list_elem_of_In. }
  unfold bpf_prog_info_read_offset_u64 in E. replace (off >=? 0) with true in E by lia.
  pose proof (H w (2 * (off / 8)) Hw). pose proof (H w (2 * (off / 8) + 1) Hw). pose proof (H w' (2 * (off / 8)) Hw'). pose proof (H w' (2 * (off / 8) + 1) Hw').
  unfold is_u32 in *. rewrite !elem_of_cons, elem_of_nil in Hk. destruct Hk as [->|[->|[]]]; lia.
Qed.

(** Pointers become offsets and pointers again.  Turning the pointers of a block into offsets and
    back gives the same block.  Where the block with the offsets is loaded at another address,
    every included array is at the same distance from the new data, and no other word changes. *)
Theorem info_offsets_roundtrip (l : bpf_prog_info_linear) (data : Z) : length (li_info l) = 52%nat -> Forall is_u32 (li_info l) ->
  let stored := bpf_program__bpil_addr_to_offs l in
  let loaded := bpf_program__bpil_offs_to_addr (Linear (li_info_len l) (li_data_len l) (li_arrays l) (li_info stored) data) in
  bpf_program__bpil_offs_to_addr stored = l /\
  (forall i d, array_descs !! i = Some d -> Z.testbit (li_arrays l) (Z.of_nat i) = true ->
     bpf_prog_info_read_offset_u64 (li_info loaded) (array_offset d) = u64 (bpf_prog_info_read_offset_u64 (li_info l) (array_offset d) - li_data l + data)) /\
  (forall k, 0 <= k -> (k ∉ pointer_words (li_arrays l) 0 array_descs) -> getZ (li_info loaded) k = getZ (li_info l) k).
Proof.
  intros Hl Hw. cbv zeta. unfold bpf_program__bpil_offs_to_addr, bpf_program__bpil_addr_to_offs, with_info. cbn [li_info_len li_data_len li_arrays li_info li_data].
  set (w0 := move_arrays 0 array_descs (li_arrays l) (- li_data l) (li_info l)). destruct (move_words (li_arrays l) (- li_data l) array_descs 0 (li_info l) Hl Hw) as [Hl0 Hw0]. fold w0 in Hl0, Hw0.
  assert (Hmoved : forall b i d, array_descs !! i = Some d -> Z.testbit (li_arrays l) (Z.of_nat i) = true ->
    bpf_prog_info_read_offset_u64 (move_arrays 0 array_descs (li_arrays l) b w0) (array_offset d) = u64 (bpf_prog_info_read_offset_u64 (li_info l) (array_offset d) - li_data l + b)).
  { intros b i d Hi Hb. rewrite (move_spec (li_arrays l) b array_descs 0 w0 i d descs_ok descs_apart Hl0 Hi Hb). unfold w0.
    rewrite (move_spec (li_arrays l) _ array_descs 0 _ i d descs_ok descs_apart Hl Hi Hb). unfold u64. rewrite Z.add_mod_idemp_l by lia. f_equal. }
  assert (Hother : forall b k, 0 <= k -> (k ∉ pointer_words (li_arrays l) 0 array_descs) -> getZ (move_arrays 0 array_descs (li_arrays l) b w0) k = getZ (li_info l) k).
  { intros b k Hk Hn. unfold w0. rewrite !move_other by (done || apply descs_ok). done. }
  split; [|split; [apply Hmoved|apply Hother]]. destruct l as [il dl a w data0]. cbn [li_info_len li_data_len li_arrays li_info li_data] in *. f_equal.
  destruct (move_words a data0 array_descs 0 w0 Hl0 Hw0) as [Hl1 Hw1]. apply list_eq. intros i. destruct (decide (i < 52)%nat) as [Hi|Hi].
  2: { rewrite !(proj2 (lookup_ge_None _ _)) by lia. done. }
  assert (Eg : getZ (move_arrays 0 array_descs a data0 w0) (Z.of_nat i) = getZ w (Z.of_nat i)).
  { destruct (decide (Z.of_nat i ∈ pointer_words a 0 array_descs)) as [Hin|Hn]; [|apply Hother; [lia|done]].
    apply pointer_words_in in Hin as (j & d & Hj & Hb & Hk). pose proof descs_ok as Hok. rewrite Forall_lookup in Hok. destruct (Hok _ _ Hj) as (Hd & _).
    apply (read_u64_words _ _ (array_offset d)); try done. rewrite (Hmoved _ _ _ Hj Hb). rewrite Z.sub_add. apply u64_small, read_u64_range; [lia|done]. }
  pose proof (getZ_lookup w (Z.of_nat i) ltac:(lia)) as E1. pose proof (getZ_lookup (move_arrays 0 array_descs a data0 w0) (Z.of_nat i) ltac:(lia)) as E2.
  rewrite Nat2Z.id in E1, E2. congruence.
Qed.
(** A program with three arrays, in a block at 4096. *)
Definition demo_words : info := setZ (setZ (setZ (repeat 0 52) 4 24) 13 3) 45 2.
Definition demo_linear : bpf_prog_info_linear :=
  Linear 208 56 261 (place_arrays 0 array_descs demo_words 261 4096 (repeat 0 52)) 4096.
Lemma info_arrays_fit_witness : exists r, r = place_arrays 0 array_descs demo_words 261 (3872 + sizeof_linear) (repeat 0 52) /\
  array_dimensions 0 array_descs demo_words 208 261 0 = (261, 52) /\
  4096 <= bpf_prog_info_read_offset_u64 r 56 /\ bpf_prog_info_read_offset_u64 r 56 + 12 <= bpf_prog_info_read_offset_u64 r 184.
Proof.
  pose proof (info_arrays_fit demo_words 208 261 3872) as H. assert (E : array_dimensions 0 array_descs demo_words 208 261 0 = (261, 52)) by (vm_compute; reflexivity).
  rewrite E in H. eexists. split; [reflexivity|]. split; [exact E|].
  destruct (H ltac:(by vm_compute) ltac:(apply (bool_decide_unpack _); vm_compute; done) ltac:(done) ltac:(by vm_compute) 2%nat (Desc 56 52 (-4)) eq_refl eq_refl) as (H1 & _ & _ & _ & H2).
  split; [exact H1|]. exact (H2 8%nat (Desc 184 180 (-8)) ltac:(lia) eq_refl eq_refl).
Defined.
Lemma info_offsets_roundtrip_witness :
  bpf_program__bpil_offs_to_addr (bpf_program__bpil_addr_to_offs demo_linear) = demo_linear /\
  bpf_prog_info_read_offset_u64 (li_info (bpf_program__bpil_addr_to_offs demo_linear)) 56 = 24.
Proof.
  destruct (info_offsets_roundtrip demo_linear 0) as [H _]; [by vm_compute|apply (bool_decide_unpack _); vm_compute; done|]. split; [exact H|]. vm_compute. reflexivity.
Defined.
